(* ===== verification/_CoqProject ===== *)
-Q . S2P
Prelude.v
F64.v
F32.v
Bson.v
RefBson.v
Paths.v
Geo.v
Query.v
Update.v
BTree.v
Storage.v
IndexKey.v
LeBytes.v
Planner.v
Schema.v
Collation.v
Expressions.v
Accumulators.v
Hnsw.v
HnswExact.v
Stages.v
StageLaws.v
Window.v
Joins.v
GraphLookup.v
Spill.v
GeoNear.v
Oplog.v
Collection.v
Exec.v
SearchIndexes.v
TextIndex.v
VectorIndex.v
VectorSearch.v
Pipeline.v
PipelineTypes.v
Consistency.v
Progress.v
Ttl.v
Database.v
Redb.v
Find.v
DbAggregate.v
View.v
Explain.v
Opfs.v
RwLock.v
WireCursors.v
PyBson.v
Wire.v
Scram.v
Auth.v
Server.v
WireTxn.v
Sessions.v
Namespace.v
