(* ===== verification/Prelude.v ===== *)
(** * smongo: a verification development

    smongo is an embedded document database that speaks the MongoDB query
    language.  This library models its Rust engine,
    [src/rust/smongo-engine/src], file by file, and the core of the server in
    [src/rust/smongo-py/src] that speaks the wire protocol, and proves what
    makes the parts correct.  Paths below are relative to the engine's
    directory, those of the files [wire_*.rs] and of the last group to the
    server's.

    ** The program, and where its parts are modelled

    Documents are BSON values.  A collection stores each document as bytes
    under its id in a table of a storage session, keeps one table per index
    beside it, and appends its writes to an oplog table.  A query is planned
    against the indexes, the plan is executed as a scan that filters with the
    query evaluator, and an aggregation pipeline transforms the documents.
    The server cuts what a socket gives into messages, decodes each to a
    command, asks the gate whether the user of the connection may run it, and
    encodes the response.

    - [Prelude]: Rust results, the [let?] notation, lists, sorting, integers.
    - [F64], [F32]: binary64 and binary32 arithmetic on [SpecFloat], casts,
      the order of the numbers, the bits of an [f32].
    - [Bson]: BSON values, the operations of the [bson] crate as the class
      [BsonOps] with its documented behaviour in [BsonLaws],
      [BsonCodecLaws] and [BsonOrderLaws], and well-typed values
      ([bson_ok]); [RefBson] is an instance that satisfies them all.
    - [Paths] ([paths.rs]), [Geo] ([geo/]), [Query] ([query/mod.rs]),
      [Update] ([update/mod.rs]), [Schema] ([schema.rs]),
      [Collation] ([collation.rs]).
    - [BTree], [Storage] ([storage/mod.rs], [storage/memory.rs]): tables as
      sorted association lists, cursors with the snapshot they take.
    - [IndexKey] ([index/mod.rs], [index/prefix_index.rs]),
      [Planner] ([planner/]).
    - [Expressions], [Accumulators], [Stages], [Window], [Joins],
      [GeoNear], [Spill], [Pipeline] ([aggregation/]): the expression
      language, the accumulators, the stages in their batch and streaming
      forms, the spill files, and the executor.  A stream of documents is the
      list of its items, each a document or an error.
    - [Oplog] ([oplog.rs]), [Collection] ([collection/mod.rs], [crud.rs],
      [indexes.rs]), [Exec] ([collection/exec.rs]): a state and error monad
      over the store, the oplog hub and the cache of index specifications.
    - [SearchIndexes], [TextIndex] ([index/bitmap_index.rs],
      [index/text_index.rs]), [Find] ([exec.rs], [cursor.rs],
      [geo_find/native.rs], the find operations of [crud.rs]),
      [Ttl] ([collection/ttl.rs]), [Explain] ([collection/explain.rs],
      [explain/mod.rs]).
    - [Hnsw] ([index/hnsw.rs]), [VectorIndex] ([index/vector_index.rs]),
      [VectorSearch] ([aggregation/vector.rs], the [$vectorSearch] stages,
      the vector query of a find).
    - [Database] ([database/mod.rs]), [DbAggregate] (pipelines that read and
      write a database: [DatabaseContext], [$out], [$merge]), [View]
      ([collection/view.rs]).
    - [Redb] ([storage/redb_backend.rs], [collection/transactions.rs]): the
      transactional backend over the operations of the [redb] crate, the class
      [RedbOps] with its laws [RedbLaws].
    - [Opfs] ([storage/opfs.rs]): the backend on browser files; [LeBytes]:
      little-endian integers in byte strings, for it and the messages.
    - Server: [RwLock] ([locking.rs]), [WireCursors] ([wire_cursors.rs]),
      [PyBson] ([bson_helpers.rs], [raw_bson.rs], [wire_codec.rs], the text of
      [objectid.rs]: Python values and BSON), [Wire] ([wire_msg.rs]),
      [Scram] ([scram.rs]), [Auth] ([rbac.rs], [wire_errors.rs], the commands
      of users in [wire_commands/admin.rs], of SASL in [handshake.rs], the
      gate of [wire_server.rs]), [Server] ([wire_server.rs],
      [wire_dispatch.rs], [hello]), [WireTxn] ([wire_transactions.rs], the
      transactions of [wire_context.rs] and [redb_client.rs], over [Redb]),
      [Sessions] ([wire_sessions.rs], [wire_commands/sessions.rs]),
      [Namespace] ([validate_namespace]).
    - [StageLaws], [GraphLookup], [HnswExact], [PipelineTypes],
      [Consistency] and [Progress] hold theorems only.

    Definitions keep the names of the source; the comment before each names
    the lines it translates.  A fallible function returns [result]; a panic is
    an error of its own kind that no handler catches.  Integers are [Z] with
    the wrap-around of the release profile written out.

    ** What the theorems show

    - Collections ([Consistency], [Exec]), within the scope below:
      insertions, updates and deletions that succeed keep the indexes in
      agreement with the data ([coll_ok]), so that after any sequence of them
      an index scan and a collection scan return the same documents; the exact
      effect and counts of each write; an index seek returns what the scan
      returns.  [Progress]: without a unique index a batch of new documents is
      always accepted.
    - Finding ([Find], [SearchIndexes], [TextIndex], [Explain]): [find] runs
      the plan of its filter and, where an equality condition on an indexed
      field is on values of one type ([exact_seeks]) and no field of an index
      is a path, returns what a scan of the collection returns; a cursor
      answers from the state it was opened in; the bitmap, text and geospatial
      scans find what they should; an explanation counts what [find] returns.
    - Vectors ([Hnsw], [HnswExact], [VectorIndex], [VectorSearch]): building
      and searching the graph neither panics nor runs out of fuel, and
      returns distinct stored vectors with their distances; on an index
      smaller than the beam the search is exact; the index is a map from ids
      to vectors and reads back from its bytes; the exact stage is the sorted
      scores of the candidates, cut at the limit.
    - Catalogue ([Database], [DbAggregate], [View], [Ttl]): dropping and
      renaming move exactly the tables of a collection; [$out] leaves the
      results as the target; a view writes as its collection does; the reaper
      removes what has expired.
    - Storage: every write refines the map operation; the tables stay sorted.
      [Redb]: a transaction is all or nothing, a scan sees its pending writes,
      outside transactions the backend refines the one in memory, and the
      checkpoint is one step.
    - Pipelines ([Pipeline], [PipelineTypes]): a pipeline without [let] nests
      no deeper than it is written, so that what a deeper call would do does
      not matter; taking out the leading [$match] stages changes nothing;
      documents stay well typed through every stage.
    - Stages ([Stages], [StageLaws], [Spill], [GeoNear], [Joins],
      [GraphLookup]): streaming forms equal batch forms; [$group] partitions;
      the fused [$sort] and [$limit], the heap of [$geoNear] and the external
      sort and group on disk agree with their plain definitions; the hash
      join is the nested loop; the graph search ends and finds exactly what
      is reachable, as long as no link is a foreign document; the memory limit is
      enforced.
    - Languages ([Query], [Update], [Expressions], [Schema], [Collation],
      [Paths]): totality on well-formed queries, type preservation, the
      recursion equations of the evaluators, the validator against its
      specification, orders that are total preorders, round trips.
    - [Planner]: the recursion equation, the soundness of partial indexes.
    - [Oplog]: entries decode to what was appended, reads resume after their
      key, truncation removes exactly the older entries.

    - [Opfs]: the writes of a cursor refine those of a map, and a file cut
      short keeps the rows before the cut.
    - [RwLock]: a writer excludes all others in every interleaving, and the
      waiting threads drain.  [WireCursors]: the batches of a cursor are its
      documents in order, and the registry keeps its bound.
    - [PyBson], [Wire]: plain values survive the conversions and the bytes; a
      message of the format is decoded to what it frames, a wrong checksum is
      refused, the decoding loops end.
    - [Scram], [Auth]: a client that knows the password is accepted, and what
      is accepted was made with the stored key; a user that is created can
      log in and has its roles and no others.  [Server]: the cutting of the
      stream does not matter, nor does compression, and over all connections
      of a server that requires authentication only a message of a connection
      that has itself been through a login, with a role of a user it logged in
      as that grants the command, changes the users or what is behind the
      commands ([trail] is the history of a connection).
    - [WireTxn], [Sessions]: the writes during a transaction over the
      wire take effect together or not at all; at most one session has one; a logical
      session in use is kept, and their number is bounded.

    Theorems at the end of several files show behaviour the code does not
    intend; they are the findings of the manifest.

    ** The scope of the theorems

    The code keeps its promises in a smaller world than its interface, and the
    theorems say which one.
    - The agreement of indexes and data ([coll_ok], [layout]) is about plain
      B-tree indexes without a partial filter, tables of different names, and ids of one
      length in bytes, as ObjectIds are: nothing separates the value from the id in
      an index entry, so ids of different lengths collide
      ([entries_collide]), and a failed or repeated insertion leaves an entry
      behind ([failed_insert_leaves_entry], [reinsert_leaves_stale_entry]).  Updates keep
      the [_id] ([update_fits]); filters evaluate without an error ([answers]).
    - Values are compared and sorted where the order is total
      ([comparable]: no NaN, Decimal128, Symbol or integer from 2^53 on).
      [sort_by] is the stable sort; for a comparator that is no total order
      the standard library leaves the result open and may panic.
    - A transaction of the engine contains writes through cursors ([cursor_step]); one of
      the server, what looks at the slot ([through_slot]): changes of tables commit
      at once in both.
    - Python values and messages: the types that come back as they were ([PyBson.plain]).
    - Files in the browser: complete reads and writes, one cursor at a time.

    ** Fuel

    Every loop that is not structural has enough fuel by a theorem, or by the
    bound in its definition: the depth of a value ([Schema], [Expressions]),
    the nesting of [$or] ([Planner]), the rows of a table (cursor loops), the
    length of a string ([Collation]), the links of a graph ([graph_fuel], with
    [graph_search_terminates]), the documents in the runs of a merge
    ([merge_fuel], [external_sort_sorts]) and in a file ([read_all]), the
    nodes of a layer (the beam and greedy loops of [Hnsw]), the bytes of a
    message ([decode_terminates]) and of a buffer ([frames]).  The
    stack of nested pipelines is a parameter, since the source can exhaust it
    ([self_lookup_overflows]), and so is the nesting of compressed messages
    ([nested_compression_recurses]).

    ** Parameters

    Third-party crates are parameters: the codec and maps of [bson]
    ([BsonOps]), [regex] and case mapping ([TextEnv]), [serde_json]
    ([JsonOps]), [chrono] ([AggEnv]), [s2] ([S2]), number parsing, the
    clocks and random identifiers; the hash functions of SCRAM ([Crypto]),
    CRC-32C and the compressors ([WireEnv]), Python's [datetime] and the
    driver's classes ([PyEnv]); so are the transcendental functions
    ([Libm]) and what the standard library leaves open ([StdEnv]: the order
    of a [HashMap], unstable selection, heaps, the shuffle).  Each class of
    laws has an instance in the development, used by the witnesses.  File
    operations of the spill files succeed.

    ** Not modelled

    The C, Node and wasm bindings and the PyO3 wrappers (interfaces around
    the engine); the implementation of the query language on Python objects
    beside the engine's; the wire commands of collections and diagnostics
    (argument handling around the client, an argument of [Server]); sockets, TLS, counters, the profiler and the audit
    log; opening a database path and measuring files on disk; the text of an
    explanation's summary; threads inside the engine. *)

From Stdlib Require Import ZArith Lia Ascii String Permutation Sorted.
From Stdlib Require Import DecimalString DecimalZ.
From stdpp Require Import base list strings.

(** ** Results and the question-mark operator *)

(** Rust's [Result]: the value and the error type. *)
Inductive result (A E : Type) : Type :=
| Ok (a : A)
| Err (e : E).
Arguments Ok {A E} a.
Arguments Err {A E} e.

(** The error side of the source's [Result<_, String>]: a message, or a panic
    that unwinds through the callers (no [unwrap_or] catches it). *)
Inductive error : Type :=
| Msg (message : string)
| Panic (message : string).
Coercion Msg : string >-> error.

Declare Scope smongo_scope.
Delimit Scope smongo_scope with smongo.
Open Scope smongo_scope.

(** [let? x := c in k] is Rust's [let x = c?; k]. *)
Notation "'let?' x ':=' c 'in' k" :=
  (match c with Ok x => k | Err e => Err e end)
  (at level 10, x pattern, c at level 200, k at level 200,
   format "'let?'  x  ':='  c  'in' '//' k") : smongo_scope.

(** Equality of strings, as the source writes [==] and string patterns. *)
Notation "s =s? t" := (String.eqb s t) (at level 70, no associativity) : smongo_scope.

Definition is_ok {A E} (r : result A E) : bool :=
  match r with Ok _ => true | Err _ => false end.

Definition map_err {A E F} (f : E -> F) (r : result A E) : result A F :=
  match r with Ok a => Ok a | Err e => Err (f e) end.

(** [r.unwrap_or(d)]: replaces an error by [d]; a panic goes through. *)
Definition unwrap_or {A} (r : result A error) (d : A) : result A error :=
  match r with Err (Msg _) => Ok d | _ => r end.

Definition ok_or {A E} (o : option A) (e : E) : result A E :=
  match o with Some a => Ok a | None => Err e end.

Definition is_some {A} (o : option A) : bool :=
  match o with Some _ => true | None => false end.

(** A [for] loop that threads a state and stops at the first error. *)
Definition fold_result {A S E} (f : S -> A -> result S E) : S -> list A -> result S E :=
  fix go s l :=
    match l with
    | [] => Ok s
    | x :: l' => let? s' := f s x in go s' l'
    end.

(** A [for] loop whose body may return [false] early: all iterations must
    give [true]. *)
Definition all_result {A E} (f : A -> result bool E) : list A -> result bool E :=
  fix go l :=
    match l with
    | [] => Ok true
    | x :: l' => let? b := f x in if b then go l' else Ok false
    end.

(** A [for] loop whose body may return [true] early. *)
Definition any_result {A E} (f : A -> result bool E) : list A -> result bool E :=
  fix go l :=
    match l with
    | [] => Ok false
    | x :: l' => let? b := f x in if b then Ok true else go l'
    end.

(** [iter().filter(p).collect()] with a predicate that may panic. *)
Definition filter_result {A E} (p : A -> result bool E) : list A -> result (list A) E :=
  fix go l :=
    match l with
    | [] => Ok []
    | x :: l' =>
        let? b := p x in
        let? r := go l' in
        Ok (if b then x :: r else r)
    end.

(** [for x in arr.iter_mut() { .. }] with an early return on error. *)
Definition map_result {A A' E} (f : A -> result A' E) : list A -> result (list A') E :=
  fix go l :=
    match l with
    | [] => Ok []
    | x :: l' => let? y := f x in let? r := go l' in Ok (y :: r)
    end.

(** A sequence of checks: its result is the first failure, and it succeeds
    exactly when every check does. *)
Lemma seq_ext {A E} (a a' : result unit E) (k k' : result A E) :
  a = a' -> k = k' -> (let? _ := a in k) = (let? _ := a' in k').
Proof. by intros -> ->. Qed.

Lemma seq_ok {A E} (a : result unit E) (k : result A E) r :
  (let? _ := a in k) = Ok r <-> a = Ok tt /\ k = Ok r.
Proof. destruct a as [[]|]; split; [done|by intros [_ ?]|done|by intros [? _]]. Qed.

Lemma check_ok {A E} (c : bool) (e : E) (k : result A E) r :
  (if c then Err e else k) = Ok r <-> c = false /\ k = Ok r.
Proof. destruct c; split; [done|by intros [? _]|done|by intros [_ ?]]. Qed.

Lemma fold_check_ok {A E} (f : A -> result unit E) l :
  fold_result (fun _ x => f x) tt l = Ok tt <-> forall x, In x l -> f x = Ok tt.
Proof.
  induction l as [|x l IH]; simpl; [naive_solver|].
  destruct (f x) as [[]|e] eqn:Hx.
  - rewrite IH. split; [intros H y [<-|Hy]; auto|]. intros H y Hy. apply H. by right.
  - split; [done|]. intros H. rewrite (H x) in Hx by (by left). done.
Qed.

Lemma all_result_ext {A E} (f g : A -> result bool E) l :
  (forall x, In x l -> f x = g x) -> all_result f l = all_result g l.
Proof.
  induction l as [|x l IH]; intros H; simpl; [done|].
  rewrite H by (now left). destruct (g x) as [[]|]; try done.
  apply IH. intros y Hy. apply H. now right.
Qed.

Lemma any_result_ext {A E} (f g : A -> result bool E) l :
  (forall x, In x l -> f x = g x) -> any_result f l = any_result g l.
Proof.
  induction l as [|x l IH]; intros H; simpl; [done|].
  rewrite H by (now left). destruct (g x) as [[]|]; try done.
  apply IH. intros y Hy. apply H. now right.
Qed.

Lemma all_result_true {A E} (f : A -> result bool E) l :
  all_result f l = Ok true <-> (forall x, In x l -> f x = Ok true).
Proof.
  induction l as [|x l IH]; simpl.
  - split; [intros _ ? []|done].
  - destruct (f x) as [[]|e] eqn:E1.
    + rewrite IH. split; [intros H y [->|Hy]; auto|intros H y Hy; auto].
    + split; [done|]. intros H. rewrite (H x) in E1 by (now left). done.
    + split; [done|]. intros H. rewrite (H x) in E1 by (now left). done.
Qed.

Lemma all_result_false {A E} (f : A -> result bool E) l :
  all_result f l = Ok false ->
  exists x, In x l /\ f x = Ok false.
Proof.
  induction l as [|x l IH]; simpl; [done|].
  destruct (f x) as [[]|e] eqn:E1; intros H; try done.
  - destruct (IH H) as (y & Hy & Ey). eauto.
  - eauto.
Qed.

Lemma all_result_app {A E} (f : A -> result bool E) l1 l2 :
  all_result f (l1 ++ l2) =
  let? b := all_result f l1 in if b then all_result f l2 else Ok false.
Proof.
  induction l1 as [|x l1 IH]; simpl; [done|].
  destruct (f x) as [[]|]; auto.
Qed.

Lemma any_result_total {A E} (f : A -> result bool E) (p : A -> bool) l :
  (forall x, In x l -> f x = Ok (p x)) -> any_result f l = Ok (existsb p l).
Proof.
  induction l as [|x l IH]; intros H; simpl; [done|].
  rewrite H by (now left). destruct (p x); simpl; [done|].
  apply IH. intros y Hy. apply H. now right.
Qed.

Lemma all_result_total {A E} (f : A -> result bool E) (p : A -> bool) l :
  (forall x, In x l -> f x = Ok (p x)) -> all_result f l = Ok (forallb p l).
Proof.
  induction l as [|x l IH]; intros H; simpl; [done|].
  rewrite H by (now left). destruct (p x); simpl; [|done].
  apply IH. intros y Hy. apply H. now right.
Qed.

Lemma all_result_ok {A E} (f : A -> result bool E) l :
  (forall x, In x l -> exists b, f x = Ok b) -> exists b, all_result f l = Ok b.
Proof.
  induction l as [|x l IH]; intros H; simpl; [eauto|].
  destruct (H x ltac:(by left)) as [[] ->]; [|eauto]. apply IH. intros; apply H. by right.
Qed.

Lemma any_result_ok {A E} (f : A -> result bool E) l :
  (forall x, In x l -> exists b, f x = Ok b) -> exists b, any_result f l = Ok b.
Proof.
  induction l as [|x l IH]; intros H; simpl; [eauto|].
  destruct (H x ltac:(by left)) as [[] ->]; [eauto|]. apply IH. intros; apply H. by right.
Qed.

Lemma fold_result_ok {A S E} (f : S -> A -> result S E) l s :
  (forall s x, In x l -> exists s', f s x = Ok s') -> exists s', fold_result f s l = Ok s'.
Proof.
  revert s. induction l as [|x l IH]; intros s H; simpl; [eauto|].
  destruct (H s x ltac:(by left)) as [s1 ->]. apply IH. intros; apply H. by right.
Qed.

(** The loops over a mapped list, and negated bodies. *)
Lemma all_result_map {A A' E} (g : A -> A') (f : A' -> result bool E) l :
  all_result f (map g l) = all_result (fun x => f (g x)) l.
Proof.
  induction l as [|x l IH]; simpl; [done|]. destruct (f (g x)) as [[]|]; auto.
Qed.

Lemma any_result_map {A A' E} (g : A -> A') (f : A' -> result bool E) l :
  any_result f (map g l) = any_result (fun x => f (g x)) l.
Proof.
  induction l as [|x l IH]; simpl; [done|]. destruct (f (g x)) as [[]|]; auto.
Qed.

Lemma all_result_negb {A E} (f : A -> result bool E) l :
  all_result (fun x => let? b := f x in Ok (negb b)) l =
  let? b := any_result f l in Ok (negb b).
Proof.
  induction l as [|x l IH]; simpl; [done|]. by destruct (f x) as [[]|].
Qed.

Lemma all_result_concat {A E} (f : A -> result bool E) ls :
  all_result f (List.concat ls) = all_result (all_result f) ls.
Proof.
  induction ls as [|l ls IH]; simpl; [done|].
  rewrite all_result_app. destruct (all_result f l) as [[]|]; auto.
Qed.

Lemma fold_result_app {A S E} (f : S -> A -> result S E) s l1 l2 :
  fold_result f s (l1 ++ l2) =
  let? s' := fold_result f s l1 in fold_result f s' l2.
Proof.
  revert s. induction l1 as [|x l1 IH]; intros s; simpl; [done|].
  destruct (f s x); auto.
Qed.

Lemma fold_result_ext {A S E} (f g : S -> A -> result S E) s l :
  (forall s x, In x l -> f s x = g s x) -> fold_result f s l = fold_result g s l.
Proof.
  revert s. induction l as [|x l IH]; intros s H; simpl; [done|].
  rewrite H by (by left). destruct (g s x); [|done]. apply IH. intros; apply H. by right.
Qed.

Lemma map_result_ext_in {X Y Er} (f g : X -> result Y Er) l :
  (forall x, In x l -> f x = g x) -> map_result f l = map_result g l.
Proof.
  induction l as [|x l IH]; intros H; [done|]. simpl. rewrite (H x) by (by left).
  destruct (g x); [|done]. simpl. rewrite IH; [done|]. intros y Hy. apply H. by right.
Qed.

Lemma filter_result_ext_in {X Er} (f g : X -> result bool Er) l :
  (forall x, In x l -> f x = g x) -> filter_result f l = filter_result g l.
Proof.
  induction l as [|x l IH]; intros H; [done|]. simpl.
  rewrite (H x (or_introl eq_refl)), IH; [done|]. intros y Hy. apply H. by right.
Qed.

Lemma filter_result_ext {X Er} (f g : X -> result bool Er) l :
  (forall x, f x = g x) -> filter_result f l = filter_result g l.
Proof. intros H. apply filter_result_ext_in. auto. Qed.

Lemma filter_result_defined {X E} (f : X -> result bool E) l r x :
  filter_result f l = Ok r -> In x l -> exists b, f x = Ok b.
Proof.
  revert r. induction l as [|y l IH]; intros r H Hx; [done|]. simpl in H.
  destruct (f y) as [b|] eqn:Ey; [|done]. destruct (filter_result f l) as [r'|]; [|done].
  destruct Hx as [<-|Hx]; [by exists b|by eapply IH].
Qed.

Lemma filter_result_total {A E} (f : A -> result bool E) (p : A -> bool) l :
  (forall x, In x l -> f x = Ok (p x)) -> filter_result f l = Ok (List.filter p l).
Proof.
  induction l as [|x l IH]; intros H; simpl; [done|].
  rewrite H by (now left). rewrite IH by (intros; apply H; by right). by destruct (p x).
Qed.

Lemma filter_result_In {A E} (f : A -> result bool E) l r :
  filter_result f l = Ok r -> forall x, In x r <-> In x l /\ f x = Ok true.
Proof.
  revert r. induction l as [|x l IH]; intros r H y; simpl in H.
  - injection H as <-. simpl. tauto.
  - destruct (f x) as [b|] eqn:Ef; [|done].
    destruct (filter_result f l) as [r'|] eqn:Er; [|done]. injection H as <-.
    destruct b; simpl; rewrite (IH r' eq_refl y); split; intuition (subst; auto; congruence).
Qed.

Lemma map_result_length {A A' E} (f : A -> result A' E) l r :
  map_result f l = Ok r -> length r = length l.
Proof.
  revert r. induction l as [|x l IH]; intros r H; simpl in H; [by injection H as <-|].
  destruct (f x); [|done]. destruct (map_result f l); [|done]. injection H as <-.
  simpl. by rewrite (IH _ eq_refl).
Qed.

Lemma map_result_lookup {A A' E} (f : A -> result A' E) l r :
  map_result f l = Ok r -> forall i x, l !! i = Some x -> exists y, r !! i = Some y /\ f x = Ok y.
Proof.
  revert r. induction l as [|x l IH]; intros r H i z Hi; simpl in H; [done|].
  destruct (f x) as [y|] eqn:Ef; [|done]. destruct (map_result f l) as [r'|] eqn:Er; [|done].
  injection H as <-. destruct i as [|i]; simpl in *; [injection Hi as <-; eauto|].
  by apply (IH _ eq_refl).
Qed.

Lemma in_take {A} n (l : list A) x : In x (take n l) -> In x l.
Proof. intros H. rewrite <- (take_drop n l). apply in_app_iff. by left. Qed.

Lemma in_drop {A} n (l : list A) x : In x (drop n l) -> In x l.
Proof. intros H. rewrite <- (take_drop n l). apply in_app_iff. by right. Qed.

(** An invariant kept by the body of a loop is kept by the loop. *)
Lemma fold_result_inv {A S E} (P : S -> Prop) (f : S -> A -> result S E) l :
  (forall s x s', In x l -> P s -> f s x = Ok s' -> P s') ->
  forall s s', P s -> fold_result f s l = Ok s' -> P s'.
Proof.
  induction l as [|x l IH]; intros Hf s s' Hs H; simpl in H.
  - by injection H as <-.
  - destruct (f s x) as [s1|] eqn:E1; [|done].
    eapply IH; [|eapply Hf, E1; [by left|done]|exact H].
    intros ????; apply Hf. by right.
Qed.

(** ** Strings

    A Rust [String] is a sequence of bytes; Rocq's [string] is one too, so
    [len], comparison and slicing are the byte-wise ones. *)

Open Scope string_scope.
Open Scope list_scope.

(** [str::split(c)]: never empty; adjacent separators give empty pieces. *)
Fixpoint split_on (c : ascii) (s : string) : list string :=
  match s with
  | EmptyString => [EmptyString]
  | String a s' =>
      if Ascii.eqb a c then EmptyString :: split_on c s'
      else match split_on c s' with
           | [] => [String a EmptyString]
           | p :: ps => String a p :: ps
           end
  end.

(** [[_]::join(sep)]. *)
Definition str_join (sep : string) (l : list string) : string := String.concat sep l.

Definition starts_with (p s : string) : bool := String.prefix p s.

(** [str::strip_prefix]. *)
Fixpoint strip_prefix (p s : string) : option string :=
  match p with
  | EmptyString => Some s
  | String a p' =>
      match s with
      | EmptyString => None
      | String b s' => if Ascii.eqb a b then strip_prefix p' s' else None
      end
  end.

(** [str::contains(&str)]. *)
Fixpoint str_contains (pat s : string) : bool :=
  String.prefix pat s ||
  match s with
  | EmptyString => false
  | String _ s' => str_contains pat s'
  end.

(** Byte slicing [&s[i..j]] with [i <= j <= s.len()]; it panics when a bound is
    inside a multi-byte character. *)
Definition is_char_boundary (s : string) (i : nat) : bool :=
  match String.get i s with
  | Some a => negb ((128 <=? N_of_ascii a)%N && (N_of_ascii a <=? 191)%N)
  | None => true
  end.

Definition str_slice (i j : nat) (s : string) : result string error :=
  if is_char_boundary s i && is_char_boundary s j then Ok (String.substring i (j - i) s)
  else Err (Panic "byte index is not a char boundary").

(** [i32::to_string], [i64::to_string]. *)
Definition Z_to_string (z : Z) : string := NilZero.string_of_int (Z.to_int z).

(** [str::parse::<usize>()] on a 64-bit target: an optional [+], then one or
    more decimal digits, below [2^64]. *)
Definition digit_of (a : ascii) : option Z :=
  let n := Z.of_N (N_of_ascii a) in
  if (48 <=? n)%Z && (n <=? 57)%Z then Some (n - 48)%Z else None.

Fixpoint parse_digits (acc : Z) (s : string) : option Z :=
  match s with
  | EmptyString => Some acc
  | String a s' =>
      match digit_of a with
      | Some d =>
          let acc' := (10 * acc + d)%Z in
          if (acc' <? 2 ^ 64)%Z then parse_digits acc' s' else None
      | None => None
      end
  end.

Definition parse_usize (s : string) : option Z :=
  match s with
  | EmptyString => None
  | String "+" EmptyString => None
  | String "+" s' => parse_digits 0 s'
  | _ => parse_digits 0 s
  end.

(** [slice::get] with a [usize] index. *)
Definition vec_get {A} (l : list A) (i : Z) : option A :=
  if (0 <=? i)%Z && (i <? Z.of_nat (length l))%Z then nth_error l (Z.to_nat i) else None.

Lemma str_app_assoc (a b c : string) : (a ++ (b ++ c) = (a ++ b) ++ c)%string.
Proof. induction a as [|x a IH]; [done|]. exact (f_equal (String x) IH). Qed.

Lemma str_app_cons x (a b : string) : (String x a ++ b = String x (a ++ b))%string.
Proof. done. Qed.

Lemma str_app_empty (s : string) : (s ++ "")%string = s.
Proof. induction s as [|a s IH]; [done|]. rewrite str_app_cons. by f_equal. Qed.

Lemma split_on_not_nil c s : split_on c s <> [].
Proof.
  induction s as [|a s IH]; simpl; [done|].
  destruct (Ascii.eqb a c); [done|]. by destruct (split_on c s).
Qed.

Lemma vec_get_In {A} (l : list A) i x : vec_get l i = Some x -> In x l.
Proof. unfold vec_get. case_match; [apply nth_error_In|done]. Qed.

Lemma vec_get_lt {A} (l : list A) i x :
  vec_get l i = Some x -> (0 <= i < Z.of_nat (length l))%Z.
Proof. unfold vec_get. case_match eqn:E; [|done]. intros _. lia. Qed.

(** Splitting a joined list of pieces without separators gives them back. *)
Fixpoint no_char (c : ascii) (s : string) : bool :=
  match s with
  | EmptyString => true
  | String a s' => negb (Ascii.eqb a c) && no_char c s'
  end.

Lemma split_on_no_char c s : no_char c s = true -> split_on c s = [s].
Proof.
  induction s as [|a s IH]; simpl; [done|].
  rewrite andb_true_iff, negb_true_iff. intros [-> H]. by rewrite IH.
Qed.

Lemma split_on_app c p s :
  no_char c p = true -> split_on c (p ++ String c s) = p :: split_on c s.
Proof.
  induction p as [|a p IH]; simpl.
  - by rewrite Ascii.eqb_refl.
  - rewrite andb_true_iff, negb_true_iff. intros [-> H]. by rewrite IH.
Qed.

Lemma split_on_join c ps :
  ps <> [] -> forallb (no_char c) ps = true ->
  split_on c (str_join (String c EmptyString) ps) = ps.
Proof.
  unfold str_join. induction ps as [|p [|q ps] IH]; intros Hne H; [done| |].
  - simpl in *. rewrite andb_true_r in H. by apply split_on_no_char.
  - simpl in H. apply andb_true_iff in H as [H1 H2].
    change (String.concat (String c "") (p :: q :: ps))
      with (p ++ String c (String.concat (String c "") (q :: ps)))%string.
    rewrite split_on_app by done. by rewrite IH.
Qed.

(** ** Comparison functions, stable sorting and binary search

    [Ordering] is Rocq's [comparison].  A comparator used with [sort_by] and
    [binary_search_by] must be a total preorder on the values it meets. *)

Definition cmp_then (c d : comparison) : comparison :=
  match c with Eq => d | _ => c end.

Definition cmp_eqb (c d : comparison) : bool :=
  match c, d with Eq, Eq | Lt, Lt | Gt, Gt => true | _, _ => false end.

Record TotalPreorder {A} (P : A -> Prop) (cmp : A -> A -> comparison) : Prop := {
  tp_refl : forall x, P x -> cmp x x = Eq;
  tp_sym : forall x y, P x -> P y -> cmp y x = CompOpp (cmp x y);
  tp_trans : forall x y z, P x -> P y -> P z ->
    cmp x y <> Gt -> cmp y z <> Gt -> cmp x z <> Gt }.

Lemma tp_eq_l {A} (P : A -> Prop) cmp x y z :
  TotalPreorder P cmp -> P x -> P y -> P z -> cmp x y = Eq -> cmp x z = cmp y z.
Proof.
  intros T Px Py Pz E.
  assert (Hyx : cmp y x = Eq) by (rewrite (tp_sym _ _ T x y) by done; by rewrite E).
  pose proof (tp_trans _ _ T x y z Px Py Pz) as T1.
  pose proof (tp_trans _ _ T y x z Py Px Pz) as T2.
  pose proof (tp_trans _ _ T z x y Pz Px Py) as T3.
  pose proof (tp_trans _ _ T z y x Pz Py Px) as T4.
  rewrite (tp_sym _ _ T x z), (tp_sym _ _ T y z) in T3, T4 by done.
  rewrite E, Hyx in *.
  destruct (cmp x z), (cmp y z); simpl in *; try done; exfalso;
    first [solve [by apply T1] | solve [by apply T2] | solve [by apply T3] | by apply T4].
Qed.

(** A restriction of a total preorder, and its pull-back along a function. *)
Lemma tp_weaken {A} (P Q : A -> Prop) cmp :
  (forall x, Q x -> P x) -> TotalPreorder P cmp -> TotalPreorder Q cmp.
Proof.
  intros H [R S T]. split; intros; [apply R|apply S|eapply (T x y z)]; auto.
Qed.

Lemma tp_pullback {A B} (P : B -> Prop) (Q : A -> Prop) (f : A -> B) cmp :
  (forall x, Q x -> P (f x)) -> TotalPreorder P cmp ->
  TotalPreorder Q (fun x y => cmp (f x) (f y)).
Proof.
  intros H [R S T]. split; intros; [apply R|apply S|eapply (T (f x) (f y) (f z))]; auto.
Qed.

Lemma tp_opp {A} (P : A -> Prop) cmp :
  TotalPreorder P cmp -> TotalPreorder P (fun x y => CompOpp (cmp x y)).
Proof.
  intros T. split.
  - intros x Px. by rewrite (tp_refl _ _ T).
  - intros x y Px Py. by rewrite (tp_sym _ _ T x y) by done.
  - intros x y z Px Py Pz.
    rewrite <- (tp_sym _ _ T x y), <- (tp_sym _ _ T y z), <- (tp_sym _ _ T x z) by done.
    intros. by eapply (tp_trans _ _ T z y x).
Qed.

Lemma tp_then {A} (P : A -> Prop) c1 c2 :
  TotalPreorder P c1 -> TotalPreorder P c2 ->
  TotalPreorder P (fun x y => cmp_then (c1 x y) (c2 x y)).
Proof.
  intros T1 T2. split.
  - intros x Px. by rewrite (tp_refl _ _ T1), (tp_refl _ _ T2).
  - intros x y Px Py. rewrite (tp_sym _ _ T1 x y), (tp_sym _ _ T2 x y) by done.
    by destruct (c1 x y).
  - intros x y z Px Py Pz.
    destruct (c1 x y) eqn:E1; simpl; [|intros _|done].
    + rewrite (tp_eq_l _ _ x y z T1) by done.
      destruct (c1 y z) eqn:E2; simpl; [|done|done].
      by apply (tp_trans _ _ T2).
    + destruct (c1 y z) eqn:E2; simpl; [intros _|intros _|done];
        (assert (c1 x z = Lt) as ->; [|done]).
      * pose proof (tp_eq_l _ _ z y x T1 Pz Py Px) as H.
        rewrite (tp_sym _ _ T1 y z), E2 in H by done.
        rewrite (tp_sym _ _ T1 z x), (H eq_refl), (tp_sym _ _ T1 x y), E1; done.
      * destruct (c1 x z) eqn:E3; [|done|].
        -- rewrite (tp_eq_l _ _ x z y T1 Px Pz Py E3), (tp_sym _ _ T1 y z), E2 in E1 by done.
           done.
        -- exfalso. eapply (tp_trans _ _ T1 x y z); rewrite ?E1, ?E2; done.
Qed.

(** [slice::sort_by]: the stable sort of the standard library, which is determined for a
    comparator that is a total preorder on the elements.  For another the library leaves the order
    open and may panic: there this function is one possible outcome, and theorems about sorted
    values either assume the order total ([comparable] values, scores without NaN) or hold of every
    permutation. *)
Fixpoint insert_by {A} (cmp : A -> A -> comparison) (x : A) (l : list A) : list A :=
  match l with
  | [] => [x]
  | y :: l' => match cmp x y with
               | Gt => y :: insert_by cmp x l'
               | _ => x :: l
               end
  end.

Definition sort_by {A} (cmp : A -> A -> comparison) (l : list A) : list A :=
  foldr (insert_by cmp) [] l.

Definition sorted_by {A} (cmp : A -> A -> comparison) : list A -> Prop :=
  StronglySorted (fun x y => cmp x y <> Gt).

Lemma insert_by_perm {A} cmp (x : A) l : Permutation (x :: l) (insert_by cmp x l).
Proof.
  induction l as [|y l IH]; simpl; [done|].
  destruct (cmp x y); try done. etrans; [apply perm_swap|by apply perm_skip].
Qed.

Lemma sort_by_perm {A} cmp (l : list A) : Permutation l (sort_by cmp l).
Proof.
  induction l as [|x l IH]; simpl; [done|].
  etrans; [by apply perm_skip|apply insert_by_perm].
Qed.

Lemma sort_by_In {A} cmp (l : list A) x : In x (sort_by cmp l) <-> In x l.
Proof.
  split; apply Permutation_in; [symmetry|]; apply sort_by_perm.
Qed.

Lemma insert_by_sorted {A} (P : A -> Prop) cmp x l :
  TotalPreorder P cmp -> P x -> Forall P l ->
  sorted_by cmp l -> sorted_by cmp (insert_by cmp x l).
Proof.
  intros T Px. induction l as [|y l IH]; intros HP Hs; simpl.
  - repeat constructor.
  - inversion_clear HP as [|? ? Py HPl]. inversion_clear Hs as [|? ? Hs' Hy].
    assert (Hle : cmp x y <> Gt -> sorted_by cmp (x :: y :: l)).
    { intros Hxy. constructor; [by constructor|]. constructor; [done|].
      rewrite Stdlib.Lists.List.Forall_forall in *. intros z Hz.
      eapply (tp_trans _ _ T x y z); auto. }
    destruct (cmp x y) eqn:E; try (apply Hle; done).
    constructor; [by apply IH|].
    rewrite Stdlib.Lists.List.Forall_forall in *. intros z Hz.
    apply (Permutation_in _ (Permutation_sym (insert_by_perm cmp x l))) in Hz as [<-|Hz].
    + rewrite (tp_sym _ _ T x y), E by done. done.
    + by apply Hy.
Qed.

Lemma sort_by_sorted {A} (P : A -> Prop) cmp l :
  TotalPreorder P cmp -> Forall P l -> sorted_by cmp (sort_by cmp l).
Proof.
  intros T. induction l as [|x l IH]; intros HP; simpl; [constructor|].
  inversion_clear HP. eapply insert_by_sorted; eauto.
  eapply Permutation_Forall; [apply sort_by_perm|done].
Qed.

(** The sort is stable: it keeps the order of the elements equivalent to any one. *)
Lemma insert_by_filter {A} (P : A -> Prop) cmp t x l :
  TotalPreorder P cmp -> P t -> P x -> Forall P l ->
  List.filter (fun y => cmp_eqb (cmp t y) Eq) (insert_by cmp x l) =
  List.filter (fun y => cmp_eqb (cmp t y) Eq) (x :: l).
Proof.
  intros T Pt Px. induction l as [|y l IH]; intros HP; [done|]. inversion_clear HP as [|? ? Py HPl].
  simpl. destruct (cmp x y) eqn:E; try done. cbn [List.filter]. rewrite IH by done. simpl.
  destruct (cmp t x) eqn:Etx; cbn [cmp_eqb]; try done.
  by rewrite (tp_eq_l P cmp t x y T Pt Px Py Etx), E.
Qed.

Lemma sort_by_stable {A} (P : A -> Prop) cmp t l :
  TotalPreorder P cmp -> P t -> Forall P l ->
  List.filter (fun y => cmp_eqb (cmp t y) Eq) (sort_by cmp l) =
  List.filter (fun y => cmp_eqb (cmp t y) Eq) l.
Proof.
  intros T Pt. induction l as [|x l IH]; intros HP; [done|]. inversion_clear HP as [|? ? Px HPl]. simpl.
  rewrite (insert_by_filter P) by first [done | by eapply Permutation_Forall; [apply sort_by_perm|]].
  simpl. by rewrite IH.
Qed.

Lemma NoDup_map_filter {A C} (f : A -> C) (q : A -> bool) l : List.NoDup (map f l) -> List.NoDup (map f (List.filter q l)).
Proof.
  induction l as [|x l IH]; [done|]. cbn. intros H. inversion_clear H as [|? ? Hx Hl']. destruct (q x); [|by apply IH].
  constructor; [|by apply IH]. intros Hin. apply Hx. apply in_map_iff in Hin as (y & <- & Hy). apply in_map. by apply incl_filter in Hy.
Qed.

(** The sort commutes with a filter. *)
Lemma insert_by_keeps {A} (P : A -> Prop) cmp (p : A -> bool) x l :
  TotalPreorder P cmp -> P x -> Forall P l -> sorted_by cmp l ->
  List.filter p (insert_by cmp x l) = if p x then insert_by cmp x (List.filter p l) else List.filter p l.
Proof.
  intros T Px. induction l as [|y l IH]; intros HP Hs; [done|]. inversion_clear HP as [|? ? Py HPl].
  inversion_clear Hs as [|? ? Hs' Hy]. specialize (IH HPl Hs'). cbn [insert_by].
  assert (Hle : cmp x y <> Gt -> insert_by cmp x (List.filter p (y :: l)) = x :: List.filter p (y :: l)).
  { intros Hxy. destruct (List.filter p (y :: l)) as [|z zs] eqn:E; [done|]. cbn [insert_by].
    assert (Hz : In z (y :: l)) by (apply (proj1 (List.filter_In p z (y :: l))); rewrite E; by left).
    assert (Hxz : cmp x z <> Gt).
    { destruct Hz as [<-|Hz]; [done|]. rewrite Stdlib.Lists.List.Forall_forall in *.
      apply (tp_trans _ _ T x y z); auto. }
    by destruct (cmp x z). }
  destruct (cmp x y) eqn:E.
  - rewrite Hle by done. cbn [List.filter]. by destruct (p x).
  - rewrite Hle by done. cbn [List.filter]. by destruct (p x).
  - cbn [List.filter]. rewrite IH. destruct (p x), (p y); try done. cbn [insert_by]. by rewrite E.
Qed.

Lemma sort_by_filter {A} (P : A -> Prop) cmp (p : A -> bool) l :
  TotalPreorder P cmp -> Forall P l -> List.filter p (sort_by cmp l) = sort_by cmp (List.filter p l).
Proof.
  intros T. induction l as [|x l IH]; intros HP; [done|]. inversion_clear HP as [|? ? Px HPl]. change (sort_by cmp (x :: l)) with (insert_by cmp x (sort_by cmp l)).
  rewrite (insert_by_keeps P); [|done|done|by eapply Permutation_Forall; [apply sort_by_perm|]|by eapply sort_by_sorted].
  rewrite IH by done. cbn [List.filter]. by destruct (p x).
Qed.

(** Two sorted arrangements of equivalent elements agree position by position. *)
Lemma sorted_unique {A} (P : A -> Prop) cmp (T : TotalPreorder P cmp) l1 : forall l' l2,
  Forall P l1 -> Forall P l2 -> sorted_by cmp l1 -> sorted_by cmp l2 ->
  Permutation l1 l' -> Forall2 (fun x y => cmp x y = Eq) l' l2 ->
  Forall2 (fun x y => cmp x y = Eq) l1 l2.
Proof.
  induction l1 as [|h1 t1 IH]; intros l' l2 HP1 HP2 Hs1 Hs2 Hp Hf.
  { apply Permutation_nil in Hp as ->. by inversion Hf. }
  destruct Hf as [|a h2 l'' t2 Ha Hf]; [by apply Permutation_sym, Permutation_nil_cons in Hp|].
  assert (HP' : Forall P (a :: l'')) by (by eapply Permutation_Forall).
  inversion_clear HP' as [|? ? Pa HPl'']. inversion_clear HP1 as [|? ? P1 HPt1].
  inversion_clear HP2 as [|? ? P2 HPt2]. inversion_clear Hs1 as [|? ? Hst1 Hle1].
  inversion_clear Hs2 as [|? ? Hst2 Hle2]. rewrite Stdlib.Lists.List.Forall_forall in Hle1, Hle2.
  assert (Hin : In h1 (a :: l'')) by (eapply Permutation_in; [exact Hp|by left]).
  destruct Hin as [->|Hin].
  { constructor; [done|]. eapply IH; [done..| |exact Hf]. by apply Permutation_cons_inv in Hp. }
  apply in_split in Hin as (u & v & ->).
  assert (Hin' : In a t1).
  { assert (Ht : Permutation t1 (a :: u ++ v)).
    { apply (Permutation_cons_inv (a := h1)). rewrite Hp.
      rewrite (Permutation_sym (Permutation_middle u v h1)). apply perm_swap. }
    eapply Permutation_in; [symmetry; exact Ht|by left]. }
  apply Forall2_app_inv_l in Hf as (u' & bv & Hu & Hbv & ->).
  apply Forall2_cons_inv_l in Hbv as (b & v' & Hb & Hv & ->).
  apply Forall_app in HPt2 as [HPu' HPb]. inversion_clear HPb as [|? ? Pb HPv'].
  assert (Hh2b : cmp h2 b <> Gt) by (apply Hle2, in_app_iff; right; by left).
  assert (Hah1 : cmp a h1 = Eq).
  { assert (Hab : cmp a b <> Gt) by (rewrite (tp_eq_l P cmp a h2 b T) by done; done).
    assert (Hbh : cmp b h1 = Eq) by (rewrite (tp_sym _ _ T h1 b), Hb by done; done).
    assert (Hle : cmp a h1 <> Gt) by (eapply (tp_trans _ _ T a b h1); [done..|by rewrite Hbh]).
    pose proof (Hle1 a Hin') as Hge. rewrite (tp_sym _ _ T a h1) in Hge by done. by destruct (cmp a h1). }
  assert (Hh1a : cmp h1 a = Eq) by (rewrite (tp_sym _ _ T a h1), Hah1 by done; done).
  constructor; [by rewrite (tp_eq_l P cmp h1 a h2 T)|].
  apply (IH (u ++ a :: v)); try done; [by apply Forall_app; split; [|constructor]| |].
  - apply (Permutation_cons_inv (a := h1)). rewrite Hp, <- !Permutation_middle. apply perm_swap.
  - apply Forall2_app; [done|]. constructor; [|done]. by rewrite (tp_eq_l P cmp a h1 b T).
Qed.

Lemma sorted_perm_equiv {A} (P : A -> Prop) cmp l1 l2 :
  TotalPreorder P cmp -> Forall P l1 -> sorted_by cmp l1 -> sorted_by cmp l2 -> Permutation l1 l2 ->
  Forall2 (fun x y => cmp x y = Eq) l1 l2.
Proof.
  intros T HP Hs1 Hs2 Hp. assert (HP2 : Forall P l2) by (by eapply Permutation_Forall).
  apply (sorted_unique P cmp T l1 l2 l2); [done..|]. clear -T HP2.
  induction HP2 as [|x l Px _ IH]; constructor; [by apply (tp_refl _ _ T)|done].
Qed.

Lemma sorted_app {A} (cmp : A -> A -> comparison) l1 l2 :
  sorted_by cmp l1 -> sorted_by cmp l2 -> (forall x y, In x l1 -> In y l2 -> cmp x y <> Gt) ->
  sorted_by cmp (l1 ++ l2).
Proof.
  intros H1 H2 H. induction H1 as [|x l1 H1 IH Hx]; [done|]. simpl. constructor.
  - apply IH. intros; apply H; [by right|done].
  - apply Forall_app. split; [done|]. apply Stdlib.Lists.List.Forall_forall. intros; apply H; [by left|done].
Qed.

(** [slice::binary_search_by]: the branchless loop of the standard library,
    with [size] halved at every round. *)
Section BinarySearch.
  Context {A : Type} (f : A -> comparison) (d : A) (l : list A).

Fixpoint bs_loop (fuel size base : nat) : nat :=
  match fuel with
  | O => base
  | S fuel' =>
      if (size <=? 1)%nat then base
      else
        let half := (size / 2)%nat in
        let mid := (base + half)%nat in
        let base' := match f (nth mid l d) with Gt => base | _ => mid end in
        bs_loop fuel' (size - half) base'
  end.
End BinarySearch.

Definition binary_search_by {A} (f : A -> comparison) (l : list A) : result nat nat :=
  match l with
  | [] => Err 0%nat
  | d :: _ =>
      let base := bs_loop f d l (length l) (length l) 0 in
      match f (nth base l d) with
      | Eq => Ok base
      | Lt => Err (S base)
      | Gt => Err base
      end
  end.

Definition rank (c : comparison) : nat :=
  match c with Lt => 0 | Eq => 1 | Gt => 2 end.

(** The probe answers are non-decreasing along the slice. *)
Definition probe_sorted {A} (f : A -> comparison) (l : list A) : Prop :=
  forall i j x y, (i <= j)%nat -> l !! i = Some x -> l !! j = Some y ->
    (rank (f x) <= rank (f y))%nat.

Lemma nth_lookup_eq {A} (d : A) (l : list A) i :
  (i < length l)%nat -> l !! i = Some (nth i l d).
Proof.
  intros H. destruct (lookup_lt_is_Some_2 l i H) as [x Hx].
  by rewrite (nth_lookup_Some l i d x Hx).
Qed.

Lemma bs_loop_spec {A} (f : A -> comparison) (d : A) l fuel size base :
  probe_sorted f l -> (1 <= size <= fuel)%nat -> (base + size <= length l)%nat ->
  (forall j y, (base + size <= j)%nat -> l !! j = Some y -> f y = Gt) ->
  (base = 0%nat \/ f (nth base l d) <> Gt) ->
  let b := bs_loop f d l fuel size base in
  (b < length l)%nat /\
  (forall j y, (b < j)%nat -> l !! j = Some y -> f y = Gt) /\
  (b = 0%nat \/ f (nth b l d) <> Gt).
Proof.
  intros Hs. revert size base. induction fuel as [|fuel IH]; intros size base Hsz Hb Hgt Hlo; [lia|].
  cbn [bs_loop]. destruct (Nat.leb_spec size 1).
  - split; [lia|]. split; [|done]. intros j y Hj. apply Hgt. lia.
  - assert (Hh : (1 <= size / 2 < size /\ 2 * (size / 2) <= size)%nat).
    { pose proof (Nat.div_mod_eq size 2). pose proof (Nat.mod_upper_bound size 2). lia. }
    set (half := (size / 2)%nat) in *.
    pose proof (nth_lookup_eq d l (base + half) ltac:(lia)) as Hmid.
    destruct (f (nth (base + half) l d)) eqn:E.
    1,2: apply IH; [lia|lia| |right; by rewrite E];
      intros j y Hj; apply Hgt; lia.
    apply IH; [lia|lia| |done].
    intros j y Hj Hy.
    pose proof (Hs (base + half)%nat j _ _ ltac:(lia) Hmid Hy) as R.
    rewrite E in R. simpl in R. destruct (f y); simpl in R; done || (exfalso; lia).
Qed.

(** On a slice whose probe answers are sorted, [binary_search_by] finds an
    equal element when there is one and else gives the insertion point. *)
Lemma binary_search_by_spec {A} (f : A -> comparison) (l : list A) :
  probe_sorted f l ->
  match binary_search_by f l with
  | Ok i => exists x, l !! i = Some x /\ f x = Eq
  | Err i => (i <= length l)%nat /\
      (forall j x, (j < i)%nat -> l !! j = Some x -> f x = Lt) /\
      (forall j x, (i <= j)%nat -> l !! j = Some x -> f x = Gt)
  end.
Proof.
  intros Hs. destruct l as [|d l']; [simpl; repeat split; try lia; done|].
  set (l := d :: l') in *.
  destruct (bs_loop_spec f d l (length l) (length l) 0 Hs) as (Hb & Hgt & Hlo);
    [unfold l; simpl; lia|lia| |by left|].
  { intros j y Hj Hy. apply lookup_lt_Some in Hy. lia. }
  set (b := bs_loop f d l (length l) (length l) 0) in *.
  pose proof (nth_lookup_eq d l b Hb) as Hx.
  assert (Hdef : binary_search_by f l =
    match f (nth b l d) with Eq => Ok b | Lt => Err (S b) | Gt => Err b end) by done.
  rewrite Hdef.
  destruct (f (nth b l d)) eqn:E.
  - by exists (nth b l d).
  - repeat split; [lia| |intros j x Hj; apply Hgt; lia].
    intros j x Hj Hjx. pose proof (Hs j b x _ ltac:(lia) Hjx Hx) as R.
    rewrite E in R. simpl in R. destruct (f x); simpl in R; done || (exfalso; lia).
  - destruct Hlo as [Hb0|Hne]; [|done]. rewrite Hb0 in *.
    repeat split; [lia|intros; lia|].
    intros j x Hj Hjx. destruct j as [|j]; [|apply (Hgt (S j)); [lia|done]].
    rewrite Hx in Hjx. injection Hjx as <-. done.
Qed.

Lemma sorted_by_probe {A} (P : A -> Prop) cmp (t : A) l :
  TotalPreorder P cmp -> P t -> Forall P l -> sorted_by cmp l ->
  probe_sorted (fun x => cmp x t) l.
Proof.
  intros T Pt HP Hs i j x y Hij Hi Hj.
  assert (Px : P x) by (eapply Forall_lookup_1; eauto).
  assert (Py : P y) by (eapply Forall_lookup_1; eauto).
  assert (Hxy : i = j \/ cmp x y <> Gt).
  { clear HP Pt Px Py. revert i j Hij Hi Hj. induction Hs as [|z l Hs IH Hz]; intros i j Hij Hi Hj; [done|].
    destruct i as [|i], j as [|j]; simpl in *; [by left| |lia|].
    - right. injection Hi as ->. eapply Forall_lookup_1 in Hz; eauto.
    - destruct (IH i j ltac:(lia) Hi Hj); [left; lia|by right]. }
  destruct Hxy as [->|Hxy]; [rewrite Hi in Hj; by injection Hj as ->|].
  destruct (cmp y t) eqn:E; simpl.
  - pose proof (tp_trans _ _ T x y t Px Py Pt Hxy) as H. rewrite E in H.
    destruct (cmp x t); simpl; first [lia | exfalso; by apply H].
  - destruct (cmp x t) eqn:E2; simpl; [| lia |].
    + rewrite (tp_sym _ _ T t y) in E by done.
      pose proof (tp_trans _ _ T t x y Pt Px Py) as H.
      rewrite (tp_sym _ _ T x t), E2 in H by done. simpl in H.
      destruct (cmp t y); try done. by destruct H.
    + exfalso. eapply (tp_trans _ _ T x y t); rewrite ?E; done.
  - destruct (cmp x t); simpl; lia.
Qed.

(** The pre-sorted, binary-searched membership test is the linear scan. *)
Lemma sorted_search_is_scan {A} (P : A -> Prop) cmp (t : A) l :
  TotalPreorder P cmp -> P t -> Forall P l ->
  is_ok (binary_search_by (fun x => cmp x t) (sort_by cmp l)) =
  existsb (fun x => cmp_eqb (cmp x t) Eq) l.
Proof.
  intros T Pt HP.
  assert (HPs : Forall P (sort_by cmp l)).
  { eapply Permutation_Forall; [apply sort_by_perm|done]. }
  pose proof (binary_search_by_spec (fun x => cmp x t) (sort_by cmp l)) as H.
  specialize (H (sorted_by_probe P cmp t _ T Pt HPs (sort_by_sorted P cmp l T HP))).
  destruct (binary_search_by _ _) as [i|i]; simpl.
  - destruct H as (x & Hx & E). symmetry. apply existsb_exists. exists x. rewrite E.
    split; [|done]. apply (sort_by_In cmp). apply list_elem_of_In. eapply list_elem_of_lookup_2; eauto.
  - destruct H as (_ & Hlt & Hgt). symmetry. apply not_true_is_false.
    rewrite existsb_exists. intros (x & Hx & E). apply (sort_by_In cmp) in Hx.
    apply list_elem_of_In, list_elem_of_lookup in Hx as [j Hj].
    destruct (Nat.lt_ge_cases j i) as [Hji|Hji];
      [rewrite (Hlt j x Hji Hj) in E|rewrite (Hgt j x Hji Hj) in E]; done.
Qed.
