(* ===== verification/F64.v ===== *)
(** * IEEE-754 double precision

    Rust's [f64] as the executable binary64 specification of the Standard
    Library ([SpecFloat] with 53 bits of precision and exponent bound 1024).
    NaNs carry no payload: Rust does not specify one.  The second half shows
    that arithmetic and comparison are exact on integers below [2^53], which
    is what the engine relies on when it adds and compares BSON integers as
    doubles. *)

From Stdlib Require Import ZArith Lia String Floats.SpecFloat.
From S2P Require Import Prelude.
From stdpp Require Import base tactics.

Open Scope Z_scope.

Definition f64 : Type := spec_float.

(** [n as f64] for an integer [n]: rounding to nearest, ties to even. *)
Definition f64_of_Z (n : Z) : f64 := binary_normalize 53 1024 n 0 false.

Definition f64_add : f64 -> f64 -> f64 := SFadd 53 1024.
Definition f64_mul : f64 -> f64 -> f64 := SFmul 53 1024.

Definition f64_sub : f64 -> f64 -> f64 := SFsub 53 1024.
Definition f64_div : f64 -> f64 -> f64 := SFdiv 53 1024.
Definition f64_sqrt : f64 -> f64 := SFsqrt 53 1024.

(** [std::f64::consts::PI], and [f64::to_radians]: a product with [PI / 180]. *)
Definition f64_pi : f64 := S754_finite false 7074237752028440 (-51).
Definition f64_to_radians (x : f64) : f64 := f64_mul x (f64_div f64_pi (f64_of_Z 180)).

(** Functions whose result Rust leaves to the platform's mathematical library
    ([sin], [cos], [asin], [powi]), and the shortest decimal form of [Display]. *)
Class Libm : Type := {
  f64_sin : f64 -> f64;
  f64_cos : f64 -> f64;
  f64_asin : f64 -> f64;
  f64_powi : f64 -> Z -> f64;
  f64_display : f64 -> string }.

(** [f64::partial_cmp]: [None] when a NaN is involved. *)
Definition f64_partial_cmp : f64 -> f64 -> option comparison := SFcompare.
Definition f64_eqb : f64 -> f64 -> bool := SFeqb.
Definition f64_ltb : f64 -> f64 -> bool := SFltb.
Definition f64_leb : f64 -> f64 -> bool := SFleb.

(** [a.partial_cmp(&b).unwrap_or(Ordering::Equal)]. *)
Definition f64_cmp_or_eq (a b : f64) : comparison :=
  match f64_partial_cmp a b with Some c => c | None => Eq end.

Definition f64_is_finite (x : f64) : bool :=
  match x with S754_zero _ | S754_finite _ _ _ => true | _ => false end.

Definition f64_is_nan (x : f64) : bool :=
  match x with S754_nan => true | _ => false end.

(** [x as iN]: truncation toward zero, saturating at the bounds; NaN is 0. *)
Definition clamp (lo hi z : Z) : Z := Z.max lo (Z.min hi z).

Definition f64_as_int (lo hi : Z) (x : f64) : Z :=
  match x with
  | S754_nan => 0
  | S754_infinity s => if s then lo else hi
  | S754_zero _ => 0
  | S754_finite s m e => clamp lo hi (cond_Zopp s (Z.shiftl (Zpos m) e))
  end.

Definition i32_min : Z := - 2 ^ 31.
Definition i32_max : Z := 2 ^ 31 - 1.
Definition i64_min : Z := - 2 ^ 63.
Definition i64_max : Z := 2 ^ 63 - 1.
Definition u64_max : Z := 2 ^ 64 - 1.

Definition f64_as_i32 : f64 -> Z := f64_as_int i32_min i32_max.
Definition f64_as_i64 : f64 -> Z := f64_as_int i64_min i64_max.

(** [x.fract() == 0.0]: finite with no fractional part. *)
Definition f64_is_integral (x : f64) : bool :=
  match x with
  | S754_nan | S754_infinity _ => false
  | S754_zero _ => true
  | S754_finite _ m e => (0 <=? e) || (Zpos m mod 2 ^ (- e) =? 0)
  end.

Definition f64_zero : f64 := S754_zero false.

(** [f64::abs]. *)
Definition f64_abs (x : f64) : f64 := SFabs x.

(** The value [(-1)^s * n] of an integer [n >= 0], keeping the sign of a zero. *)
Definition f64_signed (s : bool) (n : Z) : f64 :=
  if n =? 0 then S754_zero s else f64_of_Z (cond_Zopp s n).

(** [f64::floor], [f64::ceil] and [f64::round] (half away from zero): the integer
    part of the magnitude, one more when [up] says so of the sign, the
    denominator and the remainder. *)
Definition f64_to_integral (up : bool -> Z -> Z -> bool) (x : f64) : f64 :=
  match x with
  | S754_finite s m e =>
      if 0 <=? e then x
      else
        let d := 2 ^ (- e) in
        let q := Zpos m / d in
        f64_signed s (if up s d (Zpos m mod d) then q + 1 else q)
  | _ => x
  end.

Definition f64_floor : f64 -> f64 := f64_to_integral (fun s _ r => s && negb (r =? 0)).
Definition f64_ceil : f64 -> f64 := f64_to_integral (fun s _ r => negb s && negb (r =? 0)).
Definition f64_round : f64 -> f64 := f64_to_integral (fun _ d r => d <=? 2 * r).

(** [x % y]: the exact remainder, with the sign of [x]. *)
Definition f64_rem (x y : f64) : f64 :=
  match x, y with
  | S754_nan, _ | _, S754_nan | S754_infinity _, _ | _, S754_zero _ => S754_nan
  | _, S754_infinity _ | S754_zero _, _ => x
  | S754_finite sx mx ex, S754_finite _ my ey =>
      let e := Z.min ex ey in
      let r := (Zpos mx * 2 ^ (ex - e)) mod (Zpos my * 2 ^ (ey - e)) in
      if r =? 0 then S754_zero sx else binary_normalize 53 1024 (cond_Zopp sx r) e sx
  end.

Definition f64_as_usize : f64 -> Z := f64_as_int 0 u64_max.
Definition f64_one : f64 := f64_of_Z 1.

(** [f64::ln]. *)
Class LnOps : Type := { f64_ln : f64 -> f64 }.

(** Integer wrap-around: [n as i64], [n as i32] between integer types. *)
Definition wrap_signed (w : Z) (n : Z) : Z :=
  (n + 2 ^ (w - 1)) mod 2 ^ w - 2 ^ (w - 1).

Definition wrap_i32 : Z -> Z := wrap_signed 32.
Definition wrap_i64 : Z -> Z := wrap_signed 64.
Definition wrap_u64 (n : Z) : Z := n mod 2 ^ 64.

Definition in_i32 (n : Z) : Prop := i32_min <= n <= i32_max.
Definition in_i64 (n : Z) : Prop := i64_min <= n <= i64_max.

(** ** Exactness on small integers *)

(** The canonical finite form of an integer with at most 53 bits. *)
Definition exact_form (z : Z) : f64 :=
  match z with
  | Z0 => S754_zero false
  | Zpos p => S754_finite false (Z.to_pos (Zpos p * 2 ^ (53 - Zpos (digits2_pos p))))
                (Zpos (digits2_pos p) - 53)
  | Zneg p => S754_finite true (Z.to_pos (Zpos p * 2 ^ (53 - Zpos (digits2_pos p))))
                (Zpos (digits2_pos p) - 53)
  end.

Definition small (z : Z) : Prop := Z.abs z < 2 ^ 53.

Lemma digits2_bounds p :
  2 ^ (Zpos (digits2_pos p) - 1) <= Zpos p < 2 ^ Zpos (digits2_pos p).
Proof.
  induction p as [p IH|p IH|]; cbn [digits2_pos]; try (simpl; lia).
  all: rewrite Pos2Z.inj_succ; replace (Z.succ (Zpos (digits2_pos p)) - 1)
    with (Z.succ (Zpos (digits2_pos p) - 1)) by lia;
    rewrite !Z.pow_succ_r by lia; lia.
Qed.

Lemma digits2_unique p d :
  0 < d -> 2 ^ (d - 1) <= Zpos p < 2 ^ d -> Zpos (digits2_pos p) = d.
Proof.
  intros Hd [H1 H2]. pose proof (digits2_bounds p) as [H3 H4].
  assert (Zpos (digits2_pos p) - 1 < d) by (apply (Z.pow_lt_mono_r_iff 2); lia).
  assert (d - 1 < Zpos (digits2_pos p)) by (apply (Z.pow_lt_mono_r_iff 2); lia).
  lia.
Qed.

Lemma digits2_le_53 p : Zpos p < 2 ^ 53 -> Zpos (digits2_pos p) <= 53.
Proof.
  intros H. pose proof (digits2_bounds p) as [H1 _].
  assert (Zpos (digits2_pos p) - 1 < 53) by (apply (Z.pow_lt_mono_r_iff 2); lia). lia.
Qed.

Lemma digits2_shift p q k :
  0 <= k -> Zpos q = Zpos p * 2 ^ k -> Zpos (digits2_pos q) = Zpos (digits2_pos p) + k.
Proof.
  intros Hk E. pose proof (digits2_bounds p) as [H1 H2]. apply digits2_unique; [lia|].
  rewrite E. replace (Zpos (digits2_pos p) + k - 1) with ((Zpos (digits2_pos p) - 1) + k) by lia.
  rewrite !Z.pow_add_r by lia. pose proof (Z.pow_pos_nonneg 2 k). nia.
Qed.

Lemma iter_xO m d : Zpos (Pos.iter xO m d) = Zpos m * 2 ^ Zpos d.
Proof.
  induction d as [|d IH] using Pos.peano_ind; [simpl; lia|].
  rewrite Pos.iter_succ, Pos2Z.inj_xO, IH, Pos2Z.inj_succ, Z.pow_succ_r by lia. lia.
Qed.

(** Shifting right by [n] a mantissa with [n] trailing zeros loses nothing. *)
Lemma shr_exact n m :
  0 < m ->
  SpecFloat.iter_pos shr_1 n {| shr_m := m * 2 ^ Zpos n; shr_r := false; shr_s := false |} =
  {| shr_m := m; shr_r := false; shr_s := false |}.
Proof.
  assert (H1 : forall m, 0 < m -> shr_1 {| shr_m := 2 * m; shr_r := false; shr_s := false |} =
    {| shr_m := m; shr_r := false; shr_s := false |}).
  { intros [|p|p] Hp; [lia|done|lia]. }
  revert m. induction n as [n IH|n IH|]; intros m Hm; cbn [SpecFloat.iter_pos].
  - replace (m * 2 ^ Zpos n~1) with (2 * ((m * 2 ^ Zpos n) * 2 ^ Zpos n)).
    2:{ replace (Zpos n~1) with (1 + (Zpos n + Zpos n)) by lia.
        rewrite !Z.pow_add_r by lia. lia. }
    pose proof (Z.pow_pos_nonneg 2 (Zpos n)). rewrite H1 by nia. rewrite !IH; [done|nia|nia].
  - replace (m * 2 ^ Zpos n~0) with ((m * 2 ^ Zpos n) * 2 ^ Zpos n).
    2:{ replace (Zpos n~0) with (Zpos n + Zpos n) by lia.
        rewrite !Z.pow_add_r by lia. lia. }
    pose proof (Z.pow_pos_nonneg 2 (Zpos n)). rewrite !IH; [done|nia|nia].
  - change (2 ^ 1) with 2. rewrite Z.mul_comm. by apply H1.
Qed.

Lemma shr_fexp_exact m e n :
  0 < m -> 0 <= n ->
  fexp 53 1024 (Zdigits2 (m * 2 ^ n) + e) - e = n ->
  shr_fexp 53 1024 (m * 2 ^ n) e loc_Exact =
  ({| shr_m := m; shr_r := false; shr_s := false |}, e + n).
Proof.
  intros Hm Hn E. unfold shr_fexp. rewrite E. unfold shr_record_of_loc, shr.
  destruct n as [|n|n]; [|by rewrite shr_exact|lia].
  by rewrite Z.pow_0_r, Z.mul_1_r, Z.add_0_r.
Qed.

(** The exact rounding lemma: an integer scaled by [2^k] at exponent [-k]. *)
Lemma round_aux_exact s p q k :
  Zpos p < 2 ^ 53 -> 53 - Zpos (digits2_pos p) <= k <= 1000 -> Zpos q = Zpos p * 2 ^ k ->
  binary_round_aux 53 1024 s (Zpos q) (- k) loc_Exact =
  S754_finite s (Z.to_pos (Zpos p * 2 ^ (53 - Zpos (digits2_pos p))))
    (Zpos (digits2_pos p) - 53).
Proof.
  intros Hp Hk E. pose proof (digits2_le_53 p Hp) as Hd.
  set (d := Zpos (digits2_pos p)) in *.
  assert (H0 : 0 < Zpos p * 2 ^ (53 - d)).
  { pose proof (Z.pow_pos_nonneg 2 (53 - d)). nia. }
  assert (Hq : Zpos q = (Zpos p * 2 ^ (53 - d)) * 2 ^ (k - (53 - d))).
  { rewrite E, <- Z.mul_assoc, <- Z.pow_add_r by lia. do 2 f_equal. lia. }
  assert (Hdq : Zdigits2 (Zpos q) = d + k) by (apply digits2_shift; [lia|done]).
  unfold binary_round_aux. rewrite Hq.
  rewrite shr_fexp_exact; [|done|lia|].
  2:{ rewrite <- Hq, Hdq. unfold fexp, emin. lia. }
  cbn [shr_m loc_of_shr_record round_nearest_even].
  set (M := Zpos p * 2 ^ (53 - d)) in *.
  assert (HdM : Zdigits2 M = 53).
  { destruct M as [|M0|M0] eqn:EM; [lia| |lia]. unfold Zdigits2.
    rewrite (digits2_shift p M0 (53 - d)); [unfold d; lia|lia|]. subst M. lia. }
  replace M with (M * 2 ^ 0) at 1 by (rewrite Z.pow_0_r; lia).
  rewrite shr_fexp_exact; [|lia|lia|].
  2:{ rewrite Z.pow_0_r, Z.mul_1_r, HdM. unfold fexp, emin. lia. }
  cbn [shr_m]. destruct M as [|M0|M0]; [lia| |lia].
  destruct (Z.leb_spec (- k + (k - (53 - d)) + 0) (1024 - 53)); [|lia].
  simpl Z.to_pos. f_equal. lia.
Qed.

Lemma round_exact s p q k :
  Zpos p < 2 ^ 53 -> 0 <= k <= 1000 -> Zpos q = Zpos p * 2 ^ k ->
  binary_round 53 1024 s q (- k) =
  S754_finite s (Z.to_pos (Zpos p * 2 ^ (53 - Zpos (digits2_pos p))))
    (Zpos (digits2_pos p) - 53).
Proof.
  intros Hp Hk E. pose proof (digits2_le_53 p Hp) as Hd.
  unfold binary_round. rewrite (digits2_shift p q k) by (lia || done).
  set (d := Zpos (digits2_pos p)) in *.
  replace (fexp 53 1024 (d + k + - k)) with (d - 53) by (unfold fexp, emin; lia).
  unfold shl_align. destruct (d - 53 - - k) as [|n|n] eqn:En.
  - apply round_aux_exact; [done|fold d; lia|done].
  - apply round_aux_exact; [done|fold d; lia|done].
  - replace (d - 53) with (- (53 - d)) at 1 by lia.
    apply round_aux_exact; [done|fold d; lia|].
    rewrite iter_xO, E, <- Z.mul_assoc, <- Z.pow_add_r by lia. do 2 f_equal. fold d. lia.
Qed.

Lemma normalize_exact z k :
  small z -> 0 <= k <= 1000 -> binary_normalize 53 1024 (z * 2 ^ k) (- k) false = exact_form z.
Proof.
  unfold small. intros Hz Hk. pose proof (Z.pow_pos_nonneg 2 k) as Hp.
  destruct z as [|p|p]; [done| |]; unfold exact_form, binary_normalize.
  - destruct (Zpos p * 2 ^ k) as [|q|q] eqn:E; [nia| |nia].
    rewrite (round_exact false p q k); [done|lia|lia|lia].
  - destruct (Zneg p * 2 ^ k) as [|q|q] eqn:E; [nia|nia|].
    rewrite (round_exact true p q k); [done|lia|lia|nia].
Qed.

Lemma f64_of_Z_exact z : small z -> f64_of_Z z = exact_form z.
Proof.
  intros H. unfold f64_of_Z. rewrite <- (normalize_exact z 0); [|done|lia].
  f_equal. lia.
Qed.

(** The mantissa of the exact form, aligned to a smaller exponent. *)
Lemma align_exact p ez :
  Zpos p < 2 ^ 53 -> ez <= Zpos (digits2_pos p) - 53 ->
  Zpos (fst (shl_align (Z.to_pos (Zpos p * 2 ^ (53 - Zpos (digits2_pos p))))
               (Zpos (digits2_pos p) - 53) ez)) = Zpos p * 2 ^ (- ez).
Proof.
  intros Hp He. pose proof (digits2_le_53 p Hp) as Hd. set (d := Zpos (digits2_pos p)) in *.
  assert (H0 : 0 < Zpos p * 2 ^ (53 - d)).
  { pose proof (Z.pow_pos_nonneg 2 (53 - d)). nia. }
  unfold shl_align. destruct (ez - (d - 53)) as [|n|n] eqn:E; simpl fst.
  - rewrite Z2Pos.id by done. do 2 f_equal. lia.
  - lia.
  - rewrite iter_xO, Z2Pos.id, <- Z.mul_assoc, <- Z.pow_add_r by lia. do 2 f_equal. lia.
Qed.

Definition form_sign (z : Z) : bool := match z with Zneg _ => true | _ => false end.

(** Addition of small integers is exact. *)
Lemma f64_add_exact a b :
  small a -> small b -> small (a + b) ->
  f64_add (f64_of_Z a) (f64_of_Z b) = f64_of_Z (a + b).
Proof.
  intros Ha Hb Hab. rewrite !f64_of_Z_exact by done. unfold f64_add.
  destruct (decide (a = 0)) as [->|Na]; [by destruct b|].
  destruct (decide (b = 0)) as [->|Nb]; [rewrite Z.add_0_r; by destruct a|].
  assert (Hfin : forall z, z <> 0 -> exists s p,
    z = cond_Zopp s (Zpos p) /\ exact_form z =
      S754_finite s (Z.to_pos (Zpos p * 2 ^ (53 - Zpos (digits2_pos p))))
        (Zpos (digits2_pos p) - 53)).
  { intros [|p|p] Hz; [done|by exists false, p|by exists true, p]. }
  destruct (Hfin a Na) as (sa & p & Ea & Fa), (Hfin b Nb) as (sb & q & Eb & Fb).
  unfold small in Ha, Hb. rewrite Ea in Ha. rewrite Eb in Hb.
  assert (Hp : Zpos p < 2 ^ 53) by (destruct sa; unfold cond_Zopp in *; lia).
  assert (Hq : Zpos q < 2 ^ 53) by (destruct sb; unfold cond_Zopp in *; lia).
  pose proof (digits2_le_53 p Hp). pose proof (digits2_le_53 q Hq).
  rewrite Fa, Fb. unfold SFadd. rewrite !align_exact by lia.
  set (ez := Z.min _ _).
  replace (cond_Zopp sa (Zpos p * 2 ^ (- ez)) + cond_Zopp sb (Zpos q * 2 ^ (- ez)))
    with ((a + b) * 2 ^ (- ez)).
  2:{ rewrite Ea, Eb. destruct sa, sb; unfold cond_Zopp; ring. }
  replace ez with (- (- ez)) at 2 by lia. apply normalize_exact; [done|]. subst ez. lia.
Qed.

Lemma pos_shift_compare p q n :
  0 <= n ->
  Pos.compare (Z.to_pos (Zpos p * 2 ^ n)) (Z.to_pos (Zpos q * 2 ^ n)) = (Zpos p ?= Zpos q).
Proof.
  intros Hn. pose proof (Z.pow_pos_nonneg 2 n ltac:(lia) Hn) as H.
  change (Pos.compare (Z.to_pos (Zpos p * 2 ^ n)) (Z.to_pos (Zpos q * 2 ^ n)))
    with (Zpos (Z.to_pos (Zpos p * 2 ^ n)) ?= Zpos (Z.to_pos (Zpos q * 2 ^ n))).
  rewrite !Z2Pos.id by lia. symmetry. by apply Zmult_compare_compat_r, Z.lt_gt.
Qed.

Lemma exact_mag_compare p q :
  Zpos p < 2 ^ 53 -> Zpos q < 2 ^ 53 ->
  match Zpos (digits2_pos p) - 53 ?= Zpos (digits2_pos q) - 53 with
  | Lt => Lt
  | Gt => Gt
  | Eq => Pos.compare (Z.to_pos (Zpos p * 2 ^ (53 - Zpos (digits2_pos p))))
            (Z.to_pos (Zpos q * 2 ^ (53 - Zpos (digits2_pos q))))
  end = (Zpos p ?= Zpos q).
Proof.
  intros Hp Hq. pose proof (digits2_bounds p) as [P1 P2]. pose proof (digits2_bounds q) as [Q1 Q2].
  pose proof (digits2_le_53 p Hp). pose proof (digits2_le_53 q Hq).
  destruct (Z.compare_spec (Zpos (digits2_pos p) - 53) (Zpos (digits2_pos q) - 53)) as [E|E|E].
  - replace (Zpos (digits2_pos q)) with (Zpos (digits2_pos p)) by lia.
    apply pos_shift_compare. lia.
  - symmetry. apply Z.compare_lt_iff.
    pose proof (Z.pow_le_mono_r 2 (Zpos (digits2_pos p)) (Zpos (digits2_pos q) - 1)). lia.
  - symmetry. apply Z.compare_gt_iff.
    pose proof (Z.pow_le_mono_r 2 (Zpos (digits2_pos q)) (Zpos (digits2_pos p) - 1)). lia.
Qed.

(** Comparison of small integers as doubles is their integer comparison. *)
Lemma f64_cmp_exact a b :
  small a -> small b -> f64_partial_cmp (f64_of_Z a) (f64_of_Z b) = Some (a ?= b).
Proof.
  unfold small. intros Ha Hb. rewrite !f64_of_Z_exact by done.
  unfold f64_partial_cmp, exact_form, SFcompare.
  destruct a as [|p|p], b as [|q|q]; try done; f_equal.
  - apply exact_mag_compare; lia.
  - change (Zneg p ?= Zneg q) with (CompOpp (Zpos p ?= Zpos q)).
    rewrite <- (exact_mag_compare p q) by lia.
    by destruct (_ - _ ?= _ - _).
Qed.

Lemma f64_as_int_exact lo hi z :
  small z -> lo <= 0 <= hi -> f64_as_int lo hi (f64_of_Z z) = clamp lo hi z.
Proof.
  intros Hz Hl. rewrite f64_of_Z_exact by done. unfold small in Hz.
  assert (Hs : forall p, Zpos p < 2 ^ 53 ->
    Z.shiftl (Zpos (Z.to_pos (Zpos p * 2 ^ (53 - Zpos (digits2_pos p)))))
      (Zpos (digits2_pos p) - 53) = Zpos p).
  { intros p Hp. pose proof (digits2_le_53 p Hp).
    pose proof (Z.pow_pos_nonneg 2 (53 - Zpos (digits2_pos p)) ltac:(lia) ltac:(lia)).
    rewrite Z2Pos.id by lia.
    replace (Zpos (digits2_pos p) - 53) with (- (53 - Zpos (digits2_pos p))) by lia.
    rewrite Z.shiftl_opp_r, Z.shiftr_div_pow2 by lia. apply Z.div_mul. lia. }
  destruct z as [|p|p]; simpl f64_as_int; [unfold clamp; lia| |]; by rewrite Hs by lia.
Qed.

Lemma f64_integral_exact z : small z -> f64_is_integral (f64_of_Z z) = true.
Proof.
  intros Hz. rewrite f64_of_Z_exact by done. unfold small in Hz.
  assert (Hs : forall p, Zpos p < 2 ^ 53 ->
    Zpos (Z.to_pos (Zpos p * 2 ^ (53 - Zpos (digits2_pos p)))) mod
      2 ^ (- (Zpos (digits2_pos p) - 53)) = 0).
  { intros p Hp. pose proof (digits2_le_53 p Hp).
    pose proof (Z.pow_pos_nonneg 2 (53 - Zpos (digits2_pos p)) ltac:(lia) ltac:(lia)).
    rewrite Z2Pos.id by lia.
    replace (- (Zpos (digits2_pos p) - 53)) with (53 - Zpos (digits2_pos p)) by lia.
    apply Z.mod_mul. lia. }
  destruct z as [|p|p]; simpl f64_is_integral; [done| |]; rewrite Hs by lia; apply orb_true_r.
Qed.

(** Multiplication of small non-zero integers with a small product is exact. *)
Lemma f64_mul_exact a b :
  a <> 0 -> b <> 0 -> small a -> small b -> small (a * b) ->
  f64_mul (f64_of_Z a) (f64_of_Z b) = f64_of_Z (a * b).
Proof.
  intros Na Nb Ha Hb Hab. rewrite !f64_of_Z_exact by done. unfold small in *.
  assert (Hpq : forall p q s, Zpos p < 2 ^ 53 -> Zpos q < 2 ^ 53 -> Zpos (p * q) < 2 ^ 53 ->
    binary_round_aux 53 1024 s
      (Zpos (Z.to_pos (Zpos p * 2 ^ (53 - Zpos (digits2_pos p))) *
             Z.to_pos (Zpos q * 2 ^ (53 - Zpos (digits2_pos q)))))
      (Zpos (digits2_pos p) - 53 + (Zpos (digits2_pos q) - 53)) loc_Exact =
    S754_finite s (Z.to_pos (Zpos (p * q) * 2 ^ (53 - Zpos (digits2_pos (p * q)))))
      (Zpos (digits2_pos (p * q)) - 53)).
  { intros p q s Hp Hq Hpq. pose proof (digits2_le_53 p Hp). pose proof (digits2_le_53 q Hq).
    pose proof (digits2_bounds p) as [Bp _]. pose proof (digits2_bounds q) as [Bq _].
    set (dp := Zpos (digits2_pos p)) in *. set (dq := Zpos (digits2_pos q)) in *.
    assert (dp - 1 + (dq - 1) < 53).
    { apply (Z.pow_lt_mono_r_iff 2); [lia|lia|]. rewrite Z.pow_add_r by lia. nia. }
    pose proof (Z.pow_pos_nonneg 2 (53 - dp) ltac:(lia) ltac:(lia)).
    pose proof (Z.pow_pos_nonneg 2 (53 - dq) ltac:(lia) ltac:(lia)).
    replace (dp - 53 + (dq - 53)) with (- (106 - dp - dq)) by lia.
    apply round_aux_exact; [done|lia|].
    rewrite !Pos2Z.inj_mul, !Z2Pos.id by lia.
    replace (106 - dp - dq) with ((53 - dp) + (53 - dq)) by lia.
    rewrite Z.pow_add_r by lia. ring. }
  destruct a as [|p|p], b as [|q|q]; try done;
    unfold exact_form, f64_mul, SFmul; cbn [Z.mul xorb]; apply Hpq; nia.
Qed.

(** ** Order of the non-NaN doubles

    Comparison is lexicographic on a class, a signed exponent and a signed
    mantissa. *)

Definition f64_class (x : f64) : Z :=
  match x with
  | S754_zero _ | S754_nan => 0
  | S754_infinity s => if s then -2 else 2
  | S754_finite s _ _ => if s then -1 else 1
  end.

Definition f64_exp (x : f64) : Z :=
  match x with S754_finite s _ e => if s then - e else e | _ => 0 end.

Definition f64_mant (x : f64) : Z :=
  match x with S754_finite s m _ => if s then Zneg m else Zpos m | _ => 0 end.

Lemma f64_cmp_lex x y :
  f64_is_nan x = false -> f64_is_nan y = false ->
  f64_cmp_or_eq x y =
  cmp_then (f64_class x ?= f64_class y)
    (cmp_then (f64_exp x ?= f64_exp y) (f64_mant x ?= f64_mant y)).
Proof.
  intros Hx Hy. destruct x as [s|s| |s m e], y as [s'|s'| |s' m' e']; try done;
    try (destruct s; done); try (destruct s'; done); try (destruct s, s'; done).
  unfold f64_cmp_or_eq, f64_partial_cmp, SFcompare. cbn [f64_class f64_exp f64_mant].
  destruct s, s'; try done.
  - rewrite Z.compare_opp, (Z.compare_antisym e e'). by destruct (e ?= e').
  - by destruct (e ?= e').
Qed.

Lemma f64_cmp_tp : TotalPreorder (fun x => f64_is_nan x = false) f64_cmp_or_eq.
Proof.
  assert (T : TotalPreorder (fun x => f64_is_nan x = false)
    (fun x y => cmp_then (f64_class x ?= f64_class y)
       (cmp_then (f64_exp x ?= f64_exp y) (f64_mant x ?= f64_mant y)))).
  { assert (HZ : TotalPreorder (fun _ => True) Z.compare).
    { split; intros; [apply Z.compare_refl|apply Z.compare_antisym|].
      rewrite !Z.compare_ngt_iff in *. lia. }
    apply tp_then; [|apply tp_then];
      (apply (tp_pullback (fun _ => True)); [done|exact HZ]). }
  split.
  - intros x Hx. rewrite f64_cmp_lex by done. by apply (tp_refl _ _ T).
  - intros x y Hx Hy. rewrite !f64_cmp_lex by done. by apply (tp_sym _ _ T).
  - intros x y z Hx Hy Hz. rewrite !f64_cmp_lex by done. by apply (tp_trans _ _ T).
Qed.

Lemma f64_of_Z_not_nan z : small z -> f64_is_nan (f64_of_Z z) = false.
Proof. intros H. rewrite f64_of_Z_exact by done. by destruct z. Qed.

Lemma f64_cmp_of_Z a b :
  small a -> small b -> f64_cmp_or_eq (f64_of_Z a) (f64_of_Z b) = (a ?= b).
Proof. intros Ha Hb. unfold f64_cmp_or_eq. by rewrite f64_cmp_exact. Qed.
