(* ===== verification/F32.v ===== *)
(** * binary32 arithmetic

    The [f32] of the vector index, on [SpecFloat] with 24 bits: arithmetic,
    the casts from and to [f64], [max], [clamp] and the bit pattern with its
    inverse.  Comparisons are those of [F64], which do not depend on the
    format. *)

From Stdlib Require Import ZArith Lia SpecFloat Bool List.
From S2P Require Import Prelude F64.
From stdpp Require Import base tactics list.

Open Scope Z_scope.

Definition f32 : Type := spec_float.

Definition f32_add : f32 -> f32 -> f32 := SFadd 24 128.
Definition f32_sub : f32 -> f32 -> f32 := SFsub 24 128.
Definition f32_mul : f32 -> f32 -> f32 := SFmul 24 128.
Definition f32_div : f32 -> f32 -> f32 := SFdiv 24 128.
Definition f32_sqrt : f32 -> f32 := SFsqrt 24 128.
Definition f32_neg : f32 -> f32 := SFopp.

Definition f32_zero : f32 := S754_zero false.
Definition f32_infinity : f32 := S754_infinity false.
Definition f32_one : f32 := binary_normalize 24 128 1 0 false.
Definition f32_two : f32 := binary_normalize 24 128 2 0 false.

(** [x as f32] of an [f64], rounded to nearest, and [x as f64] of an [f32], exact. *)
Definition cast (prec emax : Z) (x : spec_float) : spec_float :=
  match x with
  | S754_finite s m e => binary_round prec emax s m e
  | _ => x
  end.
Definition f32_of_f64 : f64 -> f32 := cast 24 128.
Definition f64_of_f32 : f32 -> f64 := cast 53 1024.

Definition f32_ltb : f32 -> f32 -> bool := SFltb.
Definition f32_eqb : f32 -> f32 -> bool := SFeqb.
Definition f32_is_nan : f32 -> bool := f64_is_nan.

(** [a.partial_cmp(&b).unwrap_or(Ordering::Equal)]. *)
Definition f32_cmp_or_eq : f32 -> f32 -> comparison := f64_cmp_or_eq.

(** [x.max(0.0)]: of a NaN and a number, the number. *)
Definition f32_max_zero (x : f32) : f32 :=
  if f32_is_nan x then f32_zero else if f32_ltb x f32_zero then f32_zero else x.

(** [x.clamp(0.0, 1.0)]: a NaN stays. *)
Definition f32_clamp_unit (x : f32) : f32 :=
  let x := if f32_ltb x f32_zero then f32_zero else x in
  if f32_ltb f32_one x then f32_one else x.

(** [to_bits] and [from_bits]; a NaN is the canonical quiet one. *)
Definition f32_bits (x : f32) : Z :=
  match x with
  | S754_zero s => if s then 2 ^ 31 else 0
  | S754_infinity s => (if s then 2 ^ 31 else 0) + 255 * 2 ^ 23
  | S754_nan => 255 * 2 ^ 23 + 2 ^ 22
  | S754_finite s m e =>
      (if s then 2 ^ 31 else 0) +
      (if 2 ^ 23 <=? Zpos m then (e + 150) * 2 ^ 23 + (Zpos m - 2 ^ 23) else Zpos m)
  end.

Definition f32_of_bits (n : Z) : f32 :=
  let s := 2 ^ 31 <=? n in
  let n := n mod 2 ^ 31 in
  let exponent := n / 2 ^ 23 in
  let fraction := n mod 2 ^ 23 in
  if exponent =? 255 then if fraction =? 0 then S754_infinity s else S754_nan
  else if exponent =? 0 then
    match fraction with Zpos m => S754_finite s m (-149) | _ => S754_zero s end
  else S754_finite s (Z.to_pos (fraction + 2 ^ 23)) (exponent - 150).

(** The canonical form of a binary32 number. *)
Definition f32_valid (x : f32) : bool := valid_binary 24 128 x.

Lemma f32_valid_finite s m e :
  f32_valid (S754_finite s m e) = true ->
  (2 ^ 23 <= Zpos m < 2 ^ 24 /\ -149 <= e <= 104) \/ (Zpos m < 2 ^ 23 /\ e = -149).
Proof.
  intros H. unfold f32_valid, valid_binary, bounded, canonical_mantissa in H. apply andb_true_iff in H as [H1 H2].
  apply Z.eqb_eq in H1. apply Z.leb_le in H2. unfold fexp, emin in H1. change (24 + -149) with (-125) in *.
  pose proof (digits2_bounds m) as [H3 H4]. set (d := Zpos (digits2_pos m)) in *.
  assert (Hd : 0 < d) by lia. destruct (Z.lt_ge_cases d 24) as [Hlt|Hge].
  - right. assert (d <= 23) by lia. split; [|lia]. eapply Z.lt_le_trans; [exact H4|]. apply Z.pow_le_mono_r; lia.
  - left. assert (d = 24) as -> by lia. simpl in H3, H4. lia.
Qed.

Lemma f32_bits_bound x : f32_valid x = true -> 0 <= f32_bits x < 2 ^ 32.
Proof.
  destruct x as [[]|[]| |s m e]; try (intros; cbn; lia). intros [[Hm He]|[Hm ->]]%f32_valid_finite; cbn [f32_bits].
  - rewrite (proj2 (Z.leb_le _ _)) by lia. destruct s; lia.
  - rewrite (proj2 (Z.leb_gt _ _)) by lia. destruct s; lia.
Qed.

Lemma f32_sign_split (s : bool) n :
  0 <= n < 2 ^ 31 ->
  (2 ^ 31 <=? (if s then 2 ^ 31 else 0) + n) = s /\ ((if s then 2 ^ 31 else 0) + n) mod 2 ^ 31 = n.
Proof.
  intros Hn. destruct s.
  - split; [apply Z.leb_le; lia|]. rewrite Z.add_comm, <- (Z.mul_1_l (2 ^ 31)) at 1.
    rewrite Z.mod_add by lia. by apply Z.mod_small.
  - split; [apply Z.leb_gt; lia|]. by apply Z.mod_small.
Qed.

(** A number read back from its bits. *)
Lemma f32_bits_roundtrip x : f32_valid x = true -> f32_of_bits (f32_bits x) = x.
Proof.
  destruct x as [[]|[]| |s m e]; try reflexivity.
  intros [[Hm He]|[Hm ->]]%f32_valid_finite; cbn [f32_bits]; unfold f32_of_bits.
  - rewrite (proj2 (Z.leb_le _ _)) by lia.
    destruct (f32_sign_split s ((e + 150) * 2 ^ 23 + (Zpos m - 2 ^ 23)) ltac:(lia)) as [-> ->].
    rewrite Z.div_add_l, Z.div_small, Z.add_0_r by lia.
    replace (((e + 150) * 2 ^ 23 + (Zpos m - 2 ^ 23)) mod 2 ^ 23) with (Zpos m - 2 ^ 23)
      by (rewrite Z.add_comm, Z.mod_add by lia; symmetry; apply Z.mod_small; lia).
    rewrite (proj2 (Z.eqb_neq _ _)) by lia. rewrite (proj2 (Z.eqb_neq _ _)) by lia.
    f_equal; [|lia]. rewrite Z.sub_add. apply Pos2Z.id.
  - rewrite (proj2 (Z.leb_gt _ _)) by lia. destruct (f32_sign_split s (Zpos m) ltac:(lia)) as [-> ->].
    rewrite Z.div_small, Z.mod_small by lia. done.
Qed.

Example f32_tenth : f64_of_f32 (f32_of_f64 (f64_div f64_one (f64_of_Z 10))) = S754_finite false 7205759511166976 (-56).
Proof. reflexivity. Qed.
