(* ===== verification/Bson.v ===== *)
(** * BSON values and documents

    The engine works on the [bson] crate's [Bson] enum and [Document] type.
    The crate is not part of the repository: its data is given here as the
    constructors the engine matches on, and its operations are the members
    of the class [BsonOps], a parameter of every definition that uses them.
    [BsonLaws] names the documented behaviour the theorems rely on: a
    [Document] is an insertion-ordered map with unique keys.  [RefBson] is a
    concrete instance that shows the laws hold together; witnesses run on
    it. *)

From Stdlib Require Import ZArith Lia Ascii String Strings.Byte.
From S2P Require Import Prelude F64.
From stdpp Require Import base tactics list strings.

Open Scope string_scope.
Open Scope list_scope.

(** [Vec<u8>] and [&[u8]]. *)
Abbreviation bytes := (list byte).

Unset Elimination Schemes.
(** The [Bson] enum.  A [Document] is the sequence of entries its iterator
    yields. *)
Inductive bson : Type :=
| BDouble (d : f64)
| BString (s : string)
| BArray (a : list bson)
| BDocument (d : list (string * bson))
| BBoolean (b : bool)
| BNull
| BRegularExpression (pattern options : string)
| BJavaScriptCode (code : string)
| BJavaScriptCodeWithScope (code : string) (scope : list (string * bson))
| BInt32 (n : Z)
| BInt64 (n : Z)
| BTimestamp (time increment : Z)
| BBinary (subtype : byte) (data : bytes)
| BObjectId (oid : bytes)
| BDateTime (millis : Z)
| BSymbol (s : string)
| BDecimal128 (raw : bytes)
| BUndefined
| BMaxKey
| BMinKey
| BDbPointer (namespace : string) (oid : bytes).
Set Elimination Schemes.

Abbreviation document := (list (string * bson)).

(** Induction over the values nested in arrays and documents. *)
Definition bson_ind (P : bson -> Prop)
  (fdouble : forall d, P (BDouble d)) (fstring : forall s, P (BString s))
  (farray : forall a, Forall P a -> P (BArray a))
  (fdoc : forall d, Forall (fun kv => P (snd kv)) d -> P (BDocument d))
  (fbool : forall b, P (BBoolean b)) (fnull : P BNull)
  (fregex : forall p o, P (BRegularExpression p o))
  (fjs : forall c, P (BJavaScriptCode c))
  (fjsw : forall c d, Forall (fun kv => P (snd kv)) d -> P (BJavaScriptCodeWithScope c d))
  (fi32 : forall n, P (BInt32 n)) (fi64 : forall n, P (BInt64 n))
  (fts : forall t i, P (BTimestamp t i)) (fbin : forall s d, P (BBinary s d))
  (foid : forall o, P (BObjectId o)) (fdt : forall m, P (BDateTime m))
  (fsym : forall s, P (BSymbol s)) (fdec : forall r, P (BDecimal128 r))
  (fundef : P BUndefined) (fmax : P BMaxKey) (fmin : P BMinKey)
  (fdbp : forall n o, P (BDbPointer n o)) : forall b, P b :=
  fix F (b : bson) : P b :=
    let go_doc := fix G (d : list (string * bson)) : Forall (fun kv => P (snd kv)) d :=
      match d with
      | [] => List.Forall_nil _
      | kv :: d' => List.Forall_cons _ kv d' (F (snd kv)) (G d')
      end in
    match b with
    | BDouble d => fdouble d
    | BString s => fstring s
    | BArray a =>
        farray a ((fix G (l : list bson) : Forall P l :=
          match l with
          | [] => List.Forall_nil _
          | x :: l' => List.Forall_cons _ x l' (F x) (G l')
          end) a)
    | BDocument d => fdoc d (go_doc d)
    | BBoolean b => fbool b
    | BNull => fnull
    | BRegularExpression p o => fregex p o
    | BJavaScriptCode c => fjs c
    | BJavaScriptCodeWithScope c d => fjsw c d (go_doc d)
    | BInt32 n => fi32 n
    | BInt64 n => fi64 n
    | BTimestamp t i => fts t i
    | BBinary s d => fbin s d
    | BObjectId o => foid o
    | BDateTime m => fdt m
    | BSymbol s => fsym s
    | BDecimal128 r => fdec r
    | BUndefined => fundef
    | BMaxKey => fmax
    | BMinKey => fmin
    | BDbPointer n o => fdbp n o
    end.

Definition doc_keys (d : document) : list string := map fst d.
Definition doc_values (d : document) : list bson := map snd d.

(** ** The [bson] crate as a parameter *)

(** What the engine calls: [Document::{get,insert,remove}], [PartialEq],
    [Debug] and [Display] of [Bson], the binary codec, [ObjectId]'s
    hexadecimal form, and the message of [ValueAccessError] (field not
    present, or of an unexpected type). *)
Class BsonOps : Type := {
  doc_get : document -> string -> option bson;
  doc_insert : document -> string -> bson -> document;
  doc_remove : document -> string -> document;
  bson_eqb : bson -> bson -> bool;
  bson_debug : bson -> string;
  bson_display : bson -> string;
  doc_to_vec : document -> result bytes string;
  doc_from_reader : bytes -> result document string;
  oid_to_hex : bytes -> string;
  value_access_error : bool -> string;
  oid_parse_str : string -> option bytes }.

Definition doc_contains `{BsonOps} (d : document) (k : string) : bool :=
  is_some (doc_get d k).

(** The accessors [Bson::as_str], [as_document], [as_array], [as_f64] and
    [as_bool]: the payload of one variant. *)
Definition as_str (b : bson) : option string :=
  match b with BString s => Some s | _ => None end.
Definition as_document (b : bson) : option document :=
  match b with BDocument d => Some d | _ => None end.
Definition as_array_opt (b : bson) : option (list bson) :=
  match b with BArray a => Some a | _ => None end.
Definition as_f64 (b : bson) : option f64 :=
  match b with BDouble d => Some d | _ => None end.
Definition as_bool (b : bson) : option bool :=
  match b with BBoolean v => Some v | _ => None end.

(** [Document::get_str], [get_document], [get_array], [get_bool]: a missing
    field or another variant is an error. *)
Definition doc_get_as `{BsonOps} {A} (proj : bson -> option A) (d : document) (k : string)
  : result A error :=
  match doc_get d k with
  | None => Err (Msg (value_access_error false))
  | Some v => match proj v with Some a => Ok a | None => Err (Msg (value_access_error true)) end
  end.

(** [Option::and_then]. *)
Definition and_then {A A'} (o : option A) (f : A -> option A') : option A' :=
  match o with Some a => f a | None => None end.

(** [Option::or]. *)
Definition opt_or {A} (o o' : option A) : option A :=
  match o with Some _ => o | None => o' end.

(** The documented behaviour of [Document] and of the codec. *)
Class BsonLaws (B : BsonOps) : Prop := {
  get_In : forall d k v, doc_get d k = Some v -> In (k, v) d;
  get_iter : forall d k v, List.NoDup (doc_keys d) -> In (k, v) d -> doc_get d k = Some v;
  get_insert_eq : forall d k v, doc_get (doc_insert d k v) k = Some v;
  get_insert_ne : forall d k k' v, k <> k' -> doc_get (doc_insert d k v) k' = doc_get d k';
  insert_In : forall d k v k' v', In (k', v') (doc_insert d k v) ->
    (k' = k /\ v' = v) \/ In (k', v') d;
  insert_NoDup : forall d k v, List.NoDup (doc_keys d) -> List.NoDup (doc_keys (doc_insert d k v));
  get_remove_eq : forall d k, doc_get (doc_remove d k) k = None;
  get_remove_ne : forall d k k', k <> k' -> doc_get (doc_remove d k) k' = doc_get d k';
  remove_In : forall d k k' v', In (k', v') (doc_remove d k) -> In (k', v') d;
  remove_NoDup : forall d k, List.NoDup (doc_keys d) -> List.NoDup (doc_keys (doc_remove d k)) }.

Lemma insert_nil `{BsonLaws} k v : doc_insert [] k v = [(k, v)].
Proof.
  pose proof (get_In _ k v (get_insert_eq [] k v)) as Hin. pose proof (insert_NoDup [] k v ltac:(constructor)) as Hnd.
  pose proof (insert_In [] k v) as Hall. destruct (doc_insert [] k v) as [|[k1 v1] [|[k2 v2] l]]; [done| |].
  - destruct (Hall k1 v1 (or_introl eq_refl)) as [[-> ->]|[]]. done.
  - destruct (Hall k1 v1 (or_introl eq_refl)) as [[-> ->]|[]].
    destruct (Hall k2 v2 (or_intror (or_introl eq_refl))) as [[-> ->]|[]].
    apply NoDup_cons_iff in Hnd as [Hn _]. exfalso. apply Hn. by left.
Qed.

Create HintDb bson.
#[export] Hint Resolve get_insert_eq get_remove_eq insert_NoDup remove_NoDup : bson.
Create Rewrite HintDb bson.
#[export] Hint Rewrite @get_insert_eq @get_remove_eq using typeclasses eauto : bson.

(** ** Well-typed values

    What every Rust value of these types satisfies: integers in their width,
    twelve-byte object ids, unique keys ([bson_ok]), and doubles in the
    canonical form of binary64 ([doubles_ok]). *)

Fixpoint nodup_str (l : list string) : bool :=
  match l with
  | [] => true
  | x :: l' => negb (existsb (String.eqb x) l') && nodup_str l'
  end.

Definition in_range (lo hi z : Z) : bool := ((lo <=? z) && (z <=? hi))%Z.

Fixpoint bson_ok (b : bson) : bool :=
  match b with
  | BArray a => forallb bson_ok a
  | BDocument d => nodup_str (map fst d) && forallb (fun kv => bson_ok (snd kv)) d
  | BJavaScriptCodeWithScope _ d =>
      nodup_str (map fst d) && forallb (fun kv => bson_ok (snd kv)) d
  | BInt32 n => in_range i32_min i32_max n
  | BInt64 n => in_range i64_min i64_max n
  | BDateTime n => in_range i64_min i64_max n
  | BObjectId o => (length o =? 12)%nat
  | _ => true
  end.

Fixpoint doubles_ok (b : bson) : bool :=
  match b with
  | BDouble d => SpecFloat.valid_binary 53 1024 d
  | BArray a => forallb doubles_ok a
  | BDocument d | BJavaScriptCodeWithScope _ d => forallb (fun kv => doubles_ok (snd kv)) d
  | _ => true
  end.

Definition doc_ok (d : document) : bool := bson_ok (BDocument d).

Lemma nodup_str_spec l : nodup_str l = true <-> List.NoDup l.
Proof.
  induction l as [|x l IH]; simpl.
  - split; [constructor|done].
  - rewrite andb_true_iff, negb_true_iff, IH, NoDup_cons_iff.
    split; intros [H1 H2]; split; auto.
    + intros Hin. apply not_true_iff_false in H1. apply H1, existsb_exists.
      exists x. split; [done|apply String.eqb_refl].
    + apply not_true_iff_false. rewrite existsb_exists. intros (y & Hy & E).
      apply String.eqb_eq in E. by subst.
Qed.

Lemma doc_ok_spec d :
  doc_ok d = true <->
  List.NoDup (doc_keys d) /\ (forall k v, In (k, v) d -> bson_ok v = true).
Proof.
  unfold doc_ok. cbn [bson_ok]. rewrite andb_true_iff, nodup_str_spec, forallb_forall.
  split; intros [H1 H2]; split; auto.
  - intros k v Hin. apply (H2 (k, v) Hin).
  - intros [k v] Hin. eapply H2; eauto.
Qed.

(** Reading back what [to_writer] wrote gives the document. *)
Class BsonCodecLaws (B : BsonOps) : Prop := {
  from_to_vec : forall d b, doc_ok d = true -> doubles_ok (BDocument d) = true ->
    doc_to_vec d = Ok b -> doc_from_reader b = Ok d }.

(** A new key goes last, the bytes of a document are never empty, and an object
    id is read back from its hexadecimal form. *)
Class BsonOrderLaws (B : BsonOps) : Prop := {
  insert_fresh : forall d k v, ~ In k (doc_keys d) -> doc_insert d k v = d ++ [(k, v)];
  to_vec_nonempty : forall d b, doc_to_vec d = Ok b -> b <> [];
  oid_hex_parse : forall o, length o = 12%nat -> oid_parse_str (oid_to_hex o) = Some o }.

Section Laws.
Context {B : BsonOps} {L : BsonLaws B}.

Lemma get_nil k : doc_get [] k = None.
Proof. destruct (doc_get [] k) eqn:E; [|done]. by apply get_In in E. Qed.

Lemma get_insert d k k' v :
  doc_get (doc_insert d k v) k' = if k =s? k' then Some v else doc_get d k'.
Proof.
  destruct (String.eqb_spec k k') as [->|H]; [apply get_insert_eq|by apply get_insert_ne].
Qed.

Lemma get_remove d k k' :
  doc_get (doc_remove d k) k' = if k =s? k' then None else doc_get d k'.
Proof.
  destruct (String.eqb_spec k k') as [->|H]; [apply get_remove_eq|by apply get_remove_ne].
Qed.

Lemma get_ok d k v : doc_ok d = true -> doc_get d k = Some v -> bson_ok v = true.
Proof. rewrite doc_ok_spec. intros [_ H] E. eapply H, get_In, E. Qed.

Lemma insert_ok d k v :
  doc_ok d = true -> bson_ok v = true -> doc_ok (doc_insert d k v) = true.
Proof.
  rewrite !doc_ok_spec. intros [H1 H2] Hv. split; [by apply insert_NoDup|].
  intros k' v' [[-> ->]|Hin]%insert_In; eauto.
Qed.

Lemma remove_ok d k : doc_ok d = true -> doc_ok (doc_remove d k) = true.
Proof.
  rewrite !doc_ok_spec. intros [H1 H2]. split; [by apply remove_NoDup|].
  intros k' v' Hin%remove_In. eauto.
Qed.

Lemma insert_doubles d k v :
  doubles_ok (BDocument d) = true -> doubles_ok v = true ->
  doubles_ok (BDocument (doc_insert d k v)) = true.
Proof.
  cbn [doubles_ok]. rewrite !forallb_forall. intros Hd Hv [k' v'] [[-> ->]|Hin]%insert_In; [done|].
  apply (Hd _ Hin).
Qed.

(** A key is found exactly when the iterator yields it. *)
Lemma get_keys d k : List.NoDup (doc_keys d) -> doc_contains d k = true <-> In k (doc_keys d).
Proof.
  intros Hnd. unfold doc_contains, doc_keys. split.
  - destruct (doc_get d k) eqn:E; [|done]. intros _. apply get_In in E.
    apply (in_map fst) in E. done.
  - rewrite in_map_iff. intros ([k' v] & <- & Hin). by rewrite (get_iter d k' v).
Qed.
End Laws.

#[export] Hint Resolve insert_ok remove_ok get_ok : bson.

(** ** Ordering of bytes *)

Definition byte_cmp (a b : byte) : comparison := N.compare (Byte.to_N a) (Byte.to_N b).

(** Lexicographic order of byte slices. *)
Fixpoint bytes_cmp (a b : bytes) : comparison :=
  match a, b with
  | [], [] => Eq
  | [], _ :: _ => Lt
  | _ :: _, [] => Gt
  | x :: a', y :: b' => cmp_then (byte_cmp x y) (bytes_cmp a' b')
  end.

(** [str::cmp] and [str::as_bytes]. *)
Definition as_bytes (s : string) : bytes := list_byte_of_string s.
Definition str_cmp (a b : string) : comparison := bytes_cmp (as_bytes a) (as_bytes b).

(** [bool::cmp]. *)
Definition bool_cmp (a b : bool) : comparison :=
  match a, b with false, true => Lt | true, false => Gt | _, _ => Eq end.

Lemma byte_cmp_eq a b : byte_cmp a b = Eq <-> a = b.
Proof.
  unfold byte_cmp. rewrite N.compare_eq_iff. split; [|by intros ->].
  intros H. pose proof (Byte.of_to_N a) as Ha. rewrite H, Byte.of_to_N in Ha.
  by injection Ha.
Qed.

Lemma bytes_cmp_eq a b : bytes_cmp a b = Eq <-> a = b.
Proof.
  revert b. induction a as [|x a IH]; intros [|y b]; simpl; try done.
  destruct (byte_cmp x y) eqn:E; simpl.
  - apply byte_cmp_eq in E as ->. rewrite IH. split; [by intros ->|by injection 1].
  - split; [done|]. injection 1 as -> ->. by rewrite (proj2 (byte_cmp_eq y y)) in E.
  - split; [done|]. injection 1 as -> ->. by rewrite (proj2 (byte_cmp_eq y y)) in E.
Qed.

(** After parts of one length, the rest decides what the parts do not. *)
Lemma bytes_cmp_app a b x y :
  length a = length b -> bytes_cmp (a ++ x) (b ++ y) = cmp_then (bytes_cmp a b) (bytes_cmp x y).
Proof.
  revert b. induction a as [|c a IH]; intros [|d b]; try done. simpl. intros [= H]. rewrite (IH b H).
  by destruct (byte_cmp c d).
Qed.

Lemma bytes_cmp_sym a b : bytes_cmp b a = CompOpp (bytes_cmp a b).
Proof.
  revert b. induction a as [|x a IH]; intros [|y b]; simpl; try done.
  unfold byte_cmp. rewrite N.compare_antisym, IH. by destruct (_ ?= _)%N.
Qed.

Lemma bytes_cmp_trans_lt a b c :
  bytes_cmp a b = Lt -> bytes_cmp b c = Lt -> bytes_cmp a c = Lt.
Proof.
  revert b c. induction a as [|x a IH]; intros [|y b] [|z c]; simpl; try done.
  unfold byte_cmp.
  destruct (N.compare_spec (Byte.to_N x) (Byte.to_N y)) as [E1|E1|E1]; simpl; try done;
    destruct (N.compare_spec (Byte.to_N y) (Byte.to_N z)) as [E2|E2|E2]; simpl; try done;
    intros H1 H2; destruct (N.compare_spec (Byte.to_N x) (Byte.to_N z)); simpl; try lia; eauto.
Qed.

Lemma bytes_cmp_tp : TotalPreorder (fun _ => True) bytes_cmp.
Proof.
  split.
  - intros x _. by apply bytes_cmp_eq.
  - intros. apply bytes_cmp_sym.
  - intros x y z _ _ _ H1 H2.
    destruct (bytes_cmp x y) eqn:E1; [apply bytes_cmp_eq in E1 as ->; done| |done].
    destruct (bytes_cmp y z) eqn:E2; [apply bytes_cmp_eq in E2 as ->; by rewrite E1| |done].
    by rewrite (bytes_cmp_trans_lt x y z).
Qed.

Lemma str_cmp_eq a b : str_cmp a b = Eq <-> a = b.
Proof.
  unfold str_cmp. rewrite bytes_cmp_eq. split; [|by intros ->]. intros H.
  rewrite <- (string_of_list_byte_of_string a), <- (string_of_list_byte_of_string b).
  unfold as_bytes in H. by rewrite H.
Qed.

Lemma str_cmp_tp : TotalPreorder (fun _ => True) str_cmp.
Proof. apply (tp_pullback (fun _ => True) _ as_bytes); [done|apply bytes_cmp_tp]. Qed.

Lemma bool_cmp_tp : TotalPreorder (fun _ => True) bool_cmp.
Proof. split; [by intros []|by intros [] []|by intros [] [] []]. Qed.

Lemma Z_compare_tp : TotalPreorder (fun _ => True) Z.compare.
Proof.
  split; intros.
  - apply Z.compare_refl.
  - apply Z.compare_antisym.
  - rewrite !Z.compare_ngt_iff in *. lia.
Qed.
