(* ===== verification/RefBson.v ===== *)
(** * A reference instance of the [bson] crate interface

    Concrete functions for the members of [BsonOps], and the proof that they
    satisfy [BsonLaws] and [BsonCodecLaws].  Nothing in the model depends on
    this choice: it shows that the laws are consistent and gives the
    witnesses something to run on.  The byte format is a plain tagged
    prefix code (not the BSON wire format). *)

From Stdlib Require Import ZArith Lia Ascii String Strings.Byte.
From Stdlib Require Import Floats.SpecFloat.
From S2P Require Import Prelude F64 Bson.
From stdpp Require Import base tactics list strings.

Open Scope string_scope.
Open Scope list_scope.

Module RefBson.

Fixpoint get (d : document) (k : string) : option bson :=
  match d with
  | [] => None
  | (k', v) :: d' => if k' =s? k then Some v else get d' k
  end.

Fixpoint insert (d : document) (k : string) (v : bson) : document :=
  match d with
  | [] => [(k, v)]
  | (k', v') :: d' => if k' =s? k then (k', v) :: d' else (k', v') :: insert d' k v
  end.

Definition remove (d : document) (k : string) : document :=
  List.filter (fun kv => negb (fst kv =s? k)) d.

(** Value equality: IEEE equality on doubles, key order ignored. *)
Fixpoint eqb (a b : bson) {struct a} : bool :=
  let doc_eqb := fun (d1 d2 : document) =>
    (length d1 =? length d2)%nat &&
    forallb (fun kv => match get d2 (fst kv) with
                       | Some v2 => eqb (snd kv) v2
                       | None => false
                       end) d1 in
  match a, b with
  | BDouble x, BDouble y => f64_eqb x y
  | BString x, BString y | BSymbol x, BSymbol y | BJavaScriptCode x, BJavaScriptCode y => x =s? y
  | BArray x, BArray y =>
      (length x =? length y)%nat &&
      (fix go l1 l2 := match l1, l2 with
                       | u :: l1', v :: l2' => eqb u v && go l1' l2'
                       | _, _ => true
                       end) x y
  | BDocument x, BDocument y => doc_eqb x y
  | BBoolean x, BBoolean y => Bool.eqb x y
  | BNull, BNull | BUndefined, BUndefined | BMaxKey, BMaxKey | BMinKey, BMinKey => true
  | BRegularExpression p o, BRegularExpression p' o' => (p =s? p') && (o =s? o')
  | BJavaScriptCodeWithScope c d, BJavaScriptCodeWithScope c' d' => (c =s? c') && doc_eqb d d'
  | BInt32 x, BInt32 y | BInt64 x, BInt64 y | BDateTime x, BDateTime y => (x =? y)%Z
  | BTimestamp t i, BTimestamp t' i' => ((t =? t') && (i =? i'))%Z
  | BBinary s d, BBinary s' d' =>
      cmp_eqb (bytes_cmp [s] [s']) Eq && cmp_eqb (bytes_cmp d d') Eq
  | BObjectId x, BObjectId y | BDecimal128 x, BDecimal128 y => cmp_eqb (bytes_cmp x y) Eq
  | BDbPointer n o, BDbPointer n' o' => (n =s? n') && cmp_eqb (bytes_cmp o o') Eq
  | _, _ => false
  end.

(** ** The tagged prefix code *)

Fixpoint enc_pos (p : positive) : bytes :=
  match p with
  | xH => [x00]
  | xO q => x01 :: enc_pos q
  | xI q => x02 :: enc_pos q
  end.

Definition enc_Z (z : Z) : bytes :=
  match z with
  | Z0 => [x00]
  | Zpos p => x01 :: enc_pos p
  | Zneg p => x02 :: enc_pos p
  end.

Fixpoint enc_bytes (b : bytes) : bytes :=
  match b with
  | [] => [x00]
  | c :: b' => x01 :: c :: enc_bytes b'
  end.

Definition enc_str (s : string) : bytes := enc_bytes (list_byte_of_string s).

Definition enc_bool (b : bool) : bytes := if b then [x01] else [x00].

Definition enc_f64 (x : f64) : bytes :=
  match x with
  | S754_zero s => x00 :: enc_bool s
  | S754_infinity s => x01 :: enc_bool s
  | S754_nan => [x02]
  | S754_finite s m e => x03 :: enc_bool s ++ enc_pos m ++ enc_Z e
  end.

Fixpoint enc (b : bson) : bytes :=
  let enc_doc := fix go (d : document) : bytes :=
    match d with
    | [] => [x00]
    | (k, v) :: d' => x01 :: enc_str k ++ enc v ++ go d'
    end in
  match b with
  | BDouble d => x01 :: enc_f64 d
  | BString s => x02 :: enc_str s
  | BDocument d => x03 :: enc_doc d
  | BArray a =>
      x04 :: (fix go (l : list bson) : bytes :=
        match l with [] => [x00] | x :: l' => x01 :: enc x ++ go l' end) a
  | BBinary s d => x05 :: s :: enc_bytes d
  | BUndefined => [x06]
  | BObjectId o => x07 :: enc_bytes o
  | BBoolean b => x08 :: enc_bool b
  | BDateTime n => x09 :: enc_Z n
  | BNull => [x0a]
  | BRegularExpression p o => x0b :: enc_str p ++ enc_str o
  | BDbPointer n o => x0c :: enc_str n ++ enc_bytes o
  | BJavaScriptCode c => x0d :: enc_str c
  | BSymbol s => x0e :: enc_str s
  | BJavaScriptCodeWithScope c d => x0f :: enc_str c ++ enc_doc d
  | BInt32 n => x10 :: enc_Z n
  | BTimestamp t i => x11 :: enc_Z t ++ enc_Z i
  | BInt64 n => x12 :: enc_Z n
  | BDecimal128 r => x13 :: enc_bytes r
  | BMinKey => [xff]
  | BMaxKey => [x7f]
  end.

Fixpoint dec_pos (b : bytes) : option (positive * bytes) :=
  match b with
  | x00 :: r => Some (xH, r)
  | x01 :: r => match dec_pos r with Some (p, r') => Some (xO p, r') | None => None end
  | x02 :: r => match dec_pos r with Some (p, r') => Some (xI p, r') | None => None end
  | _ => None
  end.

Definition dec_Z (b : bytes) : option (Z * bytes) :=
  match b with
  | x00 :: r => Some (0%Z, r)
  | x01 :: r => match dec_pos r with Some (p, r') => Some (Zpos p, r') | None => None end
  | x02 :: r => match dec_pos r with Some (p, r') => Some (Zneg p, r') | None => None end
  | _ => None
  end.

Fixpoint dec_bytes (b : bytes) : option (bytes * bytes) :=
  match b with
  | x00 :: r => Some ([], r)
  | x01 :: c :: r => match dec_bytes r with Some (s, r') => Some (c :: s, r') | None => None end
  | _ => None
  end.

Definition dec_str (b : bytes) : option (string * bytes) :=
  match dec_bytes b with Some (s, r) => Some (string_of_list_byte s, r) | None => None end.

Definition dec_bool (b : bytes) : option (bool * bytes) :=
  match b with x00 :: r => Some (false, r) | x01 :: r => Some (true, r) | _ => None end.

Notation "'do' x <- c ; k" := (match c with Some x => k | None => None end)
  (at level 10, x pattern, c at level 200, k at level 200).

Definition dec_f64 (b : bytes) : option (f64 * bytes) :=
  match b with
  | x00 :: r => do (s, r) <- dec_bool r; Some (S754_zero s, r)
  | x01 :: r => do (s, r) <- dec_bool r; Some (S754_infinity s, r)
  | x02 :: r => Some (S754_nan, r)
  | x03 :: r =>
      do (s, r) <- dec_bool r; do (m, r) <- dec_pos r; do (e, r) <- dec_Z r;
      Some (S754_finite s m e, r)
  | _ => None
  end.

Fixpoint dec (n : nat) (b : bytes) {struct n} : option (bson * bytes) :=
  match n with
  | O => None
  | S n =>
    match b with
    | x01 :: r => do (d, r) <- dec_f64 r; Some (BDouble d, r)
    | x02 :: r => do (s, r) <- dec_str r; Some (BString s, r)
    | x03 :: r => do (d, r) <- dec_doc n r; Some (BDocument d, r)
    | x04 :: r => do (l, r) <- dec_arr n r; Some (BArray l, r)
    | x05 :: s :: r => do (d, r) <- dec_bytes r; Some (BBinary s d, r)
    | x06 :: r => Some (BUndefined, r)
    | x07 :: r => do (o, r) <- dec_bytes r; Some (BObjectId o, r)
    | x08 :: r => do (b, r) <- dec_bool r; Some (BBoolean b, r)
    | x09 :: r => do (z, r) <- dec_Z r; Some (BDateTime z, r)
    | x0a :: r => Some (BNull, r)
    | x0b :: r => do (p, r) <- dec_str r; do (o, r) <- dec_str r; Some (BRegularExpression p o, r)
    | x0c :: r => do (s, r) <- dec_str r; do (o, r) <- dec_bytes r; Some (BDbPointer s o, r)
    | x0d :: r => do (s, r) <- dec_str r; Some (BJavaScriptCode s, r)
    | x0e :: r => do (s, r) <- dec_str r; Some (BSymbol s, r)
    | x0f :: r => do (s, r) <- dec_str r; do (d, r) <- dec_doc n r;
                  Some (BJavaScriptCodeWithScope s d, r)
    | x10 :: r => do (z, r) <- dec_Z r; Some (BInt32 z, r)
    | x11 :: r => do (t, r) <- dec_Z r; do (i, r) <- dec_Z r; Some (BTimestamp t i, r)
    | x12 :: r => do (z, r) <- dec_Z r; Some (BInt64 z, r)
    | x13 :: r => do (d, r) <- dec_bytes r; Some (BDecimal128 d, r)
    | xff :: r => Some (BMinKey, r)
    | x7f :: r => Some (BMaxKey, r)
    | _ => None
    end
  end
with dec_doc (n : nat) (b : bytes) {struct n} : option (document * bytes) :=
  match n with
  | O => None
  | S n =>
    match b with
    | x00 :: r => Some ([], r)
    | x01 :: r => do (k, r) <- dec_str r; do (v, r) <- dec n r; do (d, r) <- dec_doc n r;
                  Some ((k, v) :: d, r)
    | _ => None
    end
  end
with dec_arr (n : nat) (b : bytes) {struct n} : option (list bson * bytes) :=
  match n with
  | O => None
  | S n =>
    match b with
    | x00 :: r => Some ([], r)
    | x01 :: r => do (v, r) <- dec n r; do (l, r) <- dec_arr n r; Some (v :: l, r)
    | _ => None
    end
  end.

Definition to_vec (d : document) : result bytes string := Ok (enc (BDocument d)).

Definition from_reader (b : bytes) : result document string :=
  match dec (S (length b)) b with
  | Some (BDocument d, _) => Ok d
  | _ => Err "malformed document"
  end.

Definition hex_digit (n : N) : ascii :=
  ascii_of_N (if (n <? 10)%N then 48 + n else 87 + n)%N.

Fixpoint to_hex (b : bytes) : string :=
  match b with
  | [] => ""
  | c :: b' => String (hex_digit (Byte.to_N c / 16)) (String (hex_digit (Byte.to_N c mod 16)) (to_hex b'))
  end.

Definition hex_value (a : ascii) : option N :=
  let n := N_of_ascii a in
  if (48 <=? n)%N && (n <=? 57)%N then Some (n - 48)%N
  else if (97 <=? n)%N && (n <=? 102)%N then Some (n - 87)%N
  else None.

Fixpoint of_hex (s : string) : option bytes :=
  match s with
  | EmptyString => Some []
  | String a (String b s') =>
      do x <- hex_value a; do y <- hex_value b; do c <- Byte.of_N (16 * x + y);
      do r <- of_hex s'; Some (c :: r)
  | _ => None
  end.

Definition debug (b : bson) : string := string_of_list_byte (enc b).

#[export] Instance ops : BsonOps := {|
  doc_get := get;
  doc_insert := insert;
  doc_remove := remove;
  bson_eqb := eqb;
  bson_debug := debug;
  bson_display := debug;
  doc_to_vec := to_vec;
  doc_from_reader := from_reader;
  oid_to_hex := to_hex;
  value_access_error := fun present =>
    if present then "unexpected type" else "field is not present";
  oid_parse_str := of_hex |}.

(** ** The laws *)

Lemma get_in d k v : get d k = Some v -> In (k, v) d.
Proof.
  induction d as [|[k' v'] d IH]; simpl; [done|].
  destruct (String.eqb_spec k' k) as [->|]; [injection 1 as ->; by left|by right; apply IH].
Qed.

Lemma insert_keys d k v :
  doc_keys (insert d k v) = doc_keys d \/
  (doc_keys (insert d k v) = doc_keys d ++ [k] /\ ~ In k (doc_keys d)).
Proof.
  unfold doc_keys. induction d as [|[k' v'] d IH]; simpl; [right; auto|].
  destruct (String.eqb_spec k' k) as [->|Hne]; simpl; [by left|].
  destruct IH as [->|[-> Hk]]; [by left|]. right. split; [done|]. by intros [].
Qed.

#[export] Instance laws : BsonLaws ops.
Proof.
  split; simpl.
  - apply get_in.
  - intros d k v. induction d as [|[k' v'] d IH]; simpl; [done|].
    unfold doc_keys. simpl. rewrite NoDup_cons_iff. intros [Hk Hnd] [E|Hin].
    + injection E as -> ->. by rewrite String.eqb_refl.
    + destruct (String.eqb_spec k' k) as [->|]; [|by apply IH].
      exfalso. apply Hk. by apply (in_map fst) in Hin.
  - intros d k v. induction d as [|[k' v'] d IH]; simpl; [by rewrite String.eqb_refl|].
    destruct (k' =s? k) eqn:E; simpl; by rewrite E.
  - intros d k k' v Hne. apply String.eqb_neq in Hne as Hk.
    induction d as [|[k2 v2] d IH]; simpl; [by rewrite Hk|].
    destruct (String.eqb_spec k2 k) as [->|]; simpl; [by rewrite Hk|].
    by destruct (k2 =s? k').
  - intros d k v k' v'. induction d as [|[k2 v2] d IH]; simpl.
    + intros [E|[]]. injection E as -> ->. auto.
    + destruct (String.eqb_spec k2 k) as [->|]; simpl.
      * intros [E|Hin]; [injection E as -> ->; auto|auto].
      * intros [E|Hin]; [auto|]. destruct (IH Hin); auto.
  - intros d k v Hnd. destruct (insert_keys d k v) as [->|[-> Hk]]; [done|].
    apply Permutation_NoDup with (k :: doc_keys d).
    + apply Permutation_cons_append.
    + by constructor.
  - intros d k. induction d as [|[k2 v2] d IH]; simpl; [done|].
    destruct (k2 =s? k) eqn:E; simpl; [done|by rewrite E].
  - intros d k k' Hne. induction d as [|[k2 v2] d IH]; simpl; [done|].
    destruct (String.eqb_spec k2 k) as [->|]; simpl.
    + rewrite IH. destruct (String.eqb_spec k k'); [done|done].
    + by rewrite IH.
  - intros d k k' v' Hin. unfold remove in Hin. by apply filter_In in Hin as [].
  - intros d k Hnd. unfold doc_keys, remove in *. induction d as [|[k2 v2] d IH]; simpl; [done|].
    simpl in Hnd. apply NoDup_cons_iff in Hnd as [Hk Hnd].
    destruct (k2 =s? k); simpl; [by apply IH|]. constructor; [|by apply IH].
    rewrite in_map_iff. intros ([k3 v3] & <- & Hin). apply filter_In in Hin as [Hin _].
    apply Hk. by apply (in_map fst) in Hin.
Qed.

Lemma of_to_hex o : of_hex (to_hex o) = Some o.
Proof.
  induction o as [|c o IH]; [done|].
  assert (Hd : of_hex (to_hex [c]) = Some [c]) by (by destruct c).
  cbn [to_hex of_hex] in *. rewrite IH.
  destruct (hex_value (hex_digit (Byte.to_N c / 16))); [|done].
  destruct (hex_value (hex_digit (Byte.to_N c mod 16))); [|done]. simpl in *.
  destruct (Byte.of_N _); [|done]. simpl in *. by injection Hd as ->.
Qed.

#[export] Instance order_laws : BsonOrderLaws ops.
Proof.
  split; simpl.
  - intros d k v. induction d as [|[k' v'] d IH]; [done|]. unfold doc_keys. simpl. intros H.
    destruct (String.eqb_spec k' k) as [->|]; [exfalso; apply H; by left|].
    rewrite IH; [done|]. intros Hin. apply H. by right.
  - intros d b E. unfold to_vec in E. injection E as <-. by destruct d as [|[]].
  - intros o _. apply of_to_hex.
Qed.

Lemma dec_enc_pos p r : dec_pos (enc_pos p ++ r) = Some (p, r).
Proof. induction p as [p IH|p IH|]; simpl; by rewrite ?IH. Qed.

Lemma dec_enc_Z z r : dec_Z (enc_Z z ++ r) = Some (z, r).
Proof. destruct z; simpl; by rewrite ?dec_enc_pos. Qed.

Lemma dec_enc_bytes b r : dec_bytes (enc_bytes b ++ r) = Some (b, r).
Proof. induction b as [|c b IH]; simpl; by rewrite ?IH. Qed.

Lemma dec_enc_str s r : dec_str (enc_str s ++ r) = Some (s, r).
Proof.
  unfold dec_str, enc_str. by rewrite dec_enc_bytes, string_of_list_byte_of_string.
Qed.

Lemma dec_enc_bool b r : dec_bool (enc_bool b ++ r) = Some (b, r).
Proof. by destruct b. Qed.

Lemma dec_enc_f64 x r : dec_f64 (enc_f64 x ++ r) = Some (x, r).
Proof.
  destruct x; simpl; rewrite ?dec_enc_bool; try done.
  by rewrite <- !app_assoc, dec_enc_bool, dec_enc_pos, dec_enc_Z.
Qed.

Fixpoint enc_doc (d : document) : bytes :=
  match d with
  | [] => [x00]
  | (k, v) :: d' => x01 :: enc_str k ++ enc v ++ enc_doc d'
  end.

Fixpoint enc_arr (l : list bson) : bytes :=
  match l with [] => [x00] | x :: l' => x01 :: enc x ++ enc_arr l' end.

Definition roundtrips (b : bson) : Prop :=
  forall n r, (length (enc b) < n)%nat -> dec n (enc b ++ r) = Some (b, r).

Lemma dec_enc_doc d :
  Forall (fun kv => roundtrips (snd kv)) d ->
  forall n r, (length (enc_doc d) < n)%nat -> dec_doc n (enc_doc d ++ r) = Some (d, r).
Proof.
  induction 1 as [|[k v] d Hv _ IH]; intros [|n] r Hn; simpl in Hn; try lia; [done|].
  rewrite !length_app in Hn. simpl. rewrite <- !app_assoc, dec_enc_str.
  unfold roundtrips in Hv. simpl in Hv. rewrite Hv by lia. by rewrite IH by lia.
Qed.

Lemma dec_enc_arr l :
  Forall roundtrips l ->
  forall n r, (length (enc_arr l) < n)%nat -> dec_arr n (enc_arr l ++ r) = Some (l, r).
Proof.
  induction 1 as [|v l Hv _ IH]; intros [|n] r Hn; simpl in Hn; try lia; [done|].
  rewrite !length_app in Hn. simpl. rewrite <- !app_assoc.
  rewrite Hv by lia. by rewrite IH by lia.
Qed.

Lemma dec_enc b : roundtrips b.
Proof.
  induction b using bson_ind; intros [|fuel] rest Hn; simpl in Hn; try lia; try done;
    simpl; rewrite <- ?app_assoc, ?dec_enc_f64, ?dec_enc_str, ?dec_enc_str, ?dec_enc_Z, ?dec_enc_Z,
      ?dec_enc_bytes, ?dec_enc_bool; try done.
  - change (_ ++ rest) with (enc_arr a ++ rest). rewrite dec_enc_arr; [done|done|].
    change (S (length (enc_arr a)) < S fuel)%nat in Hn. lia.
  - change (_ ++ rest) with (enc_doc d ++ rest). rewrite dec_enc_doc; [done|done|].
    change (S (length (enc_doc d)) < S fuel)%nat in Hn. lia.
  - rewrite length_app in Hn. change (_ ++ rest) with (enc_doc d ++ rest).
    rewrite dec_enc_doc; [done|done|].
    change (S (length (enc_str c) + length (enc_doc d)) < S fuel)%nat in Hn. lia.
Qed.

Lemma from_to_vec d b : to_vec d = Ok b -> from_reader b = Ok d.
Proof.
  intros E. assert (b = enc (BDocument d)) as -> by (unfold to_vec in E; congruence).
  unfold from_reader.
  pose proof (dec_enc (BDocument d) (S (length (enc (BDocument d)))) [] ltac:(lia)) as H.
  rewrite app_nil_r in H. by rewrite H.
Qed.

#[export] Instance codec_laws : BsonCodecLaws ops.
Proof. split. intros d b _ _. apply from_to_vec. Qed.

End RefBson.

#[export] Existing Instance RefBson.ops.
#[export] Existing Instance RefBson.laws.
#[export] Existing Instance RefBson.codec_laws.
