(* ===== verification/Paths.v ===== *)
(** * Dot-notation paths

    [src/rust/smongo-engine/src/paths.rs]: reading, testing, setting and
    unsetting a field by a dotted path.  A [&mut Document] argument is the
    document before the call, and the new document is returned. *)

From Stdlib Require Import ZArith Lia Ascii String.
From S2P Require Import Prelude F64 Bson RefBson.
From stdpp Require Import base tactics list strings.

Open Scope string_scope.
Open Scope list_scope.

(** ** Definitions *)

Section Paths.
Context {B : BsonOps}.

(** Source: paths.rs:34-48 (get_value). The loop over the remaining parts. *)
Fixpoint get_value_loop (current : bson) (parts : list string) : option bson :=
  match parts with
  | [] => Some current
  | part :: rest =>
      match current with
      | BNull => None
      | BDocument d =>
          match doc_get d part with
          | Some v => get_value_loop v rest
          | None => None
          end
      | BArray arr =>
          match parse_usize part with
          | Some idx =>
              match vec_get arr idx with
              | Some v => get_value_loop v rest
              | None => None
              end
          | None => None
          end
      | _ => None
      end
  end.

(** Source: paths.rs:23-49 (get_value). *)
Definition get_value (doc : document) (key : string) : option bson :=
  match split_on "." key with
  | [] => None
  | first :: rest =>
      match doc_get doc first with
      | Some current => get_value_loop current rest
      | None => None
      end
  end.

(** Source: paths.rs:58-76 (field_exists). The loop over the parts. *)
Fixpoint field_exists_loop (current : bson) (parts : list string) : bool :=
  match parts with
  | [] => true
  | part :: rest =>
      match current with
      | BDocument d =>
          match doc_get d part with
          | Some val => field_exists_loop val rest
          | None => false
          end
      | BArray arr =>
          match parse_usize part with
          | Some idx =>
              match vec_get arr idx with
              | Some v => field_exists_loop v rest
              | None => false
              end
          | None => false
          end
      | _ => false
      end
  end.

(** Source: paths.rs:55-77 (field_exists). *)
Definition field_exists (doc : document) (key : string) : bool :=
  field_exists_loop (BDocument doc) (split_on "." key).

(** Source: paths.rs:87-107 (set_value). The descent to the parent, and the
    final insert; writing through [get_mut] is an insert at the same key. *)
Fixpoint set_parts (current : document) (parts : list string) (value : bson)
  : result document error :=
  match parts with
  | [] => Err (Msg "empty key")
  | [last] => Ok (doc_insert current last value)
  | part :: rest =>
      let need_create :=
        match doc_get current part with Some (BDocument _) => false | _ => true end in
      let current := if need_create then doc_insert current part (BDocument []) else current in
      let? entry := ok_or (doc_get current part) (Msg "path traversal failed") in
      match entry with
      | BDocument d =>
          let? d' := set_parts d rest value in
          Ok (doc_insert current part (BDocument d'))
      | _ => Err (Msg "intermediate value is not a document")
      end
  end.

(** Source: paths.rs:80-108 (set_value). *)
Definition set_value (doc : document) (key : string) (value : bson) : result document error :=
  set_parts doc (split_on "." key) value.

(** Source: paths.rs:119-136 (unset_value). The descent and the removal. *)
Fixpoint unset_parts (current : document) (parts : list string) : result document error :=
  match parts with
  | [] => Ok current
  | [last] => Ok (doc_remove current last)
  | part :: rest =>
      if negb (doc_contains current part) then Ok current
      else
        let? entry := ok_or (doc_get current part) (Msg "path traversal failed") in
        match entry with
        | BDocument d =>
            let? d' := unset_parts d rest in
            Ok (doc_insert current part (BDocument d'))
        | _ => Ok current
        end
  end.

(** Source: paths.rs:111-137 (unset_value). *)
Definition unset_value (doc : document) (key : string) : result document error :=
  unset_parts doc (split_on "." key).

(** ** Lemmas on part lists *)

(** [get_value] on an already split path. *)
Definition get_parts (doc : document) (parts : list string) : option bson :=
  get_value_loop (BDocument doc) parts.

Lemma get_value_parts doc key : get_value doc key = get_parts doc (split_on "." key).
Proof.
  unfold get_value, get_parts.
  destruct (split_on "." key) as [|p ps] eqn:E; [by apply split_on_not_nil in E|].
  simpl. by destruct (doc_get doc p).
Qed.

Lemma get_loop_app c ps qs :
  get_value_loop c (ps ++ qs) =
  match get_value_loop c ps with Some v => get_value_loop v qs | None => None end.
Proof.
  revert c. induction ps as [|p ps IH]; intros c; [done|]. simpl.
  destruct c; try done.
  - destruct (parse_usize p); [|done]. destruct (vec_get a z); [apply IH|done].
  - destruct (doc_get d p); [apply IH|done].
Qed.

Lemma exists_loop_get c ps : field_exists_loop c ps = is_some (get_value_loop c ps).
Proof.
  revert c. induction ps as [|p ps IH]; intros c; [done|]. simpl.
  destruct c; try done.
  - destruct (parse_usize p); [|done]. destruct (vec_get a z); [apply IH|done].
  - destruct (doc_get d p); [apply IH|done].
Qed.

(** Every intermediate value of the path is a document. *)
Fixpoint doc_path (c : bson) (parts : list string) : Prop :=
  match parts with
  | [] | [_] => match c with BDocument _ => True | _ => False end
  | part :: rest =>
      match c with
      | BDocument d => match doc_get d part with Some v => doc_path v rest | None => True end
      | _ => False
      end
  end.

Context {L : BsonLaws B}.

(** The recursive step of the two descents. *)
Lemma set_parts_step d p q ps v :
  set_parts d (p :: q :: ps) v =
  let need_create := match doc_get d p with Some (BDocument _) => false | _ => true end in
  let d1 := if need_create then doc_insert d p (BDocument []) else d in
  let? entry := ok_or (doc_get d1 p) (Msg "path traversal failed") in
  match entry with
  | BDocument sub =>
      let? sub' := set_parts sub (q :: ps) v in Ok (doc_insert d1 p (BDocument sub'))
  | _ => Err (Msg "intermediate value is not a document")
  end.
Proof. done. Qed.

Lemma unset_parts_step d p q ps :
  unset_parts d (p :: q :: ps) =
  if negb (doc_contains d p) then Ok d
  else let? entry := ok_or (doc_get d p) (Msg "path traversal failed") in
       match entry with
       | BDocument sub =>
           let? sub' := unset_parts sub (q :: ps) in Ok (doc_insert d p (BDocument sub'))
       | _ => Ok d
       end.
Proof. done. Qed.

Lemma set_parts_ok d ps v : ps <> [] -> exists d', set_parts d ps v = Ok d'.
Proof.
  revert d. induction ps as [|p [|q ps] IH]; intros d Hne; [done|by eexists|].
  assert (Hex : exists sub d1, (if match doc_get d p with Some (BDocument _) => false | _ => true end
      then doc_insert d p (BDocument []) else d) = d1 /\ doc_get d1 p = Some (BDocument sub)).
  { destruct (doc_get d p) as [[]|] eqn:E; eauto using get_insert_eq. }
  destruct Hex as (sub & d1 & E1 & E2).
  destruct (IH sub ltac:(done)) as [d' Hd'].
  exists (doc_insert d1 p (BDocument d')).
  rewrite set_parts_step. cbv zeta. rewrite E1, E2. cbn [ok_or]. by rewrite Hd'.
Qed.

(** One unfolding of the descent of [set_value]. *)
Lemma set_parts_cons d p q ps v d' :
  set_parts d (p :: q :: ps) v = Ok d' ->
  exists sub sub' d1, set_parts sub (q :: ps) v = Ok sub' /\
    d' = doc_insert d1 p (BDocument sub') /\
    ((doc_get d p = Some (BDocument sub) /\ d1 = d) \/
     ((forall s, doc_get d p <> Some (BDocument s)) /\ sub = [] /\
      d1 = doc_insert d p (BDocument []))).
Proof.
  rewrite set_parts_step. cbv zeta.
  destruct (doc_get d p) as [b|] eqn:E; [destruct b|];
    rewrite ?get_insert_eq, ?E; cbn [ok_or];
    (case_match eqn:Es; [|done]); injection 1 as <-;
    eauto 10; do 3 eexists; (split; [exact Es|]); (split; [done|]); right;
    (split; [by intros|done]).
Qed.

Lemma get_set_parts d ps v d' : set_parts d ps v = Ok d' -> get_parts d' ps = Some v.
Proof.
  unfold get_parts. revert d d'. induction ps as [|p [|q ps] IH]; intros d d' H; [done| |].
  - injection H as <-. simpl. by rewrite get_insert_eq.
  - destruct (set_parts_cons _ _ _ _ _ _ H) as (sub & sub' & d1 & Hs & -> & _).
    cbn [get_value_loop]. rewrite get_insert_eq. apply (IH _ _ Hs).
Qed.

(** Setting [p ++ x :: xs] leaves [p ++ y :: ys] alone when the value at [p]
    is a document (or [p] is empty) and [x <> y]. *)
Lemma set_parts_frame d pre x xs y ys v d' :
  set_parts d (pre ++ x :: xs) v = Ok d' -> x <> y ->
  (exists sub, get_parts d pre = Some (BDocument sub)) ->
  doc_path (BDocument d) (pre ++ [x]) ->
  get_parts d' (pre ++ y :: ys) = get_parts d (pre ++ y :: ys).
Proof.
  unfold get_parts. revert d d'. induction pre as [|p pre IH]; intros d d' H Hne Hsub Hpath.
  - simpl app in *. destruct xs as [|q xs].
    + injection H as <-. cbn [get_value_loop]. by rewrite get_insert_ne.
    + destruct (set_parts_cons _ _ _ _ _ _ H) as (sub & sub' & d1 & _ & -> & Hd1).
      cbn [get_value_loop]. rewrite get_insert_ne by done.
      destruct Hd1 as [[_ ->]|[_ [_ ->]]]; [done|by rewrite get_insert_ne].
  - simpl app in *. destruct Hsub as [s0 Hs0]. cbn [get_value_loop] in Hs0.
    destruct (pre ++ x :: xs) as [|q qs] eqn:Eq; [by destruct pre|].
    destruct (set_parts_cons _ _ _ _ _ _ H) as (sub & sub' & d1 & Hs & -> & Hd1).
    cbn [get_value_loop]. rewrite get_insert_eq.
    destruct (doc_get d p) as [c|] eqn:Ep; [|done].
    assert (Hc : doc_path c (pre ++ [x])).
    { cbn [doc_path] in Hpath. destruct (pre ++ [x]) eqn:Ex; [by destruct pre|].
      by rewrite Ep in Hpath. }
    destruct Hd1 as [[Ed ->]|[Hno _]].
    + injection Ed as ->. apply (IH _ _ Hs Hne); eauto.
    + exfalso. destruct c; try (by destruct (pre ++ [x]) as [|? []] eqn:Ex;
        [destruct pre|simpl in Hc|simpl in Hc]). by eapply Hno.
Qed.

Lemma set_parts_wf d ps v d' :
  doc_ok d = true -> bson_ok v = true -> set_parts d ps v = Ok d' -> doc_ok d' = true.
Proof.
  revert d d'. induction ps as [|p [|q ps] IH]; intros d d' Hd Hv H; [done| |].
  - injection H as <-. by apply insert_ok.
  - destruct (set_parts_cons _ _ _ _ _ _ H) as (sub & sub' & d1 & Hs & -> & Hd1).
    destruct Hd1 as [[Ed ->]|(_ & -> & ->)].
    + apply insert_ok; [done|]. apply (IH _ _ (get_ok d p _ Hd Ed) Hv Hs).
    + repeat apply insert_ok; try done. by apply (IH [] sub').
Qed.

Lemma unset_parts_ok d ps : exists d', unset_parts d ps = Ok d'.
Proof.
  revert d. induction ps as [|p [|q ps] IH]; intros d; [by eexists|by eexists|].
  rewrite unset_parts_step. unfold doc_contains.
  destruct (doc_get d p) as [b|]; [|by eexists]. cbn [is_some negb ok_or].
  destruct b; try by eexists. destruct (IH d0) as [d' Hd']. rewrite Hd'. by eexists.
Qed.

Lemma get_unset_parts d ps d' :
  ps <> [] -> doc_path (BDocument d) ps -> unset_parts d ps = Ok d' -> get_parts d' ps = None.
Proof.
  unfold get_parts. revert d d'. induction ps as [|p [|q ps] IH]; intros d d' Hne Hp H; [done| |].
  - injection H as <-. simpl. by rewrite get_remove_eq.
  - rewrite unset_parts_step in H. unfold doc_contains in H. cbn [doc_path] in Hp.
    destruct (doc_get d p) as [b|] eqn:E; cbn [is_some negb ok_or] in H.
    2:{ injection H as <-. cbn [get_value_loop]. by rewrite E. }
    assert (Hb : exists sub, b = BDocument sub).
    { destruct b, ps; simpl in Hp; try done; eauto. }
    destruct Hb as [sub ->].
    destruct (unset_parts_ok sub (q :: ps)) as [s' Hs']. rewrite Hs' in H. injection H as <-.
    cbn [get_value_loop]. rewrite get_insert_eq. by apply (IH sub).
Qed.

Lemma unset_parts_wf d ps d' :
  doc_ok d = true -> unset_parts d ps = Ok d' -> doc_ok d' = true.
Proof.
  revert d d'. induction ps as [|p [|q ps] IH]; intros d d' Hd H; [by injection H as <-| |].
  - injection H as <-. by apply remove_ok.
  - rewrite unset_parts_step in H.
    destruct (doc_contains d p); cbn [negb] in H; [|by injection H as <-].
    destruct (doc_get d p) as [b|] eqn:E; cbn [ok_or] in H; [|done].
    destruct b; try (by injection H as <-).
    destruct (unset_parts_ok d0 (q :: ps)) as [s' Hs']. rewrite Hs' in H. injection H as <-.
    apply insert_ok; [done|]. apply (IH d0); [|done]. apply (get_ok d p); done.
Qed.

(** A single key without dots is one part. *)
Lemma get_value_plain d k : no_char "." k = true -> get_value d k = doc_get d k.
Proof.
  intros H. unfold get_value. rewrite split_on_no_char by done. by destruct (doc_get d k).
Qed.

Lemma set_value_plain d k v :
  no_char "." k = true -> set_value d k v = Ok (doc_insert d k v).
Proof. intros H. unfold set_value. by rewrite split_on_no_char. Qed.

Lemma set_value_total d key v : exists d', set_value d key v = Ok d'.
Proof. apply set_parts_ok, split_on_not_nil. Qed.

Lemma set_value_wf d key v d' :
  doc_ok d = true -> bson_ok v = true -> set_value d key v = Ok d' -> doc_ok d' = true.
Proof. apply set_parts_wf. Qed.

Lemma unset_value_wf d key d' :
  doc_ok d = true -> unset_value d key = Ok d' -> doc_ok d' = true.
Proof. apply unset_parts_wf. Qed.

Lemma get_loop_ok c ps v :
  bson_ok c = true -> get_value_loop c ps = Some v -> bson_ok v = true.
Proof.
  revert c. induction ps as [|p ps IH]; intros c Hc H; simpl in H; [by injection H as <-|].
  destruct c; try done.
  - destruct (parse_usize p); [|done]. destruct (vec_get a z) eqn:E; [|done].
    eapply IH, H. simpl in Hc. rewrite forallb_forall in Hc. eapply Hc, vec_get_In, E.
  - destruct (doc_get d p) eqn:E; [|done]. eapply IH, H. eapply get_ok; eauto.
Qed.

Lemma get_value_wf d key v : doc_ok d = true -> get_value d key = Some v -> bson_ok v = true.
Proof. rewrite get_value_parts. apply get_loop_ok. Qed.

(** ** Properties *)

(** After [set_value(doc, key, v)] succeeds, [get_value] reads
    [v] back at the same dotted path, whatever was there before, and the call
    does succeed on every document, key and value. *)
Theorem set_then_get doc key v :
  exists doc', set_value doc key v = Ok doc' /\ get_value doc' key = Some v.
Proof.
  destruct (set_value_total doc key v) as [doc' H]. exists doc'. split; [done|].
  rewrite get_value_parts. by apply (get_set_parts doc).
Qed.

(** [field_exists] holds exactly of the paths [get_value] reads, so
    a present field whose value is null is found by both. *)
Theorem field_exists_iff_get doc key :
  field_exists doc key = is_some (get_value doc key).
Proof. rewrite get_value_parts. apply exists_loop_get. Qed.

(** [unset_value] always succeeds, and when every intermediate value
    on the path is a document the field no longer exists afterwards. *)
Theorem unset_removes doc key :
  doc_path (BDocument doc) (split_on "." key) ->
  exists doc', unset_value doc key = Ok doc' /\ field_exists doc' key = false.
Proof.
  intros Hp. destruct (unset_parts_ok doc (split_on "." key)) as [doc' H].
  exists doc'. split; [done|]. unfold field_exists. rewrite exists_loop_get.
  pose proof (get_unset_parts doc _ doc' (split_on_not_nil _ _) Hp H) as E.
  unfold get_parts in E. by rewrite E.
Qed.

(** Setting the path [pre.x.xs] does not change what is read at
    [pre.y.ys] for [y <> x], when the value at [pre] is a document. *)
Theorem set_value_frame doc pre x xs y ys v doc' :
  set_value doc (str_join "." (pre ++ x :: xs)) v = Ok doc' ->
  forallb (no_char ".") (pre ++ x :: xs) = true ->
  forallb (no_char ".") (pre ++ y :: ys) = true ->
  x <> y ->
  (exists sub, get_parts doc pre = Some (BDocument sub)) ->
  doc_path (BDocument doc) (pre ++ [x]) ->
  get_value doc' (str_join "." (pre ++ y :: ys)) = get_value doc (str_join "." (pre ++ y :: ys)).
Proof.
  intros H Hx Hy Hne Hsub Hp. unfold set_value in H. rewrite !get_value_parts.
  rewrite split_on_join in H by (done || by destruct pre).
  rewrite split_on_join by (done || by destruct pre).
  eapply set_parts_frame; eauto.
Qed.

End Paths.

(** ** Witnesses *)

Lemma set_then_get_witness :
  exists doc', set_value [("a", BInt32 1)] "b.c" BNull = Ok doc' /\
               get_value doc' "b.c" = Some BNull.
Proof. exact (set_then_get [("a", BInt32 1)] "b.c" BNull). Defined.

Lemma unset_removes_witness :
  exists doc', unset_value [("b", BDocument [("c", BInt32 1); ("d", BNull)])] "b.c" = Ok doc' /\
               field_exists doc' "b.c" = false.
Proof.
  apply (unset_removes [("b", BDocument [("c", BInt32 1); ("d", BNull)])] "b.c"). exact I.
Defined.

Lemma set_value_frame_witness :
  get_value [("b", BDocument [("c", BNull); ("d", BBoolean true)])] "b.d" =
  get_value [("b", BDocument [("c", BInt32 1); ("d", BBoolean true)])] "b.d".
Proof.
  apply (set_value_frame [("b", BDocument [("c", BInt32 1); ("d", BBoolean true)])]
           ["b"] "c" [] "d" [] BNull); try reflexivity.
  - discriminate.
  - by eexists.
Defined.
