(* ===== verification/Geo.v ===== *)
(** * Geospatial helpers

    [src/rust/smongo-engine/src/geo/shape.rs] and [s2_util.rs] on a target
    that is not [wasm32]: GeoJSON shapes, the point-in-polygon test, and the
    hexadecimal cell keys of the [2dsphere] index.  The [s2] crate is the class
    [S2], a parameter. *)

From Stdlib Require Import ZArith Lia Ascii String Strings.Byte.
From S2P Require Import Prelude F64 Bson RefBson.
From stdpp Require Import base tactics list strings.

Open Scope string_scope.
Open Scope list_scope.

(** ** The [s2] crate *)

(** [Point] on the unit sphere; [point_of_lonlat] is
    [Point::from(LatLng::from_degrees(lat, lon).normalized())] and
    [cell_of_lonlat] is [CellID::from(&LatLng::from_degrees(lat, lon).normalized()).0].
    [rect_add] adds [LatLng::from(p).normalized()] to a latitude-longitude
    rectangle; [rect_cover] expands it by a margin of 1e-4 degrees and covers it
    with the [RegionCoverer] of levels 0 to 30 and at most 512 cells. *)
Class S2 : Type := {
  s2_point : Type;
  point_of_lonlat : f64 -> f64 -> s2_point;
  cell_of_lonlat : f64 -> f64 -> Z;
  point_origin : s2_point;
  point_approx_eq : s2_point -> s2_point -> bool;
  distance_from_segment_rad : s2_point -> s2_point -> s2_point -> f64;
  simple_crossing : s2_point -> s2_point -> s2_point -> s2_point -> bool;
  s2_rect : Type;
  rect_empty : s2_rect;
  rect_add : s2_rect -> s2_point -> s2_rect;
  rect_is_empty : s2_rect -> bool;
  rect_cover : s2_rect -> list Z }.

Section Geo.
Context {B : BsonOps} {M : Libm} {G : S2}.

(** Source: geo/s2_util.rs:11-11 (EARTH_RADIUS_METERS). *)
Definition EARTH_RADIUS_METERS : f64 := f64_of_Z 6371000.

(** Source: geo/s2_util.rs:14-14 (DEFAULT_NEAR_MAX_DISTANCE_M). *)
Definition DEFAULT_NEAR_MAX_DISTANCE_M : f64 := f64_of_Z 20000000.

(** Source: geo/s2_util.rs:17-24 (haversine_meters). *)
Definition haversine_meters (lon1 lat1 lon2 lat2 : f64) : f64 :=
  let lat1_r := f64_to_radians lat1 in
  let lat2_r := f64_to_radians lat2 in
  let dlat := f64_to_radians (f64_sub lat2 lat1) in
  let dlon := f64_to_radians (f64_sub lon2 lon1) in
  let two := f64_of_Z 2 in
  let a := f64_add (f64_powi (f64_sin (f64_div dlat two)) 2)
             (f64_mul (f64_mul (f64_cos lat1_r) (f64_cos lat2_r))
                (f64_powi (f64_sin (f64_div dlon two)) 2)) in
  f64_mul (f64_mul EARTH_RADIUS_METERS two) (f64_asin (f64_sqrt a)).

(** Source: geo/s2_util.rs:27-30 (cell_key_for_point). *)
Definition cell_key_for_point (lon_deg lat_deg : f64) : Z := cell_of_lonlat lon_deg lat_deg.

(** [format!("{:X}")] of one hexadecimal digit. *)
Definition hex_digit (d : Z) : ascii :=
  ascii_of_N (Z.to_N (if (d <? 10)%Z then 48 + d else 55 + d)).

(** The [n] low hexadecimal digits of [z], most significant first. *)
Fixpoint hex_digits (n : nat) (z : Z) : string :=
  match n with
  | O => EmptyString
  | S n' => (hex_digits n' (z / 16) ++ String (hex_digit (z mod 16)) EmptyString)%string
  end.

(** Source: geo/s2_util.rs:33-35 (cell_key_prefix_u64). A [u64] never has more
    than the sixteen digits of the format's width. *)
Definition cell_key_prefix_u64 (cell : Z) : string := (hex_digits 16 cell ++ "|")%string.

(** [key.find('|')] and [&key[..pipe]]. *)
Fixpoint before_char (c : ascii) (s : string) : option string :=
  match s with
  | EmptyString => None
  | String a s' =>
      if Ascii.eqb a c then Some EmptyString
      else match before_char c s' with Some p => Some (String a p) | None => None end
  end.

Definition hex_value (a : ascii) : option Z :=
  let n := Z.of_N (N_of_ascii a) in
  if ((48 <=? n) && (n <=? 57))%Z then Some (n - 48)%Z
  else if ((65 <=? n) && (n <=? 70))%Z then Some (n - 55)%Z
  else if ((97 <=? n) && (n <=? 102))%Z then Some (n - 87)%Z
  else None.

Fixpoint hex_parse_loop (acc : Z) (s : string) : option Z :=
  match s with
  | EmptyString => Some acc
  | String a s' =>
      match hex_value a with
      | Some d =>
          let acc' := (16 * acc + d)%Z in
          if (acc' <=? u64_max)%Z then hex_parse_loop acc' s' else None
      | None => None
      end
  end.

(** [u64::from_str_radix(s, 16)]: an optional [+], then at least one digit. *)
Definition u64_from_str_radix_16 (s : string) : option Z :=
  match s with
  | EmptyString => None
  | String "+" EmptyString => None
  | String "+" s' => hex_parse_loop 0 s'
  | _ => hex_parse_loop 0 s
  end.

(** Source: geo/s2_util.rs:38-41 (index_key_cell_id). *)
Definition index_key_cell_id (key : string) : option Z :=
  and_then (before_char "|" key) u64_from_str_radix_16.

(** Source: geo/s2_util.rs:44-46 (index_cells_for_point). *)
Definition index_cells_for_point (lon_deg lat_deg : f64) : list Z :=
  [cell_key_for_point lon_deg lat_deg].

(** Source: geo/shape.rs:15-15 (BOUNDARY_ANGLE_RAD). *)
Definition BOUNDARY_ANGLE_RAD : f64 := f64_div (f64_of_Z 1) (f64_of_Z 10000000).

(** Source: geo/shape.rs:18-18 (POINT_MATCH_EPSILON_M). *)
Definition POINT_MATCH_EPSILON_M : f64 := f64_of_Z 1.

(** Source: geo/shape.rs:22-26 (GeoQueryShape). *)
Record GeoQueryShape : Type := {
  polygons : list (list (list s2_point));
  query_point : option (f64 * f64) }.

Definition lon_lat_in_range (lon lat : f64) : bool :=
  f64_leb (f64_of_Z (-180)) lon && f64_leb lon (f64_of_Z 180) &&
  (f64_leb (f64_of_Z (-90)) lat && f64_leb lat (f64_of_Z 90)).

Definition invalid_lon_lat (lon lat : f64) : error :=
  Msg ("invalid lon/lat: (" ++ f64_display lon ++ ", " ++ f64_display lat ++ ")")%string.

(** Source: geo/shape.rs:241-258 (parse_lon_lat_pair). *)
Definition parse_lon_lat_pair (coords : bson) : result (f64 * f64) error :=
  match coords with
  | BArray (c0 :: c1 :: _) =>
      let? lon := ok_or (as_f64 c0) (Msg "longitude must be numeric") in
      let? lat := ok_or (as_f64 c1) (Msg "latitude must be numeric") in
      if negb (lon_lat_in_range lon lat) then Err (invalid_lon_lat lon lat)
      else Ok (lon, lat)
  | BArray _ => Err (Msg "Point coordinates need [lon, lat]")
  | _ => Err (Msg "Point coordinates must be [longitude, latitude]")
  end.

(** Source: geo/shape.rs:217-233 (parse_linear_ring). One position of a ring. *)
Definition parse_ring_position (item : bson) : result s2_point error :=
  match item with
  | BArray (p0 :: p1 :: _) =>
      let? lon := ok_or (as_f64 p0) (Msg "longitude must be numeric") in
      let? lat := ok_or (as_f64 p1) (Msg "latitude must be numeric") in
      if negb (lon_lat_in_range lon lat) then Err (invalid_lon_lat lon lat)
      else Ok (point_of_lonlat lon lat)
  | _ => Err (Msg "ring position must be [longitude, latitude]")
  end.

(** Source: geo/shape.rs:208-239 (parse_linear_ring). *)
Definition parse_linear_ring (ring_any : bson) : result (list s2_point) error :=
  match ring_any with
  | BArray l =>
      if (length l <? 4)%nat
      then Err (Msg "each linear ring must have at least 4 positions (closed)")
      else
        let? pts := map_result parse_ring_position l in
        if negb (point_approx_eq (nth 0 pts point_origin)
                   (nth (length pts - 1) pts point_origin))
        then Err (Msg "linear ring must be closed (first position equals last)")
        else Ok pts
  | _ => Err (Msg "linear ring must be an array")
  end.

(** Source: geo/shape.rs:187-206 (parse_polygon_coordinates). *)
Definition parse_polygon_coordinates (coords : bson) : result (list (list s2_point)) error :=
  match coords with
  | BArray [] => Err (Msg "Polygon must have at least one linear ring")
  | BArray (exterior :: holes) =>
      let? ring := parse_linear_ring exterior in
      let? rings := map_result (fun ring_any =>
        let? r := parse_linear_ring ring_any in Ok (rev r)) holes in
      Ok (ring :: rings)
  | _ => Err (Msg "Polygon coordinates must be an array of rings")
  end.

(** Source: geo/shape.rs:72-78 (GeoQueryShape::from_point_coordinates). *)
Definition from_point_coordinates (coords : bson) : result GeoQueryShape error :=
  let? (lon, lat) := parse_lon_lat_pair coords in
  Ok {| polygons := []; query_point := Some (lon, lat) |}.

(** Source: geo/shape.rs:30-70 (GeoQueryShape::from_geometry_doc). *)
Definition from_geometry_doc (g : document) : result GeoQueryShape error :=
  let typ := match and_then (doc_get g "type") as_str with Some s => s | None => "" end in
  let? coords := ok_or (doc_get g "coordinates") (Msg "$geometry requires coordinates") in
  if typ =s? "Point" then from_point_coordinates coords
  else if typ =s? "Polygon" then
    let? poly := parse_polygon_coordinates coords in
    Ok {| polygons := [poly]; query_point := None |}
  else if typ =s? "MultiPolygon" then
    match coords with
    | BArray [] => Err (Msg "MultiPolygon coordinates must be non-empty")
    | BArray parts =>
        let? polys := map_result parse_polygon_coordinates parts in
        Ok {| polygons := polys; query_point := None |}
    | _ => Err (Msg "MultiPolygon coordinates must be an array")
    end
  else Err (Msg ("unsupported $geometry type for 2dsphere query: " ++ typ ++
                 " (expected Point, Polygon, or MultiPolygon)")%string).

(** The edges [(verts[i], verts[(i + 1) % m])] for [i] in [0..m]; the indices
    are in range because [m <= verts.len()]. *)
Definition ring_edges (verts : list s2_point) (m : nat) : list (s2_point * s2_point) :=
  map (fun i => (nth i verts point_origin, nth (Nat.modulo (i + 1) m) verts point_origin))
    (seq 0 m).

(** Source: geo/shape.rs:152-185 (ring_contains_ccw). *)
Definition ring_contains_ccw (verts : list s2_point) (p : s2_point) : bool :=
  if (length verts <? 3)%nat then false
  else
    let n := length verts in
    let m := if point_approx_eq (nth 0 verts point_origin) (nth (n - 1) verts point_origin)
             then (n - 1)%nat else n in
    if (m <? 3)%nat then false
    else
      let on_edge '(a, b) := f64_leb (distance_from_segment_rad p a b) BOUNDARY_ANGLE_RAD in
      if existsb on_edge (ring_edges verts m) then true
      else
        let ref_pt := point_origin in
        if point_approx_eq p ref_pt then false
        else fold_left (fun inside '(a, b) =>
               if simple_crossing p ref_pt a b then negb inside else inside)
               (ring_edges verts m) false.

(** Source: geo/shape.rs:137-150 (polygon_covers_point). *)
Definition polygon_covers_point (poly : list (list s2_point)) (p : s2_point) : bool :=
  match poly with
  | [] => false
  | exterior :: holes =>
      if negb (ring_contains_ccw exterior p) then false
      else if existsb (fun hole => ring_contains_ccw hole p) holes then false
      else true
  end.

(** Source: geo/shape.rs:123-130 (GeoQueryShape::contains_point_s2). *)
Definition contains_point_s2 (s : GeoQueryShape) (p : s2_point) : bool :=
  existsb (fun poly => polygon_covers_point poly p) (polygons s).

(** Source: geo/shape.rs:110-117 (GeoQueryShape::contains_point_lonlat). *)
Definition contains_point_lonlat (s : GeoQueryShape) (lon_deg lat_deg : f64) : bool :=
  match query_point s with
  | Some (qlon, qlat) =>
      f64_leb (haversine_meters qlon qlat lon_deg lat_deg) POINT_MATCH_EPSILON_M
  | None => contains_point_s2 s (point_of_lonlat lon_deg lat_deg)
  end.

(** Source: geo/shape.rs:119-121 (GeoQueryShape::intersects_point_lonlat). *)
Definition intersects_point_lonlat (s : GeoQueryShape) (lon_deg lat_deg : f64) : bool :=
  contains_point_lonlat s lon_deg lat_deg.

(** Source: geo/shape.rs:81-108 (GeoQueryShape::covering_cell_ids). *)
Definition covering_cell_ids (s : GeoQueryShape) : list Z :=
  match query_point s with
  | Some (lon, lat) => [cell_key_for_point lon lat]
  | None =>
      let rect := fold_left (fun rect poly =>
        fold_left (fun rect ring => fold_left rect_add ring rect) poly rect)
        (polygons s) rect_empty in
      if rect_is_empty rect then [] else rect_cover rect
  end.

(** Source: geo/shape.rs:261-280 (extract_lon_lat). *)
Definition extract_lon_lat (value : option bson) : option (f64 * f64) :=
  match value with
  | None => None
  | Some (BDocument dict) =>
      let typ := match and_then (doc_get dict "type") as_str with Some s => s | None => "" end in
      if negb (typ =s? "Point") then None
      else and_then (doc_get dict "coordinates") (fun coords =>
        match parse_lon_lat_pair coords with Ok p => Some p | Err _ => None end)
  | Some (BArray (l0 :: l1 :: _)) =>
      and_then (as_f64 l0) (fun lon => and_then (as_f64 l1) (fun lat => Some (lon, lat)))
  | Some _ => None
  end.

End Geo.

(** ** Cell keys: lemmas *)

(** The sixteen digits, by evaluation. *)
Lemma digit_cases (P : Z -> bool) d :
  forallb P (map Z.of_nat (seq 0 16)) = true -> (0 <= d < 16)%Z -> P d = true.
Proof.
  intros H Hd. rewrite forallb_forall in H. apply H, in_map_iff.
  exists (Z.to_nat d). split; [lia|]. apply in_seq. lia.
Qed.

Lemma hex_value_digit d : (0 <= d < 16)%Z -> hex_value (hex_digit d) = Some d.
Proof.
  intros Hd.
  assert (H : match hex_value (hex_digit d) with Some e => Z.eqb d e | None => false end = true).
  { by apply (digit_cases (fun d =>
      match hex_value (hex_digit d) with Some e => Z.eqb d e | None => false end)). }
  destruct (hex_value (hex_digit d)); [|done]. apply Z.eqb_eq in H. by subst.
Qed.

Lemma hex_digit_plain d :
  (0 <= d < 16)%Z -> Ascii.eqb (hex_digit d) "|" = false /\ Ascii.eqb (hex_digit d) "+" = false.
Proof.
  intros Hd. split; apply negb_true_iff.
  - by apply (digit_cases (fun d => negb (Ascii.eqb (hex_digit d) "|"))).
  - by apply (digit_cases (fun d => negb (Ascii.eqb (hex_digit d) "+"))).
Qed.

Lemma hex_digit_cmp d e : (0 <= d < 16)%Z -> (0 <= e < 16)%Z ->
  byte_cmp (byte_of_ascii (hex_digit d)) (byte_of_ascii (hex_digit e)) = (d ?= e)%Z.
Proof.
  intros Hd He.
  assert (H : cmp_eqb (byte_cmp (byte_of_ascii (hex_digit d)) (byte_of_ascii (hex_digit e)))
                (d ?= e)%Z = true).
  { apply (digit_cases (fun e => cmp_eqb (byte_cmp (byte_of_ascii (hex_digit d))
             (byte_of_ascii (hex_digit e))) (d ?= e)%Z)); [|done].
    by apply (digit_cases (fun d => forallb (fun e => cmp_eqb (byte_cmp
      (byte_of_ascii (hex_digit d)) (byte_of_ascii (hex_digit e))) (d ?= e)%Z)
      (map Z.of_nat (seq 0 16)))). }
  by destruct (byte_cmp _ _), (d ?= e)%Z.
Qed.

Lemma pow16_S n : (16 ^ Z.of_nat (S n) = 16 * 16 ^ Z.of_nat n)%Z.
Proof. rewrite Nat2Z.inj_succ, Z.pow_succ_r; lia. Qed.

Lemma pow16_pos n : (0 < 16 ^ Z.of_nat n)%Z.
Proof. apply Z.pow_pos_nonneg; lia. Qed.

(** The most significant digit comes first. *)
Lemma hex_digits_S n z :
  hex_digits (S n) z = String (hex_digit (z / 16 ^ Z.of_nat n mod 16)) (hex_digits n z).
Proof.
  revert z. induction n as [|n IH]; intros z.
  - simpl. by rewrite Z.div_1_r.
  - change (hex_digits (S (S n)) z)
      with (hex_digits (S n) (z / 16) ++ String (hex_digit (z mod 16)) EmptyString)%string.
    rewrite IH, Z.div_div by (try lia; apply pow16_pos). rewrite <- pow16_S. done.
Qed.

(** Only the [n] low digits matter. *)
Lemma hex_digits_mod n z : hex_digits n z = hex_digits n (z mod 16 ^ Z.of_nat n).
Proof.
  revert z. induction n as [|n IH]; intros z; [done|].
  rewrite !hex_digits_S, (IH z), (IH (z mod 16 ^ Z.of_nat (S n))%Z), pow16_S.
  pose proof (pow16_pos n). set (p := (16 ^ Z.of_nat n)%Z) in *.
  rewrite (Z.mul_comm 16 p), Z.rem_mul_r by lia.
  rewrite (Z.mul_comm p (_ mod 16)), Z.div_add, (Z.div_small (z mod p)) by
    (try lia; apply Z.mod_pos_bound; lia).
  by rewrite Z.add_0_l, Z_mod_plus_full, !Zmod_mod.
Qed.

Lemma hex_parse_digits n z acc :
  (0 <= z < 16 ^ Z.of_nat n)%Z -> (0 <= acc)%Z -> (acc * 16 ^ Z.of_nat n + z <= u64_max)%Z ->
  hex_parse_loop acc (hex_digits n z) = Some (acc * 16 ^ Z.of_nat n + z)%Z.
Proof.
  revert z acc. induction n as [|n IH]; intros z acc Hz Ha Hm.
  - simpl in *. f_equal. lia.
  - rewrite hex_digits_S. cbn [hex_parse_loop]. rewrite pow16_S in *.
    pose proof (pow16_pos n) as Hp. set (p := (16 ^ Z.of_nat n)%Z) in *.
    assert (Hd : (0 <= z / p < 16)%Z).
    { split; [apply Z.div_pos; lia|apply Z.div_lt_upper_bound; lia]. }
    rewrite (Z.mod_small (z / p)), hex_value_digit by done.
    pose proof (Z_div_mod_eq_full z p) as Hdm. pose proof (Z.mod_pos_bound z p Hp).
    rewrite (proj2 (Z.leb_le _ _)) by nia.
    rewrite hex_digits_mod. fold p. rewrite IH; fold p; [f_equal; lia|lia|lia|nia].
Qed.

Lemma before_char_hex n z id :
  before_char "|" (hex_digits n z ++ String "|" id) = Some (hex_digits n z).
Proof.
  induction n as [|n IH]; [done|]. rewrite hex_digits_S, str_app_cons. cbn [before_char].
  destruct (hex_digit_plain (z / 16 ^ Z.of_nat n mod 16)) as [-> _];
    [apply Z.mod_pos_bound; lia|]. by rewrite IH.
Qed.

Lemma radix_16_digits n z :
  (0 <= z < 16 ^ Z.of_nat (S n))%Z -> (z <= u64_max)%Z ->
  u64_from_str_radix_16 (hex_digits (S n) z) = Some z.
Proof.
  intros Hz Hm.
  assert (E : u64_from_str_radix_16 (hex_digits (S n) z) = hex_parse_loop 0 (hex_digits (S n) z)).
  { rewrite hex_digits_S. unfold u64_from_str_radix_16.
    destruct (hex_digit_plain (z / 16 ^ Z.of_nat n mod 16)) as [_ H];
      [apply Z.mod_pos_bound; lia|].
    by destruct (hex_digit _) as [[] [] [] [] [] [] [] []]. }
  rewrite E, hex_parse_digits by lia. done.
Qed.

Lemma str_cmp_String a s b t :
  str_cmp (String a s) (String b t) =
  cmp_then (byte_cmp (byte_of_ascii a) (byte_of_ascii b)) (str_cmp s t).
Proof. done. Qed.

Lemma hex_digits_order n a b s t :
  (0 <= a < 16 ^ Z.of_nat n)%Z -> (0 <= b < 16 ^ Z.of_nat n)%Z ->
  str_cmp (hex_digits n a ++ s) (hex_digits n b ++ t) = cmp_then (a ?= b)%Z (str_cmp s t).
Proof.
  revert a b. induction n as [|n IH]; intros a b Ha Hb.
  - simpl in *. by replace a with b by lia; rewrite Z.compare_refl.
  - rewrite !hex_digits_S, !str_app_cons, str_cmp_String. rewrite pow16_S in *.
    pose proof (pow16_pos n) as Hp. set (p := (16 ^ Z.of_nat n)%Z) in *.
    assert (Hd : forall z, (0 <= z < 16 * p)%Z -> (0 <= z / p < 16)%Z).
    { intros z Hz. split; [apply Z.div_pos; lia|apply Z.div_lt_upper_bound; lia]. }
    rewrite !(Z.mod_small (_ / p)), hex_digit_cmp by auto.
    rewrite (hex_digits_mod n a), (hex_digits_mod n b). fold p.
    rewrite IH by (apply Z.mod_pos_bound; lia).
    pose proof (Z_div_mod_eq_full a p). pose proof (Z.mod_pos_bound a p Hp).
    pose proof (Z_div_mod_eq_full b p). pose proof (Z.mod_pos_bound b p Hp).
    destruct (Z.compare_spec (a / p) (b / p)), (Z.compare_spec a b),
      (Z.compare_spec (a mod p) (b mod p)); simpl; try done; exfalso; nia.
Qed.

(** ** Properties *)

(** The cell id of an index key is read back from the key: the
    sixteen-digit prefix written by [cell_key_prefix_u64], followed by any
    document id, parses to the cell it was made from. *)
Theorem cell_key_roundtrip cell id :
  (0 <= cell <= u64_max)%Z ->
  index_key_cell_id (cell_key_prefix_u64 cell ++ id) = Some cell.
Proof.
  intros H. unfold index_key_cell_id, cell_key_prefix_u64.
  rewrite <- str_app_assoc. change ("|" ++ id)%string with (String "|" id). rewrite before_char_hex. cbn [and_then].
  apply radix_16_digits; [|lia]. unfold u64_max in H. change (16 ^ Z.of_nat 16)%Z with (2 ^ 64)%Z. lia.
Qed.

Lemma cell_key_roundtrip_witness :
  index_key_cell_id (cell_key_prefix_u64 3735928559 ++ "64b0f1") = Some 3735928559%Z.
Proof. apply (cell_key_roundtrip 3735928559 "64b0f1"). vm_compute. split; discriminate. Defined.

(** Lexicographic order of cell keys is the numeric order of the
    cells, whatever document ids follow, so a range of cells is a range of
    keys. *)
Theorem cell_key_order a b ida idb :
  (0 <= a <= u64_max)%Z -> (0 <= b <= u64_max)%Z -> a <> b ->
  str_cmp (cell_key_prefix_u64 a ++ ida) (cell_key_prefix_u64 b ++ idb) = (a ?= b)%Z.
Proof.
  intros Ha Hb Hne. unfold cell_key_prefix_u64. rewrite <- !str_app_assoc.
  rewrite hex_digits_order by (unfold u64_max in *; change (16 ^ Z.of_nat 16)%Z with (2 ^ 64)%Z; lia).
  destruct (Z.compare_spec a b); done.
Qed.

Lemma cell_key_order_witness :
  str_cmp (cell_key_prefix_u64 255 ++ "z") (cell_key_prefix_u64 256 ++ "a") = Lt.
Proof.
  apply (cell_key_order 255 256 "z" "a"); [| |lia]; vm_compute; split; discriminate.
Defined.
