(* ===== verification/Query.v ===== *)
(** * Query predicates

    [src/rust/smongo-engine/src/query/mod.rs]: the BSON comparison and the
    evaluation of a query document against a document.  The [regex] crate and
    the Unicode tables of [str::to_lowercase] and [str::split_whitespace] are
    the class [TextEnv]; the aggregation expression evaluator, used by [$expr],
    is the interface [ExprEngine]. *)

From Stdlib Require Import ZArith Lia Ascii String Strings.Byte.
From S2P Require Import Prelude F64 Bson RefBson Paths Geo.
From stdpp Require Import base tactics list strings.

Open Scope string_scope.
Open Scope list_scope.

(** ** Parameters *)

(** [regex::Regex::new] (with the [Display] of its error), [is_match], and the
    Unicode functions on strings. *)
Class TextEnv : Type := {
  regex : Type;
  regex_new : string -> result regex string;
  is_match : regex -> string -> bool;
  to_lowercase : string -> string;
  split_whitespace : string -> list string }.

(** [aggregation::expressions::evaluate_expression], with its error as text. *)
Class ExprEngine : Type := {
  evaluate_expression : document -> bson -> result bson error }.

(** ** Comparison of values *)

(** Source: query/mod.rs:350-368 (bson_type_order). *)
Definition bson_type_order (b : bson) : Z :=
  match b with
  | BNull | BUndefined => 0
  | BInt32 _ | BInt64 _ | BDouble _ | BDecimal128 _ => 1
  | BString _ | BSymbol _ => 2
  | BDocument _ => 3
  | BArray _ => 4
  | BBinary _ _ => 5
  | BObjectId _ => 6
  | BBoolean _ => 7
  | BDateTime _ => 8
  | BTimestamp _ _ => 9
  | BRegularExpression _ _ => 10
  | BJavaScriptCode _ | BJavaScriptCodeWithScope _ _ => 11
  | BDbPointer _ _ => 12
  | BMaxKey => 127
  | BMinKey => -128
  end.

(** The loop over [a.iter().zip(b.iter())], then the comparison of lengths. *)
Definition zip_cmp {A} (cmp : A -> A -> comparison) : list A -> list A -> comparison :=
  fix go a b :=
    match a, b with
    | x :: a', y :: b' => match cmp x y with Eq => go a' b' | c => c end
    | _, _ => Nat.compare (length a) (length b)
    end.

(** Source: query/mod.rs:371-408 (bson_cmp). *)
Fixpoint bson_cmp (a b : bson) {struct a} : comparison :=
  match Z.compare (bson_type_order a) (bson_type_order b) with
  | Eq =>
      match a, b with
      | BNull, BNull => Eq
      | BInt32 a, BInt32 b => Z.compare a b
      | BInt64 a, BInt64 b => Z.compare a b
      | BDouble a, BDouble b => f64_cmp_or_eq a b
      | BInt32 a, BInt64 b => Z.compare a b
      | BInt64 a, BInt32 b => Z.compare a b
      | BInt32 a, BDouble b => f64_cmp_or_eq (f64_of_Z a) b
      | BDouble a, BInt32 b => f64_cmp_or_eq a (f64_of_Z b)
      | BInt64 a, BDouble b => f64_cmp_or_eq (f64_of_Z a) b
      | BDouble a, BInt64 b => f64_cmp_or_eq a (f64_of_Z b)
      | BString a, BString b => str_cmp a b
      | BBoolean a, BBoolean b => bool_cmp a b
      | BDateTime a, BDateTime b => Z.compare a b
      | BObjectId a, BObjectId b => bytes_cmp a b
      | BArray a, BArray b => zip_cmp bson_cmp a b
      | _, _ => Eq
      end
  | type_order => type_order
  end.

(** Source: query/mod.rs:410-416 (bson_eq). *)
Definition bson_eq (a b : option bson) : bool :=
  match a, b with
  | Some a, Some b => cmp_eqb (bson_cmp a b) Eq
  | None, None => true
  | _, _ => false
  end.

(** Source: query/mod.rs:418-423 (bson_gt). *)
Definition bson_gt (a : option bson) (b : bson) : bool :=
  match a with Some a => cmp_eqb (bson_cmp a b) Gt | None => false end.

(** Source: query/mod.rs:425-433 (bson_gte). *)
Definition bson_gte (a : option bson) (b : bson) : bool :=
  match a with
  | Some a => let cmp := bson_cmp a b in cmp_eqb cmp Gt || cmp_eqb cmp Eq
  | None => false
  end.

(** Source: query/mod.rs:435-440 (bson_lt). *)
Definition bson_lt (a : option bson) (b : bson) : bool :=
  match a with Some a => cmp_eqb (bson_cmp a b) Lt | None => false end.

(** Source: query/mod.rs:442-450 (bson_lte). *)
Definition bson_lte (a : option bson) (b : bson) : bool :=
  match a with
  | Some a => let cmp := bson_cmp a b in cmp_eqb cmp Lt || cmp_eqb cmp Eq
  | None => false
  end.

(** Source: query/mod.rs:341-346 (as_array). *)
Definition as_array (b : bson) : result (list bson) error :=
  match b with BArray arr => Ok arr | _ => Err (Msg "Expected array") end.

Section Query.
Context {B : BsonOps} {M : Libm} {G : S2} {T : TextEnv} {X : ExprEngine}.

(** ** Leaf operators *)

(** Source: query/mod.rs:26-28 (canonical_bson_key). *)
Definition canonical_bson_key (val : bson) : bytes :=
  match doc_to_vec (doc_insert [] "" val) with Ok b => b | Err _ => [] end.

(** Source: query/mod.rs:454-473 (eval_in). *)
Definition eval_in (value : option bson) (cond_val : bson) : result bool error :=
  let? arr := as_array cond_val in
  let sorted := sort_by bson_cmp arr in
  let contains val := is_ok (binary_search_by (fun probe => bson_cmp probe val) sorted) in
  match value with
  | Some (BArray val_arr) => Ok (existsb contains val_arr)
  | Some val => Ok (contains val)
  | None => Ok false
  end.

(** Source: query/mod.rs:475-477 (eval_nin). *)
Definition eval_nin (value : option bson) (cond_val : bson) : result bool error :=
  let? b := eval_in value cond_val in Ok (negb b).

(** Source: query/mod.rs:479-486 (eval_exists). *)
Definition eval_exists (doc : document) (key : string) (cond_val : bson) : result bool error :=
  let present := field_exists doc key in
  let want := match cond_val with BBoolean b => b | _ => true end in
  Ok (if want then present else negb present).

(** Source: query/mod.rs:509-526 (bson_type_number_to_name). *)
Definition bson_type_number_to_name (n : Z) : option string :=
  match n with
  | 1 => Some "double"
  | 2 => Some "string"
  | 3 => Some "object"
  | 4 => Some "array"
  | 5 => Some "binData"
  | 7 => Some "objectId"
  | 8 => Some "bool"
  | 9 => Some "date"
  | 10 => Some "null"
  | 11 => Some "regex"
  | 16 => Some "int"
  | 18 => Some "long"
  | 19 => Some "decimal"
  | _ => None
  end%Z.

(** Source: query/mod.rs:528-549 (bson_type_matches). *)
Definition bson_type_matches (value : bson) (type_name : string) : bool :=
  match value with
  | BDouble _ => (type_name =s? "double") || (type_name =s? "number")
  | BString _ => type_name =s? "string"
  | BDocument _ => type_name =s? "object"
  | BArray _ => type_name =s? "array"
  | BBinary _ _ => type_name =s? "binData"
  | BObjectId _ => type_name =s? "objectId"
  | BBoolean _ => type_name =s? "bool"
  | BDateTime _ => type_name =s? "date"
  | BNull => type_name =s? "null"
  | BRegularExpression _ _ => type_name =s? "regex"
  | BInt32 _ => (type_name =s? "int") || (type_name =s? "number")
  | BInt64 _ => (type_name =s? "long") || (type_name =s? "number")
  | BDecimal128 _ => (type_name =s? "decimal") || (type_name =s? "number")
  | _ => false
  end.

(** Source: query/mod.rs:488-507 (eval_type). *)
Definition eval_type (value : option bson) (cond_val : bson) : result bool error :=
  match value with
  | None => Ok false
  | Some value =>
      let type_name :=
        match cond_val with
        | BInt32 n => bson_type_number_to_name n
        | BInt64 n => bson_type_number_to_name (wrap_i32 n)
        | BString s => Some s
        | _ => None
        end in
      match type_name with
      | None => Ok false
      | Some type_name => Ok (bson_type_matches value type_name)
      end
  end.

Definition invalid_regex (pattern e : string) : error :=
  Msg ("invalid regex pattern '" ++ pattern ++ "': " ++ e)%string.

(** The string and the pattern that [eval_regex] works on, or its early result. *)
Definition regex_args (value : option bson) (cond_val : bson)
  : result (option (string * string)) error :=
  match value with
  | Some (BString value_str) =>
      match cond_val with
      | BString s => Ok (Some (value_str, s))
      | BRegularExpression pattern _ => Ok (Some (value_str, pattern))
      | _ => Err (Msg "$regex requires string pattern")
      end
  | _ => Ok None
  end.

(** Source: query/mod.rs:551-585 (eval_regex). The result of a call, which
    compiles the pattern each time; [eval_regex_cached] below is the call with
    the thread-local cache, and [eval_regex_cache_transparent] relates them. *)
Definition eval_regex (value : option bson) (cond_val : bson) : result bool error :=
  let? args := regex_args value cond_val in
  match args with
  | None => Ok false
  | Some (value_str, pattern) =>
      let? re := map_err (invalid_regex pattern) (regex_new pattern) in
      Ok (is_match re value_str)
  end.

(** Source: query/mod.rs:551-585 (eval_regex). With [CACHE], a map from
    patterns to compiled expressions (an association list, the newest first). *)
Definition eval_regex_cached (cache : list (string * regex)) (value : option bson) (cond_val : bson)
  : list (string * regex) * result bool error :=
  match regex_args value cond_val with
  | Err e => (cache, Err e)
  | Ok None => (cache, Ok false)
  | Ok (Some (value_str, pattern)) =>
      match find (fun kv => fst kv =s? pattern) cache with
      | Some (_, re) => (cache, Ok (is_match re value_str))
      | None =>
          match map_err (invalid_regex pattern) (regex_new pattern) with
          | Err e => (cache, Err e)
          | Ok compiled => ((pattern, compiled) :: cache, Ok (is_match compiled value_str))
          end
      end
  end.

Definition bytes_eqb (a b : bytes) : bool := cmp_eqb (bytes_cmp a b) Eq.

(** Source: query/mod.rs:607-627 (eval_all). *)
Definition eval_all (value : option bson) (cond_val : bson) : result bool error :=
  match value with
  | Some (BArray val_arr) =>
      let? cond_arr := as_array cond_val in
      let val_keys := map canonical_bson_key val_arr in
      Ok (forallb (fun cond_item => existsb (bytes_eqb (canonical_bson_key cond_item)) val_keys)
            cond_arr)
  | _ => Ok false
  end.

(** Source: query/mod.rs:652-665 (eval_size). *)
Definition eval_size (value : option bson) (cond_val : bson) : result bool error :=
  match value with
  | Some (BArray val_arr) =>
      match cond_val with
      | BInt32 n | BInt64 n => Ok (Z.eqb (Z.of_nat (length val_arr)) (wrap_u64 n))
      | _ => Err (Msg "$size requires number")
      end
  | _ => Ok false
  end.

(** [n as i64] of a numeric value. *)
Definition number_as_i64 (b : bson) : option Z :=
  match b with
  | BInt32 n | BInt64 n => Some n
  | BDouble n => Some (f64_as_i64 n)
  | _ => None
  end.

(** Rust's [%] on [i64]: [i64::MIN % -1] overflows and panics in every build. *)
Definition i64_rem (a b : Z) : result Z error :=
  if ((a =? i64_min) && (b =? -1))%Z
  then Err (Panic "attempt to calculate the remainder with overflow")
  else Ok (Z.rem a b).

(** Source: query/mod.rs:667-699 (eval_mod). *)
Definition eval_mod (value : option bson) (cond_val : bson) : result bool error :=
  match cond_val with
  | BArray [a0; a1] =>
      let? divisor := ok_or (number_as_i64 a0) (Msg "$mod divisor must be numeric") in
      if (divisor =? 0)%Z then Err (Msg "$mod divisor cannot be zero")
      else
        let? remainder := ok_or (number_as_i64 a1) (Msg "$mod remainder must be numeric") in
        match and_then value number_as_i64 with
        | None => Ok false
        | Some field_val => let? r := i64_rem field_val divisor in Ok (Z.eqb r remainder)
        end
  | _ => Err (Msg "$mod requires a 2-element array [divisor, remainder]")
  end.

(** Source: query/mod.rs:701-706 (BitsMode). *)
Inductive BitsMode := AllSet | AnySet | AllClear | AnyClear.

(** Source: query/mod.rs:723-731 (eval_bits). One bit position of the mask. *)
Definition bits_position (m : Z) (pos : bson) : result Z error :=
  match pos with
  | BInt32 p | BInt64 p =>
      if ((0 <=? p) && (p <=? 63))%Z then Ok (Z.lor m (wrap_i64 (Z.shiftl 1 p)))
      else Err (Msg ("$bits position out of range: " ++ Z_to_string p)%string)
  | _ => Err (Msg "$bits position must be a non-negative integer")
  end.

(** Source: query/mod.rs:708-744 (eval_bits). *)
Definition eval_bits (value : option bson) (cond_val : bson) (mode : BitsMode)
  : result bool error :=
  match and_then value number_as_i64 with
  | None => Ok false
  | Some field_val =>
      let? mask :=
        match cond_val with
        | BInt32 m | BInt64 m => Ok m
        | BDouble m => Ok (f64_as_i64 m)
        | BArray positions => fold_result bits_position 0%Z positions
        | _ => Err (Msg "$bits requires a numeric bitmask or array of bit positions")
        end in
      Ok (match mode with
          | AllSet => Z.eqb (Z.land field_val mask) mask
          | AnySet => negb (Z.eqb (Z.land field_val mask) 0)
          | AllClear => Z.eqb (Z.land field_val mask) 0
          | AnyClear => negb (Z.eqb (Z.land field_val mask) mask)
          end)
  end.

(** Source: aggregation/expressions.rs:124-134 (is_truthy). *)
Definition is_truthy (val : bson) : bool :=
  match val with
  | BNull => false
  | BBoolean b => b
  | BInt32 n | BInt64 n => negb (Z.eqb n 0)
  | BDouble n => negb (f64_eqb n f64_zero)
  | BString s => negb (s =s? "")
  | _ => true
  end.

(** Source: query/mod.rs:747-750 (eval_expr). *)
Definition eval_expr (doc : document) (condition : bson) : result bool error :=
  let? r := evaluate_expression doc condition in Ok (is_truthy r).

(** Source: query/mod.rs:791-806 (collect_strings). *)
Fixpoint collect_strings (val : bson) (out : list string) {struct val} : list string :=
  match val with
  | BString s => out ++ [s]
  | BDocument d => fold_left (fun out kv => collect_strings (snd kv) out) d out
  | BArray arr => fold_left (fun out v => collect_strings v out) arr out
  | _ => out
  end.

(** Source: query/mod.rs:783-789 (extract_all_strings). *)
Definition extract_all_strings (doc : document) : string :=
  let buf := fold_left (fun buf kv => collect_strings (snd kv) buf) doc [] in
  to_lowercase (str_join " " buf).

(** Source: query/mod.rs:756-779 (eval_text). *)
Definition eval_text (doc : document) (condition : bson) : result bool error :=
  let? search_str :=
    match condition with
    | BDocument d =>
        match doc_get d "$search" with
        | Some (BString s) => Ok s
        | Some _ => Err (Msg "$text.$search must be a string")
        | None => Err (Msg "$text requires $search")
        end
    | BString s => Ok s
    | _ => Err (Msg "$text requires a document with $search")
    end in
  let tokens := split_whitespace (to_lowercase search_str) in
  match tokens with
  | [] => Ok true
  | _ => let all_text := extract_all_strings doc in
         Ok (forallb (fun t => str_contains t all_text) tokens)
  end.

(** ** Geospatial operators *)

(** Source: query/mod.rs:205-212 (as_f64_bson). *)
Definition as_f64_bson (b : bson) : option f64 :=
  match b with
  | BDouble d => Some d
  | BInt32 i | BInt64 i => Some (f64_of_Z i)
  | _ => None
  end.

(** Source: query/mod.rs:268-278 (parse_point_coords_near). *)
Definition parse_point_coords_near (coords : bson) : result (f64 * f64) error :=
  match coords with
  | BArray (c0 :: c1 :: _) =>
      let? lon := ok_or (as_f64_bson c0) (Msg "lon must be numeric") in
      let? lat := ok_or (as_f64_bson c1) (Msg "lat must be numeric") in
      Ok (lon, lat)
  | BArray _ => Err (Msg "Point coordinates need [lon, lat]")
  | _ => Err (Msg "Point coordinates must be array")
  end.

(** Source: query/mod.rs:222-248 (eval_near_family). The centre and the two
    distances. *)
Definition near_target (nv : bson) (outer_max outer_min : option f64)
  : result (f64 * f64 * option f64 * option f64) error :=
  match nv with
  | BArray (a0 :: a1 :: _) =>
      let? lon := ok_or (as_f64_bson a0) (Msg "longitude must be numeric") in
      let? lat := ok_or (as_f64_bson a1) (Msg "latitude must be numeric") in
      Ok (lon, lat, outer_max, outer_min)
  | BArray _ => Err (Msg "legacy $near array must be [longitude, latitude]")
  | BDocument spec =>
      let max_d := opt_or (and_then (doc_get spec "$maxDistance") as_f64_bson) outer_max in
      let min_d := opt_or (and_then (doc_get spec "$minDistance") as_f64_bson) outer_min in
      let? geom := ok_or (and_then (doc_get spec "$geometry") as_document)
                     (Msg "$near requires $geometry") in
      let? type := doc_get_as as_str geom "type" in
      if negb (type =s? "Point") then Err (Msg "only GeoJSON Point is supported for $near")
      else
        let? coords := ok_or (doc_get geom "coordinates")
                         (Msg "$geometry requires coordinates") in
        let? (lon, lat) := parse_point_coords_near coords in
        Ok (lon, lat, max_d, min_d)
  | _ => Err (Msg "$near must be array or document")
  end.

(** Source: query/mod.rs:214-266 (eval_near_family). *)
Definition eval_near_family (value : option bson) (cond_doc : document) : result bool error :=
  let outer_max := and_then (doc_get cond_doc "$maxDistance") as_f64_bson in
  let outer_min := and_then (doc_get cond_doc "$minDistance") as_f64_bson in
  let? nv := ok_or (opt_or (doc_get cond_doc "$near") (doc_get cond_doc "$nearSphere"))
               (Msg "$near requires $geometry or legacy [lon, lat]") in
  let? (clon, clat, max_m, min_m) := near_target nv outer_max outer_min in
  let max_m := opt_or max_m (Some DEFAULT_NEAR_MAX_DISTANCE_M) in
  match extract_lon_lat value with
  | None => Ok false
  | Some (dlon, dlat) =>
      let dist := haversine_meters clon clat dlon dlat in
      if match max_m with Some m => f64_ltb m dist | None => false end then Ok false
      else if match min_m with Some m => f64_ltb dist m | None => false end then Ok false
      else Ok true
  end.

(** Source: query/mod.rs:286-311 (eval_geo_within). The [$centerSphere] form. *)
Definition eval_center_sphere (value : option bson) (cs : bson) : result bool error :=
  match cs with
  | BArray (a0 :: a1 :: _) =>
      match a0 with
      | BArray (c0 :: c1 :: _) =>
          let? clon := ok_or (as_f64_bson c0) (Msg "longitude must be numeric") in
          let? clat := ok_or (as_f64_bson c1) (Msg "latitude must be numeric") in
          let? rrad := ok_or (as_f64_bson a1) (Msg "radius must be numeric") in
          if f64_ltb rrad f64_zero then Err (Msg "$centerSphere radius must be >= 0")
          else
            let max_m := f64_mul rrad EARTH_RADIUS_METERS in
            match extract_lon_lat value with
            | None => Ok false
            | Some (dlon, dlat) => Ok (f64_leb (haversine_meters clon clat dlon dlat) max_m)
            end
      | _ => Err (Msg "$centerSphere center must be [lon, lat]")
      end
  | BArray _ => Err (Msg "$centerSphere must be [ [lon, lat], radiusRadians ]")
  | _ => Err (Msg "$centerSphere must be array")
  end.

(** Source: query/mod.rs:280-322 (eval_geo_within). *)
Definition eval_geo_within (value : option bson) (cond_doc : document) : result bool error :=
  let? inner := ok_or (and_then (doc_get cond_doc "$geoWithin") as_document)
                  (Msg "$geoWithin requires object") in
  match doc_get inner "$centerSphere" with
  | Some cs => eval_center_sphere value cs
  | None =>
      let? g := ok_or (and_then (doc_get inner "$geometry") as_document)
                  (Msg "$geoWithin requires $centerSphere or $geometry") in
      let? shape := from_geometry_doc g in
      match extract_lon_lat value with
      | None => Ok false
      | Some (dlon, dlat) => Ok (contains_point_lonlat shape dlon dlat)
      end
  end.

(** Source: query/mod.rs:324-338 (eval_geo_intersects). *)
Definition eval_geo_intersects (value : option bson) (cond_doc : document) : result bool error :=
  let? inner := ok_or (and_then (doc_get cond_doc "$geoIntersects") as_document)
                  (Msg "$geoIntersects requires object") in
  let? g := ok_or (and_then (doc_get inner "$geometry") as_document)
              (Msg "$geoIntersects requires $geometry") in
  let? shape := from_geometry_doc g in
  match extract_lon_lat value with
  | None => Ok false
  | Some (dlon, dlat) => Ok (intersects_point_lonlat shape dlon dlat)
  end.

(** ** The evaluator

    [eval_query], the logical operators, [$not] and [$elemMatch] call each
    other.  The callers are written over the function they call; the fixpoint
    below closes the loop by structural recursion on the condition. *)

(** Source: query/mod.rs:89-103 (eval_or). *)
Definition eval_or (eval_query : document -> document -> result bool error)
  (doc : document) (condition : bson) : result bool error :=
  match condition with
  | BArray queries =>
      any_result (fun query_bson =>
        match query_bson with
        | BDocument sub_query => eval_query doc sub_query
        | _ => Err (Msg "$or requires array of objects")
        end) queries
  | _ => Err (Msg "Expected array")
  end.

(** Source: query/mod.rs:106-120 (eval_and). *)
Definition eval_and (eval_query : document -> document -> result bool error)
  (doc : document) (condition : bson) : result bool error :=
  match condition with
  | BArray queries =>
      all_result (fun query_bson =>
        match query_bson with
        | BDocument sub_query => eval_query doc sub_query
        | _ => Err (Msg "$and requires array of objects")
        end) queries
  | _ => Err (Msg "Expected array")
  end.

(** Source: query/mod.rs:123-137 (eval_nor). *)
Definition eval_nor (eval_query : document -> document -> result bool error)
  (doc : document) (condition : bson) : result bool error :=
  match condition with
  | BArray queries =>
      all_result (fun query_bson =>
        match query_bson with
        | BDocument sub_query => let? b := eval_query doc sub_query in Ok (negb b)
        | _ => Err (Msg "$nor requires array of objects")
        end) queries
  | _ => Err (Msg "Expected array")
  end.

(** Source: query/mod.rs:140-168 (eval_field_condition). *)
Definition eval_field_condition
  (eval_operator : document -> string -> option bson -> string -> bson -> result bool error)
  (doc : document) (key : string) (condition : bson) : result bool error :=
  let value := get_value doc key in
  match condition with
  | BDocument cond_doc =>
      if doc_contains cond_doc "$near" || doc_contains cond_doc "$nearSphere"
      then eval_near_family value cond_doc
      else if doc_contains cond_doc "$geoWithin" then eval_geo_within value cond_doc
      else if doc_contains cond_doc "$geoIntersects" then eval_geo_intersects value cond_doc
      else all_result (fun '(op, cond_val) => eval_operator doc key value op cond_val) cond_doc
  | _ => Ok (bson_eq value (Some condition))
  end.

(** Source: query/mod.rs:587-605 (eval_not). *)
Definition eval_not
  (eval_operator : document -> string -> option bson -> string -> bson -> result bool error)
  (doc : document) (key : string) (value : option bson) (cond_val : bson) : result bool error :=
  match cond_val with
  | BDocument cond_doc =>
      all_result (fun '(op, op_val) =>
        let? b := eval_operator doc key value op op_val in Ok (negb b)) cond_doc
  | _ => Ok false
  end.

(** Source: query/mod.rs:629-650 (eval_elem_match). *)
Definition eval_elem_match (eval_query : document -> document -> result bool error)
  (value : option bson) (cond_val : bson) : result bool error :=
  match value with
  | Some (BArray val_arr) =>
      match cond_val with
      | BDocument query =>
          any_result (fun item =>
            match item with
            | BDocument item_doc => eval_query item_doc query
            | _ => Ok false
            end) val_arr
      | _ => Err (Msg "$elemMatch requires object")
      end
  | _ => Ok false
  end.

(** Source: query/mod.rs:171-203 (eval_operator). *)
Fixpoint eval_operator (doc : document) (key : string) (value : option bson)
  (op : string) (cond_val : bson) {struct cond_val} : result bool error :=
  if op =s? "$gt" then Ok (bson_gt value cond_val)
  else if op =s? "$gte" then Ok (bson_gte value cond_val)
  else if op =s? "$lt" then Ok (bson_lt value cond_val)
  else if op =s? "$lte" then Ok (bson_lte value cond_val)
  else if op =s? "$eq" then Ok (bson_eq value (Some cond_val))
  else if op =s? "$ne" then Ok (negb (bson_eq value (Some cond_val)))
  else if op =s? "$in" then eval_in value cond_val
  else if op =s? "$nin" then eval_nin value cond_val
  else if op =s? "$exists" then eval_exists doc key cond_val
  else if op =s? "$type" then eval_type value cond_val
  else if op =s? "$regex" then eval_regex value cond_val
  else if op =s? "$not" then eval_not eval_operator doc key value cond_val
  else if op =s? "$all" then eval_all value cond_val
  else if op =s? "$elemMatch" then
    eval_elem_match (fun doc query => all_result (fun '(k, c) => eval_entry doc k c) query)
      value cond_val
  else if op =s? "$size" then eval_size value cond_val
  else if op =s? "$mod" then eval_mod value cond_val
  else if op =s? "$bitsAllSet" then eval_bits value cond_val AllSet
  else if op =s? "$bitsAnySet" then eval_bits value cond_val AnySet
  else if op =s? "$bitsAllClear" then eval_bits value cond_val AllClear
  else if op =s? "$bitsAnyClear" then eval_bits value cond_val AnyClear
  else if op =s? "$options" then Ok true
  else if (op =s? "$near") || (op =s? "$nearSphere") || (op =s? "$geoWithin")
          || (op =s? "$geoIntersects") then Ok true
  else Err (Msg ("Unknown operator: " ++ op)%string)

(** Source: query/mod.rs:44-86 (eval_query). One iteration of the loop: whether
    the entry lets the loop go on. *)
with eval_entry (doc : document) (key : string) (condition : bson) {struct condition}
  : result bool error :=
  let eval_query doc query := all_result (fun '(k, c) => eval_entry doc k c) query in
  if key =s? "$or" then eval_or eval_query doc condition
  else if key =s? "$and" then eval_and eval_query doc condition
  else if key =s? "$nor" then eval_nor eval_query doc condition
  else if key =s? "$expr" then eval_expr doc condition
  else if key =s? "$text" then eval_text doc condition
  else if key =s? "$comment" then Ok true
  else eval_field_condition eval_operator doc key condition.

(** Source: query/mod.rs:44-86 (eval_query). *)
Definition eval_query (doc query : document) : result bool error :=
  all_result (fun '(key, condition) => eval_entry doc key condition) query.

End Query.

(** ** The comparison is a total preorder

    On values without NaN, without 64-bit integers a double cannot represent,
    and without the two types ([Decimal128], [Symbol]) that compare equal to
    everything of their class. *)

Definition f64_exact (n : Z) : bool := (Z.abs n <? 2 ^ 53)%Z.

Fixpoint comparable (b : bson) : bool :=
  match b with
  | BDouble d => negb (f64_is_nan d)
  | BInt32 n | BInt64 n => f64_exact n
  | BDecimal128 _ | BSymbol _ => false
  | BArray a => forallb comparable a
  | _ => true
  end.

(** Nesting depth of arrays, the measure of the comparison's recursion. *)
Fixpoint array_depth (b : bson) : nat :=
  match b with
  | BArray a => S (fold_right Nat.max 0%nat (map array_depth a))
  | _ => 0
  end.

Lemma array_depth_elem a x : In x a -> (array_depth x < array_depth (BArray a))%nat.
Proof.
  intros Hin. simpl. apply Nat.lt_succ_r. induction a as [|y a IH]; [done|]. simpl.
  destruct Hin as [->|Hin]; [lia|]. specialize (IH Hin). lia.
Qed.

Lemma zip_cmp_tp {A} (P : A -> Prop) cmp :
  TotalPreorder P cmp -> TotalPreorder (Forall P) (zip_cmp cmp).
Proof.
  intros TP. split.
  - intros x Hx. induction Hx as [|x l Px Hl IH]; simpl; [done|].
    by rewrite (tp_refl _ _ TP).
  - intros x y Hx. revert y. induction Hx as [|x l Px Hl IH]; intros [|y l'] Hy; simpl; try done.
    inversion Hy; subst. rewrite (tp_sym _ _ TP x y), IH by done. by destruct (cmp x y).
  - intros x y z Hx. revert y z.
    induction Hx as [|x l Px Hl IH]; intros [|y l'] [|z l''] Hy Hz; simpl; try done.
    apply List.Forall_cons_iff in Hy as [Py Hy]. apply List.Forall_cons_iff in Hz as [Pz Hz].
    intros H1 H2.
    pose proof (tp_trans _ _ TP x y z Px ltac:(done) ltac:(done)) as H3.
    pose proof (tp_eq_l _ _ x y z TP Px ltac:(done) ltac:(done)) as H4.
    pose proof (tp_eq_l _ _ z y x TP ltac:(done) ltac:(done) Px) as H5.
    rewrite (tp_sym _ _ TP y z), (tp_sym _ _ TP x z), (tp_sym _ _ TP x y) in H5 by done.
    specialize (IH l' l'').
    destruct (cmp x y) eqn:E1, (cmp y z) eqn:E2, (cmp x z) eqn:E3; try done; auto;
      first [ specialize (H3 ltac:(done) ltac:(done)); done
            | specialize (H4 eq_refl); done
            | specialize (H5 eq_refl); done
            | idtac ].
    pose proof (tp_eq_l _ _ x z y TP Px ltac:(done) ltac:(done) E3) as H6.
    rewrite (tp_sym _ _ TP y z), E1, E2 in H6 by done. done.
Qed.

(** The projections the comparison is lexicographic on. *)
Definition num_of (b : bson) : f64 :=
  match b with BInt32 n | BInt64 n => f64_of_Z n | BDouble d => d | _ => f64_zero end.
Definition str_of (b : bson) : string := match b with BString s => s | _ => "" end.
Definition bool_of (b : bson) : bool := match b with BBoolean v => v | _ => false end.
Definition date_of (b : bson) : Z := match b with BDateTime m => m | _ => 0 end.
Definition oid_of (b : bson) : bytes := match b with BObjectId o => o | _ => [] end.
Definition arr_of (b : bson) : list bson := match b with BArray a => a | _ => [] end.

Lemma comparable_small n : f64_exact n = true -> small n.
Proof. unfold f64_exact, small. apply Z.ltb_lt. Qed.

Definition bson_lex (a b : bson) : comparison :=
  cmp_then (Z.compare (bson_type_order a) (bson_type_order b))
    (cmp_then (f64_cmp_or_eq (num_of a) (num_of b))
      (cmp_then (str_cmp (str_of a) (str_of b))
        (cmp_then (bool_cmp (bool_of a) (bool_of b))
          (cmp_then (Z.compare (date_of a) (date_of b))
            (cmp_then (bytes_cmp (oid_of a) (oid_of b))
              (zip_cmp bson_cmp (arr_of a) (arr_of b))))))).

Lemma bson_cmp_lex a b :
  comparable a = true -> comparable b = true -> bson_cmp a b = bson_lex a b.
Proof.
  intros Ha Hb. unfold bson_lex.
  assert (Hnum : forall n, f64_exact n = true -> small n) by apply comparable_small.
  destruct a, b; try done; cbn [comparable] in Ha, Hb;
    try (cbn -[f64_cmp_or_eq f64_of_Z str_cmp bool_cmp bytes_cmp Z.compare];
         rewrite ?f64_cmp_of_Z by auto);
    try (by destruct (f64_cmp_or_eq _ _)); 
    try (match goal with |- context [(?x ?= ?y)%Z] => is_var x; by destruct (x ?= y)%Z end);
    try (by destruct (str_cmp _ _)); try (by destruct (bool_cmp _ _));
    try (by destruct (bytes_cmp _ _)).
Qed.

Lemma num_of_not_nan b : comparable b = true -> f64_is_nan (num_of b) = false.
Proof.
  destruct b; try done; simpl; intros H.
  - by apply negb_true_iff.
  - by apply f64_of_Z_not_nan, comparable_small.
  - by apply f64_of_Z_not_nan, comparable_small.
Qed.

Lemma tp_cmp_ext {A} (P : A -> Prop) c1 c2 :
  (forall x y, P x -> P y -> c1 x y = c2 x y) -> TotalPreorder P c2 -> TotalPreorder P c1.
Proof.
  intros E T. split.
  - intros x Px. rewrite E by done. by apply (tp_refl _ _ T).
  - intros x y Px Py. rewrite !E by done. by apply (tp_sym _ _ T).
  - intros x y z Px Py Pz. rewrite !E by done. by apply (tp_trans _ _ T).
Qed.

Lemma bson_cmp_tp_depth n :
  TotalPreorder (fun b => comparable b = true /\ (array_depth b < n)%nat) bson_cmp.
Proof.
  induction n as [|n IH]; [split; intros; lia|].
  apply (tp_cmp_ext _ _ bson_lex); [intros x y [Hx _] [Hy _]; by apply bson_cmp_lex|].
  repeat apply tp_then; eapply tp_pullback;
    first [apply Z_compare_tp | apply f64_cmp_tp | apply str_cmp_tp | apply bool_cmp_tp
          | apply bytes_cmp_tp | apply (zip_cmp_tp _ _ IH) | idtac]; try done.
  - intros b [Hb _]. by apply num_of_not_nan.
  - intros b [Hb Hn]. destruct b; simpl; try constructor.
    apply List.Forall_forall. intros x Hx. simpl in Hb. rewrite forallb_forall in Hb.
    split; [by apply Hb|]. pose proof (array_depth_elem _ _ Hx). lia.
Qed.

Lemma bson_cmp_tp : TotalPreorder (fun b => comparable b = true) bson_cmp.
Proof.
  split.
  - intros x Hx. apply (tp_refl _ _ (bson_cmp_tp_depth (S (array_depth x)))). split; [done|lia].
  - intros x y Hx Hy.
    apply (tp_sym _ _ (bson_cmp_tp_depth (S (array_depth x + array_depth y))));
      (split; [done|lia]).
  - intros x y z Hx Hy Hz.
    apply (tp_trans _ _
      (bson_cmp_tp_depth (S (array_depth x + array_depth y + array_depth z))));
      (split; [done|lia]).
Qed.

(** ** Well-formed queries *)

Section QueryWf.
Context {B : BsonOps} {M : Libm} {G : S2} {T : TextEnv} {X : ExprEngine}.

Definition wf_array (c : bson) : bool := match c with BArray _ => true | _ => false end.

(** A list the evaluator sorts: its values are ones [bson_cmp] orders totally.  On others
    [slice::sort_by] may panic ([bson_cmp_is_not_an_order]). *)
Definition wf_in (c : bson) : bool := match c with BArray a => forallb comparable a | _ => false end.

Definition wf_regex (c : bson) : bool :=
  match c with
  | BString p | BRegularExpression p _ => is_ok (regex_new p)
  | _ => false
  end.

Definition wf_size (c : bson) : bool :=
  match c with BInt32 _ | BInt64 _ => true | _ => false end.

(** A divisor other than 0, which is an error, and -1, by which [i64::MIN] has no remainder
    ([mod_min_by_minus_one_panics]). *)
Definition wf_mod (c : bson) : bool :=
  match c with
  | BArray [a0; a1] =>
      match number_as_i64 a0, number_as_i64 a1 with
      | Some d, Some _ => negb (d =? 0)%Z && negb (d =? -1)%Z
      | _, _ => false
      end
  | _ => false
  end.

Definition wf_bits (c : bson) : bool :=
  match c with
  | BInt32 _ | BInt64 _ | BDouble _ => true
  | BArray ps =>
      forallb (fun p => match p with
                        | BInt32 n | BInt64 n => in_range 0 63 n
                        | _ => false
                        end) ps
  | _ => false
  end.

Definition wf_text (c : bson) : bool :=
  match c with
  | BDocument d => match doc_get d "$search" with Some (BString _) => true | _ => false end
  | BString _ => true
  | _ => false
  end.

Definition geo_keys : list string := ["$near"; "$nearSphere"; "$geoWithin"; "$geoIntersects"].

(** The operators and shapes of arguments the evaluator accepts, [$expr] and
    the geospatial operators aside. *)
Fixpoint wf_operator (op : string) (c : bson) {struct c} : bool :=
  if existsb (String.eqb op)
       ["$gt"; "$gte"; "$lt"; "$lte"; "$eq"; "$ne"; "$exists"; "$type"; "$options"] then true
  else if op =s? "$all" then wf_array c
  else if existsb (String.eqb op) ["$in"; "$nin"] then wf_in c
  else if op =s? "$regex" then wf_regex c
  else if op =s? "$not" then
    match c with BDocument d => forallb (fun '(o, v) => wf_operator o v) d | _ => true end
  else if op =s? "$elemMatch" then
    match c with BDocument d => forallb (fun '(k, v) => wf_entry k v) d | _ => false end
  else if op =s? "$size" then wf_size c
  else if op =s? "$mod" then wf_mod c
  else if existsb (String.eqb op)
            ["$bitsAllSet"; "$bitsAnySet"; "$bitsAllClear"; "$bitsAnyClear"] then wf_bits c
  else false
with wf_entry (key : string) (c : bson) {struct c} : bool :=
  if existsb (String.eqb key) ["$or"; "$and"; "$nor"] then
    match c with
    | BArray qs => forallb (fun q =>
        match q with BDocument d => forallb (fun '(k, v) => wf_entry k v) d | _ => false end) qs
    | _ => false
    end
  else if key =s? "$expr" then false
  else if key =s? "$text" then wf_text c
  else if key =s? "$comment" then true
  else match c with
       | BDocument d =>
           negb (existsb (doc_contains d) geo_keys) && forallb (fun '(o, v) => wf_operator o v) d
       | _ => true
       end.

Definition wf_query (q : document) : bool := forallb (fun '(k, v) => wf_entry k v) q.

(** *** The recursive equations of the evaluator *)

Lemma eval_entry_eq doc key c :
  eval_entry doc key c =
  if key =s? "$or" then eval_or eval_query doc c
  else if key =s? "$and" then eval_and eval_query doc c
  else if key =s? "$nor" then eval_nor eval_query doc c
  else if key =s? "$expr" then eval_expr doc c
  else if key =s? "$text" then eval_text doc c
  else if key =s? "$comment" then Ok true
  else eval_field_condition eval_operator doc key c.
Proof. by destruct c. Qed.

Lemma eval_operator_not doc key value c :
  eval_operator doc key value "$not" c = eval_not eval_operator doc key value c.
Proof. by destruct c. Qed.

Lemma eval_operator_elem doc key value c :
  eval_operator doc key value "$elemMatch" c = eval_elem_match eval_query value c.
Proof. by destruct c. Qed.

(** The operators that do not call the evaluator again. *)
Lemma eval_operator_leaf doc key value op c :
  op <> "$not" -> op <> "$elemMatch" ->
  eval_operator doc key value op c =
  if op =s? "$gt" then Ok (bson_gt value c)
  else if op =s? "$gte" then Ok (bson_gte value c)
  else if op =s? "$lt" then Ok (bson_lt value c)
  else if op =s? "$lte" then Ok (bson_lte value c)
  else if op =s? "$eq" then Ok (bson_eq value (Some c))
  else if op =s? "$ne" then Ok (negb (bson_eq value (Some c)))
  else if op =s? "$in" then eval_in value c
  else if op =s? "$nin" then eval_nin value c
  else if op =s? "$exists" then eval_exists doc key c
  else if op =s? "$type" then eval_type value c
  else if op =s? "$regex" then eval_regex value c
  else if op =s? "$all" then eval_all value c
  else if op =s? "$size" then eval_size value c
  else if op =s? "$mod" then eval_mod value c
  else if op =s? "$bitsAllSet" then eval_bits value c AllSet
  else if op =s? "$bitsAnySet" then eval_bits value c AnySet
  else if op =s? "$bitsAllClear" then eval_bits value c AllClear
  else if op =s? "$bitsAnyClear" then eval_bits value c AnyClear
  else if op =s? "$options" then Ok true
  else if existsb (String.eqb op) geo_keys then Ok true
  else Err (Msg ("Unknown operator: " ++ op)%string).
Proof.
  intros H1%String.eqb_neq H2%String.eqb_neq.
  unfold geo_keys. cbn [existsb]. rewrite orb_false_r, !orb_assoc.
  destruct c; cbn [eval_operator]; rewrite H1, H2; reflexivity.
Qed.

Lemma wf_operator_leaf op c :
  op <> "$not" -> op <> "$elemMatch" -> wf_operator op c = true ->
  In op ["$gt"; "$gte"; "$lt"; "$lte"; "$eq"; "$ne"; "$exists"; "$type"; "$options"] \/
  (op = "$all" /\ wf_array c = true) \/ (In op ["$in"; "$nin"] /\ wf_in c = true) \/
  (op = "$regex" /\ wf_regex c = true) \/ (op = "$size" /\ wf_size c = true) \/
  (op = "$mod" /\ wf_mod c = true) \/
  (In op ["$bitsAllSet"; "$bitsAnySet"; "$bitsAllClear"; "$bitsAnyClear"] /\ wf_bits c = true).
Proof.
  intros H1%String.eqb_neq H2%String.eqb_neq H.
  assert (HIn : forall l, existsb (String.eqb op) l = true -> In op l).
  { intros l (x & Hx & ->%String.eqb_eq)%existsb_exists. done. }
  destruct c; cbn [wf_operator] in H; rewrite H1, H2 in H;
    repeat (case_match eqn:E; [first [apply HIn in E | apply String.eqb_eq in E]; by auto 10|clear E]);
    done.
Qed.

Definition op_total (c : bson) : Prop := forall op doc key value,
  wf_operator op c = true -> exists b, eval_operator doc key value op c = Ok b.

Definition entry_total (c : bson) : Prop := forall key doc,
  wf_entry key c = true -> exists b, eval_entry doc key c = Ok b.

Lemma query_total_of d q :
  (forall k v, In (k, v) q -> entry_total v) -> wf_query q = true ->
  exists b, eval_query d q = Ok b.
Proof.
  intros IH Hwf. apply all_result_ok. intros [k v] Hin.
  unfold wf_query in Hwf. rewrite forallb_forall in Hwf.
  apply (IH k v Hin). apply (Hwf (k, v) Hin).
Qed.

Lemma eval_in_ok value c : wf_in c = true -> exists b, eval_in value c = Ok b.
Proof. destruct c; try done. intros _. unfold eval_in. simpl. destruct value as [[]|]; eauto. Qed.

Lemma eval_regex_ok value c : wf_regex c = true -> exists b, eval_regex value c = Ok b.
Proof.
  unfold wf_regex, eval_regex, regex_args. intros H.
  destruct value as [[]|]; eauto. destruct c; try done; simpl;
    (destruct (regex_new _); [simpl; eauto|done]).
Qed.

Lemma eval_mod_ok value c : wf_mod c = true -> exists b, eval_mod value c = Ok b.
Proof.
  unfold wf_mod, eval_mod. destruct c as [| |a| | | | | | | | | | | | | | | | | |]; try done.
  destruct a as [|a0 [|a1 [|]]]; try done.
  destruct (number_as_i64 a0) as [d|]; [|done]. destruct (number_as_i64 a1); [|done].
  rewrite andb_true_iff, !negb_true_iff. intros [H0 H1]. simpl. rewrite H0.
  destruct (and_then value number_as_i64) as [f|]; [|eauto].
  unfold i64_rem. rewrite H1, andb_false_r. eauto.
Qed.

Lemma eval_bits_ok value c mode : wf_bits c = true -> exists b, eval_bits value c mode = Ok b.
Proof.
  unfold wf_bits, eval_bits. destruct (and_then value number_as_i64) as [f|]; [|eauto].
  destruct c; try done; eauto. intros H. rewrite forallb_forall in H.
  destruct (fold_result_ok bits_position a 0%Z) as [m ->]; [|eauto].
  intros m p Hp. specialize (H p Hp). unfold in_range in H. destruct p; try done; simpl; rewrite H; eauto.
Qed.

Lemma eval_operator_total c :
  (forall d, c = BDocument d -> forall k v, In (k, v) d -> op_total v /\ entry_total v) ->
  op_total c.
Proof.
  intros IH op doc key value Hwf.
  assert (Hsub : forall d, c = BDocument d -> forall k v, In (k, v) d -> entry_total v)
    by (intros; eapply IH; eauto).
  destruct (op =s? "$not") eqn:Enot; [apply String.eqb_eq in Enot as ->|].
  { rewrite eval_operator_not. destruct c; simpl; eauto.
    apply all_result_ok. intros [o v] Hin. destruct (IH _ eq_refl _ _ Hin) as [Hop _].
    simpl in Hwf. rewrite forallb_forall in Hwf.
    destruct (Hop o doc key value (Hwf (o, v) Hin)) as [b ->]. eauto. }
  destruct (op =s? "$elemMatch") eqn:Eem; [apply String.eqb_eq in Eem as ->|].
  { rewrite eval_operator_elem. unfold eval_elem_match. destruct value as [[]|]; eauto.
    destruct c; try done. apply any_result_ok. intros item _. destruct item; eauto.
    apply query_total_of; [by apply Hsub|]. done. }
  apply String.eqb_neq in Enot, Eem. rewrite eval_operator_leaf by done.
  pose proof (eval_in_ok value c) as Hin.
  destruct (wf_operator_leaf op c Enot Eem Hwf) as [H|[[-> Hc]|[[H Hc]|[[-> Hc]|[[-> Hc]|[[-> Hc]|[H Hc]]]]]]];
    try simpl in H; repeat destruct H as [<-|H]; try done; cbn -[eval_in eval_bits eval_regex eval_mod];
    eauto using eval_regex_ok, eval_mod_ok, eval_bits_ok.
  - unfold eval_type. destruct value; eauto. by case_match; eauto.
  - unfold eval_all. destruct value as [[]|]; eauto. destruct c; try done. simpl; eauto.
  - unfold eval_nin. destruct (Hin Hc) as [b ->]. eauto.
  - unfold eval_size. destruct value as [[]|]; eauto. destruct c; try done; eauto.
Qed.

Lemma eval_entry_total c :
  (forall d, c = BDocument d -> forall k v, In (k, v) d -> op_total v) ->
  (forall a q, c = BArray a -> In (BDocument q) a -> forall k v, In (k, v) q -> entry_total v) ->
  entry_total c.
Proof.
  intros IHd IHa key doc Hwf. rewrite eval_entry_eq.
  assert (Hlog : existsb (String.eqb key) ["$or"; "$and"; "$nor"] = true ->
    exists a, c = BArray a /\ forall q, In q a -> exists d, q = BDocument d /\
      exists b, eval_query doc d = Ok b).
  { intros E. destruct c; cbn [wf_entry] in Hwf; rewrite E in Hwf; try done.
    exists a. split; [done|]. intros q Hq. rewrite forallb_forall in Hwf.
    specialize (Hwf q Hq). destruct q; try done. exists d. split; [done|].
    apply query_total_of; [|done]. intros k v Hin. by eapply IHa. }
  simpl in Hlog.
  destruct (key =s? "$or") eqn:E1; [|destruct (key =s? "$and") eqn:E2;
    [|destruct (key =s? "$nor") eqn:E3]].
  1-3: destruct (Hlog eq_refl) as (a & -> & Ha); simpl;
    first [apply any_result_ok | apply all_result_ok]; intros q Hq;
    destruct (Ha q Hq) as (d & -> & b & ->); eauto.
  assert (Hrest : (key =s? "$expr") = false /\
    ((key =s? "$text") = true -> wf_text c = true) /\
    ((key =s? "$text") = false -> (key =s? "$comment") = false -> forall d, c = BDocument d ->
     negb (existsb (doc_contains d) geo_keys) &&
     forallb (fun '(o, v) => wf_operator o v) d = true)).
  { destruct c; cbn [wf_entry existsb] in Hwf; rewrite E1, E2, E3 in Hwf; cbn [orb] in Hwf;
      (destruct (key =s? "$expr"); [done|]); (split; [done|]);
      destruct (key =s? "$text"), (key =s? "$comment"); split; try done;
      intros _ _ d' [= <-]; done. }
  destruct Hrest as (-> & Htext & Hdoc).
  destruct (key =s? "$text").
  { specialize (Htext eq_refl). unfold eval_text. destruct c; simpl in Htext; try done;
      [|case_match; [|done]; case_match; try done]; case_match; eauto. }
  destruct (key =s? "$comment"); [eauto|]. destruct c; simpl; eauto.
  specialize (Hdoc eq_refl eq_refl d eq_refl) as Hwf'. clear Hwf. rename Hwf' into Hwf.
  apply andb_true_iff in Hwf as [Hg Hops]. apply negb_true_iff in Hg. simpl in Hg.
  apply orb_false_iff in Hg as [Hg1 [Hg2 [Hg3 [Hg4 _]%orb_false_iff]%orb_false_iff]%orb_false_iff].
  unfold eval_field_condition. rewrite Hg1, Hg2, Hg3, Hg4. simpl.
  apply all_result_ok. intros [o v] Hin. rewrite forallb_forall in Hops.
  apply (IHd d eq_refl o v Hin). apply (Hops (o, v) Hin).
Qed.

Lemma condition_total c :
  (op_total c /\ entry_total c) /\
  (forall d, c = BDocument d -> forall k v, In (k, v) d -> op_total v /\ entry_total v).
Proof.
  induction c using bson_ind;
    try (split; [split; [apply eval_operator_total|apply eval_entry_total]|]; done).
  - split; [|done]. split; [by apply eval_operator_total|].
    apply eval_entry_total; [done|]. intros a' q [= <-] Hq k v Hin.
    rewrite List.Forall_forall in H. destruct (H _ Hq) as [_ Hd]. by eapply Hd.
  - rewrite List.Forall_forall in H.
    assert (Hd : forall k v, In (k, v) d -> op_total v /\ entry_total v).
    { intros k v Hin. destruct (H (k, v) Hin) as [Hv _]. exact Hv. }
    split; [|by intros d' [= <-]].
    split; [apply eval_operator_total|apply eval_entry_total]; try done.
    + by intros d' [= <-].
    + intros d' [= <-] k v Hin. by eapply Hd.
Qed.
End QueryWf.

(** ** Properties *)

Section QueryProps.
Context {B : BsonOps} {M : Libm} {G : S2} {T : TextEnv} {X : ExprEngine}.

(** [bson_cmp] is a total preorder (reflexive, antisymmetric up to
    equality in the order, transitive) on values without NaN, [Decimal128] or
    [Symbol] and with integers below [2^53] in absolute value, across numeric types and nested
    arrays; this is what [sort_by] and [binary_search_by] require. *)
Theorem bson_cmp_total_preorder : TotalPreorder (fun b => comparable b = true) bson_cmp.
Proof. exact bson_cmp_tp. Qed.

(** The sorted, binary-searched [$in] is the linear scan: the value, or
    some element of an array value, compares equal to some listed value. *)
Theorem eval_in_is_scan value arr :
  forallb comparable arr = true ->
  match value with Some v => comparable v = true | None => True end ->
  eval_in value (BArray arr) =
  Ok (match value with
      | Some (BArray vs) => existsb (fun v => existsb (fun x => bson_eq (Some x) (Some v)) arr) vs
      | Some v => existsb (fun x => bson_eq (Some x) (Some v)) arr
      | None => false
      end).
Proof.
  intros Ha Hv.
  assert (Hs : forall v, comparable v = true ->
    is_ok (binary_search_by (fun probe => bson_cmp probe v) (sort_by bson_cmp arr)) =
    existsb (fun x => bson_eq (Some x) (Some v)) arr).
  { intros v Hc. apply (sorted_search_is_scan (fun b => comparable b = true)); [|done|].
    - apply bson_cmp_tp.
    - apply List.Forall_forall. by apply forallb_forall. }
  unfold eval_in. simpl. destruct value as [v|]; [|done].
  destruct v; try (by rewrite Hs). f_equal. simpl in Hv. rewrite forallb_forall in Hv.
  induction a as [|x a IH]; [done|]. simpl. rewrite Hs by (apply Hv; by left).
  f_equal. apply IH. intros; apply Hv. by right.
Qed.

(** C38: a query of known operators with arguments of the right shape evaluates to a verdict on
    every document: no error, no panic. Of the right shape are regular expressions that compile,
    [$mod] divisors other than 0 and -1 (by -1 the remainder of the least integer panics:
    [mod_min_by_minus_one_panics]), bit positions from 0 to 63, and [$in] and [$nin] lists whose
    values have a total order, that is, no NaN, Decimal128, Symbol or integer from 2^53 on (on
    the others the sort may panic: [bson_cmp_is_not_an_order]). [$expr] and the geospatial
    operators are outside the claim. *)
Theorem eval_query_total doc q : wf_query q = true -> exists b, eval_query doc q = Ok b.
Proof. apply query_total_of. intros k v _. apply condition_total. Qed.

(** [$and] of several queries is the query with all their entries in
    sequence, errors and short-circuiting included. *)
Theorem and_is_concatenation doc qs :
  eval_query doc [("$and", BArray (map BDocument qs))] = eval_query doc (List.concat qs).
Proof.
  unfold eval_query at 1. cbn [all_result]. rewrite eval_entry_eq. simpl.
  rewrite all_result_map. unfold eval_query. rewrite all_result_concat.
  by destruct (all_result _ qs) as [[]|].
Qed.

Lemma or_is_any doc qs :
  eval_query doc [("$or", BArray (map BDocument qs))] = any_result (eval_query doc) qs.
Proof.
  unfold eval_query at 1. cbn [all_result]. rewrite eval_entry_eq. simpl.
  rewrite any_result_map.
  change (any_result (fun x => eval_query doc x) qs) with (any_result (eval_query doc) qs).
  by destruct (any_result (eval_query doc) qs) as [[]|].
Qed.

(** [$nor] is the negation of [$or], with the same errors, and
    [$or] is the first sub-query that matches. *)
Theorem nor_negates_or doc qs :
  eval_query doc [("$nor", BArray (map BDocument qs))] =
  (let? b := eval_query doc [("$or", BArray (map BDocument qs))] in Ok (negb b)) /\
  eval_query doc [("$or", BArray (map BDocument qs))] = any_result (eval_query doc) qs.
Proof.
  rewrite or_is_any. split; [|done].
  unfold eval_query at 1. cbn [all_result]. rewrite eval_entry_eq. simpl.
  rewrite all_result_map, all_result_negb.
  by destruct (any_result (eval_query doc) qs) as [[]|].
Qed.

(** Runs a sequence of [$regex] tests on one thread, threading the cache. *)
Fixpoint run_regex_cached (cache : list (string * regex)) (calls : list (option bson * bson))
  : list (result bool error) :=
  match calls with
  | [] => []
  | (value, cond) :: calls' =>
      let '(cache', r) := eval_regex_cached cache value cond in
      r :: run_regex_cached cache' calls'
  end.

Definition cache_ok (cache : list (string * regex)) : Prop :=
  forall p re, In (p, re) cache -> regex_new p = Ok re.

Lemma eval_regex_cached_step cache value cond :
  cache_ok cache ->
  snd (eval_regex_cached cache value cond) = eval_regex value cond /\
  cache_ok (fst (eval_regex_cached cache value cond)).
Proof.
  intros Hc. unfold eval_regex_cached, eval_regex.
  destruct (regex_args value cond) as [[[v p]|]|e]; try done.
  destruct (find _ cache) as [[p' re]|] eqn:Ef.
  - apply find_some in Ef as [Hin E]. apply String.eqb_eq in E. simpl in E. subst p'.
    rewrite (Hc _ _ Hin). done.
  - destruct (regex_new p) as [re|e] eqn:Er; [|done]. simpl. split; [done|].
    intros p' re' [[= <- <-]|Hin]; [done|by apply Hc].
Qed.

(** The thread-local cache of compiled patterns is transparent: any
    sequence of [$regex] tests gives, call by call, the results of compiling
    the pattern afresh. *)
Theorem eval_regex_cache_transparent calls :
  run_regex_cached [] calls = map (fun '(value, cond) => eval_regex value cond) calls.
Proof.
  assert (H : forall cache, cache_ok cache -> run_regex_cached cache calls =
    map (fun '(value, cond) => eval_regex value cond) calls); [|by apply H; intros ?? []].
  induction calls as [|[value cond] calls IH]; intros cache Hc; [done|]. simpl.
  destruct (eval_regex_cached_step cache value cond Hc) as [H1 H2].
  destruct (eval_regex_cached cache value cond) as [cache' r]. simpl in *.
  rewrite H1. f_equal. by apply IH.
Qed.

(** *** Bit masks *)

(** The bits set by position [p]: bit [p], and the whole sign extension for
    bit 63. *)
Definition hit (p i : Z) : bool := if (p =? 63)%Z then (63 <=? i)%Z else (i =? p)%Z.

Lemma position_bit p i :
  (0 <= p <= 63)%Z -> (0 <= i)%Z -> Z.testbit (wrap_i64 (Z.shiftl 1 p)) i = hit p i.
Proof.
  intros Hp Hi. unfold hit. rewrite Z.shiftl_1_l.
  destruct (Z.eqb_spec p 63) as [->|Hne].
  - change (wrap_i64 (2 ^ 63)) with (Z.shiftl (-1) 63). rewrite Z.shiftl_spec by done.
    destruct (Z.leb_spec 63 i); [by apply Z.bits_m1; lia|by apply Z.testbit_neg_r; lia].
  - assert (E : wrap_i64 (2 ^ p) = (2 ^ p)%Z).
    { assert (0 < 2 ^ p <= 2 ^ 62)%Z
        by (split; [apply Z.pow_pos_nonneg; lia|apply Z.pow_le_mono_r; lia]).
      unfold wrap_i64, wrap_signed. rewrite Z.mod_small by lia.
      lia. }
    rewrite E, Z.pow2_bits_eqb by lia. apply Z.eqb_sym.
Qed.

Lemma mask_bits ps m0 i :
  Forall (fun p => 0 <= p <= 63)%Z ps -> (0 <= i)%Z ->
  exists m, fold_result bits_position m0 (map BInt32 ps) = Ok m /\
    Z.testbit m i = Z.testbit m0 i || existsb (fun p => hit p i) ps.
Proof.
  intros Hps Hi. revert m0. induction Hps as [|p ps Hp Hps IH]; intros m0; simpl.
  - exists m0. by rewrite orb_false_r.
  - assert ((0 <=? p) && (p <=? 63) = true)%Z as -> by lia.
    destruct (IH (Z.lor m0 (wrap_i64 (Z.shiftl 1 p)))) as (m & Hm & Hb).
    exists m. split; [done|]. by rewrite Hb, Z.lor_spec, position_bit, orb_assoc.
Qed.

Lemma i64_sign_bits f i : in_i64 f -> (63 <= i)%Z -> Z.testbit f i = Z.testbit f 63.
Proof.
  intros Hf Hi. assert (Hbig : forall g j, (0 <= g < 2 ^ 63)%Z -> (63 <= j)%Z -> Z.testbit g j = false).
  { intros g j Hg Hj. rewrite <- (Z.mod_small g (2 ^ 63)) by done. by apply Z.mod_pow2_bits_high. }
  unfold in_i64, i64_min, i64_max in Hf. destruct (Z.le_gt_cases 0 f).
  - by rewrite !Hbig by lia.
  - assert (Hl : (0 <= Z.lnot f < 2 ^ 63)%Z) by (unfold Z.lnot; lia).
    rewrite <- (Z.lnot_involutive f), (Z.lnot_spec (Z.lnot f) i), (Z.lnot_spec (Z.lnot f) 63) by lia.
    by rewrite !Hbig by lia.
Qed.

Lemma hit_testbit f p i :
  in_i64 f -> (0 <= p <= 63)%Z -> hit p i = true -> Z.testbit f i = Z.testbit f p.
Proof.
  intros Hf Hp. unfold hit. destruct (Z.eqb_spec p 63) as [->|]; intros H.
  - apply i64_sign_bits; [done|lia].
  - by apply Z.eqb_eq in H as ->.
Qed.

Lemma mask_all_any f ps m :
  in_i64 f -> Forall (fun p => 0 <= p <= 63)%Z ps ->
  fold_result bits_position 0%Z (map BInt32 ps) = Ok m ->
  Z.eqb (Z.land f m) m = forallb (Z.testbit f) ps /\
  Z.eqb (Z.land f m) 0 = negb (existsb (Z.testbit f) ps).
Proof.
  intros Hf Hps Hm. rewrite List.Forall_forall in Hps.
  assert (Hb : forall i, (0 <= i)%Z -> Z.testbit m i = existsb (fun p => hit p i) ps).
  { intros i Hi. destruct (mask_bits ps 0 i) as (m' & Hm' & Hb); [by apply List.Forall_forall|done|].
    rewrite Hm in Hm'. injection Hm' as <-. by rewrite Hb, Z.bits_0. }
  assert (Hpp : forall p, In p ps -> Z.testbit m p = true).
  { intros p Hin. rewrite Hb by (by apply Hps). apply existsb_exists. exists p. split; [done|].
    unfold hit. destruct (Z.eqb_spec p 63); lia. }
  assert (Hex : forall i, (0 <= i)%Z -> Z.testbit m i = true ->
    exists p, In p ps /\ Z.testbit f i = Z.testbit f p).
  { intros i Hi. rewrite Hb by done. intros (p & Hin & Hh)%existsb_exists. exists p.
    split; [done|]. apply hit_testbit; auto. }
  split; apply eq_true_iff_eq; rewrite Z.eqb_eq.
  - rewrite forallb_forall. split.
    + intros E p Hin. pose proof (Hpp p Hin) as H. rewrite <- E, Z.land_spec in H.
      by apply andb_true_iff in H as [H _].
    + intros H. apply Z.bits_inj'. intros i Hi. rewrite Z.land_spec.
      destruct (Z.testbit m i) eqn:Em; [|by rewrite andb_false_r].
      destruct (Hex i Hi Em) as (p & Hin & ->). by rewrite (H p Hin).
  - rewrite negb_true_iff, <- not_true_iff_false, existsb_exists. split.
    + intros E (p & Hin & Hfp). assert (H : Z.testbit (Z.land f m) p = true)
        by (by rewrite Z.land_spec, Hfp, Hpp). by rewrite E, Z.bits_0 in H.
    + intros H. apply Z.bits_inj'. intros i Hi. rewrite Z.land_spec, Z.bits_0.
      destruct (Z.testbit m i) eqn:Em; [|by rewrite andb_false_r].
      destruct (Hex i Hi Em) as (p & Hin & ->). rewrite andb_true_r.
      apply not_true_iff_false. intros Hp. by apply H; exists p.
Qed.

(** The [$bits...] operators on an array of bit positions decide
    the quantified statement about the field's two's-complement bits, bit 63
    (the sign) included. *)
Theorem eval_bits_positions f ps mode :
  in_i64 f -> Forall (fun p => 0 <= p <= 63)%Z ps ->
  eval_bits (Some (BInt64 f)) (BArray (map BInt32 ps)) mode =
  Ok (match mode with
      | AllSet => forallb (Z.testbit f) ps
      | AnySet => existsb (Z.testbit f) ps
      | AllClear => negb (existsb (Z.testbit f) ps)
      | AnyClear => negb (forallb (Z.testbit f) ps)
      end).
Proof.
  intros Hf Hps. unfold eval_bits. simpl.
  destruct (mask_bits ps 0 0 Hps ltac:(done)) as (m & Hm & _). rewrite Hm.
  destruct (mask_all_any f ps m Hf Hps Hm) as [-> ->].
  destruct mode; by rewrite ?negb_involutive.
Qed.

Section All.
Context {L : BsonLaws B} {C : BsonCodecLaws B}.

(** The values that [bson::to_vec] can write. *)
Definition encodable (v : bson) : Prop :=
  bson_ok v = true /\ doubles_ok v = true /\ exists b, doc_to_vec (doc_insert [] "" v) = Ok b.

Lemma canonical_bson_key_inj v w :
  encodable v -> encodable w -> canonical_bson_key v = canonical_bson_key w -> v = w.
Proof.
  intros (Hv & Hdv & bv & Ev) (Hw & Hdw & bw & Ew). unfold canonical_bson_key. rewrite Ev, Ew. intros <-.
  assert (Hok : forall x, bson_ok x = true -> doc_ok (doc_insert [] "" x) = true)
    by (intros; by apply insert_ok).
  pose proof (from_to_vec _ _ (Hok v Hv) (insert_doubles [] _ v eq_refl Hdv) Ev) as E1.
  pose proof (from_to_vec _ _ (Hok w Hw) (insert_doubles [] _ w eq_refl Hdw) Ew) as E2.
  rewrite E1 in E2. injection E2 as E.
  pose proof (get_insert_eq [] "" v) as Gv. rewrite E, get_insert_eq in Gv. by injection Gv.
Qed.

(** [$all], which tests membership by canonical byte keys, holds
    exactly when every listed value is an element of the array. *)
Theorem eval_all_subset vs cs :
  Forall encodable vs -> Forall encodable cs ->
  eval_all (Some (BArray vs)) (BArray cs) = Ok true <-> (forall c, In c cs -> In c vs).
Proof.
  rewrite !List.Forall_forall. intros Hvs Hcs. unfold eval_all. simpl.
  assert (Hmem : forall c, encodable c ->
    existsb (bytes_eqb (canonical_bson_key c)) (map canonical_bson_key vs) = true <-> In c vs).
  { intros c Hc. rewrite existsb_exists. unfold bytes_eqb. split.
    - intros (k & (v & <- & Hv)%in_map_iff & E).
      destruct (bytes_cmp _ _) eqn:Ec; try done. apply bytes_cmp_eq in Ec.
      apply canonical_bson_key_inj in Ec; [by subst|done|by apply Hvs].
    - intros Hin. exists (canonical_bson_key c). split; [by apply in_map|].
      by rewrite (proj2 (bytes_cmp_eq _ _)). }
  split.
  - intros [= H]. rewrite forallb_forall in H. intros c Hc. apply Hmem; auto.
  - intros H. f_equal. apply forallb_forall. intros c Hc. apply Hmem; auto.
Qed.
End All.
End QueryProps.

(** ** Concrete parameters

    Functions for the parameters, with which the statements above are
    evaluated. *)

Module RefEnv.
(** A stand-in for the mathematical library, exact at zero; doubles are shown by
    their integral part. *)
#[export] Instance libm : Libm := {|
  f64_sin x := x; f64_cos _ := f64_one; f64_asin x := x;
  f64_powi x n := if (n =? 2)%Z then f64_mul x x else x;
  f64_display x := Z_to_string (f64_as_int i64_min i64_max x) |}.

(** Points of the plane. *)
#[export] Instance s2 : S2 := {|
  s2_point := f64 * f64;
  point_of_lonlat lon lat := (lon, lat);
  cell_of_lonlat lon lat := f64_as_i64 lon;
  point_origin := (f64_zero, f64_zero);
  point_approx_eq p q := f64_eqb (fst p) (fst q) && f64_eqb (snd p) (snd q);
  distance_from_segment_rad p a b := f64_one;
  simple_crossing p o a b := false;
  s2_rect := list (f64 * f64);
  rect_empty := [];
  rect_add r p := p :: r;
  rect_is_empty r := match r with [] => true | _ => false end;
  rect_cover r := map (fun p => f64_as_i64 (fst p)) r |}.

Definition ascii_lower (a : ascii) : ascii :=
  let n := N_of_ascii a in
  if ((65 <=? n) && (n <=? 90))%N then ascii_of_N (n + 32) else a.

Fixpoint str_lower (s : string) : string :=
  match s with
  | EmptyString => EmptyString
  | String a s' => String (ascii_lower a) (str_lower s')
  end.

(** Literal patterns; an opening parenthesis does not compile. *)
#[export] Instance text : TextEnv := {|
  regex := string;
  regex_new p := if str_contains "(" p then Err "unclosed group" else Ok p;
  is_match re s := str_contains re s;
  to_lowercase := str_lower;
  split_whitespace s := List.filter (fun w => negb (w =s? "")) (split_on " " s) |}.

(** Literal expressions. *)
#[export] Instance expr : ExprEngine := {| evaluate_expression _ e := Ok e |}.
End RefEnv.
#[export] Existing Instances RefEnv.libm RefEnv.s2 RefEnv.text RefEnv.expr.

(** ** Witnesses *)

Lemma eval_in_is_scan_witness :
  eval_in (Some (BArray [BInt32 7; BDouble (f64_of_Z 3)]))
    (BArray [BString "x"; BInt64 9; BInt32 3; BNull]) = Ok true.
Proof.
  rewrite (eval_in_is_scan (Some (BArray [BInt32 7; BDouble (f64_of_Z 3)]))
             [BString "x"; BInt64 9; BInt32 3; BNull]); reflexivity.
Defined.

Lemma eval_query_total_witness :
  exists b, eval_query [("a", BInt32 5); ("s", BString "xy")]
    [("$or", BArray [BDocument [("a", BDocument [("$in", BArray [BInt32 5])])];
                     BDocument [("s", BDocument [("$not", BDocument [("$regex", BString "z")])])]]);
     ("a", BDocument [("$mod", BArray [BInt32 2; BInt32 1]); ("$gte", BInt64 4)])] = Ok b.
Proof. apply eval_query_total. vm_compute. reflexivity. Defined.

Lemma eval_bits_positions_witness :
  eval_bits (Some (BInt64 (-2))) (BArray (map BInt32 [1; 63]%Z)) AllSet = Ok true /\
  eval_bits (Some (BInt64 (-2))) (BArray (map BInt32 [0; 63]%Z)) AnyClear = Ok true.
Proof.
  split; rewrite eval_bits_positions; try reflexivity; try (vm_compute; split; discriminate);
    repeat constructor; discriminate.
Defined.

Lemma eval_all_subset_witness :
  eval_all (Some (BArray [BInt32 1; BString "x"; BNull])) (BArray [BNull; BInt32 1]) = Ok true.
Proof.
  apply (eval_all_subset [BInt32 1; BString "x"; BNull] [BNull; BInt32 1]).
  - repeat constructor; (eexists; vm_compute; reflexivity).
  - repeat constructor; (eexists; vm_compute; reflexivity).
  - intros c [<-|[<-|[]]]; simpl; auto.
Defined.

(** ** Behaviours worth recording *)

(** Two documents always compare equal, whatever their contents: [$eq] and [$in]
    on embedded documents match every document. *)
Theorem bson_eq_ignores_document_contents d1 d2 :
  bson_eq (Some (BDocument d1)) (Some (BDocument d2)) = true.
Proof. reflexivity. Qed.

(** [$not] with several operators requires each of them to fail, where the
    negation of the conjunction requires one: 3 is not strictly between 5 and
    10, but does not match. *)
Theorem not_requires_all_to_fail :
  eval_query [("a", BInt32 3)]
    [("a", BDocument [("$gt", BInt32 5); ("$lt", BInt32 10)])] = Ok false /\
  eval_query [("a", BInt32 3)]
    [("a", BDocument [("$not", BDocument [("$gt", BInt32 5); ("$lt", BInt32 10)])])] = Ok false.
Proof. split; vm_compute; reflexivity. Qed.

(** The comparison of the values of [$in] is no order when one of them is a NaN, equal to
    every number: the standard library does not say how [sort_by] sorts then, and it may
    panic. *)
Theorem bson_cmp_is_not_an_order :
  let nan := BDouble SpecFloat.S754_nan in
  bson_cmp (BInt32 1) nan = Eq /\ bson_cmp nan (BInt32 2) = Eq /\ bson_cmp (BInt32 2) (BInt32 1) = Gt.
Proof. vm_compute. split_and!; reflexivity. Qed.

(** [$mod] panics on the one quotient that overflows. *)
Theorem mod_min_by_minus_one_panics :
  eval_query [("a", BInt64 i64_min)]
    [("a", BDocument [("$mod", BArray [BInt32 (-1); BInt32 0])])] =
  Err (Panic "attempt to calculate the remainder with overflow").
Proof. vm_compute. reflexivity. Qed.

(** Equality with an embedded document is not expressible directly: the
    document is read as operators. *)
Theorem embedded_document_equality_is_an_error :
  eval_query [("a", BDocument [("b", BInt32 1)])] [("a", BDocument [("b", BInt32 1)])] =
  Err (Msg "Unknown operator: b").
Proof. vm_compute. reflexivity. Qed.
