(* ===== verification/Update.v ===== *)
(** * Update operators

    [src/rust/smongo-engine/src/update/mod.rs], and
    [aggregation::compare_bson], which orders the array of a [$push] with
    [$sort].  A function that takes [&mut Document] returns the new document;
    on an error the caller drops its copy, so only the error is kept. *)

From Stdlib Require Import ZArith Lia Ascii String Strings.Byte Permutation Sorted.
From S2P Require Import Prelude F64 Bson RefBson Paths Geo Query.
From stdpp Require Import base tactics list strings.

Open Scope string_scope.
Open Scope list_scope.

(** [DateTime::now()] in milliseconds: the readings of the clock during one
    call, in order. *)
Class Clock : Type := { now : nat -> Z }.

(** ** [compare_bson] *)

(** Source: aggregation/mod.rs:879-891 (type_order). *)
Definition type_order (b : bson) : Z :=
  match b with
  | BNull => 1
  | BInt32 _ | BInt64 _ | BDouble _ => 2
  | BString _ => 3
  | BDocument _ => 4
  | BArray _ => 5
  | BBoolean _ => 6
  | BObjectId _ => 7
  | BDateTime _ => 8
  | _ => 9
  end.

(** Source: aggregation/mod.rs:893-900 (as_f64). *)
Definition cmp_as_f64 (b : bson) : option f64 :=
  match b with
  | BInt32 n | BInt64 n => Some (f64_of_Z n)
  | BDouble n => Some n
  | _ => None
  end.

(** Source: aggregation/mod.rs:876-928 (compare_bson). *)
Definition compare_bson (a b : option bson) : comparison :=
  match a, b with
  | None, None => Eq
  | None, Some _ => Lt
  | Some _, None => Gt
  | Some a_val, Some b_val =>
      let ta := type_order a_val in
      let tb := type_order b_val in
      if negb (Z.eqb ta tb) then Z.compare ta tb
      else
        match cmp_as_f64 a_val, cmp_as_f64 b_val with
        | Some fa, Some fb => f64_cmp_or_eq fa fb
        | _, _ =>
            match a_val, b_val with
            | BString x, BString y => str_cmp x y
            | BBoolean x, BBoolean y => bool_cmp x y
            | BObjectId x, BObjectId y => bytes_cmp x y
            | BDateTime x, BDateTime y => Z.compare x y
            | _, _ => Eq
            end
        end
  end.

(** ** Numbers *)

(** Source: update/mod.rs:370-377 (bson_to_number). *)
Definition bson_to_number (val : bson) : option f64 :=
  match val with
  | BInt32 n | BInt64 n => Some (f64_of_Z n)
  | BDouble n => Some n
  | _ => None
  end.

(** Whether a double is an integer between the two bounds, compared as
    doubles. *)
Definition fits (lo hi : Z) (r : f64) : bool :=
  f64_leb (f64_of_Z lo) r && f64_leb r (f64_of_Z hi) && f64_is_integral r.

(** Source: update/mod.rs:449-453 (compare_numbers). *)
Definition compare_numbers (a b : bson) : option comparison :=
  and_then (bson_to_number a) (fun a_num =>
  and_then (bson_to_number b) (fun b_num => f64_partial_cmp a_num b_num)).

Section Update.
Context {B : BsonOps} {M : Libm} {G : S2} {T : TextEnv} {X : ExprEngine} {K : Clock}.

(** Source: update/mod.rs:380-412 (add_numbers). *)
Definition add_numbers (current : option bson) (increment : bson) : result bson error :=
  let? inc_val := ok_or (bson_to_number increment)
    (Msg ("$inc value must be numeric, got: " ++ bson_debug increment)%string) in
  match current with
  | Some (BInt32 n) =>
      let r := f64_add (f64_of_Z n) inc_val in
      if fits i32_min i32_max r then Ok (BInt32 (f64_as_i32 r)) else Ok (BDouble r)
  | Some (BInt64 n) =>
      let r := f64_add (f64_of_Z n) inc_val in
      if fits i64_min i64_max r then Ok (BInt64 (f64_as_i64 r)) else Ok (BDouble r)
  | Some (BDouble n) => Ok (BDouble (f64_add n inc_val))
  | None => Ok increment
  | Some other =>
      Err (Msg ("Cannot apply numeric operation to non-numeric field: " ++ bson_debug other)%string)
  end.

(** Source: update/mod.rs:415-446 (multiply_numbers). *)
Definition multiply_numbers (current : option bson) (multiplier : bson) : result bson error :=
  let? mul_val := ok_or (bson_to_number multiplier)
    (Msg ("$mul value must be numeric, got: " ++ bson_debug multiplier)%string) in
  match current with
  | Some (BInt32 n) =>
      let r := f64_mul (f64_of_Z n) mul_val in
      if fits i32_min i32_max r then Ok (BInt32 (f64_as_i32 r)) else Ok (BDouble r)
  | Some (BInt64 n) =>
      let r := f64_mul (f64_of_Z n) mul_val in
      if fits i64_min i64_max r then Ok (BInt64 (f64_as_i64 r)) else Ok (BDouble r)
  | Some (BDouble n) => Ok (BDouble (f64_mul n mul_val))
  | None => Ok (BInt32 0)
  | Some other => Err (Msg ("Cannot apply $mul to non-numeric field: " ++ bson_debug other)%string)
  end.

(** ** Field and numeric operators *)

(** Source: update/mod.rs:353-358 (apply_set). *)
Definition apply_set (doc spec : document) : result document error :=
  fold_result (fun doc '(key, value) => set_value doc key value) doc spec.

(** Source: update/mod.rs:360-365 (apply_unset). *)
Definition apply_unset (doc spec : document) : result document error :=
  fold_result (fun doc '(key, _) => unset_value doc key) doc spec.

(** Source: update/mod.rs:455-462 (apply_inc). *)
Definition apply_inc (doc spec : document) : result document error :=
  fold_result (fun doc '(key, increment) =>
    let current := get_value doc key in
    let? new_value := add_numbers current increment in
    set_value doc key new_value) doc spec.

(** Source: update/mod.rs:464-471 (apply_mul). *)
Definition apply_mul (doc spec : document) : result document error :=
  fold_result (fun doc '(key, multiplier) =>
    let current := get_value doc key in
    let? new_value := multiply_numbers current multiplier in
    set_value doc key new_value) doc spec.

(** Source: update/mod.rs:473-486 (apply_min). *)
Definition apply_min (doc spec : document) : result document error :=
  fold_result (fun doc '(key, min_val) =>
    match get_value doc key with
    | Some current =>
        match compare_numbers min_val current with
        | Some Lt => set_value doc key min_val
        | _ => Ok doc
        end
    | None => set_value doc key min_val
    end) doc spec.

(** Source: update/mod.rs:488-501 (apply_max). *)
Definition apply_max (doc spec : document) : result document error :=
  fold_result (fun doc '(key, max_val) =>
    match get_value doc key with
    | Some current =>
        match compare_numbers max_val current with
        | Some Gt => set_value doc key max_val
        | _ => Ok doc
        end
    | None => set_value doc key max_val
    end) doc spec.

(** ** Array operators *)

(** [n as i64] of an integer value. *)
Definition int_as_i64 (b : bson) : option Z :=
  match b with BInt32 n | BInt64 n => Some n | _ => None end.

(** [Vec::insert], which panics past the end. *)
Definition vec_insert {A} (l : list A) (i : Z) (x : A) : result (list A) error :=
  if (0 <=? i)%Z && (i <=? Z.of_nat (length l))%Z
  then Ok (take (Z.to_nat i) l ++ x :: drop (Z.to_nat i) l)
  else Err (Panic "insertion index should be <= len").

(** Source: update/mod.rs:531-536 (apply_push). The insertion index of
    [$position]; [-pos] wraps at [i64::MIN]. *)
Definition push_index (pos : Z) (len : Z) : Z :=
  if (pos <? 0)%Z
  then let from_end := wrap_u64 (wrap_i64 (- pos)) in Z.max 0 (len - from_end)
  else Z.min pos len.

(** Source: update/mod.rs:523-546 (apply_push). Step 1: insert the elements. *)
Definition push_elements (modifiers : document) (arr elements : list bson)
  : result (list bson) error :=
  match and_then (doc_get modifiers "$position") int_as_i64 with
  | Some pos =>
      let idx := push_index pos (Z.of_nat (length arr)) in
      fold_result (fun arr '(i, elem) => vec_insert arr (idx + Z.of_nat i) elem) arr
        (combine (seq 0 (length elements)) elements)
  | None => Ok (arr ++ elements)
  end.

(** [cmp.reverse()] when the direction is negative. *)
Definition directed (d : Z) (c : comparison) : comparison :=
  if (d <? 0)%Z then CompOpp c else c.

(** Source: update/mod.rs:568-590 (apply_push). The comparator of a [$sort]
    document. *)
Fixpoint sort_doc_cmp (sort_doc : document) (a b : bson) : comparison :=
  match sort_doc with
  | [] => Eq
  | (field, direction) :: rest =>
      let dir := match int_as_i64 direction with Some n => n | None => 1%Z end in
      let val_a := and_then (as_document a) (fun da => get_value da field) in
      let val_b := and_then (as_document b) (fun db => get_value db field) in
      match directed dir (compare_bson val_a val_b) with
      | Eq => sort_doc_cmp rest a b
      | r => r
      end
  end.

(** Source: update/mod.rs:549-595 (apply_push). Step 2: sort the array. *)
Definition push_sort (modifiers : document) (arr : list bson) : result (list bson) error :=
  match doc_get modifiers "$sort" with
  | None => Ok arr
  | Some (BInt32 d) | Some (BInt64 d) =>
      Ok (sort_by (fun a b => directed d (compare_bson (Some a) (Some b))) arr)
  | Some (BDocument sort_doc) => Ok (sort_by (sort_doc_cmp sort_doc) arr)
  | Some _ => Err (Msg "$sort must be 1, -1, or a document")
  end.

(** Source: update/mod.rs:598-615 (apply_push). Step 3: slice the array. *)
Definition push_slice (modifiers : document) (arr : list bson) : result (list bson) error :=
  match doc_get modifiers "$slice" with
  | None => Ok arr
  | Some slice_val =>
      let? n := ok_or (int_as_i64 slice_val) (Msg "$slice must be numeric") in
      if (n =? 0)%Z then Ok []
      else if (0 <? n)%Z then Ok (take (Z.to_nat n) arr)
      else
        let keep := wrap_u64 (wrap_i64 (- n)) in
        if (keep <? Z.of_nat (length arr))%Z
        then Ok (drop (length arr - Z.to_nat keep) arr)
        else Ok arr
  end.

(** Source: update/mod.rs:505-626 (apply_push). *)
Definition apply_push (doc spec : document) : result document error :=
  fold_result (fun doc '(key, value_spec) =>
    let? arr :=
      match get_value doc key with
      | Some (BArray a) => Ok a
      | None => Ok []
      | Some other =>
          Err (Msg ("Cannot apply $push to non-array field: " ++ bson_debug other)%string)
      end in
    let? arr :=
      match value_spec with
      | BDocument modifiers =>
          match doc_get modifiers "$each" with
          | Some (BArray elements) =>
              let? arr := push_elements modifiers arr elements in
              let? arr := push_sort modifiers arr in
              push_slice modifiers arr
          | _ => Ok (arr ++ [value_spec])
          end
      | _ => Ok (arr ++ [value_spec])
      end in
    set_value doc key (BArray arr)) doc spec.

(** Source: update/mod.rs:638-652 (apply_pull). Whether an element is kept. *)
Definition pull_keep (condition elem : bson) : result bool error :=
  match condition with
  | BDocument query_doc =>
      match elem with
      | BDocument elem_doc =>
          let? b := unwrap_or (eval_query elem_doc query_doc) false in Ok (negb b)
      | _ => Ok true
      end
  | _ => Ok (negb (bson_eqb elem condition))
  end.

(** Source: update/mod.rs:628-657 (apply_pull). *)
Definition apply_pull (doc spec : document) : result document error :=
  fold_result (fun doc '(key, condition) =>
    match get_value doc key with
    | Some (BArray arr) =>
        let? filtered := filter_result (pull_keep condition) arr in
        set_value doc key (BArray filtered)
    | _ => Ok doc
    end) doc spec.

(** Source: update/mod.rs:659-694 (apply_pop). *)
Definition apply_pop (doc spec : document) : result document error :=
  fold_result (fun doc '(key, direction) =>
    match get_value doc key with
    | Some (BArray []) => Ok doc
    | Some (BArray ((x :: xs) as arr)) =>
        let? dir :=
          match direction with
          | BInt32 n => Ok n
          | BInt64 n => Ok (wrap_i32 n)
          | _ => Err (Msg ("$pop direction must be -1 or 1, got: " ++ bson_debug direction)%string)
          end in
        if (dir =? -1)%Z then set_value doc key (BArray xs)
        else if (dir =? 1)%Z then set_value doc key (BArray (removelast arr))
        else Err (Msg ("$pop direction must be -1 or 1, got: " ++ Z_to_string dir)%string)
    | _ => Ok doc
    end) doc spec.

(** [arr.contains(elem)], and [if !arr.contains(elem) { arr.push(elem) }]. *)
Definition vec_contains (arr : list bson) (elem : bson) : bool :=
  existsb (fun x => bson_eqb x elem) arr.

Definition add_if_absent (arr : list bson) (elem : bson) : list bson :=
  if negb (vec_contains arr elem) then arr ++ [elem] else arr.

(** Source: update/mod.rs:696-735 (apply_add_to_set). *)
Definition apply_add_to_set (doc spec : document) : result document error :=
  fold_result (fun doc '(key, value_spec) =>
    let? arr :=
      match get_value doc key with
      | Some (BArray a) => Ok a
      | None => Ok []
      | Some other =>
          Err (Msg ("Cannot apply $addToSet to non-array field: " ++ bson_debug other)%string)
      end in
    let arr :=
      match value_spec with
      | BDocument modifiers =>
          match doc_get modifiers "$each" with
          | Some (BArray elements) => fold_left add_if_absent elements arr
          | _ => add_if_absent arr value_spec
          end
      | _ => add_if_absent arr value_spec
      end in
    set_value doc key (BArray arr)) doc spec.

(** ** Other operators *)

(** Source: update/mod.rs:739-762 (apply_rename). *)
Definition apply_rename (doc spec : document) : result document error :=
  fold_result (fun doc '(old_name, new_name_bson) =>
    let? new_name :=
      ok_or (as_str new_name_bson)
        (Msg ("$rename target must be a string, got: " ++ bson_debug new_name_bson)%string) in
    match get_value doc old_name with
    | Some value =>
        let? doc := unset_value doc old_name in
        set_value doc new_name value
    | None => Ok doc
    end) doc spec.

(** Source: update/mod.rs:764-793 (apply_current_date). Every branch of the
    type option sets the current date. *)
Definition apply_current_date (doc spec : document) : result document error :=
  fold_result (fun doc '(i, (key, type_spec)) => set_value doc key (BDateTime (now i)))
    doc (combine (seq 0 (length spec)) spec).

(** ** Positional operators and [arrayFilters] *)

(** A [HashMap<String, Document>] under insertion: the newest entry for a key
    is found first. *)
Definition filter_map_get (m : list (string * document)) (id : string) : option document :=
  match find (fun kv => fst kv =s? id) m with Some (_, d) => Some d | None => None end.

(** Source: update/mod.rs:174-183 (parse_array_filters). *)
Definition parse_array_filters (filters : list document) : list (string * document) :=
  fold_left (fun m filter =>
    match doc_keys filter with
    | [] => m
    | first_key :: _ =>
        let identifier := match split_on "." first_key with p :: _ => p | [] => first_key end in
        (identifier, filter) :: m
    end) filters [].

(** Source: update/mod.rs:185-187 (has_positional_paths). *)
Definition has_positional_paths (spec : document) : bool :=
  existsb (str_contains "$[") (doc_keys spec).

(** Source: update/mod.rs:189-200 (split_positional_paths). *)
Definition split_positional_paths (spec : document) : list (string * bson) * document :=
  fold_left (fun '(positional, normal) '(key, value) =>
    if str_contains "$[" key then (positional ++ [(key, value)], normal)
    else (positional, doc_insert normal key value)) spec ([], []).

(** Source: update/mod.rs:336-349 (rewrite_filter_for_element). *)
Definition rewrite_filter_for_element (filter : document) (identifier : string) : document :=
  let prefix := (identifier ++ ".")%string in
  fold_left (fun rewritten '(key, value) =>
    if key =s? identifier then doc_insert rewritten key value
    else match Prelude.strip_prefix prefix key with
         | Some rest => doc_insert rewritten rest value
         | None => doc_insert rewritten key value
         end) filter [].

(** [parts.iter().position(p)]. *)
Fixpoint position {A} (p : A -> bool) (l : list A) : option nat :=
  match l with
  | [] => None
  | x :: l' => if p x then Some 0%nat else option_map S (position p l')
  end.

(** Source: update/mod.rs:258-328 (apply_positional_operator). The update of one
    matching element. *)
Definition positional_elem (operator : string) (suffix : option string) (value elem : bson)
  : result bson error :=
  let in_doc (f : document -> string -> result document error) : result bson error :=
    match suffix, elem with
    | Some sfx, BDocument d => let? d' := f d sfx in Ok (BDocument d')
    | _, _ => Ok elem
    end in
  if (operator =s? "$set") || (operator =s? "$setOnInsert") then
    match suffix with
    | Some _ => in_doc (fun d sfx => set_value d sfx value)
    | None => Ok value
    end
  else if operator =s? "$unset" then in_doc (fun d sfx => unset_value d sfx)
  else if operator =s? "$inc" then
    match suffix with
    | Some _ => in_doc (fun d sfx =>
        let? new_val := add_numbers (get_value d sfx) value in set_value d sfx new_val)
    | None => add_numbers (Some elem) value
    end
  else if operator =s? "$mul" then
    match suffix with
    | Some _ => in_doc (fun d sfx =>
        let? new_val := multiply_numbers (get_value d sfx) value in set_value d sfx new_val)
    | None => multiply_numbers (Some elem) value
    end
  else if operator =s? "$min" then
    in_doc (fun d sfx =>
      let should_set := match get_value d sfx with
                        | Some cur => match compare_numbers value cur with
                                      | Some Lt => true | _ => false end
                        | None => true end in
      if should_set then set_value d sfx value else Ok d)
  else if operator =s? "$max" then
    in_doc (fun d sfx =>
      let should_set := match get_value d sfx with
                        | Some cur => match compare_numbers value cur with
                                      | Some Gt => true | _ => false end
                        | None => true end in
      if should_set then set_value d sfx value else Ok d)
  else Ok elem.

(** Source: update/mod.rs:203-332 (apply_positional_operator). *)
Definition apply_positional_operator (doc : document) (path : string) (value : bson)
  (operator : string) (filter_map : list (string * document)) : result document error :=
  let parts := split_on "." path in
  let? pos_idx := ok_or (position (starts_with "$[") parts)
                    (Msg ("no positional operator in path: " ++ path)%string) in
  let positional := nth pos_idx parts "" in
  let prefix := str_join "." (take pos_idx parts) in
  let suffix := if (pos_idx + 1 <? length parts)%nat
                then Some (str_join "." (drop (pos_idx + 1) parts)) else None in
  match get_value doc prefix with
  | Some (BArray arr) =>
      let is_all := positional =s? "$[]" in
      let? identifier :=
        if negb is_all && (3 <? String.length positional)%nat
        then let? id := str_slice 2 (String.length positional - 1) positional in Ok (Some id)
        else Ok None in
      let filter := and_then identifier (filter_map_get filter_map) in
      let? arr' := map_result (fun elem =>
        let? matches :=
          if is_all then Ok true
          else match filter with
               | Some f =>
                   match elem with
                   | BDocument elem_doc =>
                       let rewritten := rewrite_filter_for_element f
                         (match identifier with Some id => id | None => "" end) in
                       unwrap_or (eval_query elem_doc rewritten) false
                   | _ => Ok false
                   end
               | None => Ok false
               end in
        if matches then positional_elem operator suffix value elem else Ok elem) arr in
      set_value doc prefix (BArray arr')
  | _ => Ok doc
  end.

(** ** [apply_update] *)

(** Source: update/mod.rs:134-162 (apply_operator). *)
Definition apply_operator (doc : document) (operator : string) (spec_doc : document)
  (is_upsert_insert : bool) : result document error :=
  if operator =s? "$set" then apply_set doc spec_doc
  else if operator =s? "$setOnInsert" then
    if is_upsert_insert then apply_set doc spec_doc else Ok doc
  else if operator =s? "$unset" then apply_unset doc spec_doc
  else if operator =s? "$inc" then apply_inc doc spec_doc
  else if operator =s? "$mul" then apply_mul doc spec_doc
  else if operator =s? "$min" then apply_min doc spec_doc
  else if operator =s? "$max" then apply_max doc spec_doc
  else if operator =s? "$currentDate" then apply_current_date doc spec_doc
  else if operator =s? "$rename" then apply_rename doc spec_doc
  else if operator =s? "$addToSet" then apply_add_to_set doc spec_doc
  else if operator =s? "$push" then apply_push doc spec_doc
  else if operator =s? "$pull" then apply_pull doc spec_doc
  else if operator =s? "$pop" then apply_pop doc spec_doc
  else Ok doc.

(** Source: update/mod.rs:94-108 (apply_update_impl). *)
Definition operator_order : list string :=
  ["$set"; "$setOnInsert"; "$unset"; "$inc"; "$mul"; "$min"; "$max"; "$currentDate";
   "$rename"; "$addToSet"; "$push"; "$pull"; "$pop"].

(** Source: update/mod.rs:111-128 (apply_update_impl). One operator of the loop. *)
Definition apply_one_operator (update : document) (is_upsert_insert : bool)
  (filter_map : list (string * document)) (doc : document) (operator : string)
  : result document error :=
  match doc_get update operator with
  | None => Ok doc
  | Some (BDocument spec_doc) =>
      if negb (length filter_map =? 0)%nat && has_positional_paths spec_doc then
        let '(positional, normal) := split_positional_paths spec_doc in
        let? doc := match normal with
                    | [] => Ok doc
                    | _ => apply_operator doc operator normal is_upsert_insert
                    end in
        fold_result (fun doc '(path, value) =>
          apply_positional_operator doc path value operator filter_map) doc positional
      else apply_operator doc operator spec_doc is_upsert_insert
  | Some _ => Err (Msg (operator ++ " must be a document")%string)
  end.

(** Source: update/mod.rs:77-132 (apply_update_impl). *)
Definition apply_update_impl (doc update : document) (is_upsert_insert : bool)
  (array_filters : list document) : result document error :=
  match find (fun key => negb (starts_with "$" key)) (doc_keys update) with
  | Some key =>
      Err (Msg ("Update keys must be operators starting with $, found: " ++ key)%string)
  | None =>
      let filter_map := parse_array_filters array_filters in
      fold_result (apply_one_operator update is_upsert_insert filter_map) doc operator_order
  end.

(** Source: update/mod.rs:53-55 (apply_update). *)
Definition apply_update (doc update : document) : result document error :=
  apply_update_impl doc update false [].

(** Source: update/mod.rs:59-61 (apply_update_for_upsert). *)
Definition apply_update_for_upsert (doc update : document) : result document error :=
  apply_update_impl doc update true [].

(** Source: update/mod.rs:69-75 (apply_update_with_array_filters). *)
Definition apply_update_with_array_filters (doc update : document) (array_filters : list document)
  : result document error :=
  apply_update_impl doc update false array_filters.

End Update.

(** ** Lemmas *)

(** *** [compare_bson] is a total preorder *)

(** The double a value is compared as; zero when it is not a number. *)
Definition cmp_num (b : bson) : f64 :=
  match cmp_as_f64 b with Some d => d | None => f64_zero end.

Definition no_nan (b : bson) : bool := negb (f64_is_nan (cmp_num b)).

Definition compare_lex (a b : bson) : comparison :=
  cmp_then (Z.compare (type_order a) (type_order b))
    (cmp_then (f64_cmp_or_eq (cmp_num a) (cmp_num b))
      (cmp_then (str_cmp (str_of a) (str_of b))
        (cmp_then (bool_cmp (bool_of a) (bool_of b))
          (cmp_then (bytes_cmp (oid_of a) (oid_of b))
            (Z.compare (date_of a) (date_of b)))))).

Lemma cmp_then_Eq_r c : cmp_then c Eq = c.
Proof. by destruct c. Qed.

Lemma compare_bson_lex a b : compare_bson (Some a) (Some b) = compare_lex a b.
Proof.
  unfold compare_bson, compare_lex, cmp_num.
  destruct a, b; try done; cbn [type_order cmp_as_f64 str_of bool_of oid_of date_of];
    cbn -[f64_cmp_or_eq f64_of_Z str_cmp bool_cmp bytes_cmp Z.compare];
    rewrite ?Z.compare_refl; cbn [cmp_then Z.eqb Pos.eqb negb];
    try (by rewrite cmp_then_Eq_r); by rewrite ?cmp_then_Eq_r.
Qed.

Lemma compare_bson_tp :
  TotalPreorder (fun b => no_nan b = true) (fun a b => compare_bson (Some a) (Some b)).
Proof.
  apply (tp_cmp_ext _ _ compare_lex); [intros; apply compare_bson_lex|].
  repeat apply tp_then; eapply tp_pullback;
    first [apply Z_compare_tp | apply f64_cmp_tp | apply str_cmp_tp | apply bool_cmp_tp
          | apply bytes_cmp_tp | idtac]; try done.
  intros b. apply negb_true_iff.
Qed.

Lemma directed_tp {A} (P : A -> Prop) cmp d :
  TotalPreorder P cmp -> TotalPreorder P (fun a b => directed d (cmp a b)).
Proof. intros H. unfold directed. destruct (d <? 0)%Z; [by apply tp_opp|done]. Qed.

(** *** Exact integer arithmetic through doubles *)

Lemma f64_leb_of_Z a b :
  small a -> small b -> f64_leb (f64_of_Z a) (f64_of_Z b) = (a <=? b)%Z.
Proof.
  intros Ha Hb. unfold f64_leb, SpecFloat.SFleb.
  change (SpecFloat.SFcompare (f64_of_Z a) (f64_of_Z b))
    with (f64_partial_cmp (f64_of_Z a) (f64_of_Z b)).
  rewrite f64_cmp_exact by done. unfold Z.leb. by destruct (a ?= b)%Z.
Qed.

Lemma fits_small lo hi z :
  small lo -> small hi -> small z -> fits lo hi (f64_of_Z z) = in_range lo hi z.
Proof.
  intros Hlo Hhi Hz. unfold fits, in_range.
  by rewrite !f64_leb_of_Z, f64_integral_exact, andb_true_r.
Qed.

(** Every exact integer lies between the bounds of [i64], compared as doubles. *)
Lemma fits_i64 z : small z -> fits i64_min i64_max (f64_of_Z z) = true.
Proof.
  intros Hz. unfold fits. rewrite f64_integral_exact, (f64_of_Z_exact z), andb_true_r by done.
  change (f64_of_Z i64_min) with (SpecFloat.S754_finite true 4503599627370496 11).
  change (f64_of_Z i64_max) with (SpecFloat.S754_finite false 4503599627370496 11).
  destruct z as [|p|p]; [done| |].
  - pose proof (digits2_le_53 p ltac:(unfold small in Hz; lia)) as Hd.
    unfold exact_form, f64_leb, SpecFloat.SFleb, SpecFloat.SFcompare.
    destruct (Z.compare_spec (Zpos (SpecFloat.digits2_pos p) - 53) 11); try lia; done.
  - pose proof (digits2_le_53 p ltac:(unfold small in Hz; lia)) as Hd.
    unfold exact_form, f64_leb, SpecFloat.SFleb, SpecFloat.SFcompare.
    destruct (Z.compare_spec 11 (Zpos (SpecFloat.digits2_pos p) - 53)); try lia; done.
Qed.

Section UpdateLemmas.
Context {B : BsonOps} {M : Libm} {G : S2} {T : TextEnv} {X : ExprEngine} {K : Clock}.
Context {L : BsonLaws B}.

(** *** The type invariant *)

Lemma arr_ok_spec a : bson_ok (BArray a) = true <-> (forall x, In x a -> bson_ok x = true).
Proof. apply forallb_forall. Qed.

Lemma in_range_clamp lo hi z : (lo <= hi)%Z -> in_range lo hi (clamp lo hi z) = true.
Proof. unfold in_range, clamp. lia. Qed.

Lemma f64_as_int_range lo hi x :
  (lo <= 0 <= hi)%Z -> in_range lo hi (f64_as_int lo hi x) = true.
Proof.
  intros H. destruct x; simpl; try (unfold in_range; lia).
  - unfold in_range. case_match; lia.
  - apply in_range_clamp. lia.
Qed.

Lemma add_numbers_ok c i v :
  bson_ok i = true -> add_numbers c i = Ok v -> bson_ok v = true.
Proof.
  unfold add_numbers. intros Hi. destruct (bson_to_number i); simpl; [|done].
  destruct c as [[]|]; try done;
    first [case_match; injection 1 as <-; try done; by apply f64_as_int_range | by injection 1 as <-].
Qed.

Lemma multiply_numbers_ok c i v : multiply_numbers c i = Ok v -> bson_ok v = true.
Proof.
  unfold multiply_numbers. destruct (bson_to_number i); simpl; [|done].
  destruct c as [[]|]; try done;
    first [case_match; injection 1 as <-; try done; by apply f64_as_int_range | by injection 1 as <-].
Qed.

(** A loop over a well-typed specification whose body keeps the document
    well-typed. *)
Lemma spec_loop_ok (f : document -> string * bson -> result document error) doc spec doc' :
  (forall d k v d', bson_ok v = true -> doc_ok d = true -> f d (k, v) = Ok d' -> doc_ok d' = true) ->
  doc_ok doc = true -> doc_ok spec = true -> fold_result f doc spec = Ok doc' -> doc_ok doc' = true.
Proof.
  intros Hf Hd Hs. apply doc_ok_spec in Hs as [_ Hs].
  apply (fold_result_inv (fun d => doc_ok d = true)); [|done].
  intros d [k v] d' Hin. apply Hf. by eapply Hs.
Qed.

Lemma vec_insert_In {A} (l l' : list A) i x y :
  vec_insert l i x = Ok l' -> In y l' -> y = x \/ In y l.
Proof.
  unfold vec_insert. case_match; [|done]. injection 1 as <-.
  rewrite in_app_iff. simpl. rewrite <- (take_drop (Z.to_nat i) l) at 3.
  rewrite in_app_iff. intuition.
Qed.

Lemma push_elements_In m arr es arr' y :
  push_elements m arr es = Ok arr' -> In y arr' -> In y arr \/ In y es.
Proof.
  unfold push_elements. destruct (and_then _ _) as [pos|]; [|injection 1 as <-; by rewrite in_app_iff].
  intros H. revert y.
  eapply (fold_result_inv (fun a => forall y, In y a -> In y arr \/ In y es)); [| |exact H].
  - intros a [i e] a' Hin Ha E y Hy. apply in_combine_r in Hin.
    destruct (vec_insert_In _ _ _ _ _ E Hy) as [->|Hy']; auto.
  - by left.
Qed.

Lemma push_sort_In m arr arr' y : push_sort m arr = Ok arr' -> In y arr' -> In y arr.
Proof.
  unfold push_sort. destruct (doc_get m "$sort") as [[]|]; try done; injection 1 as <-;
    try rewrite sort_by_In; done.
Qed.

Lemma push_slice_In m arr arr' y : push_slice m arr = Ok arr' -> In y arr' -> In y arr.
Proof.
  unfold push_slice. destruct (doc_get m "$slice") as [v|]; [|by injection 1 as <-].
  destruct (int_as_i64 v); simpl; [|done].
  repeat case_match; injection 1 as <-; eauto using in_take, in_drop. done.
Qed.

Lemma get_elem_ok d k v elems :
  bson_ok v = true -> v = BDocument d -> doc_get d k = Some (BArray elems) ->
  forall x, In x elems -> bson_ok x = true.
Proof. intros Hv -> Hg. apply arr_ok_spec. by eapply get_ok. Qed.

(** Reading an array of a well-typed document. *)
Lemma get_array_ok d k a x :
  doc_ok d = true -> get_value d k = Some (BArray a) -> In x a -> bson_ok x = true.
Proof. intros Hd Hg. apply arr_ok_spec. by eapply get_value_wf. Qed.

Lemma set_array_ok d k a d' :
  doc_ok d = true -> (forall x, In x a -> bson_ok x = true) ->
  set_value d k (BArray a) = Ok d' -> doc_ok d' = true.
Proof. intros Hd Ha. apply set_value_wf; [done|]. by apply arr_ok_spec. Qed.

Lemma apply_set_ok doc spec doc' :
  doc_ok doc = true -> doc_ok spec = true -> apply_set doc spec = Ok doc' -> doc_ok doc' = true.
Proof. apply spec_loop_ok. intros d k v d' Hv Hd. by apply set_value_wf. Qed.

Lemma apply_unset_ok doc spec doc' :
  doc_ok doc = true -> doc_ok spec = true -> apply_unset doc spec = Ok doc' -> doc_ok doc' = true.
Proof. apply spec_loop_ok. intros d k v d' Hv Hd. by apply unset_value_wf. Qed.

Lemma apply_inc_ok doc spec doc' :
  doc_ok doc = true -> doc_ok spec = true -> apply_inc doc spec = Ok doc' -> doc_ok doc' = true.
Proof.
  apply spec_loop_ok. intros d k v d' Hv Hd. cbv beta iota zeta.
  destruct (add_numbers _ v) eqn:E; [|done]. apply set_value_wf; [done|by apply (add_numbers_ok (get_value d k) v)].
Qed.

Lemma apply_mul_ok doc spec doc' :
  doc_ok doc = true -> doc_ok spec = true -> apply_mul doc spec = Ok doc' -> doc_ok doc' = true.
Proof.
  apply spec_loop_ok. intros d k v d' Hv Hd. cbv beta iota zeta.
  destruct (multiply_numbers _ v) eqn:E; [|done].
  apply set_value_wf; [done|by eapply multiply_numbers_ok].
Qed.

Lemma apply_min_ok doc spec doc' :
  doc_ok doc = true -> doc_ok spec = true -> apply_min doc spec = Ok doc' -> doc_ok doc' = true.
Proof.
  apply spec_loop_ok. intros d k v d' Hv Hd. cbv beta iota zeta.
  destruct (get_value d k); [destruct (compare_numbers v b) as [[]|]|];
    try (by apply set_value_wf); by injection 1 as <-.
Qed.

Lemma apply_max_ok doc spec doc' :
  doc_ok doc = true -> doc_ok spec = true -> apply_max doc spec = Ok doc' -> doc_ok doc' = true.
Proof.
  apply spec_loop_ok. intros d k v d' Hv Hd. cbv beta iota zeta.
  destruct (get_value d k); [destruct (compare_numbers v b) as [[]|]|];
    try (by apply set_value_wf); by injection 1 as <-.
Qed.

(** The array a [$push] or [$addToSet] starts from. *)
Lemma start_array_ok d k a msg :
  doc_ok d = true ->
  match get_value d k with
  | Some (BArray a) => Ok a | None => Ok [] | Some other => Err (Msg (msg other))
  end = Ok a -> forall x, In x a -> bson_ok x = true.
Proof.
  intros Hd. destruct (get_value d k) as [[]|] eqn:E; try done; injection 1 as <-.
  - intros x. by eapply get_array_ok.
  - by intros x [].
Qed.

Lemma apply_push_ok doc spec doc' :
  doc_ok doc = true -> doc_ok spec = true -> apply_push doc spec = Ok doc' -> doc_ok doc' = true.
Proof.
  apply spec_loop_ok. intros d k v d' Hv Hd. cbv beta iota zeta.
  destruct (match get_value d k with Some (BArray _) => _ | _ => _ end) as [arr|] eqn:Ea; [|done].
  pose proof (start_array_ok d k arr _ Hd Ea) as Harr.
  assert (Hone : forall x, In x (arr ++ [v]) -> bson_ok x = true)
    by (intros x; rewrite in_app_iff; intros [H|[<-|[]]]; auto).
  destruct v as [| | |mods| | | | | | | | | | | | | | | | |]; try (by apply set_array_ok).
  destruct (doc_get mods "$each") as [[| |es| | | | | | | | | | | | | | | | | |]|] eqn:Ee;
    try (by apply set_array_ok).
  destruct (push_elements mods arr es) as [a1|] eqn:E1; [|done].
  destruct (push_sort mods a1) as [a2|] eqn:E2; [|done].
  destruct (push_slice mods a2) as [a3|] eqn:E3; [|done].
  apply set_array_ok; [done|]. intros x Hx.
  apply (push_slice_In _ _ _ _ E3), (push_sort_In _ _ _ _ E2) in Hx.
  destruct (push_elements_In _ _ _ _ _ E1 Hx) as [H|H]; [by apply Harr|].
  by apply (get_elem_ok mods "$each" (BDocument mods) es).
Qed.

Lemma add_if_absent_In arr e x : In x (add_if_absent arr e) -> In x arr \/ x = e.
Proof.
  unfold add_if_absent. destruct (negb _); [|by left]. rewrite in_app_iff. simpl. intuition.
Qed.

Lemma add_all_In es arr x : In x (fold_left add_if_absent es arr) -> In x arr \/ In x es.
Proof.
  revert arr. induction es as [|e es IH]; intros arr H; simpl in *; [by left|].
  destruct (IH _ H) as [[H'|H']%add_if_absent_In|H']; subst; auto.
Qed.

Lemma apply_add_to_set_ok doc spec doc' :
  doc_ok doc = true -> doc_ok spec = true -> apply_add_to_set doc spec = Ok doc' ->
  doc_ok doc' = true.
Proof.
  apply spec_loop_ok. intros d k v d' Hv Hd. cbv beta iota zeta.
  destruct (match get_value d k with Some (BArray _) => _ | _ => _ end) as [arr|] eqn:Ea; [|done].
  pose proof (start_array_ok d k arr _ Hd Ea) as Harr.
  assert (Hone : forall x, In x (add_if_absent arr v) -> bson_ok x = true)
    by (intros x [H| ->]%add_if_absent_In; auto).
  destruct v as [| | |mods| | | | | | | | | | | | | | | | |]; try (by apply set_array_ok).
  destruct (doc_get mods "$each") as [[| |es| | | | | | | | | | | | | | | | | |]|] eqn:Ee;
    try (by apply set_array_ok).
  apply set_array_ok; [done|]. intros x [Hx|Hx]%add_all_In; [auto|].
  by apply (get_elem_ok mods "$each" (BDocument mods) es).
Qed.

Lemma apply_pull_ok doc spec doc' :
  doc_ok doc = true -> doc_ok spec = true -> apply_pull doc spec = Ok doc' -> doc_ok doc' = true.
Proof.
  apply spec_loop_ok. intros d k v d' Hv Hd. cbv beta iota zeta.
  destruct (get_value d k) as [[]|] eqn:Eg; try (by injection 1 as <-).
  destruct (filter_result _ _) as [fl|] eqn:Ef; [|done].
  apply set_array_ok; [done|]. intros x Hx.
  apply (filter_result_In _ _ _ Ef) in Hx as [Hx _]. by eapply get_array_ok.
Qed.

Lemma in_removelast {A} (l : list A) x : In x (removelast l) -> In x l.
Proof.
  induction l as [|y [|z l] IH]; simpl; [done|done|]. intros [->|H]; [by left|right; by apply IH].
Qed.

Lemma apply_pop_ok doc spec doc' :
  doc_ok doc = true -> doc_ok spec = true -> apply_pop doc spec = Ok doc' -> doc_ok doc' = true.
Proof.
  apply spec_loop_ok. intros d k v d' Hv Hd. cbv beta iota zeta.
  destruct (get_value d k) as [[| |[|x xs]| | | | | | | | | | | | | | | | | |]|] eqn:Eg;
    try (by injection 1 as <-).
  pose proof (fun y => get_array_ok d k _ y Hd Eg) as Hok.
  destruct (match v with BInt32 _ => _ | _ => _ end) as [dir|]; [|done].
  destruct (dir =? -1)%Z; [|destruct (dir =? 1)%Z; [|done]];
    (apply set_array_ok; [done|]); intros y Hy; apply Hok; [by right|exact (in_removelast (x :: xs) y Hy)].
Qed.

Lemma apply_rename_ok doc spec doc' :
  doc_ok doc = true -> doc_ok spec = true -> apply_rename doc spec = Ok doc' -> doc_ok doc' = true.
Proof.
  apply spec_loop_ok. intros d k v d' Hv Hd. cbv beta iota zeta.
  destruct (as_str v); [|done]. cbn [ok_or]. destruct (get_value d k) eqn:Eg; [|by injection 1 as <-].
  destruct (unset_value d k) as [d1|] eqn:Eu; [|done].
  apply set_value_wf; [by eapply unset_value_wf|by eapply get_value_wf].
Qed.

Definition clock_ok : Prop := forall i, in_range i64_min i64_max (now i) = true.

Lemma apply_current_date_ok doc spec doc' :
  clock_ok -> doc_ok doc = true -> apply_current_date doc spec = Ok doc' -> doc_ok doc' = true.
Proof.
  intros Hc Hd. unfold apply_current_date.
  apply (fold_result_inv (fun d => doc_ok d = true)); [|done].
  intros d [i [k v]] d' _ Hd'. apply set_value_wf; [done|]. apply Hc.
Qed.

Lemma apply_operator_ok doc op spec up doc' :
  clock_ok -> doc_ok doc = true -> doc_ok spec = true ->
  apply_operator doc op spec up = Ok doc' -> doc_ok doc' = true.
Proof.
  intros Hc Hd Hs. unfold apply_operator.
  destruct (op =s? "$set"); [by apply apply_set_ok|].
  destruct (op =s? "$setOnInsert"); [destruct up; [by apply apply_set_ok|by injection 1 as <-]|].
  destruct (op =s? "$unset"); [by apply apply_unset_ok|].
  destruct (op =s? "$inc"); [by apply apply_inc_ok|].
  destruct (op =s? "$mul"); [by apply apply_mul_ok|].
  destruct (op =s? "$min"); [by apply apply_min_ok|].
  destruct (op =s? "$max"); [by apply apply_max_ok|].
  destruct (op =s? "$currentDate"); [by apply apply_current_date_ok|].
  destruct (op =s? "$rename"); [by apply apply_rename_ok|].
  destruct (op =s? "$addToSet"); [by apply apply_add_to_set_ok|].
  destruct (op =s? "$push"); [by apply apply_push_ok|].
  destruct (op =s? "$pull"); [by apply apply_pull_ok|].
  destruct (op =s? "$pop"); [by apply apply_pop_ok|by injection 1 as <-].
Qed.

(** Positional updates. *)
Lemma positional_elem_ok op sfx v e e' :
  bson_ok v = true -> bson_ok e = true -> positional_elem op sfx v e = Ok e' -> bson_ok e' = true.
Proof.
  intros Hv He.
  assert (Hdoc : forall f : document -> string -> result document error,
    (forall d s d', doc_ok d = true -> f d s = Ok d' -> doc_ok d' = true) ->
    match sfx, e with
    | Some s, BDocument d => let? d' := f d s in Ok (BDocument d')
    | _, _ => Ok e
    end = Ok e' -> bson_ok e' = true).
  { intros f Hf. destruct sfx as [s|]; [|by injection 1 as <-].
    destruct e as [| | |d| | | | | | | | | | | | | | | | |]; try (by injection 1 as <-).
    destruct (f d s) eqn:Ef; [|done]. injection 1 as <-. by apply (Hf d s). }
  pose proof (fun d s d' (H : doc_ok d = true) => set_value_wf d s v d' H Hv) as Hset.
  unfold positional_elem.
  destruct ((op =s? "$set") || (op =s? "$setOnInsert")).
  { destruct sfx; [apply (Hdoc (fun d s => set_value d s v)), Hset|by injection 1 as <-]. }
  destruct (op =s? "$unset"); [apply (Hdoc unset_value); intros; by eapply unset_value_wf|].
  destruct (op =s? "$inc").
  { destruct sfx; [|by apply add_numbers_ok].
    apply (Hdoc (fun d s => let? n := add_numbers (get_value d s) v in set_value d s n)).
    intros d s' d' Hd. destruct (add_numbers _ v) eqn:E; [|done].
    apply set_value_wf; [done|]. by apply (add_numbers_ok (get_value d s') v). }
  destruct (op =s? "$mul").
  { destruct sfx; [|by apply multiply_numbers_ok].
    apply (Hdoc (fun d s => let? n := multiply_numbers (get_value d s) v in set_value d s n)).
    intros d s' d' Hd. destruct (multiply_numbers _ v) eqn:E; [|done].
    apply set_value_wf; [done|]. by eapply multiply_numbers_ok. }
  destruct (op =s? "$min").
  { eapply Hdoc. intros d s d' Hd. cbv beta zeta.
    destruct (match get_value d s with Some _ => _ | None => _ end);
      [by apply Hset|by injection 1 as <-]. }
  destruct (op =s? "$max"); [|by injection 1 as <-].
  eapply Hdoc. intros d s d' Hd. cbv beta zeta.
  destruct (match get_value d s with Some _ => _ | None => _ end);
    [by apply Hset|by injection 1 as <-].
Qed.

Lemma map_result_In {A A' E} (f : A -> result A' E) l r y :
  map_result f l = Ok r -> In y r -> exists x, In x l /\ f x = Ok y.
Proof.
  revert r. induction l as [|x l IH]; intros r H Hy; simpl in H; [by injection H as <-|].
  destruct (f x) as [z|] eqn:Ef; [|done]. destruct (map_result f l) as [r'|] eqn:Er; [|done].
  injection H as <-. destruct Hy as [<-|Hy]; [exists x; split; [by left|done]|].
  destruct (IH _ eq_refl Hy) as (w & Hw & E1). exists w. split; [by right|done].
Qed.

Lemma apply_positional_operator_ok doc path v op fm doc' :
  doc_ok doc = true -> bson_ok v = true ->
  apply_positional_operator doc path v op fm = Ok doc' -> doc_ok doc' = true.
Proof.
  intros Hd Hv. unfold apply_positional_operator. destruct (position _ _) as [i|]; [|done].
  cbn [ok_or]. set (parts := split_on "." path). cbv zeta.
  destruct (get_value doc _) as [[| |arr| | | | | | | | | | | | | | | | | |]|] eqn:Eg;
    try (by injection 1 as <-).
  destruct (if negb _ && _ then _ else _) as [id|]; [|done].
  destruct (map_result _ arr) as [arr'|] eqn:Em; [|done].
  apply set_array_ok; [done|]. intros x Hx.
  destruct (map_result_In _ _ _ _ Em Hx) as (e & He & E1).
  pose proof (get_array_ok _ _ _ _ Hd Eg He) as Hok.
  match type of E1 with (match ?m with Ok _ => _ | Err _ => _ end) = _ => destruct m as [[]|] end;
    [exact (positional_elem_ok _ _ _ _ _ Hv Hok E1)|by injection E1 as <-|done].
Qed.

Lemma split_positional_ok spec pos nrm :
  doc_ok spec = true -> split_positional_paths spec = (pos, nrm) ->
  doc_ok nrm = true /\ (forall p v, In (p, v) pos -> bson_ok v = true).
Proof.
  rewrite doc_ok_spec. intros [_ Hs]. unfold split_positional_paths.
  assert (H : forall l pos0 nrm0, (forall k v, In (k, v) l -> bson_ok v = true) ->
    doc_ok nrm0 = true -> (forall p v, In (p, v) pos0 -> bson_ok v = true) ->
    fold_left (fun '(positional, normal) '(key, value) =>
      if str_contains "$[" key then (positional ++ [(key, value)], normal)
      else (positional, doc_insert normal key value)) l (pos0, nrm0) = (pos, nrm) ->
    doc_ok nrm = true /\ (forall p v, In (p, v) pos -> bson_ok v = true)).
  { clear Hs spec. induction l as [|[k v] l IH]; intros pos0 nrm0 Hl Hn Hp; cbn [fold_left].
    - injection 1 as <- <-. done.
    - assert (Hv : bson_ok v = true) by (apply (Hl k); by left).
      assert (Hl' : forall k v, In (k, v) l -> bson_ok v = true)
        by (intros k' v' Hin; apply (Hl k'); by right).
      destruct (str_contains "$[" k); apply IH; try done.
      + intros p w [Hin|[[= <- <-]|[]]]%in_app_iff; [by eapply Hp|done].
      + by apply insert_ok. }
  apply H; [done|done|by intros ?? []].
Qed.

Lemma apply_one_operator_ok u up fm doc op doc' :
  clock_ok -> doc_ok u = true -> doc_ok doc = true ->
  apply_one_operator u up fm doc op = Ok doc' -> doc_ok doc' = true.
Proof.
  intros Hc Hu Hd. unfold apply_one_operator.
  destruct (doc_get u op) as [[| | |spec| | | | | | | | | | | | | | | | |]|] eqn:Eg; try done;
    [|by injection 1 as <-].
  pose proof (get_ok _ _ _ Hu Eg) as Hs. change (doc_ok spec = true) in Hs.
  destruct (negb _ && _); [|by apply apply_operator_ok].
  destruct (split_positional_paths spec) as [pos nrm] eqn:Es.
  destruct (split_positional_ok _ _ _ Hs Es) as [Hn Hp].
  destruct (match nrm with [] => _ | _ => _ end) as [d1|] eqn:E1; [|done].
  assert (Hd1 : doc_ok d1 = true).
  { destruct nrm; [by injection E1 as <-|exact (apply_operator_ok _ _ _ _ _ Hc Hd Hn E1)]. }
  apply (fold_result_inv (fun d => doc_ok d = true)); [|done].
  intros d [p v] d' Hin Hd'. apply apply_positional_operator_ok; [done|by eapply Hp].
Qed.

(** *** A single operator *)

Lemma get_single k (v : bson) k' : doc_get [(k, v)] k' = if k =s? k' then Some v else None.
Proof.
  destruct (String.eqb_spec k k') as [<-|Hne].
  - apply get_iter; [|by left]. repeat constructor. by intros [].
  - destruct (doc_get [(k, v)] k') eqn:E; [|done].
    apply get_In in E as [[= ? _]|[]]. done.
Qed.

Lemma apply_update_single doc op spec :
  In op operator_order ->
  apply_update doc [(op, BDocument spec)] = apply_operator doc op spec false.
Proof.
  intros Hin. unfold apply_update, apply_update_impl.
  assert (Hone : forall d o, apply_one_operator [(op, BDocument spec)] false [] d o =
    if op =s? o then apply_operator d o spec false else Ok d).
  { intros d o. unfold apply_one_operator. rewrite get_single. by destruct (op =s? o). }
  cbn [parse_array_filters fold_left]. rewrite (fold_result_ext _ _ _ _ (fun d o _ => Hone d o)).
  unfold operator_order in *. simpl in Hin.
  repeat destruct Hin as [<-|Hin]; try done; cbn -[apply_operator];
    by destruct (apply_operator _ _ _ _).
Qed.

(** *** Insertion of a run of elements *)

Lemma vec_insert_at {A} (p s : list A) x i :
  i = Z.of_nat (length p) -> vec_insert (p ++ s) i x = Ok (p ++ x :: s).
Proof.
  intros ->. unfold vec_insert. rewrite length_app, Nat2Z.id, take_app_length, drop_app_length.
  by rewrite (proj2 (Z.leb_le 0 (Z.of_nat (length p)))), (proj2 (Z.leb_le _ _)) by lia.
Qed.

Lemma insert_run (p s es : list bson) idx k :
  (idx + Z.of_nat k)%Z = Z.of_nat (length p) ->
  fold_result (fun arr '(i, e) => vec_insert arr (idx + Z.of_nat i) e) (p ++ s)
    (combine (seq k (length es)) es) = Ok (p ++ es ++ s).
Proof.
  revert p k. induction es as [|e es IH]; intros p k Hk; [done|]. cbn.
  rewrite vec_insert_at by done.
  replace (p ++ e :: s) with ((p ++ [e]) ++ s) by (by rewrite <- app_assoc).
  rewrite IH; [by rewrite <- app_assoc|]. rewrite length_app. simpl. lia.
Qed.

Lemma push_index_bounds pos len :
  (0 <= len < 2 ^ 63)%Z -> in_i64 pos ->
  push_index pos len = (if pos <? 0 then Z.max 0 (len + pos) else Z.min pos len)%Z.
Proof.
  unfold push_index, in_i64, i64_min, i64_max. intros Hl Hp.
  destruct (Z.ltb_spec pos 0); [|done].
  unfold wrap_u64, wrap_i64, wrap_signed. change (64 - 1)%Z with 63%Z.
  destruct (Z.eq_dec pos (- 2 ^ 63)) as [->|Hne].
  - change ((- - 2 ^ 63 + 2 ^ 63) mod 2 ^ 64 - 2 ^ 63)%Z with (- 2 ^ 63)%Z.
    change ((- 2 ^ 63) mod 2 ^ 64)%Z with (2 ^ 63)%Z. lia.
  - rewrite (Z.mod_small (- pos + 2 ^ 63)) by lia. rewrite Z.mod_small by lia. lia.
Qed.

Lemma push_elements_at mods arr es pos :
  and_then (doc_get mods "$position") int_as_i64 = Some pos -> in_i64 pos ->
  (Z.of_nat (length arr) < 2 ^ 63)%Z ->
  let i := Z.to_nat (if pos <? 0 then Z.max 0 (Z.of_nat (length arr) + pos)
                     else Z.min pos (Z.of_nat (length arr)))%Z in
  push_elements mods arr es = Ok (take i arr ++ es ++ drop i arr).
Proof.
  intros Hpos Hp Hl i. unfold push_elements. rewrite Hpos, push_index_bounds by (done || lia).
  pose proof (insert_run (take i arr) (drop i arr) es
    (if pos <? 0 then Z.max 0 (Z.of_nat (length arr) + pos)
     else Z.min pos (Z.of_nat (length arr)))%Z 0) as H.
  rewrite take_drop in H. apply H. rewrite length_take. subst i. destruct (Z.ltb_spec pos 0); lia.
Qed.

(** *** Setting plain fields *)

Lemma apply_set_plain spec doc :
  List.NoDup (map fst spec) -> forallb (no_char ".") (map fst spec) = true ->
  exists doc', apply_set doc spec = Ok doc' /\
    forall k, doc_get doc' k =
      match find (fun kv => fst kv =s? k) spec with
      | Some (_, v) => Some v
      | None => doc_get doc k
      end.
Proof.
  unfold apply_set. revert doc. induction spec as [|[k0 v0] spec IH]; intros doc Hnd Hpl.
  - by exists doc.
  - simpl in Hnd, Hpl. apply NoDup_cons_iff in Hnd as [Hni Hnd].
    apply andb_true_iff in Hpl as [Hp0 Hpl]. cbn [fold_result].
    rewrite set_value_plain by done.
    destruct (IH (doc_insert doc k0 v0) Hnd Hpl) as (doc' & E & Hget).
    exists doc'. split; [done|]. intros k. rewrite Hget. cbn [find fst].
    destruct (String.eqb_spec k0 k) as [<-|Hne]; [|by rewrite get_insert_ne].
    destruct (find _ spec) as [[k' v']|] eqn:Ef; [|by rewrite get_insert_eq].
    apply find_some in Ef as [Hin Hk]. apply String.eqb_eq in Hk. simpl in Hk. subst k'.
    exfalso. apply Hni, in_map_iff. by exists (k0, v').
Qed.

Lemma find_is_get (spec : document) k :
  List.NoDup (map fst spec) ->
  match find (fun kv => fst kv =s? k) spec with Some (_, v) => Some v | None => None end =
  doc_get spec k.
Proof.
  intros Hnd. destruct (find _ spec) as [[k' v]|] eqn:Ef.
  - apply find_some in Ef as [Hin Hk]. apply String.eqb_eq in Hk. simpl in Hk. subst k'.
    symmetry. by apply get_iter.
  - destruct (doc_get spec k) eqn:Eg; [|done]. apply get_In in Eg.
    pose proof (find_none _ _ Ef _ Eg) as H. simpl in H. by rewrite String.eqb_refl in H.
Qed.

(** *** [$addToSet] *)

Definition distinct (a : list bson) : Prop := ForallOrdPairs (fun x y => bson_eqb x y = false) a.

Lemma distinct_snoc a e : distinct a -> vec_contains a e = false -> distinct (a ++ [e]).
Proof.
  unfold distinct, vec_contains. induction 1 as [|x a Hx Ha IH]; intros H.
  - repeat constructor.
  - simpl in H. apply orb_false_iff in H as [H1 H2]. simpl. constructor; [|by apply IH].
    apply Forall_app. split; [done|]. by constructor.
Qed.

Lemma add_all_spec es a :
  distinct a -> exists added, fold_left add_if_absent es a = a ++ added /\
    distinct (a ++ added) /\
    (forall e, In e es -> bson_eqb e e = true -> vec_contains (a ++ added) e = true).
Proof.
  revert a. induction es as [|e es IH]; intros a Ha; simpl.
  - exists []. rewrite app_nil_r. done.
  - assert (Hstep : exists t, add_if_absent a e = a ++ t /\ distinct (a ++ t) /\
      (bson_eqb e e = true -> vec_contains (a ++ t) e = true)).
    { unfold add_if_absent. destruct (vec_contains a e) eqn:Ec; simpl.
      - exists []. by rewrite app_nil_r.
      - exists [e]. split; [done|]. split; [by apply distinct_snoc|]. intros Hr.
        unfold vec_contains. rewrite existsb_app. simpl. by rewrite Hr, orb_true_r. }
    destruct Hstep as (t & -> & Ht & Hc). destruct (IH _ Ht) as (u & E & Hu & Hall).
    exists (t ++ u). rewrite app_assoc. split; [done|]. split; [done|].
    intros e' [<-|Hin] Hr; [|by apply Hall].
    unfold vec_contains. rewrite existsb_app. apply orb_true_iff. left. by apply Hc.
Qed.
End UpdateLemmas.

(** ** Properties *)

Section UpdateProps.
Context {B : BsonOps} {M : Libm} {G : S2} {T : TextEnv} {X : ExprEngine} {K : Clock}.
Context {L : BsonLaws B}.

(** An update keeps a document well-typed (integers in their
    width, unique keys at every level) through every operator, positional
    paths and array filters included. *)
Theorem apply_update_preserves_types doc update up filters doc' :
  clock_ok -> doc_ok doc = true -> doc_ok update = true ->
  apply_update_impl doc update up filters = Ok doc' -> doc_ok doc' = true.
Proof.
  intros Hc Hd Hu. unfold apply_update_impl. destruct (find _ _); [done|].
  apply (fold_result_inv (fun d => doc_ok d = true)); [|done].
  intros d op d' _ Hd'. by apply apply_one_operator_ok.
Qed.

(** [$set] of top-level fields always succeeds, sets exactly the
    listed fields and leaves every other top-level field alone. *)
Theorem set_updates_exactly doc spec :
  doc_ok spec = true -> forallb (no_char ".") (doc_keys spec) = true ->
  exists doc', apply_update doc [("$set", BDocument spec)] = Ok doc' /\
    forall k, no_char "." k = true ->
      get_value doc' k = match doc_get spec k with Some v => Some v | None => get_value doc k end.
Proof.
  intros [Hnd _]%doc_ok_spec Hpl.
  destruct (apply_set_plain spec doc Hnd Hpl) as (doc' & E & Hget). exists doc'. split.
  - rewrite apply_update_single by (by left). exact E.
  - intros k Hk. rewrite !get_value_plain, Hget by done. rewrite <- (find_is_get spec k Hnd).
    by destruct (find _ spec) as [[]|].
Qed.

(** [$inc] of a 32-bit integer by a 32-bit integer is exact: the
    sum as a 32-bit integer when it fits, and otherwise the sum as a double
    that represents it exactly. *)
Theorem inc_int32_exact doc key n m :
  get_value doc key = Some (BInt32 n) -> in_i32 n -> in_i32 m ->
  exists doc', apply_update doc [("$inc", BDocument [(key, BInt32 m)])] = Ok doc' /\
    get_value doc' key =
    Some (if in_range i32_min i32_max (n + m) then BInt32 (n + m)
          else BDouble (f64_of_Z (n + m))).
Proof.
  intros Hg Hn Hm. rewrite apply_update_single by (simpl; auto 10).
  change (apply_operator doc "$inc" ?s false) with (apply_inc doc s).
  assert (Hadd : add_numbers (Some (BInt32 n)) (BInt32 m) =
    Ok (if in_range i32_min i32_max (n + m) then BInt32 (n + m)
        else BDouble (f64_of_Z (n + m)))).
  { unfold in_i32, i32_min, i32_max in Hn, Hm.
    assert (Hs : small n /\ small m /\ small (n + m) /\ small i32_min /\ small i32_max)
      by (unfold small, i32_min, i32_max; lia).
    destruct Hs as (H1 & H2 & H3 & H4 & H5).
    unfold add_numbers. cbn [bson_to_number ok_or].
    rewrite f64_add_exact, fits_small by done.
    destruct (in_range i32_min i32_max (n + m)) eqn:E; [|done].
    unfold f64_as_i32. rewrite f64_as_int_exact by (done || unfold i32_min, i32_max; lia).
    unfold clamp. unfold in_range in E. do 2 f_equal. lia. }
  unfold apply_inc. cbn [fold_result]. rewrite Hg, Hadd.
  destruct (set_value_total doc key (if in_range i32_min i32_max (n + m) then BInt32 (n + m)
              else BDouble (f64_of_Z (n + m)))) as [doc' E].
  exists doc'. rewrite E. split; [done|]. rewrite get_value_parts. by eapply get_set_parts.
Qed.

(** [$addToSet] with [$each] keeps an array of pairwise
    unequal elements that way, keeps the old elements in place at its front,
    and contains every listed element afterwards (those equal to themselves,
    so not a NaN). *)
Theorem add_to_set_spec doc key a es :
  get_value doc key = Some (BArray a) -> distinct a ->
  exists doc' added,
    apply_update doc
      [("$addToSet", BDocument [(key, BDocument [("$each", BArray es)])])] = Ok doc' /\
    get_value doc' key = Some (BArray (a ++ added)) /\ distinct (a ++ added) /\
    (forall e, In e es -> bson_eqb e e = true -> vec_contains (a ++ added) e = true).
Proof.
  intros Hg Ha. rewrite apply_update_single by (simpl; auto 15).
  change (apply_operator doc "$addToSet" ?s false) with (apply_add_to_set doc s).
  destruct (add_all_spec es a Ha) as (added & E & Hd & Hc).
  destruct (set_value_total doc key (BArray (a ++ added))) as [doc' Es].
  exists doc', added. split; [|split; [|done]].
  - unfold apply_add_to_set. cbn [fold_result]. rewrite Hg, get_single. simpl. by rewrite E, Es.
  - rewrite get_value_parts. by eapply get_set_parts.
Qed.

(** [$push] with [$each] and [$position] inserts the elements as
    one run, in order, at the position counted from the front, or from the
    end when negative, clamped to the array; it never panics. *)
Theorem push_position_inserts doc key a es mods pos :
  get_value doc key = Some (BArray a) ->
  doc_get mods "$each" = Some (BArray es) ->
  doc_get mods "$position" = Some (BInt64 pos) -> in_i64 pos ->
  doc_get mods "$sort" = None -> doc_get mods "$slice" = None ->
  (Z.of_nat (length a) < 2 ^ 63)%Z ->
  let i := Z.to_nat (if pos <? 0 then Z.max 0 (Z.of_nat (length a) + pos)
                     else Z.min pos (Z.of_nat (length a)))%Z in
  exists doc', apply_update doc [("$push", BDocument [(key, BDocument mods)])] = Ok doc' /\
    get_value doc' key = Some (BArray (take i a ++ es ++ drop i a)).
Proof.
  intros Hg He Hp Hpos Hs Hsl Hl i. rewrite apply_update_single by (simpl; auto 15).
  change (apply_operator doc "$push" ?s false) with (apply_push doc s).
  destruct (set_value_total doc key (BArray (take i a ++ es ++ drop i a))) as [doc' Es].
  exists doc'. split; [|rewrite get_value_parts; by eapply get_set_parts].
  unfold apply_push. cbn [fold_result]. rewrite Hg, He.
  rewrite (push_elements_at mods a es pos) by (done || by rewrite Hp).
  unfold push_sort, push_slice. rewrite Hs, Hsl. fold i. by rewrite Es.
Qed.

(** [$push] with [$each] and [$sort: 1] or [-1] leaves the array
    a permutation of the old elements and the new ones, in the order of
    [compare_bson] or its reverse. *)
Theorem push_sort_sorts doc key a es mods d :
  get_value doc key = Some (BArray a) ->
  doc_get mods "$each" = Some (BArray es) -> doc_get mods "$position" = None ->
  doc_get mods "$sort" = Some (BInt32 d) -> doc_get mods "$slice" = None ->
  forallb no_nan (a ++ es) = true ->
  exists doc' a', apply_update doc [("$push", BDocument [(key, BDocument mods)])] = Ok doc' /\
    get_value doc' key = Some (BArray a') /\ Permutation (a ++ es) a' /\
    sorted_by (fun x y => directed d (compare_bson (Some x) (Some y))) a'.
Proof.
  intros Hg He Hp Hs Hsl Hn. rewrite apply_update_single by (simpl; auto 15).
  change (apply_operator doc "$push" ?s false) with (apply_push doc s).
  set (cmp := fun x y => directed d (compare_bson (Some x) (Some y))).
  destruct (set_value_total doc key (BArray (sort_by cmp (a ++ es)))) as [doc' Es].
  exists doc', (sort_by cmp (a ++ es)).
  split; [|split; [rewrite get_value_parts; by eapply get_set_parts|split]].
  - unfold apply_push. cbn [fold_result]. rewrite Hg, He.
    unfold push_elements, push_sort, push_slice. rewrite Hp, Hs, Hsl. cbn [and_then].
    fold cmp. by rewrite Es.
  - apply sort_by_perm.
  - apply (sort_by_sorted (fun b => no_nan b = true)).
    + apply (directed_tp _ (fun a b => compare_bson (Some a) (Some b))), compare_bson_tp.
    + apply List.Forall_forall. by apply forallb_forall.
Qed.

(** [$pull] with a query removes exactly the document elements
    the query matches, in place, keeping the others in order; an element on
    which the query is in error stays. *)
Theorem pull_removes_matches doc key a q (verdict : document -> bool) :
  get_value doc key = Some (BArray a) ->
  (forall d, In (BDocument d) a -> unwrap_or (eval_query d q) false = Ok (verdict d)) ->
  exists doc', apply_update doc [("$pull", BDocument [(key, BDocument q)])] = Ok doc' /\
    get_value doc' key =
    Some (BArray (List.filter
      (fun e => match e with BDocument d => negb (verdict d) | _ => true end) a)).
Proof.
  intros Hg Hv. rewrite apply_update_single by (simpl; auto 15).
  change (apply_operator doc "$pull" ?s false) with (apply_pull doc s).
  set (p := fun e => match e with BDocument d => negb (verdict d) | _ => true end).
  destruct (set_value_total doc key (BArray (List.filter p a))) as [doc' Es].
  exists doc'. split; [|rewrite get_value_parts; by eapply get_set_parts].
  unfold apply_pull. cbn [fold_result]. rewrite Hg.
  rewrite (filter_result_total (pull_keep (BDocument q)) p a); [by rewrite Es|].
  intros x Hx. destruct x; try done. simpl. by rewrite Hv.
Qed.

(** The result of an update depends on the operators and their
    arguments, not on the order in which the update document lists them. *)
Theorem operator_order_irrelevant doc u1 u2 up filters :
  List.NoDup (doc_keys u1) -> List.NoDup (doc_keys u2) ->
  (forall k, doc_get u1 k = doc_get u2 k) -> forallb (starts_with "$") (doc_keys u1) = true ->
  apply_update_impl doc u1 up filters = apply_update_impl doc u2 up filters.
Proof.
  intros N1 N2 Heq H1.
  assert (Hnone : forall u, List.NoDup (doc_keys u) -> (forall k, doc_get u k = doc_get u1 k) ->
    find (fun key => negb (starts_with "$" key)) (doc_keys u) = None).
  { intros u Nu Hu. destruct (find _ (doc_keys u)) as [k|] eqn:Ef; [|done]. exfalso.
    apply find_some in Ef as [Hin Hk]. apply (get_keys u k Nu) in Hin.
    unfold doc_contains in Hin. rewrite Hu in Hin. apply (get_keys u1 k N1) in Hin.
    rewrite forallb_forall in H1. by rewrite (H1 k Hin) in Hk. }
  unfold apply_update_impl. rewrite !Hnone by (done || by intros; rewrite Heq).
  apply fold_result_ext. intros d op _. unfold apply_one_operator. by rewrite Heq.
Qed.

(** *** Positional paths *)

Lemma substring_app s t : String.substring 0 (String.length s) (s ++ t) = s.
Proof.
  induction s as [|c s IH]; [by destruct t|]. rewrite str_app_cons. simpl. by rewrite IH.
Qed.

Lemma str_length_app (s t : string) : String.length (s ++ t) = (String.length s + String.length t)%nat.
Proof. induction s as [|c s IH]; [done|]. rewrite str_app_cons. simpl. by rewrite IH. Qed.

Lemma get_app_end s c : String.get (String.length s) (s ++ String c "") = Some c.
Proof. induction s as [|x s IH]; [done|]. rewrite str_app_cons. exact IH. Qed.

Lemma positional_slice id :
  is_char_boundary ("$[" ++ id ++ "]") 2 = true ->
  str_slice 2 (String.length ("$[" ++ id ++ "]") - 1) ("$[" ++ id ++ "]") = Ok id.
Proof.
  intros Hb. rewrite !str_length_app. cbn [String.length].
  replace (2 + (String.length id + 1) - 1)%nat with (2 + String.length id)%nat by lia.
  assert (He : is_char_boundary ("$[" ++ id ++ "]") (2 + String.length id) = true).
  { unfold is_char_boundary. change ("$[" ++ id ++ "]")%string with
      (String "$" (String "[" (id ++ "]")))%string. simpl String.get.
    by rewrite (get_app_end id "]"). }
  unfold str_slice. rewrite Hb, He. cbn [andb].
  replace (2 + String.length id - 2)%nat with (String.length id) by lia. f_equal.
  change ("$[" ++ id ++ "]")%string with (String "$" (String "[" (id ++ "]")))%string.
  simpl String.substring. apply substring_app.
Qed.

Lemma position_app {A} (p : A -> bool) l x r :
  forallb (fun y => negb (p y)) l = true -> p x = true ->
  position p (l ++ x :: r) = Some (length l).
Proof.
  intros Hl Hx. induction l as [|y l IH]; simpl in *; [by rewrite Hx|].
  apply andb_true_iff in Hl as [Hy%negb_true_iff Hl]. by rewrite Hy, IH.
Qed.

(** Whether an element is updated by a positional path. *)
Definition elem_matches (fm : list (string * document)) (id : string) (elem : bson)
  : result bool error :=
  match filter_map_get fm id, elem with
  | Some f, BDocument e => unwrap_or (eval_query e (rewrite_filter_for_element f id)) false
  | _, _ => Ok false
  end.

(** An update through [prefix.$[id].suffix] keeps the
    length of the array; an element the array filter matches becomes the
    updated element, and every other one is unchanged. *)
Theorem positional_updates_matching doc pre id sfx v op fm a doc' :
  let path := str_join "." (pre ++ ("$[" ++ id ++ "]")%string :: sfx) in
  forallb (no_char ".") (pre ++ ("$[" ++ id ++ "]")%string :: sfx) = true ->
  forallb (fun p => negb (starts_with "$[" p)) pre = true ->
  id <> "" -> is_char_boundary ("$[" ++ id ++ "]") 2 = true ->
  get_value doc (str_join "." pre) = Some (BArray a) ->
  apply_positional_operator doc path v op fm = Ok doc' ->
  exists a', get_value doc' (str_join "." pre) = Some (BArray a') /\ length a' = length a /\
    forall i e, a !! i = Some e -> exists e', a' !! i = Some e' /\
      (elem_matches fm id e = Ok false /\ e' = e \/
       elem_matches fm id e = Ok true /\
       positional_elem op (if (0 <? length sfx)%nat then Some (str_join "." sfx) else None) v e
         = Ok e').
Proof.
  intros path Hpl Hpre Hid Hb Hg. unfold apply_positional_operator, path.
  set (x := ("$[" ++ id ++ "]")%string) in *.
  rewrite split_on_join by (done || by destruct pre).
  assert (Hx : starts_with "$[" x = true) by (by destruct id).
  rewrite position_app by done. cbn [ok_or].
  rewrite nth_middle, take_app_length, length_app, Hg. simpl length.
  replace (drop (length pre + 1) (pre ++ x :: sfx)) with sfx
    by (by rewrite <- drop_drop, drop_app_length).
  replace (length pre + 1 <? length pre + S (length sfx))%nat with (0 <? length sfx)%nat
    by (apply eq_true_iff_eq; rewrite !Nat.ltb_lt; lia).
  assert (Hall : (x =s? "$[]") = false).
  { apply String.eqb_neq. unfold x. intros E. apply (f_equal String.length) in E.
    rewrite !str_length_app in E. destruct id; [done|]. simpl in E. lia. }
  assert (Hlen : (3 <? String.length x)%nat = true).
  { apply Nat.ltb_lt. unfold x. rewrite !str_length_app. destruct id; [done|]. simpl. lia. }
  rewrite Hall, Hlen. cbn [negb andb]. unfold x. rewrite positional_slice by done. fold x.
  cbn [and_then]. intros H.
  match type of H with (match ?m with Ok _ => _ | Err _ => _ end) = _ =>
    destruct m as [a'|] eqn:Em; [|done] end.
  exists a'. split; [rewrite get_value_parts; by eapply get_set_parts|].
  split; [by eapply map_result_length|].
  intros i e Hi. destruct (map_result_lookup _ _ _ Em i e Hi) as (e' & He' & Ef).
  exists e'. split; [done|]. revert Ef. unfold elem_matches.
  destruct (filter_map_get fm id) as [f|]; [|injection 1 as <-; by left].
  destruct e; try (injection 1 as <-; by left).
  destruct (unwrap_or _ false) as [[]|]; [by right|injection 1 as <-; by left|done].
Qed.
End UpdateProps.

(** ** Witnesses *)

Module RefClock.
#[export] Instance clock : Clock := {| now _ := 1700000000000%Z |}.
End RefClock.
#[export] Existing Instance RefClock.clock.

Lemma apply_update_preserves_types_witness :
  doc_ok [("n", BDouble (f64_of_Z 2147483648)); ("d", BDateTime 1700000000000)] = true.
Proof.
  apply (apply_update_preserves_types [("n", BInt32 2147483647)]
    [("$inc", BDocument [("n", BInt32 1)]); ("$currentDate", BDocument [("d", BBoolean true)])]
    false []); [intros i| | |]; vm_compute; reflexivity.
Defined.

Lemma set_updates_exactly_witness :
  exists doc', apply_update [("a", BInt32 1); ("b", BNull)]
                 [("$set", BDocument [("b", BInt32 2); ("c", BInt32 3)])] = Ok doc' /\
    forall k, no_char "." k = true ->
      get_value doc' k = match doc_get [("b", BInt32 2); ("c", BInt32 3)] k with
                         | Some v => Some v
                         | None => get_value [("a", BInt32 1); ("b", BNull)] k
                         end.
Proof.
  apply (set_updates_exactly [("a", BInt32 1); ("b", BNull)] [("b", BInt32 2); ("c", BInt32 3)]);
    reflexivity.
Defined.

Lemma inc_int32_exact_witness :
  exists doc', apply_update [("a", BDocument [("n", BInt32 2147483647)])]
                 [("$inc", BDocument [("a.n", BInt32 1)])] = Ok doc' /\
    get_value doc' "a.n" = Some (BDouble (f64_of_Z 2147483648)).
Proof.
  apply (inc_int32_exact [("a", BDocument [("n", BInt32 2147483647)])] "a.n" 2147483647 1);
    [reflexivity | vm_compute; split; discriminate | vm_compute; split; discriminate].
Defined.

Lemma add_to_set_spec_witness :
  exists doc' added,
    apply_update [("t", BArray [BInt32 1; BString "x"])]
      [("$addToSet", BDocument [("t", BDocument [("$each", BArray [BString "x"; BInt32 7])])])]
      = Ok doc' /\
    get_value doc' "t" = Some (BArray ([BInt32 1; BString "x"] ++ added)) /\
    distinct ([BInt32 1; BString "x"] ++ added) /\
    (forall e, In e [BString "x"; BInt32 7] -> bson_eqb e e = true ->
       vec_contains ([BInt32 1; BString "x"] ++ added) e = true).
Proof.
  apply (add_to_set_spec [("t", BArray [BInt32 1; BString "x"])] "t" [BInt32 1; BString "x"]
           [BString "x"; BInt32 7]); [reflexivity|].
  repeat constructor.
Defined.

Lemma push_position_inserts_witness :
  exists doc', apply_update [("t", BArray [BInt32 1; BInt32 2; BInt32 3])]
      [("$push", BDocument [("t", BDocument [("$each", BArray [BInt32 8; BInt32 9]);
                                             ("$position", BInt64 (-1))])])] = Ok doc' /\
    get_value doc' "t" = Some (BArray [BInt32 1; BInt32 2; BInt32 8; BInt32 9; BInt32 3]).
Proof.
  apply (push_position_inserts [("t", BArray [BInt32 1; BInt32 2; BInt32 3])] "t"
    [BInt32 1; BInt32 2; BInt32 3] [BInt32 8; BInt32 9]
    [("$each", BArray [BInt32 8; BInt32 9]); ("$position", BInt64 (-1))] (-1));
    try reflexivity. vm_compute; split; discriminate.
Defined.

Lemma push_sort_sorts_witness :
  exists doc' a', apply_update [("t", BArray [BInt32 5; BInt32 2])]
      [("$push", BDocument [("t", BDocument [("$each", BArray [BInt32 3]); ("$sort", BInt32 1)])])]
      = Ok doc' /\
    get_value doc' "t" = Some (BArray a') /\ Permutation [BInt32 5; BInt32 2; BInt32 3] a' /\
    sorted_by (fun x y => directed 1 (compare_bson (Some x) (Some y))) a'.
Proof.
  apply (push_sort_sorts [("t", BArray [BInt32 5; BInt32 2])] "t" [BInt32 5; BInt32 2] [BInt32 3]
    [("$each", BArray [BInt32 3]); ("$sort", BInt32 1)] 1); reflexivity.
Defined.

Lemma pull_removes_matches_witness :
  exists doc', apply_update
      [("t", BArray [BDocument [("n", BInt32 1)]; BInt32 4; BDocument [("n", BInt32 2)]])]
      [("$pull", BDocument [("t", BDocument [("n", BInt32 2)])])] = Ok doc' /\
    get_value doc' "t" = Some (BArray [BDocument [("n", BInt32 1)]; BInt32 4]).
Proof.
  destruct (pull_removes_matches
    [("t", BArray [BDocument [("n", BInt32 1)]; BInt32 4; BDocument [("n", BInt32 2)]])] "t"
    [BDocument [("n", BInt32 1)]; BInt32 4; BDocument [("n", BInt32 2)]] [("n", BInt32 2)]
    (fun d => bson_eq (get_value d "n") (Some (BInt32 2)))) as (doc' & H1 & H2).
  - reflexivity.
  - intros d [[= <-]|[[=]|[[= <-]|[]]]]; reflexivity.
  - exists doc'. split; [exact H1|]. rewrite H2. vm_compute. reflexivity.
Defined.

Lemma operator_order_irrelevant_witness :
  apply_update_impl [("a", BInt32 1)]
    [("$inc", BDocument [("a", BInt32 1)]); ("$set", BDocument [("a", BInt32 5)])] false [] =
  apply_update_impl [("a", BInt32 1)]
    [("$set", BDocument [("a", BInt32 5)]); ("$inc", BDocument [("a", BInt32 1)])] false [].
Proof.
  apply (operator_order_irrelevant [("a", BInt32 1)]
    [("$inc", BDocument [("a", BInt32 1)]); ("$set", BDocument [("a", BInt32 5)])]
    [("$set", BDocument [("a", BInt32 5)]); ("$inc", BDocument [("a", BInt32 1)])] false []).
  - apply nodup_str_spec. reflexivity.
  - apply nodup_str_spec. reflexivity.
  - intros k. destruct (decide (k = "$inc")) as [->|H1]; [reflexivity|].
    destruct (decide (k = "$set")) as [->|H2]; [reflexivity|].
    assert (H : forall u, (forall v, ~ In (k, v) u) -> doc_get u k = None).
    { intros u Hu. destruct (doc_get u k) eqn:E; [|reflexivity]. by apply get_In, Hu in E. }
    rewrite !H; [reflexivity| |]; intros v; simpl; intuition congruence.
  - reflexivity.
Defined.

Lemma positional_updates_matching_witness :
  exists a', get_value
      [("g", BArray [BDocument [("s", BInt32 0)]; BDocument [("s", BInt32 9)]])] "g" =
      Some (BArray a') /\ length a' = 2%nat /\
    forall i e, [BDocument [("s", BInt32 5)]; BDocument [("s", BInt32 9)]] !! i = Some e ->
      exists e', a' !! i = Some e' /\
      (elem_matches [("e", [("e.s", BDocument [("$lt", BInt32 6)])])] "e" e = Ok false /\ e' = e \/
       elem_matches [("e", [("e.s", BDocument [("$lt", BInt32 6)])])] "e" e = Ok true /\
       positional_elem "$set" (Some "s") (BInt32 0) e = Ok e').
Proof.
  apply (positional_updates_matching
    [("g", BArray [BDocument [("s", BInt32 5)]; BDocument [("s", BInt32 9)]])]
    ["g"] "e" ["s"] (BInt32 0) "$set" [("e", [("e.s", BDocument [("$lt", BInt32 6)])])]
    [BDocument [("s", BInt32 5)]; BDocument [("s", BInt32 9)]]); try reflexivity. discriminate.
Defined.

(** ** Behaviours worth recording *)

(** [$inc] of a 64-bit integer goes through a double: adding zero to
    [2^53 + 1] changes it. *)
Theorem inc_int64_loses_precision :
  add_numbers (Some (BInt64 9007199254740993)) (BInt32 0) = Ok (BInt64 9007199254740992).
Proof. vm_compute. reflexivity. Qed.

(** An operator the engine does not know is accepted and does nothing. *)
Theorem unknown_operator_is_ignored :
  apply_update [("a", BInt32 1)] [("$bit", BDocument [("a", BDocument [("and", BInt32 0)])])] =
  Ok [("a", BInt32 1)].
Proof. vm_compute. reflexivity. Qed.
