(* ===== verification/BTree.v ===== *)
(** * [BTreeMap] as a sorted association list

    The standard library's ordered map, as the engine uses it: [get],
    [insert], [remove], and iteration in key order.  The comparison of keys
    is a parameter with its laws; it is instantiated with byte strings
    ([Vec<u8>]) and strings. *)

From Stdlib Require Import ZArith Lia Ascii String Strings.Byte Sorted.
From S2P Require Import Prelude F64 Bson.
From stdpp Require Import base tactics list strings.

Open Scope list_scope.

#[export] Instance byte_eq_decision : EqDecision byte := Byte.byte_eq_dec.

(** A key order: total, and equal only on equal keys. *)
Class KeyOrder (K : Type) : Type := {
  key_cmp : K -> K -> comparison;
  key_tp : TotalPreorder (fun _ => True) key_cmp;
  key_eq : forall a b, key_cmp a b = Eq <-> a = b }.

#[export] Instance bytes_order : KeyOrder bytes :=
  {| key_cmp := bytes_cmp; key_tp := bytes_cmp_tp; key_eq := bytes_cmp_eq |}.
#[export] Instance str_order : KeyOrder string :=
  {| key_cmp := str_cmp; key_tp := str_cmp_tp; key_eq := str_cmp_eq |}.

Section BTree.
Context {K : Type} {O : KeyOrder K} {V : Type}.

Fixpoint bt_get (m : list (K * V)) (k : K) : option V :=
  match m with
  | [] => None
  | (k', v) :: m' =>
      match key_cmp k k' with
      | Lt => None
      | Eq => Some v
      | Gt => bt_get m' k
      end
  end.

Fixpoint bt_insert (m : list (K * V)) (k : K) (v : V) : list (K * V) :=
  match m with
  | [] => [(k, v)]
  | (k', v') :: m' =>
      match key_cmp k k' with
      | Lt => (k, v) :: m
      | Eq => (k', v) :: m'
      | Gt => (k', v') :: bt_insert m' k v
      end
  end.

Fixpoint bt_remove (m : list (K * V)) (k : K) : list (K * V) :=
  match m with
  | [] => []
  | (k', v') :: m' =>
      match key_cmp k k' with
      | Lt => m
      | Eq => m'
      | Gt => (k', v') :: bt_remove m' k
      end
  end.

Definition key_lt (a b : K * V) : Prop := key_cmp (fst a) (fst b) = Lt.

(** The invariant of the representation: strictly increasing keys. *)
Definition bt_ok (m : list (K * V)) : Prop := StronglySorted key_lt m.

Lemma key_cmp_refl k : key_cmp k k = Eq.
Proof. by apply key_eq. Qed.

Lemma key_cmp_opp a b : key_cmp b a = CompOpp (key_cmp a b).
Proof. by apply (tp_sym _ _ key_tp). Qed.

Lemma key_lt_trans a b c : key_cmp a b = Lt -> key_cmp b c = Lt -> key_cmp a c = Lt.
Proof.
  intros H1 H2.
  pose proof (tp_trans _ _ key_tp a b c I I I) as T. rewrite H1, H2 in T.
  destruct (key_cmp a c) eqn:E; [|done|by destruct T].
  apply key_eq in E as ->. by rewrite key_cmp_opp, H1 in H2.
Qed.

Lemma bt_nil_ok : bt_ok [].
Proof. constructor. Qed.

Lemma bt_insert_In m k v e : In e (bt_insert m k v) -> e = (k, v) \/ In e m.
Proof.
  induction m as [|[k' v'] m IH]; simpl; [intuition|].
  destruct (key_cmp k k') eqn:E; simpl; [apply key_eq in E as ->| |]; intuition.
Qed.

Lemma bt_remove_In m k e : In e (bt_remove m k) -> In e m.
Proof.
  induction m as [|[k' v'] m IH]; simpl; [done|]. destruct (key_cmp k k'); simpl; intuition.
Qed.

Lemma bt_insert_ok m k v : bt_ok m -> bt_ok (bt_insert m k v).
Proof.
  unfold bt_ok. induction 1 as [|[k' v'] m Hs IH Hf]; simpl; [repeat constructor|].
  rewrite List.Forall_forall in Hf.
  destruct (key_cmp k k') eqn:E.
  - apply key_eq in E as ->. constructor; [done|]. by apply List.Forall_forall.
  - constructor; [constructor; [done|by apply List.Forall_forall]|].
    constructor; [done|]. apply List.Forall_forall. intros [k2 v2] Hin.
    eapply key_lt_trans; [exact E|]. apply (Hf _ Hin).
  - constructor; [done|]. apply List.Forall_forall. intros [k2 v2] Hin.
    apply bt_insert_In in Hin as [[= -> ->]|Hin]; [|by apply Hf].
    unfold key_lt. simpl. by rewrite key_cmp_opp, E.
Qed.

Lemma bt_remove_ok m k : bt_ok m -> bt_ok (bt_remove m k).
Proof.
  unfold bt_ok. induction 1 as [|[k' v'] m Hs IH Hf]; simpl; [constructor|].
  destruct (key_cmp k k'); [done|by constructor|]. constructor; [done|].
  apply List.Forall_forall. intros e Hin%bt_remove_In.
  rewrite List.Forall_forall in Hf. by apply Hf.
Qed.

Lemma bt_get_In m k v : bt_ok m -> bt_get m k = Some v <-> In (k, v) m.
Proof.
  unfold bt_ok. induction 1 as [|[k' v'] m Hs IH Hf]; simpl; [done|].
  rewrite List.Forall_forall in Hf. destruct (key_cmp k k') eqn:E.
  - apply key_eq in E as <-. split; [intros [= ->]; by left|].
    intros [[= ->]|Hin]; [done|]. apply Hf in Hin. unfold key_lt in Hin. simpl in Hin.
    by rewrite key_cmp_refl in Hin.
  - split; [done|]. intros [[= -> ->]|Hin]; [by rewrite key_cmp_refl in E|].
    apply Hf in Hin. unfold key_lt in Hin. simpl in Hin.
    by rewrite key_cmp_opp, E in Hin.
  - rewrite IH. split; [by right|]. intros [[= -> ->]|Hin]; [by rewrite key_cmp_refl in E|done].
Qed.

Lemma bt_get_insert_eq m k v : bt_get (bt_insert m k v) k = Some v.
Proof.
  induction m as [|[k' v'] m IH]; simpl; [by rewrite key_cmp_refl|].
  destruct (key_cmp k k') eqn:E; simpl; rewrite ?E, ?key_cmp_refl; done.
Qed.

Lemma bt_get_insert_ne m k k2 v :
  bt_ok m -> k2 <> k -> bt_get (bt_insert m k v) k2 = bt_get m k2.
Proof.
  intros Hm Hne. apply option_eq. intros w.
  rewrite !bt_get_In by (done || by apply bt_insert_ok).
  split; [intros [[= -> _]|H]%bt_insert_In; done|].
  clear Hm. induction m as [|[k' v'] m IH]; simpl; [done|].
  destruct (key_cmp k k') eqn:E; simpl; try tauto.
  apply key_eq in E as ->. intros [[= -> ->]|H]; [done|by right].
Qed.

Lemma bt_get_remove_eq m k : bt_ok m -> bt_get (bt_remove m k) k = None.
Proof.
  intros Hm. destruct (bt_get _ k) eqn:E; [|done]. exfalso.
  apply bt_get_In in E; [|by apply bt_remove_ok]. revert E.
  unfold bt_ok in Hm. induction Hm as [|[k' v'] m Hs IH Hf]; simpl; [done|].
  rewrite List.Forall_forall in Hf. destruct (key_cmp k k') eqn:E.
  - apply key_eq in E as ->. intros Hin%Hf. unfold key_lt in Hin. simpl in Hin.
    by rewrite key_cmp_refl in Hin.
  - intros [[= -> ->]|Hin]; [by rewrite key_cmp_refl in E|].
    apply Hf in Hin. unfold key_lt in Hin. simpl in Hin. by rewrite key_cmp_opp, E in Hin.
  - intros [[= -> ->]|Hin]; [by rewrite key_cmp_refl in E|by apply IH].
Qed.

Lemma bt_get_remove_ne m k k2 :
  bt_ok m -> k2 <> k -> bt_get (bt_remove m k) k2 = bt_get m k2.
Proof.
  intros Hm Hne. apply option_eq. intros w.
  rewrite !bt_get_In by (done || by apply bt_remove_ok). split; [apply bt_remove_In|].
  clear Hm. induction m as [|[k' v'] m IH]; simpl; [done|].
  destruct (key_cmp k k') eqn:E; simpl; try tauto.
  apply key_eq in E as ->. intros [[= -> ->]|H]; done.
Qed.

Lemma bt_keys_nodup m : bt_ok m -> List.NoDup (map fst m).
Proof.
  unfold bt_ok. induction 1 as [|e m Hm IH Hf]; [constructor|]. cbn. constructor; [|done]. intros Hin.
  apply in_map_iff in Hin as (e' & He & Hin). rewrite List.Forall_forall in Hf. specialize (Hf e' Hin).
  unfold key_lt in Hf. rewrite He in Hf. by rewrite key_cmp_refl in Hf.
Qed.

(** Two maps with the same lookups are the same list. *)
Lemma bt_ext m1 m2 :
  bt_ok m1 -> bt_ok m2 -> (forall k, bt_get m1 k = bt_get m2 k) -> m1 = m2.
Proof.
  unfold bt_ok. intros H1. revert m2. induction H1 as [|[k v] m1 Hs1 IH Hf1]; intros m2 H2 E.
  - destruct m2 as [|[k v] m2]; [done|]. specialize (E k). simpl in E.
    by rewrite key_cmp_refl in E.
  - destruct H2 as [|[k2 v2] m2 Hs2 Hf2].
    { specialize (E k). simpl in E. by rewrite key_cmp_refl in E. }
    assert (k = k2) as <-.
    { pose proof (E k) as Ek. pose proof (E k2) as Ek2. simpl in Ek, Ek2.
      rewrite key_cmp_refl in Ek, Ek2. apply key_eq.
      rewrite (key_cmp_opp k k2) in Ek2. by destruct (key_cmp k k2). }
    pose proof (E k) as Ek. simpl in Ek. rewrite key_cmp_refl in Ek. injection Ek as <-.
    f_equal. apply IH; [done|]. intros x. specialize (E x). simpl in E.
    destruct (key_cmp x k) eqn:Ex; [| |done].
    + apply key_eq in Ex as ->.
      assert (Hn : forall m : list (K * V), Forall (key_lt (k, v)) m ->
        StronglySorted key_lt m -> bt_get m k = None).
      { intros m Hf Hs. destruct (bt_get m k) eqn:Eg; [|done].
        apply bt_get_In in Eg; [|done]. rewrite List.Forall_forall in Hf. apply Hf in Eg.
        unfold key_lt in Eg. simpl in Eg. by rewrite key_cmp_refl in Eg. }
      by rewrite !Hn.
    + assert (Hn : forall m : list (K * V), Forall (key_lt (k, v)) m ->
        StronglySorted key_lt m -> bt_get m x = None).
      { intros m Hf Hs. destruct (bt_get m x) eqn:Eg; [|done].
        apply bt_get_In in Eg; [|done]. rewrite List.Forall_forall in Hf. apply Hf in Eg.
        unfold key_lt in Eg. simpl in Eg. by rewrite key_cmp_opp, Ex in Eg. }
      by rewrite !Hn.
Qed.
End BTree.

Create HintDb btree.
#[export] Hint Resolve bt_nil_ok bt_insert_ok bt_remove_ok : btree.
