(* ===== verification/Storage.v ===== *)
(** * The in-memory storage backend

    [src/rust/smongo-engine/src/storage/mod.rs] (the error type and the
    contract of the three traits) and [storage/memory.rs].  The tables, shared
    by every session and cursor behind one mutex, are the explicit state
    [store]; a cursor is its own record.  Every method locks the mutex for its
    whole body, so an interleaving of methods of several cursors is a sequence
    of these operations; the lock is never poisoned, since no code that can
    panic runs under it. *)

From Stdlib Require Import ZArith Lia Ascii String Strings.Byte Sorted.
From S2P Require Import Prelude F64 Bson BTree.
From stdpp Require Import base tactics relations list strings.

Open Scope string_scope.
Open Scope list_scope.

(** ** Errors *)

(** Source: storage/mod.rs:31-35 (StorageError). *)
Inductive StorageError : Type :=
| NotFound (msg : string)
| DuplicateKey (msg : string)
| Other (msg : string).

(** Source: storage/mod.rs:38-44 (StorageError::fmt). *)
Definition storage_error_display (e : StorageError) : string :=
  match e with
  | NotFound msg => "Storage error: not found: " ++ msg
  | DuplicateKey msg => "Storage error: duplicate key: " ++ msg
  | Other msg => "Storage error: " ++ msg
  end.

(** ** UTF-8 *)

(** A continuation byte. *)
Definition utf8_cont (b : byte) : bool :=
  let n := Byte.to_N b in ((128 <=? n) && (n <=? 191))%N.

(** The sequences [String::from_utf8] accepts: no overlong form, no surrogate,
    nothing above U+10FFFF. *)
Fixpoint utf8_valid (l : bytes) : bool :=
  match l with
  | [] => true
  | b0 :: r =>
      let n := Byte.to_N b0 in
      if (n <? 128)%N then utf8_valid r
      else if ((194 <=? n) && (n <=? 223))%N then
        match r with
        | b1 :: r1 => utf8_cont b1 && utf8_valid r1
        | _ => false
        end
      else if ((224 <=? n) && (n <=? 239))%N then
        match r with
        | b1 :: b2 :: r2 =>
            let n1 := Byte.to_N b1 in
            utf8_cont b1 && utf8_cont b2 &&
            negb ((n =? 224) && (n1 <? 160))%N && negb ((n =? 237) && (159 <? n1))%N &&
            utf8_valid r2
        | _ => false
        end
      else if ((240 <=? n) && (n <=? 244))%N then
        match r with
        | b1 :: b2 :: b3 :: r3 =>
            let n1 := Byte.to_N b1 in
            utf8_cont b1 && utf8_cont b2 && utf8_cont b3 &&
            negb ((n =? 240) && (n1 <? 144))%N && negb ((n =? 244) && (143 <? n1))%N &&
            utf8_valid r3
        | _ => false
        end
      else false
  end.

(** [TableStore], and the map of tables behind the mutex of [MemBackend]. *)
Abbreviation TableStore := (list (bytes * bytes)).
Abbreviation store := (list (string * TableStore)).

Section Storage.
(** The [Display] of a [FromUtf8Error]. *)
Context (utf8_error : bytes -> string).

Definition from_utf8 (b : bytes) (what : string) : result string StorageError :=
  if utf8_valid b then Ok (string_of_list_byte b)
  else Err (Other (what ++ " not UTF-8: " ++ utf8_error b)%string).

(** ** Tables and sessions *)

(** Source: storage/memory.rs:28-32 (MemBackend::new). *)
Definition mem_backend_new : store := [].

(** Source: storage/memory.rs:54-57 (MemBackend::list_tables). *)
Definition list_tables (s : store) : list string := map fst s.

(** Source: storage/memory.rs:71-75 (MemSession::create_table). *)
Definition create_table (s : store) (name : string) : store :=
  match bt_get s name with Some _ => s | None => bt_insert s name [] end.

(** Source: storage/memory.rs:77-81 (MemSession::drop_table). *)
Definition drop_table (s : store) (name : string) : store := bt_remove s name.

(** Source: storage/memory.rs:109-116 (MemSession::rename_table). *)
Definition rename_table (s : store) (from to : string) : store * result unit StorageError :=
  match bt_get s from with
  | None => (s, Err (NotFound ("table " ++ from ++ " does not exist")%string))
  | Some data => (bt_insert (bt_remove s from) to data, Ok tt)
  end.

(** Source: storage/memory.rs:96-98 (MemSession::in_transaction). Transactions
    do nothing. *)
Definition in_transaction (s : store) : bool := false.

(** Source: storage/memory.rs:99-101 (MemSession::begin_transaction). *)
Definition begin_transaction (s : store) : store * result unit StorageError := (s, Ok tt).

(** Source: storage/memory.rs:102-104 (MemSession::commit_transaction). *)
Definition commit_transaction (s : store) : store * result unit StorageError := (s, Ok tt).

(** Source: storage/memory.rs:105-107 (MemSession::rollback_transaction). *)
Definition rollback_transaction (s : store) : store * result unit StorageError := (s, Ok tt).

(** ** Cursors *)

(** Source: storage/memory.rs:129-141 (MemCursor). *)
Record MemCursor : Type := {
  table_name : string;
  entries : option TableStore;
  position : option nat;
  current_key : option bytes;
  current_value : option bytes;
  pending_key : option bytes;
  pending_value : option bytes }.

(** Source: storage/memory.rs:83-94 (MemSession::open_cursor). *)
Definition open_cursor (name : string) : MemCursor :=
  {| table_name := name; entries := None; position := None; current_key := None;
     current_value := None; pending_key := None; pending_value := None |}.

(** Source: storage/memory.rs:144-156 (MemCursor::materialize). *)
Definition materialize (s : store) (c : MemCursor) : MemCursor :=
  match entries c with
  | Some _ => c
  | None =>
      let rows := match bt_get s (table_name c) with Some t => t | None => [] end in
      {| table_name := table_name c; entries := Some rows; position := None;
         current_key := current_key c; current_value := current_value c;
         pending_key := pending_key c; pending_value := pending_value c |}
  end.

(** Source: storage/memory.rs:158-164 (MemCursor::effective_key). *)
Definition effective_key (c : MemCursor) : result bytes StorageError :=
  ok_or (opt_or (pending_key c) (current_key c)) (Other "no key set on cursor").

(** Source: storage/memory.rs:166-172 (MemCursor::effective_value). *)
Definition effective_value (c : MemCursor) : result bytes StorageError :=
  ok_or (opt_or (pending_value c) (current_value c)) (Other "no value set on cursor").

(** Source: storage/memory.rs:186-188 (MemCursor::set_key_raw). *)
Definition set_key_raw (c : MemCursor) (data : bytes) : MemCursor :=
  {| table_name := table_name c; entries := entries c; position := position c;
     current_key := current_key c; current_value := current_value c;
     pending_key := Some data; pending_value := pending_value c |}.

(** Source: storage/memory.rs:176-178 (MemCursor::set_key_str). *)
Definition set_key_str (c : MemCursor) (key : string) : MemCursor := set_key_raw c (as_bytes key).

(** Source: storage/memory.rs:206-208 (MemCursor::set_value_raw). *)
Definition set_value_raw (c : MemCursor) (data : bytes) : MemCursor :=
  {| table_name := table_name c; entries := entries c; position := position c;
     current_key := current_key c; current_value := current_value c;
     pending_key := pending_key c; pending_value := Some data |}.

(** Source: storage/memory.rs:195-197 (MemCursor::set_value_str). *)
Definition set_value_str (c : MemCursor) (value : string) : MemCursor :=
  set_value_raw c (as_bytes value).

(** Source: storage/memory.rs:189-193 (MemCursor::get_key_raw). *)
Definition get_key_raw (c : MemCursor) : result bytes StorageError :=
  ok_or (current_key c) (NotFound "cursor not positioned").

(** Source: storage/memory.rs:179-185 (MemCursor::get_key_str). *)
Definition get_key_str (c : MemCursor) : result string StorageError :=
  let? b := get_key_raw c in from_utf8 b "key".

(** Source: storage/memory.rs:209-213 (MemCursor::get_value_raw). *)
Definition get_value_raw (c : MemCursor) : result bytes StorageError :=
  ok_or (current_value c) (NotFound "cursor not positioned").

(** Source: storage/memory.rs:198-205 (MemCursor::get_value_str). *)
Definition get_value_str (c : MemCursor) : result string StorageError :=
  let? b := get_value_raw c in from_utf8 b "value".

Definition set_current (c : MemCursor) (key value : bytes) : MemCursor :=
  {| table_name := table_name c; entries := entries c; position := position c;
     current_key := Some key; current_value := Some value;
     pending_key := pending_key c; pending_value := pending_value c |}.

(** Source: storage/memory.rs:215-229 (MemCursor::search). *)
Definition search (s : store) (c : MemCursor) : MemCursor * result unit StorageError :=
  match effective_key c with
  | Err e => (c, Err e)
  | Ok key =>
      match bt_get s (table_name c) with
      | None => (c, Err (NotFound "table does not exist"))
      | Some table =>
          match bt_get table key with
          | Some v => (set_current c key v, Ok tt)
          | None => (c, Err (NotFound "key not found"))
          end
      end
  end.

(** Position the cursor on entry [i] of its rows. *)
Definition position_at (c : MemCursor) (i : nat) (e : bytes * bytes) : MemCursor :=
  {| table_name := table_name c; entries := entries c; position := Some i;
     current_key := Some (fst e); current_value := Some (snd e);
     pending_key := pending_key c; pending_value := pending_value c |}.

Definition clear_entries (c : MemCursor) : MemCursor :=
  {| table_name := table_name c; entries := None; position := position c;
     current_key := current_key c; current_value := current_value c;
     pending_key := pending_key c; pending_value := pending_value c |}.

(** [entries[i]]; the out-of-range branch stands for the panic and is not
    reached ([search_near_spec]). *)
Definition at_entry (c : MemCursor) (rows : TableStore) (i : nat) (r : Z)
  : MemCursor * result Z StorageError :=
  match rows !! i with
  | Some e => (position_at c i e, Ok r)
  | None => (c, Err (Other "index out of bounds"))
  end.

(** Source: storage/memory.rs:231-268 (MemCursor::search_near). *)
Definition search_near (s : store) (c : MemCursor) : MemCursor * result Z StorageError :=
  let c := materialize s (clear_entries c) in
  match effective_key c with
  | Err e => (c, Err e)
  | Ok seek =>
      match entries c with
      | None => (c, Err (Other "not materialized"))
      | Some [] => (c, Err (NotFound "table is empty"))
      | Some rows =>
          match binary_search_by (fun kv => bytes_cmp (fst kv) seek) rows with
          | Ok idx => at_entry c rows idx 0
          | Err idx =>
              if (idx <? length rows)%nat then at_entry c rows idx 1
              else if (0 <? idx)%nat then at_entry c rows (idx - 1) (-1)
              else (c, Err (NotFound "no entries near key"))
          end
      end
  end.

(** Source: storage/memory.rs:270-288 (MemCursor::next). *)
Definition next (s : store) (c : MemCursor) : MemCursor * result unit StorageError :=
  let c := materialize s c in
  match entries c with
  | None => (c, Err (Other "not materialized"))
  | Some rows =>
      let next_pos := match position c with Some p => (p + 1)%nat | None => 0%nat end in
      match rows !! next_pos with
      | None => (c, Err (NotFound "end of cursor"))
      | Some e =>
          ({| table_name := table_name c; entries := entries c; position := Some next_pos;
              current_key := Some (fst e); current_value := Some (snd e);
              pending_key := Some (fst e); pending_value := pending_value c |}, Ok tt)
      end
  end.

(** Source: storage/memory.rs:290-297 (MemCursor::insert). *)
Definition insert (s : store) (c : MemCursor) : store * result unit StorageError :=
  match effective_key c with
  | Err e => (s, Err e)
  | Ok key =>
      match effective_value c with
      | Err e => (s, Err e)
      | Ok value =>
          let table := match bt_get s (table_name c) with Some t => t | None => [] end in
          (bt_insert s (table_name c) (bt_insert table key value), Ok tt)
      end
  end.

(** Source: storage/memory.rs:299-301 (MemCursor::update). *)
Definition update (s : store) (c : MemCursor) : store * result unit StorageError := insert s c.

(** Source: storage/memory.rs:303-310 (MemCursor::remove). *)
Definition remove (s : store) (c : MemCursor) : store * result unit StorageError :=
  match effective_key c with
  | Err e => (s, Err e)
  | Ok key =>
      match bt_get s (table_name c) with
      | Some table => (bt_insert s (table_name c) (bt_remove table key), Ok tt)
      | None => (s, Ok tt)
      end
  end.

(** Source: storage/memory.rs:312-320 (MemCursor::reset). *)
Definition reset (c : MemCursor) : MemCursor := open_cursor (table_name c).

End Storage.

(** ** The invariant and the abstract tables *)

(** Every map of the store is strictly sorted. *)
Definition store_ok (s : store) : Prop :=
  bt_ok s /\ forall name t, bt_get s name = Some t -> bt_ok t.

(** What a store denotes: a partial function from table and key to value. *)
Definition tbl_get (s : store) (name : string) (k : bytes) : option bytes :=
  and_then (bt_get s name) (fun t => bt_get t k).

(** One change of the shared store by some session or cursor. *)
Inductive step : store -> store -> Prop :=
| step_create s name : step s (create_table s name)
| step_drop s name : step s (drop_table s name)
| step_rename s from to : step s (fst (rename_table s from to))
| step_insert s c : step s (fst (insert s c))
| step_update s c : step s (fst (update s c))
| step_remove s c : step s (fst (remove s c)).

Lemma table_or_empty_ok s name :
  store_ok s -> bt_ok (match bt_get s name with Some t => t | None => [] end).
Proof. intros [_ H]. destruct (bt_get s name) eqn:E; [by eapply H|apply bt_nil_ok]. Qed.

Lemma put_table_ok s name t : store_ok s -> bt_ok t -> store_ok (bt_insert s name t).
Proof.
  intros [Hs Ht] Hok. split; [by apply bt_insert_ok|]. intros n t' Hg.
  destruct (decide (n = name)) as [->|Hne].
  - rewrite bt_get_insert_eq in Hg. by injection Hg as <-.
  - rewrite bt_get_insert_ne in Hg by done. by eapply Ht.
Qed.

Lemma remove_table_ok s name : store_ok s -> store_ok (bt_remove s name).
Proof.
  intros [Hs Ht]. split; [by apply bt_remove_ok|]. intros n t Hg.
  destruct (decide (n = name)) as [->|Hne]; [by rewrite bt_get_remove_eq in Hg|].
  rewrite bt_get_remove_ne in Hg by done. by eapply Ht.
Qed.

Lemma store_insert_ok s c : store_ok s -> store_ok (fst (insert s c)).
Proof.
  intros H. unfold insert. destruct (effective_key c); [|done].
  destruct (effective_value c); [|done]. apply put_table_ok; [done|].
  apply bt_insert_ok. by apply table_or_empty_ok.
Qed.

Lemma step_ok s s' : step s s' -> store_ok s -> store_ok s'.
Proof.
  intros Hst Hs. destruct Hst as [s n|s n|s f t|s c|s c|s c].
  - unfold create_table. destruct (bt_get s n); [done|]. by apply put_table_ok; [|apply bt_nil_ok].
  - by apply remove_table_ok.
  - unfold rename_table. destruct (bt_get s f) eqn:E; [|done]. simpl.
    apply put_table_ok; [by apply remove_table_ok|]. destruct Hs as [_ Ht]. by eapply Ht.
  - by apply store_insert_ok.
  - by apply store_insert_ok.
  - unfold remove. destruct (effective_key c); [|done].
    destruct (bt_get s (table_name c)) eqn:E; [|done]. simpl. apply put_table_ok; [done|].
    apply bt_remove_ok. destruct Hs as [_ Ht]. by eapply Ht.
Qed.

Lemma tbl_get_put s name t n k :
  store_ok s ->
  tbl_get (bt_insert s name t) n k = if decide (n = name) then bt_get t k else tbl_get s n k.
Proof.
  intros [Hs _]. unfold tbl_get. case_decide as Hd.
  - subst. by rewrite bt_get_insert_eq.
  - by rewrite bt_get_insert_ne.
Qed.

(** ** Properties *)

(** In every store reachable from the empty one by any
    interleaving of the operations of sessions and cursors, the map of tables
    and every table are strictly sorted by key. *)
Theorem reachable_store_ok s : rtc step mem_backend_new s -> store_ok s.
Proof.
  intros H. assert (H0 : store_ok mem_backend_new) by (split; [apply bt_nil_ok|done]).
  induction H as [|s1 s2 s3 Hst _ IH]; [done|]. apply IH. by eapply step_ok.
Qed.

(** What a cursor whose key is [k] (and value [v]) changes. *)
Lemma insert_get s c k v n k2 :
  store_ok s -> effective_key c = Ok k -> effective_value c = Ok v ->
  snd (insert s c) = Ok tt /\
  tbl_get (fst (insert s c)) n k2 =
    (if decide (n = table_name c /\ k2 = k) then Some v else tbl_get s n k2).
Proof.
  intros Hs Hk Hv. unfold insert. rewrite Hk, Hv. cbn [fst snd]. split; [done|].
  assert (Ht := table_or_empty_ok s (table_name c) Hs). rewrite tbl_get_put by done.
  destruct (decide (n = table_name c /\ k2 = k)) as [[-> ->]|Hd].
  - rewrite decide_True by done. apply bt_get_insert_eq.
  - destruct (decide (n = table_name c)) as [->|]; [|done].
    rewrite bt_get_insert_ne by naive_solver. unfold tbl_get. by destruct (bt_get s (table_name c)).
Qed.

Lemma remove_get s c k n k2 :
  store_ok s -> effective_key c = Ok k ->
  snd (remove s c) = Ok tt /\
  tbl_get (fst (remove s c)) n k2 =
    (if decide (n = table_name c /\ k2 = k) then None else tbl_get s n k2).
Proof.
  intros Hs Hk. assert (Ht := table_or_empty_ok s (table_name c) Hs). unfold remove. rewrite Hk.
  destruct (bt_get s (table_name c)) as [t|] eqn:E; cbn [fst snd]; (split; [done|]).
  - rewrite tbl_get_put by done. destruct (decide (n = table_name c /\ k2 = k)) as [[-> ->]|Hd].
    + rewrite decide_True by done. by apply bt_get_remove_eq.
    + destruct (decide (n = table_name c)) as [->|]; [|done].
      rewrite bt_get_remove_ne by naive_solver. unfold tbl_get. by rewrite E.
  - destruct (decide (n = table_name c /\ k2 = k)) as [[-> ->]|Hd]; [|done].
    unfold tbl_get. by rewrite E.
Qed.

Lemma store_remove_ok s c : store_ok s -> store_ok (fst (remove s c)).
Proof. intros H. apply (step_ok s); [constructor|done]. Qed.

(** C10: [insert] and [remove] refine the update and the deletion of a
    partial map: exactly the entry of the cursor's table and key changes. *)
Theorem write_refines_map s c k v n k2 :
  store_ok s ->
  let c1 := set_value_raw (set_key_raw c k) v in
  snd (insert s c1) = Ok tt /\
  tbl_get (fst (insert s c1)) n k2 =
    (if decide (n = table_name c /\ k2 = k) then Some v else tbl_get s n k2) /\
  snd (remove s c1) = Ok tt /\
  tbl_get (fst (remove s c1)) n k2 =
    (if decide (n = table_name c /\ k2 = k) then None else tbl_get s n k2).
Proof.
  intros Hs c1. destruct (insert_get s c1 k v n k2 Hs eq_refl eq_refl) as [H1 H2].
  destruct (remove_get s c1 k n k2 Hs eq_refl) as [H3 H4]. done.
Qed.

(** [search] on any cursor reads what the map holds under its
    key: the value when there is one (so a value just written by another
    cursor), an error otherwise. *)
Theorem search_reads_map s c k :
  match tbl_get s (table_name c) k with
  | Some v => snd (search s (set_key_raw c k)) = Ok tt /\
              get_key_raw (fst (search s (set_key_raw c k))) = Ok k /\
              get_value_raw (fst (search s (set_key_raw c k))) = Ok v
  | None => exists msg, search s (set_key_raw c k) = (set_key_raw c k, Err (NotFound msg))
  end.
Proof.
  unfold tbl_get, search. simpl. destruct (bt_get s (table_name c)) as [t|]; [|by eexists].
  simpl. destruct (bt_get t k); [done|by eexists].
Qed.

Lemma sorted_lookup_lt (t : TableStore) i j x y :
  bt_ok t -> t !! i = Some x -> t !! j = Some y -> (i < j)%nat -> bytes_cmp (fst x) (fst y) = Lt.
Proof.
  intros Hs. revert i j. induction Hs as [|z l Hs IH Hf]; intros i j Hi Hj Hij; [done|].
  destruct i as [|i], j as [|j]; simpl in *; try lia.
  - injection Hi as <-. by eapply Forall_lookup_1 in Hf.
  - apply (IH i j); [done|done|lia].
Qed.

Lemma rows_probe_sorted (t : TableStore) seek :
  bt_ok t -> probe_sorted (fun kv => bytes_cmp (fst kv) seek) t.
Proof.
  intros Hs i j x y Hij Hi Hj.
  destruct (decide (i = j)) as [->|Hne]; [rewrite Hi in Hj; by injection Hj as ->|].
  assert (Hxy : bytes_cmp (fst x) (fst y) = Lt) by (apply (sorted_lookup_lt t i j); [done..|lia]).
  destruct (bytes_cmp (fst x) seek) eqn:Ex; simpl; [|lia|].
  - apply bytes_cmp_eq in Ex. rewrite <- Ex, bytes_cmp_sym, Hxy. simpl. lia.
  - assert (bytes_cmp (fst y) seek = Gt) as ->; [|done].
    rewrite bytes_cmp_sym in Ex. destruct (bytes_cmp seek (fst x)) eqn:E2; try done.
    rewrite bytes_cmp_sym. by rewrite (bytes_cmp_trans_lt seek (fst x) (fst y)).
Qed.

(** Among the keys of a table, the least one above [seek], or the greatest one. *)
Definition near (s : store) (name : string) (seek : bytes) (r : Z) (k : bytes) : Prop :=
  (r = 0%Z /\ k = seek) \/
  (r = 1%Z /\ tbl_get s name seek = None /\ bytes_cmp seek k = Lt /\
   forall k2 v2, tbl_get s name k2 = Some v2 -> bytes_cmp seek k2 = Lt -> bytes_cmp k k2 <> Gt) \/
  (r = (-1)%Z /\ bytes_cmp k seek = Lt /\
   forall k2 v2, tbl_get s name k2 = Some v2 -> bytes_cmp k2 k <> Gt).

Lemma sorted_lookup_le (t : TableStore) i j x y :
  bt_ok t -> t !! i = Some x -> t !! j = Some y -> (i <= j)%nat -> bytes_cmp (fst x) (fst y) <> Gt.
Proof.
  intros Hs Hi Hj Hij. pose proof (rows_probe_sorted t (fst y) Hs i j x y Hij Hi Hj) as H.
  cbv beta in H. rewrite (proj2 (bytes_cmp_eq (fst y) (fst y)) eq_refl) in H.
  destruct (bytes_cmp (fst x) (fst y)); simpl in H; try done. lia.
Qed.

Lemma at_entry_lt c (rows : TableStore) i r :
  (i < length rows)%nat ->
  exists e, rows !! i = Some e /\ at_entry c rows i r = (position_at c i e, Ok r).
Proof.
  intros Hi. destruct (lookup_lt_is_Some_2 rows i Hi) as [e He]. exists e.
  unfold at_entry. by rewrite He.
Qed.

(** A key strictly between two neighbours of a sorted table is not in it. *)
Lemma gap_absent (t : TableStore) seek i v :
  (forall j x, (j < i)%nat -> t !! j = Some x -> bytes_cmp (fst x) seek = Lt) ->
  (forall j x, (i <= j)%nat -> t !! j = Some x -> bytes_cmp (fst x) seek = Gt) ->
  ~ In (seek, v) t.
Proof.
  intros Hlt Hgt Hin. apply list_elem_of_In, list_elem_of_lookup in Hin as [j Hj].
  assert (Hr : bytes_cmp seek seek = Eq) by (by apply bytes_cmp_eq).
  destruct (Nat.lt_ge_cases j i) as [H|H];
    [pose proof (Hlt j _ H Hj) as X|pose proof (Hgt j _ H Hj) as X]; simpl in X; congruence.
Qed.

(** The rows of a table; none when it does not exist. *)
Definition table_rows (s : store) (name : string) : TableStore :=
  match bt_get s name with Some t => t | None => [] end.

(** Where [search_near] lands: on the key itself, on the first key above it, or
    on the last row when every key is below. *)
Definition landing (rows : TableStore) (seek : bytes) (i : nat) (k : bytes) (r : Z) : Prop :=
  (r = 0%Z /\ k = seek) \/
  (r = 1%Z /\ (forall j x, (j < i)%nat -> rows !! j = Some x -> bytes_cmp (fst x) seek = Lt) /\
   (forall j x, (i <= j)%nat -> rows !! j = Some x -> bytes_cmp (fst x) seek = Gt)) \/
  (r = (-1)%Z /\ S i = length rows /\
   forall j x, rows !! j = Some x -> bytes_cmp (fst x) seek = Lt).

Lemma search_near_index s c seek :
  let rows := table_rows s (table_name c) in
  store_ok s -> rows <> [] ->
  exists i e r, rows !! i = Some e /\ landing rows seek i (fst e) r /\
    search_near s (set_key_raw c seek) =
      (position_at (materialize s (clear_entries (set_key_raw c seek))) i e, Ok r).
Proof.
  intros rows Hs Hne. assert (Ht : bt_ok rows) by (by apply table_or_empty_ok).
  pose proof (binary_search_by_spec _ rows (rows_probe_sorted rows seek Ht)) as Hbs.
  unfold search_near. set (c1 := materialize s (clear_entries (set_key_raw c seek))).
  change (effective_key c1) with (Ok (A:=bytes) (E:=StorageError) seek).
  change (entries c1) with (Some rows). cbv iota.
  destruct rows as [|e0 rows0]; [done|]. set (rows := e0 :: rows0) in *.
  destruct (binary_search_by _ rows) as [i|i].
  - destruct Hbs as (e & He & Ec). apply bytes_cmp_eq in Ec.
    exists i, e, 0%Z. split; [done|]. split; [by left|]. unfold at_entry. by rewrite He.
  - destruct Hbs as (Hle & Hlt & Hgt). destruct (Nat.ltb_spec i (length rows)) as [Hi|Hi].
    + destruct (at_entry_lt c1 rows i 1%Z Hi) as (e & He & ->). exists i, e, 1%Z.
      split; [done|]. split; [|done]. right; left. done.
    + assert (Hp : (0 < i)%nat) by (subst rows; simpl in *; lia).
      rewrite (proj2 (Nat.ltb_lt 0 i) Hp).
      destruct (at_entry_lt c1 rows (i - 1) (-1)%Z ltac:(lia)) as (e & He & ->).
      exists (i - 1)%nat, e, (-1)%Z. split; [done|]. split; [|done]. right; right.
      split; [done|]. split; [lia|]. intros j x Hj. pose proof (lookup_lt_Some _ _ _ Hj).
      apply (Hlt j); [lia|done].
Qed.

(** [search_near] on a non-empty table positions the cursor on an
    entry of the table and says how it compares: 0 for the key itself, 1 for
    the least greater key when the key is absent, -1 for the greatest key when
    every key is smaller. *)
Theorem search_near_spec s c seek t :
  store_ok s -> bt_get s (table_name c) = Some t -> t <> [] ->
  exists c' r k v, search_near s (set_key_raw c seek) = (c', Ok r) /\
    get_key_raw c' = Ok k /\ get_value_raw c' = Ok v /\
    tbl_get s (table_name c) k = Some v /\ near s (table_name c) seek r k.
Proof.
  intros Hs Hg Hne. assert (Hr : table_rows s (table_name c) = t) by (unfold table_rows; by rewrite Hg).
  assert (Ht : bt_ok t) by (destruct Hs as [_ H]; by eapply H).
  destruct (search_near_index s c seek Hs) as (i & e & r & He & Hland & ->); rewrite Hr in *; [done|].
  assert (Hget : forall k v, tbl_get s (table_name c) k = Some v <-> In (k, v) t).
  { intros k v. unfold tbl_get. rewrite Hg. simpl. by apply bt_get_In. }
  assert (Hin : In (fst e, snd e) t)
    by (destruct e; apply list_elem_of_In; by eapply list_elem_of_lookup_2).
  eexists _, r, (fst e), (snd e). split; [done|]. split; [done|]. split; [done|].
  split; [by apply Hget|]. unfold near.
  destruct Hland as [[-> ->]|[(-> & Hlt & Hgt)|(-> & Hlast & Hlt)]]; [by left|right; left|right; right].
  - split; [done|]. split.
    { destruct (tbl_get s _ seek) as [v|] eqn:E; [|done]. apply Hget in E.
      by destruct (gap_absent t seek i v Hlt Hgt). }
    split; [rewrite bytes_cmp_sym; by rewrite (Hgt i e ltac:(lia) He)|].
    intros k2 v2 Hk2 Hs2. apply Hget, list_elem_of_In, list_elem_of_lookup in Hk2 as [j Hj].
    apply (sorted_lookup_le t i j e (k2, v2) Ht He Hj).
    destruct (Nat.lt_ge_cases j i) as [H|H]; [|done]. pose proof (Hlt j _ H Hj) as X.
    simpl in X. by rewrite bytes_cmp_sym, X in Hs2.
  - split; [done|]. split; [by apply (Hlt i)|].
    intros k2 v2 Hk2. apply Hget, list_elem_of_In, list_elem_of_lookup in Hk2 as [j Hj].
    apply (sorted_lookup_le t j i (k2, v2) e Ht Hj He). apply lookup_lt_Some in Hj. lia.
Qed.

(** Calls [next] once per store of the list, the store as it is at that
    moment, and collects what the cursor reads. *)
Fixpoint scan (stores : list store) (c : MemCursor) : list (result (bytes * bytes) StorageError) :=
  match stores with
  | [] => []
  | s :: stores' =>
      let '(c', r) := next s c in
      (let? _ := r in let? k := get_key_raw c' in let? v := get_value_raw c' in Ok (k, v))
      :: scan stores' c'
  end.

(** The rows still to come, then the end of the cursor. *)
Definition upcoming (rows : TableStore) (n : nat) : list (result (bytes * bytes) StorageError) :=
  take n (map Ok rows) ++ replicate (n - length rows) (Err (NotFound "end of cursor")).

Lemma upcoming_cons e rows n : upcoming (e :: rows) (S n) = Ok e :: upcoming rows n.
Proof. done. Qed.

Lemma upcoming_nil n : upcoming [] n = replicate n (Err (NotFound "end of cursor")).
Proof. unfold upcoming. simpl. by rewrite take_nil, Nat.sub_0_r. Qed.

Lemma scan_rows stores c rows p :
  entries c = Some rows ->
  match position c with Some q => (q + 1)%nat | None => 0%nat end = p ->
  scan stores c = upcoming (drop p rows) (length stores).
Proof.
  revert c p. induction stores as [|s stores IH]; intros c p Hr Hp; [done|].
  cbn [scan length]. unfold next, materialize. rewrite Hr, Hr, Hp.
  destruct (rows !! p) as [e|] eqn:E.
  - rewrite (drop_S _ _ _ E), upcoming_cons. destruct e as [k v]. f_equal.
    apply IH; [done|]. simpl. lia.
  - apply lookup_ge_None in E. rewrite drop_ge by done. rewrite upcoming_nil.
    simpl. f_equal. rewrite (IH c p Hr Hp), drop_ge by done. apply upcoming_nil.
Qed.

(** A new cursor enumerates its table by [next] as it was at the first
    call: every entry once, in key order, then the end, whatever other cursors
    write to the store in between. *)
Theorem scan_is_snapshot s stores name t :
  bt_get s name = Some t ->
  scan (s :: stores) (open_cursor name) = upcoming t (S (length stores)).
Proof.
  intros Hg. pose proof (scan_rows (s :: stores) (materialize s (open_cursor name)) t 0) as H.
  cbn [materialize open_cursor entries table_name] in H. rewrite Hg in H.
  cbn [entries position] in H. specialize (H eq_refl eq_refl).
  rewrite drop_0 in H. change (S (length stores)) with (length (s :: stores)). rewrite <- H. cbn [scan]. unfold next, materialize. simpl. by rewrite Hg.
Qed.

(** [rename_table] moves the whole table: its entries are under the
    new name, the old name is gone, other tables are unchanged; a missing table
    is an error that changes nothing. *)
Theorem rename_moves s from to :
  store_ok s -> from <> to ->
  match bt_get s from with
  | Some t =>
      exists s', rename_table s from to = (s', Ok tt) /\ bt_get s' to = Some t /\
        bt_get s' from = None /\
        forall n, n <> from -> n <> to -> bt_get s' n = bt_get s n
  | None => exists msg, rename_table s from to = (s, Err (NotFound msg))
  end.
Proof.
  intros [Hs _] Hne. unfold rename_table. destruct (bt_get s from) as [t|]; [|by eexists].
  eexists. split; [done|]. assert (Hr : bt_ok (bt_remove s from)) by (by apply bt_remove_ok).
  rewrite bt_get_insert_eq. split; [done|]. split.
  - rewrite bt_get_insert_ne by done. by apply bt_get_remove_eq.
  - intros n H1 H2. by rewrite bt_get_insert_ne, bt_get_remove_ne.
Qed.

(** ** Loops over a cursor

    The callers walk a table with [while cursor.next().is_ok() { body }], or
    with the same loop written as [if cursor.next().is_ok() { loop { body; if
    cursor.next().is_err() { break } } }].  The body may write to the store and
    stage keys and values on the cursor, leave the loop, or go on. *)

Inductive control (St R : Type) : Type :=
| Continue (st : St) (c : MemCursor)
| Leave (st : St) (r : R).
Arguments Continue {St R} st c.
Arguments Leave {St R} st r.

Section Loop.
Context {St R : Type} (get_store : St -> store) (body : St -> MemCursor -> control St R)
  (finish : St -> R).

Fixpoint next_loop (fuel : nat) (st : St) (c : MemCursor) : option (St * R) :=
  match fuel with
  | O => None
  | S fuel' =>
      let '(c', r) := next (get_store st) c in
      match r with
      | Err _ => Some (st, finish st)
      | Ok _ =>
          match body st c' with
          | Continue st' c'' => next_loop fuel' st' c''
          | Leave st' r => Some (st', r)
          end
      end
  end.

Definition cursor_rows (s : store) (c : MemCursor) : TableStore :=
  match entries (materialize s c) with Some rows => rows | None => [] end.

(** The loop: the cursor enumerates its rows once, so one
    unit of fuel per row and one for the end suffice ([while_next_rows]). *)
Definition while_next (st : St) (c : MemCursor) : St * R :=
  match next_loop (S (length (cursor_rows (get_store st) c))) st c with
  | Some r => r
  | None => (st, finish st)
  end.

(** The cursor after [next] has moved to the row [e] at index [p]. *)
Definition moved (c : MemCursor) (p : nat) (e : bytes * bytes) : MemCursor :=
  {| table_name := table_name c; entries := entries c; position := Some p;
     current_key := Some (fst e); current_value := Some (snd e);
     pending_key := Some (fst e); pending_value := pending_value c |}.

(** The same loop as a recursion on the rows. *)
Fixpoint rows_loop (st : St) (c : MemCursor) (p : nat) (rows : TableStore) : St * R :=
  match rows with
  | [] => (st, finish st)
  | e :: rest =>
      match body st (moved c p e) with
      | Continue st' c' => rows_loop st' c' (S p) rest
      | Leave st' r => (st', r)
      end
  end.

(** The body leaves the snapshot and the position of the cursor alone. *)
Definition stays : Prop :=
  forall st c p e st' c', body st (moved c p e) = Continue st' c' ->
    entries c' = entries c /\ position c' = Some p.

Lemma next_loop_rows fuel st c rows p :
  stays -> entries c = Some rows ->
  match position c with Some q => (q + 1)%nat | None => 0%nat end = p ->
  (length rows - p < fuel)%nat ->
  next_loop fuel st c = Some (rows_loop st c p (drop p rows)).
Proof.
  intros Hst. revert st c p. induction fuel as [|fuel IH]; intros st c p Hr Hp Hf; [lia|].
  cbn [next_loop]. unfold next, materialize. rewrite Hr, Hr, Hp.
  destruct (rows !! p) as [e|] eqn:E.
  - rewrite (drop_S _ _ _ E). cbn [rows_loop]. rewrite <- Hr. fold (moved c p e).
    destruct (body st (moved c p e)) as [st' c'|] eqn:Eb; [|done].
    destruct (Hst _ _ _ _ _ _ Eb) as [H1 H2].
    pose proof (lookup_lt_Some _ _ _ E). apply IH; [by rewrite H1|rewrite H2; lia|lia].
  - apply lookup_ge_None in E. by rewrite drop_ge.
Qed.

(** Enough fuel: the loop is the recursion over the rows of the table as it is
    when the loop starts. *)
Lemma while_next_rows st name :
  stays ->
  while_next st (open_cursor name) =
  rows_loop st (materialize (get_store st) (open_cursor name)) 0 (table_rows (get_store st) name).
Proof.
  intros Hst. set (rows := table_rows (get_store st) name). unfold while_next, cursor_rows.
  pose proof (next_loop_rows (S (length rows)) st (materialize (get_store st) (open_cursor name))
    rows 0 Hst eq_refl eq_refl ltac:(lia)) as H. rewrite drop_0 in H.
  transitivity (match next_loop (S (length rows)) st
    (materialize (get_store st) (open_cursor name)) with Some r => r | None => (st, finish st) end);
    [done|]. by rewrite H.
Qed.

(** A body that only reads the row: the loop is a fold over the rows. *)
Fixpoint fold_rows (f : St -> bytes * bytes -> St + St * R) (st : St) (rows : TableStore) : St * R :=
  match rows with
  | [] => (st, finish st)
  | e :: rest => match f st e with inl st' => fold_rows f st' rest | inr r => r end
  end.

Definition reads (f : St -> bytes * bytes -> St + St * R) : Prop :=
  forall st c p e, body st (moved c p e) =
    match f st e with inl st' => Continue st' (moved c p e) | inr (st', r) => Leave st' r end.

Lemma reads_stays f : reads f -> stays.
Proof.
  intros H st c p e st' c' E. rewrite H in E. destruct (f st e) as [|[]]; [|done].
  by injection E as <- <-.
Qed.

Lemma rows_loop_fold f st c p rows : reads f -> rows_loop st c p rows = fold_rows f st rows.
Proof.
  intros H. revert st c p. induction rows as [|e rows IH]; intros st c p; [done|]. simpl.
  rewrite H. destruct (f st e) as [st'|[st' r]]; [apply IH|done].
Qed.

Lemma while_next_fold f st name :
  reads f -> while_next st (open_cursor name) = fold_rows f st (table_rows (get_store st) name).
Proof.
  intros H. rewrite while_next_rows by (by eapply reads_stays). by apply rows_loop_fold.
Qed.
End Loop.

(** ** Witnesses *)

Definition example_store : store :=
  fst (insert (fst (insert mem_backend_new
    (set_value_str (set_key_str (open_cursor "t") "b") "2")))
    (set_value_str (set_key_str (open_cursor "t") "a") "1")).

Lemma reachable_store_ok_witness : store_ok example_store.
Proof.
  apply reachable_store_ok. eapply rtc_l; [apply step_insert|].
  eapply rtc_l; [apply step_insert|]. apply rtc_refl.
Defined.

Lemma write_refines_map_witness :
  tbl_get (fst (insert mem_backend_new
    (set_value_raw (set_key_raw (open_cursor "t") (as_bytes "b")) (as_bytes "2"))))
    "t" (as_bytes "b") = Some (as_bytes "2").
Proof.
  assert (H : store_ok mem_backend_new) by (split; [apply bt_nil_ok|done]).
  exact (proj1 (proj2 (write_refines_map mem_backend_new (open_cursor "t") (as_bytes "b")
           (as_bytes "2") "t" (as_bytes "b") H))).
Defined.

Lemma search_near_spec_witness :
  exists c' r k v,
    search_near [("t", [(as_bytes "a", as_bytes "1"); (as_bytes "c", as_bytes "3")])]
      (set_key_raw (open_cursor "t") (as_bytes "b")) = (c', Ok r) /\
    get_key_raw c' = Ok k /\ get_value_raw c' = Ok v /\
    tbl_get [("t", [(as_bytes "a", as_bytes "1"); (as_bytes "c", as_bytes "3")])] "t" k = Some v /\
    near [("t", [(as_bytes "a", as_bytes "1"); (as_bytes "c", as_bytes "3")])] "t"
      (as_bytes "b") r k.
Proof.
  apply (search_near_spec [("t", [(as_bytes "a", as_bytes "1"); (as_bytes "c", as_bytes "3")])]
    (open_cursor "t") (as_bytes "b") [(as_bytes "a", as_bytes "1"); (as_bytes "c", as_bytes "3")]).
  - split; [repeat constructor|]. intros n t H. cbn in H.
    destruct (str_cmp n "t"); try discriminate. injection H as <-. repeat constructor.
  - reflexivity.
  - discriminate.
Defined.

Lemma scan_is_snapshot_witness :
  scan [example_store; drop_table example_store "t"; mem_backend_new] (open_cursor "t") =
  [Ok (as_bytes "a", as_bytes "1"); Ok (as_bytes "b", as_bytes "2");
   Err (NotFound "end of cursor")].
Proof.
  apply (scan_is_snapshot example_store [drop_table example_store "t"; mem_backend_new] "t"
    [(as_bytes "a", as_bytes "1"); (as_bytes "b", as_bytes "2")]). reflexivity.
Defined.

Lemma rename_moves_witness :
  exists s', rename_table example_store "t" "u" = (s', Ok tt) /\
    bt_get s' "u" = Some [(as_bytes "a", as_bytes "1"); (as_bytes "b", as_bytes "2")] /\
    bt_get s' "t" = None /\
    forall n, n <> "t" -> n <> "u" -> bt_get s' n = bt_get example_store n.
Proof.
  apply (rename_moves example_store "t" "u"); [|discriminate].
  split; [repeat constructor|]. intros n t H. cbn in H.
  destruct (str_cmp n "t"); try discriminate. injection H as <-. repeat constructor.
Defined.

(** ** Behaviours worth recording *)

(** Renaming onto an existing table replaces it, where the contract says the
    destination must not exist. *)
Theorem rename_overwrites_destination :
  rename_table [("t", [(as_bytes "a", as_bytes "1")]); ("u", [(as_bytes "b", as_bytes "2")])]
    "t" "u" = ([("u", [(as_bytes "a", as_bytes "1")])], Ok tt).
Proof. vm_compute. reflexivity. Qed.

(** [search] does not move the position that [next] continues from: after
    finding ["b"], [next] returns the first entry again. *)
Theorem next_after_search_restarts :
  let c := fst (search example_store (set_key_str (open_cursor "t") "b")) in
  get_key_raw (fst (next example_store c)) = Ok (as_bytes "a").
Proof. vm_compute. reflexivity. Qed.
