(* ===== verification/IndexKey.v ===== *)
(** * Index specifications and index keys

    [src/rust/smongo-engine/src/index/mod.rs] and [index/prefix_index.rs]: the
    kinds of index, the byte keys stored in an index table and their decoding
    for covered queries.  The key bytes a collation gives to a string and the
    Unicode character classes are parameters. *)

From Stdlib Require Import ZArith Lia Ascii String Strings.Byte.
From S2P Require Import Prelude F64 Bson RefBson Paths Geo BTree Storage.
From stdpp Require Import base tactics list strings.

Open Scope string_scope.
Open Scope list_scope.

(** ** Specifications *)

(** Source: index/mod.rs:24-37 (IndexType). *)
Inductive IndexType := BTreeIndex | TwoDSphere | Text | VectorSearch | Bitmap | Prefix.

#[export] Instance IndexType_eq_dec : EqDecision IndexType.
Proof. solve_decision. Defined.

(** Source: index/mod.rs:170-194 (VectorIndexOptions). *)
Record VectorIndexOptions : Type := {
  dimensions : Z;
  metric : string;
  indexing_method : string;
  ef_construction : option Z;
  m_connections : option Z }.

(** Source: index/mod.rs:210-217 (TextIndexOptions). *)
Record TextIndexOptions : Type := {
  default_language : option string;
  weights : option document }.

(** Source: index/mod.rs:221-224 (PrefixOptions). *)
Record PrefixOptions : Type := { prefix_length : nat }.

(** Source: index/mod.rs:116-153 (IndexOptions). *)
Record IndexOptions : Type := {
  opt_name : option string;
  unique : bool;
  sparse : bool;
  background : bool;
  expire_after_seconds : option Z;
  partial_filter_expression : option document;
  collation : option document;
  index_type : option IndexType;
  vector_options : option VectorIndexOptions;
  text_options : option TextIndexOptions;
  prefix_options : option PrefixOptions }.

(** Source: index/mod.rs:105-112 (IndexSpec). *)
Record IndexSpec : Type := {
  name : string;
  keys : document;
  options : IndexOptions }.

(** [IndexOptions::default()]. *)
Definition default_options : IndexOptions :=
  {| opt_name := None; unique := false; sparse := false; background := false;
     expire_after_seconds := None; partial_filter_expression := None; collation := None;
     index_type := None; vector_options := None; text_options := None; prefix_options := None |}.

(** Source: index/mod.rs:60-66 (is_2dsphere_keys). *)
Definition is_2dsphere_keys (keys : document) : bool :=
  if negb (length keys =? 1)%nat then false
  else forallb (fun v => match v with
                         | BString s => (s =s? "2dsphere") || (s =s? "2d")
                         | _ => false
                         end) (doc_values keys).

(** Source: index/mod.rs:69-74 (twodsphere_field). *)
Definition twodsphere_field (keys : document) : option string :=
  if negb (is_2dsphere_keys keys) then None else head (doc_keys keys).

Definition is_text_value (v : bson) : bool :=
  match v with BString s => s =s? "text" | _ => false end.

(** Source: index/mod.rs:77-80 (is_text_keys). *)
Definition is_text_keys (keys : document) : bool := existsb is_text_value (doc_values keys).

(** Source: index/mod.rs:83-88 (text_fields). *)
Definition text_fields (keys : document) : list string :=
  map fst (List.filter (fun kv => is_text_value (snd kv)) keys).

(** Source: index/mod.rs:91-97 (vector_field). *)
Definition vector_field (keys : document) : option string :=
  if (length keys =? 1)%nat then head (doc_keys keys) else None.

(** Source: index/mod.rs:42-53 (resolve_index_type). *)
Definition resolve_index_type (keys : document) (opts : IndexOptions) : IndexType :=
  match index_type opts with
  | Some explicit => explicit
  | None =>
      if is_2dsphere_keys keys then TwoDSphere
      else if is_text_keys keys then Text
      else BTreeIndex
  end.

(** Source: index/mod.rs:232-237 (IndexDirection). *)
Inductive IndexDirection := Ascending | Descending.

#[export] Instance IndexDirection_eq_dec : EqDecision IndexDirection.
Proof. solve_decision. Defined.

(** Source: index/mod.rs:241-247 (IndexDirection::from_bson). *)
Definition direction_from_bson (value : bson) : option IndexDirection :=
  match value with
  | BInt32 n | BInt64 n =>
      if (n =? 1)%Z then Some Ascending else if (n =? -1)%Z then Some Descending else None
  | _ => None
  end.

(** ** Bytes of numbers *)

Definition byte_of_Z (z : Z) : byte :=
  match Byte.of_N (Z.to_N (z mod 256)) with Some b => b | None => x00 end.

(** [to_be_bytes] of an integer of [n] bytes, in two's complement. *)
Fixpoint be_bytes (n : nat) (z : Z) : bytes :=
  match n with
  | O => []
  | S n' => be_bytes n' (z / 256) ++ [byte_of_Z z]
  end.

(** [from_be_bytes], as an unsigned number, and the signed one of [w] bits. *)
Definition be_value (l : bytes) : Z :=
  fold_left (fun acc b => 256 * acc + Z.of_N (Byte.to_N b))%Z l 0%Z.

(** [f64::to_bits]; a NaN is the canonical quiet one. *)
Definition f64_bits (x : f64) : Z :=
  match x with
  | SpecFloat.S754_zero s => if s then 2 ^ 63 else 0
  | SpecFloat.S754_infinity s => (if s then 2 ^ 63 else 0) + 2047 * 2 ^ 52
  | SpecFloat.S754_nan => 2047 * 2 ^ 52 + 2 ^ 51
  | SpecFloat.S754_finite s m e =>
      (if s then 2 ^ 63 else 0) +
      (if 2 ^ 52 <=? Zpos m then (e + 1075) * 2 ^ 52 + (Zpos m - 2 ^ 52) else Zpos m)
  end%Z.

(** [*b ^= 0xFF]. *)
Definition invert_byte (b : byte) : byte :=
  byte_of_Z (Z.lxor (Z.of_N (Byte.to_N b)) 255).

(** Source: index/mod.rs:316-320 (invert_bytes). *)
Definition invert_bytes (l : bytes) : bytes := map invert_byte l.

Section IndexKey.
Context {B : BsonOps} {M : Libm} {G : S2}.

(** ** Keys *)

(** Source: index/mod.rs:279-295 (extract_index_key_with_collation). The bytes of
    one field; [collation] is the collation's [index_key_bytes]. *)
Definition index_value_bytes (collation : option (string -> bytes)) (value : option bson) : bytes :=
  match value with
  | Some BNull => [x00]
  | Some (BInt32 n) => be_bytes 4 n
  | Some (BInt64 n) => be_bytes 8 n
  | Some (BDouble n) => be_bytes 8 (f64_bits n)
  | Some (BString s) => match collation with Some c => c s | None => as_bytes s end
  | Some (BObjectId oid) => oid
  | Some (BBoolean b) => [if b then x01 else x00]
  | Some (BDateTime dt) => be_bytes 8 dt
  | Some _ => [x02]
  | None => [xff]
  end.

(** One part of the key: the field's bytes, inverted when descending. *)
Definition index_key_part (collation : option (string -> bytes)) (doc : document)
  (field : string) (direction : bson) : bytes :=
  let descending := bool_decide (direction_from_bson direction = Some Descending) in
  let serialized := index_value_bytes collation (get_value doc field) in
  if descending then invert_bytes serialized else serialized.

(** The parts joined by the separator [0xFE]. *)
Fixpoint join_parts (parts : list bytes) : bytes :=
  match parts with
  | [] => []
  | [p] => p
  | p :: ps => p ++ xfe :: join_parts ps
  end.

(** Source: index/mod.rs:266-313 (extract_index_key_with_collation). *)
Definition extract_index_key_with_collation (doc keys : document)
  (collation : option (string -> bytes)) : bytes :=
  join_parts (map (fun '(field, direction) => index_key_part collation doc field direction) keys).

(** Source: index/mod.rs:260-262 (extract_index_key). *)
Definition extract_index_key (doc keys : document) : bytes :=
  extract_index_key_with_collation doc keys None.

(** [bytes.split(|&b| b == 0xFE)]. *)
Fixpoint split_parts (l : bytes) : list bytes :=
  match l with
  | [] => [[]]
  | b :: l' =>
      if Byte.eqb b xfe then [] :: split_parts l'
      else match split_parts l' with
           | [] => [[b]]
           | p :: ps => (b :: p) :: ps
           end
  end.

(** Whether every character is alphanumeric, white space or one of [_-./]
    ([char::is_alphanumeric] and [is_whitespace] read Unicode tables). *)
Context (index_chars : string -> bool).

Definition printable (b : byte) : bool :=
  let n := Byte.to_N b in ((32 <=? n) && (n <=? 126))%N.

(** Source: index/mod.rs:351-407 (decode_index_value_part). *)
Definition decode_index_value_part (l : bytes) : option bson :=
  match l with
  | [] => None
  | b0 :: _ =>
      if Byte.eqb b0 xff then None
      else if Byte.eqb b0 x01 && (length l =? 1)%nat then Some (BBoolean true)
      else if Byte.eqb b0 x00 && (length l =? 1)%nat then Some (BBoolean false)
      else
        let s := string_of_list_byte l in
        if utf8_valid l && index_chars s then Some (BString s)
        else if (4 <=? length l)%nat &&
                ((length l =? 4)%nat || ((4 <? length l)%nat && forallb printable (drop 4 l)))
        then Some (BInt32 (wrap_i32 (be_value (take 4 l))))
        else if (length l =? 8)%nat then Some (BInt64 (wrap_i64 (be_value l)))
        else if (length l =? 12)%nat then Some (BObjectId l)
        else if utf8_valid l then Some (BString s) else None
  end.

(** Source: index/mod.rs:334-345 (decode_index_key). The loop over the fields and
    their parts. *)
Fixpoint decode_parts (result : document) (index_keys : document) (parts : list bytes)
  : option document :=
  match index_keys, parts with
  | [], _ => Some result
  | _ :: _, [] => Some result
  | (field, direction) :: ks, part :: ps =>
      let descending := bool_decide (direction_from_bson direction = Some Descending) in
      let part := if descending then invert_bytes part else part in
      match decode_index_value_part part with
      | None => None
      | Some value => decode_parts (doc_insert result field value) ks ps
      end
  end.

(** Source: index/mod.rs:326-348 (decode_index_key). *)
Definition decode_index_key (key_bytes : bytes) (index_keys : document) : option document :=
  let parts := split_parts key_bytes in
  if (length parts <? length index_keys)%nat then None
  else decode_parts [] index_keys parts.

(** [id] as text: index/mod.rs:422-429. *)
Definition geo_id_string (id : option bson) : option string :=
  match id with
  | Some (BObjectId oid) => Some (oid_to_hex oid)
  | Some (BString s) => Some s
  | Some (BInt32 i) | Some (BInt64 i) => Some (Z_to_string i)
  | Some other => Some (bson_display other)
  | None => None
  end.

(** Source: index/mod.rs:410-426 (twodsphere_index_key). *)
Definition twodsphere_index_key (doc keys : document) : option bytes :=
  and_then (twodsphere_field keys) (fun field =>
  and_then (extract_lon_lat (get_value doc field)) (fun '(lon, lat) =>
    let cell := cell_key_for_point lon lat in
    and_then (geo_id_string (doc_get doc "_id")) (fun id =>
      Some (as_bytes (cell_key_prefix_u64 cell ++ id)%string)))).

(** Source: index/mod.rs:437-451 (generate_index_name). *)
Definition generate_index_name (keys : document) : string :=
  str_join "_" (map (fun '(field, direction) =>
    let dir_str :=
      match direction with
      | BInt32 n | BInt64 n => if (n =? 1)%Z then "1" else if (n =? -1)%Z then "-1" else "1"
      | BString s => s
      | _ => "1"
      end in
    (field ++ "_" ++ dir_str)%string) keys).

Definition has_char (c : ascii) (s : string) : bool := negb (no_char c s).

(** Source: index/mod.rs:454-464 (validate_custom_index_name). [str_debug] is the
    quoted and escaped form of [{name:?}]. *)
Definition validate_custom_index_name (str_debug : string -> string) (name : string)
  : result unit error :=
  if has_char "." name || has_char "/" name || has_char "\" name
  then Err (Msg ("index name must not contain '.', '/', or '\\': " ++
                 str_debug name)%string)
  else if name =s? "_id_" then Err (Msg "index name '_id_' is reserved")
  else Ok tt.

(** Source: index/mod.rs:476-493 (can_use_index). *)
Definition can_use_index (query index_keys : document) : bool :=
  existsb (fun query_field =>
    negb (starts_with "$" query_field) && doc_contains index_keys query_field) (doc_keys query).

(** Source: index/prefix_index.rs:9-15 (truncate_key). *)
Definition truncate_key (key : bytes) (prefix_length : nat) : bytes :=
  if (length key <=? prefix_length)%nat then key else take prefix_length key.

(** Source: index/prefix_index.rs:18-25 (extract_prefix_key). *)
Definition extract_prefix_key (doc keys : document) (prefix_length : nat) : bytes :=
  truncate_key (extract_index_key doc keys) prefix_length.

End IndexKey.

(** ** Lemmas *)

(** *** Big-endian bytes *)

Lemma byte_of_Z_val z : Z.of_N (Byte.to_N (byte_of_Z z)) = (z mod 256)%Z.
Proof.
  unfold byte_of_Z. assert (H : (0 <= z mod 256 < 256)%Z) by (apply Z.mod_pos_bound; lia).
  destruct (Byte.of_N (Z.to_N (z mod 256))) as [b|] eqn:E.
  - apply Byte.to_of_N_iff in E. rewrite E. lia.
  - apply Byte.of_N_None_iff in E. lia.
Qed.

Lemma pow256_S n : (256 ^ Z.of_nat (S n) = 256 * 256 ^ Z.of_nat n)%Z.
Proof. rewrite Nat2Z.inj_succ, Z.pow_succ_r; lia. Qed.

Lemma pow256_pos n : (0 < 256 ^ Z.of_nat n)%Z.
Proof. apply Z.pow_pos_nonneg; lia. Qed.

Lemma be_bytes_S n z : be_bytes (S n) z = byte_of_Z (z / 256 ^ Z.of_nat n) :: be_bytes n z.
Proof.
  revert z. induction n as [|n IH]; intros z.
  - simpl. by rewrite Z.div_1_r.
  - change (be_bytes (S (S n)) z) with (be_bytes (S n) (z / 256) ++ [byte_of_Z z]).
    rewrite IH, Z.div_div, <- pow256_S by (try lia; apply pow256_pos). done.
Qed.

Lemma be_bytes_length n z : length (be_bytes n z) = n.
Proof. revert z. induction n as [|n IH]; intros z; [done|]. rewrite be_bytes_S. simpl. by rewrite IH. Qed.

Lemma be_bytes_mod n z : be_bytes n z = be_bytes n (z mod 256 ^ Z.of_nat n).
Proof.
  revert z. induction n as [|n IH]; intros z; [done|].
  rewrite !be_bytes_S, (IH z), (IH (z mod 256 ^ Z.of_nat (S n))%Z), pow256_S.
  pose proof (pow256_pos n). set (p := (256 ^ Z.of_nat n)%Z) in *.
  rewrite (Z.mul_comm 256 p), Z.rem_mul_r by lia.
  rewrite (Z.mul_comm p (_ mod 256)), Z.div_add, (Z.div_small (z mod p)) by
    (try lia; apply Z.mod_pos_bound; lia).
  rewrite Z.add_0_l, Z_mod_plus_full, !Zmod_mod. f_equal.
  unfold byte_of_Z. by rewrite Zmod_mod.
Qed.

Lemma byte_of_Z_cmp a b :
  byte_cmp (byte_of_Z a) (byte_of_Z b) = ((a mod 256) ?= (b mod 256))%Z.
Proof.
  unfold byte_cmp. rewrite <- (byte_of_Z_val a), <- (byte_of_Z_val b).
  by rewrite N2Z.inj_compare.
Qed.

(** Lexicographic order of big-endian bytes is the order of the unsigned numbers. *)
Lemma be_bytes_order n a b :
  (0 <= a < 256 ^ Z.of_nat n)%Z -> (0 <= b < 256 ^ Z.of_nat n)%Z ->
  bytes_cmp (be_bytes n a) (be_bytes n b) = (a ?= b)%Z.
Proof.
  revert a b. induction n as [|n IH]; intros a b Ha Hb.
  - simpl in *. replace a with b by lia. by rewrite Z.compare_refl.
  - rewrite !be_bytes_S. cbn [bytes_cmp]. rewrite byte_of_Z_cmp. rewrite pow256_S in *.
    pose proof (pow256_pos n) as Hp. set (p := (256 ^ Z.of_nat n)%Z) in *.
    assert (Hd : forall z, (0 <= z < 256 * p)%Z -> (0 <= z / p < 256)%Z).
    { intros z Hz. split; [apply Z.div_pos; lia|apply Z.div_lt_upper_bound; lia]. }
    rewrite !(Z.mod_small (_ / p)) by auto.
    rewrite (be_bytes_mod n a), (be_bytes_mod n b). fold p.
    rewrite IH by (apply Z.mod_pos_bound; lia).
    pose proof (Z_div_mod_eq_full a p). pose proof (Z.mod_pos_bound a p Hp).
    pose proof (Z_div_mod_eq_full b p). pose proof (Z.mod_pos_bound b p Hp).
    destruct (Z.compare_spec (a / p) (b / p)), (Z.compare_spec a b),
      (Z.compare_spec (a mod p) (b mod p)); simpl; try done; exfalso; nia.
Qed.

Lemma be_value_snoc l b : be_value (l ++ [b]) = (256 * be_value l + Z.of_N (Byte.to_N b))%Z.
Proof. unfold be_value. by rewrite fold_left_app. Qed.

Lemma be_value_bytes n z : be_value (be_bytes n z) = (z mod 256 ^ Z.of_nat n)%Z.
Proof.
  revert z. induction n as [|n IH]; intros z; [simpl; by rewrite Z.mod_1_r|].
  cbn [be_bytes]. rewrite be_value_snoc, IH, byte_of_Z_val, pow256_S.
  pose proof (pow256_pos n). rewrite Z.rem_mul_r by lia. lia.
Qed.

(** *** Inversion *)

Lemma invert_byte_val b : Byte.to_N (invert_byte b) = (255 - Byte.to_N b)%N.
Proof. by destruct b. Qed.

Lemma invert_byte_invol b : invert_byte (invert_byte b) = b.
Proof. by destruct b. Qed.

Lemma invert_bytes_invol l : invert_bytes (invert_bytes l) = l.
Proof.
  unfold invert_bytes. rewrite map_map. induction l as [|b l IH]; [done|]. simpl.
  by rewrite IH, invert_byte_invol.
Qed.

Lemma invert_byte_cmp a b : byte_cmp (invert_byte a) (invert_byte b) = CompOpp (byte_cmp a b).
Proof.
  unfold byte_cmp. rewrite !invert_byte_val, <- N.compare_antisym.
  pose proof (Byte.to_N_bounded a). pose proof (Byte.to_N_bounded b).
  destruct (N.compare_spec (Byte.to_N b) (Byte.to_N a)),
    (N.compare_spec (255 - Byte.to_N a) (255 - Byte.to_N b)); try done; lia.
Qed.

Lemma invert_bytes_cmp a b :
  length a = length b -> bytes_cmp (invert_bytes a) (invert_bytes b) = CompOpp (bytes_cmp a b).
Proof.
  revert b. induction a as [|x a IH]; intros [|y b] H; try done. simpl in *.
  rewrite invert_byte_cmp. fold (invert_bytes a) (invert_bytes b). rewrite IH by lia.
  by destruct (byte_cmp x y).
Qed.

(** *** Splitting at the separator *)

Definition no_sep (l : bytes) : bool := forallb (fun b => negb (Byte.eqb b xfe)) l.

Lemma split_parts_no_sep l : no_sep l = true -> split_parts l = [l].
Proof.
  induction l as [|b l IH]; [done|]. cbn [no_sep forallb split_parts].
  rewrite andb_true_iff, negb_true_iff. intros [-> H]. by rewrite IH.
Qed.

Lemma split_parts_app p l :
  no_sep p = true -> split_parts (p ++ xfe :: l) = p :: split_parts l.
Proof.
  induction p as [|b p IH]; [done|]. cbn [no_sep forallb app split_parts].
  rewrite andb_true_iff, negb_true_iff. intros [-> H]. by rewrite IH.
Qed.

Lemma split_join_parts ps :
  ps <> [] -> forallb no_sep ps = true -> split_parts (join_parts ps) = ps.
Proof.
  induction ps as [|p [|q ps] IH]; intros Hne H; [done| |].
  - simpl in *. rewrite andb_true_r in H. by apply split_parts_no_sep.
  - cbn [forallb] in H. apply andb_true_iff in H as [H1 H2].
    change (join_parts (p :: q :: ps)) with (p ++ xfe :: join_parts (q :: ps)).
    rewrite split_parts_app by done. by rewrite IH.
Qed.

(** ** Properties *)

Section IndexProps.
Context {B : BsonOps} {M : Libm} {G : S2}.

(** In a single-field index on non-negative 32-bit integers the
    byte order of the keys is the numeric order, and the reverse of it when
    the index is descending. *)
Theorem index_key_int_order d1 d2 field dir n m :
  get_value d1 field = Some (BInt32 n) -> get_value d2 field = Some (BInt32 m) ->
  (0 <= n <= i32_max)%Z -> (0 <= m <= i32_max)%Z ->
  bytes_cmp (extract_index_key d1 [(field, dir)]) (extract_index_key d2 [(field, dir)]) =
  (if bool_decide (direction_from_bson dir = Some Descending) then CompOpp (n ?= m)%Z
   else (n ?= m)%Z).
Proof.
  intros H1 H2 Hn Hm. unfold i32_max in *.
  unfold extract_index_key, extract_index_key_with_collation, index_key_part. simpl.
  rewrite H1, H2. cbn [index_value_bytes].
  assert (Ho : bytes_cmp (be_bytes 4 n) (be_bytes 4 m) = (n ?= m)%Z).
  { apply be_bytes_order; change (256 ^ Z.of_nat 4)%Z with (2 ^ 32)%Z; lia. }
  destruct (bool_decide _); [|done].
  rewrite invert_bytes_cmp by (by rewrite !be_bytes_length). by rewrite Ho.
Qed.

Context {L : BsonLaws B}.
Context (index_chars : string -> bool).

(** A field whose key part contains no separator and whose value the decoder
    recognises from its bytes. *)
Definition decodable (doc : document) (kd : string * bson) : Prop :=
  no_sep (index_key_part None doc (fst kd) (snd kd)) = true /\
  decode_index_value_part index_chars (index_value_bytes None (get_value doc (fst kd))) =
  get_value doc (fst kd) /\ get_value doc (fst kd) <> None.

Lemma decode_parts_spec doc ks r :
  Forall (decodable doc) ks -> List.NoDup (map fst ks) ->
  exists r', decode_parts index_chars r ks
      (map (fun '(f, d) => index_key_part None doc f d) ks) = Some r' /\
    (forall f, In f (map fst ks) -> doc_get r' f = get_value doc f) /\
    (forall f, ~ In f (map fst ks) -> doc_get r' f = doc_get r f).
Proof.
  intros Hk. revert r. induction Hk as [|[f d] ks (_ & Hd & Hn) Hk IH]; intros r Hnd.
  - exists r. split; [done|]. split; [by intros ? []|done].
  - simpl in *. apply NoDup_cons_iff in Hnd as [Hni Hnd].
    assert (Hp : (if bool_decide (direction_from_bson d = Some Descending)
       then invert_bytes (index_key_part None doc f d) else index_key_part None doc f d) =
       index_value_bytes None (get_value doc f)).
    { unfold index_key_part. case_bool_decide; [apply invert_bytes_invol|done]. }
    rewrite Hp, Hd. destruct (get_value doc f) as [v|] eqn:Ev; [|done].
    destruct (IH (doc_insert r f v) Hnd) as (r' & E & H1 & H2). exists r'. split; [done|]. split.
    + intros g [<-|Hg]; [|by apply H1]. rewrite H2, get_insert_eq by done. done.
    + intros g Hg. rewrite H2 by tauto. rewrite get_insert_ne; [done|]. intros ->. tauto.
Qed.

(** When no key part contains the separator byte and each value is
    one the decoder recognises, decoding an index key gives back every
    indexed field, in ascending and descending positions. *)
Theorem covered_roundtrip doc ks :
  ks <> [] -> List.NoDup (doc_keys ks) -> Forall (decodable doc) ks ->
  exists r, decode_index_key index_chars (extract_index_key doc ks) ks = Some r /\
    forall f, In f (doc_keys ks) -> doc_get r f = get_value doc f.
Proof.
  intros Hne Hnd Hk. unfold decode_index_key, extract_index_key, extract_index_key_with_collation.
  rewrite split_join_parts; [| |].
  - rewrite length_map, Nat.ltb_irrefl.
    destruct (decode_parts_spec doc ks [] Hk Hnd) as (r & E & H1 & _). by exists r.
  - by destruct ks.
  - apply forallb_forall. intros p ([f d] & <- & Hin)%in_map_iff.
    rewrite List.Forall_forall in Hk. destruct (Hk _ Hin) as [H _]. exact H.
Qed.

(** Strings of recognised characters, other than in the single-byte forms of
    the booleans, are decoded. *)
Lemma decode_string s :
  index_chars s = true -> utf8_valid (as_bytes s) = true ->
  match as_bytes s with b0 :: _ => (32 <=? Byte.to_N b0)%N && negb (Byte.eqb b0 xff) | [] => false end = true ->
  decode_index_value_part index_chars (as_bytes s) = Some (BString s).
Proof.
  intros Hc Hu H0. unfold decode_index_value_part.
  pose proof (string_of_list_byte_of_string s) as Hs. fold (as_bytes s) in Hs.
  destruct (as_bytes s) as [|b0 l] eqn:E; [done|].
  apply andb_true_iff in H0 as [Hlo Hff]. apply negb_true_iff in Hff. rewrite Hff.
  assert (Byte.eqb b0 x01 = false /\ Byte.eqb b0 x00 = false) as [-> ->] by (by destruct b0).
  cbn [andb]. by rewrite Hu, Hs, Hc.
Qed.

(** Truncation to a prefix keeps the order of the keys (possibly
    identifying some), so a range of full keys lies in the corresponding range
    of truncated ones. *)
Theorem truncate_key_monotone a b n :
  bytes_cmp a b <> Gt -> bytes_cmp (truncate_key a n) (truncate_key b n) <> Gt.
Proof.
  assert (Ht : forall l, truncate_key l n = take n l).
  { intros l. unfold truncate_key. destruct (Nat.leb_spec (length l) n); [|done].
    by rewrite take_ge by lia. }
  rewrite !Ht. clear Ht. revert n b. induction a as [|x a IH]; intros [|n] [|y b]; try done.
  simpl. destruct (byte_cmp x y); simpl; try done. apply IH.
Qed.
End IndexProps.

(** ** Witnesses *)

(** ASCII letters, digits, spaces and [_-./]. *)
Definition ascii_index_chars (s : string) : bool :=
  forallb (fun b => let n := Byte.to_N b in
    ((48 <=? n) && (n <=? 57) || (65 <=? n) && (n <=? 90) || (97 <=? n) && (n <=? 122) ||
     (n =? 32) || (n =? 95) || (45 <=? n) && (n <=? 47))%N) (as_bytes s).

Lemma index_key_int_order_witness :
  bytes_cmp (extract_index_key [("a", BInt32 7)] [("a", BInt32 (-1))])
    (extract_index_key [("a", BInt32 1000)] [("a", BInt32 (-1))]) = Gt.
Proof.
  apply (index_key_int_order [("a", BInt32 7)] [("a", BInt32 1000)] "a" (BInt32 (-1)) 7 1000);
    [reflexivity | reflexivity | unfold i32_max; lia | unfold i32_max; lia].
Defined.

Lemma covered_roundtrip_witness :
  exists r, decode_index_key ascii_index_chars
      (extract_index_key [("city", BString "oslo"); ("n", BInt32 300)]
         [("city", BInt32 (-1)); ("n", BInt32 1)])
      [("city", BInt32 (-1)); ("n", BInt32 1)] = Some r /\
    forall f, In f ["city"; "n"] ->
      doc_get r f = get_value [("city", BString "oslo"); ("n", BInt32 300)] f.
Proof.
  apply (covered_roundtrip ascii_index_chars [("city", BString "oslo"); ("n", BInt32 300)]
           [("city", BInt32 (-1)); ("n", BInt32 1)]).
  - discriminate.
  - apply nodup_str_spec. reflexivity.
  - repeat constructor; discriminate.
Defined.

Lemma truncate_key_monotone_witness :
  bytes_cmp (truncate_key (as_bytes "http://a") 4) (truncate_key (as_bytes "http://b") 4) <> Gt.
Proof. apply (truncate_key_monotone (as_bytes "http://a") (as_bytes "http://b") 4). discriminate. Defined.

(** ** Behaviours worth recording *)

(** A null and a false have the same key, and so have any two documents: a
    unique index takes them for duplicates. *)
Theorem index_key_collisions :
  extract_index_key [("a", BNull)] [("a", BInt32 1)] =
  extract_index_key [("a", BBoolean false)] [("a", BInt32 1)] /\
  extract_index_key [("a", BDocument [("x", BInt32 1)])] [("a", BInt32 1)] =
  extract_index_key [("a", BArray [])] [("a", BInt32 1)].
Proof. split; reflexivity. Qed.

(** Negative integers sort after the positive ones. *)
Theorem negative_keys_sort_last :
  bytes_cmp (extract_index_key [("a", BInt32 (-1))] [("a", BInt32 1)])
    (extract_index_key [("a", BInt32 1)] [("a", BInt32 1)]) = Gt.
Proof. vm_compute. reflexivity. Qed.

(** A covered query on an integer whose bytes contain the separator reads a
    string of three zero bytes instead of 254. *)
Theorem covered_separator_in_value :
  decode_index_key ascii_index_chars (extract_index_key [("a", BInt32 254)] [("a", BInt32 1)])
    [("a", BInt32 1)] =
  Some [("a", BString (string_of_list_byte [x00; x00; x00]))].
Proof. vm_compute. reflexivity. Qed.

(** Inverting the bytes does not reverse the order of a key and a longer one it
    is a prefix of. *)
Theorem inverted_prefix_keeps_order :
  bytes_cmp (as_bytes "a") (as_bytes "ab") = Lt /\
  bytes_cmp (invert_bytes (as_bytes "a")) (invert_bytes (as_bytes "ab")) = Lt.
Proof. split; reflexivity. Qed.
