(* ===== verification/LeBytes.v ===== *)
(** * Little-endian numbers

    [to_le_bytes] and [from_le_bytes] of the standard library, and slices read
    at an offset, for the files and messages the program frames itself. *)

From Stdlib Require Import ZArith Lia Ascii String Strings.Byte.
From S2P Require Import Prelude F64 Bson Paths IndexKey.
From stdpp Require Import base tactics list strings.

Open Scope list_scope.

(** [to_le_bytes] of an integer of [n] bytes, in two's complement. *)
Definition le_bytes (n : nat) (z : Z) : bytes := rev (be_bytes n z).

(** [u32::from_le_bytes] and [i32::from_le_bytes] of the four bytes at an offset. *)
Definition le_u32_at (data : bytes) (off : nat) : Z := be_value (rev (take 4 (drop off data))).
Definition le_i32_at (data : bytes) (off : nat) : Z := wrap_i32 (le_u32_at data off).

(** [&data[from..to]]. *)
Definition slice_at (data : bytes) (from to : nat) : bytes := take (to - from) (drop from data).

Lemma le_bytes_length n z : length (le_bytes n z) = n.
Proof. unfold le_bytes. by rewrite length_rev, be_bytes_length. Qed.

Lemma drop_app_exact {X} (l1 l2 : list X) n : length l1 = n -> drop n (l1 ++ l2) = l2.
Proof. intros <-. apply drop_app_length. Qed.

Lemma le_u32_here z pre rest off :
  length pre = off -> le_u32_at (pre ++ le_bytes 4 z ++ rest) off = (z mod 2 ^ 32)%Z.
Proof.
  intros H. unfold le_u32_at. rewrite drop_app_exact by done.
  rewrite (take_app_length' _ _ 4) by (by rewrite le_bytes_length). unfold le_bytes. rewrite rev_involutive.
  apply be_value_bytes.
Qed.

Lemma le_u32_read z pre rest off :
  (0 <= z < 2 ^ 32)%Z -> length pre = off -> le_u32_at (pre ++ le_bytes 4 z ++ rest) off = z.
Proof. intros Hz H. rewrite le_u32_here by done. by apply Z.mod_small. Qed.

Lemma wrap_i32_id z : (i32_min <= z <= i32_max)%Z -> wrap_i32 z = z.
Proof. intros H. unfold i32_min, i32_max in H. unfold wrap_i32, wrap_signed. rewrite Z.mod_small by lia. lia. Qed.

Lemma wrap_i32_mod z : (i32_min <= z <= i32_max)%Z -> wrap_i32 (z mod 2 ^ 32) = z.
Proof.
  intros H. rewrite <- (wrap_i32_id z H) at 2. unfold wrap_i32, wrap_signed. by rewrite Zplus_mod_idemp_l.
Qed.

Lemma le_i32_read z pre rest off :
  (i32_min <= z <= i32_max)%Z -> length pre = off -> le_i32_at (pre ++ le_bytes 4 z ++ rest) off = z.
Proof. intros Hz H. unfold le_i32_at. rewrite le_u32_here by done. by apply wrap_i32_mod. Qed.

Lemma slice_here (l pre rest : bytes) from to :
  length pre = from -> to = (from + length l)%nat -> slice_at (pre ++ l ++ rest) from to = l.
Proof.
  intros H ->. unfold slice_at. rewrite drop_app_exact by done. rewrite Nat.add_comm, Nat.add_sub.
  apply take_app_length.
Qed.
