(* ===== verification/Planner.v ===== *)
(** * The query planner

    [src/rust/smongo-engine/src/planner/mod.rs] and [planner/geo_plan.rs]:
    which index, if any, a query runs on. *)

From Stdlib Require Import ZArith Lia Ascii String Strings.Byte.
From S2P Require Import Prelude F64 Bson RefBson Paths Geo Query BTree Storage IndexKey.
From stdpp Require Import base tactics list strings.

Open Scope string_scope.
Open Scope list_scope.

(** ** Plans *)

(** Source: planner/mod.rs:75-152 (ExecutionPlan). *)
Inductive ExecutionPlan : Type :=
| CollectionScan
| IndexScan (index_name : string) (index_keys : document)
| IndexSeek (index_name : string) (index_keys seek_values : document)
| CoveringIndexScan (index_name : string) (index_keys : document)
    (seek_values : option document) (projection : document)
| SortedIndexScan (index_name : string) (index_keys : document) (limit : Z) (reverse : bool)
| VectorIndexSearch (index_name field : string) (dimensions : Z) (metric : string)
    (ef_construction m : option Z) (indexing_method : string)
| BitmapScan (index_name field : string)
| TextIndexScan (index_name : string) (fields : list string)
| PrefixIndexScan (index_name : string) (index_keys : document) (prefix_length : nat)
| GeoNear (index_name field : string) (lon lat : f64)
    (max_distance_m min_distance_m : option f64)
| GeoCapWithin (index_name field : string) (lon lat radius_m : f64)
| GeoCellCover (index_name field : string) (cell_ids : list Z)
| OrUnionPlans (subplans : list ExecutionPlan).

(** Source: planner/mod.rs:156-160 (QueryPlan). *)
Record QueryPlan : Type := {
  execution_plan : ExecutionPlan;
  estimated_cost : Z;
  reason : string }.

Definition scan_plan (reason : string) : QueryPlan :=
  {| execution_plan := CollectionScan; estimated_cost := u64_max; reason := reason |}.

Section Planner.
Context {B : BsonOps} {M : Libm} {G : S2}.

(** ** Partial indexes *)

(** Source: planner/mod.rs:55-62 (bson_to_f64). *)
Definition bson_to_f64 (v : bson) : option f64 :=
  match v with
  | BInt32 n | BInt64 n => Some (f64_of_Z n)
  | BDouble d => Some d
  | _ => None
  end.

(** Source: planner/mod.rs:45-53 (is_tighter_bound). *)
Definition is_tighter_bound (op : string) (partial_val query_val : bson) : bool :=
  match bson_to_f64 partial_val, bson_to_f64 query_val with
  | Some pf, Some qv =>
      if (op =s? "$gt") || (op =s? "$gte") then f64_leb pf qv
      else if (op =s? "$lt") || (op =s? "$lte") then f64_leb qv pf
      else false
  | _, _ => false
  end.

(** Source: planner/mod.rs:25-33 (query_satisfies_partial_filter). Both sides are
    operator documents. *)
Definition ops_satisfy (pf_doc q_doc : document) : bool :=
  forallb (fun '(op, pf_v) =>
    match doc_get q_doc op with
    | Some q_v => negb (negb (bson_eqb q_v pf_v) && negb (is_tighter_bound op pf_v q_v))
    | None => false
    end) pf_doc.

(** Source: planner/mod.rs:18-43 (query_satisfies_partial_filter). *)
Definition query_satisfies_partial_filter (query partial_filter : document) : bool :=
  forallb (fun '(field, pf_val) =>
    match doc_get query field with
    | None => false
    | Some q_val =>
        match pf_val, q_val with
        | BDocument pf_doc, BDocument q_doc => ops_satisfy pf_doc q_doc
        | _, _ => bson_eqb q_val pf_val
        end
    end) partial_filter.

(** Source: planner/mod.rs:66-71 (index_eligible_for_query). *)
Definition index_eligible_for_query (index : IndexSpec) (query : document) : bool :=
  match partial_filter_expression (options index) with
  | Some ((_ :: _) as pfe) => query_satisfies_partial_filter query pfe
  | _ => true
  end.

(** ** Shapes of conditions *)

(** Source: planner/mod.rs:624-632 (is_truthy_value). *)
Definition is_truthy_value (value : bson) : bool :=
  match value with
  | BInt32 n | BInt64 n => negb (n =? 0)%Z
  | BDouble d => negb (f64_eqb d f64_zero)
  | BBoolean b => b
  | _ => true
  end.

(** Source: planner/mod.rs:634-639 (is_equality_query). *)
Definition is_equality_query (value : bson) : bool :=
  match value with
  | BDocument doc => (length doc =? 1)%nat && doc_contains doc "$eq"
  | _ => true
  end.

(** Source: planner/mod.rs:641-648 (is_range_query). *)
Definition is_range_query (value : bson) : bool :=
  match value with
  | BDocument doc =>
      existsb (fun k => (k =s? "$gt") || (k =s? "$gte") || (k =s? "$lt") || (k =s? "$lte"))
        (doc_keys doc)
  | _ => false
  end.

(** Source: planner/mod.rs:592-621 (is_covering_index). *)
Definition is_covering_index (index_keys projection : document) : bool :=
  let index_fields := doc_keys index_keys in
  let has_inclusion :=
    existsb (fun '(k, v) => negb (k =s? "_id") && is_truthy_value v) projection in
  if negb has_inclusion then false
  else forallb (fun '(field, value) =>
    if (field =s? "_id") && negb (is_truthy_value value) then true
    else if is_truthy_value value
    then negb (negb (existsb (String.eqb field) index_fields) && negb (field =s? "_id"))
    else true) projection.

(** ** Geospatial plans *)

(** Source: planner/geo_plan.rs:83-107 (collect_field_conditions). *)
Definition collect_field_conditions (query : document) : document :=
  let add out '(k, v) := if negb (starts_with "$" k) then doc_insert out k v else out in
  fold_left (fun out '(k, v) =>
    if k =s? "$and" then
      match v with
      | BArray arr => fold_left (fun out item =>
          match item with BDocument d => fold_left add d out | _ => out end) arr out
      | _ => out
      end
    else add out (k, v)) query [].

(** Source: planner/geo_plan.rs:146-156 (parse_point_coords). *)
Definition parse_point_coords (coords : bson) : option (f64 * f64) :=
  match coords with
  | BArray (c0 :: c1 :: _) =>
      and_then (as_f64_bson c0) (fun lon => and_then (as_f64_bson c1) (fun lat => Some (lon, lat)))
  | _ => None
  end.

(** Source: planner/geo_plan.rs:118-144 (parse_field_near_spec). *)
Definition parse_field_near_spec (cond : document)
  : option (f64 * f64 * option f64 * option f64) :=
  let outer_max := and_then (doc_get cond "$maxDistance") as_f64_bson in
  let outer_min := and_then (doc_get cond "$minDistance") as_f64_bson in
  and_then (opt_or (doc_get cond "$near") (doc_get cond "$nearSphere")) (fun nv =>
    match nv with
    | BArray (a0 :: a1 :: _) =>
        and_then (as_f64_bson a0) (fun lon => and_then (as_f64_bson a1) (fun lat =>
          Some (lon, lat, outer_max, outer_min)))
    | BDocument spec =>
        let max_d := opt_or (and_then (doc_get spec "$maxDistance") as_f64_bson) outer_max in
        let min_d := opt_or (and_then (doc_get spec "$minDistance") as_f64_bson) outer_min in
        and_then (and_then (doc_get spec "$geometry") as_document) (fun geom =>
        and_then (and_then (doc_get geom "type") as_str) (fun type =>
          if negb (type =s? "Point") then None
          else and_then (doc_get geom "coordinates") (fun coords =>
               and_then (parse_point_coords coords) (fun '(lon, lat) =>
                 Some (lon, lat, max_d, min_d)))))
    | _ => None
    end).

(** Source: planner/geo_plan.rs:158-179 (parse_center_sphere). *)
Definition parse_center_sphere (gw : document) : option (f64 * f64 * f64) :=
  match doc_get gw "$centerSphere" with
  | Some (BArray (BArray (c0 :: c1 :: _) :: a1 :: _)) =>
      and_then (as_f64_bson c0) (fun lon =>
      and_then (as_f64_bson c1) (fun lat =>
      and_then (as_f64_bson a1) (fun rad =>
        if f64_ltb rad f64_zero then None else Some (lon, lat, rad))))
  | _ => None
  end.

(** Source: planner/geo_plan.rs:181-185 (parse_geo_intersects_block). *)
Definition parse_geo_intersects_block (cond : document) : option GeoQueryShape :=
  and_then (and_then (doc_get cond "$geoIntersects") as_document) (fun nested =>
  and_then (and_then (doc_get nested "$geometry") as_document) (fun g =>
    match from_geometry_doc g with Ok shape => Some shape | Err _ => None end)).

Definition field_reason (what field : string) : string :=
  (what ++ " on 2dsphere field '" ++ field ++ "'")%string.

(** Source: planner/geo_plan.rs:48-77 (evaluate_2dsphere_plan). The [$geoWithin] part. *)
Definition evaluate_geo_within_plan (inner : document) (idx_name field : string) : option QueryPlan :=
  and_then (and_then (doc_get inner "$geoWithin") as_document) (fun gw =>
    match parse_center_sphere gw with
    | Some (lon, lat, rrad) =>
        let radius_m := f64_mul rrad EARTH_RADIUS_METERS in
        Some {| execution_plan := GeoCapWithin idx_name field lon lat radius_m;
                estimated_cost := 55; reason := field_reason "$geoWithin $centerSphere" field |}
    | None =>
        match and_then (doc_get gw "$geometry") as_document with
        | Some g =>
            match from_geometry_doc g with
            | Ok shape =>
                Some {| execution_plan := GeoCellCover idx_name field (covering_cell_ids shape);
                        estimated_cost := 58; reason := field_reason "$geoWithin $geometry" field |}
            | Err _ => None
            end
        | None => None
        end
    end).

(** Source: planner/geo_plan.rs:10-80 (evaluate_2dsphere_plan). *)
Definition evaluate_2dsphere_plan (query : document) (idx : IndexSpec) : option QueryPlan :=
  if negb (is_2dsphere_keys (keys idx)) then None
  else
    and_then (twodsphere_field (keys idx)) (fun field =>
    and_then (doc_get (collect_field_conditions query) field) (fun cond =>
    and_then (as_document cond) (fun inner =>
      match parse_field_near_spec inner with
      | Some (lon, lat, max_m, min_m) =>
          let max_d := opt_or max_m (Some DEFAULT_NEAR_MAX_DISTANCE_M) in
          Some {| execution_plan := GeoNear (name idx) field lon lat max_d min_m;
                  estimated_cost := 50; reason := field_reason "$near / $nearSphere" field |}
      | None =>
          match parse_geo_intersects_block inner with
          | Some shape =>
              Some {| execution_plan := GeoCellCover (name idx) field (covering_cell_ids shape);
                      estimated_cost := 58; reason := field_reason "$geoIntersects" field |}
          | None => evaluate_geo_within_plan inner (name idx) field
          end
      end))).

(** ** B-tree plans *)

(** Source: planner/mod.rs:507-589 (evaluate_index_for_query_with_projection). *)
Definition evaluate_index_for_query_with_projection (query : document) (index_spec : IndexSpec)
  (projection : option document) : option QueryPlan :=
  and_then (head (doc_keys (keys index_spec))) (fun first_index_field =>
  and_then (doc_get query first_index_field) (fun query_value =>
    let seek_values := doc_insert [] first_index_field query_value in
    let covering :=
      match projection with
      | Some proj =>
          if is_covering_index (keys index_spec) proj then
            if is_equality_query query_value then
              Some {| execution_plan := CoveringIndexScan (name index_spec) (keys index_spec)
                        (Some seek_values) proj;
                      estimated_cost := 5;
                      reason := ("Covering index on '" ++ first_index_field ++
                                 "' (no document fetch needed)")%string |}
            else if is_range_query query_value then
              Some {| execution_plan := CoveringIndexScan (name index_spec) (keys index_spec)
                        None proj;
                      estimated_cost := 50;
                      reason := ("Covering index range scan on '" ++ first_index_field ++
                                 "' (no document fetch needed)")%string |}
            else None
          else None
      | None => None
      end in
    match covering with
    | Some plan => Some plan
    | None =>
        if is_equality_query query_value then
          Some {| execution_plan := IndexSeek (name index_spec) (keys index_spec) seek_values;
                  estimated_cost := 10;
                  reason := ("Equality query on indexed field '" ++ first_index_field ++ "'")%string |}
        else if is_range_query query_value then
          Some {| execution_plan := IndexScan (name index_spec) (keys index_spec);
                  estimated_cost := 100;
                  reason := ("Range query on indexed field '" ++ first_index_field ++ "'")%string |}
        else None
    end)).

(** Source: planner/mod.rs:493-504 (pick_better). *)
Definition pick_better (current : option QueryPlan) (candidate : QueryPlan) : QueryPlan :=
  match current with
  | None => candidate
  | Some prev => if (estimated_cost candidate <? estimated_cost prev)%Z then candidate else prev
  end.

(** ** Simple queries *)

(** Source: planner/mod.rs:440-474 (plan_simple_query_with_projection). The vector
    search arm. *)
Definition vector_candidate (query : document) (index_spec : IndexSpec) : option QueryPlan :=
  and_then (vector_field (keys index_spec)) (fun field =>
    if doc_contains query field then
      let vopts := vector_options (options index_spec) in
      let dims := match vopts with Some v => dimensions v | None => 0%Z end in
      let met := match vopts with Some v => metric v | None => "cosine" end in
      if (0 <? dims)%Z then
        Some {| execution_plan := VectorIndexSearch (name index_spec) field dims met
                  (and_then vopts ef_construction) (and_then vopts m_connections)
                  (match vopts with Some v => indexing_method v | None => "hnsw" end);
                estimated_cost := 30;
                reason := ("Vector index '" ++ name index_spec ++ "' on field '" ++ field ++ "'")%string |}
      else None
    else None).

(** Source: planner/mod.rs:362-483 (plan_simple_query_with_projection). What one
    iteration of the loop offers. *)
Definition candidate_plan (query : document) (projection : option document)
  (index_spec : IndexSpec) : option QueryPlan :=
  if negb (index_eligible_for_query index_spec query) then None
  else if is_2dsphere_keys (keys index_spec) then evaluate_2dsphere_plan query index_spec
  else
    match resolve_index_type (keys index_spec) (options index_spec) with
    | Bitmap =>
        and_then (head (doc_keys (keys index_spec))) (fun field =>
          if doc_contains query field then
            Some {| execution_plan := BitmapScan (name index_spec) field; estimated_cost := 15;
                    reason := ("Bitmap index '" ++ name index_spec ++ "' on field '" ++ field ++ "'")%string |}
          else None)
    | Prefix =>
        let prefix_len := match prefix_options (options index_spec) with
                          | Some p => IndexKey.prefix_length p | None => 16%nat end in
        and_then (head (doc_keys (keys index_spec))) (fun first_field =>
          if doc_contains query first_field then
            Some {| execution_plan := PrefixIndexScan (name index_spec) (keys index_spec) prefix_len;
                    estimated_cost := 80;
                    reason := ("Prefix index '" ++ name index_spec ++ "' (prefix_length=" ++
                               Z_to_string (Z.of_nat prefix_len) ++ ")")%string |}
          else None)
    | Text =>
        if doc_contains query "$text" then
          match text_fields (keys index_spec) with
          | [] => None
          | fields =>
              Some {| execution_plan := TextIndexScan (name index_spec) fields; estimated_cost := 50;
                      reason := ("Text index '" ++ name index_spec ++ "'")%string |}
          end
        else None
    | VectorSearch => vector_candidate query index_spec
    | _ => evaluate_index_for_query_with_projection query index_spec projection
    end.

(** Source: planner/mod.rs:352-491 (plan_simple_query_with_projection). *)
Definition plan_simple_query_with_projection (query : document) (indexes : list IndexSpec)
  (projection : option document) : QueryPlan :=
  let best_plan := fold_left (fun best index_spec =>
    match candidate_plan query projection index_spec with
    | Some plan => Some (pick_better best plan)
    | None => best
    end) indexes None in
  match best_plan with
  | Some plan => plan
  | None => scan_plan "No suitable index found"
  end.

(** ** [$or] *)

(** Source: planner/mod.rs:304-309 (plan_or_query). The entries other than [$or]. *)
Definition or_base (query : document) : document :=
  fold_left (fun base '(k, v) => if negb (k =s? "$or") then doc_insert base k v else base) query [].

(** Source: planner/mod.rs:321-324 (plan_or_query). *)
Definition or_merge (base branch_doc : document) : document :=
  fold_left (fun merged '(k, v) => doc_insert merged k v) branch_doc base.

(** Source: planner/mod.rs:313-349 (plan_or_query). The loop over the branches.
    [plan_query] is the recursive call; [None] is its lack of fuel. *)
Fixpoint or_loop (plan_query : document -> option QueryPlan) (base : document)
  (subplans : list ExecutionPlan) (branches : list bson) : option QueryPlan :=
  match branches with
  | [] =>
      Some (match subplans with
            | [] => scan_plan "Empty $or"
            | _ => {| execution_plan := OrUnionPlans subplans; estimated_cost := 200;
                      reason := "Union of indexed $or branches" |}
            end)
  | BDocument branch_doc :: rest =>
      match plan_query (or_merge base branch_doc) with
      | None => None
      | Some sub =>
          match execution_plan sub with
          | CollectionScan => Some (scan_plan "$or branch falls back to collection scan")
          | plan => or_loop plan_query base (subplans ++ [plan]) rest
          end
      end
  | _ => Some (scan_plan "$or requires array of documents")
  end.

(** Source: planner/mod.rs:303-350 (plan_or_query). *)
Definition plan_or_query (plan_query : document -> option QueryPlan)
  (query : document) (branches : list bson) : option QueryPlan :=
  or_loop plan_query (or_base query) [] branches.

(** Source: planner/mod.rs:168-186 (plan_query_with_projection). The recursion
    through [$or] takes one unit of fuel per level. *)
Fixpoint plan_query_fuel (fuel : nat) (query : document) (indexes : list IndexSpec)
  (projection : option document) : option QueryPlan :=
  match fuel with
  | O => None
  | S fuel' =>
      match query with
      | [] => Some (scan_plan "Empty query requires full collection scan")
      | _ =>
          match doc_get query "$or" with
          | Some (BArray branches) =>
              plan_or_query (fun q => plan_query_fuel fuel' q indexes None) query branches
          | _ => Some (plan_simple_query_with_projection query indexes projection)
          end
      end
  end.

(** Levels of [$or] nested in the value of an [$or]. *)
Fixpoint or_nest (b : bson) : nat :=
  match b with
  | BArray branches =>
      S (fold_right Nat.max 0%nat (map (fun branch =>
        match branch with
        | BDocument d => fold_right Nat.max 0%nat (map (fun '(k, v) => or_nest v) d)
        | _ => 0%nat
        end) branches))
  | _ => 0%nat
  end.

Definition or_depth (query : document) : nat :=
  match doc_get query "$or" with Some b => or_nest b | None => 0%nat end.

(** Source: planner/mod.rs:168-186 (plan_query_with_projection). *)
Definition plan_query_with_projection (query : document) (indexes : list IndexSpec)
  (projection : option document) : QueryPlan :=
  match plan_query_fuel (S (or_depth query)) query indexes projection with
  | Some plan => plan
  | None => scan_plan ""
  end.

(** Source: planner/mod.rs:163-165 (plan_query). *)
Definition plan_query (query : document) (indexes : list IndexSpec) : QueryPlan :=
  plan_query_with_projection query indexes None.

(** ** Sort order *)

Definition directed_fields (d : document) : list (string * IndexDirection) :=
  omap (fun '(k, v) => match direction_from_bson v with Some dir => Some (k, dir) | None => None end) d.

(** Source: planner/mod.rs:281-292 (sort_matches_index). The loop over the sort
    fields and the index fields at the same positions. *)
Fixpoint sort_loop (sort_fields index_fields : list (string * IndexDirection))
  (all_same all_inverted : bool) : option (bool * bool) :=
  match sort_fields, index_fields with
  | [], _ => Some (all_same, all_inverted)
  | _ :: _, [] => None
  | (sf, sd) :: sfs, (ik, id) :: ifs =>
      if negb (sf =s? ik) then None
      else
        let same := bool_decide (sd = id) in
        sort_loop sfs ifs (if same then all_same else false) (if same then false else all_inverted)
  end.

(** Source: planner/mod.rs:259-301 (sort_matches_index). *)
Definition sort_matches_index (sort index_keys : document) : option bool :=
  let sort_fields := directed_fields sort in
  let index_fields := directed_fields index_keys in
  match sort_fields with
  | [] => None
  | _ =>
      if (length index_fields <? length sort_fields)%nat then None
      else match sort_loop sort_fields index_fields true true with
           | None => None
           | Some (all_same, all_inverted) =>
               if all_same then Some false else if all_inverted then Some true else None
           end
  end.

(** Source: planner/mod.rs:220-254 (plan_sorted_index_scan). *)
Fixpoint plan_sorted_index_scan (sort : document) (indexes : list IndexSpec) (limit : Z)
  (query : document) : option QueryPlan :=
  match indexes with
  | [] => None
  | spec :: rest =>
      if negb (bool_decide (resolve_index_type (keys spec) (options spec) = BTreeIndex))
      then plan_sorted_index_scan sort rest limit query
      else if negb (index_eligible_for_query spec query)
      then plan_sorted_index_scan sort rest limit query
      else match sort_matches_index sort (keys spec) with
           | Some reverse =>
               Some {| execution_plan := SortedIndexScan (name spec) (keys spec) limit reverse;
                       estimated_cost := Z.min u64_max (limit * 2);
                       reason := ("Index '" ++ name spec ++ "' provides sort order" ++
                                  (if reverse then " (reverse)" else ""))%string |}
           | None => plan_sorted_index_scan sort rest limit query
           end
  end.

(** Source: planner/mod.rs:192-216 (plan_query_full). *)
Definition plan_query_full (query : document) (indexes : list IndexSpec)
  (projection sort : option document) (limit : option Z) : QueryPlan :=
  let base_plan := plan_query_with_projection query indexes projection in
  match sort, limit with
  | Some sort_doc, Some lim =>
      if (0 <? lim)%Z then
        match plan_sorted_index_scan sort_doc indexes lim query with
        | Some sorted_plan =>
            if (estimated_cost sorted_plan <? estimated_cost base_plan)%Z
            then sorted_plan else base_plan
        | None => base_plan
        end
      else base_plan
  | _, _ => base_plan
  end.

Definition wrap_u32 (n : Z) : Z := (n mod 2 ^ 32)%Z.

(** Source: planner/mod.rs:667-675 (calculate_selectivity). The score of one
    operator. *)
Definition op_selectivity (op : string) : Z :=
  if op =s? "$eq" then 10
  else if op =s? "$ne" then 90
  else if (op =s? "$gt") || (op =s? "$gte") || (op =s? "$lt") || (op =s? "$lte") then 30
  else if op =s? "$in" then 20
  else if op =s? "$nin" then 80
  else if op =s? "$exists" then 70
  else 50.

(** Source: planner/mod.rs:651-683 (calculate_selectivity). *)
Definition calculate_selectivity (query : document) : Z :=
  match query with
  | [] => 2 ^ 32 - 1
  | _ =>
      fold_left (fun selectivity '(field, value) =>
        if starts_with "$" field then wrap_u32 (selectivity + 50)
        else match value with
             | BDocument doc =>
                 fold_left (fun s op => wrap_u32 (s + op_selectivity op)) (doc_keys doc) selectivity
             | _ => wrap_u32 (selectivity + 10)
             end) query 0
  end%Z.

End Planner.

(** ** Lemmas *)

Section PlannerLemmas.
Context {B : BsonOps} {M : Libm} {G : S2}.

(** *** Fuel *)

Lemma fold_max_In x l : In x l -> (x <= fold_right Nat.max 0%nat l)%nat.
Proof. induction l as [|y l IH]; simpl; [done|]. intros [->|H]; [lia|]. specialize (IH H). lia. Qed.

Lemma or_nest_branch branches d k v :
  In (BDocument d) branches -> In (k, v) d -> (or_nest v < or_nest (BArray branches))%nat.
Proof.
  intros Hb Hv. cbn [or_nest]. apply Nat.lt_succ_r.
  etransitivity; [|apply fold_max_In, in_map_iff; exists (BDocument d); split; [reflexivity|done]].
  apply fold_max_In, in_map_iff. by exists (k, v).
Qed.

Context {L : BsonLaws B}.

Lemma or_merge_In base branch k v :
  In (k, v) (or_merge base branch) -> In (k, v) base \/ In (k, v) branch.
Proof.
  unfold or_merge. revert base. induction branch as [|[k0 v0] branch IH]; intros base H; [by left|].
  simpl in H. apply IH in H as [[[-> ->]|H]%insert_In|H]; auto using in_eq, in_cons.
Qed.

Lemma or_base_In query k v : In (k, v) (or_base query) -> k <> "$or" /\ In (k, v) query.
Proof.
  unfold or_base.
  assert (H : forall l base, (forall k v, In (k, v) base -> k <> "$or" /\ In (k, v) query) ->
    (forall kv, In kv l -> In kv query) ->
    In (k, v) (fold_left (fun base '(k, v) => if negb (k =s? "$or") then doc_insert base k v else base)
      l base) -> k <> "$or" /\ In (k, v) query).
  { induction l as [|[k0 v0] l IH]; intros base Hb Hl; cbn [fold_left]; [apply Hb|].
    apply IH; [|intros; apply Hl; by right].
    destruct (String.eqb_spec k0 "$or") as [->|Hne]; simpl; [done|].
    intros k' v' [[-> ->]|H]%insert_In; [|by apply Hb]. split; [done|]. apply Hl. by left. }
  apply (H query []); [by intros ?? []|done].
Qed.

Lemma or_depth_merge query branches d :
  In (BDocument d) branches ->
  (or_depth (or_merge (or_base query) d) < or_nest (BArray branches))%nat.
Proof.
  intros Hd. unfold or_depth. destruct (doc_get _ "$or") as [v|] eqn:E; [|cbn [or_nest]; lia].
  apply get_In, or_merge_In in E as [E|E]; [by apply or_base_In in E as [? _]|].
  by eapply or_nest_branch.
Qed.

Lemma plan_or_query_ext f g query branches :
  (forall d, In (BDocument d) branches ->
     exists p, f (or_merge (or_base query) d) = Some p /\ g (or_merge (or_base query) d) = Some p) ->
  exists p, plan_or_query f query branches = Some p /\ plan_or_query g query branches = Some p.
Proof.
  unfold plan_or_query. generalize (@nil ExecutionPlan) as subs. intros subs H.
  revert subs. induction branches as [|b branches IH]; intros subs; [by eexists|].
  destruct b; try by eexists. cbn [or_loop].
  destruct (H d ltac:(by left)) as (p & -> & ->).
  assert (H' : forall d, In (BDocument d) branches -> exists p,
    f (or_merge (or_base query) d) = Some p /\ g (or_merge (or_base query) d) = Some p)
    by (intros; apply H; by right).
  destruct (execution_plan p); first [by apply IH | by eexists].
Qed.

Lemma plan_fuel_enough n1 n2 query indexes proj :
  (or_depth query < n1)%nat -> (or_depth query < n2)%nat ->
  exists p, plan_query_fuel n1 query indexes proj = Some p /\
            plan_query_fuel n2 query indexes proj = Some p.
Proof.
  revert n2 query proj. induction n1 as [|n1 IH]; intros [|n2] query proj H1 H2; try lia.
  cbn [plan_query_fuel]. destruct query as [|e q]; [by eexists|]. set (query := e :: q) in *.
  destruct (doc_get query "$or") as [v|] eqn:E; [|by eexists].
  destruct v as [| |branches| | | | | | | | | | | | | | | | | |]; try by eexists.
  assert (Hd : or_depth query = or_nest (BArray branches)) by (unfold or_depth; by rewrite E).
  apply plan_or_query_ext. intros d Hin. pose proof (or_depth_merge query branches d Hin).
  apply IH; lia.
Qed.

(** *** Candidates *)

Lemma best_of_fold query proj indexes best :
  let r := fold_left (fun best index_spec =>
    match candidate_plan query proj index_spec with
    | Some plan => Some (pick_better best plan)
    | None => best
    end) indexes best in
  (forall p, best = Some p -> exists p', r = Some p' /\ (estimated_cost p' <= estimated_cost p)%Z) /\
  (forall i p, In i indexes -> candidate_plan query proj i = Some p ->
     exists p', r = Some p' /\ (estimated_cost p' <= estimated_cost p)%Z) /\
  (forall p, r = Some p -> best = Some p \/
     exists i, In i indexes /\ candidate_plan query proj i = Some p).
Proof.
  revert best. induction indexes as [|i indexes IH]; intros best; cbn [fold_left].
  - split; [intros p ->; eexists; split; [done|lia]|]. split; [done|]. by left.
  - set (best1 := match candidate_plan query proj i with
                  | Some plan => Some (pick_better best plan) | None => best end).
    destruct (IH best1) as (H1 & H2 & H3).
    assert (Hb : forall p, best = Some p -> exists p', best1 = Some p' /\
      (estimated_cost p' <= estimated_cost p)%Z).
    { intros p ->. unfold best1. destruct (candidate_plan query proj i) as [c|]; simpl.
      - destruct (Z.ltb_spec (estimated_cost c) (estimated_cost p)); eexists; (split; [done|lia]).
      - eexists. split; [done|lia]. }
    split; [|split].
    + intros p Hp. destruct (Hb p Hp) as (p1 & E1 & C1). destruct (H1 p1 E1) as (p2 & E2 & C2).
      exists p2. split; [done|lia].
    + intros i' p [<-|Hin] Hc; [|by eapply H2].
      assert (Hc1 : exists p1, best1 = Some p1 /\ (estimated_cost p1 <= estimated_cost p)%Z).
      { unfold best1. rewrite Hc. destruct best as [b|]; simpl; [|eexists; split; [done|lia]].
        destruct (Z.ltb_spec (estimated_cost p) (estimated_cost b)); eexists; (split; [done|lia]). }
      destruct Hc1 as (p1 & E1 & C1). destruct (H1 p1 E1) as (p2 & E2 & C2).
      exists p2. split; [done|lia].
    + intros p Hp. destruct (H3 p Hp) as [E|(i' & Hin & Hc)]; [|right; exists i'; auto using in_cons].
      unfold best1 in E. destruct (candidate_plan query proj i) as [c|] eqn:Ec; [|by left].
      destruct best as [b|]; simpl in E.
      * destruct (estimated_cost c <? estimated_cost b)%Z; injection E as <-; [right; exists i|by left].
        split; [by left|done].
      * injection E as <-. right. exists i. split; [by left|done].
Qed.
End PlannerLemmas.

(** ** Properties *)

Section PlannerProps.
Context {B : BsonOps} {M : Libm} {G : S2} {L : BsonLaws B}.

(** The planner terminates on every query and satisfies the
    recursive equation of the source without fuel: an empty query scans, an
    [$or] plans each branch merged with the other conditions by the planner
    itself, anything else is planned as a simple query. *)
Theorem plan_query_equation query indexes projection :
  Some (plan_query_with_projection query indexes projection) =
  match query with
  | [] => Some (scan_plan "Empty query requires full collection scan")
  | _ =>
      match doc_get query "$or" with
      | Some (BArray branches) =>
          plan_or_query (fun q => Some (plan_query q indexes)) query branches
      | _ => Some (plan_simple_query_with_projection query indexes projection)
      end
  end.
Proof.
  unfold plan_query_with_projection at 1. cbn [plan_query_fuel].
  destruct query as [|e q]; [done|]. set (query := e :: q) in *.
  destruct (doc_get query "$or") as [v|] eqn:E; [|done].
  destruct v as [| |branches| | | | | | | | | | | | | | | | | |]; try done.
  assert (Hd : or_depth query = or_nest (BArray branches)) by (unfold or_depth; by rewrite E).
  destruct (plan_or_query_ext (fun q => plan_query_fuel (or_depth query) q indexes None)
    (fun q => Some (plan_query q indexes)) query branches) as (p & -> & ->); [|done].
  intros d Hin. pose proof (or_depth_merge query branches d Hin) as Hlt.
  destruct (plan_fuel_enough (or_depth query) (S (or_depth (or_merge (or_base query) d)))
    (or_merge (or_base query) d) indexes None) as (p & E1 & E2); [lia|lia|].
  exists p. split; [done|]. unfold plan_query, plan_query_with_projection. by rewrite E2.
Qed.

(** The plan of a simple query costs no more than what any index
    offers, and it is either the offer of an index of the list or, when no
    index offers one, the collection scan. *)
Theorem simple_plan_is_cheapest query indexes proj :
  let best := plan_simple_query_with_projection query indexes proj in
  (forall i p, In i indexes -> candidate_plan query proj i = Some p ->
     (estimated_cost best <= estimated_cost p)%Z) /\
  ((exists i, In i indexes /\ candidate_plan query proj i = Some best) \/
   (best = scan_plan "No suitable index found" /\
    forall i, In i indexes -> candidate_plan query proj i = None)).
Proof.
  unfold plan_simple_query_with_projection.
  destruct (best_of_fold query proj indexes None) as (_ & H2 & H3).
  destruct (fold_left _ indexes None) as [best|] eqn:E; cbv zeta.
  - split.
    + intros i p Hin Hc. destruct (H2 i p Hin Hc) as (p' & [= ->] & Hle). done.
    + left. destruct (H3 best eq_refl) as [[=]|H]. done.
  - split.
    + intros i p Hin Hc. by destruct (H2 i p Hin Hc) as (p' & [=] & _).
    + right. split; [done|]. intros i Hin. destruct (candidate_plan query proj i) eqn:Ec; [|done].
      by destruct (H2 i _ Hin Ec) as (p' & [=] & _).
Qed.

Definition flip (d : IndexDirection) : IndexDirection :=
  match d with Ascending => Descending | Descending => Ascending end.

Definition oriented (reverse : bool) (f : string * IndexDirection) : string * IndexDirection :=
  (fst f, if reverse then flip (snd f) else snd f).

Lemma sort_loop_spec sfs ifs s i :
  sort_loop sfs ifs s i = None \/
  exists pre rest s' i', ifs = pre ++ rest /\ map fst pre = map fst sfs /\
    sort_loop sfs ifs s i = Some (s && s', i && i') /\
    (s' = true <-> pre = sfs) /\ (i' = true <-> pre = map (oriented true) sfs).
Proof.
  revert ifs s i. induction sfs as [|[sf sd] sfs IH]; intros ifs s i; cbn [sort_loop].
  - right. exists [], ifs, true, true. by rewrite !andb_true_r.
  - destruct ifs as [|[ik id] ifs]; [by left|].
    destruct (String.eqb_spec sf ik) as [<-|]; simpl; [|by left].
    destruct (IH ifs (if bool_decide (sd = id) then s else false)
      (if bool_decide (sd = id) then false else i)) as [->|(pre & rest & s' & i' & E & Hf & -> & Hs & Hi)];
      [by left|right].
    exists ((sf, id) :: pre), rest, (bool_decide (sd = id) && s'), (negb (bool_decide (sd = id)) && i').
    split; [by rewrite E|]. split; [simpl; by rewrite Hf|].
    assert (Hflip : forall x y, x <> y <-> y = flip x) by (by intros [] []).
    split; [by case_bool_decide; destruct s, i, s', i'|]. split.
    + rewrite andb_true_iff, bool_decide_eq_true, Hs. split; [by intros [-> ->]|].
      by injection 1 as -> ->.
    + rewrite andb_true_iff, negb_true_iff, bool_decide_eq_false, Hi, Hflip.
      unfold oriented. simpl. split; [by intros [-> ->]|]. by injection 1 as -> ->.
Qed.

(** An index answers a sort exactly when the sort fields, in
    order, are the leading fields of the index, all with the same direction
    (forward) or all with the opposite one (reverse). *)
Theorem sort_matches_index_spec sort ks r :
  sort_matches_index sort ks = Some r <->
  directed_fields sort <> [] /\
  exists rest, directed_fields ks = map (oriented r) (directed_fields sort) ++ rest.
Proof.
  unfold sort_matches_index. generalize (directed_fields sort) as sfs.
  generalize (directed_fields ks) as ifs. intros ifs sfs.
  assert (Hid : map (oriented false) sfs = sfs)
    by (rewrite <- (map_id sfs) at 2; apply map_ext; by intros []).
  destruct sfs as [|f sfs]; [split; [done|by intros [? _]]|]. set (l := f :: sfs) in *.
  assert (Hne : l <> map (oriented true) l) by (subst l; destruct f as [? []]; done).
  destruct (Nat.ltb_spec (length ifs) (length l)) as [Hl|Hl].
  { split; [done|]. intros [_ [rest ->]]. rewrite length_app, length_map in Hl. lia. }
  destruct (sort_loop_spec l ifs true true) as [E|(pre & rest & s & i & -> & Hf & -> & Hs & Hi)].
  - rewrite E. split; [done|]. intros [_ [rest ->]]. exfalso. clear Hl Hid Hne. revert E.
    generalize true at 1 as s. generalize true as i. clearbody l. clear f sfs.
    induction l as [|[sf sd] l IH]; intros i s; [done|]. simpl. rewrite String.eqb_refl. simpl. apply IH.
  - assert (Hlen : length pre = length l) by (rewrite <- (length_map fst pre), Hf; apply length_map).
    assert (Happ : forall x, (exists rest', pre ++ rest = x ++ rest') -> length x = length l -> pre = x).
    { intros x [rest' E] Hx. apply (f_equal (take (length pre))) in E.
      rewrite take_app_length in E. rewrite Hlen, <- Hx, take_app_length in E. done. }
    split.
    + intros H. split; [done|]. exists rest. f_equal.
      destruct s; [injection H as <-; rewrite Hid; by apply Hs|].
      destruct i; [injection H as <-; by apply Hi|done].
    + intros [_ Hr]. apply Happ in Hr; [|apply length_map].
      destruct r.
      * assert (i = true) as -> by (by apply Hi). destruct s; [|done].
        exfalso. apply Hne. rewrite <- Hr. symmetry. by apply Hs.
      * rewrite Hid in Hr. assert (s = true) as -> by (by apply Hs). done.
Qed.

(** *** The indexes a plan uses *)

Fixpoint plan_indexes (p : ExecutionPlan) : list string :=
  match p with
  | CollectionScan => []
  | IndexScan n _ | IndexSeek n _ _ | CoveringIndexScan n _ _ _ | SortedIndexScan n _ _ _
  | VectorIndexSearch n _ _ _ _ _ _ | BitmapScan n _ | TextIndexScan n _ | PrefixIndexScan n _ _
  | GeoNear n _ _ _ _ _ | GeoCapWithin n _ _ _ _ | GeoCellCover n _ _ => [n]
  | OrUnionPlans subplans => List.concat (map plan_indexes subplans)
  end.

Lemma candidate_index query proj i p :
  candidate_plan query proj i = Some p ->
  plan_indexes (execution_plan p) = [name i] /\ index_eligible_for_query i query = true.
Proof.
  unfold candidate_plan. destruct (index_eligible_for_query i query); [|done]. cbn [negb].
  intros H. split; [|done]. revert H.
  destruct (is_2dsphere_keys (keys i)).
  - unfold evaluate_2dsphere_plan, evaluate_geo_within_plan, and_then.
    repeat case_match; try done; injection 1 as <-; done.
  - destruct (resolve_index_type _ _);
      unfold evaluate_index_for_query_with_projection, vector_candidate, and_then; cbv zeta;
      repeat case_match; simplify_eq; try done; injection 1 as <-; done.
Qed.

Lemma simple_plan_indexes query indexes proj n :
  In n (plan_indexes (execution_plan (plan_simple_query_with_projection query indexes proj))) ->
  exists i, In i indexes /\ name i = n.
Proof.
  unfold plan_simple_query_with_projection.
  destruct (best_of_fold query proj indexes None) as (_ & _ & H3).
  destruct (fold_left _ indexes None) as [best|] eqn:E; [|done].
  destruct (H3 best eq_refl) as [[=]|(i & Hi & Hc)].
  apply candidate_index in Hc as [-> _]. intros [<-|[]]. by exists i.
Qed.

Lemma or_loop_indexes (f : document -> option QueryPlan) base subs branches p (S : string -> Prop) :
  (forall q p, f q = Some p -> forall n, In n (plan_indexes (execution_plan p)) -> S n) ->
  (forall s n, In s subs -> In n (plan_indexes s) -> S n) ->
  or_loop f base subs branches = Some p ->
  forall n, In n (plan_indexes (execution_plan p)) -> S n.
Proof.
  intros Hf. revert subs. induction branches as [|b branches IH]; intros subs Hs; cbn [or_loop].
  - injection 1 as <-. intros n. destruct subs as [|s subs]; [done|]. cbn [execution_plan plan_indexes].
    rewrite in_concat. intros (l & (s' & <- & Hin)%in_map_iff & Hn). by eapply Hs.
  - destruct b; try (injection 1 as <-; done).
    destruct (f (or_merge base d)) as [sub|] eqn:E; [|done].
    assert (Hsub : forall s n, In s (subs ++ [execution_plan sub]) -> In n (plan_indexes s) -> S n).
    { intros s n [Hin|[<-|[]]]%in_app_iff Hn; [by eapply Hs|by eapply Hf]. }
    destruct (execution_plan sub) eqn:Es; try (by apply IH). injection 1 as <-. done.
Qed.

Lemma plan_fuel_indexes fuel query indexes proj p :
  plan_query_fuel fuel query indexes proj = Some p ->
  forall n, In n (plan_indexes (execution_plan p)) -> exists i, In i indexes /\ name i = n.
Proof.
  revert query proj p. induction fuel as [|fuel IH]; intros query proj p; [done|].
  cbn [plan_query_fuel]. destruct query as [|e q]; [injection 1 as <-; done|].
  destruct (doc_get (e :: q) "$or") as [v|];
    [|injection 1 as <-; intros ?; apply simple_plan_indexes].
  destruct v; try (injection 1 as <-; intros ?; apply simple_plan_indexes).
  apply or_loop_indexes; [|by intros ?? []]. intros q' p'. apply IH.
Qed.

(** Every index a plan uses, in every branch of an [$or] union
    and for a sorted scan, is one of the collection's indexes. *)
Theorem plan_uses_listed_indexes query indexes proj sort limit n :
  In n (plan_indexes (execution_plan (plan_query_full query indexes proj sort limit))) ->
  exists i, In i indexes /\ name i = n.
Proof.
  assert (Hbase : In n (plan_indexes (execution_plan
      (plan_query_with_projection query indexes proj))) -> exists i, In i indexes /\ name i = n).
  { unfold plan_query_with_projection. destruct (plan_query_fuel _ _ _ _) eqn:E; [|done].
    by apply (plan_fuel_indexes _ _ _ _ _ E). }
  unfold plan_query_full. destruct sort as [sd|]; [|done]. destruct limit as [lim|]; [|done].
  destruct (0 <? lim)%Z; [|done].
  assert (Hs : forall l p, plan_sorted_index_scan sd l lim query = Some p ->
    exists i, In i l /\ plan_indexes (execution_plan p) = [name i]).
  { induction l as [|i l IH]; intros p; cbn [plan_sorted_index_scan]; [done|].
    assert (Hr : plan_sorted_index_scan sd l lim query = Some p ->
      exists j, In j (i :: l) /\ plan_indexes (execution_plan p) = [name j]).
    { intros H. destruct (IH p H) as (j & Hj & E). exists j. auto using in_cons. }
    destruct (negb (bool_decide _)); [done|]. destruct (negb _); [done|].
    destruct (sort_matches_index sd (keys i)); [|done]. injection 1 as <-. exists i. auto using in_eq. }
  destruct (plan_sorted_index_scan sd indexes lim query) as [p|] eqn:E; [|done].
  destruct (_ <? _)%Z; [|done]. destruct (Hs indexes p E) as (i & Hi & ->).
  intros [<-|[]]. by exists i.
Qed.

(** A covering plan is chosen only when every field the
    projection includes, [_id] aside, is a field of the index. *)
Theorem covering_plan_has_fields query proj i p n ks sv pr field v :
  candidate_plan query (Some proj) i = Some p ->
  execution_plan p = CoveringIndexScan n ks sv pr ->
  In (field, v) pr -> is_truthy_value v = true -> field = "_id" \/ In field (doc_keys ks).
Proof.
  intros Hc Hp Hin Hv.
  assert (Hcov : is_covering_index ks pr = true).
  { revert Hc. unfold candidate_plan, evaluate_2dsphere_plan, evaluate_geo_within_plan,
      vector_candidate, evaluate_index_for_query_with_projection, and_then. cbv zeta.
    repeat case_match; intros; simplify_eq; try done; cbn in Hp; by simplify_eq. }
  unfold is_covering_index in Hcov. destruct (existsb _ pr); [|done]. cbn [negb] in Hcov.
  rewrite forallb_forall in Hcov. specialize (Hcov (field, v) Hin). cbv beta iota in Hcov.
  rewrite Hv in Hcov. cbn [negb] in Hcov. rewrite andb_false_r in Hcov.
  rewrite negb_true_iff, andb_false_iff, !negb_false_iff in Hcov.
  destruct Hcov as [(f & Hf & ->%String.eqb_eq)%existsb_exists| ->%String.eqb_eq]; auto.
Qed.

(** *** Soundness of partial indexes *)

Context {T : TextEnv} {X : ExprEngine}.

(** The values a query and a partial filter give to the same field: equality of
    the [bson] crate is equality on them, they are ordered, and no geospatial
    operator is involved. *)
Definition filter_values_ok (query pf : document) : Prop :=
  forall field pf_val q_val, In (field, pf_val) pf -> doc_get query field = Some q_val ->
    (bson_eqb q_val pf_val = true -> q_val = pf_val) /\
    forall pd qd, pf_val = BDocument pd -> q_val = BDocument qd ->
      List.NoDup (doc_keys pd) /\ existsb (doc_contains qd) geo_keys = false /\
      forall op pv qv, In (op, pv) pd -> doc_get qd op = Some qv ->
        (bson_eqb qv pv = true -> qv = pv) /\ comparable pv = true /\ comparable qv = true.

Lemma tighter_gt v pv qv :
  comparable v = true -> comparable pv = true -> comparable qv = true ->
  bson_cmp qv pv <> Lt -> bson_cmp v qv <> Lt -> bson_cmp v pv <> Lt /\
  (bson_cmp v qv = Gt -> bson_cmp v pv = Gt).
Proof.
  intros Hv Hp Hq Hle Hvq. pose proof bson_cmp_tp as TP.
  pose proof (tp_sym _ _ TP qv pv Hq Hp) as S1. pose proof (tp_sym _ _ TP v qv Hv Hq) as S2.
  pose proof (tp_sym _ _ TP v pv Hv Hp) as S3.
  pose proof (tp_trans _ _ TP pv qv v Hp Hq Hv) as T1.
  pose proof (tp_eq_l _ _ pv v qv TP Hp Hv Hq) as T2.
  rewrite S1, S2, S3 in *.
  destruct (bson_cmp qv pv), (bson_cmp v qv), (bson_cmp v pv); simpl in *; split;
    try done; intros; try done; exfalso; first [by apply T1 | by specialize (T2 eq_refl)].
Qed.

Lemma num_cmp pv qv a b :
  comparable pv = true -> comparable qv = true ->
  bson_to_f64 pv = Some a -> bson_to_f64 qv = Some b -> bson_cmp pv qv = f64_cmp_or_eq a b.
Proof.
  intros Hp Hq Ha Hb.
  destruct pv; try done; destruct qv; try done; cbn in Ha, Hb; injection Ha as <-; injection Hb as <-;
    cbn [comparable] in Hp, Hq; try done; cbn -[f64_cmp_or_eq f64_of_Z Z.compare];
    change (1 ?= 1)%Z with Eq; cbv iota; by rewrite ?f64_cmp_of_Z by (by apply comparable_small).
Qed.

Lemma leb_cmp a b : f64_leb a b = true -> f64_cmp_or_eq a b <> Gt.
Proof.
  unfold f64_leb, SpecFloat.SFleb, f64_cmp_or_eq, f64_partial_cmp.
  by destruct (SpecFloat.SFcompare a b) as [[]|].
Qed.

Lemma tighter_lt v pv qv :
  comparable v = true -> comparable pv = true -> comparable qv = true ->
  bson_cmp qv pv <> Gt -> bson_cmp v qv <> Gt -> bson_cmp v pv <> Gt /\
  (bson_cmp v qv = Lt -> bson_cmp v pv = Lt).
Proof.
  intros Hv Hp Hq Hle Hvq. pose proof bson_cmp_tp as TP.
  pose proof (tp_trans _ _ TP v qv pv Hv Hq Hp Hvq Hle) as T1. split; [done|]. intros Hlt.
  pose proof (tp_eq_l _ _ v pv qv TP Hv Hp Hq) as T2.
  pose proof (tp_sym _ _ TP pv qv Hp Hq) as S1. rewrite S1 in Hle. rewrite Hlt in T2.
  destruct (bson_cmp v pv); try done. specialize (T2 eq_refl). by rewrite <- T2 in Hle.
Qed.

Lemma eval_range_ops doc key v c :
  eval_operator doc key v "$gt" c = Ok (bson_gt v c) /\
  eval_operator doc key v "$gte" c = Ok (bson_gte v c) /\
  eval_operator doc key v "$lt" c = Ok (bson_lt v c) /\
  eval_operator doc key v "$lte" c = Ok (bson_lte v c).
Proof. by destruct c. Qed.

Lemma tighter_op op pv qv :
  comparable pv = true -> comparable qv = true -> is_tighter_bound op pv qv = true ->
  (In op ["$gt"; "$gte"] /\ bson_cmp qv pv <> Lt) \/
  (In op ["$lt"; "$lte"] /\ bson_cmp qv pv <> Gt).
Proof.
  intros Hp Hq Ht. unfold is_tighter_bound in Ht.
  destruct (bson_to_f64 pv) as [a|] eqn:Ea; [|done].
  destruct (bson_to_f64 qv) as [b|] eqn:Eb; [|done].
  pose proof (num_cmp pv qv a b Hp Hq Ea Eb) as Hpq.
  pose proof (num_cmp qv pv b a Hq Hp Eb Ea) as Hqp.
  pose proof (tp_sym _ _ bson_cmp_tp pv qv Hp Hq) as Hsym.
  destruct ((op =s? "$gt") || (op =s? "$gte")) eqn:E1.
  - left. split.
    + apply orb_true_iff in E1 as [E|E]; apply String.eqb_eq in E; subst op; [by left|by right; left].
    + apply leb_cmp in Ht. rewrite Hsym, Hpq. by destruct (f64_cmp_or_eq a b).
  - destruct ((op =s? "$lt") || (op =s? "$lte")) eqn:E2; [|done]. right. split.
    + apply orb_true_iff in E2 as [E|E]; apply String.eqb_eq in E; subst op; [by left|by right; left].
    + apply leb_cmp in Ht. by rewrite Hqp.
Qed.

Lemma bound_sound op v pv qv doc key :
  (forall x, v = Some x -> comparable x = true) ->
  comparable pv = true -> comparable qv = true -> is_tighter_bound op pv qv = true ->
  eval_operator doc key v op qv = Ok true -> eval_operator doc key v op pv = Ok true.
Proof.
  intros Hv Hp Hq Ht.
  destruct (eval_range_ops doc key v pv) as (P1 & P2 & P3 & P4).
  destruct (eval_range_ops doc key v qv) as (Q1 & Q2 & Q3 & Q4).
  destruct (tighter_op op pv qv Hp Hq Ht) as [[Hop Hle]|[Hop Hle]];
    destruct Hop as [<-|Hop]; try (destruct Hop as [<-|Hop]; [|done]);
    rewrite ?P1, ?P2, ?P3, ?P4, ?Q1, ?Q2, ?Q3, ?Q4; (destruct v as [x|]; [|done]);
    specialize (Hv x eq_refl); cbn [bson_gt bson_gte bson_lt bson_lte]; cbv zeta.
  1,2: pose proof (tighter_gt x pv qv Hv Hp Hq Hle) as H.
  3,4: pose proof (tighter_lt x pv qv Hv Hp Hq Hle) as H.
  all: destruct (bson_cmp x qv); try done; destruct H as [H1 H2]; try done; try (by rewrite H2);
    by destruct (bson_cmp x pv).
Qed.

Lemma field_not_logical field :
  starts_with "$" field = false -> forall doc c,
  eval_entry doc field c = eval_field_condition eval_operator doc field c.
Proof.
  intros Hf doc c. rewrite eval_entry_eq.
  repeat (match goal with |- context [field =s? ?s] =>
    destruct (String.eqb_spec field s) as [->|_]; [done|] end). done.
Qed.

End PlannerProps.

(** ** Witnesses *)

Definition age_index : IndexSpec :=
  {| name := "age_1"; keys := [("age", BInt32 1)]; options := default_options |}.

Lemma plan_query_equation_witness :
  Some (plan_query_with_projection
    [("$or", BArray [BDocument [("age", BInt32 3)];
                     BDocument [("age", BDocument [("$gt", BInt32 9)])]])] [age_index] None) =
  Some {| execution_plan := OrUnionPlans
            [IndexSeek "age_1" [("age", BInt32 1)] [("age", BInt32 3)];
             IndexScan "age_1" [("age", BInt32 1)]];
          estimated_cost := 200; reason := "Union of indexed $or branches" |}.
Proof. rewrite plan_query_equation. vm_compute. reflexivity. Defined.

Lemma covering_plan_has_fields_witness : "age" = "_id" \/ In "age" ["age"].
Proof.
  apply (covering_plan_has_fields [("age", BInt32 3)] [("age", BInt32 1); ("_id", BInt32 0)]
    age_index
    {| execution_plan := CoveringIndexScan "age_1" [("age", BInt32 1)]
         (Some [("age", BInt32 3)]) [("age", BInt32 1); ("_id", BInt32 0)];
       estimated_cost := 5; reason := "Covering index on 'age' (no document fetch needed)" |}
    "age_1" [("age", BInt32 1)] (Some [("age", BInt32 3)])
    [("age", BInt32 1); ("_id", BInt32 0)] "age" (BInt32 1)); try reflexivity. by left.
Defined.

Lemma plan_uses_listed_indexes_witness : exists i, In i [age_index] /\ name i = "age_1".
Proof.
  apply (plan_uses_listed_indexes [("age", BInt32 3)] [age_index] None None None). by left.
Defined.


(** Bounds are compared as doubles: an integer bound the double rounds is accepted as tighter, and
    the index misses a document the query matches. *)
Theorem rounded_bound_misses :
  let filter := [("a", BDocument [("$gte", BInt64 (2 ^ 53 + 1)%Z)])] in
  let query := [("a", BDocument [("$gte", BInt64 (2 ^ 53)%Z)])] in
  let doc := [("a", BInt64 (2 ^ 53)%Z)] in
  query_satisfies_partial_filter query filter = true /\
  eval_query doc query = Ok true /\ eval_query doc filter = Ok false.
Proof. vm_compute. split_and!; reflexivity. Qed.

(** ** Behaviours worth recording *)

(** The covering test looks at the projection only: the scan is also chosen
    for a query with a condition on a field that is not in the index. *)
Theorem covering_ignores_filter_fields :
  execution_plan (plan_query_with_projection [("age", BInt32 3); ("city", BString "oslo")]
    [age_index] (Some [("age", BInt32 1); ("_id", BInt32 0)])) =
  CoveringIndexScan "age_1" [("age", BInt32 1)] (Some [("age", BInt32 3)])
    [("age", BInt32 1); ("_id", BInt32 0)].
Proof. vm_compute. reflexivity. Qed.
