(* ===== verification/Schema.v ===== *)
(** * Document validation against a [$jsonSchema]

    [src/rust/smongo-engine/src/schema.rs].  The functions call each other
    through [validate_value] on a sub-schema only, so each is written over
    its recursive call [rec] and [validate_value] ties the knot with one unit
    of fuel per level of nesting of the schema; [validate_value_equation]
    shows that the fuel [bson_depth] is always enough. *)

From Stdlib Require Import ZArith Lia Ascii String Strings.Byte.
From S2P Require Import Prelude F64 Bson RefBson Query Update.
From stdpp Require Import base tactics list strings.

Open Scope string_scope.
Open Scope list_scope.

Section Schema.
Context {B : BsonOps} {M : Libm} {T : TextEnv}.

(** Source: schema.rs:28-28 (MAX_NESTING_DEPTH). *)
Definition MAX_NESTING_DEPTH : nat := 100.

(** Source: schema.rs:29-29 (MAX_REGEX_PATTERN_LEN). *)
Definition MAX_REGEX_PATTERN_LEN : nat := 1024.

(** Source: schema.rs:33-36 (ValidationError). *)
Record ValidationError : Type := { path : string; message : string }.

(** Source: schema.rs:39-45 (fmt). The [Display] of an error. *)
Definition validation_error_display (e : ValidationError) : string :=
  if path e =s? "" then ("Validation failed: " ++ message e)%string
  else ("Validation failed at '" ++ path e ++ "': " ++ message e)%string.

Definition fail {A} (path message : string) : result A ValidationError :=
  Err {| path := path; message := message |}.

(** A string between double quotes, as [{:?}] prints a plain identifier. *)
Definition quoted (s : string) : string :=
  let q := String (Ascii.ascii_of_nat 34) EmptyString in (q ++ s ++ q)%string.

Definition show_nat (n : nat) : string := Z_to_string (Z.of_nat n).

(** ** Types *)

(** Source: schema.rs:72-78 (join_path). *)
Definition join_path (base field : string) : string :=
  if base =s? "" then field else (base ++ "." ++ field)%string.

(** Source: schema.rs:80-100 (check_bson_type). *)
Definition check_bson_type (value : bson) (type_name : string) : bool :=
  if type_name =s? "string" then match value with BString _ => true | _ => false end
  else if type_name =s? "int" then match value with BInt32 _ => true | _ => false end
  else if type_name =s? "long" then match value with BInt64 _ => true | _ => false end
  else if type_name =s? "double" then match value with BDouble _ => true | _ => false end
  else if type_name =s? "number" then
    match value with BInt32 _ | BInt64 _ | BDouble _ => true | _ => false end
  else if (type_name =s? "bool") || (type_name =s? "boolean") then
    match value with BBoolean _ => true | _ => false end
  else if type_name =s? "object" then match value with BDocument _ => true | _ => false end
  else if type_name =s? "array" then match value with BArray _ => true | _ => false end
  else if type_name =s? "null" then match value with BNull => true | _ => false end
  else if type_name =s? "objectId" then match value with BObjectId _ => true | _ => false end
  else if type_name =s? "date" then match value with BDateTime _ => true | _ => false end
  else if type_name =s? "regex" then
    match value with BRegularExpression _ _ => true | _ => false end
  else if type_name =s? "binData" then match value with BBinary _ _ => true | _ => false end
  else false.

(** [t.as_str() == Some(name)]. *)
Definition is_name (name : string) (t : bson) : bool :=
  match as_str t with Some s => s =s? name | None => false end.

(** Source: schema.rs:102-108 (check_bson_type_name). *)
Definition check_bson_type_name (actual_type : string) (type_spec : bson) : bool :=
  match type_spec with
  | BString s => s =s? actual_type
  | BArray arr => existsb (is_name actual_type) arr
  | _ => true
  end.

(** Source: schema.rs:110-122 (check_type_spec). *)
Definition check_type_spec (value type_spec : bson) : bool :=
  match type_spec with
  | BString s => check_bson_type value s
  | BArray arr =>
      existsb (fun t => match t with BString s => check_bson_type value s | _ => false end) arr
  | _ => true
  end.

(** Source: schema.rs:124-136 (type_spec_label). *)
Definition type_spec_label (type_spec : bson) : string :=
  match type_spec with
  | BString s => s
  | BArray arr =>
      ("[" ++ str_join ", " (omap as_str arr) ++ "]")%string
  | _ => "unknown"
  end.

(** Source: schema.rs:138-145 (bson_to_f64). *)
Definition bson_to_f64 (value : bson) : option f64 :=
  match value with
  | BInt32 n | BInt64 n => Some (f64_of_Z n)
  | BDouble n => Some n
  | _ => None
  end.

(** Source: schema.rs:147-150 (is_numeric). *)
Definition is_numeric (value : bson) : bool :=
  match value with BInt32 _ | BInt64 _ | BDouble _ => true | _ => false end.

(** Source: schema.rs:546-562 (bson_type_name). *)
Definition bson_type_name (value : bson) : string :=
  match value with
  | BDouble _ => "double"
  | BString _ => "string"
  | BDocument _ => "object"
  | BArray _ => "array"
  | BBoolean _ => "bool"
  | BNull => "null"
  | BInt32 _ => "int"
  | BInt64 _ => "long"
  | BObjectId _ => "objectId"
  | BDateTime _ => "date"
  | BRegularExpression _ _ => "regex"
  | BBinary _ _ => "binData"
  | _ => "unknown"
  end.

(** [schema.get("bsonType").or_else(|| schema.get("type"))]. *)
Definition schema_type (schema : document) : option bson :=
  opt_or (doc_get schema "bsonType") (doc_get schema "type").

(** [schema.get(key).and_then(bson_to_f64)]. *)
Definition bound (schema : document) (key : string) : option f64 :=
  and_then (doc_get schema key) bson_to_f64.

(** The sequence of tests of a validator: each fails with its own message. *)
Definition check_bound (b : option f64) (bad : f64 -> bool) (path : string)
  (msg : f64 -> string) : result unit ValidationError :=
  match b with
  | Some x => if bad x then fail path (msg x) else Ok tt
  | None => Ok tt
  end.

(** A null value whose type specification lists ["null"]. *)
Definition allows_null (value type_spec : bson) : bool :=
  match value with
  | BNull =>
      match type_spec with BArray arr => existsb (is_name "null") arr | _ => false end
      || is_name "null" type_spec
  | _ => false
  end.

Definition type_mismatch (path : string) (type_spec value : bson) : result unit ValidationError :=
  fail path ("Expected type " ++ type_spec_label type_spec ++ ", got "
             ++ quoted (bson_type_name value))%string.

(** ** Scalars *)

(** Source: schema.rs:387-422 (validate_scalar). The bounds of a number. *)
Definition validate_number (value : bson) (schema : document) (path : string)
  : result unit ValidationError :=
  if is_numeric value then
    let n := match bson_to_f64 value with Some n => n | None => f64_zero end in
    let val := ("Value " ++ f64_display n)%string in
    let? _ := check_bound (bound schema "minimum") (fun min => f64_ltb n min) path
      (fun min => (val ++ " is less than minimum " ++ f64_display min)%string) in
    let? _ := check_bound (bound schema "maximum") (fun max => f64_ltb max n) path
      (fun max => (val ++ " is greater than maximum " ++ f64_display max)%string) in
    let? _ := check_bound (bound schema "exclusiveMinimum") (fun e => f64_leb n e) path
      (fun e => (val ++ " must be greater than " ++ f64_display e)%string) in
    check_bound (bound schema "exclusiveMaximum") (fun e => f64_leb e n) path
      (fun e => (val ++ " must be less than " ++ f64_display e)%string)
  else Ok tt.

(** Source: schema.rs:449-476 (validate_scalar). *)
Definition validate_pattern (s : string) (schema : document) (path : string)
  : result unit ValidationError :=
  match doc_get schema "pattern" with
  | Some (BString pattern) =>
      if (MAX_REGEX_PATTERN_LEN <? String.length pattern)%nat then
        fail path ("Pattern too long (" ++ show_nat (String.length pattern) ++ " chars, max "
                   ++ show_nat MAX_REGEX_PATTERN_LEN ++ ")")%string
      else
        match regex_new pattern with
        | Ok re =>
            if negb (is_match re s) then
              fail path ("String '" ++ s ++ "' does not match pattern '" ++ pattern ++ "'")%string
            else Ok tt
        | Err e => fail path ("Invalid regex pattern '" ++ pattern ++ "': " ++ e)%string
        end
  | _ => Ok tt
  end.

(** Source: schema.rs:424-477 (validate_scalar). The constraints of a string. *)
Definition validate_string (value : bson) (schema : document) (path : string)
  : result unit ValidationError :=
  match value with
  | BString s =>
      let len := String.length s in
      let flen := f64_of_Z (Z.of_nat len) in
      let? _ := check_bound (bound schema "minLength") (fun min => f64_ltb flen min) path
        (fun min => ("String length " ++ show_nat len ++ " is less than minLength "
                     ++ Z_to_string (f64_as_i64 min))%string) in
      let? _ := check_bound (bound schema "maxLength") (fun max => f64_ltb max flen) path
        (fun max => ("String length " ++ show_nat len ++ " exceeds maxLength "
                     ++ Z_to_string (f64_as_i64 max))%string) in
      validate_pattern s schema path
  | _ => Ok tt
  end.

(** Source: schema.rs:386-489 (validate_scalar). *)
Definition validate_scalar (value : bson) (schema : document) (path : string)
  : result unit ValidationError :=
  let? _ := validate_number value schema path in
  let? _ := validate_string value schema path in
  match doc_get schema "enum" with
  | Some (BArray enum_vals) =>
      if negb (vec_contains enum_vals value) then
        fail path ("Value " ++ bson_debug value ++ " not in enum")%string
      else Ok tt
  | _ => Ok tt
  end.

(** ** Sub-schemas *)

Section Step.
(** [validate_value] on a sub-schema: value, schema, path and depth. *)
Context (rec : bson -> document -> string -> nat -> result unit ValidationError).

(** Source: schema.rs:321-330 (validate_combinators). [i] counts the
    sub-schemas. *)
Fixpoint all_of (value : bson) (schemas : list bson) (path : string) (depth i : nat)
  : result unit ValidationError :=
  match schemas with
  | [] => Ok tt
  | sub :: rest =>
      let? _ :=
        match sub with
        | BDocument sub_schema =>
            map_err (fun e => {| path := Schema.path e;
                                 message := ("allOf[" ++ show_nat i ++ "]: " ++ message e)%string |})
              (rec value sub_schema path (depth + 1))
        | _ => Ok tt
        end in
      all_of value rest path depth (i + 1)
  end.

(** Whether a sub-schema is a document that accepts the value. *)
Definition sub_ok (value : bson) (path : string) (depth : nat) (sub : bson) : bool :=
  match sub with
  | BDocument sub_schema => is_ok (rec value sub_schema path (depth + 1))
  | _ => false
  end.

(** Source: schema.rs:352-362 (validate_combinators). The loop stops at the
    second match. *)
Fixpoint one_of_count (value : bson) (path : string) (depth : nat) (schemas : list bson)
  (match_count : nat) : nat :=
  match schemas with
  | [] => match_count
  | sub :: rest =>
      if sub_ok value path depth sub then
        if (1 <? match_count + 1)%nat then (match_count + 1)%nat
        else one_of_count value path depth rest (match_count + 1)
      else one_of_count value path depth rest match_count
  end.

(** Source: schema.rs:314-384 (validate_combinators). *)
Definition validate_combinators (value : bson) (schema : document) (path : string) (depth : nat)
  : result unit ValidationError :=
  let? _ :=
    match doc_get schema "allOf" with
    | Some (BArray schemas) => all_of value schemas path depth 0
    | _ => Ok tt
    end in
  let? _ :=
    match doc_get schema "anyOf" with
    | Some (BArray schemas) =>
        if negb (existsb (sub_ok value path depth) schemas) then
          fail path "Value does not match any schema in anyOf"
        else Ok tt
    | _ => Ok tt
    end in
  let? _ :=
    match doc_get schema "oneOf" with
    | Some (BArray schemas) =>
        let match_count := one_of_count value path depth schemas 0 in
        if negb (match_count =? 1)%nat then
          fail path ("Value must match exactly one schema in oneOf, but matched "
                     ++ show_nat match_count)%string
        else Ok tt
    | _ => Ok tt
    end in
  match doc_get schema "not" with
  | Some (BDocument not_schema) =>
      if is_ok (rec value not_schema path (depth + 1)) then
        fail path "Value must not match the schema in 'not'"
      else Ok tt
  | _ => Ok tt
  end.

(** Source: schema.rs:524-533 (validate_array). The inner loop: the first
    element of [rest], which starts at index [j], that equals [x]. *)
Fixpoint find_equal (x : bson) (rest : list bson) (j : nat) : option nat :=
  match rest with
  | [] => None
  | y :: rest' => if bson_eqb x y then Some j else find_equal x rest' (j + 1)
  end.

(** Source: schema.rs:524-533 (validate_array). The outer loop. *)
Fixpoint first_duplicate (arr : list bson) (i : nat) : option (nat * nat) :=
  match arr with
  | [] => None
  | x :: rest =>
      match find_equal x rest (i + 1) with
      | Some j => Some (i, j)
      | None => first_duplicate rest (i + 1)
      end
  end.

(** Source: schema.rs:536-541 (validate_array). *)
Fixpoint validate_items (arr : list bson) (items_schema : document) (path : string)
  (depth i : nat) : result unit ValidationError :=
  match arr with
  | [] => Ok tt
  | item :: rest =>
      let item_path := (path ++ "[" ++ show_nat i ++ "]")%string in
      let? _ := rec item items_schema item_path (depth + 1) in
      validate_items rest items_schema path depth (i + 1)
  end.

(** Source: schema.rs:491-544 (validate_array). *)
Definition validate_array (arr : list bson) (schema : document) (path : string) (depth : nat)
  : result unit ValidationError :=
  let len := length arr in
  let flen := f64_of_Z (Z.of_nat len) in
  let? _ := check_bound (bound schema "minItems") (fun min => f64_ltb flen min) path
    (fun min => ("Array has " ++ show_nat len ++ " items, minimum is "
                 ++ Z_to_string (f64_as_i64 min))%string) in
  let? _ := check_bound (bound schema "maxItems") (fun max => f64_ltb max flen) path
    (fun max => ("Array has " ++ show_nat len ++ " items, maximum is "
                 ++ Z_to_string (f64_as_i64 max))%string) in
  let? _ :=
    match doc_get schema "uniqueItems" with
    | Some (BBoolean true) =>
        match first_duplicate arr 0 with
        | Some (i, j) =>
            fail path ("Array items at index " ++ show_nat i ++ " and " ++ show_nat j
                       ++ " are not unique")%string
        | None => Ok tt
        end
    | _ => Ok tt
    end in
  match doc_get schema "items" with
  | Some (BDocument items_schema) => validate_items arr items_schema path depth 0
  | _ => Ok tt
  end.

(** Source: schema.rs:203-214 (validate_doc_fields). *)
Definition validate_required (doc schema : document) (path : string)
  : result unit ValidationError :=
  match doc_get schema "required" with
  | Some (BArray required) =>
      fold_result (fun _ field =>
        match field with
        | BString name =>
            if negb (doc_contains doc name) then
              fail (join_path path name) ("Required field '" ++ name ++ "' is missing")%string
            else Ok tt
        | _ => Ok tt
        end) tt required
  | _ => Ok tt
  end.

(** Source: schema.rs:216-224 (validate_doc_fields). *)
Definition validate_properties (doc schema : document) (path : string) (depth : nat)
  : result unit ValidationError :=
  match doc_get schema "properties" with
  | Some (BDocument properties) =>
      fold_result (fun _ '(field, sub_schema) =>
        match doc_get doc field, sub_schema with
        | Some field_val, BDocument sub_doc =>
            rec field_val sub_doc (join_path path field) (depth + 1)
        | _, _ => Ok tt
        end) tt properties
  | _ => Ok tt
  end.

(** Source: schema.rs:226-240 (validate_doc_fields). *)
Definition validate_additional (doc schema : document) (path : string)
  : result unit ValidationError :=
  match doc_get schema "additionalProperties", doc_get schema "properties" with
  | Some (BBoolean false), Some (BDocument properties) =>
      fold_result (fun _ key =>
        if key =s? "_id" then Ok tt
        else if negb (doc_contains properties key) then
          fail (join_path path key) ("Additional property '" ++ key ++ "' not allowed")%string
        else Ok tt) tt (doc_keys doc)
  | _, _ => Ok tt
  end.

(** Source: schema.rs:197-271 (validate_doc_fields). *)
Definition validate_doc_fields (doc schema : document) (path : string) (depth : nat)
  : result unit ValidationError :=
  let len := length doc in
  let flen := f64_of_Z (Z.of_nat len) in
  let? _ := validate_required doc schema path in
  let? _ := validate_properties doc schema path depth in
  let? _ := validate_additional doc schema path in
  let? _ := check_bound (bound schema "minProperties") (fun min => f64_ltb flen min) path
    (fun min => ("Document has " ++ show_nat len ++ " properties, minimum is "
                 ++ Z_to_string (f64_as_i64 min))%string) in
  let? _ := check_bound (bound schema "maxProperties") (fun max => f64_ltb max flen) path
    (fun max => ("Document has " ++ show_nat len ++ " properties, maximum is "
                 ++ Z_to_string (f64_as_i64 max))%string) in
  validate_combinators (BDocument doc) schema path depth.

(** Source: schema.rs:188-194 (validate_object). *)
Definition validate_shape (value : bson) (schema : document) (path : string) (depth : nat)
  : result unit ValidationError :=
  match value with
  | BDocument doc => validate_doc_fields doc schema path depth
  | BArray arr => validate_array arr schema path depth
  | _ => validate_scalar value schema path
  end.

(** Source: schema.rs:152-195 (validate_object). *)
Definition validate_object (value : bson) (schema : document) (path : string) (depth : nat)
  : result unit ValidationError :=
  if (MAX_NESTING_DEPTH <? depth)%nat then
    fail path ("Maximum nesting depth (" ++ show_nat MAX_NESTING_DEPTH ++ ") exceeded")%string
  else
    match schema_type schema with
    | Some type_spec =>
        if negb (check_type_spec value type_spec) then
          if allows_null value type_spec then Ok tt else type_mismatch path type_spec value
        else validate_shape value schema path depth
    | None => validate_shape value schema path depth
    end.

(** Source: schema.rs:305-311 (validate_value). *)
Definition validate_typed (value : bson) (schema : document) (path : string) (depth : nat)
  : result unit ValidationError :=
  let? _ := validate_combinators value schema path depth in
  match value with
  | BDocument _ => validate_object value schema path depth
  | BArray arr => validate_array arr schema path depth
  | _ => validate_scalar value schema path
  end.

(** Source: schema.rs:273-312 (validate_value). *)
Definition validate_value_step (value : bson) (schema : document) (path : string) (depth : nat)
  : result unit ValidationError :=
  match schema_type schema with
  | Some type_spec =>
      if allows_null value type_spec then Ok tt
      else if negb (check_type_spec value type_spec) then type_mismatch path type_spec value
      else validate_typed value schema path depth
  | None => validate_typed value schema path depth
  end.
End Step.

(** ** The recursion *)

(** How deep documents and arrays nest in a value. *)
Fixpoint bson_depth (b : bson) : nat :=
  match b with
  | BArray a => S (fold_right (fun x n => Nat.max (bson_depth x) n) 0%nat a)
  | BDocument d => S (fold_right (fun kv n => Nat.max (bson_depth (snd kv)) n) 0%nat d)
  | _ => 0
  end.

(** Source: schema.rs:273-312 (validate_value). With fuel; the message of the
    empty tank is never seen ([fuel_enough]). *)
Fixpoint validate_value_fuel (fuel : nat) (value : bson) (schema : document) (path : string)
  (depth : nat) : result unit ValidationError :=
  match fuel with
  | O => fail path "out of fuel"
  | S fuel' => validate_value_step (validate_value_fuel fuel') value schema path depth
  end.

(** Source: schema.rs:273-312 (validate_value). *)
Definition validate_value (value : bson) (schema : document) (path : string) (depth : nat)
  : result unit ValidationError :=
  validate_value_fuel (S (bson_depth (BDocument schema))) value schema path depth.

(** Source: schema.rs:54-70 (validate_document). *)
Definition validate_document (doc schema : document) : result unit ValidationError :=
  match schema with
  | [] => Ok tt
  | _ =>
      let? _ :=
        match schema_type schema with
        | Some type_spec =>
            if negb (check_bson_type_name "object" type_spec) then
              fail "" ("Expected type " ++ type_spec_label type_spec ++ ", got " ++ quoted "object")%string
            else Ok tt
        | None => Ok tt
        end in
      validate_doc_fields validate_value doc schema "" 0
  end.
End Schema.

(** ** Termination *)

Section Facts.
Context {B : BsonOps} {L : BsonLaws B} {M : Libm} {T : TextEnv}.

Lemma depth_elem x (l : list bson) :
  In x l -> (bson_depth x < bson_depth (BArray l))%nat.
Proof.
  cbn [bson_depth]. induction l as [|y l IH]; [done|]. intros [->|Hin]; simpl; [lia|].
  specialize (IH Hin). lia.
Qed.

Lemma depth_field k x (d : document) :
  In (k, x) d -> (bson_depth x < bson_depth (BDocument d))%nat.
Proof.
  cbn [bson_depth]. induction d as [|y d IH]; [done|]. intros [->|Hin]; simpl; [lia|].
  specialize (IH Hin). lia.
Qed.

Lemma depth_get d k x : doc_get d k = Some x -> (bson_depth x < bson_depth (BDocument d))%nat.
Proof. intros H. by eapply depth_field, get_In. Qed.

(** Two recursive calls that agree on every schema nested in [schema]. *)
Definition agree (schema : document)
  (r1 r2 : bson -> document -> string -> nat -> result unit ValidationError) : Prop :=
  forall v sub p d, (bson_depth (BDocument sub) < bson_depth (BDocument schema))%nat ->
    r1 v sub p d = r2 v sub p d.

Section Ext.
Context (schema : document)
  (r1 r2 : bson -> document -> string -> nat -> result unit ValidationError)
  (Hag : agree schema r1 r2).

Lemma sub_ok_ext key l sub v p d :
  doc_get schema key = Some (BArray l) -> In sub l ->
  sub_ok r1 v p d sub = sub_ok r2 v p d sub.
Proof.
  intros Hg Hin. unfold sub_ok. destruct sub; try done.
  rewrite (Hag v _ p); [done|]. apply depth_get in Hg. apply depth_elem in Hin. lia.
Qed.

Lemma all_of_ext l v p d i :
  (forall sub, In (BDocument sub) l ->
     (bson_depth (BDocument sub) < bson_depth (BDocument schema))%nat) ->
  all_of r1 v l p d i = all_of r2 v l p d i.
Proof.
  revert i. induction l as [|sub l IH]; intros i H; [done|]. cbn [all_of].
  rewrite IH by (intros; apply H; by right).
  destruct sub; try done. by rewrite (Hag v _ p) by (apply H; by left).
Qed.

Lemma one_of_ext l v p d n :
  (forall sub, In sub l -> sub_ok r1 v p d sub = sub_ok r2 v p d sub) ->
  one_of_count r1 v p d l n = one_of_count r2 v p d l n.
Proof.
  revert n. induction l as [|sub l IH]; intros n H; [done|]. cbn [one_of_count].
  rewrite (H sub) by (by left). rewrite !IH by (intros; apply H; by right). done.
Qed.

Lemma existsb_ext_in {A} (f g : A -> bool) l :
  (forall x, In x l -> f x = g x) -> existsb f l = existsb g l.
Proof.
  intros H. induction l as [|x l IH]; [done|]. simpl.
  rewrite (H x) by (by left). rewrite IH; [done|]. intros; apply H; by right.
Qed.

Lemma combinators_ext v p d :
  validate_combinators r1 v schema p d = validate_combinators r2 v schema p d.
Proof.
  unfold validate_combinators. repeat apply seq_ext.
  - destruct (doc_get schema "allOf") as [[]|] eqn:E; try done. apply all_of_ext.
    intros sub Hin. apply depth_get in E. apply depth_elem in Hin. lia.
  - destruct (doc_get schema "anyOf") as [[]|] eqn:E; try done.
    rewrite (existsb_ext_in _ (sub_ok r2 v p d)); [done|]. intros; by eapply sub_ok_ext.
  - destruct (doc_get schema "oneOf") as [[]|] eqn:E; try done.
    rewrite one_of_ext; [done|]. intros; by eapply sub_ok_ext.
  - destruct (doc_get schema "not") as [[]|] eqn:E; try done.
    rewrite (Hag v _ p); [done|]. apply depth_get in E. lia.
Qed.

Lemma items_ext arr items p d i :
  (bson_depth (BDocument items) < bson_depth (BDocument schema))%nat ->
  validate_items r1 arr items p d i = validate_items r2 arr items p d i.
Proof.
  intros H. revert i. induction arr as [|x arr IH]; intros i; [done|]. cbn [validate_items].
  apply seq_ext; [by apply Hag|apply IH].
Qed.

Lemma array_ext arr p d :
  validate_array r1 arr schema p d = validate_array r2 arr schema p d.
Proof.
  unfold validate_array. repeat (apply seq_ext; [done|]).
  destruct (doc_get schema "items") as [[]|] eqn:E; try done. apply items_ext. by eapply depth_get.
Qed.

Lemma properties_ext doc p d :
  validate_properties r1 doc schema p d = validate_properties r2 doc schema p d.
Proof.
  unfold validate_properties. destruct (doc_get schema "properties") as [[]|] eqn:E; try done.
  apply fold_result_ext. intros _ [field sub] Hin. destruct (doc_get doc field); [|done].
  destruct sub; try done. apply Hag. apply depth_get in E. apply depth_field in Hin. lia.
Qed.

Lemma doc_fields_ext doc p d :
  validate_doc_fields r1 doc schema p d = validate_doc_fields r2 doc schema p d.
Proof.
  unfold validate_doc_fields. apply seq_ext; [done|]. apply seq_ext; [apply properties_ext|].
  do 3 (apply seq_ext; [done|]). apply combinators_ext.
Qed.

Lemma step_ext v p d :
  validate_value_step r1 v schema p d = validate_value_step r2 v schema p d.
Proof.
  assert (Hs : validate_shape r1 v schema p d = validate_shape r2 v schema p d)
    by (unfold validate_shape; destruct v; first [done|apply doc_fields_ext|apply array_ext]).
  assert (Ht : validate_typed r1 v schema p d = validate_typed r2 v schema p d).
  { unfold validate_typed. apply seq_ext; [apply combinators_ext|].
    destruct v; try exact Hs. unfold validate_object. by rewrite Hs. }
  unfold validate_value_step. by rewrite Ht.
Qed.
End Ext.

Lemma fuel_enough n m v schema p d :
  (bson_depth (BDocument schema) < n)%nat -> (bson_depth (BDocument schema) < m)%nat ->
  validate_value_fuel n v schema p d = validate_value_fuel m v schema p d.
Proof.
  revert m v schema p d. induction n as [|n IH]; intros [|m] v schema p d Hn Hm; try lia.
  cbn [validate_value_fuel]. apply step_ext. intros v' sub p' d' H. apply IH; lia.
Qed.

Lemma value_unfold v schema p d :
  validate_value v schema p d = validate_value_step validate_value v schema p d.
Proof.
  unfold validate_value at 1. cbn [validate_value_fuel]. apply step_ext.
  intros v' sub p' d' H. apply fuel_enough; lia.
Qed.

(** ** What a schema means

    The declarative reading of a schema, over the acceptance [A] of values by
    sub-schemas at a given depth. *)

Section Spec.
Context (A : bson -> document -> nat -> Prop).

(** [allOf], [anyOf], [oneOf] and [not]. *)
Definition conforms_combinators (v : bson) (schema : document) (depth : nat) : Prop :=
  (forall l sub, doc_get schema "allOf" = Some (BArray l) -> In (BDocument sub) l ->
     A v sub (depth + 1)) /\
  (forall l, doc_get schema "anyOf" = Some (BArray l) ->
     exists sub, In (BDocument sub) l /\ A v sub (depth + 1)) /\
  (forall l, doc_get schema "oneOf" = Some (BArray l) ->
     exists l1 sub l2, l = l1 ++ BDocument sub :: l2 /\ A v sub (depth + 1) /\
       forall other, In (BDocument other) (l1 ++ l2) -> ~ A v other (depth + 1)) /\
  (forall sub, doc_get schema "not" = Some (BDocument sub) -> ~ A v sub (depth + 1)).

(** No bound of the schema is violated by [n]. *)
Definition above (schema : document) (key : string) (n : f64) : Prop :=
  forall m, bound schema key = Some m -> f64_ltb n m = false.
Definition below (schema : document) (key : string) (n : f64) : Prop :=
  forall m, bound schema key = Some m -> f64_ltb m n = false.

Definition conforms_fields (doc schema : document) (depth : nat) : Prop :=
  (forall l n, doc_get schema "required" = Some (BArray l) -> In (BString n) l ->
     doc_contains doc n = true) /\
  (forall props field sub v, doc_get schema "properties" = Some (BDocument props) ->
     In (field, BDocument sub) props -> doc_get doc field = Some v -> A v sub (depth + 1)) /\
  (forall props k, doc_get schema "additionalProperties" = Some (BBoolean false) ->
     doc_get schema "properties" = Some (BDocument props) -> In k (doc_keys doc) ->
     k = "_id" \/ doc_contains props k = true) /\
  above schema "minProperties" (f64_of_Z (Z.of_nat (length doc))) /\
  below schema "maxProperties" (f64_of_Z (Z.of_nat (length doc))) /\
  conforms_combinators (BDocument doc) schema depth.

Definition conforms_array (arr : list bson) (schema : document) (depth : nat) : Prop :=
  above schema "minItems" (f64_of_Z (Z.of_nat (length arr))) /\
  below schema "maxItems" (f64_of_Z (Z.of_nat (length arr))) /\
  (doc_get schema "uniqueItems" = Some (BBoolean true) -> distinct arr) /\
  (forall items v, doc_get schema "items" = Some (BDocument items) -> In v arr ->
     A v items (depth + 1)).

Definition conforms_scalar (v : bson) (schema : document) : Prop :=
  (forall n, bson_to_f64 v = Some n ->
     above schema "minimum" n /\ below schema "maximum" n /\
     (forall m, bound schema "exclusiveMinimum" = Some m -> f64_leb n m = false) /\
     (forall m, bound schema "exclusiveMaximum" = Some m -> f64_leb m n = false)) /\
  (forall s, v = BString s ->
     above schema "minLength" (f64_of_Z (Z.of_nat (String.length s))) /\
     below schema "maxLength" (f64_of_Z (Z.of_nat (String.length s))) /\
     (forall pat, doc_get schema "pattern" = Some (BString pat) ->
        (String.length pat <= 1024)%nat /\ exists re, regex_new pat = Ok re /\ is_match re s = true)) /\
  (forall l, doc_get schema "enum" = Some (BArray l) -> vec_contains l v = true).

(** A value conforms when it is a null the type allows, or has a listed type
    and satisfies the combinators and the constraints of its kind; documents
    may not nest deeper than the limit. *)
Definition conforms (v : bson) (schema : document) (depth : nat) : Prop :=
  (exists t, schema_type schema = Some t /\ allows_null v t = true) \/
  (forall t, schema_type schema = Some t -> check_type_spec v t = true) /\
  conforms_combinators v schema depth /\
  match v with
  | BDocument doc => (depth <= MAX_NESTING_DEPTH)%nat /\ conforms_fields doc schema depth
  | BArray arr => conforms_array arr schema depth
  | _ => conforms_scalar v schema
  end.
End Spec.

Section Sound.
Context (rec : bson -> document -> string -> nat -> result unit ValidationError)
  (A : bson -> document -> nat -> Prop)
  (HA : forall v s p d, rec v s p d = Ok tt <-> A v s d).

Lemma rec_ok v s p d : is_ok (rec v s p d) = true <-> A v s d.
Proof. rewrite <- (HA v s p d). by destruct (rec v s p d) as [[]|]. Qed.

Lemma sub_ok_iff v p d sub :
  sub_ok rec v p d sub = true <-> exists s, sub = BDocument s /\ A v s (d + 1).
Proof.
  unfold sub_ok. destruct sub; try (split; [done|by intros (? & ? & _)]).
  rewrite rec_ok. split; [eauto|]. by intros (s & [= <-] & H).
Qed.

Lemma check_bound_iff b bad p msg :
  check_bound b bad p msg = Ok tt <-> forall m, b = Some m -> bad m = false.
Proof.
  destruct b as [x|]; simpl; [|done]. unfold fail. rewrite check_ok.
  split; [by intros [? _] ? [= <-]|]. intros H. split; [by apply H|done].
Qed.

Lemma map_err_ok {X E F} (f : E -> F) (r : result X E) x : map_err f r = Ok x <-> r = Ok x.
Proof. destruct r; simpl; split; congruence. Qed.

Lemma all_of_iff v l p d i :
  all_of rec v l p d i = Ok tt <-> forall sub, In (BDocument sub) l -> A v sub (d + 1).
Proof.
  revert i. induction l as [|x l IH]; intros i; [by split|]. cbn [all_of].
  rewrite seq_ok, IH.
  assert (Hx : match x with
    | BDocument sub => map_err (fun e => {| path := path e;
        message := ("allOf[" ++ show_nat i ++ "]: " ++ message e)%string |}) (rec v sub p (d + 1))
    | _ => Ok tt end = Ok tt <-> forall sub, x = BDocument sub -> A v sub (d + 1)).
  { destruct x; try done. rewrite map_err_ok, HA. split; [by intros H s [= <-]|eauto]. }
  rewrite Hx. split.
  - intros [H1 H2] s [E|Hs]; eauto.
  - intros H. split; intros s Hs; apply H; [by left|by right].
Qed.

(** The count of [oneOf] is exact up to two. *)
Lemma one_of_count_spec v p d l n :
  (n <= 1)%nat ->
  one_of_count rec v p d l n = Nat.min 2 (n + length (List.filter (sub_ok rec v p d) l)).
Proof.
  revert n. induction l as [|x l IH]; intros n Hn; [cbn [one_of_count List.filter length]; lia|]. cbn [one_of_count List.filter].
  destruct (sub_ok rec v p d x); [|by apply IH]. cbn [length].
  destruct (Nat.ltb_spec 1 (n + 1)); [lia|]. rewrite IH by lia. lia.
Qed.

Lemma filter_one {X} (f : X -> bool) l :
  length (List.filter f l) = 1%nat <->
  exists l1 x l2, l = l1 ++ x :: l2 /\ f x = true /\ forall y, In y (l1 ++ l2) -> f y = false.
Proof.
  split.
  - induction l as [|x l IH]; [done|]. cbn [List.filter]. destruct (f x) eqn:Ex; cbn [length].
    + intros H. exists [], x, l. split; [done|]. split; [done|]. intros y Hy.
      destruct (f y) eqn:Ey; [|done]. exfalso.
      assert (Hin : In y (List.filter f l)) by (by apply filter_In).
      destruct (List.filter f l); [done|simpl in H; lia].
    + intros H. destruct (IH H) as (l1 & z & l2 & -> & Hz & Ho). exists (x :: l1), z, l2.
      split; [done|]. split; [done|]. intros y [<-|Hy]; auto.
  - intros (l1 & x & l2 & -> & Hx & Ho). rewrite List.filter_app. cbn [List.filter]. rewrite Hx.
    assert (Hn : forall l, (forall y, In y l -> f y = false) -> List.filter f l = []).
    { intros l0 H. induction l0 as [|y l0 IH]; [done|]. simpl. rewrite H by (by left).
      apply IH. intros; apply H; by right. }
    rewrite !Hn; [done|intros; apply Ho, in_or_app; by right|intros; apply Ho, in_or_app; by left].
Qed.

Lemma sub_ok_false v p d s : sub_ok rec v p d (BDocument s) = false <-> ~ A v s (d + 1).
Proof. unfold sub_ok. rewrite <- (rec_ok v s p (d + 1)). by destruct (is_ok _). Qed.

Lemma one_of_iff v p d l :
  one_of_count rec v p d l 0 = 1%nat <->
  exists l1 sub l2, l = l1 ++ BDocument sub :: l2 /\ A v sub (d + 1) /\
    forall other, In (BDocument other) (l1 ++ l2) -> ~ A v other (d + 1).
Proof.
  rewrite one_of_count_spec by lia. simpl plus.
  assert (Hmin : forall k, Nat.min 2 k = 1%nat <-> k = 1%nat) by lia.
  rewrite Hmin, filter_one. split.
  - intros (l1 & x & l2 & -> & Hx & Ho). apply sub_ok_iff in Hx as (s & -> & Hs).
    exists l1, s, l2. split; [done|]. split; [done|]. intros o Hin. by apply (sub_ok_false v p), Ho.
  - intros (l1 & s & l2 & -> & Hs & Ho). exists l1, (BDocument s), l2. split; [done|].
    split; [apply sub_ok_iff; eauto|]. intros y Hy.
    destruct (sub_ok rec v p d y) eqn:E; [|done]. exfalso.
    apply sub_ok_iff in E as (s' & -> & Hs'). by apply (Ho s').
Qed.

Lemma arr_key_iff (o : option bson) (f : list bson -> result unit ValidationError) (P : _ -> Prop) :
  (forall l, f l = Ok tt <-> P l) ->
  (match o with Some (BArray l) => f l | _ => Ok tt end) = Ok tt <->
  (forall l, o = Some (BArray l) -> P l).
Proof.
  intros H. destruct o as [[]|]; try done. rewrite H. split; [by intros ? ? [= <-]|eauto].
Qed.

Lemma doc_key_iff (o : option bson) (f : document -> result unit ValidationError) (P : _ -> Prop) :
  (forall l, f l = Ok tt <-> P l) ->
  (match o with Some (BDocument l) => f l | _ => Ok tt end) = Ok tt <->
  (forall l, o = Some (BDocument l) -> P l).
Proof.
  intros H. destruct o as [[]|]; try done. rewrite H. split; [by intros ? ? [= <-]|eauto].
Qed.

Lemma combinators_iff v schema p d :
  validate_combinators rec v schema p d = Ok tt <-> conforms_combinators A v schema d.
Proof.
  unfold validate_combinators, conforms_combinators. rewrite !seq_ok.
  rewrite (arr_key_iff _ _ (fun l => forall sub, In (BDocument sub) l -> A v sub (d + 1)))
    by (intros; apply all_of_iff).
  rewrite (arr_key_iff _ _ (fun l => exists sub, In (BDocument sub) l /\ A v sub (d + 1))).
  2: { intros l. unfold fail. rewrite check_ok, negb_false_iff, existsb_exists. split.
       - intros [(x & Hin & Hx) _]. apply sub_ok_iff in Hx as (s & -> & Hs). eauto.
       - intros (s & Hin & Hs). split; [|done]. exists (BDocument s). split; [done|].
         apply sub_ok_iff. eauto. }
  rewrite (arr_key_iff (doc_get schema "oneOf") _ (fun l => exists l1 sub l2,
    l = l1 ++ BDocument sub :: l2 /\ A v sub (d + 1) /\
    forall other, In (BDocument other) (l1 ++ l2) -> ~ A v other (d + 1))).
  2: { intros l. unfold fail. rewrite check_ok, negb_false_iff, Nat.eqb_eq, one_of_iff. tauto. }
  rewrite (doc_key_iff _ _ (fun s => ~ A v s (d + 1))).
  2: { intros s. unfold fail. rewrite check_ok, <- (rec_ok v s p), not_true_iff_false. tauto. }
  split; intros (H1 & H2 & H3 & H4); split; eauto.
Qed.

Lemma find_equal_none x l j : find_equal x l j = None <-> Forall (fun y => bson_eqb x y = false) l.
Proof.
  revert j. induction l as [|y l IH]; intros j; simpl; [by split|].
  destruct (bson_eqb x y) eqn:E; rewrite Forall_cons; [split; [done|]; intros [H _]; congruence|].
  rewrite IH. tauto.
Qed.

Lemma first_duplicate_none l i : first_duplicate l i = None <-> distinct l.
Proof.
  revert i. unfold distinct. induction l as [|x l IH]; intros i; simpl; [split; [constructor|done]|].
  destruct (find_equal x l (i + 1)) eqn:E.
  - split; [done|]. intros H. inversion H as [|? ? Hf _]; subst.
    apply (find_equal_none x l (i + 1)) in Hf. congruence.
  - rewrite IH. apply find_equal_none in E. split; [by constructor|by inversion 1].
Qed.

Lemma items_iff arr items p d i :
  validate_items rec arr items p d i = Ok tt <-> forall v, In v arr -> A v items (d + 1).
Proof.
  revert i. induction arr as [|x arr IH]; intros i; [by split|]. cbn [validate_items].
  rewrite seq_ok, IH, HA. split.
  - intros [H1 H2] v [<-|Hv]; auto.
  - intros H. split; [apply H; by left|intros v Hv; apply H; by right].
Qed.

Lemma array_iff arr schema p d :
  validate_array rec arr schema p d = Ok tt <-> conforms_array A arr schema d.
Proof.
  unfold validate_array, conforms_array. rewrite !seq_ok, !check_bound_iff.
  rewrite (doc_key_iff _ _ (fun items => forall v, In v arr -> A v items (d + 1)))
    by (intros; apply items_iff).
  assert (Hu : match doc_get schema "uniqueItems" with
    | Some (BBoolean true) => match first_duplicate arr 0 with
        | Some (i, j) => fail p ("Array items at index " ++ show_nat i ++ " and " ++ show_nat j
                       ++ " are not unique")%string
        | None => Ok tt end
    | _ => Ok tt end = Ok tt <->
    (doc_get schema "uniqueItems" = Some (BBoolean true) -> distinct arr)).
  { rewrite <- (first_duplicate_none arr 0).
    destruct (doc_get schema "uniqueItems") as [[]|]; try done.
    destruct b; [|done]. destruct (first_duplicate arr 0) as [[i j]|]; [|tauto].
    split; [done|]. intros H. by specialize (H eq_refl). }
  rewrite Hu. split; intros (H1 & H2 & H3 & H4); split; eauto.
Qed.

Lemma required_iff doc schema p :
  validate_required doc schema p = Ok tt <->
  forall l n, doc_get schema "required" = Some (BArray l) -> In (BString n) l ->
    doc_contains doc n = true.
Proof.
  unfold validate_required.
  rewrite (arr_key_iff _ _ (fun l => forall n, In (BString n) l -> doc_contains doc n = true)).
  - split; eauto.
  - intros l. rewrite fold_check_ok. split.
    + intros H n Hin. specialize (H _ Hin). cbv beta iota in H. unfold fail in H.
      by apply check_ok in H as [H%negb_false_iff _].
    + intros H [] Hin; try done. unfold fail. apply check_ok. by rewrite (H _ Hin).
Qed.

Lemma properties_iff doc schema p d :
  validate_properties rec doc schema p d = Ok tt <->
  forall props field sub v, doc_get schema "properties" = Some (BDocument props) ->
    In (field, BDocument sub) props -> doc_get doc field = Some v -> A v sub (d + 1).
Proof.
  unfold validate_properties.
  rewrite (doc_key_iff _ _ (fun props => forall field sub v,
    In (field, BDocument sub) props -> doc_get doc field = Some v -> A v sub (d + 1))).
  - split; eauto.
  - intros l. rewrite (fold_result_ext _ (fun _ x => match doc_get doc (fst x), snd x with
      | Some v, BDocument s => rec v s (join_path p (fst x)) (d + 1) | _, _ => Ok tt end) tt l)
      by (by intros [] []).
    rewrite fold_check_ok. split.
    + intros H field sub v Hin Hg. specialize (H _ Hin). cbn [fst snd] in H. rewrite Hg in H.
      by apply HA in H.
    + intros H [field sub] Hin. cbn [fst snd]. destruct (doc_get doc field) as [v|] eqn:E; [|done].
      destruct sub; try done. apply HA. eauto.
Qed.

Lemma additional_iff doc schema p :
  validate_additional doc schema p = Ok tt <->
  forall props k, doc_get schema "additionalProperties" = Some (BBoolean false) ->
    doc_get schema "properties" = Some (BDocument props) -> In k (doc_keys doc) ->
    k = "_id" \/ doc_contains props k = true.
Proof.
  unfold validate_additional.
  destruct (doc_get schema "additionalProperties") as [[]|]; try (by split).
  destruct b; [by split|].
  rewrite (doc_key_iff _ _ (fun props => forall k, In k (doc_keys doc) ->
    k = "_id" \/ doc_contains props k = true)).
  - split; eauto.
  - intros props. rewrite fold_check_ok. split; intros H k Hin; specialize (H k Hin).
    + destruct (String.eqb_spec k "_id"); [by left|right].
      unfold fail in H. by apply check_ok in H as [H%negb_false_iff _].
    + destruct (String.eqb_spec k "_id"); [done|]. unfold fail. apply check_ok.
      by destruct H as [| ->].
Qed.

Lemma fields_iff doc schema p d :
  validate_doc_fields rec doc schema p d = Ok tt <-> conforms_fields A doc schema d.
Proof.
  unfold validate_doc_fields, conforms_fields.
  rewrite !seq_ok, !check_bound_iff, required_iff, properties_iff, additional_iff, combinators_iff.
  done.
Qed.

Lemma pattern_iff s schema p :
  validate_pattern s schema p = Ok tt <->
  forall pat, doc_get schema "pattern" = Some (BString pat) ->
    (String.length pat <= 1024)%nat /\ exists re, regex_new pat = Ok re /\ is_match re s = true.
Proof.
  unfold validate_pattern. destruct (doc_get schema "pattern") as [[]|]; try (by split).
  assert (Hl : (MAX_REGEX_PATTERN_LEN <? String.length s0)%nat = false <->
               (String.length s0 <= 1024)%nat) by apply Nat.ltb_ge.
  unfold fail. rewrite check_ok, Hl. split.
  - intros [H1 H2] pat [= <-]. split; [done|]. destruct (regex_new s0) as [re|]; [|done].
    apply check_ok in H2 as [H2%negb_false_iff _]. eauto.
  - intros H. destruct (H s0 eq_refl) as (H1 & re & -> & H2). split; [done|].
    apply check_ok. by rewrite H2.
Qed.

Lemma scalar_iff v schema p : validate_scalar v schema p = Ok tt <-> conforms_scalar v schema.
Proof.
  unfold validate_scalar, conforms_scalar. rewrite !seq_ok.
  rewrite (arr_key_iff _ _ (fun l => vec_contains l v = true))
    by (intros; unfold fail; rewrite check_ok, negb_false_iff; tauto).
  assert (Hn : validate_number v schema p = Ok tt <-> forall n, bson_to_f64 v = Some n ->
    above schema "minimum" n /\ below schema "maximum" n /\
    (forall m, bound schema "exclusiveMinimum" = Some m -> f64_leb n m = false) /\
    (forall m, bound schema "exclusiveMaximum" = Some m -> f64_leb m n = false)).
  { unfold validate_number. destruct v; cbn [is_numeric bson_to_f64]; try done;
      rewrite !seq_ok, !check_bound_iff; (split; [by intros H ? [= <-]|intros H; by apply H]). }
  assert (Hs : validate_string v schema p = Ok tt <-> forall s, v = BString s ->
    above schema "minLength" (f64_of_Z (Z.of_nat (String.length s))) /\
    below schema "maxLength" (f64_of_Z (Z.of_nat (String.length s))) /\
    (forall pat, doc_get schema "pattern" = Some (BString pat) ->
       (String.length pat <= 1024)%nat /\
       exists re, regex_new pat = Ok re /\ is_match re s = true)).
  { unfold validate_string. destruct v; try done.
    rewrite !seq_ok, !check_bound_iff, pattern_iff. split; [by intros H ? [= <-]|intros H; by apply H]. }
  rewrite Hn, Hs. done.
Qed.

Lemma step_iff v schema p d :
  validate_value_step rec v schema p d = Ok tt <-> conforms A v schema d.
Proof.
  assert (Ht : validate_typed rec v schema p d = Ok tt <->
    conforms_combinators A v schema d /\
    match v with
    | BDocument doc => validate_object rec v schema p d = Ok tt
    | BArray arr => conforms_array A arr schema d
    | _ => conforms_scalar v schema end).
  { unfold validate_typed. rewrite seq_ok, combinators_iff.
    destruct v; rewrite ?array_iff, ?scalar_iff; done. }
  assert (Ho : forall doc, v = BDocument doc ->
    (forall t, schema_type schema = Some t -> check_type_spec v t = true) ->
    validate_object rec v schema p d = Ok tt <->
    (d <= MAX_NESTING_DEPTH)%nat /\ conforms_fields A doc schema d).
  { intros doc -> H. unfold validate_object, fail. rewrite check_ok, Nat.ltb_ge.
    destruct (schema_type schema) as [t|]; [rewrite (H t eq_refl)|]; cbn [negb validate_shape];
      by rewrite fields_iff. }
  unfold validate_value_step, conforms. destruct (schema_type schema) as [t|] eqn:Et.
  - destruct (allows_null v t) eqn:En; [split; [intros _; left; eauto|done]|].
    unfold type_mismatch, fail. rewrite check_ok, negb_false_iff, Ht. split.
    + intros (H1 & H2 & H3). right. split; [by intros ? [= <-]|]. split; [done|].
      destruct v; try done. apply (Ho _ eq_refl); [by intros ? [= <-]|done].
    + intros [(t' & [= <-] & H)|(H1 & H2 & H3)]; [congruence|].
      specialize (H1 t eq_refl). split; [done|]. split; [done|].
      destruct v; try done. apply (Ho _ eq_refl); [by intros ? [= <-]|done].
  - rewrite Ht. split.
    + intros [H1 H2]. right. split; [done|]. split; [done|]. destruct v; try done.
      by apply (Ho _ eq_refl).
    + intros [(t' & H & _)|(H1 & H2 & H3)]; [done|]. split; [done|]. destruct v; try done.
      by apply (Ho _ eq_refl).
Qed.
End Sound.

(** Acceptance does not depend on the path, which only labels the error. *)
Definition accepts (v : bson) (schema : document) (depth : nat) : Prop :=
  validate_value v schema "" depth = Ok tt.

Lemma fuel_path n v schema p d :
  validate_value_fuel n v schema p d = Ok tt <-> validate_value_fuel n v schema "" d = Ok tt.
Proof.
  revert v schema p d. induction n as [|n IH]; intros v schema p d; [done|].
  cbn [validate_value_fuel].
  rewrite !(step_iff _ (fun v s d => validate_value_fuel n v s "" d = Ok tt)) by apply IH. done.
Qed.

(** C40: [validate_value] terminates with the verdict of the
    declarative reading of the schema, whatever path labels the errors: a value
    is accepted exactly when it is a null the type allows, or has a listed
    type and satisfies [allOf], [anyOf], [oneOf] (exactly one), [not], and the
    constraints of its kind, recursively, with documents nested at most a
    hundred levels deep. *)
Theorem validate_value_iff v schema p d :
  validate_value v schema p d = Ok tt <-> conforms accepts v schema d.
Proof.
  rewrite value_unfold. apply step_iff. intros. apply fuel_path.
Qed.

(** A document passes validation exactly when the schema is
    empty, or the schema's type admits an object and every required field is
    present, every listed property has an accepted value, no field is outside
    the listed properties when additional ones are refused ([_id] always
    allowed), and the field counts and the combinators hold. *)
Theorem validate_document_iff doc schema :
  validate_document doc schema = Ok tt <->
  schema = [] \/
  (forall t, schema_type schema = Some t -> check_bson_type_name "object" t = true) /\
  conforms_fields accepts doc schema 0.
Proof.
  assert (HA : forall v s p d, validate_value v s p d = Ok tt <-> accepts v s d)
    by (intros; apply fuel_path).
  unfold validate_document. destruct schema as [|e schema]; [split; [by left|done]|].
  set (sc := e :: schema). rewrite seq_ok, (fields_iff _ _ HA).
  assert (Ht : match schema_type sc with
    | Some t => if negb (check_bson_type_name "object" t) then
        fail "" ("Expected type " ++ type_spec_label t ++ ", got " ++ quoted "object")%string
        else Ok tt
    | None => Ok tt end = Ok tt <->
    forall t, schema_type sc = Some t -> check_bson_type_name "object" t = true).
  { destruct (schema_type sc) as [t|]; [|done]. unfold fail. rewrite check_ok, negb_false_iff.
    split; [by intros [? _] ? [= <-]|]. intros H. split; [by apply H|done]. }
  rewrite Ht. split; [by right|]. by intros [|].
Qed.
End Facts.

(** ** Witnesses *)

Section Witnesses.
Import RefBson.RefBson RefEnv.

(** People: a name, an adult's age or none, no other field. *)
Definition person_schema : document :=
  [("bsonType", BString "object");
   ("required", BArray [BString "name"]);
   ("additionalProperties", BBoolean false);
   ("properties", BDocument
     [("name", BDocument [("bsonType", BString "string"); ("minLength", BInt32 1)]);
      ("age", BDocument [("bsonType", BArray [BString "int"; BString "null"]);
                         ("minimum", BInt32 18)])])].

Lemma validate_value_iff_witness :
  conforms accepts (BInt32 21) [("oneOf", BArray
    [BDocument [("bsonType", BString "int")]; BDocument [("bsonType", BString "string")]])] 1.
Proof. apply (validate_value_iff _ _ "age" 1). vm_compute. reflexivity. Defined.

Lemma validate_document_iff_witness :
  conforms_fields accepts [("_id", BInt32 7); ("name", BString "Ann"); ("age", BNull)]
    person_schema 0.
Proof.
  destruct (proj1 (validate_document_iff
    [("_id", BInt32 7); ("name", BString "Ann"); ("age", BNull)] person_schema)) as [H|[_ H]].
  - vm_compute. reflexivity.
  - discriminate.
  - exact H.
Defined.

(** ** Behaviours worth recording *)

(** [enum] is tested on scalars only: a document or an array outside the
    enumeration is accepted. *)
Theorem enum_ignored_on_documents_and_arrays :
  validate_value (BInt32 3) [("enum", BArray [BInt32 1; BInt32 2])] "f" 1 <> Ok tt /\
  validate_value (BArray [BInt32 3]) [("enum", BArray [BInt32 1; BInt32 2])] "f" 1 = Ok tt /\
  validate_value (BDocument []) [("enum", BArray [BInt32 1; BInt32 2])] "f" 1 = Ok tt.
Proof. vm_compute. split; [discriminate|]. split; reflexivity. Qed.

(** A required field that is missing is reported at its path. *)
Example missing_name :
  validate_document [("_id", BInt32 7)] person_schema =
  Err {| path := "name"; message := "Required field 'name' is missing" |}.
Proof. vm_compute. reflexivity. Qed.
End Witnesses.
