(* ===== verification/Collation.v ===== *)
(** * Collations

    [src/rust/smongo-engine/src/collation.rs]: how strings are compared and
    how they are encoded in index keys under a collation.  Strings are their
    UTF-8 bytes: the loops of [split_numeric] over [char]s only test for ASCII
    characters, which never occur inside a longer UTF-8 sequence, so they are
    loops over bytes. *)

From Stdlib Require Import ZArith Lia Ascii String Strings.Byte.
From S2P Require Import Prelude F64 Bson RefBson Query Update IndexKey.
From stdpp Require Import base tactics list strings.

Open Scope string_scope.
Open Scope list_scope.

(** [str::parse::<f64>], which is [None] on a string that is not a number. *)
Class F64Parse : Type := { f64_parse : string -> option f64 }.

(** Source: collation.rs:28-32 (CaseFirst). *)
Inductive CaseFirst : Type := Upper | Lower | Off.

(** Source: collation.rs:14-25 (Collation). *)
Record Collation : Type := {
  locale : string;
  strength : Z;
  numeric_ordering : bool;
  case_first : CaseFirst }.

(** Source: collation.rs:176-179 (Segment). *)
Inductive Segment : Type :=
| SText (t : string)
| SNumber (n : f64).

Definition is_ascii_digit (c : ascii) : bool :=
  let n := N_of_ascii c in ((48 <=? n) && (n <=? 57))%N.

(** The longest prefix whose characters satisfy [f], and what follows. *)
Fixpoint span (f : ascii -> bool) (s : string) : string * string :=
  match s with
  | EmptyString => (EmptyString, EmptyString)
  | String c s' =>
      if f c then let '(a, b) := span f s' in (String c a, b) else (EmptyString, s)
  end.

Definition num_char (c : ascii) : bool := is_ascii_digit c || Ascii.eqb c ".".

(** Source: collation.rs:185-213 (split_numeric). The pieces of the string, with
    whether each was read as a number; [first] says that there is no segment
    yet. *)
Fixpoint split_loop (fuel : nat) (first : bool) (s : string) : list (bool * string) :=
  match fuel with
  | O => []
  | S fuel' =>
      match s with
      | EmptyString => []
      | String c _ =>
          if is_ascii_digit c || (Ascii.eqb c "-" && first) then
            let '(num_str, rest) := span num_char s in
            (true, num_str) :: split_loop fuel' false rest
          else
            let '(text, rest) := span (fun nc => negb (is_ascii_digit nc)) s in
            (false, text) :: split_loop fuel' false rest
      end
  end.

(** Every round but the first, on a minus sign, consumes a character. *)
Definition split_pieces (s : string) : list (bool * string) :=
  split_loop (String.length s + 2) true s.

(** The two-byte sequences [0xC3 b] of the letters with diacritics, by [b]. *)
Definition base_letter (b : N) : option ascii :=
  let between lo hi := ((lo <=? b) && (b <=? hi))%N in
  if between 160%N 165%N then Some "a"%char
  else if between 168%N 171%N then Some "e"%char
  else if between 172%N 175%N then Some "i"%char
  else if between 178%N 182%N then Some "o"%char
  else if between 185%N 188%N then Some "u"%char
  else if (b =? 177)%N then Some "n"%char
  else if (b =? 167)%N then Some "c"%char
  else None.

(** Source: collation.rs:218-231 (strip_diacritics). On UTF-8 bytes. *)
Fixpoint strip_diacritics (s : string) : string :=
  match s with
  | String c ((String d s') as rest) =>
      if (N_of_ascii c =? 195)%N then
        match base_letter (N_of_ascii d) with
        | Some l => String l (strip_diacritics s')
        | None => String c (strip_diacritics rest)
        end
      else String c (strip_diacritics rest)
  | _ => s
  end.

Section Collation.
Context {B : BsonOps} {M : Libm} {T : TextEnv} {FP : F64Parse}.

(** Source: collation.rs:35-42 (default). *)
Definition default_collation : Collation :=
  {| locale := "simple"; strength := 3; numeric_ordering := false; case_first := Off |}.

(** [r.unwrap_or(d)] of an accessor. *)
Definition get_or {A} (r : result A error) (d : A) : A :=
  match r with Ok a => a | Err _ => d end.

(** Source: collation.rs:47-69 (Collation::from_doc). *)
Definition from_doc (doc : document) : Collation :=
  {| locale := get_or (doc_get_as as_str doc "locale") "simple";
     strength := match and_then (doc_get doc "strength")
                   (fun v => match v with BInt32 n | BInt64 n => Some (n mod 256)%Z | _ => None end) with
                 | Some n => n
                 | None => 3%Z
                 end;
     numeric_ordering := get_or (doc_get_as as_bool doc "numericOrdering") false;
     case_first :=
       let c := get_or (doc_get_as as_str doc "caseFirst") "off" in
       if c =s? "upper" then Upper else if c =s? "lower" then Lower else Off |}.

(** Source: collation.rs:73-75 (Collation::case_insensitive). *)
Definition case_insensitive (self : Collation) : bool := (strength self <=? 2)%Z.

(** Source: collation.rs:81-89 (Collation::sort_key). *)
Definition sort_key (self : Collation) (s : string) : string :=
  if (3 <=? strength self)%Z then s
  else if (strength self =? 1)%Z then strip_diacritics (to_lowercase s)
  else to_lowercase s.

(** Source: collation.rs:181-215 (split_numeric). *)
Definition split_numeric (s : string) : list Segment :=
  map (fun '(is_num, t) =>
    if (is_num : bool) then match f64_parse t with Some n => SNumber n | None => SText t end
    else SText t) (split_pieces s).

(** Source: collation.rs:154-167 (numeric_string_cmp). *)
Definition segment_cmp (case_insensitive : bool) (sa sb : Segment) : comparison :=
  match sa, sb with
  | SNumber na, SNumber nb => f64_cmp_or_eq na nb
  | SText ta, SText tb =>
      if case_insensitive then str_cmp (to_lowercase ta) (to_lowercase tb) else str_cmp ta tb
  | SNumber _, SText _ => Lt
  | SText _, SNumber _ => Gt
  end.

(** Source: collation.rs:149-173 (numeric_string_cmp). *)
Definition numeric_string_cmp (a b : string) (case_insensitive : bool) : comparison :=
  zip_cmp (segment_cmp case_insensitive) (split_numeric a) (split_numeric b).

(** Source: collation.rs:92-100 (Collation::compare_str). *)
Definition compare_str (self : Collation) (a b : string) : comparison :=
  if numeric_ordering self then numeric_string_cmp a b (case_insensitive self)
  else str_cmp (sort_key self a) (sort_key self b).

(** Source: collation.rs:132-134 (is_numeric_bson). *)
Definition is_numeric_bson (b : bson) : bool :=
  match b with BInt32 _ | BInt64 _ | BDouble _ => true | _ => false end.

(** Source: collation.rs:136-143 (bson_as_f64). *)
Definition collation_bson_as_f64 (b : bson) : option f64 :=
  match b with
  | BInt32 n | BInt64 n => Some (f64_of_Z n)
  | BDouble n => Some n
  | _ => None
  end.

(** Source: collation.rs:104-118 (Collation::compare_bson). *)
Definition collation_compare_bson (self : Collation) (a b : option bson) : comparison :=
  match a, b with
  | Some (BString sa), Some (BString sb) => compare_str self sa sb
  | Some (BString sa), Some nb =>
      if numeric_ordering self && is_numeric_bson nb then
        match f64_parse sa with
        | Some fa =>
            f64_cmp_or_eq fa (match collation_bson_as_f64 nb with Some x => x | None => f64_zero end)
        | None => Gt
        end
      else compare_bson a b
  | _, _ => compare_bson a b
  end.

(** Source: collation.rs:122-129 (Collation::index_key_bytes). *)
Definition index_key_bytes (self : Collation) (s : string) : bytes :=
  let text := as_bytes (sort_key self s) in
  if numeric_ordering self then
    match f64_parse s with Some n => be_bytes 8 (f64_bits n) | None => text end
  else text.
End Collation.

(** ** Properties *)

Lemma span_app f s : let '(a, b) := span f s in (a ++ b)%string = s.
Proof.
  induction s as [|c s IH]; simpl; [done|]. destruct (f c); [|done].
  destruct (span f s) as [a b]. by rewrite str_app_cons, IH.
Qed.

Lemma span_rest f c s :
  f c = true -> (String.length (snd (span f (String c s))) < String.length (String c s))%nat.
Proof.
  simpl. intros ->. enough (H : (String.length (snd (span f s)) <= String.length s)%nat).
  { destruct (span f s). simpl in *. lia. }
  clear. induction s as [|d s IH]; simpl; [lia|]. destruct (f d); [|done].
  destruct (span f s). simpl in *. lia.
Qed.

Lemma split_loop_concat fuel (first : bool) s :
  ((if first then 1 else 0) + String.length s < fuel)%nat ->
  String.concat "" (map snd (split_loop fuel first s)) = s.
Proof.
  assert (Hc : forall a l, String.concat "" (a :: l) = (a ++ String.concat "" l)%string).
  { intros a [|b l]; [|done]. simpl. induction a as [|c a IH]; [done|]. by rewrite str_app_cons, <- IH. }
  revert first s. induction fuel as [|fuel IH]; intros first s H; [lia|]. cbn [split_loop].
  destruct s as [|c s0]; [done|]. set (s := String c s0) in *.
  destruct (is_ascii_digit c || (Ascii.eqb c "-" && first)) eqn:Eb.
  - pose proof (span_app num_char s) as Happ. destruct (span num_char s) as [a b] eqn:Es.
    cbn [map snd]. rewrite Hc, IH; [done|]. destruct (is_ascii_digit c) eqn:Ed.
    + pose proof (span_rest num_char c s0) as Hr. unfold num_char in Hr at 1. rewrite Ed in Hr.
      specialize (Hr eq_refl). fold s in Hr. rewrite Es in Hr. simpl in *. destruct first; lia.
    + apply orb_true_iff in Eb as [|Eb]; [done|]. apply andb_true_iff in Eb as [_ ->].
      assert (Hle : (String.length b <= String.length s)%nat).
      { rewrite <- Happ. clear. induction a as [|d a IHa]; [done|]. rewrite str_app_cons. simpl. lia. }
      lia.
  - apply orb_false_iff in Eb as [Ed _].
    pose proof (span_app (fun nc => negb (is_ascii_digit nc)) s) as Happ.
    pose proof (span_rest (fun nc => negb (is_ascii_digit nc)) c s0) as Hr. cbv beta in Hr.
    rewrite Ed in Hr. specialize (Hr eq_refl). fold s in Hr.
    destruct (span _ s) as [a b]. cbn [map snd] in *. rewrite Hc, IH; [done|]. destruct first; lia.
Qed.

Section Props.
Context {T : TextEnv} {FP : F64Parse}.

(** Text made of digits and dots is never read as NaN. *)
Definition parse_not_nan : Prop :=
  forall s x, forallb num_char (list_ascii_of_string s) = true -> f64_parse s = Some x ->
    f64_is_nan x = false.

Lemma span_all f s : forallb f (list_ascii_of_string (fst (span f s))) = true.
Proof.
  induction s as [|c s IH]; simpl; [done|]. destruct (f c) eqn:E; [|done].
  destruct (span f s). simpl in *. by rewrite E, IH.
Qed.

Lemma split_loop_numbers fuel first s t :
  In (true, t) (split_loop fuel first s) -> forallb num_char (list_ascii_of_string t) = true.
Proof.
  revert first s. induction fuel as [|fuel IH]; intros first s; [done|]. cbn [split_loop].
  destruct s as [|c s0]; [done|]. set (s := String c s0).
  destruct (is_ascii_digit c || (Ascii.eqb c "-" && first)).
  - pose proof (span_all num_char s) as Ha. destruct (span num_char s) as [a b].
    intros [E|Hin]; [by injection E as <-|by eapply IH].
  - destruct (span _ s) as [a b]. intros [E|Hin]; [done|by eapply IH].
Qed.

Definition segment_ok (x : Segment) : Prop :=
  match x with SNumber n => f64_is_nan n = false | SText _ => True end.

Lemma split_numeric_ok s : parse_not_nan -> Forall segment_ok (split_numeric s).
Proof.
  intros Hp. apply List.Forall_forall. intros x Hx. unfold split_numeric in Hx.
  apply in_map_iff in Hx as ([[] t] & <- & Hin); [|done].
  destruct (f64_parse t) eqn:E; [|done]. simpl. eapply Hp; [|done].
  by eapply split_loop_numbers.
Qed.

Lemma segment_cmp_tp ci : TotalPreorder segment_ok (segment_cmp ci).
Proof.
  set (rank x := match x with SNumber _ => 0%Z | SText _ => 1%Z end).
  set (num x := match x with SNumber n => n | SText _ => f64_zero end).
  set (text x := match x with SText t => if ci then to_lowercase t else t | SNumber _ => "" end).
  apply (tp_cmp_ext _ _ (fun x y => cmp_then (Z.compare (rank x) (rank y))
    (cmp_then (f64_cmp_or_eq (num x) (num y)) (str_cmp (text x) (text y))))).
  { intros [t|n] [t'|n'] _ _; try done; [by destruct ci|].
    unfold segment_cmp. simpl. by destruct (f64_cmp_or_eq n n'). }
  apply tp_then; [|apply tp_then].
  - by apply (tp_pullback (fun _ => True) _ rank); [|apply Z_compare_tp].
  - by apply (tp_pullback (fun n => f64_is_nan n = false) _ num); [intros []|apply f64_cmp_tp].
  - by apply (tp_pullback (fun _ => True) _ text); [|apply str_cmp_tp].
Qed.

(** A collation orders all strings: comparison under it is
    reflexive, antisymmetric up to equality and transitive, with numeric
    ordering or without, case-sensitive or not; this is what sorting needs. *)
Theorem compare_str_total_preorder self :
  parse_not_nan -> TotalPreorder (fun _ => True) (compare_str self).
Proof.
  intros Hp. unfold compare_str. destruct (numeric_ordering self).
  - apply (tp_pullback (Forall segment_ok) _ split_numeric); [intros; by apply split_numeric_ok|].
    apply zip_cmp_tp, segment_cmp_tp.
  - apply (tp_pullback (fun _ => True) _ (sort_key self)); [done|apply str_cmp_tp].
Qed.
End Props.

(** ** Witnesses *)

Section Witnesses.
Import RefEnv.

(** A decimal reader for the witnesses: integers. *)
Local Instance ref_parse : F64Parse :=
  {| f64_parse s :=
       match parse_usize s with
       | Some z => if (Z.abs z <? 2 ^ 53)%Z then Some (f64_of_Z z) else None
       | None => None
       end |}.

Definition natural : Collation :=
  {| locale := "en"; strength := 2; numeric_ordering := true; case_first := Off |}.

Lemma compare_str_total_preorder_witness :
  compare_str natural "File2" "file10" = Lt /\
  TotalPreorder (fun _ => True) (compare_str natural).
Proof.
  split; [vm_compute; reflexivity|]. apply (compare_str_total_preorder natural).
  intros s x _ H. unfold f64_parse, ref_parse in H. destruct (parse_usize s) as [z|]; [|done].
  destruct (Z.ltb_spec (Z.abs z) (2 ^ 53)); [|done]. injection H as <-. by apply f64_of_Z_not_nan.
Defined.

(** A leading minus sign is not part of the number that follows it. *)
Theorem minus_is_not_a_sign : compare_str natural "-5" "-10" = Lt.
Proof. vm_compute. reflexivity. Qed.
End Witnesses.
