(* ===== verification/Expressions.v ===== *)
(** * Aggregation expressions

    [src/rust/smongo-engine/src/aggregation/expressions.rs]: field references,
    literals and operators, as one step [eval_step] of a recursion on the depth
    of the expression, and the recursion with enough fuel.  The instance
    [engine] discharges the interface [ExprEngine] through which [$expr]
    filters call it. *)

From Stdlib Require Import ZArith Lia Ascii String Strings.Byte.
From S2P Require Import Prelude F64 Bson RefBson Paths Geo Query Update Schema Collation.
From stdpp Require Import base tactics list strings.

Open Scope string_scope.
Open Scope list_scope.

(** ** Errors and the environment *)

(** Source: aggregation/mod.rs:38-49 (AggregationError). *)
Inductive AggregationError : Type :=
| InvalidStage (s : string)
| InvalidOperator (s : string)
| MissingField (s : string)
| TypeError (s : string)
| MemoryLimitExceeded (stage : string) (used limit : Z)
| AggOther (s : string).

(** An evaluation fails with an error value, or panics. *)
Inductive agg_failure : Type :=
| AggErr (e : AggregationError)
| AggPanic (msg : string).

(** The calendar fields of an instant. *)
Record datetime : Type := {
  dt_year : Z; dt_month : Z; dt_day : Z; dt_hour : Z; dt_minute : Z; dt_second : Z;
  dt_days_from_sunday : Z; dt_ordinal : Z }.

(** What the pipeline uses of [chrono] ([Utc.timestamp_millis_opt(..).single()]),
    of the Unicode tables ([str::to_uppercase]), and of the form [{:.0}]. *)
Class AggEnv : Type := {
  chrono_utc : Z -> option datetime;
  to_uppercase : string -> string;
  f64_fixed0 : f64 -> string }.

Section Expressions.
Context {B : BsonOps} {Lm : Libm} {T : TextEnv} {FP : F64Parse} {A : AggEnv}.

(** Source: aggregation/mod.rs:52-80 (fmt). On a native target. *)
Definition aggregation_error_display (e : AggregationError) : string :=
  match e with
  | InvalidStage s => ("Invalid stage: " ++ s)%string
  | InvalidOperator s => ("Invalid operator: " ++ s)%string
  | MissingField s => ("Missing field: " ++ s)%string
  | TypeError s => ("Type error: " ++ s)%string
  | MemoryLimitExceeded stage used limit =>
      let mb n := f64_fixed0 (f64_div (f64_of_Z n)
                    (f64_mul (f64_of_Z 1024) (f64_of_Z 1024))) in
      (stage ++ " requires ~" ++ mb used ++ " MB, exceeding the " ++ mb limit ++
       " MB limit. Pass allowDiskUse=True to enable spill-to-disk for memory-intensive stages.")%string
  | AggOther s => s
  end.

(** A failure as the text that [map_err(|e| e.to_string())] keeps. *)
Definition agg_failure_text (e : agg_failure) : error :=
  match e with AggErr e => Msg (aggregation_error_display e) | AggPanic m => Panic m end.

Definition agg_of_error (e : error) : agg_failure :=
  match e with Msg m => AggErr (AggOther m) | Panic m => AggPanic m end.

(** ** Values *)

(** Source: aggregation/expressions.rs:115-122 (bson_to_f64). *)
Definition bson_to_f64 (val : bson) : option f64 :=
  match val with
  | BInt32 n | BInt64 n => Some (f64_of_Z n)
  | BDouble n => Some n
  | _ => None
  end.

Definition or_null (o : option bson) : bson := match o with Some v => v | None => BNull end.

(** Source: aggregation/expressions.rs:668-686 (replace_var_refs). *)
Fixpoint replace_var_refs (expr : bson) (from to : string) : bson :=
  match expr with
  | BString s =>
      if s =s? from then BString to
      else match Prelude.strip_prefix (from ++ ".")%string s with
           | Some rest => BString (to ++ "." ++ rest)%string
           | None => expr
           end
  | BDocument d =>
      BDocument (fold_left (fun new_doc '(k, v) => doc_insert new_doc k v)
        (map (fun kv => (fst kv, replace_var_refs (snd kv) from to)) d) [])
  | BArray arr => BArray (map (fun v => replace_var_refs v from to) arr)
  | other => other
  end.

(** [str::parse::<i32>()]: an optional sign, then digits, in range. *)
Definition parse_signed (neg : bool) (t : string) : option Z :=
  match t with
  | EmptyString => None
  | _ => match parse_digits 0 t with
         | Some n => let n := if neg then (- n)%Z else n in
                     if in_range i32_min i32_max n then Some n else None
         | None => None
         end
  end.

Definition parse_i32 (s : string) : option Z :=
  match s with
  | String "+" t => parse_signed false t
  | String "-" t => parse_signed true t
  | _ => parse_signed false s
  end.

(** ** Operators

    Each takes the evaluation of sub-expressions as [rec]. *)

Section Step.
Context (rec : document -> bson -> result bson agg_failure).

(** Source: aggregation/expressions.rs:136-147 (get_array_args). *)
Definition get_array_args (doc : document) (args : bson) : result (list bson) agg_failure :=
  match args with
  | BArray arr => map_result (rec doc) arr
  | _ => let? v := rec doc args in Ok [v]
  end.

(** The loops of [$add] and [$multiply]: the total and whether a double occurred;
    [None] when an argument is not a number. *)
Fixpoint arith (op : f64 -> f64 -> f64) (total : f64) (has_double : bool) (vals : list bson)
  : option (f64 * bool) :=
  match vals with
  | [] => Some (total, has_double)
  | BInt32 n :: rest | BInt64 n :: rest => arith op (op total (f64_of_Z n)) has_double rest
  | BDouble n :: rest => arith op (op total n) true rest
  | _ :: _ => None
  end.

Definition arith_result (r : option (f64 * bool)) : bson :=
  match r with
  | Some (total, true) => BDouble total
  | Some (total, false) => BInt64 (f64_as_i64 total)
  | None => BNull
  end.

(** Source: aggregation/expressions.rs:149-170 (expr_add). *)
Definition expr_add (doc : document) (args : bson) : result bson agg_failure :=
  let? vals := get_array_args doc args in
  Ok (arith_result (arith f64_add f64_zero false vals)).

Definition is_double (b : bson) : bool := match b with BDouble _ => true | _ => false end.

(** Source: aggregation/expressions.rs:172-187 (expr_subtract). *)
Definition expr_subtract (doc : document) (args : bson) : result bson agg_failure :=
  let? vals := get_array_args doc args in
  Ok (match vals with
      | [x; y] =>
          match bson_to_f64 x, bson_to_f64 y with
          | Some a, Some b =>
              if is_double x || is_double y then BDouble (f64_sub a b)
              else BInt64 (f64_as_i64 (f64_sub a b))
          | _, _ => BNull
          end
      | _ => BNull
      end).

(** Source: aggregation/expressions.rs:189-210 (expr_multiply). *)
Definition expr_multiply (doc : document) (args : bson) : result bson agg_failure :=
  let? vals := get_array_args doc args in
  Ok (arith_result (arith f64_mul f64_one false vals)).

(** Source: aggregation/expressions.rs:212-221 (expr_divide). *)
Definition expr_divide (doc : document) (args : bson) : result bson agg_failure :=
  let? vals := get_array_args doc args in
  Ok (match vals with
      | [x; y] =>
          match bson_to_f64 x, bson_to_f64 y with
          | Some a, Some b => if negb (f64_eqb b f64_zero) then BDouble (f64_div a b) else BNull
          | _, _ => BNull
          end
      | _ => BNull
      end).

(** [a % b] on [i64]: it panics on a zero divisor and on [i64::MIN % -1]. *)
Definition i64_rem (a b : Z) : result Z agg_failure :=
  if (b =? 0)%Z then Err (AggPanic "attempt to calculate the remainder with a divisor of zero")
  else if ((a =? i64_min) && (b =? -1))%Z then
    Err (AggPanic "attempt to calculate the remainder with overflow")
  else Ok (Z.rem a b).

(** Source: aggregation/expressions.rs:223-238 (expr_mod). *)
Definition expr_mod (doc : document) (args : bson) : result bson agg_failure :=
  let? vals := get_array_args doc args in
  match vals with
  | [x; y] =>
      match bson_to_f64 x, bson_to_f64 y with
      | Some a, Some b =>
          if negb (f64_eqb b f64_zero) then
            if is_double x || is_double y then Ok (BDouble (f64_rem a b))
            else let? r := i64_rem (f64_as_i64 a) (f64_as_i64 b) in Ok (BInt64 r)
          else Ok BNull
      | _, _ => Ok BNull
      end
  | _ => Ok BNull
  end.

Fixpoint concat_strings (vals : list bson) : option string :=
  match vals with
  | [] => Some ""
  | BString s :: rest => option_map (fun r => (s ++ r)%string) (concat_strings rest)
  | _ :: _ => None
  end.

(** Source: aggregation/expressions.rs:240-251 (expr_concat). *)
Definition expr_concat (doc : document) (args : bson) : result bson agg_failure :=
  let? vals := get_array_args doc args in
  Ok (match concat_strings vals with Some s => BString s | None => BNull end).

(** Source: aggregation/expressions.rs:253-273 (expr_substr). [start + len] wraps,
    and a slice whose end is before its start panics. *)
Definition expr_substr (doc : document) (args : bson) : result bson agg_failure :=
  let? vals := get_array_args doc args in
  match vals with
  | [v0; v1; v2] =>
      match v0 with
      | BString s =>
          let n := Z.of_nat (String.length s) in
          let start := f64_as_usize (match bson_to_f64 v1 with Some x => x | None => f64_zero end) in
          let len := match bson_to_f64 v2 with Some x => x | None => f64_of_Z (-1) end in
          if (n <=? start)%Z then Ok (BString "")
          else
            let stop := if f64_ltb len f64_zero then n
                        else Z.min (wrap_u64 (start + f64_as_usize len)) n in
            if (stop <? start)%Z then Err (AggPanic "slice index starts after its end")
            else
              let? r := map_err agg_of_error (str_slice (Z.to_nat start) (Z.to_nat stop) s) in
              Ok (BString r)
      | _ => Ok (BString "")
      end
  | _ => Ok BNull
  end.

(** Source: aggregation/expressions.rs:275-282 (expr_to_upper). *)
Definition expr_to_upper (doc : document) (args : bson) : result bson agg_failure :=
  let? val := rec doc args in
  Ok (match val with BString s => BString (to_uppercase s) | _ => BNull end).

(** Source: aggregation/expressions.rs:284-291 (expr_to_lower). *)
Definition expr_to_lower (doc : document) (args : bson) : result bson agg_failure :=
  let? val := rec doc args in
  Ok (match val with BString s => BString (to_lowercase s) | _ => BNull end).

(** Source: aggregation/expressions.rs:293-316 (expr_cond). *)
Definition expr_cond (doc : document) (args : bson) : result bson agg_failure :=
  match args with
  | BArray [c; t; e] =>
      let? cond := rec doc c in if is_truthy cond then rec doc t else rec doc e
  | BDocument d =>
      let? cond := rec doc (or_null (doc_get d "if")) in
      if is_truthy cond then rec doc (or_null (doc_get d "then"))
      else rec doc (or_null (doc_get d "else"))
  | _ => Ok BNull
  end.

Fixpoint first_non_null (vals : list bson) : bson :=
  match vals with
  | [] => BNull
  | [v] => v
  | BNull :: rest => first_non_null rest
  | v :: _ => v
  end.

(** Source: aggregation/expressions.rs:318-326 (expr_if_null). *)
Definition expr_if_null (doc : document) (args : bson) : result bson agg_failure :=
  let? vals := get_array_args doc args in Ok (first_non_null vals).

(** The first branch whose case holds. *)
Fixpoint switch_branches (doc : document) (branches : list bson) : result (option bson) agg_failure :=
  match branches with
  | [] => Ok None
  | BDocument b :: rest =>
      let? cond := rec doc (or_null (doc_get b "case")) in
      if is_truthy cond then let? v := rec doc (or_null (doc_get b "then")) in Ok (Some v)
      else switch_branches doc rest
  | _ :: rest => switch_branches doc rest
  end.

(** Source: aggregation/expressions.rs:328-350 (expr_switch). *)
Definition expr_switch (doc : document) (args : bson) : result bson agg_failure :=
  match args with
  | BDocument switch_doc =>
      let? r := match doc_get switch_doc "branches" with
                | Some (BArray branches) => switch_branches doc branches
                | _ => Ok None
                end in
      match r with
      | Some v => Ok v
      | None => match doc_get switch_doc "default" with Some e => rec doc e | None => Ok BNull end
      end
  | _ => Ok BNull
  end.

(** Source: aggregation/expressions.rs:352-364 (expr_array_elem_at). *)
Definition expr_array_elem_at (doc : document) (args : bson) : result bson agg_failure :=
  let? vals := get_array_args doc args in
  Ok (match vals with
      | [BArray arr; i] =>
          let idx := f64_as_i64 (match bson_to_f64 i with Some x => x | None => f64_zero end) in
          or_null (vec_get arr (if (idx <? 0)%Z then Z.of_nat (length arr) + idx else idx)%Z)
      | _ => BNull
      end).

(** Source: aggregation/expressions.rs:366-372 (expr_size). *)
Definition expr_size (doc : document) (args : bson) : result bson agg_failure :=
  let? val := rec doc args in
  Ok (match val with BArray a => BInt32 (wrap_i32 (Z.of_nat (length a))) | _ => BNull end).

(** Source: aggregation/expressions.rs:374-378 (expr_not). *)
Definition expr_not (doc : document) (args : bson) : result bson agg_failure :=
  let? vals := get_array_args doc args in Ok (BBoolean (negb (is_truthy (or_null (head vals))))).

(** Source: aggregation/expressions.rs:380-388 (expr_and). *)
Definition expr_and (doc : document) (args : bson) : result bson agg_failure :=
  let? vals := get_array_args doc args in Ok (BBoolean (forallb is_truthy vals)).

(** Source: aggregation/expressions.rs:390-398 (expr_or). *)
Definition expr_or (doc : document) (args : bson) : result bson agg_failure :=
  let? vals := get_array_args doc args in Ok (BBoolean (existsb is_truthy vals)).

(** Source: aggregation/expressions.rs:400-411 (expr_cmp_op). *)
Definition expr_cmp_op (doc : document) (args : bson) (pred : comparison -> bool)
  : result bson agg_failure :=
  let? vals := get_array_args doc args in
  Ok (match vals with
      | [x; y] => BBoolean (pred (compare_bson (Some x) (Some y)))
      | _ => BBoolean false
      end).

(** Source: aggregation/expressions.rs:413-422 (expr_abs). [abs] of the least
    integer is itself. *)
Definition expr_abs (doc : document) (args : bson) : result bson agg_failure :=
  let? val := rec doc args in
  Ok (match val with
      | BInt32 n => BInt32 (wrap_i32 (Z.abs n))
      | BInt64 n => BInt64 (wrap_i64 (Z.abs n))
      | BDouble n => BDouble (f64_abs n)
      | _ => BNull
      end).

(** Source: aggregation/expressions.rs:424-430 (expr_unary_f64). *)
Definition expr_unary_f64 (doc : document) (args : bson) (f : f64 -> f64) : result bson agg_failure :=
  let? val := rec doc args in
  Ok (match bson_to_f64 val with Some n => BDouble (f n) | None => BNull end).

(** Source: aggregation/expressions.rs:432-443 (expr_round). *)
Definition expr_round (doc : document) (args : bson) : result bson agg_failure :=
  let? vals := get_array_args doc args in
  let num := bson_to_f64 (or_null (head vals)) in
  let places := f64_as_i32 (match and_then (nth_error vals 1) bson_to_f64 with
                            | Some x => x | None => f64_zero end) in
  Ok (match num with
      | Some n =>
          let factor := f64_powi (f64_of_Z 10) places in
          BDouble (f64_div (f64_round (f64_mul n factor)) factor)
      | None => BNull
      end).

(** Source: aggregation/expressions.rs:445-462 (expr_type). *)
Definition expr_type (doc : document) (args : bson) : result bson agg_failure :=
  let? val := rec doc args in
  Ok (BString (match val with
      | BDouble _ => "double"
      | BString _ => "string"
      | BDocument _ => "object"
      | BArray _ => "array"
      | BBoolean _ => "bool"
      | BNull => "null"
      | BInt32 _ => "int"
      | BInt64 _ => "long"
      | BObjectId _ => "objectId"
      | BDateTime _ => "date"
      | BRegularExpression _ _ => "regex"
      | _ => "unknown"
      end)).

(** Source: aggregation/expressions.rs:464-476 (expr_to_string). *)
Definition expr_to_string (doc : document) (args : bson) : result bson agg_failure :=
  let? val := rec doc args in
  Ok (match val with
      | BString s => BString s
      | BInt32 n | BInt64 n => BString (Z_to_string n)
      | BDouble n => BString (f64_display n)
      | BBoolean b => BString (if b then "true" else "false")
      | BObjectId oid => BString (oid_to_hex oid)
      | _ => BNull
      end).

(** Source: aggregation/expressions.rs:478-493 (expr_to_int). *)
Definition expr_to_int (doc : document) (args : bson) : result bson agg_failure :=
  let? val := rec doc args in
  Ok (match val with
      | BInt32 n => BInt32 n
      | BInt64 n => BInt32 (wrap_i32 n)
      | BDouble n => BInt32 (f64_as_i32 n)
      | BString s => match parse_i32 s with Some n => BInt32 n | None => BNull end
      | BBoolean b => BInt32 (if b then 1 else 0)
      | _ => BNull
      end).

(** Source: aggregation/expressions.rs:495-505 (expr_to_double). *)
Definition expr_to_double (doc : document) (args : bson) : result bson agg_failure :=
  let? val := rec doc args in
  Ok (match bson_to_f64 val with
      | Some n => BDouble n
      | None =>
          match val with
          | BString s => match f64_parse s with Some x => BDouble x | None => BNull end
          | BBoolean b => BDouble (if b then f64_one else f64_zero)
          | _ => BNull
          end
      end).

(** Source: aggregation/expressions.rs:507-510 (expr_to_bool). *)
Definition expr_to_bool (doc : document) (args : bson) : result bson agg_failure :=
  let? val := rec doc args in Ok (BBoolean (is_truthy val)).

(** Source: aggregation/expressions.rs:512-522 (expr_in). *)
Definition expr_in (doc : document) (args : bson) : result bson agg_failure :=
  let? vals := get_array_args doc args in
  Ok (match vals with
      | [needle; BArray arr] => BBoolean (existsb (fun x => bson_eqb x needle) arr)
      | _ => BBoolean false
      end).

(** [for (k, v) in d { merged.insert(k, v) }]. *)
Definition insert_all (merged d : document) : document :=
  fold_left (fun m '(k, v) => doc_insert m k v) d merged.

(** Source: aggregation/expressions.rs:524-535 (expr_merge_objects). *)
Definition expr_merge_objects (doc : document) (args : bson) : result bson agg_failure :=
  let? vals := get_array_args doc args in
  Ok (BDocument (fold_left (fun merged v =>
        match v with BDocument d => insert_all merged d | _ => merged end) vals [])).

(** [d.get_str(k).unwrap_or(default)]. *)
Definition str_or (d : document) (k default : string) : string :=
  match doc_get d k with Some (BString s) => s | _ => default end.

(** Source: aggregation/expressions.rs:537-564 (expr_map). *)
Definition expr_map (doc : document) (args : bson) : result bson agg_failure :=
  match args with
  | BDocument map_doc =>
      let? input := rec doc (or_null (doc_get map_doc "input")) in
      let as_name := str_or map_doc "as" "this" in
      match input with
      | BArray arr =>
          let temp_field := ("__" ++ as_name)%string in
          let in_replaced := replace_var_refs (or_null (doc_get map_doc "in"))
            ("$$" ++ as_name)%string ("$" ++ temp_field)%string in
          let? r := map_result (fun item => rec (doc_insert doc temp_field item) in_replaced) arr in
          Ok (BArray r)
      | _ => Ok BNull
      end
  | _ => Ok BNull
  end.

(** Source: aggregation/expressions.rs:566-596 (expr_filter). *)
Definition expr_filter (doc : document) (args : bson) : result bson agg_failure :=
  match args with
  | BDocument filter_doc =>
      let? input := rec doc (or_null (doc_get filter_doc "input")) in
      let as_name := str_or filter_doc "as" "this" in
      match input with
      | BArray arr =>
          let temp_field := ("__" ++ as_name)%string in
          let cond_replaced := replace_var_refs (or_null (doc_get filter_doc "cond"))
            ("$$" ++ as_name)%string ("$" ++ temp_field)%string in
          let? r := filter_result (fun item =>
            let? v := rec (doc_insert doc temp_field item) cond_replaced in Ok (is_truthy v)) arr in
          Ok (BArray r)
      | _ => Ok BNull
      end
  | _ => Ok BNull
  end.

(** One variable of a [$let]: its value goes to a hidden field, and the references
    to it are redirected there. *)
Definition let_var (doc : document) (st : document * bson) (kv : string * bson)
  : result (document * bson) agg_failure :=
  let '(scoped_doc, in_replaced) := st in
  let? val := rec doc (snd kv) in
  let temp_field := ("__let_" ++ fst kv)%string in
  Ok (doc_insert scoped_doc temp_field val,
      replace_var_refs in_replaced ("$$" ++ fst kv)%string ("$" ++ temp_field)%string).

(** Source: aggregation/expressions.rs:598-621 (expr_let). *)
Definition expr_let (doc : document) (args : bson) : result bson agg_failure :=
  match args with
  | BDocument let_doc =>
      let in_expr := or_null (doc_get let_doc "in") in
      let? st := match doc_get let_doc "vars" with
                 | Some (BDocument vars) => fold_result (let_var doc) (doc, in_expr) vars
                 | _ => Ok (doc, in_expr)
                 end in
      rec (fst st) (snd st)
  | _ => Ok BNull
  end.

(** Source: aggregation/expressions.rs:627-644 (expr_meta). *)
Definition expr_meta (doc : document) (args : bson) : result bson agg_failure :=
  match args with
  | BString keyword =>
      let? field :=
        if (keyword =s? "vectorSearchScore") || (keyword =s? "searchScore") then Ok "_vectorScore"
        else if keyword =s? "textScore" then Ok "_textScore"
        else if (keyword =s? "geoNearDistance") || (keyword =s? "indexKey") then Ok "dist"
        else Err (AggErr (InvalidOperator ("Unknown $meta keyword: " ++ keyword)%string)) in
      Ok (or_null (doc_get doc field))
  | _ => Ok BNull
  end.

(** Source: aggregation/expressions.rs:646-654 (bson_to_chrono_utc). *)
Definition bson_to_chrono_utc (val : bson) : option datetime :=
  match val with BDateTime millis => chrono_utc millis | _ => None end.

(** Source: aggregation/expressions.rs:656-665 (expr_date_part). *)
Definition expr_date_part (doc : document) (args : bson) (extractor : datetime -> Z)
  : result bson agg_failure :=
  let? val := rec doc args in
  Ok (match bson_to_chrono_utc val with Some dt => BInt32 (extractor dt) | None => BNull end).

(** Source: aggregation/expressions.rs:692-705 (expr_object_to_array). *)
Definition expr_object_to_array (doc : document) (args : bson) : result bson agg_failure :=
  let? val := rec doc args in
  Ok (match val with
      | BDocument d =>
          BArray (map (fun kv => BDocument (doc_insert (doc_insert [] "k" (BString (fst kv)))
                                              "v" (snd kv))) d)
      | _ => BNull
      end).

(** Source: aggregation/expressions.rs:707-732 (expr_array_to_object). *)
Definition expr_array_to_object (doc : document) (args : bson) : result bson agg_failure :=
  let? val := rec doc args in
  Ok (match val with
      | BArray arr =>
          BDocument (fold_left (fun result item =>
            match item with
            | BDocument d =>
                match doc_get d "k", doc_get d "v" with
                | Some (BString key), Some v => doc_insert result key v
                | _, _ => result
                end
            | BArray [BString key; v] => doc_insert result key v
            | _ => result
            end) arr [])
      | _ => BNull
      end).

(** Source: aggregation/expressions.rs:734-744 (expr_bson_size). *)
Definition expr_bson_size (doc : document) (args : bson) : result bson agg_failure :=
  let? val := rec doc args in
  Ok (match val with
      | BDocument d =>
          let raw := match doc_to_vec d with Ok b => b | Err _ => [] end in
          BInt32 (wrap_i32 (Z.of_nat (length raw)))
      | _ => BNull
      end).

(** The arrays of [$concatArrays], evaluated until one is not an array. *)
Fixpoint concat_arrays (doc : document) (arrs : list bson) (result : list bson)
  : Prelude.result bson agg_failure :=
  match arrs with
  | [] => Ok (BArray result)
  | item :: rest =>
      let? v := rec doc item in
      match v with
      | BArray a => concat_arrays doc rest (result ++ a)
      | _ => Ok BNull
      end
  end.

(** Source: aggregation/expressions.rs:746-760 (expr_concat_arrays). *)
Definition expr_concat_arrays (doc : document) (args : bson) : result bson agg_failure :=
  match args with
  | BArray arrs => concat_arrays doc arrs []
  | _ => Ok BNull
  end.

(** One step of a [$reduce]. *)
Definition reduce_step (doc : document) (in_expr accum item : bson) : result bson agg_failure :=
  let temp_doc := doc_insert (doc_insert doc "__value__" accum) "__this__" item in
  rec temp_doc (replace_var_refs (replace_var_refs in_expr "$$value" "$__value__")
                  "$$this" "$__this__").

(** Source: aggregation/expressions.rs:762-797 (expr_reduce). *)
Definition expr_reduce (doc : document) (args : bson) : result bson agg_failure :=
  match args with
  | BDocument spec =>
      let? input := match doc_get spec "input" with Some v => rec doc v | None => Ok BNull end in
      let? initial := match doc_get spec "initialValue" with Some v => rec doc v | None => Ok BNull end in
      match doc_get spec "in" with
      | None => Ok initial
      | Some in_expr =>
          match input with
          | BArray arr => fold_result (fun acc item => reduce_step doc in_expr acc item) initial arr
          | _ => Ok BNull
          end
      end
  | _ => Ok BNull
  end.

(** [as i64] and [as usize] of a parameter of [$slice]. *)
Definition num_or (v : bson) (conv : f64 -> Z) : Z :=
  match bson_to_f64 v with Some x => conv x | None => 0%Z end.

(** Source: aggregation/expressions.rs:799-835 (expr_slice). *)
Definition expr_slice (doc : document) (args : bson) : result bson agg_failure :=
  match args with
  | BArray (p0 :: p1 :: more) =>
      let? v0 := rec doc p0 in
      match v0 with
      | BArray arr =>
          let len := Z.of_nat (length arr) in
          let? v1 := rec doc p1 in
          let n1 := num_or v1 f64_as_i64 in
          match more with
          | [] =>
              Ok (BArray (if (0 <=? n1)%Z then firstn (Z.to_nat (Z.min n1 len)) arr
                          else skipn (Z.to_nat (Z.max (len + n1) 0)) arr))
          | p2 :: _ =>
              let? v2 := rec doc p2 in
              let n := Z.min (num_or v2 f64_as_usize) len in
              let start := if (0 <=? n1)%Z then Z.min n1 len else Z.max (len + n1) 0 in
              Ok (BArray (firstn (Z.to_nat n) (skipn (Z.to_nat start) arr)))
          end
      | _ => Ok BNull
      end
  | _ => Ok BNull
  end.

(** Source: aggregation/expressions.rs:837-846 (expr_reverse_array). *)
Definition expr_reverse_array (doc : document) (args : bson) : result bson agg_failure :=
  let? val := rec doc args in
  Ok (match val with BArray a => BArray (rev a) | _ => BNull end).

(** Source: aggregation/expressions.rs:848-865 (expr_sum_expr). *)
Definition expr_sum_expr (doc : document) (args : bson) : result bson agg_failure :=
  match args with
  | BArray arr =>
      let? total := fold_result (fun total item =>
        let? v := rec doc item in
        Ok (match bson_to_f64 v with Some n => f64_add total n | None => total end)) f64_zero arr in
      Ok (if f64_eqb total (f64_of_Z (f64_as_i64 total)) then BInt64 (f64_as_i64 total)
          else BDouble total)
  | _ => rec doc args
  end.

(** Source: aggregation/expressions.rs:48-107 (evaluate_operator_expression). The
    operators, by name. *)
Definition operators : list (string * (document -> bson -> result bson agg_failure)) :=
  [
   ("$add", expr_add);
   ("$subtract", expr_subtract);
   ("$multiply", expr_multiply);
   ("$divide", expr_divide);
   ("$mod", expr_mod);
   ("$concat", expr_concat);
   ("$substr", expr_substr);
   ("$substrBytes", expr_substr);
   ("$toUpper", expr_to_upper);
   ("$toLower", expr_to_lower);
   ("$cond", expr_cond);
   ("$ifNull", expr_if_null);
   ("$switch", expr_switch);
   ("$arrayElemAt", expr_array_elem_at);
   ("$size", expr_size);
   ("$literal", fun doc args => Ok args);
   ("$not", expr_not);
   ("$and", expr_and);
   ("$or", expr_or);
   ("$eq", fun doc args => expr_cmp_op doc args (fun ord => cmp_eqb ord Eq));
   ("$ne", fun doc args => expr_cmp_op doc args (fun ord => negb (cmp_eqb ord Eq)));
   ("$gt", fun doc args => expr_cmp_op doc args (fun ord => cmp_eqb ord Gt));
   ("$gte", fun doc args => expr_cmp_op doc args (fun ord => negb (cmp_eqb ord Lt)));
   ("$lt", fun doc args => expr_cmp_op doc args (fun ord => cmp_eqb ord Lt));
   ("$lte", fun doc args => expr_cmp_op doc args (fun ord => negb (cmp_eqb ord Gt)));
   ("$abs", expr_abs);
   ("$ceil", fun doc args => expr_unary_f64 doc args f64_ceil);
   ("$floor", fun doc args => expr_unary_f64 doc args f64_floor);
   ("$round", expr_round);
   ("$type", expr_type);
   ("$toString", expr_to_string);
   ("$toInt", expr_to_int);
   ("$toDouble", expr_to_double);
   ("$toBool", expr_to_bool);
   ("$in", expr_in);
   ("$mergeObjects", expr_merge_objects);
   ("$map", expr_map);
   ("$filter", expr_filter);
   ("$let", expr_let);
   ("$meta", expr_meta);
   ("$year", fun doc args => expr_date_part doc args dt_year);
   ("$month", fun doc args => expr_date_part doc args dt_month);
   ("$dayOfMonth", fun doc args => expr_date_part doc args dt_day);
   ("$hour", fun doc args => expr_date_part doc args dt_hour);
   ("$minute", fun doc args => expr_date_part doc args dt_minute);
   ("$second", fun doc args => expr_date_part doc args dt_second);
   ("$dayOfWeek", fun doc args => expr_date_part doc args (fun dt => dt_days_from_sunday dt + 1)%Z);
   ("$dayOfYear", fun doc args => expr_date_part doc args dt_ordinal);
   ("$objectToArray", expr_object_to_array);
   ("$arrayToObject", expr_array_to_object);
   ("$bsonSize", expr_bson_size);
   ("$concatArrays", expr_concat_arrays);
   ("$reduce", expr_reduce);
   ("$slice", expr_slice);
   ("$reverseArray", expr_reverse_array);
   ("$isArray", fun doc args => let? val := rec doc args in Ok (BBoolean (match val with BArray _ => true | _ => false end)));
   ("$sum", expr_sum_expr)].

(** Source: aggregation/expressions.rs:47-112 (evaluate_operator_expression). *)
Definition expression_operator (doc : document) (op : string) (args : bson) : result bson agg_failure :=
  match find (fun kv => op =s? fst kv) operators with
  | Some (_, f) => f doc args
  | None => Err (AggErr (InvalidOperator ("Unknown expression operator: " ++ op)%string))
  end.

(** Source: aggregation/expressions.rs:32-113 (evaluate_operator_expression). *)
Definition evaluate_operator_expression (doc op_doc : document) : result bson agg_failure :=
  match op_doc with
  | [] => Ok (BDocument [])
  | (op, args) :: _ =>
      if negb (starts_with "$" op) then
        let? r := fold_result (fun result '(k, v) =>
          let? v' := rec doc v in Ok (doc_insert result k v')) [] op_doc in
        Ok (BDocument r)
      else expression_operator doc op args
  end.

(** Source: aggregation/expressions.rs:13-30 (evaluate_expression). *)
Definition eval_step (doc : document) (expr : bson) : result bson agg_failure :=
  match expr with
  | BString s =>
      match Prelude.strip_prefix "$$" s with
      | Some var =>
          if (var =s? "ROOT") || (var =s? "CURRENT") then Ok (BDocument doc)
          else if var =s? "REMOVE" then Ok BNull
          else Ok (or_null (get_value doc var))
      | None =>
          match Prelude.strip_prefix "$" s with
          | Some field => Ok (or_null (get_value doc field))
          | None => Ok expr
          end
      end
  | BDocument op_doc => evaluate_operator_expression doc op_doc
  | other => Ok other
  end.
End Step.

(** The recursion, with a bound on the depth of the expression. *)
Fixpoint eval_fuel (fuel : nat) (doc : document) (expr : bson) : result bson agg_failure :=
  match fuel with
  | O => Err (AggPanic "out of fuel")
  | S fuel' => eval_step (eval_fuel fuel') doc expr
  end.

(** Source: aggregation/expressions.rs:13-30 (evaluate_expression). The depth of the
    expression is enough fuel ([evaluate_expression_equation]). *)
Definition evaluate_expression (doc : document) (expr : bson) : result bson agg_failure :=
  eval_fuel (S (bson_depth expr)) doc expr.
End Expressions.

(** ** Termination *)

Section Equation.
Context {B : BsonOps} {Lm : Libm} {T : TextEnv} {FP : F64Parse} {A : AggEnv} {BL : BsonLaws B}.

Lemma fold_insert_In l : forall d k v,
  In (k, v) (fold_left (fun new_doc '(k, v) => doc_insert new_doc k v) l d) -> In (k, v) d \/ In (k, v) l.
Proof.
  induction l as [|[k0 v0] l IH]; intros d k v H; [by left|]. simpl in H.
  apply IH in H as [H|H]; [|by right; right].
  apply insert_In in H as [[-> ->]|H]; [by right; left|by left].
Qed.

Lemma depth_elems_le l l' :
  (forall x, In x l' -> exists y, In y l /\ (bson_depth x <= bson_depth y)%nat) ->
  (bson_depth (BArray l') <= bson_depth (BArray l))%nat.
Proof.
  intros H. cbn [bson_depth]. apply le_n_S. induction l' as [|x l' IH]; simpl; [lia|].
  apply Nat.max_lub; [|apply IH; intros y Hy; apply H; by right].
  destruct (H x (or_introl eq_refl)) as (y & Hy & Hle). etransitivity; [exact Hle|]. clear - Hy.
  induction l as [|z l IH]; [done|]. simpl. destruct Hy as [->|Hy]; [lia|]. specialize (IH Hy). lia.
Qed.

Lemma depth_fields_le d d' :
  (forall k x, In (k, x) d' -> exists k' y, In (k', y) d /\ (bson_depth x <= bson_depth y)%nat) ->
  (bson_depth (BDocument d') <= bson_depth (BDocument d))%nat.
Proof.
  intros H. cbn [bson_depth]. apply le_n_S. induction d' as [|[k x] d' IH]; simpl; [lia|].
  apply Nat.max_lub; [|apply IH; intros k' y Hy; apply (H k'); by right].
  destruct (H k x (or_introl eq_refl)) as (k' & y & Hy & Hle). etransitivity; [exact Hle|]. clear - Hy.
  induction d as [|[k0 z] d IH]; [done|]. simpl. destruct Hy as [[= -> ->]|Hy]; [lia|]. specialize (IH Hy). lia.
Qed.

(** Redirecting variables does not make an expression deeper. *)
Lemma replace_depth from to e : (bson_depth (replace_var_refs e from to) <= bson_depth e)%nat.
Proof.
  induction e as [| |arr IH|d IH| | | | | | | | | | | | | | | | |] using bson_ind; try (simpl; lia).
  - cbn [replace_var_refs]. destruct (_ =s? from); [simpl; lia|]. destruct (Prelude.strip_prefix _ _); simpl; lia.
  - cbn [replace_var_refs]. apply depth_elems_le. intros x Hx. apply in_map_iff in Hx as (y & <- & Hy).
    exists y. split; [done|]. rewrite Forall_forall in IH. apply IH. by apply list_elem_of_In.
  - cbn [replace_var_refs]. apply depth_fields_le. intros k x Hx.
    apply fold_insert_In in Hx as [[]|Hx]. apply in_map_iff in Hx as ([k' y] & [= <- <-] & Hy).
    exists k', y. split; [done|]. rewrite Forall_forall in IH. apply (IH (k', y)). by apply list_elem_of_In.
Qed.

(** Two evaluations that agree on the expressions of depth below [n]. *)
Definition agree_below (n : nat) (r1 r2 : document -> bson -> result bson agg_failure) : Prop :=
  forall doc e, (bson_depth e < n)%nat -> r1 doc e = r2 doc e.

Section Ext.
Context (n : nat) (r1 r2 : document -> bson -> result bson agg_failure) (H : agree_below n r1 r2).

Lemma args_ext doc args :
  (bson_depth args < n)%nat -> get_array_args r1 doc args = get_array_args r2 doc args.
Proof.
  intros Hd. destruct args; cbn [get_array_args]; try (by rewrite H by done).
  apply map_result_ext_in. intros x Hx. apply H. pose proof (depth_elem x _ Hx). lia.
Qed.

Lemma field_ext doc d k :
  (bson_depth (BDocument d) < n)%nat -> r1 doc (or_null (doc_get d k)) = r2 doc (or_null (doc_get d k)).
Proof.
  intros Hd. apply H. destruct (doc_get d k) as [v|] eqn:Eg; cbn [or_null].
  - pose proof (depth_get d k v Eg). lia.
  - cbn [bson_depth] in *. lia.
Qed.

Lemma replaced_depth d k from to :
  (bson_depth (BDocument d) < n)%nat ->
  (bson_depth (replace_var_refs (or_null (doc_get d k)) from to) < n)%nat.
Proof.
  intros Hd. pose proof (replace_depth from to (or_null (doc_get d k))) as Hr.
  destruct (doc_get d k) as [v|] eqn:Eg; cbn [or_null] in *.
  - pose proof (depth_get d k v Eg). lia.
  - cbn [bson_depth] in *. lia.
Qed.

Lemma cond_ext doc args : (bson_depth args < n)%nat -> expr_cond r1 doc args = expr_cond r2 doc args.
Proof.
  intros Hd. destruct args as [| |[|c [|t [|e [|]]]]|d| | | | | | | | | | | | | | | | |]; try done; cbn [expr_cond].
  - rewrite !H; [done|..]; (eapply Nat.lt_trans; [|exact Hd]; apply depth_elem; simpl; tauto).
  - by rewrite !field_ext.
Qed.

Lemma switch_ext doc args : (bson_depth args < n)%nat -> expr_switch r1 doc args = expr_switch r2 doc args.
Proof.
  intros Hd. destruct args; try done. cbn [expr_switch].
  assert (Hb : forall bs, (forall b, In b bs -> (bson_depth b < n)%nat) ->
    switch_branches r1 doc bs = switch_branches r2 doc bs).
  { induction bs as [|b bs IH]; intros Hbs; [done|]. cbn [switch_branches].
    assert (IH' := IH (fun x Hx => Hbs x (or_intror Hx))).
    destruct b; try apply IH'. by rewrite !field_ext, IH' by (apply Hbs; by left). }
  destruct (doc_get d "branches") as [v|] eqn:Eb.
  - assert (match v with BArray branches => switch_branches r1 doc branches | _ => Ok None end =
            match v with BArray branches => switch_branches r2 doc branches | _ => Ok None end) as ->.
    { destruct v; try done. apply Hb. intros b Hin. pose proof (depth_get _ _ _ Eb). pose proof (depth_elem b _ Hin). lia. }
    destruct (match v with BArray branches => switch_branches r2 doc branches | _ => Ok None end) as [[|]|]; try done.
    simpl. destruct (doc_get d "default") eqn:Ed; [|done]. apply H. pose proof (depth_get _ _ _ Ed). lia.
  - simpl. destruct (doc_get d "default") eqn:Ed; [|done]. apply H. pose proof (depth_get _ _ _ Ed). lia.
Qed.

Lemma map_ext doc args : (bson_depth args < n)%nat -> expr_map r1 doc args = expr_map r2 doc args.
Proof.
  intros Hd. destruct args; try done. cbn [expr_map]. rewrite field_ext by done.
  destruct (r2 doc _) as [[]|]; try done. simpl.
  erewrite map_result_ext_in; [done|]. intros x _. apply H. by apply replaced_depth.
Qed.

Lemma filter_ext doc args : (bson_depth args < n)%nat -> expr_filter r1 doc args = expr_filter r2 doc args.
Proof.
  intros Hd. destruct args; try done. cbn [expr_filter]. rewrite field_ext by done.
  destruct (r2 doc _) as [[]|]; try done. simpl.
  erewrite filter_result_ext; [done|]. intros x. simpl. rewrite H by (by apply replaced_depth). done.
Qed.

Lemma let_ext doc args : (bson_depth args < n)%nat -> expr_let r1 doc args = expr_let r2 doc args.
Proof.
  intros Hd. destruct args as [| | |ld| | | | | | | | | | | | | | | | |]; try done. cbn [expr_let].
  set (in_expr := or_null (doc_get ld "in")).
  assert (Hin : (bson_depth in_expr < n)%nat).
  { subst in_expr. destruct (doc_get ld "in") eqn:Eg; cbn [or_null]; [pose proof (depth_get _ _ _ Eg)|simpl]; lia. }
  assert (Hf : forall vars sd e, (forall k v, In (k, v) vars -> (bson_depth v < n)%nat) -> (bson_depth e < n)%nat ->
    (let? st := fold_result (let_var r1 doc) (sd, e) vars in r1 (fst st) (snd st)) =
    (let? st := fold_result (let_var r2 doc) (sd, e) vars in r2 (fst st) (snd st))).
  { induction vars as [|[k v] vars IH]; intros sd e Hv He; [by apply H|]. cbn [fold_result].
    unfold let_var at 1 3. cbn [fst snd]. rewrite (H doc v) by (apply (Hv k); by left).
    destruct (r2 doc v); [|done]. cbn. apply IH; [intros k' v' Hin'; apply (Hv k'); by right|].
    pose proof (replace_depth ("$$" ++ k)%string ("$" ++ "__let_" ++ k)%string e). lia. }
  destruct (doc_get ld "vars") as [v|] eqn:Ev; [|by apply H]. destruct v; try (by apply H). apply Hf; [|done].
  intros k v Hkv. pose proof (depth_get _ _ _ Ev). pose proof (depth_field k v _ Hkv). lia.
Qed.

Lemma reduce_ext doc args : (bson_depth args < n)%nat -> expr_reduce r1 doc args = expr_reduce r2 doc args.
Proof.
  intros Hd. destruct args as [| | |sp| | | | | | | | | | | | | | | | |]; try done. cbn [expr_reduce].
  assert (Ho : forall k, match doc_get sp k with Some v => r1 doc v | None => Ok BNull end =
                         match doc_get sp k with Some v => r2 doc v | None => Ok BNull end).
  { intros k. destruct (doc_get sp k) eqn:Eg; [|done]. apply H. pose proof (depth_get _ _ _ Eg). lia. }
  rewrite !Ho. destruct (match doc_get sp "input" with Some v => r2 doc v | None => _ end) as [inp|]; [|done]. simpl.
  destruct (match doc_get sp "initialValue" with Some v => r2 doc v | None => _ end) as [ini|]; [|done]. simpl.
  destruct (doc_get sp "in") as [e|] eqn:Ei; [|done]. destruct inp; try done.
  apply fold_result_ext. intros acc x _. unfold reduce_step. apply H.
  pose proof (replace_depth "$$this" "$__this__" (replace_var_refs e "$$value" "$__value__")).
  pose proof (replace_depth "$$value" "$__value__" e). pose proof (depth_get _ _ _ Ei). lia.
Qed.

Lemma concat_arrays_ext doc args :
  (bson_depth args < n)%nat -> expr_concat_arrays r1 doc args = expr_concat_arrays r2 doc args.
Proof.
  intros Hd. destruct args as [| |arr| | | | | | | | | | | | | | | | | |]; try done. cbn [expr_concat_arrays].
  assert (Hx : forall x, In x arr -> (bson_depth x < n)%nat) by (intros x Hx; pose proof (depth_elem x _ Hx); lia).
  clear Hd. generalize (@nil bson). induction arr as [|x arr IH]; intros acc; [done|]. cbn [concat_arrays].
  rewrite H by (apply Hx; by left). destruct (r2 doc x) as [[]|]; try done. simpl. apply IH.
  intros y Hy. apply Hx. by right.
Qed.

Lemma slice_ext doc args : (bson_depth args < n)%nat -> expr_slice r1 doc args = expr_slice r2 doc args.
Proof.
  intros Hd. destruct args as [| |[|p0 [|p1 more]]| | | | | | | | | | | | | | | | | |]; try done. cbn [expr_slice].
  assert (Hx : forall x, In x (p0 :: p1 :: more) -> r1 doc x = r2 doc x)
    by (intros x Hx; apply H; pose proof (depth_elem x _ Hx); lia).
  rewrite (Hx p0) by (simpl; tauto). destruct (r2 doc p0) as [[]|]; try done. simpl.
  rewrite (Hx p1) by (simpl; tauto). destruct (r2 doc p1); [|done]. simpl.
  destruct more as [|p2 more]; [done|]. by rewrite (Hx p2) by (simpl; tauto).
Qed.

Lemma sum_ext doc args : (bson_depth args < n)%nat -> expr_sum_expr r1 doc args = expr_sum_expr r2 doc args.
Proof.
  intros Hd. destruct args as [| |arr| | | | | | | | | | | | | | | | | |]; cbn [expr_sum_expr]; try by apply H.
  erewrite fold_result_ext; [done|]. intros t x Hx. cbv beta.
  by rewrite H by (pose proof (depth_elem x _ Hx); lia).
Qed.

(** The tables of operators agree on arguments of depth below [n]. *)
Lemma operators_ext :
  Forall2 (fun a b => fst a = fst b /\ forall doc args, (bson_depth args < n)%nat -> snd a doc args = snd b doc args)
    (operators r1) (operators r2).
Proof.
  unfold operators. repeat apply List.Forall2_cons; [..|apply List.Forall2_nil].
  all: split; [reflexivity|]; intros doc args Hd; cbn [snd].
  all: first [ reflexivity | by apply cond_ext | by apply switch_ext | by apply map_ext | by apply filter_ext
             | by apply let_ext | by apply reduce_ext | by apply concat_arrays_ext | by apply slice_ext
             | by apply sum_ext | idtac ].
  all: try (match goal with |- ?f _ _ _ = _ => unfold f | |- ?f _ _ _ _ = _ => unfold f end;
            first [by rewrite (args_ext doc args Hd) | by rewrite (H doc args Hd)]).
  all: unfold expr_to_string, expr_date_part; by rewrite (H doc args Hd).
Qed.

Lemma operator_ext doc op args :
  (bson_depth args < n)%nat -> expression_operator r1 doc op args = expression_operator r2 doc op args.
Proof.
  intros Hd. unfold expression_operator.
  induction operators_ext as [|[k1 f1] [k2 f2] l1 l2 [Hk Hf] _ IH]; [done|]. cbn [fst snd] in Hk, Hf. subst k2.
  simpl. destruct (op =s? k1); [by apply Hf|exact IH].
Qed.

Lemma eval_step_ext doc e : bson_depth e = n -> eval_step r1 doc e = eval_step r2 doc e.
Proof.
  intros Hn. destruct e as [| | |d| | | | | | | | | | | | | | | | |];
    [reflexivity|reflexivity|reflexivity| |reflexivity..]. cbn [eval_step].
  unfold evaluate_operator_expression. destruct d as [|[op args] d]; [reflexivity|].
  destruct (negb (starts_with "$" op)).
  - erewrite fold_result_ext; [done|]. intros acc [k v] Hin. cbv beta iota.
    by rewrite H by (pose proof (depth_field k v _ Hin); lia).
  - apply operator_ext. rewrite <- Hn. apply (depth_field op). by left.
Qed.
End Ext.

(** The fuel of [evaluate_expression] is enough. *)
Lemma eval_fuel_enough k : forall m doc e, (bson_depth e < k)%nat -> (bson_depth e < m)%nat ->
  eval_fuel k doc e = eval_fuel m doc e.
Proof.
  induction k as [|k IH]; intros m doc e Hk Hm; [lia|]. destruct m as [|m]; [lia|]. cbn [eval_fuel].
  apply (eval_step_ext (bson_depth e)); [|done]. intros doc' e' He'. apply IH; lia.
Qed.

(** [evaluate_expression] terminates: with the depth of the expression as
    fuel it satisfies the equation of the source, every recursive call included,
    for every document and expression. *)
Theorem evaluate_expression_equation doc e :
  evaluate_expression doc e = eval_step evaluate_expression doc e.
Proof.
  unfold evaluate_expression at 1. cbn [eval_fuel]. apply (eval_step_ext (bson_depth e)); [|done].
  intros doc' e' He'. unfold evaluate_expression. apply eval_fuel_enough; lia.
Qed.
End Equation.

(** ** Types *)

(** The calendar fields fit in 32 bits ([chrono] bounds years to about 262,000). *)
Class AggLaws (A : AggEnv) : Prop := {
  chrono_in_range : forall ms dt, chrono_utc ms = Some dt ->
    Forall (fun z => in_range i32_min i32_max z = true)
      [dt_year dt; dt_month dt; dt_day dt; dt_hour dt; dt_minute dt; dt_second dt;
       (dt_days_from_sunday dt + 1)%Z; dt_ordinal dt] }.

Section Types.
Context {B : BsonOps} {Lm : Libm} {T : TextEnv} {FP : F64Parse} {A : AggEnv} {BL : BsonLaws B} {AL : AggLaws A}.

Lemma in_range_spec lo hi z : in_range lo hi z = true <-> (lo <= z <= hi)%Z.
Proof. unfold in_range. rewrite andb_true_iff. lia. Qed.

Lemma as_i64_range x : in_range i64_min i64_max (f64_as_i64 x) = true.
Proof. by apply f64_as_int_range. Qed.

Lemma as_i32_range x : in_range i32_min i32_max (f64_as_i32 x) = true.
Proof. by apply f64_as_int_range. Qed.

Lemma wrap_i32_range z : in_range i32_min i32_max (wrap_i32 z) = true.
Proof.
  apply in_range_spec. unfold wrap_i32, wrap_signed, i32_min, i32_max.
  pose proof (Z.mod_pos_bound (z + 2 ^ (32 - 1)) (2 ^ 32) ltac:(lia)). lia.
Qed.

Lemma wrap_i64_range z : in_range i64_min i64_max (wrap_i64 z) = true.
Proof.
  apply in_range_spec. unfold wrap_i64, wrap_signed, i64_min, i64_max.
  pose proof (Z.mod_pos_bound (z + 2 ^ (64 - 1)) (2 ^ 64) ltac:(lia)). lia.
Qed.

Lemma rem_range a b r :
  in_range i64_min i64_max a = true -> i64_rem a b = Ok r -> in_range i64_min i64_max r = true.
Proof.
  rewrite !in_range_spec. unfold i64_rem. destruct (b =? 0)%Z eqn:Eb; [done|].
  destruct (_ && _); [done|]. intros Ha [= <-]. apply Z.eqb_neq in Eb. unfold i64_min, i64_max in *.
  destruct (Z.le_gt_cases 0 a).
  - pose proof (Z.rem_nonneg a b Eb ltac:(lia)).
    assert (Z.rem a b <= a)%Z; [|lia]. rewrite <- (Z.rem_abs_r a b) by done. apply Z.rem_le; lia.
  - pose proof (Z.rem_nonpos a b Eb ltac:(lia)). assert (a <= Z.rem a b)%Z; [|lia].
    rewrite <- (Z.opp_involutive a), Z.rem_opp_l by done. rewrite <- (Z.rem_abs_r (- a) b) by done.
    assert (Z.rem (- a) (Z.abs b) <= - a)%Z; [|lia]. apply Z.rem_le; lia.
Qed.

Lemma parse_i32_range s z : parse_i32 s = Some z -> in_range i32_min i32_max z = true.
Proof.
  assert (Hs : forall neg t, parse_signed neg t = Some z -> in_range i32_min i32_max z = true).
  { intros neg t. unfold parse_signed. destruct t; [done|]. destruct (parse_digits 0 _) as [m|]; [|done].
    cbv zeta. destruct (in_range i32_min i32_max (if neg then (- m)%Z else m)) eqn:Er; [|done]. by intros [= <-]. }
  unfold parse_i32. repeat case_match; eauto.
Qed.

Lemma replace_ok from to e : bson_ok e = true -> bson_ok (replace_var_refs e from to) = true.
Proof.
  induction e as [| |arr IH|d IH| | | | | | | | | | | | | | | | |] using bson_ind; try done.
  - intros _. cbn [replace_var_refs]. destruct (_ =s? from); [done|]. by destruct (Prelude.strip_prefix _ _).
  - intros H. cbn [replace_var_refs]. apply arr_ok_spec. intros x Hx. apply in_map_iff in Hx as (y & <- & Hy).
    rewrite Forall_forall in IH. apply IH; [by apply list_elem_of_In|]. by apply (proj1 (arr_ok_spec arr) H).
  - intros H. cbn [replace_var_refs]. apply doc_ok_spec in H as [Hnd H].
    assert (Hf : forall l acc, doc_ok acc = true -> (forall k v, In (k, v) l -> bson_ok v = true) ->
      doc_ok (fold_left (fun new_doc '(k, v) => doc_insert new_doc k v) l acc) = true).
    { induction l as [|[k v] l IHl]; intros acc Ha Hl; [done|]. simpl. apply IHl; [|intros; eapply Hl; by right].
      apply insert_ok; [done|]. by apply (Hl k v); left. }
    apply Hf; [done|]. intros k v Hin. apply in_map_iff in Hin as ([k' y] & [= <- <-] & Hy).
    rewrite Forall_forall in IH. apply (IH (k', y)); [by apply list_elem_of_In|]. by eapply H.
Qed.

Lemma or_null_ok o : (forall v, o = Some v -> bson_ok v = true) -> bson_ok (or_null o) = true.
Proof. destruct o; [by eauto|done]. Qed.

Section Step.
Context (rec : document -> bson -> result bson agg_failure)
  (Hrec : forall doc e v, doc_ok doc = true -> bson_ok e = true -> rec doc e = Ok v -> bson_ok v = true).

(** An operator whose results are well typed. *)
Definition typed_op (f : document -> bson -> result bson agg_failure) : Prop :=
  forall doc args v, doc_ok doc = true -> bson_ok args = true -> f doc args = Ok v -> bson_ok v = true.

Lemma args_ok doc args vals :
  doc_ok doc = true -> bson_ok args = true -> get_array_args rec doc args = Ok vals ->
  forall x, In x vals -> bson_ok x = true.
Proof.
  intros Hd Ha H x Hx. assert (Hone : forall e, bson_ok e = true -> (let? v := rec doc e in Ok [v]) = Ok vals -> bson_ok x = true).
  { intros e He Hr. destruct (rec doc e) as [v|] eqn:Ev; [|done]. injection Hr as <-. destruct Hx as [<-|[]].
    by eapply Hrec. }
  destruct args; try (by eapply Hone). cbn [get_array_args] in H.
  destruct (map_result_In _ _ _ _ H Hx) as (e & Hin & Hr). eapply Hrec; [done| |done].
  by apply (proj1 (arr_ok_spec _) Ha).
Qed.

(** Operators over evaluated arguments, and over one evaluated value. *)
Lemma over_args f :
  (forall doc vals v, (forall x, In x vals -> bson_ok x = true) -> f doc vals = Ok v -> bson_ok v = true) ->
  typed_op (fun doc args => let? vals := get_array_args rec doc args in f doc vals).
Proof.
  intros Hf doc args v Hd Ha H. destruct (get_array_args rec doc args) as [vals|] eqn:Ev; [|done].
  apply (Hf doc vals); [by eapply args_ok|done].
Qed.

Lemma over_value f :
  (forall v, bson_ok v = true -> bson_ok (f v) = true) ->
  typed_op (fun doc args => let? val := rec doc args in Ok (f val)).
Proof.
  intros Hf doc args v Hd Ha H. destruct (rec doc args) as [w|] eqn:Ew; [|done]. injection H as <-.
  apply Hf. by eapply Hrec.
Qed.

Lemma field_ok d k : bson_ok (BDocument d) = true -> bson_ok (or_null (doc_get d k)) = true.
Proof. intros Hd. apply or_null_ok. intros v Hv. by eapply get_ok. Qed.

Lemma elem_ok a x : bson_ok (BArray a) = true -> In x a -> bson_ok x = true.
Proof. intros H Hin. by apply (proj1 (arr_ok_spec a) H). Qed.

Lemma arith_ok op total hd vals : bson_ok (arith_result (arith op total hd vals)) = true.
Proof.
  destruct (arith op total hd vals) as [[t []]|]; [done| |done]. apply as_i64_range.
Qed.

Lemma cond_ok : typed_op (expr_cond rec).
Proof.
  intros doc args v Hd Ha H. destruct args as [| |[|c [|t [|e [|]]]]|d| | | | | | | | | | | | | | | | |];
    try (injection H as <-; done); cbn [expr_cond] in H.
  - destruct (rec doc c) as [w|]; [|done]. simpl in H.
    destruct (is_truthy w); (eapply Hrec; [exact Hd| |exact H]; eapply elem_ok; [exact Ha|simpl; tauto]).
  - destruct (rec doc _) as [w|]; [|done]. simpl in H.
    destruct (is_truthy w); (eapply Hrec; [exact Hd| |exact H]; by apply field_ok).
Qed.

Lemma switch_ok : typed_op (expr_switch rec).
Proof.
  intros doc args v Hd Ha H. destruct args as [| | |sw| | | | | | | | | | | | | | | | |];
    try (injection H as <-; done). cbn [expr_switch] in H.
  assert (Hb : forall bs r, bson_ok (BArray bs) = true -> switch_branches rec doc bs = Ok (Some r) -> bson_ok r = true).
  { intros bs r Hbs. rewrite arr_ok_spec in Hbs. induction bs as [|b bs IH]; [done|]. cbn [switch_branches].
    assert (IH' := IH (fun x Hx => Hbs x (or_intror Hx))). pose proof (Hbs b (or_introl eq_refl)) as Hbok.
    destruct b; try exact IH'. destruct (rec doc (or_null (doc_get d "case"))) as [w|]; [|done]. simpl.
    destruct (is_truthy w); [|exact IH']. destruct (rec doc (or_null (doc_get d "then"))) as [u|] eqn:Eu; [|done].
    intros [= <-]. eapply Hrec; [exact Hd| |exact Eu]. by apply field_ok. }
  destruct (match doc_get sw "branches" with Some (BArray bs) => switch_branches rec doc bs | _ => Ok None end)
    as [[r|]|] eqn:Er; [| |done]; cbn in H.
  - injection H as <-. destruct (doc_get sw "branches") as [bv|] eqn:Eb; [|done]. destruct bv; try done.
    eapply Hb; [|exact Er]. by eapply get_ok.
  - destruct (doc_get sw "default") as [dv|] eqn:Ed; [|by injection H as <-]. eapply Hrec; [exact Hd| |exact H].
    by eapply get_ok.
Qed.

Lemma map_ok : typed_op (expr_map rec).
Proof.
  intros doc args v Hd Ha H. destruct args as [| | |md| | | | | | | | | | | | | | | | |];
    try (injection H as <-; done). cbn [expr_map] in H.
  destruct (rec doc (or_null (doc_get md "input"))) as [inp|] eqn:Ei; [|done]. simpl in H.
  assert (Hi : bson_ok inp = true) by (eapply Hrec; [exact Hd| |exact Ei]; by apply field_ok).
  destruct inp; try (injection H as <-; done).
  destruct (map_result _ a) as [r|] eqn:Em; [|done]. injection H as <-. apply arr_ok_spec. intros x Hx.
  destruct (map_result_In _ _ _ _ Em Hx) as (item & Hin & Hr). eapply Hrec; [| |exact Hr].
  - apply insert_ok; [done|]. by eapply elem_ok.
  - by apply replace_ok, field_ok.
Qed.

Lemma filter_ok : typed_op (expr_filter rec).
Proof.
  intros doc args v Hd Ha H. destruct args as [| | |md| | | | | | | | | | | | | | | | |];
    try (injection H as <-; done). cbn [expr_filter] in H.
  destruct (rec doc (or_null (doc_get md "input"))) as [inp|] eqn:Ei; [|done]. simpl in H.
  assert (Hi : bson_ok inp = true) by (eapply Hrec; [exact Hd| |exact Ei]; by apply field_ok).
  destruct inp; try (injection H as <-; done).
  destruct (filter_result _ a) as [r|] eqn:Em; [|done]. injection H as <-. apply arr_ok_spec. intros x Hx.
  apply (filter_result_In _ _ _ Em) in Hx as [Hx _]. by eapply elem_ok.
Qed.

Lemma let_ok : typed_op (expr_let rec).
Proof.
  intros doc args v Hd Ha H. destruct args as [| | |ld| | | | | | | | | | | | | | | | |];
    try (injection H as <-; done). cbn [expr_let] in H.
  assert (Hst : forall st, match doc_get ld "vars" with
    | Some (BDocument vars) => fold_result (let_var rec doc) (doc, or_null (doc_get ld "in")) vars
    | _ => Ok (doc, or_null (doc_get ld "in")) end = Ok st -> doc_ok (fst st) = true /\ bson_ok (snd st) = true).
  { intros st Hs. assert (Hin : bson_ok (or_null (doc_get ld "in")) = true) by (by apply field_ok).
    destruct (doc_get ld "vars") as [vv|] eqn:Ev; [|by injection Hs as <-]. destruct vv; try (by injection Hs as <-).
    revert Hs. apply (fold_result_inv (fun st => doc_ok (fst st) = true /\ bson_ok (snd st) = true)); [|done].
    intros [sd ie] [k e] st' Hk [H1 H2] Hv. unfold let_var in Hv. cbn [fst snd] in *.
    destruct (rec doc e) as [w|] eqn:Ew; [|done]. injection Hv as <-. cbn [fst snd]. split; [|by apply replace_ok].
    apply insert_ok; [done|]. eapply Hrec; [exact Hd| |exact Ew]. assert (Hdoc : doc_ok d = true) by exact (get_ok ld "vars" (BDocument d) Ha Ev).
    apply doc_ok_spec in Hdoc as [_ Hdoc]. by eapply Hdoc. }
  destruct (match doc_get ld "vars" with Some (BDocument vars) => _ | _ => _ end) as [st|]; [|done].
  destruct (Hst st eq_refl) as [H1 H2]. simpl in H. by eapply Hrec.
Qed.

Lemma reduce_ok : typed_op (expr_reduce rec).
Proof.
  intros doc args v Hd Ha H. destruct args as [| | |sp| | | | | | | | | | | | | | | | |];
    try (injection H as <-; done). cbn [expr_reduce] in H.
  assert (Ho : forall k w, match doc_get sp k with Some v => rec doc v | None => Ok BNull end = Ok w -> bson_ok w = true).
  { intros k w. destruct (doc_get sp k) as [e|] eqn:Eg; [|by intros [= <-]]. intros Hr. eapply Hrec; [exact Hd| |exact Hr].
    by eapply get_ok. }
  destruct (match doc_get sp "input" with Some v => rec doc v | None => _ end) as [inp|] eqn:E1; [|done]. simpl in H.
  destruct (match doc_get sp "initialValue" with Some v => rec doc v | None => _ end) as [ini|] eqn:E2; [|done]. simpl in H.
  apply Ho in E1, E2. destruct (doc_get sp "in") as [e|] eqn:Ei; [|by injection H as <-].
  destruct inp; try (injection H as <-; done). revert H.
  apply (fold_result_inv (fun w => bson_ok w = true)); [|done]. intros acc item acc' Hin Hacc Hr.
  unfold reduce_step in Hr. eapply Hrec; [| |exact Hr].
  - apply insert_ok; [by apply insert_ok|by eapply elem_ok].
  - apply replace_ok, replace_ok. by eapply get_ok.
Qed.

Lemma concat_arrays_ok : typed_op (expr_concat_arrays rec).
Proof.
  intros doc args v Hd Ha H. destruct args as [| |arr| | | | | | | | | | | | | | | | | |];
    try (injection H as <-; done). cbn [expr_concat_arrays] in H. rewrite arr_ok_spec in Ha.
  assert (Hacc : bson_ok (BArray []) = true) by done. revert Ha Hacc H. generalize (@nil bson).
  induction arr as [|x arr IH]; intros acc Ha Hacc H; cbn [concat_arrays] in H; [by injection H as <-|].
  destruct (rec doc x) as [w|] eqn:Ew; [|done]. simpl in H. destruct w; try (injection H as <-; done).
  apply (IH (acc ++ a)); [intros y Hy; apply Ha; by right| |done].
  assert (Hw : bson_ok (BArray a) = true) by (eapply Hrec; [exact Hd| |exact Ew]; by apply Ha; left).
  apply arr_ok_spec. intros y Hy. apply in_app_iff in Hy as [Hy|Hy];
    [exact (elem_ok acc y Hacc Hy)|exact (elem_ok a y Hw Hy)].
Qed.

Lemma slice_ok : typed_op (expr_slice rec).
Proof.
  intros doc args v Hd Ha H. destruct args as [| |[|p0 [|p1 more]]| | | | | | | | | | | | | | | | | |];
    try (injection H as <-; done). cbn [expr_slice] in H.
  destruct (rec doc p0) as [w|] eqn:E0; [|done]. simpl in H. destruct w; try (injection H as <-; done).
  assert (Hw : bson_ok (BArray a) = true) by (eapply Hrec; [exact Hd| |exact E0]; eapply elem_ok; [exact Ha|by left]).
  assert (Hsub : forall l, (forall x, In x l -> In x a) -> bson_ok (BArray l) = true).
  { intros l Hsub. apply arr_ok_spec. intros x Hx. eapply elem_ok; [exact Hw|by apply Hsub]. }
  destruct (rec doc p1) as [w1|]; [|done]. simpl in H. destruct more as [|p2 more].
  - injection H as <-. apply Hsub. intros x Hx. destruct (0 <=? _)%Z; [by eapply in_take|by eapply in_drop].
  - destruct (rec doc p2) as [w2|]; [|done]. injection H as <-. apply Hsub. intros x Hx.
    by eapply in_drop, in_take.
Qed.

Lemma sum_ok : typed_op (expr_sum_expr rec).
Proof.
  intros doc args v Hd Ha H. destruct args as [| |arr| | | | | | | | | | | | | | | | | |];
    cbn [expr_sum_expr] in H; try (eapply Hrec; [exact Hd|exact Ha|exact H]).
  destruct (fold_result _ f64_zero arr) as [t|]; [|done]. injection H as <-.
  destruct (f64_eqb _ _); [|done]. apply as_i64_range.
Qed.

Lemma insert_all_ok m d : doc_ok m = true -> doc_ok d = true -> doc_ok (insert_all m d) = true.
Proof.
  intros Hm Hd. apply doc_ok_spec in Hd as [_ Hd]. unfold insert_all. revert m Hm.
  induction d as [|[k v] d IH]; intros m Hm; [done|]. simpl. apply IH; [intros k' v' Hin; eapply Hd; by right|].
  apply insert_ok; [done|]. by apply (Hd k v); left.
Qed.

Lemma merge_ok vals m :
  (forall x, In x vals -> bson_ok x = true) -> doc_ok m = true ->
  doc_ok (fold_left (fun merged v => match v with BDocument d => insert_all merged d | _ => merged end) vals m) = true.
Proof.
  revert m. induction vals as [|v vals IH]; intros m Hv Hm; [done|]. simpl.
  apply IH; [intros x Hx; apply Hv; by right|]. pose proof (Hv v (or_introl eq_refl)).
  destruct v; try done. by apply insert_all_ok.
Qed.

Lemma to_object_ok arr acc :
  (forall x, In x arr -> bson_ok x = true) -> doc_ok acc = true ->
  doc_ok (fold_left (fun result item =>
    match item with
    | BDocument d =>
        match doc_get d "k", doc_get d "v" with
        | Some (BString key), Some v => doc_insert result key v
        | _, _ => result
        end
    | BArray [BString key; v] => doc_insert result key v
    | _ => result
    end) arr acc) = true.
Proof.
  revert acc. induction arr as [|x arr IH]; intros acc Hx Ha; [done|]. simpl.
  apply IH; [intros y Hy; apply Hx; by right|]. pose proof (Hx x (or_introl eq_refl)) as Hok.
  destruct x as [| |[|[] [|y [|]]]|d| | | | | | | | | | | | | | | | |]; try done.
  - apply insert_ok; [done|]. eapply elem_ok; [exact Hok|by right; left].
  - destruct (doc_get d "k") as [[]|]; try done. destruct (doc_get d "v") eqn:Ev; [|done].
    apply insert_ok; [done|]. by eapply get_ok.
Qed.

Lemma first_non_null_ok vals :
  (forall x, In x vals -> bson_ok x = true) -> bson_ok (first_non_null vals) = true.
Proof.
  induction vals as [|v vals IH]; intros H; [done|]. pose proof (H v (or_introl eq_refl)) as Hv.
  destruct vals as [|w vals]; [by destruct v|]. destruct v; try exact Hv. apply IH. intros x Hx. apply H. by right.
Qed.

Lemma date_part_ok (part : datetime -> Z) :
  (forall ms dt, chrono_utc ms = Some dt -> in_range i32_min i32_max (part dt) = true) ->
  typed_op (fun doc args => expr_date_part rec doc args part).
Proof.
  intros Hp. unfold expr_date_part. apply (over_value (fun val => match bson_to_chrono_utc val with
    Some dt => BInt32 (part dt) | None => BNull end)). intros v _.
  destruct v; cbn [bson_to_chrono_utc]; try done. destruct (chrono_utc millis) eqn:Ec; [|done]. by eapply Hp.
Qed.

Lemma vec_get_ok arr i : bson_ok (BArray arr) = true -> bson_ok (or_null (vec_get arr i)) = true.
Proof. intros H. apply or_null_ok. intros v Hv. eapply elem_ok; [exact H|by eapply vec_get_In]. Qed.

(** Evaluates the arguments of an operator; what is left is a computation. *)
Ltac op_start :=
  intros doc args v Hd Ha H;
  unfold expr_add, expr_subtract, expr_multiply, expr_divide, expr_mod, expr_concat, expr_substr,
    expr_to_upper, expr_to_lower, expr_if_null, expr_array_elem_at, expr_size, expr_not, expr_and,
    expr_or, expr_cmp_op, expr_abs, expr_unary_f64, expr_round, expr_type, expr_to_string,
    expr_to_int, expr_to_double, expr_to_bool, expr_in, expr_merge_objects, expr_object_to_array,
    expr_array_to_object, expr_bson_size, expr_reverse_array in H;
  lazymatch type of H with
  | context [get_array_args rec doc args] =>
      destruct (get_array_args rec doc args) as [vals|] eqn:Ev; [|done];
      pose proof (args_ok doc args vals Hd Ha Ev) as Hv
  | context [rec doc args] =>
      destruct (rec doc args) as [w|] eqn:Ew; [|done]; pose proof (Hrec _ _ _ Hd Ha Ew) as Hw
  end; cbn in H.

(** Every operator gives well-typed results on well-typed input. *)
Lemma operators_ok : Forall (fun kv => typed_op (snd kv)) (operators rec).
Proof.
  unfold operators. repeat apply List.Forall_cons; [..|apply List.Forall_nil]; cbn [snd].
  all: first [exact cond_ok | exact switch_ok | exact map_ok | exact filter_ok | exact let_ok
    | exact reduce_ok | exact concat_arrays_ok | exact slice_ok | exact sum_ok
    | (apply date_part_ok; intros ms dt Hc; pose proof (chrono_in_range ms dt Hc) as Hr;
       rewrite !Forall_cons in Hr; tauto) | op_start | idtac].
  all: try (injection H as <-; first [apply arith_ok | by apply first_non_null_ok | by apply merge_ok | done]).
  all: try (destruct w; injection H as <-; try done;
            first [apply wrap_i32_range | apply wrap_i64_range | apply as_i32_range]).
  all: try solve [unfold num_or in *; repeat case_match; simplify_eq/=;
    first [done | apply as_i64_range | apply as_i32_range | by eapply parse_i32_range
          | (apply vec_get_ok, Hv; by left) | (eapply rem_range; [apply as_i64_range|done])]].
  - by intros doc args v Hd Ha [= <-].
  - destruct w; injection H as <-; try done; [apply as_i32_range| |by destruct b|apply wrap_i32_range].
    destruct (parse_i32 s) eqn:Ep; [by eapply parse_i32_range|done].
  - intros doc args v Hd Ha H. destruct args; try (injection H as <-; done). cbn [expr_meta] in H.
    repeat case_match; simplify_eq/=; apply or_null_ok; intros w Hw; by eapply get_ok.
  - destruct w; injection H as <-; try done. apply arr_ok_spec. intros x Hx.
    apply in_map_iff in Hx as ([k y] & <- & Hin). cbn [fst snd]. apply insert_ok; [by apply insert_ok|].
    apply doc_ok_spec in Hw as [_ Hw]. by eapply Hw.
  - destruct w; injection H as <-; try done. apply to_object_ok; [|done]. by apply arr_ok_spec.
  - destruct w; injection H as <-; try done. apply arr_ok_spec. intros x Hx. apply in_rev in Hx. by eapply elem_ok.
Qed.

Lemma eval_step_ok doc e v :
  doc_ok doc = true -> bson_ok e = true -> eval_step rec doc e = Ok v -> bson_ok v = true.
Proof.
  intros Hd He H. assert (Hget : forall key, bson_ok (or_null (get_value doc key)) = true).
  { intros key. apply or_null_ok. intros w Hw. by eapply get_value_wf. }
  destruct e as [|s| |d| | | | | | | | | | | | | | | | |]; cbn [eval_step] in H;
    [by injection H as <-| |by injection H as <-| |by injection H as <-..].
  - repeat case_match; simplify_eq/=; auto.
  - unfold evaluate_operator_expression in H. destruct d as [|[op args] d]; [by injection H as <-|].
    apply doc_ok_spec in He as [_ He]. destruct (negb (starts_with "$" op)).
    + destruct (fold_result _ [] _) as [r|] eqn:Ef; [|done]. injection H as <-. revert Ef.
      apply (fold_result_inv (fun d => doc_ok d = true)); [|done]. intros acc [k x] acc' Hin Hacc Hr.
      destruct (rec doc x) as [y|] eqn:Ey; [|done]. injection Hr as <-. apply insert_ok; [done|].
      eapply Hrec; [exact Hd| |exact Ey]. by eapply He.
    + unfold expression_operator in H. destruct (find _ _) as [[k f]|] eqn:Ef; [|done].
      apply find_some in Ef as [Hin _]. pose proof operators_ok as Hops. rewrite List.Forall_forall in Hops.
      apply (Hops (k, f) Hin doc args v); [done| |done]. by eapply He; left.
Qed.
End Step.

Lemma eval_typed doc e v :
  doc_ok doc = true -> bson_ok e = true -> evaluate_expression doc e = Ok v -> bson_ok v = true.
Proof.
  unfold evaluate_expression. generalize (S (bson_depth e)). intros n. revert doc e v.
  induction n as [|n IH]; intros doc e v Hd He H; [done|]. by apply (eval_step_ok (eval_fuel n) IH doc e v).
Qed.

(** On a well-typed document and expression, a successful evaluation
    gives a well-typed value: integers in their width, unique keys, whatever the
    operator. *)
Theorem evaluate_preserves_types doc e v :
  doc_ok doc = true -> bson_ok e = true -> evaluate_expression doc e = Ok v -> bson_ok v = true.
Proof. apply eval_typed. Qed.
End Types.

(** ** The interface of the query evaluator *)

(** [evaluate_expression(..).map_err(|e| e.to_string())]. *)
Definition engine `{BsonOps, Libm, TextEnv, F64Parse, AggEnv} : ExprEngine :=
  {| Query.evaluate_expression doc e := map_err agg_failure_text (evaluate_expression doc e) |}.

(** ** A reference environment, and the theorems on concrete expressions *)

Module RefAgg.
(** Days since the epoch as the day of a year of 365 days, from midnight to
    midnight: not the Gregorian calendar, but within the ranges of one. *)
Definition day (ms : Z) : option datetime :=
  let days := (ms / 86400000)%Z in
  let secs := (ms / 1000)%Z in
  if in_range (-1000000) 1000000 days then
    Some {| dt_year := 1970 + days / 365; dt_month := days mod 365 / 31 + 1;
            dt_day := days mod 365 mod 31 + 1; dt_hour := secs / 3600 mod 24;
            dt_minute := secs / 60 mod 60; dt_second := secs mod 60;
            dt_days_from_sunday := (days + 4) mod 7; dt_ordinal := days mod 365 + 1 |}%Z
  else None.

#[export] Instance parse : F64Parse :=
  {| f64_parse s := option_map f64_of_Z (parse_i32 s) |}.

#[export] Instance env : AggEnv := {|
  chrono_utc := day;
  to_uppercase s := s;
  f64_fixed0 x := if f64_ltb x f64_zero then "-" else "+" |}.

#[export] Instance laws : AggLaws env.
Proof.
  constructor. intros ms dt. cbn [chrono_utc env]. unfold day.
  destruct (in_range (-1000000) 1000000 (ms / 86400000)) eqn:E; [|done]. intros [= <-].
  apply in_range_spec in E. set (d := (ms / 86400000)%Z) in *. clearbody d.
  repeat apply List.Forall_cons; [..|apply List.Forall_nil]; apply in_range_spec;
    unfold i32_min, i32_max; cbn; Z.div_mod_to_equations; lia.
Qed.
End RefAgg.

Section Witnesses.
Import RefAgg.

Lemma evaluate_expression_equation_witness :
  let e := BDocument [("$add", BArray [BString "$a"; BInt32 2])] in
  evaluate_expression [("a", BInt32 1)] e = eval_step evaluate_expression [("a", BInt32 1)] e
  /\ evaluate_expression [("a", BInt32 1)] e = Ok (BInt64 3).
Proof. intros e. split; [apply evaluate_expression_equation|vm_compute; reflexivity]. Defined.

Lemma evaluate_preserves_types_witness :
  let e := BDocument [("$dayOfWeek", BString "$t")] in
  let doc := [("t", BDateTime 86400000)] in
  evaluate_expression doc e = Ok (BInt32 6) /\ bson_ok (BInt32 6) = true.
Proof.
  intros e doc. assert (H : evaluate_expression doc e = Ok (BInt32 6)) by (vm_compute; reflexivity).
  split; [exact H|]. apply (evaluate_preserves_types doc e (BInt32 6)); [reflexivity|reflexivity|exact H].
Defined.

(** [$add] sums in [f64]: above 2^53 the sum of two [Int64] is not exact. *)
Theorem add_int64_loses_precision :
  evaluate_expression [] (BDocument [("$add", BArray [BInt64 9007199254740993; BInt64 0])])
  = Ok (BInt64 9007199254740992).
Proof. vm_compute; reflexivity. Qed.

(** [$substr] adds the start and the length with wrap-around: from position 1, a
    length at the top of the range ends before it starts, and the slice panics. *)
Theorem substr_long_length_panics :
  evaluate_expression [] (BDocument [("$substr", BArray [BString "abc"; BInt32 1; BDouble (f64_of_Z (2 ^ 64))])])
  = Err (AggPanic "slice index starts after its end").
Proof. vm_compute; reflexivity. Qed.

(** The variable of [$map] is a field of the document, which the body sees in
    [$$ROOT]. *)
Theorem map_variable_in_root :
  evaluate_expression [("a", BArray [BInt32 7])]
    (BDocument [("$map", BDocument [("input", BString "$a"); ("in", BString "$$ROOT")])])
  = Ok (BArray [BDocument [("a", BArray [BInt32 7]); ("__this", BInt32 7)]]).
Proof. vm_compute; reflexivity. Qed.
End Witnesses.
