(* ===== verification/Accumulators.v ===== *)
(** * Group accumulators

    [src/rust/smongo-engine/src/aggregation/accumulators.rs]: one value out of
    the documents of a group.  The properties: on well-typed documents the
    value is well typed; integer sums are exact as long as they fit; the
    extremes bound their group; sets hold each value once. *)

From Stdlib Require Import ZArith Lia Ascii String Strings.Byte Permutation Sorted.
From S2P Require Import Prelude F64 Bson RefBson Paths Geo Query Update Schema Collation Expressions.
From stdpp Require Import base tactics list strings.

Open Scope string_scope.
Open Scope list_scope.

(** ** What the pipeline uses of the standard library without a fixed result

    [size_of::<Bson>()]; the order in which a [HashMap] yields its entries;
    the arrangement [select_nth_unstable_by] leaves around the chosen
    position; the position of the entry a [BinaryHeap] pops, and the order in
    which it is iterated; and the shuffle of the [rand] crate.  Each is a function of its input here; the theorems
    quantify over it. *)
Class StdEnv : Type := {
  size_of_bson : Z;
  size_of_document : Z;
  hash_order : forall {A : Type}, list (string * A) -> list (string * A);
  select_nth : forall {A : Type}, (A -> A -> comparison) -> nat -> list A -> list A;
  heap_max : forall {A : Type}, (A -> A -> comparison) -> list A -> nat;
  heap_order : forall {A : Type}, list A -> list A;
  shuffle : forall {A : Type}, list A -> list A }.

(** Their documented behaviour. *)
Class StdLaws (S : StdEnv) : Prop := {
  size_of_bson_pos : (1 <= size_of_bson)%Z;
  size_of_document_pos : (1 <= size_of_document)%Z;
  hash_order_perm : forall A (l : list (string * A)), Permutation (hash_order l) l;
  select_nth_perm : forall A cmp n (l : list A), Permutation (select_nth cmp n l) l;
  select_nth_splits : forall A (P : A -> Prop) cmp n (l : list A),
    TotalPreorder P cmp -> Forall P l -> (n < length l)%nat ->
    forall x y, In x (take (Datatypes.S n) (select_nth cmp n l)) ->
      In y (drop (Datatypes.S n) (select_nth cmp n l)) -> cmp x y <> Gt;
  heap_max_is_max : forall A (P : A -> Prop) cmp (l : list A),
    TotalPreorder P cmp -> Forall P l -> l <> [] ->
    exists m, l !! heap_max cmp l = Some m /\ forall x, In x l -> cmp x m <> Gt;
  heap_max_bound : forall A (cmp : A -> A -> comparison) (l : list A), l <> [] -> (heap_max cmp l < length l)%nat;
  heap_order_perm : forall A (l : list A), Permutation (heap_order l) l;
  shuffle_perm : forall A (l : list A), Permutation (shuffle l) l }.

(** [iter().take(n)] and [iter().skip(n)] for a [usize]. *)
Definition iter_take {X} (n : Z) (l : list X) : list X :=
  take (Z.to_nat (Z.min n (Z.of_nat (length l)))) l.
Definition iter_skip {X} (n : Z) (l : list X) : list X :=
  drop (Z.to_nat (Z.min n (Z.of_nat (length l)))) l.

Section Accumulators.
Context {B : BsonOps} {Lm : Libm} {T : TextEnv} {FP : F64Parse} {A : AggEnv} {SE : StdEnv}.

(** The values of an expression on the documents of a group, in order. *)
Definition values (docs : list document) (expr : bson) : result (list bson) agg_failure :=
  map_result (fun doc => evaluate_expression doc expr) docs.

(** ** Numbers *)

(** [int_sum], [has_double], [dbl_sum]. *)
Record sums : Type := { int_sum : Z; has_double : bool; dbl_sum : f64 }.

(** Source: aggregation/accumulators.rs:67-82 (accum_sum). One value; the integer
    sum wraps around. *)
Definition sum_step (s : sums) (val : bson) : sums :=
  match val with
  | BInt32 n | BInt64 n =>
      {| int_sum := wrap_i64 (int_sum s + n); has_double := has_double s;
         dbl_sum := f64_add (dbl_sum s) (f64_of_Z n) |}
  | BDouble n =>
      {| int_sum := int_sum s; has_double := true; dbl_sum := f64_add (dbl_sum s) n |}
  | _ => s
  end.

Definition no_sum : sums := {| int_sum := 0; has_double := false; dbl_sum := f64_zero |}.

(** Source: aggregation/accumulators.rs:61-89 (accum_sum). *)
Definition accum_sum (docs : list document) (expr : bson) : result bson agg_failure :=
  let? s := fold_result (fun s doc => let? val := evaluate_expression doc expr in Ok (sum_step s val))
              no_sum docs in
  Ok (if has_double s then BDouble (dbl_sum s) else BInt64 (int_sum s)).

(** Source: aggregation/accumulators.rs:91-106 (accum_avg). *)
Definition accum_avg (docs : list document) (expr : bson) : result bson agg_failure :=
  let? (sum, count) := fold_result (fun '(sum, count) doc =>
      let? val := evaluate_expression doc expr in
      Ok (match bson_to_f64 val with
          | Some n => (f64_add sum n, (count + 1)%Z)
          | None => (sum, count)
          end)) (f64_zero, 0%Z) docs in
  Ok (if (0 <? count)%Z then BDouble (f64_div sum (f64_of_Z count)) else BNull).

(** [iter().sum::<f64>()]. *)
Definition f64_sum (l : list f64) : f64 := fold_left f64_add l f64_zero.

(** Source: aggregation/accumulators.rs:198-214 (accum_stddev). *)
Definition accum_stddev (docs : list document) (expr : bson) (population : bool)
  : result bson agg_failure :=
  let? vals := values docs expr in
  let values := omap bson_to_f64 vals in
  let n := Z.of_nat (length values) in
  if (n =? 0)%Z || (negb population && (n <? 2)%Z) then Ok BNull
  else
    let mean := f64_div (f64_sum values) (f64_of_Z n) in
    let variance := f64_div (f64_sum (map (fun v => f64_powi (f64_sub v mean) 2) values))
                      (f64_of_Z (if population then n else (n - 1)%Z)) in
    Ok (BDouble (f64_sqrt variance)).

(** ** Extremes *)

(** [min = Some(match min { .. })] for the values that are not null; [wins] is the
    ordering that replaces the current value. *)
Definition extreme_step (wins : comparison) (best : option bson) (val : bson) : option bson :=
  match val with
  | BNull => best
  | _ => match best with
         | None => Some val
         | Some current =>
             if cmp_eqb (compare_bson (Some val) (Some current)) wins then Some val else Some current
         end
  end.

Definition accum_extreme (wins : comparison) (docs : list document) (expr : bson)
  : result bson agg_failure :=
  let? best := fold_result (fun best doc =>
      let? val := evaluate_expression doc expr in Ok (extreme_step wins best val)) None docs in
  Ok (or_null best).

(** Source: aggregation/accumulators.rs:108-127 (accum_min). *)
Definition accum_min : list document -> bson -> result bson agg_failure := accum_extreme Lt.

(** Source: aggregation/accumulators.rs:129-148 (accum_max). *)
Definition accum_max : list document -> bson -> result bson agg_failure := accum_extreme Gt.

(** ** Positions and collections *)

(** Source: aggregation/accumulators.rs:150-155 (accum_first). *)
Definition accum_first (docs : list document) (expr : bson) : result bson agg_failure :=
  match docs with doc :: _ => evaluate_expression doc expr | [] => Ok BNull end.

(** Source: aggregation/accumulators.rs:157-162 (accum_last). *)
Definition accum_last (docs : list document) (expr : bson) : result bson agg_failure :=
  match last docs with Some doc => evaluate_expression doc expr | None => Ok BNull end.

(** Source: aggregation/accumulators.rs:164-170 (accum_push). *)
Definition accum_push (docs : list document) (expr : bson) : result bson agg_failure :=
  let? result := values docs expr in Ok (BArray result).

(** Source: aggregation/accumulators.rs:175-181 (accum_add_to_set). The set of debug
    forms seen, and the values kept. *)
Definition set_step (st : list string * list bson) (val : bson) : list string * list bson :=
  let key := bson_debug val in
  if existsb (String.eqb key) (fst st) then st else (key :: fst st, snd st ++ [val]).

(** Source: aggregation/accumulators.rs:172-183 (accum_add_to_set). *)
Definition accum_add_to_set (docs : list document) (expr : bson) : result bson agg_failure :=
  let? st := fold_result (fun st doc =>
      let? val := evaluate_expression doc expr in Ok (set_step st val)) ([], []) docs in
  Ok (BArray (snd st)).

(** Source: aggregation/accumulators.rs:185-196 (accum_merge_objects). *)
Definition accum_merge_objects (docs : list document) (expr : bson) : result bson agg_failure :=
  let? merged := fold_result (fun merged doc =>
      let? val := evaluate_expression doc expr in
      Ok (match val with BDocument d => insert_all merged d | _ => merged end)) [] docs in
  Ok (BDocument merged).

(** Source: aggregation/accumulators.rs:232-244 (accum_top_bottom). The comparison of two
    documents by a sort document: the first field on which they differ. *)
Fixpoint sort_docs_cmp (sort_by : document) (a b : document) : comparison :=
  match sort_by with
  | [] => Eq
  | (field, direction) :: rest =>
      let dir := match direction with BInt32 d => d | _ => 1%Z end in
      match directed dir (compare_bson (get_value a field) (get_value b field)) with
      | Eq => sort_docs_cmp rest a b
      | c => c
      end
  end.

(** Source: aggregation/accumulators.rs:219-261 (accum_top_bottom). *)
Definition accum_top_bottom (docs : list document) (spec : document) (ascending : bool) (n : Z)
  : result bson agg_failure :=
  match doc_get_as as_document spec "sortBy" with
  | Err _ => Err (AggErr (MissingField "sortBy required"))
  | Ok sort_by =>
      let output_expr := match doc_get spec "output" with Some e => e | None => BString "$$ROOT" end in
      let sorted := Prelude.sort_by (sort_docs_cmp sort_by) docs in
      let sorted := if ascending then sorted else rev sorted in
      let? selected := values (iter_take n sorted) output_expr in
      if (n =? 1)%Z then Ok (match selected with v :: _ => v | [] => BNull end)
      else Ok (BArray selected)
  end.

(** Source: aggregation/accumulators.rs:263-271 (extract_n). [as usize] wraps. *)
Definition extract_n (spec : document) : result Z agg_failure :=
  match and_then (doc_get spec "n") int_as_i64 with
  | Some n => Ok (wrap_u64 n)
  | None => Err (AggErr (MissingField "n required"))
  end.

(** [Vec::<Bson>::with_capacity(n)], which panics past the largest allocation. *)
Definition with_capacity {X} (n : Z) (k : result X agg_failure) : result X agg_failure :=
  if (i64_max <? n * size_of_bson)%Z then Err (AggPanic "capacity overflow") else k.

(** Source: aggregation/accumulators.rs:273-280 (accum_first_n). *)
Definition accum_first_n (docs : list document) (expr : bson) (spec : document)
  : result bson agg_failure :=
  let? n := extract_n spec in
  with_capacity n
    (let? result := values (iter_take n docs) expr in Ok (BArray result)).

(** Source: aggregation/accumulators.rs:282-290 (accum_last_n). *)
Definition accum_last_n (docs : list document) (expr : bson) (spec : document)
  : result bson agg_failure :=
  let? n := extract_n spec in
  let start := Z.max 0 (Z.of_nat (length docs) - n) in
  with_capacity n
    (let? result := values (iter_skip start docs) expr in Ok (BArray result)).

(** Source: aggregation/accumulators.rs:10-50 (evaluate_accumulator). *)
Definition evaluate_accumulator (docs : list document) (acc : bson) : result bson agg_failure :=
  match acc with
  | BDocument [] => Err (AggErr (InvalidOperator "Empty accumulator"))
  | BDocument (((op, expr) :: _) as acc_doc) =>
      if op =s? "$sum" then accum_sum docs expr
      else if op =s? "$avg" then accum_avg docs expr
      else if op =s? "$count" then Ok (BInt32 (wrap_i32 (Z.of_nat (length docs))))
      else if op =s? "$min" then accum_min docs expr
      else if op =s? "$max" then accum_max docs expr
      else if op =s? "$first" then accum_first docs expr
      else if op =s? "$last" then accum_last docs expr
      else if op =s? "$push" then accum_push docs expr
      else if op =s? "$addToSet" then accum_add_to_set docs expr
      else if op =s? "$mergeObjects" then accum_merge_objects docs expr
      else if op =s? "$stdDevPop" then accum_stddev docs expr true
      else if op =s? "$stdDevSamp" then accum_stddev docs expr false
      else if op =s? "$top" then accum_top_bottom docs acc_doc true 1
      else if op =s? "$bottom" then accum_top_bottom docs acc_doc false 1
      else if op =s? "$topN" then let? n := extract_n acc_doc in accum_top_bottom docs acc_doc true n
      else if op =s? "$bottomN" then let? n := extract_n acc_doc in accum_top_bottom docs acc_doc false n
      else if op =s? "$firstN" then accum_first_n docs expr acc_doc
      else if op =s? "$lastN" then accum_last_n docs expr acc_doc
      else Err (AggErr (InvalidOperator ("Unknown accumulator: " ++ op)%string))
  | _ => Err (AggErr (InvalidOperator "Accumulator must be document"))
  end.
End Accumulators.

(** ** Well-typed results *)

Section Types.
Context {B : BsonOps} {Lm : Libm} {T : TextEnv} {FP : F64Parse} {A : AggEnv} {SE : StdEnv}
  {BL : BsonLaws B} {AL : AggLaws A}.

Definition docs_ok (docs : list document) : Prop := forall d, In d docs -> doc_ok d = true.

Lemma in_iter_take {X} n (l : list X) x : In x (iter_take n l) -> In x l.
Proof. apply in_take. Qed.

Lemma in_iter_skip {X} n (l : list X) x : In x (iter_skip n l) -> In x l.
Proof. apply in_drop. Qed.

Lemma values_ok docs e vals :
  docs_ok docs -> bson_ok e = true -> values docs e = Ok vals -> bson_ok (BArray vals) = true.
Proof.
  intros Hd He H. apply arr_ok_spec. intros v Hv. destruct (map_result_In _ _ _ _ H Hv) as (d & Hin & E).
  eapply eval_typed; [by apply Hd|done|exact E].
Qed.

(** A fold that evaluates the expression on each document keeps an invariant of
    its state that the well-typed values keep. *)
Lemma fold_values_inv {S} (P : S -> Prop) (f : S -> bson -> S) docs e s s' :
  docs_ok docs -> bson_ok e = true -> P s -> (forall s v, P s -> bson_ok v = true -> P (f s v)) ->
  fold_result (fun s doc => let? val := evaluate_expression doc e in Ok (f s val)) s docs = Ok s' -> P s'.
Proof.
  intros Hd He Hs Hf. apply (fold_result_inv P); [|done]. intros s1 d s2 Hin Hs1 H.
  destruct (evaluate_expression d e) as [v|] eqn:Ev; [|done]. injection H as <-.
  apply Hf; [done|]. eapply eval_typed; [by apply Hd|done|exact Ev].
Qed.

Lemma extreme_ok wins docs e v :
  docs_ok docs -> bson_ok e = true -> accum_extreme wins docs e = Ok v -> bson_ok v = true.
Proof.
  intros Hd He H. unfold accum_extreme in H. destruct (fold_result _ None docs) as [best|] eqn:Ef; [|done].
  injection H as <-. apply or_null_ok. revert Ef.
  apply (fold_values_inv (fun best => forall v, best = Some v -> bson_ok v = true)); [done..|].
  intros s w Hs Hw u. unfold extreme_step.
  destruct w, s; try (destruct (cmp_eqb _ _)); intros [= <-]; auto.
Qed.

Lemma top_bottom_ok docs spec asc n v :
  docs_ok docs -> doc_ok spec = true -> accum_top_bottom docs spec asc n = Ok v -> bson_ok v = true.
Proof.
  intros Hd Hs H. unfold accum_top_bottom in H. destruct (doc_get_as as_document spec "sortBy") as [sb|]; [|done].
  destruct (values _ _) as [sel|] eqn:Ev; [|done].
  assert (Hsel : bson_ok (BArray sel) = true).
  { revert Ev. apply values_ok; [|destruct (doc_get spec "output") eqn:E; [by eapply get_ok|done]].
    intros d Hin. apply Hd. apply in_iter_take in Hin. destruct asc; [|apply in_rev in Hin];
      by apply sort_by_In in Hin. }
  destruct (n =? 1)%Z; injection H as <-; [|done]. destruct sel as [|w sel]; [done|].
  by apply (proj1 (arr_ok_spec _) Hsel); left.
Qed.

Lemma with_capacity_inv {X} n (k : result X agg_failure) r : with_capacity n k = Ok r -> k = Ok r.
Proof. unfold with_capacity. by case_match. Qed.

Lemma values_array_ok docs e v :
  docs_ok docs -> bson_ok e = true ->
  (let? vals := values docs e in Ok (BArray vals)) = Ok v -> bson_ok v = true.
Proof.
  intros Hd He H. destruct (values docs e) as [vals|] eqn:Ev; [|done]. injection H as <-. by eapply values_ok.
Qed.

(** An accumulator gives a well-typed value on well-typed documents. *)
Lemma accumulator_typed docs acc v :
  docs_ok docs -> bson_ok acc = true -> evaluate_accumulator docs acc = Ok v -> bson_ok v = true.
Proof.
  intros Hd Ha H. unfold evaluate_accumulator in H.
  destruct acc as [| | |d| | | | | | | | | | | | | | | | |]; try done. destruct d as [|[op e] d]; [done|].
  assert (He : bson_ok e = true) by (apply doc_ok_spec in Ha as [_ Ha]; by eapply Ha; left).
  set (acc_doc := (op, e) :: d) in *.
  repeat match type of H with (if ?c then _ else _) = _ => destruct c end.
  - unfold accum_sum in H. destruct (fold_result _ no_sum docs) as [s|] eqn:Ef; [|done]. injection H as <-.
    destruct (has_double s); [done|]. revert Ef.
    apply (fold_values_inv (fun s => in_range i64_min i64_max (int_sum s) = true)); [done..|].
    intros s' w Hs _. destruct w; try done; apply wrap_i64_range.
  - unfold accum_avg in H. destruct (fold_result _ _ docs) as [[sum count]|]; [|done]. injection H as <-. by case_match.
  - injection H as <-. apply wrap_i32_range.
  - by eapply extreme_ok.
  - by eapply extreme_ok.
  - unfold accum_first in H. destruct docs as [|d0 docs]; [by injection H as <-|].
    eapply eval_typed; [apply Hd; by left|done|exact H].
  - unfold accum_last in H. destruct (last docs) as [d0|] eqn:El; [|by injection H as <-].
    eapply eval_typed; [|done|exact H]. apply Hd. apply last_Some in El as [l' ->]. apply in_app_iff. right. by left.
  - by eapply values_array_ok.
  - unfold accum_add_to_set in H. destruct (fold_result _ _ docs) as [st|] eqn:Ef; [|done]. injection H as <-. revert Ef.
    apply (fold_values_inv (fun st => bson_ok (BArray (snd st)) = true)); [done..|].
    intros [seen kept] w Hs Hw. unfold set_step. case_match; [done|]. apply arr_ok_spec. intros x Hx.
    cbn [snd] in Hx. apply in_app_iff in Hx as [Hx|[<-|[]]]; [|done]. by apply (proj1 (arr_ok_spec _) Hs).
  - unfold accum_merge_objects in H. destruct (fold_result _ [] docs) as [m|] eqn:Ef; [|done]. injection H as <-. revert Ef.
    apply (fold_values_inv (fun m => doc_ok m = true)); [done..|].
    intros m' w Hs Hw. destruct w; try done. by apply insert_all_ok.
  - unfold accum_stddev in H. destruct (values docs e); [|done]. case_match; by injection H as <-.
  - unfold accum_stddev in H. destruct (values docs e); [|done]. case_match; by injection H as <-.
  - by eapply top_bottom_ok.
  - by eapply top_bottom_ok.
  - destruct (extract_n acc_doc); [|done]. by eapply top_bottom_ok.
  - destruct (extract_n acc_doc); [|done]. by eapply top_bottom_ok.
  - unfold accum_first_n in H. destruct (extract_n acc_doc); [|done]. apply with_capacity_inv in H.
    eapply values_array_ok; [|exact He|exact H]. intros x Hx. by apply Hd, (in_iter_take _ _ _ Hx).
  - unfold accum_last_n in H. destruct (extract_n acc_doc); [|done]. apply with_capacity_inv in H.
    eapply values_array_ok; [|exact He|exact H]. intros x Hx. by apply Hd, (in_iter_skip _ _ _ Hx).
  - done.
Qed.
End Types.

(** ** Sums, extremes and sets *)

Section Values.
Context {B : BsonOps} {Lm : Libm} {T : TextEnv} {FP : F64Parse} {A : AggEnv} {SE : StdEnv}.

(** The value of an integer. *)
Definition int_value (v : bson) : Z := match v with BInt32 n | BInt64 n => n | _ => 0 end.
Definition is_double (v : bson) : bool := match v with BDouble _ => true | _ => false end.

Definition int_total (vals : list bson) : Z := fold_right (fun v s => (int_value v + s)%Z) 0%Z vals.

(** A fold over evaluated documents is a fold over their values. *)
Lemma fold_over_values {S} (f : S -> bson -> S) e docs : forall s vals,
  values docs e = Ok vals ->
  fold_result (fun s doc => let? val := evaluate_expression doc e in Ok (f s val)) s docs
  = Ok (fold_left f vals s).
Proof.
  induction docs as [|d docs IH]; intros s vals H; simpl in *; [by injection H as <-|].
  unfold values in *. simpl in H. destruct (evaluate_expression d e) as [v|]; [|done].
  destruct (map_result _ docs) as [vs|]; [|done]. injection H as <-. by rewrite (IH (f s v) vs).
Qed.

Lemma wrap_i64_add a b : wrap_i64 (wrap_i64 a + b) = wrap_i64 (a + b).
Proof.
  unfold wrap_i64, wrap_signed.
  replace ((a + 2 ^ (64 - 1)) mod 2 ^ 64 - 2 ^ (64 - 1) + b + 2 ^ (64 - 1))%Z
    with ((a + 2 ^ (64 - 1)) mod 2 ^ 64 + b)%Z by lia.
  rewrite Zplus_mod_idemp_l. do 2 f_equal. lia.
Qed.

Lemma wrap_i64_id n : in_i64 n -> wrap_i64 n = n.
Proof.
  unfold in_i64, i64_min, i64_max, wrap_i64, wrap_signed. intros H.
  rewrite Z.mod_small by lia. lia.
Qed.

Lemma sum_steps vals : forall s,
  existsb is_double vals = false -> has_double s = false ->
  has_double (fold_left sum_step vals s) = false /\
  wrap_i64 (int_sum (fold_left sum_step vals s)) = wrap_i64 (int_sum s + int_total vals).
Proof.
  induction vals as [|v vals IH]; intros s Hv Hs; simpl in *; [by rewrite Z.add_0_r|].
  apply orb_false_iff in Hv as [Hd Hv].
  destruct (IH (sum_step s v) Hv) as [H1 H2]; [by destruct v|]. split; [done|]. rewrite H2.
  destruct v; cbn [sum_step int_sum int_value]; rewrite ?wrap_i64_add; try done; f_equal; lia.
Qed.

Lemma sum_int_range vals : forall s,
  in_range i64_min i64_max (int_sum s) = true ->
  in_range i64_min i64_max (int_sum (fold_left sum_step vals s)) = true.
Proof.
  induction vals as [|v vals IH]; intros s Hs; simpl; [done|]. apply IH.
  destruct v; try done; apply wrap_i64_range.
Qed.

(** [$sum] over integers is their exact sum whenever that fits in 64
    bits (whatever the sums in between do), and the sum modulo 2^64 otherwise;
    values that are not numbers do not count. *)
Theorem sum_exact docs e vals :
  values docs e = Ok vals -> existsb is_double vals = false ->
  evaluate_accumulator docs (BDocument [("$sum", e)]) = Ok (BInt64 (wrap_i64 (int_total vals))) /\
  (in_i64 (int_total vals) -> wrap_i64 (int_total vals) = int_total vals).
Proof.
  intros Hv Hd. split; [|apply wrap_i64_id]. cbn [evaluate_accumulator String.eqb Ascii.eqb Bool.eqb].
  unfold accum_sum. rewrite (fold_over_values sum_step _ _ _ _ Hv).
  destruct (sum_steps vals no_sum Hd eq_refl) as [H1 H2]. rewrite H1. do 2 f_equal.
  cbn [no_sum int_sum] in H2. rewrite Z.add_0_l in H2. rewrite <- H2.
  symmetry. apply wrap_i64_id. pose proof (sum_int_range vals no_sum eq_refl) as Hr.
  apply in_range_spec in Hr. exact Hr.
Qed.

Definition is_null (v : bson) : bool := match v with BNull => true | _ => false end.

(** The order in which an accumulator prefers values: ascending for [Lt]. *)
Definition preference (wins : comparison) (a b : bson) : comparison :=
  directed (match wins with Gt => -1 | _ => 1 end) (compare_bson (Some a) (Some b)).

(** [best] is a value of the list that is not null and that none of them precedes. *)
Definition is_extreme (wins : comparison) (vals : list bson) (best : option bson) : Prop :=
  match best with
  | None => forall v, In v vals -> v = BNull
  | Some b => In b vals /\ b <> BNull /\
      forall v, In v vals -> v <> BNull -> preference wins b v <> Gt
  end.

Lemma preference_tp wins : TotalPreorder (fun b => no_nan b = true) (preference wins).
Proof. apply directed_tp, compare_bson_tp. Qed.

Lemma extreme_step_pref wins best v :
  wins = Lt \/ wins = Gt -> v <> BNull ->
  extreme_step wins best v =
  match best with
  | None => Some v
  | Some b => Some (if cmp_eqb (preference wins v b) Lt then v else b)
  end.
Proof.
  intros Hw Hv. unfold extreme_step, preference. destruct Hw as [-> | ->]; cbn [directed Z.ltb Z.compare];
    destruct v, best; try done; by destruct (compare_bson _ _).
Qed.

Lemma extreme_snoc wins vals best v :
  wins = Lt \/ wins = Gt -> (forall x, In x (vals ++ [v]) -> no_nan x = true) ->
  is_extreme wins vals best -> is_extreme wins (vals ++ [v]) (extreme_step wins best v).
Proof.
  intros Hw Hn Hb. pose proof (preference_tp wins) as TP.
  assert (Hlast : In v (vals ++ [v])) by (apply in_app_iff; right; by left).
  assert (Hin : forall x, In x vals -> In x (vals ++ [v])) by (intros; apply in_app_iff; by left).
  destruct (decide (is_null v = true)) as [Ev|Ev].
  { destruct v; try done. cbn [extreme_step]. destruct best as [b|]; cbn in *.
    - destruct Hb as (H1 & H2 & H3). split; [auto|]. split; [done|].
      intros x Hx Hnull. apply in_app_iff in Hx as [Hx|[<-|[]]]; [by apply H3|done].
    - intros x Hx. apply in_app_iff in Hx as [Hx|[<-|[]]]; [by apply Hb|done]. }
  assert (Hv : v <> BNull) by (by intros ->). rewrite extreme_step_pref by done.
  destruct best as [b|]; cbn in *.
  - destruct Hb as (H1 & H2 & H3).
    pose proof (tp_sym _ _ TP v b (Hn v Hlast) (Hn b (Hin b H1))) as Hs.
    destruct (preference wins v b) eqn:Ec; cbn in *; (split; [auto|]); (split; [done|]); intros x Hx Hnull;
      apply in_app_iff in Hx as [Hx|[<-|[]]]; auto; try (rewrite Hs; done).
    + eapply (tp_trans _ _ TP v b x); auto. by rewrite Ec.
    + by rewrite (tp_refl _ _ TP) by auto.
  - split; [done|]. split; [done|]. intros x Hx Hnull.
    apply in_app_iff in Hx as [Hx|[<-|[]]]; [by apply Hb in Hx|]. by rewrite (tp_refl _ _ TP) by auto.
Qed.

Lemma extreme_fold wins rest : forall vals best,
  wins = Lt \/ wins = Gt -> (forall x, In x (vals ++ rest) -> no_nan x = true) ->
  is_extreme wins vals best -> is_extreme wins (vals ++ rest) (fold_left (extreme_step wins) rest best).
Proof.
  induction rest as [|v rest IH]; intros vals best Hw Hn Hb; simpl; [by rewrite app_nil_r|].
  assert (Ha : vals ++ v :: rest = (vals ++ [v]) ++ rest) by (rewrite <- app_assoc; done).
  rewrite Ha in *. apply IH; [done..|]. apply extreme_snoc; [done| |done]. intros x Hx.
  apply Hn, in_app_iff. by left.
Qed.

(** On values free of NaN, [$min] is a value of the group that no
    other non-null value precedes, [$max] one that none follows, and either is
    null exactly when every value is. *)
Theorem extremes_bound docs e vals op wins :
  values docs e = Ok vals -> (forall v, In v vals -> no_nan v = true) ->
  In (op, wins) [("$min", Lt); ("$max", Gt)] ->
  exists best, evaluate_accumulator docs (BDocument [(op, e)]) = Ok (or_null best) /\
    is_extreme wins vals best.
Proof.
  intros Hv Hn Hop. exists (fold_left (extreme_step wins) vals None). split.
  - destruct Hop as [[= <- <-]|[[= <- <-]|[]]]; cbn [evaluate_accumulator String.eqb Ascii.eqb Bool.eqb];
      unfold accum_min, accum_max, accum_extreme; by rewrite (fold_over_values _ _ _ _ _ Hv).
  - apply (extreme_fold wins vals [] None); [|exact Hn|by intros v []]. destruct Hop as [[= _ <-]|[[= _ <-]|[]]]; auto.
Qed.

(** [kept] holds, in order, the first value of each debug form. *)
Definition firsts (vals : list bson) : list bson :=
  fold_left (fun kept v => if existsb (fun k => bson_debug v =s? bson_debug k) kept then kept else kept ++ [v])
    vals [].

Lemma set_fold vals : forall seen kept,
  seen = rev (map bson_debug kept) ->
  snd (fold_left set_step vals (seen, kept)) =
  fold_left (fun kept v => if existsb (fun k => bson_debug v =s? bson_debug k) kept then kept else kept ++ [v])
    vals kept.
Proof.
  induction vals as [|v vals IH]; intros seen kept Hs; [done|]. cbn [fold_left]. unfold set_step at 2. cbn [fst snd].
  assert (He : existsb (String.eqb (bson_debug v)) seen = existsb (fun k => bson_debug v =s? bson_debug k) kept).
  { subst seen. apply eq_true_iff_eq. rewrite !existsb_exists. split.
    - intros (x & Hx & E). apply in_rev, in_map_iff in Hx as (k & <- & Hk). by exists k.
    - intros (k & Hk & E). exists (bson_debug k). split; [|done]. apply in_rev. rewrite rev_involutive. by apply in_map. }
  rewrite He. destruct (existsb _ kept); apply IH; [done|]. by rewrite map_app, rev_app_distr, Hs.
Qed.

Lemma add_to_set_keeps docs e vals :
  values docs e = Ok vals ->
  evaluate_accumulator docs (BDocument [("$addToSet", e)]) = Ok (BArray (firsts vals)).
Proof.
  intros Hv. cbn [evaluate_accumulator String.eqb Ascii.eqb Bool.eqb]. unfold accum_add_to_set.
  rewrite (fold_over_values _ _ _ _ _ Hv). do 2 f_equal. by apply set_fold.
Qed.
End Values.

(** ** A reference environment, and the theorems on concrete groups *)

Module RefStd.
Fixpoint max_index {X} (cmp : X -> X -> comparison) (m : X) (best i : nat) (l : list X) : nat :=
  match l with
  | [] => best
  | x :: l' =>
      match cmp m x with
      | Lt => max_index cmp x i (S i) l'
      | _ => max_index cmp m best (S i) l'
      end
  end.

#[export] Instance env : StdEnv := {|
  size_of_bson := 112;
  size_of_document := 88;
  hash_order _ l := l;
  select_nth _ cmp _ l := sort_by cmp l;
  heap_max _ cmp l := match l with [] => 0%nat | x :: l' => max_index cmp x 0 1 l' end;
  heap_order _ l := l;
  shuffle _ l := l |}.

Lemma max_index_spec {X} (P : X -> Prop) cmp (TP : TotalPreorder P cmp) l : forall pre m best,
  Forall P (pre ++ l) -> (pre ++ l) !! best = Some m -> (forall x, In x pre -> cmp x m <> Gt) ->
  In m pre ->
  exists m', (pre ++ l) !! max_index cmp m best (length pre) l = Some m' /\
    forall x, In x (pre ++ l) -> cmp x m' <> Gt.
Proof.
  induction l as [|y l IH]; intros pre m best HP Hb Hpre Hm; simpl.
  { exists m. rewrite app_nil_r in *. done. }
  assert (Ha : pre ++ y :: l = (pre ++ [y]) ++ l) by (rewrite <- app_assoc; done).
  assert (Hl : length (pre ++ [y]) = S (length pre)) by (rewrite length_app; simpl; lia).
  assert (HPin : forall x, In x (pre ++ y :: l) -> P x) by (by apply List.Forall_forall).
  assert (Py : P y) by (apply HPin, in_app_iff; right; by left).
  assert (Pm : P m) by (apply HPin, in_app_iff; by left).
  assert (Ppre : forall x, In x pre -> P x) by (intros; apply HPin, in_app_iff; by left).
  assert (Hy : (pre ++ y :: l) !! length pre = Some y) by (rewrite lookup_app_r, Nat.sub_diag by lia; done).
  rewrite Ha in *. rewrite <- Hl. pose proof (tp_sym _ _ TP m y Pm Py) as Hs.
  destruct (cmp m y) eqn:Ec; apply IH; try done.
  all: try (intros x Hx; apply in_app_iff in Hx as [Hx|[<-|[]]]).
  all: try (by apply Hpre); try (rewrite Hs; done); try (apply in_app_iff; by left).
  - eapply (tp_trans _ _ TP x m y); auto. by rewrite Ec.
  - by rewrite (tp_refl _ _ TP).
  - apply in_app_iff. right. by left.
Qed.

Lemma max_index_bound {X} (cmp : X -> X -> comparison) l : forall m best i,
  (best < i)%nat -> (max_index cmp m best i l < i + length l)%nat.
Proof.
  induction l as [|y l IH]; intros m best i H; cbn [max_index length]; [lia|].
  destruct (cmp m y); (eapply Nat.lt_le_trans; [apply IH; lia|lia]).
Qed.

Lemma sorted_halves {X} (P : X -> Prop) cmp (TP : TotalPreorder P cmp) l n x y :
  Forall P l -> In x (take n (sort_by cmp l)) -> In y (drop n (sort_by cmp l)) -> cmp x y <> Gt.
Proof.
  intros HP Hx Hy. pose proof (sort_by_sorted P cmp l TP HP) as Hs.
  rewrite <- (take_drop n (sort_by cmp l)) in Hs. unfold sorted_by in Hs.
  generalize dependent (take n (sort_by cmp l)). intros l1. induction l1 as [|z l1 IH]; [done|].
  intros [-> | Hx] Hs; simpl in Hs; apply StronglySorted_inv in Hs as [Hs Hall].
  - rewrite List.Forall_forall in Hall. apply Hall, in_app_iff. by right.
  - by apply IH.
Qed.

#[export] Instance laws : StdLaws env.
Proof.
  constructor; cbn.
  - done.
  - done.
  - done.
  - intros. symmetry. apply sort_by_perm.
  - intros X P cmp n l TP HP Hn x y. by apply (sorted_halves P cmp TP l (S n)).
  - intros X P cmp [|x l] TP HP Hl; [done|].
    apply (max_index_spec P cmp TP l [x] x 0); [done|done| |by left].
    intros z [<-|[]]. rewrite (tp_refl _ _ TP); [done|]. by inversion HP.
  - intros X cmp [|x l] Hl; [done|]. apply (max_index_bound cmp l x 0 1). lia.
  - done.
  - done.
Qed.
End RefStd.

Section Witnesses.
Import RefAgg RefStd.

Definition xs (l : list Z) : list document := map (fun n => [("x", BInt32 n)]) l.

Lemma sum_exact_witness :
  values (xs [10; 20; 30]%Z) (BString "$x") = Ok [BInt32 10; BInt32 20; BInt32 30] /\
  evaluate_accumulator (xs [10; 20; 30]%Z) (BDocument [("$sum", BString "$x")]) = Ok (BInt64 60).
Proof.
  assert (H : values (xs [10; 20; 30]%Z) (BString "$x") = Ok [BInt32 10; BInt32 20; BInt32 30])
    by (vm_compute; reflexivity).
  split; [exact H|]. exact (proj1 (sum_exact _ _ _ H eq_refl)).
Defined.

Lemma extremes_bound_witness :
  exists best, evaluate_accumulator (xs [30; 10; 20]%Z) (BDocument [("$min", BString "$x")]) = Ok (or_null best) /\
    is_extreme Lt [BInt32 30; BInt32 10; BInt32 20] best.
Proof.
  apply (extremes_bound (xs [30; 10; 20]%Z) (BString "$x")); [vm_compute; reflexivity| |by left].
  intros v [<-|[<-|[<-|[]]]]; reflexivity.
Defined.

(** [$topN] reads [n] and [sortBy] beside its own operand, not in it: written as the
    operand, they are not found. *)
Theorem top_ignores_its_operand :
  evaluate_accumulator (xs [1; 2]%Z)
    (BDocument [("$topN", BDocument [("sortBy", BDocument [("x", BInt32 1)]); ("n", BInt32 1)])])
  = Err (AggErr (MissingField "n required")).
Proof. vm_compute; reflexivity. Qed.

(** A negative count for [$firstN] is a capacity overflow. *)
Theorem first_n_negative_panics :
  evaluate_accumulator (xs [1; 2]%Z) (BDocument [("$firstN", BString "$x"); ("n", BInt32 (-1))])
  = Err (AggPanic "capacity overflow").
Proof. vm_compute; reflexivity. Qed.
End Witnesses.
