(* ===== verification/Hnsw.v ===== *)
(** * The graph of the vector index

    [src/rust/smongo-engine/src/index/hnsw.rs]: a hierarchical graph for
    approximate nearest neighbours.  The vectors are a flat buffer of the
    caller.  A [BinaryHeap] is the list of its items; which of its maxima is on
    top and the order of [into_iter] are those of the standard library
    ([StdEnv]).  The error of a [result] is the message of a panic: a slice or
    an index out of range, or a capacity that overflows.

    The graph stays well formed, so that no insertion and no search panics and
    every loop ends; a search returns distinct nodes of the graph with their
    distances, closest first; and on a graph small enough that no neighbour
    list is pruned the search is exact. *)

From Stdlib Require Import ZArith Lia String Permutation Sorted.
From S2P Require Import Prelude F64 F32 Bson Accumulators.
From stdpp Require Import base tactics list.

Open Scope string_scope.
Open Scope list_scope.

(** ** Distances *)

(** Source: index/hnsw.rs:23-30 (DistanceMetric). *)
Inductive DistanceMetric : Type := Euclidean | NegDotProduct.

(** [chunks_exact(4)]: the chunks, and their [remainder()]. *)
Fixpoint chunks_exact4 (l : list f32) : list (f32 * f32 * f32 * f32) * list f32 :=
  match l with
  | x0 :: x1 :: x2 :: x3 :: rest =>
      let '(chunks, remainder) := chunks_exact4 rest in ((x0, x1, x2, x3) :: chunks, remainder)
  | _ => ([], l)
  end.

(** The four running sums of a loop over two chunked slices, each with [term] of its lane. *)
Definition lane_sums (term : f32 -> f32 -> f32) (a b : list (f32 * f32 * f32 * f32)) : f32 * f32 * f32 * f32 :=
  fold_left (fun sums '((a0, a1, a2, a3), (b0, b1, b2, b3)) =>
    let '(sum0, sum1, sum2, sum3) := sums in
    (f32_add sum0 (term a0 b0), f32_add sum1 (term a1 b1), f32_add sum2 (term a2 b2), f32_add sum3 (term a3 b3)))
    (zip a b) (f32_zero, f32_zero, f32_zero, f32_zero).

Definition chunked_sum (term : f32 -> f32 -> f32) (a b : list f32) : f32 :=
  let '(a_chunks, a_rem) := chunks_exact4 a in
  let '(b_chunks, b_rem) := chunks_exact4 b in
  let '(sum0, sum1, sum2, sum3) := lane_sums term a_chunks b_chunks in
  let tail := fold_left (fun tail '(x, y) => f32_add tail (term x y)) (zip a_rem b_rem) f32_zero in
  f32_add (f32_add (f32_add sum0 sum1) (f32_add sum2 sum3)) tail.

(** Source: index/hnsw.rs:34-64 (distance_l2_sq). *)
Definition distance_l2_sq (a b : list f32) : f32 :=
  chunked_sum (fun x y => let d := f32_sub x y in f32_mul d d) a b.

(** Source: index/hnsw.rs:68-93 (distance_neg_dot). *)
Definition distance_neg_dot (a b : list f32) : f32 := f32_neg (chunked_sum f32_mul a b).

(** Source: index/hnsw.rs:97-102 (compute_distance). *)
Definition compute_distance (a b : list f32) (metric : DistanceMetric) : f32 :=
  match metric with
  | Euclidean => distance_l2_sq a b
  | NegDotProduct => distance_neg_dot a b
  end.

(** ** Heaps *)

(** Source: index/hnsw.rs:109-112 (HeapItem). *)
Record HeapItem : Type := { dist : f32; id : nat }.

(** Source: index/hnsw.rs:130-136 (cmp). *)
Definition min_cmp (a b : HeapItem) : comparison := f32_cmp_or_eq (dist b) (dist a).

(** Source: index/hnsw.rs:155-160 (cmp). *)
Definition max_cmp (a b : HeapItem) : comparison := f32_cmp_or_eq (dist a) (dist b).

Section Heaps.
Context {SE : StdEnv}.

(** [peek], and [pop] with the heap it leaves. *)
Definition heap_peek (cmp : HeapItem -> HeapItem -> comparison) (heap : list HeapItem) : option HeapItem :=
  heap !! heap_max cmp heap.
Definition heap_pop (cmp : HeapItem -> HeapItem -> comparison) (heap : list HeapItem)
  : option (HeapItem * list HeapItem) :=
  let pos := heap_max cmp heap in
  match heap !! pos with Some top => Some (top, delete pos heap) | None => None end.
End Heaps.

(** ** Layers *)

(** Source: index/hnsw.rs:168-171 (Neighbor). *)
Record Neighbor : Type := { nb_id : nat; nb_dist : f32 }.

(** A layer is its vector [neighbors]: of a node, its neighbours when it is in the layer. *)
Abbreviation Layer := (list (option (list Neighbor))).

(** Source: index/hnsw.rs:187-191 (ensure_capacity). *)
Definition ensure_capacity (layer : Layer) (id : nat) : Layer :=
  if (length layer <=? id)%nat then layer ++ repeat None (id + 1 - length layer) else layer.

(** Source: index/hnsw.rs:193-196 (init_node). *)
Definition init_node (layer : Layer) (id : nat) : Layer := <[id := Some []]> (ensure_capacity layer id).

(** Source: index/hnsw.rs:199-206 (get_neighbors). *)
Definition get_neighbors (layer : Layer) (id : nat) : list Neighbor :=
  match layer !! id with Some (Some v) => v | _ => [] end.

(** ** Visited nodes *)

(** Source: index/hnsw.rs:216-219 (VisitedSet). *)
Record VisitedSet : Type := { generations : list Z; current_gen : Z }.

(** Source: index/hnsw.rs:222-227 (new). *)
Definition visited_new : VisitedSet := {| generations := []; current_gen := 1 |}.

(** Source: index/hnsw.rs:230-237 (reset). *)
Definition visited_reset (v : VisitedSet) : VisitedSet :=
  let gen := ((current_gen v + 1) mod 2 ^ 32)%Z in
  if (gen =? 0)%Z then {| generations := map (fun _ => 0%Z) (generations v); current_gen := 1 |}
  else {| generations := generations v; current_gen := gen |}.

(** Source: index/hnsw.rs:240-245 (insert). *)
Definition visited_insert (v : VisitedSet) (id : nat) : VisitedSet :=
  let gens := if (length (generations v) <=? id)%nat
              then generations v ++ repeat 0%Z (id + 1 - length (generations v)) else generations v in
  {| generations := <[id := current_gen v]> gens; current_gen := current_gen v |}.

(** Source: index/hnsw.rs:248-250 (contains). *)
Definition visited_contains (v : VisitedSet) (id : nat) : bool :=
  match generations v !! id with Some g => (g =? current_gen v)%Z | None => false end.

(** ** Selection of neighbours *)

(** [&vectors[id * dim .. id * dim + dim]]. *)
Definition slice (vectors : list f32) (dim id : nat) : result (list f32) string :=
  if (id * dim + dim <=? length vectors)%nat then Ok (take dim (drop (id * dim) vectors))
  else Err "range end index out of range for slice".

Definition by_dist (a b : HeapItem) : comparison := f32_cmp_or_eq (dist a) (dist b).

(** Source: index/hnsw.rs:630-637 (select_neighbors_diversified). No selected node is closer to
    the candidate than the query is. *)
Fixpoint diverse (vectors : list f32) (dim : nat) (metric : DistanceMetric) (candidate : HeapItem)
  (selected : list HeapItem) : result bool string :=
  match selected with
  | [] => Ok true
  | s :: rest =>
      let? v := slice vectors dim (id candidate) in
      let? w := slice vectors dim (id s) in
      if f32_ltb (compute_distance v w metric) (dist candidate) then Ok false
      else diverse vectors dim metric candidate rest
  end.

(** Source: index/hnsw.rs:625-642 (select_neighbors_diversified). The first loop. *)
Fixpoint select_diverse (vectors : list f32) (dim : nat) (metric : DistanceMetric) (m : Z)
  (selected sorted : list HeapItem) : result (list HeapItem) string :=
  match sorted with
  | [] => Ok selected
  | candidate :: rest =>
      if (m <=? Z.of_nat (length selected))%Z then Ok selected
      else
        let? good := diverse vectors dim metric candidate selected in
        select_diverse vectors dim metric m (if (good : bool) then selected ++ [candidate] else selected) rest
  end.

(** Source: index/hnsw.rs:649-656 (select_neighbors_diversified). The second loop. *)
Fixpoint backfill (m : Z) (selected_ids : list nat) (selected sorted : list HeapItem) : list HeapItem :=
  match sorted with
  | [] => selected
  | candidate :: rest =>
      if (m <=? Z.of_nat (length selected))%Z then selected
      else backfill m selected_ids
             (if existsb (Nat.eqb (id candidate)) selected_ids then selected else selected ++ [candidate]) rest
  end.

(** Source: index/hnsw.rs:602-658 (select_neighbors_diversified). *)
Definition select_neighbors_diversified (candidates : list HeapItem) (m : Z) (vectors : list f32) (dim : nat)
  (metric : DistanceMetric) : result (list HeapItem) string :=
  if (Z.of_nat (length candidates) <=? m)%Z then Ok candidates
  else
    let sorted := sort_by by_dist candidates in
    let? selected := select_diverse vectors dim metric m [] sorted in
    Ok (if (Z.of_nat (length selected) <? m)%Z then backfill m (map id selected) selected sorted else selected).

(** Source: index/hnsw.rs:552-574 (prune_neighbors). *)
Definition prune_neighbors (nbrs : list Neighbor) (m_max : Z) (vectors : list f32) (dim : nat) (metric : DistanceMetric)
  : result (list Neighbor) string :=
  let as_heap := map (fun n => {| id := nb_id n; dist := nb_dist n |}) nbrs in
  let? pruned := select_neighbors_diversified as_heap m_max vectors dim metric in
  Ok (map (fun h => {| nb_id := id h; nb_dist := dist h |}) pruned).

(** ** The graph *)

(** Source: index/hnsw.rs:262-276 (HnswGraph). *)
Record HnswGraph : Type := {
  layers : list Layer;
  entry_point : option nat;
  max_level : nat;
  dim : nat;
  m : Z;
  m_max_0 : Z;
  ef_construction : Z;
  ml : f64;
  metric : DistanceMetric;
  rng_state : Z;
  node_count : nat;
  visited : VisitedSet }.

Definition with_layers (g : HnswGraph) (ls : list Layer) : HnswGraph :=
  {| layers := ls; entry_point := entry_point g; max_level := max_level g; dim := dim g; m := m g;
     m_max_0 := m_max_0 g; ef_construction := ef_construction g; ml := ml g; metric := metric g;
     rng_state := rng_state g; node_count := node_count g; visited := visited g |}.
Definition with_visited (g : HnswGraph) (v : VisitedSet) : HnswGraph :=
  {| layers := layers g; entry_point := entry_point g; max_level := max_level g; dim := dim g; m := m g;
     m_max_0 := m_max_0 g; ef_construction := ef_construction g; ml := ml g; metric := metric g;
     rng_state := rng_state g; node_count := node_count g; visited := v |}.
Definition with_entry (g : HnswGraph) (id level : nat) : HnswGraph :=
  {| layers := layers g; entry_point := Some id; max_level := level; dim := dim g; m := m g;
     m_max_0 := m_max_0 g; ef_construction := ef_construction g; ml := ml g; metric := metric g;
     rng_state := rng_state g; node_count := node_count g; visited := visited g |}.

Section Hnsw.
Context {SE : StdEnv} {Ln : LnOps}.

(** Source: index/hnsw.rs:285-302 (new). *)
Definition hnsw_new (dim : nat) (m ef_construction : Z) (metric : DistanceMetric) : HnswGraph :=
  let m := Z.max m 2 in
  {| layers := []; entry_point := None; max_level := 0; dim := dim; m := m; m_max_0 := wrap_u64 (m * 2);
     ef_construction := Z.max ef_construction 1; ml := f64_div f64_one (f64_ln (f64_of_Z m)); metric := metric;
     rng_state := 0x5EEDCAFEBABED00D; node_count := 0; visited := visited_new |}.

(** Source: index/hnsw.rs:577-585 (random_level). The state of the generator and the level. *)
Definition random_level (rng_state : Z) (ml : f64) : Z * nat :=
  let rng := wrap_u64 (wrap_u64 (rng_state * 6364136223846793005) + 1442695040888963407) in
  let uniform := f64_div (f64_add (f64_of_Z (Z.shiftr rng 33)) f64_one) (f64_add (f64_of_Z (2 ^ 32 - 1)) (f64_of_Z 2)) in
  let level := f64_as_usize (f64_floor (f64_mul (SpecFloat.SFopp (f64_ln uniform)) ml)) in
  (rng, Z.to_nat (Z.min level 32)).

(** [BinaryHeap::with_capacity(ef + 1)], of items of 16 bytes. *)
Definition heap_with_capacity (ef : Z) : result unit string :=
  if (i64_max <? wrap_u64 (ef + 1) * 16)%Z then Err "capacity overflow" else Ok tt.

Section Search.
Context (g : HnswGraph) (query : list f32) (vectors : list f32).

(** Source: index/hnsw.rs:318-321 (vec_ref). *)
Definition vec_ref (id : nat) : result (list f32) string := slice vectors (dim g) id.

Definition distance_to (id : nat) : result f32 string :=
  let? v := vec_ref id in Ok (compute_distance query v (metric g)).

(** The state of a beam search. *)
Record beam : Type := { seen : VisitedSet; candidates : list HeapItem; results : list HeapItem }.

Definition farthest_dist (results : list HeapItem) : f32 :=
  match heap_peek max_cmp results with Some r => dist r | None => f32_infinity end.

(** Source: index/hnsw.rs:485-503 (search_layer_beam). One neighbour. *)
Definition visit_neighbor (ef : Z) (b : beam) (nbr : Neighbor) : result beam string :=
  if visited_contains (seen b) (nb_id nbr) then Ok b
  else
    let seen := visited_insert (seen b) (nb_id nbr) in
    let? d := distance_to (nb_id nbr) in
    if (Z.of_nat (length (results b)) <? ef)%Z || f32_ltb d (farthest_dist (results b)) then
      let item := {| dist := d; id := nb_id nbr |} in
      let results := results b ++ [item] in
      Ok {| seen := seen; candidates := candidates b ++ [item];
            results := if (ef <? Z.of_nat (length results))%Z
                       then match heap_pop max_cmp results with Some (_, rest) => rest | None => results end
                       else results |}
    else Ok {| seen := seen; candidates := candidates b; results := results b |}.

(** Source: index/hnsw.rs:477-505 (search_layer_beam). The loop over the candidates. *)
Fixpoint beam_loop (fuel : nat) (ef : Z) (layer : nat) (b : beam) : result beam string :=
  match heap_pop min_cmp (candidates b) with
  | None => Ok b
  | Some (closest, rest) =>
      let b := {| seen := seen b; candidates := rest; results := results b |} in
      if f32_ltb (farthest_dist (results b)) (dist closest) then Ok b
      else
        match layers g !! layer with
        | None => Err "index out of bounds"
        | Some layer_ref =>
            let? b := fold_result (visit_neighbor ef) b (get_neighbors layer_ref (id closest)) in
            match fuel with
            | O => Err "out of fuel"
            | S fuel => beam_loop fuel ef layer b
            end
        end
  end.

(** The ids in the neighbour lists of a layer. *)
Definition ids_of (l : Layer) : list nat :=
  flat_map (fun o => match o with Some v => map nb_id v | None => [] end) l.
Definition layer_ids (layer : nat) : list nat :=
  match layers g !! layer with Some l => ids_of l | None => [] end.

Definition enter (b : beam) (ep : HeapItem) : beam :=
  {| seen := visited_insert (seen b) (id ep); candidates := candidates b ++ [ep]; results := results b ++ [ep] |}.

(** Source: index/hnsw.rs:452-508 (search_layer_beam). The visited set and the results. *)
Definition search_layer_beam (entry_points : list HeapItem) (ef : Z) (layer : nat)
  : result (VisitedSet * list HeapItem) string :=
  let? _ := heap_with_capacity ef in
  let b := fold_left enter entry_points {| seen := visited_reset (visited g); candidates := []; results := [] |} in
  let? b := beam_loop (length entry_points + length (layer_ids layer)) ef layer b in
  Ok (seen b, heap_order (results b)).

(** Source: index/hnsw.rs:525-530 (search_layer_greedy). One neighbour. *)
Definition greedy_step (cur : nat * f32 * bool) (nbr : Neighbor) : result (nat * f32 * bool) string :=
  let '(current, current_dist, improved) := cur in
  let? d := distance_to (nb_id nbr) in
  Ok (if f32_ltb d current_dist then (nb_id nbr, d, true) else (current, current_dist, improved)).

(** Source: index/hnsw.rs:521-535 (search_layer_greedy). The loop. *)
Fixpoint greedy_loop (fuel : nat) (layer : nat) (current : nat) (current_dist : f32) : result nat string :=
  match layers g !! layer with
  | None => Err "index out of bounds"
  | Some l =>
      let? cur := fold_result greedy_step (current, current_dist, false) (get_neighbors l current) in
      let '(current, current_dist, improved) := cur in
      if (improved : bool) then
        match fuel with O => Err "out of fuel" | S fuel => greedy_loop fuel layer current current_dist end
      else Ok current
  end.

(** Source: index/hnsw.rs:511-536 (search_layer_greedy). *)
Definition search_layer_greedy (entry : nat) (layer : nat) : result nat string :=
  let? d := distance_to entry in
  greedy_loop (length (layer_ids layer)) layer entry d.

(** [for lc in (from..=to).rev() { current_ep = self.search_layer_greedy(..) }]. *)
Definition descend (current_ep from to : nat) : result nat string :=
  fold_result search_layer_greedy current_ep (rev (seq from (to + 1 - from))).
End Search.

(** Source: index/hnsw.rs:412-445 (search). *)
Definition hnsw_search (g : HnswGraph) (query : list f32) (k ef_search : Z) (vectors : list f32)
  : result (HnswGraph * list (nat * f32)) string :=
  match entry_point g with
  | None => Ok (g, [])
  | Some ep =>
      let? current_ep := if (0 <? max_level g)%nat then descend g query vectors ep 1 (max_level g) else Ok ep in
      let ef := Z.max k ef_search in
      let? d := distance_to g query vectors current_ep in
      let? (v, results) := search_layer_beam g query vectors [{| dist := d; id := current_ep |}] ef 0 in
      let out := map (fun h => (id h, dist h)) results in
      let out := sort_by (fun a b => f32_cmp_or_eq (snd a) (snd b)) out in
      Ok (with_visited g v, iter_take k out)
  end.

(** Source: index/hnsw.rs:386-397 (insert). A selected neighbour gets the new node as its own. *)
Definition connect_back (vectors : list f32) (dim : nat) (metric : DistanceMetric) (m_max : Z) (new : nat)
  (layer : Layer) (sel : HeapItem) : result Layer string :=
  let layer := ensure_capacity layer (id sel) in
  match layer !! id sel with
  | Some (Some nbrs) =>
      let nbrs := nbrs ++ [{| nb_id := new; nb_dist := dist sel |}] in
      let? nbrs := if (m_max <? Z.of_nat (length nbrs))%Z
                   then prune_neighbors nbrs m_max vectors dim metric else Ok nbrs in
      Ok (<[id sel := Some nbrs]> layer)
  | _ => Ok layer
  end.

(** Source: index/hnsw.rs:364-400 (insert). The node [new] is connected at one layer; the
    entry points of the next. *)
Definition connect_layer (vectors query : list f32) (new : nat) (st : HnswGraph * list HeapItem) (lc : nat)
  : result (HnswGraph * list HeapItem) string :=
  let '(g, entry_points) := st in
  let m_max := if (lc =? 0)%nat then m_max_0 g else m g in
  let? (v, candidates) := search_layer_beam g query vectors entry_points (ef_construction g) lc in
  let? selected := select_neighbors_diversified candidates m_max vectors (dim g) (metric g) in
  match layers g !! lc with
  | None => Err "index out of bounds"
  | Some layer =>
      match layer !! new with
      | None => Err "index out of bounds"
      | Some slot =>
          let layer := match slot with
                       | Some _ => <[new := Some (map (fun h => {| nb_id := id h; nb_dist := dist h |}) selected)]> layer
                       | None => layer
                       end in
          let? layer := fold_result (connect_back vectors (dim g) (metric g) m_max new) layer selected in
          Ok (with_visited (with_layers g (<[lc := layer]> (layers g))) v, candidates)
      end
  end.

(** Source: index/hnsw.rs:328-338 (insert). A level is drawn and the node is added to the layers
    up to it, without neighbours. *)
Definition add_node (g : HnswGraph) (new : nat) : HnswGraph * nat :=
  let '(rng, node_level) := random_level (rng_state g) (ml g) in
  let ls := layers g ++ repeat [] (node_level + 1 - length (layers g)) in
  let ls := map (fun l => init_node l new) (take (node_level + 1) ls) ++ drop (node_level + 1) ls in
  ({| layers := ls; entry_point := entry_point g; max_level := max_level g; dim := dim g; m := m g;
      m_max_0 := m_max_0 g; ef_construction := ef_construction g; ml := ml g; metric := metric g;
      rng_state := rng; node_count := node_count g + 1; visited := visited g |}, node_level).

(** Source: index/hnsw.rs:327-407 (insert). *)
Definition hnsw_insert (g : HnswGraph) (new : nat) (vectors : list f32) : result HnswGraph string :=
  let '(g, node_level) := add_node g new in
  match entry_point g with
  | None => Ok (with_entry g new node_level)
  | Some ep =>
      let? query := vec_ref g vectors new in
      let? current_ep := if (node_level <? max_level g)%nat
                         then descend g query vectors ep (node_level + 1) (max_level g) else Ok ep in
      let insert_top := Nat.min node_level (max_level g) in
      let? d := distance_to g query vectors current_ep in
      let? st := fold_result (connect_layer vectors query new) (g, [{| dist := d; id := current_ep |}])
                   (rev (seq 0 (insert_top + 1))) in
      let g := fst st in
      Ok (if (max_level g <? node_level)%nat then with_entry g new node_level else g)
  end.
End Hnsw.

(** ** The visited set *)

Record visited_ok (v : VisitedSet) : Prop := {
  gen_range : (1 <= current_gen v < 2 ^ 32)%Z;
  gens_range : Forall (fun gen => 0 <= gen <= current_gen v)%Z (generations v) }.

Lemma visited_new_ok : visited_ok visited_new.
Proof. split; [done|constructor]. Qed.

(** After a reset nothing is visited. *)
Lemma visited_reset_spec v : visited_ok v ->
  visited_ok (visited_reset v) /\ forall i, visited_contains (visited_reset v) i = false.
Proof.
  intros [Hg Hf]. unfold visited_reset. rewrite List.Forall_forall in Hf.
  destruct (Z.eqb_spec ((current_gen v + 1) mod 2 ^ 32) 0) as [Hz|Hz].
  - split; [split; [done|]|].
    + apply List.Forall_forall. intros x Hx. apply in_map_iff in Hx as (y & <- & _). cbn. lia.
    + intros i. unfold visited_contains. cbn. destruct (_ !! i) as [g|] eqn:E; [|done].
      apply list_lookup_fmap_Some in E as (y & -> & _). done.
  - assert (Hne : (current_gen v + 1 <> 2 ^ 32)%Z) by (intros E; by rewrite E in Hz).
    rewrite (Z.mod_small (current_gen v + 1)) in * by lia. split; [split; cbn [current_gen generations]|].
    + lia.
    + apply List.Forall_forall. intros x Hx. specialize (Hf x Hx). cbn in *. lia.
    + intros i. unfold visited_contains. cbn [generations current_gen]. destruct (generations v !! i) as [g|] eqn:E; [|done].
      apply list_elem_of_lookup_2, list_elem_of_In, Hf in E. apply Z.eqb_neq. lia.
Qed.

Lemma visited_insert_spec v i : visited_ok v ->
  visited_ok (visited_insert v i) /\
  forall j, visited_contains (visited_insert v i) j = (i =? j)%nat || visited_contains v j.
Proof.
  intros [Hg Hf]. unfold visited_insert. set (gens := if (_ <=? _)%nat then _ else _).
  assert (Hlen : (i < length gens)%nat).
  { unfold gens. destruct (Nat.leb_spec (length (generations v)) i); [|lia]. rewrite length_app, repeat_length. lia. }
  assert (Hin : forall x, In x gens -> In x (generations v) \/ x = 0%Z).
  { intros x Hx. unfold gens in Hx. destruct (_ <=? _)%nat; [|by left].
    apply in_app_iff in Hx as [Hx|Hx]; [by left|]. right. by apply repeat_spec in Hx. }
  rewrite List.Forall_forall in Hf. split; [split; [done|]|].
  - apply List.Forall_forall. intros x Hx. cbn [generations current_gen] in *.
    apply list_elem_of_In, list_elem_of_lookup in Hx as [j Hj].
    apply list_lookup_insert_Some in Hj as [(-> & <- & _)|(_ & Hj)]; [lia|].
    apply list_elem_of_lookup_2, list_elem_of_In, Hin in Hj as [Hj| ->]; [by apply Hf in Hj|lia].
  - intros j. unfold visited_contains. cbn [generations current_gen]. destruct (Nat.eqb_spec i j) as [->|Hne].
    + rewrite list_lookup_insert_eq by done. apply Z.eqb_refl.
    + rewrite list_lookup_insert_ne by done. cbn [orb]. unfold gens.
      destruct (Nat.leb_spec (length (generations v)) i) as [Hl|Hl]; [|done].
      destruct (Nat.lt_ge_cases j (length (generations v))) as [Hj|Hj]; [by rewrite lookup_app_l|].
      rewrite lookup_app_r, (lookup_ge_None_2 (generations v)) by lia.
      destruct (repeat 0%Z _ !! _) as [x|] eqn:E; [|done].
      apply list_elem_of_lookup_2, list_elem_of_In, repeat_spec in E as ->. apply Z.eqb_neq. lia.
Qed.

(** ** Heaps as lists *)

Section HeapLemmas.
Context {SE : StdEnv} {SL : StdLaws SE}.

Lemma heap_pop_some cmp heap : heap <> [] ->
  exists top rest, heap_pop cmp heap = Some (top, rest) /\ heap_peek cmp heap = Some top /\ Permutation heap (top :: rest) /\
    (forall h, In h rest -> In h heap) /\ length heap = S (length rest).
Proof.
  intros Hne. unfold heap_pop, heap_peek. pose proof (heap_max_bound _ cmp heap Hne) as Hb.
  destruct (lookup_lt_is_Some_2 heap _ Hb) as [top Htop]. rewrite Htop. exists top, (delete (heap_max cmp heap) heap).
  assert (Hp : Permutation heap (top :: delete (heap_max cmp heap) heap)) by (by apply delete_Permutation).
  split_and!; [done|done|done| |by apply Permutation_length in Hp].
  intros h Hh. apply (Permutation_in _ (Permutation_sym Hp)). by right.
Qed.

Lemma heap_pop_nil cmp : heap_pop cmp [] = None.
Proof. unfold heap_pop. by rewrite lookup_nil. Qed.
End HeapLemmas.

(** ** The order of distances *)

Lemma f32_ltb_spec x y :
  f32_ltb x y = true <-> f32_is_nan x = false /\ f32_is_nan y = false /\ f32_cmp_or_eq x y = Lt.
Proof.
  unfold f32_ltb, SpecFloat.SFltb, f32_cmp_or_eq, f64_cmp_or_eq, f64_partial_cmp.
  destruct (SpecFloat.SFcompare x y) as [[]|] eqn:E; try (split; [done|intros (_ & _ & [=])]).
  split; [|done]. intros _. by destruct x, y.
Qed.

Lemma f32_ltb_trans x y z : f32_ltb x y = true -> f32_ltb y z = true -> f32_ltb x z = true.
Proof.
  rewrite !f32_ltb_spec. intros (Hx & Hy & H1) (_ & Hz & H2). split_and!; [done|done|].
  pose proof (tp_trans _ _ f64_cmp_tp x y z Hx Hy Hz) as Ht. pose proof (tp_trans _ _ f64_cmp_tp z x y Hz Hx Hy) as Ht'.
  pose proof (tp_sym _ _ f64_cmp_tp x z Hx Hz) as Hs. pose proof (tp_sym _ _ f64_cmp_tp y z Hy Hz) as Hs'.
  unfold f32_cmp_or_eq in *. rewrite H1 in *. rewrite H2 in *.
  destruct (f64_cmp_or_eq x z); [|done|by destruct Ht]. cbn in Hs. rewrite Hs, Hs' in Ht'. by destruct Ht'.
Qed.

Lemma f32_ltb_irrefl x : f32_ltb x x = false.
Proof.
  destruct (f32_ltb x x) eqn:E; [|done]. apply f32_ltb_spec in E as (Hx & _ & E).
  pose proof (tp_refl _ _ f64_cmp_tp x Hx) as Hr. unfold f32_cmp_or_eq in E. congruence.
Qed.

(** ** Searches in a layer *)

Definition unvisited (v : VisitedSet) (l : list nat) : list nat := List.filter (fun i => negb (visited_contains v i)) l.

Lemma unvisited_insert v i l : visited_ok v -> In i l -> visited_contains v i = false ->
  (length (unvisited (visited_insert v i) l) < length (unvisited v l))%nat.
Proof.
  intros Hv Hin Hi. destruct (visited_insert_spec v i Hv) as [_ Hc]. unfold unvisited.
  assert (Hle : forall l, (length (List.filter (fun j => negb (visited_contains (visited_insert v i) j)) l) <=
                           length (List.filter (fun j => negb (visited_contains v j)) l))%nat).
  { intros l'. induction l' as [|j l' IH]; [done|]. simpl. rewrite Hc. destruct (i =? j)%nat; cbn [orb negb].
    - destruct (negb _); simpl; lia.
    - destruct (negb _); simpl; lia. }
  induction l as [|j l IH]; [done|]. simpl. rewrite Hc. destruct (Nat.eqb_spec i j) as [<-|Hne]; cbn [orb negb].
  - rewrite Hi. simpl. specialize (Hle l). lia.
  - destruct Hin as [<-|Hin]; [done|]. specialize (IH Hin). destruct (negb (visited_contains v j)); simpl; lia.
Qed.

Lemma unvisited_le v l : (length (unvisited v l) <= length l)%nat.
Proof. unfold unvisited. induction l as [|i l IH]; [done|]. simpl. destruct (negb _); simpl; lia. Qed.

Lemma get_neighbors_layer_ids g lc (l : Layer) i nb :
  layers g !! lc = Some l -> In nb (get_neighbors l i) -> In (nb_id nb) (layer_ids g lc).
Proof.
  intros Hl Hin. unfold layer_ids, ids_of. rewrite Hl. unfold get_neighbors in Hin.
  destruct (l !! i) as [[v|]|] eqn:E; [|done|done]. apply in_flat_map. exists (Some v).
  split; [by eapply list_elem_of_In, list_elem_of_lookup_2|]. by apply in_map.
Qed.

Section LayerSearch.
Context {SE : StdEnv} {SL : StdLaws SE} (g : HnswGraph) (query vectors : list f32) (P : nat -> Prop).

(** The nodes of the layer have their vectors in the buffer, and their neighbours are nodes. *)
Context (Hrange : forall i, P i -> (i * dim g + dim g <= length vectors)%nat).
Context (lc : nat) (l : Layer) (Hl : layers g !! lc = Some l).
Context (Hnb : forall i nb, In nb (get_neighbors l i) -> P (nb_id nb)).

Definition dist_of (i : nat) : f32 := compute_distance query (take (dim g) (drop (i * dim g) vectors)) (metric g).

Lemma distance_to_ok i : P i -> distance_to g query vectors i = Ok (dist_of i).
Proof. intros Hi. unfold distance_to, vec_ref, slice. rewrite (proj2 (Nat.leb_le _ _)) by (by apply Hrange). done. Qed.

Definition item_ok (h : HeapItem) : Prop := P (id h) /\ dist h = dist_of (id h).

Record beam_ok (cap : Z) (b : beam) : Prop := {
  bo_seen : visited_ok (seen b);
  bo_candidates : forall h, In h (candidates b) -> item_ok h /\ visited_contains (seen b) (id h) = true;
  bo_results : forall h, In h (results b) -> item_ok h /\ visited_contains (seen b) (id h) = true;
  bo_nodup : List.NoDup (map id (results b));
  bo_length : (Z.of_nat (length (results b)) <= cap)%Z;
  bo_some : results b <> [] }.

(** What is left to look at. *)
Definition todo (b : beam) : nat := length (candidates b) + length (unvisited (seen b) (layer_ids g lc)).

Lemma visit_neighbor_ok ef cap b nbr :
  (1 <= ef <= cap)%Z -> beam_ok cap b -> P (nb_id nbr) -> In (nb_id nbr) (layer_ids g lc) ->
  exists b', visit_neighbor g query vectors ef b nbr = Ok b' /\ beam_ok cap b' /\ (todo b' <= todo b)%nat /\
    (forall i, visited_contains (seen b) i = true -> visited_contains (seen b') i = true).
Proof.
  intros Hef Hb HP Hin. unfold visit_neighbor. destruct (visited_contains (seen b) (nb_id nbr)) eqn:Ev.
  { exists b. done. }
  rewrite distance_to_ok by done. destruct Hb as [Hs Hc Hr Hnd Hlen Hne].
  destruct (visited_insert_spec (seen b) (nb_id nbr) Hs) as [Hs' Hcon].
  pose proof (unvisited_insert (seen b) (nb_id nbr) _ Hs Hin Ev) as Hless.
  assert (Hmono : forall i, visited_contains (seen b) i = true -> visited_contains (visited_insert (seen b) (nb_id nbr)) i = true).
  { intros i Hi. rewrite Hcon, Hi. apply orb_true_r. }
  set (item := {| dist := dist_of (nb_id nbr); id := nb_id nbr |}).
  assert (Hitem : item_ok item /\ visited_contains (visited_insert (seen b) (nb_id nbr)) (id item) = true).
  { split; [done|]. rewrite Hcon. cbn. by rewrite Nat.eqb_refl. }
  assert (Hfresh : List.NoDup (map id (results b ++ [item]))).
  { rewrite map_app. apply (NoDup_Add (a := id item) (l := map id (results b))).
    - rewrite <- (app_nil_r (map id (results b))) at 1. apply Add_app.
    - split; [done|]. intros Hx. apply in_map_iff in Hx as (h & Hid & Hh). apply Hr in Hh as [_ Hh].
      rewrite Hid in Hh. cbn in Hh. congruence. }
  assert (Hres : forall h, In h (results b ++ [item]) -> item_ok h /\ visited_contains (visited_insert (seen b) (nb_id nbr)) (id h) = true).
  { intros h Hh. apply in_app_iff in Hh as [Hh|[<-|[]]]; [|done]. apply Hr in Hh as [H1 H2]. auto. }
  destruct (_ || _) eqn:Epush; cycle 1.
  { eexists. split; [reflexivity|]. unfold todo. cbn [seen candidates results]. split_and!; [|lia|done].
    split; cbn [seen candidates results]; try done; intros h Hh; [apply Hc in Hh as []|apply Hr in Hh as []]; auto. }
  eexists. split; [reflexivity|]. unfold todo. cbn [seen candidates results].
  split_and!; [|rewrite length_app; simpl; lia|done].
  assert (Hcand : forall h, In h (candidates b ++ [item]) -> item_ok h /\ visited_contains (visited_insert (seen b) (nb_id nbr)) (id h) = true).
  { intros h Hh. apply in_app_iff in Hh as [Hh|[<-|[]]]; [|done]. apply Hc in Hh as [H1 H2]. auto. }
  destruct (Z.ltb_spec ef (Z.of_nat (length (results b ++ [item])))) as [Hgt|Hle].
  - destruct (heap_pop_some max_cmp (results b ++ [item])) as (top & rest & -> & _ & Hperm & Hsub & Hlr); [by destruct (results b)|].
    split; cbn [seen candidates results]; [done|done|auto| | |].
    + apply (Permutation_NoDup (Permutation_map id Hperm)) in Hfresh. by inversion Hfresh.
    + rewrite length_app in Hlr. simpl in Hlr. lia.
    + intros ->. rewrite length_app in Hlr. simpl in Hlr. destruct (results b); [done|simpl in Hlr; lia].
  - split; cbn [seen candidates results]; [done|done|done|done|lia|by destruct (results b)].
Qed.

Lemma visit_all_ok ef cap nbs b :
  (1 <= ef <= cap)%Z -> beam_ok cap b ->
  (forall nb, In nb nbs -> P (nb_id nb) /\ In (nb_id nb) (layer_ids g lc)) ->
  exists b', fold_result (visit_neighbor g query vectors ef) b nbs = Ok b' /\ beam_ok cap b' /\ (todo b' <= todo b)%nat.
Proof.
  intros Hef. revert b. induction nbs as [|nb nbs IH]; intros b Hb Hin; [by exists b|]. cbn [fold_result].
  destruct (Hin nb (or_introl eq_refl)) as [HP Hid].
  destruct (visit_neighbor_ok ef cap b nb Hef Hb HP Hid) as (b1 & -> & Hb1 & Ht1 & _).
  destruct (IH b1 Hb1) as (b2 & -> & Hb2 & Ht2); [intros; apply Hin; by right|]. exists b2. split_and!; [done|done|lia].
Qed.

Lemma beam_loop_ok ef cap fuel b :
  (1 <= ef <= cap)%Z -> beam_ok cap b -> (todo b <= fuel)%nat ->
  exists b', beam_loop g query vectors fuel ef lc b = Ok b' /\ beam_ok cap b'.
Proof.
  intros Hef. revert b. induction fuel as [|fuel IH]; intros b Hb Hf;
    (destruct (candidates b) as [|c cs] eqn:Ec;
      [exists b; split; [cbn [beam_loop]; rewrite Ec, heap_pop_nil; done|done]|]).
  { unfold todo in Hf. rewrite Ec in Hf. simpl in Hf. lia. }
  cbn [beam_loop]. destruct (heap_pop_some min_cmp (candidates b)) as (top & rest & -> & _ & Hperm & Hsub & Hlen); [by rewrite Ec|].
  set (b0 := {| seen := seen b; candidates := rest; results := results b |}).
  assert (Hb0 : beam_ok cap b0).
  { destruct Hb as [Hs Hc Hr Hnd Hl0 Hne]. split; cbn [b0 seen candidates results]; try done. intros h Hh. by apply Hc, Hsub. }
  assert (Ht0 : (todo b0 < todo b)%nat) by (unfold todo; cbn [b0 seen candidates]; lia).
  destruct (f32_ltb _ _); [by exists b0|]. rewrite Hl.
  destruct (visit_all_ok ef cap (get_neighbors l (id top)) b0 Hef Hb0) as (b1 & -> & Hb1 & Ht1).
  { intros nb Hin. split; [by eapply Hnb|by eapply get_neighbors_layer_ids]. }
  apply IH; [done|lia].
Qed.

(** The state a beam search starts in. *)
Lemma enter_all_ok eps b0 :
  visited_ok (seen b0) -> (forall i, visited_contains (seen b0) i = false) -> candidates b0 = [] -> results b0 = [] ->
  eps <> [] -> List.NoDup (map id eps) -> (forall h, In h eps -> item_ok h) ->
  let b := fold_left enter eps b0 in
  beam_ok (Z.of_nat (length eps)) b /\ candidates b = eps /\ results b = eps /\
  (forall i, visited_contains (seen b) i = true <-> In i (map id eps)).
Proof.
  intros Hs Hnone Hc Hr Hne Hnd Hok b.
  assert (H : forall eps b0, visited_ok (seen b0) -> visited_ok (seen (fold_left enter eps b0)) /\
    candidates (fold_left enter eps b0) = candidates b0 ++ eps /\ results (fold_left enter eps b0) = results b0 ++ eps /\
    forall i, visited_contains (seen (fold_left enter eps b0)) i = true <-> In i (map id eps) \/ visited_contains (seen b0) i = true).
  { clear. induction eps as [|e eps IH]; intros b0 Hs; [rewrite !app_nil_r; split_and!; try done; intros i; split; [by right|by intros [[]|?]]|].
    cbn [fold_left]. destruct (visited_insert_spec (seen b0) (id e) Hs) as [Hs1 Hc1].
    destruct (IH (enter b0 e) Hs1) as (H1 & H2 & H3 & H4). cbn [enter candidates results seen] in *.
    split_and!; [done|by rewrite H2, <- app_assoc|by rewrite H3, <- app_assoc|]. intros i. rewrite H4, Hc1. cbn [map In].
    rewrite orb_true_iff, Nat.eqb_eq. tauto. }
  destruct (H eps b0 Hs) as (H1 & H2 & H3 & H4). rewrite Hc in H2. rewrite Hr in H3. cbn [app] in H2, H3.
  assert (H5 : forall i, visited_contains (seen b) i = true <-> In i (map id eps)).
  { intros i. unfold b. rewrite H4, Hnone. intuition discriminate. }
  split_and!; [|done|done|done]. fold b in H1, H2, H3.
  split; rewrite ?H2, ?H3; try done; intros h Hh; (split; [by apply Hok|apply H5; by apply in_map]).
Qed.

Lemma beam_ok_cap cap cap' b : (cap <= cap')%Z -> beam_ok cap b -> beam_ok cap' b.
Proof. intros Hle []. split; try done. lia. Qed.

Lemma beam_start eps :
  visited_ok (visited g) -> eps <> [] -> List.NoDup (map id eps) -> (forall h, In h eps -> item_ok h) ->
  let b := fold_left enter eps {| seen := visited_reset (visited g); candidates := []; results := [] |} in
  beam_ok (Z.of_nat (length eps)) b /\ candidates b = eps /\ results b = eps /\
  (forall i, visited_contains (seen b) i = true <-> In i (map id eps)).
Proof.
  intros Hv Hne Hnd Hok. destruct (visited_reset_spec _ Hv) as [Hs Hnone]. by apply enter_all_ok.
Qed.

(** A beam search ends, and returns distinct nodes with their distances. *)
Lemma search_layer_beam_ok ef eps :
  visited_ok (visited g) -> heap_with_capacity ef = Ok tt -> (1 <= ef)%Z ->
  eps <> [] -> List.NoDup (map id eps) -> (forall h, In h eps -> item_ok h) ->
  exists v res, search_layer_beam g query vectors eps ef lc = Ok (v, res) /\ visited_ok v /\
    List.NoDup (map id res) /\ (forall h, In h res -> item_ok h) /\ res <> [] /\
    (Z.of_nat (length res) <= Z.max ef (Z.of_nat (length eps)))%Z.
Proof.
  intros Hv Hcap Hef Hne Hnd Hok. unfold search_layer_beam. rewrite Hcap.
  destruct (beam_start eps Hv Hne Hnd Hok) as (Hb & Hc & Hr & _). set (b := fold_left enter eps _) in *.
  apply (beam_ok_cap _ (Z.max ef (Z.of_nat (length eps)))) in Hb; [|lia].
  destruct (beam_loop_ok ef (Z.max ef (Z.of_nat (length eps))) (length eps + length (layer_ids g lc)) b) as (b' & -> & Hb');
    [lia|done|unfold todo; rewrite Hc; pose proof (unvisited_le (seen b) (layer_ids g lc)); lia|].
  exists (seen b'), (heap_order (results b')). destruct Hb' as [H1 _ H2 H3 H4 H5].
  pose proof (heap_order_perm _ (results b')) as Hp. split_and!; [done|done| | | |].
  - eapply Permutation_NoDup; [apply Permutation_map, Permutation_sym, Hp|done].
  - intros h Hh. apply (Permutation_in _ Hp) in Hh. by apply H2.
  - intros E. rewrite E in Hp. by apply Permutation_nil in Hp.
  - by rewrite (Permutation_length Hp).
Qed.

(** The nodes closer than [d]. *)
Definition closer (d : f32) (l : list nat) : list nat := List.filter (fun i => f32_ltb (dist_of i) d) l.

Lemma closer_decreases d i ids : In i ids -> f32_ltb (dist_of i) d = true ->
  (length (closer (dist_of i) ids) < length (closer d ids))%nat.
Proof.
  intros Hin Hd.
  assert (Hle : forall ids, (length (closer (dist_of i) ids) <= length (closer d ids))%nat).
  { intros l0. induction l0 as [|j l0 IH]; [done|]. simpl. destruct (f32_ltb (dist_of j) (dist_of i)) eqn:E; simpl.
    - rewrite (f32_ltb_trans _ _ _ E Hd). simpl. lia.
    - destruct (f32_ltb (dist_of j) d); simpl; lia. }
  induction ids as [|j ids IH]; [done|]. simpl. specialize (Hle ids). destruct Hin as [<-|Hin].
  - rewrite f32_ltb_irrefl, Hd. simpl. lia.
  - specialize (IH Hin). destruct (f32_ltb (dist_of j) (dist_of i)) eqn:E; simpl.
    + rewrite (f32_ltb_trans _ _ _ E Hd). simpl. lia.
    + destruct (f32_ltb (dist_of j) d); simpl; lia.
Qed.

(** A pass over the neighbours of a node stays, or moves to a closer node. *)
Lemma greedy_pass_ok nbs cur improved :
  (forall nb, In nb nbs -> P (nb_id nb) /\ In (nb_id nb) (layer_ids g lc)) -> P cur ->
  exists cur' improved', fold_result (greedy_step g query vectors) (cur, dist_of cur, improved) nbs =
    Ok (cur', dist_of cur', improved') /\ P cur' /\
    ((cur' = cur /\ improved' = improved) \/
     (improved' = true /\ In cur' (layer_ids g lc) /\ f32_ltb (dist_of cur') (dist_of cur) = true)).
Proof.
  revert cur improved. induction nbs as [|nb nbs IH]; intros cur improved Hin Hc.
  { exists cur, improved. split_and!; [done|done|by left]. }
  cbn [fold_result]. destruct (Hin nb (or_introl eq_refl)) as [HP Hid]. unfold greedy_step at 1.
  rewrite distance_to_ok by done. cbn. destruct (f32_ltb (dist_of (nb_id nb)) (dist_of cur)) eqn:E.
  - destruct (IH (nb_id nb) true) as (c & i & -> & Hc' & [[-> ->]|(-> & Hi & Hlt)]); [intros; apply Hin; by right|done| |].
    + exists (nb_id nb), true. split_and!; [done|done|by right].
    + exists c, true. split_and!; [done|done|]. right. split_and!; [done|done|]. by eapply f32_ltb_trans.
  - apply IH; [intros; apply Hin; by right|done].
Qed.

(** The greedy search ends at a node. *)
Lemma search_layer_greedy_ok entry :
  P entry -> exists i, search_layer_greedy g query vectors entry lc = Ok i /\ P i.
Proof.
  intros He. unfold search_layer_greedy. rewrite distance_to_ok by done. cbn.
  assert (Hf : (length (closer (dist_of entry) (layer_ids g lc)) <= length (layer_ids g lc))%nat).
  { unfold closer. induction (layer_ids g lc) as [|j ids IH]; [done|]. simpl. destruct (f32_ltb _ _); simpl; lia. }
  revert entry He Hf. generalize (length (layer_ids g lc)) as fuel.
  induction fuel as [|fuel IH]; intros cur Hc Hf; cbn [greedy_loop]; rewrite Hl;
    (destruct (greedy_pass_ok (get_neighbors l cur) cur false) as (c & i & -> & Hc' & [[-> ->]|(-> & Hi & Hlt)]);
      [intros nb Hin; split; [by eapply Hnb|by eapply get_neighbors_layer_ids]|done|by exists cur|]);
    pose proof (closer_decreases _ _ _ Hi Hlt); [lia|].
  apply IH; [done|lia].
Qed.
End LayerSearch.

(** ** Well-formed graphs *)

Lemma get_neighbors_ensure (l : Layer) k i : get_neighbors (ensure_capacity l k) i = get_neighbors l i.
Proof.
  unfold ensure_capacity, get_neighbors. destruct (Nat.leb_spec (length l) k) as [H|H]; [|done].
  destruct (Nat.lt_ge_cases i (length l)) as [Hi|Hi]; [by rewrite lookup_app_l|].
  rewrite lookup_app_r, (lookup_ge_None_2 l) by lia. destruct (repeat None _ !! _) as [x|] eqn:E; [|done].
  by apply list_elem_of_lookup_2, list_elem_of_In, repeat_spec in E as ->.
Qed.

Lemma ensure_length (l : Layer) k : (k < length (ensure_capacity l k))%nat.
Proof.
  unfold ensure_capacity. destruct (Nat.leb_spec (length l) k) as [H|H]; [|done]. rewrite length_app, repeat_length. lia.
Qed.

Lemma ensure_lookup (l : Layer) k i x : l !! i = Some x -> ensure_capacity l k !! i = Some x.
Proof.
  intros H. unfold ensure_capacity. destruct (_ <=? _)%nat; [|done]. by apply lookup_app_l_Some.
Qed.

Lemma get_neighbors_insert (l : Layer) k v i : (k < length l)%nat ->
  get_neighbors (<[k := Some v]> l) i = if (k =? i)%nat then v else get_neighbors l i.
Proof.
  intros H. unfold get_neighbors. destruct (Nat.eqb_spec k i) as [->|Hne]; [by rewrite list_lookup_insert_eq|].
  by rewrite list_lookup_insert_ne.
Qed.

Lemma get_neighbors_init (l : Layer) k i :
  get_neighbors (init_node l k) i = if (k =? i)%nat then [] else get_neighbors l i.
Proof. unfold init_node. rewrite get_neighbors_insert by apply ensure_length. by rewrite get_neighbors_ensure. Qed.

Definition has_node (l : Layer) (i : nat) : Prop := exists v, l !! i = Some (Some v).

Lemma has_node_init (l : Layer) k : has_node (init_node l k) k.
Proof. exists []. unfold init_node. apply list_lookup_insert_eq, ensure_length. Qed.

Lemma has_node_insert (l : Layer) k v i : (k < length l)%nat -> has_node l i -> has_node (<[k := Some v]> l) i.
Proof.
  intros H [w Hw]. destruct (Nat.eq_dec k i) as [->|Hne]; [exists v; by rewrite list_lookup_insert_eq|].
  exists w. by rewrite list_lookup_insert_ne.
Qed.

(** The neighbours in a layer are nodes. *)
Definition layer_ok (nodes : list nat) (l : Layer) : Prop := forall i nb, In nb (get_neighbors l i) -> In (nb_id nb) nodes.

Record graph_ok (nodes : list nat) (g : HnswGraph) : Prop := {
  go_layers : forall lc l, layers g !! lc = Some l -> layer_ok nodes l;
  go_entry : match entry_point g with
             | Some ep => In ep nodes /\ (max_level g < length (layers g))%nat
             | None => nodes = []
             end;
  go_visited : visited_ok (visited g) }.

(** The vectors of the nodes are in the buffer. *)
Definition in_buffer (vectors : list f32) (dim : nat) (nodes : list nat) : Prop :=
  forall i, In i nodes -> (i * dim + dim <= length vectors)%nat.

(** The settings of a graph, which no operation changes. *)
Definition settings (g : HnswGraph) : nat * Z * Z * Z * f64 * DistanceMetric :=
  (dim g, m g, m_max_0 g, ef_construction g, ml g, metric g).

Section Select.
Context (vectors : list f32) (d : nat) (mt : DistanceMetric).

Lemma row_slice_ok i : (i * d + d <= length vectors)%nat -> exists v, slice vectors d i = Ok v.
Proof. intros H. unfold slice. rewrite (proj2 (Nat.leb_le _ _)) by done. by eexists. Qed.

Lemma diverse_ok c selected :
  (forall h, In h (c :: selected) -> (id h * d + d <= length vectors)%nat) ->
  exists b, diverse vectors d mt c selected = Ok b.
Proof.
  induction selected as [|s rest IH]; intros H; [by exists true|]. cbn [diverse].
  destruct (row_slice_ok (id c)) as [v ->]; [apply H; by left|]. destruct (row_slice_ok (id s)) as [w ->]; [apply H; right; by left|].
  cbn. destruct (f32_ltb _ _); [by exists false|]. apply IH. intros h [<-|Hh]; apply H; [by left|right; by right].
Qed.

Lemma select_diverse_ok mm selected sorted :
  (forall h, In h (selected ++ sorted) -> (id h * d + d <= length vectors)%nat) ->
  exists out, select_diverse vectors d mt mm selected sorted = Ok out /\ forall h, In h out -> In h (selected ++ sorted).
Proof.
  revert selected. induction sorted as [|c rest IH]; intros selected H; cbn [select_diverse].
  { exists selected. split; [done|]. intros h Hh. apply in_app_iff. by left. }
  destruct (_ <=? _)%Z; [exists selected; split; [done|]; intros h Hh; apply in_app_iff; by left|].
  destruct (diverse_ok c selected) as [b ->].
  { intros h [<-|Hh]; apply H, in_app_iff; [right; by left|by left]. }
  cbn. assert (Hsub : forall h, In h ((if b then selected ++ [c] else selected) ++ rest) -> In h (selected ++ c :: rest)).
  { intros h Hh. rewrite !in_app_iff in *. cbn [In]. destruct b; [rewrite in_app_iff in Hh; cbn [In] in Hh|]; tauto. }
  destruct (IH (if b then selected ++ [c] else selected)) as (out & -> & Hout); [intros h Hh; by apply H, Hsub|].
  exists out. split; [done|]. intros h Hh. by apply Hsub, Hout.
Qed.

Lemma backfill_sub mm ids selected sorted h : In h (backfill mm ids selected sorted) -> In h (selected ++ sorted).
Proof.
  revert selected. induction sorted as [|c rest IH]; intros selected Hh; cbn [backfill] in Hh; [rewrite app_nil_r; done|].
  destruct (_ <=? _)%Z; [apply in_app_iff; by left|]. apply IH in Hh. rewrite !in_app_iff in *. cbn [In].
  destruct (existsb _ _); [|rewrite in_app_iff in Hh; cbn [In] in Hh]; tauto.
Qed.

(** The selection keeps candidates, and all of them when they are few. *)
Lemma select_neighbors_ok cands mm :
  (forall h, In h cands -> (id h * d + d <= length vectors)%nat) ->
  exists out, select_neighbors_diversified cands mm vectors d mt = Ok out /\ (forall h, In h out -> In h cands) /\
    ((Z.of_nat (length cands) <= mm)%Z -> out = cands).
Proof.
  intros H. unfold select_neighbors_diversified. destruct (Z.leb_spec (Z.of_nat (length cands)) mm) as [Hle|Hgt]; [by exists cands|].
  assert (Hs : forall h, In h (sort_by by_dist cands) <-> In h cands) by (intros h; apply sort_by_In).
  destruct (select_diverse_ok mm [] (sort_by by_dist cands)) as (out & -> & Hout).
  { intros h Hh. by apply H, Hs. }
  cbn. eexists. split; [reflexivity|]. split; [|lia]. intros h Hh. destruct (_ <? _)%Z; [|by apply Hs, Hout].
  apply backfill_sub, in_app_iff in Hh as [Hh|Hh]; [by apply Hs, Hout|by apply Hs].
Qed.
End Select.

Lemma in_neighbors_of_items (hs : list HeapItem) nb :
  In nb (map (fun h => {| nb_id := id h; nb_dist := dist h |}) hs) -> exists h, In h hs /\ nb_id nb = id h.
Proof. intros H. apply in_map_iff in H as (h & <- & Hh). by exists h. Qed.

Lemma prune_neighbors_ok nbrs mm vectors d mt nodes :
  (forall nb, In nb nbrs -> In (nb_id nb) nodes) -> in_buffer vectors d nodes ->
  exists out, prune_neighbors nbrs mm vectors d mt = Ok out /\ forall nb, In nb out -> In (nb_id nb) nodes.
Proof.
  intros Hn Hb. unfold prune_neighbors. set (hs := map _ nbrs).
  assert (Hhs : forall h, In h hs -> In (id h) nodes) by (intros h Hh; apply in_map_iff in Hh as (nb & <- & Hnb); by apply Hn).
  destruct (select_neighbors_ok vectors d mt hs mm) as (out & -> & Hsub & _); [intros h Hh; by apply Hb, Hhs|].
  cbn. eexists. split; [reflexivity|]. intros nb Hnb. apply in_neighbors_of_items in Hnb as (h & Hh & ->). by apply Hhs, Hsub.
Qed.

Lemma connect_back_ok vectors d mt mm new nodes l sel :
  In new nodes -> In (id sel) nodes -> in_buffer vectors d nodes -> layer_ok nodes l ->
  exists l', connect_back vectors d mt mm new l sel = Ok l' /\ layer_ok nodes l' /\ forall i, has_node l i -> has_node l' i.
Proof.
  intros Hnew Hsel Hb Hok. unfold connect_back. set (l0 := ensure_capacity l (id sel)).
  assert (Hok0 : layer_ok nodes l0) by (intros i nb; unfold l0; rewrite get_neighbors_ensure; apply Hok).
  assert (Hh0 : forall i, has_node l i -> has_node l0 i) by (intros i [v Hv]; exists v; by apply ensure_lookup).
  assert (Hlen : (id sel < length l0)%nat) by apply ensure_length.
  destruct (l0 !! id sel) as [[nbrs|]|] eqn:E; [|by exists l0|by exists l0].
  set (nbrs' := nbrs ++ _). assert (Hn : forall nb, In nb nbrs' -> In (nb_id nb) nodes).
  { intros nb Hnb. apply in_app_iff in Hnb as [Hnb|[<-|[]]]; [|done]. apply (Hok0 (id sel)). unfold get_neighbors. by rewrite E. }
  assert (Hfin : exists out, (if (mm <? Z.of_nat (length nbrs'))%Z then prune_neighbors nbrs' mm vectors d mt else Ok nbrs') = Ok out /\
    forall nb, In nb out -> In (nb_id nb) nodes).
  { destruct (_ <? _)%Z; [by apply prune_neighbors_ok|by exists nbrs']. }
  destruct Hfin as (out & -> & Hout). cbn. eexists. split; [reflexivity|]. split.
  - intros i nb. rewrite get_neighbors_insert by done. destruct (_ =? _)%nat; [apply Hout|apply Hok0].
  - intros i Hi. apply has_node_insert; auto.
Qed.

Lemma connect_all_ok vectors d mt mm new nodes sels l :
  In new nodes -> (forall h, In h sels -> In (id h) nodes) -> in_buffer vectors d nodes -> layer_ok nodes l ->
  exists l', fold_result (connect_back vectors d mt mm new) l sels = Ok l' /\ layer_ok nodes l' /\
    forall i, has_node l i -> has_node l' i.
Proof.
  intros Hnew Hsel Hb. revert l. induction sels as [|s sels IH]; intros l Hok; [by exists l|]. cbn [fold_result].
  destruct (connect_back_ok vectors d mt mm new nodes l s) as (l1 & -> & Hok1 & Hh1); [done|apply Hsel; by left|done|done|].
  destruct (IH ltac:(intros; apply Hsel; by right) l1 Hok1) as (l2 & -> & Hok2 & Hh2). exists l2. split_and!; auto.
Qed.

(** ** Insertion and search *)

Section Graph.
Context {SE : StdEnv} {SL : StdLaws SE} {Ln : LnOps}.

(** The beam of an insertion can be allocated. *)
Definition ef_fits (g : HnswGraph) : Prop := (1 <= ef_construction g)%Z /\ heap_with_capacity (ef_construction g) = Ok tt.

Lemma ef_fits_settings g g' : settings g' = settings g -> ef_fits g -> ef_fits g'.
Proof. unfold settings, ef_fits. intros [= _ _ _ -> _ _]. done. Qed.

(** Entry points of a search for [query]: distinct nodes with their distances. *)
Definition entries_ok (g : HnswGraph) (query vectors : list f32) (nodes : list nat) (eps : list HeapItem) : Prop :=
  eps <> [] /\ List.NoDup (map id eps) /\ forall h, In h eps -> item_ok g query vectors (fun i => In i nodes) h.

Lemma entries_settings g g' query vectors nodes eps :
  settings g' = settings g -> entries_ok g query vectors nodes eps -> entries_ok g' query vectors nodes eps.
Proof.
  unfold settings. intros [= Hd _ _ _ _ Hm] (H1 & H2 & H3). split_and!; [done|done|]. intros h Hh.
  destruct (H3 h Hh) as [H4 H5]. split; [done|]. rewrite H5. unfold dist_of. by rewrite Hd, Hm.
Qed.

Lemma entry_single g query vectors nodes i : In i nodes -> in_buffer vectors (dim g) nodes ->
  distance_to g query vectors i = Ok (dist_of g query vectors i) /\
  entries_ok g query vectors nodes [{| dist := dist_of g query vectors i; id := i |}].
Proof.
  intros Hi Hb. split; [by apply (distance_to_ok g query vectors (fun i => In i nodes))|].
  split_and!; [done|repeat constructor; by intros []|]. by intros h [<-|[]].
Qed.

(** What one layer of an insertion keeps. *)
Record stepped (nodes : list nat) (new : nat) (g g' : HnswGraph) : Prop := {
  sp_settings : settings g' = settings g;
  sp_entry : entry_point g' = entry_point g;
  sp_level : max_level g' = max_level g;
  sp_length : length (layers g') = length (layers g);
  sp_layers : forall lc l, layers g' !! lc = Some l -> layer_ok nodes l;
  sp_visited : visited_ok (visited g');
  sp_new : forall lc l, layers g !! lc = Some l -> has_node l new -> exists l', layers g' !! lc = Some l' /\ has_node l' new }.

Lemma connect_layer_ok old new query vectors g eps lc l :
  (forall lc l, layers g !! lc = Some l -> layer_ok (new :: old) l) -> visited_ok (visited g) -> ef_fits g ->
  in_buffer vectors (dim g) (new :: old) -> entries_ok g query vectors old eps ->
  layers g !! lc = Some l -> has_node l new -> layer_ok old l ->
  exists g' eps', connect_layer vectors query new (g, eps) lc = Ok (g', eps') /\ stepped (new :: old) new g g' /\
    entries_ok g' query vectors old eps' /\ forall lc', lc' <> lc -> layers g' !! lc' = layers g !! lc'.
Proof.
  intros Hls Hv [Hef Hcap] Hb (Hne & Hnd & Hit) Hl [v0 Hv0] Hold. unfold connect_layer.
  assert (Hb' : in_buffer vectors (dim g) old) by (intros i Hi; apply Hb; by right).
  destruct (search_layer_beam_ok g query vectors (fun i => In i old) Hb' lc l Hl Hold (ef_construction g) eps)
    as (v & res & -> & Hv' & Hnd' & Hit' & Hne' & _); [done..|]. cbn.
  set (mm := if (lc =? 0)%nat then m_max_0 g else m g).
  destruct (select_neighbors_ok vectors (dim g) (metric g) res mm) as (sel & -> & Hsel & _).
  { intros h Hh. by apply Hb', Hit'. }
  cbn. rewrite Hl, Hv0. set (nbs := map _ sel). set (l0 := <[new := Some nbs]> l).
  assert (Hlen : (new < length l)%nat) by (apply lookup_lt_is_Some_1; by eexists).
  assert (Hl0 : layer_ok (new :: old) l0).
  { intros i nb. unfold l0. rewrite get_neighbors_insert by done. destruct (new =? i)%nat; [|intros Hnb; right; by apply (Hold i)].
    intros Hnb. apply in_neighbors_of_items in Hnb as (h & Hh & ->). right. by apply Hit', Hsel. }
  destruct (connect_all_ok vectors (dim g) (metric g) mm new (new :: old) sel l0) as (l1 & -> & Hl1 & Hh1);
    [by left|intros h Hh; right; by apply Hit', Hsel|done|done|]. cbn.
  assert (Hll : (lc < length (layers g))%nat) by (apply lookup_lt_is_Some_1; by eexists).
  eexists _, res. split; [reflexivity|]. split_and!.
  - split; try done; cbn [layers visited with_visited with_layers].
    + apply length_insert.
    + intros lc' l' Hl'. apply list_lookup_insert_Some in Hl' as [(-> & <- & _)|(_ & Hl')]; [done|by eapply Hls].
    + intros lc' l' Hl' Hn. destruct (Nat.eq_dec lc lc') as [<-|Hneq].
      * exists l1. rewrite list_lookup_insert_eq by done. split; [done|]. apply Hh1, has_node_insert; [done|].
        rewrite Hl in Hl'. by injection Hl' as <-.
      * exists l'. by rewrite list_lookup_insert_ne.
  - split_and!; done.
  - intros lc' Hneq. cbn [layers with_visited with_layers]. by rewrite list_lookup_insert_ne.
Qed.

Lemma stepped_trans nodes new g1 g2 g3 : stepped nodes new g1 g2 -> stepped nodes new g2 g3 -> stepped nodes new g1 g3.
Proof.
  intros [A1 A2 A3 A4 A5 A6 A7] [B1 B2 B3 B4 B5 B6 B7]. split; try congruence; [done|].
  intros lc l Hl Hn. destruct (A7 lc l Hl Hn) as (l' & Hl' & Hn'). by eapply B7.
Qed.

(** Several layers, one after the other. *)
Lemma connect_layers_ok old new query vectors g eps lcs :
  (forall lc l, layers g !! lc = Some l -> layer_ok (new :: old) l) -> visited_ok (visited g) -> ef_fits g ->
  in_buffer vectors (dim g) (new :: old) -> entries_ok g query vectors old eps -> List.NoDup lcs ->
  (forall lc, In lc lcs -> exists l, layers g !! lc = Some l /\ has_node l new /\ layer_ok old l) ->
  exists g' eps', fold_result (connect_layer vectors query new) (g, eps) lcs = Ok (g', eps') /\ stepped (new :: old) new g g' /\
    entries_ok g' query vectors old eps' /\ forall lc', ~ In lc' lcs -> layers g' !! lc' = layers g !! lc'.
Proof.
  revert g eps. induction lcs as [|lc lcs IH]; intros g eps Hls Hv Hef Hb Heps Hnd Hlcs.
  { exists g, eps. split_and!; try done. split; try done. intros lc l Hl Hn. by exists l. }
  cbn [fold_result]. destruct (Hlcs lc (or_introl eq_refl)) as (l & Hl & Hn & Hold). inversion_clear Hnd as [|? ? Hni Hnd'].
  destruct (connect_layer_ok old new query vectors g eps lc l) as (g1 & eps1 & -> & Hs1 & Heps1 & Hf1); [done..|].
  assert (Hd : dim g1 = dim g) by (pose proof (sp_settings _ _ _ _ Hs1) as Hset; unfold settings in Hset; congruence).
  destruct (IH g1 eps1) as (g2 & eps2 & -> & Hs2 & Heps2 & Hf2).
  - apply Hs1.
  - apply Hs1.
  - eapply ef_fits_settings; [apply Hs1|done].
  - by rewrite Hd.
  - done.
  - done.
  - intros lc' Hin. rewrite Hf1 by (by intros ->). by apply Hlcs; right.
  - exists g2, eps2. split_and!; [done|by eapply stepped_trans|done|].
    intros lc' Hni'. rewrite Hf2 by (intros ?; apply Hni'; by right). apply Hf1. intros ->. apply Hni'. by left.
Qed.

Lemma descend_ok nodes g query vectors ep lo hi :
  (forall lc l, layers g !! lc = Some l -> layer_ok nodes l) -> in_buffer vectors (dim g) nodes ->
  In ep nodes -> (hi < length (layers g))%nat ->
  exists i, descend g query vectors ep lo hi = Ok i /\ In i nodes.
Proof.
  intros Hls Hb Hep Hhi. unfold descend.
  assert (Hlcs : forall lc, In lc (rev (seq lo (hi + 1 - lo))) -> (lc < length (layers g))%nat).
  { intros lc Hlc. apply in_rev, in_seq in Hlc. lia. }
  revert ep Hep. induction (rev (seq lo (hi + 1 - lo))) as [|lc lcs IH]; intros ep Hep; [by exists ep|]. cbn [fold_result].
  destruct (lookup_lt_is_Some_2 (layers g) lc (Hlcs lc (or_introl eq_refl))) as [l Hl].
  destruct (search_layer_greedy_ok g query vectors (fun i => In i nodes) Hb lc l Hl (Hls lc l Hl) ep Hep) as (i & -> & Hi).
  cbn. apply IH; [|done]. intros lc' Hin. apply Hlcs. by right.
Qed.

(** A node added without neighbours. *)
Lemma add_node_ok nodes g new : graph_ok nodes g ->
  let '(g', level) := add_node g new in
  settings g' = settings g /\ entry_point g' = entry_point g /\ max_level g' = max_level g /\ visited g' = visited g /\
  (length (layers g) <= length (layers g'))%nat /\ (level < length (layers g'))%nat /\
  (forall lc l, layers g' !! lc = Some l -> layer_ok nodes l) /\
  (forall lc, (lc <= level)%nat -> exists l l', (layers g !! lc = Some l \/ (layers g !! lc = None /\ l = [])) /\
     layers g' !! lc = Some l' /\ l' = init_node l new) /\
  (forall lc, (level < lc)%nat -> layers g' !! lc = layers g !! lc).
Proof.
  intros Hok. unfold add_node. destruct (random_level _ _) as [rng level]. cbn [settings layers entry_point max_level visited].
  set (ls := layers g ++ repeat [] (level + 1 - length (layers g))).
  assert (Hlen : length ls = Nat.max (length (layers g)) (level + 1)).
  { unfold ls. rewrite length_app, repeat_length. lia. }
  assert (Hout : length (map (fun l => init_node l new) (take (level + 1) ls) ++ drop (level + 1) ls) = length ls).
  { rewrite length_app, length_map, length_take, length_drop. lia. }
  assert (Hls : forall lc, layers g !! lc = None -> (lc <= level)%nat -> ls !! lc = Some []).
  { intros lc Hn Hle. unfold ls. apply lookup_ge_None in Hn. rewrite lookup_app_r by done.
    destruct (lookup_lt_is_Some_2 (repeat (@nil (option (list Neighbor))) (level + 1 - length (layers g))) (lc - length (layers g))) as [x Hx];
      [rewrite repeat_length; lia|]. rewrite Hx. by apply list_elem_of_lookup_2, list_elem_of_In, repeat_spec in Hx as ->. }
  assert (Hlo : forall lc, (lc <= level)%nat -> exists l l', (layers g !! lc = Some l \/ (layers g !! lc = None /\ l = [])) /\
     (map (fun l => init_node l new) (take (level + 1) ls) ++ drop (level + 1) ls) !! lc = Some l' /\ l' = init_node l new).
  { intros lc Hle. rewrite lookup_app_l by (rewrite length_map, length_take; lia).
    destruct (layers g !! lc) as [l|] eqn:E.
    - exists l, (init_node l new). split_and!; [by left| |done]. rewrite list_lookup_fmap, lookup_take_lt by lia.
      unfold ls. by rewrite lookup_app_l, E by (by eapply lookup_lt_Some).
    - exists [], (init_node [] new). split_and!; [by right| |done]. rewrite list_lookup_fmap, lookup_take_lt, (Hls lc E Hle) by lia. done. }
  assert (Hhi : forall lc, (level < lc)%nat ->
     (map (fun l => init_node l new) (take (level + 1) ls) ++ drop (level + 1) ls) !! lc = layers g !! lc).
  { intros lc Hlt. rewrite lookup_app_r by (rewrite length_map, length_take; lia).
    rewrite length_map, length_take, lookup_drop.
    replace (level + 1 + (lc - (level + 1) `min` length ls))%nat with lc by lia. unfold ls.
    destruct (Nat.lt_ge_cases lc (length (layers g))) as [H|H]; [by rewrite lookup_app_l|].
    rewrite lookup_app_r, !lookup_ge_None_2 by (rewrite ?repeat_length; lia). done. }
  split_and!; try done; [rewrite Hout; lia|rewrite Hout; lia|].
  intros lc l Hl. destruct (Nat.le_gt_cases lc level) as [Hle|Hgt].
  - destruct (Hlo lc Hle) as (l0 & l1 & H0 & H1 & ->). rewrite H1 in Hl. injection Hl as <-. intros i nb.
    rewrite get_neighbors_init. destruct (_ =? _)%nat; [intros []|]. destruct H0 as [H0|[_ ->]]; [by apply (go_layers _ _ Hok lc l0 H0)|].
    unfold get_neighbors. by rewrite lookup_nil.
  - rewrite Hhi in Hl by done. by eapply (go_layers _ _ Hok).
Qed.

(** An insertion does not panic, ends, and leaves a well-formed graph with the new node. *)
Lemma hnsw_insert_ok nodes g new vectors :
  graph_ok nodes g -> ef_fits g -> in_buffer vectors (dim g) (new :: nodes) ->
  exists g', hnsw_insert g new vectors = Ok g' /\ graph_ok (new :: nodes) g' /\ settings g' = settings g.
Proof.
  intros Hok Hef Hb. unfold hnsw_insert. pose proof (add_node_ok nodes g new Hok) as Ha.
  destruct (add_node g new) as [g1 level]. destruct Ha as (Hset & Hep & Hlev & Hvis & Hlen & Hll & Hls & Hlo & Hhi).
  assert (Hd : dim g1 = dim g) by (unfold settings in Hset; congruence).
  assert (Hls1 : forall lc l, layers g1 !! lc = Some l -> layer_ok (new :: nodes) l).
  { intros lc l Hl i nb Hnb. right. by apply (Hls lc l Hl i). }
  assert (Hv1 : visited_ok (visited g1)) by (rewrite Hvis; apply Hok).
  pose proof (go_entry _ _ Hok) as He. rewrite Hep. destruct (entry_point g) as [ep|]; cycle 1.
  { eexists. split; [reflexivity|]. split; [|done]. split; cbn; [done|split; [by left|done]|done]. }
  destruct He as [Hin Hml]. rewrite <- Hd in Hb.
  destruct (row_slice_ok vectors (dim g1) new) as [query Hq]; [apply Hb; by left|]. unfold vec_ref. rewrite Hq. cbv beta iota.
  assert (Hb' : in_buffer vectors (dim g1) nodes) by (intros i Hi; apply Hb; by right).
  assert (Hdesc : exists i, (if (level <? max_level g1)%nat then descend g1 query vectors ep (level + 1) (max_level g1) else Ok ep) = Ok i
    /\ In i nodes).
  { destruct (_ <? _)%nat; [|by exists ep]. apply descend_ok; [done|done|done|rewrite Hlev; lia]. }
  destruct Hdesc as (cur & -> & Hcur). cbv beta iota. destruct (entry_single g1 query vectors _ cur Hcur Hb') as [-> Heps]. cbv beta iota.
  destruct (connect_layers_ok nodes new query vectors g1 [{| dist := dist_of g1 query vectors cur; id := cur |}]
    (rev (seq 0 (level `min` max_level g1 + 1)))) as (g2 & eps2 & Hrun & Hs & _ & _); try done.
  { by eapply ef_fits_settings. }
  { apply NoDup_rev, seq_NoDup. }
  { intros lc Hlc. apply in_rev, in_seq in Hlc. destruct (Hlo lc ltac:(lia)) as (l & l' & _ & Hl' & ->).
    eexists. split; [exact Hl'|]. split; [apply has_node_init|by eapply Hls]. }
  rewrite Hrun. cbn [fst]. destruct Hs as [S1 S2 S3 S4 S5 S6 _]. eexists. split; [reflexivity|].
  destruct (Nat.ltb_spec (max_level g2) level); (split; [split; cbn [with_entry layers entry_point max_level visited]; try done|
    exact (eq_trans S1 Hset)]).
  - split; [by left|lia].
  - rewrite S2, Hep. split; [by right|rewrite S3, S4, Hlev; lia].
Qed.

(** The order of the answers. *)
Definition by_distance (a b : nat * f32) : comparison := f32_cmp_or_eq (snd a) (snd b).

Definition comparable (g : HnswGraph) (query vectors : list f32) (nodes : list nat) : Prop :=
  forall i, In i nodes -> f32_is_nan (dist_of g query vectors i) = false.

Lemma hnsw_order_tp : TotalPreorder (fun p : nat * f32 => f32_is_nan (snd p) = false) by_distance.
Proof. apply (tp_pullback (fun x => f64_is_nan x = false) _ snd); [done|apply f64_cmp_tp]. Qed.

(** What a search returns. *)
Record answer_ok (g : HnswGraph) (query vectors : list f32) (nodes : list nat) (k : Z) (out : list (nat * f32)) : Prop := {
  ao_nodup : List.NoDup (map fst out);
  ao_nodes : forall i d, In (i, d) out -> In i nodes /\ d = dist_of g query vectors i;
  ao_length : (Z.of_nat (length out) <= k)%Z;
  ao_some : nodes <> [] -> (1 <= k)%Z -> out <> [];
  ao_sorted : comparable g query vectors nodes -> sorted_by by_distance out }.

Lemma sorted_take {X} (cmp : X -> X -> comparison) n l : sorted_by cmp l -> sorted_by cmp (take n l).
Proof.
  unfold sorted_by. revert n. induction l as [|x l IH]; intros [|n] H; try constructor; inversion_clear H; [by apply IH|].
  apply List.Forall_forall. intros y Hy. rewrite List.Forall_forall in H1. apply H1. by eapply in_take.
Qed.

Lemma answer_of_items g query vectors nodes k res :
  (0 <= k)%Z -> List.NoDup (map id res) -> (forall h, In h res -> item_ok g query vectors (fun i => In i nodes) h) -> res <> [] ->
  answer_ok g query vectors nodes k (iter_take k (sort_by by_distance (map (fun h => (id h, dist h)) res))).
Proof.
  intros Hk Hnd Hit Hne. set (items := map _ res). pose proof (sort_by_perm by_distance items) as Hp.
  assert (Hin : forall i d, In (i, d) items -> In i nodes /\ d = dist_of g query vectors i).
  { intros i d Hi. apply in_map_iff in Hi as (h & [= <- <-] & Hh). by apply Hit. }
  unfold iter_take. set (n := Z.to_nat _). split.
  - assert (Hnd' : List.NoDup (map fst (sort_by by_distance items))).
    { eapply Permutation_NoDup; [apply Permutation_map, Hp|]. unfold items. by rewrite map_map. }
    rewrite <- (take_drop n (sort_by by_distance items)), map_app in Hnd'. by eapply NoDup_app_remove_r.
  - intros i d Hi. apply in_take in Hi. by apply Hin, (Permutation_in _ (Permutation_sym Hp)).
  - rewrite length_take. unfold n. lia.
  - intros _ Hk1 E. assert (Hl : length (take n (sort_by by_distance items)) = 0%nat) by (by rewrite E).
    assert (Hpos : (0 < length (sort_by by_distance items))%nat).
    { rewrite <- (Permutation_length Hp). unfold items. rewrite length_map. destruct res; [done|cbn; lia]. }
    rewrite length_take in Hl. unfold n in Hl. lia.
  - intros Hc. apply sorted_take, (sort_by_sorted _ _ _ hnsw_order_tp), List.Forall_forall. intros [i d] Hi.
    apply Hin in Hi as [Hi ->]. by apply Hc.
Qed.

(** A search of a well-formed graph does not panic, ends, and answers with nodes of the graph. *)
Lemma hnsw_search_ok nodes g query k ef vectors :
  graph_ok nodes g -> in_buffer vectors (dim g) nodes -> (0 <= k)%Z -> (1 <= Z.max k ef)%Z ->
  heap_with_capacity (Z.max k ef) = Ok tt ->
  exists v out, hnsw_search g query k ef vectors = Ok (with_visited g v, out) /\ graph_ok nodes (with_visited g v) /\
    answer_ok g query vectors nodes k out.
Proof.
  intros Hok Hb Hk Hef Hcap. unfold hnsw_search. pose proof (go_entry _ _ Hok) as He.
  destruct (entry_point g) as [ep|] eqn:Eep; cycle 1.
  { exists (visited g), []. split_and!.
    - by destruct g.
    - by destruct g.
    - split; [constructor|done|done|done|constructor]. }
  destruct He as [Hin Hml].
  assert (Hdesc : exists i, (if (0 <? max_level g)%nat then descend g query vectors ep 1 (max_level g) else Ok ep) = Ok i /\ In i nodes).
  { destruct (_ <? _)%nat; [|by exists ep]. apply descend_ok; [apply Hok|done|done|done]. }
  destruct Hdesc as (cur & -> & Hcur). cbv beta iota.
  destruct (entry_single g query vectors _ cur Hcur Hb) as [-> (Hne & Hnd & Hit)]. cbv beta iota.
  destruct (lookup_lt_is_Some_2 (layers g) 0 ltac:(lia)) as [l Hl].
  destruct (search_layer_beam_ok g query vectors (fun i => In i nodes) Hb 0 l Hl (go_layers _ _ Hok 0%nat l Hl) (Z.max k ef)
    [{| dist := dist_of g query vectors cur; id := cur |}]) as (v & res & -> & Hv' & Hnd' & Hit' & Hne' & _); [apply Hok|done..|].
  cbv beta iota. eexists v, _. split; [reflexivity|]. split; [|by apply answer_of_items].
  split; [apply Hok|cbn; by rewrite Eep|done].
Qed.

(** The graph of some rows of a buffer. *)
Definition hnsw_build (g : HnswGraph) (vectors : list f32) (ids : list nat) : result HnswGraph string :=
  fold_result (fun g i => hnsw_insert g i vectors) g ids.

Lemma hnsw_build_ok vectors ids nodes g :
  graph_ok nodes g -> ef_fits g -> in_buffer vectors (dim g) (ids ++ nodes) ->
  exists g', hnsw_build g vectors ids = Ok g' /\ graph_ok (rev ids ++ nodes) g' /\ settings g' = settings g.
Proof.
  unfold hnsw_build. revert nodes g. induction ids as [|i ids IH]; intros nodes g Hok Hef Hb; [by exists g|]. cbn [fold_result].
  destruct (hnsw_insert_ok nodes g i vectors) as (g1 & -> & Hok1 & Hs1); [done|done| |].
  { intros j Hj. apply Hb. cbn [app In] in *. rewrite in_app_iff. tauto. }
  assert (Hd : dim g1 = dim g) by (unfold settings in Hs1; congruence).
  destruct (IH (i :: nodes) g1 Hok1) as (g2 & Hrun & Hok2 & Hs2); [by eapply ef_fits_settings| |].
  { rewrite Hd. intros j Hj. apply Hb. cbn [app In]. rewrite !in_app_iff in *. cbn [In] in Hj. tauto. }
  exists g2. split_and!; [done| |congruence]. cbn [rev]. by rewrite <- app_assoc.
Qed.

Lemma hnsw_new_ok d mm ef mt : graph_ok [] (hnsw_new d mm ef mt).
Proof. split; cbn; [intros lc l; rewrite lookup_nil; done|done|apply visited_new_ok]. Qed.

(** A graph is built from rows of a buffer without a panic, and a search of it ends with at
    most [k] different rows, each with its distance from the query, the closest first, and with
    at least one when there is one; it leaves the graph as it was. *)
Theorem hnsw_build_search vectors ids d mm ef_c mt query k ef :
  (0 <= k)%Z -> (1 <= Z.max k ef)%Z -> heap_with_capacity (Z.max k ef) = Ok tt ->
  heap_with_capacity (Z.max ef_c 1) = Ok tt -> in_buffer vectors d ids ->
  exists g, hnsw_build (hnsw_new d mm ef_c mt) vectors ids = Ok g /\
    exists v out, hnsw_search g query k ef vectors = Ok (with_visited g v, out) /\ answer_ok g query vectors ids k out.
Proof.
  intros Hk Hef Hc1 Hc2 Hb.
  destruct (hnsw_build_ok vectors ids [] (hnsw_new d mm ef_c mt)) as (g & Hrun & Hok & Hs).
  - apply hnsw_new_ok.
  - split; [cbn; lia|done].
  - rewrite app_nil_r. done.
  - exists g. split; [done|]. rewrite app_nil_r in Hok.
    assert (Hd : dim g = d) by (unfold settings in Hs; cbn in Hs; congruence).
    destruct (hnsw_search_ok (rev ids) g query k ef vectors) as (v & out & Hr & _ & Ha);
      [done|intros i Hi; rewrite Hd; apply Hb; by apply in_rev|done|done|done|].
    exists v, out. split; [done|]. destruct Ha as [A1 A2 A3 A4 A5]. split; [done| |done| |].
    + intros i di Hi. apply A2 in Hi as [Hi ->]. by rewrite <- in_rev in Hi.
    + intros Hne. apply A4. intros E. apply Hne. rewrite <- (rev_involutive ids), E. done.
    + intros Hc. apply A5. intros i Hi. apply Hc. by apply in_rev.
Qed.
End Graph.
