(* ===== verification/HnswExact.v ===== *)
(** * Small graphs are searched exactly

    As long as no neighbour list of the lowest layer of a graph of
    [index/hnsw.rs] is pruned, that layer is a clique: every beam as wide as
    the graph visits all of it, at insertion and at search.  So with at most
    [2 m + 1] vectors the approximate search returns the nearest ones. *)

From Stdlib Require Import ZArith Lia String Permutation Sorted.
From S2P Require Import Prelude F64 F32 Bson Accumulators Hnsw.
From stdpp Require Import base tactics list.

Open Scope string_scope.
Open Scope list_scope.

Section FullBeam.
Context {SE : StdEnv} {SL : StdLaws SE} (g : HnswGraph) (query vectors : list f32) (nodes : list nat).
Context (Hrange : in_buffer vectors (dim g) nodes) (Hcmp : comparable g query vectors nodes) (Hnodes : List.NoDup nodes).
Context (lc : nat) (l : Layer) (Hl : layers g !! lc = Some l) (Hnb : layer_ok nodes l).
Context (ef : Z) (Hef : (1 <= ef)%Z) (Hwide : (Z.of_nat (length nodes) <= ef)%Z).

Abbreviation ok := (beam_ok g query vectors (fun i => In i nodes) ef).

(** Every visited node is a result. *)
Definition all_kept (b : beam) : Prop := forall i, visited_contains (seen b) i = true -> In i (map id (results b)).

Lemma results_bound b i : ok b -> In i nodes -> ~ In i (map id (results b)) -> (length (results b) < length nodes)%nat.
Proof.
  intros Hb Hi Hni. rewrite <- (length_map id).
  apply (NoDup_incl_length (l := i :: map id (results b)) (l' := nodes)); [constructor; [done|apply Hb]|].
  intros j [<-|Hj]; [done|]. apply in_map_iff in Hj as (h & <- & Hh). by apply (bo_results _ _ _ _ _ _ Hb).
Qed.

Lemma visit_kept b nbr :
  ok b -> all_kept b -> In (nb_id nbr) nodes -> In (nb_id nbr) (layer_ids g lc) ->
  exists b', visit_neighbor g query vectors ef b nbr = Ok b' /\ ok b' /\ all_kept b' /\
    (todo g lc b' <= todo g lc b)%nat /\
    (forall i, visited_contains (seen b') i = true <-> i = nb_id nbr \/ visited_contains (seen b) i = true) /\
    (forall i, visited_contains (seen b') i = true -> visited_contains (seen b) i = true \/ In i (map id (candidates b'))) /\
    (forall h, In h (candidates b) -> In h (candidates b')).
Proof.
  intros Hb Hk HP Hin.
  destruct (visit_neighbor_ok g query vectors (fun i => In i nodes) Hrange lc ef ef b nbr) as (b' & Hrun & Hb' & Ht & _);
    [lia|done|done|done|].
  exists b'. split; [done|]. split; [done|]. revert Hrun. unfold visit_neighbor.
  destruct (visited_contains (seen b) (nb_id nbr)) eqn:Ev.
  { intros [= <-]. split_and!; try done; [intros i; split; [by right|intros [->|?]; done]|by left]. }
  rewrite (distance_to_ok g query vectors (fun i => In i nodes)) by done.
  assert (Hni : ~ In (nb_id nbr) (map id (results b))).
  { intros Hi. apply in_map_iff in Hi as (h & Hid & Hh). apply (bo_results _ _ _ _ _ _ Hb) in Hh as [_ Hh].
    rewrite Hid in Hh. congruence. }
  pose proof (results_bound b _ Hb HP Hni) as Hlen. cbv beta iota.
  rewrite (proj2 (Z.ltb_lt (Z.of_nat (length (results b))) ef)) by lia. cbn [orb].
  rewrite (proj2 (Z.ltb_ge ef _)) by (rewrite length_app; simpl; lia).
  destruct (visited_insert_spec (seen b) (nb_id nbr)) as [_ Hc]; [apply Hb|]. intros [= <-]. cbn [seen candidates results] in *.
  split_and!; [|done|intros i; by rewrite Hc, orb_true_iff, Nat.eqb_eq, (eq_comm i)| |intros h Hh; apply in_app_iff; by left].
  - intros i Hi. cbn [seen results] in *. rewrite Hc in Hi. rewrite map_app, in_app_iff. apply orb_true_iff in Hi as [->%Nat.eqb_eq|Hi]; [right; by left|].
    left. by apply Hk.
  - intros i. rewrite Hc, map_app, in_app_iff. intros [->%Nat.eqb_eq|Hi]%orb_true_iff; [right; right; by left|by left].
Qed.

Lemma visit_all_kept nbs b :
  ok b -> all_kept b -> (forall nb, In nb nbs -> In (nb_id nb) nodes /\ In (nb_id nb) (layer_ids g lc)) ->
  exists b', fold_result (visit_neighbor g query vectors ef) b nbs = Ok b' /\ ok b' /\ all_kept b' /\
    (todo g lc b' <= todo g lc b)%nat /\
    (forall i, visited_contains (seen b) i = true \/ In i (map nb_id nbs) -> visited_contains (seen b') i = true) /\
    (forall i, visited_contains (seen b') i = true -> visited_contains (seen b) i = true \/ In i (map id (candidates b'))) /\
    (forall h, In h (candidates b) -> In h (candidates b')).
Proof.
  revert b. induction nbs as [|nb nbs IH]; intros b Hb Hk Hin.
  { exists b. split_and!; try done; [intros i [?|[]]; done|by left]. }
  cbn [fold_result]. destruct (Hin nb (or_introl eq_refl)) as [HP Hid].
  destruct (visit_kept b nb Hb Hk HP Hid) as (b1 & -> & Hb1 & Hk1 & Ht1 & Hv1 & Hn1 & Hc1).
  destruct (IH b1 Hb1 Hk1) as (b2 & -> & Hb2 & Hk2 & Ht2 & Hv2 & Hn2 & Hc2); [intros; apply Hin; by right|].
  exists b2. split_and!; [done|done|done|lia| | |auto].
  - intros i Hi. apply Hv2. rewrite Hv1. cbn [map In] in Hi. intuition.
  - intros i Hi. apply Hn2 in Hi as [Hi|Hi]; [|by right]. apply Hn1 in Hi as [Hi|Hi]; [by left|].
    right. apply in_map_iff in Hi as (h & <- & Hh). apply in_map. auto.
Qed.

(** Every visited node is a candidate or has its neighbours visited. *)
Definition expanded (b : beam) (i : nat) : Prop := forall nb, In nb (get_neighbors l i) -> visited_contains (seen b) (nb_id nb) = true.
Definition frontier (b : beam) : Prop :=
  forall i, visited_contains (seen b) i = true -> In i (map id (candidates b)) \/ expanded b i.

(** The farthest result is no closer than any result. *)
Lemma farthest_is_max b h : ok b -> In h (results b) -> f32_ltb (farthest_dist (results b)) (dist h) = false.
Proof.
  intros Hb Hh. destruct (f32_ltb _ _) eqn:E; [|done]. exfalso. unfold farthest_dist, heap_peek in E.
  assert (Hn : forall x, In x (results b) -> f32_is_nan (dist x) = false).
  { intros x Hx. destruct (bo_results _ _ _ _ _ _ Hb x Hx) as [[Hi ->] _]. by apply Hcmp. }
  destruct (heap_max_is_max _ (fun x : HeapItem => f32_is_nan (dist x) = false) max_cmp (results b)) as (top & Htop & Hmax).
  - apply (tp_pullback (fun x => f64_is_nan x = false) _ dist); [done|apply f64_cmp_tp].
  - by apply List.Forall_forall.
  - by destruct (results b).
  - rewrite Htop in E. apply f32_ltb_spec in E as (H1 & H2 & H3). apply (Hmax h Hh). unfold max_cmp.
    unfold f32_cmp_or_eq in *. rewrite (tp_sym _ _ f64_cmp_tp (dist top) (dist h)) by done. by rewrite H3.
Qed.

Lemma beam_loop_full fuel b :
  ok b -> all_kept b -> frontier b -> (todo g lc b <= fuel)%nat ->
  exists b', beam_loop g query vectors fuel ef lc b = Ok b' /\ ok b' /\ all_kept b' /\
    (forall i, visited_contains (seen b') i = true -> expanded b' i) /\
    (forall i, visited_contains (seen b) i = true -> visited_contains (seen b') i = true).
Proof.
  revert b. induction fuel as [|fuel IH]; intros b Hb Hk Hfr Hf;
    (destruct (candidates b) as [|c cs] eqn:Ec;
      [exists b; split; [cbn [beam_loop]; rewrite Ec, heap_pop_nil; done|]; split_and!; try done;
       intros i Hi; apply Hfr in Hi as [Hi|Hi]; [by rewrite Ec in Hi|done]|]).
  { unfold todo in Hf. rewrite Ec in Hf. simpl in Hf. lia. }
  cbn [beam_loop]. destruct (heap_pop_some min_cmp (candidates b)) as (top & rest & -> & _ & Hperm & Hsub & Hlen); [by rewrite Ec|].
  assert (Htop : In top (candidates b)) by (apply (Permutation_in _ (Permutation_sym Hperm)); by left).
  destruct (bo_candidates _ _ _ _ _ _ Hb top Htop) as [[HtopN HtopD] HtopV].
  set (b0 := {| seen := seen b; candidates := rest; results := results b |}).
  assert (Hb0 : ok b0).
  { destruct Hb as [Hs Hc Hr Hnd Hl0 Hne]. split; cbn [b0 seen candidates results]; try done. intros h Hh. by apply Hc, Hsub. }
  assert (Ht0 : (todo g lc b0 < todo g lc b)%nat) by (unfold todo; cbn [b0 seen candidates]; lia).
  assert (Hfar : f32_ltb (farthest_dist (results b)) (dist top) = false).
  { specialize (Hk _ HtopV). apply in_map_iff in Hk as (h & Hid & Hh). rewrite HtopD.
    destruct (bo_results _ _ _ _ _ _ Hb h Hh) as [[_ Hd] _]. rewrite <- Hid, <- Hd. by apply farthest_is_max. }
  cbn [b0 results]. rewrite Hfar, Hl. fold b0.
  destruct (visit_all_kept (get_neighbors l (id top)) b0 Hb0 Hk) as (b1 & -> & Hb1 & Hk1 & Ht1 & Hv1 & Hn1 & Hc1).
  { intros nb Hin. split; [by eapply Hnb|by eapply get_neighbors_layer_ids]. }
  assert (Hfr1 : frontier b1).
  { intros i Hi. apply Hn1 in Hi as [Hi|Hi]; [|by left]. cbn [b0 seen] in Hi.
    assert (Hexp : In i (map id (candidates b)) \/ expanded b i) by (by apply Hfr). destruct Hexp as [Hc|Hexp].
    - apply in_map_iff in Hc as (h & <- & Hh). apply (Permutation_in _ Hperm) in Hh as [<-|Hh].
      + right. intros nb Hin. apply Hv1. right. by apply in_map.
      + left. apply in_map, Hc1. done.
    - right. intros nb Hin. apply Hv1. left. by apply Hexp. }
  destruct (IH b1 Hb1 Hk1 Hfr1 ltac:(lia)) as (b2 & Hrun & Hb2 & Hk2 & He2 & Hv2). exists b2. split_and!; try done.
  intros i Hi. apply Hv2, Hv1. by left.
Qed.

(** A layer in which every two nodes are neighbours. *)
Definition clique_layer (ns : list nat) (ly : Layer) : Prop :=
  forall i, In i ns -> exists v, ly !! i = Some (Some v) /\ List.NoDup (map nb_id v) /\
    forall j, In j (map nb_id v) <-> In j ns /\ j <> i.

(** In a clique a wide beam finds every node. *)
Lemma search_clique eps :
  visited_ok (visited g) -> heap_with_capacity ef = Ok tt -> clique_layer nodes l ->
  entries_ok g query vectors nodes eps ->
  exists v res, search_layer_beam g query vectors eps ef lc = Ok (v, res) /\ visited_ok v /\
    List.NoDup (map id res) /\ (forall h, In h res -> item_ok g query vectors (fun i => In i nodes) h) /\
    Permutation (map id res) nodes.
Proof.
  intros Hv Hcap Hcl (Hne & Hnd & Hit). unfold search_layer_beam. rewrite Hcap. cbv beta iota.
  destruct (beam_start g query vectors (fun i => In i nodes) eps Hv Hne Hnd Hit) as (Hb & Hc & Hr & Hseen).
  set (b := fold_left enter eps _) in *.
  assert (Hleps : (length eps <= length nodes)%nat).
  { rewrite <- (length_map id). apply NoDup_incl_length; [done|]. intros i Hi. apply in_map_iff in Hi as (h & <- & Hh). by apply Hit. }
  apply (beam_ok_cap g query vectors (fun i => In i nodes) _ ef) in Hb; [|lia].
  destruct (beam_loop_full (length eps + length (layer_ids g lc)) b Hb) as (b' & -> & Hb' & Hk' & Hexp & Hmono).
  - intros i Hi. rewrite Hr. by apply Hseen.
  - intros i Hi. left. rewrite Hc. by apply Hseen.
  - unfold todo. rewrite Hc. pose proof (unvisited_le (seen b) (layer_ids g lc)). lia.
  - cbv beta iota. exists (seen b'), (heap_order (results b')). pose proof (heap_order_perm _ (results b')) as Hp.
    assert (Hnd' : List.NoDup (map id (heap_order (results b')))).
    { eapply Permutation_NoDup; [apply Permutation_map, Permutation_sym, Hp|apply Hb']. }
    assert (Hit' : forall h, In h (heap_order (results b')) -> item_ok g query vectors (fun i => In i nodes) h).
    { intros h Hh. apply (Permutation_in _ Hp) in Hh. by apply (bo_results _ _ _ _ _ _ Hb'). }
    split_and!; [done|apply Hb'|done|done|].
    apply Stdlib.Sorting.Permutation.NoDup_Permutation; [done|done|]. intros i. split.
    + intros Hi. apply in_map_iff in Hi as (h & <- & Hh). by apply Hit'.
    + intros Hi. apply (Permutation_in _ (Permutation_map id (Permutation_sym Hp))), Hk'.
      destruct eps as [|e eps]; [done|]. assert (Hve : visited_contains (seen b') (id e) = true) by (apply Hmono, Hseen; by left).
      destruct (Nat.eq_dec i (id e)) as [->|Hni]; [done|].
      destruct (Hcl (id e)) as (v & Hv0 & _ & Hin); [by apply Hit; left|].
      assert (Hiv : In i (map nb_id v)) by (by apply Hin). apply in_map_iff in Hiv as (nb & <- & Hnb0).
      apply (Hexp (id e) Hve). unfold get_neighbors. by rewrite Hv0.
Qed.
End FullBeam.

(** ** Insertion keeps the clique *)

Section Cliques.
Context {SE : StdEnv} {SL : StdLaws SE} {Ln : LnOps}.

Definition clique (nodes : list nat) (g : HnswGraph) : Prop :=
  nodes = [] \/ exists l, layers g !! 0%nat = Some l /\ clique_layer nodes l.

Lemma connect_back_push vectors d mt mm new (l : Layer) sel nbrs :
  l !! id sel = Some (Some nbrs) -> (Z.of_nat (length nbrs) < mm)%Z ->
  connect_back vectors d mt mm new l sel = Ok (<[id sel := Some (nbrs ++ [{| nb_id := new; nb_dist := dist sel |}])]> l).
Proof.
  intros Hs Hlt. unfold connect_back.
  assert (He : ensure_capacity l (id sel) = l).
  { unfold ensure_capacity. apply lookup_lt_Some in Hs as H. by rewrite (proj2 (Nat.leb_gt _ _)). }
  rewrite He, Hs. rewrite (proj2 (Z.ltb_ge _ _)) by (rewrite length_app; simpl; lia). done.
Qed.

Lemma connect_all_push vectors d mt mm new sels (l : Layer) :
  List.NoDup (map id sels) ->
  (forall h, In h sels -> exists nbrs, l !! id h = Some (Some nbrs) /\ (Z.of_nat (length nbrs) < mm)%Z) ->
  exists l', fold_result (connect_back vectors d mt mm new) l sels = Ok l' /\
    (forall h nbrs, In h sels -> l !! id h = Some (Some nbrs) ->
       l' !! id h = Some (Some (nbrs ++ [{| nb_id := new; nb_dist := dist h |}]))) /\
    (forall i, ~ In i (map id sels) -> l' !! i = l !! i).
Proof.
  revert l. induction sels as [|s sels IH]; intros l Hnd Hs; [by exists l|]. cbn [fold_result]. cbn [map] in Hnd.
  apply NoDup_cons_iff in Hnd as [Hni Hnd]. destruct (Hs s (or_introl eq_refl)) as (nbrs & Hn & Hlt).
  rewrite (connect_back_push _ _ _ _ _ _ _ _ Hn Hlt). cbv beta iota. set (l1 := <[id s := _]> l).
  assert (Hother : forall i, i <> id s -> l1 !! i = l !! i) by (intros i Hi; unfold l1; by rewrite list_lookup_insert_ne).
  destruct (IH l1 Hnd) as (l' & Hrun & Hin & Hout).
  { intros h Hh. destruct (Hs h (or_intror Hh)) as (nb & Hnb & Hl). exists nb. split; [|done]. rewrite Hother; [done|].
    intros E. apply Hni. rewrite <- E. by apply in_map. }
  exists l'. split_and!; [exact Hrun| |].
  - intros h nb [<-|Hh] Hnb.
    + rewrite Hout by done. rewrite Hn in Hnb. injection Hnb as <-. unfold l1. apply list_lookup_insert_eq. by eapply lookup_lt_Some.
    + apply Hin; [done|]. rewrite Hother; [done|]. intros E. apply Hni. rewrite <- E. by apply in_map.
  - intros i Hi. cbn [map In] in Hi. rewrite Hout by tauto. apply Hother. intros ->. tauto.
Qed.

Lemma clique_init nodes (l : Layer) new :
  ~ In new nodes -> clique_layer nodes l -> clique_layer nodes (init_node l new).
Proof.
  intros Hni Hcl i Hi. destruct (Hcl i Hi) as (v & Hv & Hnd & Hin). exists v. split; [|done]. unfold init_node.
  rewrite list_lookup_insert_ne by (intros ->; done). by apply ensure_lookup.
Qed.

Lemma ids_of_items (hs : list HeapItem) : map nb_id (map (fun h => {| nb_id := id h; nb_dist := dist h |}) hs) = map id hs.
Proof. by rewrite map_map. Qed.

(** A node connected to all of a clique, in both directions. *)
Lemma connect_clique nodes new query vectors g eps (l : Layer) :
  visited_ok (visited g) -> ef_fits g -> in_buffer vectors (dim g) nodes -> comparable g query vectors nodes ->
  List.NoDup (new :: nodes) -> nodes <> [] -> entries_ok g query vectors nodes eps ->
  layers g !! 0%nat = Some l -> l !! new = Some (Some []) -> layer_ok nodes l -> clique_layer nodes l ->
  (Z.of_nat (length nodes) <= m_max_0 g)%Z -> (Z.of_nat (length nodes) <= ef_construction g)%Z ->
  exists g' eps' l', connect_layer vectors query new (g, eps) 0 = Ok (g', eps') /\ layers g' !! 0%nat = Some l' /\
    clique_layer (new :: nodes) l'.
Proof.
  intros Hv [Hef Hcap] Hb Hc Hnd Hne Heps Hl Hnew Hok Hcl Hm Hw. apply NoDup_cons_iff in Hnd as [Hni Hnd].
  unfold connect_layer. cbn [Nat.eqb].
  destruct (search_clique g query vectors nodes Hb Hc Hnd 0 l Hl Hok (ef_construction g) Hef Hw eps Hv Hcap Hcl Heps)
    as (v & res & -> & Hv' & Hnd' & Hit & Hperm). cbv beta iota.
  destruct (select_neighbors_ok vectors (dim g) (metric g) res (m_max_0 g)) as (sel & -> & _ & Hsel).
  { intros h Hh. by apply Hb, Hit. }
  rewrite Hsel by (rewrite <- (length_map id), (Permutation_length Hperm); done). cbv beta iota. rewrite Hl, Hnew.
  set (l0 := <[new := _]> l). assert (Hlen : (new < length l)%nat) by (by eapply lookup_lt_Some).
  assert (Hold : forall i, In i nodes -> l0 !! i = l !! i).
  { intros i Hi. unfold l0. rewrite list_lookup_insert_ne; [done|]. by intros ->. }
  destruct (connect_all_push vectors (dim g) (metric g) (m_max_0 g) new res l0 Hnd') as (l1 & -> & Hin & Hout).
  { intros h Hh. destruct (Hit h Hh) as [Hi _]. destruct (Hcl (id h) Hi) as (w & Hw0 & Hndw & Hw1). exists w. rewrite Hold by done.
    split; [done|]. rewrite <- (length_map nb_id).
    assert (Hlt : (length (map nb_id w) < length nodes)%nat); [|lia].
    apply (NoDup_incl_length (l := id h :: map nb_id w) (l' := nodes)).
    - constructor; [|done]. intros Hx. by apply Hw1 in Hx as [_ Hx].
    - intros j [<-|Hj]; [done|]. by apply Hw1. }
  cbv beta iota. eexists _, _, l1. split; [reflexivity|]. cbn [layers with_visited with_layers].
  split; [apply list_lookup_insert_eq; by eapply lookup_lt_Some|]. intros i [<-|Hi].
  - exists (map (fun h => {| nb_id := id h; nb_dist := dist h |}) res). rewrite ids_of_items. split_and!; [|done|].
    + rewrite Hout by (intros Hx; apply (Permutation_in _ Hperm) in Hx; done). unfold l0. by apply list_lookup_insert_eq.
    + intros j. split.
      * intros Hj. apply (Permutation_in _ Hperm) in Hj. split; [by right|]. by intros ->.
      * intros [[<-|Hj] Hjn]; [done|]. by apply (Permutation_in _ (Permutation_sym Hperm)).
  - destruct (Hcl i Hi) as (w & Hw0 & Hndw & Hw1).
    assert (Hii : In i (map id res)) by (by apply (Permutation_in _ (Permutation_sym Hperm))).
    apply in_map_iff in Hii as (h & Hid & Hh). exists (w ++ [{| nb_id := new; nb_dist := dist h |}]). subst i.
    rewrite map_app. cbn [map]. split_and!.
    + apply Hin; [done|]. by rewrite Hold.
    + apply (NoDup_Add (a := new) (l := map nb_id w)); [rewrite <- (app_nil_r (map nb_id w)) at 1; apply Add_app|].
      split; [done|]. intros Hx. by apply Hw1 in Hx as [Hx _].
    + intros j. rewrite in_app_iff, Hw1. cbn [In nb_id]. split.
      * intros [[Hj1 Hj2]|[<-|[]]]; [split; [by right|done]|]. split; [by left|]. intros E. by rewrite E in Hni.
      * intros [[<-|Hj1] Hj2]; [right; by left|by left].
Qed.

Definition row (vectors : list f32) (d i : nat) : list f32 := take d (drop (i * d) vectors).

(** No distance between two of the rows is a NaN. *)
Definition pairwise (vectors : list f32) (d : nat) (mt : DistanceMetric) (nodes : list nat) : Prop :=
  forall i j, In i nodes -> In j nodes -> f32_is_nan (compute_distance (row vectors d i) (row vectors d j) mt) = false.

Lemma rev_seq_last n : rev (seq 0 (n + 1)) = rev (seq 1 n) ++ [0%nat].
Proof. rewrite Nat.add_comm. reflexivity. Qed.

Lemma insert_clique nodes g new vectors :
  graph_ok nodes g -> clique nodes g -> ef_fits g -> List.NoDup (new :: nodes) ->
  in_buffer vectors (dim g) (new :: nodes) -> pairwise vectors (dim g) (metric g) (new :: nodes) ->
  (Z.of_nat (length nodes) <= m_max_0 g)%Z -> (Z.of_nat (length nodes) <= ef_construction g)%Z ->
  exists g', hnsw_insert g new vectors = Ok g' /\ clique (new :: nodes) g'.
Proof.
  intros Hok Hcl Hef Hnd Hb Hpw Hm Hw. apply NoDup_cons_iff in Hnd as Hnd'. destruct Hnd' as [Hni Hnd0].
  unfold hnsw_insert. pose proof (add_node_ok nodes g new Hok) as Ha.
  destruct (add_node g new) as [g1 level]. destruct Ha as (Hset & Hep & Hlev & Hvis & Hlen & Hll & Hls & Hlo & Hhi).
  assert (Hd : dim g1 = dim g) by (unfold settings in Hset; congruence).
  assert (Hmt : metric g1 = metric g) by (unfold settings in Hset; congruence).
  assert (Hv1 : visited_ok (visited g1)) by (rewrite Hvis; apply Hok).
  destruct (Hlo 0%nat ltac:(lia)) as (l & l' & Hl & Hl1 & ->).
  pose proof (go_entry _ _ Hok) as He. rewrite Hep. destruct (entry_point g) as [ep|]; cycle 1.
  { subst nodes. eexists. split; [reflexivity|]. right. exists (init_node l new). split; [done|].
    intros i [<-|[]]. exists []. split_and!; [apply list_lookup_insert_eq, ensure_length|constructor|].
    intros j. split; [intros []|]. intros [[<-|[]] ?]. done. }
  destruct He as [Hin Hml]. rewrite <- Hd in Hb.
  assert (Hne : nodes <> []) by (intros ->; done).
  assert (Hbase : clique_layer nodes (init_node l new)).
  { destruct Hcl as [->|(lb & Hlb & Hcl)]; [done|]. destruct Hl as [Hl|[Hl _]]; [|congruence].
    rewrite Hlb in Hl. injection Hl as ->. by apply clique_init. }
  set (query := row vectors (dim g1) new).
  assert (Hq : vec_ref g1 vectors new = Ok query).
  { unfold vec_ref, slice, query, row. rewrite (proj2 (Nat.leb_le _ _)); [done|]. apply Hb. by left. }
  rewrite Hq. cbv beta iota.
  assert (Hb' : in_buffer vectors (dim g1) nodes) by (intros i Hi; apply Hb; by right).
  assert (Hdesc : exists i, (if (level <? max_level g1)%nat then descend g1 query vectors ep (level + 1) (max_level g1) else Ok ep) = Ok i
    /\ In i nodes).
  { destruct (_ <? _)%nat; [|by exists ep]. apply descend_ok; [done|done|done|rewrite Hlev; lia]. }
  destruct Hdesc as (cur & -> & Hcur). cbv beta iota. destruct (entry_single g1 query vectors _ cur Hcur Hb') as [-> Heps]. cbv beta iota.
  rewrite rev_seq_last, fold_result_app.
  destruct (connect_layers_ok nodes new query vectors g1 [{| dist := dist_of g1 query vectors cur; id := cur |}]
    (rev (seq 1 (level `min` max_level g1)))) as (g2 & eps2 & -> & Hs & Heps2 & Hf2); try done.
  { intros lc ly Hly i nb Hnb. right. by apply (Hls lc ly Hly i). }
  { by eapply ef_fits_settings. }
  { apply List.NoDup_rev, seq_NoDup. }
  { intros lc Hlc. apply in_rev, in_seq in Hlc. destruct (Hlo lc ltac:(lia)) as (ly & ly' & _ & Hly' & ->).
    eexists. split; [exact Hly'|]. split; [apply has_node_init|by eapply Hls]. }
  cbv beta iota. cbn [fold_result]. destruct Hs as [S1 S2 S3 S4 S5 S6 S7].
  assert (Hset2 : settings g2 = settings g) by congruence.
  assert (Hl2 : layers g2 !! 0%nat = Some (init_node l new)).
  { rewrite Hf2; [done|]. intros Hx. apply in_rev, in_seq in Hx. lia. }
  assert (Hd2 : dim g2 = dim g1) by (unfold settings in S1; congruence).
  assert (Hp2 : m_max_0 g2 = m_max_0 g /\ ef_construction g2 = ef_construction g /\ metric g2 = metric g)
    by (unfold settings in Hset2; split_and!; congruence).
  destruct Hp2 as (Hp3 & Hp4 & Hp5).
  destruct (connect_clique nodes new query vectors g2 eps2 (init_node l new)) as (g3 & eps3 & l3 & -> & Hl3 & Hcl3); try done.
  - by eapply ef_fits_settings.
  - by rewrite Hd2.
  - intros i Hi. unfold dist_of. rewrite Hd2, Hp5. unfold query. rewrite Hd. apply Hpw; [by left|by right].
  - unfold init_node. apply list_lookup_insert_eq, ensure_length.
  - by eapply Hls.
  - by rewrite Hp3.
  - by rewrite Hp4.
  - cbv beta iota. cbn [fst]. eexists. split; [reflexivity|]. right. exists l3. by destruct (_ <? _)%nat.
Qed.

Lemma build_clique vectors ids : forall nodes g,
  graph_ok nodes g -> clique nodes g -> ef_fits g -> List.NoDup (ids ++ nodes) ->
  in_buffer vectors (dim g) (ids ++ nodes) -> pairwise vectors (dim g) (metric g) (ids ++ nodes) ->
  (Z.of_nat (length (ids ++ nodes)) <= m_max_0 g + 1)%Z -> (Z.of_nat (length (ids ++ nodes)) <= ef_construction g + 1)%Z ->
  exists g', hnsw_build g vectors ids = Ok g' /\ graph_ok (rev ids ++ nodes) g' /\ clique (rev ids ++ nodes) g' /\ settings g' = settings g.
Proof.
  unfold hnsw_build. induction ids as [|i ids IH]; intros nodes g Hok Hcl Hef Hnd Hb Hpw Hm Hw; [by exists g|]. cbn [fold_result].
  assert (Hsub : forall j, In j (i :: nodes) -> In j ((i :: ids) ++ nodes)).
  { intros j Hj. cbn [app In] in *. rewrite in_app_iff. tauto. }
  assert (Hperm : Permutation ((i :: ids) ++ nodes) (ids ++ i :: nodes)) by (cbn [app]; apply Permutation_middle).
  assert (Hnd1 : List.NoDup (ids ++ i :: nodes)) by (by eapply Permutation_NoDup).
  assert (Hback : forall j, In j (ids ++ i :: nodes) -> In j ((i :: ids) ++ nodes)).
  { intros j. apply Permutation_in. by symmetry. }
  cbn [length app] in Hm, Hw. rewrite length_app in Hm, Hw.
  destruct (hnsw_insert_ok nodes g i vectors) as (g1 & Hrun & Hok1 & Hs1); [done|done|intros j Hj; by apply Hb, Hsub|].
  destruct (insert_clique nodes g i vectors) as (g1' & Hrun' & Hcl1); try done.
  { by eapply NoDup_app_remove_l. }
  { intros j Hj. by apply Hb, Hsub. }
  { intros j k Hj Hk. apply Hpw; by apply Hsub. }
  { lia. }
  { lia. }
  rewrite Hrun in Hrun'. injection Hrun' as <-. rewrite Hrun. cbv beta iota.
  assert (Hp : dim g1 = dim g /\ m_max_0 g1 = m_max_0 g /\ ef_construction g1 = ef_construction g /\ metric g1 = metric g)
    by (unfold settings in Hs1; split_and!; congruence). destruct Hp as (Hp1 & Hp2 & Hp3 & Hp4).
  destruct (IH (i :: nodes) g1) as (g2 & Hr2 & Hok2 & Hcl2 & Hs2); try done.
  - by eapply ef_fits_settings.
  - rewrite Hp1. intros j Hj. by apply Hb, Hback.
  - rewrite Hp1, Hp4. intros j k Hj Hk. apply Hpw; by apply Hback.
  - rewrite Hp2, length_app. cbn [length]. lia.
  - rewrite Hp3, length_app. cbn [length]. lia.
  - exists g2. cbn [rev]. rewrite <- app_assoc. split_and!; [done|done|done|congruence].
Qed.

(** With at most [2 m + 1] rows, and no more than [ef_construction + 1] and the width of
    the search, the search of the graph is exact: its answer is the beginning of the list of all
    rows, sorted by their distance from the query. *)
Theorem small_search_exact vectors ids d mm ef_c mt query k ef g :
  (0 <= k)%Z -> heap_with_capacity (Z.max k ef) = Ok tt -> heap_with_capacity (Z.max ef_c 1) = Ok tt ->
  in_buffer vectors d ids -> List.NoDup ids -> pairwise vectors d mt ids ->
  (forall i, In i ids -> f32_is_nan (compute_distance query (row vectors d i) mt) = false) ->
  (Z.max mm 2 < 2 ^ 63)%Z -> (Z.of_nat (length ids) <= 2 * Z.max mm 2 + 1)%Z ->
  (Z.of_nat (length ids) <= Z.max ef_c 1 + 1)%Z -> (1 <= Z.max k ef)%Z -> (Z.of_nat (length ids) <= Z.max k ef)%Z ->
  hnsw_build (hnsw_new d mm ef_c mt) vectors ids = Ok g ->
  exists v all, Permutation all (map (fun i => (i, compute_distance query (row vectors d i) mt)) ids) /\
    sorted_by by_distance all /\ hnsw_search g query k ef vectors = Ok (with_visited g v, iter_take k all).
Proof.
  intros Hk Hc1 Hc2 Hb Hnd Hpw Hnan Hmm Hl1 Hl2 Hef Hl3 Hg.
  destruct (build_clique vectors ids [] (hnsw_new d mm ef_c mt)) as (g' & Hrun & Hok & Hcl & Hs); rewrite ?app_nil_r.
  - apply hnsw_new_ok.
  - by left.
  - split; [cbn; lia|done].
  - done.
  - done.
  - done.
  - cbn [hnsw_new m_max_0]. unfold wrap_u64. rewrite Z.mod_small by lia. lia.
  - done.
  - rewrite Hg in Hrun. injection Hrun as <-. rewrite app_nil_r in *.
    assert (Hp : dim g = d /\ metric g = mt) by (unfold settings in Hs; cbn in Hs; split; congruence). destruct Hp as [Hd Hmt].
    assert (Hdist : forall i, dist_of g query vectors i = compute_distance query (row vectors d i) mt)
      by (intros i; unfold dist_of; by rewrite Hd, Hmt).
    assert (Hcmp : comparable g query vectors (rev ids)).
    { intros i Hi. rewrite Hdist. apply Hnan. by apply in_rev. }
    assert (Hb' : in_buffer vectors (dim g) (rev ids)) by (rewrite Hd; intros i Hi; apply Hb; by apply in_rev).
    unfold hnsw_search. pose proof (go_entry _ _ Hok) as He. destruct (entry_point g) as [ep|] eqn:Eep; cycle 1.
    { assert (ids = []) as -> by (rewrite <- (rev_involutive ids), He; done).
      exists (visited g), []. split; [done|]. split; [constructor|]. unfold iter_take. rewrite take_nil. by destruct g. }
    destruct He as [Hin Hml].
    assert (Hdesc : exists i, (if (0 <? max_level g)%nat then descend g query vectors ep 1 (max_level g) else Ok ep) = Ok i /\ In i (rev ids)).
    { destruct (_ <? _)%nat; [|by exists ep]. apply descend_ok; [apply Hok|done|done|done]. }
    destruct Hdesc as (cur & -> & Hcur). cbv beta iota. destruct (entry_single g query vectors _ cur Hcur Hb') as [-> Heps]. cbv beta iota.
    destruct Hcl as [Hnil|(l & Hl & Hcl)]; [by rewrite Hnil in Hin|].
    destruct (search_clique g query vectors (rev ids) Hb' Hcmp (List.NoDup_rev Hnd) 0 l Hl (go_layers _ _ Hok 0%nat l Hl) (Z.max k ef) Hef
      ltac:(rewrite length_rev; done) [{| dist := dist_of g query vectors cur; id := cur |}]) as (v & res & -> & _ & Hnd' & Hit & Hperm);
      [apply Hok|done|done|done|]. cbv beta iota.
    set (items := map (fun h => (id h, dist h)) res). exists v, (sort_by by_distance items). split_and!; [| |done].
    + rewrite <- sort_by_perm.
      assert (Hitems : items = map (fun i => (i, compute_distance query (row vectors d i) mt)) (map id res)).
      { unfold items. rewrite map_map. apply map_ext_in. intros h Hh. destruct (Hit h Hh) as [_ ->]. by rewrite Hdist. }
      rewrite Hitems. apply Permutation_map. rewrite Hperm. symmetry. apply Permutation_rev.
    + apply (sort_by_sorted _ _ _ hnsw_order_tp), List.Forall_forall. intros [i di] Hi.
      apply in_map_iff in Hi as (h & [= <- <-] & Hh). destruct (Hit h Hh) as [Hi ->]. by apply Hcmp.
Qed.
End Cliques.

(** ** Witnesses *)

Module RefLn.
(** A function of the shape of the logarithm, so that the levels of the nodes differ. *)
#[export] Instance ln : LnOps := {| f64_ln x := f64_sub f64_one (f64_div f64_one x) |}.
End RefLn.

Section HnswWitness.
Import RefStd RefLn.

Definition floats (l : list Z) : list f32 := map (fun n => f32_of_f64 (f64_of_Z n)) l.

(** Five points of the plane. *)
Definition points : list f32 := floats [0; 0; 3; 4; 1; 1; 10; 0; 2; 2]%Z.
Definition point_ids : list nat := [0; 1; 2; 3; 4]%nat.
Definition origin : list f32 := floats [0; 0]%Z.

Lemma points_buffer : in_buffer points 2 point_ids.
Proof. intros i Hi. apply Nat.leb_le. repeat (destruct Hi as [<-|Hi]; [reflexivity|]). destruct Hi. Qed.

Lemma hnsw_build_search_witness :
  exists g, hnsw_build (hnsw_new 2 16 200 Euclidean) points point_ids = Ok g /\
    exists v out, hnsw_search g origin 3 64 points = Ok (with_visited g v, out) /\
      answer_ok g origin points point_ids 3 out.
Proof.
  apply (hnsw_build_search points point_ids 2 16 200 Euclidean origin 3 64).
  - lia.
  - lia.
  - vm_compute. reflexivity.
  - vm_compute. reflexivity.
  - exact points_buffer.
Defined.

Definition point_graph : HnswGraph :=
  match hnsw_build (hnsw_new 2 16 200 Euclidean) points point_ids with Ok g => g | Err _ => hnsw_new 2 16 200 Euclidean end.

Lemma small_search_exact_witness :
  exists v all, Permutation all (map (fun i => (i, compute_distance origin (row points 2 i) Euclidean)) point_ids) /\
    sorted_by by_distance all /\ hnsw_search point_graph origin 3 64 points = Ok (with_visited point_graph v, iter_take 3 all).
Proof.
  apply (small_search_exact points point_ids 2 16 200 Euclidean origin 3 64 point_graph).
  - lia.
  - vm_compute. reflexivity.
  - vm_compute. reflexivity.
  - exact points_buffer.
  - repeat constructor; cbn; intuition discriminate.
  - intros i j Hi Hj.
    assert (H : forallb (fun i => forallb (fun j => negb (f32_is_nan (compute_distance (row points 2 i) (row points 2 j) Euclidean)))
                           point_ids) point_ids = true) by (vm_compute; reflexivity).
    rewrite forallb_forall in H. specialize (H i Hi). rewrite forallb_forall in H. by apply negb_true_iff, H.
  - intros i Hi.
    assert (H : forallb (fun i => negb (f32_is_nan (compute_distance origin (row points 2 i) Euclidean))) point_ids = true)
      by (vm_compute; reflexivity).
    rewrite forallb_forall in H. by apply negb_true_iff, H.
  - lia.
  - cbn. lia.
  - cbn. lia.
  - lia.
  - cbn. lia.
  - vm_compute. reflexivity.
Defined.

(** The nearest three, and the layers of the graph. *)
Example nearest_points :
  match hnsw_search point_graph origin 3 64 points with
  | Ok (_, out) => map fst out = [0; 2; 4]%nat
  | Err _ => False
  end /\ map length (layers point_graph) <> [].
Proof. vm_compute. split; [reflexivity|discriminate]. Qed.

(** A beam wider than memory cannot be allocated: the search panics. *)
Theorem wide_beam_panics :
  hnsw_search point_graph origin i64_max 64 points = Err "capacity overflow".
Proof. vm_compute. reflexivity. Qed.
End HnswWitness.
