(* ===== verification/Stages.v ===== *)
(** * Pipeline stages

    [src/rust/smongo-engine/src/aggregation/stages.rs]: the stages on one input,
    each in its batch form (all documents at once) and, where the source has
    one, its streaming form (an iterator adapter).  An iterator of results is
    the list of the results it would yield; a panic of an adapter is the item
    at which it strikes.  The join stages are in [Joins], the window functions
    in [Window]. *)

From Stdlib Require Import ZArith Lia Ascii String Strings.Byte Permutation Sorted.
From S2P Require Import Prelude F64 Bson RefBson Paths Geo Query Update Schema Collation Expressions Accumulators.
From stdpp Require Import base tactics list strings.

Open Scope string_scope.
Open Scope list_scope.

(** Source: aggregation/mod.rs:33-33 (DocStream). *)
Definition DocStream : Type := list (result document agg_failure).

(** Source: aggregation/mod.rs:36-36 (DEFAULT_MEMORY_LIMIT_BYTES). *)
Definition DEFAULT_MEMORY_LIMIT_BYTES : Z := 100 * 1024 * 1024.

Definition invalid_stage {X} (msg : string) : result X agg_failure := Err (AggErr (InvalidStage msg)).
Definition missing_field {X} (msg : string) : result X agg_failure := Err (AggErr (MissingField msg)).

(** [docs.into_iter().map(Ok)]. *)
Definition stream_of (docs : list document) : DocStream := map Ok docs.

(** [stream.collect::<Result<Vec<_>, _>>()]: up to the first error. *)
Definition collect (s : DocStream) : result (list document) agg_failure := map_result (fun r => r) s.

Section Stages.
Context {B : BsonOps} {Lm : Libm} {G : S2} {T : TextEnv} {FP : F64Parse} {A : AggEnv} {SE : StdEnv}.
#[local] Existing Instance engine.

(** Source: aggregation/mod.rs:943-955 (bson_to_key_string). *)
Definition bson_to_key_string (b : bson) : string :=
  match b with
  | BString s => ("s:" ++ s)%string
  | BInt32 n | BInt64 n => ("n:" ++ f64_display (f64_of_Z n))%string
  | BDouble n => ("n:" ++ f64_display n)%string
  | BBoolean b => ("bool:" ++ (if b then "true" else "false"))%string
  | BNull => "null"
  | BObjectId oid => ("oid:" ++ oid_to_hex oid)%string
  | BDocument d => ("doc:" ++ bson_debug (BDocument d))%string
  | _ => bson_debug b
  end.

(** ** Batch stages *)

(** [eval_query(doc, filter).unwrap_or(false)]. *)
Definition matches_or_false (doc filter : document) : result bool agg_failure :=
  map_err agg_of_error (unwrap_or (eval_query doc filter) false).

(** Source: aggregation/stages.rs:31-40 (stage_match). *)
Definition stage_match (docs : list document) (filter : bson) : result (list document) agg_failure :=
  match filter with
  | BDocument filter_doc => filter_result (fun doc => matches_or_false doc filter_doc) docs
  | _ => invalid_stage "$match requires document"
  end.

(** [Bson::Int32(0) | Bson::Int64(0) | Bson::Boolean(false)]. *)
Definition is_exclusion (v : bson) : bool :=
  match v with BInt32 n | BInt64 n => (n =? 0)%Z | BBoolean b => negb b | _ => false end.

(** [Bson::Int32(1) | Bson::Int64(1) | Bson::Boolean(true)]. *)
Definition is_inclusion (v : bson) : bool :=
  match v with BInt32 n | BInt64 n => (n =? 1)%Z | BBoolean b => b | _ => false end.

(** Source: aggregation/stages.rs:51-53 (stage_project). *)
Definition has_exclusion (proj_doc : document) : bool :=
  existsb (fun '(k, v) => negb (k =s? "_id") && is_exclusion v) proj_doc.

(** Source: aggregation/stages.rs:55-58 (stage_project). *)
Definition id_excluded (proj_doc : document) : bool :=
  match doc_get proj_doc "_id" with Some v => is_exclusion v | None => false end.

(** Source: aggregation/stages.rs:64-82 (stage_project). *)
Definition project_excluding (proj_doc doc : document) : result document agg_failure :=
  let? nd := fold_result (fun nd '(field, value) =>
      if field =s? "_id" then Ok nd
      else if is_exclusion value then Ok (doc_remove nd field)
      else let? val := evaluate_expression doc value in Ok (doc_insert nd field val)) doc proj_doc in
  Ok (if id_excluded proj_doc then doc_remove nd "_id" else nd).

(** Source: aggregation/stages.rs:84-106 (stage_project). *)
Definition project_including (proj_doc doc : document) : result document agg_failure :=
  let nd := if id_excluded proj_doc then []
            else match doc_get doc "_id" with Some id => doc_insert [] "_id" id | None => [] end in
  fold_result (fun nd '(field, value) =>
      if field =s? "_id" then Ok nd
      else if is_inclusion value then
        Ok (match get_value doc field with Some val => doc_insert nd field val | None => nd end)
      else let? val := evaluate_expression doc value in Ok (doc_insert nd field val)) nd proj_doc.

(** Source: aggregation/stages.rs:46-113 (stage_project). *)
Definition stage_project (docs : list document) (projection : bson) : result (list document) agg_failure :=
  match projection with
  | BDocument proj_doc =>
      map_result (fun doc => if has_exclusion proj_doc then project_excluding proj_doc doc
                             else project_including proj_doc doc) docs
  | _ => invalid_stage "$project requires document"
  end.

(** [v.as_i64().or_else(|| v.as_i32().map(|i| i as i64)) .. as usize]. *)
Definition as_count (v : bson) : option Z := option_map wrap_u64 (int_as_i64 v).

(** Source: aggregation/stages.rs:119-125 (stage_limit). *)
Definition stage_limit (docs : list document) (limit : bson) : result (list document) agg_failure :=
  match as_count limit with
  | Some n => Ok (iter_take n docs)
  | None => invalid_stage "$limit requires number"
  end.

(** Source: aggregation/stages.rs:127-133 (stage_skip). *)
Definition stage_skip (docs : list document) (skip : bson) : result (list document) agg_failure :=
  match as_count skip with
  | Some n => Ok (iter_skip n docs)
  | None => invalid_stage "$skip requires number"
  end.

(** Source: aggregation/stages.rs:139-159 (stage_sort). *)
Definition stage_sort (docs : list document) (sort_spec : bson) : result (list document) agg_failure :=
  match sort_spec with
  | BDocument sort_doc => Ok (sort_by (sort_docs_cmp sort_doc) docs)
  | _ => invalid_stage "$sort requires document"
  end.

(** [groups.entry(key).or_insert_with(..).1.push(doc)], on the entries in the order
    of their first insertion. *)
Fixpoint push_group {K D} (groups : list (string * (K * list D))) (key : string) (id : K) (doc : D)
  : list (string * (K * list D)) :=
  match groups with
  | [] => [(key, (id, [doc]))]
  | (k, (i, ds)) :: rest =>
      if k =s? key then (k, (i, ds ++ [doc])) :: rest else (k, (i, ds)) :: push_group rest key id doc
  end.

(** Source: aggregation/stages.rs:176-184 (stage_group). *)
Definition group_docs (id_expr : bson) (docs : list document)
  : result (list (string * (bson * list document))) agg_failure :=
  fold_result (fun groups doc =>
    let? group_key := evaluate_expression doc id_expr in
    Ok (push_group groups (bson_to_key_string group_key) group_key doc)) [] docs.

(** Source: aggregation/stages.rs:188-199 (stage_group). *)
Definition group_result (group_doc : document) (id_val : bson) (docs : list document)
  : result document agg_failure :=
  fold_result (fun result_doc '(field, accumulator) =>
    if field =s? "_id" then Ok result_doc
    else let? value := evaluate_accumulator docs accumulator in
         Ok (doc_insert result_doc field value)) (doc_insert [] "_id" id_val) group_doc.

(** Source: aggregation/stages.rs:165-203 (stage_group). The entries come out in the order
    of the hash map. *)
Definition stage_group (docs : list document) (group_spec : bson) : result (list document) agg_failure :=
  match group_spec with
  | BDocument group_doc =>
      match doc_get group_doc "_id" with
      | None => missing_field "_id required in $group"
      | Some id_expr =>
          let? groups := group_docs id_expr docs in
          map_result (fun '(_, (id_val, group_docs)) => group_result group_doc id_val group_docs)
            (hash_order groups)
      end
  | _ => invalid_stage "$group requires document"
  end.

(** Source: aggregation/stages.rs:209-217 (stage_count). *)
Definition stage_count (docs : list document) (field_name : bson) : result (list document) agg_failure :=
  match field_name with
  | BString name => Ok [doc_insert [] name (BInt32 (wrap_i32 (Z.of_nat (length docs))))]
  | _ => invalid_stage "$count requires string"
  end.

(** Source: aggregation/stages.rs:1304-1323 (parse_unwind_spec). *)
Definition parse_unwind_spec (spec : bson) : result (string * bool * option string) agg_failure :=
  let strip p := match Prelude.strip_prefix "$" p with Some q => q | None => p end in
  match spec with
  | BString s => Ok (strip s, false, None)
  | BDocument d =>
      match doc_get_as as_str d "path" with
      | Err _ => missing_field "$unwind requires path"
      | Ok path =>
          Ok (strip path,
              match doc_get_as as_bool d "preserveNullAndEmptyArrays" with Ok b => b | Err _ => false end,
              match doc_get_as as_str d "includeArrayIndex" with Ok s => Some s | Err _ => None end)
      end
  | _ => invalid_stage "$unwind requires string or document"
  end.

(** [let _ = set_value(..)] and [let _ = unset_value(..)]. *)
Definition set_ignored (doc : document) (path : string) (v : bson) : document :=
  match set_value doc path v with Ok d => d | Err _ => doc end.
Definition unset_ignored (doc : document) (path : string) : document :=
  match unset_value doc path with Ok d => d | Err _ => doc end.

(** [if let Some(ref idx_field) = include_index { new_doc.insert(..) }]. *)
Definition with_index (include_index : option string) (v : bson) (doc : document) : document :=
  match include_index with Some idx_field => doc_insert doc idx_field v | None => doc end.

(** Source: aggregation/stages.rs:1325-1389 (unwind_single_doc). The last element reuses the
    document instead of cloning it. *)
Definition unwind_single_doc (doc : document) (path : string) (preserve_null : bool)
  (include_index : option string) : list document :=
  match get_value doc path with
  | Some (BArray []) =>
      if preserve_null then [with_index include_index BNull (unset_ignored doc path)] else []
  | Some (BArray arr) =>
      imap (fun i item => with_index include_index (BInt64 (wrap_i64 (Z.of_nat i))) (set_ignored doc path item)) arr
  | Some BNull | None => if preserve_null then [with_index include_index BNull doc] else []
  | Some scalar => [with_index include_index BNull (set_ignored doc path scalar)]
  end.

(** Source: aggregation/stages.rs:247-291 (stage_unwind). The results one document adds. *)
Definition unwind_doc (doc : document) (path : string) (preserve_null : bool)
  (include_index : option string) (results : list document) : list document :=
  match get_value doc path with
  | Some (BArray arr) =>
      match arr with
      | [] => if preserve_null
              then results ++ [with_index include_index BNull (unset_ignored doc path)] else results
      | _ => snd (fold_left (fun '(i, results) item =>
               ((i + 1)%Z, results ++ [with_index include_index (BInt64 (wrap_i64 i)) (set_ignored doc path item)]))
               arr (0%Z, results))
      end
  | Some BNull | None => if preserve_null then results ++ [with_index include_index BNull doc] else results
  | Some scalar => results ++ [with_index include_index BNull (set_ignored doc path scalar)]
  end.

(** Source: aggregation/stages.rs:223-293 (stage_unwind). *)
Definition stage_unwind (docs : list document) (spec : bson) : result (list document) agg_failure :=
  let? (path, preserve_null, include_index) := parse_unwind_spec spec in
  Ok (fold_left (fun results doc => unwind_doc doc path preserve_null include_index results) docs []).

(** Source: aggregation/stages.rs:299-317 (stage_add_fields). *)
Definition stage_add_fields (docs : list document) (fields_spec : bson) : result (list document) agg_failure :=
  match fields_spec with
  | BDocument fields =>
      map_result (fun doc =>
        fold_result (fun new_doc '(field, expr) =>
          let? val := evaluate_expression doc expr in Ok (set_ignored new_doc field val)) doc fields) docs
  | _ => invalid_stage "$addFields requires document"
  end.

(** Source: aggregation/stages.rs:324-335 (stage_unset). *)
Definition unset_fields (spec : bson) : result (list string) agg_failure :=
  match spec with
  | BString s => Ok [s]
  | BArray arr => Ok (omap as_str arr)
  | _ => invalid_stage "$unset requires string or array"
  end.

(** Source: aggregation/stages.rs:323-346 (stage_unset). *)
Definition stage_unset (docs : list document) (spec : bson) : result (list document) agg_failure :=
  let? fields := unset_fields spec in
  Ok (map (fun doc => fold_left unset_ignored fields doc) docs).

(** Source: aggregation/stages.rs:353-356 (stage_replace_root). *)
Definition new_root_expr (spec : bson) : bson :=
  match spec with
  | BDocument d => match doc_get d "newRoot" with Some e => e | None => spec end
  | _ => spec
  end.

(** Source: aggregation/stages.rs:360-368 (stage_replace_root). *)
Definition replace_root (expr : bson) (doc : document) : result document agg_failure :=
  let? val := evaluate_expression doc expr in
  match val with
  | BDocument d => Ok d
  | _ => Err (AggErr (TypeError "$replaceRoot expression must evaluate to a document"))
  end.

(** Source: aggregation/stages.rs:352-371 (stage_replace_root). *)
Definition stage_replace_root (docs : list document) (spec : bson) : result (list document) agg_failure :=
  map_result (replace_root (new_root_expr spec)) docs.

(** Source: aggregation/stages.rs:377-393 (stage_sample). *)
Definition stage_sample (docs : list document) (spec : bson) : result (list document) agg_failure :=
  match spec with
  | BDocument size_doc =>
      match and_then (doc_get size_doc "size") as_count with
      | Some size => Ok (iter_take size (shuffle docs))
      | None => missing_field "$sample.size required"
      end
  | _ => invalid_stage "$sample requires document"
  end.

(** Source: aggregation/stages.rs:426-438 (redact_doc). An element of an array. *)
Definition redact_item (redact : bson -> result (option document) agg_failure)
  (new_arr : list bson) (item : bson) : result (list bson) agg_failure :=
  match item with
  | BDocument _ =>
      let? r := redact item in
      Ok (match r with Some redacted => new_arr ++ [BDocument redacted] | None => new_arr end)
  | _ => Ok (new_arr ++ [item])
  end.

(** Source: aggregation/stages.rs:419-443 (redact_doc). A field of a document that is descended. *)
Definition redact_field (redact : bson -> result (option document) agg_failure)
  (new_doc : document) (kv : string * bson) : result document agg_failure :=
  match snd kv with
  | BDocument _ =>
      let? r := redact (snd kv) in
      Ok (match r with Some redacted => doc_insert new_doc (fst kv) (BDocument redacted) | None => new_doc end)
  | BArray arr =>
      let? new_arr := fold_result (redact_item redact) [] arr in
      Ok (doc_insert new_doc (fst kv) (BArray new_arr))
  | val => Ok (doc_insert new_doc (fst kv) val)
  end.

(** Source: aggregation/stages.rs:410-413 (redact_doc). *)
Definition redact_verdict (expr : bson) (doc : document) : result bson agg_failure :=
  match expr with
  | BString s => if starts_with "$$" s then Ok expr else evaluate_expression doc expr
  | _ => evaluate_expression doc expr
  end.

(** Source: aggregation/stages.rs:409-450 (redact_doc). The document is a [BDocument]. *)
Fixpoint redact_bson (expr v : bson) {struct v} : result (option document) agg_failure :=
  match v with
  | BDocument doc =>
      let? result := redact_verdict expr doc in
      let verdict := match as_str result with Some s => s | None => "" end in
      if verdict =s? "$$KEEP" then Ok (Some doc)
      else if verdict =s? "$$PRUNE" then Ok None
      else if verdict =s? "$$DESCEND" then
        let? new_doc := fold_result (redact_field (redact_bson expr)) [] doc in
        Ok (Some new_doc)
      else invalid_stage "$redact expression must resolve to $$KEEP, $$PRUNE, or $$DESCEND"
  | _ => Ok None
  end.

(** Source: aggregation/stages.rs:409-450 (redact_doc). *)
Definition redact_doc (doc : document) (expr : bson) : result (option document) agg_failure :=
  redact_bson expr (BDocument doc).

(** Source: aggregation/stages.rs:399-407 (stage_redact). *)
Definition stage_redact (docs : list document) (expr : bson) : result (list document) agg_failure :=
  fold_result (fun results doc =>
    let? r := redact_doc doc expr in
    Ok (match r with Some redacted => results ++ [redacted] | None => results end)) [] docs.

(** Source: aggregation/stages.rs:456-463 (stage_sort_by_count). *)
Definition stage_sort_by_count (docs : list document) (expr : bson) : result (list document) agg_failure :=
  let? grouped := stage_group docs
    (BDocument [("_id", expr); ("count", BDocument [("$sum", BInt32 1)])]) in
  stage_sort grouped (BDocument [("count", BInt32 (-1))]).

(** ** Buckets *)

(** The fields of one bucket: the [output] accumulators, or the count. *)
Definition bucket_fields (output_spec : option document) (docs : list document) (result_doc : document)
  : result document agg_failure :=
  match output_spec with
  | Some output =>
      fold_result (fun result_doc '(field, acc) =>
        let? v := evaluate_accumulator docs acc in Ok (doc_insert result_doc field v)) result_doc output
  | None => Ok (doc_insert result_doc "count" (BInt32 (wrap_i32 (Z.of_nat (length docs)))))
  end.

(** [slice::partition_point]: a binary search for the first element that fails [pred]. *)
Definition partition_point {X} (pred : X -> bool) (l : list X) : nat :=
  match binary_search_by (fun x => if pred x then Lt else Gt) l with Ok i | Err i => i end.

(** Source: aggregation/stages.rs:496-518 (stage_bucket). One document: the entries of
    [buckets], and [default_docs]. *)
Definition bucket_step (group_by : bson) (boundary_vals : list f64) (has_default : bool)
  (st : list (string * (unit * list document)) * list document) (doc : document)
  : result (list (string * (unit * list document)) * list document) agg_failure :=
  let? val := evaluate_expression doc group_by in
  let '(buckets, default_docs) := st in
  let to_default := (buckets, if has_default then default_docs ++ [doc] else default_docs) in
  match bson_to_f64 val with
  | Some n =>
      let idx := partition_point (fun b => f64_leb b n) boundary_vals in
      if (0 <? idx)%nat && (idx <? length boundary_vals)%nat then
        match boundary_vals !! (idx - 1)%nat with
        | Some b => Ok (push_group buckets (f64_display b) tt doc, default_docs)
        | None => Err (AggPanic "index out of bounds")
        end
      else Ok to_default
  | None => Ok to_default
  end.

(** [buckets.remove(&key).unwrap_or_default()]. *)
Fixpoint take_bucket (buckets : list (string * (unit * list document))) (key : string)
  : list document * list (string * (unit * list document)) :=
  match buckets with
  | [] => ([], [])
  | (k, (u, ds)) :: rest =>
      if k =s? key then (ds, rest)
      else let '(found, rest') := take_bucket rest key in (found, (k, (u, ds)) :: rest')
  end.

(** Source: aggregation/stages.rs:521-535 (stage_bucket). *)
Definition bucket_results (output_spec : option document)
  (buckets : list (string * (unit * list document))) (bounds : list f64)
  : result (list (string * (unit * list document)) * list document) agg_failure :=
  fold_result (fun '(buckets, results) bval =>
    let '(bucket_docs, buckets) := take_bucket buckets (f64_display bval) in
    let? result_doc := bucket_fields output_spec bucket_docs (doc_insert [] "_id" (BDouble bval)) in
    Ok (buckets, results ++ [result_doc])) (buckets, []) bounds.

(** Source: aggregation/stages.rs:469-548 (stage_bucket). *)
Definition stage_bucket (docs : list document) (spec : bson) : result (list document) agg_failure :=
  match spec with
  | BDocument bucket_doc =>
      match doc_get bucket_doc "groupBy" with
      | None => missing_field "$bucket.groupBy required"
      | Some group_by =>
          match doc_get_as as_array_opt bucket_doc "boundaries" with
          | Err _ => missing_field "$bucket.boundaries required"
          | Ok boundaries =>
              let default_bucket := doc_get bucket_doc "default" in
              let output_spec := match doc_get_as as_document bucket_doc "output" with
                                 | Ok o => Some o | Err _ => None end in
              let boundary_vals := omap bson_to_f64 boundaries in
              if (length boundary_vals <? 2)%nat then invalid_stage "$bucket requires at least 2 boundaries"
              else
                let? (buckets, default_docs) :=
                  fold_result (bucket_step group_by boundary_vals (is_some default_bucket)) ([], []) docs in
                let? (_, results) := bucket_results output_spec buckets (removelast boundary_vals) in
                match default_bucket, default_docs with
                | Some def, _ :: _ =>
                    let? result_doc := bucket_fields output_spec default_docs (doc_insert [] "_id" def) in
                    Ok (results ++ [result_doc])
                | _, _ => Ok results
                end
          end
      end
  | _ => invalid_stage "$bucket requires document"
  end.

(** Source: aggregation/stages.rs:588-614 (stage_bucket_auto). The loop over the documents from
    position [i] on; [per_bucket] is positive, so their number bounds the rounds. *)
Fixpoint auto_loop (fuel : nat) (output_spec : option document) (per_bucket : nat)
  (rest : list (f64 * document)) : result (list document) agg_failure :=
  match fuel, rest with
  | _, [] => Ok []
  | O, _ => Err (AggPanic "out of fuel")
  | S fuel, (min_val, _) :: _ =>
      let chunk := take per_bucket rest in
      let next := drop per_bucket rest in
      let max_val := match next with
                     | (v, _) :: _ => v
                     | [] => match last rest with Some (v, _) => v | None => min_val end
                     end in
      let? result_doc := bucket_fields output_spec (map snd chunk)
        (doc_insert [] "_id" (BDocument [("min", BDouble min_val); ("max", BDouble max_val)])) in
      let? results := auto_loop fuel output_spec per_bucket next in
      Ok (result_doc :: results)
  end.

(** Source: aggregation/stages.rs:569-575 (stage_bucket_auto). *)
Definition valued_docs (group_by : bson) (docs : list document) : result (list (f64 * document)) agg_failure :=
  fold_result (fun valued doc =>
    let? val := evaluate_expression doc group_by in
    Ok (match bson_to_f64 val with Some n => valued ++ [(n, doc)] | None => valued end)) [] docs.

(** Source: aggregation/stages.rs:580-584 (stage_bucket_auto). [div_ceil]. *)
Definition per_bucket (total num_buckets : Z) : Z :=
  if (0 <? num_buckets)%Z then (total / num_buckets + (if (total mod num_buckets =? 0)%Z then 0 else 1))%Z
  else total.

(** Source: aggregation/stages.rs:554-617 (stage_bucket_auto). *)
Definition stage_bucket_auto (docs : list document) (spec : bson) : result (list document) agg_failure :=
  match spec with
  | BDocument auto_doc =>
      match doc_get auto_doc "groupBy" with
      | None => missing_field "$bucketAuto.groupBy required"
      | Some group_by =>
          match and_then (doc_get auto_doc "buckets") as_count with
          | None => missing_field "$bucketAuto.buckets required"
          | Some num_buckets =>
              let output_spec := match doc_get_as as_document auto_doc "output" with
                                 | Ok o => Some o | Err _ => None end in
              let? valued := valued_docs group_by docs in
              let valued := sort_by (fun a b => f64_cmp_or_eq (fst a) (fst b)) valued in
              let per := per_bucket (Z.of_nat (length valued)) num_buckets in
              auto_loop (length valued) output_spec (Z.to_nat per) valued
          end
      end
  | _ => invalid_stage "$bucketAuto requires document"
  end.

(** ** Streaming stages *)

(** Source: aggregation/stages.rs:1183-1197 (stage_match_stream). *)
Definition stage_match_stream (input : DocStream) (filter : bson) : result DocStream agg_failure :=
  match filter with
  | BDocument filter_doc =>
      Ok (omap (fun r : result document agg_failure =>
            match r with
            | Err e => Some (Err e)
            | Ok doc => match eval_query doc filter_doc with
                        | Ok true => Some (Ok doc)
                        | Ok false => None
                        | Err e => Some (Err (agg_of_error e))
                        end
            end) input)
  | _ => invalid_stage "$match requires document"
  end.

(** Source: aggregation/stages.rs:1216-1247 (stage_project_stream). *)
Definition project_excluding_stream (proj_doc doc : document) : result document agg_failure :=
  let? computed := fold_result (fun computed '(field, value) =>
      if (field =s? "_id") || is_exclusion value then Ok computed
      else let? val := evaluate_expression doc value in Ok (computed ++ [(field, val)])) [] proj_doc in
  let nd := fold_left (fun nd '(field, value) =>
      if field =s? "_id" then nd else if is_exclusion value then doc_remove nd field else nd) proj_doc doc in
  let nd := fold_left (fun nd '(field, val) => doc_insert nd field val) computed nd in
  Ok (if id_excluded proj_doc then doc_remove nd "_id" else nd).

(** Source: aggregation/stages.rs:1199-1275 (stage_project_stream). The inclusion branch is that of
    [stage_project]. *)
Definition stage_project_stream (input : DocStream) (projection : bson) : result DocStream agg_failure :=
  match projection with
  | BDocument proj_doc =>
      Ok (map (fun r : result document agg_failure =>
            let? doc := r in
            if has_exclusion proj_doc then project_excluding_stream proj_doc doc
            else project_including proj_doc doc) input)
  | _ => invalid_stage "$project requires document"
  end.

(** Source: aggregation/stages.rs:1277-1284 (stage_limit_stream). *)
Definition stage_limit_stream (input : DocStream) (limit : bson) : result DocStream agg_failure :=
  match as_count limit with
  | Some n => Ok (iter_take n input)
  | None => invalid_stage "$limit requires number"
  end.

(** The first panic of a list of items. *)
Fixpoint first_panic (items : DocStream) : option string :=
  match items with
  | [] => None
  | Err (AggPanic m) :: _ => Some m
  | _ :: rest => first_panic rest
  end.

(** Source: aggregation/stages.rs:1286-1293 (stage_skip_stream). The skipped items are
    computed: an error among them is dropped, a panic strikes. *)
Definition stage_skip_stream (input : DocStream) (skip : bson) : result DocStream agg_failure :=
  match as_count skip with
  | Some n => Ok (match first_panic (iter_take n input) with
                  | Some m => [Err (AggPanic m)]
                  | None => iter_skip n input
                  end)
  | None => invalid_stage "$skip requires number"
  end.

(** Source: aggregation/stages.rs:1295-1302 (stage_unwind_stream). *)
Definition stage_unwind_stream (input : DocStream) (spec : bson) : result DocStream agg_failure :=
  let? (path, preserve_null, include_index) := parse_unwind_spec spec in
  Ok (concat (map (fun r : result document agg_failure =>
        match r with
        | Err e => [Err e]
        | Ok doc => stream_of (unwind_single_doc doc path preserve_null include_index)
        end) input)).

(** Source: aggregation/stages.rs:1391-1412 (stage_add_fields_stream). *)
Definition stage_add_fields_stream (input : DocStream) (fields_spec : bson) : result DocStream agg_failure :=
  match fields_spec with
  | BDocument fields =>
      Ok (map (fun r : result document agg_failure =>
            let? doc := r in
            let? evaluated := map_result (fun '(field, expr) =>
              let? v := evaluate_expression doc expr in Ok (field, v)) fields in
            Ok (fold_left (fun doc '(field, val) => set_ignored doc field val) evaluated doc)) input)
  | _ => invalid_stage "$addFields requires document"
  end.

(** Source: aggregation/stages.rs:1414-1435 (stage_unset_stream). *)
Definition stage_unset_stream (input : DocStream) (spec : bson) : result DocStream agg_failure :=
  let? fields := unset_fields spec in
  Ok (map (fun r : result document agg_failure =>
        let? doc := r in Ok (fold_left unset_ignored fields doc)) input).

(** Source: aggregation/stages.rs:1437-1453 (stage_replace_root_stream). *)
Definition stage_replace_root_stream (input : DocStream) (spec : bson) : result DocStream agg_failure :=
  Ok (map (fun r : result document agg_failure =>
        let? doc := r in replace_root (new_root_expr spec) doc) input).

(** Source: aggregation/stages.rs:1455-1465 (stage_redact_stream). *)
Definition stage_redact_stream (input : DocStream) (expr : bson) : result DocStream agg_failure :=
  Ok (omap (fun r : result document agg_failure =>
        match r with
        | Err e => Some (Err e)
        | Ok doc => match redact_doc doc expr with
                    | Ok (Some redacted) => Some (Ok redacted)
                    | Ok None => None
                    | Err e => Some (Err e)
                    end
        end) input).

(** ** Blocking stages *)

(** Source: aggregation/stages.rs:1469-1471 (estimate_doc_bytes). *)
Definition estimate_doc_bytes (doc : document) : Z :=
  match doc_to_vec doc with Ok v => Z.of_nat (length v) | Err _ => 256 end.

Definition total_bytes (docs : list document) : Z :=
  fold_left (fun acc doc => wrap_u64 (acc + estimate_doc_bytes doc)) docs 0%Z.

(** Source: aggregation/stages.rs:1476-1493 (collect_with_limit). *)
Definition collect_with_limit (input : DocStream) (stage_name : string) (limit : option Z)
  : result (list document) agg_failure :=
  let? docs := collect input in
  match limit with
  | Some max_bytes =>
      let estimated := total_bytes docs in
      if (max_bytes <? estimated)%Z
      then Err (AggErr (MemoryLimitExceeded stage_name estimated max_bytes)) else Ok docs
  | None => Ok docs
  end.

(** The common form of the blocking stages: collect, run the batch form, re-emit. *)
Definition blocking (stage_name : string) (batch : list document -> result (list document) agg_failure)
  (input : DocStream) (memory_limit : option Z) : result DocStream agg_failure :=
  let? docs := collect_with_limit input stage_name memory_limit in
  let? results := batch docs in
  Ok (stream_of results).

(** Source: aggregation/stages.rs:1592-1600 (stage_count_stream). *)
Definition stage_count_stream (input : DocStream) (field_name : bson) : option Z -> result DocStream agg_failure :=
  blocking "$count" (fun docs => stage_count docs field_name) input.

(** Source: aggregation/stages.rs:1602-1610 (stage_sample_stream). *)
Definition stage_sample_stream (input : DocStream) (spec : bson) : option Z -> result DocStream agg_failure :=
  blocking "$sample" (fun docs => stage_sample docs spec) input.

(** Source: aggregation/stages.rs:1612-1620 (stage_sort_by_count_stream). *)
Definition stage_sort_by_count_stream (input : DocStream) (expr : bson) : option Z -> result DocStream agg_failure :=
  blocking "$sortByCount" (fun docs => stage_sort_by_count docs expr) input.

(** Source: aggregation/stages.rs:1622-1630 (stage_bucket_stream). *)
Definition stage_bucket_stream (input : DocStream) (spec : bson) : option Z -> result DocStream agg_failure :=
  blocking "$bucket" (fun docs => stage_bucket docs spec) input.

(** Source: aggregation/stages.rs:1632-1640 (stage_bucket_auto_stream). *)
Definition stage_bucket_auto_stream (input : DocStream) (spec : bson) : option Z -> result DocStream agg_failure :=
  blocking "$bucketAuto" (fun docs => stage_bucket_auto docs spec) input.

(** Source: aggregation/stages.rs:1540-1543 (stage_sort_limit_stream). The fields of the sort. *)
Definition sort_fields (sort_doc : document) : list (string * Z) :=
  map (fun '(k, v) => (k, match v with BInt32 d => d | _ => 1%Z end)) sort_doc.

(** Source: aggregation/disk_spill.rs:144-159 (cmp_by_sort_fields). *)
Fixpoint cmp_by_sort_fields (a b : document) (fields : list (string * Z)) : comparison :=
  match fields with
  | [] => Eq
  | (field, dir) :: rest =>
      match directed dir (compare_bson (get_value a field) (get_value b field)) with
      | Eq => cmp_by_sort_fields a b rest
      | c => c
      end
  end.

(** [docs[i]], whose index is always in range. *)
Definition doc_nth (docs : list document) (i : nat) : document := nth i docs [].

(** Source: aggregation/stages.rs:1561-1571 (stage_sort_limit_stream). The indices of the first
    [limit] documents, in order. *)
Definition top_indices (cmp : document -> document -> comparison) (docs : list document) (limit : Z)
  : list nat :=
  let cmp_idx a b := cmp (doc_nth docs a) (doc_nth docs b) in
  let indices := seq 0 (length docs) in
  let indices := if (limit <? Z.of_nat (length docs))%Z
                 then iter_take limit (select_nth cmp_idx (Z.to_nat (limit - 1)) indices)
                 else indices in
  sort_by cmp_idx indices.

(** Source: aggregation/stages.rs:1518-1573 (stage_sort_limit_stream). *)
Definition stage_sort_limit_stream (input : DocStream) (sort_spec limit_spec : bson)
  (memory_limit : option Z) : result DocStream agg_failure :=
  match sort_spec with
  | BDocument sort_doc =>
      match as_count limit_spec with
      | None => invalid_stage "$limit requires number"
      | Some limit =>
          if (limit =? 0)%Z then Ok []
          else
            let? docs := collect_with_limit input "$sort" memory_limit in
            let cmp a b := cmp_by_sort_fields a b (sort_fields sort_doc) in
            Ok (stream_of (map (doc_nth docs) (top_indices cmp docs limit)))
      end
  | _ => invalid_stage "$sort requires document"
  end.
End Stages.

(** ** Streams and batches *)

Section Streams.
Context {B : BsonOps} {Lm : Libm} {G : S2} {T : TextEnv} {FP : F64Parse} {A : AggEnv} {SE : StdEnv}
  {BL : BsonLaws B}.
#[local] Existing Instance engine.

Lemma collect_stream_of docs : collect (stream_of docs) = Ok docs.
Proof. unfold collect, stream_of. induction docs as [|d docs IH]; simpl; [done|]. by rewrite IH. Qed.

Lemma collect_app s1 s2 :
  collect (s1 ++ s2) = let? d1 := collect s1 in let? d2 := collect s2 in Ok (d1 ++ d2).
Proof.
  unfold collect. induction s1 as [|[d|e] s1 IH]; simpl; [by destruct (map_result _ s2)| |done].
  rewrite IH. destruct (map_result _ s1); [|done]. by destruct (map_result _ s2).
Qed.

(** An adapter that maps each document. *)
Lemma collect_map (f : document -> result document agg_failure) docs :
  collect (map (fun r : result document agg_failure => let? d := r in f d) (stream_of docs))
  = map_result f docs.
Proof. unfold collect, stream_of. induction docs as [|d docs IH]; simpl; [done|]. by rewrite IH. Qed.

(** An adapter that keeps some documents. *)
Lemma collect_omap (f : document -> option (result document agg_failure)) docs acc :
  (let? r := collect (omap (fun r : result document agg_failure =>
     match r with Err e => Some (Err e) | Ok d => f d end) (stream_of docs)) in Ok (acc ++ r)) =
  fold_result (fun acc d => match f d with
                            | None => Ok acc
                            | Some (Ok x) => Ok (acc ++ [x])
                            | Some (Err e) => Err e
                            end) acc docs.
Proof.
  unfold collect, stream_of. revert acc. induction docs as [|d docs IH]; intros acc; simpl; [by rewrite app_nil_r|].
  destruct (f d) as [[x|e]|]; simpl; [|done|apply IH].
  rewrite <- IH. destruct (map_result _ _); [|done]. by rewrite <- app_assoc.
Qed.

Lemma collect_concat (f : document -> list document) docs :
  collect (concat (map (fun r : result document agg_failure =>
    match r with Err e => [Err e] | Ok d => stream_of (f d) end) (stream_of docs)))
  = Ok (concat (map f docs)).
Proof.
  unfold stream_of at 2. induction docs as [|d docs IH]; simpl; [done|].
  by rewrite collect_app, collect_stream_of, IH.
Qed.

Lemma unwind_items_fold doc path idx arr : forall i results,
  snd (fold_left (fun '(i, results) item =>
         ((i + 1)%Z, results ++ [with_index idx (BInt64 (wrap_i64 i)) (set_ignored doc path item)]))
       arr (Z.of_nat i, results)) =
  results ++ imap (fun j item => with_index idx (BInt64 (wrap_i64 (Z.of_nat (i + j)))) (set_ignored doc path item)) arr.
Proof.
  induction arr as [|x arr IH]; intros i results; cbn [fold_left]; [by rewrite app_nil_r|].
  replace (Z.of_nat i + 1)%Z with (Z.of_nat (S i)) by lia. rewrite IH, <- app_assoc. simpl.
  rewrite Nat.add_0_r. do 2 f_equal. apply imap_ext. intros j y _. simpl. by rewrite Nat.add_succ_r.
Qed.

(** The batch form of [$unwind] adds what the streaming form yields. *)
Lemma unwind_doc_single doc path preserve idx results :
  unwind_doc doc path preserve idx results = results ++ unwind_single_doc doc path preserve idx.
Proof.
  unfold unwind_doc, unwind_single_doc.
  destruct (get_value doc path) as [v|]; [|by destruct preserve; rewrite ?app_nil_r].
  destruct v as [| |arr| | | | | | | | | | | | | | | | | |]; try done;
    try (by destruct preserve; rewrite ?app_nil_r).
  destruct arr as [|x arr]; [by destruct preserve; rewrite ?app_nil_r|].
  apply (unwind_items_fold doc path idx (x :: arr) 0 results).
Qed.

Lemma fold_unwind docs path preserve idx results :
  fold_left (fun results doc => unwind_doc doc path preserve idx results) docs results =
  results ++ concat (map (fun doc => unwind_single_doc doc path preserve idx) docs).
Proof.
  revert results. induction docs as [|d docs IH]; intros results; simpl; [by rewrite app_nil_r|].
  by rewrite IH, unwind_doc_single, <- app_assoc.
Qed.

Lemma first_panic_stream_of docs : first_panic (stream_of docs) = None.
Proof. by induction docs. Qed.

Lemma iter_take_map {X Y} (f : X -> Y) n l : iter_take n (map f l) = map f (iter_take n l).
Proof. unfold iter_take. by rewrite length_map, firstn_map. Qed.

Lemma iter_skip_map {X Y} (f : X -> Y) n l : iter_skip n (map f l) = map f (iter_skip n l).
Proof. unfold iter_skip. by rewrite length_map, skipn_map. Qed.

(** Evaluating all fields first and setting them after is setting them in turn. *)
Lemma add_fields_split doc fields : forall new_doc,
  (let? evaluated := map_result (fun '(field, expr) =>
     let? v := evaluate_expression doc expr in Ok (field, v)) fields in
   Ok (fold_left (fun doc '(field, val) => set_ignored doc field val) evaluated new_doc)) =
  fold_result (fun new_doc '(field, expr) =>
    let? val := evaluate_expression doc expr in Ok (set_ignored new_doc field val)) new_doc fields.
Proof.
  induction fields as [|[f e] fields IH]; intros new_doc; simpl; [done|].
  destruct (evaluate_expression doc e) as [v|]; simpl; [|done]. rewrite <- IH.
  by destruct (map_result _ fields).
Qed.

(** The stages whose streaming form is an adapter of its own, with their batch form. *)
Definition streamed_stages
  : list (string * (DocStream -> bson -> result DocStream agg_failure) *
          (list document -> bson -> result (list document) agg_failure)) :=
  [("$limit", stage_limit_stream, stage_limit); ("$skip", stage_skip_stream, stage_skip);
   ("$unwind", stage_unwind_stream, stage_unwind); ("$addFields", stage_add_fields_stream, stage_add_fields);
   ("$unset", stage_unset_stream, stage_unset); ("$replaceRoot", stage_replace_root_stream, stage_replace_root);
   ("$redact", stage_redact_stream, stage_redact)].

(** On documents already at hand, the streaming form of [$limit], [$skip],
    [$unwind], [$addFields], [$unset], [$replaceRoot] and [$redact], collected, gives
    exactly the result of the batch form, errors included. *)
Theorem streaming_is_batch name stream batch docs spec :
  In (name, stream, batch) streamed_stages ->
  (let? s := stream (stream_of docs) spec in collect s) = batch docs spec.
Proof.
  intros Hin. repeat destruct Hin as [[= <- <- <-]|Hin]; [..|done].
  - unfold stage_limit_stream, stage_limit. destruct (as_count spec) as [n|]; [|done].
    unfold stream_of. rewrite iter_take_map. apply collect_stream_of.
  - unfold stage_skip_stream, stage_skip. destruct (as_count spec) as [n|]; [|done].
    unfold stream_of. rewrite iter_take_map, iter_skip_map. fold (stream_of (iter_take n docs)).
    rewrite first_panic_stream_of. apply collect_stream_of.
  - unfold stage_unwind_stream, stage_unwind. destruct (parse_unwind_spec spec) as [[[path pres] idx]|]; [|done].
    rewrite fold_unwind. apply collect_concat.
  - unfold stage_add_fields_stream, stage_add_fields. destruct spec; try done.
    rewrite collect_map. apply map_result_ext_in. intros doc _. apply add_fields_split.
  - unfold stage_unset_stream, stage_unset. destruct (unset_fields spec) as [fields|]; [|done].
    rewrite collect_map. by induction docs as [|d docs IH]; simpl; [|rewrite IH].
  - apply collect_map.
  - unfold stage_redact_stream, stage_redact.
    pose proof (collect_omap (fun doc => match redact_doc doc spec with
      | Ok (Some redacted) => Some (Ok redacted) | Ok None => None | Err e => Some (Err e) end) docs []) as H.
    cbn [app] in H. etrans; [etrans; [|exact H]|]; [by destruct (collect _)|].
    apply fold_result_ext. intros acc d. by destruct (redact_doc d spec) as [[|]|].
Qed.
End Streams.

(** ** Documents with the same fields

    The order of the fields apart, two documents are interchangeable. *)

Section SameFields.
Context {B : BsonOps} {BL : BsonLaws B}.

Definition same_fields (d d' : document) : Prop := forall k, doc_get d k = doc_get d' k.

#[export] Instance same_fields_equiv : Equivalence same_fields.
Proof. unfold same_fields. split; repeat intro; congruence. Qed.

#[export] Instance insert_same_fields : Proper (same_fields ==> eq ==> eq ==> same_fields) doc_insert.
Proof. intros d d' H k _ <- v _ <- k'. by rewrite !get_insert, (H k'). Qed.

#[export] Instance remove_same_fields : Proper (same_fields ==> eq ==> same_fields) doc_remove.
Proof. intros d d' H k _ <- k'. by rewrite !get_remove, (H k'). Qed.

Lemma remove_insert_same d k k' v :
  k <> k' -> same_fields (doc_remove (doc_insert d k v) k') (doc_insert (doc_remove d k') k v).
Proof.
  intros Hne j. rewrite !get_remove, !get_insert, !get_remove.
  destruct (String.eqb_spec k' j) as [->|]; [|done]. by rewrite (proj2 (String.eqb_neq k j) Hne).
Qed.

(** Equal errors, or related results. *)
Definition result_rel {X E} (R : X -> X -> Prop) (r r' : result X E) : Prop :=
  match r, r' with Ok a, Ok b => R a b | Err e, Err e' => e = e' | _, _ => False end.

Lemma map_result_rel {X Y E} (R : Y -> Y -> Prop) (f g : X -> result Y E) l :
  (forall x, In x l -> result_rel R (f x) (g x)) -> result_rel (Forall2 R) (map_result f l) (map_result g l).
Proof.
  induction l as [|x l IH]; intros H; simpl; [constructor|].
  pose proof (H x (or_introl eq_refl)) as Hx. destruct (f x), (g x); simpl in *; try done.
  assert (IH' := IH (fun y Hy => H y (or_intror Hy))).
  destruct (map_result f l), (map_result g l); simpl in *; try done. by constructor.
Qed.
End SameFields.

Section Projections.
Context {B : BsonOps} {Lm : Libm} {G : S2} {T : TextEnv} {FP : F64Parse} {A : AggEnv} {SE : StdEnv}
  {BL : BsonLaws B}.
#[local] Existing Instance engine.

(** The two loops of the streaming form, and the one of the batch form. *)
Definition remove_excluded (proj nd : document) : document :=
  fold_left (fun nd '(field, value) =>
    if field =s? "_id" then nd else if is_exclusion value then doc_remove nd field else nd) proj nd.

Definition insert_computed (computed : list (string * bson)) (nd : document) : document :=
  fold_left (fun nd '(field, val) => doc_insert nd field val) computed nd.

#[local] Instance insert_computed_proper c : Proper (same_fields ==> same_fields) (insert_computed c).
Proof.
  unfold insert_computed. induction c as [|[f v] c IH]; intros d d' H; simpl; [done|]. apply IH. by rewrite H.
Qed.

Lemma remove_excluded_insert proj : forall nd f v,
  ~ In f (doc_keys proj) ->
  same_fields (remove_excluded proj (doc_insert nd f v)) (doc_insert (remove_excluded proj nd) f v).
Proof.
  assert (Hp : forall p, Proper (same_fields ==> same_fields) (remove_excluded p)).
  { unfold remove_excluded. induction p as [|[k x] p IH]; intros d d' H; simpl; [done|]. apply IH.
    repeat case_match; try done. by rewrite H. }
  unfold remove_excluded in *. induction proj as [|[k x] proj IH]; intros nd f v Hin; simpl; [done|].
  assert (Hne : f <> k) by (intros ->; apply Hin; by left).
  assert (Hin' : ~ In f (doc_keys proj)) by (intros H; apply Hin; by right).
  repeat case_match; try by apply IH. etrans; [apply Hp, remove_insert_same, Hne|by apply IH].
Qed.

Lemma computed_fold doc proj : forall computed nd,
  List.NoDup (doc_keys proj) ->
  result_rel (fun c r => exists c', c = computed ++ c' /\
      same_fields (insert_computed c' (remove_excluded proj nd)) r)
    (fold_result (fun computed '(field, value) =>
      if (field =s? "_id") || is_exclusion value then Ok computed
      else let? val := evaluate_expression doc value in Ok (computed ++ [(field, val)])) computed proj)
    (fold_result (fun nd '(field, value) =>
      if field =s? "_id" then Ok nd
      else if is_exclusion value then Ok (doc_remove nd field)
      else let? val := evaluate_expression doc value in Ok (doc_insert nd field val)) nd proj).
Proof.
  unfold remove_excluded. induction proj as [|[k x] proj IH]; intros computed nd Hnd; simpl.
  { exists []. by rewrite app_nil_r. }
  inversion_clear Hnd as [|? ? Hk Hnd'].
  destruct (k =s? "_id"); [by apply IH|]. destruct (is_exclusion x); [by apply IH|]. simpl.
  destruct (evaluate_expression doc x) as [v|]; [|done].
  pose proof (IH (computed ++ [(k, v)]) (doc_insert nd k v) Hnd') as H.
  unfold result_rel in *. do 2 case_match; try done. destruct H as (c' & -> & Hs).
  exists ((k, v) :: c'). split; [by rewrite <- app_assoc|]. etrans; [|exact Hs].
  unfold insert_computed at 1. simpl. apply insert_computed_proper. symmetry. by apply remove_excluded_insert.
Qed.

(** [$project] gives the same documents, the order of their fields
    apart, and the same errors, whether its exclusions and computed fields are
    applied in turn (batch) or exclusions first (streaming). *)
Theorem project_stream_same docs proj_doc :
  List.NoDup (doc_keys proj_doc) ->
  result_rel (Forall2 same_fields)
    (let? s := stage_project_stream (stream_of docs) (BDocument proj_doc) in collect s)
    (stage_project docs (BDocument proj_doc)).
Proof.
  intros Hnd. unfold stage_project_stream, stage_project. rewrite collect_map.
  apply map_result_rel. intros d _. destruct (has_exclusion proj_doc).
  - unfold project_excluding_stream, project_excluding.
    pose proof (computed_fold d proj_doc [] d Hnd) as H. unfold result_rel in *.
    destruct (fold_result _ [] proj_doc), (fold_result _ d proj_doc); try done.
    destruct H as (c' & -> & Hs). cbn [app].
    fold (remove_excluded proj_doc d). fold (insert_computed c' (remove_excluded proj_doc d)).
    destruct (id_excluded proj_doc); by rewrite Hs.
  - unfold result_rel. by destruct (project_including proj_doc d).
Qed.

Lemma match_stream_fold docs filter :
  (let? s := stage_match_stream (stream_of docs) (BDocument filter) in collect s) =
  filter_result (fun doc => map_err agg_of_error (eval_query doc filter)) docs.
Proof.
  unfold stage_match_stream.
  pose proof (collect_omap (fun doc => match eval_query doc filter with
    | Ok true => Some (Ok doc) | Ok false => None | Err e => Some (Err (agg_of_error e)) end) docs []) as H.
  cbn [app] in H. etrans; [etrans; [|exact H]|]; [by destruct (collect _)|]. clear H.
  assert (H : forall acc, fold_result (fun acc d => match (match eval_query d filter with
    | Ok true => Some (Ok d) | Ok false => None | Err e => Some (Err (agg_of_error e)) end) with
    | None => Ok acc | Some (Ok x) => Ok (acc ++ [x]) | Some (Err e) => Err e end) acc docs =
    let? r := filter_result (fun doc => map_err agg_of_error (eval_query doc filter)) docs in Ok (acc ++ r)).
  { induction docs as [|d docs IH]; intros acc; simpl; [by rewrite app_nil_r|].
    destruct (eval_query d filter) as [[]|e]; simpl; [| |done]; rewrite IH;
      destruct (filter_result _ docs); try done. by rewrite <- app_assoc. }
  rewrite H. by destruct (filter_result _ docs).
Qed.

(** When the streaming [$match] succeeds, it keeps exactly the
    documents the filter accepts, and the batch form gives the same; when a filter
    fails on a document, the streaming form reports it. *)
Theorem match_stream_exact docs filter r :
  (let? s := stage_match_stream (stream_of docs) (BDocument filter) in collect s) = Ok r ->
  stage_match docs (BDocument filter) = Ok r /\
  forall d, In d docs -> exists b, eval_query d filter = Ok b /\ (b = true <-> In d r).
Proof.
  rewrite match_stream_fold. intros H. split.
  - unfold stage_match. rewrite <- H. apply filter_result_ext_in. intros d Hd.
    destruct (filter_result_defined _ _ _ _ H Hd) as [b Hb]. unfold matches_or_false, unwrap_or.
    destruct (eval_query d filter) as [b'|e]; done.
  - intros d Hd. destruct (filter_result_defined _ _ _ _ H Hd) as [b Hb]. exists b.
    destruct (eval_query d filter) as [b'|e] eqn:Eb; [|done]. injection Hb as <-. split; [done|].
    rewrite (filter_result_In _ _ _ H d), Eb. split; [by intros ->|]. by intros [_ [= ->]].
Qed.
End Projections.

(** ** Groups *)

Section Groups.
Context {K D : Type}.
Implicit Type groups : list (string * (K * list D)).

(** What grouping means: one group for each key that occurs, with the members of
    that key in their order and the identifier of the first of them. *)
Definition members (k : string) (items : list (string * K * D)) : list (string * K * D) :=
  List.filter (fun it => fst (fst it) =s? k) items.

Record grouped (items : list (string * K * D)) groups : Prop := {
  grouped_keys : List.NoDup (map fst groups);
  grouped_all : forall it, In it items -> In (fst (fst it)) (map fst groups);
  grouped_members : forall k id ds, In (k, (id, ds)) groups ->
    ds = map snd (members k items) /\ option_map (fun it => snd (fst it)) (head (members k items)) = Some id }.

Lemma push_group_keys groups k id d :
  map fst (push_group groups k id d) =
  map fst groups ++ (if existsb (String.eqb k) (map fst groups) then [] else [k]).
Proof.
  induction groups as [|[k' [i ds]] groups IH]; simpl; [done|]. rewrite (String.eqb_sym k k').
  destruct (k' =s? k); simpl; [by rewrite app_nil_r|]. by rewrite IH.
Qed.

Lemma push_group_In groups k id d k' id' ds' :
  List.NoDup (map fst groups) -> In (k', (id', ds')) (push_group groups k id d) ->
  (k' <> k /\ In (k', (id', ds')) groups) \/
  (k' = k /\ ((~ In k (map fst groups) /\ id' = id /\ ds' = [d]) \/
              exists ds, In (k, (id', ds)) groups /\ ds' = ds ++ [d])).
Proof.
  induction groups as [|[k0 [i0 ds0]] groups IH]; simpl; intros Hnd Hin.
  { destruct Hin as [[= -> -> ->]|[]]. right. split; [done|]. left. tauto. }
  inversion_clear Hnd as [|? ? Hk0 Hnd']. destruct (String.eqb_spec k0 k) as [->|Hne].
  - destruct Hin as [[= -> -> <-]|Hin]; [right; split; [done|]; right; eauto|].
    left. split; [|by right]. intros ->. apply Hk0. by apply (in_map fst) in Hin.
  - destruct Hin as [[= -> -> ->]|Hin]; [left; split; [done|by left]|].
    destruct (IH Hnd' Hin) as [[H1 H2]|(-> & [(H1 & -> & ->)|(ds & H1 & ->)])].
    + left. split; [done|by right].
    + right. split; [done|]. left. split; [|done]. intros [->|H]; done.
    + right. split; [done|]. right. exists ds. split; [by right|done].
Qed.

Lemma push_group_perm groups k id d :
  Permutation (concat (map (fun g => snd (snd g)) (push_group groups k id d)))
    (d :: concat (map (fun g => snd (snd g)) groups)).
Proof.
  induction groups as [|[k' [i ds]] groups IH]; simpl; [done|].
  destruct (k' =s? k); simpl.
  - rewrite <- app_assoc. simpl. symmetry. apply Permutation_middle.
  - rewrite IH. symmetry. apply Permutation_middle.
Qed.

Lemma members_snoc k items it :
  members k (items ++ [it]) = members k items ++ (if fst (fst it) =s? k then [it] else []).
Proof. unfold members. rewrite List.filter_app. simpl. by destruct (fst (fst it) =s? k). Qed.

Lemma members_none k items : ~ In k (map (fun it => fst (fst it)) items) -> members k items = [].
Proof.
  unfold members. induction items as [|it items IH]; simpl; intros H; [done|].
  destruct (String.eqb_spec (fst (fst it)) k); [tauto|]. apply IH. tauto.
Qed.

Lemma grouped_nil : grouped [] [].
Proof. split; [constructor|done|done]. Qed.

Lemma grouped_push items groups k id d :
  (forall k, In k (map fst groups) -> In k (map (fun it => fst (fst it)) items)) ->
  grouped items groups -> grouped (items ++ [(k, id, d)]) (push_group groups k id d).
Proof.
  intros Honly [Hnd Hall Hmem]. split.
  - rewrite push_group_keys. destruct (existsb _ _) eqn:E; [by rewrite app_nil_r|].
    apply List.NoDup_app; [done|by repeat constructor; intros []|]. intros x Hx [<-|[]].
    apply not_true_iff_false in E. apply E, existsb_exists. exists k. split; [done|apply String.eqb_refl].
  - intros it Hit. rewrite push_group_keys. apply in_app_iff. apply in_app_iff in Hit as [Hit|[<-|[]]].
    + left. by apply Hall.
    + destruct (existsb _ _) eqn:E; [left|right; by left].
      apply existsb_exists in E as (x & Hx & ->%String.eqb_eq). done.
  - intros k' id' ds' Hin. rewrite members_snoc. cbn [fst snd].
    destruct (push_group_In _ _ _ _ _ _ _ Hnd Hin) as [[Hne Hg]|(-> & [(Hk & -> & ->)|(ds & Hg & ->)])].
    + rewrite (proj2 (String.eqb_neq k k')) by done. rewrite app_nil_r. by apply Hmem.
    + rewrite String.eqb_refl. rewrite (members_none k items); [done|]. intros Hin'. apply Hk.
      apply in_map_iff in Hin' as (it & <- & Hit). by apply Hall.
    + rewrite String.eqb_refl, map_app. destruct (Hmem _ _ _ Hg) as [-> Hhd]. split; [done|].
      destruct (members k items); [done|exact Hhd].
Qed.

Lemma grouped_only items groups k id d :
  (forall k, In k (map fst groups) -> In k (map (fun it => fst (fst it)) items)) ->
  forall k', In k' (map fst (push_group groups k id d)) ->
    In k' (map (fun it => fst (fst it)) (items ++ [(k, id, d)])).
Proof.
  intros H k' Hin. rewrite push_group_keys in Hin. rewrite map_app. apply in_app_iff.
  apply in_app_iff in Hin as [Hin|Hin]; [left; by apply H|right]. by destruct (existsb _ _).
Qed.

Lemma grouped_members_ne items groups k id ds :
  grouped items groups -> In (k, (id, ds)) groups -> ds <> [].
Proof.
  intros Hg Hin. destruct (grouped_members _ _ Hg _ _ _ Hin) as [-> H]. by destruct (members k items).
Qed.

Lemma grouped_perm items groups groups' :
  Permutation groups groups' -> grouped items groups -> grouped items groups'.
Proof.
  intros Hp [Hnd Hall Hmem]. split.
  - eapply Permutation_NoDup; [apply Permutation_map, Hp|done].
  - intros it Hit. eapply Permutation_in; [apply Permutation_map, Hp|by apply Hall].
  - intros k id ds Hin. apply Hmem. eapply Permutation_in; [symmetry; exact Hp|done].
Qed.
End Groups.

Section GroupStage.
Context {B : BsonOps} {Lm : Libm} {G : S2} {T : TextEnv} {FP : F64Parse} {A : AggEnv} {SE : StdEnv}.

(** The documents with their group identifier and its key. *)
Definition keyed (docs : list document) (ids : list bson) : list (string * bson * document) :=
  map (fun '(doc, id) => (bson_to_key_string id, id, doc)) (combine docs ids).

Lemma group_docs_push id_expr docs : forall items groups ids,
  values docs id_expr = Ok ids ->
  fold_result (fun groups doc =>
    let? group_key := evaluate_expression doc id_expr in
    Ok (push_group groups (bson_to_key_string group_key) group_key doc)) groups docs =
    Ok (fold_left (fun groups it => push_group groups (fst (fst it)) (snd (fst it)) (snd it)) (keyed docs ids) groups)
  /\ (grouped items groups ->
      (forall k, In k (map fst groups) -> In k (map (fun it => fst (fst it)) items)) ->
      grouped (items ++ keyed docs ids)
        (fold_left (fun groups it => push_group groups (fst (fst it)) (snd (fst it)) (snd it)) (keyed docs ids) groups)).
Proof.
  unfold values, keyed. induction docs as [|d docs IH]; intros items groups ids H; simpl in *.
  { injection H as <-. by rewrite app_nil_r. }
  destruct (evaluate_expression d id_expr) as [id|]; [|done].
  destruct (map_result _ docs) as [ids'|]; [|done]. injection H as <-. simpl.
  destruct (IH (items ++ [(bson_to_key_string id, id, d)]) (push_group groups (bson_to_key_string id) id d) ids' eq_refl)
    as [H1 H2].
  split; [exact H1|]. intros Hg Ho. rewrite <- app_assoc in H2. apply H2; [by apply grouped_push|].
  by apply grouped_only.
Qed.

Lemma group_docs_grouped id_expr docs ids :
  values docs id_expr = Ok ids ->
  exists groups, group_docs id_expr docs = Ok groups /\ grouped (keyed docs ids) groups.
Proof.
  intros H. destruct (group_docs_push id_expr docs [] [] ids H) as [H1 H2].
  eexists. split; [exact H1|]. by apply H2; [apply grouped_nil|].
Qed.

Lemma group_docs_perm id_expr docs groups :
  group_docs id_expr docs = Ok groups ->
  Permutation (concat (map (fun g => snd (snd g)) groups)) docs.
Proof.
  unfold group_docs. intros H.
  assert (Hgen : forall gs0, fold_result (fun groups doc =>
      let? group_key := evaluate_expression doc id_expr in
      Ok (push_group groups (bson_to_key_string group_key) group_key doc)) gs0 docs = Ok groups ->
      Permutation (concat (map (fun g => snd (snd g)) groups)) (docs ++ concat (map (fun g => snd (snd g)) gs0))).
  { clear H. induction docs as [|d docs IH]; intros gs0 H; simpl in H; [by injection H as <-|].
    destruct (evaluate_expression d id_expr) as [id|]; [|done]. rewrite (IH _ H), push_group_perm.
    symmetry. apply Permutation_middle. }
  rewrite (Hgen [] H). simpl. by rewrite app_nil_r.
Qed.

(** [$group] partitions its input: when the identifier of every document
    evaluates, it runs the accumulators over one group for each distinct key, which
    holds exactly the documents of that key, in their order; together the groups
    are a permutation of the input.  The first failing accumulator is the error. *)
Theorem stage_group_partitions `{!StdLaws SE} docs group_doc id_expr ids :
  doc_get group_doc "_id" = Some id_expr -> values docs id_expr = Ok ids ->
  exists groups, grouped (keyed docs ids) groups /\
    Permutation (concat (map (fun g => snd (snd g)) groups)) docs /\
    stage_group docs (BDocument group_doc) =
      map_result (fun g => group_result group_doc (fst (snd g)) (snd (snd g))) groups.
Proof.
  intros Hid Hv. destruct (group_docs_grouped _ _ _ Hv) as (groups & Hg & Hgr).
  exists (hash_order groups). split; [|split].
  - eapply grouped_perm; [symmetry; apply hash_order_perm|done].
  - rewrite <- (group_docs_perm _ _ _ Hg). rewrite <- !flat_map_concat_map. apply Permutation_flat_map, hash_order_perm.
  - unfold stage_group. rewrite Hid, Hg. apply map_result_ext_in. by intros [k [id ds]] _.
Qed.
End GroupStage.

(** ** Witnesses *)

Section Witnesses.
Import RefAgg RefStd.

Lemma streaming_is_batch_witness :
  let docs := [[("a", BArray [BInt32 1; BInt32 2])]; [("b", BInt32 3)]] in
  (let? s := stage_unwind_stream (stream_of docs) (BString "$a") in collect s) = stage_unwind docs (BString "$a") /\
  stage_unwind docs (BString "$a") = Ok [[("a", BInt32 1)]; [("a", BInt32 2)]].
Proof.
  intros docs. split; [|vm_compute; reflexivity].
  apply (streaming_is_batch "$unwind" stage_unwind_stream stage_unwind). right. right. by left.
Defined.

Lemma project_stream_same_witness :
  let docs := [[("a", BInt32 1); ("b", BInt32 2)]] in
  let proj := [("c", BString "$a"); ("b", BInt32 0)] in
  result_rel (Forall2 same_fields)
    (let? s := stage_project_stream (stream_of docs) (BDocument proj) in collect s)
    (stage_project docs (BDocument proj)) /\
  stage_project docs (BDocument proj) = Ok [[("a", BInt32 1); ("c", BInt32 1)]].
Proof.
  intros docs proj. split; [|vm_compute; reflexivity]. apply project_stream_same.
  repeat constructor; simpl; intuition congruence.
Defined.

Lemma match_stream_exact_witness :
  let docs := xs [1; 5; 3]%Z in
  let filter := [("x", BDocument [("$gt", BInt32 2)])] in
  stage_match docs (BDocument filter) = Ok (xs [5; 3]%Z) /\
  forall d, In d docs -> exists b, eval_query d filter = Ok b /\ (b = true <-> In d (xs [5; 3]%Z)).
Proof. intros docs filter. apply match_stream_exact. vm_compute. reflexivity. Defined.

Lemma stage_group_partitions_witness :
  let docs := xs [1; 2; 1]%Z in
  exists groups, grouped (keyed docs [BInt32 1; BInt32 2; BInt32 1]) groups /\
    Permutation (concat (map (fun g => snd (snd g)) groups)) docs /\
    stage_group docs (BDocument [("_id", BString "$x")]) =
      map_result (fun g => group_result [("_id", BString "$x")] (fst (snd g)) (snd (snd g))) groups.
Proof. intros docs. apply (stage_group_partitions docs _ (BString "$x")); vm_compute; reflexivity. Defined.
End Witnesses.
