(* ===== verification/StageLaws.v ===== *)
(** * Properties of the sorting, limiting, unwinding and bucketing stages

    The stages of [Stages]: [$sort] is a stable sort; [$sort] fused with
    [$limit] selects the documents a full sort would put first; blocking stages
    enforce the memory limit; [$unwind] yields the elements of an array in
    order; [$bucketAuto] covers its input with at most the requested number of
    buckets, and [$bucket] puts a number between two boundaries. *)

From Stdlib Require Import ZArith Lia Ascii String Strings.Byte Permutation Sorted.
From S2P Require Import Prelude F64 Bson RefBson Paths Geo Query Update Schema Collation Expressions Accumulators Stages.
From stdpp Require Import base tactics list strings.

Open Scope string_scope.
Open Scope list_scope.

Section Sorting.
Context {B : BsonOps} {Lm : Libm} {G : S2} {T : TextEnv} {FP : F64Parse} {A : AggEnv} {SE : StdEnv}.

(** *** The order of a sort document *)

Definition opt_no_nan (o : option bson) : Prop := match o with Some b => no_nan b = true | None => True end.

Lemma compare_opt_tp : TotalPreorder opt_no_nan compare_bson.
Proof.
  pose proof compare_bson_tp as [Hr Hs Ht]. split.
  - intros [x|] Hx; [by apply Hr|done].
  - intros [x|] [y|] Hx Hy; try done. by apply Hs.
  - intros [x|] [y|] [z|] Hx Hy Hz; try done. by apply Ht.
Qed.

(** No field the sort reads is a NaN. *)
Definition sortable (sort_doc : document) (d : document) : Prop :=
  Forall (fun '(field, _) => opt_no_nan (get_value d field)) sort_doc.

Lemma sort_cmp_then field direction rest a b :
  sort_docs_cmp ((field, direction) :: rest) a b =
  cmp_then (directed (match direction with BInt32 d => d | _ => 1%Z end)
              (compare_bson (get_value a field) (get_value b field)))
    (sort_docs_cmp rest a b).
Proof. cbn [sort_docs_cmp]. unfold cmp_then. by case_match. Qed.

Lemma sort_docs_tp sort_doc : TotalPreorder (sortable sort_doc) (sort_docs_cmp sort_doc).
Proof.
  induction sort_doc as [|[field direction] rest IH]; [by split|].
  eapply tp_cmp_ext; [intros; apply sort_cmp_then|]. apply tp_then.
  - apply directed_tp. apply (tp_pullback opt_no_nan _ (fun d => get_value d field) compare_bson);
      [|apply compare_opt_tp]. intros d Hd. by inversion Hd.
  - eapply tp_weaken; [|exact IH]. intros d Hd. by inversion Hd.
Qed.

(** On documents whose sort keys are not NaN, [$sort] returns the same
    documents, in order, and keeps the order of documents with equal keys. *)
Theorem stage_sort_stable docs sort_doc :
  Forall (sortable sort_doc) docs ->
  exists sorted, stage_sort docs (BDocument sort_doc) = Ok sorted /\
    Permutation docs sorted /\ sorted_by (sort_docs_cmp sort_doc) sorted /\
    forall d, sortable sort_doc d ->
      List.filter (fun x => cmp_eqb (sort_docs_cmp sort_doc d x) Eq) sorted =
      List.filter (fun x => cmp_eqb (sort_docs_cmp sort_doc d x) Eq) docs.
Proof.
  intros Hd. pose proof (sort_docs_tp sort_doc) as TP. eexists. split; [done|].
  split; [apply sort_by_perm|]. split; [by apply (sort_by_sorted (sortable sort_doc))|].
  intros d Hs. by apply (sort_by_stable (sortable sort_doc)).
Qed.

(** *** The fused sort and limit *)

Lemma cmp_by_fields_docs sort_doc a b :
  cmp_by_sort_fields a b (sort_fields sort_doc) = sort_docs_cmp sort_doc a b.
Proof.
  unfold sort_fields. induction sort_doc as [|[field direction] rest IH]; [done|].
  cbn [map cmp_by_sort_fields sort_docs_cmp]. by rewrite IH.
Qed.

Lemma map_nth_seq docs : map (doc_nth docs) (seq 0 (length docs)) = docs.
Proof.
  unfold doc_nth. apply list_eq. intros i. rewrite list_lookup_fmap.
  destruct (decide (i < length docs)%nat) as [Hi|Hi].
  - rewrite lookup_seq_lt by done. simpl. destruct (lookup_lt_is_Some_2 docs i Hi) as [d Hd].
    rewrite Hd. f_equal. by apply nth_lookup_Some.
  - rewrite lookup_seq_ge, lookup_ge_None_2 by lia. done.
Qed.

Lemma sort_by_map {X Y} (f : X -> Y) cmp l :
  map f (sort_by (fun a b => cmp (f a) (f b)) l) = sort_by cmp (map f l).
Proof.
  induction l as [|x l IH]; simpl; [done|]. rewrite <- IH. clear IH.
  generalize (sort_by (fun a b => cmp (f a) (f b)) l). intros l0.
  induction l0 as [|y l0 IH]; simpl; [done|]. destruct (cmp (f x) (f y)); simpl; [done..|]. by rewrite IH.
Qed.

Lemma iter_take_app {X} n (l : list X) : exists r, l = iter_take n l ++ r /\
  r = drop (Z.to_nat (Z.min n (Z.of_nat (length l)))) l.
Proof. eexists. split; [|done]. symmetry. apply take_drop. Qed.

(** The selected indices and the rest: the first are no greater than the rest. *)
Lemma selected_split `{!StdLaws SE} (P : document -> Prop) cmp docs limit :
  TotalPreorder P cmp -> Forall P docs -> (1 <= limit)%Z ->
  exists top rest, Permutation (top ++ rest) docs /\
    length top = Z.to_nat (Z.min limit (Z.of_nat (length docs))) /\
    map (doc_nth docs) (top_indices cmp docs limit) = sort_by cmp top /\
    (forall x y, In x top -> In y rest -> cmp x y <> Gt) /\
    ((Z.of_nat (length docs) <= limit)%Z -> top = docs).
Proof.
  intros TP HP Hl. unfold top_indices. set (cmp_idx := fun a b => cmp (doc_nth docs a) (doc_nth docs b)).
  assert (Hmap : forall l, map (doc_nth docs) (sort_by cmp_idx l) = sort_by cmp (map (doc_nth docs) l))
    by (intros; apply (sort_by_map (doc_nth docs) cmp)).
  rewrite Hmap. clear Hmap.
  destruct (Z.ltb_spec limit (Z.of_nat (length docs))) as [Hlt|Hge].
  2:{ exists docs, []. rewrite app_nil_r, map_nth_seq, Z.min_r by lia. split; [done|]. split; [lia|]. done. }
  set (n := Z.to_nat (limit - 1)). set (sel := select_nth cmp_idx n (seq 0 (length docs))).
  assert (Hperm : Permutation sel (seq 0 (length docs))) by apply select_nth_perm.
  assert (Hlen : length sel = length docs) by (rewrite Hperm, length_seq; done).
  assert (Htake : iter_take limit sel = take (S n) sel) by (unfold iter_take, n; rewrite Hlen; f_equal; lia).
  rewrite Htake. exists (map (doc_nth docs) (take (S n) sel)), (map (doc_nth docs) (drop (S n) sel)).
  split; [|split; [|split; [done|split; [|lia]]]].
  - rewrite <- map_app, take_drop, Hperm. by rewrite map_nth_seq.
  - rewrite length_map, length_take, Hlen. unfold n. lia.
  - intros x y Hx Hy. apply in_map_iff in Hx as (i & <- & Hi). apply in_map_iff in Hy as (j & <- & Hj).
    apply (select_nth_splits nat (fun i => (i < length docs)%nat) cmp_idx n (seq 0 (length docs))); try done.
    + apply (tp_pullback P _ (doc_nth docs) cmp); [|done]. intros k Hk. rewrite List.Forall_forall in HP.
      by apply HP, nth_In.
    + apply List.Forall_forall. intros k Hk. apply in_seq in Hk. lia.
    + rewrite length_seq. unfold n. lia.
Qed.

Lemma sort_by_ext {X} (c c' : X -> X -> comparison) l :
  (forall x y, c x y = c' x y) -> sort_by c l = sort_by c' l.
Proof.
  intros H. assert (Hi : forall x l, insert_by c x l = insert_by c' x l).
  { intros x l0. induction l0 as [|y l0 IH]; simpl; [done|]. by rewrite H, IH. }
  induction l as [|x l IH]; simpl; [done|]. by rewrite IH, Hi.
Qed.

(** A part of the input that precedes the rest, sorted, is the head of the sorted input. *)
Lemma preceding_part_sorted {X} (P : X -> Prop) cmp top rest docs :
  TotalPreorder P cmp -> Forall P docs -> Permutation (top ++ rest) docs ->
  (forall x y, In x top -> In y rest -> cmp x y <> Gt) ->
  Forall2 (fun x y => cmp x y = Eq) (sort_by cmp top) (take (length top) (sort_by cmp docs)).
Proof.
  intros TP HP Hperm Hle.
  assert (HPt : Forall P (top ++ rest)) by (eapply Permutation_Forall; [symmetry; exact Hperm|done]).
  apply Forall_app in HPt as [HPt HPr].
  assert (Hall : Forall2 (fun x y => cmp x y = Eq) (sort_by cmp top ++ sort_by cmp rest) (sort_by cmp docs)).
  { apply (sorted_perm_equiv P); [done| | | |].
    - apply Forall_app. split; (eapply Permutation_Forall; [apply sort_by_perm|done]).
    - apply sorted_app; [by apply (sort_by_sorted P)..|]. intros x y Hx%sort_by_In Hy%sort_by_In. by apply Hle.
    - by apply (sort_by_sorted P).
    - rewrite <- !sort_by_perm. by rewrite Hperm. }
  apply Forall2_app_inv_l in Hall as (l1 & l2 & H1 & H2 & Heq). rewrite Heq.
  assert (Hl1 : length top = length l1) by (rewrite <- (Forall2_length _ _ _ H1), <- sort_by_perm; done).
  by rewrite Hl1, take_app_length.
Qed.

(** [$sort] fused with [$limit] yields as many documents as the limit
    allows, taken from the input, and position by position their sort keys are those
    of a full sort followed by the limit; without truncation the results coincide. *)
Theorem sort_limit_fusion `{!StdLaws SE} docs sort_doc limit_spec limit :
  as_count limit_spec = Some limit -> (0 <= limit)%Z -> Forall (sortable sort_doc) docs ->
  exists top, stage_sort_limit_stream (stream_of docs) (BDocument sort_doc) limit_spec None = Ok (stream_of top) /\
    Forall2 (fun x y => sort_docs_cmp sort_doc x y = Eq) top
      (iter_take limit (sort_by (sort_docs_cmp sort_doc) docs)) /\
    (exists rest, Permutation (top ++ rest) docs) /\
    ((Z.of_nat (length docs) <= limit)%Z -> top = sort_by (sort_docs_cmp sort_doc) docs).
Proof.
  intros Hc Hl HP. pose proof (sort_docs_tp sort_doc) as TP. unfold stage_sort_limit_stream.
  rewrite Hc. destruct (Z.eqb_spec limit 0) as [->|Hne].
  { exists []. split; [done|]. unfold iter_take. rewrite Z.min_l by lia. split; [constructor|].
    split; [by exists docs|]. intros Hd. assert (docs = []) as -> by (destruct docs; [done|simpl in Hd; lia]). done. }
  unfold collect_with_limit. rewrite collect_stream_of.
  set (cmp := fun a b => cmp_by_sort_fields a b (sort_fields sort_doc)).
  assert (Hcmp : forall x y, cmp x y = sort_docs_cmp sort_doc x y) by (intros; apply cmp_by_fields_docs).
  assert (TP' : TotalPreorder (sortable sort_doc) cmp) by (eapply tp_cmp_ext; [intros; apply Hcmp|done]).
  destruct (selected_split (sortable sort_doc) cmp docs limit TP' HP ltac:(lia))
    as (top & rest & Hperm & Hlen & -> & Hle & Hall).
  exists (sort_by (sort_docs_cmp sort_doc) top). rewrite (sort_by_ext _ _ top Hcmp). split; [done|].
  split; [|split].
  - unfold iter_take. rewrite <- (Permutation_length (sort_by_perm _ docs)), <- Hlen. eapply preceding_part_sorted; [done..|].
    intros x y Hx Hy. rewrite <- Hcmp. by apply Hle.
  - exists rest. by rewrite <- sort_by_perm.
  - intros Hd. by rewrite (Hall Hd).
Qed.
End Sorting.

(** ** The memory limit *)

Section Memory.
Context {B : BsonOps} {Lm : Libm} {G : S2} {T : TextEnv} {FP : F64Parse} {A : AggEnv} {SE : StdEnv}.

Definition bytes_of (docs : list document) : Z :=
  fold_right (fun doc acc => (estimate_doc_bytes doc + acc)%Z) 0%Z docs.

Lemma estimate_pos doc : (0 <= estimate_doc_bytes doc)%Z.
Proof. unfold estimate_doc_bytes. case_match; lia. Qed.

Lemma bytes_of_pos docs : (0 <= bytes_of docs)%Z.
Proof. induction docs as [|d docs IH]; simpl; [lia|]. pose proof (estimate_pos d). lia. Qed.

Lemma total_bytes_exact docs : forall acc,
  (0 <= acc)%Z -> (acc + bytes_of docs <= u64_max)%Z ->
  fold_left (fun acc doc => wrap_u64 (acc + estimate_doc_bytes doc)) docs acc = (acc + bytes_of docs)%Z.
Proof.
  induction docs as [|d docs IH]; intros acc Ha Hb; cbn [bytes_of fold_right fold_left] in *; [lia|].
  fold (bytes_of docs) in *. pose proof (estimate_pos d). pose proof (bytes_of_pos docs).
  assert (Hw : wrap_u64 (acc + estimate_doc_bytes d) = (acc + estimate_doc_bytes d)%Z)
    by (apply Z.mod_small; unfold u64_max in Hb; lia).
  rewrite Hw, IH by lia. lia.
Qed.

(** A blocking stage under a memory limit fails, naming itself, the size and
    the limit, exactly when the documents it would hold exceed the limit; otherwise
    it yields the result of its batch form.  An error upstream comes first. *)
Theorem memory_limit_enforced name batch input limit :
  (forall docs, collect input = Ok docs -> (bytes_of docs <= u64_max)%Z) ->
  blocking name batch input (Some limit) =
  match collect input with
  | Err e => Err e
  | Ok docs =>
      if (limit <? bytes_of docs)%Z then Err (AggErr (MemoryLimitExceeded name (bytes_of docs) limit))
      else let? results := batch docs in Ok (stream_of results)
  end.
Proof.
  intros Hb. unfold blocking, collect_with_limit. destruct (collect input) as [docs|e]; [|done].
  unfold total_bytes. rewrite (total_bytes_exact docs 0) by (specialize (Hb docs eq_refl); lia).
  rewrite Z.add_0_l. by destruct (limit <? bytes_of docs)%Z.
Qed.
End Memory.

(** ** [$unwind] *)

Section Unwinding.
Context {B : BsonOps} {Lm : Libm} {G : S2} {T : TextEnv} {FP : F64Parse} {A : AggEnv} {SE : StdEnv}
  {BL : BsonLaws B}.

Lemma set_ignored_get doc path v : get_value (set_ignored doc path v) path = Some v.
Proof.
  unfold set_ignored. destruct (set_value_total doc path v) as [d H]. rewrite H, get_value_parts.
  by apply (get_set_parts doc).
Qed.

(** The operand [$path]. *)
Definition field_operand (path : string) : bson := BString ("$" ++ path)%string.

(** What [$unwind] makes of one document: a document for each element of an array at the
    path, with the element there; nothing without a value; otherwise one document. *)
Definition unwound (path : string) (doc : document) (out : list document) : Prop :=
  match get_value doc path with
  | Some (BArray arr) => map (fun d => get_value d path) out = map Some arr
  | None | Some BNull => out = []
  | Some v => map (fun d => get_value d path) out = [Some v]
  end.

Lemma unwind_single_unwound path doc : unwound path doc (unwind_single_doc doc path false None).
Proof.
  unfold unwound, unwind_single_doc. destruct (get_value doc path) as [v|]; [|done].
  destruct v as [| |arr| | | | | | | | | | | | | | | | | |]; try done; try (cbn [map with_index]; by rewrite set_ignored_get).
  destruct arr as [|x arr]; [done|]. generalize (x :: arr). intros l. apply list_eq. intros i.
  rewrite !list_lookup_fmap, list_lookup_imap. destruct (l !! i) as [y|]; simpl; [|done]. by rewrite set_ignored_get.
Qed.

(** [$unwind] of a field yields, for each document in order, one document for each
    element of the array at the path, in order, with the element at the path; it
    drops a document without a value there and keeps one with a single value. *)
Theorem unwind_yields_elements docs path :
  exists parts, stage_unwind docs (field_operand path) = Ok (concat parts) /\ Forall2 (unwound path) docs parts.
Proof.
  exists (map (fun doc => unwind_single_doc doc path false None) docs). split.
  - unfold stage_unwind, field_operand. cbn [parse_unwind_spec Prelude.strip_prefix String.append]. by rewrite fold_unwind.
  - induction docs; constructor; [apply unwind_single_unwound|done].
Qed.
End Unwinding.

(** ** [$bucketAuto] *)

Section BucketAuto.
Context {B : BsonOps} {Lm : Libm} {G : S2} {T : TextEnv} {FP : F64Parse} {A : AggEnv} {SE : StdEnv}.

(** A bucket: its bounds, and the numbers and documents in it. *)
Definition bucket : Type := (f64 * f64) * list (f64 * document).

Definition bucket_doc (output : option document) (b : bucket) : result document agg_failure :=
  bucket_fields output (map snd (snd b))
    (doc_insert [] "_id" (BDocument [("min", BDouble (fst (fst b))); ("max", BDouble (snd (fst b)))])).

Definition bucket_ok (per : nat) (b : bucket) : Prop :=
  option_map fst (head (snd b)) = Some (fst (fst b)) /\ (length (snd b) <= per)%nat.

Lemma auto_loop_buckets output per : (1 <= per)%nat -> forall fuel rest, (length rest <= fuel)%nat ->
  exists buckets, auto_loop fuel output per rest = map_result (bucket_doc output) buckets /\
    concat (map snd buckets) = rest /\ Forall (bucket_ok per) buckets /\
    (length buckets * per < length rest + per)%nat.
Proof.
  intros Hper. induction fuel as [|fuel IH]; intros rest Hf.
  { destruct rest; [|simpl in Hf; lia]. exists []. repeat split; [constructor|simpl; lia]. }
  destruct rest as [|[lo d] rest]; [exists []; repeat split; [constructor|simpl; lia]|].
  set (all := (lo, d) :: rest) in *.
  destruct (IH (drop per all)) as (buckets & Heq & Hcat & Hok & Hlen).
  { rewrite length_drop. simpl in *. lia. }
  set (hi := match drop per all with
             | (v, _) :: _ => v
             | [] => match last all with Some (v, _) => v | None => lo end
             end).
  exists (((lo, hi), take per all) :: buckets). split; [|split; [|split]].
  - cbn [auto_loop map_result]. unfold all at 1. fold all hi. unfold bucket_doc at 1. cbn [fst snd].
    destruct (bucket_fields _ _ _); [|done]. by rewrite Heq.
  - cbn [map concat snd]. rewrite Hcat. apply take_drop.
  - constructor; [|done]. split; cbn [fst snd]; [|rewrite length_take; lia].
    unfold all. destruct per; [lia|done].
  - cbn [length]. rewrite length_drop in Hlen. unfold all in *. cbn [length] in *. destruct (decide (per <= S (length rest))%nat); [lia|]. destruct (length buckets); nia.
Qed.

Lemma div_ceil_covers total num : (0 < num)%Z -> (total <= per_bucket total num * num)%Z.
Proof.
  intros Hn. unfold per_bucket. destruct (Z.ltb_spec 0 num); [|lia].
  pose proof (Z.div_mod total num ltac:(lia)). pose proof (Z.mod_pos_bound total num Hn).
  destruct (Z.eqb_spec (total mod num) 0); lia.
Qed.

(** [$bucketAuto] returns: it splits the documents with a numeric
    value, sorted by it, into consecutive buckets, each labelled with its least
    value and not empty, that cover all of them, and no more buckets than asked for;
    the result is the output of each bucket, or the first error. *)
Theorem bucket_auto_covers docs auto_doc group_by num valued :
  doc_get auto_doc "groupBy" = Some group_by ->
  and_then (doc_get auto_doc "buckets") as_count = Some num -> (0 < num)%Z ->
  valued_docs group_by docs = Ok valued ->
  let output := match doc_get_as as_document auto_doc "output" with Ok o => Some o | Err _ => None end in
  exists buckets, stage_bucket_auto docs (BDocument auto_doc) = map_result (bucket_doc output) buckets /\
    concat (map snd buckets) = sort_by (fun a b => f64_cmp_or_eq (fst a) (fst b)) valued /\
    Forall (fun b => option_map fst (head (snd b)) = Some (fst (fst b))) buckets /\
    (Z.of_nat (length buckets) <= num)%Z.
Proof.
  intros Hg Hb Hn Hv output. unfold stage_bucket_auto. rewrite Hg, Hb, Hv. fold output.
  set (sorted := sort_by _ valued). set (total := Z.of_nat (length sorted)).
  pose proof (div_ceil_covers total num Hn) as Hc.
  destruct (decide (sorted = [])) as [E|E].
  { exists []. rewrite E. repeat split; [constructor|simpl; lia]. }
  assert (Ht : (0 < total)%Z) by (unfold total; destruct sorted; [done|simpl; lia]).
  assert (Hp : (1 <= per_bucket total num)%Z) by nia.
  destruct (auto_loop_buckets output (Z.to_nat (per_bucket total num)) ltac:(lia) (length sorted) sorted
    ltac:(lia)) as (buckets & Heq & Hcat & Hok & Hlen).
  exists buckets. split; [done|]. split; [done|]. split.
  - eapply Forall_impl; [exact Hok|]. by intros b [H _].
  - unfold total in *. nia.
Qed.
End BucketAuto.

(** ** Well-typed documents *)

Section Types.
Context {B : BsonOps} {Lm : Libm} {G : S2} {T : TextEnv} {FP : F64Parse} {A : AggEnv} {SE : StdEnv}
  {BL : BsonLaws B} {AL : AggLaws A} {SL : StdLaws SE}.

Definition stream_ok (s : DocStream) : Prop := forall d, In (Ok d) s -> doc_ok d = true.

(** A stage that yields well-typed documents on well-typed input. *)
Definition typed_batch (f : list document -> bson -> result (list document) agg_failure) : Prop :=
  forall docs spec r, docs_ok docs -> bson_ok spec = true -> f docs spec = Ok r -> docs_ok r.
Definition typed_stream (f : DocStream -> bson -> result DocStream agg_failure) : Prop :=
  forall s spec r, stream_ok s -> bson_ok spec = true -> f s spec = Ok r -> stream_ok r.

Lemma stream_of_ok docs : docs_ok docs -> stream_ok (stream_of docs).
Proof. intros H d Hd. apply in_map_iff in Hd as (x & [= <-] & Hx). by apply H. Qed.

Lemma collect_ok s docs : stream_ok s -> collect s = Ok docs -> docs_ok docs.
Proof.
  intros Hs H d Hd. destruct (map_result_In _ _ _ _ H Hd) as (x & Hx & ->). by apply Hs.
Qed.

Lemma set_ignored_ok doc path v : doc_ok doc = true -> bson_ok v = true -> doc_ok (set_ignored doc path v) = true.
Proof.
  intros Hd Hv. unfold set_ignored. destruct (set_value doc path v) eqn:E; [|done]. by eapply set_value_wf.
Qed.

Lemma unset_ignored_ok doc path : doc_ok doc = true -> doc_ok (unset_ignored doc path) = true.
Proof. intros Hd. unfold unset_ignored. destruct (unset_value doc path) eqn:E; [|done]. by eapply unset_value_wf. Qed.

Lemma with_index_ok idx v doc : bson_ok v = true -> doc_ok doc = true -> doc_ok (with_index idx v doc) = true.
Proof. intros Hv Hd. destruct idx; [by apply insert_ok|done]. Qed.

Lemma docs_ok_map_result {X} (f : X -> result document agg_failure) l r :
  (forall x d, In x l -> f x = Ok d -> doc_ok d = true) -> map_result f l = Ok r -> docs_ok r.
Proof. intros Hf H d Hd. destruct (map_result_In _ _ _ _ H Hd) as (x & Hx & E). by eapply Hf. Qed.

Lemma stream_ok_map f s :
  stream_ok s -> (forall d d', doc_ok d = true -> f d = Ok d' -> doc_ok d' = true) ->
  stream_ok (map (fun r : result document agg_failure => let? d := r in f d) s).
Proof.
  intros Hs Hf d Hd. apply in_map_iff in Hd as ([x|e] & E & Hx); [|done]. eapply Hf; [by apply Hs|exact E].
Qed.

(** Inserting the values of a loop over the entries of a well-typed document. *)
Lemma fold_entries_ok (spec : document) (f : document -> string * bson -> result document agg_failure) d d' :
  doc_ok spec = true -> doc_ok d = true ->
  (forall acc k v acc', bson_ok v = true -> doc_ok acc = true -> f acc (k, v) = Ok acc' -> doc_ok acc' = true) ->
  fold_result f d spec = Ok d' -> doc_ok d' = true.
Proof.
  intros Hs Hd Hf. apply (fold_result_inv (fun d => doc_ok d = true)); [|done].
  intros acc [k v] acc' Hin Hacc H. eapply Hf; [|exact Hacc|exact H].
  apply doc_ok_spec in Hs as [_ Hs]. by eapply Hs.
Qed.

Lemma project_including_ok proj doc d :
  doc_ok proj = true -> doc_ok doc = true -> project_including proj doc = Ok d -> doc_ok d = true.
Proof.
  intros Hp Hd. unfold project_including. apply fold_entries_ok; [done| |].
  - destruct (id_excluded proj); [done|]. destruct (doc_get doc "_id") eqn:E; [|done].
    apply insert_ok; [done|exact (get_ok _ _ _ Hd E)].
  - intros acc k v acc' Hv Hacc H. destruct (k =s? "_id"); [by injection H as <-|].
    destruct (is_inclusion v).
    + injection H as <-. destruct (get_value doc k) eqn:E; [|done]. apply insert_ok; [done|exact (get_value_wf _ _ _ Hd E)].
    + destruct (evaluate_expression doc v) eqn:E; [|done]. injection H as <-.
      apply insert_ok; [done|exact (eval_typed _ _ _ Hd Hv E)].
Qed.

Lemma maybe_remove_id_ok (c : bool) nd : doc_ok nd = true -> doc_ok (if c then doc_remove nd "_id" else nd) = true.
Proof. intros H. destruct c; [by apply remove_ok|done]. Qed.

Lemma project_excluding_ok proj doc d :
  doc_ok proj = true -> doc_ok doc = true -> project_excluding proj doc = Ok d -> doc_ok d = true.
Proof.
  intros Hp Hd. unfold project_excluding. destruct (fold_result _ doc proj) as [nd|] eqn:Ef; [|done].
  intros [= <-]. apply maybe_remove_id_ok. revert Ef. apply fold_entries_ok; [done..|].
  intros acc k v acc' Hv Hacc H. destruct (k =s? "_id"); [by injection H as <-|].
  destruct (is_exclusion v); [injection H as <-; by apply remove_ok|].
  destruct (evaluate_expression doc v) eqn:E; [|done]. injection H as <-.
  apply insert_ok; [done|exact (eval_typed _ _ _ Hd Hv E)].
Qed.

Lemma project_excluding_stream_ok proj doc d :
  doc_ok proj = true -> doc_ok doc = true -> project_excluding_stream proj doc = Ok d -> doc_ok d = true.
Proof.
  intros Hp Hd. unfold project_excluding_stream. destruct (fold_result _ [] proj) as [computed|] eqn:Ef; [|done].
  assert (Hc : forall k v, In (k, v) computed -> bson_ok v = true).
  { revert Ef. apply (fold_result_inv (fun c => forall k v, In (k, v) c -> bson_ok v = true)); [|by intros k v []].
    intros acc [k v] acc' Hin Hacc H. destruct ((k =s? "_id") || is_exclusion v); [by injection H as <-|].
    destruct (evaluate_expression doc v) as [w|] eqn:E; [|done]. injection H as <-. intros k' v' Hin'.
    apply in_app_iff in Hin' as [Hin'|[[= <- <-]|[]]]; [by eapply Hacc|].
    eapply eval_typed; [exact Hd| |exact E]. apply doc_ok_spec in Hp as [_ Hp]. by eapply Hp. }
  intros [= <-]. apply maybe_remove_id_ok. clear Ef.
  assert (Hr : doc_ok (fold_left (fun nd '(field, value) =>
    if field =s? "_id" then nd else if is_exclusion value then doc_remove nd field else nd) proj doc) = true).
  { clear Hc Hp. revert doc Hd. induction proj as [|[k v] proj IH]; intros doc Hd; simpl; [done|]. apply IH.
    repeat case_match; try done. by apply remove_ok. }
  revert Hr. generalize (fold_left (fun nd '(field, value) =>
    if field =s? "_id" then nd else if is_exclusion value then doc_remove nd field else nd) proj doc).
  induction computed as [|[k v] computed IH]; intros nd Hnd; simpl; [done|]. apply IH.
  - intros k' v' Hin. eapply Hc. by right.
  - apply insert_ok; [done|]. by eapply Hc; left.
Qed.

Lemma group_result_ok group_doc id docs d :
  doc_ok group_doc = true -> bson_ok id = true -> docs_ok docs ->
  group_result group_doc id docs = Ok d -> doc_ok d = true.
Proof.
  intros Hg Hid Hd. unfold group_result. apply fold_entries_ok; [done|by apply insert_ok|].
  intros acc k v acc' Hv Hacc H. destruct (k =s? "_id"); [by injection H as <-|].
  destruct (evaluate_accumulator docs v) eqn:E; [|done]. injection H as <-.
  apply insert_ok; [done|eapply accumulator_typed; [exact Hd|exact Hv|exact E]].
Qed.

Lemma push_group_ok {K} (groups : list (string * (K * list document))) (P : K -> Prop) k id d :
  (forall k' id' ds, In (k', (id', ds)) groups -> P id' /\ docs_ok ds) -> P id -> doc_ok d = true ->
  forall k' id' ds, In (k', (id', ds)) (push_group groups k id d) -> P id' /\ docs_ok ds.
Proof.
  intros Hg Hid Hd. induction groups as [|[k0 [i0 ds0]] groups IH]; simpl.
  - intros k' id' ds [[= <- <- <-]|[]]. split; [done|]. by intros x [<-|[]].
  - assert (Hg' : forall k' id' ds, In (k', (id', ds)) groups -> P id' /\ docs_ok ds)
      by (intros; eapply Hg; by right).
    destruct (Hg k0 i0 ds0 (or_introl eq_refl)) as [Hi0 Hds0].
    destruct (k0 =s? k); intros k' id' ds [[= <- <- <-]|Hin]; try done; try (by eapply Hg').
    + split; [done|]. intros x Hx. apply in_app_iff in Hx as [Hx|[<-|[]]]; [by apply Hds0|done].
    + by eapply IH.
Qed.

Lemma stage_group_typed : typed_batch stage_group.
Proof.
  intros docs spec r Hd Hs H. unfold stage_group in H. destruct spec as [| | |g| | | | | | | | | | | | | | | | |]; try done.
  destruct (doc_get g "_id") as [e|] eqn:Eid; [|done].
  assert (He : bson_ok e = true) by (by eapply get_ok).
  destruct (group_docs e docs) as [groups|] eqn:Eg; [|done].
  assert (Hgr : forall k id ds, In (k, (id, ds)) groups -> bson_ok id = true /\ docs_ok ds).
  { revert Eg. unfold group_docs.
    apply (fold_result_inv (fun groups => forall k id ds, In (k, (id, ds)) groups -> bson_ok id = true /\ docs_ok ds)); [|by intros k id ds []].
    intros acc d acc' Hin Hacc E. destruct (evaluate_expression d e) as [v|] eqn:Ev; [|done]. injection E as <-.
    apply (push_group_ok acc (fun id => bson_ok id = true)); [done| |by apply Hd].
    eapply eval_typed; [by apply Hd|done|exact Ev]. }
  revert H. apply docs_ok_map_result. intros [k [id ds]] d Hin.
  destruct (Hgr k id ds) as [H1 H2]; [by eapply Permutation_in; [apply hash_order_perm|]|].
  by apply group_result_ok.
Qed.

Lemma docs_ok_perm docs docs' : Permutation docs docs' -> docs_ok docs -> docs_ok docs'.
Proof. intros Hp H d Hd. apply H. eapply Permutation_in; [symmetry; exact Hp|done]. Qed.

Lemma stage_sort_typed : typed_batch stage_sort.
Proof.
  intros docs spec r Hd Hs H. destruct spec; try done. injection H as <-.
  eapply docs_ok_perm; [apply sort_by_perm|done].
Qed.

Lemma stage_count_typed : typed_batch stage_count.
Proof.
  intros docs spec r Hd Hs H. destruct spec; try done. injection H as <-. intros d [<-|[]].
  apply insert_ok; [done|apply wrap_i32_range].
Qed.

Lemma stage_sample_typed : typed_batch stage_sample.
Proof.
  intros docs spec r Hd Hs H. destruct spec; try done. cbn [stage_sample] in H. case_match; [|done].
  injection H as <-. intros x Hx. apply in_iter_take in Hx. apply Hd.
  eapply Permutation_in; [apply shuffle_perm|done].
Qed.

Lemma stage_sort_by_count_typed : typed_batch stage_sort_by_count.
Proof.
  intros docs e r Hd He H. unfold stage_sort_by_count in H.
  destruct (stage_group docs _) as [g|] eqn:Eg; [|done].
  refine (stage_sort_typed g (BDocument [("count", BInt32 (-1))]) r _ eq_refl H). eapply stage_group_typed; [exact Hd| |exact Eg].
  apply doc_ok_spec. split; [by repeat constructor; simpl; intuition|].
  intros k v [[= <- <-]|[[= <- <-]|[]]]; [done|reflexivity].
Qed.

Lemma bucket_fields_ok output docs d d' :
  (forall o, output = Some o -> doc_ok o = true) -> docs_ok docs -> doc_ok d = true ->
  bucket_fields output docs d = Ok d' -> doc_ok d' = true.
Proof.
  intros Ho Hd Hdoc. unfold bucket_fields. destruct output as [o|].
  - apply fold_entries_ok; [by apply Ho|done|]. intros acc k v acc' Hv Hacc H.
    destruct (evaluate_accumulator docs v) eqn:E; [|done]. injection H as <-.
    apply insert_ok; [done|eapply accumulator_typed; [exact Hd|exact Hv|exact E]].
  - intros [= <-]. apply insert_ok; [done|apply wrap_i32_range].
Qed.

Lemma output_ok spec : doc_ok spec = true -> forall o,
  match doc_get_as as_document spec "output" with Ok o => Some o | Err _ => None end = Some o -> doc_ok o = true.
Proof.
  intros Hs o. unfold doc_get_as. destruct (doc_get spec "output") as [v|] eqn:E; [|done].
  destruct v; try done. intros [= <-]. by eapply (get_ok spec "output").
Qed.

Lemma take_bucket_In buckets key ds rest :
  take_bucket buckets key = (ds, rest) ->
  (forall d, In d ds -> exists k, In (k, (tt, ds)) buckets) /\ (forall g, In g rest -> In g buckets).
Proof.
  revert ds rest. induction buckets as [|[k [[] ds0]] buckets IH]; intros ds rest H; simpl in H.
  { injection H as <- <-. split; [by intros d []|done]. }
  destruct (k =s? key).
  - injection H as <- <-. split; [intros d _; exists k; by left|]. intros g Hg. by right.
  - destruct (take_bucket buckets key) as [found rest'] eqn:E. injection H as <- <-.
    destruct (IH _ _ eq_refl) as [H1 H2]. split.
    + intros d Hd. destruct (H1 d Hd) as [k' Hk']. exists k'. by right.
    + intros g [<-|Hg]; [by left|right; by apply H2].
Qed.

Lemma stage_bucket_typed : typed_batch stage_bucket.
Proof.
  intros docs spec r Hd Hs H. unfold stage_bucket in H. destruct spec as [| | |b| | | | | | | | | | | | | | | | |]; try done.
  destruct (doc_get b "groupBy") as [gb|]; [|done].
  destruct (doc_get_as as_array_opt b "boundaries") as [bounds|]; [|done].
  set (output := match doc_get_as as_document b "output" with Ok o => Some o | Err _ => None end) in H.
  pose proof (output_ok b Hs) as Ho. fold output in Ho.
  destruct (length (omap bson_to_f64 bounds) <? 2)%nat; [done|].
  destruct (fold_result _ ([], []) docs) as [[buckets defaults]|] eqn:Ef; [|done].
  assert (Hst : (forall k id ds, In (k, (id, ds)) buckets -> True /\ docs_ok ds) /\ docs_ok defaults).
  { revert Ef. apply (fold_result_inv (fun st : list (string * (unit * list document)) * list document =>
      (forall k id ds, In (k, (id, ds)) (fst st) -> True /\ docs_ok ds) /\ docs_ok (snd st)));
      [|by split; [intros k id ds []|intros x []]].
    intros [bs ds] d [bs' ds'] Hin [H1 H2] E. cbn [fst snd] in *. unfold bucket_step in E.
    assert (Hds : docs_ok (if is_some (doc_get b "default") then ds ++ [d] else ds)).
    { destruct (is_some (doc_get b "default")); [|done]. intros x Hx. apply in_app_iff in Hx as [Hx|[<-|[]]]; auto. }
    destruct (evaluate_expression d gb) as [v|]; [|done]. destruct (bson_to_f64 v); [|by injection E as <- <-].
    cbv zeta in E. match type of E with (if ?c then _ else _) = _ => destruct c end; [|by injection E as <- <-].
    match type of E with match ?o with Some _ => _ | None => _ end = _ => destruct o end; [|done].
    injection E as <- <-. split; [|done]. apply (push_group_ok bs (fun _ => True)); auto. }
  destruct Hst as [Hbs Hdef]. destruct (bucket_results _ _ _) as [[rest results]|] eqn:Er; [|done].
  assert (Hres : docs_ok results).
  { revert Er. unfold bucket_results. intros Er.
    enough (Hinv : (forall k id ds, In (k, (id, ds)) rest -> True /\ docs_ok ds) /\ docs_ok results) by apply Hinv.
    revert Er. apply (fold_result_inv (fun st : list (string * (unit * list document)) * list document =>
      (forall k id ds, In (k, (id, ds)) (fst st) -> True /\ docs_ok ds) /\ docs_ok (snd st)));
      [|by split; [|intros x []]].
    intros [bs rs] bval [bs' rs'] Hin [H1 H2] E. cbn [fst snd] in *.
    destruct (take_bucket bs (f64_display bval)) as [bd bs0] eqn:Et.
    destruct (take_bucket_In _ _ _ _ Et) as [T1 T2].
    destruct (bucket_fields output bd _) as [rd|] eqn:Eb; [|done]. injection E as <- <-.
    split; [intros k id ds Hin'; by eapply H1, T2|]. intros x Hx. apply in_app_iff in Hx as [Hx|[<-|[]]]; [by apply H2|].
    refine (bucket_fields_ok _ _ _ _ Ho _ _ Eb); [|by apply insert_ok].
    intros y Hy. destruct (T1 y Hy) as [k Hk]. by apply (H1 _ _ _ Hk). }
  destruct (doc_get b "default") as [def|] eqn:Ed; [|by injection H as <-].
  destruct defaults as [|d0 defaults]; [by injection H as <-|].
  destruct (bucket_fields output (d0 :: defaults) _) as [rd|] eqn:Eb; [|done]. injection H as <-.
  intros x Hx. apply in_app_iff in Hx as [Hx|[<-|[]]]; [by apply Hres|].
  refine (bucket_fields_ok _ _ _ _ Ho Hdef _ Eb). apply insert_ok; [done|exact (get_ok _ _ _ Hs Ed)].
Qed.

Lemma auto_loop_ok output per fuel : forall rest r,
  (forall o, output = Some o -> doc_ok o = true) -> (forall n d, In (n, d) rest -> doc_ok d = true) ->
  auto_loop fuel output per rest = Ok r -> docs_ok r.
Proof.
  induction fuel as [|fuel IH]; intros rest r Ho Hr H; (destruct rest as [|[lo d0] rest]; [by injection H as <-; intros x []|]);
    [done|].
  cbn [auto_loop] in H. set (all := (lo, d0) :: rest) in *.
  destruct (bucket_fields output _ _) as [rd|] eqn:Eb; [|done].
  destruct (auto_loop fuel output per (drop per all)) as [rs|] eqn:Ea; [|done]. injection H as <-.
  intros x [<-|Hx].
  - refine (bucket_fields_ok _ _ _ _ Ho _ _ Eb); [|by apply insert_ok]. intros d Hd.
    apply in_map_iff in Hd as ([n d'] & <- & Hd). eapply Hr. by eapply in_take.
  - eapply (IH (drop per all)); [done| |exact Ea|done]. intros n d Hd. eapply Hr. by eapply in_drop.
Qed.

Lemma stage_bucket_auto_typed : typed_batch stage_bucket_auto.
Proof.
  intros docs spec r Hd Hs H. unfold stage_bucket_auto in H.
  destruct spec as [| | |b| | | | | | | | | | | | | | | | |]; try done.
  destruct (doc_get b "groupBy") as [gb|]; [|done].
  destruct (and_then (doc_get b "buckets") as_count) as [num|]; [|done].
  destruct (valued_docs gb docs) as [valued|] eqn:Ev; [|done].
  revert H. apply auto_loop_ok; [by apply output_ok|]. intros n d Hin. apply sort_by_In in Hin. revert n d Hin Ev.
  enough (Hinv : valued_docs gb docs = Ok valued -> forall n d, In (n, d) valued -> doc_ok d = true) by eauto.
  clear -Hd.
  apply (fold_result_inv (fun valued => forall n d, In (n, d) valued -> doc_ok d = true)); [|by intros n d []].
  intros acc doc acc' Hin Hacc E. destruct (evaluate_expression doc gb) as [v|]; [|done]. injection E as <-.
  destruct (bson_to_f64 v); [|done]. intros n d' Hin'. apply in_app_iff in Hin' as [Hin'|[[= <- <-]|[]]]; [by eapply Hacc|].
  by apply Hd.
Qed.

Definition redact_typed (expr v : bson) : Prop :=
  bson_ok v = true -> forall d, redact_bson expr v = Ok (Some d) -> doc_ok d = true.

Lemma redact_item_ok expr arr r :
  (forall x, In x arr -> redact_typed expr x) -> bson_ok (BArray arr) = true ->
  fold_result (redact_item (redact_bson expr)) [] arr = Ok r -> bson_ok (BArray r) = true.
Proof.
  intros Hx Ha. apply (fold_result_inv (fun r => bson_ok (BArray r) = true)); [|done].
  intros acc x acc' Hin Hacc H. assert (Hxok : bson_ok x = true) by (by apply (proj1 (arr_ok_spec _) Ha)).
  assert (Hsnoc : forall y, bson_ok y = true -> bson_ok (BArray (acc ++ [y])) = true).
  { intros y Hy. apply arr_ok_spec. intros z Hz. apply in_app_iff in Hz as [Hz|[<-|[]]]; [|done].
    by apply (proj1 (arr_ok_spec _) Hacc). }
  unfold redact_item in H. destruct x; try (injection H as <-; by apply Hsnoc).
  destruct (redact_bson expr _) as [[rd|]|] eqn:Er; [|by injection H as <-|done]. injection H as <-.
  apply Hsnoc. by apply (Hx _ Hin Hxok).
Qed.

Lemma redact_field_ok expr doc d :
  (forall k v, In (k, v) doc -> redact_typed expr v /\ forall arr, v = BArray arr -> forall x, In x arr -> redact_typed expr x) ->
  doc_ok doc = true -> fold_result (redact_field (redact_bson expr)) [] doc = Ok d -> doc_ok d = true.
Proof.
  intros Hf Hd. apply (fold_result_inv (fun d => doc_ok d = true)); [|done].
  intros acc [k v] acc' Hin Hacc H. destruct (Hf k v Hin) as [Hv Harr].
  assert (Hvok : bson_ok v = true) by (apply doc_ok_spec in Hd as [_ Hd]; by eapply Hd).
  unfold redact_field in H. cbn [fst snd] in H. destruct v; try (injection H as <-; by apply insert_ok).
  - destruct (fold_result _ [] a) as [na|] eqn:Ea; [|done]. injection H as <-. apply insert_ok; [done|].
    by apply (redact_item_ok expr a); [apply Harr|..].
  - destruct (redact_bson expr _) as [[rd|]|] eqn:Er; [|by injection H as <-|done]. injection H as <-.
    apply insert_ok; [done|]. by apply (Hv Hvok).
Qed.

Lemma redact_ok expr v :
  redact_typed expr v /\ forall arr, v = BArray arr -> forall x, In x arr -> redact_typed expr x.
Proof.
  induction v as [| |a IH|doc IH| | | | | | | | | | | | | | | | |] using bson_ind; try by split.
  - split; [done|]. intros arr [= <-] x Hx. rewrite List.Forall_forall in IH. by apply IH.
  - split; [|done]. intros Hv d H. cbn [redact_bson] in H. destruct (redact_verdict expr doc) as [res|]; [|done].
    cbv zeta in H. destruct (_ =s? "$$KEEP"); [by injection H as <-|]. destruct (_ =s? "$$PRUNE"); [done|].
    destruct (_ =s? "$$DESCEND"); [|done]. destruct (fold_result _ [] doc) as [nd|] eqn:Ef; [|done].
    injection H as <-. revert Ef. apply redact_field_ok; [|done]. intros k v Hin.
    rewrite List.Forall_forall in IH. apply (IH (k, v) Hin).
Qed.

Lemma unwind_single_ok doc path preserve idx d :
  doc_ok doc = true -> In d (unwind_single_doc doc path preserve idx) -> doc_ok d = true.
Proof.
  intros Hd. unfold unwind_single_doc. destruct (get_value doc path) as [v|] eqn:E.
  2:{ destruct preserve; [|done]. intros [<-|[]]. by apply with_index_ok. }
  assert (Hv : bson_ok v = true) by exact (get_value_wf _ _ _ Hd E).
  assert (Hset : forall w i, bson_ok w = true -> bson_ok i = true ->
    doc_ok (with_index idx i (set_ignored doc path w)) = true) by (intros; by apply with_index_ok, set_ignored_ok).
  destruct v as [| |arr| | | | | | | | | | | | | | | | | |]; try (intros [<-|[]]; by apply Hset).
  - destruct arr as [|x arr].
    + destruct preserve; [|done]. intros [<-|[]]. by apply with_index_ok, unset_ignored_ok.
    + generalize dependent (x :: arr). intros l E Hl Hin. apply list_elem_of_In, list_elem_of_lookup in Hin as [i Hi].
      rewrite list_lookup_imap in Hi. destruct (l !! i) as [y|] eqn:Ey; [|done]. injection Hi as <-.
      apply Hset; [apply (proj1 (arr_ok_spec _) Hl), list_elem_of_In, list_elem_of_lookup; eauto|].
      apply wrap_i64_range.
  - destruct preserve; [|done]. intros [<-|[]]. by apply with_index_ok.
Qed.

(** *** The stages of a stream *)

Lemma stage_match_stream_typed : typed_stream stage_match_stream.
Proof.
  intros s spec r Hs _ H. destruct spec; try done. injection H as <-. intros x Hx.
  apply list_elem_of_In, list_elem_of_omap in Hx as ([doc|e] & Hin & E); [|done].
  destruct (eval_query doc d) as [[]|]; try done. injection E as <-. apply Hs. by apply list_elem_of_In.
Qed.

Lemma stage_project_stream_typed : typed_stream stage_project_stream.
Proof.
  intros s spec r Hs Hok H. destruct spec; try done. injection H as <-. apply stream_ok_map; [done|].
  intros doc doc' Hdoc. destruct (has_exclusion d); [by apply project_excluding_stream_ok|by apply project_including_ok].
Qed.

Lemma stage_limit_stream_typed : typed_stream stage_limit_stream.
Proof.
  intros s spec r Hs _ H. unfold stage_limit_stream in H. destruct (as_count spec); [|done]. injection H as <-.
  intros x Hx. apply Hs. by eapply in_iter_take.
Qed.

Lemma stage_skip_stream_typed : typed_stream stage_skip_stream.
Proof.
  intros s spec r Hs _ H. unfold stage_skip_stream in H. destruct (as_count spec); [|done]. injection H as <-.
  destruct (first_panic _); intros x Hx; [by destruct Hx|]. apply Hs. by eapply in_iter_skip.
Qed.

Lemma stage_unwind_stream_typed : typed_stream stage_unwind_stream.
Proof.
  intros s spec r Hs _ H. unfold stage_unwind_stream in H. destruct (parse_unwind_spec spec) as [[[path pres] idx]|]; [|done].
  injection H as <-. intros x Hx. apply in_concat in Hx as (l & Hl & Hx). apply in_map_iff in Hl as ([doc|e] & <- & Hin).
  - apply in_map_iff in Hx as (d & [= <-] & Hd). eapply unwind_single_ok; [|exact Hd]. by apply Hs.
  - by destruct Hx.
Qed.

Lemma stage_add_fields_stream_typed : typed_stream stage_add_fields_stream.
Proof.
  intros s spec r Hs Hok H. destruct spec; try done. injection H as <-. apply stream_ok_map; [done|].
  intros doc doc' Hdoc. rewrite add_fields_split. apply fold_entries_ok; [done..|].
  intros acc k v acc' Hv Hacc H. destruct (evaluate_expression doc v) as [w|] eqn:E; [|done]. injection H as <-.
  apply set_ignored_ok; [done|exact (eval_typed _ _ _ Hdoc Hv E)].
Qed.

Lemma stage_unset_stream_typed : typed_stream stage_unset_stream.
Proof.
  intros s spec r Hs _ H. unfold stage_unset_stream in H. destruct (unset_fields spec) as [fields|]; [|done].
  injection H as <-. apply stream_ok_map; [done|]. intros doc doc' Hdoc [= <-].
  revert doc Hdoc. induction fields as [|f fields IH]; intros doc Hdoc; simpl; [done|]. by apply IH, unset_ignored_ok.
Qed.

Lemma stage_replace_root_stream_typed : typed_stream stage_replace_root_stream.
Proof.
  intros s spec r Hs Hok H. injection H as <-. apply stream_ok_map; [done|]. intros doc doc' Hdoc H.
  unfold replace_root in H. destruct (evaluate_expression doc _) as [v|] eqn:E; [|done].
  destruct v; try done. injection H as <-. refine (eval_typed _ _ (BDocument d) Hdoc _ E).
  unfold new_root_expr. destruct spec; try done. destruct (doc_get _ "newRoot") eqn:Eg; [exact (get_ok _ _ _ Hok Eg)|done].
Qed.

Lemma stage_redact_stream_typed : typed_stream stage_redact_stream.
Proof.
  intros s spec r Hs _ H. injection H as <-. intros x Hx.
  apply list_elem_of_In, list_elem_of_omap in Hx as ([doc|e] & Hin & E); [|done].
  destruct (redact_doc doc spec) as [[rd|]|] eqn:Er; try done. injection E as <-.
  apply (proj1 (redact_ok spec (BDocument doc))); [|done]. apply Hs. by apply list_elem_of_In.
Qed.

Lemma collect_with_limit_ok s name limit docs :
  stream_ok s -> collect_with_limit s name limit = Ok docs -> docs_ok docs.
Proof.
  intros Hs. unfold collect_with_limit. destruct (collect s) as [ds|] eqn:Ec; [|done]. pose proof (collect_ok s ds Hs Ec).
  destruct limit; [case_match; [done|]|]; by intros [= <-].
Qed.

Lemma blocking_typed name batch s limit r :
  (forall docs r, docs_ok docs -> batch docs = Ok r -> docs_ok r) ->
  stream_ok s -> blocking name batch s limit = Ok r -> stream_ok r.
Proof.
  intros Hb Hs H. unfold blocking in H. destruct (collect_with_limit s name limit) as [docs|] eqn:Ec; [|done].
  destruct (batch docs) as [rs|] eqn:Eb; [|done]. injection H as <-. apply stream_of_ok.
  eapply Hb; [|exact Eb]. by eapply collect_with_limit_ok.
Qed.

Lemma sort_limit_typed s sort_spec limit_spec ml r :
  stream_ok s -> stage_sort_limit_stream s sort_spec limit_spec ml = Ok r -> stream_ok r.
Proof.
  intros Hs H. unfold stage_sort_limit_stream in H. destruct sort_spec; try done.
  destruct (as_count limit_spec) as [limit|]; [|done]. destruct (limit =? 0)%Z; [injection H as <-; by intros x []|].
  destruct (collect_with_limit s "$sort" ml) as [docs|] eqn:Ec; [|done]. injection H as <-.
  apply stream_of_ok. pose proof (collect_with_limit_ok _ _ _ _ Hs Ec) as Hd. intros x Hx.
  apply in_map_iff in Hx as (i & <- & _). unfold doc_nth.
  destruct (nth_in_or_default i docs []) as [Hin| ->]; [by apply Hd|done].
Qed.
End Types.

(** ** Witnesses *)

Section Witnesses.
Import RefAgg RefStd.

Lemma xs_sortable l : Forall small l -> Forall (sortable [("x", BInt32 1)]) (xs l).
Proof.
  intros Hl. apply List.Forall_forall. intros d Hd. apply in_map_iff in Hd as (n & <- & Hn).
  rewrite List.Forall_forall in Hl. constructor; [|constructor]. cbn. change (negb (f64_is_nan (f64_of_Z n)) = true).
  by rewrite f64_of_Z_not_nan by auto.
Qed.

Lemma stage_sort_stable_witness :
  let docs := xs [3; 1; 2]%Z in
  exists sorted, stage_sort docs (BDocument [("x", BInt32 1)]) = Ok sorted /\
    Permutation docs sorted /\ sorted_by (sort_docs_cmp [("x", BInt32 1)]) sorted /\
    forall d, sortable [("x", BInt32 1)] d ->
      List.filter (fun x => cmp_eqb (sort_docs_cmp [("x", BInt32 1)] d x) Eq) sorted =
      List.filter (fun x => cmp_eqb (sort_docs_cmp [("x", BInt32 1)] d x) Eq) docs.
Proof. intros docs. apply stage_sort_stable, xs_sortable. repeat constructor; done. Defined.

Lemma sort_limit_fusion_witness :
  let docs := xs [3; 1; 2]%Z in
  exists top, stage_sort_limit_stream (stream_of docs) (BDocument [("x", BInt32 1)]) (BInt32 2) None = Ok (stream_of top) /\
    Forall2 (fun x y => sort_docs_cmp [("x", BInt32 1)] x y = Eq) top
      (iter_take 2 (sort_by (sort_docs_cmp [("x", BInt32 1)]) docs)) /\
    (exists rest, Permutation (top ++ rest) docs) /\
    ((Z.of_nat (length docs) <= 2)%Z -> top = sort_by (sort_docs_cmp [("x", BInt32 1)]) docs).
Proof. intros docs. apply sort_limit_fusion; [done|done|apply xs_sortable; repeat constructor; done]. Defined.

Lemma memory_limit_enforced_witness :
  blocking "$sort" (fun docs => stage_sort docs (BDocument [("x", BInt32 1)])) (stream_of (xs [3; 1]%Z)) (Some 10%Z) =
  Err (AggErr (MemoryLimitExceeded "$sort" (bytes_of (xs [3; 1]%Z)) 10)).
Proof.
  etransitivity; [apply memory_limit_enforced|vm_compute; reflexivity].
  intros docs Hd. rewrite collect_stream_of in Hd. injection Hd as <-. vm_compute. done.
Defined.

Lemma unwind_yields_elements_witness :
  exists parts, stage_unwind [[("a", BArray [BInt32 1; BInt32 2])]; [("b", BNull)]] (field_operand "a") = Ok (concat parts) /\
    Forall2 (unwound "a") [[("a", BArray [BInt32 1; BInt32 2])]; [("b", BNull)]] parts.
Proof. apply unwind_yields_elements. Defined.

Lemma bucket_auto_covers_witness :
  let auto_doc := [("groupBy", BString "$x"); ("buckets", BInt32 2)] in
  exists valued, valued_docs (BString "$x") (xs [3; 1; 2]%Z) = Ok valued /\
  exists buckets, stage_bucket_auto (xs [3; 1; 2]%Z) (BDocument auto_doc) = map_result (bucket_doc None) buckets /\
    concat (map snd buckets) = sort_by (fun a b => f64_cmp_or_eq (fst a) (fst b)) valued /\
    Forall (fun b => option_map fst (head (snd b)) = Some (fst (fst b))) buckets /\
    (Z.of_nat (length buckets) <= 2)%Z.
Proof.
  intros auto_doc.
  destruct (valued_docs (BString "$x") (xs [3; 1; 2]%Z)) as [valued|] eqn:Hv; [|vm_compute in Hv; discriminate].
  exists valued. split; [done|].
  exact (bucket_auto_covers (xs [3; 1; 2]%Z) auto_doc (BString "$x") 2 valued eq_refl eq_refl eq_refl Hv).
Defined.
End Witnesses.
