(* ===== verification/Window.v ===== *)
(** * [$setWindowFields]

    [src/rust/smongo-engine/src/aggregation/stages.rs], lines 967 to 1170: the
    documents are sorted, partitioned, and every window operator writes its
    field into them in place.  The documents are a list updated by index; the
    indices of the partitions are in range. *)

From Stdlib Require Import ZArith Lia Ascii String Strings.Byte Permutation Sorted.
From S2P Require Import Prelude F64 Bson RefBson Paths Geo Query Update Schema Collation Expressions Accumulators Stages StageLaws.
From stdpp Require Import base tactics list strings.

Open Scope string_scope.
Open Scope list_scope.

Section Window.
Context {B : BsonOps} {Lm : Libm} {G : S2} {T : TextEnv} {FP : F64Parse} {A : AggEnv} {SE : StdEnv}.

(** Source: aggregation/stages.rs:971-981 (sort_keys_equal). *)
Definition sort_keys_equal (sort_by : option document) (a b : document) : bool :=
  match sort_by with
  | None => true
  | Some sb => forallb (fun '(field, _) =>
                 cmp_eqb (compare_bson (get_value a field) (get_value b field)) Eq) sb
  end.

(** [sorted_docs[idx].insert(field, v)]. *)
Definition insert_at (docs : list document) (idx : nat) (field : string) (v : bson) : list document :=
  alter (fun d => doc_insert d field v) idx docs.

(** The same value for every document of a partition. *)
Definition insert_all_at (docs : list document) (partition : list nat) (field : string) (v : bson)
  : list document :=
  fold_left (fun docs idx => insert_at docs idx field v) partition docs.

(** Source: aggregation/stages.rs:1029-1054 (stage_set_window_fields). [$rank] and [$denseRank] from position [pos]
    on; the keys of the previous document are those after its own field was written. *)
Fixpoint rank_loop (dense : bool) (sort_by : option document) (field : string) (prev : option nat)
  (current_rank : Z) (pos : nat) (partition : list nat) (docs : list document) : list document :=
  match partition with
  | [] => docs
  | idx :: rest =>
      let current_rank :=
        match prev with
        | Some prev_idx =>
            if sort_keys_equal sort_by (doc_nth docs prev_idx) (doc_nth docs idx) then current_rank
            else if dense then wrap_i32 (current_rank + 1) else wrap_i32 (Z.of_nat (pos + 1))
        | None => current_rank
        end in
      rank_loop dense sort_by field (Some idx) current_rank (S pos) rest
        (insert_at docs idx field (BInt32 current_rank))
  end.

(** Source: aggregation/stages.rs:1055-1059 (stage_set_window_fields). *)
Definition number_loop (field : string) (partition : list nat) (docs : list document) : list document :=
  snd (fold_left (fun '(pos, docs) idx =>
        (S pos, insert_at docs idx field (BInt32 (wrap_i32 (Z.of_nat (pos + 1))))))
      partition (0%nat, docs)).

(** Source: aggregation/stages.rs:1082-1109 (stage_set_window_fields). *)
Definition shift_values (op_expr : bson) (partition : list nat) (docs : list document)
  : result (list bson) agg_failure :=
  match op_expr with
  | BDocument shift_doc =>
      match doc_get shift_doc "output" with
      | None => missing_field "$shift.output required"
      | Some output_expr =>
          let by_ := match doc_get shift_doc "by" with
                     | Some (BInt32 n) => n
                     | Some (BInt64 n) => wrap_i32 n
                     | _ => 0%Z
                     end in
          let default_val := or_null (doc_get shift_doc "default") in
          map_result (fun pos =>
            let shifted_pos := (Z.of_nat pos + by_)%Z in
            if (0 <=? shifted_pos)%Z && (shifted_pos <? Z.of_nat (length partition))%Z then
              match evaluate_expression (doc_nth docs (nth (Z.to_nat shifted_pos) partition 0%nat)) output_expr with
              | Err (AggErr _) => Ok default_val
              | r => r
              end
            else Ok default_val) (seq 0 (length partition))
      end
  | _ => invalid_stage "$shift requires a document with output and by"
  end.

(** Source: aggregation/stages.rs:1110-1112 (stage_set_window_fields). *)
Definition shift_loop (field : string) (partition : list nat) (results : list bson) (docs : list document)
  : list document :=
  fold_left (fun docs '(idx, v) => insert_at docs idx field v) (combine partition results) docs.

(** [sum], [count], [min_val] and [max_val]. *)
Record window_sums : Type := {
  w_sum : f64; w_count : Z; w_min : option bson; w_max : option bson }.

Definition f64_infinity (negative : bool) : f64 := SpecFloat.S754_infinity negative.

(** Source: aggregation/stages.rs:1122-1146 (stage_set_window_fields). *)
Definition window_step (w : window_sums) (v : bson) : window_sums :=
  match bson_to_f64 v with
  | None => w
  | Some n =>
      let num_or prev d := match bson_to_f64 prev with Some p => p | None => d end in
      {| w_sum := f64_add (w_sum w) n;
         w_count := (w_count w + 1)%Z;
         w_min := Some (match w_min w with
                        | Some prev => if f64_ltb n (num_or prev (f64_infinity false)) then v else prev
                        | None => v
                        end);
         w_max := Some (match w_max w with
                        | Some prev => if f64_ltb (num_or prev (f64_infinity true)) n then v else prev
                        | None => v
                        end) |}
  end.

Definition no_window : window_sums := {| w_sum := f64_zero; w_count := 0; w_min := None; w_max := None |}.

(** Source: aggregation/stages.rs:1114-1155 (stage_set_window_fields). *)
Definition window_total (op : string) (op_expr : bson) (partition : list nat) (docs : list document)
  : result bson agg_failure :=
  let? w := fold_result (fun w idx =>
      let? v := evaluate_expression (doc_nth docs idx) op_expr in Ok (window_step w v)) no_window partition in
  Ok (if op =s? "$sum" then BDouble (w_sum w)
      else if op =s? "$avg" then
        (if (0 <? w_count w)%Z then BDouble (f64_div (w_sum w) (f64_of_Z (w_count w))) else BNull)
      else if op =s? "$min" then or_null (w_min w)
      else or_null (w_max w)).

(** Source: aggregation/stages.rs:1028-1166 (stage_set_window_fields). One operator on one partition. *)
Definition window_partition (sort_by : option document) (field op : string) (op_expr : bson)
  (docs : list document) (partition : list nat) : result (list document) agg_failure :=
  if op =s? "$rank" then Ok (rank_loop false sort_by field None 1 0 partition docs)
  else if op =s? "$denseRank" then Ok (rank_loop true sort_by field None 1 0 partition docs)
  else if op =s? "$documentNumber" then Ok (number_loop field partition docs)
  else if op =s? "$count" then
    Ok (insert_all_at docs partition field (BInt32 (wrap_i32 (Z.of_nat (length partition)))))
  else if op =s? "$first" then
    match partition with
    | [] => Err (AggPanic "index out of bounds")
    | first_idx :: _ =>
        let? val := evaluate_expression (doc_nth docs first_idx) op_expr in
        Ok (insert_all_at docs partition field val)
    end
  else if op =s? "$last" then
    match last partition with
    | None => Ok docs
    | Some last_idx =>
        let? val := evaluate_expression (doc_nth docs last_idx) op_expr in
        Ok (insert_all_at docs partition field val)
    end
  else if op =s? "$shift" then
    let? results := shift_values op_expr partition docs in
    Ok (shift_loop field partition results docs)
  else if existsb (String.eqb op) ["$sum"; "$avg"; "$min"; "$max"] then
    let? val := window_total op op_expr partition docs in
    Ok (insert_all_at docs partition field val)
  else Err (AggErr (InvalidOperator ("Unknown $setWindowFields operator: " ++ op)%string)).

(** Source: aggregation/stages.rs:1002-1012 (stage_set_window_fields). *)
Definition window_partitions (partition_by : option bson) (docs : list document)
  : result (list (list nat)) agg_failure :=
  match partition_by with
  | Some pb =>
      let? groups := fold_result (fun groups i =>
        let? key := evaluate_expression (doc_nth docs i) pb in
        Ok (push_group groups (bson_to_key_string key) tt i)) [] (seq 0 (length docs)) in
      Ok (map (fun g => snd (snd g)) (hash_order groups))
  | None => Ok [seq 0 (length docs)]
  end.

(** Source: aggregation/stages.rs:1014-1168 (stage_set_window_fields). *)
Definition window_field (sort_by : option document) (partitions : list (list nat)) (docs : list document)
  (kv : string * bson) : result (list document) agg_failure :=
  let '(field, window_spec_bson) := kv in
  let window_spec := match window_spec_bson with BDocument d => d | _ => [] end in
  match find (fun '(k, _) => starts_with "$" k) window_spec with
  | None => invalid_stage ("$setWindowFields.output." ++ field ++ " needs an operator")%string
  | Some (op, op_expr) => fold_result (window_partition sort_by field op op_expr) docs partitions
  end.

(** Source: aggregation/stages.rs:983-1171 (stage_set_window_fields). *)
Definition stage_set_window_fields (docs : list document) (spec : bson) : result (list document) agg_failure :=
  match spec with
  | BDocument wf_doc =>
      let sort_by := match doc_get_as as_document wf_doc "sortBy" with Ok d => Some d | Err _ => None end in
      match doc_get_as as_document wf_doc "output" with
      | Err _ => missing_field "$setWindowFields.output required"
      | Ok output =>
          let? sorted_docs := match sort_by with
                              | Some sb => stage_sort docs (BDocument sb)
                              | None => Ok docs
                              end in
          let? partitions := window_partitions (doc_get wf_doc "partitionBy") sorted_docs in
          fold_result (window_field sort_by partitions) sorted_docs output
      end
  | _ => invalid_stage "$setWindowFields requires document"
  end.

(** Source: aggregation/stages.rs:1675-1683 (stage_set_window_fields_stream). *)
Definition stage_set_window_fields_stream (input : DocStream) (spec : bson)
  : option Z -> result DocStream agg_failure :=
  blocking "$setWindowFields" (fun docs => stage_set_window_fields docs spec) input.
End Window.

(** ** Well-typed documents *)

Section Types.
Context {B : BsonOps} {Lm : Libm} {G : S2} {T : TextEnv} {FP : F64Parse} {A : AggEnv} {SE : StdEnv}
  {BL : BsonLaws B} {AL : AggLaws A} {SL : StdLaws SE}.

Lemma insert_at_ok docs idx field v : docs_ok docs -> bson_ok v = true -> docs_ok (insert_at docs idx field v).
Proof.
  intros Hd Hv x Hx. unfold insert_at in Hx. apply list_elem_of_In, list_elem_of_lookup in Hx as [i Hi].
  rewrite list_lookup_alter in Hi. destruct (decide (idx = i)) as [->|].
  - destruct (docs !! i) as [d|] eqn:E; [|done]. injection Hi as <-. apply insert_ok; [|done].
    apply Hd, list_elem_of_In, list_elem_of_lookup. eauto.
  - apply Hd, list_elem_of_In, list_elem_of_lookup. eauto.
Qed.

Lemma insert_all_at_ok partition field v : forall docs,
  docs_ok docs -> bson_ok v = true -> docs_ok (insert_all_at docs partition field v).
Proof.
  unfold insert_all_at. induction partition as [|i p IH]; intros docs Hd Hv; simpl; [done|].
  apply IH; [by apply insert_at_ok|done].
Qed.

Lemma rank_loop_ok dense sb field partition : forall prev rank pos docs,
  in_range i32_min i32_max rank = true -> docs_ok docs ->
  docs_ok (rank_loop dense sb field prev rank pos partition docs).
Proof.
  induction partition as [|i p IH]; intros prev rank pos docs Hr Hd; cbn [rank_loop]; [done|].
  set (rank' := match prev with Some _ => _ | None => _ end).
  assert (Hr' : in_range i32_min i32_max rank' = true).
  { unfold rank'. destruct prev; [|done]. destruct (sort_keys_equal _ _ _); [done|].
    destruct dense; apply wrap_i32_range. }
  apply IH; [done|by apply insert_at_ok].
Qed.

Lemma number_loop_ok field partition docs : docs_ok docs -> docs_ok (number_loop field partition docs).
Proof.
  unfold number_loop. set (f := fun '(pos, docs) idx => _).
  assert (H : forall n docs, docs_ok docs -> docs_ok (snd (fold_left f partition (n, docs)))); [|apply H].
  induction partition as [|i p IH]; intros n ds Hd; simpl; [done|].
  apply IH, insert_at_ok; [done|apply wrap_i32_range].
Qed.

Lemma doc_nth_ok docs i : docs_ok docs -> doc_ok (doc_nth docs i) = true.
Proof. intros Hd. unfold doc_nth. destruct (nth_in_or_default i docs []) as [H| ->]; [by apply Hd|done]. Qed.

Lemma shift_values_ok op_expr partition docs vs :
  docs_ok docs -> bson_ok op_expr = true -> shift_values op_expr partition docs = Ok vs ->
  forall v, In v vs -> bson_ok v = true.
Proof.
  intros Hd He H v Hv. unfold shift_values in H. destruct op_expr as [| | |sd| | | | | | | | | | | | | | | | |]; try done.
  destruct (doc_get sd "output") as [oe|] eqn:Eo; [|done].
  assert (Hdef : bson_ok (or_null (doc_get sd "default")) = true)
    by (apply or_null_ok; intros w Hw; exact (get_ok _ _ _ He Hw)).
  destruct (map_result_In _ _ _ _ H Hv) as (pos & _ & E). cbv zeta in E.
  match type of E with (if ?c then _ else _) = _ => destruct c end; [|by injection E as <-].
  destruct (evaluate_expression _ oe) as [w|[e|m]] eqn:Ew; [|by injection E as <-|done]. injection E as <-.
  refine (eval_typed _ _ _ _ (get_ok _ _ _ He Eo) Ew). by apply doc_nth_ok.
Qed.

Lemma shift_loop_ok field partition vs : forall docs,
  (forall v, In v vs -> bson_ok v = true) -> docs_ok docs -> docs_ok (shift_loop field partition vs docs).
Proof.
  unfold shift_loop. revert vs. induction partition as [|i p IH]; intros [|v vs] docs Hv Hd; simpl; try done.
  apply IH; [intros w Hw; apply Hv; by right|]. apply insert_at_ok; [done|]. apply Hv. by left.
Qed.

Lemma window_total_ok op op_expr partition docs v :
  docs_ok docs -> bson_ok op_expr = true -> window_total op op_expr partition docs = Ok v -> bson_ok v = true.
Proof.
  intros Hd He H. unfold window_total in H. destruct (fold_result _ no_window partition) as [w|] eqn:Ef; [|done].
  assert (Hw : (forall v, w_min w = Some v -> bson_ok v = true) /\ (forall v, w_max w = Some v -> bson_ok v = true)).
  { revert Ef. apply (fold_result_inv (fun w => (forall v, w_min w = Some v -> bson_ok v = true) /\
      (forall v, w_max w = Some v -> bson_ok v = true))); [|done].
    intros w0 i w1 _ [H1 H2] E. destruct (evaluate_expression _ op_expr) as [x|] eqn:Ex; [|done]. injection E as <-.
    assert (Hx : bson_ok x = true) by (refine (eval_typed _ _ _ _ He Ex); by apply doc_nth_ok).
    unfold window_step. destruct (bson_to_f64 x); [|done]. cbn [w_min w_max].
    split; intros y [= <-]; [destruct (w_min w0)|destruct (w_max w0)]; try done; destruct (f64_ltb _ _); auto. }
  destruct Hw as [H1 H2]. injection H as <-. destruct (op =s? "$sum"); [done|]. destruct (op =s? "$avg"); [by destruct (0 <? w_count w)%Z|].
  destruct (op =s? "$min"); by apply or_null_ok.
Qed.

Lemma window_partition_ok sb field op op_expr docs partition r :
  docs_ok docs -> bson_ok op_expr = true -> window_partition sb field op op_expr docs partition = Ok r -> docs_ok r.
Proof.
  intros Hd He H. unfold window_partition in H.
  repeat match type of H with (if ?c then _ else _) = _ => destruct c end; [..|done].
  - injection H as <-. by apply rank_loop_ok.
  - injection H as <-. by apply rank_loop_ok.
  - injection H as <-. by apply number_loop_ok.
  - injection H as <-. apply insert_all_at_ok; [done|apply wrap_i32_range].
  - destruct partition as [|i p]; [done|]. destruct (evaluate_expression _ op_expr) as [v|] eqn:E; [|done].
    injection H as <-. apply (insert_all_at_ok (i :: p)); [done|]. refine (eval_typed _ _ _ _ He E). by apply doc_nth_ok.
  - destruct (last partition) as [i|]; [|by injection H as <-].
    destruct (evaluate_expression _ op_expr) as [v|] eqn:E; [|done].
    injection H as <-. apply insert_all_at_ok; [done|]. refine (eval_typed _ _ _ _ He E). by apply doc_nth_ok.
  - destruct (shift_values op_expr partition docs) as [vs|] eqn:E; [|done]. injection H as <-.
    apply shift_loop_ok; [|done]. exact (shift_values_ok _ _ _ _ Hd He E).
  - destruct (window_total op op_expr partition docs) as [v|] eqn:E; [|done]. injection H as <-.
    apply insert_all_at_ok; [done|]. exact (window_total_ok _ _ _ _ _ Hd He E).
Qed.

Lemma stage_set_window_fields_typed : typed_batch stage_set_window_fields.
Proof.
  intros docs spec r Hd Hs H. unfold stage_set_window_fields in H.
  destruct spec as [| | |wf| | | | | | | | | | | | | | | | |]; try done.
  destruct (doc_get_as as_document wf "output") as [output|] eqn:Eo; [|done].
  assert (Ho : doc_ok output = true) by (apply (output_ok wf Hs); by rewrite Eo).
  match type of H with match ?m with Ok _ => _ | Err _ => _ end = _ => destruct m as [sorted|] eqn:Es end; [|done].
  assert (Hsd : docs_ok sorted).
  { destruct (doc_get_as as_document wf "sortBy"); injection Es as <-; [|done]. eapply docs_ok_perm; [apply sort_by_perm|done]. }
  destruct (window_partitions _ _) as [ps|]; [|done].
  revert H. apply (fold_result_inv docs_ok); [|done]. intros acc [field ws] acc' Hin Hacc E.
  assert (Hws : bson_ok ws = true) by (apply doc_ok_spec in Ho as [_ Ho]; by eapply Ho).
  unfold window_field in E. destruct (find _ _) as [[op oe]|] eqn:Ef; [|done].
  apply find_some in Ef as [Hop _]. assert (Hoe : bson_ok oe = true).
  { destruct ws; try done. apply doc_ok_spec in Hws as [_ Hws]. by eapply Hws. }
  revert E. apply (fold_result_inv docs_ok); [|done]. intros acc1 p acc2 _ Hacc1 E.
  by eapply window_partition_ok.
Qed.
End Types.
