(* ===== verification/Joins.v ===== *)
(** * Join stages

    [src/rust/smongo-engine/src/aggregation/stages.rs]: [$lookup] (a hash join,
    or a sub-pipeline for each document), [$graphLookup] (a breadth-first
    search), [$facet] and [$unionWith], over a resolver of collection names;
    and the write stages [$out] and [$merge] over a mutator.  The pipeline that
    the sub-pipelines run in is a parameter, [Pipeline] closes the recursion. *)

From Stdlib Require Import ZArith Lia Ascii String Strings.Byte Permutation Sorted.
From S2P Require Import Prelude F64 Bson RefBson Paths Geo Query Update Schema Collation Expressions Accumulators Stages StageLaws.
From stdpp Require Import base tactics list strings.

Open Scope string_scope.
Open Scope list_scope.

(** Source: aggregation/mod.rs:89-91 (CollectionResolver). *)
Record CollectionResolver : Type := {
  resolve : string -> option document -> result (list document) agg_failure }.

(** ** Maps from key bytes to lists *)

(** [map.entry(key).or_default().push(x)]. *)
Fixpoint push_entry {X} (m : list (bytes * list X)) (key : bytes) (x : X) : list (bytes * list X) :=
  match m with
  | [] => [(key, [x])]
  | (k, l) :: rest => if bytes_eqb k key then (k, l ++ [x]) :: rest else (k, l) :: push_entry rest key x
  end.

(** [map.get(key)]. *)
Fixpoint get_entry {X} (m : list (bytes * list X)) (key : bytes) : option (list X) :=
  match m with
  | [] => None
  | (k, l) :: rest => if bytes_eqb k key then Some l else get_entry rest key
  end.

Section Joins.
Context {B : BsonOps} {Lm : Libm} {G : S2} {T : TextEnv} {FP : F64Parse} {A : AggEnv} {SE : StdEnv}.
#[local] Existing Instance engine.
Context (aggregate_with_resolver :
  list document -> list document -> option CollectionResolver -> result (list document) agg_failure).

(** Source: aggregation/stages.rs:20-25 (canonical_bson_key). *)
Definition canonical_opt_key (val : option bson) : bytes :=
  match val with Some v => canonical_bson_key v | None => [] end.

(** [doc.get_str(key).map_err(|_| MissingField(..))]. *)
Definition required_str (d : document) (key msg : string) : result string agg_failure :=
  match doc_get_as as_str d key with Ok s => Ok s | Err _ => missing_field msg end.

(** [iter().filter_map(|s| s.as_document().cloned())]. *)
Definition stages_of (arr : list bson) : list document := omap as_document arr.

(** ** [$lookup] *)

(** Source: aggregation/stages.rs:756-781 (substitute_var). *)
Fixpoint substitute_var (expr : bson) (var_name : string) (value : bson) : bson :=
  match expr with
  | BString s =>
      if s =s? ("$$" ++ var_name)%string then value
      else match Prelude.strip_prefix ("$$" ++ var_name ++ ".")%string s with
           | Some suffix => match value with BDocument d => or_null (get_value d suffix) | _ => BNull end
           | None => expr
           end
  | BDocument d =>
      BDocument (fold_left (fun new_doc '(k, v) => doc_insert new_doc k v)
        (map (fun kv => (fst kv, substitute_var (snd kv) var_name value)) d) [])
  | BArray arr => BArray (map (fun v => substitute_var v var_name value) arr)
  | other => other
  end.

(** Source: aggregation/stages.rs:722-737 (stage_lookup_pipeline). The pipeline of one document. *)
Definition bind_pipeline (vars : document) (sub_pipeline : list document) (doc : document)
  : result (list document) agg_failure :=
  let? bound := map_result (fun '(var_name, var_expr) =>
    let? v := evaluate_expression doc var_expr in Ok (var_name, v)) vars in
  Ok (map (fun stage =>
    match fold_left (fun s '(name, v) => substitute_var s name v) bound (BDocument stage) with
    | BDocument d => d
    | _ => []
    end) sub_pipeline).

(** Source: aggregation/stages.rs:678-753 (stage_lookup_pipeline). *)
Definition stage_lookup_pipeline (docs : list document) (lookup_doc : document)
  (resolver : option CollectionResolver) : result (list document) agg_failure :=
  let? from := required_str lookup_doc "from" "$lookup.from required" in
  let? as_field := required_str lookup_doc "as" "$lookup.as required" in
  match doc_get_as as_array_opt lookup_doc "pipeline" with
  | Err _ => missing_field "$lookup.pipeline required"
  | Ok pipeline_bson =>
      match resolver with
      | None => Err (AggErr (AggOther "$lookup requires a CollectionResolver"))
      | Some r =>
          let sub_pipeline := stages_of pipeline_bson in
          let? foreign_docs := resolve r from None in
          let with_field doc matched :=
            doc_insert doc as_field (BArray (map BDocument matched)) in
          match doc_get_as as_document lookup_doc "let" with
          | Err _ =>
              let? matched := aggregate_with_resolver foreign_docs sub_pipeline (Some r) in
              Ok (map (fun doc => with_field doc matched) docs)
          | Ok vars =>
              map_result (fun doc =>
                let? resolved_pipeline := bind_pipeline vars sub_pipeline doc in
                let? matched := aggregate_with_resolver foreign_docs resolved_pipeline (Some r) in
                Ok (with_field doc matched)) docs
          end
      end
  end.

(** Source: aggregation/stages.rs:653-657 (stage_lookup). *)
Definition foreign_map (foreign_field : string) (foreign_docs : list document) : list (bytes * list document) :=
  fold_left (fun m fdoc => push_entry m (canonical_opt_key (get_value fdoc foreign_field)) fdoc) foreign_docs [].

(** Source: aggregation/stages.rs:623-675 (stage_lookup). *)
Definition stage_lookup (docs : list document) (spec : bson) (resolver : option CollectionResolver)
  : result (list document) agg_failure :=
  match spec with
  | BDocument lookup_doc =>
      match doc_get_as as_array_opt lookup_doc "pipeline" with
      | Ok _ => stage_lookup_pipeline docs lookup_doc resolver
      | Err _ =>
          let? from := required_str lookup_doc "from" "$lookup.from required" in
          let? local_field := required_str lookup_doc "localField" "$lookup.localField required" in
          let? foreign_field := required_str lookup_doc "foreignField" "$lookup.foreignField required" in
          let? as_field := required_str lookup_doc "as" "$lookup.as required" in
          match resolver with
          | None => Err (AggErr (AggOther "$lookup requires a CollectionResolver"))
          | Some r =>
              let? foreign_docs := resolve r from None in
              let m := foreign_map foreign_field foreign_docs in
              Ok (map (fun doc =>
                let matches := match get_entry m (canonical_opt_key (get_value doc local_field)) with
                               | Some v => map BDocument v
                               | None => []
                               end in
                doc_insert doc as_field (BArray matches)) docs)
          end
      end
  | _ => invalid_stage "$lookup requires document"
  end.

(** ** [$graphLookup] *)

Definition seen (visited : list bytes) (key : bytes) : bool := existsb (bytes_eqb key) visited.

(** The arguments of the search. *)
Record graph_spec : Type := {
  connect_from : string; connect_to : string; max_depth : option Z;
  depth_field : option string; restrict : option document }.

(** The state of the search: the keys visited, the values to follow with their depth,
    and the documents found. *)
Record graph_state : Type := {
  visited : list bytes; queue : list (bson * Z); found : list document }.

(** Source: aggregation/stages.rs:835-840 (stage_graph_lookup). *)
Definition start_state (start_vals : list bson) : graph_state :=
  fold_left (fun st sv =>
    let key := canonical_bson_key sv in
    if seen (visited st) key then st
    else {| visited := key :: visited st; queue := queue st ++ [(sv, 0%Z)]; found := found st |})
    start_vals {| visited := []; queue := []; found := [] |}.

(** The values of a field: the elements of an array, or the value itself. *)
Definition field_values (doc : document) (field : string) : list bson :=
  match get_value doc field with
  | Some (BArray arr) => arr
  | Some v => [v]
  | None => []
  end.

(** Source: aggregation/stages.rs:844-863 (stage_graph_lookup). *)
Definition connect_to_index (gs : graph_spec) (foreign_docs : list document) : list (bytes * list nat) :=
  snd (fold_left (fun '(i, m) fdoc =>
        (S i, fold_left (fun m item => push_entry m (canonical_bson_key item) i)
                (field_values fdoc (connect_to gs)) m)) foreign_docs (0%nat, [])).

(** Source: aggregation/stages.rs:899-917 (stage_graph_lookup). *)
Definition follow (gs : graph_spec) (fdoc : document) (depth : Z) (st : graph_state) : graph_state :=
  {| visited := visited st;
     queue := queue st ++ map (fun nv => (nv, wrap_i64 (depth + 1)))
                (List.filter (fun nv => negb (seen (visited st) (canonical_bson_key nv)))
                   (field_values fdoc (connect_from gs)));
     found := found st |}.

(** Source: aggregation/stages.rs:879-917 (stage_graph_lookup). One candidate. *)
Definition visit_candidate (gs : graph_spec) (foreign_docs : list document) (depth : Z)
  (st : graph_state) (fi : nat) : result graph_state agg_failure :=
  let fdoc := doc_nth foreign_docs fi in
  let? keep := match restrict gs with
               | Some restrict_filter => matches_or_false fdoc restrict_filter
               | None => Ok true
               end in
  if negb keep then Ok st
  else
    let fdoc_key := canonical_bson_key (BDocument fdoc) in
    if seen (visited st) fdoc_key then Ok st
    else
      let found_doc := match depth_field gs with
                       | Some df => doc_insert fdoc df (BInt64 depth)
                       | None => fdoc
                       end in
      Ok (follow gs fdoc depth
            {| visited := fdoc_key :: visited st; queue := queue st; found := found st ++ [found_doc] |}).

(** Source: aggregation/stages.rs:865-919 (stage_graph_lookup). The search; the fuel bounds the
    values taken off the queue. *)
Fixpoint graph_loop (fuel : nat) (gs : graph_spec) (foreign_docs : list document)
  (index : list (bytes * list nat)) (st : graph_state) : result graph_state agg_failure :=
  match queue st, fuel with
  | [], _ => Ok st
  | _, O => Err (AggPanic "out of fuel")
  | (current_val, depth) :: rest, S fuel =>
      let st := {| visited := visited st; queue := rest; found := found st |} in
      if match max_depth gs with Some md => (md <? depth)%Z | None => false end
      then graph_loop fuel gs foreign_docs index st
      else match get_entry index (canonical_bson_key current_val) with
           | None => graph_loop fuel gs foreign_docs index st
           | Some candidates =>
               let? st := fold_result (visit_candidate gs foreign_docs depth) st candidates in
               graph_loop fuel gs foreign_docs index st
           end
  end.

(** Enough rounds: one for each start value, and one for each link of each foreign
    document, which is visited once. *)
Definition graph_fuel (gs : graph_spec) (foreign_docs : list document) (start_vals : list bson) : nat :=
  length start_vals + list_sum (map (fun d => length (field_values d (connect_from gs))) foreign_docs).

(** Source: aggregation/stages.rs:830-920 (stage_graph_lookup). One document. *)
Definition graph_search (gs : graph_spec) (foreign_docs : list document) (start_vals : list bson)
  : result (list document) agg_failure :=
  let? st := graph_loop (graph_fuel gs foreign_docs start_vals) gs foreign_docs
               (connect_to_index gs foreign_docs) (start_state start_vals) in
  Ok (found st).

(** Source: aggregation/stages.rs:787-930 (stage_graph_lookup). *)
Definition stage_graph_lookup (docs : list document) (spec : bson) (resolver : option CollectionResolver)
  : result (list document) agg_failure :=
  match spec with
  | BDocument gl_doc =>
      let? from := required_str gl_doc "from" "from required" in
      match doc_get gl_doc "startWith" with
      | None => missing_field "startWith required"
      | Some start_with =>
          let? connect_from := required_str gl_doc "connectFromField" "connectFromField required" in
          let? connect_to := required_str gl_doc "connectToField" "connectToField required" in
          let? as_field := required_str gl_doc "as" "as required" in
          let gs := {| connect_from := connect_from; connect_to := connect_to;
                       max_depth := and_then (doc_get gl_doc "maxDepth") int_as_i64;
                       depth_field := match doc_get_as as_str gl_doc "depthField" with
                                      | Ok s => Some s | Err _ => None end;
                       restrict := match doc_get_as as_document gl_doc "restrictSearchWithMatch" with
                                   | Ok d => Some d | Err _ => None end |} in
          match resolver with
          | None => Err (AggErr (AggOther "$graphLookup requires a CollectionResolver"))
          | Some r =>
              let? foreign_docs := resolve r from None in
              map_result (fun doc =>
                let? start_val := evaluate_expression doc start_with in
                let start_vals := match start_val with BArray arr => arr | other => [other] end in
                let? found := graph_search gs foreign_docs start_vals in
                Ok (doc_insert doc as_field (BArray (map BDocument found)))) docs
          end
      end
  | _ => invalid_stage "$graphLookup requires document"
  end.

(** ** [$facet] and [$unionWith] *)

(** Source: aggregation/stages.rs:936-965 (stage_facet). *)
Definition stage_facet (docs : list document) (spec : bson) (resolver : option CollectionResolver)
  : result (list document) agg_failure :=
  match spec with
  | BDocument facet_doc =>
      let? result := fold_result (fun result '(name, pipeline_bson) =>
        match pipeline_bson with
        | BArray arr =>
            let? facet_result := aggregate_with_resolver docs (stages_of arr) resolver in
            Ok (doc_insert result name (BArray (map BDocument facet_result)))
        | _ => invalid_stage ("$facet." ++ name ++ " must be an array")%string
        end) [] facet_doc in
      Ok [result]
  | _ => invalid_stage "$facet requires document"
  end.

(** Source: aggregation/stages.rs:1700-1739 (stage_union_with). *)
Definition stage_union_with (docs : list document) (spec : bson) (resolver : option CollectionResolver)
  : result (list document) agg_failure :=
  match resolver with
  | None => Err (AggErr (AggOther "$unionWith requires a CollectionResolver"))
  | Some r =>
      let? (coll_name, sub_pipeline) :=
        match spec with
        | BString name => Ok (name, [])
        | BDocument d =>
            let? name := required_str d "coll" "$unionWith.coll required" in
            Ok (name, match doc_get_as as_array_opt d "pipeline" with Ok a => stages_of a | Err _ => [] end)
        | _ => invalid_stage "$unionWith requires string or document"
        end in
      let? foreign_docs := resolve r coll_name None in
      let? foreign_docs := match sub_pipeline with
                           | [] => Ok foreign_docs
                           | _ => aggregate_with_resolver foreign_docs sub_pipeline (Some r)
                           end in
      Ok (docs ++ foreign_docs)
  end.

(** Source: aggregation/stages.rs:1642-1651 (stage_lookup_stream). *)
Definition stage_lookup_stream (input : DocStream) (spec : bson) (resolver : option CollectionResolver)
  : option Z -> result DocStream agg_failure :=
  blocking "$lookup" (fun docs => stage_lookup docs spec resolver) input.

(** Source: aggregation/stages.rs:1653-1662 (stage_graph_lookup_stream). *)
Definition stage_graph_lookup_stream (input : DocStream) (spec : bson) (resolver : option CollectionResolver)
  : option Z -> result DocStream agg_failure :=
  blocking "$graphLookup" (fun docs => stage_graph_lookup docs spec resolver) input.

(** Source: aggregation/stages.rs:1664-1673 (stage_facet_stream). *)
Definition stage_facet_stream (input : DocStream) (spec : bson) (resolver : option CollectionResolver)
  : option Z -> result DocStream agg_failure :=
  blocking "$facet" (fun docs => stage_facet docs spec resolver) input.

(** Source: aggregation/stages.rs:1689-1698 (stage_union_with_stream). *)
Definition stage_union_with_stream (input : DocStream) (spec : bson) (resolver : option CollectionResolver)
  : option Z -> result DocStream agg_failure :=
  blocking "$unionWith" (fun docs => stage_union_with docs spec resolver) input.
End Joins.

(** ** Maps from key bytes to lists: what they hold *)

Section Entries.
Context {X : Type}.

Lemma bytes_eqb_eq a b : bytes_eqb a b = true <-> a = b.
Proof. unfold bytes_eqb. rewrite <- bytes_cmp_eq. by destruct (bytes_cmp a b). Qed.

Lemma bytes_eqb_sym a b : bytes_eqb a b = bytes_eqb b a.
Proof. apply eq_true_iff_eq. rewrite !bytes_eqb_eq. split; congruence. Qed.

Definition entries (m : list (bytes * list X)) (key : bytes) : list X :=
  match get_entry m key with Some l => l | None => [] end.

Lemma entries_push m k x key :
  entries (push_entry m k x) key = entries m key ++ (if bytes_eqb k key then [x] else []).
Proof.
  unfold entries. induction m as [|[k0 l] m IH]; simpl; [by destruct (bytes_eqb k key)|].
  destruct (bytes_eqb k0 k) eqn:E0; simpl.
  - apply bytes_eqb_eq in E0 as ->. destruct (bytes_eqb k key) eqn:E1; [done|]. by rewrite app_nil_r.
  - destruct (bytes_eqb k0 key) eqn:E1; [|done]. apply bytes_eqb_eq in E1 as ->.
    rewrite bytes_eqb_sym, E0. by rewrite app_nil_r.
Qed.

Lemma entries_fold {Y} (key_of : Y -> bytes) (val_of : Y -> X) l key : forall m,
  entries (fold_left (fun m y => push_entry m (key_of y) (val_of y)) l m) key =
  entries m key ++ map val_of (List.filter (fun y => bytes_eqb (key_of y) key) l).
Proof.
  induction l as [|y l IH]; intros m; simpl; [by rewrite app_nil_r|].
  rewrite IH, entries_push, <- app_assoc. by destruct (bytes_eqb (key_of y) key).
Qed.
End Entries.

Section HashJoin.
Context {B : BsonOps} {Lm : Libm} {G : S2} {T : TextEnv} {FP : F64Parse} {A : AggEnv} {SE : StdEnv}
  {BL : BsonLaws B} {BC : BsonCodecLaws B} {BO : BsonOrderLaws B}.

(** A value that the codec writes, or an absent one. *)
Definition encodable_opt (o : option bson) : Prop := match o with Some v => encodable v | None => True end.

Lemma encodable_key v : encodable v -> canonical_bson_key v <> [].
Proof.
  intros (_ & _ & b & E). unfold canonical_bson_key. rewrite E. by eapply to_vec_nonempty.
Qed.

Lemma opt_key_inj a b :
  encodable_opt a -> encodable_opt b -> canonical_opt_key a = canonical_opt_key b -> a = b.
Proof.
  destruct a as [v|], b as [w|]; simpl; intros Ha Hb E; [|..|done].
  - f_equal. by apply canonical_bson_key_inj.
  - by apply encodable_key in Ha.
  - by apply encodable_key in Hb.
Qed.

(** The foreign documents with the value of the local one, in their order. *)
Definition join_matches (foreign_field local_field : string) (foreign : list document) (doc : document)
  : list document :=
  List.filter (fun f => bytes_eqb (canonical_opt_key (get_value f foreign_field))
                          (canonical_opt_key (get_value doc local_field))) foreign.

Lemma foreign_map_entries ff foreign key :
  entries (foreign_map ff foreign) key =
  List.filter (fun f => bytes_eqb (canonical_opt_key (get_value f ff)) key) foreign.
Proof.
  unfold foreign_map. rewrite (entries_fold (fun f => canonical_opt_key (get_value f ff)) (fun f => f)).
  simpl. by rewrite map_id.
Qed.

(** C35: the hash join of [$lookup] is the nested-loop join: every document, in
    order, gets the array of the foreign documents, in their order, whose foreign
    field has the value of its local field (absent matching absent). *)
Theorem lookup_is_nested_loop agg docs lookup_doc r from lf ff as_field foreign :
  is_ok (doc_get_as as_array_opt lookup_doc "pipeline") = false ->
  doc_get_as as_str lookup_doc "from" = Ok from -> doc_get_as as_str lookup_doc "localField" = Ok lf ->
  doc_get_as as_str lookup_doc "foreignField" = Ok ff -> doc_get_as as_str lookup_doc "as" = Ok as_field ->
  resolve r from None = Ok foreign ->
  stage_lookup agg docs (BDocument lookup_doc) (Some r) =
    Ok (map (fun doc => doc_insert doc as_field (BArray (map BDocument (join_matches ff lf foreign doc)))) docs) /\
  forall doc f, encodable_opt (get_value doc lf) -> encodable_opt (get_value f ff) ->
    (In f (join_matches ff lf foreign doc) <-> In f foreign /\ get_value f ff = get_value doc lf).
Proof.
  intros Hp Hf Hl Hff Ha Hr. split.
  - unfold stage_lookup, required_str. destruct (doc_get_as as_array_opt lookup_doc "pipeline"); [done|].
    rewrite Hf, Hl, Hff, Ha, Hr. f_equal. apply map_ext. intros doc. do 2 f_equal.
    unfold join_matches. rewrite <- foreign_map_entries. unfold entries. by destruct (get_entry _ _).
  - intros doc f Hd Hfd. unfold join_matches. rewrite List.filter_In, bytes_eqb_eq. split.
    + intros [Hin E]. split; [done|]. by apply opt_key_inj.
    + intros [Hin ->]. done.
Qed.
End HashJoin.

Section Witnesses.
Import RefAgg RefStd.

Lemma lookup_is_nested_loop_witness :
  let foreign := [[("k", BInt32 1); ("v", BString "one")]; [("k", BInt32 2); ("v", BString "two")]] in
  let spec := [("from", BString "items"); ("localField", BString "x"); ("foreignField", BString "k"); ("as", BString "out")] in
  let r := {| resolve := fun _ _ => Ok foreign |} in
  stage_lookup (fun _ _ _ => Ok []) (xs [2]%Z) (BDocument spec) (Some r) =
    Ok (map (fun doc => doc_insert doc "out" (BArray (map BDocument (join_matches "k" "x" foreign doc)))) (xs [2]%Z)) /\
  join_matches "k" "x" foreign [("x", BInt32 2)] = [[("k", BInt32 2); ("v", BString "two")]].
Proof.
  intros foreign spec r. split; [|vm_compute; reflexivity].
  refine (proj1 (lookup_is_nested_loop (fun _ _ _ => Ok []) (xs [2]%Z) spec r "items" "x" "k" "out" foreign
    _ _ _ _ _ _)); [exact RefBson.order_laws|reflexivity..].
Defined.
End Witnesses.
