(* ===== verification/GraphLookup.v ===== *)
(** * The search of [$graphLookup]

    The breadth-first search of [Joins] terminates: each round takes one value
    off the queue, and the links of a foreign document join the queue once.
    Without a depth limit it finds exactly the foreign documents that are
    reachable from the start values. *)

From Stdlib Require Import ZArith Lia Ascii String Strings.Byte Permutation Sorted.
From S2P Require Import Prelude F64 Bson RefBson Paths Geo Query Update Schema Collation Expressions Accumulators Stages StageLaws Joins.
From stdpp Require Import base tactics list strings.

Open Scope string_scope.
Open Scope list_scope.

Section Graph.
Context {B : BsonOps} {Lm : Libm} {G : S2} {T : TextEnv} {FP : F64Parse} {A : AggEnv} {SE : StdEnv}
  (gs : graph_spec) (fd : list document).
#[local] Existing Instance engine.

Abbreviation key := canonical_bson_key.
Abbreviation dkey d := (canonical_bson_key (BDocument d)).

(** ** The loop as a relation

    [searches st r]: from the state [st], the [while let] loop ends with [r]. *)
Inductive searches (index : list (bytes * list nat)) : graph_state -> result graph_state agg_failure -> Prop :=
| search_done st : queue st = [] -> searches index st (Ok st)
| search_skip st v depth rest r :
    queue st = (v, depth) :: rest ->
    match max_depth gs with Some md => (md <? depth)%Z | None => false end = true \/
      get_entry index (key v) = None ->
    searches index {| visited := visited st; queue := rest; found := found st |} r ->
    searches index st r
| search_visit st v depth rest candidates st' r :
    queue st = (v, depth) :: rest ->
    match max_depth gs with Some md => (md <? depth)%Z | None => false end = false ->
    get_entry index (key v) = Some candidates ->
    fold_result (visit_candidate gs fd depth) {| visited := visited st; queue := rest; found := found st |}
      candidates = Ok st' ->
    searches index st' r -> searches index st r
| search_fails st v depth rest candidates e :
    queue st = (v, depth) :: rest ->
    match max_depth gs with Some md => (md <? depth)%Z | None => false end = false ->
    get_entry index (key v) = Some candidates ->
    fold_result (visit_candidate gs fd depth) {| visited := visited st; queue := rest; found := found st |}
      candidates = Err e ->
    searches index st (Err e).

(** ** Termination *)

Definition outdeg (d : document) : nat := length (field_values d (connect_from gs)).

(** The values in the queue, and the links of the documents not visited. *)
Definition unvisited (vis : list bytes) : list document := List.filter (fun d => negb (seen vis (dkey d))) fd.
Definition potential (st : graph_state) : nat :=
  length (queue st) + list_sum (map outdeg (unvisited (visited st))).

Lemma seen_cons k vis k' : seen (k :: vis) k' = bytes_eqb k' k || seen vis k'.
Proof. done. Qed.

Lemma sum_filter_le {X} (f : X -> nat) (p q : X -> bool) l :
  (forall x, p x = true -> q x = true) ->
  (list_sum (map f (List.filter p l)) <= list_sum (map f (List.filter q l)))%nat.
Proof.
  intros H. induction l as [|x l IH]; simpl; [done|].
  destruct (p x) eqn:Ep; [rewrite (H x Ep); simpl; lia|]. destruct (q x); simpl; lia.
Qed.

Lemma sum_filter_drop {X} (f : X -> nat) (p q : X -> bool) l x :
  (forall y, p y = true -> q y = true) -> In x l -> q x = true -> p x = false ->
  (f x + list_sum (map f (List.filter p l)) <= list_sum (map f (List.filter q l)))%nat.
Proof.
  intros H. induction l as [|y l IH]; intros Hin Hq Hp; [done|]. simpl.
  pose proof (sum_filter_le f p q l H) as Hle. destruct Hin as [->|Hin].
  - rewrite Hp, Hq. simpl. lia.
  - specialize (IH Hin Hq Hp). destruct (p y) eqn:Ep; [rewrite (H y Ep); simpl; lia|]. destruct (q y); simpl; lia.
Qed.

Lemma visit_potential depth st fi st' :
  (fi < length fd)%nat -> visit_candidate gs fd depth st fi = Ok st' -> (potential st' <= potential st)%nat.
Proof.
  intros Hfi H. unfold visit_candidate in H.
  match type of H with match ?m with Ok _ => _ | Err _ => _ end = _ => destruct m as [keep|] end; [|done].
  destruct (negb keep); [by injection H as <-|]. set (d := doc_nth fd fi) in *.
  destruct (seen (visited st) (dkey d)) eqn:Es; [by injection H as <-|]. injection H as <-.
  unfold potential, follow. cbn [queue visited found]. rewrite length_app, length_map.
  set (p := fun d0 => negb (seen (dkey d :: visited st) (dkey d0))).
  set (q := fun d0 => negb (seen (visited st) (dkey d0))).
  assert (Hsum : (outdeg d + list_sum (map outdeg (List.filter p fd)) <= list_sum (map outdeg (List.filter q fd)))%nat).
  { apply sum_filter_drop.
    - intros y. unfold p, q. rewrite seen_cons. by destruct (bytes_eqb _ _), (seen _ _).
    - unfold d, doc_nth. by apply nth_In.
    - unfold q. by rewrite Es.
    - unfold p. rewrite seen_cons. by rewrite (proj2 (bytes_eqb_eq _ _) eq_refl). }
  unfold unvisited. fold p q.
  match goal with |- context [length (List.filter ?g ?l)] => pose proof (List.filter_length_le g l) as Hf end.
  unfold outdeg in Hsum at 1. lia.
Qed.

Lemma visits_potential depth cands : forall st st',
  Forall (fun fi => (fi < length fd)%nat) cands ->
  fold_result (visit_candidate gs fd depth) st cands = Ok st' -> (potential st' <= potential st)%nat.
Proof.
  induction cands as [|fi cands IH]; intros st st' Hc H; simpl in H; [by injection H as <-|].
  inversion_clear Hc as [|? ? Hfi Hc']. destruct (visit_candidate gs fd depth st fi) as [st1|] eqn:E; [|done].
  etrans; [by eapply IH|]. by eapply visit_potential.
Qed.

(** The candidates of an index are positions of foreign documents. *)
Definition index_ok (index : list (bytes * list nat)) : Prop :=
  forall k c, get_entry index k = Some c -> Forall (fun fi => (fi < length fd)%nat) c.

Lemma loop_searches index : index_ok index ->
  forall fuel st, (potential st <= fuel)%nat -> searches index st (graph_loop fuel gs fd index st).
Proof.
  intros Hix. induction fuel as [|fuel IH]; intros st Hp; cbn [graph_loop].
  { destruct (queue st) as [|x q] eqn:Eq; [by apply search_done|].
    unfold potential in Hp. rewrite Eq in Hp. simpl in Hp. lia. }
  destruct (queue st) as [|[v depth] rest] eqn:Eq; [by apply search_done|].
  set (st1 := {| visited := visited st; queue := rest; found := found st |}).
  assert (Hp1 : (potential st1 <= fuel)%nat).
  { unfold potential in *. cbn [queue visited st1]. rewrite Eq in Hp. simpl in Hp. lia. }
  match goal with |- context [if ?c then _ else _] => destruct c eqn:Ed end.
  { eapply search_skip; [exact Eq|by left|]. by apply IH. }
  destruct (get_entry index (key v)) as [cands|] eqn:Ec; [|eapply search_skip; [exact Eq|by right|by apply IH]].
  destruct (fold_result (visit_candidate gs fd depth) st1 cands) as [st2|e] eqn:Ef.
  - eapply search_visit; [exact Eq|exact Ed|exact Ec|exact Ef|]. apply IH.
    pose proof (visits_potential depth cands st1 st2 (Hix _ _ Ec) Ef). lia.
  - by eapply search_fails.
Qed.

(** *** The index *)

(** The document [d] has the value [v] at [connectToField]. *)
Definition connected (d : document) (v : bson) : Prop :=
  exists item, In item (field_values d (connect_to gs)) /\ key item = key v.

Definition links : list (bson * nat) :=
  concat (imap (fun i d => map (fun item => (item, i)) (field_values d (connect_to gs))) fd).

Lemma index_fold docs : forall i m,
  snd (fold_left (fun '(i, m) fdoc =>
        (S i, fold_left (fun m item => push_entry m (key item) i) (field_values fdoc (connect_to gs)) m))
      docs (i, m)) =
  fold_left (fun m p => push_entry m (key (fst p)) (snd p))
    (concat (imap (fun j d => map (fun item => (item, (i + j)%nat)) (field_values d (connect_to gs))) docs)) m.
Proof.
  induction docs as [|d docs IH]; intros i m; cbn [fold_left]; [done|]. rewrite IH. cbn [imap concat].
  rewrite fold_left_app. f_equal.
  - f_equal. apply imap_ext. intros j x _. simpl. apply map_ext. intros item. f_equal. lia.
  - rewrite Nat.add_0_r. generalize m. induction (field_values d (connect_to gs)) as [|x l IHl]; intros m0; simpl; [done|].
    by rewrite IHl.
Qed.

Lemma links_In item i : In (item, i) links <->
  exists d, fd !! i = Some d /\ In item (field_values d (connect_to gs)).
Proof.
  unfold links. rewrite in_concat. split.
  - intros (l & Hl & Hin). apply list_elem_of_In, list_elem_of_lookup in Hl as [j Hj].
    rewrite list_lookup_imap in Hj. destruct (fd !! j) as [d|] eqn:E; [|done]. injection Hj as <-.
    apply in_map_iff in Hin as (x & [= <- <-] & Hx). by exists d.
  - intros (d & Hd & Hin). exists (map (fun item => (item, i)) (field_values d (connect_to gs))). split.
    + apply list_elem_of_In, list_elem_of_lookup. exists i. by rewrite list_lookup_imap, Hd.
    + by apply (in_map (fun item => (item, i))).
Qed.

Lemma index_entries k :
  entries (connect_to_index gs fd) k = map snd (List.filter (fun p => bytes_eqb (key (fst p)) k) links).
Proof.
  unfold connect_to_index. rewrite (index_fold fd 0 []). fold links.
  exact (entries_fold (fun p => key (fst p)) snd links k []).
Qed.

Lemma index_entries_In v fi : In fi (entries (connect_to_index gs fd) (key v)) <->
  exists d, fd !! fi = Some d /\ connected d v.
Proof.
  rewrite index_entries, in_map_iff. split.
  - intros ([item i] & <- & Hin). apply List.filter_In in Hin as [Hin E]. apply bytes_eqb_eq in E.
    apply links_In in Hin as (d & Hd & Hitem). exists d. split; [done|]. by exists item.
  - intros (d & Hd & item & Hitem & E). exists (item, fi). split; [done|]. apply List.filter_In.
    split; [apply links_In; by exists d|by apply bytes_eqb_eq].
Qed.

Lemma index_is_ok : index_ok (connect_to_index gs fd).
Proof.
  intros k c Hc. apply List.Forall_forall. intros fi Hin.
  assert (He : In fi (entries (connect_to_index gs fd) k)) by (unfold entries; by rewrite Hc).
  rewrite index_entries in He. apply in_map_iff in He as ([item i] & <- & H).
  apply List.filter_In in H as [H _]. apply links_In in H as (d & Hd & _). by eapply lookup_lt_Some.
Qed.

Lemma start_queue vals : forall st, (length (queue (fold_left (fun st sv =>
    if seen (visited st) (key sv) then st
    else {| visited := key sv :: visited st; queue := queue st ++ [(sv, 0%Z)]; found := found st |}) vals st))
  <= length (queue st) + length vals)%nat.
Proof.
  induction vals as [|v vals IH]; intros st; simpl; [lia|]. etrans; [apply IH|].
  destruct (seen (visited st) (key v)); [lia|]. cbn [queue]. rewrite length_app. simpl. lia.
Qed.

Lemma start_potential vals : (potential (start_state vals) <= graph_fuel gs fd vals)%nat.
Proof.
  unfold potential, graph_fuel. apply Nat.add_le_mono.
  - apply (start_queue vals {| visited := []; queue := []; found := [] |}).
  - unfold unvisited. rewrite <- (map_id fd) at 2. etrans; [apply (sum_filter_le outdeg _ (fun _ => true)); done|].
    rewrite map_id. clear. induction fd as [|d l IH]; simpl; [done|]. unfold outdeg at 1. lia.
Qed.

Lemma graph_search_run vals : exists r,
  searches (connect_to_index gs fd) (start_state vals) r /\
  graph_search gs fd vals = let? st := r in Ok (found st).
Proof. eexists. split; [apply loop_searches; [apply index_is_ok|apply start_potential]|done]. Qed.
End Graph.

(** The search of [$graphLookup] terminates, cyclic links included: the
    loop, run until its queue is empty, has an outcome, and [graph_search] gives it. *)
Theorem graph_search_terminates `{BsonOps, Libm, S2, TextEnv, F64Parse, AggEnv, StdEnv} gs fd vals :
  exists r, searches gs fd (connect_to_index gs fd) (start_state vals) r /\
    graph_search gs fd vals = let? st := r in Ok (found st).
Proof. apply graph_search_run. Qed.

(** ** Reachability *)

Section Reachability.
Context {B : BsonOps} {Lm : Libm} {G : S2} {T : TextEnv} {FP : F64Parse} {A : AggEnv} {SE : StdEnv}
  (gs : graph_spec) (fd : list document) (starts : list bson).
#[local] Existing Instance engine.

Abbreviation key := canonical_bson_key.
Abbreviation dkey d := (canonical_bson_key (BDocument d)).

(** The verdict of [restrictSearchWithMatch]. *)
Definition keeps (d : document) : result bool agg_failure :=
  match restrict gs with Some f => matches_or_false d f | None => Ok true end.

(** The values the search should follow: the start values, and the links of the
    documents connected to such a value. *)
Inductive reaches : bson -> Prop :=
| reach_start v : In v starts -> reaches v
| reach_link u d w : reaches u -> In d fd -> keeps d = Ok true -> connected gs d u ->
    In w (field_values d (connect_from gs)) -> reaches w.

Record searchable : Prop := {
  no_depths : max_depth gs = None /\ depth_field gs = None;
  filter_runs : forall d, In d fd -> exists b, keeps d = Ok b;
  keys_distinct : forall d d', In d fd -> In d' fd -> dkey d = dkey d' -> d = d';
  values_not_docs : forall v d, reaches v -> In d fd -> key v <> dkey d }.

Definition processed (fs : list document) (v : bson) : Prop :=
  forall d, In d fd -> connected gs d v -> keeps d = Ok true -> In d fs.

(** [cur] is the key of the value whose candidates are being visited. *)
Record search_inv (cur : option bytes) (st : graph_state) : Prop := {
  inv_nodup : List.NoDup (found st);
  inv_found : forall d, In d (found st) ->
    In d fd /\ keeps d = Ok true /\ exists v, reaches v /\ connected gs d v;
  inv_queue : forall v n, In (v, n) (queue st) -> reaches v;
  inv_visited : forall d, In d fd -> seen (visited st) (dkey d) = true <-> In d (found st);
  inv_source : forall k, seen (visited st) k = true ->
    (exists s, In s starts /\ key s = k) \/ exists d, In d fd /\ dkey d = k;
  inv_closed : forall w, In w starts \/ (exists d, In d (found st) /\ In w (field_values d (connect_from gs))) ->
    (exists w' n, In (w', n) (queue st) /\ key w' = key w) \/ processed (found st) w \/ cur = Some (key w) }.

Context (HS : searchable).

Lemma connected_key d v w : key v = key w -> connected gs d v -> connected gs d w.
Proof. intros E (item & Hi & Hk). exists item. split; [done|congruence]. Qed.

Lemma processed_mono fs fs' v : (forall d, In d fs -> In d fs') -> processed fs v -> processed fs' v.
Proof. intros H Hp d Hd Hc Hk. by apply H, Hp. Qed.

Lemma processed_key fs v w : key v = key w -> processed fs v -> processed fs w.
Proof. intros E Hp d Hd Hc. apply Hp; [done|]. by eapply connected_key. Qed.

(** The state after a document is visited for the first time. *)
Definition visited_state (st : graph_state) (d : document) (depth : Z) : graph_state :=
  follow gs d depth {| visited := dkey d :: visited st; queue := queue st; found := found st ++ [d] |}.

Lemma visit_new_inv cur st d v depth :
  search_inv cur st -> In d fd -> keeps d = Ok true -> connected gs d v -> reaches v ->
  seen (visited st) (dkey d) = false -> search_inv cur (visited_state st d depth).
Proof.
  intros [Hnd Hf Hq Hv Hs Hc] Hd Hk Hcon Hr Hseen.
  assert (Hnot : ~ In d (found st)) by (intros Hin; apply (Hv d Hd) in Hin; congruence).
  assert (Hin_snoc : forall x, In x (found st ++ [d]) <-> In x (found st) \/ x = d).
  { intros x. rewrite in_app_iff. simpl. intuition congruence. }
  assert (Hseen' : forall k, seen (dkey d :: visited st) k = true <-> k = dkey d \/ seen (visited st) k = true).
  { intros k. rewrite seen_cons, orb_true_iff, bytes_eqb_eq. done. }
  unfold visited_state, follow. split; cbn [visited queue found].
  - apply List.NoDup_app; [done|by repeat constructor; intros []|]. by intros x Hx [<-|[]].
  - intros x [Hx| ->]%Hin_snoc; [by apply Hf|]. eauto.
  - intros x n Hx. apply in_app_iff in Hx as [Hx|Hx]; [by eapply Hq|].
    apply in_map_iff in Hx as (w & [= <- _] & Hw). apply List.filter_In in Hw as [Hw _]. by eapply reach_link.
  - intros x Hx. rewrite Hseen', Hin_snoc, (Hv x Hx). split.
    + intros [E|H]; [right; by apply (keys_distinct HS)|by left].
    + intros [H| ->]; [by right|by left].
  - intros k [-> |Hk']%Hseen'; [right; by exists d|by apply Hs].
  - set (q := queue st ++ map _ _).
    assert (Hold : forall w, In w starts \/ (exists x, In x (found st) /\ In w (field_values x (connect_from gs))) ->
      (exists w' n, In (w', n) q /\ key w' = key w) \/ processed (found st ++ [d]) w \/ cur = Some (key w)).
    { intros w H. destruct (Hc w H) as [(w' & n & H1 & H2)|[H1|H1]]; [left|right; left|by right; right].
      - exists w', n. split; [apply in_app_iff; by left|done].
      - eapply processed_mono; [|exact H1]. intros x Hx. apply Hin_snoc. by left. }
    intros w [Hw|(x & [Hx| ->]%Hin_snoc & Hw)]; [apply Hold; by left|apply Hold; right; eauto|].
    assert (Hrw : reaches w) by (by eapply reach_link).
    destruct (seen (dkey d :: visited st) (key w)) eqn:Esw.
    + apply Hseen' in Esw as [E|Esw]; [by destruct (values_not_docs HS w d Hrw Hd)|].
      destruct (Hs _ Esw) as [(s & Hst & E)|(d' & Hd' & E)]; [|by destruct (values_not_docs HS w d' Hrw Hd')].
      destruct (Hold s (or_introl Hst)) as [(w' & n & H1 & H2)|[H1|H1]].
      * left. exists w', n. split; [done|congruence].
      * right. left. by eapply processed_key.
      * right. right. congruence.
    + left. exists w, (wrap_i64 (depth + 1)). split; [|done]. apply in_app_iff. right.
      apply (in_map (fun nv => (nv, wrap_i64 (depth + 1)))), List.filter_In. by rewrite Esw.
Qed.

Lemma visit_inv cur st fi d v depth st' :
  search_inv cur st -> fd !! fi = Some d -> connected gs d v -> reaches v ->
  visit_candidate gs fd depth st fi = Ok st' ->
  search_inv cur st' /\ (keeps d = Ok true -> In d (found st')) /\ (forall x, In x (found st) -> In x (found st')).
Proof.
  intros Hi Hd Hc Hr H. assert (Hin : In d fd) by (apply list_elem_of_In; by eapply list_elem_of_lookup_2).
  unfold visit_candidate in H. assert (Hn : doc_nth fd fi = d) by (by apply nth_lookup_Some). rewrite Hn in H.
  fold (keeps d) in H. destruct (filter_runs HS d Hin) as [b Hb]. rewrite Hb in H.
  destruct b; [|injection H as <-; split; [done|]; split; [congruence|done]].
  cbn [negb] in H. destruct (seen (visited st) (dkey d)) eqn:Es.
  { injection H as <-. split; [done|]. split; [|done]. intros _. by apply (inv_visited _ _ Hi). }
  rewrite (proj2 (no_depths HS)) in H. injection H as <-.
  split; [by apply (visit_new_inv cur st d v)|]. cbn [found follow]. split.
  - intros _. apply in_app_iff. right. by left.
  - intros x Hx. apply in_app_iff. by left.
Qed.

Lemma visits_inv cur v depth : reaches v -> forall cands st st',
  (forall fi, In fi cands -> exists d, fd !! fi = Some d /\ connected gs d v) ->
  search_inv cur st -> fold_result (visit_candidate gs fd depth) st cands = Ok st' ->
  search_inv cur st' /\ (forall x, In x (found st) -> In x (found st')) /\
  forall fi d, In fi cands -> fd !! fi = Some d -> keeps d = Ok true -> In d (found st').
Proof.
  intros Hr. induction cands as [|fi cands IH]; intros st st' Hc Hi H; simpl in H.
  { injection H as <-. split; [done|]. split; [done|]. by intros fi d []. }
  destruct (visit_candidate gs fd depth st fi) as [st1|] eqn:E; [|done].
  destruct (Hc fi (or_introl eq_refl)) as (d & Hd & Hcon).
  destruct (visit_inv cur st fi d v depth st1 Hi Hd Hcon Hr E) as (H1 & H2 & H3).
  destruct (IH st1 st' (fun fj Hj => Hc fj (or_intror Hj)) H1 H) as (H4 & H5 & H6).
  split; [done|]. split; [auto|]. intros fj d' [<-|Hj] Hd' Hk; [|by eapply H6].
  rewrite Hd in Hd'. injection Hd' as <-. auto.
Qed.

Lemma visit_total depth cands : forall st,
  (forall fi, In fi cands -> exists d, fd !! fi = Some d) ->
  exists st', fold_result (visit_candidate gs fd depth) st cands = Ok st'.
Proof.
  induction cands as [|fi cands IH]; intros st Hc; simpl; [eauto|].
  destruct (Hc fi (or_introl eq_refl)) as (d & Hd).
  assert (Hin : In d fd) by (apply list_elem_of_In; by eapply list_elem_of_lookup_2).
  assert (E : exists st1, visit_candidate gs fd depth st fi = Ok st1).
  { unfold visit_candidate. assert (Hn : doc_nth fd fi = d) by (by apply nth_lookup_Some). rewrite Hn.
    fold (keeps d). destruct (filter_runs HS d Hin) as [b ->]. destruct (negb b); [eauto|].
    destruct (seen _ _); eauto. }
  destruct E as [st1 ->]. apply IH. intros fj Hj. apply Hc. by right.
Qed.

(** Popping a value whose candidates are all visited keeps the invariant. *)
Lemma pop_inv st v n rest :
  search_inv None st -> queue st = (v, n) :: rest ->
  search_inv (Some (key v)) {| visited := visited st; queue := rest; found := found st |}.
Proof.
  intros [Hnd Hf Hq Hv Hs Hc] Eq. split; cbn [visited queue found]; try done.
  - intros w m Hw. eapply Hq. rewrite Eq. by right.
  - intros w Hw. destruct (Hc w Hw) as [(w' & m & H1 & H2)|[H1|H1]]; [|by right; left|done].
    rewrite Eq in H1. destruct H1 as [[= <- <-]|H1]; [right; right; by rewrite H2|left; eauto].
Qed.

Lemma close_inv st v : search_inv (Some (key v)) st -> processed (found st) v -> search_inv None st.
Proof.
  intros [Hnd Hf Hq Hv Hs Hc] Hp. split; try done. intros w Hw.
  destruct (Hc w Hw) as [H|[H|[= H]]]; [by left|by right; left|right; left]. by eapply processed_key.
Qed.

Lemma searches_inv st r :
  searches gs fd (connect_to_index gs fd) st r -> search_inv None st ->
  exists st', r = Ok st' /\ search_inv None st' /\ queue st' = [].
Proof.
  induction 1 as [st Hq|st v n rest r Hq Hskip _ IH|st v n rest cands st' r Hq Hd Hc Hf _ IH|st v n rest cands e Hq Hd Hc Hf];
    intros Hi; [by exists st|..].
  - apply IH. apply (close_inv _ v); [by eapply pop_inv|]. destruct Hskip as [Hm|Hn].
    { by rewrite (proj1 (no_depths HS)) in Hm. }
    intros d Hd Hcon Hk. exfalso. apply list_elem_of_In, list_elem_of_lookup in Hd as [fi Hfi].
    assert (Hin : In fi (entries (connect_to_index gs fd) (key v))) by (apply index_entries_In; eauto).
    unfold entries in Hin. by rewrite Hn in Hin.
  - assert (Hr : reaches v) by (eapply (inv_queue _ _ Hi); rewrite Hq; by left).
    assert (Hcands : forall fi, In fi cands <-> exists d, fd !! fi = Some d /\ connected gs d v).
    { intros fi. rewrite <- index_entries_In. unfold entries. by rewrite Hc. }
    destruct (visits_inv (Some (key v)) v n Hr cands _ st' (fun fi => proj1 (Hcands fi)) (pop_inv _ _ _ _ Hi Hq) Hf)
      as (H1 & _ & H3).
    apply IH. apply (close_inv _ v H1). intros d Hin Hcon Hk.
    apply list_elem_of_In, list_elem_of_lookup in Hin as [fi Hfi]. eapply H3; [|exact Hfi|done]. apply Hcands. eauto.
  - exfalso. destruct (visit_total n cands {| visited := visited st; queue := rest; found := found st |}) as [st' E]; [|congruence].
    intros fi Hfi. assert (Hin : In fi (entries (connect_to_index gs fd) (key v))) by (unfold entries; by rewrite Hc).
    apply index_entries_In in Hin as (d & Hd' & _). eauto.
Qed.

Lemma seen_In vis k : seen vis k = true <-> In k vis.
Proof.
  unfold seen. rewrite existsb_exists. split; [by intros (x & Hx & ->%bytes_eqb_eq)|].
  intros H. exists k. split; [done|by apply bytes_eqb_eq].
Qed.

Lemma start_inv : search_inv None (start_state starts).
Proof.
  assert (H : forall todo done st, starts = done ++ todo ->
    found st = [] -> (forall v n, In (v, n) (queue st) -> In v starts) ->
    (forall k, seen (visited st) k = true -> exists s, In s starts /\ key s = k) ->
    (forall w, In w done -> exists w' n, In (w', n) (queue st) /\ key w' = key w) ->
    (forall k, seen (visited st) k = true -> exists w' n, In (w', n) (queue st) /\ key w' = k) ->
    let st' := fold_left (fun st sv =>
      if seen (visited st) (key sv) then st
      else {| visited := key sv :: visited st; queue := queue st ++ [(sv, 0%Z)]; found := found st |}) todo st in
    found st' = [] /\ (forall v n, In (v, n) (queue st') -> In v starts) /\
    (forall k, seen (visited st') k = true -> exists s, In s starts /\ key s = k) /\
    (forall w, In w starts -> exists w' n, In (w', n) (queue st') /\ key w' = key w)).
  { induction todo as [|v todo IH]; intros done_ st Hst Hf Hq Hv Hd Hk; cbn [fold_left].
    { rewrite app_nil_r in Hst. subst done_. done. }
    assert (Hin : In v starts) by (rewrite Hst; apply in_app_iff; right; by left).
    apply (IH (done_ ++ [v])); [by rewrite <- app_assoc|..]; destruct (seen (visited st) (key v)) eqn:E; cbn [visited queue found]; try done.
    - intros w n Hw. apply in_app_iff in Hw as [Hw|[[= <- <-]|[]]]; eauto.
    - intros k. rewrite seen_cons, orb_true_iff, bytes_eqb_eq. intros [->|Hk']; eauto.
    - intros w Hw. apply in_app_iff in Hw as [Hw|[<-|[]]]; [by apply Hd|by apply Hk].
    - intros w Hw. apply in_app_iff in Hw as [Hw|[<-|[]]].
      + destruct (Hd w Hw) as (w' & n & H1 & H2). exists w', n. split; [apply in_app_iff; by left|done].
      + exists v, 0%Z. split; [apply in_app_iff; right; by left|done].
    - intros k. rewrite seen_cons, orb_true_iff, bytes_eqb_eq. intros [->|Hk'].
      + exists v, 0%Z. split; [apply in_app_iff; right; by left|done].
      + destruct (Hk k Hk') as (w' & n & H1 & H2). exists w', n. split; [apply in_app_iff; by left|done]. }
  destruct (H starts [] {| visited := []; queue := []; found := [] |}) as (H1 & H2 & H3 & H4); try done.
  fold (start_state starts) in *. split; rewrite ?H1; try done.
  - constructor.
  - intros v n Hv. apply reach_start. by eapply H2.
  - intros d Hd. split; [|done]. intros Hs. exfalso. destruct (H3 _ Hs) as (s & Hs' & E).
    by apply (values_not_docs HS s d (reach_start s Hs') Hd).
  - intros k Hk. left. by apply H3.
  - intros w [Hw|(d & [] & _)]. left. by apply H4.
Qed.

Lemma reached_processed st v :
  search_inv None st -> queue st = [] -> reaches v -> processed (found st) v.
Proof.
  intros Hi Hq. assert (Hend : forall w, In w starts \/ (exists d, In d (found st) /\
    In w (field_values d (connect_from gs))) -> processed (found st) w).
  { intros w Hw. destruct (inv_closed _ _ Hi w Hw) as [(w' & n & H1 & _)|[H1|H1]]; [by rewrite Hq in H1|done|done]. }
  induction 1 as [v Hv|u d w Hu IH Hd Hk Hc Hw]; apply Hend; [by left|right].
  exists d. split; [|done]. by apply IH.
Qed.

Lemma found_iff_reachable : exists fs, graph_search gs fd starts = Ok fs /\ List.NoDup fs /\
  forall d, In d fs <-> In d fd /\ keeps d = Ok true /\ exists v, reaches v /\ connected gs d v.
Proof.
  destruct (graph_search_run gs fd starts) as (r & Hr & Heq).
  destruct (searches_inv _ _ Hr start_inv) as (st & -> & Hi & Hq).
  exists (found st). split; [done|]. split; [apply Hi|]. intros d. split; [apply Hi|].
  intros (Hd & Hk & v & Hv & Hc). by apply (reached_processed st v Hi Hq Hv d).
Qed.
End Reachability.

(** C34: without a depth limit and without a depth field, with a restriction that evaluates
    without an error on every foreign document, when different foreign documents have different
    keys and no start value and no link that is reached equals, as a value, a foreign document,
    [$graphLookup] finds, each once, exactly the foreign documents that pass the restriction and
    are connected to a start value or, transitively, to a link of a document found. The last
    condition is needed: values and documents are marked as visited in one set, so that a link
    equal to a document already found is not followed ([link_to_visited_document]). *)
Theorem graph_search_reachable `{BsonOps, Libm, S2, TextEnv, F64Parse, AggEnv, StdEnv} gs fd starts :
  searchable gs fd starts ->
  exists fs, graph_search gs fd starts = Ok fs /\ List.NoDup fs /\
    forall d, In d fs <-> In d fd /\ keeps gs d = Ok true /\
      exists v, reaches gs fd starts v /\ connected gs d v.
Proof. apply found_iff_reachable. Qed.

(** ** Witness: two documents linked in a cycle *)

Section Witnesses.
Import RefAgg RefStd.

Definition cyclic : list document :=
  [[("id", BInt32 1); ("next", BInt32 2)]; [("id", BInt32 2); ("next", BInt32 1)]].
Definition follow_next : graph_spec :=
  {| connect_from := "next"; connect_to := "id"; max_depth := None; depth_field := None; restrict := None |}.

Lemma cyclic_reaches v : reaches follow_next cyclic [BInt32 1] v -> v = BInt32 1 \/ v = BInt32 2.
Proof.
  induction 1 as [v [<-|[]]|u d w _ _ [<-|[<-|[]]] _ _ Hw]; [by left|..];
    vm_compute in Hw; destruct Hw as [<-|[]]; auto.
Qed.

Lemma cyclic_searchable : searchable follow_next cyclic [BInt32 1].
Proof.
  split; [done|by intros d _; exists true|..].
  - intros d d' [<-|[<-|[]]] [<-|[<-|[]]] H; done.
  - intros v d Hv [<-|[<-|[]]]; destruct (cyclic_reaches v Hv) as [-> | ->]; done.
Qed.

Lemma graph_search_reachable_witness :
  (exists fs, graph_search follow_next cyclic [BInt32 1] = Ok fs /\ List.NoDup fs /\
    forall d, In d fs <-> In d cyclic /\ keeps follow_next d = Ok true /\
      exists v, reaches follow_next cyclic [BInt32 1] v /\ connected follow_next d v) /\
  graph_search follow_next cyclic [BInt32 1] = Ok cyclic.
Proof. split; [apply graph_search_reachable, cyclic_searchable|vm_compute; reflexivity]. Defined.

(** ** A behaviour worth recording *)

Definition first_doc : document := [("id", BInt32 1); ("next", BInt32 2)].
Definition second_doc : document := [("id", BInt32 2); ("next", BDocument first_doc)].
Definition third_doc : document := [("id", BDocument first_doc)].

(** A link equal to a document found before is not followed: the third document is connected to
    the link of the second, and is lost; it is found when the link is a start value. *)
Theorem link_to_visited_document :
  let fd := [first_doc; second_doc; third_doc] in
  graph_search follow_next fd [BInt32 1] = Ok [first_doc; second_doc] /\
  graph_search follow_next fd [BDocument first_doc] = Ok [third_doc].
Proof. vm_compute. split; reflexivity. Qed.
End Witnesses.
