(* ===== verification/Spill.v ===== *)
(** * Spilling to disk

    [src/rust/smongo-engine/src/aggregation/disk_spill.rs]: [$sort] as an external
    merge sort and [$group] as a hash partition, when the documents exceed the
    memory limit.  A temporary file is the bytes written to it; the file
    operations of the system succeed.  Sorting on disk sorts, and grouping on
    disk gives the groups of the in-memory stage. *)

From Stdlib Require Import ZArith Lia Ascii String Strings.Byte Permutation Sorted.
From S2P Require Import Prelude F64 Bson RefBson Paths Geo Query Update IndexKey Schema Collation Expressions Accumulators Stages StageLaws.
From stdpp Require Import base tactics list strings.

Open Scope string_scope.
Open Scope list_scope.

(** Source: aggregation/disk_spill.rs:20-20 (NUM_PARTITIONS). *)
Definition NUM_PARTITIONS : nat := 64.

(** ** Spill files *)

(** Source: aggregation/disk_spill.rs:26-29 (SpillWriter). *)
Record SpillWriter : Type := { written : bytes; doc_count : nat }.

(** Source: aggregation/disk_spill.rs:69-72 (SpillReader). *)
Record SpillReader : Type := { unread : bytes; remaining : nat }.

Section Spill.
Context {B : BsonOps} {Lm : Libm} {G : S2} {T : TextEnv} {FP : F64Parse} {A : AggEnv} {SE : StdEnv}.

(** Source: aggregation/disk_spill.rs:32-39 (SpillWriter::new). *)
Definition new_writer : SpillWriter := {| written := []; doc_count := 0 |}.

Definition spill_error {X} (msg : string) : result X agg_failure :=
  Err (AggErr (AggOther ("disk spill: " ++ msg)%string)).

(** Source: aggregation/disk_spill.rs:41-49 (SpillWriter::write_doc). *)
Definition write_doc (w : SpillWriter) (doc : document) : result SpillWriter agg_failure :=
  match doc_to_vec doc with
  | Err e => spill_error ("serialize: " ++ e)%string
  | Ok b => Ok {| written := written w ++ b; doc_count := S (doc_count w) |}
  end.

(** Source: aggregation/disk_spill.rs:51-66 (SpillWriter::flush_and_reopen). *)
Definition flush_and_reopen (w : SpillWriter) : SpillReader :=
  {| unread := written w; remaining := doc_count w |}.

(** [i32::from_le_bytes(len_buf) as usize]. *)
Definition le_len (b : bytes) : Z := wrap_u64 (wrap_i32 (be_value (rev b))).

(** Source: aggregation/disk_spill.rs:75-99 (SpillReader::read_doc). The document, and the
    reader after it. *)
Definition read_doc (r : SpillReader) : result (option document * SpillReader) agg_failure :=
  if (remaining r =? 0)%nat then Ok (None, r)
  else if (length (unread r) <? 4)%nat then Ok (None, {| unread := []; remaining := remaining r |})
  else
    let doc_len := le_len (take 4 (unread r)) in
    if (i64_max <? doc_len)%Z then Err (AggPanic "capacity overflow")
    else if (doc_len <? 4)%Z then Err (AggPanic "range end index out of range")
    else if (Z.of_nat (length (unread r)) <? doc_len)%Z
    then spill_error "read doc: failed to fill whole buffer"
    else
      match doc_from_reader (take (Z.to_nat doc_len) (unread r)) with
      | Err e => spill_error ("deserialize: " ++ e)%string
      | Ok doc => Ok (Some doc, {| unread := drop (Z.to_nat doc_len) (unread r);
                                   remaining := remaining r - 1 |})
      end.

(** Source: aggregation/disk_spill.rs:103-109 (SpillReader::read_all). One round for each document
    that remains. *)
Fixpoint read_all_loop (fuel : nat) (r : SpillReader) : result (list document) agg_failure :=
  match fuel with
  | O => Err (AggPanic "out of fuel")
  | S fuel =>
      let? (o, r) := read_doc r in
      match o with
      | None => Ok []
      | Some doc => let? docs := read_all_loop fuel r in Ok (doc :: docs)
      end
  end.

Definition read_all (r : SpillReader) : result (list document) agg_failure :=
  read_all_loop (S (remaining r)) r.

(** ** External sort *)

(** [buffer], [buffer_bytes] and [spill_runs]. *)
Record sort_state : Type := { buffer : list document; buffer_bytes : Z; runs : list SpillReader }.

(** Source: aggregation/disk_spill.rs:188-193 (external_sort). A sorted run written out. *)
Definition spill_run (cmp : document -> document -> comparison) (docs : list document)
  : result SpillReader agg_failure :=
  let? w := fold_result write_doc new_writer (sort_by cmp docs) in
  Ok (flush_and_reopen w).

(** Source: aggregation/disk_spill.rs:181-197 (external_sort). One item of the input. *)
Definition sort_item (cmp : document -> document -> comparison) (memory_limit : Z) (st : sort_state)
  (item : result document agg_failure) : result sort_state agg_failure :=
  let? doc := item in
  let buf := buffer st ++ [doc] in
  let bytes := wrap_u64 (buffer_bytes st + estimate_doc_bytes doc) in
  if (memory_limit <=? bytes)%Z then
    let? run := spill_run cmp buf in
    Ok {| buffer := []; buffer_bytes := 0; runs := runs st ++ [run] |}
  else Ok {| buffer := buf; buffer_bytes := bytes; runs := runs st |}.

(** Source: aggregation/disk_spill.rs:136-142 (MergeEntry::cmp). Reversed: the heap pops the least. *)
Definition merge_cmp (cmp : document -> document -> comparison) (a b : document * nat) : comparison :=
  CompOpp (cmp (fst a) (fst b)).

(** Source: aggregation/disk_spill.rs:219-227 (external_sort). The first document of each run. *)
Fixpoint fill_heap (i : nat) (rs : list SpillReader) : result (list (document * nat) * list SpillReader) agg_failure :=
  match rs with
  | [] => Ok ([], [])
  | r :: rs' =>
      let? (o, r) := read_doc r in
      let? (heap, rs') := fill_heap (S i) rs' in
      Ok (match o with Some doc => (doc, i) :: heap | None => heap end, r :: rs')
  end.

(** Source: aggregation/disk_spill.rs:229-240 (external_sort). The merge; the fuel bounds the documents. *)
Fixpoint merge_loop (fuel : nat) (cmp : document -> document -> comparison)
  (heap : list (document * nat)) (rs : list SpillReader) (merged : list document)
  : result (list document) agg_failure :=
  match heap, fuel with
  | [], _ => Ok merged
  | _, O => Err (AggPanic "out of fuel")
  | _, S fuel =>
      let pos := heap_max (merge_cmp cmp) heap in
      match heap !! pos with
      | None => Err (AggPanic "index out of bounds")
      | Some (doc, run_idx) =>
          let heap := delete pos heap in
          match rs !! run_idx with
          | None => Err (AggPanic "index out of bounds")
          | Some r =>
              let? (o, r) := read_doc r in
              let heap := match o with Some next => heap ++ [(next, run_idx)] | None => heap end in
              merge_loop fuel cmp heap (<[run_idx := r]> rs) (merged ++ [doc])
          end
      end
  end.

Definition merge_fuel (heap : list (document * nat)) (rs : list SpillReader) : nat :=
  length heap + list_sum (map remaining rs).

(** Source: aggregation/disk_spill.rs:163-243 (external_sort). *)
Definition external_sort (input : DocStream) (sort_spec : bson) (memory_limit : Z)
  : result (list document) agg_failure :=
  match sort_spec with
  | BDocument sort_doc =>
      let cmp a b := cmp_by_sort_fields a b (sort_fields sort_doc) in
      let? st := fold_result (sort_item cmp memory_limit) {| buffer := []; buffer_bytes := 0; runs := [] |} input in
      match runs st with
      | [] => Ok (sort_by cmp (buffer st))
      | _ =>
          let? rs := match buffer st with
                     | [] => Ok (runs st)
                     | buf => let? run := spill_run cmp buf in Ok (runs st ++ [run])
                     end in
          let? (heap, rs) := fill_heap 0 rs in
          merge_loop (merge_fuel heap rs) cmp heap rs []
      end
  | _ => invalid_stage "$sort requires document"
  end.

(** ** External group *)

(** Source: aggregation/disk_spill.rs:249-255 (hash_group_key). *)
Definition hash_group_key (k : string) : nat :=
  Z.to_nat (fold_left (fun h b => wrap_u64 (wrap_u64 (h * 31) + Z.of_N (Byte.to_N b)))
              (list_byte_of_string k) 5381 mod Z.of_nat NUM_PARTITIONS)%Z.

(** Source: aggregation/disk_spill.rs:294-297 (external_group). A document goes to the file of its key. *)
Definition spill_doc (id_expr : bson) (writers : list SpillWriter) (doc : document)
  : result (list SpillWriter) agg_failure :=
  let? key := evaluate_expression doc id_expr in
  let partition := hash_group_key (bson_to_key_string key) in
  match writers !! partition with
  | None => Err (AggPanic "index out of bounds")
  | Some w => let? w := write_doc w doc in Ok (<[partition := w]> writers)
  end.

(** [buffer], [buffer_bytes], and [partition_writers] once spilled. *)
Record group_state : Type := {
  g_buffer : list document; g_bytes : Z; g_writers : option (list SpillWriter) }.

(** Source: aggregation/disk_spill.rs:279-310 (external_group). One item of the input. *)
Definition group_item (id_expr : bson) (memory_limit : Z) (st : group_state)
  (item : result document agg_failure) : result group_state agg_failure :=
  let? doc := item in
  match g_writers st with
  | None =>
      let buf := g_buffer st ++ [doc] in
      let bytes := wrap_u64 (g_bytes st + estimate_doc_bytes doc) in
      if (memory_limit <=? bytes)%Z then
        let? writers := fold_result (spill_doc id_expr) (repeat new_writer NUM_PARTITIONS) buf in
        Ok {| g_buffer := []; g_bytes := bytes; g_writers := Some writers |}
      else Ok {| g_buffer := buf; g_bytes := bytes; g_writers := None |}
  | Some writers =>
      let? writers := spill_doc id_expr writers doc in
      Ok {| g_buffer := g_buffer st; g_bytes := g_bytes st; g_writers := Some writers |}
  end.

(** Source: aggregation/disk_spill.rs:320-328 (external_group). *)
Definition group_partition (group_spec : bson) (w : SpillWriter) : result (list document) agg_failure :=
  if (doc_count w =? 0)%nat then Ok []
  else let? partition_docs := read_all (flush_and_reopen w) in stage_group partition_docs group_spec.

(** Source: aggregation/disk_spill.rs:260-331 (external_group). *)
Definition external_group (input : DocStream) (group_spec : bson) (memory_limit : Z)
  : result (list document) agg_failure :=
  match group_spec with
  | BDocument group_doc =>
      match doc_get group_doc "_id" with
      | None => missing_field "_id required in $group"
      | Some id_expr =>
          let? st := fold_result (group_item id_expr memory_limit)
                       {| g_buffer := []; g_bytes := 0; g_writers := None |} input in
          match g_writers st with
          | None => stage_group (g_buffer st) group_spec
          | Some writers =>
              let? all_results := map_result (group_partition group_spec) writers in
              Ok (concat all_results)
          end
      end
  | _ => invalid_stage "$group requires document"
  end.

(** Source: aggregation/stages.rs:1497-1512 (stage_sort_stream). On a native target. *)
Definition stage_sort_stream (input : DocStream) (sort_spec : bson) (memory_limit : option Z)
  (allow_disk_use : bool) : result DocStream agg_failure :=
  if allow_disk_use then
    let limit := match memory_limit with Some l => l | None => DEFAULT_MEMORY_LIMIT_BYTES end in
    let? results := external_sort input sort_spec limit in Ok (stream_of results)
  else blocking "$sort" (fun docs => stage_sort docs sort_spec) input memory_limit.

(** Source: aggregation/stages.rs:1575-1590 (stage_group_stream). On a native target. *)
Definition stage_group_stream (input : DocStream) (group_spec : bson) (memory_limit : option Z)
  (allow_disk_use : bool) : result DocStream agg_failure :=
  if allow_disk_use then
    let limit := match memory_limit with Some l => l | None => DEFAULT_MEMORY_LIMIT_BYTES end in
    let? results := external_group input group_spec limit in Ok (stream_of results)
  else blocking "$group" (fun docs => stage_group docs group_spec) input memory_limit.
End Spill.

(** ** Spill files hold their documents *)

(** The bytes of a document start with their number, as a little-endian [i32]. *)
Class BsonFrameLaws (B : BsonOps) : Prop := {
  to_vec_frame : forall d b, doc_to_vec d = Ok b ->
    (4 <= length b)%nat /\ (Z.of_nat (length b) <= i32_max)%Z /\
    take 4 b = rev (be_bytes 4 (Z.of_nat (length b))) }.

Section Files.
Context {B : BsonOps} {Lm : Libm} {G : S2} {T : TextEnv} {FP : F64Parse} {A : AggEnv} {SE : StdEnv}
  {BC : BsonCodecLaws B} {BF : BsonFrameLaws B}.

(** A document the codec writes and reads back. *)
Definition spillable (d : document) : Prop :=
  doc_ok d = true /\ doubles_ok (BDocument d) = true /\ exists b, doc_to_vec d = Ok b.

Definition doc_bytes (d : document) : bytes := match doc_to_vec d with Ok b => b | Err _ => [] end.
Definition file_of (docs : list document) : bytes := concat (map doc_bytes docs).

Definition holds (docs : list document) (r : SpillReader) : Prop :=
  unread r = file_of docs /\ remaining r = length docs.

Lemma file_app l1 l2 : file_of (l1 ++ l2) = file_of l1 ++ file_of l2.
Proof. unfold file_of. by rewrite map_app, concat_app. Qed.

Lemma write_docs docs : forall w, Forall spillable docs ->
  fold_result write_doc w docs =
  Ok {| written := written w ++ file_of docs; doc_count := doc_count w + length docs |}.
Proof.
  induction docs as [|d docs IH]; intros w Hd; simpl.
  { destruct w. unfold file_of. simpl. by rewrite app_nil_r, Nat.add_0_r. }
  inversion_clear Hd as [|? ? Hx Hd']. destruct Hx as (_ & _ & b & Eb). unfold write_doc at 1. rewrite Eb.
  rewrite IH by done. cbn [written doc_count]. unfold file_of, doc_bytes. simpl. rewrite Eb.
  rewrite <- app_assoc. do 2 f_equal. lia.
Qed.

Lemma le_len_frame n : (0 <= n <= i32_max)%Z -> le_len (rev (be_bytes 4 n)) = n.
Proof.
  intros Hn. unfold le_len. rewrite rev_involutive, be_value_bytes.
  change (256 ^ Z.of_nat 4)%Z with (2 ^ 32)%Z. unfold i32_max in Hn. rewrite Z.mod_small by lia.
  unfold wrap_i32, wrap_signed, wrap_u64. rewrite (Z.mod_small (n + 2 ^ (32 - 1))) by lia.
  rewrite Z.mod_small by lia. lia.
Qed.

Lemma read_doc_cons d docs r :
  spillable d -> holds (d :: docs) r ->
  exists r', read_doc r = Ok (Some d, r') /\ holds docs r'.
Proof.
  intros (Hok & Hdb & b & Eb) [Hu Hr]. destruct (to_vec_frame d b Eb) as (Hl4 & Hlmax & Hframe).
  assert (Hf : unread r = b ++ file_of docs) by (rewrite Hu; unfold file_of, doc_bytes; simpl; by rewrite Eb).
  assert (Hlen : le_len (take 4 (unread r)) = Z.of_nat (length b)).
  { rewrite Hf, take_app_le, Hframe by lia. apply le_len_frame. lia. }
  eexists. split; [|split].
  - unfold read_doc. rewrite Hr. cbn [length Nat.eqb]. rewrite Hlen.
    assert (Hlu : length (unread r) = (length b + length (file_of docs))%nat) by (rewrite Hf, length_app; done).
    destruct (Nat.ltb_spec (length (unread r)) 4); [lia|].
    destruct (Z.ltb_spec i64_max (Z.of_nat (length b))); [unfold i32_max, i64_max in *; lia|].
    destruct (Z.ltb_spec (Z.of_nat (length b)) 4); [lia|].
    destruct (Z.ltb_spec (Z.of_nat (length (unread r))) (Z.of_nat (length b))); [lia|].
    rewrite Nat2Z.id, Hf, take_app_length, (from_to_vec d b Hok Hdb Eb), drop_app_length. reflexivity.
  - done.
  - simpl. lia.
Qed.

Lemma read_doc_nil r : holds [] r -> read_doc r = Ok (None, r).
Proof. intros [_ Hr]. unfold read_doc. by rewrite Hr. Qed.

Lemma read_all_step fuel r : read_all_loop (S fuel) r =
  let? (o, r) := read_doc r in
  match o with None => Ok [] | Some doc => let? docs := read_all_loop fuel r in Ok (doc :: docs) end.
Proof. done. Qed.

Lemma read_all_holds docs r : Forall spillable docs -> holds docs r -> read_all r = Ok docs.
Proof.
  intros Hd Hh. unfold read_all. rewrite (proj2 Hh). revert r Hh.
  induction Hd as [|d docs Hx _ IH]; intros r Hh; rewrite read_all_step.
  - by rewrite read_doc_nil.
  - destruct (read_doc_cons d docs r Hx Hh) as (r' & -> & Hh').
    change (length (d :: docs)) with (S (length docs)). by rewrite (IH r' Hh').
Qed.

Lemma spill_run_holds cmp docs : Forall spillable docs ->
  exists r, spill_run cmp docs = Ok r /\ holds (sort_by cmp docs) r.
Proof.
  intros Hd. assert (Hs : Forall spillable (sort_by cmp docs)) by (eapply Permutation_Forall; [apply sort_by_perm|done]).
  unfold spill_run. rewrite write_docs by done. eexists. split; [done|]. done.
Qed.
End Files.

(** ** The external sort *)

Section ExternalSort.
Context {B : BsonOps} {Lm : Libm} {G : S2} {T : TextEnv} {FP : F64Parse} {A : AggEnv} {SE : StdEnv}
  {BC : BsonCodecLaws B} {BF : BsonFrameLaws B} {SL : StdLaws SE}
  (P : document -> Prop) (cmp : document -> document -> comparison) (TP : TotalPreorder P cmp).

Definition good (d : document) : Prop := spillable d /\ P d.

(** *** The merge *)

(** [rems]: what each run still holds. *)
Record merging (all : list document) (heap : list (document * nat)) (rems : list (list document))
  (rs : list SpillReader) (merged : list document) : Prop := {
  mg_perm : Permutation (merged ++ map fst heap ++ concat rems) all;
  mg_sorted : sorted_by cmp merged;
  mg_below : forall x y, In x merged -> In y (map fst heap ++ concat rems) -> cmp x y <> Gt;
  mg_head : forall i rem x, rems !! i = Some rem -> In x rem -> exists e, In (e, i) heap /\ cmp e x <> Gt;
  mg_runs : Forall (sorted_by cmp) rems;
  mg_holds : Forall2 holds rems rs;
  mg_index : forall e i, In (e, i) heap -> (i < length rems)%nat }.

Lemma merge_cmp_tp : TotalPreorder (fun e : document * nat => P (fst e)) (merge_cmp cmp).
Proof. apply tp_opp. by apply (tp_pullback P _ fst cmp). Qed.

Lemma heap_pop all heap rems rs merged :
  Forall good all -> merging all heap rems rs merged -> heap <> [] ->
  exists m i, heap !! heap_max (merge_cmp cmp) heap = Some (m, i) /\ P m /\
    forall y, In y (map fst heap ++ concat rems) -> cmp m y <> Gt.
Proof.
  intros Hall [Hp _ _ Hh _ _ _] Hne.
  assert (HP : forall x, In x (map fst heap ++ concat rems) -> P x).
  { intros x Hx. rewrite List.Forall_forall in Hall. apply Hall. eapply Permutation_in; [exact Hp|].
    apply in_app_iff. by right. }
  assert (HPh : Forall (fun e : document * nat => P (fst e)) heap).
  { apply List.Forall_forall. intros e He. apply HP, in_app_iff. left. by apply in_map. }
  destruct (heap_max_is_max _ _ (merge_cmp cmp) heap merge_cmp_tp HPh Hne) as ([m i] & Hm & Hmax).
  exists m, i. assert (Pm : P m).
  { rewrite List.Forall_forall in HPh. apply (HPh (m, i)). apply list_elem_of_In. by eapply list_elem_of_lookup_2. }
  split; [done|]. split; [done|].
  assert (Hheap : forall e, In e heap -> cmp m (fst e) <> Gt).
  { intros e He. pose proof (Hmax e He) as H. unfold merge_cmp in H. cbn [fst] in H.
    assert (Pe : P (fst e)) by (rewrite List.Forall_forall in HPh; by apply HPh).
    rewrite (tp_sym _ _ TP (fst e) m) by done. by destruct (cmp (fst e) m). }
  intros y Hy. apply in_app_iff in Hy as [Hy|Hy].
  - apply in_map_iff in Hy as (e & <- & He). by apply Hheap.
  - pose proof Hy as Hy'. apply in_concat in Hy as (rem & Hrem & Hy).
    apply list_elem_of_In, list_elem_of_lookup in Hrem as [j Hj]. destruct (Hh j rem y Hj Hy) as (e & He & Hle).
    eapply (tp_trans _ _ TP m e y); [done| |by apply HP, in_app_iff; right|by apply (Hheap (e, j))|done].
    apply HP, in_app_iff. left. by apply (in_map fst) in He.
Qed.

Lemma sorted_snoc l x : sorted_by cmp l -> (forall y, In y l -> cmp y x <> Gt) -> sorted_by cmp (l ++ [x]).
Proof. intros Hs H. apply sorted_app; [done|by repeat constructor|]. by intros a b Ha [<-|[]]; apply H. Qed.

Lemma concat_insert (rems : list (list document)) i x rem :
  rems !! i = Some (x :: rem) -> Permutation (concat rems) (x :: concat (<[i := rem]> rems)).
Proof.
  revert i. induction rems as [|r rems IH]; intros [|i] H; try done; simpl in *.
  - by injection H as ->.
  - rewrite (IH i H). symmetry. apply Permutation_middle.
Qed.

Lemma merge_step all heap rems rs merged m i :
  Forall good all -> merging all heap rems rs merged -> P m ->
  heap !! heap_max (merge_cmp cmp) heap = Some (m, i) ->
  (forall y, In y (map fst heap ++ concat rems) -> cmp m y <> Gt) ->
  exists r o r' rems', rs !! i = Some r /\ read_doc r = Ok (o, r') /\
    (length (concat rems') + (match o with Some _ => 1 | None => 0 end) = length (concat rems))%nat /\
    merging all (match o with Some next => delete (heap_max (merge_cmp cmp) heap) heap ++ [(next, i)]
                              | None => delete (heap_max (merge_cmp cmp) heap) heap end)
      rems' (<[i := r']> rs) (merged ++ [m]).
Proof.
  intros Hall [Hp Hs Hb Hh Hr Hf Hi] Pm Hm Hmin. set (pos := heap_max (merge_cmp cmp) heap) in *.
  assert (Hmem : In (m, i) heap) by (apply list_elem_of_In; by eapply list_elem_of_lookup_2).
  assert (Hdel : Permutation heap ((m, i) :: delete pos heap)) by (by apply delete_Permutation).
  set (heap' := delete pos heap) in *. clearbody heap'.
  destruct (lookup_lt_is_Some_2 rems i (Hi m i Hmem)) as [rem Hrem].
  destruct (Forall2_lookup_l _ _ _ _ _ Hf Hrem) as (r & Hrs & Hhold).
  assert (Hsub : forall y, In y (map fst heap' ++ concat rems) -> In y (map fst heap ++ concat rems)).
  { intros y Hy. apply in_app_iff in Hy as [Hy|Hy]; apply in_app_iff; [left|by right].
    rewrite Hdel. by right. }
  assert (Hrest : forall e j, In (e, j) heap -> (e, j) = (m, i) \/ In (e, j) heap').
  { intros e j He. eapply Permutation_in in He; [|exact Hdel]. destruct He as [<-|He]; auto. }
  assert (Hs' : sorted_by cmp (merged ++ [m])).
  { apply sorted_snoc; [done|]. intros y Hy. apply Hb; [done|]. apply in_app_iff. left. by apply (in_map fst) in Hmem. }
  assert (Hb' : forall x y, In x (merged ++ [m]) -> In y (map fst heap' ++ concat rems) -> cmp x y <> Gt).
  { intros x y Hx Hy. apply in_app_iff in Hx as [Hx|[<-|[]]]; [apply Hb; auto|auto]. }
  assert (Hin_del : forall e j, In (e, j) heap' -> In (e, j) heap).
  { intros e j He. eapply Permutation_in; [symmetry; exact Hdel|by right]. }
  exists r. destruct rem as [|next rem].
  - exists None, r, rems. split; [done|]. split; [by apply read_doc_nil|]. split; [lia|].
    rewrite (list_insert_id rs i r Hrs). split; try done.
    + rewrite <- Hp, Hdel. cbn [map fst]. rewrite <- app_assoc. done.
    + intros j rem x Hj Hx. destruct (Hh j rem x Hj Hx) as (e & He & Hle).
      destruct (Hrest e j He) as [E|He']; [|eauto]. injection E as -> ->. rewrite Hrem in Hj. by injection Hj as <-.
    + intros e j He. by eapply Hi, Hin_del.
  - assert (Hgood : spillable next).
    { rewrite List.Forall_forall in Hall. apply Hall. eapply Permutation_in; [exact Hp|].
      apply in_app_iff. right. apply in_app_iff. right. apply in_concat. exists (next :: rem).
      split; [|by left]. apply list_elem_of_In. by eapply list_elem_of_lookup_2. }
    destruct (read_doc_cons next rem r Hgood Hhold) as (r' & Hread & Hhold').
    pose proof (concat_insert rems i next rem Hrem) as Hcat.
    exists (Some next), r', (<[i := rem]> rems). split; [done|]. split; [done|].
    split; [rewrite (Permutation_length Hcat); simpl; lia|].
    assert (Hsn : sorted_by cmp (next :: rem)) by (eapply Forall_lookup_1 in Hrem; [exact Hrem|done]).
    apply StronglySorted_inv in Hsn as [Hsn Hnext]. rewrite List.Forall_forall in Hnext.
    assert (Hsub' : forall y, In y (map fst (heap' ++ [(next, i)]) ++ concat (<[i:=rem]> rems)) ->
      In y (map fst heap' ++ concat rems)).
    { intros y. rewrite map_app, !in_app_iff. simpl. rewrite Hcat. simpl. tauto. }
    split; try done.
    + rewrite <- Hp, Hdel, Hcat, map_app. cbn [map fst]. rewrite <- !app_assoc. done.
    + intros x y Hx Hy. apply Hb'; [done|by apply Hsub'].
    + intros j rem' x Hj Hx. destruct (decide (i = j)) as [<-|Hne].
      * rewrite list_lookup_insert_eq in Hj by (by eapply lookup_lt_Some). injection Hj as <-.
        exists next. split; [apply in_app_iff; right; by left|by apply Hnext].
      * rewrite list_lookup_insert_ne in Hj by done. destruct (Hh j rem' x Hj Hx) as (e & He & Hle).
        destruct (Hrest e j He) as [E|He']; [by injection E as -> ->|]. exists e. split; [apply in_app_iff; by left|done].
    + by apply Forall_insert.
    + by apply Forall2_insert.
    + intros e j He. rewrite length_insert. apply in_app_iff in He as [He|[[= <- <-]|[]]]; [by eapply Hi, Hin_del|].
      by eapply lookup_lt_Some.
Qed.

Lemma merging_done all rems rs merged : merging all [] rems rs merged ->
  merge_loop 0 cmp [] rs merged = Ok merged /\ Permutation all merged /\ sorted_by cmp merged.
Proof.
  intros [Hp Hs _ Hh _ _ _]. split; [done|]. split; [|done].
  assert (Hnil : concat rems = []).
  { destruct (concat rems) as [|x l] eqn:E; [done|]. exfalso.
    assert (Hx : In x (concat rems)) by (rewrite E; by left). apply in_concat in Hx as (rem & Hrem & Hx).
    apply list_elem_of_In, list_elem_of_lookup in Hrem as [i Hi]. by destruct (Hh i rem x Hi Hx) as (e & [] & _). }
  rewrite Hnil, !app_nil_r in Hp. by symmetry.
Qed.

Lemma merge_loop_sorts fuel : forall all heap rems rs merged,
  Forall good all -> merging all heap rems rs merged ->
  (length heap + length (concat rems) <= fuel)%nat ->
  exists r, merge_loop fuel cmp heap rs merged = Ok r /\ Permutation all r /\ sorted_by cmp r.
Proof.
  induction fuel as [|fuel IH]; intros all heap rems rs merged Hall Hm Hf.
  - destruct heap as [|e heap]; [|simpl in Hf; lia]. exists merged. by apply (merging_done all rems rs).
  - destruct (decide (heap = [])) as [->|Hne]; [exists merged; by apply (merging_done all rems rs)|].
    destruct (heap_pop all heap rems rs merged Hall Hm Hne) as (m & i & Hpos & Pm & Hmin).
    destruct (merge_step all heap rems rs merged m i Hall Hm Pm Hpos Hmin)
      as (r & o & r' & rems' & Hrs & Hread & Hlen & Hm').
    destruct heap as [|e heap]; [done|]. cbn [merge_loop]. set (hp := e :: heap) in *.
    rewrite Hpos, Hrs, Hread. eapply IH; [done|exact Hm'|].
    assert (Hd : length (delete (heap_max (merge_cmp cmp) hp) hp) = (length hp - 1)%nat)
      by (apply length_delete; by rewrite Hpos).
    unfold hp in *. simpl length in Hf, Hd. destruct o; rewrite ?length_app; simpl length in *; lia.
Qed.

(** *** The heap of first documents *)

Definition heads (i : nat) (rds : list (list document)) : list (document * nat) :=
  concat (imap (fun k run => match run with x :: _ => [(x, (i + k)%nat)] | [] => [] end) rds).

Lemma heads_cons i run rds :
  heads i (run :: rds) = match run with x :: _ => [(x, i)] | [] => [] end ++ heads (S i) rds.
Proof.
  unfold heads. simpl. rewrite Nat.add_0_r. do 2 f_equal. apply imap_ext. intros k x _. simpl.
  by rewrite Nat.add_succ_r.
Qed.

Lemma heads_In rds : forall i x j, In (x, j) (heads i rds) <->
  exists k rest, j = (i + k)%nat /\ rds !! k = Some (x :: rest).
Proof.
  intros i x j. unfold heads. rewrite in_concat. split.
  - intros (l & Hl & Hx). apply list_elem_of_In, list_elem_of_lookup in Hl as [k Hk].
    rewrite list_lookup_imap in Hk. destruct (rds !! k) as [run|] eqn:E; [|done]. injection Hk as <-.
    destruct run as [|h run]; [done|]. destruct Hx as [[= <- <-]|[]]. eauto.
  - intros (k & rest & -> & Hk). exists [(x, (i + k)%nat)]. split; [|by left].
    apply list_elem_of_In, list_elem_of_lookup. exists k. by rewrite list_lookup_imap, Hk.
Qed.

Lemma heads_perm rds : forall i, Permutation (map fst (heads i rds) ++ concat (map (@tl document) rds)) (concat rds).
Proof.
  induction rds as [|[|x run] rds IH]; intros i; [done|rewrite heads_cons; apply IH|].
  rewrite heads_cons. simpl. constructor. rewrite <- (IH (S i)), !app_assoc. by rewrite (Permutation_app_comm run).
Qed.

Lemma fill_heap_heads rds rs : Forall2 holds rds rs -> Forall (Forall spillable) rds ->
  forall i, exists rs', fill_heap i rs = Ok (heads i rds, rs') /\ Forall2 holds (map (@tl document) rds) rs'.
Proof.
  induction 1 as [|run r rds rs Hr _ IH]; intros Hs i; [by exists []|].
  inversion_clear Hs as [|? ? Hrun Hs']. destruct (IH Hs' (S i)) as (rs' & Hf & Hh).
  rewrite heads_cons. cbn [fill_heap]. destruct run as [|x run].
  - rewrite (read_doc_nil r Hr), Hf. eexists. split; [done|]. by constructor.
  - inversion_clear Hrun as [|? ? Hx _]. destruct (read_doc_cons x run r Hx Hr) as (r' & -> & Hr'). rewrite Hf.
    eexists. split; [done|]. by constructor.
Qed.

Lemma heads_merging all rds rs' :
  Permutation (concat rds) all -> Forall (sorted_by cmp) rds -> Forall2 holds (map (@tl document) rds) rs' ->
  merging all (heads 0 rds) (map (@tl document) rds) rs' [].
Proof.
  intros Hp Hs Hh. split; try done.
  - simpl. by rewrite heads_perm.
  - constructor.
  - intros i rem x Hi Hx. rewrite list_lookup_fmap in Hi. destruct (rds !! i) as [[|h run]|] eqn:E; try done;
      injection Hi as <-; [done|]. exists h. split; [apply heads_In; eauto|].
    eapply Forall_lookup_1 in Hs; [|exact E]. apply StronglySorted_inv in Hs as [_ Hs].
    rewrite List.Forall_forall in Hs. by apply Hs.
  - apply List.Forall_forall. intros l Hl. apply in_map_iff in Hl as (run & <- & Hrun).
    rewrite List.Forall_forall in Hs. specialize (Hs run Hrun). destruct run; [done|].
    by apply StronglySorted_inv in Hs as [Hs _].
  - intros e i He. apply heads_In in He as (k & rest & -> & Hk). rewrite length_map. simpl. by eapply lookup_lt_Some.
Qed.

(** *** The runs *)

Record sorting (done : list document) (st : sort_state) : Prop := {
  so_runs : exists rds, Forall2 holds rds (runs st) /\ Forall (sorted_by cmp) rds /\
    Permutation (concat rds ++ buffer st) done;
  so_buffer : runs st = [] -> buffer st = done }.

Lemma sort_item_sorting limit done st d :
  Forall good done -> good d -> sorting done st ->
  exists st', sort_item cmp limit st (Ok d) = Ok st' /\ sorting (done ++ [d]) st'.
Proof.
  intros Hdone [Hsp Pd] [(rds & Hh & Hs & Hp) Hb]. unfold sort_item.
  assert (Hbuf : Forall good (buffer st ++ [d])).
  { apply Forall_app. split; [|by constructor]. apply List.Forall_forall. intros x Hx.
    rewrite List.Forall_forall in Hdone. apply Hdone. eapply Permutation_in; [exact Hp|]. apply in_app_iff. by right. }
  assert (Hbs : Forall spillable (buffer st ++ [d])) by (eapply Forall_impl; [exact Hbuf|by intros x []]).
  assert (HbP : Forall P (buffer st ++ [d])) by (eapply Forall_impl; [exact Hbuf|by intros x []]).
  destruct (limit <=? _)%Z.
  - destruct (spill_run_holds cmp _ Hbs) as (r & -> & Hr). eexists. split; [done|]. split; cbn [runs buffer].
    + exists (rds ++ [sort_by cmp (buffer st ++ [d])]). split; [by apply Forall2_app; [|constructor]|].
      split; [apply Forall_app; split; [done|]; constructor; [|done]; by apply (sort_by_sorted P)|].
      rewrite concat_app. simpl. rewrite !app_nil_r, <- sort_by_perm, app_assoc. by rewrite Hp.
    + by destruct (runs st).
  - eexists. split; [done|]. split; cbn [runs buffer].
    + exists rds. split; [done|]. split; [done|]. by rewrite app_assoc, Hp.
    + intros Hr. by rewrite (Hb Hr).
Qed.

Lemma sort_items_sorting limit docs : forall done st,
  Forall good (done ++ docs) -> sorting done st ->
  exists st', fold_result (sort_item cmp limit) st (stream_of docs) = Ok st' /\ sorting (done ++ docs) st'.
Proof.
  induction docs as [|d docs IH]; intros done st Hg Hs; cbn [stream_of map].
  { exists st. by rewrite app_nil_r. }
  pose proof Hg as Hg'. apply Forall_app in Hg' as [Hdone Hrest]. inversion_clear Hrest as [|? ? Hd Hrest'].
  destruct (sort_item_sorting limit done st d Hdone Hd Hs) as (st' & E & Hs').
  assert (Ha : done ++ d :: docs = (done ++ [d]) ++ docs) by (rewrite <- app_assoc; done). rewrite Ha in *.
  change (Ok d :: map Ok docs) with ([@Ok document agg_failure d] ++ stream_of docs).
  rewrite fold_result_app. unfold fold_result at 1. rewrite E. by apply IH.
Qed.

(** The merge of the runs of a state, the buffer flushed as the last. *)
Lemma merge_runs docs st :
  Forall good docs -> sorting docs st -> runs st <> [] ->
  exists r, (let? rs := match buffer st with
                        | [] => Ok (runs st)
                        | buf => let? run := spill_run cmp buf in Ok (runs st ++ [run])
                        end in
             let? (heap, rs) := fill_heap 0 rs in merge_loop (merge_fuel heap rs) cmp heap rs []) = Ok r /\
    Permutation docs r /\ sorted_by cmp r.
Proof.
  intros Hg [(rds & Hh & Hs & Hp) _] Hne.
  assert (Hruns : exists rds' rs', match buffer st with
      | [] => Ok (runs st) | buf => let? run := spill_run cmp buf in Ok (runs st ++ [run]) end = Ok rs' /\
      Forall2 holds rds' rs' /\ Forall (sorted_by cmp) rds' /\ Permutation (concat rds') docs).
  { assert (Hbuf : Forall good (buffer st)).
    { apply List.Forall_forall. intros x Hx. rewrite List.Forall_forall in Hg. apply Hg.
      eapply Permutation_in; [exact Hp|]. apply in_app_iff. by right. }
    destruct (buffer st) as [|b buf] eqn:Eb; [exists rds, (runs st); rewrite app_nil_r in Hp; done|].
    destruct (spill_run_holds cmp (b :: buf)) as (r & -> & Hr); [eapply Forall_impl; [exact Hbuf|by intros x []]|].
    exists (rds ++ [sort_by cmp (b :: buf)]), (runs st ++ [r]). split; [done|].
    split; [by apply Forall2_app; [|constructor]|]. split.
    - apply Forall_app. split; [done|]. constructor; [|done]. apply (sort_by_sorted P); [done|].
      eapply Forall_impl; [exact Hbuf|by intros x []].
    - rewrite concat_app. cbn [concat]. rewrite app_nil_r, <- sort_by_perm. done. }
  destruct Hruns as (rds' & rs' & -> & Hh' & Hs' & Hp').
  assert (Hsp : Forall (Forall spillable) rds').
  { apply List.Forall_forall. intros run Hrun. apply List.Forall_forall. intros x Hx.
    rewrite List.Forall_forall in Hg. apply Hg. eapply Permutation_in; [exact Hp'|]. apply in_concat. eauto. }
  destruct (fill_heap_heads rds' rs' Hh' Hsp 0) as (rs'' & -> & Hh'').
  apply (merge_loop_sorts _ docs _ (map (@tl document) rds')); [done|by apply heads_merging|].
  unfold merge_fuel. apply Nat.add_le_mono_l. clear -Hh''.
  induction Hh'' as [|l r ls rs [_ Hr] _ IH]; simpl; [done|]. rewrite length_app, Hr. lia.
Qed.
End ExternalSort.

Section SortOnDisk.
Context {B : BsonOps} {Lm : Libm} {G : S2} {T : TextEnv} {FP : F64Parse} {A : AggEnv} {SE : StdEnv}
  {BC : BsonCodecLaws B} {BF : BsonFrameLaws B} {SL : StdLaws SE}.

(** C32: with spilling to disk, [$sort] under any memory limit returns the
    same documents, in the order of the sort, on documents the codec writes and whose
    sort keys are not NaN. *)
Theorem external_sort_sorts docs sort_doc limit :
  Forall spillable docs -> Forall (sortable sort_doc) docs ->
  exists r, external_sort (stream_of docs) (BDocument sort_doc) limit = Ok r /\
    Permutation docs r /\ sorted_by (sort_docs_cmp sort_doc) r.
Proof.
  intros Hsp Hso. unfold external_sort. set (cmp := fun a b => cmp_by_sort_fields a b (sort_fields sort_doc)).
  assert (Hcmp : forall x y, cmp x y = sort_docs_cmp sort_doc x y) by (intros; apply cmp_by_fields_docs).
  assert (TP : TotalPreorder (sortable sort_doc) cmp)
    by (eapply tp_cmp_ext; [intros; apply Hcmp|apply sort_docs_tp]).
  assert (Hg : Forall (good (sortable sort_doc)) docs).
  { apply List.Forall_forall. intros x Hx. rewrite List.Forall_forall in Hsp, Hso. by split; [apply Hsp|apply Hso]. }
  assert (Hres : forall r, sorted_by cmp r -> sorted_by (sort_docs_cmp sort_doc) r).
  { intros r. unfold sorted_by. induction 1 as [|x l _ IH Hx]; constructor; [done|].
    eapply Forall_impl; [exact Hx|]. intros y Hy. rewrite <- Hcmp. exact Hy. }
  destruct (sort_items_sorting (sortable sort_doc) cmp TP limit docs [] {| buffer := []; buffer_bytes := 0; runs := [] |})
    as (st & -> & Hst); [done|split; [by exists []|done]|].
  cbn [app] in Hst. destruct (runs st) as [|r0 rs] eqn:Er.
  - rewrite (so_buffer _ _ _ Hst Er). eexists. split; [done|]. split; [apply sort_by_perm|].
    by apply Hres, (sort_by_sorted (sortable sort_doc)).
  - rewrite <- Er. destruct (merge_runs (sortable sort_doc) cmp TP docs st Hg Hst) as (r & Heq & Hp & Hs);
      [by rewrite Er|]. exists r. split; [exact Heq|]. auto.
Qed.
End SortOnDisk.

(** ** The external group *)

Section Regroup.
Context {K D : Type}.

(** Groups are determined by the items, the order apart. *)
Lemma grouped_unique (items : list (string * K * D)) g1 g2 :
  grouped items g1 -> grouped items g2 -> Permutation g1 g2.
Proof.
  assert (Hnd : forall g, grouped items g -> List.NoDup g) by (intros g Hg; eapply NoDup_map_inv, Hg).
  assert (Hsub : forall g g', grouped items g -> grouped items g' -> forall x, In x g -> In x g').
  { intros g g' Hg Hg' [k [id ds]] Hin. destruct (grouped_members _ _ Hg _ _ _ Hin) as [-> Hhd].
    destruct (members k items) as [|it rest] eqn:Em; [done|].
    assert (Hit : In it items /\ fst (fst it) = k).
    { assert (H : In it (members k items)) by (rewrite Em; by left). apply List.filter_In in H as [H E].
      split; [done|]. by apply String.eqb_eq. }
    destruct Hit as [Hit <-]. pose proof (grouped_all _ _ Hg' it Hit) as Hk.
    apply in_map_iff in Hk as ([k' [id' ds']] & Ek & Hin'). simpl in Ek. subst k'.
    destruct (grouped_members _ _ Hg' _ _ _ Hin') as [-> Hhd']. rewrite Em in *. simpl in *. congruence. }
  intros H1 H2. apply Stdlib.Sorting.Permutation.NoDup_Permutation; [by apply Hnd..|]. intros x. split; by apply Hsub.
Qed.

(** The groups of a partition of the items by a function of the key. *)
Lemma grouped_concat (n : nat) (h : string -> nat) (items : list (string * K * D)) gs :
  (forall k, (h k < n)%nat) -> length gs = n ->
  (forall p g, gs !! p = Some g -> grouped (List.filter (fun it => (h (fst (fst it)) =? p)%nat) items) g) ->
  grouped items (concat gs).
Proof.
  intros Hh Hl Hg.
  assert (Hkey : forall p g k id ds, gs !! p = Some g -> In (k, (id, ds)) g -> h k = p).
  { intros p g k id ds Hp Hin. pose proof (grouped_members_ne _ _ _ _ _ (Hg p g Hp) Hin) as Hne.
    destruct (grouped_members _ _ (Hg p g Hp) _ _ _ Hin) as [-> _].
    destruct (members k _) as [|it rest] eqn:Em; [done|].
    assert (H : In it (members k (List.filter (fun it => (h (fst (fst it)) =? p)%nat) items))) by (rewrite Em; by left).
    apply List.filter_In in H as [H E1]. apply List.filter_In in H as [_ E2].
    apply String.eqb_eq in E1. apply Nat.eqb_eq in E2. congruence. }
  split.
  - assert (H : forall l i, (forall p g, l !! p = Some g -> gs !! (i + p)%nat = Some g) ->
      List.NoDup (map fst (concat l))).
    { induction l as [|g l IH]; intros i Hi; simpl; [constructor|]. rewrite map_app. apply List.NoDup_app.
      - apply (Hg i g). rewrite <- (Hi 0%nat g); [by rewrite Nat.add_0_r|done].
      - apply (IH (S i)). intros p g' Hp. rewrite <- (Hi (S p) g' Hp). f_equal. lia.
      - intros k Hk1 Hk2. apply in_map_iff in Hk1 as ([k1 [i1 d1]] & <- & H1).
        apply in_map_iff in Hk2 as ([k2 [i2 d2]] & E & H2). simpl in E. subst k2.
        apply in_concat in H2 as (g2 & Hg2 & H2). apply list_elem_of_In, list_elem_of_lookup in Hg2 as [p Hp].
        pose proof (Hkey _ _ _ _ _ (Hi 0%nat g eq_refl) H1). pose proof (Hkey _ _ _ _ _ (Hi (S p) g2 Hp) H2).
        simpl in *. lia. }
    by apply (H gs 0%nat).
  - intros it Hit. destruct (lookup_lt_is_Some_2 gs (h (fst (fst it)))) as [g Hgp]; [rewrite Hl; apply Hh|].
    assert (Hin : In (fst (fst it)) (map fst g)).
    { apply (grouped_all _ _ (Hg _ _ Hgp)). apply List.filter_In. split; [done|]. apply Nat.eqb_refl. }
    apply in_map_iff in Hin as (x & <- & Hx). apply (in_map fst). apply in_concat. exists g. split; [|done].
    apply list_elem_of_In. by eapply list_elem_of_lookup_2.
  - intros k id ds Hin. apply in_concat in Hin as (g & Hgin & Hin).
    apply list_elem_of_In, list_elem_of_lookup in Hgin as [p Hp].
    pose proof (Hkey _ _ _ _ _ Hp Hin) as Hk. pose proof (grouped_members _ _ (Hg _ _ Hp) _ _ _ Hin) as Hm.
    assert (E : members k (List.filter (fun it => (h (fst (fst it)) =? p)%nat) items) = members k items).
    { unfold members. clear -Hk. induction items as [|it items IH]; simpl; [done|].
      destruct (String.eqb_spec (fst (fst it)) k) as [E|E].
      - rewrite E, Hk, Nat.eqb_refl. simpl. rewrite (proj2 (String.eqb_eq _ _) E). by rewrite IH.
      - destruct (h (fst (fst it)) =? p)%nat; simpl; [|done]. by rewrite (proj2 (String.eqb_neq _ _) E). }
    by rewrite E in Hm.
Qed.
End Regroup.

Section MapResult.
Context {X Y E : Type} (f : X -> result Y E).

Lemma map_result_app l1 l2 :
  map_result f (l1 ++ l2) = let? r1 := map_result f l1 in let? r2 := map_result f l2 in Ok (r1 ++ r2).
Proof.
  induction l1 as [|x l1 IH]; simpl; [by destruct (map_result f l2)|]. destruct (f x); [|done]. rewrite IH.
  destruct (map_result f l1); [|done]. by destruct (map_result f l2).
Qed.

Lemma map_result_perm l l' r : Permutation l l' -> map_result f l = Ok r ->
  exists r', map_result f l' = Ok r' /\ Permutation r r'.
Proof.
  intros Hp. revert r. induction Hp as [|x l l' _ IH|x y l|l1 l2 l3 _ IH1 _ IH2]; intros r H; simpl in *.
  - injection H as <-. by exists [].
  - destruct (f x); [|done]. destruct (map_result f l) as [r1|]; [|done]. injection H as <-.
    destruct (IH r1 eq_refl) as (r' & -> & Hp). eexists. split; [done|]. by constructor.
  - destruct (f y), (f x); try done. destruct (map_result f l); [|done]. injection H as <-.
    eexists. split; [done|]. constructor.
  - destruct (IH1 r H) as (r2 & H2 & P2). destruct (IH2 r2 H2) as (r3 & H3 & P3). exists r3.
    split; [done|]. by etrans.
Qed.

Lemma map_result_parts {Z'} (g : Z' -> result (list Y) E) zs ls r :
  Forall2 (fun z l => g z = map_result f l) zs ls -> map_result f (concat ls) = Ok r ->
  exists rs, map_result g zs = Ok rs /\ concat rs = r.
Proof.
  intros H. revert r. induction H as [|z l zs ls Hz _ IH]; intros r Hr; simpl in *; [injection Hr as <-; by exists []|].
  rewrite map_result_app in Hr. rewrite Hz. destruct (map_result f l) as [r1|]; [|done].
  destruct (map_result f (concat ls)) as [r2|]; [|done]. injection Hr as <-.
  destruct (IH r2 eq_refl) as (rs & -> & <-). by exists (r1 :: rs).
Qed.
End MapResult.

Section GroupOnDisk.
Context {B : BsonOps} {Lm : Libm} {G : S2} {T : TextEnv} {FP : F64Parse} {A : AggEnv} {SE : StdEnv}
  {BC : BsonCodecLaws B} {BF : BsonFrameLaws B} {SL : StdLaws SE}.
Variables (group_doc : document) (id_expr : bson).

Definition group_id (d : document) : bson :=
  match evaluate_expression d id_expr with Ok v => v | Err _ => BNull end.
Definition has_id (d : document) : Prop := evaluate_expression d id_expr = Ok (group_id d).
Definition item (d : document) : string * bson * document := (bson_to_key_string (group_id d), group_id d, d).
Definition partition_of (d : document) : nat := hash_group_key (bson_to_key_string (group_id d)).
Definition part (p : nat) (docs : list document) : list document :=
  List.filter (fun d => (partition_of d =? p)%nat) docs.
Definition run_group (g : string * (bson * list document)) : result document agg_failure :=
  group_result group_doc (fst (snd g)) (snd (snd g)).

Lemma hash_group_key_bound k : (hash_group_key k < NUM_PARTITIONS)%nat.
Proof.
  unfold hash_group_key. pose proof (Z.mod_pos_bound (fold_left (fun h b => wrap_u64 (wrap_u64 (h * 31) + Z.of_N (Byte.to_N b)))
    (list_byte_of_string k) 5381)%Z (Z.of_nat NUM_PARTITIONS) eq_refl). lia.
Qed.

Lemma keyed_items docs : Forall has_id docs ->
  exists ids, values docs id_expr = Ok ids /\ keyed docs ids = map item docs.
Proof.
  unfold values. induction 1 as [|d docs Hd _ (ids & Hv & Hk)]; [by exists []|].
  exists (group_id d :: ids). simpl. rewrite Hd, Hv. split; [done|]. unfold keyed in *. simpl. by rewrite Hk.
Qed.

Lemma group_docs_ids docs groups : group_docs id_expr docs = Ok groups -> Forall has_id docs.
Proof.
  unfold group_docs. generalize (@nil (string * (bson * list document))). revert groups.
  induction docs as [|d docs IH]; intros groups gs H; [constructor|]. simpl in H.
  destruct (evaluate_expression d id_expr) as [v|] eqn:E; [|done]. constructor; [|by eapply IH].
  unfold has_id, group_id. by rewrite E.
Qed.

(** The stage runs the accumulators over the groups of the items. *)
Lemma stage_group_items docs :
  doc_get group_doc "_id" = Some id_expr -> Forall has_id docs ->
  exists groups, grouped (map item docs) groups /\
    stage_group docs (BDocument group_doc) = map_result run_group groups.
Proof.
  intros Hid Hd. destruct (keyed_items docs Hd) as (ids & Hv & Hk).
  destruct (group_docs_grouped _ _ _ Hv) as (groups & Hg & Hgr). rewrite Hk in Hgr.
  exists (hash_order groups). split; [eapply grouped_perm; [symmetry; apply hash_order_perm|done]|].
  unfold stage_group. rewrite Hid, Hg. apply map_result_ext_in. by intros [k [id ds]] _.
Qed.

(** *** The partition files *)

Definition partitioned (done : list document) (ws : list SpillWriter) : Prop :=
  length ws = NUM_PARTITIONS /\
  forall p w, ws !! p = Some w -> written w = file_of (part p done) /\ doc_count w = length (part p done).

Lemma part_app p l1 l2 : part p (l1 ++ l2) = part p l1 ++ part p l2.
Proof. apply List.filter_app. Qed.

Lemma part_one p d : part p [d] = if (partition_of d =? p)%nat then [d] else [].
Proof. done. Qed.

Lemma partitioned_nil : partitioned [] (repeat new_writer NUM_PARTITIONS).
Proof.
  split; [apply repeat_length|]. intros p w Hp. apply list_elem_of_lookup_2, list_elem_of_In, repeat_spec in Hp.
  by subst w.
Qed.

Lemma spill_doc_partitioned done ws d :
  has_id d -> spillable d -> partitioned done ws ->
  exists ws', spill_doc id_expr ws d = Ok ws' /\ partitioned (done ++ [d]) ws'.
Proof.
  intros Hd (_ & _ & b & Eb) [Hl Hw]. unfold spill_doc. rewrite Hd. fold (partition_of d).
  assert (Hb : (partition_of d < length ws)%nat) by (rewrite Hl; apply hash_group_key_bound).
  destruct (lookup_lt_is_Some_2 ws (partition_of d) Hb) as [w Ew]. rewrite Ew. unfold write_doc. rewrite Eb.
  eexists. split; [done|]. split; [by rewrite length_insert|]. intros p w' Hp. rewrite part_app, file_app, length_app.
  rewrite part_one. apply list_lookup_insert_Some in Hp as [(<- & <- & _)|[Hne Hp]].
  - rewrite Nat.eqb_refl. destruct (Hw _ _ Ew) as [Hf Hc]. cbn [written doc_count length]. rewrite Hf, Hc.
    unfold file_of at 3, doc_bytes. simpl. rewrite Eb, app_nil_r. split; [done|]. lia.
  - rewrite (proj2 (Nat.eqb_neq _ _) Hne). destruct (Hw _ _ Hp) as [-> ->]. unfold file_of at 3. simpl.
    rewrite app_nil_r. split; [done|]. lia.
Qed.

Lemma spill_docs_partitioned docs : forall done ws,
  Forall has_id docs -> Forall spillable docs -> partitioned done ws ->
  exists ws', fold_result (spill_doc id_expr) ws docs = Ok ws' /\ partitioned (done ++ docs) ws'.
Proof.
  induction docs as [|d docs IH]; intros done ws Hi Hs Hp; simpl; [exists ws; by rewrite app_nil_r|].
  inversion_clear Hi as [|? ? Hi1 Hi2]. inversion_clear Hs as [|? ? Hs1 Hs2].
  destruct (spill_doc_partitioned done ws d Hi1 Hs1 Hp) as (ws1 & -> & Hp1).
  destruct (IH _ ws1 Hi2 Hs2 Hp1) as (ws2 & E & Hp2). exists ws2. split; [exact E|]. by rewrite <- app_assoc in Hp2.
Qed.

(** What the state holds of the documents read so far. *)
Definition collecting (done : list document) (st : group_state) : Prop :=
  match g_writers st with
  | None => g_buffer st = done
  | Some ws => partitioned done ws
  end.

Lemma group_item_collecting limit done st d :
  Forall has_id (done ++ [d]) -> Forall spillable (done ++ [d]) -> collecting done st ->
  exists st', group_item id_expr limit st (Ok d) = Ok st' /\ collecting (done ++ [d]) st'.
Proof.
  intros Hi Hs Hc. unfold group_item, collecting in *. destruct (g_writers st) as [ws|].
  - apply Forall_app in Hi as [_ Hi]. apply Forall_app in Hs as [_ Hs].
    destruct (spill_doc_partitioned done ws d) as (ws' & -> & Hp); [by inversion Hi|by inversion Hs|done|].
    eexists. split; [done|]. done.
  - rewrite Hc. destruct (limit <=? _)%Z; [|by eexists].
    destruct (spill_docs_partitioned (done ++ [d]) [] _ Hi Hs partitioned_nil) as (ws & -> & Hp). by eexists.
Qed.

Lemma group_items_collecting limit docs : forall done st,
  Forall has_id (done ++ docs) -> Forall spillable (done ++ docs) -> collecting done st ->
  exists st', fold_result (group_item id_expr limit) st (stream_of docs) = Ok st' /\ collecting (done ++ docs) st'.
Proof.
  induction docs as [|d docs IH]; intros done st Hi Hs Hc; [exists st; by rewrite app_nil_r|].
  assert (Ha : done ++ d :: docs = (done ++ [d]) ++ docs) by (rewrite <- app_assoc; done). rewrite Ha in *.
  pose proof Hi as Hi'. pose proof Hs as Hs'. apply Forall_app in Hi' as [Hi' _]. apply Forall_app in Hs' as [Hs' _].
  destruct (group_item_collecting limit done st d Hi' Hs' Hc) as (st' & E & Hc').
  change (stream_of (d :: docs)) with ([@Ok document agg_failure d] ++ stream_of docs).
  rewrite fold_result_app. unfold fold_result at 1. rewrite E. by apply IH.
Qed.

(** *** The groups of the partitions *)

Lemma group_partition_groups docs ws p w :
  doc_get group_doc "_id" = Some id_expr -> Forall has_id docs -> Forall spillable docs ->
  partitioned docs ws -> ws !! p = Some w ->
  exists groups, grouped (map item (part p docs)) groups /\
    group_partition (BDocument group_doc) w = map_result run_group groups.
Proof.
  intros Hid Hi Hs [_ Hw] Hp. destruct (Hw _ _ Hp) as [Hf Hc].
  assert (Hsub : forall P, Forall P docs -> Forall P (part p docs)).
  { intros P HP. apply List.Forall_forall. intros x Hx. apply List.filter_In in Hx as [Hx _].
    rewrite List.Forall_forall in HP. by apply HP. }
  unfold group_partition. rewrite Hc. destruct (part p docs) as [|d ds] eqn:Ep.
  { exists []. split; [apply grouped_nil|done]. }
  cbn [length Nat.eqb]. rewrite <- Ep in *.
  rewrite (read_all_holds (part p docs)); [by apply stage_group_items; [|apply Hsub]|by apply Hsub|done].
Qed.

Lemma part_items p docs :
  map item (part p docs) = List.filter (fun it => (hash_group_key (fst (fst it)) =? p)%nat) (map item docs).
Proof.
  unfold part. induction docs as [|d docs IH]; simpl; [done|]. unfold partition_of at 1.
  destruct (hash_group_key _ =? p)%nat; simpl; by rewrite IH.
Qed.

Lemma partitions_groups docs ws :
  doc_get group_doc "_id" = Some id_expr -> Forall has_id docs -> Forall spillable docs -> partitioned docs ws ->
  exists gs, grouped (map item docs) (concat gs) /\
    Forall2 (fun w g => group_partition (BDocument group_doc) w = map_result run_group g) ws gs.
Proof.
  intros Hid Hi Hs Hp.
  assert (H : forall ws' i, (forall p w, ws' !! p = Some w -> ws !! (i + p)%nat = Some w) ->
    exists gs, length gs = length ws' /\
      (forall p g, gs !! p = Some g -> grouped (map item (part (i + p) docs)) g) /\
      Forall2 (fun w g => group_partition (BDocument group_doc) w = map_result run_group g) ws' gs).
  { induction ws' as [|w ws' IH]; intros i Hw; [by exists []|].
    destruct (IH (S i)) as (gs & Hl & Hg & Hf).
    { intros p w' Hw'. rewrite <- (Hw (S p) w' Hw'). f_equal. lia. }
    destruct (group_partition_groups docs ws i w Hid Hi Hs Hp) as (g & Hgr & Hge).
    { rewrite <- (Hw 0%nat w eq_refl). f_equal. lia. }
    exists (g :: gs). split; [simpl; by rewrite Hl|]. split; [|by constructor].
    intros [|p] g' Hp'; simpl in Hp'; [injection Hp' as <-; by rewrite Nat.add_0_r|].
    replace (i + S p)%nat with (S i + p)%nat by lia. by apply Hg. }
  destruct (H ws 0%nat) as (gs & Hl & Hg & Hf); [done|]. exists gs. split; [|done].
  apply (grouped_concat NUM_PARTITIONS hash_group_key); [apply hash_group_key_bound|rewrite Hl; apply Hp|].
  intros p g Hpg. rewrite <- part_items. by apply Hg.
Qed.
End GroupOnDisk.

Section GroupRefines.
Context {B : BsonOps} {Lm : Libm} {G : S2} {T : TextEnv} {FP : F64Parse} {A : AggEnv} {SE : StdEnv}
  {BC : BsonCodecLaws B} {BF : BsonFrameLaws B} {SL : StdLaws SE}.

(** C33: with spilling to disk, [$group] under any memory limit gives the
    documents the in-memory stage gives, up to the order of the hash map. *)
Theorem external_group_refines docs group_spec limit r0 :
  Forall spillable docs -> stage_group docs group_spec = Ok r0 ->
  exists r, external_group (stream_of docs) group_spec limit = Ok r /\ Permutation r0 r.
Proof.
  intros Hs H0. destruct group_spec as [| | |group_doc| | | | | | | | | | | | | | | | |]; try done.
  pose proof H0 as Hg. unfold stage_group in Hg. unfold external_group.
  destruct (doc_get group_doc "_id") as [id_expr|] eqn:Hid; [|done].
  destruct (group_docs id_expr docs) as [gs0|] eqn:Eg; [|done]. clear Hg.
  pose proof (group_docs_ids _ _ _ Eg) as Hi.
  destruct (stage_group_items group_doc id_expr docs Hid Hi) as (groups & Hgr & Heq). rewrite Heq in H0.
  destruct (group_items_collecting id_expr limit docs [] {| g_buffer := []; g_bytes := 0; g_writers := None |})
    as (st & -> & Hc); [done..|]. cbn [app] in Hc. unfold collecting in Hc.
  destruct (g_writers st) as [ws|]; [|exists r0; by rewrite Hc, Heq].
  destruct (partitions_groups group_doc id_expr docs ws Hid Hi Hs Hc) as (gs & Hgs & Hf).
  destruct (map_result_perm _ _ _ _ (grouped_unique _ _ _ Hgr Hgs) H0) as (r & Hr & Hp).
  destruct (map_result_parts _ _ _ _ _ Hf Hr) as (rs & -> & <-). by eexists.
Qed.
End GroupRefines.

(** ** A codec with length-prefixed documents *)

Module RefFrame.
Definition prefix_len (b : bytes) : bytes := rev (be_bytes 4 (Z.of_nat (length b + 4))) ++ b.

(** [RefBson]'s documents behind their length. *)
#[export] Instance ops : BsonOps := {|
  doc_get := RefBson.get; doc_insert := RefBson.insert; doc_remove := RefBson.remove;
  bson_eqb := @bson_eqb RefBson.ops; bson_debug := @bson_debug RefBson.ops;
  bson_display := @bson_display RefBson.ops;
  doc_to_vec d :=
    let? b := RefBson.to_vec d in
    if (Z.of_nat (length b + 4) <=? i32_max)%Z then Ok (prefix_len b) else Err "document too large";
  doc_from_reader b := RefBson.from_reader (drop 4 b);
  oid_to_hex := @oid_to_hex RefBson.ops; value_access_error := @value_access_error RefBson.ops;
  oid_parse_str := @oid_parse_str RefBson.ops |}.

#[export] Instance codec_laws : BsonCodecLaws ops.
Proof.
  split. intros d b _ _. cbn [doc_to_vec doc_from_reader ops]. destruct (RefBson.to_vec d) as [b0|] eqn:E; [|done].
  destruct (_ <=? _)%Z; [|done]. intros [= <-]. unfold prefix_len.
  rewrite drop_app_length' by done. by apply RefBson.from_to_vec.
Qed.

#[export] Instance frame_laws : BsonFrameLaws ops.
Proof.
  split. intros d b. cbn [doc_to_vec ops]. destruct (RefBson.to_vec d) as [b0|] eqn:E; [|done].
  destruct (Z.leb_spec (Z.of_nat (length b0 + 4)) i32_max); [|done]. intros [= <-].
  assert (Hl : length (prefix_len b0) = (length b0 + 4)%nat)
    by (unfold prefix_len; rewrite length_app; simpl; lia).
  rewrite Hl. split; [lia|]. split; [lia|]. unfold prefix_len. by rewrite take_app_length' by done.
Qed.
End RefFrame.

Section Witnesses.
Import RefAgg RefStd RefFrame.

Lemma xs_spillable l : forallb (in_range i32_min i32_max) l = true ->
  forallb (fun n => is_ok (doc_to_vec [("x", BInt32 n)])) l = true -> Forall spillable (xs l).
Proof.
  intros Hr Hv. apply List.Forall_forall. intros d Hd. apply in_map_iff in Hd as (n & <- & Hn).
  rewrite List.forallb_forall in Hr, Hv. specialize (Hr n Hn). specialize (Hv n Hn). split; [|split; [done|]].
  - unfold doc_ok. simpl. by rewrite Hr.
  - destruct (doc_to_vec _) as [b|]; [by exists b|done].
Qed.

(** A limit of one byte writes every document as a run of its own. *)
Lemma external_sort_sorts_witness :
  exists r, external_sort (stream_of (xs [3; 1; 2]%Z)) (BDocument [("x", BInt32 1)]) 1%Z = Ok r /\
    Permutation (xs [3; 1; 2]%Z) r /\ sorted_by (sort_docs_cmp [("x", BInt32 1)]) r.
Proof.
  apply external_sort_sorts; [apply xs_spillable; vm_compute; reflexivity|].
  apply xs_sortable. repeat constructor; done.
Defined.

Lemma external_group_refines_witness :
  let spec := BDocument [("_id", BString "$x"); ("n", BDocument [("$sum", BInt32 1)])] in
  exists r, external_group (stream_of (xs [1; 2; 1]%Z)) spec 1%Z = Ok r /\
    Permutation [[("_id", BInt32 1); ("n", BInt64 2)]; [("_id", BInt32 2); ("n", BInt64 1)]] r.
Proof.
  intros spec. apply external_group_refines; [apply xs_spillable; vm_compute; reflexivity|vm_compute; reflexivity].
Defined.
End Witnesses.
