(* ===== verification/GeoNear.v ===== *)
(** * The [$geoNear] stage

    [src/rust/smongo-engine/src/aggregation/stages.rs]: documents by distance from
    a point, through an index or by a scan of the input, whose [limit] keeps
    the nearest in a heap.  The scan with a limit gives the distances of the
    full sort cut at the limit. *)

From Stdlib Require Import ZArith Lia Ascii String Strings.Byte Permutation Sorted.
From S2P Require Import Prelude F64 F32 Bson RefBson Paths Geo Query Update Schema Collation Expressions Accumulators Stages StageLaws.
From stdpp Require Import base tactics list strings.

Open Scope string_scope.
Open Scope list_scope.

(** ** The order of doubles in a heap *)

Definition zero_sign (x : f64) : Z :=
  match x with SpecFloat.S754_zero true => -1 | _ => 0 end%Z.

(** Source: aggregation/total_ord.rs:47-51 (TotalF64::cmp). [f64::total_cmp], for the one
    positive NaN of the model. *)
Definition total_cmp (x y : f64) : comparison :=
  match f64_is_nan x, f64_is_nan y with
  | true, true => Eq
  | true, false => Gt
  | false, true => Lt
  | false, false => cmp_then (f64_cmp_or_eq x y) (Z.compare (zero_sign x) (zero_sign y))
  end.

(** The order of the pairs [(TotalF64, usize)]. *)
Definition entry_cmp (a b : f64 * nat) : comparison :=
  cmp_then (total_cmp (fst a) (fst b)) (Nat.compare (snd a) (snd b)).

(** ** The stage *)

(** Source: aggregation/mod.rs:101-139 (IndexProvider). The methods the stages call. *)
Record IndexProvider : Type := {
  vector_search : string -> string -> list f32 -> Z -> Z -> string -> option document -> bool ->
    result (option (list (document * f32))) agg_failure;
  geo_near_indexed : string -> string -> f64 -> f64 -> option Z -> option f64 -> option document ->
    result (option (list (document * f64))) agg_failure;
  sorted_scan : string -> document -> Z -> option document ->
    result (option (list document)) agg_failure }.

(** Source: aggregation/mod.rs:507-510 (PipelineIndexCtx). *)
Record PipelineIndexCtx : Type := { provider : IndexProvider; source_collection : string }.

Section GeoNear.
Context {B : BsonOps} {Lm : Libm} {G : S2} {T : TextEnv} {FP : F64Parse} {A : AggEnv} {SE : StdEnv}.
#[local] Existing Instance engine.

(** [Bson::as_i64]: the payload of the one variant. *)
Definition as_i64 (b : bson) : option Z := match b with BInt64 n => Some n | _ => None end.

(** [get(key).and_then(|v| v.as_f64().or_else(|| v.as_i64().map(|i| i as f64)))]. *)
Definition get_distance (d : document) (key : string) : option f64 :=
  and_then (doc_get d key) (fun v => opt_or (as_f64 v) (option_map f64_of_Z (as_i64 v))).

Definition get_str_or (d : document) (key default : string) : string :=
  match doc_get_as as_str d key with Ok s => s | Err _ => default end.
Definition get_opt {X} (proj : bson -> option X) (d : document) (key : string) : option X :=
  match doc_get_as proj d key with Ok s => Some s | Err _ => None end.

Definition distance_multiplier (gn_doc : document) : f64 :=
  match and_then (doc_get gn_doc "distanceMultiplier") as_f64 with Some x => x | None => f64_one end.

(** Source: aggregation/stages.rs:2039-2051 (stage_geo_near). The distance, and the location, set on
    a document. *)
Definition with_distance (gn_doc : document) (distance_field : string) (doc : document) (dist : f64) : document :=
  let doc := set_ignored doc distance_field (BDouble (f64_mul dist (distance_multiplier gn_doc))) in
  match get_opt as_str gn_doc "includeLocs" with
  | Some locs_field =>
      match get_value doc (get_str_or gn_doc "key" "location") with
      | Some loc_val => set_ignored doc locs_field loc_val
      | None => doc
      end
  | None => doc
  end.

(** Source: aggregation/stages.rs:2013-2037 (stage_geo_near). The distance of a document, unless it
    is skipped. *)
Definition near_distance (gn_doc : document) (near_lon near_lat : f64) (doc : document)
  : result (option f64) agg_failure :=
  let? kept := match get_opt as_document gn_doc "query" with
               | Some filter => matches_or_false doc filter
               | None => Ok true
               end in
  if negb kept then Ok None
  else
    match extract_lon_lat (get_value doc (get_str_or gn_doc "key" "location")) with
    | None => Ok None
    | Some (doc_lon, doc_lat) =>
        let dist := haversine_meters near_lon near_lat doc_lon doc_lat in
        let too_far := match get_distance gn_doc "maxDistance" with
                       | Some max_d => f64_ltb max_d dist | None => false end in
        let too_near := match get_distance gn_doc "minDistance" with
                        | Some min_d => f64_ltb dist min_d | None => false end in
        Ok (if too_far || too_near then None else Some dist)
    end.

(** Source: aggregation/stages.rs:2056-2066 (stage_geo_near). A prepared document offered to the heap. *)
Definition offer (k : Z) (heap : list (f64 * nat)) (entry : f64 * nat) : list (f64 * nat) :=
  if (Z.of_nat (length heap) <? k)%Z then heap ++ [entry]
  else
    let pos := heap_max entry_cmp heap in
    match heap !! pos with
    | Some (max_dist, _) =>
        match total_cmp (fst entry) max_dist with
        | Lt => delete pos heap ++ [entry]
        | _ => heap
        end
    | None => heap
    end.

(** Source: aggregation/stages.rs:2012-2067 (stage_geo_near). One document; the documents prepared
    and the heap. *)
Definition near_step (gn_doc : document) (distance_field : string) (near_lon near_lat : f64) (use_heap : option Z)
  (st : list (f64 * document) * list (f64 * nat)) (doc : document)
  : result (list (f64 * document) * list (f64 * nat)) agg_failure :=
  let '(prepared, heap) := st in
  let? o := near_distance gn_doc near_lon near_lat doc in
  match o with
  | None => Ok st
  | Some dist =>
      Ok (prepared ++ [(dist, with_distance gn_doc distance_field doc dist)],
          match use_heap with
          | Some k => offer k heap (dist, length prepared)
          | None => heap
          end)
  end.

Definition by_distance {X} (a b : f64 * X) : comparison := f64_cmp_or_eq (fst a) (fst b).

(** [prepared[i].1], whose index is always in range. *)
Definition prepared_nth (prepared : list (f64 * document)) (i : nat) : document := snd (nth i prepared (f64_zero, [])).

(** Source: aggregation/stages.rs:1974-2085 (stage_geo_near). *)
Definition stage_geo_near (docs : list document) (spec : bson) : result (list document) agg_failure :=
  match spec with
  | BDocument gn_doc =>
      match doc_get gn_doc "near" with
      | None => missing_field "$geoNear.near required"
      | Some near =>
          match extract_lon_lat (Some near) with
          | None => invalid_stage "$geoNear.near must be a GeoJSON Point or [lon, lat]"
          | Some (near_lon, near_lat) =>
              match doc_get_as as_str gn_doc "distanceField" with
              | Err _ => missing_field "$geoNear.distanceField required"
              | Ok distance_field =>
                  let use_heap := and_then (doc_get gn_doc "limit") as_count in
                  let? (prepared, heap) :=
                    fold_result (near_step gn_doc distance_field near_lon near_lat use_heap) ([], []) docs in
                  Ok (match use_heap with
                      | Some _ => map (fun e => prepared_nth prepared (snd e)) (sort_by by_distance (heap_order heap))
                      | None => map snd (sort_by by_distance prepared)
                      end)
              end
          end
      end
  | _ => invalid_stage "$geoNear requires document"
  end.

(** Source: aggregation/stages.rs:1905-1909 (stage_geo_near_stream). *)
Definition stage_geo_near_stream (input : DocStream) (spec : bson) : result DocStream agg_failure :=
  let? docs := collect input in
  let? results := stage_geo_near docs spec in
  Ok (stream_of results).

(** Source: aggregation/stages.rs:1913-1972 (stage_geo_near_stream_indexed). *)
Definition stage_geo_near_stream_indexed (input : DocStream) (spec : bson) (idx_ctx : option PipelineIndexCtx)
  : result DocStream agg_failure :=
  match spec with
  | BDocument gn_doc =>
      let? indexed :=
        match idx_ctx, and_then (doc_get gn_doc "near") (fun n => extract_lon_lat (Some n)) with
        | Some ctx, Some (lon, lat) =>
            match geo_near_indexed (provider ctx) (source_collection ctx) (get_str_or gn_doc "key" "location") lon lat
                    (and_then (doc_get gn_doc "limit") as_count) (get_distance gn_doc "maxDistance")
                    (get_opt as_document gn_doc "query") with
            | Ok o => Ok o
            | Err (AggErr _) => Ok None
            | Err (AggPanic m) => Err (AggPanic m)
            end
        | _, _ => Ok None
        end in
      match indexed with
      | Some scored =>
          Ok (stream_of (map (fun '(doc, dist) =>
            with_distance gn_doc (get_str_or gn_doc "distanceField" "dist") doc dist) scored))
      | None => stage_geo_near_stream input spec
      end
  | _ => invalid_stage "$geoNear requires document"
  end.
End GeoNear.

(** ** The heap keeps the nearest *)

Definition not_nan {X} (e : f64 * X) : Prop := f64_is_nan (fst e) = false.

Lemma total_cmp_tp : TotalPreorder (fun x => f64_is_nan x = false) total_cmp.
Proof.
  eapply tp_cmp_ext; [|apply tp_then; [exact f64_cmp_tp|]].
  - intros x y Hx Hy. unfold total_cmp. by rewrite Hx, Hy.
  - apply (tp_pullback (fun _ => True) _ zero_sign Z.compare); [done|].
    split; intros; [apply Z.compare_refl|apply Z.compare_antisym|]. rewrite !Z.compare_ngt_iff in *. lia.
Qed.

Lemma entry_cmp_tp : TotalPreorder not_nan entry_cmp.
Proof.
  apply tp_then.
  - by apply (tp_pullback (fun x => f64_is_nan x = false) _ fst total_cmp), total_cmp_tp.
  - apply (tp_pullback (fun _ => True) _ snd Nat.compare); [done|].
    split; intros; [apply Nat.compare_refl|apply Nat.compare_antisym|]. rewrite !Nat.compare_ngt_iff in *. lia.
Qed.

Lemma by_distance_tp {X} : TotalPreorder (@not_nan X) by_distance.
Proof. by apply (tp_pullback (fun x => f64_is_nan x = false) _ fst f64_cmp_or_eq), f64_cmp_tp. Qed.

(** What the heap orders, the distances order. *)
Lemma total_by_distance {X Y} (a : f64 * X) (b : f64 * Y) :
  not_nan a -> not_nan b -> total_cmp (fst a) (fst b) <> Gt -> f64_cmp_or_eq (fst a) (fst b) <> Gt.
Proof.
  unfold not_nan, total_cmp. intros -> ->. unfold cmp_then. by destruct (f64_cmp_or_eq (fst a) (fst b)).
Qed.

Section Heap.
Context {SE : StdEnv} {SL : StdLaws SE} (k : Z) (Hk : (0 <= k)%Z).

(** The heap holds the nearest of the entries offered; [dropped] are the others. *)
Definition nearest (heap dropped : list (f64 * nat)) : Prop :=
  (Z.of_nat (length heap) <= k)%Z /\ (dropped <> [] -> Z.of_nat (length heap) = k) /\
  Forall not_nan (heap ++ dropped) /\
  forall x y, In x heap -> In y dropped -> by_distance x y <> Gt.

Lemma heap_top heap : heap <> [] -> Forall not_nan heap ->
  exists m, heap !! heap_max entry_cmp heap = Some m /\ In m heap /\ forall x, In x heap -> by_distance x m <> Gt.
Proof.
  intros Hne Hn. destruct (heap_max_is_max _ _ _ heap entry_cmp_tp Hn Hne) as (m & Hm & Hmax).
  assert (Hin : In m heap) by (apply list_elem_of_In; by eapply list_elem_of_lookup_2).
  rewrite List.Forall_forall in Hn. exists m. split; [done|]. split; [done|]. intros x Hx.
  apply total_by_distance; [by apply Hn..|]. specialize (Hmax x Hx). unfold entry_cmp, cmp_then in Hmax.
  by destruct (total_cmp (fst x) (fst m)).
Qed.

Lemma nearest_drop heap dropped e :
  not_nan e -> nearest heap dropped -> Z.of_nat (length heap) = k -> (forall x, In x heap -> by_distance x e <> Gt) ->
  nearest heap (dropped ++ [e]).
Proof.
  intros He (Hl & Hd & Hn & Hle) Hlen Hx. repeat split; [done|done| |].
  - rewrite app_assoc. apply Forall_app. split; [done|]. by constructor.
  - intros x y Hx' [Hy|[<-|[]]]%in_app_iff; [by apply Hle|by apply Hx].
Qed.

Lemma nearest_replace heap dropped e m pos :
  not_nan e -> nearest heap dropped -> Z.of_nat (length heap) = k -> heap !! pos = Some m ->
  by_distance e m <> Gt -> (forall x, In x heap -> by_distance x m <> Gt) ->
  nearest (delete pos heap ++ [e]) (m :: dropped) /\
  Permutation ((delete pos heap ++ [e]) ++ m :: dropped) (heap ++ dropped ++ [e]).
Proof.
  intros He (_ & _ & Hn & Hle) Hlen Hm Hem Hxm. pose proof (delete_Permutation heap _ _ Hm) as Hp.
  assert (Hperm : Permutation ((delete pos heap ++ [e]) ++ m :: dropped) (heap ++ dropped ++ [e])).
  { rewrite Hp at 2. clear. transitivity (e :: m :: delete pos heap ++ dropped).
    - rewrite <- app_assoc. cbn [app]. by rewrite <- !Permutation_middle.
    - rewrite app_assoc. by rewrite (Permutation_app_comm _ [e]). }
  split; [|done].
  assert (Hl : length heap = S (length (delete pos heap))) by (rewrite Hp at 1; done).
  assert (Hnn : Forall not_nan ((delete pos heap ++ [e]) ++ m :: dropped)).
  { eapply Permutation_Forall; [symmetry; exact Hperm|]. rewrite app_assoc. apply Forall_app.
    split; [done|]. by constructor. }
  rewrite List.Forall_forall in Hn.
  assert (Hin : forall x, In x (m :: delete pos heap) -> In x heap) by (intros; eapply Permutation_in; [symmetry; exact Hp|done]).
  repeat split; [rewrite length_app; simpl; lia|intros _; rewrite length_app; simpl; lia|done|].
  intros x y Hx Hy. assert (Hx' : by_distance x m <> Gt).
  { apply in_app_iff in Hx as [Hx|[<-|[]]]; [|done]. apply Hxm, Hin. by right. }
  destruct Hy as [<-|Hy]; [done|]. rewrite List.Forall_forall in Hnn.
  apply (tp_trans _ _ by_distance_tp x m y); [apply Hnn, in_app_iff; by left|apply Hn, in_app_iff; left; apply Hin; by left|
    apply Hn, in_app_iff; by right|done|apply Hle; [apply Hin; by left|done]].
Qed.

Lemma offer_nearest heap dropped e :
  not_nan e -> nearest heap dropped ->
  exists dropped', nearest (offer k heap e) dropped' /\ Permutation (offer k heap e ++ dropped') (heap ++ dropped ++ [e]).
Proof.
  intros He Hnear. pose proof Hnear as (Hl & Hd & Hn & Hle). unfold offer.
  destruct (Z.ltb_spec (Z.of_nat (length heap)) k) as [Hlt|Hge].
  { assert (dropped = []) as -> by (destruct dropped; [done|]; specialize (Hd ltac:(done)); lia).
    exists []. rewrite app_nil_r in *. split; [|done]. repeat split; [rewrite length_app; simpl; lia|done| |done].
    rewrite app_nil_r. apply Forall_app. split; [done|]. by constructor. }
  assert (Hfull : Z.of_nat (length heap) = k) by lia.
  assert (Hdrop : (forall x, In x heap -> by_distance x e <> Gt) -> exists dropped', nearest heap dropped' /\
    Permutation (heap ++ dropped') (heap ++ dropped ++ [e])).
  { intros Hx. exists (dropped ++ [e]). split; [by apply nearest_drop|done]. }
  destruct (decide (heap = [])) as [->|Hne]; [apply Hdrop; by intros x []|].
  assert (Hnh : Forall not_nan heap) by (by apply Forall_app in Hn as [Hn _]).
  destruct (heap_top heap Hne Hnh) as ([md mi] & Hm & Hmin & Hxm). rewrite Hm.
  rewrite List.Forall_forall in Hnh. pose proof (Hnh _ Hmin) as Hnm.
  assert (Hfar : total_cmp (fst e) md <> Lt -> forall x, In x heap -> by_distance x e <> Gt).
  { intros Ht x Hx. apply (tp_trans _ _ by_distance_tp x (md, mi) e); auto. apply total_by_distance; [done..|].
    cbn [fst]. rewrite (tp_sym _ _ total_cmp_tp (fst e) md He Hnm). by destruct (total_cmp (fst e) md). }
  destruct (total_cmp (fst e) md) eqn:Et; [by apply Hdrop, Hfar| |by apply Hdrop, Hfar].
  eexists. apply nearest_replace; try done. apply total_by_distance; [done..|]. cbn [fst]. by rewrite Et.
Qed.
End Heap.

(** ** The stage with a limit *)

Lemma sort_by_map_in {X Y} (f : X -> Y) c c' l :
  (forall x y, In x l -> In y l -> c x y = c' (f x) (f y)) -> map f (sort_by c l) = sort_by c' (map f l).
Proof.
  assert (Hi : forall x l, (forall y, In y l -> c x y = c' (f x) (f y)) ->
    map f (insert_by c x l) = insert_by c' (f x) (map f l)).
  { intros x l0. induction l0 as [|y l0 IH]; intros H; simpl; [done|]. rewrite <- H by (by left).
    destruct (c x y); simpl; [done..|]. rewrite IH; [done|]. intros z Hz. apply H. by right. }
  induction l as [|x l IH]; intros H; simpl; [done|]. rewrite Hi, IH; [done|..].
  - intros y z Hy Hz. apply H; by right.
  - intros y Hy%sort_by_In. apply H; [by left|by right].
Qed.

Section Limit.
Context {B : BsonOps} {Lm : Libm} {G : S2} {T : TextEnv} {FP : F64Parse} {A : AggEnv} {SE : StdEnv}.
#[local] Existing Instance engine.
Variables (gn_doc : document) (distance_field : string) (lon lat : f64).

(** The documents within reach, in their order, each with its distance. *)
Definition candidates (docs : list document) : result (list (f64 * document)) agg_failure :=
  let? os := map_result (fun doc =>
    let? o := near_distance gn_doc lon lat doc in
    Ok (option_map (fun dist => (dist, with_distance gn_doc distance_field doc dist)) o)) docs in
  Ok (omap (fun o => o) os).

Lemma near_fold_all docs : forall prepared heap,
  fold_result (near_step gn_doc distance_field lon lat None) (prepared, heap) docs =
  let? c := candidates docs in Ok (prepared ++ c, heap).
Proof.
  unfold candidates. induction docs as [|doc docs IH]; intros prepared heap; simpl; [by rewrite app_nil_r|].
  destruct (near_distance gn_doc lon lat doc) as [[dist|]|]; [| |done]; rewrite IH;
    destruct (map_result _ docs) as [os|]; try done. simpl. by rewrite <- app_assoc.
Qed.

Definition numbered (i : nat) (prepared : list (f64 * document)) : list (f64 * nat) :=
  imap (fun j p => (fst p, (i + j)%nat)) prepared.

Lemma near_fold k docs : forall prepared heap,
  fold_result (near_step gn_doc distance_field lon lat (Some k)) (prepared, heap) docs =
  let? c := candidates docs in
  Ok (prepared ++ c, fold_left (offer k) (numbered (length prepared) c) heap).
Proof.
  unfold candidates. induction docs as [|doc docs IH]; intros prepared heap; simpl; [by rewrite app_nil_r|].
  destruct (near_distance gn_doc lon lat doc) as [[dist|]|]; [| |done]; rewrite IH;
    destruct (map_result _ docs) as [os|]; try done. simpl.
  unfold numbered. cbn [omap list_omap option_map imap fst fold_left].
  rewrite <- app_assoc, Nat.add_0_r, length_app. do 3 f_equal. apply imap_ext. intros j p _. simpl. f_equal. lia.
Qed.

Lemma offers_nearest `{!StdLaws SE} k es : (0 <= k)%Z -> forall heap dropped,
  Forall not_nan es -> nearest k heap dropped ->
  exists dropped', nearest k (fold_left (offer k) es heap) dropped' /\
    Permutation (fold_left (offer k) es heap ++ dropped') (heap ++ dropped ++ es).
Proof.
  intros Hk. induction es as [|e es IH]; intros heap dropped Hn Hh; simpl; [exists dropped; by rewrite app_nil_r|].
  inversion_clear Hn as [|? ? He Hn']. destruct (offer_nearest k heap dropped e He Hh) as (d1 & H1 & P1).
  destruct (IH _ d1 Hn' H1) as (d2 & H2 & P2). exists d2. split; [done|]. rewrite P2, app_assoc, P1.
  rewrite <- !app_assoc. done.
Qed.

Lemma numbered_nth i pre prepared e : length pre = i -> In e (numbered i prepared) ->
  exists doc, nth (snd e) (pre ++ prepared) (f64_zero, []) = (fst e, doc).
Proof.
  intros Hi He. apply list_elem_of_In, list_elem_of_lookup in He as [j Hj]. unfold numbered in Hj.
  rewrite list_lookup_imap in Hj. destruct (prepared !! j) as [[d doc]|] eqn:E; [|done]. injection Hj as <-.
  exists doc. simpl. rewrite app_nth2 by lia. replace (i + j - length pre)%nat with j by lia.
  by apply nth_lookup_Some.
Qed.

Lemma offers_In k es : forall heap e, In e (fold_left (offer k) es heap) -> In e heap \/ In e es.
Proof.
  induction es as [|e0 es IH]; intros heap e He; simpl in *; [by left|].
  apply IH in He as [He|He]; [|auto]. unfold offer in He.
  assert (Hd : forall pos, In e (delete pos heap) -> In e heap).
  { intros pos. clear. revert heap. induction pos as [|pos IH]; intros [|x heap]; simpl; auto. intros [->|H]; auto. }
  repeat case_match; try (by left); apply in_app_iff in He as [He|[->|[]]]; eauto.
Qed.

Lemma numbered_all prepared :
  map (fun e => nth (snd e) prepared (f64_zero, [])) (numbered 0 prepared) = prepared.
Proof.
  apply list_eq. intros j. unfold numbered. rewrite list_lookup_fmap, list_lookup_imap.
  destruct (prepared !! j) as [p|] eqn:E; [|done]. simpl. f_equal. by apply nth_lookup_Some.
Qed.

(** The entries of the heap, sorted, as the documents prepared. *)
Lemma heap_documents `{!StdLaws SE} k prepared :
  (0 <= k)%Z -> Forall not_nan prepared ->
  exists top, map (fun e => prepared_nth prepared (snd e))
      (sort_by by_distance (heap_order (fold_left (offer k) (numbered 0 prepared) []))) = map snd top /\
    Forall2 (fun x y => by_distance x y = Eq) top (iter_take k (sort_by by_distance prepared)) /\
    exists rest, Permutation (top ++ rest) prepared.
Proof.
  intros Hk Hn. assert (Hnn : Forall not_nan (numbered 0 prepared)).
  { apply List.Forall_forall. intros e He. destruct (numbered_nth 0 [] prepared e eq_refl He) as [doc Hd].
    pose proof (in_map (fun e => nth (snd e) prepared (f64_zero, [])) _ _ He) as Hin. rewrite numbered_all in Hin.
    cbn [app] in Hd. rewrite Hd in Hin. rewrite List.Forall_forall in Hn. exact (Hn _ Hin). }
  destruct (offers_nearest k (numbered 0 prepared) Hk [] []) as (dropped & (Hl & Hd & _ & Hle) & Hp);
    [done|repeat split; [simpl; lia|done|constructor|done]|].
  cbn [app] in Hp. set (heap := fold_left (offer k) (numbered 0 prepared) []) in *.
  set (g := fun e : f64 * nat => nth (snd e) prepared (f64_zero, [])).
  assert (Hg : forall e, In e heap \/ In e dropped -> fst (g e) = fst e).
  { intros e He. destruct (numbered_nth 0 [] prepared e eq_refl) as [doc Hdoc].
    - eapply Permutation_in; [exact Hp|]. by apply in_app_iff.
    - unfold g. cbn [app] in Hdoc. by rewrite Hdoc. }
  assert (Hperm : Permutation (map g (heap_order heap) ++ map g dropped) prepared).
  { rewrite <- map_app, heap_order_perm, Hp. unfold g. by rewrite numbered_all. }
  assert (Hcmp : forall x y, In x heap \/ In x dropped -> In y heap \/ In y dropped ->
    by_distance (g x) (g y) = by_distance x y).
  { intros x y Hx Hy. unfold by_distance. by rewrite !Hg. }
  assert (Hho : forall x, In x (heap_order heap) -> In x heap) by (intros; eapply Permutation_in; [apply heap_order_perm|done]).
  exists (sort_by by_distance (map g (heap_order heap))). split; [|split].
  - rewrite <- (sort_by_map_in g by_distance by_distance); [by rewrite map_map|].
    intros x y Hx%Hho Hy%Hho. by rewrite Hcmp by (by left).
  - pose proof (preceding_part_sorted not_nan by_distance _ _ prepared by_distance_tp Hn Hperm) as H.
    unfold iter_take. rewrite <- (Permutation_length (sort_by_perm _ prepared)).
    replace (Z.to_nat (Z.min k (Z.of_nat (length prepared)))) with (length (map g (heap_order heap))).
    + apply H. intros x y Hx Hy. apply in_map_iff in Hx as (x' & <- & Hx%Hho). apply in_map_iff in Hy as (y' & <- & Hy).
      rewrite Hcmp by auto. by apply Hle.
    + apply Permutation_length in Hperm as Hlen. rewrite length_app, !length_map in Hlen.
      rewrite length_map. pose proof (Permutation_length (heap_order_perm _ heap)) as Hlh.
      destruct dropped as [|x dropped]; [simpl in Hlen; lia|]. specialize (Hd ltac:(done)). lia.
  - exists (map g dropped). by rewrite <- sort_by_perm.
Qed.
End Limit.

Section NearestFirst.
Context {B : BsonOps} {Lm : Libm} {G : S2} {T : TextEnv} {FP : F64Parse} {A : AggEnv} {SE : StdEnv} {SL : StdLaws SE}.

(** [$geoNear] with a limit keeps, of the documents that pass the filter and
    the bounds, as many as the limit allows, and position by position their distances
    are those of the full sort cut at the limit: the heap keeps the nearest. *)
Theorem geo_near_keeps_nearest docs gn_doc near lon lat distance_field k cs :
  doc_get gn_doc "near" = Some near -> extract_lon_lat (Some near) = Some (lon, lat) ->
  doc_get_as as_str gn_doc "distanceField" = Ok distance_field ->
  and_then (doc_get gn_doc "limit") as_count = Some k -> (0 <= k)%Z ->
  candidates gn_doc distance_field lon lat docs = Ok cs -> Forall not_nan cs ->
  exists top, stage_geo_near docs (BDocument gn_doc) = Ok (map snd top) /\
    Forall2 (fun x y => by_distance x y = Eq) top (iter_take k (sort_by by_distance cs)) /\
    exists rest, Permutation (top ++ rest) cs.
Proof.
  intros Hn He Hd Hk Hk0 Hc Hnn. destruct (heap_documents k cs Hk0 Hnn) as (top & Ht & H1 & H2).
  exists top. split; [|done]. unfold stage_geo_near. rewrite Hn, He, Hd, Hk, near_fold, Hc. cbn [app length].
  by rewrite Ht.
Qed.
End NearestFirst.

(** ** Types *)

Section GeoNearTypes.
Context {B : BsonOps} {Lm : Libm} {G : S2} {T : TextEnv} {FP : F64Parse} {A : AggEnv} {SE : StdEnv}
  {BL : BsonLaws B} {SL : StdLaws SE}.
#[local] Existing Instance engine.

Lemma with_distance_ok gn_doc df doc dist : doc_ok doc = true -> doc_ok (with_distance gn_doc df doc dist) = true.
Proof.
  intros Hd. unfold with_distance. set (doc1 := set_ignored _ _ _).
  assert (H1 : doc_ok doc1 = true) by (by apply set_ignored_ok).
  destruct (get_opt _ _ _); [|done]. destruct (get_value doc1 _) as [v|] eqn:Ev; [|done].
  apply set_ignored_ok; [done|]. by eapply get_value_wf.
Qed.

Lemma candidates_ok gn_doc df lon lat docs cs :
  docs_ok docs -> candidates gn_doc df lon lat docs = Ok cs -> docs_ok (map snd cs).
Proof.
  unfold candidates. revert cs. induction docs as [|doc docs IH]; intros cs Hd H; simpl in H; [by injection H as <-|].
  destruct (near_distance gn_doc lon lat doc) as [[dist|]|]; [| |done];
    destruct (map_result _ docs) as [os|]; try done; injection H as <-; simpl.
  - intros d [<-|Hin]; [apply with_distance_ok, Hd; by left|]. eapply IH; [|done|done]. intros x Hx. apply Hd. by right.
  - eapply IH; [|done]. intros x Hx. apply Hd. by right.
Qed.

Lemma stage_geo_near_typed : typed_batch stage_geo_near.
Proof.
  intros docs spec r Hd _ H. destruct spec as [| | |gn_doc| | | | | | | | | | | | | | | | |]; try done.
  unfold stage_geo_near in H. destruct (doc_get gn_doc "near"); [|done].
  destruct (extract_lon_lat _) as [[lon lat]|]; [|done]. destruct (doc_get_as _ _ _) as [df|]; [|done].
  destruct (and_then _ _) as [k|]; [rewrite near_fold in H|rewrite near_fold_all in H];
    destruct (candidates gn_doc df lon lat docs) as [cs|] eqn:Ec; try done; injection H as <-;
    pose proof (candidates_ok _ _ _ _ _ _ Hd Ec) as Hcs; intros d Hin; apply in_map_iff in Hin as (e & <- & He).
  - apply (Permutation_in _ (Permutation_sym (sort_by_perm by_distance _))) in He. eapply Permutation_in in He; [|apply heap_order_perm].
    apply offers_In in He as [[]|He]. apply Hcs. unfold prepared_nth. apply (in_map snd).
    pose proof (in_map (fun e => nth (snd e) cs (f64_zero, [])) _ _ He) as Hin. by rewrite numbered_all in Hin.
  - apply (Permutation_in _ (Permutation_sym (sort_by_perm by_distance _))) in He. by apply Hcs, in_map.
Qed.
End GeoNearTypes.

(** ** Witnesses *)

Section Witnesses.
Import RefAgg RefStd.

Definition place (n x : Z) : document :=
  [("_id", BInt32 n); ("location", BArray [BDouble (f64_of_Z x); BDouble f64_zero])].
Definition near_origin (more : document) : document :=
  [("near", BArray [BDouble f64_zero; BDouble f64_zero]); ("distanceField", BString "d")] ++ more.

Lemma geo_near_keeps_nearest_witness :
  let docs := [place 1 30; place 2 10; place 3 20] in
  let gn_doc := near_origin [("limit", BInt32 2)] in
  exists cs, candidates gn_doc "d" f64_zero f64_zero docs = Ok cs /\
  exists top, stage_geo_near docs (BDocument gn_doc) = Ok (map snd top) /\
    Forall2 (fun x y => by_distance x y = Eq) top (iter_take 2 (sort_by by_distance cs)) /\
    exists rest, Permutation (top ++ rest) cs.
Proof.
  intros docs gn_doc. destruct (candidates gn_doc "d" f64_zero f64_zero docs) as [cs|] eqn:Hc;
    [|vm_compute in Hc; discriminate].
  exists cs. split; [done|].
  apply (geo_near_keeps_nearest docs gn_doc (BArray [BDouble f64_zero; BDouble f64_zero]) f64_zero f64_zero "d" 2 cs);
    try reflexivity; [lia|exact Hc|].
  vm_compute in Hc. injection Hc as <-. repeat constructor.
Defined.

(** An [Int32] bound is not read: [maxDistance: 1] keeps the places a thousand kilometres away. *)
Theorem int32_max_distance_ignored :
  let docs := [place 1 30; place 2 10] in
  match stage_geo_near docs (BDocument (near_origin [("maxDistance", BInt32 1)])),
        stage_geo_near docs (BDocument (near_origin [("maxDistance", BInt64 1)])) with
  | Ok r, Ok r' => length r = 2%nat /\ r' = []
  | _, _ => False
  end.
Proof. vm_compute. split; reflexivity. Qed.
End Witnesses.
