(* ===== verification/Oplog.v ===== *)
(** * The oplog: change records, their reader and writer, change streams

    [src/rust/smongo-engine/src/oplog.rs] over the in-memory backend.  Hubs
    and change streams are shared objects ([Arc]): they live in two heaps of
    the state and are referred to by address.  The mutex of a hub and that of
    a stream are held for the whole body of each method, so methods are
    atomic. *)

From Stdlib Require Import ZArith Lia Ascii String Strings.Byte.
From Stdlib Require Import DecimalString DecimalFacts DecimalPos DecimalN.
From S2P Require Import Prelude F64 Bson RefBson Paths BTree Storage.
From stdpp Require Import base tactics list strings gmap.

Open Scope string_scope.
Open Scope list_scope.

(** ** JSON values

    The constructors of [serde_json::Value]; [num] is the crate's number and an
    object is the sequence of its entries. *)

Unset Elimination Schemes.
Inductive json (num : Type) : Type :=
| JNull
| JBool (b : bool)
| JNumber (n : num)
| JString (s : string)
| JArray (a : list (json num))
| JObject (m : list (string * json num)).
Set Elimination Schemes.
Arguments JNull {num}.
Arguments JBool {num} b.
Arguments JNumber {num} n.
Arguments JString {num} s.
Arguments JArray {num} a.
Arguments JObject {num} m.

(** What the engine calls of [serde_json]: numbers made from integers and
    from doubles ([None] where [json!] gives null), read as an [i64] or a
    double, and [Map::{get,insert}]; and decoding a whole entry from JSON text,
    whose result type is [E]. *)
Class JsonOps : Type := {
  num : Type;
  num_of_int : Z -> num;
  num_of_f64 : f64 -> option num;
  num_as_i64 : num -> option Z;
  num_as_f64 : num -> option f64;
  map_get : list (string * json num) -> string -> option (json num);
  map_insert : list (string * json num) -> string -> json num -> list (string * json num) }.

(** Documented behaviour: an integer is read back as that integer, a finite
    double as that double and not as an integer; [Map] keeps the order of
    insertion (the crate is built with [preserve_order]). *)
Class JsonLaws (J : JsonOps) : Prop := {
  as_i64_of_int : forall z, in_i64 z -> num_as_i64 (num_of_int z) = Some z;
  of_f64_finite : forall x, f64_is_finite x = true ->
    exists n, num_of_f64 x = Some n /\ num_as_i64 n = None /\ num_as_f64 n = Some x;
  of_f64_other : forall x, f64_is_finite x = false -> num_of_f64 x = None;
  map_get_In : forall m k v, map_get m k = Some v -> In (k, v) m;
  map_insert_fresh : forall m k v, ~ In k (map fst m) -> map_insert m k v = m ++ [(k, v)];
  map_get_single : forall k v, map_get [(k, v)] k = Some v }.

(** Time in nanoseconds and in seconds, and a random UUID, at the n-th call. *)
Class OplogEnv : Type := {
  time_ns : nat -> Z;
  time_secs : nat -> f64;
  uuid_v4 : nat -> string }.

Section Oplog.
Context {B : BsonOps} {J : JsonOps} {N : OplogEnv}
  (utf8_error : bytes -> string).

Abbreviation value := (json num).

(** ** BSON and JSON *)

(** Source: oplog.rs:804-823 (bson_to_json_value). *)
Fixpoint bson_to_json_value (b : bson) : value :=
  match b with
  | BNull => JNull
  | BBoolean b => JBool b
  | BInt32 n | BInt64 n => JNumber (num_of_int n)
  | BDouble n => match num_of_f64 n with Some x => JNumber x | None => JNull end
  | BString s => JString s
  | BObjectId oid => JObject (map_insert [] "$oid" (JString (oid_to_hex oid)))
  | BDocument doc =>
      JObject (fold_left (fun m '(k, v) => map_insert m k v)
        (map (fun kv => (fst kv, bson_to_json_value (snd kv))) doc) [])
  | BArray arr => JArray (map bson_to_json_value arr)
  | b => JString (bson_debug b)
  end.

(** Source: oplog.rs:829-841 (json_to_bson_value). *)
Definition number_to_bson (n : num) : bson :=
  match num_as_i64 n with
  | Some i => if ((i32_min <=? i) && (i <=? i32_max))%Z then BInt32 i else BInt64 i
  | None => match num_as_f64 n with Some f => BDouble f | None => BNull end
  end.

Definition json_as_str (v : value) : option string :=
  match v with JString s => Some s | _ => None end.

(** Source: oplog.rs:825-857 (json_to_bson_value). *)
Fixpoint json_to_bson_value (j : value) : bson :=
  match j with
  | JNull => BNull
  | JBool b => BBoolean b
  | JNumber n => number_to_bson n
  | JString s => BString s
  | JArray arr => BArray (map json_to_bson_value arr)
  | JObject m =>
      let plain := BDocument (fold_left (fun doc '(k, v) => doc_insert doc k v)
        (map (fun kv => (fst kv, json_to_bson_value (snd kv))) m) []) in
      match and_then (map_get m "$oid") json_as_str with
      | Some oid => match oid_parse_str oid with Some id => BObjectId id | None => plain end
      | None => plain
      end
  end.

(** ** Entries *)

(** Source: oplog.rs:72-76 (OplogError). *)
Inductive OplogError : Type :=
| OpStorage (e : StorageError)
| OpSerialization (msg : string)
| OpOther (msg : string).

(** Source: oplog.rs:91-97 (fmt). *)
Definition oplog_error_display (e : OplogError) : string :=
  match e with
  | OpStorage e => ("Oplog storage error: " ++ storage_error_display e)%string
  | OpSerialization m => ("Oplog serialization error: " ++ m)%string
  | OpOther m => ("Oplog error: " ++ m)%string
  end.

(** Source: oplog.rs:104-121 (OplogEntry). *)
Record OplogEntry : Type := {
  ts : f64;
  ns : string;
  op : string;
  doc_id : value;
  payload : option value;
  entry_v : option Z;
  checksum : option string;
  internal : bool;
  changed_fields : option (list string);
  node_id : option string }.

(** [if let Some(x) = o { d.insert(k, f(x)) }]. *)
Definition insert_opt {A} (d : document) (k : string) (o : option A) (f : A -> bson) : document :=
  match o with Some a => doc_insert d k (f a) | None => d end.

(** Source: oplog.rs:139-165 (oplog_entry_to_document). *)
Definition oplog_entry_to_document (entry : OplogEntry) : document :=
  let d := doc_insert [] "ts" (BDouble (ts entry)) in
  let d := doc_insert d "ns" (BString (ns entry)) in
  let d := doc_insert d "op" (BString (op entry)) in
  let d := doc_insert d "doc_id" (json_to_bson_value (doc_id entry)) in
  let d := insert_opt d "payload" (payload entry) json_to_bson_value in
  let d := insert_opt d "v" (entry_v entry) BInt64 in
  let d := insert_opt d "checksum" (checksum entry) BString in
  let d := doc_insert d "internal" (BBoolean (internal entry)) in
  let d := insert_opt d "changed_fields" (changed_fields entry) (fun cf => BArray (map BString cf)) in
  insert_opt d "node_id" (node_id entry) BString.

(** Source: oplog.rs:167-174 (bson_as_f64). *)
Definition bson_as_f64 (b : bson) : option f64 :=
  match b with
  | BDouble x => Some x
  | BInt32 i | BInt64 i => Some (f64_of_Z i)
  | _ => None
  end.

(** The text of an accessor's error. *)
Definition access_error (e : error) : OplogError :=
  match e with Msg m | Panic m => OpSerialization m end.

(** [r.ok()]. *)
Definition ok {A E} (r : result A E) : option A := match r with Ok a => Some a | Err _ => None end.

(** Source: oplog.rs:176-230 (oplog_entry_from_document). *)
Definition oplog_entry_from_document (doc : document) : result OplogEntry OplogError :=
  let? ts := ok_or (and_then (doc_get doc "ts") bson_as_f64)
    (OpSerialization "missing or invalid ts") in
  let? ns := map_err access_error (doc_get_as as_str doc "ns") in
  let? op := map_err access_error (doc_get_as as_str doc "op") in
  let? doc_id := ok_or (option_map bson_to_json_value (doc_get doc "doc_id"))
    (OpSerialization "missing doc_id") in
  Ok {| ts := ts; ns := ns; op := op; doc_id := doc_id;
        payload := match doc_get doc "payload" with
                   | Some BNull | None => None
                   | Some b => Some (bson_to_json_value b)
                   end;
        entry_v := and_then (doc_get doc "v") (fun b =>
          match b with
          | BInt32 i | BInt64 i => Some i
          | BDouble x => Some (f64_as_i64 x)
          | _ => None
          end);
        checksum := ok (doc_get_as as_str doc "checksum");
        internal := match ok (doc_get_as as_bool doc "internal") with Some b => b | None => false end;
        changed_fields := option_map (omap as_str) (ok (doc_get_as as_array_opt doc "changed_fields"));
        node_id := ok (doc_get_as as_str doc "node_id") |}.

(** [serde_json::from_slice] at type [OplogEntry], derived code. *)
Context (entry_from_json : bytes -> option OplogEntry).

(** Source: oplog.rs:124-137 (decode_oplog_value_bytes). *)
Definition decode_oplog_value_bytes (b : bytes) : result OplogEntry OplogError :=
  let from_bson :=
    let? doc := map_err OpSerialization (doc_from_reader b) in oplog_entry_from_document doc in
  match b with
  | [] => Err (OpSerialization "empty oplog value")
  | b0 :: _ =>
      if (Byte.to_N b0 =? 123)%N then
        match entry_from_json b with Some e => Ok e | None => from_bson end
      else from_bson
  end.

(** ** Change streams *)

(** Source: oplog.rs:600-616 (ChangeEvent). With its [ChangeEventNamespace]. *)
Record ChangeEvent : Type := {
  operation_type : string;
  ns_db : string;
  ns_coll : string;
  document_key : document;
  event_ts : f64;
  full_document : option value }.

(** Source: oplog.rs:642-648 (ChangeStream). With its [ChangeStreamInner]. *)
Record ChangeStream : Type := {
  namespace : option string;
  filter : option (ChangeEvent -> bool);
  queue : list ChangeEvent;
  closed : bool }.

(** Source: oplog.rs:652-663 (ChangeStream::new). *)
Definition stream_new (namespace : option string) (filter : option (ChangeEvent -> bool))
  : ChangeStream :=
  {| namespace := namespace; filter := filter; queue := []; closed := false |}.

Definition set_queue (s : ChangeStream) (q : list ChangeEvent) : ChangeStream :=
  {| namespace := namespace s; filter := filter s; queue := q; closed := closed s |}.

(** [entry.ns.splitn(2, '.')]: the text before the first dot, and after it. *)
Fixpoint split_ns (s : string) : string * string :=
  match s with
  | EmptyString => (EmptyString, EmptyString)
  | String c s' =>
      if Ascii.eqb c "." then (EmptyString, s')
      else let '(db, coll) := split_ns s' in (String c db, coll)
  end.

(** Source: oplog.rs:669-701 (enqueue_entry). The event of an entry, if its
    operation makes one. *)
Definition event_of (entry : OplogEntry) : option ChangeEvent :=
  if existsb (String.eqb (op entry)) ["insert"; "update"; "delete"; "replace"] then
    let '(db, coll) := split_ns (ns entry) in
    Some {| operation_type := op entry; ns_db := db; ns_coll := coll;
            document_key := doc_insert [] "_id" (json_to_bson_value (doc_id entry));
            event_ts := ts entry;
            full_document := if negb (op entry =s? "delete") then payload entry else None |}
  else None.

(** Source: oplog.rs:668-717 (ChangeStream::enqueue_entry). The flag is false
    for [Err(EnqueueError)]. *)
Definition enqueue_entry (s : ChangeStream) (entry : OplogEntry) : ChangeStream * bool :=
  match event_of entry with
  | None => (s, true)
  | Some event =>
      if match filter s with Some f => negb (f event) | None => false end then (s, true)
      else if closed s then (s, false)
      else (set_queue s (queue s ++ [event]), true)
  end.

(** Source: oplog.rs:766-769 (ChangeStream::try_next). *)
Definition try_next (s : ChangeStream) : ChangeStream * option ChangeEvent :=
  match queue s with
  | [] => (s, None)
  | e :: q => (set_queue s q, Some e)
  end.

(** Source: oplog.rs:772-779 (ChangeStream::close). *)
Definition close (s : ChangeStream) : ChangeStream :=
  {| namespace := namespace s; filter := filter s; queue := queue s; closed := true |}.

(** Source: oplog.rs:781-783 (ChangeStream::is_closed). *)
Definition is_closed (s : ChangeStream) : bool := closed s.

(** Source: oplog.rs:785-787 (ChangeStream::queue_len). *)
Definition queue_len (s : ChangeStream) : nat := length (queue s).

(** ** Hubs

    The heap of streams, and of hubs with the addresses of their listeners. *)
Record world : Type := {
  w_store : store;
  w_streams : gmap nat ChangeStream;
  w_hubs : gmap nat (list nat);
  w_tick : nat }.

Definition with_store (w : world) (s : store) : world :=
  {| w_store := s; w_streams := w_streams w; w_hubs := w_hubs w; w_tick := w_tick w |}.
Definition with_streams (w : world) (m : gmap nat ChangeStream) : world :=
  {| w_store := w_store w; w_streams := m; w_hubs := w_hubs w; w_tick := w_tick w |}.
Definition with_listeners (w : world) (h : nat) (l : list nat) : world :=
  {| w_store := w_store w; w_streams := w_streams w; w_hubs := <[h := l]> (w_hubs w);
     w_tick := w_tick w |}.
Definition listeners (w : world) (h : nat) : list nat :=
  match w_hubs w !! h with Some l => l | None => [] end.

(** Source: oplog.rs:250-252 (OplogHub::register). *)
Definition register (w : world) (h l : nat) : world := with_listeners w h (listeners w h ++ [l]).

(** Source: oplog.rs:254-257 (OplogHub::unregister). Pointer equality is
    equality of addresses. *)
Definition unregister (w : world) (h target : nat) : world :=
  with_listeners w h (List.filter (fun l => negb (l =? target)%nat) (listeners w h)).

(** Source: oplog.rs:265-269 (OplogHub::notify). *)
Definition skips_ns (s : ChangeStream) (entry : OplogEntry) : bool :=
  match namespace s with
  | Some n => negb (n =s? "") && negb (n =s? ns entry)
  | None => false
  end.

(** Source: oplog.rs:264-273 (OplogHub::notify). The loop: the streams as they
    are updated and the indexes of the dead listeners. *)
Fixpoint notify_loop (m : gmap nat ChangeStream) (ls : list nat) (i : nat) (dead : list nat)
  (entry : OplogEntry) : gmap nat ChangeStream * list nat :=
  match ls with
  | [] => (m, dead)
  | l :: rest =>
      match m !! l with
      | None => notify_loop m rest (S i) dead entry
      | Some s =>
          if skips_ns s entry then notify_loop m rest (S i) dead entry
          else
            let '(s', alive) := enqueue_entry s entry in
            notify_loop (<[l := s']> m) rest (S i) (if alive then dead else dead ++ [i]) entry
      end
  end.

(** [Vec::remove(i)]. *)
Definition vec_remove {A} (l : list A) (i : nat) : list A := take i l ++ drop (S i) l.

(** Source: oplog.rs:260-278 (OplogHub::notify). *)
Definition notify (w : world) (h : nat) (entry : OplogEntry) : world :=
  let '(m, dead) := notify_loop (w_streams w) (listeners w h) 0 [] entry in
  with_listeners (with_streams w m) h (fold_left vec_remove (rev dead) (listeners w h)).

(** Source: oplog.rs:280-282 (OplogHub::listener_count). *)
Definition listener_count (w : world) (h : nat) : nat := length (listeners w h).

(** ** Writing *)

(** Source: oplog.rs:307-312 (CollectionOplogSettings). *)
Record CollectionOplogSettings : Type := {
  oplog_table : string;
  settings_namespace : string;
  hub : option nat;
  settings_node_id : option string }.

(** Source: oplog.rs:316-320 (AppendOplogOpts). *)
Record AppendOplogOpts : Type := {
  opts_version : option Z;
  opts_internal : bool;
  opts_changed_fields : option (list string) }.

(** [{:0w}] of a non-negative integer. *)
Definition zero_pad (w : nat) (z : Z) : string :=
  let s := Z_to_string z in
  (string_of_list_ascii (repeat "0"%char (w - String.length s)) ++ s)%string.

(** Source: oplog.rs:331-334 (append_oplog). [format!("{:020}-{}", time_ns, uuid)]. *)
Definition oplog_key (time : Z) (uuid : string) : string := (zero_pad 20 time ++ "-" ++ uuid)%string.

(** Source: oplog.rs:336-353 (append_oplog). *)
Definition new_entry (settings : CollectionOplogSettings) (op : string) (doc_id : bson)
  (payload : option document) (opts : AppendOplogOpts) (ts : f64) : OplogEntry :=
  {| ts := ts; ns := settings_namespace settings; op := op;
     doc_id := bson_to_json_value doc_id;
     payload := option_map (fun p => bson_to_json_value (BDocument p)) payload;
     entry_v := opts_version opts; checksum := None; internal := opts_internal opts;
     changed_fields := opts_changed_fields opts; node_id := settings_node_id settings |}.

(** Source: oplog.rs:323-370 (append_oplog). *)
Definition append_oplog (w : world) (settings : CollectionOplogSettings) (op : string)
  (doc_id : bson) (payload : option document) (opts : AppendOplogOpts)
  : world * result string OplogError :=
  let n := w_tick w in
  let w := {| w_store := w_store w; w_streams := w_streams w; w_hubs := w_hubs w; w_tick := S n |} in
  let key := oplog_key (time_ns n) (uuid_v4 n) in
  let entry := new_entry settings op doc_id payload opts (time_secs n) in
  match doc_to_vec (oplog_entry_to_document entry) with
  | Err e => (w, Err (OpSerialization e))
  | Ok buf =>
      let cursor := set_value_raw (set_key_str (open_cursor (oplog_table settings)) key) buf in
      let '(s, r) := Storage.insert (w_store w) cursor in
      match r with
      | Err e => (with_store w s, Err (OpStorage e))
      | Ok _ =>
          let w := with_store w s in
          (match hub settings with Some h => notify w h entry | None => w end, Ok key)
      end
  end.

(** Source: oplog.rs:402-406 (OplogWriter::ensure_table). *)
Definition ensure_table (s : store) (oplog_uri : string) : store := create_table s oplog_uri.

(** Source: oplog.rs:377-384 (OplogWriter). *)
Record OplogWriter : Type := {
  oplog_uri : string;
  writer_namespace : string;
  writer_hub : option nat;
  writer_node_id : option string }.

(** Source: oplog.rs:411-425 (OplogWriter::log). *)
Definition log (w : world) (self : OplogWriter) (op : string) (doc_id : bson)
  (payload : option document) (opts : AppendOplogOpts) : world * result string OplogError :=
  append_oplog w
    {| oplog_table := oplog_uri self; settings_namespace := writer_namespace self;
       hub := writer_hub self; settings_node_id := writer_node_id self |} op doc_id payload opts.

(** [for k in keys { cursor.set_key_str(k); let _ = cursor.remove(); }]: the
    store and the cursor after removing each key. *)
Definition remove_keys (s : store) (uri : string) (keys : list string) : store :=
  fst (fold_left (fun '(s, c) k => let c := set_key_str c k in (fst (Storage.remove s c), c)) keys
    (s, open_cursor uri)).

(** Source: oplog.rs:433-437 (OplogWriter::truncate_before). *)
Definition keys_before_body (key : string) (to_remove : list string) (c : MemCursor)
  : control (list string) (result (list string) OplogError) :=
  match get_key_str utf8_error c with
  | Err e => Leave to_remove (Err (OpStorage e))
  | Ok k => match str_cmp k key with
            | Lt => Continue (to_remove ++ [k]) c
            | _ => Leave to_remove (Ok to_remove)
            end
  end.

(** Source: oplog.rs:432-438 (OplogWriter::truncate_before). The keys below
    [key], oldest first. *)
Definition keys_before (s : store) (uri key : string) : result (list string) OplogError :=
  snd (while_next (fun _ => s) (keys_before_body key) Ok [] (open_cursor uri)).

(** Source: oplog.rs:428-449 (OplogWriter::truncate_before). *)
Definition truncate_before (s : store) (uri key : string) : store * result Z OplogError :=
  match keys_before s uri key with
  | Err e => (s, Err e)
  | Ok to_remove =>
      ((if (0 <? length to_remove)%nat then remove_keys s uri to_remove else s),
       Ok (Z.of_nat (length to_remove)))
  end.

(** Source: oplog.rs:455-457 (OplogWriter::truncate_count). *)
Definition all_keys (s : store) (uri : string) : result (list string) OplogError :=
  snd (while_next (fun _ => s)
    (fun keys c =>
       match get_key_str utf8_error c with
       | Err e => Leave keys (Err (OpStorage e))
       | Ok k => Continue (keys ++ [k]) c
       end) Ok [] (open_cursor uri)).

(** Source: oplog.rs:452-471 (OplogWriter::truncate_count). The slice panics when
    the excess is above the number of keys. *)
Definition truncate_count (s : store) (uri : string) (max_entries : Z)
  : result (store * result Z OplogError) error :=
  match all_keys s uri with
  | Err e => Ok (s, Err e)
  | Ok keys =>
      let excess := wrap_i64 (Z.of_nat (length keys) - max_entries) in
      if (excess <=? 0)%Z then Ok (s, Ok 0%Z)
      else if (Z.of_nat (length keys) <? excess)%Z then Err (Panic "range end index out of range")
      else Ok (remove_keys s uri (take (Z.to_nat excess) keys), Ok excess)
  end.

(** ** Reading *)

(** Source: oplog.rs:501-510 (OplogReader::read_all). *)
Definition read_all (s : store) (uri : string) : result (list OplogEntry) OplogError :=
  snd (while_next (fun _ => s)
    (fun results c =>
       match map_err OpStorage (get_value_raw c) with
       | Err e => Leave results (Err e)
       | Ok raw =>
           match decode_oplog_value_bytes raw with
           | Err e => Leave results (Err e)
           | Ok entry => Continue (results ++ [entry]) c
           end
       end) Ok [] (open_cursor uri)).

(** Source: oplog.rs:548-558 (OplogReader::read_from). One iteration of the loop
    on a positioned cursor. *)
Definition read_from_body (skip_internal : bool) (results : list (string * OplogEntry))
  (c : MemCursor)
  : control (list (string * OplogEntry)) (result (list (string * OplogEntry)) OplogError) :=
  match map_err OpStorage (get_key_str utf8_error c) with
  | Err e => Leave results (Err e)
  | Ok key =>
      match map_err OpStorage (get_value_raw c) with
      | Err e => Leave results (Err e)
      | Ok raw =>
          match decode_oplog_value_bytes raw with
          | Err e => Leave results (Err e)
          | Ok entry =>
              Continue (if negb (skip_internal && internal entry) then results ++ [(key, entry)]
                        else results) c
          end
      end
  end.

(** Source: oplog.rs:548-560 (OplogReader::read_from). The loop, entered with the
    cursor on a row. *)
Definition read_from_loop (s : store) (skip_internal : bool) (c : MemCursor)
  : result (list (string * OplogEntry)) OplogError :=
  match read_from_body skip_internal [] c with
  | Leave _ r => r
  | Continue results c' =>
      snd (while_next (fun _ => s) (read_from_body skip_internal) Ok results c')
  end.

(** Source: oplog.rs:516-561 (OplogReader::read_from). *)
Definition read_from (s : store) (uri : string) (checkpoint_key : option string)
  (skip_internal : bool) : result (list (string * OplogEntry)) OplogError :=
  let cursor := open_cursor uri in
  match checkpoint_key with
  | None =>
      match next s (reset cursor) with
      | (_, Err _) => Ok []
      | (c, Ok _) => read_from_loop s skip_internal c
      end
  | Some ck =>
      match search_near s (set_key_str cursor ck) with
      | (c, Ok x) =>
          if (x <=? 0)%Z then
            match next s c with
            | (_, Err _) => Ok []
            | (c, Ok _) => read_from_loop s skip_internal c
            end
          else read_from_loop s skip_internal c
      | (_, Err (NotFound _)) => Ok []
      | (_, Err e) => Err (OpStorage e)
      end
  end.

(** Source: oplog.rs:564-571 (OplogReader::latest_key). *)
Definition latest_key (s : store) (uri : string) : result (option string) OplogError :=
  snd (while_next (fun _ => s)
    (fun last_key c =>
       match get_key_str utf8_error c with
       | Err e => Leave last_key (Err (OpStorage e))
       | Ok k => Continue (Some k) c
       end) Ok None (open_cursor uri)).

(** Source: oplog.rs:574-581 (OplogReader::count). *)
Definition count (s : store) (uri : string) : result Z OplogError :=
  snd (while_next (fun _ => s) (fun n c => Continue (wrap_i64 (n + 1)) c) Ok 0%Z (open_cursor uri)).

(** Source: oplog.rs:584-591 (OplogReader::oldest_key). *)
Definition oldest_key (s : store) (uri : string) : result (option string) OplogError :=
  match next s (open_cursor uri) with
  | (c, Ok _) => let? k := map_err OpStorage (get_key_str utf8_error c) in Ok (Some k)
  | (_, Err _) => Ok None
  end.
End Oplog.

(** ** Reading from a checkpoint *)

Section Reading.
Context {B : BsonOps} {J : JsonOps} {N : OplogEnv}
  (utf8_error : bytes -> string) (entry_from_json : bytes -> option OplogEntry).

Abbreviation decode := (decode_oplog_value_bytes entry_from_json).
Abbreviation body := (read_from_body utf8_error entry_from_json).

(** A row that holds an entry under a textual key. *)
Definition stored (row : bytes * bytes) (ke : string * OplogEntry) : Prop :=
  fst row = as_bytes (fst ke) /\ utf8_valid (fst row) = true /\ decode (snd row) = Ok (snd ke).

(** Whether a key is after the checkpoint, and an entry is reported. *)
Definition after (ck : option string) (k : string) : bool :=
  match ck with Some c => cmp_eqb (str_cmp k c) Gt | None => true end.
Definition reported (skip_internal : bool) (ke : string * OplogEntry) : bool :=
  negb (skip_internal && internal (snd ke)).

Lemma from_utf8_stored k what :
  utf8_valid (as_bytes k) = true -> from_utf8 utf8_error (as_bytes k) what = Ok k.
Proof.
  intros H. unfold from_utf8. rewrite H. unfold as_bytes.
  by rewrite string_of_list_byte_of_string.
Qed.

Lemma body_stored skip results c e ke :
  stored e ke -> current_key c = Some (fst e) -> current_value c = Some (snd e) ->
  body skip results c = Continue (results ++ List.filter (reported skip) [ke]) c.
Proof.
  intros (Hk & Hu & Hd) Hck Hcv. unfold read_from_body, get_key_str, get_value_raw, get_key_raw.
  rewrite Hck, Hcv. cbn [ok_or map_err]. rewrite Hk in *. rewrite from_utf8_stored by done.
  cbn [map_err]. rewrite Hd. cbn [List.filter]. unfold reported at 1. destruct ke as [k en].
  cbn [fst snd]. destruct (negb (skip && internal en)); [done|]. by rewrite app_nil_r.
Qed.

Lemma body_stays skip : stays (body skip).
Proof.
  intros results c p e st' c' H. unfold read_from_body in H.
  repeat case_match; try discriminate; by injection H as <- <-.
Qed.

Lemma rows_loop_stored skip results c p rows lg :
  Forall2 stored rows lg ->
  snd (rows_loop (body skip) Ok results c p rows) = Ok (results ++ List.filter (reported skip) lg).
Proof.
  intros H. revert results c p. induction H as [|e ke rows lg He _ IH]; intros results c p; simpl.
  - by rewrite app_nil_r.
  - rewrite (body_stored skip results _ e ke He) by done. rewrite IH, <- app_assoc.
    f_equal. f_equal. cbn [List.filter app]. by destruct (reported skip ke).
Qed.

(** From a cursor whose next row is [p], the loop reports the rows from there. *)
Lemma loop_from s skip results c rows p lg :
  entries c = Some rows ->
  match position c with Some q => (q + 1)%nat | None => 0%nat end = p ->
  Forall2 stored (drop p rows) lg ->
  snd (while_next (fun _ => s) (body skip) Ok results c) =
  Ok (results ++ List.filter (reported skip) lg).
Proof.
  intros Hr Hp Hlg. unfold while_next, cursor_rows, materialize. rewrite Hr, Hr.
  rewrite (next_loop_rows _ _ _ _ _ _ rows p (body_stays skip) Hr Hp) by lia.
  by apply rows_loop_stored.
Qed.

(** [cursor.next()] and then the loop. *)
Lemma next_then_loop s skip c rows p lg :
  entries c = Some rows ->
  match position c with Some q => (q + 1)%nat | None => 0%nat end = p ->
  Forall2 stored (drop p rows) lg ->
  match next s c with
  | (_, Err _) => Ok []
  | (c, Ok _) => read_from_loop utf8_error entry_from_json s skip c
  end = Ok (List.filter (reported skip) lg).
Proof.
  intros Hr Hp Hlg. unfold next, materialize. rewrite Hr, Hr, Hp.
  destruct (rows !! p) as [e|] eqn:E.
  - rewrite (drop_S _ _ _ E) in Hlg. destruct lg as [|ke lg']; [by inversion Hlg|].
    apply Forall2_cons in Hlg as [He Hlg'].
    unfold read_from_loop. rewrite (body_stored skip [] _ e ke He) by done.
    rewrite (loop_from s skip _ _ rows (S p) lg'); [|done|simpl; lia|done].
    cbn [app]. cbn [List.filter]. by destruct (reported skip ke).
  - apply lookup_ge_None in E. rewrite drop_ge in Hlg by done. by inversion Hlg.
Qed.

Lemma filter_split {A} (f g : A -> bool) l p :
  (forall j x, (j < p)%nat -> l !! j = Some x -> f x = false) ->
  (forall j x, (p <= j)%nat -> l !! j = Some x -> f x = true) ->
  List.filter (fun x => f x && g x) l = List.filter g (drop p l).
Proof.
  revert p. induction l as [|x l IH]; intros p Hlo Hhi; [by rewrite drop_nil|]. simpl.
  destruct p as [|p].
  - rewrite (Hhi 0%nat x) by (done || lia). cbn [andb drop]. rewrite (IH 0%nat); [|lia|].
    + rewrite drop_0. done.
    + intros j y _ Hj. apply (Hhi (S j)); [lia|done].
  - rewrite (Hlo 0%nat x) by (done || lia). cbn [andb drop]. apply IH.
    + intros j y Hj Hy. apply (Hlo (S j)); [lia|done].
    + intros j y Hj Hy. apply (Hhi (S j)); [lia|done].
Qed.

(** The rows after the landing place of [search_near] are those after the key. *)
Lemma landing_split rows lg seek i e r :
  bt_ok rows -> Forall2 stored rows lg -> rows !! i = Some e ->
  landing rows (as_bytes seek) i (fst e) r ->
  let p := if (r <=? 0)%Z then S i else i in
  forall j ke, lg !! j = Some ke -> after (Some seek) (fst ke) = (p <=? j)%nat.
Proof.
  intros Hok Hst Hi Hland p j ke Hj.
  destruct (Forall2_lookup_r _ _ _ _ _ Hst Hj) as (x & Hx & Hk & _).
  unfold after, str_cmp. rewrite <- Hk. subst p.
  destruct Hland as [[-> He]|[(-> & Hlt & Hgt)|(-> & Hlast & Hlt)]]; cbn [Z.leb Z.compare].
  - rewrite <- He. destruct (Nat.leb_spec (S i) j) as [Hij|Hij].
    + rewrite bytes_cmp_sym. by rewrite (sorted_lookup_lt rows i j e x).
    + destruct (decide (i = j)) as [->|Hne].
      * rewrite Hi in Hx. injection Hx as ->. by rewrite (proj2 (bytes_cmp_eq _ _)).
      * by rewrite (sorted_lookup_lt rows j i x e) by (done || lia).
  - destruct (Nat.leb_spec i j) as [Hij|Hij]; [by rewrite (Hgt j x)|by rewrite (Hlt j x)].
  - rewrite (Hlt j x) by done. symmetry. apply Nat.leb_gt. apply lookup_lt_Some in Hx. lia.
Qed.

(** [read_from] a checkpoint reports exactly the entries whose
    key is strictly after it, in key order, whether the checkpoint is a key of
    the log, falls between two keys, precedes or follows all of them, and
    leaves out internal entries when asked; without a checkpoint it reports the
    whole log.  A log that does not exist reads as empty. *)
Theorem read_from_after s uri lg ck skip :
  store_ok s -> Forall2 stored (table_rows s uri) lg ->
  read_from utf8_error entry_from_json s uri ck skip =
  Ok (List.filter (fun ke => after ck (fst ke) && reported skip ke) lg).
Proof.
  intros Hs Hlg. unfold read_from. destruct ck as [ck|].
  - destruct (decide (table_rows s uri = [])) as [Hnil|Hne].
    + rewrite Hnil in Hlg. inversion Hlg; subst. unfold search_near, materialize. simpl.
      unfold table_rows in Hnil. by rewrite Hnil.
    + destruct (search_near_index s (open_cursor uri) (as_bytes ck) Hs Hne)
        as (i & e & r & Hi & Hland & Heq).
      unfold set_key_str. rewrite Heq. clear Heq. cbn [table_name open_cursor] in Hi, Hland, Hne.
      assert (Hok : bt_ok (table_rows s uri)) by (by apply table_or_empty_ok).
      pose proof (landing_split _ _ _ _ _ _ Hok Hlg Hi Hland) as Hsplit. cbv zeta in Hsplit.
      set (p := if (r <=? 0)%Z then S i else i) in *.
      rewrite (filter_split (fun ke => after (Some ck) (fst ke)) _ lg p).
      2: { intros j x Hj Hx. rewrite (Hsplit j x Hx). by apply Nat.leb_gt. }
      2: { intros j x Hj Hx. rewrite (Hsplit j x Hx). by apply Nat.leb_le. }
      assert (Hd : Forall2 stored (drop p (table_rows s uri)) (drop p lg)) by (by apply Forall2_drop).
      subst p. destruct (r <=? 0)%Z.
      * apply (next_then_loop s skip _ (table_rows s uri) (S i)); [done|simpl; lia|done].
      * rewrite (drop_S _ _ _ Hi) in Hd. destruct (drop i lg) as [|ke lg']; [by inversion Hd|].
        apply Forall2_cons in Hd as [He Hd'].
        unfold read_from_loop. rewrite (body_stored skip [] _ e ke He) by done.
        rewrite (loop_from s skip _ _ (table_rows s uri) (S i) lg'); [|done|simpl; lia|done].
        cbn [app List.filter]. by destruct (reported skip ke).
  - rewrite <- (drop_0 (table_rows s uri)) in Hlg. cbn [after andb].
    rewrite (List.filter_ext _ (reported skip)) by done.
    by apply (next_then_loop s skip (materialize s (open_cursor uri)) (table_rows s uri) 0).
Qed.
End Reading.

(** ** Truncation *)

Section Truncation.
Context (utf8_error : bytes -> string).

Definition below (key : string) (e : bytes * bytes) : bool :=
  cmp_eqb (bytes_cmp (fst e) (as_bytes key)) Lt.

(** The rows have textual keys. *)
Definition text_keys (rows : TableStore) : Prop := Forall (fun e => utf8_valid (fst e) = true) rows.

Definition key_text (e : bytes * bytes) : string := string_of_list_byte (fst e).

Lemma key_text_bytes e : as_bytes (key_text e) = fst e.
Proof. apply list_byte_of_string_of_list_byte. Qed.

Lemma get_key_moved c p e :
  utf8_valid (fst e) = true -> get_key_str utf8_error (moved c p e) = Ok (key_text e).
Proof. intros H. unfold get_key_str, from_utf8. simpl. by rewrite H. Qed.

(** A sorted table has its smaller keys first. *)
Lemma filter_below_nil key rows e :
  bt_ok (e :: rows) -> below key e = false -> List.filter (below key) (e :: rows) = [].
Proof.
  intros Hok He. inversion Hok as [|? ? _ Hf]; subst. simpl. rewrite He.
  induction rows as [|x rows IH]; [done|]. simpl.
  assert (Hx : below key x = false).
  { apply Forall_cons in Hf as [Hx _]. unfold below in *. unfold key_lt in Hx. simpl in Hx.
    destruct (bytes_cmp (fst x) (as_bytes key)) eqn:E; try done.
    by rewrite (bytes_cmp_trans_lt _ _ _ Hx E) in He. }
  rewrite Hx. apply IH; [|by apply Forall_cons in Hf as [_ Hf]].
  inversion Hok as [|? ? H1 H2]; subst. inversion H1; subst.
  constructor; [done|by apply Forall_cons in H2 as [_ H2]].
Qed.

Lemma keys_before_rows key rows acc c p :
  bt_ok rows -> text_keys rows ->
  snd (rows_loop (keys_before_body utf8_error key) Ok acc c p rows) =
  Ok (acc ++ map key_text (List.filter (below key) rows)).
Proof.
  revert acc c p. induction rows as [|e rows IH]; intros acc c p Hok Ht; simpl.
  - by rewrite app_nil_r.
  - apply Forall_cons in Ht as [Hu Ht]. unfold keys_before_body at 1.
    rewrite get_key_moved by done. unfold str_cmp. rewrite key_text_bytes.
    destruct (below key e) eqn:Eb.
    + assert (Ec : bytes_cmp (fst e) (as_bytes key) = Lt)
        by (unfold below in Eb; by destruct (bytes_cmp _ _)).
      rewrite Ec. inversion Hok; subst. rewrite IH by done. by rewrite <- app_assoc.
    + pose proof (filter_below_nil key rows e Hok Eb) as Hn. simpl in Hn. rewrite Eb in Hn.
      rewrite Hn, app_nil_r. unfold below in Eb. by destruct (bytes_cmp _ _).
Qed.

Lemma keys_before_spec s uri key :
  store_ok s -> text_keys (table_rows s uri) ->
  keys_before utf8_error s uri key =
  Ok (map key_text (List.filter (below key) (table_rows s uri))).
Proof.
  intros Hs Ht. unfold keys_before. rewrite while_next_rows.
  - apply keys_before_rows; [by apply table_or_empty_ok|done].
  - intros st c p e st' c' H. unfold keys_before_body in H.
    repeat case_match; try discriminate; by injection H as <- <-.
Qed.

Lemma remove_keys_get s uri keys n k :
  store_ok s ->
  tbl_get (remove_keys s uri keys) n k =
  if bool_decide (n = uri) && existsb (fun x => cmp_eqb (bytes_cmp k (as_bytes x)) Eq) keys
  then None else tbl_get s n k.
Proof.
  unfold remove_keys. assert (Ht : table_name (open_cursor uri) = uri) by done. revert Ht.
  generalize (open_cursor uri) as c. revert s.
  induction keys as [|x keys IH]; intros s c Ht Hs; [simpl; by rewrite andb_false_r|].
  cbn [fold_left]. rewrite IH; [|done|by apply store_remove_ok].
  destruct (remove_get s (set_key_str c x) (as_bytes x) n k Hs eq_refl) as [_ ->].
  cbn [table_name set_key_str set_key_raw existsb]. rewrite Ht.
  destruct (bool_decide (n = uri)) eqn:En; cbn [andb].
  - apply bool_decide_eq_true in En as ->.
    destruct (existsb _ keys); [by rewrite orb_true_r|]. rewrite orb_false_r.
    destruct (decide (uri = uri /\ k = as_bytes x)) as [[_ ->]|Hd].
    + by rewrite (proj2 (bytes_cmp_eq _ _)).
    + destruct (bytes_cmp k (as_bytes x)) eqn:E; try done. apply bytes_cmp_eq in E. naive_solver.
  - apply bool_decide_eq_false in En. rewrite decide_False by (intros [-> _]; done). done.
Qed.

(** [truncate_before] removes from the log exactly the entries
    whose key is strictly below the given one, touches no other table, and
    returns how many there were. *)
Theorem truncate_before_spec s uri key :
  store_ok s -> text_keys (table_rows s uri) ->
  exists s', truncate_before utf8_error s uri key =
    (s', Ok (Z.of_nat (length (List.filter (below key) (table_rows s uri))))) /\
    forall n k, tbl_get s' n k =
      if bool_decide (n = uri) && cmp_eqb (bytes_cmp k (as_bytes key)) Lt
      then None else tbl_get s n k.
Proof.
  intros Hs Ht. unfold truncate_before. rewrite keys_before_spec by done. rewrite length_map.
  set (old := List.filter (below key) (table_rows s uri)).
  exists (if (0 <? length old)%nat then remove_keys s uri (map key_text old) else s).
  split; [done|]. intros n k.
  assert (Hrm : (if (0 <? length old)%nat then remove_keys s uri (map key_text old) else s) =
    remove_keys s uri (map key_text old)) by (by destruct old). rewrite Hrm.
  rewrite remove_keys_get by done. destruct (bool_decide (n = uri)) eqn:En; [|done]. cbn [andb].
  apply bool_decide_eq_true in En as ->.
  destruct (existsb _ (map key_text old)) eqn:Ex.
  - apply existsb_exists in Ex as (x & Hx & E). apply in_map_iff in Hx as (e & <- & He).
    rewrite key_text_bytes in E. apply filter_In in He as [_ He].
    destruct (bytes_cmp k (fst e)) eqn:Ek; try done. apply bytes_cmp_eq in Ek as ->.
    unfold below in He. by rewrite He.
  - destruct (cmp_eqb (bytes_cmp k (as_bytes key)) Lt) eqn:Ek; [|done].
    destruct (tbl_get s uri k) as [v|] eqn:Eg; [|done]. exfalso.
    apply not_true_iff_false in Ex. apply Ex, existsb_exists. exists (key_text (k, v)).
    rewrite key_text_bytes. split; [|cbn [fst]; by rewrite (proj2 (bytes_cmp_eq _ _))].
    apply in_map, filter_In. split; [|done]. unfold table_rows. unfold tbl_get in Eg.
    destruct (bt_get s uri) as [t|] eqn:E; [|done]. simpl in Eg. apply bt_get_In in Eg; [done|].
    destruct Hs as [_ Hall]. by eapply Hall.
Qed.
End Truncation.

(** ** What is logged is what is read *)

Section RoundTrip.
Context {B : BsonOps} {L : BsonLaws B} {BO : BsonOrderLaws B} {BC : BsonCodecLaws B}
  {J : JsonOps} {JL : JsonLaws J} {N : OplogEnv} (entry_from_json : bytes -> option OplogEntry).

(** No document has a field named [$oid], which JSON reserves for object ids. *)
Fixpoint no_oid_key (b : bson) : bool :=
  match b with
  | BArray a => forallb no_oid_key a
  | BDocument d => forallb (fun kv => negb (fst kv =s? "$oid") && no_oid_key (snd kv)) d
  | _ => true
  end.

Lemma fold_map_insert (l m : list (string * json num)) :
  List.NoDup (map fst m ++ map fst l) ->
  fold_left (fun m '(k, v) => map_insert m k v) l m = m ++ l.
Proof.
  revert m. induction l as [|[k v] l IH]; intros m H; simpl; [by rewrite app_nil_r|].
  assert (Hk : ~ In k (map fst m)).
  { apply NoDup_remove_2 in H. intros Hin. apply H, in_or_app. by left. }
  rewrite map_insert_fresh by done. rewrite IH, <- app_assoc; [done|].
  rewrite map_app, <- app_assoc. done.
Qed.

Lemma fold_doc_insert (l d : document) :
  List.NoDup (map fst d ++ map fst l) ->
  fold_left (fun d '(k, v) => doc_insert d k v) l d = d ++ l.
Proof.
  revert d. induction l as [|[k v] l IH]; intros d H; simpl; [by rewrite app_nil_r|].
  assert (Hk : ~ In k (map fst d)).
  { apply NoDup_remove_2 in H. intros Hin. apply H, in_or_app. by left. }
  rewrite insert_fresh by done. rewrite IH, <- app_assoc; [done|].
  rewrite map_app, <- app_assoc. done.
Qed.

Lemma map_fst_snd {X Y Z} (f : Y -> Z) (l : list (X * Y)) :
  map fst (map (fun kv => (fst kv, f (snd kv))) l) = map fst l.
Proof. rewrite map_map. by apply map_ext. Qed.

Lemma doc_to_json d :
  List.NoDup (doc_keys d) ->
  bson_to_json_value (BDocument d) =
  JObject (map (fun kv => (fst kv, bson_to_json_value (snd kv))) d).
Proof.
  intros H. cbn [bson_to_json_value]. rewrite fold_map_insert; [done|].
  cbn [map app]. by rewrite map_fst_snd.
Qed.

Lemma object_to_bson m :
  List.NoDup (map fst m) -> ~ In "$oid" (map fst m) ->
  json_to_bson_value (JObject m) =
  BDocument (map (fun kv => (fst kv, json_to_bson_value (snd kv))) m).
Proof.
  intros H Ho. cbn [json_to_bson_value].
  rewrite fold_doc_insert by (cbn [map app]; by rewrite map_fst_snd). cbn [app].
  destruct (map_get m "$oid") as [v|] eqn:E; [|done].
  apply map_get_In in E. by apply (in_map fst) in E.
Qed.

Lemma json_stable b :
  bson_ok b = true -> no_oid_key b = true ->
  bson_to_json_value (json_to_bson_value (bson_to_json_value b)) = bson_to_json_value b.
Proof.
  assert (Hint : forall z, in_i64 z ->
    bson_to_json_value (number_to_bson (num_of_int z)) = JNumber (num_of_int z)).
  { intros z Hz. unfold number_to_bson. rewrite as_i64_of_int by done. by case_match. }
  induction b as [x| |a IH|d IH| | | | | |n|n| | |o| | | | | | |] using bson_ind;
    intros Hok Hno; try done.
  - cbn [bson_to_json_value]. destruct (f64_is_finite x) eqn:E.
    + destruct (of_f64_finite x E) as (n & Hn & H1 & H2). rewrite Hn. cbn [json_to_bson_value].
      unfold number_to_bson. rewrite H1, H2. cbn [bson_to_json_value]. by rewrite Hn.
    + by rewrite of_f64_other.
  - cbn [bson_to_json_value json_to_bson_value]. f_equal. rewrite !map_map. apply map_ext_in.
    intros v Hin. rewrite List.Forall_forall in IH. cbn [bson_ok no_oid_key] in Hok, Hno.
    rewrite forallb_forall in Hok, Hno. apply IH; [done|by apply Hok|by apply Hno].
  - apply (proj1 (doc_ok_spec d)) in Hok as [Hnd Hvals]. cbn [no_oid_key] in Hno.
    rewrite forallb_forall in Hno. rewrite doc_to_json by done.
    rewrite object_to_bson; rewrite ?map_fst_snd; [|done|].
    + rewrite doc_to_json by (unfold doc_keys; by rewrite !map_fst_snd). f_equal.
      rewrite !map_map. apply map_ext_in. intros [k v] Hin. cbn [fst snd]. f_equal.
      rewrite List.Forall_forall in IH. specialize (Hno _ Hin). apply andb_true_iff in Hno as [_ Hno].
      apply (IH (k, v) Hin); [by eapply Hvals|done].
    + intros Hin. apply in_map_iff in Hin as ([k v] & E & Hin). specialize (Hno _ Hin).
      cbn [fst] in *. subst. done.
  - cbn [bson_to_json_value json_to_bson_value]. apply Hint.
    unfold bson_ok, in_range in Hok. unfold in_i64. unfold i32_min, i32_max, i64_min, i64_max in *. lia.
  - cbn [bson_to_json_value json_to_bson_value]. apply Hint.
    unfold bson_ok, in_range in Hok. unfold in_i64. lia.
  - cbn [bson_to_json_value]. rewrite map_insert_fresh by (by intros []). cbn [app json_to_bson_value].
    rewrite map_get_single. cbn [and_then json_as_str]. rewrite oid_hex_parse.
    + cbn [bson_to_json_value]. by rewrite map_insert_fresh by (by intros []).
    + by apply Nat.eqb_eq.
Qed.

Lemma document_not_null d :
  bson_ok (BDocument d) = true -> no_oid_key (BDocument d) = true ->
  json_to_bson_value (bson_to_json_value (BDocument d)) <> BNull.
Proof.
  intros Hok Hno. apply (proj1 (doc_ok_spec d)) in Hok as [Hnd _]. rewrite doc_to_json by done.
  rewrite object_to_bson; rewrite ?map_fst_snd; [done..|]. intros Hin.
  apply in_map_iff in Hin as ([k v] & E & Hin). cbn [no_oid_key] in Hno.
  rewrite forallb_forall in Hno. specialize (Hno _ Hin). cbn [fst] in *. by subst.
Qed.

(** The JSON form in which a value is logged is stable: stored
    as BSON and read back, it is the JSON form it had, for every value without a
    field named [$oid]; integers, finite doubles, strings, object ids,
    documents (field order included) and arrays keep their content, and what
    JSON cannot express is fixed as text or null once. *)
Theorem logged_json_stable b :
  bson_ok b = true -> no_oid_key b = true ->
  bson_to_json_value (json_to_bson_value (bson_to_json_value b)) = bson_to_json_value b.
Proof. apply json_stable. Qed.

Lemma get_insert_opt {A} (d : document) k k' (o : option A) f :
  doc_get (insert_opt d k o f) k' =
  if k =s? k' then match o with Some a => Some (f a) | None => doc_get d k' end else doc_get d k'.
Proof.
  destruct o; simpl; [rewrite get_insert|]; by destruct (k =s? k').
Qed.

Lemma omap_strings l : omap as_str (map BString l) = l.
Proof. induction l as [|x l IH]; [done|]. simpl. unfold omap in IH. by rewrite IH. Qed.

(** An entry whose JSON parts are stable is read back from its document. *)
Lemma entry_from_to e :
  bson_to_json_value (json_to_bson_value (doc_id e)) = doc_id e ->
  (forall p, payload e = Some p -> json_to_bson_value p <> BNull /\
     bson_to_json_value (json_to_bson_value p) = p) ->
  oplog_entry_from_document (oplog_entry_to_document e) = Ok e.
Proof.
  intros Hid Hp. destruct e as [ts ns op id pl ev ck int cf nid]. cbn [doc_id payload] in Hid, Hp.
  unfold oplog_entry_from_document, oplog_entry_to_document, doc_get_as.
  cbn [Oplog.ts Oplog.ns Oplog.op doc_id payload entry_v checksum internal changed_fields node_id].
  repeat (rewrite ?get_insert, ?get_insert_opt; cbn [String.eqb Ascii.eqb Bool.eqb]).
  rewrite !get_nil. cbn [and_then bson_as_f64 ok_or map_err as_str option_map].
  rewrite Hid. do 2 f_equal.
  - destruct pl as [p|]; [|done]. destruct (Hp p eq_refl) as [Hn He].
    destruct (json_to_bson_value p) eqn:E; try done; by rewrite He.
  - by destruct ev.
  - by destruct ck.
  - destruct cf as [l|]; [|done]. simpl. f_equal. apply omap_strings.
  - by destruct nid.
Qed.

Lemma notify_store w h e : w_store (notify w h e) = w_store w.
Proof. unfold notify. by destruct (notify_loop _ _ _ _ _). Qed.

(** Appending to the oplog stores, under the returned key, bytes
    that decode to exactly the entry that was logged: operation, namespace,
    document id, payload, changed fields, flags and node. *)
Theorem append_then_decode w settings o id pl opts w' key :
  let e := new_entry settings o id pl opts (time_secs (w_tick w)) in
  append_oplog w settings o id pl opts = (w', Ok key) ->
  store_ok (w_store w) ->
  bson_ok id = true -> no_oid_key id = true ->
  match pl with Some p => bson_ok (BDocument p) = true /\ no_oid_key (BDocument p) = true | None => True end ->
  doc_ok (oplog_entry_to_document e) = true ->
  doubles_ok (BDocument (oplog_entry_to_document e)) = true ->
  (forall b, doc_to_vec (oplog_entry_to_document e) = Ok b -> entry_from_json b = None) ->
  exists buf, tbl_get (w_store w') (oplog_table settings) (as_bytes key) = Some buf /\
    decode_oplog_value_bytes entry_from_json buf = Ok e.
Proof.
  intros e Happ Hs Hid Hno Hpl Hdoc Hdbl Hjson. unfold append_oplog in Happ. fold e in Happ.
  destruct (doc_to_vec (oplog_entry_to_document e)) as [buf|] eqn:Ev; [|done].
  exists buf. split.
  - cbn [w_store] in Happ.
    set (c := set_value_raw _ _) in Happ.
    destruct (insert_get (w_store w) c (as_bytes (oplog_key (time_ns (w_tick w)) (uuid_v4 (w_tick w))))
      buf (oplog_table settings) (as_bytes (oplog_key (time_ns (w_tick w)) (uuid_v4 (w_tick w))))
      Hs eq_refl eq_refl) as [Hr Hg].
    destruct (Storage.insert (w_store w) c) as [s r]. cbn [fst snd] in Hr, Hg. subst r.
    injection Happ as <- <-. rewrite decide_True in Hg by done.
    destruct (hub settings); [by rewrite notify_store|done].
  - assert (Hfrom : oplog_entry_from_document (oplog_entry_to_document e) = Ok e).
    { apply entry_from_to; cbn [doc_id payload e new_entry].
      - by apply json_stable.
      - intros p Hp. destruct pl as [d|]; [|done]. injection Hp as <-. destruct Hpl as [H1 H2].
        split; [by apply document_not_null|by apply (json_stable (BDocument d))]. }
    unfold decode_oplog_value_bytes. rewrite (from_to_vec _ _ Hdoc Hdbl Ev). cbn [map_err].
    rewrite Hfrom. destruct buf as [|b0 buf]; [by apply to_vec_nonempty in Ev|].
    rewrite (Hjson _ eq_refl). by destruct (_ =? 123)%N.
Qed.
End RoundTrip.

(** ** Delivery of changes *)

Section Delivery.
Context {B : BsonOps} {J : JsonOps} (entry : OplogEntry).

(** The event a stream is to receive, if its namespace and its filter admit it. *)
Definition wants (s : ChangeStream) : option ChangeEvent :=
  if skips_ns s entry then None
  else match event_of entry with
       | Some ev => if match filter s with Some f => f ev | None => true end then Some ev else None
       | None => None
       end.

(** A stream after being offered the entry [n] times. *)
Definition receive (n : nat) (s : ChangeStream) : ChangeStream :=
  if closed s then s
  else set_queue s (queue s ++ match wants s with Some ev => repeat ev n | None => [] end).

(** A listener that is dropped: closed, and the event was for it. *)
Definition dropped (m : gmap nat ChangeStream) (l : nat) : bool :=
  match m !! l with Some s => closed s && is_some (wants s) | None => false end.

Fixpoint positions {A} (f : A -> bool) (l : list A) (i : nat) : list nat :=
  match l with
  | [] => []
  | x :: rest => if f x then i :: positions f rest (S i) else positions f rest (S i)
  end.

Lemma remove_positions {A} (f : A -> bool) pre (l : list A) :
  fold_left vec_remove (rev (positions f l (length pre))) (pre ++ l) =
  pre ++ List.filter (fun x => negb (f x)) l.
Proof.
  revert pre. induction l as [|x l IH]; intros pre; [done|]. cbn [positions List.filter].
  assert (Hs : S (length pre) = length (pre ++ [x])) by (rewrite length_app; simpl; lia).
  assert (Ha : forall l', pre ++ x :: l' = (pre ++ [x]) ++ l') by (intros; by rewrite <- app_assoc).
  destruct (f x); cbn [negb rev].
  - rewrite fold_left_app, Ha, Hs, IH. cbn [fold_left]. unfold vec_remove.
    rewrite <- app_assoc, take_app_length, (drop_app_ge _ _ (S (length pre))) by lia.
    replace (S (length pre) - length pre)%nat with 1%nat by lia. done.
  - rewrite (Ha l), (Ha (List.filter _ l)), Hs. apply IH.
Qed.

Lemma set_queue_same s : set_queue s (queue s ++ []) = s.
Proof. rewrite app_nil_r. by destruct s. Qed.

Lemma receive_0 s : receive 0 s = s.
Proof.
  unfold receive. destruct (closed s); [done|]. destruct (wants s); apply set_queue_same.
Qed.

Lemma receive_add n k s : receive n (receive k s) = receive (k + n) s.
Proof.
  unfold receive. destruct (closed s) eqn:Ec; [by rewrite Ec|].
  cbn [closed set_queue queue]. rewrite Ec. fold (wants s).
  change (wants (set_queue s _)) with (wants s).
  destruct (wants s) as [ev|]; unfold set_queue; simpl; rewrite <- app_assoc; [|done].
  by rewrite repeat_app.
Qed.

(** One listener of the loop. *)
Lemma offer s :
  match wants s with None => True | Some _ => skips_ns s entry = false end /\
  (skips_ns s entry = false ->
   enqueue_entry s entry = (receive 1 s, negb (closed s && is_some (wants s)))).
Proof.
  split; [unfold wants; by destruct (skips_ns s entry); [|case_match]|].
  intros H. unfold enqueue_entry, receive, wants. rewrite H.
  destruct (event_of entry) as [ev|].
  - destruct (filter s) as [f|]; [destruct (f ev)|]; cbn [negb];
      destruct (closed s); cbn [andb negb is_some]; rewrite ?set_queue_same; done.
  - destruct (closed s); cbn [andb negb is_some]; by rewrite ?set_queue_same.
Qed.

Lemma dropped_receive m l s n a :
  m !! l = Some s -> dropped (<[l := receive n s]> m) a = dropped m a.
Proof.
  intros Hl. unfold dropped. destruct (decide (a = l)) as [->|Hne].
  - rewrite lookup_insert, decide_True by done. rewrite Hl.
    unfold receive. destruct (closed s) eqn:E; [by rewrite E|]. cbn [closed set_queue]. by rewrite E.
  - by rewrite lookup_insert_ne.
Qed.

Lemma positions_ext {A} (f g : A -> bool) l i :
  (forall x, f x = g x) -> positions f l i = positions g l i.
Proof. intros H. revert i. induction l as [|x l IH]; intros i; [done|]. simpl. by rewrite H, IH. Qed.

Lemma notify_loop_spec ls : forall m i dead m' dead',
  notify_loop m ls i dead entry = (m', dead') ->
  (forall a, m' !! a = option_map (receive (count_occ Nat.eq_dec ls a)) (m !! a)) /\
  dead' = dead ++ positions (dropped m) ls i.
Proof.
  induction ls as [|l ls IH]; intros m i dead m' dead' H; cbn [notify_loop positions] in *.
  { injection H as <- <-. split; [|by rewrite app_nil_r]. intros a. cbn [count_occ].
    destruct (m !! a); [by cbn; rewrite receive_0|done]. }
  destruct (m !! l) as [s|] eqn:El.
  2: { destruct (IH _ _ _ _ _ H) as [H1 H2]. split.
       - intros a. rewrite H1. cbn [count_occ]. destruct (Nat.eq_dec l a) as [->|]; [by rewrite El|done].
       - rewrite H2. unfold dropped at 2. by rewrite El. }
  destruct (offer s) as [Hw Hoff].
  destruct (skips_ns s entry) eqn:Esk.
  - destruct (IH _ _ _ _ _ H) as [H1 H2].
    assert (Hn : wants s = None) by (by destruct (wants s)). split.
    + intros a. rewrite H1. cbn [count_occ]. destruct (Nat.eq_dec l a) as [->|]; [|done].
      rewrite El. cbn [option_map]. unfold receive. by rewrite Hn.
    + rewrite H2. unfold dropped at 2. by rewrite El, Hn, andb_false_r.
  - rewrite (Hoff eq_refl) in H. destruct (IH _ _ _ _ _ H) as [H1 H2]. split.
    + intros a. rewrite H1. cbn [count_occ]. destruct (Nat.eq_dec l a) as [->|Hne].
      * rewrite lookup_insert, decide_True by done. rewrite El. cbn [option_map]. f_equal.
        rewrite receive_add. done.
      * by rewrite lookup_insert_ne by done.
    + rewrite H2. rewrite (positions_ext _ (dropped m)) by (intros; by apply dropped_receive).
      unfold dropped at 2. rewrite El. destruct (closed s && is_some (wants s)); cbn [negb]; [|done].
      by rewrite <- app_assoc.
Qed.

(** Notifying a hub of an entry appends the event to the queue of
    every open listener whose namespace and filter admit it, once per
    registration and at the end of the queue, and changes no other stream; the
    listeners dropped are exactly the closed ones the event was meant for, and
    the order of the others is kept. *)
Theorem notify_delivers w h :
  let w' := notify w h entry in
  (forall a, w_streams w' !! a =
     option_map (receive (count_occ Nat.eq_dec (listeners w h) a)) (w_streams w !! a)) /\
  listeners w' h = List.filter (fun l => negb (dropped (w_streams w) l)) (listeners w h) /\
  (forall h', h' <> h -> listeners w' h' = listeners w h') /\ w_store w' = w_store w.
Proof.
  intros w'. subst w'. unfold notify.
  destruct (notify_loop (w_streams w) (listeners w h) 0 [] entry) as [m dead] eqn:E.
  destruct (notify_loop_spec _ _ _ _ _ _ E) as [H1 ->]. split; [done|]. split; [|split; [|done]].
  - unfold listeners at 1. cbn [w_hubs with_listeners with_streams].
    rewrite lookup_insert, decide_True by done.
    exact (remove_positions (dropped (w_streams w)) [] (listeners w h)).
  - intros h' Hne. unfold listeners. cbn [w_hubs with_listeners with_streams].
    by rewrite lookup_insert_ne by done.
Qed.
End Delivery.

(** ** Keys are chronological *)

Section Keys.
Open Scope Z_scope.

Fixpoint uint_digits (d : Decimal.uint) : list Z :=
  match d with
  | Decimal.Nil => []
  | Decimal.D0 l => 0 :: uint_digits l | Decimal.D1 l => 1 :: uint_digits l
  | Decimal.D2 l => 2 :: uint_digits l | Decimal.D3 l => 3 :: uint_digits l
  | Decimal.D4 l => 4 :: uint_digits l | Decimal.D5 l => 5 :: uint_digits l
  | Decimal.D6 l => 6 :: uint_digits l | Decimal.D7 l => 7 :: uint_digits l
  | Decimal.D8 l => 8 :: uint_digits l | Decimal.D9 l => 9 :: uint_digits l
  end.

Definition digit_char (z : Z) : ascii := ascii_of_N (48 + Z.to_N z).
Definition digits_string (l : list Z) : string := string_of_list_ascii (map digit_char l).
Definition dval (acc : Z) (l : list Z) : Z := fold_left (fun a x => 10 * a + x) l acc.
Definition digit (z : Z) : Prop := 0 <= z < 10.

Lemma uint_digits_ok d : Forall digit (uint_digits d).
Proof. induction d; simpl; constructor; unfold digit; (lia || done). Qed.

Lemma string_of_digits d : NilEmpty.string_of_uint d = digits_string (uint_digits d).
Proof. induction d as [|d IH|d IH|d IH|d IH|d IH|d IH|d IH|d IH|d IH|d IH]; simpl; by rewrite ?IH. Qed.

Lemma of_uint_acc_val d acc : Z.pos (Pos.of_uint_acc d acc) = dval (Z.pos acc) (uint_digits d).
Proof.
  revert acc. induction d as [|d IH|d IH|d IH|d IH|d IH|d IH|d IH|d IH|d IH|d IH]; intros acc;
    cbn [Pos.of_uint_acc uint_digits]; [done|..]; rewrite IH; unfold dval; cbn [fold_left];
    f_equal; lia.
Qed.

Lemma of_uint_val d : Z.of_uint d = dval 0 (uint_digits d).
Proof.
  unfold Z.of_uint. induction d as [|d IH|d IH|d IH|d IH|d IH|d IH|d IH|d IH|d IH|d IH];
    cbn [Pos.of_uint uint_digits Z.of_N]; [done|exact IH|..]; rewrite of_uint_acc_val; done.
Qed.

Lemma dval_acc l acc : dval acc l = acc * 10 ^ Z.of_nat (length l) + dval 0 l.
Proof.
  revert acc. induction l as [|x l IH]; intros acc; [simpl; lia|]. unfold dval in *. cbn [fold_left].
  rewrite IH, (IH (10 * 0 + x)). cbn [length]. rewrite Nat2Z.inj_succ, Z.pow_succ_r by lia. lia.
Qed.

Lemma dval_bound l : Forall digit l -> 0 <= dval 0 l < 10 ^ Z.of_nat (length l).
Proof.
  induction 1 as [|x l Hx _ IH]; [simpl; lia|].
  assert (E : dval 0 (x :: l) = dval x l) by done. rewrite E, dval_acc. unfold digit in Hx.
  cbn [length]. rewrite Nat2Z.inj_succ, Z.pow_succ_r by lia. nia.
Qed.

Lemma digit_char_cmp x y : digit x -> digit y ->
  byte_cmp (byte_of_ascii (digit_char x)) (byte_of_ascii (digit_char y)) = (x ?= y).
Proof.
  unfold digit. intros Hx Hy. unfold digit_char.
  assert (Hc : forall z, 0 <= z < 10 -> In z [0; 1; 2; 3; 4; 5; 6; 7; 8; 9]) by (intros; simpl; lia).
  apply Hc in Hx, Hy. simpl in Hx, Hy.
  repeat (destruct Hx as [<-|Hx]; [repeat (destruct Hy as [<-|Hy]; [vm_compute; reflexivity|]); done|]).
  done.
Qed.

Lemma digits_order l1 l2 s t :
  Forall digit l1 -> Forall digit l2 -> length l1 = length l2 ->
  str_cmp (digits_string l1 ++ s)%string (digits_string l2 ++ t)%string =
  cmp_then (dval 0 l1 ?= dval 0 l2) (str_cmp s t).
Proof.
  intros H1. revert l2. induction H1 as [|x l1 Hx H1 IH]; intros [|y l2] H2 Hlen; try done.
  apply Forall_cons in H2 as [Hy H2]. injection Hlen as Hlen.
  change (digits_string (x :: l1)) with (String (digit_char x) (digits_string l1)).
  change (digits_string (y :: l2)) with (String (digit_char y) (digits_string l2)).
  rewrite !str_app_cons.
  change (str_cmp (String ?a ?u) (String ?b ?v)) with
    (cmp_then (byte_cmp (byte_of_ascii a) (byte_of_ascii b)) (str_cmp u v)).
  rewrite digit_char_cmp by done. rewrite IH by done.
  change (dval 0 (x :: l1)) with (dval x l1). change (dval 0 (y :: l2)) with (dval y l2).
  rewrite (dval_acc l1 x), (dval_acc l2 y), Hlen.
  pose proof (dval_bound l1 H1) as B1. pose proof (dval_bound l2 H2) as B2. rewrite Hlen in B1.
  set (q := 10 ^ Z.of_nat (length l2)) in *.
  destruct (Z.compare_spec x y) as [->|Hlt|Hgt]; cbn [cmp_then].
  - destruct (Z.compare_spec (dval 0 l1) (dval 0 l2)),
      (Z.compare_spec (y * q + dval 0 l1) (y * q + dval 0 l2)); first [done|exfalso; lia].
  - assert ((x + 1) * q <= y * q) by (apply Z.mul_le_mono_nonneg_r; lia).
    by rewrite (proj2 (Z.compare_lt_iff _ _)) by lia.
  - assert ((y + 1) * q <= x * q) by (apply Z.mul_le_mono_nonneg_r; lia).
    by rewrite (proj2 (Z.compare_gt_iff _ _)) by lia.
Qed.

(** The decimal text of a non-negative integer below [10^20] has at most twenty
    digits. *)
Lemma decimal_digits z : 0 <= z < 10 ^ 20 ->
  exists l, Z_to_string z = digits_string l /\ Forall digit l /\ dval 0 l = z /\
    (length l <= 20)%nat.
Proof.
  intros Hz. set (d := N.to_uint (Z.to_N z)). exists (uint_digits d).
  assert (Hval : dval 0 (uint_digits d) = z).
  { rewrite <- of_uint_val. unfold Z.of_uint. change (Pos.of_uint d) with (N.of_uint d). subst d.
    rewrite DecimalN.Unsigned.of_to. apply Z2N.id; lia. }
  assert (Hnorm : Decimal.unorm d = d).
  { rewrite <- DecimalN.Unsigned.to_of. subst d. by rewrite DecimalN.Unsigned.of_to. }
  split; [|split; [apply uint_digits_ok|split; [done|]]].
  - unfold Z_to_string. rewrite <- string_of_digits. subst d. destruct z as [|p|p]; [done| |lia].
    cbn [Z.to_int Z.to_N N.to_uint]. unfold NilZero.string_of_int, NilZero.string_of_uint.
    destruct (Pos.to_uint p) eqn:E; try done. by apply DecimalPos.Unsigned.to_uint_nonnil in E.
  - assert (Hcase : d = Decimal.D0 Decimal.Nil \/
      exists x l, uint_digits d = x :: l /\ 1 <= x /\ Forall digit l).
    { destruct d as [|d0|d0|d0|d0|d0|d0|d0|d0|d0|d0] eqn:Ed;
        [done| |right; eexists _, (uint_digits d0); (split; [reflexivity|]); split; [lia|apply uint_digits_ok]..].
      left. unfold Decimal.unorm in Hnorm. destruct (Decimal.nzhead (Decimal.D0 d0)) eqn:En; try done.
      by apply DecimalFacts.nzhead_nonzero in En. }
    destruct Hcase as [->|(x & l & E & Hx & Hl)]; [simpl; lia|]. rewrite E in Hval |- *.
    change (dval 0 (x :: l)) with (dval x l) in Hval. rewrite dval_acc in Hval.
    pose proof (dval_bound l Hl). cbn [length].
    destruct (Nat.le_gt_cases (S (length l)) 20) as [|Hgt]; [done|]. exfalso.
    assert (Hq : 10 ^ 20 <= 10 ^ Z.of_nat (length l)) by (apply Z.pow_le_mono_r; lia).
    set (q := 10 ^ Z.of_nat (length l)) in *. set (m := 10 ^ 20) in *.
    assert (1 * q <= x * q) by (apply Z.mul_le_mono_nonneg_r; lia). lia.
Qed.

Lemma zero_pad_digits z : 0 <= z < 10 ^ 20 ->
  exists l, zero_pad 20 z = digits_string l /\ Forall digit l /\ dval 0 l = z /\ length l = 20%nat.
Proof.
  intros Hz. destruct (decimal_digits z Hz) as (l & Hs & Hd & Hv & Hl).
  exists (repeat 0 (20 - length l) ++ l). unfold zero_pad. rewrite Hs.
  assert (Hlen : forall l, String.length (digits_string l) = length l).
  { clear. induction l as [|x l IH]; [done|]. unfold digits_string in *. simpl. by rewrite IH. }
  assert (Happ : forall l1 l2, digits_string (l1 ++ l2) = (digits_string l1 ++ digits_string l2)%string).
  { clear. intros l1 l2. induction l1 as [|x l1 IH]; [done|]. unfold digits_string in *. simpl.
    by rewrite IH, str_app_cons. }
  assert (Hrep : forall n, digits_string (repeat 0 n) = string_of_list_ascii (repeat "0"%char n)).
  { clear. induction n as [|n IH]; [done|]. unfold digits_string in *. simpl. by rewrite IH. }
  rewrite Hlen, Happ, Hrep. split; [done|]. split; [|split].
  - apply Forall_app. split; [|done]. apply List.Forall_forall. intros x Hx.
    apply repeat_spec in Hx as ->. unfold digit. lia.
  - unfold dval. rewrite fold_left_app.
    assert (Hz0 : fold_left (fun a x => 10 * a + x) (repeat 0 (20 - length l)) 0 = 0)
      by (induction (20 - length l)%nat; [done|simpl; done]).
    by rewrite Hz0.
  - rewrite length_app, repeat_length. lia.
Qed.

(** Oplog keys sort by time: of two entries logged at different
    nanoseconds (before the year 5138), the earlier has the smaller key,
    whatever their unique suffixes; entries of the same instant are ordered by
    suffix. *)
Theorem oplog_key_order t1 t2 u1 u2 :
  0 <= t1 < 10 ^ 20 -> 0 <= t2 < 10 ^ 20 ->
  str_cmp (oplog_key t1 u1) (oplog_key t2 u2) = cmp_then (t1 ?= t2) (str_cmp u1 u2).
Proof.
  intros H1 H2. unfold oplog_key.
  destruct (zero_pad_digits t1 H1) as (l1 & -> & D1 & V1 & L1).
  destruct (zero_pad_digits t2 H2) as (l2 & -> & D2 & V2 & L2).
  rewrite digits_order by (done || congruence). rewrite V1, V2. done.
Qed.
End Keys.

(** ** A reference instance, and witnesses *)

Module RefJson.
(** A number is an integer or a double; an object is an association list. *)
Fixpoint get {A} (m : list (string * A)) (k : string) : option A :=
  match m with
  | [] => None
  | (k', v) :: m' => if k' =s? k then Some v else get m' k
  end.

Fixpoint put {A} (m : list (string * A)) (k : string) (v : A) : list (string * A) :=
  match m with
  | [] => [(k, v)]
  | (k', v') :: m' => if k' =s? k then (k', v) :: m' else (k', v') :: put m' k v
  end.

#[export] Instance ops : JsonOps := {|
  num := Z + f64;
  num_of_int := inl;
  num_of_f64 x := if f64_is_finite x then Some (inr x) else None;
  num_as_i64 n := match n with inl z => Some z | inr _ => None end;
  num_as_f64 n := match n with inl z => Some (f64_of_Z z) | inr x => Some x end;
  map_get := get;
  map_insert := put |}.

#[export] Instance laws : JsonLaws ops.
Proof.
  split; simpl.
  - done.
  - intros x H. rewrite H. eauto.
  - intros x H. by rewrite H.
  - intros m k v. induction m as [|[k' v'] m IH]; simpl; [done|].
    destruct (String.eqb_spec k' k) as [->|]; [injection 1 as ->; by left|by right; apply IH].
  - intros m k v. induction m as [|[k' v'] m IH]; simpl; [done|]. intros H.
    destruct (String.eqb_spec k' k) as [->|]; [exfalso; apply H; by left|].
    rewrite IH; [done|]. intros Hin. apply H. by right.
  - intros k v. by rewrite String.eqb_refl.
Qed.

(** A clock that ticks once a second. *)
#[export] Instance env : OplogEnv := {|
  time_ns n := (1000000000 * Z.of_nat n)%Z;
  time_secs n := f64_of_Z (Z.of_nat n);
  uuid_v4 n := ("u" ++ Z_to_string (Z.of_nat n))%string |}.
End RefJson.

Section Witnesses.
Import RefBson.RefBson RefJson.

Definition no_error (b : bytes) : string := "".
Definition no_json (b : bytes) : option OplogEntry := None.
Definition example_settings : CollectionOplogSettings :=
  {| oplog_table := "oplog"; settings_namespace := "db.people"; hub := Some 0%nat;
     settings_node_id := None |}.
Definition plain_opts : AppendOplogOpts :=
  {| opts_version := None; opts_internal := false; opts_changed_fields := None |}.
Definition empty_world : world :=
  {| w_store := []; w_streams := {[ 0%nat := stream_new None None ]};
     w_hubs := {[ 0%nat := [0%nat] ]}; w_tick := 0 |}.
Definition ann : document := [("_id", BInt32 1); ("name", BString "Ann")].

(** One insertion logged. *)
Definition logged : world * result string OplogError :=
  append_oplog empty_world example_settings "insert" (BInt32 1) (Some ann) plain_opts.

Definition ann_entry : OplogEntry :=
  new_entry example_settings "insert" (BInt32 1) (Some ann) plain_opts (time_secs 0).

Lemma append_then_decode_witness :
  exists buf, tbl_get (w_store (fst logged)) "oplog" (as_bytes "00000000000000000000-u0") = Some buf /\
    decode_oplog_value_bytes no_json buf = Ok ann_entry.
Proof.
  apply (append_then_decode no_json empty_world example_settings "insert" (BInt32 1) (Some ann)
    plain_opts (fst logged) "00000000000000000000-u0").
  - apply injective_projections; [reflexivity|]. vm_compute. reflexivity.
  - split; [apply bt_nil_ok|done].
  - reflexivity.
  - reflexivity.
  - split; reflexivity.
  - vm_compute. reflexivity.
  - vm_compute. reflexivity.
  - reflexivity.
Defined.

Lemma logged_json_stable_witness :
  bson_to_json_value (json_to_bson_value (bson_to_json_value
    (BDocument [("n", BInt64 7); ("at", BDateTime 5)]))) =
  bson_to_json_value (BDocument [("n", BInt64 7); ("at", BDateTime 5)]).
Proof. apply logged_json_stable; reflexivity. Defined.

(** A log of three entries, the second internal. *)
Definition entry_at (int : bool) : OplogEntry :=
  new_entry example_settings "insert" (BInt32 1) None
    {| opts_version := None; opts_internal := int; opts_changed_fields := None |} (time_secs 0).
Definition entry_bytes (int : bool) : bytes :=
  match doc_to_vec (oplog_entry_to_document (entry_at int)) with Ok b => b | Err _ => [] end.
Definition log_store : store :=
  [("oplog", [(as_bytes "1", entry_bytes false); (as_bytes "2", entry_bytes true);
              (as_bytes "3", entry_bytes false)])].

Lemma log_store_ok : store_ok log_store.
Proof.
  split; [repeat constructor|]. intros n t H. cbn in H.
  destruct (str_cmp n "oplog"); try discriminate. injection H as <-. repeat constructor.
Qed.

Lemma read_from_after_witness :
  read_from no_error no_json log_store "oplog" (Some "1") true = Ok [("3", entry_at false)].
Proof.
  apply (read_from_after no_error no_json log_store "oplog"
    [("1", entry_at false); ("2", entry_at true); ("3", entry_at false)] (Some "1") true
    log_store_ok).
  repeat constructor; vm_compute; reflexivity.
Defined.

Lemma truncate_before_spec_witness :
  exists s', truncate_before no_error log_store "oplog" "3" = (s', Ok 2%Z) /\
    forall n k, tbl_get s' n k =
      if bool_decide (n = "oplog") && cmp_eqb (bytes_cmp k (as_bytes "3")) Lt
      then None else tbl_get log_store n k.
Proof.
  apply (truncate_before_spec no_error log_store "oplog" "3" log_store_ok).
  repeat constructor.
Defined.

Lemma oplog_key_order_witness :
  str_cmp (oplog_key 999 "z") (oplog_key 1000 "a") = Lt.
Proof. apply (oplog_key_order 999 1000 "z" "a"); lia. Defined.

(** ** Behaviours worth recording *)

(** A negative limit makes [truncate_count] slice past the end of the keys. *)
Theorem truncate_count_negative_panics :
  truncate_count no_error log_store "oplog" (-1) = Err (Panic "range end index out of range").
Proof. vm_compute. reflexivity. Qed.

(** A document with a field [$oid] that reads as an object id loses its other
    fields in the oplog. *)
Theorem oid_field_swallows_document :
  json_to_bson_value (bson_to_json_value
    (BDocument [("$oid", BString "000000000000000000000000"); ("name", BString "Ann")])) =
  BObjectId (repeat x00 12).
Proof. vm_compute. reflexivity. Qed.

(** Dates are logged as the text of their debug form, not as dates. *)
Theorem dates_become_text d :
  json_to_bson_value (bson_to_json_value (BDateTime d)) = BString (bson_debug (BDateTime d)).
Proof. reflexivity. Qed.
End Witnesses.
