(* ===== verification/Collection.v ===== *)
(** * Collections

    [src/rust/smongo-engine/src/collection/{mod,crud,indexes,exec}.rs] over
    the in-memory backend: insertion, update, deletion, the maintenance of
    secondary indexes, and the scans that answer queries.  The state is the
    shared store with its oplog hubs ([world]), the collection's cache of index
    specifications and the supply of object ids.  An operation is a function
    from states to states and a result; a failed operation keeps the writes it
    made, since the transactions of this backend do nothing. *)

From Stdlib Require Import ZArith Lia Ascii String Strings.Byte.
From S2P Require Import Prelude F64 Bson RefBson Paths Geo Query Update BTree Storage IndexKey.
From S2P Require Import Planner Schema Collation Oplog.
From stdpp Require Import base tactics list strings gmap.

Open Scope string_scope.
Open Scope list_scope.

(** ** Errors *)

(** Source: collection/mod.rs:93-104 (CollectionError). *)
Inductive CollectionError : Type :=
| CStorageError (e : StorageError)
| SerializationError (msg : string)
| DeserializationError (msg : string)
| QueryError (msg : string)
| UpdateError (msg : string)
| MissingIdError
| UniqueConstraintViolation (msg : string)
| InvalidIndexSpec (msg : string)
| IndexAlreadyExists (msg : string)
| COther (msg : string).

(** Source: collection/mod.rs:125-142 (fmt). *)
Definition collection_error_display (e : CollectionError) : string :=
  match e with
  | CStorageError e => ("Storage error: " ++ storage_error_display e)%string
  | SerializationError e => ("Serialization error: " ++ e)%string
  | DeserializationError e => ("Deserialization error: " ++ e)%string
  | QueryError e => ("Query error: " ++ e)%string
  | UpdateError e => ("Update error: " ++ e)%string
  | MissingIdError => "Document missing _id field"
  | UniqueConstraintViolation e => ("Unique constraint violation: " ++ e)%string
  | InvalidIndexSpec e => ("Invalid index specification: " ++ e)%string
  | IndexAlreadyExists e => ("Index already exists with different keys: " ++ e)%string
  | COther e => e
  end.

(** An operation fails with an error value, or unwinds. *)
Inductive failure : Type :=
| Fail (e : CollectionError)
| Unwind (msg : string).

(** [.map_err(CollectionError::QueryError)?] and the like: a panic goes through. *)
Definition raise (wrap : string -> CollectionError) (e : error) : failure :=
  match e with Msg m => Fail (wrap m) | Panic m => Unwind m end.

(** ** The state and the monad *)

(** Source: collection/mod.rs:329-339 (Collection). The parts that do not change;
    the session and the index cache are in the state. *)
Record Collection `{J : JsonOps} : Type := {
  coll_table : string;
  collection_name : string;
  validator : option document;
  oplog : option CollectionOplogSettings }.

Record cstate `{J : JsonOps} : Type := {
  cs_world : world;
  index_cache : option (list IndexSpec);
  oid_tick : nat }.

Section Monad.
Context {J : JsonOps}.

Definition M (A : Type) : Type := cstate -> cstate * result A failure.

Definition ret {A} (a : A) : M A := fun st => (st, Ok a).
Definition throw {A} (e : failure) : M A := fun st => (st, Err e).
Definition bind {A A'} (m : M A) (k : A -> M A') : M A' :=
  fun st => match m st with (st', Ok a) => k a st' | (st', Err e) => (st', Err e) end.
Definition lift {A} (r : result A failure) : M A := fun st => (st, r).

Definition cs_store (st : cstate) : store := w_store (cs_world st).
Definition put_store (st : cstate) (s : store) : cstate :=
  {| cs_world := with_store (cs_world st) s; index_cache := index_cache st; oid_tick := oid_tick st |}.
Definition put_cache (st : cstate) (c : option (list IndexSpec)) : cstate :=
  {| cs_world := cs_world st; index_cache := c; oid_tick := oid_tick st |}.

(** [x?] of a storage result that reads, and that writes, the store. *)
Definition reading {A} (f : store -> result A StorageError) : M A :=
  fun st => (st, map_err (fun e => Fail (CStorageError e)) (f (cs_store st))).
Definition writing (f : store -> store * result unit StorageError) : M unit :=
  fun st => let '(s, r) := f (cs_store st) in
    (put_store st s, map_err (fun e => Fail (CStorageError e)) r).

(** A loop over the rows of a cursor whose body may fail, go on with the cursor
    as it left it, or stop. *)
Inductive next_move (Acc : Type) : Type :=
| GoOn (acc : Acc) (c : MemCursor)
| Stop (acc : Acc).
Arguments GoOn {Acc} acc c.
Arguments Stop {Acc} acc.

Definition loop_body {Acc} (body : Acc -> MemCursor -> M (next_move Acc))
  (st : cstate * Acc) (c : MemCursor) : control (cstate * Acc) (result Acc failure) :=
  let '(s, acc) := st in
  match body acc c s with
  | (s', Ok (GoOn acc' c')) => Continue (s', acc') c'
  | (s', Ok (Stop acc')) => Leave (s', acc') (Ok acc')
  | (s', Err e) => Leave (s', acc) (Err e)
  end.

Definition for_rows {Acc} (acc : Acc) (c : MemCursor) (body : Acc -> MemCursor -> M (next_move Acc))
  : M Acc :=
  fun st =>
    let '((st', _), r) :=
      while_next (fun st => cs_store (fst st)) (loop_body body) (fun st => Ok (snd st)) (st, acc) c in
    (st', r).

(** [for x in l { body }]. *)
Fixpoint for_each {A} (l : list A) (body : A -> M unit) : M unit :=
  match l with
  | [] => ret tt
  | x :: l' => bind (body x) (fun _ => for_each l' body)
  end.
End Monad.
Arguments GoOn {Acc} acc c.
Arguments Stop {Acc} acc.

Notation "'let!' x ':=' m 'in' k" := (bind m (fun x => k))
  (at level 10, x pattern, m at level 200, k at level 200,
   format "'let!'  x  ':='  m  'in' '//' k") : smongo_scope.

(** What the collection uses of [serde] (index specifications as bytes and as a
    document), of [ObjectId::new], of [str::trim], of the debug form of a string,
    of the search for words ([\w+]) in a text, and of UTF-8 errors. *)
Class CollEnv : Type := {
  spec_to_vec : IndexSpec -> result bytes string;
  spec_from_slice : bytes -> result IndexSpec string;
  spec_to_document : IndexSpec -> option document;
  new_oid : nat -> bytes;
  str_trim : string -> string;
  str_debug : string -> string;
  find_words : string -> list string;
  utf8_err : bytes -> string }.

Section Collection.
Context {B : BsonOps} {Lm : Libm} {G : S2} {T : TextEnv} {X : ExprEngine} {K : Clock}
  {J : JsonOps} {N : OplogEnv} {FP : F64Parse} {E : CollEnv}.

(** ** Helpers *)

(** Source: collection/mod.rs:205-219 (extract_equality_fields). *)
Definition extract_equality_fields (filter : document) : document :=
  fold_left (fun doc '(key, value) =>
    if starts_with "$" key then doc
    else match value with
         | BDocument inner =>
             if existsb (starts_with "$") (doc_keys inner) then doc else doc_insert doc key value
         | _ => doc_insert doc key value
         end) filter [].

(** [Bson::ObjectId(ObjectId::new())]. *)
Definition fresh_oid : M bson :=
  fun st => ({| cs_world := cs_world st; index_cache := index_cache st; oid_tick := S (oid_tick st) |},
             Ok (BObjectId (new_oid (oid_tick st)))).

(** Source: collection/mod.rs:221-229 (ensure_id). The document and its id. *)
Definition ensure_id (doc : document) : M (document * bson) :=
  match doc_get doc "_id" with
  | Some id => ret (doc, id)
  | None => let! id := fresh_oid in ret (doc_insert doc "_id" id, id)
  end.

(** Source: collection/mod.rs:231-240 (extract_id_string). *)
Definition extract_id_string (doc : document) : result string failure :=
  match doc_get doc "_id" with
  | Some (BObjectId oid) => Ok (oid_to_hex oid)
  | Some (BString s) => Ok s
  | Some (BInt32 i) | Some (BInt64 i) => Ok (Z_to_string i)
  | Some other => Ok (bson_display other)
  | None => Err (Fail MissingIdError)
  end.

(** Source: collection/mod.rs:242-246 (serialize_document). *)
Definition serialize_document (doc : document) : result bytes failure :=
  map_err (fun e => Fail (SerializationError e)) (doc_to_vec doc).

(** Source: collection/mod.rs:248-252 (deserialize_document). *)
Definition deserialize_document (b : bytes) : result document failure :=
  map_err (fun e => Fail (DeserializationError e)) (doc_from_reader b).

(** The leading index fields the seek has values for. *)
Fixpoint seek_fields (index_keys seek_values trimmed : document) : document :=
  match index_keys with
  | [] => trimmed
  | (field, dir) :: rest =>
      if doc_contains seek_values field
      then seek_fields rest seek_values (doc_insert trimmed field dir)
      else trimmed
  end.

(** Source: collection/mod.rs:254-264 (build_seek_prefix). *)
Definition build_seek_prefix (index_keys seek_values : document) : bytes :=
  extract_index_key seek_values (seek_fields index_keys seek_values []).

(** Source: collection/mod.rs:293-317 (apply_projection_to_index_doc). *)
Definition apply_projection_to_index_doc (index_doc projection : document) : document :=
  fold_left (fun result '(field, value) =>
    if field =s? "_id" then result
    else
      let is_included :=
        match value with
        | BInt32 n | BInt64 n => negb (n =? 0)%Z
        | BDouble d => negb (f64_eqb d f64_zero)
        | BBoolean b => b
        | _ => true
        end in
      if is_included then
        match doc_get index_doc field with
        | Some v => doc_insert result field v
        | None => result
        end
      else result) projection [].

(** Source: collection/mod.rs:319-324 (should_include_id). *)
Definition should_include_id (projection : document) : bool :=
  match doc_get projection "_id" with
  | Some (BInt32 0) | Some (BInt64 0) | Some (BBoolean false) => false
  | _ => true
  end.

(** ** Opening a collection *)

(** Source: collection/mod.rs:350-361 (with_table_uri). *)
Definition with_table_uri (name table_uri : string) : M Collection :=
  let! _ := writing (fun s => (create_table s table_uri, Ok tt)) in
  let! _ := (fun st => (put_cache st None, Ok tt)) in
  ret {| coll_table := table_uri; collection_name := name; validator := None; oplog := None |}.

(** Source: collection/mod.rs:343-345 (new). *)
Definition new (name : string) : M Collection := with_table_uri name name.

(** Source: collection/mod.rs:364-370 (with_oplog_settings). *)
Definition with_oplog_settings (self : Collection) (cfg : CollectionOplogSettings) : M Collection :=
  let! _ := writing (fun s => (create_table s (oplog_table cfg), Ok tt)) in
  ret {| coll_table := coll_table self; collection_name := collection_name self;
         validator := validator self; oplog := Some cfg |}.

(** Source: collection/mod.rs:449-451 (set_validator). *)
Definition set_validator (self : Collection) (schema : option document) : Collection :=
  {| coll_table := coll_table self; collection_name := collection_name self;
     validator := schema; oplog := oplog self |}.

Section Coll.
Context (self : Collection).

(** [format!("{}.idx_{}", self.collection_name, index_name)] and the like. *)
Definition aux_table (kind index_name : string) : string :=
  (collection_name self ++ kind ++ index_name)%string.
Definition index_table (index_name : string) : string := aux_table ".idx_" index_name.
Definition metadata_table : string := (collection_name self ++ ".indexes_metadata")%string.

Definition eval_filter (doc filter : document) : result bool failure :=
  map_err (raise QueryError) (eval_query doc filter).

(** Source: collection/mod.rs:376-402 (with_batched_write). *)
Definition with_batched_write {A} (f : M A) : M A :=
  fun st =>
    if Storage.in_transaction (cs_store st) then f st
    else
      match writing Storage.begin_transaction st with
      | (st, Err e) => (st, Err e)
      | (st, Ok _) =>
          match f st with
          | (st, Err (Unwind m)) => (st, Err (Unwind m))
          | (st, r) =>
              let st := put_cache st None in
              match r with
              | Ok _ =>
                  match writing Storage.commit_transaction st with
                  | (st, Err e) => (st, Err e)
                  | (st, Ok _) => (st, r)
                  end
              | Err _ => (fst (writing Storage.rollback_transaction st), r)
              end
          end
      end.

(** Source: collection/mod.rs:404-431 (append_oplog_if_enabled). With
    [map_oplog_err] (lines 372-374). *)
Definition append_oplog_if_enabled (op : string) (doc_id : bson) (payload : option document)
  (internal : bool) (changed_fields : option (list string)) : M unit :=
  if internal then ret tt
  else
    match oplog self with
    | None => ret tt
    | Some cfg => fun st =>
        let '(w, r) := append_oplog (cs_world st) cfg op doc_id payload
          {| opts_version := None; opts_internal := false; opts_changed_fields := changed_fields |} in
        ({| cs_world := w; index_cache := index_cache st; oid_tick := oid_tick st |},
         match r with
         | Ok _ => Ok tt
         | Err e => Err (Fail (COther (oplog_error_display e)))
         end)
    end.

(** [before.get(k) != after.get(k)]. *)
Definition opt_bson_eqb (a b : option bson) : bool :=
  match a, b with Some x, Some y => bson_eqb x y | None, None => true | _, _ => false end.

Fixpoint dedup (l : list string) : list string :=
  match l with
  | [] => []
  | x :: l' => if existsb (String.eqb x) l' then dedup l' else x :: dedup l'
  end.

(** Source: collection/mod.rs:433-446 (doc_top_level_changed). The set is
    sorted at the end, so its order of iteration does not matter. *)
Definition doc_top_level_changed (before after : document) : list string :=
  sort_by str_cmp
    (List.filter (fun k => negb (opt_bson_eqb (doc_get before k) (doc_get after k)))
      (dedup (List.filter (fun k => negb (k =s? "_id")) (doc_keys before ++ doc_keys after)))).

(** Source: collection/mod.rs:458-465 (validate_doc). *)
Definition validate_doc (doc : document) : result unit failure :=
  match validator self with
  | Some schema =>
      map_err (fun e => Fail (COther ("Validation failed: " ++ validation_error_display e)%string))
        (validate_document doc schema)
  | None => Ok tt
  end.

(** Source: collection/mod.rs:468-470 (cursor). *)
Definition cursor : MemCursor := open_cursor (coll_table self).

(** The document a positioned cursor is on. *)
Definition current_doc (c : MemCursor) : result document failure :=
  let? doc_bytes := map_err (fun e => Fail (CStorageError e)) (get_value_raw c) in
  deserialize_document doc_bytes.

(** Source: collection/mod.rs:472-480 (fetch_doc_by_id_str). *)
Definition fetch_doc_by_id_str (s : store) (id : string) : result (option document) failure :=
  match Storage.search s (set_key_str cursor id) with
  | (_, Err _) => Ok None
  | (c, Ok _) => let? doc := current_doc c in Ok (Some doc)
  end.

(** ** Index specifications *)

(** Source: collection/indexes.rs:216-251 (list_indexes). *)
Definition list_indexes : M (list IndexSpec) :=
  fun st =>
    match index_cache st with
    | Some cached => (st, Ok cached)
    | None =>
        (let! indexes := for_rows [] (open_cursor metadata_table) (fun indexes c =>
           let! spec_bytes := reading (fun _ => get_value_raw c) in
           let! index_spec := lift (map_err (fun e =>
             Fail (COther ("Failed to deserialize index spec: " ++ e)%string))
             (spec_from_slice spec_bytes)) in
           ret (GoOn (indexes ++ [index_spec]) c)) in
         fun st => (put_cache st (Some indexes), Ok indexes)) st
    end.

(** Source: collection/indexes.rs:254-256 (invalidate_index_cache). *)
Definition invalidate_index_cache : M unit := fun st => (put_cache st None, Ok tt).

(** ** Index maintenance *)

(** [slice.starts_with(prefix)]. *)
Fixpoint bytes_prefix (p l : bytes) : bool :=
  match p, l with
  | [], _ => true
  | x :: p', y :: l' => Byte.eqb x y && bytes_prefix p' l'
  | _ :: _, [] => false
  end.

(** Source: collection/indexes.rs:307-322 (index_has_prefix). *)
Definition index_has_prefix (s : store) (c : MemCursor) (prefix : bytes)
  : result bool StorageError :=
  match search_near s (set_key_raw c prefix) with
  | (c, Ok exact) =>
      let positioned :=
        if (exact <? 0)%Z then
          match Storage.next s c with (_, Err _) => None | (c, Ok _) => Some c end
        else Some c in
      match positioned with
      | None => Ok false
      | Some c => let? found := get_key_raw c in Ok (bytes_prefix prefix found)
      end
  | (_, Err _) => Ok false
  end.

Definition field_names (keys : document) : string := str_join ", " (doc_keys keys).

(** The collation of an index, as its encoding of strings. *)
Definition spec_collation (spec : IndexSpec) : option (string -> bytes) :=
  option_map (fun d => Collation.index_key_bytes (from_doc d)) (IndexKey.collation (options spec)).

(** The key of a document in a B-tree index, without and with its id. *)
Definition btree_key (doc : document) (spec : IndexSpec) : bytes :=
  extract_index_key_with_collation doc (keys spec) (spec_collation spec).
Definition btree_entry (doc : document) (id : string) (spec : IndexSpec) : bytes :=
  btree_key doc spec ++ as_bytes id.

(** [set_key_raw(key); set_value_str(id); insert()] on a new cursor. *)
Definition put_entry (table : string) (key : bytes) (id : string) : M unit :=
  writing (fun s => Storage.insert s (set_value_str (set_key_raw (open_cursor table) key) id)).

(** [set_key_raw(key); if search().is_ok() { remove()? }] on a new cursor. *)
Definition drop_entry (table : string) (key : bytes) : M unit :=
  writing (fun s =>
    match Storage.search s (set_key_raw (open_cursor table) key) with
    | (c, Ok _) => Storage.remove s c
    | (_, Err _) => (s, Ok tt)
    end).

(** [!pfe.is_empty() && !eval_query(doc, pfe).unwrap_or(false)]. *)
Definition outside_partial (doc : document) (opts : IndexOptions) : result bool failure :=
  match partial_filter_expression opts with
  | Some ((_ :: _) as pfe) =>
      match unwrap_or (eval_query doc pfe) false with
      | Ok b => Ok (negb b)
      | Err e => Err (raise QueryError e)
      end
  | _ => Ok false
  end.

(** Source: index/text_index.rs:21-31 (tokenize). *)
Definition tokenize (text : string) : list string := find_words (to_lowercase text).

(** The entries of a document in a text index. *)
Definition text_entries (doc : document) (id_str : string) (spec : IndexSpec) : list bytes :=
  flat_map (fun field =>
    match get_value doc field with
    | Some (BString text) =>
        map (fun token => as_bytes token ++ xfe :: as_bytes id_str) (tokenize text)
    | _ => []
    end) (text_fields (keys spec)).

Definition prefix_entry (doc : document) (id_str : string) (spec : IndexSpec) : bytes :=
  let prefix_length := match prefix_options (options spec) with
                       | Some p => IndexKey.prefix_length p | None => 32%nat end in
  truncate_key (extract_index_key doc (keys spec)) prefix_length ++ as_bytes id_str.

Definition geo_required (keys : document) : failure :=
  let field := match twodsphere_field keys with Some f => f | None => "?" end in
  Fail (COther ("2dsphere indexed field '" ++ field ++
                "' must be a GeoJSON Point or [longitude, latitude] array")%string).

(** Source: collection/indexes.rs:432-544 (insert_into_indexes_single). *)
Definition insert_into_indexes_single (doc : document) (id_str : string) (spec : IndexSpec)
  : M unit :=
  let! outside := lift (outside_partial doc (options spec)) in
  if (outside : bool) then ret tt
  else
    match resolve_index_type (keys spec) (options spec) with
    | TwoDSphere =>
        match twodsphere_index_key doc (keys spec) with
        | Some combined_key => put_entry (index_table (name spec)) combined_key id_str
        | None => if sparse (options spec) then ret tt else throw (geo_required (keys spec))
        end
    | BTreeIndex =>
        let! dup := (if unique (options spec) then
                       reading (fun s => index_has_prefix s (open_cursor (index_table (name spec)))
                                           (btree_key doc spec))
                     else ret false) in
        if (dup : bool) then
          throw (Fail (UniqueConstraintViolation ("Duplicate key for index '" ++ name spec ++
                         "' on fields: " ++ field_names (keys spec))%string))
        else put_entry (index_table (name spec)) (btree_entry doc id_str spec) id_str
    | Text =>
        for_each (text_entries doc id_str spec) (fun key =>
          put_entry (aux_table ".ftx_" (name spec)) key id_str)
    | VectorSearch | Bitmap => ret tt
    | Prefix => put_entry (aux_table ".pfx_" (name spec)) (prefix_entry doc id_str spec) id_str
    end.

(** Source: collection/indexes.rs:422-429 (insert_into_indexes). *)
Definition insert_into_indexes (doc : document) : M unit :=
  let! indexes := list_indexes in
  let! id_str := lift (extract_id_string doc) in
  for_each indexes (insert_into_indexes_single doc id_str).

(** Source: collection/indexes.rs:557-646 (remove_from_indexes_single). *)
Definition remove_from_indexes_single (doc : document) (id_str : string) (spec : IndexSpec)
  : M unit :=
  match resolve_index_type (keys spec) (options spec) with
  | TwoDSphere =>
      match twodsphere_index_key doc (keys spec) with
      | Some combined_key => drop_entry (index_table (name spec)) combined_key
      | None => ret tt
      end
  | BTreeIndex => drop_entry (index_table (name spec)) (btree_entry doc id_str spec)
  | Text =>
      for_each (text_entries doc id_str spec) (fun key =>
        drop_entry (aux_table ".ftx_" (name spec)) key)
  | VectorSearch | Bitmap => ret tt
  | Prefix => drop_entry (aux_table ".pfx_" (name spec)) (prefix_entry doc id_str spec)
  end.

(** Source: collection/indexes.rs:547-554 (remove_from_indexes). *)
Definition remove_from_indexes (doc : document) : M unit :=
  let! indexes := list_indexes in
  let! id_str := lift (extract_id_string doc) in
  for_each indexes (remove_from_indexes_single doc id_str).

Definition bytes_eq (a b : bytes) : bool := cmp_eqb (bytes_cmp a b) Eq.

(** Source: collection/indexes.rs:649-679 (update_in_indexes). *)
Definition update_in_indexes (old_doc new_doc : document) : M unit :=
  let! indexes := list_indexes in
  let! old_id_str := lift (extract_id_string old_doc) in
  let! new_id_str := lift (extract_id_string new_doc) in
  for_each indexes (fun spec =>
    if bool_decide (resolve_index_type (keys spec) (options spec) = BTreeIndex) &&
       bytes_eq (btree_key old_doc spec) (btree_key new_doc spec) && (old_id_str =s? new_id_str)
    then ret tt
    else
      let! _ := remove_from_indexes_single old_doc old_id_str spec in
      insert_into_indexes_single new_doc new_id_str spec).

(** ** Creating and dropping indexes *)

(** Source: collection/indexes.rs:347-416 (rebuild_index). One round of the loop;
    [seen] is the set of keys met, used when the index is unique. *)
Definition rebuild_row (index_name : string) (index_keys : document) (opts : IndexOptions)
  (seen : list bytes) (data_cursor : MemCursor) : M (next_move (list bytes)) :=
  let! doc := lift (current_doc data_cursor) in
  let! id_str := lift (extract_id_string doc) in
  let! outside := lift (outside_partial doc opts) in
  if (outside : bool) then ret (GoOn seen data_cursor)
  else if is_2dsphere_keys index_keys then
    match twodsphere_index_key doc index_keys with
    | None => if sparse opts then ret (GoOn seen data_cursor) else throw (geo_required index_keys)
    | Some combined_key =>
        let! _ := put_entry (index_table index_name) combined_key id_str in
        ret (GoOn seen data_cursor)
    end
  else
    let index_key_bytes := extract_index_key doc index_keys in
    if unique opts && existsb (bytes_eq index_key_bytes) seen then
      throw (Fail (UniqueConstraintViolation
        ("Duplicate key for index on fields: " ++ field_names index_keys)%string))
    else
      let! _ := put_entry (index_table index_name) (index_key_bytes ++ as_bytes id_str) id_str in
      ret (GoOn (if unique opts then index_key_bytes :: seen else seen) data_cursor).

(** Source: collection/indexes.rs:325-419 (rebuild_index). *)
Definition rebuild_index (index_name : string) (index_keys : document) (opts : IndexOptions)
  : M unit :=
  let! _ := for_rows [] cursor (rebuild_row index_name index_keys opts) in ret tt.

(** [IndexOptions] with its name taken. *)
Definition take_name (o : IndexOptions) : IndexOptions :=
  {| opt_name := None; unique := unique o; sparse := sparse o; background := background o;
     expire_after_seconds := expire_after_seconds o;
     partial_filter_expression := partial_filter_expression o;
     collation := IndexKey.collation o; index_type := index_type o;
     vector_options := vector_options o; text_options := text_options o;
     prefix_options := prefix_options o |}.

(** Source: collection/indexes.rs:57-68 (create_index). *)
Definition choose_index_name (index_keys : document) (opts : IndexOptions) : result string failure :=
  match opt_name opts with
  | Some n =>
      let t := str_trim n in
      if t =s? "" then Ok (generate_index_name index_keys)
      else let? _ := map_err (raise InvalidIndexSpec) (validate_custom_index_name str_debug t) in Ok t
  | None => Ok (generate_index_name index_keys)
  end.

(** Source: collection/indexes.rs:105-138 (create_index). The body of the
    transaction. *)
Definition create_index_body (index_name : string) (index_keys : document) (opts : IndexOptions)
  : M string :=
  let create t := writing (fun s => (create_table s t, Ok tt)) in
  let! _ := create (index_table index_name) in
  let! _ := create metadata_table in
  let index_spec := {| name := index_name; keys := index_keys; options := opts |} in
  let! spec_bytes := lift (map_err (fun e =>
    Fail (COther ("Failed to serialize index spec: " ++ e)%string)) (spec_to_vec index_spec)) in
  let! _ := writing (fun s => Storage.insert s
    (set_value_raw (set_key_str (open_cursor metadata_table) index_name) spec_bytes)) in
  let! _ := rebuild_index index_name index_keys opts in
  let! _ := append_oplog_if_enabled "index_create" (BString index_name)
    (spec_to_document index_spec) false None in
  ret index_name.

(** Source: collection/indexes.rs:45-153 (create_index). *)
Definition create_index (index_keys : document) (opts : option IndexOptions) : M string :=
  match index_keys with
  | [] => throw (Fail (InvalidIndexSpec "Index keys cannot be empty"))
  | _ =>
      let opts := match opts with Some o => o | None => default_options end in
      let! index_name := lift (choose_index_name index_keys opts) in
      let opts := take_name opts in
      if is_2dsphere_keys index_keys && negb (length index_keys =? 1)%nat then
        throw (Fail (InvalidIndexSpec "2dsphere index must be defined on exactly one field"))
      else if is_2dsphere_keys index_keys && unique opts then
        throw (Fail (InvalidIndexSpec "unique 2dsphere indexes are not supported"))
      else
        let! existing := list_indexes in
        match find (fun s => name s =s? index_name) existing with
        | Some spec =>
            if bson_eqb (BDocument (keys spec)) (BDocument index_keys) then ret index_name
            else throw (Fail (IndexAlreadyExists index_name))
        | None => fun st =>
            match writing Storage.begin_transaction st with
            | (st, Err e) => (st, Err e)
            | (st, Ok _) =>
                match create_index_body index_name index_keys opts st with
                | (st, Err (Unwind m)) => (st, Err (Unwind m))
                | (st, result) =>
                    let st := put_cache st None in
                    match result with
                    | Ok _ =>
                        match writing Storage.commit_transaction st with
                        | (st, Err e) => (st, Err e)
                        | (st, Ok _) => (st, result)
                        end
                    | Err _ => (fst (writing Storage.rollback_transaction st), result)
                    end
                end
            end
        end
  end.

(** Source: collection/indexes.rs:178-199 (drop_index). One index. *)
Definition drop_one_index (index_name : string) : M unit :=
  let! _ := writing (fun s => (drop_table s (index_table index_name), Ok tt)) in
  let! _ := drop_entry metadata_table (as_bytes index_name) in
  let! _ := invalidate_index_cache in
  append_oplog_if_enabled "index_drop" (BString index_name) None false None.

(** Source: collection/indexes.rs:167-200 (drop_index). With a bound on the depth
    of the calls, which exhausts the stack. *)
Fixpoint drop_index_depth (depth : nat) (index_name : string) : M unit :=
  match depth with
  | O => throw (Unwind "stack overflow")
  | S depth' =>
      if index_name =s? "*" then
        let! indexes := list_indexes in
        for_each indexes (fun spec =>
          if negb (name spec =s? "_id_") then drop_index_depth depth' (name spec) else ret tt)
      else drop_one_index index_name
  end.

(** Source: collection/indexes.rs:167-200 (drop_index). The calls nest once, unless
    an index is itself named ["*"]: then they nest without end
    ([drop_star_never_ends]). *)
Definition drop_index (index_name : string) : M unit := drop_index_depth 2 index_name.

(** Source: collection/indexes.rs:259-279 (clear_index_table). *)
Definition clear_index_table (index_name : string) : M unit :=
  fun st =>
    let s := cs_store st in
    let c := set_key_raw (open_cursor (index_table index_name)) [] in
    match Storage.search s c with
    | (_, Err _) => (st, Ok tt)
    | (c, Ok _) =>
        (let! first := reading (fun _ => get_key_raw c) in
         let! all := for_rows [first] c (fun keys c =>
           let! k := reading (fun _ => get_key_raw c) in ret (GoOn (keys ++ [k]) c)) in
         for_each all (drop_entry (index_table index_name))) st
    end.

(** Source: collection/indexes.rs:284-296 (rebuild_all_indexes). *)
Definition rebuild_all_indexes : M Z :=
  let! indexes := list_indexes in
  let others := List.filter (fun spec => negb (name spec =s? "_id_")) indexes in
  let! _ := for_each others (fun spec =>
    let! _ := clear_index_table (name spec) in
    rebuild_index (name spec) (keys spec) (options spec)) in
  ret (Z.of_nat (length others)).

(** ** Writing documents *)

(** Source: collection/mod.rs:175-180 (UpdateOptions). The flags [upsert] and
    [internal]. *)
Record UpdateOptions : Type := { upsert : bool; upd_internal : bool }.

(** Source: collection/mod.rs:160-164 (UpdateResult). *)
Record UpdateResult : Type := {
  matched_count : Z;
  modified_count : Z;
  upserted_id : option bson }.

(** Source: collection/crud.rs:48-57 (insert_one_inner). Also lines 100-106 of
    [insert_many_with_options]: the indexes, then the document. *)
Definition store_document (document : document) : M unit :=
  let! _ := insert_into_indexes document in
  let! doc_bytes := lift (serialize_document document) in
  let! key_str := lift (extract_id_string document) in
  writing (fun s => Storage.insert s (set_value_raw (set_key_str cursor key_str) doc_bytes)).

(** Source: collection/crud.rs:39-68 (insert_one_inner). The inserted id. *)
Definition insert_one_inner (document : document) (internal : bool) : M bson :=
  let! (document, inserted_id) := ensure_id document in
  let! _ := lift (validate_doc document) in
  let! _ := store_document document in
  let! _ := append_oplog_if_enabled "insert" inserted_id (Some document) internal None in
  ret inserted_id.

(** Source: collection/crud.rs:31-37 (insert_one_with_options). *)
Definition insert_one_with_options (document : document) (internal : bool) : M bson :=
  with_batched_write (insert_one_inner document internal).

(** Source: collection/crud.rs:27-29 (insert_one). *)
Definition insert_one (document : document) : M bson := insert_one_with_options document false.

(** Source: collection/crud.rs:92-96 (insert_many_with_options). *)
Fixpoint prepare_many (documents : list document) : M (list document * list bson) :=
  match documents with
  | [] => ret ([], [])
  | doc :: rest =>
      let! (doc, id) := ensure_id doc in
      let! _ := lift (validate_doc doc) in
      let! (docs, ids) := prepare_many rest in
      ret (doc :: docs, id :: ids)
  end.

(** Source: collection/crud.rs:85-115 (insert_many_with_options). *)
Definition insert_many_with_options (documents : list document) (internal : bool) : M (list bson) :=
  let! (documents, inserted_ids) := prepare_many documents in
  with_batched_write (
    let! _ := for_each documents (fun doc =>
      let! _ := store_document doc in
      let id := match doc_get doc "_id" with Some id => id | None => BNull end in
      append_oplog_if_enabled "insert" id (Some doc) internal None) in
    ret inserted_ids).

(** Source: collection/crud.rs:81-83 (insert_many). *)
Definition insert_many (documents : list document) : M (list bson) :=
  insert_many_with_options documents false.

(** Source: collection/crud.rs:397-420 (update_one_inner). Also lines 502-525 of
    [update_many_inner]: a matching document is updated in place; whether it
    changed, and the cursor. *)
Definition update_matching (c : MemCursor) (original_doc update : document)
  (internal : bool) : M (bool * MemCursor) :=
  let! doc := lift (map_err (raise UpdateError) (apply_update original_doc update)) in
  if negb (bson_eqb (BDocument doc) (BDocument original_doc)) then
    let! _ := update_in_indexes original_doc doc in
    let! updated_bytes := lift (serialize_document doc) in
    let c := set_value_raw c updated_bytes in
    let! _ := writing (fun s => Storage.update s c) in
    let! id := lift (ok_or (doc_get doc "_id") (Fail MissingIdError)) in
    let! _ := append_oplog_if_enabled "update" id (Some update) internal
      (Some (doc_top_level_changed original_doc doc)) in
    ret (true, c)
  else ret (false, c).

(** Source: collection/crud.rs:432-444 (update_one_inner). Also lines 535-547 of
    [update_many_inner]. *)
Definition upsert_document (filter update : document) (internal : bool) : M UpdateResult :=
  let new_doc := extract_equality_fields filter in
  let! new_doc := (if negb (doc_contains new_doc "_id")
                   then let! id := fresh_oid in ret (doc_insert new_doc "_id" id)
                   else ret new_doc) in
  let! new_doc := lift (map_err (raise UpdateError) (apply_update_for_upsert new_doc update)) in
  let id := match doc_get new_doc "_id" with Some id => id | None => BNull end in
  let! _ := insert_one_inner new_doc internal in
  ret {| matched_count := 0; modified_count := 0; upserted_id := Some id |}.

(** Source: collection/crud.rs:387-428 (update_one_inner). *)
Definition update_one_row (filter update : document) (internal : bool)
  (counts : Z * Z) (c : MemCursor) : M (next_move (Z * Z)) :=
  let! doc := lift (current_doc c) in
  let! matches := lift (eval_filter doc filter) in
  if (matches : bool) then
    let! (modified, _) := update_matching c doc update internal in
    ret (Stop (1%Z, if (modified : bool) then 1%Z else 0%Z))
  else ret (GoOn counts c).

(** Source: collection/crud.rs:375-452 (update_one_inner). *)
Definition update_one_inner (filter update : document) (opts : UpdateOptions) : M UpdateResult :=
  let! (matched, modified) := for_rows (0%Z, 0%Z) cursor
    (update_one_row filter update (upd_internal opts)) in
  if (matched =? 0)%Z && upsert opts then upsert_document filter update (upd_internal opts)
  else ret {| matched_count := matched; modified_count := modified; upserted_id := None |}.

(** Source: collection/crud.rs:366-373 (update_one_with_options). *)
Definition update_one_with_options (filter update : document) (opts : UpdateOptions)
  : M UpdateResult :=
  with_batched_write (update_one_inner filter update opts).

(** Source: collection/crud.rs:361-363 (update_one). *)
Definition update_one (filter update : document) : M UpdateResult :=
  update_one_with_options filter update {| upsert := false; upd_internal := false |}.

(** Source: collection/crud.rs:493-531 (update_many_inner). *)
Definition update_many_row (filter update : document) (internal : bool)
  (counts : Z * Z) (c : MemCursor) : M (next_move (Z * Z)) :=
  let '(matched, modified) := counts in
  let! doc := lift (current_doc c) in
  let! matches := lift (eval_filter doc filter) in
  if (matches : bool) then
    let! (changed, c) := update_matching c doc update internal in
    ret (GoOn ((matched + 1)%Z, if (changed : bool) then (modified + 1)%Z else modified) c)
  else ret (GoOn counts c).

(** Source: collection/crud.rs:482-555 (update_many_inner). *)
Definition update_many_inner (filter update : document) (opts : UpdateOptions) : M UpdateResult :=
  let! (matched, modified) := for_rows (0%Z, 0%Z) cursor
    (update_many_row filter update (upd_internal opts)) in
  if (matched =? 0)%Z && upsert opts then upsert_document filter update (upd_internal opts)
  else ret {| matched_count := matched; modified_count := modified; upserted_id := None |}.

(** Source: collection/crud.rs:473-480 (update_many_with_options). *)
Definition update_many_with_options (filter update : document) (opts : UpdateOptions)
  : M UpdateResult :=
  with_batched_write (update_many_inner filter update opts).

(** Source: collection/crud.rs:464-470 (update_many). *)
Definition update_many (filter update : document) : M UpdateResult :=
  update_many_with_options filter update {| upsert := false; upd_internal := false |}.

(** Source: collection/crud.rs:596-603 (delete_one_inner). Also lines 654-661 of
    [delete_many_inner]. *)
Definition delete_matching (c : MemCursor) (doc : document) (internal : bool) : M unit :=
  let! id := lift (ok_or (doc_get doc "_id") (Fail MissingIdError)) in
  let! _ := remove_from_indexes doc in
  let! _ := writing (fun s => Storage.remove s c) in
  append_oplog_if_enabled "delete" id None internal None.

(** Source: collection/crud.rs:590-610 (delete_one_inner), and, with [one] false,
    648-667 (delete_many_inner). *)
Definition delete_row (one : bool) (filter : document) (internal : bool) (deleted : Z)
  (c : MemCursor) : M (next_move Z) :=
  let! doc := lift (current_doc c) in
  let! matches := lift (eval_filter doc filter) in
  if (matches : bool) then
    let! _ := delete_matching c doc internal in
    ret (if one then Stop (deleted + 1)%Z else GoOn (deleted + 1)%Z c)
  else ret (GoOn deleted c).

(** Source: collection/crud.rs:578-613 (delete_one_inner). *)
Definition delete_one_inner (filter : document) (internal : bool) : M Z :=
  for_rows 0%Z cursor (delete_row true filter internal).

(** Source: collection/crud.rs:570-576 (delete_one_with_options). *)
Definition delete_one_with_options (filter : document) (internal : bool) : M Z :=
  with_batched_write (delete_one_inner filter internal).

(** Source: collection/crud.rs:566-568 (delete_one). *)
Definition delete_one (filter : document) : M Z := delete_one_with_options filter false.

(** Source: collection/crud.rs:636-670 (delete_many_inner). *)
Definition delete_many_inner (filter : document) (internal : bool) : M Z :=
  for_rows 0%Z cursor (delete_row false filter internal).

(** Source: collection/crud.rs:628-634 (delete_many_with_options). *)
Definition delete_many_with_options (filter : document) (internal : bool) : M Z :=
  with_batched_write (delete_many_inner filter internal).

(** Source: collection/crud.rs:624-626 (delete_many). *)
Definition delete_many (filter : document) : M Z := delete_many_with_options filter false.

(** Source: collection/crud.rs:681-705 (count_documents). *)
Definition count_documents (filter : option document) : M Z :=
  let filter := match filter with Some f => f | None => [] end in
  for_rows 0%Z cursor (fun count c =>
    let! doc := lift (current_doc c) in
    let! matches := lift (eval_filter doc filter) in
    ret (GoOn (if (matches : bool) then (count + 1)%Z else count) c)).

End Coll.
End Collection.

(** A reference environment: specifications are stored as documents. *)
Module RefColl.
#[export] Instance parse : F64Parse :=
  {| f64_parse s := option_map f64_of_Z (parse_usize s) |}.

Definition spec_doc (spec : IndexSpec) : document :=
  [("name", BString (name spec)); ("key", BDocument (keys spec));
   ("unique", BBoolean (unique (options spec)));
   ("expireAfterSeconds", match expire_after_seconds (options spec) with
                          | Some n => BInt64 n | None => BNull end);
   ("type", match index_type (options spec) with
            | Some Bitmap => BString "bitmap" | Some Prefix => BString "prefix" | _ => BNull end)].

Definition spec_of (d : document) : result IndexSpec string :=
  match d with
  | [("name", BString nm); ("key", BDocument ks); ("unique", BBoolean u); ("expireAfterSeconds", x);
     ("type", t)] =>
      Ok {| name := nm; keys := ks;
            options := {| opt_name := None; unique := u; sparse := false; background := false;
              expire_after_seconds := match x with BInt64 n => Some n | _ => None end; partial_filter_expression := None;
              IndexKey.collation := None;
              index_type := match t with
                            | BString n => if n =s? "bitmap" then Some Bitmap else Some Prefix
                            | _ => None end;
              vector_options := None; text_options := None; prefix_options := None |} |}
  | _ => Err "invalid specification"
  end.

#[export] Instance env : CollEnv := {|
  spec_to_vec spec := @doc_to_vec RefBson.ops (spec_doc spec);
  spec_from_slice b := let? d := @doc_from_reader RefBson.ops b in spec_of d;
  spec_to_document spec := Some (spec_doc spec);
  new_oid k := repeat x00 10 ++ be_bytes 2 (Z.of_nat k);
  str_trim s := s;
  str_debug s := s;
  find_words s := split_on " " s;
  utf8_err _ := "invalid utf-8 sequence" |}.
End RefColl.
