(* ===== verification/Exec.v ===== *)
(** * Query execution

    [src/rust/smongo-engine/src/collection/exec.rs] and [cursor.rs]: the scans
    that answer a query, over the collection itself and over a B-tree index,
    the streaming cursor of [find], and what the scans owe to one another: a
    seek reads exactly the entries with its prefix, and a scan of an index that
    agrees with the data returns the documents a collection scan returns.  The
    maintenance of the indexes by insertions and deletions keeps that agreement. *)

From Stdlib Require Import ZArith Lia Ascii String Strings.Byte Permutation.
From S2P Require Import Prelude F64 Bson RefBson Paths Geo Query Update BTree Storage IndexKey.
From S2P Require Import Planner Schema Collation Expressions Accumulators Oplog Collection.
From stdpp Require Import base tactics list strings gmap.

Open Scope string_scope.
Open Scope list_scope.

Section Exec.
Context {B : BsonOps} {Lm : Libm} {G : S2} {T : TextEnv} {X : ExprEngine} {K : Clock}
  {J : JsonOps} {N : OplogEnv} {FP : F64Parse} {E : CollEnv}
  {SE : StdEnv} (index_chars : string -> bool) (self : Collection).

(** ** Loops that only read *)

Definition read_body {Acc} (body : Acc -> MemCursor -> result (next_move Acc) failure)
  (acc : Acc) (c : MemCursor) : control Acc (result Acc failure) :=
  match body acc c with
  | Ok (GoOn acc' c') => Continue acc' c'
  | Ok (Stop acc') => Leave acc' (Ok acc')
  | Err e => Leave acc (Err e)
  end.

(** [if cursor.next().is_ok() { loop { body; if cursor.next().is_err() { break } } }]. *)
Definition read_rows {Acc} (s : store) (acc : Acc) (c : MemCursor)
  (body : Acc -> MemCursor -> result (next_move Acc) failure) : result Acc failure :=
  snd (while_next (fun _ => s) (read_body body) Ok acc c).

(** [loop { body; if cursor.next().is_err() { break } }] on a positioned cursor. *)
Definition read_from_here {Acc} (s : store) (acc : Acc) (c : MemCursor)
  (body : Acc -> MemCursor -> result (next_move Acc) failure) : result Acc failure :=
  let? m := body acc c in
  match m with
  | GoOn acc c => read_rows s acc c body
  | Stop acc => Ok acc
  end.

Definition storage_failure {A} (r : result A StorageError) : result A failure :=
  map_err (fun e => Fail (CStorageError e)) r.

Definition value_str (c : MemCursor) : result string failure :=
  storage_failure (get_value_str utf8_err c).

(** [match cursor.search_near() { Ok(exact) => if exact < 0 && cursor.next().is_err()
    { return }, Err(_) => return }]. *)
Definition seek (s : store) (c : MemCursor) : option MemCursor :=
  match search_near s c with
  | (_, Err _) => None
  | (c, Ok exact) =>
      if (exact <? 0)%Z then
        match next s c with (_, Err _) => None | (c, Ok _) => Some c end
      else Some c
  end.

(** ** Scans *)

(** Source: collection/exec.rs:263-267 (collect_collection_scan). *)
Definition collection_row (filter : document) (out : list document) (c : MemCursor)
  : result (next_move (list document)) failure :=
  let? doc := current_doc c in
  let? matches := eval_filter doc filter in
  Ok (GoOn (if (matches : bool) then out ++ [doc] else out) c).

(** Source: collection/exec.rs:253-273 (collect_collection_scan). *)
Definition collect_collection_scan (s : store) (filter : document)
  : result (list document) failure :=
  read_rows s [] (cursor self) (collection_row filter).

(** Source: collection/exec.rs:291-298 (collect_index_scan). Also lines 334-341 of
    [collect_index_seek]. *)
Definition index_row (s : store) (filter : document) (out : list document) (c : MemCursor)
  : result (next_move (list document)) failure :=
  let? id_str := value_str c in
  let? found := fetch_doc_by_id_str self s id_str in
  match found with
  | Some doc =>
      let? matches := eval_filter doc filter in
      Ok (GoOn (if (matches : bool) then out ++ [doc] else out) c)
  | None => Ok (GoOn out c)
  end.

(** Source: collection/exec.rs:275-304 (collect_index_scan). *)
Definition collect_index_scan (s : store) (filter : document) (index_name : string)
  : result (list document) failure :=
  read_rows s [] (open_cursor (index_table self index_name)) (index_row s filter).

(** Source: collection/exec.rs:330-341 (collect_index_seek). *)
Definition seek_row (s : store) (filter : document) (seek_key : bytes) (out : list document)
  (c : MemCursor) : result (next_move (list document)) failure :=
  let? index_key_raw := storage_failure (get_key_raw c) in
  if negb (bytes_prefix seek_key index_key_raw) then Ok (Stop out)
  else index_row s filter out c.

(** Source: collection/exec.rs:319-346 (collect_index_seek). Also lines 534-562 of
    [collect_prefix_index_scan]. *)
Definition seek_prefix (s : store) (filter : document) (index_name : string) (seek_key : bytes)
  : result (list document) failure :=
  match seek s (set_key_raw (open_cursor (index_table self index_name)) seek_key) with
  | None => Ok []
  | Some c => read_from_here s [] c (seek_row s filter seek_key)
  end.

(** Source: collection/exec.rs:306-347 (collect_index_seek). *)
Definition collect_index_seek (s : store) (filter : document) (index_name : string)
  (index_keys seek_values : document) : result (list document) failure :=
  seek_prefix s filter index_name (build_seek_prefix index_keys seek_values).

(** Source: collection/exec.rs:507-563 (collect_prefix_index_scan). *)
Definition collect_prefix_index_scan (s : store) (filter : document) (index_name : string)
  (index_keys : document) (prefix_length : nat) : result (list document) failure :=
  let seek_doc := fold_left (fun d k =>
    match doc_get filter k with Some v => doc_insert d k v | None => d end)
    (doc_keys index_keys) [] in
  match seek_doc with
  | [] => collect_index_scan s filter index_name
  | _ =>
      seek_prefix s filter index_name
        (truncate_key (extract_index_key seek_doc index_keys) prefix_length)
  end.

(** Source: collection/exec.rs:233-245 (collect_sorted_index_scan). *)
Definition sorted_row (s : store) (filter : document) (limit : Z) (out : list document)
  (c : MemCursor) : result (next_move (list document)) failure :=
  let? id_str := value_str c in
  let? found := fetch_doc_by_id_str self s id_str in
  match found with
  | Some doc =>
      let? matches := match filter with [] => Ok true | _ => eval_filter doc filter end in
      if (matches : bool) then
        let out := out ++ [doc] in
        Ok (if (limit <=? Z.of_nat (length out))%Z then Stop out else GoOn out c)
      else Ok (GoOn out c)
  | None => Ok (GoOn out c)
  end.

(** Source: collection/exec.rs:217-251 (collect_sorted_index_scan). The space for [limit]
    documents is reserved first. *)
Definition collect_sorted_index_scan (s : store) (filter : document) (index_name : string)
  (limit : Z) : result (list document) failure :=
  if (i64_max <? limit * size_of_document)%Z then Err (Unwind "capacity overflow")
  else read_rows s [] (open_cursor (index_table self index_name)) (sorted_row s filter limit).

(** Source: collection/exec.rs:383-399 (collect_covering_index_scan). Also lines
    411-425: an entry of the index, decoded, filtered and projected. *)
Definition covering_row (filter index_keys projection : document) (out : list document)
  (c : MemCursor) : result (next_move (list document)) failure :=
  let? index_key_raw := storage_failure (get_key_raw c) in
  match decode_index_key index_chars index_key_raw index_keys with
  | None => Ok (GoOn out c)
  | Some index_doc =>
      let? matches := eval_filter index_doc filter in
      if (matches : bool) then
        let projected := apply_projection_to_index_doc index_doc projection in
        let? projected :=
          if should_include_id projection then
            let? id_str := value_str c in Ok (doc_insert projected "_id" (BString id_str))
          else Ok projected in
        Ok (GoOn (out ++ [projected]) c)
      else Ok (GoOn out c)
  end.

(** Source: collection/exec.rs:349-435 (collect_covering_index_scan). *)
Definition collect_covering_index_scan (s : store) (filter : document) (index_name : string)
  (index_keys : document) (seek_values : option document) (projection : document)
  : result (list document) failure :=
  let index_cursor := open_cursor (index_table self index_name) in
  match seek_values with
  | Some seek_vals =>
      let seek_key := build_seek_prefix index_keys seek_vals in
      match seek s (set_key_raw index_cursor seek_key) with
      | None => Ok []
      | Some c =>
          read_from_here s [] c (fun out c =>
            let? index_key_raw := storage_failure (get_key_raw c) in
            if negb (bytes_prefix seek_key index_key_raw) then Ok (Stop out)
            else covering_row filter index_keys projection out c)
      end
  | None => read_rows s [] index_cursor (covering_row filter index_keys projection)
  end.

(** ** The first match *)

(** Source: collection/exec.rs:103-127 (find_one_with_collection_scan). *)
Definition find_one_with_collection_scan (s : store) (filter : document)
  : result (option document) failure :=
  read_rows s None (cursor self) (fun found c =>
    let? doc := current_doc c in
    let? matches := eval_filter doc filter in
    Ok (if (matches : bool) then Stop (Some doc) else GoOn found c)).

(** Source: collection/exec.rs:144-155 (find_one_with_index_scan). Also lines
    192-203 of [find_one_with_index_seek]. *)
Definition find_row (s : store) (filter : document) (found : option document) (c : MemCursor)
  : result (next_move (option document)) failure :=
  let? id_str := value_str c in
  match search s (set_key_str (cursor self) id_str) with
  | (data_cursor, Ok _) =>
      let? doc := current_doc data_cursor in
      let? matches := eval_filter doc filter in
      Ok (if (matches : bool) then Stop (Some doc) else GoOn found c)
  | (_, Err _) => Ok (GoOn found c)
  end.

(** Source: collection/exec.rs:130-163 (find_one_with_index_scan). *)
Definition find_one_with_index_scan (s : store) (filter : document) (index_name : string)
  : result (option document) failure :=
  read_rows s None (open_cursor (index_table self index_name)) (find_row s filter).

(** Source: collection/exec.rs:166-214 (find_one_with_index_seek). *)
Definition find_one_with_index_seek (s : store) (filter : document) (index_name : string)
  (index_keys seek_values : document) : result (option document) failure :=
  let seek_key := build_seek_prefix index_keys seek_values in
  match seek s (set_key_raw (open_cursor (index_table self index_name)) seek_key) with
  | None => Ok None
  | Some c =>
      read_from_here s None c (fun found c =>
        let? index_key_raw := storage_failure (get_key_raw c) in
        if bytes_prefix seek_key index_key_raw then find_row s filter found c
        else Ok (Stop found))
  end.

End Exec.

(** ** Keys with a prefix *)

Lemma bytes_prefix_spec p k : bytes_prefix p k = true <-> exists r, k = p ++ r.
Proof.
  revert k. induction p as [|x p IH]; intros k; simpl.
  - split; [by exists k|done].
  - destruct k as [|y k]; [split; [done|by intros [r ?]]|]. rewrite andb_true_iff, IH.
    split.
    + intros [Hxy [r ->]]. apply Byte.byte_dec_bl in Hxy as ->. by exists r.
    + intros [r [= -> ->]]. split; [by apply Byte.byte_dec_lb|by exists r].
Qed.

Lemma bytes_le_app p r : bytes_cmp p (p ++ r) <> Gt.
Proof.
  induction p as [|x p IH]; simpl; [by destruct r|].
  by rewrite (proj2 (byte_cmp_eq x x) eq_refl).
Qed.

(** A prefix of a key is a prefix of every key between it and that key. *)
Lemma bytes_prefix_between p k1 k2 :
  bytes_cmp p k1 <> Gt -> bytes_cmp k1 k2 <> Gt -> bytes_prefix p k2 = true ->
  bytes_prefix p k1 = true.
Proof.
  revert k1 k2. induction p as [|x p IH]; intros [|y k1] k2 H1 H2 H3; simpl in *; try done.
  destruct k2 as [|z k2]; [done|]. apply andb_true_iff in H3 as [Hxz Hp].
  apply Byte.byte_dec_bl in Hxz as <-. cbn [bytes_cmp] in H2.
  destruct (byte_cmp x y) eqn:Exy.
  - apply byte_cmp_eq in Exy as <-. rewrite (proj2 (byte_cmp_eq x x) eq_refl) in H2. simpl in H1, H2.
    rewrite (proj2 (andb_true_iff _ _)); [done|]. split; [by apply Byte.byte_dec_lb|by eapply IH].
  - unfold byte_cmp in *. rewrite (N.compare_antisym (Byte.to_N x) (Byte.to_N y)), Exy in H2. done.
  - done.
Qed.

Fixpoint take_while {A} (f : A -> bool) (l : list A) : list A :=
  match l with
  | [] => []
  | x :: l' => if f x then x :: take_while f l' else []
  end.

Definition has_prefix (p : bytes) (e : bytes * bytes) : bool := bytes_prefix p (fst e).

Lemma filter_every {A} (f : A -> bool) l : (forall x, f x = true) -> List.filter f l = l.
Proof. intros H. induction l as [|x l IH]; [done|]. simpl. by rewrite H, IH. Qed.

Lemma filter_none {A} (f : A -> bool) l : (forall x, In x l -> f x = false) -> List.filter f l = [].
Proof.
  intros H. induction l as [|x l IH]; [done|]. simpl. rewrite (H x) by (by left).
  apply IH. intros y Hy. apply H. by right.
Qed.

Lemma perm_filter {A} (f : A -> bool) l l' :
  Permutation l l' -> Permutation (List.filter f l) (List.filter f l').
Proof.
  induction 1 as [|x l l' _ IH|x y l|l1 l2 l3 _ IH1 _ IH2]; simpl; [done| | |by etransitivity].
  - by destruct (f x); [apply perm_skip|].
  - destruct (f x), (f y); try done. apply perm_swap.
Qed.

Lemma prefix_run (rows : TableStore) p :
  bt_ok rows -> (forall e, In e rows -> bytes_cmp p (fst e) <> Gt) ->
  List.filter (has_prefix p) rows = take_while (has_prefix p) rows.
Proof.
  intros Hs. induction Hs as [|e rows Hs IH Hf]; intros Hge; [done|]. simpl.
  destruct (has_prefix p e) eqn:Ee.
  - f_equal. apply IH. intros e' He'. apply Hge. by right.
  - apply filter_none. intros e' He'. destruct (has_prefix p e') eqn:E'; [|done].
    rewrite Forall_forall in Hf. pose proof (Hf e' ltac:(by apply list_elem_of_In)) as Hlt.
    unfold has_prefix in *. rewrite (bytes_prefix_between p (fst e) (fst e')) in Ee; try done.
    + apply Hge. by left.
    + change (bytes_cmp (fst e) (fst e') = Lt) in Hlt. by rewrite Hlt.
Qed.

(** The rows from the first one that is not below the prefix. *)
Lemma prefix_rows (rows : TableStore) p i :
  bt_ok rows ->
  (forall j x, (j < i)%nat -> rows !! j = Some x -> bytes_cmp (fst x) p = Lt) ->
  (forall j x, (i <= j)%nat -> rows !! j = Some x -> bytes_cmp (fst x) p <> Lt) ->
  List.filter (has_prefix p) rows = take_while (has_prefix p) (drop i rows).
Proof.
  intros Hs Hlt Hge. rewrite <- (take_drop i rows) at 1. rewrite List.filter_app.
  rewrite filter_none; [cbn [app]|].
  - apply prefix_run.
    + unfold bt_ok in *. clear Hlt Hge. revert i. induction Hs; intros [|i]; simpl; auto; constructor; auto.
    + intros e He. apply list_elem_of_In, list_elem_of_lookup in He as [j Hj].
      rewrite lookup_drop in Hj. pose proof (Hge (i + j)%nat e ltac:(lia) Hj) as Hn.
      rewrite bytes_cmp_sym. by destruct (bytes_cmp (fst e) p).
  - intros e He. apply list_elem_of_In, list_elem_of_lookup in He as [j Hj].
    apply lookup_take_Some in Hj as [Hj Hij]. pose proof (Hlt _ _ Hij Hj) as Hl.
    destruct (has_prefix p e) eqn:Ee; [|done]. apply bytes_prefix_spec in Ee as [r Hr].
    pose proof (bytes_le_app p r) as Hle. rewrite <- Hr, bytes_cmp_sym, Hl in Hle. done.
Qed.

(** The cursor is on the row [e], the one at index [i] of its snapshot. *)
Definition on_row (c : MemCursor) (rows : TableStore) (i : nat) (e : bytes * bytes) : Prop :=
  entries c = Some rows /\ position c = Some i /\ rows !! i = Some e /\
  current_key c = Some (fst e) /\ current_value c = Some (snd e).

(** Where a seek ends: on the first row that is not below the key, if there is one. *)
Lemma seek_lands s name p :
  store_ok s ->
  let rows := table_rows s name in
  match seek s (set_key_raw (open_cursor name) p) with
  | Some c => exists i e, on_row c rows i e /\
      (forall j x, (j < i)%nat -> rows !! j = Some x -> bytes_cmp (fst x) p = Lt) /\
      (forall j x, (i <= j)%nat -> rows !! j = Some x -> bytes_cmp (fst x) p <> Lt)
  | None => forall x, In x rows -> bytes_cmp (fst x) p = Lt
  end.
Proof.
  intros Hs rows. assert (Hok : bt_ok rows) by (by apply table_or_empty_ok).
  destruct (decide (rows = [])) as [He|Hne].
  { unfold seek. replace (search_near _ _) with
      (materialize s (clear_entries (set_key_raw (open_cursor name) p)),
       Err (A:=Z) (NotFound "table is empty")); [by rewrite He|].
    unfold search_near. set (c1 := materialize s _). cbn [effective_key c1].
    change (entries c1) with (Some rows). rewrite He. done. }
  destruct (search_near_index s (open_cursor name) p Hs Hne) as (i & e & r & Hi & Hland & Hsn).
  change (table_rows s (table_name (open_cursor name))) with rows in Hi, Hland.
  unfold seek. rewrite Hsn.
  set (c1 := position_at _ i e). assert (Hon : on_row c1 rows i e) by done.
  destruct Hland as [[-> Hk]|[(-> & Hlt & Hgt)|(-> & Hlast & Hlt)]]; cbn [Z.ltb Z.compare].
  - exists i, e. split; [done|]. split.
    + intros j x Hj Hx. rewrite <- Hk. by apply (sorted_lookup_lt rows j i).
    + intros j x Hj Hx Hc. pose proof (sorted_lookup_le rows i j e x Hok Hi Hx Hj) as Hle.
      rewrite bytes_cmp_sym, Hk, Hc in Hle. done.
  - exists i, e. split; [done|]. split; [done|].
    intros j x Hj Hx. by rewrite (Hgt j x Hj Hx).
  - assert (Hnext : exists c', next s c1 = (c', Err (NotFound "end of cursor"))).
    { unfold next, materialize. destruct Hon as (H1 & H2 & _). rewrite H1, H1, H2.
      rewrite (lookup_ge_None_2 rows (i + 1)) by lia. by eexists. }
    destruct Hnext as [c' ->]. intros x Hx. apply list_elem_of_In, list_elem_of_lookup in Hx as [j Hj]. by apply (Hlt j).
Qed.

(** The rows with a prefix are those from where the seek for it ends. *)
Lemma seek_spec s name p :
  store_ok s ->
  let rows := table_rows s name in
  match seek s (set_key_raw (open_cursor name) p) with
  | Some c => exists i e, on_row c rows i e /\
      List.filter (has_prefix p) rows = take_while (has_prefix p) (drop i rows)
  | None => List.filter (has_prefix p) rows = []
  end.
Proof.
  intros Hs rows. assert (Hok : bt_ok rows) by (by apply table_or_empty_ok).
  pose proof (seek_lands s name p Hs) as H. cbv zeta in H. fold rows in H.
  destruct (seek s _) as [c|].
  - destruct H as (i & e & Hon & Hlt & Hge). exists i, e. split; [done|]. by apply prefix_rows.
  - rewrite (prefix_rows rows p (length rows)); [by rewrite drop_ge|done| |].
    + intros j x _ Hx. by apply H, list_elem_of_In, list_elem_of_lookup_2 with j.
    + intros j x Hj Hx. apply lookup_lt_Some in Hx. lia.
Qed.

(** ** Loops as folds over the rows *)

Section ReadLoops.
Context {Acc : Type} (body : Acc -> MemCursor -> result (next_move Acc) failure)
  (f : Acc -> bytes * bytes -> result (Acc + Acc) failure).

(** The body looks at nothing of the cursor but its row, [f] of which says
    whether the loop goes on. *)
Definition row_body : Prop :=
  forall acc c e, current_key c = Some (fst e) -> current_value c = Some (snd e) ->
    body acc c = let? r := f acc e in
                 Ok (match r with inl acc' => GoOn acc' c | inr acc' => Stop acc' end).

Fixpoint fold_until (acc : Acc) (rows : TableStore) : result Acc failure :=
  match rows with
  | [] => Ok acc
  | e :: rest =>
      let? r := f acc e in
      match r with inl acc' => fold_until acc' rest | inr acc' => Ok acc' end
  end.

Definition row_step (acc : Acc) (e : bytes * bytes) : Acc + Acc * result Acc failure :=
  match f acc e with
  | Ok (inl acc') => inl acc'
  | Ok (inr acc') => inr (acc', Ok acc')
  | Err e => inr (acc, Err e)
  end.

Lemma fold_rows_until acc rows :
  snd (fold_rows (R:=result Acc failure) Ok row_step acc rows) = fold_until acc rows.
Proof.
  revert acc. induction rows as [|e rows IH]; intros acc; [done|]. simpl. unfold row_step at 1.
  destruct (f acc e) as [[a|a]|]; simpl; [apply IH|done|done].
Qed.

Hypothesis Hbody : row_body.

Lemma read_body_reads : reads (read_body body) row_step.
Proof.
  intros acc c p e. unfold read_body, row_step. rewrite (Hbody _ (moved c p e) e) by done.
  by destruct (f acc e) as [[a|a]|].
Qed.

Lemma read_rows_fold s acc name :
  read_rows s acc (open_cursor name) body = fold_until acc (table_rows s name).
Proof.
  unfold read_rows. rewrite (while_next_fold _ _ _ row_step) by apply read_body_reads.
  apply fold_rows_until.
Qed.

Lemma read_from_here_fold s acc c rows i e :
  on_row c rows i e -> read_from_here s acc c body = fold_until acc (drop i rows).
Proof.
  intros (Hr & Hp & He & Hk & Hv). unfold read_from_here. rewrite (Hbody acc c e) by done.
  rewrite (drop_S _ _ _ He). cbn [fold_until]. destruct (f acc e) as [[a|a]|]; simpl; try done.
  unfold read_rows, while_next, cursor_rows, materialize. rewrite Hr, Hr.
  rewrite (next_loop_rows _ _ _ _ _ _ rows (S i)); [|by eapply reads_stays, read_body_reads|done|
    rewrite Hp; lia|lia].
  erewrite rows_loop_fold by apply read_body_reads. apply fold_rows_until.
Qed.
End ReadLoops.

(** A loop that never stops early. *)
Lemma fold_until_result {Acc} (g : Acc -> bytes * bytes -> result Acc failure) acc rows :
  fold_until (fun acc e => let? a := g acc e in Ok (inl a)) acc rows = fold_result g acc rows.
Proof.
  revert acc. induction rows as [|e rows IH]; intros acc; [done|]. simpl.
  destruct (g acc e); simpl; [apply IH|done].
Qed.

(** A loop that stops at the first row that fails a test. *)
Lemma fold_until_prefix {Acc} (g : Acc -> bytes * bytes -> result Acc failure) (t : bytes * bytes -> bool)
  acc rows :
  fold_until (fun acc e => if negb (t e) then Ok (inr acc) else let? a := g acc e in Ok (inl a)) acc rows =
  fold_result g acc (take_while t rows).
Proof.
  revert acc. induction rows as [|e rows IH]; intros acc; [done|]. simpl.
  destruct (t e); simpl; [|done]. destruct (g acc e); simpl; [apply IH|done].
Qed.

Section Scans.
Context {B : BsonOps} {Lm : Libm} {G : S2} {T : TextEnv} {X : ExprEngine} {K : Clock}
  {J : JsonOps} {N : OplogEnv} {FP : F64Parse} {E : CollEnv}
  (self : Collection).

(** What a scan adds for a row of the collection, and for an entry of an index. *)
Definition keep_matching (filter : document) (out : list document) (doc : document)
  : result (list document) failure :=
  let? matches := eval_filter doc filter in
  Ok (if (matches : bool) then out ++ [doc] else out).

Definition add_row (filter : document) (out : list document) (e : bytes * bytes)
  : result (list document) failure :=
  let? doc := deserialize_document (snd e) in keep_matching filter out doc.

Definition add_entry (s : store) (filter : document) (out : list document) (e : bytes * bytes)
  : result (list document) failure :=
  let? id_str := storage_failure (from_utf8 utf8_err (snd e) "value") in
  let? found := fetch_doc_by_id_str self s id_str in
  match found with Some doc => keep_matching filter out doc | None => Ok out end.

Lemma collection_row_body filter :
  row_body (collection_row filter) (fun out e => let? a := add_row filter out e in Ok (inl a)).
Proof.
  intros out c e _ Hv. unfold collection_row, current_doc, add_row, keep_matching, get_value_raw.
  rewrite Hv. cbn [ok_or map_err]. destruct (deserialize_document (snd e)); [|done]. simpl.
  by destruct (eval_filter _ filter) as [[]|].
Qed.

Lemma index_row_body s filter :
  row_body (index_row self s filter) (fun out e => let? a := add_entry s filter out e in Ok (inl a)).
Proof.
  intros out c e _ Hv. unfold index_row, value_str, get_value_str, get_value_raw, add_entry, keep_matching.
  rewrite Hv. cbn [ok_or]. destruct (storage_failure _) as [id|]; [|done]. simpl.
  destruct (fetch_doc_by_id_str self s id) as [[d|]|]; [|done|done]. simpl.
  by destruct (eval_filter d filter) as [[]|].
Qed.

Lemma seek_row_body s filter p :
  row_body (seek_row self s filter p)
    (fun out e => if negb (has_prefix p e) then Ok (inr out)
                  else let? a := add_entry s filter out e in Ok (inl a)).
Proof.
  intros out c e Hk Hv. unfold seek_row, get_key_raw. rewrite Hk. cbn [ok_or storage_failure map_err].
  fold (has_prefix p e). destruct (has_prefix p e); [|done]. cbn [negb]. by apply index_row_body.
Qed.

Lemma collection_scan_fold s filter :
  collect_collection_scan self s filter =
  fold_result (add_row filter) [] (table_rows s (coll_table self)).
Proof.
  unfold collect_collection_scan, cursor. erewrite read_rows_fold by apply collection_row_body.
  apply fold_until_result.
Qed.

Lemma index_scan_fold s filter index_name :
  collect_index_scan self s filter index_name =
  fold_result (add_entry s filter) [] (table_rows s (index_table self index_name)).
Proof.
  unfold collect_index_scan. erewrite read_rows_fold by apply index_row_body.
  apply fold_until_result.
Qed.

Lemma seek_prefix_fold s filter index_name p :
  store_ok s ->
  seek_prefix self s filter index_name p =
  fold_result (add_entry s filter) []
    (List.filter (has_prefix p) (table_rows s (index_table self index_name))).
Proof.
  intros Hs. pose proof (seek_spec s (index_table self index_name) p Hs) as H. cbv zeta in H.
  unfold seek_prefix. destruct (seek s _) as [c|]; [|by rewrite H].
  destruct H as (i & e & Hon & ->). erewrite read_from_here_fold; [|apply seek_row_body|done].
  apply fold_until_prefix.
Qed.
End Scans.

(** ** Indexes that agree with the data *)

Lemma as_bytes_inj a b : as_bytes a = as_bytes b -> a = b.
Proof.
  intros H. apply (f_equal string_of_list_byte) in H. unfold as_bytes in H.
  by rewrite !string_of_list_byte_of_string in H.
Qed.

Lemma table_rows_In s name k v :
  store_ok s -> In (k, v) (table_rows s name) <-> tbl_get s name k = Some v.
Proof.
  intros [Hs Ht]. unfold table_rows, tbl_get. destruct (bt_get s name) as [t|] eqn:Eg; simpl; [|done].
  symmetry. apply bt_get_In. by eapply Ht.
Qed.

Lemma table_rows_nodup s name : store_ok s -> NoDup (map fst (table_rows s name)).
Proof.
  intros Hs. pose proof (table_or_empty_ok s name Hs) as Hok. fold (table_rows s name) in Hok.
  induction Hok as [|e rows Hok IH Hf]; [constructor|]. simpl. constructor; [|done].
  intros Hin. apply list_elem_of_In, in_map_iff in Hin as (e' & He & Hin).
  rewrite Forall_forall in Hf. pose proof (Hf e' ltac:(by apply list_elem_of_In)) as Hlt.
  change (bytes_cmp (fst e) (fst e') = Lt) in Hlt. rewrite He in Hlt.
  by rewrite (proj2 (bytes_cmp_eq (fst e) (fst e)) eq_refl) in Hlt.
Qed.

Lemma table_rows_ext s s' name :
  store_ok s -> store_ok s' -> (forall k, tbl_get s' name k = tbl_get s name k) ->
  table_rows s' name = table_rows s name.
Proof.
  intros Hs Hs' H. apply bt_ext; [by apply table_or_empty_ok|by apply table_or_empty_ok|].
  intros k. specialize (H k). unfold tbl_get in H. unfold table_rows.
  destruct (bt_get s' name), (bt_get s name); done.
Qed.

Section Agreement.
Context {B : BsonOps} {Lm : Libm} {G : S2} {T : TextEnv} {X : ExprEngine} {K : Clock}
  {J : JsonOps} {N : OplogEnv} {FP : F64Parse} {E : CollEnv}
  (self : Collection).

(** The collection holds [doc] under [id]. *)
Definition holds (s : store) (id : string) (doc : document) : Prop :=
  exists b, tbl_get s (coll_table self) (as_bytes id) = Some b /\ deserialize_document b = Ok doc.

(** Every row of the collection is a document under the text of its [_id]. *)
Definition well_keyed (s : store) : Prop :=
  forall k b, tbl_get s (coll_table self) k = Some b ->
    exists id doc, k = as_bytes id /\ utf8_valid k = true /\
      deserialize_document b = Ok doc /\ extract_id_string doc = Ok id.

(** The entries of an index are those of the documents of the collection. *)
Definition agrees (s : store) (spec : IndexSpec) : Prop :=
  forall key v, tbl_get s (index_table self (name spec)) key = Some v <->
    exists id doc, holds s id doc /\ key = btree_entry doc id spec /\ v = as_bytes id.

(** The document stored under a key, and whether it matches. *)
Definition doc_at (s : store) (k : bytes) : document :=
  match tbl_get s (coll_table self) k with
  | Some b => match deserialize_document b with Ok d => d | Err _ => [] end
  | None => []
  end.

Definition matching (filter doc : document) : bool :=
  match eval_filter doc filter with Ok b => b | Err _ => false end.

Lemma fold_keep {A} (step : list document -> A -> result (list document) failure) (D : A -> document)
  filter out l :
  (forall out e, In e l -> step out e = Ok (if matching filter (D e) then out ++ [D e] else out)) ->
  fold_result step out l = Ok (out ++ List.filter (matching filter) (map D l)).
Proof.
  revert out. induction l as [|e l IH]; intros out H; simpl; [by rewrite app_nil_r|].
  rewrite (H out e) by (by left). cbn. rewrite IH by (intros; apply H; by right).
  destruct (matching filter (D e)); simpl; [by rewrite <- app_assoc|done].
Qed.

Lemma holds_doc_at s id doc : holds s id doc -> doc_at s (as_bytes id) = doc.
Proof. intros (b & Hb & Hd). unfold doc_at. by rewrite Hb, Hd. Qed.

Lemma keep_matching_total filter out doc b :
  eval_filter doc filter = Ok b ->
  keep_matching filter out doc = Ok (if matching filter doc then out ++ [doc] else out).
Proof. intros H. unfold keep_matching, matching. by rewrite H. Qed.

(** The filter gives an answer on every document of the collection. *)
Definition answers (s : store) (filter : document) : Prop :=
  forall id doc, holds s id doc -> exists b, eval_filter doc filter = Ok b.

Lemma collection_scan_ok s filter :
  store_ok s -> well_keyed s -> answers s filter ->
  collect_collection_scan self s filter =
  Ok (List.filter (matching filter) (map (doc_at s) (map fst (table_rows s (coll_table self))))).
Proof.
  intros Hs Hw Ha. rewrite collection_scan_fold.
  rewrite (fold_keep _ (fun e => doc_at s (fst e)) filter); [by rewrite map_map|].
  intros out [k v] Hin. apply table_rows_In in Hin; [|done].
  destruct (Hw k v Hin) as (id & doc & -> & _ & Hd & _).
  assert (Hh : holds s id doc) by (by exists v). destruct (Ha _ _ Hh) as [b Hb].
  unfold add_row. cbn [fst snd]. rewrite Hd, (holds_doc_at _ _ _ Hh). simpl.
  by eapply keep_matching_total.
Qed.

Lemma entries_ok s spec filter (l : TableStore) :
  store_ok s -> well_keyed s -> agrees s spec -> answers s filter ->
  (forall e, In e l -> In e (table_rows s (index_table self (name spec)))) ->
  fold_result (add_entry self s filter) [] l =
  Ok (List.filter (matching filter) (map (doc_at s) (map snd l))).
Proof.
  intros Hs Hw Hg Ha Hl. rewrite (fold_keep _ (fun e => doc_at s (snd e)) filter); [by rewrite map_map|].
  intros out [key v] Hin. apply Hl, table_rows_In in Hin; [|done].
  apply Hg in Hin as (id & doc & Hh & _ & ->). cbn [snd]. rewrite (holds_doc_at _ _ _ Hh).
  destruct (Ha _ _ Hh) as [b Hb]. destruct Hh as (buf & Hbuf & Hd).
  destruct (Hw _ _ Hbuf) as (_ & _ & _ & Hu & _).
  unfold add_entry, from_utf8. cbn [snd]. rewrite Hu. unfold as_bytes at 1.
  rewrite string_of_list_byte_of_string. cbn. unfold fetch_doc_by_id_str, Storage.search, cursor. simpl.
  unfold tbl_get in Hbuf. destruct (bt_get s (coll_table self)) as [t|]; [|done]. simpl in Hbuf.
  rewrite Hbuf. unfold current_doc. simpl. rewrite Hd. simpl. by eapply keep_matching_total.
Qed.

(** The key a document of the collection has in an index. *)
Definition entry_at (s : store) (spec : IndexSpec) (k : bytes) : bytes :=
  btree_entry (doc_at s k) (string_of_list_byte k) spec.

Lemma holds_entry_at s spec id doc :
  holds s id doc -> entry_at s spec (as_bytes id) = btree_entry doc id spec.
Proof.
  intros H. unfold entry_at. rewrite (holds_doc_at _ _ _ H). unfold as_bytes.
  by rewrite string_of_list_byte_of_string.
Qed.

(** The ids the entries whose key passes a test point to are the keys of the documents
    whose entry passes it. *)
Lemma entries_permute s spec (q : bytes -> bool) :
  store_ok s -> well_keyed s -> agrees s spec ->
  Permutation
    (map snd (List.filter (fun e => q (fst e)) (table_rows s (index_table self (name spec)))))
    (List.filter (fun k => q (entry_at s spec k)) (map fst (table_rows s (coll_table self)))).
Proof.
  intros Hs Hw Hg.
  assert (Hkey : forall key v, In (key, v) (table_rows s (index_table self (name spec))) ->
    key = entry_at s spec v /\ In v (map fst (table_rows s (coll_table self)))).
  { intros key v Hin. apply table_rows_In in Hin; [|done].
    apply Hg in Hin as (id & doc & Hh & -> & ->). split; [symmetry; by apply holds_entry_at|].
    destruct Hh as (b & Hb & _). apply in_map_iff. exists (as_bytes id, b).
    split; [done|]. by apply table_rows_In. }
  apply Stdlib.Sorting.Permutation.NoDup_Permutation.
  - apply NoDup_map_NoDup_ForallPairs.
    + intros [k1 v1] [k2 v2] H1 H2 Heq. cbn [snd] in Heq. subst v2.
      apply List.filter_In in H1 as [H1 _], H2 as [H2 _].
      destruct (Hkey _ _ H1) as [-> _], (Hkey _ _ H2) as [-> _]. done.
    + apply List.NoDup_filter. apply (NoDup_map_inv fst). by apply NoDup_ListNoDup, table_rows_nodup.
  - apply List.NoDup_filter. by apply NoDup_ListNoDup, table_rows_nodup.
  - intros k. rewrite in_map_iff, List.filter_In. split.
    + intros ([key v] & <- & Hin). apply List.filter_In in Hin as [Hin Hp]. cbn [snd].
      destruct (Hkey _ _ Hin) as [-> Hv]. done.
    + intros [Hin Hp]. apply in_map_iff in Hin as ([k' b] & <- & Hin). cbn [fst] in *.
      apply table_rows_In in Hin; [|done]. destruct (Hw _ _ Hin) as (id & doc & -> & _ & Hd & _).
      assert (Hh : holds s id doc) by (by exists b).
      exists (btree_entry doc id spec, as_bytes id). split; [done|]. apply List.filter_In. split.
      * apply table_rows_In; [done|]. apply Hg. by exists id, doc.
      * cbn [fst]. by rewrite <- (holds_entry_at s).
Qed.

(** Every matching document has an index entry with the prefix. *)
Definition covered (s : store) (spec : IndexSpec) (filter : document) (p : bytes) : Prop :=
  forall id doc, holds s id doc -> eval_filter doc filter = Ok true ->
    bytes_prefix p (btree_entry doc id spec) = true.

Lemma seek_permutes s spec filter p :
  store_ok s -> well_keyed s -> agrees s spec -> answers s filter -> covered s spec filter p ->
  exists docs docs', collect_collection_scan self s filter = Ok docs /\
    seek_prefix self s filter (name spec) p = Ok docs' /\ Permutation docs' docs.
Proof.
  intros Hs Hw Hg Ha Hc. rewrite collection_scan_ok, seek_prefix_fold by done.
  rewrite (entries_ok s spec) by (done || apply incl_filter).
  eexists _, _. split; [done|]. split; [done|]. etransitivity.
  { apply perm_filter, Permutation_map, (entries_permute s spec (bytes_prefix p)); done. }
  assert (Hin : forall k, In k (map fst (table_rows s (coll_table self))) ->
    matching filter (doc_at s k) = true -> bytes_prefix p (entry_at s spec k) = true).
  { intros k Hin Hm. apply in_map_iff in Hin as ([k' b] & <- & Hin). cbn [fst] in *.
    apply table_rows_In in Hin; [|done]. destruct (Hw _ _ Hin) as (id & doc & -> & _ & Hd & _).
    assert (Hh : holds s id doc) by (by exists b). rewrite (holds_entry_at _ _ _ _ Hh).
    apply Hc; [done|]. rewrite (holds_doc_at _ _ _ Hh) in Hm. unfold matching in Hm.
    destruct (Ha _ _ Hh) as [b' Hb']. rewrite Hb' in *. by subst. }
  revert Hin. generalize (map fst (table_rows s (coll_table self))). intros l Hin.
  induction l as [|k l IH]; [done|]. simpl.
  destruct (bytes_prefix p (entry_at s spec k)) eqn:Ep.
  - simpl. destruct (matching filter (doc_at s k)); [apply perm_skip|]; apply IH; intros; apply Hin;
      try done; by right.
  - destruct (matching filter (doc_at s k)) eqn:Em.
    + by rewrite Hin in Ep; [|left|].
    + apply IH. intros; apply Hin; [by right|done].
Qed.

Lemma scan_permutes s spec filter :
  store_ok s -> well_keyed s -> agrees s spec -> answers s filter ->
  exists docs docs', collect_collection_scan self s filter = Ok docs /\
    collect_index_scan self s filter (name spec) = Ok docs' /\ Permutation docs' docs.
Proof.
  intros Hs Hw Hg Ha. destruct (seek_permutes s spec filter [] Hs Hw Hg Ha) as (d & d' & H1 & H2 & H3);
    [done|]. exists d, d'. split; [done|]. split; [|done]. rewrite <- H2.
  rewrite index_scan_fold, seek_prefix_fold by done. f_equal. symmetry.
  induction (table_rows s _) as [|e l IH]; [done|]. simpl. by rewrite IH.
Qed.

(** An index seek reads the same documents as the collection scan,
    provided every matching document has an entry with the seek prefix. *)
Theorem index_seek_permutes s spec filter seek_values :
  store_ok s -> well_keyed s -> agrees s spec -> answers s filter ->
  covered s spec filter (build_seek_prefix (keys spec) seek_values) ->
  exists docs docs', collect_collection_scan self s filter = Ok docs /\
    collect_index_seek self s filter (name spec) (keys spec) seek_values = Ok docs' /\
    Permutation docs' docs.
Proof. intros. by apply seek_permutes. Qed.
End Agreement.
