(* ===== verification/SearchIndexes.v ===== *)
(** * Bitmap and text indexes

    [src/rust/smongo-engine/src/index/bitmap_index.rs] and [text_index.rs]: the
    indexes a scan builds in memory for one query.  The bitmap index gives
    each document an ordinal position and each value the positions of its
    documents; the text index gives each token its documents, and a search
    the documents with all the tokens of the query, by score. *)

From Stdlib Require Import ZArith Lia Ascii String Strings.Byte Permutation Sorted.
From S2P Require Import Prelude F64 Bson RefBson Paths Geo Query Update BTree Schema Collation Expressions Accumulators.
From stdpp Require Import base tactics list strings gmap.

Open Scope string_scope.
Open Scope list_scope.

(** ** Bitmap index *)

Definition wrap_u32 (n : Z) : Z := (n mod 2 ^ 32)%Z.

(** Source: index/bitmap_index.rs:14-23 (BitmapIndex). *)
Record BitmapIndex : Type := {
  bitmaps : list (bytes * list Z); pos_to_id : list string; id_to_pos : gmap string Z; next_pos : Z }.

Module Bitmap.

(** Source: index/bitmap_index.rs:26-33 (BitmapIndex::new). *)
Definition new : BitmapIndex := {| bitmaps := []; pos_to_id := []; id_to_pos := ∅; next_pos := 0 |}.

(** [v.resize(n, String::new())], when [n] is the longer. *)
Definition grow (n : nat) (l : list string) : list string := l ++ repeat "" (n - length l).

(** Source: index/bitmap_index.rs:47-58 (BitmapIndex::insert). The position of a document, given out
    if it has none. *)
Definition position_of (idx : BitmapIndex) (doc_id : string) : BitmapIndex * Z :=
  match id_to_pos idx !! doc_id with
  | Some existing => (idx, existing)
  | None =>
      let p := next_pos idx in
      let table := if (Z.of_nat (length (pos_to_id idx)) <=? p)%Z then grow (Z.to_nat p + 1) (pos_to_id idx)
                   else pos_to_id idx in
      ({| bitmaps := bitmaps idx; pos_to_id := <[Z.to_nat p := doc_id]> table;
          id_to_pos := <[doc_id := p]> (id_to_pos idx); next_pos := wrap_u32 (p + 1) |}, p)
  end.

(** Source: index/bitmap_index.rs:45-62 (BitmapIndex::insert). *)
Definition insert (idx : BitmapIndex) (doc_id : string) (value_bytes : bytes) : BitmapIndex :=
  let '(idx, pos) := position_of idx doc_id in
  let old := match bt_get (bitmaps idx) value_bytes with Some l => l | None => [] end in
  {| bitmaps := bt_insert (bitmaps idx) value_bytes (old ++ [pos]); pos_to_id := pos_to_id idx;
     id_to_pos := id_to_pos idx; next_pos := next_pos idx |}.

(** Source: index/bitmap_index.rs:36-42 (BitmapIndex::build). *)
Definition build (entries : list (bytes * string)) : BitmapIndex :=
  fold_left (fun idx '(value_bytes, doc_id) => insert idx doc_id value_bytes) entries new.

(** Source: index/bitmap_index.rs:65-75 (BitmapIndex::remove). *)
Definition remove (idx : BitmapIndex) (doc_id : string) : BitmapIndex :=
  match id_to_pos idx !! doc_id with
  | None => idx
  | Some pos =>
      {| bitmaps := map (fun '(v, ps) => (v, List.filter (fun p => negb (p =? pos)%Z) ps)) (bitmaps idx);
         pos_to_id := <[Z.to_nat pos := ""]> (pos_to_id idx);
         id_to_pos := delete doc_id (id_to_pos idx); next_pos := next_pos idx |}
  end.

(** Source: index/bitmap_index.rs:78-80 (BitmapIndex::lookup). *)
Definition lookup (idx : BitmapIndex) (value_bytes : bytes) : list Z :=
  match bt_get (bitmaps idx) value_bytes with Some l => l | None => [] end.

(** [v.dedup()]: of equal neighbours, the first. *)
Fixpoint dedup (l : list Z) : list Z :=
  match l with
  | [] => []
  | x :: l' => x :: match dedup l' with
                    | y :: r => if (x =? y)%Z then r else y :: r
                    | [] => []
                    end
  end.

(** [v.sort_unstable(); v.dedup()]. *)
Definition sort_dedup (l : list Z) : list Z := dedup (sort_by Z.compare l).

(** Source: index/bitmap_index.rs:83-93 (BitmapIndex::lookup_in). *)
Definition lookup_in (idx : BitmapIndex) (values : list bytes) : list Z :=
  sort_dedup (concat (map (lookup idx) values)).

(** Source: index/bitmap_index.rs:96-107 (BitmapIndex::lookup_range). *)
Definition lookup_range (idx : BitmapIndex) (min max : option bytes) : list Z :=
  let above k := match min with Some m => negb (cmp_eqb (bytes_cmp k m) Lt) | None => true end in
  let below k := match max with Some m => negb (cmp_eqb (bytes_cmp k m) Gt) | None => true end in
  sort_dedup (concat (map snd (List.filter (fun e => above (fst e) && below (fst e)) (bitmaps idx)))).

(** Source: index/bitmap_index.rs:110-113 (BitmapIndex::and). *)
Definition and (a b : list Z) : list Z := List.filter (fun p => existsb (Z.eqb p) a) b.

(** Source: index/bitmap_index.rs:116-122 (BitmapIndex::or). *)
Definition or (a b : list Z) : list Z := sort_dedup (a ++ b).

(** Source: index/bitmap_index.rs:125-135 (BitmapIndex::positions_to_ids). *)
Definition positions_to_ids (idx : BitmapIndex) (positions : list Z) : list string :=
  omap (fun p => match pos_to_id idx !! Z.to_nat p with
                 | Some s => if s =s? "" then None else Some s
                 | None => None
                 end) positions.

(** *** What the index holds *)

(** The index of a list of entries, before the positions run out. *)
Record holds (entries : list (bytes * string)) (idx : BitmapIndex) : Prop := {
  h_sorted : bt_ok (bitmaps idx);
  h_next : next_pos idx = Z.of_nat (length (pos_to_id idx));
  h_size : (length (pos_to_id idx) <= length entries)%nat;
  h_pos : forall id p, id_to_pos idx !! id = Some p ->
    (0 <= p)%Z /\ pos_to_id idx !! Z.to_nat p = Some id;
  h_ids : forall n id, pos_to_id idx !! n = Some id -> id_to_pos idx !! id = Some (Z.of_nat n);
  h_lookup : forall v, map (fun p => pos_to_id idx !! Z.to_nat p) (lookup idx v) =
    map (fun e => Some (snd e)) (List.filter (fun e => cmp_eqb (bytes_cmp (fst e) v) Eq) entries) }.

Lemma holds_new : holds [] new.
Proof.
  split; [constructor|done|done|..]; [|by intros [|n] id|done].
  intros id p. cbn [new id_to_pos]. by rewrite lookup_empty.
Qed.

Lemma position_of_holds entries idx id idx' p :
  (Z.of_nat (length entries) < 2 ^ 32 - 1)%Z -> holds entries idx -> position_of idx id = (idx', p) ->
  bitmaps idx' = bitmaps idx /\ next_pos idx' = Z.of_nat (length (pos_to_id idx')) /\
  (length (pos_to_id idx') <= S (length entries))%nat /\
  (forall id p, id_to_pos idx' !! id = Some p -> (0 <= p)%Z /\ pos_to_id idx' !! Z.to_nat p = Some id) /\
  (forall n id, pos_to_id idx' !! n = Some id -> id_to_pos idx' !! id = Some (Z.of_nat n)) /\
  (forall n x, pos_to_id idx !! n = Some x -> pos_to_id idx' !! n = Some x) /\
  (0 <= p)%Z /\ pos_to_id idx' !! Z.to_nat p = Some id.
Proof.
  intros Hn [Hs Hnx Hsz Hpos Hids _] H. unfold position_of in H. destruct (id_to_pos idx !! id) as [q|] eqn:Eq.
  { injection H as <- <-. destruct (Hpos _ _ Eq). split_and!; try done. lia. }
  rewrite Hnx in H. rewrite Z.leb_refl, Nat2Z.id in H. unfold grow in H.
  replace (length (pos_to_id idx) + 1 - length (pos_to_id idx))%nat with 1%nat in H by lia. cbn [repeat] in H.
  rewrite insert_app_r_alt, Nat.sub_diag in H by lia. cbn [list_insert base.insert] in H. injection H as <- <-.
  cbn [bitmaps pos_to_id id_to_pos next_pos]. rewrite Nat2Z.id.
  assert (Hlast : (pos_to_id idx ++ [id]) !! length (pos_to_id idx) = Some id) by (by rewrite lookup_app_r, Nat.sub_diag).
  split_and!; try done.
  - rewrite length_app. unfold wrap_u32. rewrite Z.mod_small by (simpl; lia). simpl. lia.
  - rewrite length_app. simpl. lia.
  - intros id' p' H. apply lookup_insert_Some in H as [[<- <-]|[_ H]]; [split; [lia|by rewrite Nat2Z.id]|].
    destruct (Hpos _ _ H). split; [done|]. by apply lookup_app_l_Some.
  - intros n x Hx. apply lookup_app_Some in Hx as [Hx|[Hge Hx]].
    + rewrite lookup_insert_ne; [by apply Hids|]. intros <-. by rewrite (Hids _ _ Hx) in Eq.
    + apply list_lookup_singleton_Some in Hx as [Hz <-]. rewrite lookup_insert_eq. f_equal. lia.
  - intros n x Hx. by apply lookup_app_l_Some.
  - lia.
Qed.

Lemma lookup_set m v v' l pos_ids :
  bt_ok m -> lookup {| bitmaps := bt_insert m v l; pos_to_id := pos_ids; id_to_pos := ∅; next_pos := 0 |} v' =
  if cmp_eqb (bytes_cmp v v') Eq then l else match bt_get m v' with Some l => l | None => [] end.
Proof.
  intros Hm. unfold lookup. cbn [bitmaps]. destruct (bytes_cmp v v') eqn:E; cbn [cmp_eqb].
  - apply bytes_cmp_eq in E as <-. by rewrite bt_get_insert_eq.
  - rewrite bt_get_insert_ne; [done|done|]. intros ->. by rewrite (proj2 (bytes_cmp_eq v v)) in E.
  - rewrite bt_get_insert_ne; [done|done|]. intros ->. by rewrite (proj2 (bytes_cmp_eq v v)) in E.
Qed.

Lemma holds_insert entries idx v id :
  (Z.of_nat (length entries) < 2 ^ 32 - 1)%Z -> holds entries idx -> holds (entries ++ [(v, id)]) (insert idx id v).
Proof.
  intros Hn Hh. unfold insert. destruct (position_of idx id) as [idx' p] eqn:Ep.
  destruct (position_of_holds entries idx id idx' p Hn Hh Ep) as (Hb & Hnx & Hsz & Hpos & Hids & Hext & Hp0 & Hp).
  split; cbn [bitmaps pos_to_id id_to_pos next_pos]; try done.
  - rewrite Hb. apply bt_insert_ok, Hh.
  - rewrite length_app. simpl. lia.
  - intros v'. rewrite Hb. change (lookup _ v') with (lookup {| bitmaps := bt_insert (bitmaps idx) v
      (lookup idx v ++ [p]); pos_to_id := pos_to_id idx'; id_to_pos := ∅; next_pos := 0 |} v').
    rewrite lookup_set by apply Hh. rewrite List.filter_app, map_app. cbn [List.filter fst]. fold (lookup idx v').
    assert (Hold : forall w, map (fun p => pos_to_id idx' !! Z.to_nat p) (lookup idx w) =
      map (fun e => Some (snd e)) (List.filter (fun e => cmp_eqb (bytes_cmp (fst e) w) Eq) entries)).
    { intros w. pose proof (h_lookup _ _ Hh w) as Hl. rewrite <- Hl. apply map_ext_in. intros q Hq.
      assert (Hin : In (pos_to_id idx !! Z.to_nat q) (map (fun p => pos_to_id idx !! Z.to_nat p) (lookup idx w)))
        by (by apply (in_map (fun p => pos_to_id idx !! Z.to_nat p))).
      rewrite Hl in Hin. apply in_map_iff in Hin as (e & He & _). rewrite <- He. by apply Hext. }
    destruct (bytes_cmp v v') eqn:E; cbn [cmp_eqb map].
    + apply bytes_cmp_eq in E as <-. rewrite map_app, Hold. cbn [map]. by rewrite Hp.
    + rewrite app_nil_r. apply Hold.
    + rewrite app_nil_r. apply Hold.
Qed.

Lemma build_holds entries : (Z.of_nat (length entries) < 2 ^ 32)%Z -> holds entries (build entries).
Proof.
  unfold build. induction entries as [|[v id] entries IH] using rev_ind; intros Hn; [apply holds_new|].
  rewrite fold_left_app. cbn [fold_left]. rewrite length_app in Hn. simpl in Hn. apply holds_insert; [lia|]. apply IH. lia.
Qed.

Lemma ids_of_positions idx positions ids :
  map (fun p => pos_to_id idx !! Z.to_nat p) positions = map Some ids -> Forall (fun id => id <> "") ids ->
  positions_to_ids idx positions = ids.
Proof.
  revert ids. induction positions as [|p ps IH]; intros [|id ids] H Hne; try done. injection H as Hp H.
  inversion_clear Hne as [|? ? Hid Hne']. unfold positions_to_ids. cbn [omap list_omap]. rewrite Hp.
  rewrite (proj2 (String.eqb_neq _ _) Hid). f_equal. by apply IH.
Qed.

(** The bitmap index built from the entries of a table maps a value to the
    documents stored under it, in the order of the entries. *)
Theorem bitmap_lookup_finds entries v :
  (Z.of_nat (length entries) < 2 ^ 32)%Z -> Forall (fun e => snd e <> "") entries ->
  positions_to_ids (build entries) (lookup (build entries) v) =
  map snd (List.filter (fun e => cmp_eqb (bytes_cmp (fst e) v) Eq) entries).
Proof.
  intros Hn Hne. apply ids_of_positions.
  - rewrite (h_lookup _ _ (build_holds entries Hn)), map_map. done.
  - apply List.Forall_forall. intros id Hid. apply in_map_iff in Hid as (e & <- & He).
    apply List.filter_In in He as [He _]. rewrite List.Forall_forall in Hne. by apply Hne.
Qed.

(** *** Sets of positions *)

Lemma dedup_In l x : In x (dedup l) <-> In x l.
Proof.
  induction l as [|y l IH]; [done|]. cbn [dedup In]. rewrite <- IH. destruct (dedup l) as [|z r]; [done|].
  destruct (Z.eqb_spec y z) as [->|]; simpl; tauto.
Qed.

Lemma dedup_sorted l : StronglySorted Z.le l -> StronglySorted Z.lt (dedup l).
Proof.
  induction 1 as [|x l Hs IH Hx]; [constructor|]. cbn [dedup].
  assert (Hlt : forall y r, dedup l = y :: r -> y <> x -> Forall (Z.lt x) (y :: r)).
  { intros y r E Hne. rewrite E in IH. apply StronglySorted_inv in IH as [_ Hy]. rewrite List.Forall_forall in *.
    assert (Hxy : (x < y)%Z) by (assert (x <= y)%Z by (apply Hx, dedup_In; rewrite E; by left); lia).
    intros z [<-|Hz]; [done|]. specialize (Hy z Hz). lia. }
  destruct (dedup l) as [|y r] eqn:E; [repeat constructor|]. apply StronglySorted_inv in IH as IHr.
  destruct (Z.eqb_spec x y) as [->|Hne].
  - destruct IHr as [Hr Hy]. by constructor.
  - constructor; [done|]. by apply Hlt.
Qed.

Lemma sort_dedup_spec l : StronglySorted Z.lt (sort_dedup l) /\ forall x, In x (sort_dedup l) <-> In x l.
Proof.
  unfold sort_dedup. split.
  - apply dedup_sorted. assert (TP : TotalPreorder (fun _ => True) Z.compare).
    { split; intros; [apply Z.compare_refl|by rewrite Z.compare_antisym|]. rewrite !Z.compare_ngt_iff in *. lia. }
    pose proof (sort_by_sorted (fun _ => True) Z.compare l TP ltac:(by apply List.Forall_forall)) as H.
    unfold sorted_by in H. clear TP. induction H as [|x l' _ IH Hx]; constructor; [done|]. rewrite List.Forall_forall in *.
    intros y Hy. specialize (Hx y Hy). by apply Z.nlt_ge, Z.compare_ngt_iff.
  - intros x. rewrite dedup_In. split; intros H; (eapply Permutation_in; [|exact H]); [symmetry|]; apply sort_by_perm.
Qed.

(** [lookup_in], [lookup_range] and [or] are strictly increasing lists of positions: those
    of one of the values, of a value in the range, and of one of the two sets;
    [and] keeps the positions in both. *)
Theorem position_sets idx values min max a b :
  (StronglySorted Z.lt (lookup_in idx values) /\
   forall p, In p (lookup_in idx values) <-> exists v, In v values /\ In p (lookup idx v)) /\
  StronglySorted Z.lt (lookup_range idx min max) /\
  (StronglySorted Z.lt (or a b) /\ forall p, In p (or a b) <-> In p a \/ In p b) /\
  (forall p, In p (and a b) <-> In p a /\ In p b).
Proof.
  split_and!; try apply sort_dedup_spec.
  - intros p. unfold lookup_in. rewrite (proj2 (sort_dedup_spec _)), in_concat. split.
    + intros (l & Hl & Hp). apply in_map_iff in Hl as (v & <- & Hv). eauto.
    + intros (v & Hv & Hp). exists (lookup idx v). split; [by apply in_map|done].
  - intros p. unfold or. by rewrite (proj2 (sort_dedup_spec _)), in_app_iff.
  - intros p. unfold and. rewrite List.filter_In, existsb_exists. split.
    + intros [Hb (q & Hq & E)]. apply Z.eqb_eq in E as ->. done.
    + intros [Ha Hb]. split; [done|]. exists p. split; [done|apply Z.eqb_refl].
Qed.
End Bitmap.

(** ** Witness *)

Lemma bitmap_lookup_finds_witness :
  Bitmap.positions_to_ids (Bitmap.build [([x61], "1"); ([x62], "2"); ([x61], "3")])
    (Bitmap.lookup (Bitmap.build [([x61], "1"); ([x62], "2"); ([x61], "3")]) [x61]) = ["1"; "3"].
Proof.
  rewrite (Bitmap.bitmap_lookup_finds [([x61], "1"); ([x62], "2"); ([x61], "3")] [x61]).
  - reflexivity.
  - vm_compute. reflexivity.
  - repeat constructor; discriminate.
Defined.
