(* ===== verification/TextIndex.v ===== *)
(** * The text index

    [src/rust/smongo-engine/src/index/text_index.rs]: the inverted index a
    [$text] query builds in memory, from the tokens of the text fields to the
    documents that hold them, its search by conjunction of tokens, and its
    form in bytes.  A search finds exactly the documents with every token of
    the query; an index read back from its bytes is the index written.

    The natural logarithm of the scores is a parameter. *)

From Stdlib Require Import ZArith Lia Ascii String Strings.Byte Permutation Sorted.
From S2P Require Import Prelude F64 Bson RefBson Paths Geo Query Update BTree Storage IndexKey.
From S2P Require Import Planner Schema Collation Expressions Accumulators Oplog Collection Exec SearchIndexes.
From stdpp Require Import base tactics list strings gmap.

Open Scope string_scope.
Open Scope list_scope.

(** Source: index/text_index.rs:39-42 (Posting). *)
Record Posting : Type := { doc_id : string; tf : Z }.

(** Source: index/text_index.rs:45-54 (TextIndex). *)
Record TextIndex : Type := {
  postings : gmap string (list Posting);
  doc_count : Z;
  fields : list string;
  weights : gmap string f64 }.

(** [std::collections::HashMap]: the value of a key or a default. *)
Definition get_or {V} (d : V) (m : gmap string V) (k : string) : V :=
  match m !! k with Some v => v | None => d end.

Module Text.
Section Text.
Context {B : BsonOps} {T : TextEnv} {E : CollEnv} {SE : StdEnv} {Ln : LnOps}.

(** Source: index/text_index.rs:57-70 (TextIndex::new). *)
Definition new (fields : list string) (wdoc : option document) : TextIndex :=
  let w := match wdoc with
           | Some d => fold_left (fun w '(k, v) =>
               <[k := match as_f64 v with Some x => x | None => f64_one end]> w) d ∅
           | None => ∅
           end in
  {| postings := ∅; doc_count := 0; fields := fields; weights := w |}.

(** Source: index/text_index.rs:83-89 (TextIndex::insert_doc). *)
Definition text_id (doc : document) : option string :=
  match doc_get doc "_id" with
  | Some (BObjectId oid) => Some (oid_to_hex oid)
  | Some (BString s) => Some s
  | Some (BInt32 i) | Some (BInt64 i) => Some (Z_to_string i)
  | _ => None
  end.

(** [weight.max(1.0) as u32]. *)
Definition weight_units (weight : f64) : Z :=
  f64_as_int 0 (2 ^ 32 - 1) (if f64_is_nan weight then f64_one
                             else if f64_ltb f64_one weight then weight else f64_one).

(** Source: index/text_index.rs:91-98 (TextIndex::insert_doc). The tokens of a field, counted. *)
Definition count_field (idx : TextIndex) (doc : document) (counts : gmap string Z) (field : string)
  : gmap string Z :=
  let weight := get_or f64_one (weights idx) field in
  match get_value doc field with
  | Some (BString text) =>
      fold_left (fun counts token =>
        <[token := wrap_u32 (get_or 0%Z counts token + weight_units weight)]> counts)
        (tokenize text) counts
  | _ => counts
  end.

(** Source: index/text_index.rs:90-98 (TextIndex::insert_doc). *)
Definition term_counts (idx : TextIndex) (doc : document) : gmap string Z :=
  fold_left (count_field idx doc) (fields idx) ∅.

Definition push_posting (id : string) (m : gmap string (list Posting)) (e : string * Z)
  : gmap string (list Posting) :=
  let '(token, tf) := e in <[token := get_or [] m token ++ [{| doc_id := id; tf := tf |}]]> m.

(** Source: index/text_index.rs:82-106 (TextIndex::insert_doc). *)
Definition insert_doc (idx : TextIndex) (doc : document) : TextIndex :=
  match text_id doc with
  | None => idx
  | Some id =>
      {| postings := fold_left (push_posting id)
           (hash_order (map_to_list (term_counts idx doc))) (postings idx);
         doc_count := doc_count idx + 1; fields := fields idx; weights := weights idx |}
  end.

(** Source: index/text_index.rs:73-79 (TextIndex::build). *)
Definition build (docs : list document) (fields : list string) (wdoc : option document) : TextIndex :=
  fold_left insert_doc docs (new fields wdoc).

(** Source: index/text_index.rs:109-116 (TextIndex::remove_doc). *)
Definition remove_doc (idx : TextIndex) (id : string) : TextIndex :=
  {| postings := (fun ps => List.filter (fun p => negb (doc_id p =s? id)) ps) <$> postings idx;
     doc_count := if (0 <? doc_count idx)%Z then doc_count idx - 1 else doc_count idx;
     fields := fields idx; weights := weights idx |}.

(** The maps [doc_scores] and [doc_token_hits]. *)
Record hits : Type := { doc_scores : gmap string f64; doc_token_hits : gmap string nat }.

(** Source: index/text_index.rs:134-138 (TextIndex::search). *)
Definition hit (idf : f64) (h : hits) (posting : Posting) : hits :=
  let tf := f64_add f64_one (f64_ln (f64_of_Z (tf posting))) in
  let id := doc_id posting in
  {| doc_scores := <[id := f64_add (get_or f64_zero (doc_scores h) id) (f64_mul tf idf)]> (doc_scores h);
     doc_token_hits := <[id := S (get_or O (doc_token_hits h) id)]> (doc_token_hits h) |}.

(** Source: index/text_index.rs:130-140 (TextIndex::search). *)
Definition score_token (idx : TextIndex) (h : hits) (token : string) : hits :=
  let n := f64_of_Z (Z.max (doc_count idx) 1) in
  match postings idx !! token with
  | Some ps =>
      let df := f64_of_Z (Z.of_nat (length ps)) in
      let idf := f64_add (f64_ln (f64_div n df)) f64_one in
      fold_left (hit idf) ps h
  | None => h
  end.

(** Source: index/text_index.rs:120-153 (TextIndex::search). *)
Definition search (idx : TextIndex) (query : string) (limit : option nat) : list (string * f64) :=
  match tokenize query with
  | [] => []
  | tokens =>
      let h := fold_left (score_token idx) tokens {| doc_scores := ∅; doc_token_hits := ∅ |} in
      let required := length tokens in
      let kept := List.filter (fun '(id, _) => (required <=? get_or O (doc_token_hits h) id)%nat)
                    (hash_order (map_to_list (doc_scores h))) in
      let sorted := sort_by (fun a b => f64_cmp_or_eq (snd b) (snd a)) kept in
      match limit with Some lim => take lim sorted | None => sorted end
  end.

(** Source: index/text_index.rs:159-161 (TextIndex::token_count). *)
Definition token_count (idx : TextIndex) : Z := Z.of_nat (size (postings idx)).

(** ** The form in bytes *)

(** [(n as u32).to_le_bytes()]. *)
Definition u32_le (n : Z) : bytes := rev (be_bytes 4 n).
Definition put_str (s : string) : bytes := u32_le (Z.of_nat (length (as_bytes s))) ++ as_bytes s.
Definition put_posting (p : Posting) : bytes := put_str (doc_id p) ++ u32_le (tf p).
Definition put_token (e : string * list Posting) : bytes :=
  put_str (fst e) ++ u32_le (Z.of_nat (length (snd e))) ++ flat_map put_posting (snd e).

(** Source: index/text_index.rs:170-196 (TextIndex::to_bytes). *)
Definition to_bytes (idx : TextIndex) : bytes :=
  u32_le (Z.of_nat (length (fields idx))) ++ flat_map put_str (fields idx) ++
  u32_le (doc_count idx) ++
  u32_le (Z.of_nat (size (postings idx))) ++ flat_map put_token (hash_order (map_to_list (postings idx))).

(** The readers of [from_bytes]: what is read, and the bytes after it. *)
Definition reader (A : Type) : Type := bytes -> option (A * bytes).

(** Source: index/text_index.rs:203-210 (TextIndex::from_bytes). The closure [read_u32]. *)
Definition read_u32 : reader Z := fun data =>
  if (length data <? 4)%nat then None
  else Some (be_value (rev (take 4 data)), drop 4 data).

(** Source: index/text_index.rs:211-221 (TextIndex::from_bytes). The closure [read_str]. *)
Definition read_str : reader string := fun data =>
  match read_u32 data with
  | None => None
  | Some (len, data) =>
      let len := Z.to_nat len in
      if (length data <? len)%nat then None
      else if utf8_valid (take len data) then Some (string_of_list_byte (take len data), drop len data)
      else None
  end.

(** [for _ in 0..n { v.push(read(..)?) }]. *)
Fixpoint read_times {A} (n : nat) (read : reader A) : reader (list A) := fun data =>
  match n with
  | O => Some ([], data)
  | S n' =>
      match read data with
      | None => None
      | Some (x, data) =>
          match read_times n' read data with
          | None => None
          | Some (xs, data) => Some (x :: xs, data)
          end
      end
  end.

Definition counted {A} (read : reader A) : reader (list A) := fun data =>
  match read_u32 data with
  | None => None
  | Some (n, data) => read_times (Z.to_nat n) read data
  end.

(** Source: index/text_index.rs:235-239 (TextIndex::from_bytes). *)
Definition read_posting : reader Posting := fun data =>
  match read_str data with
  | None => None
  | Some (id, data) =>
      match read_u32 data with
      | None => None
      | Some (n, data) => Some ({| doc_id := id; tf := n |}, data)
      end
  end.

(** Source: index/text_index.rs:231-240 (TextIndex::from_bytes). *)
Definition read_token : reader (string * list Posting) := fun data =>
  match read_str data with
  | None => None
  | Some (token, data) =>
      match counted read_posting data with
      | None => None
      | Some (posts, data) => Some ((token, posts), data)
      end
  end.

(** Source: index/text_index.rs:199-246 (TextIndex::from_bytes). *)
Definition from_bytes (data : bytes) : option TextIndex :=
  match counted read_str data with
  | None => None
  | Some (fields, data) =>
      match read_u32 data with
      | None => None
      | Some (doc_count, data) =>
          match counted read_token data with
          | None => None
          | Some (posts, _) =>
              Some {| postings := fold_left (fun m '(token, ps) => <[token := ps]> m) posts ∅;
                      doc_count := doc_count; fields := fields; weights := ∅ |}
          end
      end
  end.
End Text.

(** ** What a search finds *)

Section Finds.
Context {B : BsonOps} {T : TextEnv} {E : CollEnv} {SE : StdEnv} {SL : StdLaws SE} {Ln : LnOps}.

(** The tokens of the indexed fields of a document. *)
Definition tokens_of (fields : list string) (doc : document) : list string :=
  flat_map (fun field => match get_value doc field with
                         | Some (BString text) => tokenize text
                         | _ => []
                         end) fields.

Definition has_token (fields : list string) (t : string) (doc : document) : bool :=
  existsb (String.eqb t) (tokens_of fields doc).

(** The identifiers of the documents that satisfy [f]. *)
Definition ids_where (f : document -> bool) (docs : list document) : list string :=
  omap (fun d => if f d then text_id d else None) docs.

Lemma existsb_eqb_In t l : existsb (String.eqb t) l = true <-> In t l.
Proof.
  rewrite existsb_exists. split; [by intros (x & Hx & ->%String.eqb_eq)|].
  intros H. exists t. by rewrite String.eqb_refl.
Qed.

Lemma count_tokens_dom w l (counts : gmap string Z) t :
  is_Some (fold_left (fun counts token => <[token := wrap_u32 (get_or 0%Z counts token + w)]> counts) l counts !! t)
  <-> In t l \/ is_Some (counts !! t).
Proof.
  revert counts. induction l as [|x l IH]; intros counts; simpl; [tauto|]. rewrite IH.
  destruct (decide (x = t)) as [->|]; [rewrite lookup_insert_eq|rewrite lookup_insert_ne by done]; [|tauto].
  split; [tauto|]. intros _. right. by eexists.
Qed.

Lemma term_counts_dom idx doc t :
  is_Some (term_counts idx doc !! t) <-> In t (tokens_of (fields idx) doc).
Proof.
  assert (H : forall fs m, is_Some (fold_left (count_field idx doc) fs m !! t) <->
    In t (tokens_of fs doc) \/ is_Some (m !! t)).
  { induction fs as [|f fs IH]; intros m; simpl; [tauto|]. rewrite IH. unfold count_field.
    rewrite in_app_iff. destruct (get_value doc f) as [[]|]; try (simpl; tauto).
    rewrite count_tokens_dom. tauto. }
  unfold term_counts. rewrite H, lookup_empty. split; [by intros [?|[]]|by left].
Qed.

Lemma push_postings_at id l m t :
  map doc_id (get_or [] (fold_left (push_posting id) l m) t) =
  map doc_id (get_or [] m t) ++ map (fun _ => id) (List.filter (fun e => fst e =s? t) l).
Proof.
  revert m. induction l as [|[x n] l IH]; intros m; simpl; [by rewrite app_nil_r|]. rewrite IH.
  unfold get_or. destruct (String.eqb_spec x t) as [->|].
  - rewrite lookup_insert_eq, map_app, <- app_assoc. done.
  - by rewrite lookup_insert_ne.
Qed.

(** The entry of a key among the entries of a map, in any order. *)
Lemma entries_of_key {V} (m : gmap string V) t l :
  Permutation l (map_to_list m) ->
  List.filter (fun e => fst e =s? t) l = match m !! t with Some v => [(t, v)] | None => [] end.
Proof.
  intros Hp. assert (Hnd : NoDup l.*1) by (rewrite Hp; apply NoDup_fst_map_to_list).
  assert (Hin : forall k v, In (k, v) l <-> m !! k = Some v).
  { intros k v. rewrite <- elem_of_map_to_list, list_elem_of_In. split; apply Permutation_in; by symmetry. }
  clear Hp. assert (Hf : forall e, In e (List.filter (fun e => fst e =s? t) l) <-> fst e = t /\ In e l).
  { intros e. rewrite List.filter_In, String.eqb_eq. tauto. }
  assert (Hn : NoDup (List.filter (fun e => fst e =s? t) l).*1).
  { clear Hf Hin. induction l as [|e l IH]; [done|]. apply NoDup_cons in Hnd as [H1 H2]. simpl.
    destruct (fst e =s? t); [|by apply IH]. apply NoDup_cons. split; [|by apply IH].
    intros H. apply H1. apply list_elem_of_fmap in H as (e' & He & H). apply list_elem_of_In, List.filter_In in H as [H _].
    rewrite He. by apply list_elem_of_fmap_2, list_elem_of_In. }
  destruct (List.filter _ l) as [|e [|e' r]].
  - destruct (m !! t) as [v|] eqn:Em; [|done]. apply Hin in Em. by destruct (proj2 (Hf (t, v)) (conj eq_refl Em)).
  - destruct (proj1 (Hf e) (or_introl eq_refl)) as [<- He]. destruct e as [k v]. apply Hin in He. simpl. by rewrite He.
  - destruct (proj1 (Hf e) (or_introl eq_refl)) as [<- _].
    destruct (proj1 (Hf e') (or_intror (or_introl eq_refl))) as [He' _]. apply NoDup_cons in Hn as [[] _].
    rewrite <- He'. left.
Qed.

Lemma insert_doc_fields idx doc : fields (insert_doc idx doc) = fields idx.
Proof. unfold insert_doc. by destruct (text_id doc). Qed.

Lemma insert_doc_at idx doc t :
  map doc_id (get_or [] (postings (insert_doc idx doc)) t) =
  map doc_id (get_or [] (postings idx) t) ++ ids_where (has_token (fields idx) t) [doc].
Proof.
  unfold insert_doc, ids_where. cbn [omap list_omap]. destruct (text_id doc) as [id|];
    [|by destruct (has_token _ t doc); rewrite app_nil_r].
  cbn [postings]. rewrite push_postings_at. f_equal.
  rewrite (entries_of_key (term_counts idx doc)) by apply hash_order_perm.
  pose proof (term_counts_dom idx doc t) as Hd. unfold has_token.
  destruct (existsb (String.eqb t) _) eqn:Eh.
  - apply existsb_eqb_In, Hd in Eh as [n ->]. done.
  - destruct (term_counts idx doc !! t) eqn:Et; [|done].
    rewrite (proj2 (existsb_eqb_In _ _)) in Eh; [done|]. apply Hd. by eexists.
Qed.

Lemma build_at docs fs w t :
  fields (build docs fs w) = fs /\
  map doc_id (get_or [] (postings (build docs fs w)) t) = ids_where (has_token fs t) docs.
Proof.
  unfold build. induction docs as [|d docs [IHf IH]] using rev_ind; [done|].
  rewrite fold_left_app. cbn [fold_left]. rewrite insert_doc_fields, insert_doc_at, IHf, IH.
  split; [done|]. unfold ids_where. by rewrite omap_app.
Qed.

Definition occurrences (id : string) (l : list string) : nat := length (List.filter (String.eqb id) l).

Lemma hits_at idf ps h id :
  get_or O (doc_token_hits (fold_left (hit idf) ps h)) id =
  (get_or O (doc_token_hits h) id + occurrences id (map doc_id ps))%nat /\
  (is_Some (doc_scores (fold_left (hit idf) ps h) !! id) <-> is_Some (doc_scores h !! id) \/ In id (map doc_id ps)).
Proof.
  revert h. induction ps as [|p ps IH]; intros h; simpl; [split; [unfold occurrences; simpl; lia|tauto]|].
  destruct (IH (hit idf h p)) as [-> ->]. unfold occurrences. cbn [hit doc_token_hits doc_scores List.filter].
  unfold get_or. destruct (String.eqb_spec id (doc_id p)) as [->|].
  - rewrite !lookup_insert_eq. split; [simpl; lia|]. split; [tauto|]. intros _. left. by eexists.
  - rewrite !lookup_insert_ne by done. split; [done|]. split; [tauto|]. intros [?|[?|?]]; by eauto.
Qed.

Lemma score_tokens_at idx tokens h id :
  get_or O (doc_token_hits (fold_left (score_token idx) tokens h)) id =
  (get_or O (doc_token_hits h) id +
   list_sum (map (fun t => occurrences id (map doc_id (get_or [] (postings idx) t))) tokens))%nat /\
  (is_Some (doc_scores (fold_left (score_token idx) tokens h) !! id) <->
   is_Some (doc_scores h !! id) \/ exists t, In t tokens /\ In id (map doc_id (get_or [] (postings idx) t))).
Proof.
  revert h. induction tokens as [|t ts IH]; intros h; simpl; [split; [lia|]; split; [tauto|by intros [?|(t & [] & _)]]|].
  destruct (IH (score_token idx h t)) as [-> ->].
  assert (Hone : get_or O (doc_token_hits (score_token idx h t)) id =
      (get_or O (doc_token_hits h) id + occurrences id (map doc_id (get_or [] (postings idx) t)))%nat /\
    (is_Some (doc_scores (score_token idx h t) !! id) <->
      is_Some (doc_scores h !! id) \/ In id (map doc_id (get_or [] (postings idx) t)))).
  { unfold score_token, get_or. fold (get_or (V:=nat)). destruct (postings idx !! t) as [ps|]; [apply hits_at|].
    split; [unfold occurrences; simpl; lia|simpl; tauto]. }
  destruct Hone as [-> ->]. split; [lia|]. split.
  - intros [[?|?]|(t' & ? & ?)]; eauto.
  - intros [?|(t' & [->|?] & ?)]; eauto.
Qed.

Lemma ids_where_nodup f docs : NoDup (omap text_id docs) -> NoDup (ids_where f docs).
Proof.
  intros Hnd. induction docs as [|d docs IH]; [constructor|]. unfold ids_where in *. cbn [omap list_omap] in *.
  destruct (text_id d) as [i|] eqn:Ei; [|by destruct (f d); apply IH].
  apply NoDup_cons in Hnd as [Hi Hnd]. destruct (f d); [|by apply IH]. apply NoDup_cons. split; [|by apply IH].
  intros Hin. apply Hi. apply list_elem_of_omap in Hin as (d' & Hd' & H). apply list_elem_of_omap. exists d'.
  split; [done|]. by destruct (f d').
Qed.

Lemma occurrences_le id f docs :
  NoDup (omap text_id docs) -> (occurrences id (ids_where f docs) <= 1)%nat.
Proof.
  intros Hnd. unfold occurrences. pose proof (ids_where_nodup f docs Hnd) as H.
  induction H as [|x l Hx Hl IH]; [simpl; lia|]. simpl. destruct (String.eqb_spec id x) as [->|]; [|lia].
  rewrite filter_none; [done|]. intros y Hy. apply String.eqb_neq. intros ->. by apply Hx, list_elem_of_In.
Qed.

Lemma occurrences_In id l : (1 <= occurrences id l)%nat <-> In id l.
Proof.
  unfold occurrences. induction l as [|x l IH]; simpl; [split; [lia|done]|].
  destruct (String.eqb_spec id x) as [->|]; simpl; [split; [by left|lia]|]. rewrite IH. split; [by right|].
  by intros [?|?].
Qed.

(** A sum of terms that are at most one. *)
Lemma full_sum {A} (f : A -> nat) l :
  (forall x, In x l -> f x <= 1)%nat -> (length l <= list_sum (map f l))%nat <-> forall x, In x l -> (1 <= f x)%nat.
Proof.
  induction l as [|x l IH]; intros H; simpl; [split; [done|lia]|].
  pose proof (H x (or_introl eq_refl)) as Hx.
  assert (Hs : (list_sum (map f l) <= length l)%nat).
  { clear IH. induction l as [|y l IH]; simpl; [lia|]. pose proof (H y ltac:(by right; left)).
    assert (list_sum (map f l) <= length l)%nat by (apply IH; intros z [->|Hz]; apply H; [by left|by right; right]). lia. }
  destruct (IH ltac:(intros; apply H; by right)) as [IH1 IH2]. split.
  - intros Hle y [->|Hy]; [lia|]. apply IH1; [lia|done].
  - intros Hall. pose proof (Hall x (or_introl eq_refl)). assert (length l <= list_sum (map f l))%nat; [|lia].
    apply IH2. intros; apply Hall; by right.
Qed.

Lemma same_text_id docs d d' id :
  NoDup (omap text_id docs) -> In d docs -> In d' docs -> text_id d = Some id -> text_id d' = Some id -> d = d'.
Proof.
  intros Hnd Hd Hd' Hid Hid'. induction docs as [|x docs IH]; [done|]. cbn [omap list_omap] in Hnd.
  assert (Hin : forall y, In y docs -> text_id y = Some id -> id ∈ omap text_id docs).
  { intros y Hy E'. apply list_elem_of_omap. exists y. by rewrite list_elem_of_In. }
  destruct Hd as [->|Hd], Hd' as [->|Hd']; [done| | |].
  - rewrite Hid in Hnd. apply NoDup_cons in Hnd as [[] _]. by eapply Hin.
  - rewrite Hid' in Hnd. apply NoDup_cons in Hnd as [[] _]. by eapply Hin.
  - apply IH; try done. destruct (text_id x); [by apply NoDup_cons in Hnd as [_ Hnd]|done].
Qed.

Lemma ids_where_all ts fs docs id :
  NoDup (omap text_id docs) -> ts <> [] ->
  In id (ids_where (fun d => forallb (fun t => has_token fs t d) ts) docs) <->
  forall t, In t ts -> In id (ids_where (has_token fs t) docs).
Proof.
  intros Hnd Hne. assert (Hmem : forall f, In id (ids_where f docs) <-> exists d, In d docs /\ f d = true /\ text_id d = Some id).
  { intros f. unfold ids_where. rewrite <- list_elem_of_In, list_elem_of_omap. split.
    - intros (d & Hd & H). exists d. apply list_elem_of_In in Hd. by destruct (f d).
    - intros (d & Hd & Hf & H). exists d. rewrite Hf, list_elem_of_In. done. }
  rewrite Hmem. setoid_rewrite Hmem. split.
  - intros (d & Hd & Hf & Hid) t Ht. exists d. rewrite forallb_forall in Hf. split_and!; [done|by apply Hf|done].
  - intros H. destruct ts as [|t0 ts]; [done|]. destruct (H t0 (or_introl eq_refl)) as (d & Hd & _ & Hid).
    exists d. split_and!; [done| |done]. apply forallb_forall. intros t Ht. destruct (H t Ht) as (d' & Hd' & Hf & Hid').
    by rewrite (same_text_id docs d d' id).
Qed.

(** A search without a limit finds exactly the documents of the index whose text
    fields hold every token of the query, each once. *)
Theorem text_search_finds docs fs w query :
  tokenize query <> [] -> NoDup (omap text_id docs) ->
  Permutation (map fst (search (build docs fs w) query None))
    (ids_where (fun d => forallb (fun t => has_token fs t d) (tokenize query)) docs).
Proof.
  intros Hq Hnd. unfold search. destruct (tokenize query) as [|t0 ts0] eqn:Et; [done|]. rewrite <- Et in *. clear t0 ts0 Et.
  set (idx := build docs fs w). set (h := fold_left _ _ _).
  assert (Hh : forall id, get_or O (doc_token_hits h) id =
      list_sum (map (fun t => occurrences id (ids_where (has_token fs t) docs)) (tokenize query)) /\
    (is_Some (doc_scores h !! id) <-> exists t, In t (tokenize query) /\ In id (ids_where (has_token fs t) docs))).
  { intros id. destruct (score_tokens_at idx (tokenize query) {| doc_scores := ∅; doc_token_hits := ∅ |} id) as [H1 H2].
    fold h in H1, H2. cbn [doc_scores doc_token_hits] in H1, H2. rewrite lookup_empty in H2. split.
    - rewrite H1. unfold get_or at 1. rewrite lookup_empty. cbn [Nat.add]. f_equal. apply map_ext. intros t. f_equal. apply build_at.
    - rewrite H2. unfold idx. split.
      + intros [[]|(t & Ht & Hi)]; [done|]. exists t. by rewrite (proj2 (build_at docs fs w t)) in Hi.
      + intros (t & Ht & Hi). right. exists t. by rewrite (proj2 (build_at docs fs w t)). }
  rewrite (Permutation_map fst (Permutation_sym (sort_by_perm _ _))).
  assert (Hkeys : NoDup (map fst (hash_order (map_to_list (doc_scores h))))).
  { rewrite (Permutation_map fst (hash_order_perm _ _)). apply NoDup_fst_map_to_list. }
  apply NoDup_Permutation.
  - induction (hash_order _) as [|[i x] l IH]; [constructor|]. cbn [map fst] in Hkeys. apply NoDup_cons in Hkeys as [H1 H2].
    cbn [List.filter]. destruct (_ <=? _)%nat; [|by apply IH]. cbn [map fst]. apply NoDup_cons. split; [|by apply IH].
    intros H. apply H1. apply list_elem_of_In, in_map_iff in H as (e & <- & He). apply List.filter_In in He as [He _].
    apply list_elem_of_In. by apply in_map.
  - by apply ids_where_nodup.
  - intros id. rewrite !list_elem_of_In, ids_where_all, in_map_iff by done. split.
    + intros ([i x] & <- & Hin). apply List.filter_In in Hin as [_ Hle]. apply Nat.leb_le in Hle. cbn [fst].
      rewrite (proj1 (Hh i)) in Hle. intros t Ht. apply occurrences_In.
      revert t Ht. apply full_sum; [|done]. intros t _. by apply occurrences_le.
    + intros Hall. destruct (tokenize query) as [|t0 ts] eqn:Et; [done|].
      destruct (proj2 (proj2 (Hh id))) as [x Hx]; [exists t0; split; [by left|by apply Hall; left]|].
      exists (id, x). split; [done|]. apply List.filter_In. split.
      * eapply Permutation_in; [symmetry; apply hash_order_perm|]. by apply list_elem_of_In, elem_of_map_to_list.
      * apply Nat.leb_le. rewrite (proj1 (Hh id)). apply full_sum; [intros t _; by apply occurrences_le|].
        intros t Ht. by apply occurrences_In, Hall.
Qed.
End Finds.

(** ** Bytes and back *)

Section Bytes.
Context {SE : StdEnv} {SL : StdLaws SE}.

Definition fits (n : Z) : Prop := (0 <= n < 2 ^ 32)%Z.
Definition str_fits (s : string) : Prop :=
  utf8_valid (as_bytes s) = true /\ fits (Z.of_nat (length (as_bytes s))).
Definition posting_fits (p : Posting) : Prop := str_fits (doc_id p) /\ fits (tf p).
Definition token_fits (e : string * list Posting) : Prop :=
  str_fits (fst e) /\ fits (Z.of_nat (length (snd e))) /\ Forall posting_fits (snd e).

(** Strings of UTF-8, and lengths and counts that [as u32] keeps. *)
Definition index_fits (idx : TextIndex) : Prop :=
  fits (Z.of_nat (length (fields idx))) /\ Forall str_fits (fields idx) /\ fits (doc_count idx) /\
  fits (Z.of_nat (size (postings idx))) /\ forall t ps, postings idx !! t = Some ps -> token_fits (t, ps).

(** [read] reads back what [put] wrote. *)
Definition reads_back {A} (put : A -> bytes) (read : reader A) (x : A) : Prop :=
  forall rest, read (put x ++ rest) = Some (x, rest).

Lemma u32_reads n : fits n -> reads_back u32_le read_u32 n.
Proof.
  intros Hn rest. unfold read_u32, u32_le. assert (Hl : length (rev (be_bytes 4 n)) = 4%nat) by (by rewrite length_rev, be_bytes_length).
  rewrite length_app, Hl. change (4 + length rest <? 4)%nat with false.
  rewrite (take_app_length' _ _ 4), (drop_app_length' _ _ 4) by done. rewrite rev_involutive, be_value_bytes.
  rewrite Z.mod_small; [done|]. exact Hn.
Qed.

Lemma str_reads s : str_fits s -> reads_back put_str read_str s.
Proof.
  intros [Hu Hn] rest. unfold read_str, put_str. rewrite <- app_assoc, (u32_reads _ Hn).
  rewrite Nat2Z.id, length_app. replace (_ + _ <? _)%nat with false by (symmetry; apply Nat.ltb_ge; lia).
  rewrite take_app_length, drop_app_length, Hu. unfold as_bytes. by rewrite string_of_list_byte_of_string.
Qed.

Lemma times_reads {A} (put : A -> bytes) read l :
  Forall (reads_back put read) l ->
  forall rest, read_times (length l) read (flat_map put l ++ rest) = Some (l, rest).
Proof.
  induction 1 as [|x l Hx _ IH]; intros rest; [done|]. cbn [flat_map length read_times].
  by rewrite <- app_assoc, Hx, IH.
Qed.

Lemma counted_reads {A} (put : A -> bytes) read l :
  fits (Z.of_nat (length l)) -> Forall (reads_back put read) l ->
  forall rest, counted read (u32_le (Z.of_nat (length l)) ++ flat_map put l ++ rest) = Some (l, rest).
Proof.
  intros Hn Hl rest. unfold counted. rewrite (u32_reads _ Hn), Nat2Z.id. by apply times_reads.
Qed.

Lemma posting_reads p : posting_fits p -> reads_back put_posting read_posting p.
Proof.
  intros [Hs Ht] rest. unfold read_posting, put_posting. rewrite <- app_assoc, (str_reads _ Hs), (u32_reads _ Ht).
  by destruct p.
Qed.

Lemma token_reads e : token_fits e -> reads_back put_token read_token e.
Proof.
  intros (Hs & Hn & Hp) rest. unfold read_token, put_token. rewrite <- !app_assoc, (str_reads _ Hs).
  rewrite counted_reads; [by destruct e|done|]. eapply List.Forall_impl; [|exact Hp]. intros p. apply posting_reads.
Qed.

Lemma insert_entries {V} (m : gmap string V) l :
  Permutation l (map_to_list m) -> fold_left (fun m '(k, v) => <[k := v]> m) l ∅ = m.
Proof.
  intros Hp. assert (Hnd : NoDup l.*1) by (rewrite Hp; apply NoDup_fst_map_to_list).
  rewrite <- (list_to_map_to_list m), <- (list_to_map_proper l (map_to_list m) Hnd Hp). clear Hp.
  assert (H : forall (m0 : gmap string V), fold_left (fun m '(k, v) => <[k := v]> m) l m0 = list_to_map l ∪ m0);
    [|rewrite H; apply (right_id_L ∅ (∪))].
  induction l as [|[k v] l IH]; intros m0; simpl; [by rewrite (left_id_L ∅ (∪))|]. apply NoDup_cons in Hnd as [Hk Hnd].
  rewrite IH by done. rewrite <- insert_union_l, insert_union_r; [done|]. by apply not_elem_of_list_to_map_1.
Qed.

(** An index read back from its bytes has the postings, the count and the fields
    of the index written; the weights are not written. *)
Theorem text_index_roundtrip idx :
  index_fits idx ->
  from_bytes (to_bytes idx) =
  Some {| postings := postings idx; doc_count := doc_count idx; fields := fields idx; weights := ∅ |}.
Proof.
  intros (Hf & Hfs & Hd & Hs & Hp). unfold from_bytes, to_bytes.
  rewrite counted_reads; [|done|by eapply List.Forall_impl; [|exact Hfs]; intros x; apply str_reads].
  rewrite (u32_reads _ Hd).
  assert (Hl : length (hash_order (map_to_list (postings idx))) = size (postings idx)).
  { rewrite (Permutation_length (hash_order_perm _ _)). apply length_map_to_list. }
  rewrite <- Hl, <- (app_nil_r (flat_map put_token _)), counted_reads; [|by rewrite Hl|].
  - by rewrite (insert_entries (postings idx)) by apply hash_order_perm.
  - apply List.Forall_forall. intros [t ps] Hin. apply token_reads, Hp.
    by apply elem_of_map_to_list, list_elem_of_In, (Permutation_in _ (hash_order_perm _ _)).
Qed.
End Bytes.
End Text.

(** ** Witness *)

Section Witnesses.
Import RefStd.

Definition small_index : TextIndex :=
  {| postings := {["car" := [{| doc_id := "1"; tf := 2 |}; {| doc_id := "2"; tf := 1 |}]]};
     doc_count := 2; fields := ["title"]; weights := {["title" := f64_one]} |}.

Lemma text_index_roundtrip_witness :
  Text.from_bytes (Text.to_bytes small_index) =
  Some {| postings := postings small_index; doc_count := 2; fields := ["title"]; weights := ∅ |}.
Proof.
  apply (Text.text_index_roundtrip small_index).
  assert (Hf : forall n, (0 <= n)%Z -> (n < 2 ^ 32)%Z -> Text.fits n) by (by intros).
  assert (Hs : forall t, utf8_valid (as_bytes t) = true -> (Z.of_nat (length (as_bytes t)) < 2 ^ 32)%Z -> Text.str_fits t).
  { intros t H1 H2. split; [done|]. apply Hf; lia. }
  split_and!.
  - by apply Hf.
  - constructor; [by apply Hs|constructor].
  - by apply Hf.
  - apply Hf; [lia|]. cbn [postings small_index]. vm_compute. reflexivity.
  - intros t ps H. cbn [postings small_index] in H. apply lookup_singleton_Some in H as [<- <-]. split; [by apply Hs|]. split; [by apply Hf|].
    repeat constructor; cbn; (reflexivity || discriminate).
Defined.
End Witnesses.
