(* ===== verification/VectorIndex.v ===== *)
(** * The vector index

    [src/rust/smongo-engine/src/index/vector_index.rs]: vectors under document
    ids, an exact search over all of them and an approximate one over the graph
    of [hnsw.rs], rebuilt when the vectors have changed.

    The index is a finite map from ids to vectors; the exact search returns
    the [k] best ids with their scores, the approximate one ids of the index
    with their scores and no others; what is written is read back. *)

From Stdlib Require Import ZArith Lia String Strings.Byte Permutation Sorted.
From S2P Require Import Prelude F64 F32 Bson Paths BTree IndexKey Accumulators Hnsw HnswExact SearchIndexes TextIndex.
From stdpp Require Import base tactics list strings gmap.

Open Scope string_scope.
Open Scope list_scope.

(** Source: index/vector_index.rs:35-56 (VectorIndex). *)
Record VectorIndex : Type := {
  id_map : gmap string Z;
  reverse_map : list string;
  vectors : list f32;
  dimensions : nat;
  vec_metric : string;
  hnsw : option HnswGraph;
  graph_vectors : list f32;
  dirty : bool;
  opt_ef_construction : option Z;
  opt_m : option Z }.

(** Source: index/vector_index.rs:403-412 (atlas_score). *)
Definition atlas_score (distance : f32) (is_euclidean : bool) : f32 :=
  let score :=
    if is_euclidean then f32_div f32_one (f32_add f32_one (f32_sqrt (f32_max_zero distance)))
    else f32_div (f32_add f32_one (f32_neg distance)) f32_two in
  f32_clamp_unit score.

(** Source: index/vector_index.rs:415-421 (l2_normalize). *)
Definition l2_normalize (v : list f32) : list f32 :=
  let norm := f32_sqrt (fold_left (fun sum x => f32_add sum (f32_mul x x)) v f32_zero) in
  if f32_eqb norm f32_zero then v else map (fun x => f32_div x norm) v.

(** Source: index/vector_index.rs:328-333 (prepare_for_graph). Also lines 336-338,
    [prepare_query]. *)
Definition prepare_for_graph (metric : string) (raw : list f32) : list f32 :=
  if metric =s? "cosine" then l2_normalize raw else raw.

Definition hnsw_metric (metric : string) : DistanceMetric :=
  if metric =s? "euclidean" then Euclidean else NegDotProduct.

(** [|a, b| b.1.partial_cmp(&a.1).unwrap_or(Ordering::Equal)]. *)
Definition best_first {X} (a b : X * f32) : comparison := f32_cmp_or_eq (snd b) (snd a).

Module Vector.
Section Vector.
Context {SE : StdEnv} {Ln : LnOps}.

(** Source: index/vector_index.rs:60-73 (new). *)
Definition new (dimensions : nat) (metric : string) : VectorIndex :=
  {| id_map := ∅; reverse_map := []; vectors := []; dimensions := dimensions; vec_metric := metric; hnsw := None;
     graph_vectors := []; dirty := false; opt_ef_construction := None; opt_m := None |}.

(** Source: index/vector_index.rs:118-126 (remove). *)
Definition remove (idx : VectorIndex) (doc_id : string) : VectorIndex :=
  match id_map idx !! doc_id with
  | Some node_id =>
      {| id_map := delete doc_id (id_map idx); reverse_map := <[Z.to_nat node_id := ""]> (reverse_map idx);
         vectors := vectors idx; dimensions := dimensions idx; vec_metric := vec_metric idx; hnsw := hnsw idx;
         graph_vectors := graph_vectors idx; dirty := true;
         opt_ef_construction := opt_ef_construction idx; opt_m := opt_m idx |}
  | None => idx
  end.

(** A row at the end of the index, under an id. *)
Definition push_row (idx : VectorIndex) (m : gmap string Z) (doc_id : string) (vector : list f32) : VectorIndex :=
  {| id_map := m; reverse_map := reverse_map idx ++ [doc_id]; vectors := vectors idx ++ vector;
     dimensions := dimensions idx; vec_metric := vec_metric idx; hnsw := hnsw idx; graph_vectors := graph_vectors idx;
     dirty := dirty idx; opt_ef_construction := opt_ef_construction idx; opt_m := opt_m idx |}.

(** Source: index/vector_index.rs:304-315 (raw_insert). *)
Definition raw_insert (idx : VectorIndex) (doc_id : string) (vector : list f32) : VectorIndex :=
  if negb (length vector =? dimensions idx)%nat then idx
  else
    let idx := match id_map idx !! doc_id with Some _ => remove idx doc_id | None => idx end in
    let node_id := wrap_u32 (Z.of_nat (length (reverse_map idx))) in
    push_row idx (<[doc_id := node_id]> (id_map idx)) doc_id vector.

Definition set_dirty (idx : VectorIndex) : VectorIndex :=
  {| id_map := id_map idx; reverse_map := reverse_map idx; vectors := vectors idx; dimensions := dimensions idx;
     vec_metric := vec_metric idx; hnsw := hnsw idx; graph_vectors := graph_vectors idx; dirty := true;
     opt_ef_construction := opt_ef_construction idx; opt_m := opt_m idx |}.

(** Source: index/vector_index.rs:109-115 (insert). *)
Definition insert (idx : VectorIndex) (doc_id : string) (vector : list f32) : VectorIndex :=
  if negb (length vector =? dimensions idx)%nat then idx else set_dirty (raw_insert idx doc_id vector).

(** Source: index/vector_index.rs:351-361 (ensure_prepared_vectors). The row [i], prepared. *)
Definition prepared_row (idx : VectorIndex) (i : nat) : list f32 :=
  let offset := (i * dimensions idx)%nat in
  if (length (vectors idx) <? offset + dimensions idx)%nat then repeat f32_zero (dimensions idx)
  else prepare_for_graph (vec_metric idx) (take (dimensions idx) (drop offset (vectors idx))).

Definition with_graph (idx : VectorIndex) (g : option HnswGraph) (gv : list f32) (d : bool) : VectorIndex :=
  {| id_map := id_map idx; reverse_map := reverse_map idx; vectors := vectors idx; dimensions := dimensions idx;
     vec_metric := vec_metric idx; hnsw := g; graph_vectors := gv; dirty := d;
     opt_ef_construction := opt_ef_construction idx; opt_m := opt_m idx |}.

(** Source: index/vector_index.rs:344-362 (ensure_prepared_vectors). *)
Definition ensure_prepared_vectors (idx : VectorIndex) : VectorIndex :=
  let n := length (reverse_map idx) in
  if (length (graph_vectors idx) =? n * dimensions idx)%nat && negb (dirty idx) then idx
  else with_graph idx (hnsw idx) (flat_map (prepared_row idx) (seq 0 n)) (dirty idx).

(** The rows that are not removed. *)
Definition live_rows (reverse_map : list string) : list nat :=
  List.filter (fun i => match reverse_map !! i with Some id => negb (id =s? "") | None => false end)
    (seq 0 (length reverse_map)).

(** Source: index/vector_index.rs:365-394 (rebuild_hnsw). *)
Definition rebuild_hnsw (idx : VectorIndex) : result VectorIndex string :=
  let n := length (reverse_map idx) in
  if (n =? 0)%nat || (dimensions idx =? 0)%nat then Ok (with_graph idx None [] false)
  else
    let m := match opt_m idx with Some m => m | None => 16%Z end in
    let ef := match opt_ef_construction idx with Some ef => ef | None => 200%Z end in
    let idx := ensure_prepared_vectors idx in
    let? graph := fold_result (fun graph i => hnsw_insert graph i (graph_vectors idx))
                    (hnsw_new (dimensions idx) m ef (hnsw_metric (vec_metric idx))) (live_rows (reverse_map idx)) in
    Ok (with_graph idx (Some graph) (graph_vectors idx) false).

(** Source: index/vector_index.rs:317-321 (ensure_built). *)
Definition ensure_built (idx : VectorIndex) : result VectorIndex string :=
  if match hnsw idx with None => true | Some _ => false end || dirty idx then rebuild_hnsw idx else Ok idx.

(** Source: index/vector_index.rs:129-157 (search). *)
Definition search (idx : VectorIndex) (query : list f32) (k : Z) : result (VectorIndex * list (string * f32)) string :=
  if negb (length query =? dimensions idx)%nat || bool_decide (id_map idx = ∅) then Ok (idx, [])
  else
    let? idx := ensure_built idx in
    let search_vec := prepare_for_graph (vec_metric idx) query in
    let ef_search := Z.max k 64 in
    match hnsw idx with
    | None => Ok (idx, [])
    | Some h =>
        let? (h, results) := hnsw_search h search_vec k ef_search (graph_vectors idx) in
        let is_euclidean := vec_metric idx =s? "euclidean" in
        let scored := flat_map (fun '(i, distance) =>
          match reverse_map idx !! i with
          | Some id => if id =s? "" then [] else [(id, atlas_score distance is_euclidean)]
          | None => []
          end) results in
        Ok (with_graph idx (Some h) (graph_vectors idx) (dirty idx), sort_by best_first scored)
    end.

(** Source: index/vector_index.rs:190-201 (search_exact). The row [i]. *)
Definition score_row (idx : VectorIndex) (prepared_query : list f32) (i : nat) : list (string * f32) :=
  match reverse_map idx !! i with
  | Some id =>
      let offset := (i * dimensions idx)%nat in
      if id =s? "" then []
      else if (length (graph_vectors idx) <? offset + dimensions idx)%nat then []
      else
        let dist := compute_distance prepared_query (take (dimensions idx) (drop offset (graph_vectors idx)))
                      (hnsw_metric (vec_metric idx)) in
        [(id, atlas_score dist (vec_metric idx =s? "euclidean"))]
  | None => []
  end.

(** Source: index/vector_index.rs:173-206 (search_exact). *)
Definition search_exact (idx : VectorIndex) (query : list f32) (k : Z) : VectorIndex * list (string * f32) :=
  if negb (length query =? dimensions idx)%nat || bool_decide (id_map idx = ∅) then (idx, [])
  else
    let idx := ensure_prepared_vectors idx in
    let prepared_query := prepare_for_graph (vec_metric idx) query in
    let scored := flat_map (score_row idx prepared_query) (seq 0 (length (reverse_map idx))) in
    (idx, iter_take k (sort_by best_first scored)).

(** Source: index/vector_index.rs:292-294 (len). *)
Definition len (idx : VectorIndex) : nat := size (id_map idx).

(** ** Documents *)

Context {B : BsonOps}.

(** [arr.iter().filter_map(|v| v.as_f64().map(|f| f as f32)).collect()]. *)
Definition float_elements (arr : list bson) : list f32 := omap (fun v => option_map f32_of_f64 (as_f64 v)) arr.

(** Source: index/vector_index.rs:423-440 (extract_vector). *)
Definition extract_vector (doc : document) (field : string) (dimensions : nat) : option (list f32) :=
  match get_value doc field with
  | Some (BArray arr) =>
      if negb (length arr =? dimensions)%nat then None
      else
        let vec := float_elements arr in
        if (length vec =? dimensions)%nat then Some vec else None
  | _ => None
  end.

(** Source: index/vector_index.rs:93-99 (build_with_params). *)
Definition vec_id (doc : document) : option string :=
  match doc_get doc "_id" with
  | Some (BObjectId oid) => Some (oid_to_hex oid)
  | Some (BString s) => Some s
  | Some (BInt32 i) | Some (BInt64 i) => Some (Z_to_string i)
  | _ => None
  end.

(** Source: index/vector_index.rs:92-103 (build_with_params). One document. *)
Definition insert_doc (field : string) (idx : VectorIndex) (doc : document) : VectorIndex :=
  match vec_id doc with
  | None => idx
  | Some id =>
      match extract_vector doc field (dimensions idx) with
      | Some vec => raw_insert idx id vec
      | None => idx
      end
  end.

(** Source: index/vector_index.rs:89-91 (build_with_params). *)
Definition unbuilt (dimensions : nat) (metric : string) (ef_construction m : option Z) : VectorIndex :=
  {| id_map := ∅; reverse_map := []; vectors := []; dimensions := dimensions; vec_metric := metric; hnsw := None;
     graph_vectors := []; dirty := false; opt_ef_construction := ef_construction; opt_m := m |}.

(** Source: index/vector_index.rs:81-106 (build_with_params). *)
Definition build_with_params (docs : list document) (field : string) (dimensions : nat) (metric : string)
  (ef_construction m : option Z) : result VectorIndex string :=
  rebuild_hnsw (fold_left (insert_doc field) docs (unbuilt dimensions metric ef_construction m)).

(** Source: index/vector_index.rs:76-78 (build). *)
Definition build (docs : list document) (field : string) (dimensions : nat) (metric : string) : result VectorIndex string :=
  build_with_params docs field dimensions metric None None.

(** ** The form in bytes *)

(** [f.to_le_bytes()] and [f32::from_le_bytes]. *)
Definition f32_le (x : f32) : bytes := Text.u32_le (f32_bits x).
Definition read_f32 : Text.reader f32 := fun data =>
  match Text.read_u32 data with Some (n, data) => Some (f32_of_bits n, data) | None => None end.

(** Source: index/vector_index.rs:219-229 (to_bytes). The row [i]. *)
Definition put_row (idx : VectorIndex) (i : nat) (doc_id : string) : bytes :=
  let offset := (i * dimensions idx)%nat in
  Text.put_str doc_id ++
  (if (offset + dimensions idx <=? length (vectors idx))%nat
   then flat_map f32_le (take (dimensions idx) (drop offset (vectors idx))) else []).

(** Source: index/vector_index.rs:209-231 (to_bytes). *)
Definition to_bytes (idx : VectorIndex) : bytes :=
  Text.u32_le (Z.of_nat (dimensions idx)) ++ Text.put_str (vec_metric idx) ++
  Text.u32_le (Z.of_nat (length (reverse_map idx))) ++
  List.concat (imap (put_row idx) (reverse_map idx)).

(** Source: index/vector_index.rs:260-283 (from_bytes). One row is read and added. *)
Definition read_row (idx : VectorIndex) (data : bytes) : option (VectorIndex * bytes) :=
  match Text.read_str data with
  | None => None
  | Some (doc_id, data) =>
      if (length data <? dimensions idx * 4)%nat then None
      else
        match Text.read_times (dimensions idx) read_f32 data with
        | None => None
        | Some (vec, data) =>
            Some (if doc_id =s? "" then push_row idx (id_map idx) "" vec else raw_insert idx doc_id vec, data)
        end
  end.

Fixpoint read_rows (count : nat) (idx : VectorIndex) (data : bytes) : option VectorIndex :=
  match count with
  | O => Some idx
  | S count =>
      match read_row idx data with
      | None => None
      | Some (idx, data) => read_rows count idx data
      end
  end.

(** Source: index/vector_index.rs:234-289 (from_bytes). *)
Definition from_bytes (data : bytes) : option VectorIndex :=
  if (length data <? 8)%nat then None
  else
    match Text.read_u32 data with
    | None => None
    | Some (dims, data) =>
        match Text.read_str data with
        | None => None
        | Some (metric, data) =>
            match Text.read_u32 data with
            | None => None
            | Some (count, data) =>
                option_map set_dirty (read_rows (Z.to_nat count) (new (Z.to_nat dims) metric) data)
            end
        end
    end.
End Vector.

(** ** The index as a map *)

Section Rows.
Context {SE : StdEnv} {SL : StdLaws SE} {Ln : LnOps}.

(** Every row has its vector, and the two maps of ids agree. *)
Record rows_ok (idx : VectorIndex) : Prop := {
  ro_rows : length (vectors idx) = (length (reverse_map idx) * dimensions idx)%nat;
  ro_map : forall id i, id <> "" -> reverse_map idx !! i = Some id -> id_map idx !! id = Some (Z.of_nat i);
  ro_back : forall id z, id_map idx !! id = Some z -> exists i, z = Z.of_nat i /\ reverse_map idx !! i = Some id;
  ro_fits : (Z.of_nat (length (reverse_map idx)) <= 2 ^ 32)%Z }.

(** The vector stored under an id. *)
Definition vector_of (idx : VectorIndex) (id : string) : option (list f32) :=
  option_map (fun z => row (vectors idx) (dimensions idx) (Z.to_nat z)) (id_map idx !! id).

Lemma rows_new d mt : rows_ok (new d mt).
Proof. split; cbn; [done|done|by intros id z; rewrite lookup_empty|lia]. Qed.

Lemma rows_remove idx id : rows_ok idx ->
  rows_ok (remove idx id) /\ length (reverse_map (remove idx id)) = length (reverse_map idx) /\
  dimensions (remove idx id) = dimensions idx /\
  id_map (remove idx id) = delete id (id_map idx) /\ vectors (remove idx id) = vectors idx.
Proof.
  intros Hok. unfold remove. destruct (id_map idx !! id) as [z|] eqn:E; cycle 1.
  { split_and!; try done. by rewrite delete_id. }
  destruct (ro_back _ Hok id z E) as (i & -> & Hi). rewrite Nat2Z.id. cbn. split_and!; try done; [|by rewrite length_insert].
  split; cbn [vectors reverse_map dimensions id_map]; rewrite ?length_insert; [apply Hok| | |apply Hok].
  - intros id' j Hne Hj. apply list_lookup_insert_Some in Hj as [(_ & <- & _)|(Hij & Hj)]; [done|].
    rewrite lookup_delete_ne; [by apply Hok|]. intros <-. apply (ro_map _ Hok id j Hne) in Hj as Hz. rewrite E in Hz.
    injection Hz as Hz%Nat2Z.inj. done.
  - intros id' z Hz. apply lookup_delete_Some in Hz as [Hne Hz]. destruct (ro_back _ Hok id' z Hz) as (j & -> & Hj).
    exists j. split; [done|]. rewrite list_lookup_insert_ne; [done|]. intros <-. congruence.
Qed.

Lemma row_app_l (vs w : list f32) d i : (i * d + d <= length vs)%nat -> row (vs ++ w) d i = row vs d i.
Proof.
  intros H. unfold row. rewrite drop_app_le by lia. rewrite take_app_le by (rewrite length_drop; lia). done.
Qed.

Lemma row_app_last (vs w : list f32) d n : length vs = (n * d)%nat -> length w = d -> row (vs ++ w) d n = w.
Proof. intros H1 H2. unfold row. rewrite drop_app_length' by done. by rewrite <- H2, firstn_all. Qed.

Lemma row_in_buffer (l : list string) d i id : l !! i = Some id -> (i * d + d <= length l * d)%nat.
Proof. intros H%lookup_lt_Some. nia. Qed.

(** An index with one more row, which no id of the map has. *)
Lemma rows_push idx id v :
  rows_ok idx -> length v = dimensions idx -> (Z.of_nat (length (reverse_map idx)) < 2 ^ 32)%Z ->
  id_map idx !! id = None ->
  rows_ok (push_row idx (<[id := Z.of_nat (length (reverse_map idx))]> (id_map idx)) id v).
Proof.
  intros Hok Hv Hlt Hno. split; cbn [push_row vectors reverse_map dimensions id_map]; rewrite ?length_app.
  - rewrite (ro_rows _ Hok), Hv. cbn [length]. lia.
  - intros id' i Hne' Hi. apply lookup_app_Some in Hi as [Hi|[Hge Hi]].
    + rewrite lookup_insert_ne; [by apply Hok|]. intros <-. apply (ro_map _ Hok) in Hi; [|done]. congruence.
    + apply list_lookup_singleton_Some in Hi as [Hi <-]. rewrite lookup_insert_eq. do 2 f_equal. lia.
  - intros id' z Hz. apply lookup_insert_Some in Hz as [[<- <-]|[_ Hz]].
    + exists (length (reverse_map idx)). split; [done|]. by rewrite lookup_app_r, Nat.sub_diag.
    + destruct (ro_back _ Hok id' z Hz) as (i & -> & Hi). exists i. split; [done|]. by apply lookup_app_l_Some.
  - cbn [length]. lia.
Qed.

Lemma raw_insert_ok idx id v :
  rows_ok idx -> length v = dimensions idx -> (Z.of_nat (length (reverse_map idx)) < 2 ^ 32)%Z ->
  rows_ok (raw_insert idx id v) /\ dimensions (raw_insert idx id v) = dimensions idx /\
  length (reverse_map (raw_insert idx id v)) = S (length (reverse_map idx)) /\
  (forall id', vector_of (raw_insert idx id v) id' = if decide (id' = id) then Some v else vector_of idx id').
Proof.
  intros Hok Hv Hlt. unfold raw_insert. rewrite Hv, Nat.eqb_refl. cbn [negb].
  set (idx' := match id_map idx !! id with Some _ => remove idx id | None => idx end).
  assert (H : rows_ok idx' /\ length (reverse_map idx') = length (reverse_map idx) /\ dimensions idx' = dimensions idx /\
              id_map idx' = delete id (id_map idx) /\ vectors idx' = vectors idx).
  { unfold idx'. destruct (id_map idx !! id) eqn:E; [by apply rows_remove|]. split_and!; try done. by rewrite delete_id. }
  destruct H as (Hok' & Hlen & Hd & Hm & Hvs).
  assert (Hw : wrap_u32 (Z.of_nat (length (reverse_map idx'))) = Z.of_nat (length (reverse_map idx'))).
  { unfold wrap_u32. apply Z.mod_small. lia. }
  rewrite Hw. split_and!.
  - apply rows_push; [done|by rewrite Hd|by rewrite Hlen|rewrite Hm; apply lookup_delete_eq].
  - done.
  - cbn. rewrite length_app. cbn. lia.
  - intros id'. unfold vector_of. cbn [push_row vectors id_map dimensions]. rewrite Hm, Hd, Hvs.
    destruct (decide (id' = id)) as [->|Hid].
    + rewrite lookup_insert_eq. cbn. rewrite Nat2Z.id, row_app_last; [done| |done]. rewrite Hlen. apply Hok.
    + rewrite lookup_insert_ne, lookup_delete_ne by done. destruct (id_map idx !! id') as [z|] eqn:E; [|done]. cbn.
      destruct (ro_back _ Hok id' z E) as (i & -> & Hi). rewrite Nat2Z.id, row_app_l; [done|].
      rewrite (ro_rows _ Hok). by eapply row_in_buffer.
Qed.

(** The index is a finite map from ids to vectors.  An insertion of a vector of the right
    length sets the vector of its id, another length changes nothing, and a removal unsets it;
    the other ids keep their vectors, and the maps of rows and ids stay in agreement. *)
Theorem vector_index_is_map idx id v :
  rows_ok idx -> (Z.of_nat (length (reverse_map idx)) < 2 ^ 32)%Z ->
  rows_ok (insert idx id v) /\ rows_ok (remove idx id) /\
  (forall id', vector_of (insert idx id v) id' =
     if decide (length v = dimensions idx /\ id' = id) then Some v else vector_of idx id') /\
  (forall id', vector_of (remove idx id) id' = if decide (id' = id) then None else vector_of idx id').
Proof.
  intros Hok Hlt. destruct (rows_remove idx id Hok) as (R1 & R2 & R3 & R4 & R5). unfold insert.
  assert (Hrm : forall id', vector_of (remove idx id) id' = if decide (id' = id) then None else vector_of idx id').
  { intros id'. unfold vector_of. rewrite R3, R4, R5. destruct (decide (id' = id)) as [->|Hid];
      [by rewrite lookup_delete_eq|by rewrite lookup_delete_ne]. }
  destruct (Nat.eqb_spec (length v) (dimensions idx)) as [Hv|Hv]; cbn [negb].
  - destruct (raw_insert_ok idx id v Hok Hv Hlt) as (I1 & I2 & I3 & I4). split_and!; [|done| |done].
    + destruct I1 as [A1 A2 A3 A4]. by split.
    + intros id'. change (vector_of (set_dirty (raw_insert idx id v)) id') with (vector_of (raw_insert idx id v) id').
      rewrite I4. destruct (decide (id' = id)) as [E|E]; [rewrite decide_True by done|rewrite decide_False by (by intros [_ ?])]; done.
  - split_and!; [done|done| |done]. intros id'. rewrite decide_False by (by intros [? _]). done.
Qed.
End Rows.

(** ** Searches *)

Section Searches.
Context {SE : StdEnv} {SL : StdLaws SE} {Ln : LnOps}.

(** The prepared vectors, when they are current, are those of the rows. *)
Definition prepared (idx : VectorIndex) : list f32 := flat_map (prepared_row idx) (seq 0 (length (reverse_map idx))).

Record caches_ok (idx : VectorIndex) : Prop := {
  co_prepared : dirty idx = false -> length (graph_vectors idx) = (length (reverse_map idx) * dimensions idx)%nat ->
    graph_vectors idx = prepared idx;
  co_graph : dirty idx = false -> forall g, hnsw idx = Some g ->
    graph_vectors idx = prepared idx /\ graph_ok (rev (live_rows (reverse_map idx))) g /\
    dim g = dimensions idx /\ Hnsw.metric g = hnsw_metric (vec_metric idx) }.

(** The score of a stored vector for a query. *)
Definition score (idx : VectorIndex) (query v : list f32) : f32 :=
  atlas_score (compute_distance (prepare_for_graph (vec_metric idx) query) (prepare_for_graph (vec_metric idx) v)
                 (hnsw_metric (vec_metric idx))) (vec_metric idx =s? "euclidean").

Lemma prepare_length mt v : length (prepare_for_graph mt v) = length v.
Proof. unfold prepare_for_graph, l2_normalize. destruct (_ =s? _); [|done]. destruct (f32_eqb _ _); [done|apply length_map]. Qed.

Lemma row_length (vs : list f32) d i : (i * d + d <= length vs)%nat -> length (row vs d i) = d.
Proof. intros H. unfold row. rewrite length_take, length_drop. lia. Qed.

Lemma prepared_row_ok idx i : rows_ok idx -> (i < length (reverse_map idx))%nat ->
  prepared_row idx i = prepare_for_graph (vec_metric idx) (row (vectors idx) (dimensions idx) i).
Proof.
  intros Hok Hi. unfold prepared_row. rewrite (proj2 (Nat.ltb_ge _ _)); [done|]. rewrite (ro_rows _ Hok). nia.
Qed.

Lemma prepared_row_length idx i : rows_ok idx -> (i < length (reverse_map idx))%nat -> length (prepared_row idx i) = dimensions idx.
Proof.
  intros Hok Hi. rewrite prepared_row_ok by done. rewrite prepare_length. apply row_length. rewrite (ro_rows _ Hok). nia.
Qed.

(** The rows of a buffer put together from rows of one length. *)
Lemma flat_rows (f : nat -> list f32) d n : (forall i, (i < n)%nat -> length (f i) = d) ->
  length (flat_map f (seq 0 n)) = (n * d)%nat /\ forall i, (i < n)%nat -> row (flat_map f (seq 0 n)) d i = f i.
Proof.
  induction n as [|n IH]; intros H; [split; [done|lia]|].
  destruct IH as [IH1 IH2]; [intros; apply H; lia|]. rewrite seq_S, flat_map_app. cbn [Nat.add flat_map]. rewrite app_nil_r.
  split; [rewrite length_app, IH1, H by lia; lia|]. intros i Hi. destruct (Nat.eq_dec i n) as [->|Hne].
  - apply row_app_last; [done|apply H; lia].
  - rewrite row_app_l; [apply IH2; lia|]. rewrite IH1. nia.
Qed.

Lemma prepared_spec idx : rows_ok idx ->
  length (prepared idx) = (length (reverse_map idx) * dimensions idx)%nat /\
  forall i, (i < length (reverse_map idx))%nat -> row (prepared idx) (dimensions idx) i = prepared_row idx i.
Proof. intros Hok. apply flat_rows. intros i Hi. by apply prepared_row_length. Qed.

Lemma ensure_prepared_spec idx : rows_ok idx -> caches_ok idx ->
  ensure_prepared_vectors idx = with_graph idx (hnsw idx) (prepared idx) (dirty idx).
Proof.
  intros Hok [Hp _]. unfold ensure_prepared_vectors. destruct (Nat.eqb_spec (length (graph_vectors idx)) (length (reverse_map idx) * dimensions idx)) as [He|He];
    cbn [andb]; [|done]. destruct (dirty idx) eqn:Ed; cbn [negb]; [done|]. rewrite <- (Hp eq_refl He). rewrite <- Ed. by destruct idx.
Qed.

Lemma live_rows_spec rm i : In i (live_rows rm) <-> exists id, rm !! i = Some id /\ id <> "".
Proof.
  unfold live_rows. rewrite List.filter_In, in_seq. split.
  - intros [_ H]. destruct (rm !! i) as [id|]; [|done]. exists id. split; [done|]. by apply negb_true_iff, String.eqb_neq in H.
  - intros (id & Hid & Hne). rewrite Hid. split; [apply lookup_lt_Some in Hid; lia|]. by apply negb_true_iff, String.eqb_neq.
Qed.

Lemma live_rows_nodup rm : List.NoDup (live_rows rm).
Proof. apply List.NoDup_filter, seq_NoDup. Qed.

(** The live rows are the ids of the map. *)
Lemma live_vector idx i id : rows_ok idx -> reverse_map idx !! i = Some id -> id <> "" ->
  vector_of idx id = Some (row (vectors idx) (dimensions idx) i).
Proof. intros Hok Hi Hne. unfold vector_of. rewrite (ro_map _ Hok id i Hne Hi). cbn. by rewrite Nat2Z.id. Qed.

Lemma vector_live idx id v : rows_ok idx -> vector_of idx id = Some v ->
  exists i, reverse_map idx !! i = Some id /\ v = row (vectors idx) (dimensions idx) i.
Proof.
  intros Hok Hv. unfold vector_of in Hv. destruct (id_map idx !! id) as [z|] eqn:E; [|done]. injection Hv as <-.
  destruct (ro_back _ Hok id z E) as (i & -> & Hi). exists i. by rewrite Nat2Z.id.
Qed.

(** The scored ids of some live rows. *)
Definition scored_row (idx : VectorIndex) (query : list f32) (i : nat) : list (string * f32) :=
  match reverse_map idx !! i with
  | Some id => if id =s? "" then [] else [(id, score idx query (row (vectors idx) (dimensions idx) i))]
  | None => []
  end.

Lemma scored_row_In idx query i id s : In (id, s) (scored_row idx query i) <->
  reverse_map idx !! i = Some id /\ id <> "" /\ s = score idx query (row (vectors idx) (dimensions idx) i).
Proof.
  unfold scored_row. destruct (reverse_map idx !! i) as [id'|]; [|cbn; split; [done|by intros [? _]]].
  destruct (String.eqb_spec id' "") as [->|Hne]; cbn [In]; [split; [done|by intros ([= <-] & ? & _)]|].
  split; [intros [[= <- <-]|[]]; done|]. intros ([= <-] & _ & ->). by left.
Qed.

Lemma scored_rows_spec idx query rows : rows_ok idx -> List.NoDup rows ->
  List.NoDup (map fst (flat_map (scored_row idx query) rows)) /\
  forall id s, In (id, s) (flat_map (scored_row idx query) rows) ->
    id <> "" /\ exists i v, In i rows /\ reverse_map idx !! i = Some id /\ vector_of idx id = Some v /\ s = score idx query v.
Proof.
  intros Hok Hnd.
  assert (Hin : forall rows id s, In (id, s) (flat_map (scored_row idx query) rows) ->
    id <> "" /\ exists i v, In i rows /\ reverse_map idx !! i = Some id /\ vector_of idx id = Some v /\ s = score idx query v).
  { clear rows Hnd. intros rows id s H. apply in_flat_map in H as (i & Hi & H). apply scored_row_In in H as (H1 & H2 & ->). split; [done|].
    exists i, (row (vectors idx) (dimensions idx) i). split_and!; [done|done|by apply live_vector|done]. }
  split; [|apply Hin]. induction Hnd as [|i rows Hni Hnd IH]; [constructor|]. cbn [flat_map]. rewrite map_app.
  unfold scored_row at 1. destruct (reverse_map idx !! i) as [id|] eqn:E; [|done]. destruct (String.eqb_spec id "") as [->|Hne]; [done|].
  cbn [map app fst]. constructor; [|done]. intros Hx. apply in_map_iff in Hx as ([id' s] & [= ->] & Hx).
  apply Hin in Hx as (_ & j & v & Hj & Hid & _). apply (ro_map _ Hok id i Hne) in E. apply (ro_map _ Hok id j Hne) in Hid.
  rewrite E in Hid. injection Hid as Hid%Nat2Z.inj. by subst j.
Qed.

Lemma score_row_eq idx query i : rows_ok idx ->
  score_row (with_graph idx (hnsw idx) (prepared idx) (dirty idx)) (prepare_for_graph (vec_metric idx) query) i = scored_row idx query i.
Proof.
  intros Hok. unfold score_row, scored_row. cbn [with_graph reverse_map dimensions graph_vectors vec_metric].
  destruct (reverse_map idx !! i) as [id|] eqn:E; [|done]. destruct (id =s? ""); [done|]. apply lookup_lt_Some in E.
  destruct (prepared_spec idx Hok) as [Hl Hr]. rewrite (proj2 (Nat.ltb_ge _ _)) by (rewrite Hl; nia).
  change (take (dimensions idx) (drop (i * dimensions idx) (prepared idx))) with (row (prepared idx) (dimensions idx) i).
  by rewrite Hr, prepared_row_ok.
Qed.

Lemma best_first_tp {X} : TotalPreorder (fun p : X * f32 => f32_is_nan (snd p) = false) best_first.
Proof.
  assert (T : TotalPreorder (fun p : X * f32 => f32_is_nan (snd p) = false) (fun x y => CompOpp (f64_cmp_or_eq (snd x) (snd y)))).
  { apply (tp_opp _ (fun x y : X * f32 => f64_cmp_or_eq (snd x) (snd y))).
    apply (tp_pullback (fun x => f64_is_nan x = false) _ snd); [done|apply f64_cmp_tp]. }
  assert (He : forall x y : X * f32, f32_is_nan (snd x) = false -> f32_is_nan (snd y) = false ->
    best_first x y = CompOpp (f64_cmp_or_eq (snd x) (snd y))).
  { intros x y Hx Hy. apply (tp_sym _ _ f64_cmp_tp (snd x) (snd y) Hx Hy). }
  split.
  - intros x Hx. rewrite He by done. by apply (tp_refl _ _ T).
  - intros x y Hx Hy. rewrite !He by done. by apply (tp_sym _ _ T).
  - intros x y z Hx Hy Hz. rewrite !He by done. by apply (tp_trans _ _ T).
Qed.

(** No score of a stored vector is a NaN. *)
Definition scores_ok (idx : VectorIndex) (query : list f32) : Prop :=
  forall id v, vector_of idx id = Some v -> f32_is_nan (score idx query v) = false.

(** The exact search sorts the scores of the rows. *)
Lemma search_exact_eq idx query k :
  rows_ok idx -> caches_ok idx -> length query = dimensions idx ->
  snd (search_exact idx query k) =
  iter_take k (sort_by best_first (flat_map (scored_row idx query) (seq 0 (length (reverse_map idx))))).
Proof.
  intros Hok Hc Hq. unfold search_exact. rewrite Hq, Nat.eqb_refl. cbn [negb orb].
  destruct (bool_decide_reflect (id_map idx = ∅)) as [He|He].
  - destruct (flat_map _ _) as [|[id s] l] eqn:E; [symmetry; apply take_nil|].
    assert (Hx : In (id, s) (flat_map (scored_row idx query) (seq 0 (length (reverse_map idx))))) by (rewrite E; by left).
    apply in_flat_map in Hx as (i & _ & Hx). apply scored_row_In in Hx as (Hi & Hne & _).
    apply (ro_map _ Hok id i Hne) in Hi. by rewrite He, lookup_empty in Hi.
  - rewrite (ensure_prepared_spec idx Hok Hc). cbv zeta. cbn [with_graph reverse_map vec_metric snd].
    do 2 f_equal. apply flat_map_ext. intros i. by apply score_row_eq.
Qed.

(** The exact search scores every stored vector once, sorts the ids by their scores, the
    best first, and returns the first [k]. *)
Theorem search_exact_spec idx query k :
  rows_ok idx -> caches_ok idx -> length query = dimensions idx ->
  exists all, snd (search_exact idx query k) = iter_take k all /\ List.NoDup (map fst all) /\
    (forall id s, In (id, s) all <-> id <> "" /\ exists v, vector_of idx id = Some v /\ s = score idx query v) /\
    (scores_ok idx query -> sorted_by best_first all).
Proof.
  intros Hok Hc Hq. rewrite (search_exact_eq idx query k Hok Hc Hq).
  set (rows := seq 0 _). destruct (scored_rows_spec idx query rows Hok (seq_NoDup _ _)) as [Hnd Hin].
  set (all := flat_map _ rows) in *. exists (sort_by best_first all). pose proof (sort_by_perm best_first all) as Hp.
  assert (Hall : forall id s, In (id, s) all <-> id <> "" /\ exists v, vector_of idx id = Some v /\ s = score idx query v).
  { intros id s. split; [intros H; apply Hin in H as (H1 & i & v & _ & _ & H2 & H3); eauto|].
    intros (Hne & v & Hv & ->). destruct (vector_live idx id v Hok Hv) as (i & Hi & ->). apply in_flat_map. exists i. split.
    - apply in_seq. apply lookup_lt_Some in Hi. lia.
    - by apply scored_row_In. }
  split_and!; [done| | |].
  - eapply Permutation_NoDup; [apply Permutation_map, Hp|done].
  - intros id s. rewrite sort_by_In. apply Hall.
  - intros Hs. apply (sort_by_sorted _ _ _ best_first_tp), List.Forall_forall. intros [id s] H.
    apply Hall in H as (_ & v & Hv & ->). by eapply Hs.
Qed.

(** *** The graph *)

(** The index without its caches. *)
Definition same_rows (idx idx' : VectorIndex) : Prop :=
  id_map idx' = id_map idx /\ reverse_map idx' = reverse_map idx /\ vectors idx' = vectors idx /\
  dimensions idx' = dimensions idx /\ vec_metric idx' = vec_metric idx /\ opt_ef_construction idx' = opt_ef_construction idx.

Lemma same_rows_ok idx idx' : same_rows idx idx' -> rows_ok idx -> rows_ok idx'.
Proof. intros (H1 & H2 & H3 & H4 & _) [A1 A2 A3 A4]. split; rewrite ?H1, ?H2, ?H3, ?H4; done. Qed.

Lemma same_vector idx idx' id : same_rows idx idx' -> vector_of idx' id = vector_of idx id.
Proof. intros (H1 & _ & H3 & H4 & _). unfold vector_of. by rewrite H1, H3, H4. Qed.

Lemma same_prepared idx idx' : same_rows idx idx' -> prepared idx' = prepared idx.
Proof.
  intros (_ & H2 & H3 & H4 & H5 & _). unfold prepared. rewrite H2. apply flat_map_ext. intros i. unfold prepared_row. by rewrite H3, H4, H5.
Qed.

(** The beam of the construction can be allocated. *)
Definition build_fits (idx : VectorIndex) : Prop :=
  heap_with_capacity (Z.max (match opt_ef_construction idx with Some ef => ef | None => 200%Z end) 1) = Ok tt.

Lemma live_in_buffer idx : rows_ok idx -> in_buffer (prepared idx) (dimensions idx) (live_rows (reverse_map idx)).
Proof.
  intros Hok i Hi. apply live_rows_spec in Hi as (id & Hid & _). apply lookup_lt_Some in Hid.
  rewrite (proj1 (prepared_spec idx Hok)). nia.
Qed.

Lemma rebuild_ok idx : rows_ok idx -> caches_ok idx -> build_fits idx ->
  exists idx', rebuild_hnsw idx = Ok idx' /\ same_rows idx idx' /\ caches_ok idx' /\ dirty idx' = false /\
    (reverse_map idx <> [] -> dimensions idx <> 0%nat -> exists g, hnsw idx' = Some g).
Proof.
  intros Hok Hc Hf. unfold rebuild_hnsw. destruct (Nat.eqb_spec (length (reverse_map idx)) 0) as [H0|H0].
  { eexists. split; [reflexivity|]. assert (Hnil : reverse_map idx = []) by (by destruct (reverse_map idx)).
    split_and!; try done. split; [|done]. intros _ _. unfold prepared. cbn. by rewrite Hnil. }
  destruct (Nat.eqb_spec (dimensions idx) 0) as [Hd|Hd]; cbn [orb].
  { eexists. split; [reflexivity|]. split_and!; try done. split; [|done]. intros _ _. symmetry. apply length_zero_iff_nil.
    rewrite (same_prepared idx) by done. rewrite (proj1 (prepared_spec idx Hok)), Hd. lia. }
  rewrite (ensure_prepared_spec idx Hok Hc). cbv zeta. cbn [with_graph reverse_map vec_metric dimensions graph_vectors].
  set (g0 := hnsw_new _ _ _ _).
  destruct (hnsw_build_ok (prepared idx) (live_rows (reverse_map idx)) [] g0) as (g & Hrun & Hg & Hs).
  - apply hnsw_new_ok.
  - split; [cbn; lia|exact Hf].
  - rewrite app_nil_r. by apply live_in_buffer.
  - unfold hnsw_build in Hrun. rewrite Hrun. cbv beta iota. eexists. split; [reflexivity|]. split_and!; try done; [|by eexists].
    rewrite app_nil_r in Hg. assert (Hp : dim g = dimensions idx /\ Hnsw.metric g = hnsw_metric (vec_metric idx))
      by (unfold settings in Hs; cbn in Hs; split; congruence).
    split; cbn [with_graph dirty graph_vectors hnsw reverse_map dimensions vec_metric]; [done|].
    intros _ g1 [= <-]. split_and!; [done|done|apply Hp|apply Hp].
Qed.

Lemma ensure_built_ok idx : rows_ok idx -> caches_ok idx -> build_fits idx ->
  exists idx', ensure_built idx = Ok idx' /\ same_rows idx idx' /\ caches_ok idx' /\ dirty idx' = false /\
    (reverse_map idx <> [] -> dimensions idx <> 0%nat -> exists g, hnsw idx' = Some g).
Proof.
  intros Hok Hc Hf. unfold ensure_built. destruct (hnsw idx) as [g|] eqn:Eg; cbn [orb]; [|by apply rebuild_ok].
  destruct (dirty idx) eqn:Ed; [by apply rebuild_ok|]. exists idx. split_and!; try done. intros _ _. by exists g.
Qed.

(** The hits of the graph, with their distances to live rows, are scored as those rows are. *)
Lemma hits_scored idx query (out : list (nat * f32)) :
  (forall i di, In (i, di) out -> exists id, reverse_map idx !! i = Some id /\ id <> "" /\
    di = compute_distance (prepare_for_graph (vec_metric idx) query)
           (prepare_for_graph (vec_metric idx) (row (vectors idx) (dimensions idx) i)) (hnsw_metric (vec_metric idx))) ->
  let scored := flat_map (fun '(i, distance) =>
    match reverse_map idx !! i with
    | Some id => if id =s? "" then [] else [(id, atlas_score distance (vec_metric idx =s? "euclidean"))]
    | None => []
    end) out in
  scored = flat_map (scored_row idx query) (map fst out) /\ length scored = length out.
Proof.
  induction out as [|[i di] out IH]; intros H; [done|]. cbn [flat_map map fst length].
  destruct IH as [-> IH2]; [intros; apply H; by right|]. rewrite length_app.
  destruct (H i di (or_introl eq_refl)) as (id & Hid & Hne & ->). rewrite Hid. unfold scored_row at 2. rewrite Hid.
  destruct (String.eqb_spec id "") as [?|_]; [done|]. split; [done|]. cbn [length].
  rewrite IH2 || (rewrite <- IH2; f_equal). done.
Qed.

(** The approximate search does not panic, and returns at most [k] different ids of the
    index with the scores of their vectors, the best first, and at least one when the index
    has a vector; the map of the index stays as it is. *)
Theorem search_sound idx query k :
  rows_ok idx -> caches_ok idx -> build_fits idx -> length query = dimensions idx -> dimensions idx <> 0%nat ->
  (0 <= k)%Z -> heap_with_capacity (Z.max k (Z.max k 64)) = Ok tt ->
  exists idx' out, search idx query k = Ok (idx', out) /\ same_rows idx idx' /\ caches_ok idx' /\
    List.NoDup (map fst out) /\ (Z.of_nat (length out) <= k)%Z /\
    (forall id s, In (id, s) out -> id <> "" /\ exists v, vector_of idx id = Some v /\ s = score idx query v) /\
    (scores_ok idx query -> sorted_by best_first out) /\
    ((exists id v, id <> "" /\ vector_of idx id = Some v) -> (1 <= k)%Z -> out <> []).
Proof.
  intros Hok Hc Hf Hq Hd Hk Hcap. unfold search. rewrite Hq, Nat.eqb_refl. cbn [negb orb].
  destruct (bool_decide_reflect (id_map idx = ∅)) as [He|He].
  { exists idx, []. split_and!; try done; [constructor|constructor|].
    intros (id & v & _ & Hv). unfold vector_of in Hv. by rewrite He, lookup_empty in Hv. }
  assert (Hne : reverse_map idx <> []).
  { apply map_choose in He as (id & z & Hz). destruct (ro_back _ Hok id z Hz) as (i & _ & Hi). intros E. by rewrite E, lookup_nil in Hi. }
  destruct (ensure_built_ok idx Hok Hc Hf) as (idx1 & -> & Hs1 & Hc1 & Hd1 & Hg1). cbv beta iota.
  destruct (Hg1 Hne Hd) as [g Hg]. rewrite Hg. destruct (co_graph _ Hc1 Hd1 g Hg) as (Hgv & Hgok & Hgd & Hgm).
  pose proof (same_rows_ok _ _ Hs1 Hok) as Hok1. pose proof Hs1 as (S1 & S2 & S3 & S4 & S5 & _).
  destruct (hnsw_search_ok (rev (live_rows (reverse_map idx1))) g (prepare_for_graph (vec_metric idx1) query) k (Z.max k 64)
    (graph_vectors idx1)) as (v & out & Hrun & Hok' & Ha); [done| |done|lia|done|].
  { rewrite Hgv, Hgd. intros i Hi. apply live_in_buffer; [done|]. by apply in_rev. }
  rewrite Hrun. cbv beta iota.
  assert (Hscore : forall i di, In (i, di) out -> exists id, reverse_map idx1 !! i = Some id /\ id <> "" /\
    di = compute_distance (prepare_for_graph (vec_metric idx1) query) (prepare_for_graph (vec_metric idx1) (row (vectors idx1) (dimensions idx1) i))
           (hnsw_metric (vec_metric idx1))).
  { intros i di Hi. apply (ao_nodes _ _ _ _ _ _ Ha) in Hi as [Hi ->]. apply in_rev, live_rows_spec in Hi as (id & Hid & Hidne).
    exists id. split_and!; [done|done|]. unfold dist_of. rewrite Hgd, Hgm, Hgv. apply lookup_lt_Some in Hid.
    change (take (dimensions idx1) (drop (i * dimensions idx1) (prepared idx1))) with (row (prepared idx1) (dimensions idx1) i).
    by rewrite (proj2 (prepared_spec idx1 Hok1)), prepared_row_ok. }
  destruct (hits_scored idx1 query out Hscore) as [Hrows Hlen]. set (scored := flat_map _ out) in *.
  destruct (scored_rows_spec idx1 query (map fst out) Hok1 (ao_nodup _ _ _ _ _ _ Ha)) as [Hnd Hin]. rewrite <- Hrows in Hnd, Hin.
  pose proof (sort_by_perm best_first scored) as Hp.
  assert (Hsc : forall id s, In (id, s) scored -> id <> "" /\ exists v, vector_of idx id = Some v /\ s = score idx query v).
  { intros id s H. apply Hin in H as (H1 & i & w & _ & _ & H2 & ->). split; [done|]. exists w.
    split; [by rewrite <- (same_vector idx idx1)|]. unfold score. by rewrite S5. }
  eexists _, _. split; [reflexivity|]. split_and!.
  - done.
  - split; cbn [with_graph dirty graph_vectors hnsw reverse_map dimensions vec_metric]; [done|].
    intros _ g1 [= <-]. done.
  - eapply Permutation_NoDup; [apply Permutation_map, Hp|done].
  - rewrite <- (Permutation_length Hp), Hlen. apply Ha.
  - intros id s H. apply Hsc. by rewrite sort_by_In in H.
  - intros Hso. apply (sort_by_sorted _ _ _ best_first_tp), List.Forall_forall. intros [id s] H.
    apply Hsc in H as (_ & w & Hw & ->). by eapply Hso.
  - intros (id & w & Hidne & Hw) Hk1 E. rewrite E in Hp. apply Permutation_sym, Permutation_nil in Hp. rewrite Hp in Hlen.
    destruct (vector_live idx id w Hok Hw) as (i & Hi & _). rewrite <- S2 in Hi.
    apply (ao_some _ _ _ _ _ _ Ha); [|done|by destruct out]. intros Enil.
    assert (Hx : In i (rev (live_rows (reverse_map idx1)))); [|by rewrite Enil in Hx].
    apply in_rev. rewrite rev_involutive. apply live_rows_spec. by exists id.
Qed.
End Searches.

(** ** Caches *)

Section Caches.
Context {SE : StdEnv} {SL : StdLaws SE} {Ln : LnOps}.

Lemma caches_new d mt : caches_ok (new d mt).
Proof. by split. Qed.

Lemma caches_dirty idx : dirty idx = true -> caches_ok idx.
Proof. intros H. split; rewrite H; done. Qed.

Lemma caches_insert idx id v : caches_ok idx -> caches_ok (insert idx id v).
Proof. intros H. unfold insert. destruct (negb _); [done|]. by apply caches_dirty. Qed.

Lemma caches_remove idx id : caches_ok idx -> caches_ok (remove idx id).
Proof. intros H. unfold remove. destruct (id_map idx !! id); [|done]. by apply caches_dirty. Qed.

(** An index that has not been prepared. *)
Lemma caches_fresh idx : rows_ok idx -> hnsw idx = None -> graph_vectors idx = [] -> caches_ok idx.
Proof.
  intros Hok Hh Hg. split; [|intros _ g; by rewrite Hh]. rewrite Hg. intros _ Hl. symmetry. apply length_zero_iff_nil.
  rewrite (proj1 (prepared_spec idx Hok)). done.
Qed.

Context {B : BsonOps}.

(** The vector of an id in some documents: that of the last one with the id and a vector. *)
Definition stored_vector (field : string) (d : nat) (docs : list document) (id : string) : option (list f32) :=
  fold_left (fun acc doc =>
    match vec_id doc with
    | Some id' => if id' =s? id then match extract_vector doc field d with Some v => Some v | None => acc end else acc
    | None => acc
    end) docs None.

Lemma extract_length doc field d v : extract_vector doc field d = Some v -> length v = d.
Proof.
  unfold extract_vector. destruct (get_value doc field) as [[]|]; try done. destruct (negb _); [done|].
  destruct (Nat.eqb_spec (length (float_elements a)) d) as [H|]; [|done]. by intros [= <-].
Qed.

Lemma raw_insert_caches idx id v : hnsw idx = None -> graph_vectors idx = [] ->
  hnsw (raw_insert idx id v) = None /\ graph_vectors (raw_insert idx id v) = [] /\
  vec_metric (raw_insert idx id v) = vec_metric idx /\ opt_ef_construction (raw_insert idx id v) = opt_ef_construction idx.
Proof.
  intros H1 H2. unfold raw_insert, remove. destruct (negb _); [done|]. by destruct (id_map idx !! id).
Qed.

Lemma insert_docs_ok field docs idx :
  rows_ok idx -> hnsw idx = None -> graph_vectors idx = [] ->
  (Z.of_nat (length (reverse_map idx) + length docs) <= 2 ^ 32)%Z ->
  let idx' := fold_left (insert_doc field) docs idx in
  rows_ok idx' /\ hnsw idx' = None /\ graph_vectors idx' = [] /\ dimensions idx' = dimensions idx /\
  vec_metric idx' = vec_metric idx /\ opt_ef_construction idx' = opt_ef_construction idx /\
  forall id, vector_of idx' id = fold_left (fun acc doc =>
    match vec_id doc with
    | Some id' => if id' =s? id then match extract_vector doc field (dimensions idx) with Some v => Some v | None => acc end else acc
    | None => acc
    end) docs (vector_of idx id).
Proof.
  revert idx. induction docs as [|doc docs IH]; intros idx Hok Hh Hg Hlen; [done|]. cbn [fold_left length] in *.
  unfold insert_doc at 2 4 6 8 10 12 14. destruct (vec_id doc) as [id0|] eqn:Ei; [|apply IH; try done; lia].
  destruct (extract_vector doc field (dimensions idx)) as [v|] eqn:Ev; cycle 1.
  { destruct (IH idx Hok Hh Hg ltac:(lia)) as (H1 & H2 & H3 & H4 & H5 & H6 & H7). split_and!; try done.
    intros id. rewrite H7. by destruct (id0 =s? id). }
  destruct (raw_insert_ok idx id0 v Hok (extract_length _ _ _ _ Ev) ltac:(lia)) as (R1 & R2 & R3 & R4).
  destruct (raw_insert_caches idx id0 v Hh Hg) as (C1 & C2 & C3 & C4).
  destruct (IH (raw_insert idx id0 v) R1 C1 C2 ltac:(lia)) as (H1 & H2 & H3 & H4 & H5 & H6 & H7).
  split_and!; try congruence; try done. intros id. rewrite H7, R4, R2. f_equal.
  destruct (String.eqb_spec id0 id) as [->|Hne]; [by rewrite decide_True|by rewrite decide_False].
Qed.

(** An index built from documents has their vectors. *)
Lemma build_ok docs field d mt ef m :
  (Z.of_nat (length docs) <= 2 ^ 32)%Z ->
  heap_with_capacity (Z.max (match ef with Some ef => ef | None => 200%Z end) 1) = Ok tt ->
  exists idx, build_with_params docs field d mt ef m = Ok idx /\
    same_rows (fold_left (insert_doc field) docs (unbuilt d mt ef m)) idx /\ rows_ok idx /\ caches_ok idx /\ build_fits idx /\
    dimensions idx = d /\ vec_metric idx = mt /\ forall id, vector_of idx id = stored_vector field d docs id.
Proof.
  intros Hlen Hf. unfold build_with_params. set (idx0 := unbuilt d mt ef m).
  assert (H0 : rows_ok idx0) by (split; cbn; [done|done|by intros id z; rewrite lookup_empty|lia]).
  destruct (insert_docs_ok field docs idx0 H0 eq_refl eq_refl Hlen) as (H1 & H2 & H3 & H4 & H5 & H6 & H7).
  set (idx1 := fold_left (insert_doc field) docs idx0) in *.
  assert (Hf1 : build_fits idx1) by (unfold build_fits; by rewrite H6).
  destruct (rebuild_ok idx1 H1 (caches_fresh _ H1 H2 H3) Hf1) as (idx & -> & Hs & Hc & _ & _). exists idx.
  pose proof Hs as (_ & _ & _ & Hd & Hm & He).
  assert (Hd0 : dimensions idx0 = d) by done. assert (Hm0 : vec_metric idx0 = mt) by done.
  split_and!; [done|done|by eapply same_rows_ok|done| |congruence|congruence|].
  - unfold build_fits. by rewrite He.
  - intros id. rewrite (same_vector _ _ id Hs), H7. done.
Qed.
End Caches.

(** ** Bytes and back *)

Section Bytes.
Context {SE : StdEnv} {SL : StdLaws SE} {Ln : LnOps}.

(** Strings of UTF-8, lengths that [as u32] keeps, and canonical numbers. *)
Definition vector_fits (idx : VectorIndex) : Prop :=
  Text.fits (Z.of_nat (dimensions idx)) /\ Text.str_fits (vec_metric idx) /\
  Text.fits (Z.of_nat (length (reverse_map idx))) /\ Forall Text.str_fits (reverse_map idx) /\
  forallb f32_valid (vectors idx) = true.

Lemma f32_reads x : f32_valid x = true -> Text.reads_back f32_le read_f32 x.
Proof.
  intros H rest. unfold read_f32, f32_le. rewrite (Text.u32_reads _ (f32_bits_bound x H)). by rewrite f32_bits_roundtrip.
Qed.

Lemma f32s_length l : length (flat_map f32_le l) = (length l * 4)%nat.
Proof.
  induction l as [|x l IH]; [done|]. cbn [flat_map length]. rewrite length_app, IH. unfold f32_le, Text.u32_le.
  rewrite length_rev, be_bytes_length. lia.
Qed.

Lemma rows_deleted idx v : rows_ok idx -> length v = dimensions idx -> (Z.of_nat (length (reverse_map idx)) < 2 ^ 32)%Z ->
  rows_ok (push_row idx (id_map idx) "" v).
Proof.
  intros Hok Hv Hlt. split; cbn [push_row vectors reverse_map dimensions id_map]; rewrite ?length_app.
  - rewrite (ro_rows _ Hok), Hv. cbn [length]. lia.
  - intros id i Hne Hi. apply lookup_app_Some in Hi as [Hi|[_ Hi]]; [by apply Hok|].
    apply list_lookup_singleton_Some in Hi as [_ <-]. done.
  - intros id z Hz. destruct (ro_back _ Hok id z Hz) as (i & -> & Hi). exists i. split; [done|]. by apply lookup_app_l_Some.
  - cbn [length]. lia.
Qed.

(** A row under a new id is put at the end. *)
Lemma raw_insert_new idx id v : id_map idx !! id = None -> length v = dimensions idx ->
  reverse_map (raw_insert idx id v) = reverse_map idx ++ [id] /\ vectors (raw_insert idx id v) = vectors idx ++ v /\
  dimensions (raw_insert idx id v) = dimensions idx /\ vec_metric (raw_insert idx id v) = vec_metric idx.
Proof. intros Hno Hv. unfold raw_insert. rewrite Hv, Nat.eqb_refl, Hno. done. Qed.

Lemma row_split idx i : row (vectors idx) (dimensions idx) i = take (dimensions idx) (drop (i * dimensions idx) (vectors idx)).
Proof. done. Qed.

(** One row is read from the bytes written for it. *)
Lemma read_row_put idx cur i id rest :
  rows_ok idx -> vector_fits idx -> rows_ok cur -> dimensions cur = dimensions idx ->
  reverse_map idx !! i = Some id -> reverse_map cur = take i (reverse_map idx) ->
  vectors cur = take (i * dimensions idx) (vectors idx) ->
  exists cur', read_row cur (put_row idx i id ++ rest) = Some (cur', rest) /\ rows_ok cur' /\
    dimensions cur' = dimensions idx /\ vec_metric cur' = vec_metric cur /\
    reverse_map cur' = take (S i) (reverse_map idx) /\ vectors cur' = take (S i * dimensions idx) (vectors idx).
Proof.
  intros Hok (Fd & Fm & Fn & Fr & Fv) Hcur Hd Hi Hrev Hvec. set (v := row (vectors idx) (dimensions idx) i).
  apply lookup_lt_Some in Hi as Hlt.
  assert (Hend : (i * dimensions idx + dimensions idx <= length (vectors idx))%nat) by (rewrite (ro_rows _ Hok); nia).
  assert (Hvl : length v = dimensions idx) by (by apply row_length).
  assert (Hfid : Text.str_fits id) by (rewrite List.Forall_forall in Fr; by eapply Fr, list_elem_of_In, list_elem_of_lookup_2).
  assert (Hvv : Forall (Text.reads_back f32_le read_f32) v).
  { apply List.Forall_forall. intros x Hx. apply f32_reads. rewrite forallb_forall in Fv. apply Fv.
    unfold v, row in Hx. by apply in_take, in_drop in Hx. }
  unfold read_row, put_row. rewrite (proj2 (Nat.leb_le _ _)) by done. rewrite <- (row_split idx i). fold v.
  rewrite <- app_assoc, (Text.str_reads id Hfid), Hd.
  rewrite (proj2 (Nat.ltb_ge _ _)) by (rewrite length_app, f32s_length, Hvl; lia).
  replace (Text.read_times (dimensions idx) read_f32) with (Text.read_times (length v) read_f32) by (by rewrite Hvl).
  rewrite (Text.times_reads f32_le read_f32 v Hvv).
  assert (Hrl : length (reverse_map cur) = i) by (rewrite Hrev, length_take; lia).
  assert (Hsz : (Z.of_nat (length (reverse_map cur)) < 2 ^ 32)%Z) by (unfold Text.fits in Fn; lia).
  assert (Hnext : take i (reverse_map idx) ++ [id] = take (S i) (reverse_map idx)) by (symmetry; by apply take_S_r).
  assert (Hvnext : take (i * dimensions idx) (vectors idx) ++ v = take (S i * dimensions idx) (vectors idx)).
  { unfold v, row. replace (S i * dimensions idx)%nat with (i * dimensions idx + dimensions idx)%nat by lia.
    symmetry. apply take_add_l || (rewrite <- take_take_drop; done). }
  destruct (String.eqb_spec id "") as [->|Hne].
  - eexists. split; [reflexivity|]. split_and!; [apply rows_deleted; [done|congruence|done]|done|done| |]; cbn [push_row reverse_map vectors];
      by rewrite ?Hrev, ?Hvec.
  - assert (Hno : id_map cur !! id = None).
    { destruct (id_map cur !! id) as [z|] eqn:E; [|done]. destruct (ro_back _ Hcur id z E) as (j & -> & Hj).
      rewrite Hrev in Hj. apply lookup_take_Some in Hj as [Hj Hji].
      apply (ro_map _ Hok id j Hne) in Hj. apply (ro_map _ Hok id i Hne) in Hi. rewrite Hi in Hj. injection Hj as Hj%Nat2Z.inj. lia. }
    destruct (raw_insert_new cur id v Hno ltac:(congruence)) as (R1 & R2 & R3 & R4).
    eexists. split; [reflexivity|]. split_and!; [apply raw_insert_ok; [done|congruence|done]|congruence|done| |];
      by rewrite ?R1, ?R2, ?Hrev, ?Hvec.
Qed.

Lemma read_rows_put idx n : forall cur i,
  rows_ok idx -> vector_fits idx -> rows_ok cur -> dimensions cur = dimensions idx -> (i + n = length (reverse_map idx))%nat ->
  reverse_map cur = take i (reverse_map idx) -> vectors cur = take (i * dimensions idx) (vectors idx) ->
  exists out, read_rows n cur (List.concat (imap (fun j => put_row idx (i + j)) (drop i (reverse_map idx)))) = Some out /\
    rows_ok out /\ dimensions out = dimensions idx /\ vec_metric out = vec_metric cur /\
    reverse_map out = reverse_map idx /\ vectors out = vectors idx.
Proof.
  induction n as [|n IH]; intros cur i Hok Hf Hcur Hd Hn Hrev Hvec.
  { exists cur. split_and!; try done; [rewrite Hrev, take_ge by lia; done|].
    rewrite Hvec, take_ge; [done|]. rewrite (ro_rows _ Hok). nia. }
  destruct (lookup_lt_is_Some_2 (reverse_map idx) i ltac:(lia)) as [id Hi]. rewrite (drop_S _ _ _ Hi).
  cbn [imap List.concat read_rows]. rewrite Nat.add_0_r.
  destruct (read_row_put idx cur i id (List.concat (imap ((fun j => put_row idx (i + j)) ∘ S) (drop (S i) (reverse_map idx)))) Hok Hf Hcur Hd Hi Hrev Hvec)
    as (cur' & Hread & H1 & H2 & H3 & H4 & H5). rewrite Hread.
  destruct (IH cur' (S i) Hok Hf H1 H2 ltac:(lia) H4 H5) as (out & Hout & H6 & H7 & H8 & H9 & H10).
  exists out. split_and!; try done; [|congruence]. rewrite <- Hout. do 2 f_equal. apply imap_ext. intros j x _. unfold compose. by rewrite Nat.add_succ_comm.
Qed.

(** Reading rows builds no graph and sets no parameter. *)
Lemma read_rows_options count : forall idx data out, read_rows count idx data = Some out ->
  hnsw out = hnsw idx /\ opt_m out = opt_m idx /\ opt_ef_construction out = opt_ef_construction idx.
Proof.
  induction count as [|count IH]; intros idx data out H; cbn [read_rows] in H; [by injection H as <-|].
  destruct (read_row idx data) as [[idx1 data1]|] eqn:E; [|done]. apply IH in H as (-> & -> & ->). revert E. unfold read_row.
  destruct (Text.read_str data) as [[doc_id rest]|]; [|done]. destruct (_ <? _)%nat; [done|].
  destruct (Text.read_times _ _ _) as [[vec rest']|]; [|done]. intros [= <- _]. destruct (doc_id =s? ""); [done|].
  unfold raw_insert, remove. destruct (negb _); [done|]. by destruct (id_map idx !! doc_id).
Qed.

(** C37: an index whose maps and rows agree and whose sizes fit the format (lengths in 32 bits,
    valid floats) is read back from its bytes with the same rows, vectors and metric and the
    same vector under every id but the empty one, which marks removed rows; it has no graph and
    no parameters of its own, so that the next search builds the graph with the default ones,
    whatever the parameters of the index written. *)
Theorem vector_index_roundtrip idx :
  rows_ok idx -> vector_fits idx ->
  exists idx', from_bytes (to_bytes idx) = Some idx' /\ rows_ok idx' /\
    (hnsw idx' = None /\ dirty idx' = true /\ opt_m idx' = None /\ opt_ef_construction idx' = None) /\
    reverse_map idx' = reverse_map idx /\ vectors idx' = vectors idx /\ dimensions idx' = dimensions idx /\
    vec_metric idx' = vec_metric idx /\ forall id, id <> "" -> vector_of idx' id = vector_of idx id.
Proof.
  intros Hok Hf. pose proof Hf as (Fd & Fm & Fn & _). unfold from_bytes, to_bytes.
  rewrite (proj2 (Nat.ltb_ge _ _)); cycle 1.
  { rewrite !length_app. unfold Text.put_str. rewrite length_app. unfold Text.u32_le. rewrite !length_rev, !be_bytes_length. lia. }
  rewrite (Text.u32_reads _ Fd), (Text.str_reads _ Fm), (Text.u32_reads _ Fn), !Nat2Z.id.
  destruct (read_rows_put idx (length (reverse_map idx)) (new (dimensions idx) (vec_metric idx)) 0) as (out & Hout & H1 & H2 & H3 & H4 & H5);
    [done|done|apply rows_new|done..|].
  rewrite drop_0 in Hout.
  change (fun j => put_row idx (0 + j)) with (put_row idx) in Hout. rewrite Hout. exists (set_dirty out). cbn [option_map].
  assert (Hs : rows_ok (set_dirty out)) by (destruct H1 as [A1 A2 A3 A4]; by split).
  apply read_rows_options in Hout as (Hg & Hm & He).
  split_and!; try done. intros id Hne. unfold vector_of at 2. destruct (id_map idx !! id) as [z|] eqn:E.
  - destruct (ro_back _ Hok id z E) as (i & -> & Hi). cbn [option_map]. rewrite Nat2Z.id, <- H4 in *.
    rewrite (live_vector (set_dirty out) i id Hs Hi Hne). cbn [set_dirty vectors dimensions]. by rewrite H5, H2.
  - destruct (vector_of (set_dirty out) id) as [v|] eqn:Ev; [|done].
    destruct (vector_live _ _ _ Hs Ev) as (i & Hi & _). cbn [set_dirty reverse_map] in Hi. rewrite H4 in Hi.
    rewrite (ro_map _ Hok id i Hne Hi) in E. done.
Qed.
End Bytes.
End Vector.

(** ** Witnesses and behaviours worth recording *)

Section VectorWitness.
Import RefStd RefLn.

(** Three vectors of the plane, one of them replaced and one removed. *)
Definition plane : VectorIndex :=
  Vector.remove (Vector.insert (Vector.insert (Vector.insert (Vector.insert (Vector.new 2 "euclidean")
    "a" (floats [0; 0]%Z)) "b" (floats [3; 4]%Z)) "c" (floats [1; 1]%Z)) "a" (floats [6; 8]%Z)) "b".

Lemma plane_step idx id v : Vector.rows_ok idx -> (Z.of_nat (length (reverse_map idx)) < 2 ^ 32)%Z ->
  Vector.rows_ok (Vector.insert idx id v) /\ Vector.rows_ok (Vector.remove idx id).
Proof.
  intros H1 H2. split; [|by apply Vector.rows_remove]. unfold Vector.insert.
  destruct (Nat.eqb_spec (length v) (dimensions idx)); [|done]. cbn [negb].
  destruct (Vector.raw_insert_ok idx id v H1) as [[A1 A2 A3 A4] _]; [done|done|]. by split.
Qed.

Lemma plane_rows : Vector.rows_ok plane.
Proof.
  unfold plane. refine (proj2 (plane_step _ _ [] _ _)); [|reflexivity].
  do 4 (refine (proj1 (plane_step _ _ _ _ _)); [|reflexivity]). apply Vector.rows_new.
Qed.

Lemma plane_caches : Vector.caches_ok plane.
Proof. apply Vector.caches_dirty. reflexivity. Qed.

Lemma vector_index_is_map_witness :
  Vector.vector_of (Vector.insert plane "d" (floats [5; 5]%Z)) "d" = Some (floats [5; 5]%Z) /\
  Vector.vector_of (Vector.remove plane "c") "a" = Some (floats [6; 8]%Z).
Proof.
  destruct (Vector.vector_index_is_map plane "d" (floats [5; 5]%Z) plane_rows) as (_ & _ & H & _); [reflexivity|].
  destruct (Vector.vector_index_is_map plane "c" [] plane_rows) as (_ & _ & _ & H'); [reflexivity|].
  rewrite H, H'. vm_compute. split; reflexivity.
Defined.

Lemma search_exact_spec_witness :
  exists all, snd (Vector.search_exact plane origin 1) = iter_take 1 all /\ List.NoDup (map fst all) /\
    (forall id s, In (id, s) all <-> id <> "" /\ exists v, Vector.vector_of plane id = Some v /\ s = Vector.score plane origin v) /\
    (Vector.scores_ok plane origin -> sorted_by best_first all).
Proof. exact (Vector.search_exact_spec plane origin 1 plane_rows plane_caches eq_refl). Defined.

Lemma search_sound_witness :
  exists idx' out, Vector.search plane origin 1 = Ok (idx', out) /\ Vector.same_rows plane idx' /\ Vector.caches_ok idx' /\
    List.NoDup (map fst out) /\ (Z.of_nat (length out) <= 1)%Z /\
    (forall id s, In (id, s) out -> id <> "" /\ exists v, Vector.vector_of plane id = Some v /\ s = Vector.score plane origin v) /\
    (Vector.scores_ok plane origin -> sorted_by best_first out) /\
    ((exists id v, id <> "" /\ Vector.vector_of plane id = Some v) -> (1 <= 1)%Z -> out <> []).
Proof.
  apply (Vector.search_sound plane origin 1 plane_rows plane_caches).
  - vm_compute. reflexivity.
  - reflexivity.
  - discriminate.
  - lia.
  - vm_compute. reflexivity.
Defined.

(** Both searches find the nearest vector. *)
Example nearest_id :
  map fst (snd (Vector.search_exact plane origin 1)) = ["c"] /\
  match Vector.search plane origin 1 with Ok (_, out) => map fst out = ["c"] | Err _ => False end.
Proof. vm_compute. split; reflexivity. Qed.

Lemma vector_index_roundtrip_witness :
  exists idx', Vector.from_bytes (Vector.to_bytes plane) = Some idx' /\ Vector.rows_ok idx' /\
    (hnsw idx' = None /\ dirty idx' = true /\ opt_m idx' = None /\ opt_ef_construction idx' = None) /\
    reverse_map idx' = reverse_map plane /\ vectors idx' = vectors plane /\ dimensions idx' = dimensions plane /\
    vec_metric idx' = vec_metric plane /\ forall id, id <> "" -> Vector.vector_of idx' id = Vector.vector_of plane id.
Proof.
  apply (Vector.vector_index_roundtrip plane plane_rows).
  split; [vm_compute; split; [discriminate|reflexivity]|]. split; [vm_compute; split; [reflexivity|split; [discriminate|reflexivity]]|].
  split; [vm_compute; split; [discriminate|reflexivity]|]. split; [|vm_compute; reflexivity].
  repeat constructor; try (vm_compute; reflexivity); vm_compute; discriminate.
Defined.

(** The rows of removed ids have the empty id: a vector under it is stored and never found. *)
Theorem empty_id_not_found :
  let idx := Vector.insert (Vector.new 2 "euclidean") "" (floats [1; 1]%Z) in
  Vector.len idx = 1%nat /\ Vector.vector_of idx "" = Some (floats [1; 1]%Z) /\ snd (Vector.search_exact idx origin 1) = [].
Proof. vm_compute. split_and!; reflexivity. Qed.
End VectorWitness.
