(* ===== verification/VectorSearch.v ===== *)
(** * $vectorSearch

    [src/rust/smongo-engine/src/aggregation/vector.rs], the [$vectorSearch]
    stages of [aggregation/stages.rs], and the vector query of a [find]
    ([collection/mod.rs], [collection/exec.rs]): documents are scored by an
    index built for the query.

    The stage is the one the pipeline dispatches to, and it preserves the types
    of the documents; with [exact] it returns the best [limit] documents. *)

From Stdlib Require Import ZArith Lia Ascii String Strings.Byte Permutation Sorted.
From S2P Require Import Prelude F64 F32 Bson RefBson Paths Geo Query Update IndexKey Schema Collation Expressions Accumulators.
From S2P Require Import Hnsw HnswExact Stages StageLaws Joins GeoNear SearchIndexes TextIndex VectorIndex.
From stdpp Require Import base tactics list strings gmap.

Open Scope string_scope.
Open Scope list_scope.

(** Source: aggregation/vector.rs:27-39 (VectorSearchSpec). *)
Record VectorSearchSpec : Type := {
  path : string;
  query_vec : list f32;
  vs_limit : Z;
  num_candidates : Z;
  vs_metric : string;
  score_field : string;
  mql_filter : option document;
  exact : bool }.

Section VectorSearch.
Context {B : BsonOps} {Lm : Libm} {G : S2} {T : TextEnv} {FP : F64Parse} {A : AggEnv} {SE : StdEnv} {Ln : LnOps}.
#[local] Existing Instance engine.

(** [v.as_i64().or_else(|| v.as_i32().map(|i| i as i64))]. *)
Definition as_integer (v : bson) : option Z := match v with BInt64 n | BInt32 n => Some n | _ => None end.

(** Source: aggregation/vector.rs:42-91 (parse). *)
Definition parse (vs_doc : document) : result VectorSearchSpec agg_failure :=
  match get_opt as_str vs_doc "path" with
  | None => missing_field "$vectorSearch.path required"
  | Some path =>
      match get_opt as_array_opt vs_doc "queryVector" with
      | None => missing_field "$vectorSearch.queryVector required"
      | Some query_vector_bson =>
          match Vector.float_elements query_vector_bson with
          | [] => invalid_stage "$vectorSearch.queryVector must be a non-empty numeric array"
          | query_vec =>
              let limit := wrap_u64 (match and_then (doc_get vs_doc "limit") as_integer with Some n => n | None => 10 end) in
              let num_candidates := wrap_u64 (match and_then (doc_get vs_doc "numCandidates") as_integer with
                                              | Some n => n | None => wrap_i64 limit end) in
              let metric := match get_opt as_str vs_doc "metric" with
                            | Some m => m
                            | None => match get_opt as_str vs_doc "similarity" with Some m => m | None => "cosine" end
                            end in
              Ok {| path := path; query_vec := query_vec; vs_limit := limit; num_candidates := num_candidates;
                    vs_metric := metric; score_field := get_str_or vs_doc "scoreField" "_vectorScore";
                    mql_filter := get_opt as_document vs_doc "filter";
                    exact := match get_opt as_bool vs_doc "exact" with Some b => b | None => false end |}
          end
      end
  end.

Definition agg_panics {X} (r : result X string) : result X agg_failure := map_err AggPanic r.

(** [hits.into_iter().collect::<HashMap<_, _>>()]. *)
Definition score_map (hits : list (string * f32)) : gmap string f32 :=
  fold_left (fun m '(id, s) => <[id := s]> m) hits ∅.

(** Source: aggregation/vector.rs:157-169 (score_documents). *)
Definition scored_docs (id_score : gmap string f32) (docs : list document) : list (document * f32) :=
  omap (fun doc =>
    match Vector.vec_id doc with
    | Some id_str => option_map (fun score => (doc, score)) (id_score !! id_str)
    | None => None
    end) docs.

(** Source: aggregation/vector.rs:139-173 (score_documents). *)
Definition score_documents (docs : list document) (field : string) (query_vec : list f32) (limit : Z)
  (metric : string) (exact : bool) : result (list (document * f32)) agg_failure :=
  let dim := length query_vec in
  let? idx := agg_panics (Vector.build docs field dim metric) in
  let? hits := if exact then Ok (snd (Vector.search_exact idx query_vec limit))
               else let? (_, hits) := agg_panics (Vector.search idx query_vec limit) in Ok hits in
  Ok (sort_by best_first (scored_docs (score_map hits) docs)).

Definition with_score (field : string) (r : document * f32) : document :=
  doc_insert (fst r) field (BDouble (f64_of_f32 (snd r))).

(** [eval_query(d, filter).map_err(AggregationError::Other)?], and no filter. *)
Definition passes (filter : option document) (d : document) : result bool agg_failure :=
  match filter with Some filter => map_err agg_of_error (eval_query d filter) | None => Ok true end.

(** Source: aggregation/vector.rs:94-129 (vector_search_stage). *)
Definition vector_search_stage (docs : list document) (spec : bson) : result (list document) agg_failure :=
  match spec with
  | BDocument vs_doc =>
      let? s := parse vs_doc in
      let? candidates := filter_result (passes (mql_filter s)) docs in
      let? scored := score_documents candidates (path s) (query_vec s) (vs_limit s) (vs_metric s) (exact s) in
      Ok (map (with_score (score_field s)) scored)
  | _ => invalid_stage "$vectorSearch requires document"
  end.

(** Source: aggregation/stages.rs:1826-1863 (stage_vector_search_stream). *)
Definition stage_vector_search_stream (input : DocStream) (spec : bson) : result DocStream agg_failure :=
  match spec with
  | BDocument vs_doc =>
      let? s := parse vs_doc in
      let? candidates := fold_result (fun candidates (r : result document agg_failure) =>
        let? doc := r in
        let? kept := passes (mql_filter s) doc in
        Ok (if (kept : bool) then candidates ++ [doc] else candidates)) [] input in
      let? scored := score_documents candidates (path s) (query_vec s) (vs_limit s) (vs_metric s) (exact s) in
      Ok (stream_of (map (with_score (score_field s)) scored))
  | _ => invalid_stage "$vectorSearch requires document"
  end.

(** Source: aggregation/stages.rs:1868-1899 (stage_vector_search_stream_indexed). *)
Definition stage_vector_search_stream_indexed (input : DocStream) (spec : bson) (idx_ctx : option PipelineIndexCtx)
  : result DocStream agg_failure :=
  match idx_ctx, spec with
  | Some ctx, BDocument vs_doc =>
      match parse vs_doc with
      | Ok s =>
          if negb (path s =s? "") && negb (length (query_vec s) =? 0)%nat then
            match vector_search (provider ctx) (source_collection ctx) (path s) (query_vec s) (vs_limit s)
                    (num_candidates s) (vs_metric s) (mql_filter s) (exact s) with
            | Ok (Some scored) => Ok (stream_of (map (with_score (score_field s)) scored))
            | Err (AggPanic msg) => Err (AggPanic msg)
            | _ => stage_vector_search_stream input spec
            end
          else stage_vector_search_stream input spec
      | Err _ => stage_vector_search_stream input spec
      end
  | _, _ => stage_vector_search_stream input spec
  end.

(** ** Vector queries of a find *)

(** Source: collection/mod.rs:266-291 (extract_vector_query). *)
Definition extract_vector_query (filter : document) (field : string) : option (list f32 * Z) :=
  let of_array (arr : list bson) (k : Z) :=
    let vec := Vector.float_elements arr in
    if negb (length vec =? length arr)%nat || (length vec =? 0)%nat then None else Some (vec, k) in
  match doc_get filter field with
  | Some (BArray arr) => of_array arr 10%Z
  | Some (BDocument d) =>
      let k := match and_then (opt_or (doc_get d "$k") (doc_get d "$limit")) as_integer with
               | Some n => Z.max n 1 | None => 10%Z end in
      match opt_or (doc_get d "$near") (doc_get d "$vector") with
      | Some (BArray a) => of_array a k
      | _ => None
      end
  | _ => None
  end.

(** Source: collection/exec.rs:627-642 (collect_vector_index_search). The ids found among
    [all_docs]. *)
Definition nearest_ids (all_docs : list document) (query : list f32 * Z) (field : string) (dimensions : Z)
  (metric : string) (ef_construction m : option Z) (indexing_method : string) : result (list string) string :=
  let? vec_idx := Vector.build_with_params all_docs field (Z.to_nat dimensions) metric ef_construction m in
  let? results := if indexing_method =s? "flat" then Ok (snd (Vector.search_exact vec_idx (fst query) (snd query)))
                  else let? (_, out) := Vector.search vec_idx (fst query) (snd query) in Ok out in
  Ok (map fst results).
End VectorSearch.

(** ** The exact search of a stage *)

Section ExactStage.
Context {B : BsonOps} {Lm : Libm} {G : S2} {T : TextEnv} {FP : F64Parse} {A : AggEnv} {SE : StdEnv}
  {SL : StdLaws SE} {Ln : LnOps}.
#[local] Existing Instance engine.

(** The score of a vector for a query. *)
Definition score_of (metric : string) (query v : list f32) : f32 :=
  atlas_score (compute_distance (prepare_for_graph metric query) (prepare_for_graph metric v) (hnsw_metric metric))
    (metric =s? "euclidean").

(** A document with an id and a vector under the path, its id, and its score. *)
Definition doc_score (field metric : string) (query : list f32) (doc : document) : option (document * f32) :=
  match Vector.vec_id doc, Vector.extract_vector doc field (length query) with
  | Some _, Some v => Some (doc, score_of metric query v)
  | _, _ => None
  end.

Definition doc_row (field : string) (d : nat) (doc : document) : option (string * list f32) :=
  match Vector.vec_id doc, Vector.extract_vector doc field d with
  | Some id, Some v => Some (id, v)
  | _, _ => None
  end.

(** The documents have different ids, none of them empty. *)
Definition distinct_ids (docs : list document) : Prop :=
  List.NoDup (omap Vector.vec_id docs) /\ ~ In "" (omap Vector.vec_id docs).

Lemma distinct_cons doc docs : distinct_ids (doc :: docs) ->
  distinct_ids docs /\ forall id, Vector.vec_id doc = Some id -> id <> "" /\ ~ In id (omap Vector.vec_id docs).
Proof.
  intros [Hn He]. cbn [omap list_omap] in *. unfold distinct_ids. destruct (Vector.vec_id doc) as [id|]; [|by split].
  inversion_clear Hn as [|? ? H1 H2]. split; [split; [done|intros H; apply He; by right]|].
  intros id' [= <-]. split; [intros ->; apply He; by left|done].
Qed.

(** The rows of an index built from such documents are theirs, in their order. *)
Lemma insert_docs_rows field docs : forall idx, Vector.rows_ok idx -> distinct_ids docs ->
  (Z.of_nat (length (reverse_map idx) + length docs) <= 2 ^ 32)%Z ->
  (forall id, In id (omap Vector.vec_id docs) -> id_map idx !! id = None) ->
  let idx' := fold_left (Vector.insert_doc field) docs idx in
  let rows := omap (doc_row field (dimensions idx)) docs in
  reverse_map idx' = reverse_map idx ++ map fst rows /\ vectors idx' = vectors idx ++ List.concat (map snd rows).
Proof.
  induction docs as [|doc docs IH]; intros idx Hok Hd Hlen Hno; [cbn; by rewrite !app_nil_r|].
  destruct (distinct_cons doc docs Hd) as [Hd' Hid]. cbn [length fold_left omap list_omap] in *.
  unfold Vector.insert_doc at 2 4, doc_row at 1 4. destruct (Vector.vec_id doc) as [id|] eqn:Ei; [|apply IH; [done|done|lia|done]].
  assert (Hno' : forall id', In id' (omap Vector.vec_id docs) -> id_map idx !! id' = None) by (intros; apply Hno; by right).
  destruct (Vector.extract_vector doc field (dimensions idx)) as [v|] eqn:Ev; [|apply IH; [done|done|lia|done]].
  pose proof (Vector.extract_length _ _ _ _ Ev) as Hv. pose proof (Hno id (or_introl eq_refl)) as Hfree.
  destruct (Vector.raw_insert_new idx id v Hfree Hv) as (R1 & R2 & R3 & _).
  destruct (Vector.raw_insert_ok idx id v Hok Hv ltac:(lia)) as (Hok1 & _).
  destruct (IH (Vector.raw_insert idx id v)) as [H1 H2]; [done|done|rewrite R1, length_app; cbn [length]; lia| |].
  - intros id' Hin. unfold Vector.raw_insert. rewrite Hv, Nat.eqb_refl, Hfree. cbn.
    rewrite lookup_insert_ne; [by apply Hno'|]. intros <-. by apply (Hid id eq_refl).
  - rewrite H1, H2, R1, R2, R3. cbn [map fst snd List.concat]. by rewrite <- !app_assoc.
Qed.

Lemma concat_row (vs : list (list f32)) d : forall i v, (forall w, In w vs -> length w = d) -> vs !! i = Some v ->
  row (List.concat vs) d i = v.
Proof.
  induction vs as [|w vs IH]; intros i v Hd Hi; [done|]. pose proof (Hd w (or_introl eq_refl)) as Hw. destruct i as [|i].
  - injection Hi as <-. unfold row. cbn [Nat.mul drop List.concat]. rewrite <- Hw. apply take_app_length.
  - rewrite <- (IH i v); [|intros; apply Hd; by right|done]. unfold row. cbn [List.concat].
    by rewrite drop_app_ge, Hw by lia; replace (S i * d - d)%nat with (i * d)%nat by lia.
Qed.

Lemma flat_map_seq {X Y} (g : nat -> list Y) (h : X -> Y) ps : forall off,
  (forall i p, ps !! i = Some p -> g (off + i)%nat = [h p]) -> flat_map g (seq off (length ps)) = map h ps.
Proof.
  induction ps as [|p ps IH]; intros off H; [done|]. cbn [length seq flat_map map].
  pose proof (H 0%nat p eq_refl) as H0. rewrite Nat.add_0_r in H0. rewrite H0, (IH (S off)); [done|].
  intros i q Hi. rewrite <- (H (S i) q Hi). f_equal. lia.
Qed.

(** The id and the score of a scored document. *)
Definition id_of (doc : document) : string := match Vector.vec_id doc with Some id => id | None => "" end.
Definition hit (p : document * f32) : string * f32 := (id_of (fst p), snd p).

Lemma doc_rows_scored field metric query docs :
  map (fun r => (fst r, score_of metric query (snd r))) (omap (doc_row field (length query)) docs) =
  map hit (omap (doc_score field metric query) docs).
Proof.
  induction docs as [|doc docs IH]; [done|]. cbn [omap list_omap]. unfold doc_row at 1, doc_score at 1.
  destruct (Vector.vec_id doc) as [id|] eqn:Ei; [|done]. destruct (Vector.extract_vector _ _ _) as [v|]; [|done].
  cbn [map]. rewrite IH. unfold hit, id_of. cbn [fst snd]. by rewrite Ei.
Qed.

Lemma doc_row_In field d docs id v : In (id, v) (omap (doc_row field d) docs) ->
  length v = d /\ In id (omap Vector.vec_id docs).
Proof.
  rewrite <- !list_elem_of_In, !list_elem_of_omap. intros (doc & Hin & Hr). unfold doc_row in Hr.
  destruct (Vector.vec_id doc) as [id'|] eqn:Ei; [|done]. destruct (Vector.extract_vector _ _ _) as [v'|] eqn:Ev; [|done].
  injection Hr as -> ->. split; [by eapply Vector.extract_length|]. by exists doc.
Qed.

(** The exact search of the index built from the documents sorts their scores. *)
Lemma build_search_exact docs field query metric ef m k :
  distinct_ids docs -> (Z.of_nat (length docs) <= 2 ^ 32)%Z ->
  heap_with_capacity (Z.max (match ef with Some ef => ef | None => 200%Z end) 1) = Ok tt ->
  exists idx, Vector.build_with_params docs field (length query) metric ef m = Ok idx /\
    snd (Vector.search_exact idx query k) = iter_take k (sort_by best_first (map hit (omap (doc_score field metric query) docs))).
Proof.
  intros Hd Hlen Hcap.
  destruct (Vector.build_ok docs field (length query) metric ef m Hlen Hcap) as (idx & Hb & Hs & Hok & Hc & _ & Hdim & Hm & _).
  exists idx. split; [exact Hb|]. rewrite (Vector.search_exact_eq idx query k Hok Hc) by done. do 2 f_equal.
  set (idx0 := Vector.unbuilt (length query) metric ef m) in *.
  assert (H0 : Vector.rows_ok idx0) by (split; cbn; [done|done|by intros id z; rewrite lookup_empty|lia]).
  destruct (insert_docs_rows field docs idx0 H0 Hd) as [Hr Hv]; [exact Hlen|by intros; apply lookup_empty|].
  change (dimensions idx0) with (length query) in *. destruct Hs as (_ & S2 & S3 & _). rewrite <- S2 in Hr. rewrite <- S3 in Hv.
  cbn [idx0 Vector.unbuilt reverse_map vectors app] in Hr, Hv. rewrite <- doc_rows_scored.
  set (rows := omap _ docs) in *. rewrite Hr, length_map. apply flat_map_seq. intros i [id v] Hi. cbn [Nat.add].
  assert (Hin : In (id, v) rows) by (apply list_elem_of_In; by eapply list_elem_of_lookup_2).
  apply doc_row_In in Hin as [Hvl Hid]. unfold Vector.scored_row. rewrite Hr, list_lookup_fmap, Hi. cbn [fmap option_fmap option_map fst snd].
  destruct (String.eqb_spec id "") as [->|_]; [by apply Hd in Hid|].
  unfold Vector.score, score_of. rewrite Hm, Hdim, Hv. rewrite (concat_row (map snd rows) (length query) i v); [done| |].
  - intros w Hw. apply in_map_iff in Hw as ([id' w'] & <- & Hw). by apply doc_row_In in Hw as [? _].
  - by rewrite list_lookup_fmap, Hi.
Qed.

(** The map of the hits. *)
Lemma score_map_spec hits : List.NoDup (map fst hits) ->
  forall id s, score_map hits !! id = Some s <-> In (id, s) hits.
Proof.
  intros Hnd. assert (H : forall m : gmap string f32, (forall id, In id (map fst hits) -> m !! id = None) -> forall id s,
    fold_left (fun m '(id, s) => <[id := s]> m) hits m !! id = Some s <-> In (id, s) hits \/ m !! id = Some s).
  { induction hits as [|[id0 s0] hits IH]; intros m Hm id s; [cbn; tauto|]. cbn [map fst] in Hnd. inversion_clear Hnd as [|? ? H1 H2].
    cbn [fold_left]. rewrite (IH H2). 2: { intros id' Hin. rewrite lookup_insert_ne; [apply Hm; by right|]. by intros <-. }
    cbn [In]. destruct (decide (id0 = id)) as [<-|Hne].
    - rewrite lookup_insert_eq, (Hm id0 (or_introl eq_refl)). split; [intros [H|[= ->]]; auto|]. by intros [[[= ->]|H]|H]; auto.
    - rewrite lookup_insert_ne by done. split; [intros [H|H]; auto|]. by intros [[[= ? ?]|H]|H]; auto. }
  intros id s. unfold score_map. rewrite H by (intros; apply lookup_empty). rewrite lookup_empty. split; [intros [?|?]; done|auto].
Qed.

Lemma doc_score_Some field metric query doc p : doc_score field metric query doc = Some p ->
  fst p = doc /\ Vector.vec_id doc = Some (id_of doc).
Proof.
  unfold doc_score, id_of. destruct (Vector.vec_id doc); [|done]. destruct (Vector.extract_vector _ _ _); [|done]. by intros [= <-].
Qed.

Lemma distinct_same docs d d' id : distinct_ids docs -> In d docs -> In d' docs ->
  Vector.vec_id d = Some id -> Vector.vec_id d' = Some id -> d = d'.
Proof.
  induction docs as [|x docs IH]; intros Hd Hin Hin' Hi Hi'; [done|]. apply distinct_cons in Hd as [Hd Hx].
  assert (Hno : forall y, Vector.vec_id x = Some id -> In y docs -> Vector.vec_id y = Some id -> False).
  { intros y H1 Hy H2. apply (Hx id H1). apply list_elem_of_In, list_elem_of_omap. exists y. by rewrite list_elem_of_In. }
  destruct Hin as [<-|Hin], Hin' as [<-|Hin']; [done|by destruct (Hno d')|by destruct (Hno d)|by apply IH].
Qed.

Lemma scores_nodup field metric query docs : distinct_ids docs ->
  List.NoDup (map fst (map hit (omap (doc_score field metric query) docs))).
Proof.
  induction docs as [|doc docs IH]; intros Hd; [constructor|]. apply distinct_cons in Hd as [Hd Hx]. cbn [omap list_omap].
  destruct (doc_score field metric query doc) as [p|] eqn:E; [|by apply IH]. apply doc_score_Some in E as [Hp Hid].
  cbn [map]. constructor; [|by apply IH]. cbn [hit fst]. rewrite Hp. intros Hin. apply (Hx _ Hid).
  rewrite map_map in Hin. apply in_map_iff in Hin as (q & Hq & Hin). cbn [hit fst] in Hq. apply list_elem_of_In, list_elem_of_omap in Hin.
  destruct Hin as (d' & Hd' & Es). apply doc_score_Some in Es as [Hf Hi]. rewrite Hf in Hq. rewrite <- Hq.
  apply list_elem_of_In, list_elem_of_omap. eauto.
Qed.

(** The documents of the hits, when the hits are some of the scored documents. *)
Lemma scored_docs_filter field metric query docs hits : distinct_ids docs ->
  List.NoDup (map fst hits) -> incl hits (map hit (omap (doc_score field metric query) docs)) ->
  scored_docs (score_map hits) docs =
  List.filter (fun p => bool_decide (is_Some (score_map hits !! id_of (fst p)))) (omap (doc_score field metric query) docs).
Proof.
  intros Hd Hnd Hincl.
  assert (H : forall doc, In doc docs -> forall id s, Vector.vec_id doc = Some id -> score_map hits !! id = Some s ->
    doc_score field metric query doc = Some (doc, s)).
  { intros doc Hin id s Hid Hs. apply (score_map_spec hits Hnd), Hincl, in_map_iff in Hs as ([d' s'] & [= Hi ->] & Hs).
    apply list_elem_of_In, list_elem_of_omap in Hs as (d & Hin' & Es). pose proof (doc_score_Some _ _ _ _ _ Es) as [Hf Hi']. cbn in Hf. subst d'.
    rewrite Hi in Hi'. rewrite list_elem_of_In in Hin'. by rewrite (distinct_same docs doc d id). }
  clear Hd Hincl. unfold scored_docs. induction docs as [|doc docs IH]; [done|]. cbn [omap list_omap].
  rewrite IH by (intros; eapply H; [by right|done|done]). specialize (H doc (or_introl eq_refl)).
  destruct (Vector.vec_id doc) as [id|] eqn:Ei; cycle 1.
  { unfold doc_score at 2. by rewrite Ei. }
  assert (Hdoc : id_of doc = id) by (unfold id_of; by rewrite Ei).
  destruct (score_map hits !! id) as [s|] eqn:Es; cbn [option_map].
  - rewrite (H id s) by done. cbn [List.filter fst]. rewrite bool_decide_eq_true_2; [done|]. rewrite Hdoc, Es. eauto.
  - destruct (doc_score field metric query doc) as [p|] eqn:Ep; [|done]. apply doc_score_Some in Ep as [Hp _]. cbn [List.filter].
    rewrite bool_decide_eq_false_2; [done|]. rewrite Hp, Hdoc, Es. by intros [? ?].
Qed.

(** Documents without a vector, and scores that are not NaNs. *)
Definition doc_scores_ok (field metric : string) (query : list f32) (docs : list document) : Prop :=
  Forall (fun p => f32_is_nan (snd p) = false) (omap (doc_score field metric query) docs).

(** The first of a list without duplicates are those whose keys the first have. *)
Lemma filter_take {X K} (key : X -> K) (p : X -> bool) n l : List.NoDup (map key l) ->
  (forall x, In x l -> p x = true <-> In (key x) (map key (take n l))) -> List.filter p l = take n l.
Proof.
  revert n. induction l as [|x l IH]; intros n Hnd Hp; [by rewrite take_nil|]. cbn [map] in Hnd. inversion_clear Hnd as [|? ? Hx Hn].
  cbn [List.filter]. destruct n as [|n].
  - assert (p x = false) as -> by (apply not_true_iff_false; intros H; by apply (Hp x (or_introl eq_refl)) in H).
    apply (IH 0%nat Hn). intros y Hy. by rewrite (Hp y) by (by right).
  - assert (p x = true) as -> by (apply (Hp x (or_introl eq_refl)); by left). cbn [take]. f_equal. apply IH; [done|].
    intros y Hy. rewrite (Hp y) by (by right). cbn [take map In]. split; [|auto]. intros [E|H]; [|done].
    destruct Hx. rewrite E. by apply in_map.
Qed.

(** The exact kernel is the first [limit] of the scored documents, sorted. *)
Lemma score_documents_exact docs field query limit metric :
  distinct_ids docs -> (Z.of_nat (length docs) <= 2 ^ 32)%Z ->
  doc_scores_ok field metric query docs ->
  score_documents docs field query limit metric true =
  Ok (iter_take limit (sort_by best_first (omap (doc_score field metric query) docs))).
Proof.
  intros Hd Hlen Hs. unfold score_documents, agg_panics.
  destruct (build_search_exact docs field query metric None None limit Hd Hlen eq_refl) as (idx & Hb & Hsearch).
  unfold Vector.build. rewrite Hb. cbn [map_err]. cbv beta iota.
  rewrite Hsearch. set (all := omap _ docs) in *. f_equal.
  assert (Hsort : sort_by best_first (map hit all) = map hit (sort_by best_first all)).
  { symmetry. exact (sort_by_map hit best_first all). }
  pose proof (sort_by_perm best_first all) as Hp. rewrite Hsort.
  rewrite (iter_take_map hit). set (top := iter_take limit _).
  assert (Hnd : List.NoDup (map (fun p => fst (hit p)) (sort_by best_first all))).
  { rewrite <- map_map. eapply Permutation_NoDup; [apply Permutation_map, Permutation_map, Hp|]. by apply scores_nodup. }
  assert (Hndt : List.NoDup (map fst (map hit top))).
  { unfold top, iter_take. rewrite <- !firstn_map, map_map. rewrite <- (take_drop (Z.to_nat (Z.min limit (Z.of_nat (length (sort_by best_first all))))) (map _ _)) in Hnd.
    by apply List.NoDup_app_remove_r in Hnd. }
  rewrite (scored_docs_filter field metric query docs) by
    (first [done | intros h Hh; apply in_map_iff in Hh as (p & <- & Hh); apply in_map; apply in_take in Hh; by rewrite sort_by_In in Hh]).
  fold all. rewrite <- (sort_by_filter _ _ _ _ Vector.best_first_tp Hs).
  unfold top at 2. unfold iter_take at 1. apply (filter_take (fun p => fst (hit p))); [done|].
  intros p _. rewrite bool_decide_eq_true, <- (map_map hit fst). fold (iter_take limit (sort_by best_first all)). fold top.
  rewrite in_map_iff. split.
  - intros [s H]. apply (score_map_spec _ Hndt) in H. by exists (id_of (fst p), s).
  - intros ([id s] & E & H). cbn in E. subst id. exists s. by apply (score_map_spec _ Hndt).
Qed.

(** The candidates of a stream of documents are those that pass the filter. *)
Lemma candidates_eq filter docs : forall acc,
  fold_result (fun candidates (r : result document agg_failure) =>
    let? doc := r in
    let? kept := passes filter doc in
    Ok (if (kept : bool) then candidates ++ [doc] else candidates)) acc (stream_of docs) =
  let? candidates := filter_result (passes filter) docs in Ok (acc ++ candidates).
Proof.
  induction docs as [|doc docs IH]; intros acc; [cbn; by rewrite app_nil_r|].
  cbn [stream_of map fold_result filter_result]. destruct (passes filter doc) as [kept|]; [|done]. fold (stream_of docs). rewrite IH.
  destruct (filter_result (passes filter) docs) as [cs|]; [|done]. destruct kept; [|done]. by rewrite <- app_assoc.
Qed.

Lemma stream_is_batch docs spec :
  stage_vector_search_stream (stream_of docs) spec = let? out := vector_search_stage docs spec in Ok (stream_of out).
Proof.
  unfold stage_vector_search_stream, vector_search_stage.
  destruct spec as [| | |vs_doc| | | | | | | | | | | | | | | | |]; try done. destruct (parse vs_doc) as [s|]; [|done]. cbv beta iota.
  rewrite candidates_eq. destruct (filter_result _ docs) as [cs|]; [|done]. cbn [app].
  by destruct (score_documents _ _ _ _ _ _).
Qed.

(** C36: with [exact], among the documents that pass the filter, when their ids are different
    texts, none of them empty, and no score is a NaN, the stage scores those that have an id and
    a vector of the dimension of the query, sorts them, the best first, and yields the first
    [limit] with their scores; documents of equal scores keep their order. Documents whose ids
    have the same text are outside the claim: they get one score ([alike_ids_share_score]). *)
Theorem exact_vector_search docs vs_doc s candidates :
  parse vs_doc = Ok s -> exact s = true -> filter_result (passes (mql_filter s)) docs = Ok candidates ->
  distinct_ids candidates -> (Z.of_nat (length candidates) <= 2 ^ 32)%Z ->
  doc_scores_ok (path s) (vs_metric s) (query_vec s) candidates ->
  let out := map (with_score (score_field s)) (iter_take (vs_limit s)
    (sort_by best_first (omap (doc_score (path s) (vs_metric s) (query_vec s)) candidates))) in
  vector_search_stage docs (BDocument vs_doc) = Ok out /\
  stage_vector_search_stream_indexed (stream_of docs) (BDocument vs_doc) None = Ok (stream_of out).
Proof.
  intros Hp He Hf Hd Hl Hs out. cbn [stage_vector_search_stream_indexed]. rewrite stream_is_batch.
  assert (H : vector_search_stage docs (BDocument vs_doc) = Ok out); [|by rewrite H].
  cbn [vector_search_stage]. rewrite Hp. cbv beta iota. rewrite Hf. cbv beta iota. rewrite He, score_documents_exact by done. done.
Qed.

(** The approximate kernel: some of the scored documents. *)
Lemma stored_vector_doc field d docs id v : Vector.stored_vector field d docs id = Some v ->
  exists doc, In doc docs /\ Vector.vec_id doc = Some id /\ Vector.extract_vector doc field d = Some v.
Proof.
  unfold Vector.stored_vector. assert (H : forall acc, fold_left (fun acc doc =>
    match Vector.vec_id doc with
    | Some id' => if id' =s? id then match Vector.extract_vector doc field d with Some v => Some v | None => acc end else acc
    | None => acc end) docs acc = Some v ->
    acc = Some v \/ exists doc, In doc docs /\ Vector.vec_id doc = Some id /\ Vector.extract_vector doc field d = Some v).
  { induction docs as [|doc docs IH]; intros acc H; [by left|]. cbn [fold_left] in H. apply IH in H as [H|(x & Hx & H)]; cycle 1.
    { right. exists x. split; [by right|done]. }
    destruct (Vector.vec_id doc) as [id'|] eqn:Ei; [|by left]. destruct (String.eqb_spec id' id) as [->|]; [|by left].
    destruct (Vector.extract_vector doc field d) as [w|] eqn:Ev; [|by left]. injection H as ->. right. exists doc. by split; [left|]. }
  intros E. apply H in E as [|]; done.
Qed.

Lemma stored_vector_none field d docs id doc v : In doc docs -> Vector.vec_id doc = Some id ->
  Vector.extract_vector doc field d = Some v -> Vector.stored_vector field d docs id <> None.
Proof.
  intros Hin Hid Hv. apply in_split in Hin as (l1 & l2 & ->). unfold Vector.stored_vector. rewrite fold_left_app. cbn [fold_left].
  rewrite Hid, String.eqb_refl, Hv. generalize v. clear. induction l2 as [|doc l2 IH]; intros v; [done|]. cbn [fold_left].
  destruct (Vector.vec_id doc) as [id'|]; [|apply IH]. destruct (id' =s? id); [|apply IH].
  destruct (Vector.extract_vector doc field d); apply IH.
Qed.

Lemma doc_score_In field metric query docs doc id v : In doc docs -> Vector.vec_id doc = Some id ->
  Vector.extract_vector doc field (length query) = Some v ->
  In (id, score_of metric query v) (map hit (omap (doc_score field metric query) docs)).
Proof.
  intros Hin Hid Hv. apply in_map_iff. exists (doc, score_of metric query v). split; [unfold hit, id_of; cbn; by rewrite Hid|].
  apply list_elem_of_In, list_elem_of_omap. exists doc. split; [by apply list_elem_of_In|]. unfold doc_score. by rewrite Hid, Hv.
Qed.

(** The approximate search of the index built from the documents. *)
Lemma build_search docs field query metric limit :
  distinct_ids docs -> (Z.of_nat (length docs) <= 2 ^ 32)%Z -> query <> [] -> (0 <= limit)%Z ->
  heap_with_capacity (Z.max limit 64) = Ok tt ->
  exists idx idx' hits, Vector.build docs field (length query) metric = Ok idx /\
    Vector.search idx query limit = Ok (idx', hits) /\ List.NoDup (map fst hits) /\ (Z.of_nat (length hits) <= limit)%Z /\
    incl hits (map hit (omap (doc_score field metric query) docs)) /\
    (omap (doc_score field metric query) docs <> [] -> (1 <= limit)%Z -> hits <> []).
Proof.
  intros Hd Hlen Hq Hk Hcap.
  destruct (Vector.build_ok docs field (length query) metric None None Hlen eq_refl)
    as (idx & Hb & Hs & Hok & Hc & Hf & Hdim & Hm & Hvec).
  assert (Hd0 : dimensions idx <> 0%nat) by (rewrite Hdim; by destruct query).
  destruct (Vector.search_sound idx query limit) as (idx' & hits & Hrun & _ & _ & Hnd & Hsz & Hin & _ & Hne); try done;
    [by replace (Z.max limit (Z.max limit 64)) with (Z.max limit 64) by lia|].
  exists idx, idx', hits. split_and!; try done.
  - intros [id s] H. apply Hin in H as (_ & v & Hv & ->). rewrite Hvec in Hv. apply stored_vector_doc in Hv as (doc & Hdoc & Hid & Hv).
    unfold Vector.score. rewrite Hm. by eapply doc_score_In.
  - intros Hall Hk1. apply Hne; [|done]. destruct (omap _ docs) as [|[doc sc] rest] eqn:E; [done|].
    assert (Hx : (doc, sc) ∈ omap (doc_score field metric query) docs) by (rewrite E; apply list_elem_of_here).
    apply list_elem_of_omap in Hx as (d0 & Hd0' & Hsc). unfold doc_score in Hsc.
    destruct (Vector.vec_id d0) as [id|] eqn:Ei; [|done]. destruct (Vector.extract_vector d0 field (length query)) as [v|] eqn:Ev; [|done].
    destruct (Vector.stored_vector field (length query) docs id) as [w|] eqn:Es.
    + exists id, w. split; [|by rewrite Hvec]. intros ->. apply Hd. apply list_elem_of_In, list_elem_of_omap. by exists d0.
    + destruct (stored_vector_none field (length query) docs id d0 v); [by apply list_elem_of_In|done..].
Qed.

Lemma parse_bounds vs_doc s : parse vs_doc = Ok s -> query_vec s <> [] /\ (0 <= vs_limit s < 2 ^ 64)%Z.
Proof.
  unfold parse. destruct (get_opt as_str vs_doc "path"); [|done]. destruct (get_opt as_array_opt _ _) as [arr|]; [|done].
  destruct (Vector.float_elements arr) as [|x l]; [done|]. intros [= <-]. cbn. split; [done|]. by apply Z.mod_pos_bound.
Qed.

(** Without [exact], the stage does not panic for a [limit] whose beam can be allocated;
    it yields at most [limit] different documents among those an exact search scores, with
    the same scores, the best first, and at least one when there is one. *)
Theorem approx_vector_search docs vs_doc s candidates :
  parse vs_doc = Ok s -> exact s = false -> filter_result (passes (mql_filter s)) docs = Ok candidates ->
  distinct_ids candidates -> (Z.of_nat (length candidates) <= 2 ^ 32)%Z -> heap_with_capacity (Z.max (vs_limit s) 64) = Ok tt ->
  let all := omap (doc_score (path s) (vs_metric s) (query_vec s)) candidates in
  exists top, vector_search_stage docs (BDocument vs_doc) = Ok (map (with_score (score_field s)) top) /\
    incl top all /\ List.NoDup (map (fun p => id_of (fst p)) top) /\ (Z.of_nat (length top) <= vs_limit s)%Z /\
    (doc_scores_ok (path s) (vs_metric s) (query_vec s) candidates -> sorted_by best_first top) /\
    (all <> [] -> (1 <= vs_limit s)%Z -> top <> []).
Proof.
  intros Hp He Hf Hd Hl Hcap all. destruct (parse_bounds _ _ Hp) as [Hq [Hk _]].
  destruct (build_search candidates (path s) (query_vec s) (vs_metric s) (vs_limit s) Hd Hl Hq Hk Hcap)
    as (idx & idx' & hits & Hb & Hrun & Hnd & Hsz & Hincl & Hne). fold all in Hincl, Hne.
  cbn [vector_search_stage]. rewrite Hp. cbv beta iota. rewrite Hf. cbv beta iota. unfold score_documents, agg_panics.
  rewrite He, Hb. cbn [map_err]. rewrite Hrun. cbn [map_err].
  rewrite (scored_docs_filter (path s) (vs_metric s) (query_vec s) candidates hits Hd Hnd Hincl). fold all.
  set (keep := fun p : document * f32 => _). set (kept := List.filter keep all). pose proof (sort_by_perm best_first kept) as Hperm.
  assert (Hids : List.NoDup (map (fun p => id_of (fst p)) kept)).
  { apply NoDup_map_filter. rewrite <- (map_map hit fst). by apply scores_nodup. }
  exists (sort_by best_first kept). split; [done|]. split_and!.
  - intros p H. rewrite sort_by_In in H. by apply List.filter_In in H as [H _].
  - eapply Permutation_NoDup; [apply Permutation_map, Hperm|done].
  - rewrite <- (Permutation_length Hperm). rewrite <- (length_map (fun p => id_of (fst p))).
    enough (length (map (fun p => id_of (fst p)) kept) <= length (map fst hits))%nat by (rewrite (length_map fst) in *; lia).
    apply NoDup_incl_length; [done|]. intros id H. apply in_map_iff in H as (p & <- & H). apply List.filter_In in H as [_ H].
    apply bool_decide_eq_true in H as [sc H]. apply (score_map_spec _ Hnd) in H. exact (in_map fst _ _ H).
  - intros Hs. apply (sort_by_sorted _ _ _ Vector.best_first_tp). apply List.Forall_forall. intros p H.
    apply List.filter_In in H as [H _]. unfold doc_scores_ok in Hs. rewrite List.Forall_forall in Hs. by apply Hs.
  - intros Hall Hk1 E. rewrite E in Hperm. apply Permutation_sym, Permutation_nil in Hperm.
    destruct hits as [|h hits]; [by apply Hne|]. specialize (Hincl h (or_introl eq_refl)). apply in_map_iff in Hincl as (p & Hh & Hp').
    assert (Hx : In p kept); [|by rewrite Hperm in Hx]. apply List.filter_In. split; [done|]. apply bool_decide_eq_true.
    exists (snd h). apply (score_map_spec _ Hnd). left. subst h. done.
Qed.
End ExactStage.

(** ** Types *)

Section VectorTypes.
Context {B : BsonOps} {Lm : Libm} {G : S2} {T : TextEnv} {FP : F64Parse} {A : AggEnv} {SE : StdEnv}
  {BL : BsonLaws B} {Ln : LnOps}.
#[local] Existing Instance engine.

Lemma scored_docs_In m docs p : In p (scored_docs m docs) -> In (fst p) docs.
Proof.
  unfold scored_docs. rewrite <- list_elem_of_In, list_elem_of_omap. intros (doc & Hin & E).
  destruct (Vector.vec_id doc) as [id|]; [|done]. destruct (m !! id); [|done]. injection E as <-. by apply list_elem_of_In.
Qed.

Lemma score_documents_In docs field query limit metric ex out p :
  score_documents docs field query limit metric ex = Ok out -> In p out -> In (fst p) docs.
Proof.
  unfold score_documents. destruct (agg_panics (Vector.build _ _ _ _)) as [idx|]; [|done]. cbv beta iota zeta.
  match goal with |- match ?m with Ok _ => _ | Err _ => _ end = _ -> _ => destruct m as [hits|]; [|done] end.
  intros [= <-] H. rewrite sort_by_In in H. by eapply scored_docs_In.
Qed.

(** The stage yields well-typed documents on well-typed input. *)
Lemma stage_vector_search_typed : typed_stream (fun s spec => stage_vector_search_stream_indexed s spec None).
Proof.
  intros s spec r Hs Hok H. destruct spec as [| | |vs_doc| | | | | | | | | | | | | | | | |]; try done.
  cbn [stage_vector_search_stream_indexed stage_vector_search_stream] in H. destruct (parse vs_doc) as [p|]; [|done]. cbv beta iota in H.
  match type of H with match ?m with Ok _ => _ | Err _ => _ end = _ => destruct m as [cs|] eqn:Ec end; [|done].
  assert (Hcs : docs_ok cs).
  { refine (fold_result_inv docs_ok _ s _ [] cs _ Ec); [|by intros ? []]. intros acc [d|] acc' Hin Hacc E; [|done]. cbv beta iota in E.
    destruct (passes _ d) as [[]|]; [| |done]; injection E as <-; [|done].
    intros x Hx. apply in_app_iff in Hx as [Hx|[<-|[]]]; [by apply Hacc|by apply Hs]. }
  destruct (score_documents _ _ _ _ _ _) as [out|] eqn:Es in H; [|done]. injection H as <-. apply stream_of_ok.
  intros d Hd. apply in_map_iff in Hd as (q & <- & Hq). apply insert_ok; [|done]. apply Hcs. by eapply score_documents_In.
Qed.
End VectorTypes.

(** ** Witnesses and behaviours worth recording *)

Section VectorSearchWitness.
Import RefBson.RefBson RefAgg RefStd RefLn.
#[local] Existing Instance engine.

Definition doubles (l : list Z) : bson := BArray (map (fun z => BDouble (f64_of_Z z)) l).
Definition at_point (id kind : Z) (p : list Z) : document :=
  [("_id", BInt32 id); ("kind", BInt32 kind); ("v", doubles p)].

(** Four documents, one of another kind and one without a vector. *)
Definition towns : list document :=
  [at_point 1 0 [6; 8]%Z; at_point 2 0 [3; 4]%Z; at_point 3 1 [0; 0]%Z; [("_id", BInt32 4); ("kind", BInt32 0)]; at_point 5 0 [0; 1]%Z].
Definition near_origin_spec (ex : bool) (limit : Z) : document :=
  [("path", BString "v"); ("queryVector", doubles [0; 0]%Z); ("limit", BInt32 limit); ("metric", BString "euclidean");
   ("filter", BDocument [("kind", BInt32 0)]); ("exact", BBoolean ex)].
Definition of_kind_0 : list document :=
  [at_point 1 0 [6; 8]%Z; at_point 2 0 [3; 4]%Z; [("_id", BInt32 4); ("kind", BInt32 0)]; at_point 5 0 [0; 1]%Z].

Lemma towns_distinct : distinct_ids of_kind_0.
Proof.
  split; [|vm_compute; intuition discriminate].
  change (omap Vector.vec_id of_kind_0) with ["1"; "2"; "4"; "5"]. repeat constructor; cbn; intuition discriminate.
Qed.

(** The two nearest of the kind, with their scores. *)
Lemma exact_vector_search_witness :
  exists out, vector_search_stage towns (BDocument (near_origin_spec true 2)) = Ok out /\
    stage_vector_search_stream_indexed (stream_of towns) (BDocument (near_origin_spec true 2)) None = Ok (stream_of out) /\
    map (fun d => doc_get d "_id") out = [Some (BInt32 5); Some (BInt32 2)].
Proof.
  eexists. refine (match exact_vector_search towns (near_origin_spec true 2) _ of_kind_0 _ _ _ towns_distinct _ _ with
    conj H1 H2 => conj H1 (conj H2 _) end); try (vm_compute; reflexivity).
  - vm_compute. discriminate.
  - unfold doc_scores_ok. vm_compute. repeat constructor.
Defined.

Lemma approx_vector_search_witness :
  let all := omap (doc_score "v" "euclidean" (floats [0; 0]%Z)) of_kind_0 in
  exists top, vector_search_stage towns (BDocument (near_origin_spec false 2)) = Ok (map (with_score "_vectorScore") top) /\
    incl top all /\ List.NoDup (map (fun p => id_of (fst p)) top) /\ (Z.of_nat (length top) <= 2)%Z /\
    (doc_scores_ok "v" "euclidean" (floats [0; 0]%Z) of_kind_0 -> sorted_by best_first top) /\
    (all <> [] -> (1 <= 2)%Z -> top <> []).
Proof.
  refine (approx_vector_search towns (near_origin_spec false 2) {| path := "v"; query_vec := floats [0; 0]%Z; vs_limit := 2;
    num_candidates := 2; vs_metric := "euclidean"; score_field := "_vectorScore"; mql_filter := Some [("kind", BInt32 0)];
    exact := false |} of_kind_0 _ _ _ towns_distinct _ _); try (vm_compute; reflexivity). vm_compute. discriminate.
Defined.

(** A query vector of integers is refused as if it were empty; in one with some integers,
    they are dropped, and the query has another dimension. *)
Theorem integer_query_vector :
  VectorSearch.parse [("path", BString "v"); ("queryVector", BArray [BInt32 1; BInt32 2])] =
    invalid_stage "$vectorSearch.queryVector must be a non-empty numeric array" /\
  match VectorSearch.parse [("path", BString "v"); ("queryVector", BArray [BDouble (f64_of_Z 1); BInt32 2])] with
  | Ok s => query_vec s = floats [1]%Z
  | Err _ => False
  end.
Proof. split; vm_compute; reflexivity. Qed.

(** A negative [limit] is a huge one: the exact search returns every document, and the
    approximate one panics. *)
Theorem negative_vector_limit :
  vector_search_stage towns (BDocument (near_origin_spec false (-2))) = Err (AggPanic "capacity overflow") /\
  match vector_search_stage towns (BDocument (near_origin_spec true (-2))) with Ok out => length out = 3%nat | Err _ => False end.
Proof. split; vm_compute; reflexivity. Qed.

(** Ids that print alike are one id: the document of the number is returned with the score of
    the document of the string. *)
Theorem alike_ids_share_score :
  let docs := [[("_id", BInt32 1); ("v", doubles [6; 8]%Z)]; [("_id", BString "1"); ("v", doubles [0; 0]%Z)]] in
  let spec := [("path", BString "v"); ("queryVector", doubles [0; 0]%Z); ("metric", BString "euclidean"); ("exact", BBoolean true)] in
  match vector_search_stage docs (BDocument spec) with
  | Ok [a; b] => doc_get a "_id" = Some (BInt32 1) /\ doc_get a "_vectorScore" = Some (BDouble (f64_of_Z 1)) /\
                 doc_get b "_vectorScore" = Some (BDouble (f64_of_Z 1))
  | _ => False
  end.
Proof. vm_compute. split_and!; reflexivity. Qed.
End VectorSearchWitness.
