(* ===== verification/Pipeline.v ===== *)
(** * The aggregation pipeline

    [src/rust/smongo-engine/src/aggregation/mod.rs]: the stages in sequence, the
    fusion of [$sort] and [$limit], sub-pipelines, the leading [$match] stages
    that become the filter of a find, and the write stages [$out] and [$merge].
    Every sub-pipeline is run by the pipeline itself: the recursion is closed
    here, bounded by the call stack.  A pipeline without [let] nests no deeper
    than it is written; with [let], the nesting can be unbounded. *)

From Stdlib Require Import ZArith Lia Ascii String Strings.Byte Permutation Sorted.
From S2P Require Import F32 HnswExact VectorSearch.
From S2P Require Import Prelude F64 Bson RefBson Paths Geo Query Update IndexKey Schema Collation Expressions Accumulators Stages StageLaws Window Joins GraphLookup Spill GeoNear.
From stdpp Require Import base tactics list strings.

Open Scope string_scope.
Open Scope list_scope.

Section Pipeline.
Context {B : BsonOps} {Lm : Libm} {G : S2} {T : TextEnv} {FP : F64Parse} {A : AggEnv} {SE : StdEnv} {Ln : LnOps}.
#[local] Existing Instance engine.

(** Source: aggregation/mod.rs:486-500 (merge_match_filters). *)
Definition merge_match_filters (a b : document) : document :=
  let has_overlap := existsb (doc_contains a) (doc_keys b) in
  if negb has_overlap then fold_left (fun merged '(k, v) => doc_insert merged k v) b a
  else doc_insert [] "$and" (BArray [BDocument a; BDocument b]).

(** [stage.iter().next()], the name and the argument of a stage. *)
Definition stage_name (stage : document) : option string := option_map fst (head stage).

(** Source: aggregation/mod.rs:456-476 (optimize_pipeline). The loop; [merged] so far, and the
    stages left. *)
Fixpoint leading_matches (merged : option document) (pipeline : list document) : option document * list document :=
  match pipeline with
  | [] => (merged, [])
  | stage :: rest =>
      match stage_name stage, doc_get_as as_document stage "$match" with
      | Some name, Ok filter =>
          if name =s? "$match" then
            leading_matches (Some (match merged with
                                   | None => filter
                                   | Some prev => merge_match_filters prev filter
                                   end)) rest
          else (merged, pipeline)
      | _, _ => (merged, pipeline)
      end
  end.

(** Source: aggregation/mod.rs:452-480 (optimize_pipeline). *)
Definition optimize_pipeline (pipeline : list document) : option document * list document :=
  leading_matches None pipeline.

(** Source: aggregation/mod.rs:648-660 (split_write_stage). *)
Definition split_write_stage (pipeline : list document) : list document * option document :=
  match last pipeline with
  | Some stage =>
      match stage_name stage with
      | Some name => if (name =s? "$out") || (name =s? "$merge")
                     then (take (length pipeline - 1) pipeline, Some stage) else (pipeline, None)
      | None => (pipeline, None)
      end
  | None => (pipeline, None)
  end.

(** Source: aggregation/mod.rs:805-823 (try_index_sort_limit). *)
Definition try_index_sort_limit (ctx : PipelineIndexCtx) (sort_spec limit_spec : bson)
  : result (option (list document)) agg_failure :=
  match sort_spec with
  | BDocument sort_doc =>
      let limit := match as_count limit_spec with Some n => n | None => 0%Z end in
      if (limit =? 0)%Z then Ok None
      else sorted_scan (provider ctx) (source_collection ctx) sort_doc limit None
  | _ => Ok None
  end.

(** Source: aggregation/mod.rs:748-760 (run_pipeline_stages). The first of the stages that may only
    come first. *)
Fixpoint misplaced (stages : list document) : option string :=
  match stages with
  | [] => None
  | stage :: rest =>
      match stage_name stage with
      | Some name => if (name =s? "$vectorSearch") || (name =s? "$geoNear") then Some name else misplaced rest
      | None => misplaced rest
      end
  end.

Section Stages.
Context (aggregate_with_resolver :
  list document -> list document -> option CollectionResolver -> result (list document) agg_failure).

(** Source: aggregation/mod.rs:825-870 (execute_stage_stream); aggregation/stages.rs:1745-1751
    (stage_out_stream, stage_merge_stream). *)
Definition execute_stage_stream (input : DocStream) (stage : document) (resolver : option CollectionResolver)
  (idx_ctx : option PipelineIndexCtx) (ml : option Z) (allow_disk_use : bool) : result DocStream agg_failure :=
  match stage with
  | [] => invalid_stage "Empty stage"
  | (name, value) :: _ =>
      if name =s? "$match" then stage_match_stream input value
      else if name =s? "$project" then stage_project_stream input value
      else if name =s? "$limit" then stage_limit_stream input value
      else if name =s? "$skip" then stage_skip_stream input value
      else if name =s? "$sort" then stage_sort_stream input value ml allow_disk_use
      else if name =s? "$group" then stage_group_stream input value ml allow_disk_use
      else if name =s? "$count" then stage_count_stream input value ml
      else if name =s? "$unwind" then stage_unwind_stream input value
      else if (name =s? "$addFields") || (name =s? "$set") then stage_add_fields_stream input value
      else if name =s? "$unset" then stage_unset_stream input value
      else if (name =s? "$replaceRoot") || (name =s? "$replaceWith") then stage_replace_root_stream input value
      else if name =s? "$sample" then stage_sample_stream input value ml
      else if name =s? "$redact" then stage_redact_stream input value
      else if name =s? "$sortByCount" then stage_sort_by_count_stream input value ml
      else if name =s? "$bucket" then stage_bucket_stream input value ml
      else if name =s? "$bucketAuto" then stage_bucket_auto_stream input value ml
      else if name =s? "$lookup" then stage_lookup_stream aggregate_with_resolver input value resolver ml
      else if name =s? "$graphLookup" then stage_graph_lookup_stream input value resolver ml
      else if name =s? "$facet" then stage_facet_stream aggregate_with_resolver input value resolver ml
      else if name =s? "$setWindowFields" then stage_set_window_fields_stream input value ml
      else if name =s? "$unionWith" then stage_union_with_stream aggregate_with_resolver input value resolver ml
      else if name =s? "$out" then Ok input
      else if name =s? "$merge" then Ok input
      else if name =s? "$vectorSearch" then stage_vector_search_stream_indexed input value idx_ctx
      else if name =s? "$geoNear" then stage_geo_near_stream_indexed input value idx_ctx
      else invalid_stage ("Unknown stage: " ++ name)%string
  end.

(** Source: aggregation/mod.rs:772-788 (run_pipeline_stages). The pair [$sort], [$limit]. *)
Definition run_sort_limit (stream : DocStream) (sv lv : bson) (idx_ctx : option PipelineIndexCtx) (ml : option Z)
  : result DocStream agg_failure :=
  let? indexed := match idx_ctx with
                  | Some ctx => try_index_sort_limit ctx sv lv
                  | None => Ok None
                  end in
  match indexed with
  | Some sorted => Ok (stream_of sorted)
  | None => stage_sort_limit_stream stream sv lv ml
  end.

(** The arguments of a [$sort] stage followed by a [$limit] stage. *)
Definition sort_limit_pair (stage next : document) : option (bson * bson) :=
  match stage, next with
  | (sn, sv) :: _, (ln, lv) :: _ => if (sn =s? "$sort") && (ln =s? "$limit") then Some (sv, lv) else None
  | _, _ => None
  end.

(** Source: aggregation/mod.rs:762-801 (run_pipeline_stages). The loop. *)
Fixpoint run_stages (stream : DocStream) (pipeline : list document) (resolver : option CollectionResolver)
  (idx_ctx : option PipelineIndexCtx) (ml : option Z) (allow_disk_use : bool) : result DocStream agg_failure :=
  match pipeline with
  | [] => Ok stream
  | stage :: rest =>
      let single :=
        let? stream := execute_stage_stream stream stage resolver idx_ctx ml allow_disk_use in
        run_stages stream rest resolver idx_ctx ml allow_disk_use in
      match rest with
      | next :: rest' =>
          match sort_limit_pair stage next with
          | Some (sv, lv) =>
              let? stream := run_sort_limit stream sv lv idx_ctx ml in
              run_stages stream rest' resolver idx_ctx ml allow_disk_use
          | None => single
          end
      | [] => single
      end
  end.

(** Source: aggregation/mod.rs:740-802 (run_pipeline_stages). *)
Definition run_pipeline_stages (initial : DocStream) (pipeline : list document) (resolver : option CollectionResolver)
  (idx_ctx : option PipelineIndexCtx) (ml : option Z) (allow_disk_use : bool) : result DocStream agg_failure :=
  match misplaced (tail pipeline) with
  | Some name => invalid_stage (name ++ " must be the first stage in the pipeline")%string
  | None => run_stages initial pipeline resolver idx_ctx ml allow_disk_use
  end.
End Stages.

(** Source: aggregation/mod.rs:522-529 (aggregate_with_resolver). [stack] is the number of nested
    pipelines the call stack holds; there is none left when it overflows. *)
Fixpoint aggregate_with_resolver (stack : nat) (docs pipeline : list document) (resolver : option CollectionResolver)
  : result (list document) agg_failure :=
  match stack with
  | O => Err (AggPanic "stack overflow")
  | S stack =>
      let? stream := run_pipeline_stages (aggregate_with_resolver stack) (stream_of docs) pipeline resolver None None false in
      collect stream
  end.

Context (stack : nat).

(** Source: aggregation/mod.rs:515-517 (aggregate). *)
Definition aggregate (docs pipeline : list document) : result (list document) agg_failure :=
  aggregate_with_resolver stack docs pipeline None.

(** Source: aggregation/mod.rs:695-711 (aggregate_stream_full). *)
Definition aggregate_stream_full (docs pipeline : list document) (resolver : option CollectionResolver)
  (idx_ctx : option PipelineIndexCtx) (ml : option Z) : result DocStream agg_failure :=
  run_pipeline_stages (aggregate_with_resolver stack) (stream_of docs) pipeline resolver idx_ctx ml false.

(** Source: aggregation/mod.rs:684-691 (aggregate_stream_with_resolver). *)
Definition aggregate_stream_with_resolver (docs pipeline : list document) (resolver : option CollectionResolver)
  (ml : option Z) : result DocStream agg_failure :=
  aggregate_stream_full docs pipeline resolver None ml.

(** Source: aggregation/mod.rs:672-677 (aggregate_stream). *)
Definition aggregate_stream (docs pipeline : list document) : result DocStream agg_failure :=
  aggregate_stream_with_resolver docs pipeline None None.

(** Source: aggregation/mod.rs:717-738 (aggregate_stream_full_from_iter). The errors of the cursor
    already as those of the pipeline. *)
Definition aggregate_stream_full_from_iter (docs : DocStream) (pipeline : list document)
  (resolver : option CollectionResolver) (idx_ctx : option PipelineIndexCtx) (ml : option Z) (allow_disk_use : bool)
  : result DocStream agg_failure :=
  run_pipeline_stages (aggregate_with_resolver stack) docs pipeline resolver idx_ctx ml allow_disk_use.
End Pipeline.

(** ** Sub-pipelines *)

Section Nesting.
Context {B : BsonOps} {Lm : Libm} {G : S2} {T : TextEnv} {FP : F64Parse} {A : AggEnv} {SE : StdEnv} {Ln : LnOps}.
#[local] Existing Instance engine.

(** The pipelines a stage may run. *)
Inductive subpipeline : document -> list document -> Prop :=
| sub_facet d name arr rest :
    In (name, BArray arr) d -> subpipeline (("$facet", BDocument d) :: rest) (stages_of arr)
| sub_lookup d arr rest e :
    doc_get_as as_array_opt d "pipeline" = Ok arr -> doc_get_as as_document d "let" = Err e ->
    subpipeline (("$lookup", BDocument d) :: rest) (stages_of arr)
| sub_lookup_let d arr rest vars doc p :
    doc_get_as as_array_opt d "pipeline" = Ok arr -> doc_get_as as_document d "let" = Ok vars ->
    bind_pipeline vars (stages_of arr) doc = Ok p -> subpipeline (("$lookup", BDocument d) :: rest) p
| sub_union d arr rest :
    doc_get_as as_array_opt d "pipeline" = Ok arr -> subpipeline (("$unionWith", BDocument d) :: rest) (stages_of arr).

(** A relation of results kept by sequencing, and two ways to run pipelines that it relates
    on the pipelines a predicate accepts. *)
Context (R : forall X : Type, result X agg_failure -> result X agg_failure -> Prop)
  (R_refl : forall X (x : result X agg_failure), R X x x)
  (R_bind : forall X Y (a a' : result X agg_failure) (k k' : X -> result Y agg_failure),
    R X a a' -> (forall x, R Y (k x) (k' x)) ->
    R Y (match a with Ok x => k x | Err e => Err e end) (match a' with Ok x => k' x | Err e => Err e end))
  (agg agg' : list document -> list document -> option CollectionResolver -> result (list document) agg_failure)
  (small : list document -> Prop)
  (Hagg : forall docs p r, small p -> R _ (agg docs p r) (agg' docs p r)).

Lemma fold_result_R {S X} (f f' : S -> X -> result S agg_failure) l : forall s,
  (forall s x, In x l -> R _ (f s x) (f' s x)) -> R _ (fold_result f s l) (fold_result f' s l).
Proof.
  induction l as [|x l IH]; intros s H; simpl; [apply R_refl|].
  apply (R_bind _ _ (f s x) (f' s x)); [apply H; by left|]. intros s'. apply IH. intros. apply H. by right.
Qed.

Lemma map_result_R {X Y} (f f' : X -> result Y agg_failure) l :
  (forall x, In x l -> R _ (f x) (f' x)) -> R _ (map_result f l) (map_result f' l).
Proof.
  induction l as [|x l IH]; intros H; simpl; [apply R_refl|].
  apply (R_bind _ _ (f x) (f' x)); [apply H; by left|]. intros y.
  apply (R_bind _ _ (map_result f l) (map_result f' l)); [apply IH; intros; apply H; by right|]. intros. apply R_refl.
Qed.

Lemma blocking_R name f f' input ml :
  (forall docs, R _ (f docs) (f' docs)) -> R _ (blocking name f input ml) (blocking name f' input ml).
Proof.
  intros H. unfold blocking. apply R_bind; [apply R_refl|]. intros docs.
  apply R_bind; [apply H|]. intros. apply R_refl.
Qed.

Lemma stage_facet_R d rest docs resolver :
  (forall p, subpipeline (("$facet", BDocument d) :: rest) p -> small p) ->
  R _ (stage_facet agg docs (BDocument d) resolver) (stage_facet agg' docs (BDocument d) resolver).
Proof.
  intros H. unfold stage_facet. apply R_bind; [|intros; apply R_refl]. apply fold_result_R.
  intros result [name v] Hin. destruct v; try apply R_refl.
  apply R_bind; [|intros; apply R_refl]. apply Hagg, H. by econstructor.
Qed.

Lemma stage_lookup_R d rest docs resolver :
  (forall p, subpipeline (("$lookup", BDocument d) :: rest) p -> small p) ->
  R _ (stage_lookup agg docs (BDocument d) resolver) (stage_lookup agg' docs (BDocument d) resolver).
Proof.
  intros H. unfold stage_lookup. destruct (doc_get_as as_array_opt d "pipeline") as [arr|] eqn:Ep; [|apply R_refl].
  unfold stage_lookup_pipeline. apply R_bind; [apply R_refl|]. intros from. apply R_bind; [apply R_refl|]. intros as_field.
  rewrite Ep. destruct resolver as [r|]; [|apply R_refl]. apply R_bind; [apply R_refl|]. intros foreign.
  destruct (doc_get_as as_document d "let") as [vars|e] eqn:El.
  - apply map_result_R. intros doc _. destruct (bind_pipeline vars (stages_of arr) doc) as [p|] eqn:Eb; [|apply R_refl].
    apply R_bind; [|intros; apply R_refl]. apply Hagg, H. by eapply sub_lookup_let.
  - apply R_bind; [|intros; apply R_refl]. apply Hagg, H. by eapply sub_lookup.
Qed.

Lemma stage_union_with_R spec rest docs resolver :
  (forall p, subpipeline (("$unionWith", spec) :: rest) p -> small p) ->
  R _ (stage_union_with agg docs spec resolver) (stage_union_with agg' docs spec resolver).
Proof.
  intros H. unfold stage_union_with. destruct resolver as [r|]; [|apply R_refl].
  assert (Hrun : forall name sub, small sub \/ sub = [] ->
    R _ (let? foreign_docs := resolve r name None in
         let? foreign_docs := match sub with [] => Ok foreign_docs | _ => agg foreign_docs sub (Some r) end in
         Ok (docs ++ foreign_docs))
        (let? foreign_docs := resolve r name None in
         let? foreign_docs := match sub with [] => Ok foreign_docs | _ => agg' foreign_docs sub (Some r) end in
         Ok (docs ++ foreign_docs))).
  { intros name sub Hs. apply R_bind; [apply R_refl|]. intros foreign. apply R_bind; [|intros; apply R_refl].
    destruct sub; [apply R_refl|]. destruct Hs as [Hs|Hs]; [by apply Hagg|done]. }
  destruct spec as [| | |d| | | | | | | | | | | | | | | | |]; try apply R_refl; try (apply (Hrun _ []); by right).
  destruct (required_str d "coll" _) as [name|]; [|apply R_refl].
  destruct (doc_get_as as_array_opt d "pipeline") as [arr|] eqn:Ep.
  - apply (Hrun name (stages_of arr)). left. apply H. by econstructor.
  - apply (Hrun name []). by right.
Qed.

Abbreviation execute agg := (execute_stage_stream agg).
Abbreviation run agg := (run_stages agg).

Lemma execute_stage_R input stage resolver idx ml disk :
  (forall p, subpipeline stage p -> small p) ->
  R _ (execute agg input stage resolver idx ml disk) (execute agg' input stage resolver idx ml disk).
Proof.
  intros H. destruct stage as [|[name value] rest]; [apply R_refl|]. unfold execute_stage_stream.
  repeat (match goal with |- R _ (if ?b then _ else _) _ => destruct b eqn:?; [try apply R_refl|] end);
    try apply R_refl.
  all: match goal with E : String.eqb _ _ = true |- _ => apply String.eqb_eq in E; subst name end.
  - apply blocking_R. intros docs. destruct value; try apply R_refl. by apply (stage_lookup_R _ rest).
  - apply blocking_R. intros docs. destruct value; try apply R_refl. by apply (stage_facet_R _ rest).
  - apply blocking_R. intros docs. by apply (stage_union_with_R _ rest).
Qed.

Lemma run_stages_R pipeline resolver idx ml disk :
  (forall stage p, In stage pipeline -> subpipeline stage p -> small p) ->
  forall stream, R _ (run agg stream pipeline resolver idx ml disk) (run agg' stream pipeline resolver idx ml disk).
Proof.
  assert (H : forall n pipeline, (length pipeline <= n)%nat ->
    (forall stage p, In stage pipeline -> subpipeline stage p -> small p) ->
    forall stream, R _ (run agg stream pipeline resolver idx ml disk) (run agg' stream pipeline resolver idx ml disk));
    [|by apply (H (length pipeline))].
  clear pipeline. induction n as [|n IH]; intros [|stage rest] Hn Hs stream;
    [apply R_refl|simpl in Hn; lia|apply R_refl|].
  simpl in Hn. assert (Hsingle : R _
    (let? stream := execute agg stream stage resolver idx ml disk in run agg stream rest resolver idx ml disk)
    (let? stream := execute agg' stream stage resolver idx ml disk in run agg' stream rest resolver idx ml disk)).
  { apply R_bind; [apply execute_stage_R; intros p Hp; eapply Hs; [by left|done]|]. intros s. apply IH; [lia|].
    intros st p Hst. apply Hs. by right. }
  cbn [run_stages]. destruct rest as [|next rest']; [done|]. destruct (sort_limit_pair stage next) as [[sv lv]|]; [|done].
  apply R_bind; [apply R_refl|]. intros s. apply IH; [simpl in Hn; lia|]. intros st p Hst. apply Hs. right. by right.
Qed.

Lemma run_pipeline_R stream pipeline resolver idx ml disk :
  (forall stage p, In stage pipeline -> subpipeline stage p -> small p) ->
  R _ (run_pipeline_stages agg stream pipeline resolver idx ml disk)
      (run_pipeline_stages agg' stream pipeline resolver idx ml disk).
Proof. intros H. unfold run_pipeline_stages. destruct (misplaced _); [apply R_refl|by apply run_stages_R]. Qed.
End Nesting.

(** ** The nesting of pipelines *)

Section Stack.
Context {B : BsonOps} {Lm : Libm} {G : S2} {T : TextEnv} {FP : F64Parse} {A : AggEnv} {SE : StdEnv} {Ln : LnOps} {BL : BsonLaws B}.
#[local] Existing Instance engine.
Abbreviation agg := (aggregate_with_resolver).

(** Whether a [$lookup] below has a [let]. *)
Definition lookup_has_let (v : bson) : bool :=
  match v with BDocument d => is_ok (doc_get_as as_document d "let") | _ => false end.
Fixpoint let_free (b : bson) : bool :=
  match b with
  | BDocument d => forallb (fun kv => negb ((fst kv =s? "$lookup") && lookup_has_let (snd kv)) && let_free (snd kv)) d
  | BArray a => forallb let_free a
  | _ => true
  end.

Definition as_bson (pipeline : list document) : bson := BArray (map BDocument pipeline).

Lemma stages_of_In arr stage : In stage (stages_of arr) -> In (BDocument stage) arr.
Proof.
  unfold stages_of. rewrite <- !list_elem_of_In, list_elem_of_omap. intros (b & Hb & E).
  destruct b; try done. by injection E as ->.
Qed.

Lemma depth_array_elem x arr : In x arr -> (bson_depth x < bson_depth (BArray arr))%nat.
Proof.
  intros Hin. cbn [bson_depth]. apply Nat.lt_succ_r. induction arr as [|y arr IH]; [done|]. simpl.
  destruct Hin as [->|Hin]; [lia|]. specialize (IH Hin). lia.
Qed.

Lemma depth_doc_elem k x d : In (k, x) d -> (bson_depth x < bson_depth (BDocument d))%nat.
Proof.
  intros Hin. cbn [bson_depth]. apply Nat.lt_succ_r. induction d as [|y d IH]; [done|]. simpl.
  destruct Hin as [->|Hin]; [simpl; lia|]. specialize (IH Hin). lia.
Qed.

Lemma stages_of_depth arr : (bson_depth (as_bson (stages_of arr)) <= bson_depth (BArray arr))%nat.
Proof.
  unfold as_bson. cbn [bson_depth]. apply le_n_S. induction arr as [|x arr IH]; [done|].
  unfold stages_of in *. destruct x; cbn [omap list_omap as_document map fold_right] in *; lia.
Qed.

Lemma stages_of_let_free arr : let_free (BArray arr) = true -> let_free (as_bson (stages_of arr)) = true.
Proof.
  unfold as_bson. cbn [let_free]. rewrite !List.forallb_forall. intros H x Hx.
  apply in_map_iff in Hx as (st & <- & Hst). by apply H, stages_of_In.
Qed.

(** A sub-pipeline of a pipeline without [let] is smaller, and without [let]. *)
Lemma subpipeline_smaller pipeline stage p :
  let_free (as_bson pipeline) = true -> In stage pipeline -> subpipeline stage p ->
  let_free (as_bson p) = true /\ (bson_depth (as_bson p) < bson_depth (as_bson pipeline))%nat.
Proof.
  intros Hf Hin Hsub.
  assert (Hst : (bson_depth (BDocument stage) < bson_depth (as_bson pipeline))%nat).
  { apply depth_array_elem. by apply in_map. }
  assert (Hfs : let_free (BDocument stage) = true).
  { unfold as_bson in Hf. cbn [let_free] in Hf. rewrite List.forallb_forall in Hf. by apply Hf, in_map. }
  assert (Hsubv : forall name d arr k rest, stage = (name, BDocument d) :: rest -> In (k, BArray arr) d ->
    let_free (as_bson (stages_of arr)) = true /\ (bson_depth (as_bson (stages_of arr)) < bson_depth (as_bson pipeline))%nat).
  { intros name d arr k rest -> Hk. cbn [let_free forallb fst snd] in Hfs. apply andb_true_iff in Hfs as [Hfd _].
    apply andb_true_iff in Hfd as [_ Hfd]. rewrite List.forallb_forall in Hfd. specialize (Hfd _ Hk).
    apply andb_true_iff in Hfd as [_ Hfa]. split; [by apply stages_of_let_free|].
    pose proof (stages_of_depth arr). pose proof (depth_doc_elem _ _ _ Hk).
    pose proof (depth_doc_elem name (BDocument d) ((name, BDocument d) :: rest) ltac:(by left)). lia. }
  assert (Hget : forall d arr, doc_get_as as_array_opt d "pipeline" = Ok arr -> In ("pipeline", BArray arr) d).
  { intros d arr H. unfold doc_get_as in H. destruct (doc_get d "pipeline") as [v|] eqn:E; [|done].
    apply get_In in E. destruct v; try done. by injection H as ->. }
  destruct Hsub; eauto. exfalso. simpl in Hfs. by rewrite H0 in Hfs.
Qed.

Abbreviation run_with f docs pipeline r :=
  (let? stream := run_pipeline_stages f (stream_of docs) pipeline r None None false in collect stream).

Lemma agg_equation n docs pipeline r : agg (S n) docs pipeline r = run_with (agg n) docs pipeline r.
Proof. done. Qed.

(** The same result from two ways to run the sub-pipelines that agree on them. *)
Lemma run_with_ext n f f' docs pipeline r :
  let_free (as_bson pipeline) = true -> (bson_depth (as_bson pipeline) <= S n)%nat ->
  (forall ds p r', let_free (as_bson p) = true -> (bson_depth (as_bson p) <= n)%nat -> f ds p r' = f' ds p r') ->
  run_with f docs pipeline r = run_with f' docs pipeline r.
Proof.
  intros Hf Hn H.
  rewrite (run_pipeline_R (fun X => eq) (fun X x => eq_refl)
    ltac:(intros X Y a a' k k' -> Hk; destruct a'; [apply Hk|done])
    f f' (fun p => let_free (as_bson p) = true /\ (bson_depth (as_bson p) <= n)%nat)); [done|..].
  - intros ds p r' [Hp1 Hp2]. by apply H.
  - intros stage p Hin Hsub. destruct (subpipeline_smaller _ _ _ Hf Hin Hsub). split; [done|lia].
Qed.

(** The run of a pipeline with [n] levels of sub-pipelines, where [beyond] stands for whatever
    a call deeper than that would do. *)
Fixpoint run_nested (beyond : list document -> list document -> option CollectionResolver -> result (list document) agg_failure)
    (n : nat) (docs pipeline : list document) (r : option CollectionResolver) : result (list document) agg_failure :=
  match n with
  | O => beyond docs pipeline r
  | S n => run_with (run_nested beyond n) docs pipeline r
  end.

Lemma nested_agrees beyond n : forall pipeline, let_free (as_bson pipeline) = true ->
  (bson_depth (as_bson pipeline) <= n)%nat -> forall m docs r, (n < m)%nat ->
  agg m docs pipeline r = run_nested beyond n docs pipeline r.
Proof.
  induction n as [|n IH]; intros pipeline Hf Hn m docs r Hm; [by cbn in Hn; lia|].
  destruct m as [|m]; [lia|]. cbn [aggregate_with_resolver run_nested].
  apply (run_with_ext n); [done|done|]. intros ds p r' Hp1 Hp2. apply IH; [done|done|lia].
Qed.

(** C30: a pipeline whose [$lookup] stages have no [let] never runs sub-pipelines deeper than it
    is written, whatever the documents and the collections: on every stack larger than the
    depth of its text, it gives the result of running its sub-pipelines to that depth, and this
    result does not depend on what a deeper call would do (return any documents, any error, or
    overflow the stack), because there is none.  [self_lookup_overflows] is a pipeline with a [let]
    that runs itself at every level. *)
Theorem nesting_bounded docs pipeline resolver beyond stack :
  let_free (as_bson pipeline) = true -> (bson_depth (as_bson pipeline) < stack)%nat ->
  agg stack docs pipeline resolver = run_nested beyond (bson_depth (as_bson pipeline)) docs pipeline resolver.
Proof. intros Hf Hs. by apply nested_agrees. Qed.

(** A stack overflow, or the result on a larger stack. *)
Definition overflows_or {X} (a b : result X agg_failure) : Prop := a = Err (AggPanic "stack overflow") \/ a = b.

Lemma stack_step n : forall docs pipeline r, overflows_or (agg n docs pipeline r) (agg (S n) docs pipeline r).
Proof.
  induction n as [|n IH]; intros docs pipeline r; [by left|]. rewrite !agg_equation.
  assert (Hb : forall X Y (a a' : result X agg_failure) (k k' : X -> result Y agg_failure),
    overflows_or a a' -> (forall x, overflows_or (k x) (k' x)) ->
    overflows_or (match a with Ok x => k x | Err e => Err e end) (match a' with Ok x => k' x | Err e => Err e end)).
  { intros X Y a a' k k' [-> | ->] Hk; [by left|]. destruct a'; [apply Hk|by right]. }
  apply Hb; [|by right].
  apply (run_pipeline_R (@overflows_or) (fun X x => or_intror eq_refl) Hb (agg n) (agg (S n)) (fun _ => True)); auto.
Qed.

(** A result other than a stack overflow is the result on every larger stack. *)
Theorem larger_stack_same stack stack' docs pipeline resolver result :
  (stack <= stack')%nat -> agg stack docs pipeline resolver = result ->
  result <> Err (AggPanic "stack overflow") -> agg stack' docs pipeline resolver = result.
Proof.
  induction 1 as [|stack' Hle IH]; intros H Hne; [done|]. specialize (IH H Hne).
  destruct (stack_step stack' docs pipeline resolver) as [E|E]; congruence.
Qed.
End Stack.

(** ** The leading [$match] stages *)

Section Optimize.
Context {B : BsonOps} {Lm : Libm} {G : S2} {T : TextEnv} {FP : F64Parse} {A : AggEnv} {SE : StdEnv} {Ln : LnOps}
  {BL : BsonLaws B} {BO : BsonOrderLaws B}.
#[local] Existing Instance engine.

Abbreviation unique d := (List.NoDup (doc_keys d)).

Lemma insert_all_fresh b : forall a, unique b -> (forall k, In k (doc_keys b) -> ~ In k (doc_keys a)) ->
  fold_left (fun merged '(k, v) => doc_insert merged k v) b a = a ++ b.
Proof.
  induction b as [|[k v] b IH]; intros a Hb Hd; simpl; [by rewrite app_nil_r|].
  inversion_clear Hb as [|? ? Hk Hb']. rewrite insert_fresh by (apply Hd; by left).
  rewrite IH; [by rewrite <- app_assoc|done|]. intros k' Hk' Hin. unfold doc_keys in Hin.
  rewrite map_app in Hin. apply in_app_iff in Hin as [Hin|[<-|[]]]; [|done]. eapply Hd; [right|]; done.
Qed.

(** The merged filter asks for both, the first one first. *)
Lemma merge_filters_eval a b : unique a -> unique b ->
  unique (merge_match_filters a b) /\ forall d, eval_query d (merge_match_filters a b) = eval_query d (a ++ b).
Proof.
  intros Ha Hb. unfold merge_match_filters. destruct (existsb (doc_contains a) (doc_keys b)) eqn:E; cbn [negb].
  - rewrite insert_fresh by (by intros []). cbn [app]. split; [by constructor; [intros []|constructor]|].
    intros d. rewrite (and_is_concatenation d [a; b]). simpl. by rewrite app_nil_r.
  - assert (Hd : forall k, In k (doc_keys b) -> ~ In k (doc_keys a)).
    { intros k Hk Hka. apply not_true_iff_false in E. apply E, existsb_exists. exists k. split; [done|].
      by apply get_keys. }
    rewrite insert_all_fresh by done. split; [|done]. unfold doc_keys. rewrite map_app. apply List.NoDup_app; [done..|].
    intros k Hk1 Hk2. by apply (Hd k).
Qed.

Lemma eval_query_app d a b :
  eval_query d (a ++ b) = let? x := eval_query d a in if x then eval_query d b else Ok false.
Proof. apply all_result_app. Qed.

(** A stage [{$match: filter}]. *)
Definition is_match (stage filter : document) : Prop := exists more, stage = ("$match", BDocument filter) :: more.

Lemma match_stage_filter kv more filter :
  doc_ok (kv :: more) = true -> fst kv = "$match" -> doc_get_as as_document (kv :: more) "$match" = Ok filter ->
  is_match (kv :: more) filter /\ unique filter.
Proof.
  destruct kv as [name value]. intros Hst E Eg. simpl in E. subst name. apply doc_ok_spec in Hst as [Hnd Hvs].
  unfold doc_get_as in Eg. rewrite (get_iter _ "$match" value) in Eg; [|done|by left].
  destruct value; try done. injection Eg as ->. split; [by exists more|].
  assert (Hf : bson_ok (BDocument filter) = true) by (eapply Hvs; by left). by apply doc_ok_spec in Hf as [Hf _].
Qed.

Lemma leading_matches_spec pipeline : forall prev o rest,
  docs_ok pipeline -> unique prev -> leading_matches (Some prev) pipeline = (o, rest) ->
  exists f stages fs, o = Some f /\ pipeline = stages ++ rest /\ Forall2 is_match stages fs /\
    forall d, eval_query d f = eval_query d (prev ++ concat fs).
Proof.
  induction pipeline as [|stage pipeline IH]; intros prev o rest Hok Hu H; simpl in H.
  { injection H as <- <-. exists prev, [], []. repeat split; [constructor|]. intros d. by rewrite app_nil_r. }
  assert (Hstop : (Some prev, stage :: pipeline) = (o, rest) -> exists f stages fs, o = Some f /\
    stage :: pipeline = stages ++ rest /\ Forall2 is_match stages fs /\
    forall d, eval_query d f = eval_query d (prev ++ concat fs)).
  { intros [= <- <-]. exists prev, [], []. repeat split; [constructor|]. intros d. by rewrite app_nil_r. }
  destruct stage as [|[name value] more]; [by apply Hstop|]. cbn [stage_name head option_map fst] in H.
  destruct (doc_get_as as_document ((name, value) :: more) "$match") as [filter|] eqn:Eg; [|by apply Hstop].
  destruct (String.eqb_spec name "$match") as [->|]; [|by apply Hstop].
  destruct (match_stage_filter ("$match", value) more filter) as [[more' E] Hfu]; [apply Hok; by left|done|done|].
  injection E as -> <-.
  destruct (merge_filters_eval prev filter Hu Hfu) as [Hmu Hme].
  destruct (IH (merge_match_filters prev filter) o rest) as (f & stages & fs & -> & -> & Hm & He); [|done|done|].
  { intros x Hx. apply Hok. by right. }
  exists f, ((("$match", BDocument filter) :: more) :: stages), (filter :: fs). repeat split; [|..].
  - constructor; [by exists more|done].
  - intros d. rewrite He, !eval_query_app, Hme, eval_query_app. cbn [concat]. rewrite eval_query_app.
    by destruct (eval_query d prev) as [[]|].
Qed.

(** The documents a filter keeps, as a find would return them. *)
Definition filtered (f : document) (docs : list document) : result (list document) agg_failure :=
  filter_result (fun d => map_err agg_of_error (eval_query d f)) docs.

Lemma filtered_app f g docs docs' : filtered (f ++ g) docs = Ok docs' ->
  exists docs1, filtered f docs = Ok docs1 /\ filtered g docs1 = Ok docs'.
Proof.
  unfold filtered. revert docs'. induction docs as [|d docs IH]; intros docs' H; simpl in *; [injection H as <-; by exists []|].
  rewrite eval_query_app in H. destruct (eval_query d f) as [[]|e]; simpl in *; [| |done].
  - destruct (eval_query d g) as [b|] eqn:Eg; simpl in *; [|done].
    destruct (filter_result _ docs) as [r|] eqn:Er in H; [|done]. injection H as <-.
    destruct (IH r Er) as (docs1 & -> & H1). exists (d :: docs1). split; [done|]. simpl. by rewrite Eg, H1.
  - destruct (filter_result _ docs) as [r|] eqn:Er in H; [|done]. injection H as <-.
    destruct (IH r Er) as (docs1 & -> & H1). by exists docs1.
Qed.

Lemma match_stream_filtered f docs docs' : filtered f docs = Ok docs' ->
  stage_match_stream (stream_of docs) (BDocument f) = Ok (stream_of docs').
Proof.
  unfold filtered, stage_match_stream, stream_of. intros H. f_equal. revert docs' H.
  induction docs as [|d docs IH]; intros docs' H; simpl in *; [by injection H as <-|].
  destruct (eval_query d f) as [b|e]; simpl in *; [|done].
  destruct (filter_result _ docs) as [r|]; [|done]. injection H as <-.
  destruct b; [exact (f_equal (cons (Ok d)) (IH r eq_refl))|exact (IH r eq_refl)].
Qed.

Context (agg : list document -> list document -> option CollectionResolver -> result (list document) agg_failure).

Lemma match_stages_run stages fs : Forall2 is_match stages fs -> forall docs docs' rest resolver idx ml disk,
  filtered (concat fs) docs = Ok docs' ->
  run_stages agg (stream_of docs) (stages ++ rest) resolver idx ml disk =
  run_stages agg (stream_of docs') rest resolver idx ml disk.
Proof.
  induction 1 as [|stage f stages fs [more ->] _ IH]; intros docs docs' rest resolver idx ml disk H; cbn [concat] in H.
  { unfold filtered in H. rewrite (filter_result_total _ (fun _ => true)) in H by done.
    injection H as <-. by rewrite List.forallb_filter_id by (by apply List.forallb_forall). }
  apply filtered_app in H as (docs1 & H1 & H2). cbn [app run_stages].
  assert (He : execute_stage_stream agg (stream_of docs) (("$match", BDocument f) :: more)
    resolver idx ml disk = Ok (stream_of docs1)) by (by apply match_stream_filtered).
  rewrite He, (IH docs1 docs' rest resolver idx ml disk H2).
  destruct (stages ++ rest) as [|[|[ln lv] next] rest']; done.
Qed.

Lemma misplaced_app stages fs rest : Forall2 is_match stages fs -> misplaced (stages ++ rest) = misplaced rest.
Proof. by induction 1 as [|stage f stages fs [more ->] _ IH]. Qed.

Lemma misplaced_tail rest : misplaced rest = None -> misplaced (tail rest) = None.
Proof.
  destruct rest as [|stage rest]; [done|]. simpl. destruct (stage_name stage); [|done]. by destruct (_ || _).
Qed.

(** C31: taking the leading [$match] stages out of a pipeline and running the rest on
    the documents that pass the merged filter gives what the pipeline gives on all
    the documents, when no stage of the rest must come first. *)
Theorem optimize_pipeline_sound docs docs' pipeline f rest resolver idx ml disk :
  docs_ok pipeline -> optimize_pipeline pipeline = (Some f, rest) -> filtered f docs = Ok docs' ->
  misplaced rest = None ->
  run_pipeline_stages agg (stream_of docs') rest resolver idx ml disk =
  run_pipeline_stages agg (stream_of docs) pipeline resolver idx ml disk.
Proof.
  intros Hok Ho Hf Hm. unfold optimize_pipeline in Ho.
  assert (H : exists stages fs, pipeline = stages ++ rest /\ Forall2 is_match stages fs /\
    forall d, eval_query d f = eval_query d (concat fs)).
  { destruct pipeline as [|[|[name value] more] pipeline]; [done|done|]. cbn [leading_matches stage_name head option_map fst] in Ho.
    destruct (doc_get_as _ _ _) as [filter|] eqn:Eg; [|done].
    destruct (String.eqb_spec name "$match") as [->|]; [|done].
    destruct (match_stage_filter ("$match", value) more filter) as [Hm0 Hfu]; [apply Hok; by left|done|done|].
    destruct (leading_matches_spec pipeline filter (Some f) rest) as (f' & stages & fs & [= <-] & -> & Hfs & He);
      [intros x Hx; apply Hok; by right|done|done|].
    exists ((("$match", value) :: more) :: stages), (filter :: fs). repeat split; [by constructor|done]. }
  destruct H as (stages & fs & -> & Hfs & He).
  assert (Hf' : filtered (concat fs) docs = Ok docs') by (rewrite <- Hf; apply filter_result_ext; intros d; by rewrite He).
  unfold run_pipeline_stages. rewrite misplaced_tail by done.
  assert (Hmt : misplaced (tail (stages ++ rest)) = None).
  { apply misplaced_tail. by rewrite (misplaced_app _ _ _ Hfs). }
  rewrite Hmt. symmetry. by apply match_stages_run with (fs := fs).
Qed.
End Optimize.

(** ** Witnesses and findings *)

Section Witnesses.
Import RefAgg RefStd RefLn.

Abbreviation agg := (aggregate_with_resolver).

Definition stage1 (name : string) (value : bson) : document := [(name, value)].
Definition facet_pipeline : list document :=
  [stage1 "$facet" (BDocument [("small", BArray [BDocument (stage1 "$limit" (BInt32 1))])])].

Lemma nesting_bounded_witness :
  agg 9 (xs [1; 2]%Z) facet_pipeline None =
    run_nested (fun _ _ _ => Err (AggPanic "too deep")) 5 (xs [1; 2]%Z) facet_pipeline None /\
  agg 9 (xs [1; 2]%Z) facet_pipeline None = Ok [[("small", BArray [BDocument [("x", BInt32 1)]])]].
Proof.
  split; [|vm_compute; reflexivity].
  apply (nesting_bounded (xs [1; 2]%Z) facet_pipeline None (fun _ _ _ => Err (AggPanic "too deep")) 9);
    [vm_compute; reflexivity|vm_compute; lia].
Defined.

Lemma larger_stack_same_witness :
  agg 10 (xs [1; 2]%Z) facet_pipeline None = Ok [[("small", BArray [BDocument [("x", BInt32 1)]])]].
Proof.
  apply (larger_stack_same 2 10); [lia|vm_compute; reflexivity|done].
Defined.

Lemma optimize_pipeline_sound_witness :
  let gt n := BDocument [("x", BDocument [("$gt", BInt32 n)])] in
  let pipeline := [stage1 "$match" (gt 1%Z); stage1 "$match" (gt 2%Z); stage1 "$count" (BString "n")] in
  exists f rest, optimize_pipeline pipeline = (Some f, rest) /\
    run_pipeline_stages (agg 1) (stream_of (xs [3; 4]%Z)) rest None None None false =
    run_pipeline_stages (agg 1) (stream_of (xs [1; 2; 3; 4]%Z)) pipeline None None None false.
Proof.
  intros gt pipeline. eexists _, _. split; [vm_compute; reflexivity|].
  refine (optimize_pipeline_sound (agg 1) (xs [1; 2; 3; 4]%Z) (xs [3; 4]%Z) pipeline _ _ None None None false _ _ _ _).
  - exact RefBson.order_laws.
  - intros d [<-|[<-|[<-|[]]]]; vm_compute; reflexivity.
  - vm_compute. reflexivity.
  - vm_compute. reflexivity.
  - reflexivity.
Defined.

(** A [$lookup] whose [let] variable is bound to its own specification, read from the
    documents, runs itself again: the stack overflows, whatever its size. *)
Definition self_lookup : document :=
  [("from", BString "c"); ("as", BString "o"); ("let", BDocument [("x", BString "$p")]);
   ("pipeline", BArray [BDocument [("$lookup", BString "$$x")]])].
Definition self_docs : list document := [[("p", BDocument self_lookup)]].

Theorem self_lookup_overflows stack :
  agg stack self_docs [stage1 "$lookup" (BDocument self_lookup)] (Some {| resolve := fun _ _ => Ok self_docs |}) =
  Err (AggPanic "stack overflow").
Proof.
  induction stack as [|stack IH]; [done|]. set (r := {| resolve := _ |}) in *.
  assert (Hstep : forall f : list document -> list document -> option CollectionResolver -> result (list document) agg_failure,
    f self_docs [stage1 "$lookup" (BDocument self_lookup)] (Some r) = Err (AggPanic "stack overflow") ->
    run_pipeline_stages f (stream_of self_docs) [stage1 "$lookup" (BDocument self_lookup)] (Some r) None None false =
    Err (AggPanic "stack overflow")).
  { intros f Hf. etransitivity; [vm_compute; reflexivity|]. vm_compute in Hf. by rewrite Hf. }
  cbn [aggregate_with_resolver]. by rewrite (Hstep _ IH).
Qed.

(** With an index that can sort, [$sort] followed by [$limit] reads the collection again
    and drops the stages before: a [$match] is lost. *)
Theorem index_sort_limit_drops_match :
  let adults := stage1 "$match" (BDocument [("x", BDocument [("$gte", BInt32 18)])]) in
  let pipeline := [adults; stage1 "$sort" (BDocument [("x", BInt32 1)]); stage1 "$limit" (BInt32 1)] in
  let ctx := {| source_collection := "people";
                provider := {| vector_search _ _ _ _ _ _ _ _ := Ok None; geo_near_indexed _ _ _ _ _ _ _ := Ok None;
                               sorted_scan _ _ _ _ := Ok (Some (xs [5]%Z)) |} |} in
  let results idx := let? s := aggregate_stream_full 1 (xs [5; 20; 30]%Z) pipeline None idx None in collect s in
  results None = Ok (xs [20]%Z) /\ results (Some ctx) = Ok (xs [5]%Z).
Proof. split; vm_compute; reflexivity. Qed.

(** Once the leading [$match] is taken out, a [$geoNear] behind it is the first stage: the
    check that it must be the first of the pipeline no longer refuses it. *)
Theorem optimized_pipeline_skips_check :
  let pipeline := [stage1 "$match" (BDocument []); stage1 "$geoNear" (BDocument (near_origin []))] in
  agg 1 [place 1 10] pipeline None =
    invalid_stage "$geoNear must be the first stage in the pipeline" /\
  is_ok (agg 1 [place 1 10] (snd (optimize_pipeline pipeline)) None) = true.
Proof. split; vm_compute; reflexivity. Qed.
End Witnesses.
