(* ===== verification/PipelineTypes.v ===== *)
(** * Types through the pipeline

    A pipeline over well-typed documents, with collections of well-typed
    documents, yields well-typed documents: integers in their width, unique
    keys, twelve-byte object ids, at every stage and in every sub-pipeline. *)

From Stdlib Require Import ZArith Lia Ascii String Strings.Byte Permutation Sorted.
From S2P Require Import HnswExact VectorSearch.
From S2P Require Import Prelude F64 Bson RefBson Paths Geo Query Update IndexKey Schema Collation Expressions Accumulators Stages StageLaws Window Joins GraphLookup Spill GeoNear Pipeline.
From stdpp Require Import base tactics list strings.

Open Scope string_scope.
Open Scope list_scope.

Section JoinTypes.
Context {B : BsonOps} {Lm : Libm} {G : S2} {T : TextEnv} {FP : F64Parse} {A : AggEnv} {SE : StdEnv} {Ln : LnOps}
  {BL : BsonLaws B} {AL : AggLaws A} {SL : StdLaws SE}.
#[local] Existing Instance engine.

Lemma array_of_docs_ok docs : docs_ok docs -> bson_ok (BArray (map BDocument docs)) = true.
Proof.
  intros H. cbn [bson_ok]. apply List.forallb_forall. intros x Hx. apply in_map_iff in Hx as (d & <- & Hd). by apply H.
Qed.

Lemma stages_of_ok arr : bson_ok (BArray arr) = true -> docs_ok (stages_of arr).
Proof.
  cbn [bson_ok]. rewrite List.forallb_forall. intros H d Hd. apply stages_of_In in Hd. exact (H _ Hd).
Qed.

Lemma get_as_ok {X} (proj : bson -> option X) d k x :
  doc_ok d = true -> doc_get_as proj d k = Ok x -> exists v, bson_ok v = true /\ proj v = Some x.
Proof.
  intros Hd H. unfold doc_get_as in H. destruct (doc_get d k) as [v|] eqn:E; [|done].
  exists v. split; [exact (get_ok _ _ _ Hd E)|]. by destruct (proj v); [injection H as ->|].
Qed.

Lemma stages_array_ok d k arr : doc_ok d = true -> doc_get_as as_array_opt d k = Ok arr -> docs_ok (stages_of arr).
Proof. intros Hd H. destruct (get_as_ok _ _ _ _ Hd H) as ([] & Hv & [= ->]). by apply stages_of_ok. Qed.

Lemma insert_fold_ok kvs : forall d, doc_ok d = true -> Forall (fun kv => bson_ok (snd kv) = true) kvs ->
  doc_ok (fold_left (fun new_doc '(k, v) => doc_insert new_doc k v) kvs d) = true.
Proof.
  induction kvs as [|[k v] kvs IH]; intros d Hd Hk; simpl; [done|]. inversion_clear Hk as [|? ? Hv Hk'].
  apply IH; [by apply insert_ok|done].
Qed.

Lemma substitute_var_ok e name v : bson_ok v = true -> bson_ok e = true -> bson_ok (substitute_var e name v) = true.
Proof.
  intros Hv. induction e using bson_ind; intros He; cbn [substitute_var]; try done.
  - destruct (_ =s? _); [done|]. destruct (Prelude.strip_prefix _ _) as [suffix|]; [|done].
    destruct v; try done. destruct (get_value d suffix) eqn:E; [|done]. exact (get_value_wf _ _ _ Hv E).
  - cbn [bson_ok] in *. rewrite List.forallb_forall in *. intros x Hx. apply in_map_iff in Hx as (y & <- & Hy).
    rewrite List.Forall_forall in H. apply H; [done|]. by apply He.
  - apply insert_fold_ok; [done|]. apply List.Forall_forall. intros kv Hkv.
    apply in_map_iff in Hkv as ([k x] & <- & Hx). rewrite List.Forall_forall in H. apply (H (k, x) Hx).
    apply (proj1 (doc_ok_spec _)) in He as [_ He]. exact (He _ _ Hx).
Qed.

Lemma bind_pipeline_ok vars sub doc p :
  doc_ok vars = true -> docs_ok sub -> doc_ok doc = true -> bind_pipeline vars sub doc = Ok p -> docs_ok p.
Proof.
  intros Hvars Hsub Hdoc H. unfold bind_pipeline in H. destruct (map_result _ vars) as [bound|] eqn:Eb; [|done].
  injection H as <-. intros d Hd. apply in_map_iff in Hd as (stage & <- & Hst).
  assert (Hb : forall name v, In (name, v) bound -> bson_ok v = true).
  { intros name v Hin. destruct (map_result_In _ _ _ _ Eb Hin) as ([n e] & Hne & E).
    destruct (evaluate_expression doc e) as [v'|] eqn:Ee; [|done]. injection E as -> ->.
    apply doc_ok_spec in Hvars as [_ Hvars]. exact (eval_typed _ _ _ Hdoc (Hvars _ _ Hne) Ee). }
  assert (Hf : forall l b, (forall name v, In (name, v) l -> bson_ok v = true) -> bson_ok b = true ->
    bson_ok (fold_left (fun s '(name, v) => substitute_var s name v) l b) = true).
  { induction l as [|[n v] l IH]; intros b Hl Hbb; simpl; [done|]. apply IH; [intros; eapply Hl; by right|].
    apply substitute_var_ok; [eapply Hl; by left|done]. }
  specialize (Hf bound (BDocument stage) Hb (Hsub _ Hst)). by destruct (fold_left _ bound _).
Qed.

(** Collections of well-typed documents. *)
Definition resolver_ok (r : option CollectionResolver) : Prop :=
  forall res name filter docs, r = Some res -> resolve res name filter = Ok docs -> docs_ok docs.

Context (agg : list document -> list document -> option CollectionResolver -> result (list document) agg_failure)
  (Hagg : forall docs p r res, docs_ok docs -> docs_ok p -> resolver_ok r -> agg docs p r = Ok res -> docs_ok res).

Lemma stage_facet_ok docs spec r res :
  docs_ok docs -> bson_ok spec = true -> resolver_ok r -> stage_facet agg docs spec r = Ok res -> docs_ok res.
Proof.
  intros Hd Hs Hr H. destruct spec as [| | |facet| | | | | | | | | | | | | | | | |]; try done. cbn [stage_facet] in H.
  destruct (fold_result _ [] facet) as [result|] eqn:Ef; [|done]. injection H as <-. intros d [<-|[]].
  revert Ef. apply fold_entries_ok; [done|done|]. intros acc k v acc' Hv Hacc H. destruct v as [| |arr| | | | | | | | | | | | | | | | | |]; try done.
  destruct (agg docs (stages_of arr) r) as [fr|] eqn:E; [|done]. injection H as <-.
  apply insert_ok; [done|]. apply array_of_docs_ok. apply (Hagg docs (stages_of arr) r fr); [done|by apply stages_of_ok|done|done].
Qed.

Lemma stage_union_with_ok docs spec r res :
  docs_ok docs -> bson_ok spec = true -> resolver_ok r -> stage_union_with agg docs spec r = Ok res -> docs_ok res.
Proof.
  intros Hd Hs Hr H. unfold stage_union_with in H. destruct r as [r|]; [|done].
  match type of H with match ?m with Ok _ => _ | Err _ => _ end = _ => destruct m as [[name sub]|] eqn:Es end; [|done].
  assert (Hsub : docs_ok sub).
  { destruct spec as [| | |d| | | | | | | | | | | | | | | | |]; try done; [injection Es as <- <-; by intros x []|].
    destruct (required_str d "coll" _); [|done]. injection Es as <- <-.
    destruct (doc_get_as as_array_opt d "pipeline") as [arr|] eqn:Ea; [by eapply stages_array_ok|by intros x []]. }
  destruct (resolve r name None) as [foreign|] eqn:Er; [|done]. pose proof (Hr _ _ _ _ eq_refl Er) as Hfor.
  match type of H with match ?m with Ok _ => _ | Err _ => _ end = _ => destruct m as [fd|] eqn:Ef end; [|done].
  injection H as <-. intros x Hx. apply in_app_iff in Hx as [Hx|Hx]; [by apply Hd|].
  destruct sub as [|s0 sub]; [injection Ef as <-; by apply Hfor|].
  by apply (Hagg foreign (s0 :: sub) (Some r) fd).
Qed.

Lemma stage_lookup_ok docs spec r res :
  docs_ok docs -> bson_ok spec = true -> resolver_ok r -> stage_lookup agg docs spec r = Ok res -> docs_ok res.
Proof.
  intros Hd Hs Hr H. destruct spec as [| | |ld| | | | | | | | | | | | | | | | |]; try done. cbn [stage_lookup] in H.
  assert (Hins : forall doc k ms, In doc docs -> docs_ok ms -> doc_ok (doc_insert doc k (BArray (map BDocument ms))) = true)
    by (intros; apply insert_ok; [by apply Hd|by apply array_of_docs_ok]).
  destruct (doc_get_as as_array_opt ld "pipeline") as [arr|] eqn:Ea.
  - unfold stage_lookup_pipeline in H. destruct (required_str ld "from" _) as [from|]; [|done].
    destruct (required_str ld "as" _) as [as_field|]; [|done]. rewrite Ea in H. destruct r as [r|]; [|done].
    destruct (resolve r from None) as [foreign|] eqn:Er; [|done]. pose proof (Hr _ _ _ _ eq_refl Er) as Hfor.
    pose proof (stages_array_ok _ _ _ Hs Ea) as Hsub.
    destruct (doc_get_as as_document ld "let") as [vars|] eqn:El.
    + eapply docs_ok_map_result; [|exact H]. cbn beta. intros doc d Hdoc E.
      destruct (bind_pipeline vars (stages_of arr) doc) as [p|] eqn:Eb; [|done].
      destruct (agg foreign p (Some r)) as [ms|] eqn:Em; [|done]. injection E as <-. apply Hins; [done|].
      apply (Hagg foreign p (Some r) ms); [done| |done|done]. destruct (get_as_ok _ _ _ _ Hs El) as ([] & Hv & [= ->]).
      eapply bind_pipeline_ok; [exact Hv|done|by apply Hd|done].
    + destruct (agg foreign (stages_of arr) (Some r)) as [ms|] eqn:Em; [|done]. injection H as <-.
      intros x Hx. apply in_map_iff in Hx as (doc & <- & Hdoc). apply Hins; [done|].
      by apply (Hagg foreign (stages_of arr) (Some r) ms).
  - destruct (required_str ld "from" _) as [from|]; [|done]. destruct (required_str ld "localField" _) as [lf|]; [|done].
    destruct (required_str ld "foreignField" _) as [ff|]; [|done]. destruct (required_str ld "as" _) as [af|]; [|done].
    destruct r as [r|]; [|done]. destruct (resolve r from None) as [foreign|] eqn:Er; [|done].
    pose proof (Hr _ _ _ _ eq_refl Er) as Hfor. injection H as <-. intros x Hx. apply in_map_iff in Hx as (doc & <- & Hdoc).
    assert (He : forall key, docs_ok (entries (foreign_map ff foreign) key)).
    { intros key d Hin. rewrite foreign_map_entries in Hin. apply List.filter_In in Hin as [Hin _]. by apply Hfor. }
    specialize (He (canonical_opt_key (get_value doc lf))). unfold entries in He.
    destruct (get_entry _ _) as [ms|]; [by apply Hins|]. by apply (Hins doc af []).
Qed.

(** *** [$graphLookup] *)

Record graph_ok (st : graph_state) : Prop := {
  graph_found : docs_ok (found st);
  graph_depths : forall v n, In (v, n) (queue st) -> in_range i64_min i64_max n = true }.

Lemma start_state_ok vals : graph_ok (start_state vals).
Proof.
  unfold start_state. set (st0 := {| visited := []; queue := []; found := [] |}).
  assert (H0 : graph_ok st0) by (split; [by intros d []|by intros v n []]). revert H0. generalize st0. clear st0.
  induction vals as [|v vals IH]; intros st Hst; simpl; [done|]. apply IH. destruct (seen _ _); [done|].
  destruct Hst as [Hf Hq]. split; [done|]. cbn [queue]. intros w n [Hin|[[= <- <-]|[]]]%in_app_iff; [by eapply Hq|done].
Qed.

Lemma visit_ok gs foreign depth st fi st' :
  docs_ok foreign -> in_range i64_min i64_max depth = true -> graph_ok st ->
  visit_candidate gs foreign depth st fi = Ok st' -> graph_ok st'.
Proof.
  intros Hfor Hdep [Hf Hq] H. unfold visit_candidate in H. set (fdoc := doc_nth foreign fi) in *.
  assert (Hfd : doc_ok fdoc = true).
  { unfold fdoc, doc_nth. destruct (nth_in_or_default fi foreign []) as [Hin| ->]; [by apply Hfor|done]. }
  destruct (match restrict gs with Some _ => _ | None => _ end) as [keep|]; [|done].
  destruct (negb keep); [by injection H as <-|]. destruct (seen _ _); [by injection H as <-|]. injection H as <-.
  split; cbn [follow found queue].
  - intros d [Hin|[<-|[]]]%in_app_iff; [by apply Hf|]. destruct (depth_field gs); [by apply insert_ok|done].
  - intros v n [Hin|Hin]%in_app_iff; [by eapply Hq|]. apply in_map_iff in Hin as (x & [= <- <-] & _). apply wrap_i64_range.
Qed.

Lemma graph_loop_ok gs foreign index fuel : docs_ok foreign -> forall st st',
  graph_ok st -> graph_loop fuel gs foreign index st = Ok st' -> graph_ok st'.
Proof.
  intros Hfor. induction fuel as [|fuel IH]; intros st st' Hst H; cbn [graph_loop] in H.
  { destruct (queue st) as [|[v n] q]; [by injection H as <-|done]. }
  destruct (queue st) as [|[v depth] rest] eqn:Eq; [by injection H as <-|].
  assert (Hdep : in_range i64_min i64_max depth = true) by (apply (graph_depths _ Hst v); rewrite Eq; by left).
  set (st1 := {| visited := visited st; queue := rest; found := found st |}) in *.
  assert (H1 : graph_ok st1).
  { split; [apply Hst|]. intros w n Hin. apply (graph_depths _ Hst w). rewrite Eq. by right. }
  destruct (match max_depth gs with Some _ => _ | None => _ end); [by eapply IH|].
  destruct (get_entry _ _) as [cands|]; [|by eapply IH].
  destruct (fold_result _ st1 cands) as [st2|] eqn:Ef; [|done]. eapply IH; [|exact H].
  revert Ef. apply (fold_result_inv graph_ok); [|done]. intros s x s' _ Hs E. by eapply visit_ok.
Qed.

Lemma stage_graph_lookup_ok docs spec r res :
  docs_ok docs -> bson_ok spec = true -> resolver_ok r -> stage_graph_lookup docs spec r = Ok res -> docs_ok res.
Proof.
  intros Hd Hs Hr H. destruct spec as [| | |gl| | | | | | | | | | | | | | | | |]; try done. cbn [stage_graph_lookup] in H.
  destruct (required_str gl "from" _) as [from|]; [|done]. destruct (doc_get gl "startWith") as [sw|]; [|done].
  destruct (required_str gl "connectFromField" _) as [cf|]; [|done].
  destruct (required_str gl "connectToField" _) as [ct|]; [|done]. destruct (required_str gl "as" _) as [af|]; [|done].
  destruct r as [r|]; [|done]. destruct (resolve r from None) as [foreign|] eqn:Er; [|done].
  pose proof (Hr _ _ _ _ eq_refl Er) as Hfor. eapply docs_ok_map_result; [|exact H].
  cbn beta. intros doc d Hdoc E. destruct (evaluate_expression doc sw) as [sv|]; [|done].
  match type of E with match ?m with Ok _ => _ | Err _ => _ end = _ => destruct m as [fs|] eqn:Ef end; [|done].
  injection E as <-. unfold graph_search in Ef. destruct (graph_loop _ _ _ _ _) as [st|] eqn:El; [|done].
  injection Ef as <-. apply insert_ok; [by apply Hd|]. apply array_of_docs_ok.
  apply (graph_loop_ok _ _ _ _ Hfor _ _ (start_state_ok _) El).
Qed.

(** *** The stages in sequence *)

Lemma geo_near_stream_ok s spec r :
  stream_ok s -> bson_ok spec = true -> stage_geo_near_stream_indexed s spec None = Ok r -> stream_ok r.
Proof.
  intros Hs Hok H. destruct spec as [| | |d| | | | | | | | | | | | | | | | |]; try done. cbn [stage_geo_near_stream_indexed] in H.
  unfold stage_geo_near_stream in H. destruct (collect s) as [docs|] eqn:Ec; [|done].
  destruct (stage_geo_near docs (BDocument d)) as [rs|] eqn:E; [|done]. injection H as <-.
  apply stream_of_ok. eapply stage_geo_near_typed; [|exact Hok|exact E]. by eapply collect_ok.
Qed.

Lemma execute_stage_ok s stage resolver ml r :
  stream_ok s -> doc_ok stage = true -> resolver_ok resolver ->
  execute_stage_stream agg s stage resolver None ml false = Ok r -> stream_ok r.
Proof.
  intros Hs Hst Hr H. destruct stage as [|[name value] more]; [done|]. cbn [execute_stage_stream] in H.
  assert (Hv : bson_ok value = true) by (apply doc_ok_spec in Hst as [_ Hst]; apply (Hst name); by left).
  assert (Hblock : forall nm f, (forall docs rs, docs_ok docs -> f docs = Ok rs -> docs_ok rs) ->
    blocking nm f s ml = Ok r -> stream_ok r) by (intros; by eapply blocking_typed).
  assert (Hbatch : forall nm f, typed_batch f -> blocking nm (fun docs => f docs value) s ml = Ok r -> stream_ok r).
  { intros nm f Hf. apply Hblock. intros docs rs Hd E. by eapply Hf. }
  repeat (match type of H with (if ?b then _ else _) = _ => destruct b; [first [done | injection H as <-; done | idtac]|] end);
    [..|done].
  - exact (stage_match_stream_typed _ _ _ Hs Hv H).
  - exact (stage_project_stream_typed _ _ _ Hs Hv H).
  - exact (stage_limit_stream_typed _ _ _ Hs Hv H).
  - exact (stage_skip_stream_typed _ _ _ Hs Hv H).
  - exact (Hbatch _ _ stage_sort_typed H).
  - exact (Hbatch _ _ stage_group_typed H).
  - exact (Hbatch _ _ stage_count_typed H).
  - exact (stage_unwind_stream_typed _ _ _ Hs Hv H).
  - exact (stage_add_fields_stream_typed _ _ _ Hs Hv H).
  - exact (stage_unset_stream_typed _ _ _ Hs Hv H).
  - exact (stage_replace_root_stream_typed _ _ _ Hs Hv H).
  - exact (Hbatch _ _ stage_sample_typed H).
  - exact (stage_redact_stream_typed _ _ _ Hs Hv H).
  - exact (Hbatch _ _ stage_sort_by_count_typed H).
  - exact (Hbatch _ _ stage_bucket_typed H).
  - exact (Hbatch _ _ stage_bucket_auto_typed H).
  - eapply Hblock; [|exact H]. intros docs rs Hd E. exact (stage_lookup_ok _ _ _ _ Hd Hv Hr E).
  - eapply Hblock; [|exact H]. intros docs rs Hd E. exact (stage_graph_lookup_ok _ _ _ _ Hd Hv Hr E).
  - eapply Hblock; [|exact H]. intros docs rs Hd E. exact (stage_facet_ok _ _ _ _ Hd Hv Hr E).
  - exact (Hbatch _ _ stage_set_window_fields_typed H).
  - eapply Hblock; [|exact H]. intros docs rs Hd E. exact (stage_union_with_ok _ _ _ _ Hd Hv Hr E).
  - exact (stage_vector_search_typed _ _ _ Hs Hv H).
  - exact (geo_near_stream_ok _ _ _ Hs Hv H).
Qed.

Lemma run_stages_ok resolver ml : resolver_ok resolver -> forall n pipeline s r, (length pipeline <= n)%nat ->
  docs_ok pipeline -> stream_ok s -> run_stages agg s pipeline resolver None ml false = Ok r ->
  stream_ok r.
Proof.
  intros Hr. induction n as [|n IH]; intros [|stage rest] s r Hn Hp Hs H;
    [by injection H as <-|simpl in Hn; lia|by injection H as <-|]. simpl in Hn. cbn [run_stages] in H.
  assert (Hrest : docs_ok rest) by (intros x Hx; apply Hp; by right).
  assert (Hsingle : (let? s := execute_stage_stream agg s stage resolver None ml false in
    run_stages agg s rest resolver None ml false) = Ok r -> stream_ok r).
  { destruct (execute_stage_stream _ _ _ _ _ _ _) as [s'|] eqn:E; [|done]. apply IH; [lia|done|].
    eapply execute_stage_ok; [done| |done|exact E]. apply Hp. by left. }
  destruct rest as [|next rest']; [by apply Hsingle|].
  destruct (sort_limit_pair stage next) as [[sv lv]|]; [|by apply Hsingle]. unfold run_sort_limit in H.
  destruct (stage_sort_limit_stream s sv lv ml) as [s'|] eqn:E; [|done].
  refine (IH rest' s' r _ _ _ H); [simpl in Hn; lia|intros x Hx; apply Hrest; by right|].
  by eapply sort_limit_typed.
Qed.
End JoinTypes.

Section PipelineTypes.
Context {B : BsonOps} {Lm : Libm} {G : S2} {T : TextEnv} {FP : F64Parse} {A : AggEnv} {SE : StdEnv} {Ln : LnOps}
  {BL : BsonLaws B} {AL : AggLaws A} {SL : StdLaws SE}.

(** A pipeline over well-typed documents and collections yields well-typed
    documents, for every stage, nested pipelines included. *)
Theorem aggregate_preserves_types stack docs pipeline resolver results :
  docs_ok docs -> docs_ok pipeline -> resolver_ok resolver ->
  aggregate_with_resolver stack docs pipeline resolver = Ok results -> docs_ok results.
Proof.
  revert docs pipeline resolver results.
  induction stack as [|stack IH]; intros docs pipeline resolver results Hd Hp Hr H; [done|].
  cbn [aggregate_with_resolver] in H. unfold run_pipeline_stages in H. destruct (misplaced _); [done|].
  destruct (run_stages _ _ _ _ _ _ _) as [s|] eqn:E; [|done]. eapply collect_ok; [|exact H].
  eapply (run_stages_ok _ IH _ _ Hr); [done|exact Hp| |exact E]. by apply stream_of_ok.
Qed.
End PipelineTypes.

Section Witnesses.
Import RefAgg RefStd RefLn.

Lemma aggregate_preserves_types_witness :
  aggregate_with_resolver 3 (xs [1; 2]%Z) facet_pipeline None =
    Ok [[("small", BArray [BDocument [("x", BInt32 1)]])]] /\
  docs_ok [[("small", BArray [BDocument [("x", BInt32 1)]])]].
Proof.
  assert (H : aggregate_with_resolver 3 (xs [1; 2]%Z) facet_pipeline None =
    Ok [[("small", BArray [BDocument [("x", BInt32 1)]])]]) by (vm_compute; reflexivity).
  split; [exact H|]. refine (aggregate_preserves_types 3 _ _ None _ _ _ _ H).
  - intros d [<-|[<-|[]]]; reflexivity.
  - intros d [<-|[]]. reflexivity.
  - intros res name filter docs E. discriminate E.
Defined.
End Witnesses.
