(* ===== verification/Consistency.v ===== *)
(** * The indexes stay consistent

    A collection whose B-tree indexes agree with its documents keeps that
    agreement under insertion, update and deletion
    ([src/rust/smongo-engine/src/collection/crud.rs] with the maintenance of
    [indexes.rs]): an invariant of the state, preserved by every operation, for
    collections whose ids have one length (object ids, say). *)

From Stdlib Require Import ZArith Lia Ascii String Strings.Byte Permutation.
From S2P Require Import Prelude F64 Bson RefBson Paths Geo Query Update BTree Storage IndexKey.
From S2P Require Import Planner Schema Collation Oplog Collection Exec.
From stdpp Require Import base tactics list strings gmap.

Open Scope string_scope.
Open Scope list_scope.

Definition isSome {A} (o : option A) : bool := match o with Some _ => true | None => false end.

(** ** Runs of the monad *)

Section Runs.
Context {J : JsonOps}.

Lemma bind_inv {A A'} (m : M A) (k : A -> M A') st st' r :
  bind m k st = (st', Ok r) -> exists a st1, m st = (st1, Ok a) /\ k a st1 = (st', Ok r).
Proof. unfold bind. destruct (m st) as [st1 [a|]]; [|done]. intros H. by exists a, st1. Qed.

Lemma lift_inv {A} (x : result A failure) st st' r : lift x st = (st', Ok r) -> st' = st /\ x = Ok r.
Proof. unfold lift. intros H. by injection H as <- ->. Qed.

Lemma writing_run f st :
  writing f st = (put_store st (fst (f (cs_store st))),
                  map_err (fun e => Fail (CStorageError e)) (snd (f (cs_store st)))).
Proof. unfold writing. by destruct (f (cs_store st)). Qed.

(** An operation that gives the places [P] the content [v], and leaves the others. *)
Definition sets (v : option bytes) (P : string -> bytes -> Prop) (st st' : cstate) : Prop :=
  store_ok (cs_store st') /\ index_cache st' = index_cache st /\
  (forall t k, P t k -> tbl_get (cs_store st') t k = v) /\
  (forall t k, (P t k /\ tbl_get (cs_store st') t k = v) \/
               tbl_get (cs_store st') t k = tbl_get (cs_store st) t k).

Lemma sets_trans v P Q st st1 st2 :
  sets v P st st1 -> sets v Q st1 st2 -> sets v (fun t k => P t k \/ Q t k) st st2.
Proof.
  intros (Hs1 & Hc1 & HP & HP') (Hs2 & Hc2 & HQ & HQ'). split; [done|]. split; [congruence|]. split.
  - intros t k [H|H]; [|by apply HQ]. destruct (HQ' t k) as [[_ H2]|H2]; [done|]. rewrite H2. by apply HP.
  - intros t k. destruct (HQ' t k) as [[H1 H2]|H2]; [left; split; [by right|done]|].
    destruct (HP' t k) as [[H3 H4]|H4]; [left; split; [by left|congruence]|right; congruence].
Qed.

Lemma sets_weaken v P Q st st' :
  sets v P st st' -> (forall t k, P t k <-> Q t k) -> sets v Q st st'.
Proof.
  intros (Hs & Hc & H1 & H2) H. split; [done|]. split; [done|]. split.
  - intros t k Hq. by apply H1, H.
  - intros t k. destruct (H2 t k) as [[H3 H4]|H3]; [left|by right]. split; [by apply H|done].
Qed.

Lemma sets_frame v P st st' t k :
  sets v P st st' -> ~ P t k -> tbl_get (cs_store st') t k = tbl_get (cs_store st) t k.
Proof. intros (_ & _ & _ & H) Hn. by destruct (H t k) as [[? _]|?]. Qed.

(** A loop whose rounds each set one place. *)
Lemma for_each_sets {A} v (l : list A) (body : A -> M unit) (P : A -> string -> bytes -> Prop) st st' :
  (forall x st st', In x l -> store_ok (cs_store st) -> body x st = (st', Ok tt) -> sets v (P x) st st') ->
  store_ok (cs_store st) -> for_each l body st = (st', Ok tt) ->
  sets v (fun t k => exists x, In x l /\ P x t k) st st'.
Proof.
  intros Hb. revert st. induction l as [|x l IH]; intros st Hs Hrun.
  - injection Hrun as <-. split; [done|]. split; [done|]. split; [by intros t k (x & [] & _)|by right].
  - apply bind_inv in Hrun as ([] & st1 & H1 & H2).
    pose proof (Hb x st st1 (or_introl eq_refl) Hs H1) as Hx.
    pose proof (proj1 Hx) as Hs1.
    pose proof (IH (fun y s s' Hy => Hb y s s' (or_intror Hy)) st1 Hs1 H2) as Hl.
    eapply sets_weaken; [by apply (sets_trans _ _ _ _ _ _ Hx Hl)|].
    intros t k. split; [intros [H|(y & Hy & H)]|intros (y & [->|Hy] & H)]; [exists x|exists y|by left|].
    + split; [by left|done].
    + split; [by right|done].
    + right. by exists y.
Qed.

Lemma writing_insert_sets st c k v st' r :
  store_ok (cs_store st) -> effective_key c = Ok k -> effective_value c = Ok v ->
  writing (fun s => Storage.insert s c) st = (st', r) ->
  r = Ok tt /\ sets (Some v) (fun t k' => t = table_name c /\ k' = k) st st'.
Proof.
  intros Hs Hk Hv. rewrite writing_run. intros [= <- <-].
  destruct (insert_get (cs_store st) c k v "" [] Hs Hk Hv) as [-> _]. split; [done|].
  split; [by apply store_insert_ok|]. split; [done|].
  split; intros t k'; destruct (insert_get (cs_store st) c k v t k' Hs Hk Hv) as [_ Hg];
    change (tbl_get (cs_store (put_store st ?x)) ?a ?b) with (tbl_get x a b); rewrite Hg.
  - intros [-> ->]. by rewrite decide_True.
  - case_decide; [by left|by right].
Qed.

Lemma writing_remove_sets st c k st' r :
  store_ok (cs_store st) -> effective_key c = Ok k ->
  writing (fun s => Storage.remove s c) st = (st', r) ->
  r = Ok tt /\ sets None (fun t k' => t = table_name c /\ k' = k) st st'.
Proof.
  intros Hs Hk. rewrite writing_run. intros [= <- <-].
  destruct (remove_get (cs_store st) c k "" [] Hs Hk) as [-> _]. split; [done|].
  split; [by apply store_remove_ok|]. split; [done|].
  split; intros t k'; destruct (remove_get (cs_store st) c k t k' Hs Hk) as [_ Hg];
    change (tbl_get (cs_store (put_store st ?x)) ?a ?b) with (tbl_get x a b); rewrite Hg.
  - intros [-> ->]. by rewrite decide_True.
  - case_decide; [by left|by right].
Qed.

Lemma put_entry_sets table key id st st' r :
  store_ok (cs_store st) -> put_entry table key id st = (st', r) ->
  r = Ok tt /\ sets (Some (as_bytes id)) (fun t k => t = table /\ k = key) st st'.
Proof. intros Hs H. by apply (writing_insert_sets st _ key (as_bytes id) st' r) in H. Qed.

Lemma drop_entry_sets table key st st' r :
  store_ok (cs_store st) -> drop_entry table key st = (st', r) ->
  r = Ok tt /\ sets None (fun t k => t = table /\ k = key) st st'.
Proof.
  intros Hs H. unfold drop_entry in H. set (c := set_key_raw (open_cursor table) key) in H.
  rewrite writing_run in H. unfold Storage.search in H. cbn in H.
  destruct (bt_get (cs_store st) table) as [t|] eqn:Et; [destruct (bt_get t key) as [v|] eqn:Ek|].
  - apply (writing_remove_sets st (set_current c key v) key st' r Hs); [done|]. by rewrite writing_run.
  - injection H as <- <-. split; [done|]. split; [done|]. split; [done|].
    split; [|by right]. intros t' k [-> ->]. unfold tbl_get. cbn. by rewrite Et.
  - injection H as <- <-. split; [done|]. split; [done|]. split; [done|].
    split; [|by right]. intros t' k [-> ->]. unfold tbl_get. cbn. by rewrite Et.
Qed.
End Runs.

(** ** One change of a collection *)

Section Keep.
Context {B : BsonOps} {Lm : Libm} {G : S2} {T : TextEnv} {X : ExprEngine} {K : Clock}
  {J : JsonOps} {N : OplogEnv} {FP : F64Parse} {E : CollEnv} {BC : BsonCodecLaws B}
  (self : Collection).

(** The document under [id] becomes [o1] instead of [o0], and its entry in the
    index moves accordingly: the agreement holds again.  Ids of one length make
    the entries of different documents different. *)
Lemma agree_change s s' spec id (o0 o1 : option document) :
  (forall doc, holds self s id doc <-> o0 = Some doc) ->
  (forall doc, holds self s' id doc <-> o1 = Some doc) ->
  (forall id' doc, id' <> id -> holds self s' id' doc <-> holds self s id' doc) ->
  (forall id' doc, holds self s id' doc -> length (as_bytes id') = length (as_bytes id)) ->
  (forall d, o1 = Some d -> tbl_get s' (index_table self (name spec)) (btree_entry d id spec) =
                            Some (as_bytes id)) ->
  (forall d, o0 = Some d ->
     (forall d1, o1 = Some d1 -> btree_entry d id spec <> btree_entry d1 id spec) ->
     tbl_get s' (index_table self (name spec)) (btree_entry d id spec) = None) ->
  (forall key, (forall d, o0 = Some d -> key <> btree_entry d id spec) ->
     (forall d, o1 = Some d -> key <> btree_entry d id spec) ->
     tbl_get s' (index_table self (name spec)) key = tbl_get s (index_table self (name spec)) key) ->
  agrees self s spec -> agrees self s' spec.
Proof.
  intros H0 H1 Hother Hlen Hput Hdrop Hframe Hag key v.
  assert (Hdec : forall o, (exists d, o = Some d /\ key = btree_entry d id spec) \/
                           (forall d, o = Some d -> key <> btree_entry d id spec)).
  { intros [d|]; [|by right]. destruct (decide (key = btree_entry d id spec)) as [->|Hne];
      [left; by exists d|right; by intros ? [= <-]]. }
  destruct (Hdec o1) as [(d1 & Ho1 & ->)|Hn1].
  { rewrite (Hput d1 Ho1). split.
    - intros [= <-]. exists id, d1. split; [by apply H1|done].
    - intros (id' & doc & Hh & Hk & ->). destruct (decide (id' = id)) as [->|Hne]; [done|].
      exfalso. apply Hne, as_bytes_inj. unfold btree_entry in Hk. apply app_inj_2 in Hk as [_ Hk]; [done|].
      apply Hother in Hh; [|done]. symmetry. by eapply Hlen. }
  destruct (Hdec o0) as [(d0 & Ho0 & ->)|Hn0].
  { rewrite (Hdrop d0 Ho0) by (intros d1 Hd1; by apply Hn1). split; [done|].
    intros (id' & doc & Hh & Hk & ->). exfalso. destruct (decide (id' = id)) as [->|Hne].
    - apply H1 in Hh. by apply (Hn1 doc).
    - apply Hne, as_bytes_inj. unfold btree_entry in Hk. apply app_inj_2 in Hk as [_ Hk]; [done|].
      apply Hother in Hh; [|done]. symmetry. by eapply Hlen. }
  rewrite (Hframe key Hn0 Hn1), (Hag key v). split; intros (id' & doc & Hh & Hk & ->).
  - destruct (decide (id' = id)) as [->|Hne]; [apply H0 in Hh; by destruct (Hn0 doc)|].
    exists id', doc. split; [by apply Hother|done].
  - destruct (decide (id' = id)) as [->|Hne]; [apply H1 in Hh; by destruct (Hn1 doc)|].
    exists id', doc. split; [by apply Hother|done].
Qed.

(** ** The indexes of a collection *)

Definition parse_spec (e : bytes * bytes) : result IndexSpec failure :=
  map_err (fun e => Fail (COther ("Failed to deserialize index spec: " ++ e)%string))
    (spec_from_slice (snd e)).

(** The specifications in the metadata table. *)
Definition stored_specs (s : store) : result (list IndexSpec) failure :=
  map_result parse_spec (table_rows s (metadata_table self)).

Definition specs_row (st : cstate * list IndexSpec) (e : bytes * bytes)
  : cstate * list IndexSpec + cstate * list IndexSpec * result (list IndexSpec) failure :=
  match parse_spec e with
  | Ok spec => inl (fst st, snd st ++ [spec])
  | Err err => inr (st, Err err)
  end.

Lemma specs_fold st acc rows specs :
  map_result parse_spec rows = Ok specs ->
  fold_rows (fun st => Ok (snd st)) specs_row (st, acc) rows = ((st, acc ++ specs), Ok (acc ++ specs)).
Proof.
  revert acc specs. induction rows as [|e rows IH]; intros acc specs H.
  - injection H as <-. simpl. by rewrite app_nil_r.
  - simpl in *. unfold specs_row at 1. destruct (parse_spec e) as [spec|]; [|done]. simpl in *.
    destruct (map_result parse_spec rows) as [l|]; [|done]. injection H as <-.
    rewrite (IH _ l eq_refl). by rewrite <- app_assoc.
Qed.

Lemma put_cache_same st : put_cache st (index_cache st) = st.
Proof. by destruct st. Qed.

(** [list_indexes] reads the metadata, or the cache when it is filled. *)
Lemma list_indexes_run st specs :
  stored_specs (cs_store st) = Ok specs ->
  (forall l, index_cache st = Some l -> l = specs) ->
  list_indexes self st = (put_cache st (Some specs), Ok specs).
Proof.
  intros Hst Hc. unfold list_indexes. destruct (index_cache st) as [l|] eqn:Ec.
  { rewrite (Hc l eq_refl) in Ec |- *. rewrite <- Ec. by rewrite put_cache_same. }
  unfold bind at 1, for_rows. set (body := loop_body _).
  assert (Hb : reads body specs_row).
  { intros [s acc] c p e. unfold body, loop_body, specs_row, parse_spec, reading, bind, lift. simpl.
    destruct (spec_from_slice (snd e)); [done|done]. }
  rewrite (while_next_fold _ _ _ _ _ _ Hb). cbn [fst snd].
  by rewrite (specs_fold st [] _ specs Hst).
Qed.

(** ** The invariant *)

(** A B-tree index over the whole collection. *)
Definition plain_btree (spec : IndexSpec) : Prop :=
  resolve_index_type (keys spec) (options spec) = BTreeIndex /\
  partial_filter_expression (options spec) = None.

Record coll_ok (n : nat) (specs : list IndexSpec) (st : cstate) : Prop := {
  ok_store : store_ok (cs_store st);
  ok_cache : forall l, index_cache st = Some l -> l = specs;
  ok_specs : stored_specs (cs_store st) = Ok specs;
  ok_keyed : well_keyed self (cs_store st);
  ok_length : forall k b, tbl_get (cs_store st) (coll_table self) k = Some b -> length k = n;
  ok_agrees : forall spec, In spec specs -> agrees self (cs_store st) spec }.

(** What the collection has under an id. *)
Definition slot (s : store) (id : string) (o : option document) : Prop :=
  match o with
  | None => tbl_get s (coll_table self) (as_bytes id) = None
  | Some d => exists b, tbl_get s (coll_table self) (as_bytes id) = Some b /\
                deserialize_document b = Ok d
  end.

Lemma slot_holds s id o : slot s id o -> forall doc, holds self s id doc <-> o = Some doc.
Proof.
  intros Hs doc. unfold holds. destruct o as [d|]; simpl in Hs.
  - destruct Hs as (b & Hb & Hd). split; [intros (b' & Hb' & Hd'); congruence|].
    intros [= <-]. by exists b.
  - split; [intros (b & Hb & _); congruence|done].
Qed.

(** The text of an id a document of the collection can have. *)
Definition good_id (n : nat) (id : string) : Prop :=
  utf8_valid (as_bytes id) = true /\ length (as_bytes id) = n.

(** The invariant after one document changed and its entries moved. *)
Lemma keep_change n specs st st' id o0 o1 :
  coll_ok n specs st -> store_ok (cs_store st') ->
  (forall l, index_cache st' = Some l -> l = specs) ->
  (forall k, tbl_get (cs_store st') (metadata_table self) k =
             tbl_get (cs_store st) (metadata_table self) k) ->
  (forall k, k <> as_bytes id ->
     tbl_get (cs_store st') (coll_table self) k = tbl_get (cs_store st) (coll_table self) k) ->
  slot (cs_store st) id o0 -> slot (cs_store st') id o1 ->
  good_id n id -> (forall d, o1 = Some d -> extract_id_string d = Ok id) ->
  (forall spec, In spec specs -> forall d, o1 = Some d ->
     tbl_get (cs_store st') (index_table self (name spec)) (btree_entry d id spec) =
     Some (as_bytes id)) ->
  (forall spec, In spec specs -> forall d, o0 = Some d ->
     (forall d1, o1 = Some d1 -> btree_entry d id spec <> btree_entry d1 id spec) ->
     tbl_get (cs_store st') (index_table self (name spec)) (btree_entry d id spec) = None) ->
  (forall spec, In spec specs -> forall key, (forall d, o0 = Some d -> key <> btree_entry d id spec) ->
     (forall d, o1 = Some d -> key <> btree_entry d id spec) ->
     tbl_get (cs_store st') (index_table self (name spec)) key =
     tbl_get (cs_store st) (index_table self (name spec)) key) ->
  coll_ok n specs st'.
Proof.
  intros [Hs Hc Hsp Hw Hl Ha] Hs' Hc' Hmeta Hcoll H0 H1 [Hu Hn] Hid Hput Hdrop Hframe. split; try done.
  - unfold stored_specs. by rewrite (table_rows_ext (cs_store st)).
  - intros k b Hk. destruct (decide (k = as_bytes id)) as [->|Hne]; [|apply Hw; by rewrite <- Hcoll].
    destruct o1 as [d|]; simpl in H1; [|congruence]. destruct H1 as (b' & Hb & Hd).
    exists id, d. split; [done|]. split; [done|]. split; [congruence|by apply Hid].
  - intros k b Hk. destruct (decide (k = as_bytes id)) as [->|Hne]; [done|].
    apply (Hl k b). by rewrite <- Hcoll.
  - intros spec Hin. apply (agree_change (cs_store st) _ spec id o0 o1);
      [by apply slot_holds|by apply slot_holds| | |by apply Hput|by apply Hdrop|by apply Hframe|by apply Ha].
    + intros id' doc Hne. unfold holds. rewrite Hcoll; [done|]. intros Hx. by apply Hne, as_bytes_inj.
    + intros id' doc (b & Hb & _). rewrite Hn. by eapply Hl.
Qed.

(** ** Maintenance of the indexes *)

Lemma insert_single_sets d id spec st st' :
  plain_btree spec -> store_ok (cs_store st) ->
  insert_into_indexes_single self d id spec st = (st', Ok tt) ->
  sets (Some (as_bytes id))
    (fun t k => t = index_table self (name spec) /\ k = btree_entry d id spec) st st'.
Proof.
  intros [Hty Hpf] Hs H. unfold insert_into_indexes_single, outside_partial in H.
  rewrite Hpf, Hty in H. apply bind_inv in H as (out & st1 & H1 & H).
  apply lift_inv in H1 as [-> H1]. injection H1 as <-.
  apply bind_inv in H as (dup & st1 & H1 & H).
  assert (st1 = st) as ->.
  { destruct (unique (options spec)); [unfold reading in H1|unfold ret in H1]; by injection H1 as <-. }
  destruct dup; [done|]. by apply put_entry_sets in H as [_ H].
Qed.

Lemma remove_single_sets d id spec st st' :
  plain_btree spec -> store_ok (cs_store st) ->
  remove_from_indexes_single self d id spec st = (st', Ok tt) ->
  sets None (fun t k => t = index_table self (name spec) /\ k = btree_entry d id spec) st st'.
Proof.
  intros [Hty Hpf] Hs H. unfold remove_from_indexes_single in H. rewrite Hty in H.
  by apply drop_entry_sets in H as [_ H].
Qed.

(** The entries of a document in the indexes of the collection. *)
Definition its_entries (specs : list IndexSpec) (d : document) (id : string) (t : string) (k : bytes) : Prop :=
  exists spec, In spec specs /\ t = index_table self (name spec) /\ k = btree_entry d id spec.

Lemma insert_into_indexes_sets n specs d id st st' :
  coll_ok n specs st -> (forall spec, In spec specs -> plain_btree spec) ->
  extract_id_string d = Ok id -> insert_into_indexes self d st = (st', Ok tt) ->
  sets (Some (as_bytes id)) (its_entries specs d id) (put_cache st (Some specs)) st'.
Proof.
  intros Hok Hp Hid H. apply bind_inv in H as (l & st1 & H1 & H).
  rewrite (list_indexes_run st specs) in H1 by (eapply ok_specs, Hok || eapply ok_cache, Hok). injection H1 as <- <-.
  apply bind_inv in H as (id' & st1 & H1 & H). rewrite Hid in H1. apply lift_inv in H1 as [-> [= <-]].
  apply (for_each_sets (Some (as_bytes id)) _ _ (fun spec t k =>
    t = index_table self (name spec) /\ k = btree_entry d id spec)) in H; [done| |exact (ok_store _ _ _ Hok)].
  intros spec s s' Hin Hs Hrun. apply insert_single_sets; auto.
Qed.

Lemma remove_from_indexes_sets n specs d id st st' :
  coll_ok n specs st -> (forall spec, In spec specs -> plain_btree spec) ->
  extract_id_string d = Ok id -> remove_from_indexes self d st = (st', Ok tt) ->
  sets None (its_entries specs d id) (put_cache st (Some specs)) st'.
Proof.
  intros Hok Hp Hid H. apply bind_inv in H as (l & st1 & H1 & H).
  rewrite (list_indexes_run st specs) in H1 by (eapply ok_specs, Hok || eapply ok_cache, Hok). injection H1 as <- <-.
  apply bind_inv in H as (id' & st1 & H1 & H). rewrite Hid in H1. apply lift_inv in H1 as [-> [= <-]].
  apply (for_each_sets None _ _ (fun spec t k =>
    t = index_table self (name spec) /\ k = btree_entry d id spec)) in H; [done| |exact (ok_store _ _ _ Hok)].
  intros spec s s' Hin Hs Hrun. apply remove_single_sets; auto.
Qed.

(** The tables of a collection are different tables, and its indexes are B-trees
    over all of it. *)
Record layout (specs : list IndexSpec) : Prop := {
  lay_plain : forall spec, In spec specs -> plain_btree spec;
  lay_names : NoDup (map name specs);
  lay_meta : coll_table self <> metadata_table self;
  lay_index : forall spec, In spec specs -> index_table self (name spec) <> coll_table self;
  lay_oplog : forall cfg, oplog self = Some cfg ->
    oplog_table cfg <> coll_table self /\ oplog_table cfg <> metadata_table self /\
    forall spec, In spec specs -> oplog_table cfg <> index_table self (name spec) }.

Lemma str_app_inj (a b c : string) : (a ++ b = a ++ c)%string -> b = c.
Proof. induction a as [|x a IH]; simpl; [done|]. intros [= H]. by apply IH. Qed.

Lemma index_table_inj a b : index_table self a = index_table self b -> a = b.
Proof. intros H. by do 2 apply str_app_inj in H. Qed.

Lemma index_not_meta a : index_table self a <> metadata_table self.
Proof. intros H. apply str_app_inj in H. done. Qed.

Lemma names_inj specs a b :
  layout specs -> In a specs -> In b specs -> name a = name b -> a = b.
Proof.
  intros Hl. pose proof (lay_names _ Hl) as Hnd. clear Hl.
  induction specs as [|x l IH]; [done|]. simpl in Hnd. apply NoDup_cons in Hnd as [Hx Hnd].
  assert (Hno : forall y, In y l -> name x <> name y).
  { intros y Hy Heq. apply Hx. rewrite Heq. apply list_elem_of_In. by apply in_map. }
  intros [->|Ha] [->|Hb] Heq; [done|by destruct (Hno b)|by destruct (Hno a)|by apply IH].
Qed.

Lemma its_entries_at specs d id spec k :
  layout specs -> In spec specs ->
  its_entries specs d id (index_table self (name spec)) k <-> k = btree_entry d id spec.
Proof.
  intros Hl Hin. split; [|intros ->; by exists spec].
  intros (spec' & Hin' & Ht & ->). apply index_table_inj in Ht.
  by rewrite (names_inj specs spec spec').
Qed.

Lemma its_entries_elsewhere specs d id t k :
  layout specs -> t = coll_table self \/ t = metadata_table self -> ~ its_entries specs d id t k.
Proof.
  intros Hl Ht (spec & Hin & Heq & _). destruct Ht as [->| ->].
  - by apply (lay_index _ Hl spec Hin).
  - by apply (index_not_meta (name spec)).
Qed.

(** Logging an operation touches the table of the log only. *)
Lemma log_frame op id payload internal changed st st' :
  store_ok (cs_store st) ->
  append_oplog_if_enabled self op id payload internal changed st = (st', Ok tt) ->
  store_ok (cs_store st') /\ index_cache st' = index_cache st /\
  forall t k, (forall cfg, oplog self = Some cfg -> oplog_table cfg <> t) ->
    tbl_get (cs_store st') t k = tbl_get (cs_store st) t k.
Proof.
  intros Hs. unfold append_oplog_if_enabled.
  destruct internal; [by intros [= <-]|]. destruct (oplog self) as [cfg|]; [|by intros [= <-]].
  unfold append_oplog. destruct (doc_to_vec _) as [buf|]; [|done]. cbn [w_store].
  set (key := oplog_key _ _). set (c := set_value_raw _ _).
  assert (Hi := fun t k => insert_get (cs_store st) c (as_bytes key) buf t k Hs eq_refl eq_refl).
  assert (Hso := store_insert_ok (cs_store st) c Hs).
  change (w_store (cs_world st)) with (cs_store st).
  destruct (Storage.insert (cs_store st) c) as [s r]. cbn [fst snd] in Hi, Hso.
  rewrite (proj1 (Hi "" [])). intros [= <-].
  match goal with |- context [cs_store ?st0] => assert (Hst : cs_store st0 = s) end.
  { unfold cs_store. cbn [cs_world]. destruct (hub cfg); [by rewrite notify_store|done]. }
  rewrite Hst. split; [done|]. split; [done|]. intros t k Hne. rewrite (proj2 (Hi t k)).
  apply decide_False. intros [-> _]. by apply (Hne cfg).
Qed.

Lemma log_elsewhere specs t :
  layout specs -> (t = coll_table self \/ t = metadata_table self \/
                   exists spec, In spec specs /\ t = index_table self (name spec)) ->
  forall cfg, oplog self = Some cfg -> oplog_table cfg <> t.
Proof.
  intros Hl Ht cfg Hc. destruct (lay_oplog _ Hl cfg Hc) as (H1 & H2 & H3).
  destruct Ht as [->|[->|(spec & Hin & ->)]]; auto.
Qed.

(** The tables the invariant speaks of. *)
Definition relevant (specs : list IndexSpec) (t : string) : Prop :=
  t = coll_table self \/ t = metadata_table self \/
  exists spec, In spec specs /\ t = index_table self (name spec).

Lemma keep_frame n specs st st' :
  coll_ok n specs st -> store_ok (cs_store st') ->
  (forall l, index_cache st' = Some l -> l = specs) ->
  (forall t k, relevant specs t -> tbl_get (cs_store st') t k = tbl_get (cs_store st) t k) ->
  coll_ok n specs st'.
Proof.
  intros [Hs Hc Hsp Hw Hl Ha] Hs' Hc' Hf. split; try done.
  - unfold stored_specs. rewrite (table_rows_ext (cs_store st)); [done..|].
    intros k. apply Hf. by right; left.
  - intros k b Hk. apply Hw. rewrite <- Hf by (by left). done.
  - intros k b Hk. apply (Hl k b). rewrite <- Hf by (by left). done.
  - intros spec Hin key v. rewrite Hf by (right; right; by exists spec). rewrite (Ha spec Hin key v).
    unfold holds. split; intros (id & doc & (b & Hb & Hd) & Hk & ->); exists id, doc; (split; [|done]);
      exists b; rewrite Hf in * by (by left); done.
Qed.

Lemma keep_cache n specs st c :
  coll_ok n specs st -> c = None \/ c = Some specs -> coll_ok n specs (put_cache st c).
Proof.
  intros Hok Hc. apply (keep_frame n specs st); [done|by apply Hok| |done].
  intros l. simpl. by destruct Hc as [->| ->]; [|intros [= <-]].
Qed.

Lemma keep_log n specs op id payload internal changed st st' :
  layout specs -> coll_ok n specs st ->
  append_oplog_if_enabled self op id payload internal changed st = (st', Ok tt) ->
  coll_ok n specs st' /\ forall k, tbl_get (cs_store st') (coll_table self) k =
                                  tbl_get (cs_store st) (coll_table self) k.
Proof.
  intros Hl Hok H. apply log_frame in H as (Hs & Hc & Hf); [|by apply Hok]. split.
  - apply (keep_frame n specs st); [done|done| |].
    + rewrite Hc. by apply Hok.
    + intros t k Ht. apply Hf. by apply (log_elsewhere specs).
  - intros k. apply Hf. apply (log_elsewhere specs); [done|by left].
Qed.

(** ** Insertion *)

Lemma store_document_keeps n specs d id st st' :
  layout specs -> coll_ok n specs st -> good_id n id -> extract_id_string d = Ok id ->
  doc_ok d = true -> doubles_ok (BDocument d) = true -> slot (cs_store st) id None ->
  store_document self d st = (st', Ok tt) ->
  coll_ok n specs st' /\ slot (cs_store st') id (Some d) /\
  forall k, k <> as_bytes id -> tbl_get (cs_store st') (coll_table self) k = tbl_get (cs_store st) (coll_table self) k.
Proof.
  intros Hl Hok Hg Hid Hd Hdd H0 H. apply bind_inv in H as ([] & st1 & H1 & H).
  apply (insert_into_indexes_sets n specs d id) in H1; [|done|apply Hl|done].
  apply bind_inv in H as (b & st2 & H2 & H). apply lift_inv in H2 as [-> H2].
  apply bind_inv in H as (id' & st2 & H3 & H). apply lift_inv in H3 as [-> H3].
  rewrite Hid in H3. injection H3 as <-.
  apply (writing_insert_sets st1 _ (as_bytes id) b) in H as [_ H]; [|apply H1|done|done].
  cbn [table_name set_value_raw set_key_str set_key_raw cursor open_cursor] in H.
  assert (Hb : deserialize_document b = Ok d).
  { unfold serialize_document in H2. destruct (doc_to_vec d) as [b'|] eqn:Ev; [|done]. injection H2 as <-.
    unfold deserialize_document. by rewrite (from_to_vec d b'). }
  assert (Hrow : slot (cs_store st') id (Some d)).
  { exists b. split; [|done]. by apply H. }
  assert (Hent : forall spec k, In spec specs -> tbl_get (cs_store st') (index_table self (name spec)) k =
                                      tbl_get (cs_store st1) (index_table self (name spec)) k).
  { intros spec k Hin. apply (sets_frame _ _ _ _ _ _ H). intros [Ht _]. by apply (lay_index _ Hl spec Hin). }
  assert (Hother : forall k, k <> as_bytes id ->
    tbl_get (cs_store st') (coll_table self) k = tbl_get (cs_store st) (coll_table self) k).
  { intros k Hk. rewrite (sets_frame _ _ _ _ _ _ H) by (by intros [_ ?]).
    apply (sets_frame _ _ _ _ _ _ H1), its_entries_elsewhere; [done|by left]. }
  split; [|done]. apply (keep_change n specs st st' id None (Some d)); try done.
  - apply H.
  - intros l. rewrite (proj1 (proj2 H)), (proj1 (proj2 H1)). by intros [= <-].
  - intros k. rewrite (sets_frame _ _ _ _ _ _ H) by (intros [Ht _]; by apply (lay_meta _ Hl)).
    apply (sets_frame _ _ _ _ _ _ H1), its_entries_elsewhere; [done|by right].
  - by intros ? [= <-].
  - intros spec Hin ? [= <-]. rewrite Hent by done. apply H1. by apply its_entries_at.
  - intros spec Hin key _ Hne. rewrite Hent by done. apply (sets_frame _ _ _ _ _ _ H1).
    rewrite its_entries_at by done. by apply Hne.
Qed.

Lemma ensure_id_state doc st st1 d idv :
  ensure_id doc st = (st1, Ok (d, idv)) ->
  cs_store st1 = cs_store st /\ index_cache st1 = index_cache st.
Proof.
  unfold ensure_id. destruct (doc_get doc "_id"); [by intros [= <-]|].
  unfold bind, fresh_oid, ret. by intros [= <- _ _].
Qed.

Lemma keep_same n specs st st' :
  coll_ok n specs st -> cs_store st' = cs_store st -> index_cache st' = index_cache st ->
  coll_ok n specs st'.
Proof.
  intros Hok Hs Hc. apply (keep_frame n specs st); [done|rewrite Hs; by apply Hok|rewrite Hc; by apply Hok|].
  intros t k _. by rewrite Hs.
Qed.

(** A document the codec round-trips, under a new id. *)
Definition insertable (n : nat) (st : cstate) (d : document) (id : string) : Prop :=
  good_id n id /\ extract_id_string d = Ok id /\ doc_ok d = true /\
  doubles_ok (BDocument d) = true /\ slot (cs_store st) id None.

Lemma insert_one_inner_keeps n specs doc internal d idv id st st1 st' r :
  layout specs -> coll_ok n specs st -> ensure_id doc st = (st1, Ok (d, idv)) ->
  insertable n st d id -> insert_one_inner self doc internal st = (st', Ok r) ->
  coll_ok n specs st' /\ slot (cs_store st') id (Some d) /\ r = idv.
Proof.
  intros Hl Hok He (Hg & Hid & Hd & Hdd & H0) H. unfold insert_one_inner in H.
  apply bind_inv in H as (p & st2 & H1 & H). rewrite He in H1. injection H1 as <- <-.
  apply ensure_id_state in He as [Hs Hc]. assert (Hok1 := keep_same _ _ _ st1 Hok Hs Hc).
  apply bind_inv in H as ([] & st2 & H1 & H). apply lift_inv in H1 as [-> _].
  apply bind_inv in H as ([] & st2 & H1 & H).
  apply (store_document_keeps n specs d id) in H1 as (Hok2 & Hslot & _); try done; [|by rewrite Hs].
  apply bind_inv in H as ([] & st3 & H1 & H). injection H as <- <-.
  apply (keep_log n specs) in H1 as [Hok3 Hf]; [|done|done]. split; [done|]. split; [|done].
  destruct Hslot as (b & Hb & Hdec). exists b. by rewrite Hf.
Qed.

(** The batch around a write ends with an empty cache and the same store. *)
Lemma batched_ok {A} (f : M A) st st' r :
  with_batched_write f st = (st', Ok r) ->
  exists st1, f st = (st1, Ok r) /\ st' = put_cache st1 None.
Proof.
  unfold with_batched_write. cbn [Storage.in_transaction]. rewrite writing_run. cbn [fst snd map_err Storage.begin_transaction].
  assert (Hput : forall st, put_store st (cs_store st) = st) by (by intros [[] ? ?]).
  rewrite Hput. destruct (f st) as [st1 [a|[e|m]]]; [|done|done].
  rewrite writing_run. cbn [fst snd map_err Storage.commit_transaction]. rewrite Hput.
  intros [= <- <-]. by exists st1.
Qed.

Lemma slot_fetch s id d : slot s id (Some d) -> fetch_doc_by_id_str self s id = Ok (Some d).
Proof.
  intros (b & Hb & Hd). unfold fetch_doc_by_id_str, Storage.search, cursor. simpl.
  unfold tbl_get in Hb. destruct (bt_get s (coll_table self)) as [t|]; [|done]. simpl in Hb.
  rewrite Hb. unfold current_doc. simpl. by rewrite Hd.
Qed.

Lemma insert_one_run n specs doc d idv id st st1 st' r :
  layout specs -> coll_ok n specs st -> ensure_id doc st = (st1, Ok (d, idv)) ->
  insertable n st d id -> insert_one self doc st = (st', Ok r) ->
  coll_ok n specs st' /\ slot (cs_store st') id (Some d) /\ r = idv.
Proof.
  intros Hl Hok He Hi H. apply batched_ok in H as (st2 & H & ->).
  destruct (insert_one_inner_keeps _ _ _ _ _ _ _ _ _ _ _ Hl Hok He Hi H) as (H1 & H2 & ->).
  split; [by apply keep_cache; [|left]|]. by split.
Qed.

(** C2: in a collection whose indexes are plain B-trees without a partial filter and agree with
    its documents, whose tables have different names and whose ids all have one length in bytes
    (as ObjectIds do; [entries_collide] shows what happens otherwise), an [insert_one] that
    succeeds, of a well typed document with doubles the codec gives back and a new id of that
    length, returns that id; the document is then found under it, and every index agrees with
    the documents again. *)
Theorem insert_one_keeps n specs doc d idv id st st1 st' r :
  layout specs -> coll_ok n specs st -> ensure_id doc st = (st1, Ok (d, idv)) ->
  insertable n st d id -> insert_one self doc st = (st', Ok r) ->
  coll_ok n specs st' /\ fetch_doc_by_id_str self (cs_store st') id = Ok (Some d) /\ r = idv.
Proof.
  intros Hl Hok He Hi H. destruct (insert_one_run n specs doc d idv id st st1 st' r) as (H1 & H2 & H3); try done.
  split; [done|]. split; [by apply slot_fetch|done].
Qed.
End Keep.

(** ** Loops that write *)

Section Loops.
Context {J : JsonOps} {Acc : Type} (body : Acc -> MemCursor -> M (next_move Acc)).

(** The body leaves the snapshot, the position and the table of the cursor alone. *)
Definition keeps_cursor : Prop :=
  forall acc c st st' acc' c', body acc c st = (st', Ok (GoOn acc' c')) ->
    entries c' = entries c /\ position c' = position c /\ table_name c' = table_name c.

(** The cursor of a loop over [name] that has come to the row [e]. *)
Definition at_row (name : string) (c : MemCursor) (e : bytes * bytes) : Prop :=
  table_name c = name /\ current_key c = Some (fst e) /\ current_value c = Some (snd e) /\
  pending_key c = Some (fst e).

(** An invariant of the state, the accumulator and the rows still to come. *)
Lemma for_rows_inv (Inv : TableStore -> cstate -> Acc -> Prop) name st acc st' r :
  keeps_cursor ->
  (forall e rest c st acc st' m, at_row name c e -> Inv (e :: rest) st acc ->
     body acc c st = (st', Ok m) ->
     match m with GoOn acc' _ => Inv rest st' acc' | Stop acc' => Inv [] st' acc' end) ->
  Inv (table_rows (cs_store st) name) st acc ->
  for_rows acc (open_cursor name) body st = (st', Ok r) -> Inv [] st' r.
Proof.
  intros Hk Hstep Hinv. unfold for_rows. rewrite while_next_rows.
  2:{ intros [s a] c p e [s' a'] c' H. unfold loop_body in H.
      destruct (body a (moved c p e) s) as [s1 [[a1 c1|a1]|]] eqn:Eb; [|done|done].
      injection H as <- <- <-. by destruct (Hk _ _ _ _ _ _ Eb) as (-> & -> & _). }
  cbn [fst]. set (c := materialize _ _). assert (Hc : table_name c = name) by done.
  clearbody c. generalize 0%nat. generalize dependent (table_rows (cs_store st) name). intros rows.
  revert st acc c Hc. induction rows as [|e rows IH]; intros st acc c Hc Hinv p H; cbn [rows_loop] in H.
  { cbn [snd] in H. by injection H as <- <-. }
  unfold loop_body at 1 in H. destruct (body acc (moved c p e) st) as [s1 [m|]] eqn:Eb; [|done].
  assert (Hat : at_row name (moved c p e) e) by done.
  pose proof (Hstep e rows _ _ _ _ _ Hat Hinv Eb) as Hm.
  destruct m as [a1 c1|a1].
  - destruct (Hk _ _ _ _ _ _ Eb) as (_ & _ & Ht). by apply (IH s1 a1 c1 ltac:(by rewrite Ht) Hm (S p)).
  - by injection H as <- <-.
Qed.
End Loops.

Section Deletion.
Context {B : BsonOps} {Lm : Libm} {G : S2} {T : TextEnv} {X : ExprEngine} {K : Clock}
  {J : JsonOps} {N : OplogEnv} {FP : F64Parse} {E : CollEnv} {BC : BsonCodecLaws B}
  (self : Collection) (n : nat) (specs : list IndexSpec) (Hl : layout self specs).

(** The rows a loop over the collection still has to visit are in the store as
    they were when the loop began. *)
Definition pending (rows : TableStore) (s : store) : Prop :=
  NoDup (map fst rows) /\ forall k b, In (k, b) rows -> tbl_get s (coll_table self) k = Some b.

Lemma pending_start st : coll_ok self n specs st -> pending (table_rows (cs_store st) (coll_table self)) (cs_store st).
Proof.
  intros Hok. assert (Hs : store_ok (cs_store st)) by (by apply Hok).
  split; [by apply table_rows_nodup|]. intros k b. by apply table_rows_In.
Qed.

Lemma pending_step k b rows s s' :
  pending ((k, b) :: rows) s ->
  (forall k', k' <> k -> tbl_get s' (coll_table self) k' = tbl_get s (coll_table self) k') ->
  pending rows s'.
Proof.
  intros [Hnd Hin] Hf. apply NoDup_cons in Hnd as [Hk Hnd]. split; [done|]. intros k' b' H'.
  rewrite Hf; [by apply Hin; right|]. intros ->. apply Hk, list_elem_of_In, in_map_iff. by exists (k, b').
Qed.

(** The document under [id] is taken out of the indexes, then out of the collection. *)
Lemma remove_doc_keeps id b c doc st st1 st2 :
  coll_ok self n specs st -> table_name c = coll_table self -> effective_key c = Ok (as_bytes id) ->
  tbl_get (cs_store st) (coll_table self) (as_bytes id) = Some b -> deserialize_document b = Ok doc ->
  extract_id_string doc = Ok id -> utf8_valid (as_bytes id) = true ->
  remove_from_indexes self doc st = (st1, Ok tt) ->
  writing (fun s => Storage.remove s c) st1 = (st2, Ok tt) ->
  coll_ok self n specs st2 /\ tbl_get (cs_store st2) (coll_table self) (as_bytes id) = None /\
  forall k', k' <> as_bytes id -> tbl_get (cs_store st2) (coll_table self) k' = tbl_get (cs_store st) (coll_table self) k'.
Proof.
  intros Hok Ht Hp Hb Hd Hid Hu H1 H2.
  apply (remove_from_indexes_sets self n specs doc id) in H1; [|done|apply Hl|done].
  apply (writing_remove_sets st1 c (as_bytes id)) in H2 as [_ H2]; [|apply H1|done].
  rewrite Ht in H2.
  assert (Hcoll : forall k', k' <> as_bytes id -> tbl_get (cs_store st2) (coll_table self) k' =
                             tbl_get (cs_store st) (coll_table self) k').
  { intros k' Hne. rewrite (sets_frame _ _ _ _ _ _ H2) by (by intros [_ ?]).
    apply (sets_frame _ _ _ _ _ _ H1), its_entries_elsewhere; [done|by left]. }
  assert (Hgone : tbl_get (cs_store st2) (coll_table self) (as_bytes id) = None) by (by apply H2).
  assert (Hent : forall spec k, In spec specs -> tbl_get (cs_store st2) (index_table self (name spec)) k =
                                      tbl_get (cs_store st1) (index_table self (name spec)) k).
  { intros spec k Hin. apply (sets_frame _ _ _ _ _ _ H2). intros [Hx _]. by apply (lay_index _ _ Hl spec Hin). }
  split; [|done]. apply (keep_change self n specs st st2 id (Some doc) None); try done.
  - apply H2.
  - intros l. rewrite (proj1 (proj2 H2)), (proj1 (proj2 H1)). by intros [= <-].
  - intros k. rewrite (sets_frame _ _ _ _ _ _ H2) by (intros [Hx _]; by apply (lay_meta _ _ Hl)).
    apply (sets_frame _ _ _ _ _ _ H1), its_entries_elsewhere; [done|by right].
  - by exists b.
  - split; [done|]. by apply (ok_length _ _ _ _ Hok _ b).
  - intros spec Hin ? [= <-] _. rewrite Hent by done. apply H1. by apply its_entries_at.
  - intros spec Hin key Hne _. rewrite Hent by done. apply (sets_frame _ _ _ _ _ _ H1).
    rewrite its_entries_at by done. by apply Hne.
Qed.

Lemma delete_matching_keeps k b c doc internal st st' :
  coll_ok self n specs st -> at_row (coll_table self) c (k, b) ->
  tbl_get (cs_store st) (coll_table self) k = Some b -> deserialize_document b = Ok doc ->
  delete_matching self c doc internal st = (st', Ok tt) ->
  coll_ok self n specs st' /\ tbl_get (cs_store st') (coll_table self) k = None /\
  forall k', k' <> k -> tbl_get (cs_store st') (coll_table self) k' = tbl_get (cs_store st) (coll_table self) k'.
Proof.
  intros Hok (Ht & _ & _ & Hp) Hb Hd H.
  destruct (ok_keyed _ _ _ _ Hok k b Hb) as (id & doc' & -> & Hu & Hd' & Hid).
  assert (doc' = doc) as -> by congruence.
  apply bind_inv in H as (idv & st1 & H1 & H). apply lift_inv in H1 as [-> _].
  apply bind_inv in H as ([] & st1 & H1 & H). apply bind_inv in H as ([] & st2 & H2 & H).
  destruct (remove_doc_keeps id b c doc st st1 st2) as (Hok2 & Hgone & Hcoll); try done.
  { unfold effective_key. by rewrite Hp. }
  apply (keep_log self n specs) in H as [Hok3 Hf]; [|done|done].
  split; [done|]. split; [by rewrite Hf|]. intros k' Hne. rewrite Hf. by apply Hcoll.
Qed.

(** Whether a row of the collection matches. *)
Definition row_matches (filter : document) (e : bytes * bytes) : bool :=
  match deserialize_document (snd e) with Ok d => matching filter d | Err _ => false end.

(** One round of a deletion: the row goes when it matches, nothing else changes. *)
Lemma delete_row_round one filter internal e rest c st acc st' m :
  coll_ok self n specs st -> pending (e :: rest) (cs_store st) -> at_row (coll_table self) c e ->
  delete_row self one filter internal acc c st = (st', Ok m) ->
  coll_ok self n specs st' /\ pending rest (cs_store st') /\
  (forall k, tbl_get (cs_store st') (coll_table self) k =
     if decide (k = fst e /\ row_matches filter e = true) then None
     else tbl_get (cs_store st) (coll_table self) k) /\
  m = (if row_matches filter e then if one then Stop (acc + 1)%Z else GoOn (acc + 1)%Z c
       else GoOn acc c).
Proof.
  intros Hok Hp Hat H. destruct e as [k b]. pose proof (proj2 Hp k b (or_introl eq_refl)) as Hb.
  apply bind_inv in H as (doc & st1 & H1 & H). apply lift_inv in H1 as [-> Hdoc].
  destruct Hat as (Ht & Hk & Hv & Hpk). unfold current_doc, get_value_raw in Hdoc.
  rewrite Hv in Hdoc. cbn in Hdoc.
  apply bind_inv in H as (mt & st1 & H1 & H). apply lift_inv in H1 as [-> Hm].
  assert (Hrm : row_matches filter (k, b) = mt).
  { unfold row_matches, matching. cbn [snd]. rewrite Hdoc. by rewrite Hm. }
  rewrite Hrm. destruct mt.
  - apply bind_inv in H as ([] & st1 & H1 & H). injection H as <- <-.
    destruct (delete_matching_keeps k b c doc internal st st1) as (H2 & H3 & H4); try done.
    split; [done|]. split; [by apply (pending_step k b rest (cs_store st))|]. split; [|done].
    intros k'. case_decide as Hd; [by destruct Hd as [-> _]|]. apply H4. naive_solver.
  - injection H as <- <-. split; [done|]. split; [by apply (pending_step k b rest (cs_store st))|].
    split; [|done]. intros k'. by rewrite decide_False by (by intros [_ ?]).
Qed.

Lemma delete_keeps_cursor one filter internal : keeps_cursor (delete_row self one filter internal).
Proof.
  intros acc c st st' acc' c' H. apply bind_inv in H as (doc & st1 & _ & H).
  apply bind_inv in H as ([] & st2 & _ & H); [|by injection H as _ _ <-].
  apply bind_inv in H as ([] & st3 & _ & H). destruct one; [done|]. by injection H as _ _ <-.
Qed.

Lemma bt_ok_filter (f : bytes * bytes -> bool) (t : TableStore) : bt_ok t -> bt_ok (List.filter f t).
Proof.
  intros H. induction H as [|e t H IH Hf]; [constructor|]. simpl. destruct (f e); [|done].
  constructor; [done|]. rewrite Forall_forall in *. intros x Hx. apply Hf.
  apply list_elem_of_In in Hx. apply List.filter_In in Hx as [Hx _]. by apply list_elem_of_In.
Qed.

(** A sorted list with the rows of a table is the table. *)
Lemma table_rows_unique s name t :
  store_ok s -> bt_ok t -> (forall k b, tbl_get s name k = Some b <-> In (k, b) t) ->
  table_rows s name = t.
Proof.
  intros Hs Ht H. assert (Hr : bt_ok (table_rows s name)) by (by apply table_or_empty_ok).
  apply bt_ext; [done|done|]. intros k. apply option_eq. intros b.
  rewrite !bt_get_In by done. rewrite table_rows_In by done. apply H.
Qed.

(** After the rows [gone] of the collection of [s0] were visited. *)
Definition deleted_so_far (filter : document) (s0 : store) (rest : TableStore) (st : cstate) (d : Z) : Prop :=
  coll_ok self n specs st /\ pending rest (cs_store st) /\
  exists gone, table_rows s0 (coll_table self) = gone ++ rest /\
    d = Z.of_nat (length (List.filter (row_matches filter) gone)) /\
    forall k b, tbl_get (cs_store st) (coll_table self) k = Some b <->
      In (k, b) (List.filter (fun e => negb (row_matches filter e)) gone ++ rest).

Lemma deleted_round filter s0 e rest st d st' :
  deleted_so_far filter s0 (e :: rest) st d ->
  coll_ok self n specs st' -> pending rest (cs_store st') ->
  (forall k, tbl_get (cs_store st') (coll_table self) k =
     if decide (k = fst e /\ row_matches filter e = true) then None
     else tbl_get (cs_store st) (coll_table self) k) ->
  deleted_so_far filter s0 rest st' (if row_matches filter e then d + 1 else d)%Z.
Proof.
  intros (Hok & Hp & gone & Hr & -> & Hg) Hok' Hp' Hf. split; [done|]. split; [done|].
  exists (gone ++ [e]). rewrite <- app_assoc. split; [done|]. rewrite !List.filter_app. simpl.
  split; [destruct (row_matches filter e); rewrite length_app; simpl; lia|].
  intros k b. rewrite Hf, <- app_assoc. destruct e as [k0 b0]. cbn [fst].
  destruct (row_matches filter (k0, b0)) eqn:Em; simpl.
  - destruct (decide (k = k0 /\ true = true)) as [[-> _]|Hd].
    + split; [done|]. intros Hin. exfalso.
      assert (Hx : In (k0, b) (List.filter (fun e => negb (row_matches filter e)) gone ++ (k0, b0) :: rest))
        by (apply in_app_iff in Hin as [?|?]; apply in_app_iff; [by left|by right; right]).
      apply Hg in Hx. pose proof (proj2 Hp k0 b0 (or_introl eq_refl)) as Hb. rewrite Hb in Hx.
      injection Hx as <-. apply in_app_iff in Hin as [Hin|Hin].
      * apply List.filter_In in Hin as [_ Hn]. by rewrite Em in Hn.
      * destruct Hp as [Hnd _]. apply NoDup_cons in Hnd as [Hnd _].
        apply Hnd, list_elem_of_In, in_map_iff. by exists (k0, b0).
    + rewrite Hg. rewrite !in_app_iff. simpl. split; [intros [?|[[= <- <-]|?]]|intros [?|?]]; auto.
      by destruct Hd.
  - rewrite decide_False by (by intros [_ ?]). apply Hg.
Qed.

Lemma delete_many_run filter internal st st' d :
  coll_ok self n specs st -> delete_many_inner self filter internal st = (st', Ok d) ->
  deleted_so_far filter (cs_store st) [] st' d.
Proof.
  intros Hok H. apply (for_rows_inv _ (deleted_so_far filter (cs_store st))) in H; [done| | |].
  - apply delete_keeps_cursor.
  - intros e rest c s a s' m Hat Hinv Hb.
    destruct (delete_row_round _ _ _ e rest _ _ _ _ _ (proj1 Hinv) (proj1 (proj2 Hinv)) Hat Hb) as (H1 & H2 & H3 & ->).
    pose proof (deleted_round _ _ _ _ _ _ s' Hinv H1 H2 H3) as Hr. by destruct (row_matches filter e).
  - split; [done|]. split; [by apply pending_start|]. exists []. split; [done|]. split; [done|].
    intros k b. simpl. symmetry. apply table_rows_In. by apply Hok.
Qed.

(** C4: in a collection whose indexes are plain B-trees without a partial filter and agree with
    its documents, whose tables have different names and whose ids all have one length in bytes
    (as ObjectIds do), a [delete_many] that succeeds counts and removes exactly the matching
    documents, keeps the others as they are, and leaves every index in agreement with what
    remains. (Other kinds of index are outside the claim: the removal from a bitmap or vector
    index does nothing, and text and prefix indexes keep their rows in another table.) *)
Theorem delete_many_spec filter st st' d :
  coll_ok self n specs st -> delete_many self filter st = (st', Ok d) ->
  coll_ok self n specs st' /\
  d = Z.of_nat (length (List.filter (row_matches filter) (table_rows (cs_store st) (coll_table self)))) /\
  table_rows (cs_store st') (coll_table self) =
    List.filter (fun e => negb (row_matches filter e)) (table_rows (cs_store st) (coll_table self)).
Proof.
  intros Hok H. apply batched_ok in H as (st1 & H & ->).
  apply delete_many_run in H as (Hok1 & _ & gone & Hr & -> & Hg); [|done].
  rewrite app_nil_r in Hr. subst gone.
  split; [by apply keep_cache; [|left]|]. split; [done|].
  assert (Hs1 : store_ok (cs_store st1)) by (by apply Hok1).
  apply table_rows_unique; [done| |intros k b; by rewrite (Hg k b), app_nil_r].
  apply bt_ok_filter, table_or_empty_ok. by apply Hok.
Qed.

Fixpoint remove_first {A} (f : A -> bool) (l : list A) : list A :=
  match l with
  | [] => []
  | x :: l' => if f x then l' else x :: remove_first f l'
  end.

Lemma remove_first_none {A} (f : A -> bool) l : List.filter f l = [] -> remove_first f l = l.
Proof.
  induction l as [|x l IH]; [done|]. simpl. destruct (f x); [done|]. intros H. by rewrite IH.
Qed.

Lemma remove_first_app {A} (f : A -> bool) l x r :
  List.filter f l = [] -> f x = true -> remove_first f (l ++ x :: r) = l ++ r.
Proof.
  induction l as [|y l IH]; simpl; [by intros _ ->|]. destruct (f y); [done|]. intros H Hx. by rewrite IH.
Qed.

Lemma bt_ok_remove_first (f : bytes * bytes -> bool) (t : TableStore) :
  bt_ok t -> bt_ok (remove_first f t).
Proof.
  intros H. induction H as [|e t H IH Hf]; [constructor|]. simpl. destruct (f e); [done|].
  constructor; [done|]. rewrite Forall_forall in *. intros x Hx. apply Hf.
  apply list_elem_of_In in Hx. apply list_elem_of_In. clear - Hx.
  induction t as [|y t IH]; [done|]. simpl in Hx. destruct (f y); [by right|].
  destruct Hx as [->|Hx]; [by left|right; auto].
Qed.

(** Before the first match nothing changed; after it, its row is gone. *)
Definition one_deleted (filter : document) (s0 : store) (rest : TableStore) (st : cstate) (d : Z) : Prop :=
  coll_ok self n specs st /\
  let rows := table_rows s0 (coll_table self) in
  (d = 0%Z /\ pending rest (cs_store st) /\ table_rows (cs_store st) (coll_table self) = rows /\
   exists gone, rows = gone ++ rest /\ List.filter (row_matches filter) gone = []) \/
  (d = 1%Z /\ rest = [] /\ List.filter (row_matches filter) rows <> [] /\
   table_rows (cs_store st) (coll_table self) = remove_first (row_matches filter) rows).

Lemma delete_at (s s' : store) gone e rest :
  store_ok s -> store_ok s' -> table_rows s (coll_table self) = gone ++ e :: rest ->
  (forall k, tbl_get s' (coll_table self) k = if decide (k = fst e) then None
                                              else tbl_get s (coll_table self) k) ->
  table_rows s' (coll_table self) = gone ++ rest.
Proof.
  intros Hs Hs' Hr Hf. pose proof (table_or_empty_ok s (coll_table self) Hs) as Hok.
  fold (table_rows s (coll_table self)) in Hok.
  assert (Hrem : remove_first (fun x => bool_decide (fst x = fst e)) (gone ++ e :: rest) = gone ++ rest).
  { apply remove_first_app; [|by apply bool_decide_eq_true_2]. apply filter_none. intros x Hx.
    apply bool_decide_eq_false_2. intros Heq. pose proof (table_rows_nodup s (coll_table self) Hs) as Hnd.
    rewrite Hr, map_app in Hnd. apply NoDup_app in Hnd as (_ & Hnd & _).
    apply (Hnd (fst x)); [apply list_elem_of_In; by apply in_map|rewrite Heq; by left]. }
  rewrite <- Hrem, <- Hr. apply table_rows_unique; [done|by apply bt_ok_remove_first|].
  intros k b. rewrite Hf, Hr, Hrem.
  pose proof (table_rows_nodup s (coll_table self) Hs) as Hnd. rewrite Hr, map_app in Hnd.
  apply NoDup_app in Hnd as (_ & Hnd1 & Hnd2). simpl in Hnd2. apply NoDup_cons in Hnd2 as [Hnd2 _].
  rewrite in_app_iff. destruct (decide (k = fst e)) as [->|Hd].
  - split; [done|]. intros [Hin|Hin]; exfalso.
    + apply (Hnd1 (fst e)); [apply list_elem_of_In, in_map_iff; by exists (fst e, b)|by left].
    + apply Hnd2, list_elem_of_In, in_map_iff. by exists (fst e, b).
  - rewrite <- table_rows_In, Hr, in_app_iff by done. simpl.
    split; [intros [?|[->|?]]|intros [?|?]]; auto. by destruct Hd.
Qed.

Lemma delete_one_run filter internal st st' d :
  coll_ok self n specs st -> delete_one_inner self filter internal st = (st', Ok d) ->
  one_deleted filter (cs_store st) [] st' d.
Proof.
  intros Hok H. set (rows := table_rows (cs_store st) (coll_table self)).
  apply (for_rows_inv _ (one_deleted filter (cs_store st))) in H; [done|apply delete_keeps_cursor| |].
  - intros e rest c s a s' m Hat [Hok1 Hinv] Hb.
    destruct Hinv as [(-> & Hp & Hrows & gone & Hr & Hg)|(_ & Hx & _)]; [|done].
    destruct (delete_row_round _ _ _ e rest _ _ _ _ _ Hok1 Hp Hat Hb) as (H1 & H2 & H3 & ->).
    fold rows in Hr, Hrows.
    destruct (row_matches filter e) eqn:Em; (split; [done|]); cbv zeta; fold rows.
    + right. split; [done|]. split; [done|]. rewrite Hr. split.
      { rewrite List.filter_app. simpl. rewrite Em. by destruct (List.filter _ gone). }
      rewrite remove_first_app by done. apply (delete_at (cs_store s) _ _ e); [apply Hok1|apply H1|congruence|].
      intros k. rewrite H3. destruct (decide (k = fst e)) as [->|Hne]; [by rewrite decide_True|].
      by rewrite decide_False by (by intros [? _]).
    + left. split; [done|]. split; [done|]. split.
      { rewrite <- Hrows. apply table_rows_ext; [apply Hok1|apply H1|]. intros k. rewrite H3.
        by rewrite decide_False by (by intros [_ ?]). }
      exists (gone ++ [e]). rewrite <- app_assoc. split; [done|]. rewrite List.filter_app, Hg. simpl. by rewrite Em.
  - split; [done|]. left. split; [done|]. split; [by apply pending_start|]. split; [done|]. by exists [].
Qed.

(** [delete_one] removes the first matching document in the order of
    the keys and counts 1, or counts 0 when none matches; the rest of the
    collection stays as it is, and every index stays in agreement. *)
Theorem delete_one_spec filter st st' d :
  coll_ok self n specs st -> delete_one self filter st = (st', Ok d) ->
  let rows := table_rows (cs_store st) (coll_table self) in
  coll_ok self n specs st' /\
  table_rows (cs_store st') (coll_table self) = remove_first (row_matches filter) rows /\
  d = (if decide (List.filter (row_matches filter) rows = []) then 0 else 1)%Z.
Proof.
  intros Hok H rows. apply batched_ok in H as (st1 & H & ->).
  apply delete_one_run in H as [Hok1 Hd]; [|done]. split; [by apply keep_cache; [|left]|]. fold rows in Hd.
  change (cs_store (put_cache st1 None)) with (cs_store st1).
  destruct Hd as [(-> & _ & -> & gone & Hr & Hg)|(-> & _ & Hne & ->)].
  - rewrite app_nil_r in Hr. rewrite Hr, remove_first_none by done. by rewrite decide_True.
  - by rewrite decide_False.
Qed.
End Deletion.

(** ** Update *)

Section Updating.
Context {B : BsonOps} {Lm : Libm} {G : S2} {T : TextEnv} {X : ExprEngine} {K : Clock}
  {J : JsonOps} {N : OplogEnv} {FP : F64Parse} {E : CollEnv} {BC : BsonCodecLaws B}
  (self : Collection) (n : nat) (specs : list IndexSpec) (Hl : layout self specs).

(** The entry of [id] in the index [spec] moves from that of [d0] to that of [d1]. *)
Definition moves (d0 d1 : document) (id : string) (spec : IndexSpec) (s s' : store) : Prop :=
  forall k, tbl_get s' (index_table self (name spec)) k =
    if decide (btree_entry d0 id spec = btree_entry d1 id spec) then
      tbl_get s (index_table self (name spec)) k
    else if decide (k = btree_entry d1 id spec) then Some (as_bytes id)
    else if decide (k = btree_entry d0 id spec) then None
    else tbl_get s (index_table self (name spec)) k.

Definition update_one_index (d0 d1 : document) (id0 id1 : string) (spec : IndexSpec) : M unit :=
  if bool_decide (resolve_index_type (keys spec) (options spec) = BTreeIndex) &&
     bytes_eq (btree_key d0 spec) (btree_key d1 spec) && (id0 =s? id1)
  then ret tt
  else
    let! _ := remove_from_indexes_single self d0 id0 spec in
    insert_into_indexes_single self d1 id1 spec.

Lemma bytes_eq_spec a b : bytes_eq a b = true <-> a = b.
Proof.
  unfold bytes_eq. rewrite <- (bytes_cmp_eq a b). by destruct (bytes_cmp a b).
Qed.

Lemma update_one_index_moves d0 d1 id spec st st' :
  plain_btree spec -> store_ok (cs_store st) ->
  update_one_index d0 d1 id id spec st = (st', Ok tt) ->
  store_ok (cs_store st') /\ index_cache st' = index_cache st /\
  (forall t k, t <> index_table self (name spec) -> tbl_get (cs_store st') t k = tbl_get (cs_store st) t k) /\
  moves d0 d1 id spec (cs_store st) (cs_store st').
Proof.
  intros Hp Hs H. unfold update_one_index in H.
  rewrite bool_decide_eq_true_2, String.eqb_refl, andb_true_r in H by apply Hp. cbn [andb] in H.
  assert (Hkey : bytes_eq (btree_key d0 spec) (btree_key d1 spec) = true <->
                 btree_entry d0 id spec = btree_entry d1 id spec).
  { rewrite bytes_eq_spec. unfold btree_entry. split; [by intros ->|]. apply app_inv_tail. }
  destruct (bytes_eq _ _).
  { injection H as <-. split; [done|]. split; [done|]. split; [done|].
    intros k. rewrite decide_True; [done|]. by apply Hkey. }
  assert (Hne : btree_entry d0 id spec <> btree_entry d1 id spec) by (intros H1; by apply Hkey in H1).
  apply bind_inv in H as ([] & st1 & H1 & H).
  apply remove_single_sets in H1; [|done|done].
  apply insert_single_sets in H; [|done|apply H1].
  split; [apply H|]. split; [by rewrite (proj1 (proj2 H)), (proj1 (proj2 H1))|]. split.
  - intros t k Ht. rewrite (sets_frame _ _ _ _ _ _ H) by (by intros [? _]).
    by apply (sets_frame _ _ _ _ _ _ H1); intros [? _].
  - intros k. rewrite decide_False by done. destruct (decide (k = btree_entry d1 id spec)) as [->|Hk1]; [by apply H|].
    rewrite (sets_frame _ _ _ _ _ _ H) by (by intros [_ ?]).
    destruct (decide (k = btree_entry d0 id spec)) as [->|Hk0]; [by apply H1|].
    by apply (sets_frame _ _ _ _ _ _ H1); intros [_ ?].
Qed.

Lemma update_loop_moves d0 d1 id l st st' :
  (forall spec, In spec l -> plain_btree spec) -> NoDup (map name l) -> store_ok (cs_store st) ->
  for_each l (update_one_index d0 d1 id id) st = (st', Ok tt) ->
  store_ok (cs_store st') /\ index_cache st' = index_cache st /\
  (forall t k, (forall spec, In spec l -> t <> index_table self (name spec)) ->
     tbl_get (cs_store st') t k = tbl_get (cs_store st) t k) /\
  (forall spec, In spec l -> moves d0 d1 id spec (cs_store st) (cs_store st')).
Proof.
  revert st. induction l as [|x l IH]; intros st Hp Hnd Hs H; [by injection H as <-|].
  apply bind_inv in H as ([] & st1 & H1 & H). simpl in Hnd. apply NoDup_cons in Hnd as [Hx Hnd].
  apply update_one_index_moves in H1 as (Hs1 & Hc1 & Hf1 & Hm1); [|apply Hp; by left|done].
  apply IH in H as (Hs2 & Hc2 & Hf2 & Hm2); [|intros y Hy; apply Hp; by right|done|done].
  assert (Hxl : forall y, In y l -> index_table self (name x) <> index_table self (name y)).
  { intros y Hy Heq. apply index_table_inj in Heq. apply Hx. rewrite Heq.
    apply list_elem_of_In. by apply in_map. }
  split; [done|]. split; [congruence|]. split.
  - intros t k Ht. rewrite Hf2 by (intros y Hy; apply Ht; by right). apply Hf1, Ht. by left.
  - intros spec [<-|Hin] k.
    + rewrite Hf2 by apply Hxl. apply Hm1.
    + rewrite (Hm2 spec Hin k). rewrite Hf1 by (intros Hq; by destruct (Hxl spec)). done.
Qed.

Lemma update_in_indexes_moves d0 d1 id st st' :
  coll_ok self n specs st -> extract_id_string d0 = Ok id -> extract_id_string d1 = Ok id ->
  update_in_indexes self d0 d1 st = (st', Ok tt) ->
  store_ok (cs_store st') /\ index_cache st' = Some specs /\
  (forall t k, (forall spec, In spec specs -> t <> index_table self (name spec)) ->
     tbl_get (cs_store st') t k = tbl_get (cs_store st) t k) /\
  (forall spec, In spec specs -> moves d0 d1 id spec (cs_store st) (cs_store st')).
Proof.
  intros Hok H0 H1 H. apply bind_inv in H as (l & st1 & H2 & H).
  rewrite (list_indexes_run self st specs) in H2 by (eapply ok_specs, Hok || eapply ok_cache, Hok).
  injection H2 as <- <-.
  apply bind_inv in H as (i0 & st1 & H2 & H). apply lift_inv in H2 as [-> H2]. rewrite H0 in H2. injection H2 as <-.
  apply bind_inv in H as (i1 & st1 & H2 & H). apply lift_inv in H2 as [-> H2]. rewrite H1 in H2. injection H2 as <-.
  by apply (update_loop_moves d0 d1 id specs (put_cache st (Some specs)) st' (lay_plain _ _ Hl)
    (lay_names _ _ Hl) (ok_store _ _ _ _ Hok)) in H.
Qed.

(** The update turns the documents of the collection into documents the codec
    round-trips, under the same id. *)
Definition update_fits (filter update : document) (s : store) : Prop :=
  forall id d0 d1, holds self s id d0 -> matching filter d0 = true -> apply_update d0 update = Ok d1 ->
    doc_ok d1 = true /\ doubles_ok (BDocument d1) = true /\ extract_id_string d1 = extract_id_string d0.

(** The new content of a row whose document is updated, and whether it changes. *)
Definition updated_doc (update : document) (d0 : document) : option document :=
  match apply_update d0 update with
  | Ok d1 => if bson_eqb (BDocument d1) (BDocument d0) then None else Some d1
  | Err _ => None
  end.

Definition new_content (filter update : document) (e : bytes * bytes) : option bytes :=
  match deserialize_document (snd e) with
  | Ok d0 =>
      if matching filter d0 then
        match updated_doc update d0 with
        | Some d1 => match serialize_document d1 with Ok b => Some b | Err _ => None end
        | None => None
        end
      else None
  | Err _ => None
  end.

Definition updated_row (filter update : document) (e : bytes * bytes) : bytes * bytes :=
  match new_content filter update e with Some b => (fst e, b) | None => e end.

Lemma update_matching_keeps k b c d0 update internal st st' changed c' :
  coll_ok self n specs st -> at_row (coll_table self) c (k, b) ->
  tbl_get (cs_store st) (coll_table self) k = Some b -> deserialize_document b = Ok d0 ->
  (forall d1, apply_update d0 update = Ok d1 ->
    doc_ok d1 = true /\ doubles_ok (BDocument d1) = true /\ extract_id_string d1 = extract_id_string d0) ->
  update_matching self c d0 update internal st = (st', Ok (changed, c')) ->
  coll_ok self n specs st' /\ (c' = c \/ exists v, c' = set_value_raw c v) /\
  exists o, match updated_doc update d0 with
            | Some d1 => exists b1, serialize_document d1 = Ok b1 /\ o = Some b1
            | None => o = None
            end /\
    changed = (match o with Some _ => true | None => false end) /\
    forall k', tbl_get (cs_store st') (coll_table self) k' =
      match o with
      | Some b1 => if decide (k' = k) then Some b1 else tbl_get (cs_store st) (coll_table self) k'
      | None => tbl_get (cs_store st) (coll_table self) k'
      end.
Proof.
  intros Hok (Ht & _ & _ & Hp) Hb Hd Hfit H.
  destruct (ok_keyed _ _ _ _ Hok k b Hb) as (id & d' & -> & Hu & Hd' & Hid).
  assert (d' = d0) as -> by congruence.
  apply bind_inv in H as (d1 & st1 & H1 & H). apply lift_inv in H1 as [-> H1].
  assert (Hap : apply_update d0 update = Ok d1) by (by destruct (apply_update d0 update) as [|[]]; [injection H1 as ->|..]).
  destruct (Hfit d1 Hap) as (Hok1 & Hdb1 & Hid1). rewrite Hid in Hid1.
  unfold updated_doc. rewrite Hap. destruct (bson_eqb (BDocument d1) (BDocument d0)).
  { injection H as <- <- <-. split; [done|]. split; [by left|]. by exists None. }
  cbn [negb] in H. apply bind_inv in H as ([] & st1 & H2 & H).
  apply (update_in_indexes_moves d0 d1 id) in H2 as (Hs1 & Hc1 & Hf1 & Hm1); [|done|done|done].
  apply bind_inv in H as (b1 & st2 & H2 & H). apply lift_inv in H2 as [-> Hser].
  apply bind_inv in H as ([] & st2 & H2 & H).
  apply (writing_insert_sets st1 (set_value_raw c b1) (as_bytes id) b1) in H2 as [_ H2];
    [|done|unfold effective_key; cbn; by rewrite Hp|done].
  cbn [table_name set_value_raw] in H2. rewrite Ht in H2.
  apply bind_inv in H as (idv & st3 & H3 & H). apply lift_inv in H3 as [-> _].
  apply bind_inv in H as ([] & st3 & H3 & H). injection H as <- <- <-.
  assert (Hb1 : deserialize_document b1 = Ok d1).
  { unfold serialize_document in Hser. destruct (doc_to_vec d1) as [b'|] eqn:Ev; [|done]. injection Hser as ->.
    unfold deserialize_document. by rewrite (from_to_vec d1 b1). }
  assert (Hcoll : forall k', tbl_get (cs_store st2) (coll_table self) k' =
    if decide (k' = as_bytes id) then Some b1 else tbl_get (cs_store st) (coll_table self) k').
  { intros k'. destruct (decide (k' = as_bytes id)) as [->|Hne]; [by apply H2|].
    rewrite (sets_frame _ _ _ _ _ _ H2) by (by intros [_ ?]). apply Hf1.
    intros spec Hin Heq. by apply (lay_index _ _ Hl spec Hin). }
  assert (Hent : forall spec k, In spec specs -> tbl_get (cs_store st2) (index_table self (name spec)) k =
                                      tbl_get (cs_store st1) (index_table self (name spec)) k).
  { intros spec k Hin. apply (sets_frame _ _ _ _ _ _ H2). intros [Hx _]. by apply (lay_index _ _ Hl spec Hin). }
  assert (Hok2 : coll_ok self n specs st2).
  { apply (keep_change self n specs st st2 id (Some d0) (Some d1)); try done.
    - apply H2.
    - intros l. rewrite (proj1 (proj2 H2)), Hc1. by intros [= <-].
    - intros k. rewrite (sets_frame _ _ _ _ _ _ H2) by (intros [Hx _]; by apply (lay_meta _ _ Hl)).
      apply Hf1. intros spec Hin Heq. by apply (index_not_meta self (name spec)).
    - intros k' Hne. rewrite Hcoll. by rewrite decide_False.
    - by exists b.
    - exists b1. rewrite Hcoll. by rewrite decide_True.
    - split; [done|]. by apply (ok_length _ _ _ _ Hok _ b).
    - by intros ? [= <-].
    - intros spec Hin ? [= <-]. rewrite Hent, (Hm1 spec Hin) by done.
      case_decide as Heq; [|by rewrite decide_True]. rewrite <- Heq.
      apply (ok_agrees _ _ _ _ Hok spec Hin). exists id, d0. split; [by exists b|done].
    - intros spec Hin ? [= <-] Hne. specialize (Hne d1 eq_refl). rewrite Hent, (Hm1 spec Hin) by done.
      rewrite decide_False by done. by rewrite decide_False, decide_True by done.
    - intros spec Hin key Hn0 Hn1. rewrite Hent, (Hm1 spec Hin) by done.
      specialize (Hn0 d0 eq_refl). specialize (Hn1 d1 eq_refl). case_decide; [done|]. by rewrite !decide_False. }
  apply (keep_log self n specs) in H3 as [Hok3 Hf]; [|done|done].
  split; [done|]. split; [right; by exists b1|]. exists (Some b1). split; [by exists b1|]. split; [done|].
  intros k'. by rewrite Hf, Hcoll.
Qed.

Lemma bt_ok_keys (t t' : TableStore) : map fst t = map fst t' -> bt_ok t -> bt_ok t'.
Proof.
  intros Hk Ht. revert t' Hk. induction Ht as [|e t Ht IH Hf]; intros [|e' t'] Hk; try done; [constructor|].
  injection Hk as He Hk. constructor; [by apply IH|]. rewrite Forall_forall in *. intros x Hx.
  apply list_elem_of_In, (in_map fst) in Hx. rewrite <- Hk in Hx. apply in_map_iff in Hx as (y & Hy & Hin).
  unfold key_lt. rewrite <- Hy, <- He. apply Hf. by apply list_elem_of_In.
Qed.

Lemma replace_at (s s' : store) gone k b b1 rest :
  store_ok s -> store_ok s' -> table_rows s (coll_table self) = gone ++ (k, b) :: rest ->
  (forall k', tbl_get s' (coll_table self) k' = if decide (k' = k) then Some b1
                                                else tbl_get s (coll_table self) k') ->
  table_rows s' (coll_table self) = gone ++ (k, b1) :: rest.
Proof.
  intros Hs Hs' Hr Hf. apply table_rows_unique; [done| |].
  { apply (bt_ok_keys (gone ++ (k, b) :: rest)); [by rewrite !map_app|]. rewrite <- Hr.
    by apply table_or_empty_ok. }
  pose proof (table_rows_nodup s (coll_table self) Hs) as Hnd. rewrite Hr, map_app in Hnd.
  apply NoDup_app in Hnd as (_ & Hnd1 & Hnd2). simpl in Hnd2. apply NoDup_cons in Hnd2 as [Hnd2 _].
  intros k' b'. rewrite Hf, in_app_iff. simpl. destruct (decide (k' = k)) as [->|Hne].
  - split; [intros [= ->]; auto|]. intros [Hin|[[= ->]|Hin]]; [exfalso|done|exfalso].
    + apply (Hnd1 k); [apply list_elem_of_In, in_map_iff; by exists (k, b')|by left].
    + apply Hnd2, list_elem_of_In, in_map_iff. by exists (k, b').
  - rewrite <- table_rows_In, Hr, in_app_iff by done. simpl.
    split; (intros [?|[[= ? ?]|?]]; [auto|congruence|auto]).
Qed.

(** After the rows [gone] were visited, with the counts of matches and changes. *)
Definition updated_so_far (filter update : document) (s0 : store) (rest : TableStore) (st : cstate)
  (counts : Z * Z) : Prop :=
  coll_ok self n specs st /\ pending self rest (cs_store st) /\
  exists gone, table_rows s0 (coll_table self) = gone ++ rest /\
    counts = (Z.of_nat (length (List.filter (row_matches filter) gone)),
              Z.of_nat (length (List.filter (fun e => isSome (new_content filter update e)) gone))) /\
    table_rows (cs_store st) (coll_table self) = map (updated_row filter update) gone ++ rest.

(** One round: the row is replaced when its document matches and changes. *)
Lemma update_many_round filter update internal s0 e rest c st counts st' m :
  store_ok s0 -> update_fits filter update s0 -> at_row (coll_table self) c e ->
  updated_so_far filter update s0 (e :: rest) st counts ->
  update_many_row self filter update internal counts c st = (st', Ok m) ->
  exists counts' c', m = GoOn counts' c' /\ updated_so_far filter update s0 rest st' counts'.
Proof.
  intros Hs0 Hfit Hat (Hok & Hp & gone & Hr & -> & Hrows) H. destruct e as [k b].
  pose proof (proj2 Hp k b (or_introl eq_refl)) as Hb.
  apply bind_inv in H as (d0 & st1 & H1 & H). apply lift_inv in H1 as [-> Hd0].
  pose proof Hat as (Ht & Hk & Hv & Hpk). unfold current_doc, get_value_raw in Hd0.
  rewrite Hv in Hd0. cbn in Hd0.
  apply bind_inv in H as (mt & st1 & H1 & H). apply lift_inv in H1 as [-> Hm].
  assert (Hmt : matching filter d0 = mt) by (unfold matching; by rewrite Hm).
  assert (Hrm : row_matches filter (k, b) = mt) by (unfold row_matches; cbn [snd]; by rewrite Hd0).
  destruct mt.
  - apply bind_inv in H as ([changed c1] & st1 & H1 & H). injection H as <- <-.
    assert (Hfit0 : forall d1, apply_update d0 update = Ok d1 -> doc_ok d1 = true /\
      doubles_ok (BDocument d1) = true /\ extract_id_string d1 = extract_id_string d0).
    { destruct (ok_keyed _ _ _ _ Hok k b Hb) as (id & _ & -> & _). intros d1. apply (Hfit id); [|done].
      exists b. split; [|done]. apply table_rows_In; [done|]. rewrite Hr, in_app_iff. by right; left. }
    destruct (update_matching_keeps k b c d0 update internal st st1 changed c1 Hok Hat Hb Hd0 Hfit0 H1)
      as (Hok1 & _ & o & Ho & -> & Hget).
    assert (Hnew : new_content filter update (k, b) = o).
    { unfold new_content. cbn [snd]. rewrite Hd0, Hmt. destruct (updated_doc update d0) as [d1|]; [|done].
      destruct Ho as (b1 & -> & ->). done. }
    eexists _, _. split; [done|]. split; [done|]. split.
    { apply (pending_step self k b rest (cs_store st)); [done|]. intros k' Hne. rewrite Hget.
      destruct o; [by rewrite decide_False|done]. }
    exists (gone ++ [(k, b)]). rewrite <- app_assoc. split; [done|].
    rewrite !List.filter_app, map_app, <- app_assoc. simpl. rewrite Hrm, Hnew. unfold updated_row at 2. rewrite Hnew.
    destruct o as [b1|]; cbn [isSome].
    + split; [rewrite !length_app; simpl; f_equal; lia|].
      apply (replace_at (cs_store st) _ _ k b); [apply Hok|apply Hok1|done|apply Hget].
    + split; [rewrite app_nil_r, length_app; simpl; f_equal; lia|].
      rewrite <- Hrows. apply table_rows_ext; [apply Hok|apply Hok1|]. apply Hget.
  - injection H as <- <-. eexists _, _. split; [done|]. split; [done|].
    split; [by apply (pending_step self k b rest (cs_store st))|].
    assert (Hnew : new_content filter update (k, b) = None) by (unfold new_content; cbn [snd]; by rewrite Hd0, Hmt).
    exists (gone ++ [(k, b)]). rewrite <- app_assoc. split; [done|].
    rewrite !List.filter_app, map_app, <- app_assoc. simpl. rewrite Hrm, Hnew. unfold updated_row at 2. rewrite Hnew.
    cbn [isSome]. by rewrite !app_nil_r.
Qed.

Lemma update_many_keeps_cursor filter update internal :
  keeps_cursor (update_many_row self filter update internal).
Proof.
  intros [a1 a2] c st st' acc' c' H. apply bind_inv in H as (doc & st1 & _ & H).
  apply bind_inv in H as ([] & st2 & _ & H); [|by injection H as _ _ <-].
  apply bind_inv in H as ([ch c1] & st3 & H1 & H). injection H as _ _ <-.
  apply bind_inv in H1 as (d1 & st4 & _ & H1). destruct (negb _); [|by injection H1 as _ _ <-].
  do 5 (apply bind_inv in H1 as (? & ? & _ & H1)). by injection H1 as _ _ <-.
Qed.

Lemma update_many_run filter update internal st st' counts :
  coll_ok self n specs st -> update_fits filter update (cs_store st) ->
  for_rows (0%Z, 0%Z) (cursor self) (update_many_row self filter update internal) st = (st', Ok counts) ->
  updated_so_far filter update (cs_store st) [] st' counts.
Proof.
  intros Hok Hfit H. apply (for_rows_inv _ (updated_so_far filter update (cs_store st))) in H; [done| | |].
  - apply update_many_keeps_cursor.
  - intros e rest c s a s' m' Hat Hinv Hb.
    destruct (update_many_round _ _ _ _ _ _ _ _ _ _ _ (ok_store _ _ _ _ Hok) Hfit Hat Hinv Hb)
      as (a' & c' & -> & Hinv'). done.
  - split; [done|]. split; [by apply (pending_start self n specs)|]. by exists [].
Qed.

(** C3: in a collection whose indexes are plain B-trees without a partial filter and agree with
    its documents, whose tables have different names and whose ids all have one length in bytes
    (as ObjectIds do), an [update_many] that succeeds, with an update that keeps the [_id] of
    every matching document and produces documents that are well typed and have doubles the
    codec gives back, counts the matching documents and, among them, those the update changes;
    it replaces the content of exactly those, keeps the keys and the other rows, and leaves
    every index in agreement with the new documents. *)
Theorem update_many_spec filter update st st' r :
  coll_ok self n specs st -> update_fits filter update (cs_store st) ->
  update_many self filter update st = (st', Ok r) ->
  let rows := table_rows (cs_store st) (coll_table self) in
  coll_ok self n specs st' /\
  matched_count r = Z.of_nat (length (List.filter (row_matches filter) rows)) /\
  modified_count r = Z.of_nat (length (List.filter (fun e => isSome (new_content filter update e)) rows)) /\
  upserted_id r = None /\
  table_rows (cs_store st') (coll_table self) = map (updated_row filter update) rows.
Proof.
  intros Hok Hfit H rows. apply batched_ok in H as (st1 & H & ->).
  apply bind_inv in H as ([m md] & st2 & H1 & H). rewrite andb_false_r in H. injection H as <- <-.
  apply update_many_run in H1 as (Hok2 & _ & gone & Hr & [= -> ->] & Hrows); [|done|done].
  rewrite app_nil_r in Hr, Hrows. subst gone. split; [by apply keep_cache; [|left]|]. done.
Qed.
End Updating.

(** ** Every reachable state *)

Section Reachable.
Context {B : BsonOps} {Lm : Libm} {G : S2} {T : TextEnv} {X : ExprEngine} {K : Clock}
  {J : JsonOps} {N : OplogEnv} {FP : F64Parse} {E : CollEnv} {BC : BsonCodecLaws B}
  (self : Collection) (n : nat) (specs : list IndexSpec) (Hl : layout self specs).

(** One successful write through the collection. *)
Inductive coll_step : cstate -> cstate -> Prop :=
| step_insert_one doc d idv id st st1 st' r :
    ensure_id doc st = (st1, Ok (d, idv)) -> insertable self n st d id ->
    insert_one self doc st = (st', Ok r) -> coll_step st st'
| step_update_many filter update st st' r :
    update_fits self filter update (cs_store st) ->
    update_many self filter update st = (st', Ok r) -> coll_step st st'
| step_delete_one filter st st' d : delete_one self filter st = (st', Ok d) -> coll_step st st'
| step_delete_many filter st st' d : delete_many self filter st = (st', Ok d) -> coll_step st st'.

Lemma coll_step_ok st st' : coll_step st st' -> coll_ok self n specs st -> coll_ok self n specs st'.
Proof.
  intros Hst Hok. destruct Hst as [doc d idv id st st1 st' r He Hi H|f u st st' r Hf H|f st st' d H|f st st' d H].
  - by destruct (insert_one_run self n specs doc d idv id st st1 st' r) as (H1 & _).
  - apply batched_ok in H as (st1 & H & ->).
    apply bind_inv in H as ([m md] & st2 & H1 & H). rewrite andb_false_r in H. injection H as <- _.
    apply (update_many_run self n specs) in H1 as [H1 _]; [|done..]. by apply keep_cache; [|left].
  - apply batched_ok in H as (st1 & H & ->).
    apply (delete_one_run self n specs) in H as [H _]; [|done..]. by apply keep_cache; [|left].
  - apply batched_ok in H as (st1 & H & ->).
    apply (delete_many_run self n specs) in H as [H _]; [|done..]. by apply keep_cache; [|left].
Qed.

(** C1: the collections meant here have plain B-tree indexes only (single-field or compound,
    unique or not, without a partial filter), tables of different names, and ids whose texts all
    have one length in bytes, as ObjectIds do (ids of different lengths do collide:
    [entries_collide]). When such a collection starts with its indexes in agreement with its
    documents, they still agree after any sequence of successful single insertions (of ids that
    are new and documents that are well typed and whose doubles the codec gives back),
    successful [update_many]s (that keep every [_id] and produce such documents) and successful
    deletions; and then a filter that evaluates without an error on every document gets from a
    scan of any index the documents it gets from a scan of the collection, each as many times,
    possibly in another order. *)
Theorem reachable_scans_agree st st' spec filter :
  coll_ok self n specs st -> rtc coll_step st st' -> In spec specs -> answers self (cs_store st') filter ->
  coll_ok self n specs st' /\
  exists docs docs', collect_collection_scan self (cs_store st') filter = Ok docs /\
    collect_index_scan self (cs_store st') filter (name spec) = Ok docs' /\ Permutation docs' docs.
Proof.
  intros Hok Hst Hin Ha. assert (Hok' : coll_ok self n specs st').
  { clear Ha. induction Hst as [|s1 s2 s3 H12 _ IH]; [done|]. apply IH. by eapply coll_step_ok. }
  split; [done|]. apply scan_permutes; [apply Hok'|apply Hok'|by apply Hok'|done].
Qed.
End Reachable.

(** ** Counting *)

Section Counting.
Context {B : BsonOps} {Lm : Libm} {G : S2} {T : TextEnv} {X : ExprEngine} {K : Clock}
  {J : JsonOps} {N : OplogEnv} {FP : F64Parse} {E : CollEnv} (self : Collection).

Definition count_row (filter : document) (st : cstate * Z) (e : bytes * bytes)
  : cstate * Z + cstate * Z * result Z failure :=
  match (let? doc := deserialize_document (snd e) in eval_filter doc filter) with
  | Ok b => inl (fst st, if (b : bool) then (snd st + 1)%Z else snd st)
  | Err err => inr (st, Err err)
  end.

Lemma count_rows_fold filter st acc rows :
  (forall e, In e rows -> exists b, (let? doc := deserialize_document (snd e) in eval_filter doc filter) = Ok b) ->
  fold_rows (fun st => Ok (snd st)) (count_row filter) (st, acc) rows =
  ((st, (acc + Z.of_nat (length (List.filter (row_matches filter) rows)))%Z),
   Ok (acc + Z.of_nat (length (List.filter (row_matches filter) rows)))%Z).
Proof.
  revert acc. induction rows as [|e rows IH]; intros acc H; simpl; [by rewrite Z.add_0_r|].
  destruct (H e (or_introl eq_refl)) as [b Hb]. unfold count_row at 1. rewrite Hb. cbn [fst snd].
  assert (Hm : row_matches filter e = b).
  { unfold row_matches, matching. destruct (deserialize_document (snd e)); [|done]. simpl in Hb. by rewrite Hb. }
  rewrite Hm, IH by (intros; apply H; by right). destruct b; [|done].
  cbn [length]. rewrite Nat2Z.inj_succ, <- Z.add_1_l, Z.add_assoc. done.
Qed.

(** [count_documents] changes nothing and returns the number of documents
    a collection scan with the same filter returns. *)
Theorem count_is_scan_length filter st :
  store_ok (cs_store st) -> well_keyed self (cs_store st) -> answers self (cs_store st) filter ->
  exists docs, collect_collection_scan self (cs_store st) filter = Ok docs /\
    count_documents self (Some filter) st = (st, Ok (Z.of_nat (length docs))).
Proof.
  intros Hs Hw Ha. rewrite collection_scan_ok by done. eexists. split; [done|].
  unfold count_documents, for_rows, cursor. set (body := loop_body _).
  assert (Hb : reads body (count_row filter)).
  { intros [s acc] c p e. unfold body, loop_body, count_row, bind, lift, current_doc. cbn.
    destruct (deserialize_document (snd e)) as [d|]; [|done]. cbn. by destruct (eval_filter d filter). }
  rewrite (while_next_fold _ _ _ _ _ _ Hb). cbn [fst].
  assert (Hdoc : forall k v, In (k, v) (table_rows (cs_store st) (coll_table self)) ->
    exists d b, deserialize_document v = Ok d /\ doc_at self (cs_store st) k = d /\ eval_filter d filter = Ok b).
  { intros k v Hin. apply table_rows_In in Hin; [|done]. destruct (Hw k v Hin) as (id & d & -> & _ & Hd & _).
    assert (Hh : holds self (cs_store st) id d) by (by exists v). destruct (Ha _ _ Hh) as [b Hb'].
    exists d, b. split; [done|]. split; [by apply holds_doc_at|done]. }
  rewrite count_rows_fold.
  - rewrite Z.add_0_l. do 3 f_equal. revert Hdoc. generalize (table_rows (cs_store st) (coll_table self)). intros rows Hdoc.
    induction rows as [|[k v] rows IH]; [done|]. simpl.
    destruct (Hdoc k v (or_introl eq_refl)) as (d & b & Hd & Hat & Hev).
    assert (Hm : row_matches filter (k, v) = matching filter (doc_at self (cs_store st) k))
      by (unfold row_matches; cbn [snd]; by rewrite Hd, Hat).
    assert (IH' := IH (fun k v H => Hdoc k v (or_intror H))).
    rewrite Hm. destruct (matching filter (doc_at self (cs_store st) k)); simpl; congruence.
  - intros [k v] Hin. destruct (Hdoc k v Hin) as (d & b & Hd & _ & Hev). exists b. cbn [snd]. by rewrite Hd.
Qed.
End Counting.

(** ** Witnesses *)

Section Witnesses.
Import RefBson.RefBson RefJson RefColl.

Definition people : Collection :=
  {| coll_table := "people"; collection_name := "people"; validator := None; oplog := None |}.

Definition by_age : IndexSpec :=
  {| name := "age_1"; keys := [("age", BInt32 1)]; options := default_options |}.

Definition empty_state : cstate :=
  {| cs_world := {| w_store := []; w_streams := ∅; w_hubs := ∅; w_tick := 0 |};
     index_cache := None; oid_tick := 0 |}.

(** The state after an operation. *)
Definition after {A} (m : M A) (st : cstate) : cstate := fst (m st).

Lemma run_ok {A} (m : M A) st r : snd (m st) = Ok r -> m st = (after m st, Ok r).
Proof. unfold after. destruct (m st). simpl. by intros ->. Qed.

(** A collection with an index on [age]. *)
Definition indexed_state : cstate :=
  after (create_index people (keys by_age) None) (after (new "people") empty_state).

Lemma people_layout : layout people [by_age].
Proof.
  split.
  - intros spec [<-|[]]. split; reflexivity.
  - repeat constructor. set_solver.
  - discriminate.
  - intros spec [<-|[]]. discriminate.
  - discriminate.
Qed.

Lemma indexed_store : cs_store indexed_state =
  [("people", []); ("people.idx_age_1", []);
   ("people.indexes_metadata",
    [(as_bytes "age_1", match spec_to_vec by_age with Ok b => b | Err _ => [] end)])].
Proof. vm_compute. reflexivity. Qed.

Lemma indexed_ok : coll_ok people 1 [by_age] indexed_state.
Proof.
  assert (Hget : forall k, tbl_get (cs_store indexed_state) (coll_table people) k = None).
  { intros k. rewrite indexed_store. done. }
  split.
  - rewrite indexed_store. split; [repeat constructor|]. intros nm t. cbn.
    repeat match goal with |- context [str_cmp nm ?x] => destruct (str_cmp nm x) end;
      intros Ht; simplify_eq; repeat constructor.
  - intros l. vm_compute. discriminate.
  - unfold stored_specs. rewrite indexed_store. vm_compute. reflexivity.
  - intros k b. rewrite Hget. discriminate.
  - intros k b. rewrite Hget. discriminate.
  - intros spec [<-|[]] key v. rewrite indexed_store. split; [discriminate|].
    intros (id & doc & (b & Hb & _) & _). rewrite <- indexed_store in Hb. by rewrite Hget in Hb.
Qed.

Definition person (id : string) (age : Z) : document := [("_id", BString id); ("age", BInt32 age)].

Lemma insertable_person id age st :
  good_id 1 id -> doc_ok (person id age) = true -> slot people (cs_store st) id None ->
  insertable people 1 st (person id age) id.
Proof. intros Hg Hd H0. split; [done|]. split; [done|]. split; [done|]. by split. Qed.

Definition one_person : cstate := after (insert_one people (person "1" 40)) indexed_state.
Definition two_people : cstate := after (insert_one people (person "2" 30)) one_person.

Lemma insert_one_keeps_witness :
  coll_ok people 1 [by_age] one_person /\
  fetch_doc_by_id_str people (cs_store one_person) "1" = Ok (Some (person "1" 40)) /\
  BString "1" = BString "1".
Proof.
  apply (insert_one_keeps people 1 [by_age] (person "1" 40) (person "1" 40) (BString "1") "1"
    indexed_state indexed_state one_person (BString "1")).
  - exact people_layout.
  - exact indexed_ok.
  - reflexivity.
  - apply insertable_person; [by split|reflexivity|vm_compute; reflexivity].
  - apply run_ok. vm_compute. reflexivity.
Defined.

Lemma one_person_ok : coll_ok people 1 [by_age] one_person.
Proof.
  apply (insert_one_run people 1 [by_age] (person "1" 40) (person "1" 40) (BString "1") "1"
    indexed_state indexed_state one_person (BString "1") people_layout indexed_ok eq_refl).
  - apply insertable_person; [by split|reflexivity|vm_compute; reflexivity].
  - apply run_ok. vm_compute. reflexivity.
Qed.

Lemma two_people_ok : coll_ok people 1 [by_age] two_people.
Proof.
  apply (insert_one_run people 1 [by_age] (person "2" 30) (person "2" 30) (BString "2") "2"
    one_person one_person two_people (BString "2") people_layout one_person_ok eq_refl).
  - apply insertable_person; [by split|reflexivity|vm_compute; reflexivity].
  - apply run_ok. vm_compute. reflexivity.
Qed.

(** What the collection holds, read off its rows. *)
Lemma two_people_hold id doc :
  holds people (cs_store two_people) id doc -> doc = person "1" 40 \/ doc = person "2" 30.
Proof.
  intros (b & Hb & Hd). apply table_rows_In in Hb; [|apply two_people_ok].
  assert (Hr : map (fun e => deserialize_document (snd e)) (table_rows (cs_store two_people) "people") =
    [Ok (person "1" 40); Ok (person "2" 30)]) by (vm_compute; reflexivity).
  apply (in_map (fun e => deserialize_document (snd e))) in Hb.
  change (coll_table people) with "people" in Hb. rewrite Hr in Hb. cbn [snd] in Hb. rewrite Hd in Hb.
  destruct Hb as [H|[H|[]]]; injection H as <-; auto.
Qed.

Definition over_35 : document := [("age", BDocument [("$gt", BInt32 35)])].

Lemma two_people_answer : answers people (cs_store two_people) over_35.
Proof.
  intros id doc H. apply two_people_hold in H as [->| ->]; [exists true|exists false]; vm_compute; reflexivity.
Qed.

Lemma delete_many_spec_witness :
  coll_ok people 1 [by_age] (after (delete_many people over_35) two_people) /\
  1%Z = Z.of_nat (length (List.filter (row_matches over_35) (table_rows (cs_store two_people) (coll_table people)))) /\
  table_rows (cs_store (after (delete_many people over_35) two_people)) (coll_table people) =
    List.filter (fun e => negb (row_matches over_35 e)) (table_rows (cs_store two_people) (coll_table people)).
Proof.
  apply (delete_many_spec people 1 [by_age] people_layout over_35 two_people).
  - exact two_people_ok.
  - apply run_ok. vm_compute. reflexivity.
Defined.

Lemma delete_one_spec_witness :
  coll_ok people 1 [by_age] (after (delete_one people over_35) two_people).
Proof.
  apply (delete_one_spec people 1 [by_age] people_layout over_35 two_people _ 1%Z).
  - exact two_people_ok.
  - apply run_ok. vm_compute. reflexivity.
Defined.

Definition birthday : document := [("$inc", BDocument [("age", BInt32 1)])].

Lemma update_many_spec_witness :
  coll_ok people 1 [by_age] (after (update_many people over_35 birthday) two_people) /\
  table_rows (cs_store (after (update_many people over_35 birthday) two_people)) (coll_table people) =
    map (updated_row over_35 birthday) (table_rows (cs_store two_people) (coll_table people)).
Proof.
  pose (r := {| matched_count := 1; modified_count := 1; upserted_id := None |}).
  destruct (update_many_spec people 1 [by_age] people_layout over_35 birthday two_people
    (after (update_many people over_35 birthday) two_people) r) as (H1 & _ & _ & _ & H2).
  - exact two_people_ok.
  - intros id d0 d1 Hh Hm Hu. apply two_people_hold in Hh as [->| ->]; [|vm_compute in Hm; discriminate].
    assert (He : apply_update (person "1" 40) birthday = Ok (person "1" 41)) by (vm_compute; reflexivity).
    rewrite He in Hu. injection Hu as <-. split; [reflexivity|]. by split.
  - apply run_ok. vm_compute. reflexivity.
  - split; [exact H1|exact H2].
Defined.

Lemma reachable_scans_agree_witness :
  coll_ok people 1 [by_age] two_people /\
  exists docs docs', collect_collection_scan people (cs_store two_people) over_35 = Ok docs /\
    collect_index_scan people (cs_store two_people) over_35 "age_1" = Ok docs' /\ Permutation docs' docs.
Proof.
  apply (reachable_scans_agree people 1 [by_age] people_layout one_person two_people by_age over_35).
  - exact one_person_ok.
  - apply rtc_once. apply (step_insert_one people 1 (person "2" 30) (person "2" 30) (BString "2") "2"
      one_person one_person two_people (BString "2")).
    + reflexivity.
    + apply insertable_person; [by split|reflexivity|vm_compute; reflexivity].
    + apply run_ok. vm_compute. reflexivity.
  - by left.
  - exact two_people_answer.
Defined.

Lemma count_is_scan_length_witness :
  exists docs, collect_collection_scan people (cs_store two_people) over_35 = Ok docs /\
    count_documents people (Some over_35) two_people = (two_people, Ok (Z.of_nat (length docs))).
Proof.
  apply (count_is_scan_length people over_35 two_people).
  - apply two_people_ok.
  - apply two_people_ok.
  - exact two_people_answer.
Defined.

Definition aged_40 : document := [("age", BInt32 40)].

Lemma index_seek_permutes_witness :
  exists docs docs', collect_collection_scan people (cs_store two_people) aged_40 = Ok docs /\
    collect_index_seek people (cs_store two_people) aged_40 "age_1" (keys by_age) aged_40 = Ok docs' /\
    Permutation docs' docs.
Proof.
  apply (index_seek_permutes people (cs_store two_people) by_age aged_40 aged_40).
  - apply two_people_ok.
  - apply two_people_ok.
  - apply two_people_ok. by left.
  - intros id doc H. apply two_people_hold in H as [->| ->]; [exists true|exists false]; vm_compute; reflexivity.
  - intros id doc H Hm. apply two_people_hold in H as [->| ->]; [|vm_compute in Hm; discriminate].
    unfold btree_entry. apply bytes_prefix_spec. exists (as_bytes id). f_equal.
Defined.

(** ** Behaviours worth recording *)

Definition on_s (u : bool) : option IndexOptions :=
  Some {| opt_name := None; unique := u; sparse := false; background := false;
          expire_after_seconds := None; partial_filter_expression := None;
          IndexKey.collation := None; index_type := None; vector_options := None;
          text_options := None; prefix_options := None |}.

Definition with_index (keys : document) (u : bool) : cstate :=
  after (create_index people keys (on_s u)) (after (new "people") empty_state).

Definition named (id s : string) : document := [("_id", BString id); ("s", BString s)].
Definition by_s : document := [("s", BInt32 1)].

Definition insert_all (docs : list document) (st : cstate) : cstate :=
  fold_left (fun st d => after (insert_one people d) st) docs st.

Definition how_many (r : result (list document) failure) : option nat :=
  match r with Ok l => Some (length l) | Err _ => None end.

(** Nothing separates the key from the id in an index entry, so ids of different
    lengths collide: the index has one entry for the two documents. *)
Theorem entries_collide :
  let st := insert_all [named "bc" "a"; named "c" "ab"] (with_index by_s false) in
  how_many (collect_collection_scan people (cs_store st) []) = Some 2%nat /\
  how_many (collect_index_scan people (cs_store st) [] "s_1") = Some 1%nat.
Proof. vm_compute. split; reflexivity. Qed.

(** A unique index refuses a value that is a prefix of a stored one. *)
Theorem unique_refuses_prefix :
  let st := insert_all [named "1" "abc"] (with_index by_s true) in
  match snd (insert_one people (named "2" "ab") st) with
  | Err (Fail (UniqueConstraintViolation _)) => True
  | _ => False
  end.
Proof. vm_compute. exact I. Qed.

(** Inserting an existing [_id] replaces the document and leaves its old index
    entry, so an index scan returns the document twice. *)
Theorem reinsert_leaves_stale_entry :
  let st := insert_all [person "1" 40; person "1" 30] indexed_state in
  how_many (collect_collection_scan people (cs_store st) []) = Some 1%nat /\
  collect_index_scan people (cs_store st) [] "age_1" = Ok [person "1" 30; person "1" 30].
Proof. vm_compute. split; reflexivity. Qed.

(** [clear_index_table] looks up the empty key, which no index has: it removes
    nothing, so [rebuild_all_indexes] keeps stale entries. *)
Theorem rebuild_keeps_stale_entries :
  let st := insert_all [person "1" 40; person "1" 30] indexed_state in
  collect_index_scan people (cs_store (after (rebuild_all_indexes people) st)) [] "age_1" =
  Ok [person "1" 30; person "1" 30].
Proof. vm_compute. reflexivity. Qed.

(** An insertion refused by a second index leaves its entry in the first. *)
Theorem failed_insert_leaves_entry :
  let st0 := after (create_index people by_s (on_s true)) indexed_state in
  let st := insert_all [named "1" "x"] st0 in
  match insert_one people (named "2" "x") st with
  | (st', Err (Fail (UniqueConstraintViolation _))) =>
      length (table_rows (cs_store st') "people.idx_age_1") = 2%nat /\
      length (table_rows (cs_store st') "people") = 1%nat
  | _ => False
  end.
Proof. vm_compute. split; reflexivity. Qed.

(** The documentation of [set_validator] announces validation on insert and
    update; an update that breaks the schema is accepted. *)
Theorem update_skips_validator :
  let strict := set_validator people (Some [("bsonType", BString "object");
     ("properties", BDocument [("age", BDocument [("bsonType", BString "int")])])]) in
  let bad := [("_id", BString "2"); ("age", BString "old")] in
  match snd (insert_one strict bad indexed_state) with Err (Fail (COther _)) => True | _ => False end /\
  let st := after (insert_one strict (person "1" 40)) indexed_state in
  snd (update_many strict [] [("$set", BDocument [("age", BString "old")])] st) =
    Ok {| matched_count := 1; modified_count := 1; upserted_id := None |}.
Proof. vm_compute. split; [exact I|reflexivity]. Qed.

(** A covering scan decodes the whole entry, the id included, so the value of a
    string field comes back with the id appended. *)
Theorem covering_scan_appends_id :
  let st := insert_all [named "1" "ab"] (with_index by_s false) in
  collect_covering_index_scan ascii_index_chars people (cs_store st) [] "s_1" by_s None by_s =
  Ok [[("s", BString "ab1"); ("_id", BString "1")]].
Proof. vm_compute. reflexivity. Qed.

(** A seek by an [Int32] misses the equal [Int64]. *)
Theorem seek_misses_equal_int64 :
  let doc := [("_id", BString "1"); ("s", BInt64 5)] in
  let st := insert_all [doc] (with_index by_s false) in
  let filter := [("s", BInt32 5)] in
  collect_collection_scan people (cs_store st) filter = Ok [doc] /\
  collect_index_seek people (cs_store st) filter "s_1" by_s filter = Ok [].
Proof. vm_compute. split; reflexivity. Qed.

(** An index may be named ["*"]; dropping ["*"] then calls itself on that name
    before anything is dropped, and so on until the stack is exhausted. *)
Theorem drop_star_never_ends depth st specs spec :
  list_indexes people st = (st, Ok (spec :: specs)) -> name spec = "*" ->
  snd (drop_index_depth people depth "*" st) = Err (Unwind "stack overflow").
Proof.
  intros Hl Hn. induction depth as [|depth IH]; [done|]. cbn [drop_index_depth].
  change ("*" =s? "*") with true. cbv iota. unfold bind at 1. rewrite Hl. cbn [for_each]. unfold bind.
  rewrite Hn. change (negb ("*" =s? "_id_")) with true. cbv iota.
  destruct (drop_index_depth people depth "*" st) as [st1 [|e]]; [done|]. cbn in IH. injection IH as ->. done.
Qed.

Theorem star_is_a_valid_name : validate_custom_index_name str_debug "*" = Ok tt.
Proof. reflexivity. Qed.
End Witnesses.
