(* ===== verification/Progress.v ===== *)
(** * Writes that do not fail

    Over the collection operations of [src/rust/smongo-engine/src/collection/]: under
    which conditions an insertion of many documents and a deletion succeed, and
    what the collection holds afterwards.  The theorems of the consistency file
    say what a write that returned did; these say that it returns. *)

From Stdlib Require Import ZArith Lia Ascii String Strings.Byte Permutation Sorted.
From S2P Require Import Prelude F64 Bson RefBson Paths Geo Query Update BTree Storage IndexKey.
From S2P Require Import Planner Schema Collation Expressions Accumulators Oplog Collection Exec Consistency.
From stdpp Require Import base tactics list strings gmap.

Open Scope string_scope.
Open Scope list_scope.

Section Loops.
Context {J : JsonOps}.

Lemma for_each_runs {A} (l : list A) (body : A -> M unit) st :
  store_ok (cs_store st) ->
  (forall x st, In x l -> store_ok (cs_store st) ->
     exists st', body x st = (st', Ok tt) /\ store_ok (cs_store st')) ->
  exists st', for_each l body st = (st', Ok tt) /\ store_ok (cs_store st').
Proof.
  revert st. induction l as [|x l IH]; intros st Hs Hb; [by exists st|].
  destruct (Hb x st (or_introl eq_refl) Hs) as (st1 & H1 & Hs1).
  destruct (IH st1 Hs1 (fun y st Hy => Hb y st (or_intror Hy))) as (st2 & H2 & Hs2).
  exists st2. split; [|done]. simpl. unfold bind. by rewrite H1.
Qed.

(** A loop over the rows of a table each of whose rounds succeeds. *)
Lemma for_rows_run {Acc} (body : Acc -> MemCursor -> M (next_move Acc)) (Inv : TableStore -> cstate -> Acc -> Prop) name st acc :
  keeps_cursor body ->
  (forall e rest c st acc, at_row name c e -> Inv (e :: rest) st acc ->
     exists st' m, body acc c st = (st', Ok m) /\
       match m with GoOn acc' _ => Inv rest st' acc' | Stop acc' => Inv [] st' acc' end) ->
  Inv (table_rows (cs_store st) name) st acc ->
  exists st' r, for_rows acc (open_cursor name) body st = (st', Ok r) /\ Inv [] st' r.
Proof.
  intros Hk Hstep Hinv. unfold for_rows. rewrite while_next_rows.
  2:{ intros [s a] c p e [s' a'] c' H. unfold loop_body in H.
      destruct (body a (moved c p e) s) as [s1 [[a1 c1|a1]|]] eqn:Eb; [|done|done].
      injection H as <- <- <-. by destruct (Hk _ _ _ _ _ _ Eb) as (-> & -> & _). }
  cbn [fst]. set (c := materialize _ _). assert (Hc : table_name c = name) by done.
  clearbody c. generalize 0%nat. generalize dependent (table_rows (cs_store st) name). intros rows.
  revert st acc c Hc. induction rows as [|e rows IH]; intros st acc c Hc Hinv p; cbn [rows_loop]; [by exists st, acc|].
  assert (Hat : at_row name (moved c p e) e) by done.
  destruct (Hstep e rows _ _ _ Hat Hinv) as (s1 & m & Eb & Hm). unfold loop_body at 1. rewrite Eb.
  destruct m as [a1 c1|a1]; [|by exists s1, a1].
  destruct (Hk _ _ _ _ _ _ Eb) as (_ & _ & Ht). by apply (IH s1 a1 c1 ltac:(by rewrite Ht) Hm (S p)).
Qed.
End Loops.

Section Runs.
Context {B : BsonOps} {Lm : Libm} {G : S2} {T : TextEnv} {X : ExprEngine} {K : Clock}
  {J : JsonOps} {N : OplogEnv} {FP : F64Parse} {E : CollEnv} {BC : BsonCodecLaws B}
  (self : Collection) (n : nat) (specs : list IndexSpec) (Hl : layout self specs).

(** Taking a document out of the B-tree indexes does not fail. *)
Lemma remove_from_indexes_runs doc id st :
  coll_ok self n specs st -> extract_id_string doc = Ok id ->
  exists st', remove_from_indexes self doc st = (st', Ok tt).
Proof.
  intros Hok Hid. unfold remove_from_indexes. unfold bind at 1.
  rewrite (list_indexes_run self st specs) by (eapply ok_specs, Hok || eapply ok_cache, Hok).
  unfold bind, lift. rewrite Hid. edestruct (for_each_runs specs) as (st' & Hr & _); [| |by exists st'].
  - apply (ok_store _ _ _ _ Hok).
  - intros spec s Hin Hs. unfold remove_from_indexes_single. rewrite (proj1 (lay_plain _ _ Hl spec Hin)).
    destruct (drop_entry _ _ s) as [s' r] eqn:Ed. apply drop_entry_sets in Ed as [-> Hset]; [|done].
    exists s'. split; [done|]. apply Hset.
Qed.

(** No write of the collection can be refused: no unique index, no validator, and no oplog. *)
Record quiet : Prop := {
  quiet_unique : forall spec, In spec specs -> unique (options spec) = false;
  quiet_validator : validator self = None;
  quiet_oplog : oplog self = None }.

Lemma insert_into_indexes_runs doc id st :
  quiet -> coll_ok self n specs st -> extract_id_string doc = Ok id ->
  exists st', insert_into_indexes self doc st = (st', Ok tt).
Proof.
  intros Hq Hok Hid. unfold insert_into_indexes. unfold bind at 1.
  rewrite (list_indexes_run self st specs) by (eapply ok_specs, Hok || eapply ok_cache, Hok).
  unfold bind, lift. rewrite Hid. edestruct (for_each_runs specs) as (st' & Hr & _); [| |by exists st'].
  - apply (ok_store _ _ _ _ Hok).
  - intros spec s Hin Hs. unfold insert_into_indexes_single, outside_partial.
    destruct (lay_plain _ _ Hl spec Hin) as [Hty Hpf]. rewrite Hpf, Hty, (quiet_unique Hq spec Hin).
    unfold bind, lift, ret. destruct (put_entry _ _ _ s) as [s' r] eqn:Ed.
    apply put_entry_sets in Ed as [-> Hset]; [|done]. exists s'. split; [done|]. apply Hset.
Qed.

(** A document ready to be stored. *)
Definition ready (d : document) (id : string) : Prop :=
  extract_id_string d = Ok id /\ good_id n id /\ doc_ok d = true /\ doubles_ok (BDocument d) = true /\
  exists b, serialize_document d = Ok b.

Lemma store_document_runs d id st :
  quiet -> coll_ok self n specs st -> ready d id -> slot self (cs_store st) id None ->
  exists st', store_document self d st = (st', Ok tt) /\ coll_ok self n specs st' /\
    slot self (cs_store st') id (Some d) /\
    forall k, k <> as_bytes id -> tbl_get (cs_store st') (coll_table self) k = tbl_get (cs_store st) (coll_table self) k.
Proof.
  intros Hq Hok (Hid & Hg & Hd & Hdd & b & Hb) H0.
  destruct (insert_into_indexes_runs d id st Hq Hok Hid) as [st1 H1].
  assert (Hrun : exists st', store_document self d st = (st', Ok tt)).
  { unfold store_document. unfold bind at 1. rewrite H1. unfold bind at 1, lift at 1. rewrite Hb.
    unfold bind at 1, lift at 1. rewrite Hid. rewrite writing_run. set (c := set_value_raw _ _).
    apply (insert_into_indexes_sets self n specs d id) in H1; [|done|apply Hl|done].
    destruct (insert_get (cs_store st1) c (as_bytes id) b "" [] (proj1 H1) eq_refl eq_refl) as [-> _]. by eexists. }
  destruct Hrun as [st' Hrun]. exists st'. split; [done|]. by apply (store_document_keeps self n specs d id st st').
Qed.

Lemma ready_in docs ids d : Forall2 ready docs ids -> In d docs -> exists id, In id ids /\ ready d id.
Proof.
  induction 1 as [|x id docs ids Hx Hr IH]; [done|]. intros [->|Hin]; [exists id; split; [by left|done]|].
  destruct (IH Hin) as (id' & Hin' & Hd). exists id'. split; [by right|done].
Qed.

(** The rows of documents stored one after the other. *)
Definition stored (docs : list document) (s s' : store) : Prop :=
  (forall d id, In d docs -> extract_id_string d = Ok id -> slot self s' id (Some d)) /\
  (forall k, (forall d id, In d docs -> extract_id_string d = Ok id -> k <> as_bytes id) ->
     tbl_get s' (coll_table self) k = tbl_get s (coll_table self) k).

Lemma store_all_runs docs ids st :
  quiet -> coll_ok self n specs st -> Forall2 ready docs ids -> List.NoDup ids ->
  (forall id, In id ids -> slot self (cs_store st) id None) ->
  exists st', for_each docs (fun doc =>
      let! _ := store_document self doc in
      let id := match doc_get doc "_id" with Some id => id | None => BNull end in
      append_oplog_if_enabled self "insert" id (Some doc) false None) st = (st', Ok tt) /\
    coll_ok self n specs st' /\ stored docs (cs_store st) (cs_store st').
Proof.
  intros Hq. revert ids st. induction docs as [|d docs IH]; intros ids st Hok Hr Hnd Hfree.
  { exists st. split; [done|]. split; [done|]. split; [done|]. by intros k _. }
  inversion Hr as [|? id ? ids' Hd Hr']; subst. inversion_clear Hnd as [|? ? Hni Hnd'].
  destruct (store_document_runs d id st Hq Hok Hd (Hfree id (or_introl eq_refl))) as (st1 & H1 & Hok1 & Hs1 & Hf1).
  assert (Hout : forall d' id', In d' docs -> extract_id_string d' = Ok id' -> In id' ids').
  { intros d' id' Hin Hid. destruct (ready_in _ _ _ Hr' Hin) as (id2 & Hin2 & (Hid2 & _)).
    rewrite Hid in Hid2. by injection Hid2 as <-. }
  destruct (IH ids' st1 Hok1 Hr' Hnd') as (st2 & H2 & Hok2 & Hst2 & Hf2).
  { intros id' Hin. unfold slot. rewrite Hf1; [apply (Hfree id'); by right|]. intros Hx. apply as_bytes_inj in Hx as ->. done. }
  exists st2. split; [|split; [done|split]].
  - cbn [for_each]. unfold bind at 1 2. rewrite H1. unfold append_oplog_if_enabled at 1. rewrite (quiet_oplog Hq). exact H2.
  - intros d' id' [<-|Hin] Hid'; [|by apply Hst2]. assert (id' = id) as -> by (destruct Hd as (Hid & _); congruence).
    destruct Hs1 as (b & Hb & Hde). exists b. split; [|done]. rewrite Hf2; [done|].
    intros d2 id2 Hin2 Hid2 Hx. apply as_bytes_inj in Hx as <-. by apply Hni, (Hout d2).
  - intros k Hk. rewrite Hf2 by (intros d' id' Hin; apply Hk; by right). apply Hf1. apply (Hk d id); [by left|apply Hd].
Qed.

Lemma prepare_with_ids docs st :
  validator self = None -> (forall d, In d docs -> doc_get d "_id" <> None) ->
  exists ids, prepare_many self docs st = (st, Ok (docs, ids)).
Proof.
  intros Hv. induction docs as [|d docs IH]; intros Hid; [by exists []|].
  destruct (doc_get d "_id") as [v|] eqn:Ev; [|by destruct (Hid d (or_introl eq_refl))].
  destruct IH as [ids IH]; [intros d' Hd'; apply Hid; by right|]. exists (v :: ids).
  cbn [prepare_many]. unfold bind at 1, ensure_id. rewrite Ev. unfold ret at 1.
  unfold bind at 1, lift at 1, validate_doc. rewrite Hv. unfold bind at 1. by rewrite IH.
Qed.

Lemma batched_run {A} (f : M A) st st1 r :
  f st = (st1, Ok r) -> with_batched_write f st = (put_cache st1 None, Ok r).
Proof.
  intros Hf. unfold with_batched_write. cbn [Storage.in_transaction]. rewrite writing_run. cbn [fst snd map_err Storage.begin_transaction].
  assert (Hput : forall st, put_store st (cs_store st) = st) by (by intros [[] ? ?]).
  rewrite Hput, Hf, writing_run. cbn [fst snd map_err Storage.commit_transaction]. by rewrite Hput.
Qed.

(** What [insert_many] does with documents that have ids of their own. *)
Lemma insert_many_runs docs ids st :
  quiet -> coll_ok self n specs st -> Forall2 ready docs ids -> List.NoDup ids ->
  (forall id, In id ids -> slot self (cs_store st) id None) ->
  exists st' r, insert_many self docs st = (st', Ok r) /\ coll_ok self n specs st' /\
    stored docs (cs_store st) (cs_store st').
Proof.
  intros Hq Hok Hr Hnd Hfree. unfold insert_many, insert_many_with_options.
  destruct (prepare_with_ids docs st) as [r Hp]; [apply Hq| |].
  { intros d Hin Hn. destruct (ready_in _ _ _ Hr Hin) as (id & _ & (Hid & _)).
    unfold extract_id_string in Hid. by rewrite Hn in Hid. }
  unfold bind at 1. rewrite Hp. destruct (store_all_runs docs ids st Hq Hok Hr Hnd Hfree) as (st1 & H1 & Hok1 & Hst1).
  exists (put_cache st1 None), r. split; [|split; [by apply keep_cache; [|left]|done]].
  apply batched_run. unfold bind at 1. cbv zeta in H1. by rewrite H1.
Qed.

(** A deletion of what a filter that answers matches. *)
Lemma delete_many_runs filter st :
  oplog self = None -> coll_ok self n specs st -> answers self (cs_store st) filter ->
  exists st' d, delete_many self filter st = (st', Ok d).
Proof.
  intros Hq Hok Ha. unfold delete_many, delete_many_with_options.
  destruct (for_rows_run (delete_row self false filter false) (fun rest st' d =>
      coll_ok self n specs st' /\ pending self rest (cs_store st') /\
      (forall e, In e rest -> In e (table_rows (cs_store st) (coll_table self)))) (coll_table self) st 0%Z)
    as (st1 & d & H1 & _).
  - apply delete_keeps_cursor.
  - intros e rest c s acc Hat (Hok1 & Hp & Hsub). pose proof Hat as (_ & _ & Hv & _). destruct e as [k b].
    pose proof (proj2 Hp k b (or_introl eq_refl)) as Hb.
    destruct (ok_keyed _ _ _ _ Hok1 k b Hb) as (id & doc & -> & Hu & Hd & Hid).
    assert (Hh : holds self (cs_store st) id doc).
    { exists b. split; [|done]. apply table_rows_In; [by apply Hok|]. apply Hsub. by left. }
    destruct (Ha id doc Hh) as [m Hm].
    assert (Hrun : exists st' mv, delete_row self false filter false acc c s = (st', Ok mv)).
    { unfold delete_row. unfold bind at 1, lift at 1, current_doc, get_value_raw. rewrite Hv. cbn [ok_or map_err snd]. rewrite Hd.
      unfold bind at 1, lift at 1. rewrite Hm. destruct m; [|by eexists _, _].
      destruct (remove_from_indexes_runs doc id s Hok1 Hid) as [s1 H1].
      assert (Hget : exists v, doc_get doc "_id" = Some v).
      { unfold extract_id_string in Hid. destruct (doc_get doc "_id"); [by eexists|done]. }
      destruct Hget as [v Hget]. unfold delete_matching. unfold bind at 1 2, lift at 1. rewrite Hget. cbn [ok_or].
      unfold bind at 1. rewrite H1. unfold bind at 1. rewrite writing_run.
      apply (remove_from_indexes_sets self n specs doc id) in H1; [|done|apply Hl|done].
      assert (Hek : effective_key c = Ok (as_bytes id)) by (unfold effective_key; by rewrite (proj2 (proj2 (proj2 Hat)))).
      destruct (remove_get (cs_store s1) c (as_bytes id) "" [] (proj1 H1) Hek) as [-> _]. cbn [map_err].
      unfold append_oplog_if_enabled. rewrite Hq. by eexists _, _. }
    destruct Hrun as (st' & mv & Hrun). exists st', mv. split; [done|].
    destruct (delete_row_round self n specs Hl false filter false (as_bytes id, b) rest c s acc st' mv Hok1 Hp Hat Hrun)
      as (H1 & H2 & _ & ->). destruct (row_matches filter (as_bytes id, b)); (split; [done|split; [done|]]); intros e He; apply Hsub; by right.
  - split; [done|]. split; [by apply (pending_start self n specs)|done].
  - exists (put_cache st1 None), d. by apply batched_run.
Qed.
End Runs.

Section Progress.
Context {B : BsonOps} {Lm : Libm} {G : S2} {T : TextEnv} {X : ExprEngine} {K : Clock}
  {J : JsonOps} {N : OplogEnv} {FP : F64Parse} {E : CollEnv} {BC : BsonCodecLaws B}
  (self : Collection) (n : nat) (specs : list IndexSpec) (Hl : layout self specs).

(** C5: a collection without a unique index, a validator or an oplog, whose indexes are plain
    B-trees without a partial filter and agree with its documents, whose tables have different
    names and whose ids all have one length in bytes (as ObjectIds do), accepts every batch of
    documents that the codec encodes, that are well typed with doubles the codec gives back, and
    whose ids have that length, are new and differ from each other: the insertion returns, every
    document of the batch is found under its id, every other row is as before, and the indexes
    agree with the documents again. *)
Theorem insert_many_succeeds docs ids st :
  quiet self specs -> coll_ok self n specs st -> Forall2 (ready n) docs ids -> List.NoDup ids ->
  (forall id, In id ids -> slot self (cs_store st) id None) ->
  exists st' r, insert_many self docs st = (st', Ok r) /\ coll_ok self n specs st' /\
    (forall d id, In d docs -> extract_id_string d = Ok id ->
       fetch_doc_by_id_str self (cs_store st') id = Ok (Some d)) /\
    (forall k, (forall id, In id ids -> k <> as_bytes id) ->
       tbl_get (cs_store st') (coll_table self) k = tbl_get (cs_store st) (coll_table self) k).
Proof.
  intros Hq Hok Hr Hnd Hfree.
  destruct (insert_many_runs self n specs Hl docs ids st Hq Hok Hr Hnd Hfree) as (st' & r & Hrun & Hok' & Hin & Hout).
  exists st', r. split; [done|]. split; [done|]. split; [intros d id Hd Hid; apply slot_fetch; by apply Hin|].
  intros k Hk. apply Hout. intros d id Hd Hid. destruct (ready_in _ _ _ _ Hr Hd) as (id' & Hin' & (Hid' & _)).
  rewrite Hid in Hid'. injection Hid' as <-. by apply Hk.
Qed.
End Progress.

(** ** Witness *)

Section ProgressWitness.
Import RefBson.RefBson RefJson RefColl.

Lemma people_quiet : quiet people [by_age].
Proof. split; [by intros spec [<-|[]]|reflexivity|reflexivity]. Qed.

Lemma person_ready id age :
  good_id 1 id -> doc_ok (person id age) = true -> (exists b, serialize_document (person id age) = Ok b) ->
  ready 1 (person id age) id.
Proof. intros Hg Hd Hb. by split_and!. Qed.

Lemma insert_many_succeeds_witness :
  exists st' r, insert_many people [person "3" 20; person "4" 50] two_people = (st', Ok r) /\
    coll_ok people 1 [by_age] st' /\
    (forall d id, In d [person "3" 20; person "4" 50] -> extract_id_string d = Ok id ->
       fetch_doc_by_id_str people (cs_store st') id = Ok (Some d)) /\
    (forall k, (forall id, In id ["3"; "4"] -> k <> as_bytes id) ->
       tbl_get (cs_store st') (coll_table people) k = tbl_get (cs_store two_people) (coll_table people) k).
Proof.
  apply (insert_many_succeeds people 1 [by_age] people_layout [person "3" 20; person "4" 50] ["3"; "4"] two_people
    people_quiet two_people_ok).
  - repeat constructor; try (vm_compute; reflexivity); eexists; vm_compute; reflexivity.
  - repeat constructor; cbn; intuition discriminate.
  - intros id [<-|[<-|[]]]; vm_compute; reflexivity.
Defined.
End ProgressWitness.
