(* ===== verification/Ttl.v ===== *)
(** * Expiry of documents

    [src/rust/smongo-engine/src/collection/ttl.rs]: the documents whose date is
    past the delay of a TTL index are deleted.  Where every document has a date
    under the field of an ascending TTL index, the reaper deletes exactly the
    expired ones and keeps the indexes in agreement with the data; the last
    theorems show what it does elsewhere. *)

From Stdlib Require Import ZArith Lia Ascii String Strings.Byte Permutation Sorted.
From S2P Require Import Prelude F64 Bson RefBson Paths Geo Query Update BTree Storage IndexKey.
From S2P Require Import Planner Schema Collation Expressions Accumulators Oplog Collection Exec Consistency Progress.
From stdpp Require Import base tactics list strings gmap.

Open Scope string_scope.
Open Scope list_scope.

Section Ttl.
Context {B : BsonOps} {Lm : Libm} {G : S2} {T : TextEnv} {K : Clock}
  {J : JsonOps} {N : OplogEnv} {FP : F64Parse} {E : CollEnv} (self : Collection).

(** Source: collection/ttl.rs:25-26 (reap_expired). [k] readings of the clock were made before. *)
Definition cutoff_millis (k : nat) (expire_secs : Z) : Z :=
  wrap_i64 (now k - wrap_i64 (wrap_i64 expire_secs * 1000)).

(** Source: collection/ttl.rs:33-41 (reap_expired). *)
Definition expired_row (cutoff : Z) (expired_ids : list string) (c : MemCursor)
  : result (next_move (list string)) failure :=
  let? key_raw := storage_failure (get_key_raw c) in
  if (8 <=? length key_raw)%nat then
    let date_millis := wrap_i64 (be_value (take 8 key_raw)) in
    if (cutoff <? date_millis)%Z then Ok (Stop expired_ids)
    else let? id_str := value_str c in Ok (GoOn (expired_ids ++ [id_str]) c)
  else Ok (GoOn expired_ids c).

(** Source: collection/ttl.rs:28-43 (reap_expired). *)
Definition expired_ids (s : store) (index_name : string) (cutoff : Z) : result (list string) failure :=
  read_rows s [] (open_cursor (index_table self index_name)) (expired_row cutoff).

(** Source: collection/ttl.rs:46-57 (reap_expired). *)
Definition reap_doc (total_deleted : Z) (id_str : string) : M Z :=
  fun st =>
    match Storage.search (cs_store st) (set_key_str (cursor self) id_str) with
    | (_, Err _) => (st, Ok total_deleted)
    | (data_cursor, Ok _) =>
        (let! doc := lift (current_doc data_cursor) in
         let! _ := remove_from_indexes self doc in
         fun st =>
           match Storage.search (cs_store st) (set_key_str data_cursor id_str) with
           | (_, Err _) => (st, Ok total_deleted)
           | (data_cursor, Ok _) =>
               (let! _ := writing (fun s => Storage.remove s data_cursor) in
                ret (total_deleted + 1)%Z) st
           end) st
    end.

(** [for x in l { acc = body(acc, x)?; }]. *)
Fixpoint fold_each {Acc X} (body : Acc -> X -> M Acc) (acc : Acc) (l : list X) : M Acc :=
  match l with
  | [] => ret acc
  | x :: l' => let! acc := body acc x in fold_each body acc l'
  end.

(** Source: collection/ttl.rs:16-59 (reap_expired). The round of one index; the accumulator has
    the readings of the clock and the documents deleted. *)
Definition reap_index (acc : nat * Z) (index_spec : IndexSpec) : M (nat * Z) :=
  let '(k, total_deleted) := acc in
  match expire_after_seconds (options index_spec) with
  | None => ret acc
  | Some expire_secs =>
      if negb (length (keys index_spec) =? 1)%nat then ret acc
      else
        let cutoff := cutoff_millis k expire_secs in
        let! ids := (fun st => (st, expired_ids (cs_store st) (name index_spec) cutoff)) in
        let! total_deleted := fold_each reap_doc total_deleted ids in
        ret (S k, total_deleted)
  end.

(** Source: collection/ttl.rs:12-62 (reap_expired). *)
Definition reap_expired : M Z :=
  let! indexes := list_indexes self in
  let! acc := fold_each reap_index (O, 0%Z) indexes in
  ret (snd acc).

(** ** What expires *)

(** The date a document has under the field of a TTL index is past [cutoff]. *)
Definition expired_doc (cutoff : Z) (spec : IndexSpec) (doc : document) : bool :=
  match keys spec with
  | [(field, _)] => match get_value doc field with Some (BDateTime d) => (d <=? cutoff)%Z | _ => false end
  | _ => false
  end.

(** A document that one of the TTL indexes makes expire, the clock read once for each. *)
Fixpoint doc_expires (k : nat) (specs : list IndexSpec) (doc : document) : bool :=
  match specs with
  | [] => false
  | spec :: specs' =>
      match expire_after_seconds (options spec) with
      | Some secs =>
          if (length (keys spec) =? 1)%nat
          then expired_doc (cutoff_millis k secs) spec doc || doc_expires (S k) specs' doc
          else doc_expires k specs' doc
      | None => doc_expires k specs' doc
      end
  end.

Definition row_doc (p : document -> bool) (e : bytes * bytes) : bool :=
  match deserialize_document (snd e) with Ok doc => p doc | Err _ => false end.

(** The index is ascending and every document of the collection has a date from 1970 on
    under its field. *)
Definition dated (s : store) (spec : IndexSpec) : Prop :=
  exists field dir, keys spec = [(field, dir)] /\ direction_from_bson dir <> Some Descending /\
    forall id doc, holds self s id doc ->
      exists d, get_value doc field = Some (BDateTime d) /\ (0 <= d <= i64_max)%Z.

Definition ttl_dated (s : store) (specs : list IndexSpec) : Prop :=
  forall spec, In spec specs -> expire_after_seconds (options spec) <> None ->
    length (keys spec) = 1%nat -> dated s spec.
End Ttl.

(** ** The scan of a TTL index *)

Section Scan.
Context {B : BsonOps} {Lm : Libm} {G : S2} {T : TextEnv} {X : ExprEngine} {K : Clock}
  {J : JsonOps} {N : OplogEnv} {FP : F64Parse} {E : CollEnv} {BC : BsonCodecLaws B}
  (self : Collection).

(** The date at the start of an entry's key. *)
Definition entry_date (key : bytes) : Z := wrap_i64 (be_value (take 8 key)).

Definition expired_pick (cutoff : Z) (ids : list string) (e : bytes * bytes)
  : result (list string + list string) failure :=
  if (8 <=? length (fst e))%nat then
    if (cutoff <? entry_date (fst e))%Z then Ok (inr ids)
    else let? id := storage_failure (from_utf8 utf8_err (snd e) "value") in Ok (inl (ids ++ [id]))
  else Ok (inl ids).

Lemma expired_row_body cutoff : row_body (expired_row cutoff) (expired_pick cutoff).
Proof.
  intros ids c e Hk Hv. unfold expired_row, expired_pick, get_key_raw, value_str, get_value_str, get_value_raw.
  rewrite Hk, Hv. cbn [ok_or storage_failure map_err]. fold (entry_date (fst e)). cbn -[Nat.leb].
  destruct (8 <=? length (fst e))%nat; [|done]. destruct (cutoff <? entry_date (fst e))%Z; [done|].
  by destruct (from_utf8 utf8_err (snd e) "value").
Qed.

(** The entry of a dated document begins with its date. *)
Lemma dated_entry s spec id doc :
  dated self s spec -> holds self s id doc ->
  exists d, (0 <= d <= i64_max)%Z /\ btree_entry doc id spec = be_bytes 8 d ++ as_bytes id /\
    forall cutoff, expired_doc cutoff spec doc = (d <=? cutoff)%Z.
Proof.
  intros (f & dir & Hk & Hdir & Hd) Hh. destruct (Hd id doc Hh) as (d & Hv & Hr). exists d. split; [done|].
  unfold btree_entry, btree_key, extract_index_key_with_collation, index_key_part, expired_doc. rewrite Hk. simpl.
  rewrite Hv, bool_decide_eq_false_2 by done. done.
Qed.

Lemma be_date d tail : (0 <= d <= i64_max)%Z -> entry_date (be_bytes 8 d ++ tail) = d.
Proof.
  intros Hd. unfold entry_date. rewrite take_app_length' by (by rewrite be_bytes_length). rewrite be_value_bytes.
  change (256 ^ Z.of_nat 8)%Z with (2 ^ 64)%Z. unfold i64_max in Hd. rewrite Z.mod_small by lia.
  apply wrap_i64_id. unfold in_i64, i64_min, i64_max. lia.
Qed.

(** A row of the index of a dated collection. *)
Definition dated_row (e : bytes * bytes) : Prop :=
  exists d id, (0 <= d <= i64_max)%Z /\ e = (be_bytes 8 d ++ as_bytes id, as_bytes id) /\
    utf8_valid (as_bytes id) = true.

Lemma dated_rows s spec :
  store_ok s -> well_keyed self s -> agrees self s spec -> dated self s spec ->
  forall e, In e (table_rows s (index_table self (name spec))) -> dated_row e.
Proof.
  intros Hs Hw Ha Hd [key v] He. apply table_rows_In in He; [|done].
  apply Ha in He as (id & doc & Hh & -> & ->). destruct (dated_entry s spec id doc Hd Hh) as (d & Hr & -> & _).
  destruct Hh as (b & Hb & _). destruct (Hw _ _ Hb) as (_ & _ & _ & Hu & _). by exists d, id.
Qed.

Lemma dated_sorted (rows : TableStore) :
  bt_ok rows -> (forall e, In e rows -> dated_row e) ->
  StronglySorted (fun a b => entry_date (fst a) <= entry_date (fst b))%Z rows.
Proof.
  intros Hs. induction Hs as [|e rows Hs IH Hf]; intros Hd; [constructor|].
  constructor; [apply IH; intros; apply Hd; by right|]. rewrite Forall_forall in *. intros e' He'.
  specialize (Hf e' He'). apply list_elem_of_In in He'.
  destruct (Hd e (or_introl eq_refl)) as (d & id & Hr & -> & _), (Hd e' (or_intror He')) as (d' & id' & Hr' & -> & _).
  cbn [fst] in *. rewrite !be_date by done. change (bytes_cmp (be_bytes 8 d ++ as_bytes id) (be_bytes 8 d' ++ as_bytes id') = Lt) in Hf.
  rewrite bytes_cmp_app in Hf by (by rewrite !be_bytes_length).
  rewrite be_bytes_order in Hf by (change (256 ^ Z.of_nat 8)%Z with (2 ^ 64)%Z; unfold i64_max in *; lia).
  destruct (Z.compare_spec d d'); [lia|lia|done].
Qed.

Definition past (cutoff : Z) (key : bytes) : bool := (entry_date key <=? cutoff)%Z.

Lemma expired_fold cutoff (rows : TableStore) ids :
  (forall e, In e rows -> dated_row e) ->
  StronglySorted (fun a b => entry_date (fst a) <= entry_date (fst b))%Z rows ->
  fold_until (expired_pick cutoff) ids rows =
  Ok (ids ++ map string_of_list_byte (map snd (List.filter (fun e => past cutoff (fst e)) rows))).
Proof.
  intros Hd Hs. revert ids. induction Hs as [|e rows Hs IH Hle]; intros ids; [by rewrite app_nil_r|].
  specialize (IH (fun e He => Hd e (or_intror He))). cbn [fold_until List.filter]. unfold past at 1.
  destruct (Hd e (or_introl eq_refl)) as (d & id & Hr & -> & Hu). unfold expired_pick at 1, from_utf8. cbn [fst snd].
  rewrite length_app, be_bytes_length, Hu. cbn [Nat.add Nat.leb storage_failure map_err].
  destruct (Z.ltb_spec cutoff (entry_date (be_bytes 8 d ++ as_bytes id))) as [Hlt|Hge].
  - rewrite (proj2 (Z.leb_gt _ _)) by done. rewrite filter_none; [by rewrite app_nil_r|].
    intros y Hy. rewrite Forall_forall in Hle. specialize (Hle y ltac:(by apply list_elem_of_In)). cbn [fst] in Hle.
    apply Z.leb_gt. lia.
  - rewrite (proj2 (Z.leb_le _ _)) by done. cbn [map snd]. rewrite IH, <- app_assoc. done.
Qed.

(** The scan finds the ids of the expired documents, each once. *)
Lemma expired_ids_spec s spec cutoff :
  store_ok s -> well_keyed self s -> agrees self s spec -> dated self s spec ->
  exists ids, expired_ids self s (name spec) cutoff = Ok ids /\
    Permutation (map as_bytes ids)
      (map fst (List.filter (row_doc (expired_doc cutoff spec)) (table_rows s (coll_table self)))).
Proof.
  intros Hs Hw Ha Hd. unfold expired_ids. erewrite read_rows_fold by apply expired_row_body.
  pose proof (dated_rows s spec Hs Hw Ha Hd) as Hrows.
  rewrite expired_fold; [|done|apply dated_sorted; [by apply table_or_empty_ok|done]]. eexists. split; [done|].
  cbn [app]. rewrite map_map, (map_ext _ id), map_id by (intros; apply list_byte_of_string_of_list_byte).
  etransitivity; [exact (entries_permute self s spec (past cutoff) Hs Hw Ha)|].
  assert (Hin : forall k b, In (k, b) (table_rows s (coll_table self)) ->
    past cutoff (entry_at self s spec k) = row_doc (expired_doc cutoff spec) (k, b)).
  { intros k b Hin. apply table_rows_In in Hin; [|done]. destruct (Hw _ _ Hin) as (id & doc & -> & _ & Hdoc & _).
    assert (Hh : holds self s id doc) by (by exists b). rewrite (holds_entry_at _ _ _ _ _ Hh).
    destruct (dated_entry s spec id doc Hd Hh) as (d & Hr & -> & He). unfold past, row_doc. cbn [snd].
    by rewrite be_date, Hdoc, He. }
  clear -Hin. induction (table_rows s (coll_table self)) as [|[k b] rows IH]; [done|]. cbn [map List.filter fst].
  specialize (IH (fun k b H => Hin k b (or_intror H))).
  rewrite (Hin k b) by (by left). destruct (row_doc _ (k, b)); cbn [map fst]; by rewrite IH.
Qed.
End Scan.

(** ** The deletions *)

Section Reaping.
Context {B : BsonOps} {Lm : Libm} {G : S2} {T : TextEnv} {X : ExprEngine} {K : Clock}
  {J : JsonOps} {N : OplogEnv} {FP : F64Parse} {E : CollEnv} {BC : BsonCodecLaws B}
  (self : Collection) (n : nat) (specs : list IndexSpec) (Hl : layout self specs).

Lemma holds_id st id doc :
  coll_ok self n specs st -> holds self (cs_store st) id doc ->
  extract_id_string doc = Ok id /\ utf8_valid (as_bytes id) = true.
Proof.
  intros Hok (b & Hb & Hd). destruct (ok_keyed _ _ _ _ Hok _ _ Hb) as (id' & doc' & Hk & Hu & Hd' & Hid).
  apply as_bytes_inj in Hk as <-. by rewrite Hd in Hd'; injection Hd' as <-.
Qed.

Lemma search_at s name key v c :
  tbl_get s name key = Some v -> table_name c = name -> pending_key c = Some key ->
  Storage.search s c = (set_current c key v, Ok tt).
Proof.
  intros Hg Ht Hp. unfold Storage.search, effective_key. rewrite Hp, Ht. simpl. unfold tbl_get in Hg.
  destruct (bt_get s name) as [t|]; [|done]. simpl in Hg. by rewrite Hg.
Qed.

Lemma current_doc_at c b doc :
  current_value c = Some b -> deserialize_document b = Ok doc -> current_doc c = Ok doc.
Proof. intros Hc Hd. unfold current_doc, get_value_raw. rewrite Hc. simpl. by rewrite Hd. Qed.

(** One round deletes the document and keeps the indexes in agreement. *)
Lemma reap_doc_run total id doc st :
  coll_ok self n specs st -> holds self (cs_store st) id doc ->
  exists st', reap_doc self total id st = (st', Ok (total + 1)%Z) /\ coll_ok self n specs st' /\
    forall k, tbl_get (cs_store st') (coll_table self) k =
      if decide (k = as_bytes id) then None else tbl_get (cs_store st) (coll_table self) k.
Proof.
  intros Hok Hh. destruct (holds_id st id doc Hok Hh) as [Hid Hu]. destruct Hh as (b & Hb & Hd).
  destruct (remove_from_indexes_runs self n specs Hl doc id st Hok Hid) as [st1 H1].
  pose proof H1 as H1s. apply (remove_from_indexes_sets self n specs doc id) in H1s; [|done|apply Hl|done].
  assert (Hb1 : tbl_get (cs_store st1) (coll_table self) (as_bytes id) = Some b).
  { rewrite (sets_frame _ _ _ _ _ _ H1s); [done|]. apply its_entries_elsewhere; [done|by left]. }
  unfold reap_doc. erewrite search_at; [|done..]. unfold bind at 1, lift at 1.
  rewrite (current_doc_at _ b doc) by done. unfold bind at 1. rewrite H1.
  erewrite search_at; [|done..]. unfold bind. set (c := set_current _ _ _).
  destruct (writing (fun s => Storage.remove s c) st1) as [st2 r] eqn:H2.
  pose proof (writing_remove_sets st1 c (as_bytes id) st2 r) as Hset. destruct Hset as [-> _]; [apply H1s|done|done|].
  destruct (remove_doc_keeps self n specs Hl id b c doc st st1 st2) as (Hok2 & Hgone & Hf); try done.
  exists st2. split; [done|]. split; [done|]. intros k. case_decide as Hk; [by subst|by apply Hf].
Qed.

(** The rounds of an index. *)
Lemma reap_docs_run ids total st :
  coll_ok self n specs st -> List.NoDup ids ->
  (forall id, In id ids -> exists doc, holds self (cs_store st) id doc) ->
  exists st', fold_each (reap_doc self) total ids st = (st', Ok (total + Z.of_nat (length ids))%Z) /\
    coll_ok self n specs st' /\
    forall k, tbl_get (cs_store st') (coll_table self) k =
      if decide (k ∈ map as_bytes ids) then None else tbl_get (cs_store st) (coll_table self) k.
Proof.
  revert total st. induction ids as [|id ids IH]; intros total st Hok Hnd Hh.
  { exists st. rewrite Z.add_0_r. split; [done|]. split; [done|]. intros k. case_decide as Hk; [|done].
    apply list_elem_of_In in Hk. destruct Hk. }
  inversion_clear Hnd as [|? ? Hni Hnd']. destruct (Hh id (or_introl eq_refl)) as [doc Hdoc].
  destruct (reap_doc_run total id doc st Hok Hdoc) as (st1 & H1 & Hok1 & Hf1).
  destruct (IH (total + 1)%Z st1 Hok1 Hnd') as (st2 & H2 & Hok2 & Hf2).
  { intros id' Hin. destruct (Hh id' (or_intror Hin)) as (doc' & b & Hb & Hd). exists doc', b. split; [|done].
    rewrite Hf1, decide_False; [done|]. intros Hk. apply as_bytes_inj in Hk as ->. done. }
  exists st2. cbn [fold_each length map]. unfold bind. rewrite H1, H2. split; [do 2 f_equal; lia|]. split; [done|].
  intros k. rewrite Hf2, Hf1. destruct (decide (k ∈ map as_bytes ids)) as [Hin|Hni'].
  - rewrite decide_True by (by apply list_elem_of_further). done.
  - destruct (decide (k = as_bytes id)) as [->|Hne]; [by rewrite decide_True by apply list_elem_of_here|].
    rewrite decide_False; [done|]. intros Hx. apply elem_of_cons in Hx as [?|?]; done.
Qed.

(** What remains of the rows of a collection. *)
Definition remain (p : document -> bool) (s s' : store) : Prop :=
  table_rows s' (coll_table self) = List.filter (fun e => negb (row_doc p e)) (table_rows s (coll_table self)).

Definition how_many_rows (p : document -> bool) (s : store) : Z :=
  Z.of_nat (length (List.filter (row_doc p) (table_rows s (coll_table self)))).

(** A round of one TTL index. *)
Lemma reap_index_run k total spec secs st :
  coll_ok self n specs st -> In spec specs -> expire_after_seconds (options spec) = Some secs ->
  length (keys spec) = 1%nat -> dated self (cs_store st) spec ->
  let p := expired_doc (cutoff_millis k secs) spec in
  exists st', reap_index self (k, total) spec st = (st', Ok (S k, total + how_many_rows p (cs_store st))%Z) /\
    coll_ok self n specs st' /\ remain p (cs_store st) (cs_store st').
Proof.
  intros Hok Hin Hex Hlen Hd p. assert (Hs : store_ok (cs_store st)) by (by apply Hok).
  destruct (expired_ids_spec self (cs_store st) spec (cutoff_millis k secs)) as (ids & Hids & Hperm);
    [done|apply Hok|by apply Hok|done|]. fold p in Hperm.
  assert (Hall : List.NoDup (map fst (List.filter (row_doc p) (table_rows (cs_store st) (coll_table self))))).
  { apply NoDup_map_filter. by apply NoDup_ListNoDup, table_rows_nodup. }
  assert (Hnd : List.NoDup ids) by (eapply NoDup_map_inv, Permutation_NoDup; [symmetry; exact Hperm|done]).
  assert (Hgone : forall key b, tbl_get (cs_store st) (coll_table self) key = Some b ->
    (key ∈ map as_bytes ids <-> row_doc p (key, b) = true)).
  { intros key b Hb. rewrite list_elem_of_In, Hperm, in_map_iff. split.
    - intros ([key' b'] & <- & Hr). apply List.filter_In in Hr as [Hr Hp]. apply table_rows_In in Hr; [|done].
      cbn [fst] in Hb. by rewrite Hb in Hr; injection Hr as <-.
    - intros Hp. exists (key, b). split; [done|]. apply List.filter_In. split; [by apply table_rows_In|done]. }
  destruct (reap_docs_run ids total st Hok Hnd) as (st' & Hrun & Hok' & Hf).
  { intros id Hid. assert (Hk : In (as_bytes id) (map as_bytes ids)) by (by apply in_map).
    rewrite Hperm in Hk. apply in_map_iff in Hk as ([key b] & Hkey & Hr). cbn [fst] in Hkey. subst key.
    apply List.filter_In in Hr as [Hr _]. apply table_rows_In in Hr; [|done].
    destruct (ok_keyed _ _ _ _ Hok _ _ Hr) as (id' & doc & _ & _ & Hdoc & _). by exists doc, b. }
  exists st'. split; [|split; [done|]].
  - unfold reap_index. rewrite Hex, Hlen. cbn [Nat.eqb negb]. unfold bind. rewrite Hids, Hrun. unfold ret, how_many_rows.
    apply Permutation_length in Hperm. rewrite !length_map in Hperm. by rewrite Hperm.
  - apply table_rows_unique; [by apply Hok'|by apply bt_ok_filter, table_or_empty_ok|]. intros key b.
    rewrite List.filter_In, table_rows_In, Hf by done. case_decide as Hg.
    + split; [done|]. intros [Hb Hp]. apply (Hgone key b Hb) in Hg. by rewrite Hg in Hp.
    + split; [|by intros [? _]]. intros Hb. split; [done|]. apply negb_true_iff. destruct (row_doc p (key, b)) eqn:Ep; [|done].
      by apply (Hgone key b Hb) in Ep.
Qed.

Lemma remain_holds p s s' id doc :
  store_ok s -> store_ok s' -> remain p s s' -> holds self s' id doc -> holds self s id doc.
Proof.
  intros Hs Hs' Hr (b & Hb & Hd). exists b. split; [|done]. apply table_rows_In in Hb; [|done].
  rewrite Hr in Hb. apply List.filter_In in Hb as [Hb _]. by apply table_rows_In.
Qed.

Lemma remain_trans p q s s1 s2 :
  remain p s s1 -> remain q s1 s2 -> remain (fun doc => p doc || q doc) s s2.
Proof.
  unfold remain. intros H1 H2. rewrite H2, H1. clear. induction (table_rows s (coll_table self)) as [|e rows IH]; [done|].
  cbn [List.filter]. unfold row_doc in *. destruct (deserialize_document (snd e)) as [doc|] eqn:Ed; cbn [negb].
  - destruct (p doc) eqn:Ep; cbn; [exact IH|]. rewrite Ed. destruct (q doc); cbn; by rewrite IH.
  - cbn [List.filter]. rewrite Ed. cbn. by rewrite IH.
Qed.

Lemma how_many_trans p q s s1 :
  remain p s s1 -> (how_many_rows p s + how_many_rows q s1 = how_many_rows (fun doc => p doc || q doc) s)%Z.
Proof.
  unfold remain, how_many_rows. intros ->. clear. induction (table_rows s (coll_table self)) as [|e rows IH]; [done|].
  cbn [List.filter]. unfold row_doc in *. destruct (deserialize_document (snd e)) as [doc|] eqn:Ed; cbn [negb].
  - destruct (p doc) eqn:Ep; cbn; [lia|]. rewrite Ed. destruct (q doc); cbn; lia.
  - cbn [List.filter]. rewrite Ed. cbn. lia.
Qed.

Lemma remain_none p s : (forall doc, p doc = false) -> remain p s s /\ how_many_rows p s = 0%Z.
Proof.
  intros Hp. unfold remain, how_many_rows. assert (Hr : forall e, row_doc p e = false).
  { intros e. unfold row_doc. by destruct (deserialize_document (snd e)). }
  rewrite (filter_none (row_doc p)) by done. split; [|done].
  induction (table_rows s (coll_table self)) as [|e rows IH]; [done|]. cbn. rewrite Hr. cbn. by rewrite <- IH.
Qed.

(** The rounds of all the indexes. *)
Lemma reap_indexes_run l k total st :
  incl l specs -> coll_ok self n specs st -> ttl_dated self (cs_store st) l ->
  exists k' st', fold_each (reap_index self) (k, total) l st =
      (st', Ok (k', total + how_many_rows (doc_expires k l) (cs_store st))%Z) /\
    coll_ok self n specs st' /\ remain (doc_expires k l) (cs_store st) (cs_store st').
Proof.
  revert k total st. induction l as [|spec l IH]; intros k total st Hin Hok Hd.
  { destruct (remain_none (doc_expires k []) (cs_store st)) as [Hr ->]; [done|].
    exists k, st. rewrite Z.add_0_r. done. }
  assert (Hin' : incl l specs) by (intros y Hy; apply Hin; by right).
  assert (Hd' : ttl_dated self (cs_store st) l) by (intros y Hy; apply Hd; by right).
  cbn [fold_each]. unfold bind. destruct (expire_after_seconds (options spec)) as [secs|] eqn:Ex;
    [destruct (length (keys spec) =? 1)%nat eqn:El|].
  - apply Nat.eqb_eq in El.
    destruct (reap_index_run k total spec secs st) as (st1 & H1 & Hok1 & Hr1);
      [done|apply Hin; by left|done|done|apply Hd; [by left|congruence|done]|].
    rewrite H1. destruct (IH (S k) (total + how_many_rows (expired_doc (cutoff_millis k secs) spec) (cs_store st))%Z st1)
      as (k' & st2 & H2 & Hok2 & Hr2); [done|done| |].
    { intros y Hy He Hl1. destruct (Hd' y Hy He Hl1) as (f & dir & Hk & Hdir & Hh). exists f, dir. split; [done|]. split; [done|].
      intros id doc Hx. apply (Hh id). by eapply remain_holds; [by apply Hok|by apply Hok1|exact Hr1|]. }
    exists k', st2. rewrite H2. cbn [doc_expires]. rewrite Ex, El. cbn [Nat.eqb].
    split; [|split; [done|by eapply remain_trans]]. rewrite <- (how_many_trans _ _ _ _ Hr1). by rewrite Z.add_assoc.
  - unfold reap_index at 1. rewrite Ex, El. cbn [negb]. unfold ret. cbn [doc_expires]. rewrite Ex, El. by apply IH.
  - unfold reap_index at 1. rewrite Ex. unfold ret. cbn [doc_expires]. rewrite Ex. by apply IH.
Qed.

(** Where every document has a date from 1970 on under the field of each TTL index, and
    these are ascending, the reaper finishes without an error; it deletes exactly the documents
    whose date is not after the cut-off of one of the indexes, leaves every other row of the
    collection as it is, keeps every index in agreement with the data, and returns the number of
    documents it deleted. *)
Theorem reap_expired_spec st :
  coll_ok self n specs st -> ttl_dated self (cs_store st) specs ->
  let expired := row_doc (doc_expires 0 specs) in
  let rows := table_rows (cs_store st) (coll_table self) in
  exists st', reap_expired self st = (st', Ok (Z.of_nat (length (List.filter expired rows)))) /\
    coll_ok self n specs st' /\
    table_rows (cs_store st') (coll_table self) = List.filter (fun e => negb (expired e)) rows.
Proof.
  intros Hok Hd expired rows. unfold reap_expired, bind.
  rewrite (list_indexes_run self st specs) by (eapply ok_specs, Hok || eapply ok_cache, Hok).
  destruct (reap_indexes_run specs 0 0 (put_cache st (Some specs))) as (k' & st' & Hr & Hok' & Hrem);
    [apply incl_refl|apply keep_cache; [done|by right]|done|]. rewrite Hr. by exists st'.
Qed.
End Reaping.

(** ** Witness and behaviours worth recording *)

Section TtlWitness.
Import RefBson.RefBson RefJson RefColl.

Definition ttl_options : IndexOptions :=
  {| opt_name := None; unique := false; sparse := false; background := false;
     expire_after_seconds := Some 60%Z; partial_filter_expression := None; IndexKey.collation := None;
     index_type := None; vector_options := None; text_options := None; prefix_options := None |}.

Definition by_at (dir : Z) : document := [("at", BInt32 dir)].
Definition at_spec : IndexSpec := {| name := "at_1"; keys := by_at 1; options := ttl_options |}.

(** A collection with a TTL index; the clock stands at 1700000000000. *)
Definition ttl_state (dir : Z) : cstate :=
  after (create_index people (by_at dir) (Some ttl_options)) (after (new "people") empty_state).

Definition event (id : string) (d : Z) : document := [("_id", BString id); ("at", BDateTime d)].

Definition old_event : document := event "1" 1699999000000.
Definition new_event : document := event "2" 1699999999000.

Definition one_event : cstate := after (insert_one people old_event) (ttl_state 1).
Definition two_events : cstate := after (insert_one people new_event) one_event.

Lemma ttl_store : cs_store (ttl_state 1) =
  [("people", []); ("people.idx_at_1", []);
   ("people.indexes_metadata",
    [(as_bytes "at_1", match spec_to_vec at_spec with Ok b => b | Err _ => [] end)])].
Proof. vm_compute. reflexivity. Qed.

Lemma ttl_layout : layout people [at_spec].
Proof.
  split; [intros spec [<-|[]]; split; reflexivity|repeat constructor; set_solver|discriminate|
    intros spec [<-|[]]; discriminate|discriminate].
Qed.

Lemma ttl_state_ok : coll_ok people 1 [at_spec] (ttl_state 1).
Proof.
  assert (Hget : forall k, tbl_get (cs_store (ttl_state 1)) (coll_table people) k = None) by (intros k; by rewrite ttl_store).
  split.
  - rewrite ttl_store. split; [repeat constructor|]. intros nm t. cbn.
    repeat match goal with |- context [str_cmp nm ?x] => destruct (str_cmp nm x) end;
      intros Ht; simplify_eq; repeat constructor.
  - intros l. vm_compute. discriminate.
  - unfold stored_specs. rewrite ttl_store. vm_compute. reflexivity.
  - intros k b. rewrite Hget. discriminate.
  - intros k b. rewrite Hget. discriminate.
  - intros spec [<-|[]] key v. rewrite ttl_store. split; [discriminate|].
    intros (id & doc & (b & Hb & _) & _). rewrite <- ttl_store in Hb. by rewrite Hget in Hb.
Qed.

Lemma insert_event_ok id d st :
  coll_ok people 1 [at_spec] st -> good_id 1 id -> doc_ok (event id d) = true -> slot people (cs_store st) id None ->
  snd (insert_one people (event id d) st) = Ok (BString id) ->
  coll_ok people 1 [at_spec] (after (insert_one people (event id d)) st).
Proof.
  intros Hok Hg Hd H0 Hr. apply (insert_one_run people 1 [at_spec] (event id d) (event id d) (BString id) id
    st st _ (BString id) ttl_layout Hok eq_refl); [by split_and!|by apply run_ok].
Qed.

Lemma two_events_ok : coll_ok people 1 [at_spec] two_events.
Proof.
  apply insert_event_ok; [apply insert_event_ok; [apply ttl_state_ok|..]|..]; try by split; vm_compute.
  all: vm_compute; reflexivity.
Qed.

Lemma two_events_dated : ttl_dated people (cs_store two_events) [at_spec].
Proof.
  intros spec [<-|[]] _ _. exists "at", (BInt32 1). split; [done|]. split; [done|].
  intros id doc (b & Hb & Hd). apply table_rows_In in Hb; [|apply two_events_ok].
  assert (Hr : map (fun e => deserialize_document (snd e)) (table_rows (cs_store two_events) "people") =
    [Ok old_event; Ok new_event]) by (vm_compute; reflexivity).
  apply (in_map (fun e => deserialize_document (snd e))) in Hb.
  change (coll_table people) with "people" in Hb. rewrite Hr in Hb. cbn [snd] in Hb. rewrite Hd in Hb.
  destruct Hb as [H|[H|[]]]; injection H as <-; eexists; (split; [reflexivity|unfold i64_max; lia]).
Qed.

Lemma reap_expired_spec_witness :
  let expired := row_doc (doc_expires 0 [at_spec]) in
  let rows := table_rows (cs_store two_events) (coll_table people) in
  (exists st', reap_expired people two_events = (st', Ok (Z.of_nat (length (List.filter expired rows)))) /\
     coll_ok people 1 [at_spec] st' /\
     table_rows (cs_store st') (coll_table people) = List.filter (fun e => negb (expired e)) rows) /\
  length (List.filter expired rows) = 1%nat /\ length rows = 2%nat.
Proof.
  split; [|vm_compute; split; reflexivity].
  apply (reap_expired_spec people 1 [at_spec] ttl_layout two_events two_events_ok two_events_dated).
Defined.

(** The ids left after the documents are inserted and the expired ones reaped. *)
Definition reap_left (dir : Z) (docs : list document) : list (option bson) :=
  let st := after (reap_expired people) (insert_all docs (ttl_state dir)) in
  match collect_collection_scan people (cs_store st) [] with
  | Ok l => map (fun d => doc_get d "_id") l
  | Err _ => []
  end.

(** A document without the field is deleted, when no entry before its own has a date that has
    not expired: the key of a missing value, with the id after it, is read as a date. *)
Theorem reaper_deletes_undated :
  reap_left 1 [[("_id", BString "session-1")]] = [] /\
  reap_left 1 [[("_id", BString "1"); ("at", BString "next year")]] = [Some (BString "1")] /\
  reap_left 1 [[("_id", BString "session-1")]; new_event] = [Some (BString "2"); Some (BString "session-1")].
Proof. vm_compute. split_and!; reflexivity. Qed.

(** A descending TTL index makes every document expire: the inverted date is negative. *)
Theorem descending_reaper_deletes_all : reap_left (-1) [old_event; new_event] = [].
Proof. vm_compute. reflexivity. Qed.

(** A date before 1970 sorts after the others and is not reached past one that has not expired. *)
Theorem reaper_misses_negative_date :
  reap_left 1 [event "0" (-1000); new_event] = [Some (BString "0"); Some (BString "2")] /\
  reap_left 1 [event "0" (-1000)] = [].
Proof. vm_compute. split; reflexivity. Qed.
End TtlWitness.
