(* ===== verification/Database.v ===== *)
(** * Databases

    [src/rust/smongo-engine/src/database/mod.rs]: the collections of a database
    are tables of one storage, named by their prefix.  Listing, dropping and
    renaming are specified on the tables; the last theorems record where the
    tables of an index escape them. *)

From Stdlib Require Import ZArith Lia Ascii String Strings.Byte Permutation Sorted.
From S2P Require Import Prelude F64 Bson RefBson Paths Geo Query Update BTree Storage IndexKey.
From S2P Require Import Planner Schema Collation Expressions Accumulators Oplog Collection Exec Consistency Ttl.
From stdpp Require Import base tactics list strings gmap.

Open Scope string_scope.
Open Scope list_scope.

(** Source: database/mod.rs:33-41 (DatabaseError). An [io::Error] is its text. *)
Inductive DatabaseError : Type :=
| DbStorageError (e : StorageError)
| DbCollectionError (e : CollectionError)
| DatabaseNotFound
| CollectionNotFound (name : string)
| InvalidName (name : string)
| IoError (e : string)
| DbOther (e : string).

(** Source: database/mod.rs:62-74 (fmt). *)
Definition database_error_display (e : DatabaseError) : string :=
  match e with
  | DbStorageError e => ("Storage error: " ++ storage_error_display e)%string
  | DbCollectionError e => ("Collection error: " ++ collection_error_display e)%string
  | DatabaseNotFound => "Database not found"
  | CollectionNotFound name => ("Collection not found: " ++ name)%string
  | InvalidName name => ("Invalid database name: " ++ name)%string
  | IoError e => ("I/O error: " ++ e)%string
  | DbOther e => ("Error: " ++ e)%string
  end.

(** An operation of a database fails with an error, or unwinds. *)
Inductive db_failure : Type :=
| DbFail (e : DatabaseError)
| DbUnwind (msg : string).

(** Source: database/mod.rs:84-89 (Database). The backend is the state. *)
Record Database : Type := {
  db_name : string;
  db_path : string;
  table_prefix : option string }.

(** Source: database/mod.rs:363-366 (TransactionSession). *)
Record TransactionSession : Type := { session_prefix : option string }.

(** Source: database/mod.rs:127-134 (from_backend). *)
Definition from_backend (name : string) (prefix : option string) : Database :=
  {| db_name := name; db_path := ""; table_prefix := prefix |}.

(** [if let Some(prefix) { format!("{}{}", prefix, name) } else { name.to_string() }]. *)
Definition prefixed (prefix : option string) (name : string) : string :=
  match prefix with Some p => (p ++ name)%string | None => name end.

Section Monad.
Context {J : JsonOps}.

Definition D (A : Type) : Type := cstate -> cstate * result A db_failure.
Definition dret {A} (a : A) : D A := fun st => (st, Ok a).
Definition dbind {A A'} (m : D A) (k : A -> D A') : D A' :=
  fun st => match m st with (st', Ok a) => k a st' | (st', Err e) => (st', Err e) end.

(** [?] on the result of a collection, and on one of the storage. *)
Definition coll_failure (e : failure) : db_failure :=
  match e with Fail e => DbFail (DbCollectionError e) | Unwind m => DbUnwind m end.
Definition of_coll {A} (m : M A) : D A :=
  fun st => let '(st', r) := m st in (st', map_err coll_failure r).
Definition of_storage {A} (f : store -> store * result A StorageError) : D A :=
  fun st => let '(s, r) := f (cs_store st) in (put_store st s, map_err (fun e => DbFail (DbStorageError e)) r).

Fixpoint dfold {Acc X} (body : Acc -> X -> D Acc) (acc : Acc) (l : list X) : D Acc :=
  match l with
  | [] => dret acc
  | x :: l' => dbind (body acc x) (fun acc => dfold body acc l')
  end.
End Monad.

Notation "'let+' x ':=' m 'in' k" := (dbind m (fun x => k))
  (at level 10, x pattern, m at level 200, k at level 200,
   format "'let+'  x  ':='  m  'in' '//' k") : smongo_scope.

Section Database.
Context {B : BsonOps} {Lm : Libm} {G : S2} {T : TextEnv} {K : Clock}
  {J : JsonOps} {N : OplogEnv} {FP : F64Parse} {E : CollEnv} (self : Database).

(** ** Opening collections *)

(** Source: database/mod.rs:150-158 (collection). *)
Definition collection (name : string) : D Collection :=
  of_coll (match table_prefix self with
           | Some prefix => with_table_uri name (prefix ++ name)%string
           | None => new name
           end).

(** Source: database/mod.rs:161-184 (collection_with_oplog). *)
Definition collection_with_oplog (logical_db coll_name : string) (hub : option nat) (node_id : option string)
  : D Collection :=
  let+ col := of_coll (match table_prefix self with
                       | Some prefix => with_table_uri coll_name (prefix ++ coll_name)%string
                       | None => new coll_name
                       end) in
  of_coll (with_oplog_settings col
    {| oplog_table := ("__oplog_" ++ logical_db ++ "_" ++ coll_name)%string;
       settings_namespace := (logical_db ++ "." ++ coll_name)%string;
       hub := hub; settings_node_id := node_id |}).

(** Source: database/mod.rs:187-193 (start_session). *)
Definition start_session : TransactionSession := {| session_prefix := table_prefix self |}.

(** ** The catalogue *)

(** Indexes, their metadata and the oplog. *)
Definition internal_table (name : string) : bool :=
  starts_with "__" name || str_contains ".idx_" name || str_contains ".indexes_metadata" name.

(** Source: database/mod.rs:210-230 (list_collection_names). *)
Definition list_collection_names : D (list string) :=
  fun st =>
    (st, Ok (List.concat (map (fun name =>
       if internal_table name then []
       else match table_prefix self with
            | Some prefix => match Prelude.strip_prefix prefix name with Some stripped => [stripped] | None => [] end
            | None => [name]
            end) (list_tables (cs_store st))))).

(** Source: database/mod.rs:196-207 (reap_ttl). *)
Definition reap_ttl : D Z :=
  let+ names := list_collection_names in
  dfold (fun total name =>
    if str_contains ".idx_" name || str_contains ".indexes_metadata" name then dret total
    else
      let+ col := collection name in
      let+ reaped := of_coll (reap_expired col) in
      dret (total + reaped)%Z) 0%Z names.

(** Longer names first; the sort is stable. *)
Definition longer_first (a b : string) : comparison := Nat.compare (String.length b) (String.length a).

(** Source: database/mod.rs:237-271 (drop_collection). Dropping a table of the memory backend
    does not fail. *)
Definition drop_collection (name : string) : D unit :=
  fun st =>
    let table_name := prefixed (table_prefix self) name in
    let all_tables := list_tables (cs_store st) in
    if negb (existsb (String.eqb table_name) all_tables) then (st, Err (DbFail (CollectionNotFound name)))
    else
      let child_prefix := (table_name ++ ".")%string in
      let owned := List.filter (fun t => (t =s? table_name) || starts_with child_prefix t) all_tables in
      let owned := sort_by longer_first owned in
      (put_store st (fold_left drop_table owned (cs_store st)), Ok tt).

(** One satellite table of a renamed collection. *)
Definition rename_satellite (child_prefix dst_child_prefix : string) (s : store) (table : string) : store :=
  match Prelude.strip_prefix child_prefix table with
  | Some suffix => fst (rename_table s table (dst_child_prefix ++ suffix)%string)
  | None => s
  end.

(** Source: database/mod.rs:277-303 (rename_collection). *)
Definition rename_collection (from to : string) : D unit :=
  fun st =>
    let src_table := prefixed (table_prefix self) from in
    let dst_table := prefixed (table_prefix self) to in
    let all_tables := list_tables (cs_store st) in
    if negb (existsb (String.eqb src_table) all_tables) then (st, Err (DbFail (CollectionNotFound from)))
    else
      match of_storage (fun s => rename_table s src_table dst_table) st with
      | (st, Err e) => (st, Err e)
      | (st, Ok _) =>
          (put_store st (fold_left (rename_satellite (src_table ++ ".") (dst_table ++ "."))%string
                           all_tables (cs_store st)), Ok tt)
      end.

(** Source: database/mod.rs:317-325 (stats). The number of collections and the size; the size of
    the files under a path is the file system's. *)
Definition stats (get_data_size : string -> Z) : D (nat * Z) :=
  let+ collection_names := list_collection_names in
  dret (length collection_names, get_data_size (db_path self)).
End Database.

(** ** Names and prefixes *)

Lemma strip_prefix_spec p s r : Prelude.strip_prefix p s = Some r <-> s = (p ++ r)%string.
Proof.
  revert s. induction p as [|a p IH]; intros s; simpl; [split; [by intros [= ->]|by intros ->]|].
  destruct s as [|b s]; [done|]. destruct (Ascii.eqb_spec a b) as [->|Hne].
  - rewrite IH. split; [by intros ->|by intros [= ->]].
  - split; [done|]. by intros [= -> _].
Qed.

Lemma starts_with_strip p s : starts_with p s = true <-> exists r, s = (p ++ r)%string.
Proof.
  unfold starts_with. revert s. induction p as [|a p IH]; intros s.
  { split; [by exists s|by destruct s]. }
  destruct s as [|b s]; [split; [done|]; intros (r & Hr); discriminate Hr|].
  assert (Hp : String.prefix (String a p) (String b s) = if ascii_dec a b then String.prefix p s else false) by reflexivity.
  rewrite Hp. destruct (ascii_dec a b) as [->|Hne].
  - rewrite IH. split; intros (r & Hr); exists r; [by rewrite Hr|by injection Hr].
  - split; [done|]. intros (r & Hr). by injection Hr.
Qed.

(** The table of a collection and the tables named after it. *)
Definition owned (table t : string) : Prop := t = table \/ exists r, t = (table ++ "." ++ r)%string.

Lemma owned_bool table t : (t =s? table) || starts_with (table ++ ".") t = true <-> owned table t.
Proof.
  unfold owned. rewrite orb_true_iff, String.eqb_eq, starts_with_strip.
  split; (intros [?|(r & ->)]; [by left|right; exists r]); by rewrite <- str_app_assoc.
Qed.

(** Two prefixes of a string: one is a prefix of the other. *)
Lemma prefixes_nest p q r1 r2 :
  (p ++ r1 = q ++ r2)%string -> (exists r, q = p ++ r)%string \/ (exists r, p = q ++ r)%string.
Proof.
  revert q. induction p as [|a p IH]; intros q Heq; [left; by exists q|].
  destruct q as [|b q]; [right; by exists (String a p)|]. injection Heq as <- Heq.
  destruct (IH q Heq) as [(r & ->)|(r & ->)]; [left|right]; by exists r.
Qed.

Lemma dot_end p r q : (p ++ "." = (q ++ ".") ++ r)%string -> p = q \/ owned q p.
Proof.
  revert q. induction p as [|a p IH]; intros [|b q] Heq; simpl in Heq.
  - by left.
  - injection Heq as <- Heq. by destruct q.
  - injection Heq as -> Heq. right. right. exists p. simpl. by destruct p.
  - injection Heq as <- Heq. destruct (IH q Heq) as [->|[->|(s & ->)]]; [by left|by left|]. right. right. by exists s.
Qed.

(** Tables of unrelated collections are different. *)
Lemma owned_apart a b t u : ~ owned a b -> ~ owned b a -> owned a t -> owned b u -> t <> u.
Proof.
  intros Hab Hba Ht Hu <-. destruct Ht as [->|(r & ->)]; [done|].
  destruct Hu as [<-|(s & Hs)]; [apply Hab; right; by exists r|].
  assert (Hx : ((a ++ ".") ++ r = (b ++ ".") ++ s)%string) by (by rewrite <- !str_app_assoc).
  destruct (prefixes_nest _ _ _ _ Hx) as [(w & Hw)|(w & Hw)]; apply dot_end in Hw as [->|Ho]; try done;
    (apply Hab; by left).
Qed.

(** ** Dropping and renaming *)

Section Catalogue.
Context {B : BsonOps} {Lm : Libm} {G : S2} {T : TextEnv} {K : Clock}
  {J : JsonOps} {N : OplogEnv} {FP : F64Parse} {E : CollEnv} (self : Database).

Lemma drop_tables_get (l : list string) (s : store) t :
  bt_ok s -> bt_ok (fold_left drop_table l s) /\
  bt_get (fold_left drop_table l s) t = if existsb (String.eqb t) l then None else bt_get s t.
Proof.
  revert s. induction l as [|x l IH]; intros s Hs; [done|]. cbn [fold_left existsb].
  destruct (IH (drop_table s x) (bt_remove_ok _ _ Hs)) as [H1 H2]. split; [done|]. rewrite H2.
  unfold drop_table. destruct (existsb (String.eqb t) l); [by rewrite orb_true_r|]. rewrite orb_false_r.
  destruct (String.eqb_spec t x) as [->|Hne]; [by apply bt_get_remove_eq|by apply bt_get_remove_ne].
Qed.

Lemma table_listed (s : store) t : bt_ok s -> In t (list_tables s) <-> bt_get s t <> None.
Proof.
  intros Hs. unfold list_tables. rewrite in_map_iff. split.
  - intros ([t' d] & <- & Hin). apply bt_get_In in Hin; [|done]. cbn [fst]. by rewrite Hin.
  - intros Hg. destruct (bt_get s t) as [d|] eqn:Ed; [|done]. exists (t, d). split; [done|]. by apply bt_get_In.
Qed.

Lemma listed_bool (s : store) t : bt_ok s ->
  existsb (String.eqb t) (list_tables s) = match bt_get s t with Some _ => true | None => false end.
Proof.
  intros Hs. apply Bool.eq_iff_eq_true. rewrite existsb_exists. destruct (bt_get s t) as [d|] eqn:Ed.
  - split; [done|]. intros _. exists t. split; [apply table_listed; [done|congruence]|by apply String.eqb_eq].
  - split; [|done]. intros (x & Hin & Hx). apply String.eqb_eq in Hx as <-. apply table_listed in Hin; [|done]. congruence.
Qed.

(** Dropping a collection that does not exist fails and changes nothing; dropping one that
    exists removes its table and every table named after it, and leaves all the others. *)
Theorem drop_collection_spec name st :
  store_ok (cs_store st) ->
  let table := prefixed (table_prefix self) name in
  match bt_get (cs_store st) table with
  | None => drop_collection self name st = (st, Err (DbFail (CollectionNotFound name)))
  | Some _ => exists st', drop_collection self name st = (st', Ok tt) /\
      (forall t, owned table t -> bt_get (cs_store st') t = None) /\
      (forall t, ~ owned table t -> bt_get (cs_store st') t = bt_get (cs_store st) t)
  end.
Proof.
  intros [Hs _] table. unfold drop_collection. fold table. rewrite listed_bool by done.
  destruct (bt_get (cs_store st) table) as [d|] eqn:Ed; [|done]. cbn [negb]. eexists. split; [done|].
  set (l := sort_by _ _). change (cs_store (put_store st ?x)) with x.
  assert (Hl : forall t, existsb (String.eqb t) l = true <-> owned table t /\ bt_get (cs_store st) t <> None).
  { intros t. rewrite existsb_exists. unfold l. setoid_rewrite sort_by_In. setoid_rewrite List.filter_In.
    rewrite <- table_listed, <- owned_bool by done. split.
    - intros (x & [Hx Ho] & Heq). apply String.eqb_eq in Heq as <-. done.
    - intros [Ho Hx]. exists t. by rewrite String.eqb_refl. }
  split; intros t Ht; rewrite (proj2 (drop_tables_get l _ t Hs)); destruct (existsb (String.eqb t) l) eqn:Ex; try done.
  - destruct (bt_get (cs_store st) t) eqn:Et; [|done]. assert (existsb (String.eqb t) l = true); [|congruence].
    apply Hl. split; [done|congruence].
  - apply Hl in Ex as [? _]. done.
Qed.

(** ** Renaming *)

Section Rename.
Context (src dst : string) (Hsd : ~ owned src dst) (Hds : ~ owned dst src).

Abbreviation child p suffix := ((p ++ "." ++ suffix)%string).

Lemma child_apart a b : child src a <> child dst b.
Proof. apply (owned_apart src dst); [done|done|right; by exists a|right; by exists b]. Qed.

Lemma child_inj p a b : child p a = child p b -> a = b.
Proof. intros H. by do 2 apply str_app_inj in H. Qed.

Lemma child_ne p a : child p a <> p.
Proof. induction p as [|c p IH]; [done|]. intros [= H]. by apply IH. Qed.

Lemma rename_get (s : store) from to t :
  bt_ok s -> from <> to -> bt_get s to = None ->
  bt_ok (fst (rename_table s from to)) /\
  bt_get (fst (rename_table s from to)) t =
    if decide (t = to) then bt_get s from else if decide (t = from) then None else bt_get s t.
Proof.
  intros Hs Hne Hto. unfold rename_table. destruct (bt_get s from) as [d|] eqn:Ed; cbn [fst].
  - split; [by apply bt_insert_ok, bt_remove_ok|]. case_decide as Ht; [subst; by rewrite bt_get_insert_eq|].
    rewrite bt_get_insert_ne by (done || by apply bt_remove_ok).
    case_decide as Hf; [subst; by apply bt_get_remove_eq|by apply bt_get_remove_ne].
  - split; [done|]. case_decide; [by subst|]. case_decide; by subst.
Qed.

Lemma rename_satellites (l : list string) (s : store) :
  bt_ok s -> List.NoDup l ->
  (forall a, In (child src a) l -> bt_get s (child dst a) = None) ->
  let s' := fold_left (rename_satellite (src ++ ".") (dst ++ ".")) l s in
  (forall a, In (child src a) l ->
     bt_get s' (child dst a) = bt_get s (child src a) /\ bt_get s' (child src a) = None) /\
  (forall t, (forall a, In (child src a) l -> t <> child src a /\ t <> child dst a) -> bt_get s' t = bt_get s t).
Proof.
  revert s. induction l as [|x l IH]; intros s Hs Hnd Hfree; cbn [fold_left]; [by split|].
  inversion_clear Hnd as [|? ? Hx Hnd']. set (s1 := rename_satellite (src ++ ".") (dst ++ ".") s x).
  assert (Hs1 : s1 = match Prelude.strip_prefix (src ++ ".") x with
    | Some a => fst (rename_table s x ((dst ++ ".") ++ a)%string) | None => s end) by reflexivity.
  clearbody s1. destruct (Prelude.strip_prefix (src ++ ".") x) as [a|] eqn:Ex.
  - apply strip_prefix_spec in Ex. rewrite <- str_app_assoc in Ex. subst x.
    replace ((dst ++ ".") ++ a)%string with (child dst a) in Hs1 by (by rewrite <- str_app_assoc). subst s1.
    pose proof (fun t => rename_get s (child src a) (child dst a) t Hs (child_apart a a) (Hfree a (or_introl eq_refl))) as Hg.
    destruct (IH (fst (rename_table s (child src a) (child dst a))) (proj1 (Hg "")) Hnd') as [H1 H2].
    { intros b Hb. rewrite (proj2 (Hg _)). rewrite !decide_False.
      - apply Hfree. by right.
      - intros Hx'. by apply (child_apart a b).
      - intros Hx'. apply child_inj in Hx' as ->. done. }
    assert (Hother : forall b, In (child src b) l -> b <> a) by (by intros b Hb ->). split.
    + intros b [Hb|Hb].
      * apply child_inj in Hb as <-. rewrite !H2, !(proj2 (Hg _)).
        -- rewrite decide_True by done. rewrite decide_False, decide_True by (done || apply child_apart). done.
        -- intros c Hc. split; [intros Hy; by apply child_inj in Hy as ->|apply child_apart].
        -- intros c Hc. split; [intros Hy; by apply (child_apart c a)|].
           intros Hy. apply child_inj in Hy as ->. done.
      * destruct (H1 b Hb) as [-> ->]. rewrite (proj2 (Hg _)), !decide_False; [done| |apply child_apart].
        intros Hy. apply child_inj in Hy as ->. done.
    + intros t Ht. rewrite H2 by (intros b Hb; apply Ht; by right). rewrite (proj2 (Hg _)).
      destruct (Ht a (or_introl eq_refl)). by rewrite !decide_False.
  - subst s1. assert (Hne : forall a, child src a <> x).
    { intros a <-. assert (Hy : Prelude.strip_prefix (src ++ ".") (child src a) = Some a)
        by (apply strip_prefix_spec; by rewrite <- str_app_assoc). congruence. }
    destruct (IH s Hs Hnd') as [H1 H2]; [intros a Ha; apply Hfree; by right|]. split.
    + intros a [Ha|Ha]; [by destruct (Hne a)|by apply H1].
    + intros t Ht. apply H2. intros a Ha. apply Ht. by right.
Qed.
End Rename.

Lemma list_tables_nodup (s : store) : bt_ok s -> List.NoDup (list_tables s).
Proof. apply bt_keys_nodup. Qed.

(** Renaming a collection to a name under which no table exists moves its table and
    every table named after it, with their rows, to the names after the new one; nothing is left
    under the old name and no other table changes. *)
Theorem rename_collection_moves from to st :
  let src := prefixed (table_prefix self) from in
  let dst := prefixed (table_prefix self) to in
  store_ok (cs_store st) -> bt_get (cs_store st) src <> None ->
  (forall t, owned dst t -> bt_get (cs_store st) t = None) -> ~ owned src dst ->
  exists st', rename_collection self from to st = (st', Ok tt) /\
    bt_get (cs_store st') dst = bt_get (cs_store st) src /\
    (forall a, bt_get (cs_store st') (dst ++ "." ++ a)%string = bt_get (cs_store st) (src ++ "." ++ a)%string) /\
    (forall t, owned src t -> bt_get (cs_store st') t = None) /\
    (forall t, ~ owned src t -> ~ owned dst t -> bt_get (cs_store st') t = bt_get (cs_store st) t).
Proof.
  intros src dst [Hs _] Hex Hfree Hsd.
  assert (Hds : ~ owned dst src) by (intros Ho; by apply Hex, Hfree).
  assert (Hne : src <> dst) by (intros Heq; apply Hsd; by left).
  unfold rename_collection. fold src. fold dst. rewrite listed_bool by done.
  destruct (bt_get (cs_store st) src) as [d|] eqn:Ed; [|done]. cbn [negb].
  unfold of_storage. pose proof (fun t => rename_get (cs_store st) src dst t Hs Hne (Hfree dst (or_introl eq_refl))) as Hg.
  destruct (rename_table (cs_store st) src dst) as [s1 r] eqn:Er.
  assert (r = Ok tt) as -> by (unfold rename_table in Er; rewrite Ed in Er; by injection Er). cbn [fst map_err] in *.
  eexists. split; [done|]. change (cs_store (put_store _ ?x)) with x.
  destruct (rename_satellites src dst Hsd Hds (list_tables (cs_store st)) s1 (proj1 (Hg ""))) as [H1 H2].
  { by apply list_tables_nodup. }
  { intros a _. rewrite (proj2 (Hg _)), !decide_False; [apply Hfree; right; by exists a| |apply child_ne].
    intros Heq. apply Hds. right. by exists a. }
  change (cs_store (put_store st s1)) with s1.
  assert (Hin : forall t, In t (list_tables (cs_store st)) \/ bt_get (cs_store st) t = None).
  { intros t. destruct (bt_get (cs_store st) t) eqn:Et; [left|by right]. apply table_listed; [done|congruence]. }
  assert (Hsa : forall a, (src ++ "." ++ a)%string <> dst) by (intros a Heq; apply Hsd; right; by exists a).
  assert (Hda : forall a, (dst ++ "." ++ a)%string <> src) by (intros a Heq; apply Hds; right; by exists a).
  assert (Hout : forall t, (forall a, t <> (src ++ "." ++ a)%string) -> (forall a, t <> (dst ++ "." ++ a)%string) ->
    bt_get (fold_left (rename_satellite (src ++ ".") (dst ++ ".")) (list_tables (cs_store st)) s1) t = bt_get s1 t).
  { intros t Ha Hb. apply H2. auto. }
  split_and!.
  - rewrite Hout, (proj2 (Hg _)), decide_True by (done || (intros a Heq; by apply (child_ne dst a)) ||
      (intros a Heq; by apply (Hsa a))). done.
  - intros a. destruct (Hin (src ++ "." ++ a)%string) as [Hl|Hn].
    + rewrite (proj1 (H1 a Hl)), (proj2 (Hg _)), !decide_False by (apply child_ne || apply Hsa). done.
    + rewrite Hn, H2; [rewrite (proj2 (Hg _)), !decide_False by (apply child_ne || apply Hda); apply Hfree; right; by exists a|].
      intros b Hb. split; [intros Heq; by apply (child_apart src dst Hsd Hds b a)|].
      intros Heq. apply child_inj in Heq as ->. apply table_listed in Hb; [|done]. congruence.
  - intros t [->|(a & ->)].
    + rewrite Hout, (proj2 (Hg _)), decide_False, decide_True by (done || (intros a Heq; by apply (child_ne src a)) ||
        (intros a Heq; by apply (Hda a))). done.
    + destruct (Hin (src ++ "." ++ a)%string) as [Hl|Hn]; [by apply H1|].
      rewrite H2; [by rewrite (proj2 (Hg _)), !decide_False by (apply child_ne || apply Hsa)|].
      intros b Hb. split; [|apply (child_apart src dst Hsd Hds)].
      intros Heq. apply child_inj in Heq as ->. apply table_listed in Hb; [|done]. congruence.
  - intros t Hn1 Hn2. rewrite Hout, (proj2 (Hg _)), !decide_False; [done| | | |].
    + intros ->. apply Hn1. by left.
    + intros ->. apply Hn2. by left.
    + intros a ->. apply Hn1. right. by exists a.
    + intros a ->. apply Hn2. right. by exists a.
Qed.
End Catalogue.

(** ** Listing *)

Section Listing.
Context {B : BsonOps} {Lm : Libm} {G : S2} {T : TextEnv} {K : Clock}
  {J : JsonOps} {N : OplogEnv} {FP : F64Parse} {E : CollEnv} (self : Database).

Definition names_of (st : cstate) : list string :=
  match snd (list_collection_names self st) with Ok l => l | Err _ => [] end.

Lemma names_of_In st name : store_ok (cs_store st) ->
  In name (names_of st) <->
  bt_get (cs_store st) (prefixed (table_prefix self) name) <> None /\
  internal_table (prefixed (table_prefix self) name) = false.
Proof.
  intros [Hs _]. unfold names_of. cbn [list_collection_names snd]. rewrite in_concat. setoid_rewrite in_map_iff. split.
  - intros (l & (t & <- & Ht) & Hin). apply table_listed in Ht; [|done].
    destruct (internal_table t) eqn:Ei; [done|]. unfold prefixed. destruct (table_prefix self) as [p|].
    + destruct (Prelude.strip_prefix p t) as [r|] eqn:Er; [|done]. apply strip_prefix_spec in Er as ->.
      by destruct Hin as [->|[]].
    + by destruct Hin as [->|[]].
  - intros [Hg Hi]. eexists. split.
    + exists (prefixed (table_prefix self) name). split; [done|]. by apply table_listed.
    + rewrite Hi. unfold prefixed. destruct (table_prefix self) as [p|]; [|by left].
      assert (Hst : Prelude.strip_prefix p (p ++ name) = Some name) by (by apply strip_prefix_spec). rewrite Hst. by left.
Qed.

(** Opening a collection adds its name to the list and takes none away. *)
Theorem collection_listed name st :
  store_ok (cs_store st) -> internal_table (prefixed (table_prefix self) name) = false ->
  exists st' col, collection self name st = (st', Ok col) /\
    forall x, In x (names_of st') <-> x = name \/ In x (names_of st).
Proof.
  intros Hs Hi. set (t := prefixed (table_prefix self) name).
  assert (Hrun : exists st' col, collection self name st = (st', Ok col) /\ cs_store st' = create_table (cs_store st) t).
  { unfold collection, of_coll, new, with_table_uri, t, prefixed.
    destruct (table_prefix self); by eexists _, _. }
  destruct Hrun as (st' & col & Hrun & Hst). exists st', col. split; [done|].
  assert (Hs' : store_ok (create_table (cs_store st) t)).
  { unfold create_table. destruct (bt_get (cs_store st) t); [done|]. apply put_table_ok; [done|constructor]. }
  assert (Hget : forall u, bt_get (create_table (cs_store st) t) u <> None <-> u = t \/ bt_get (cs_store st) u <> None).
  { intros u. unfold create_table. destruct (bt_get (cs_store st) t) eqn:Et.
    - split; [by right|]. intros [->|?]; [congruence|done].
    - destruct (decide (u = t)) as [->|Hne]; [rewrite bt_get_insert_eq; split; [by left|done]|].
      rewrite bt_get_insert_ne by (apply Hs || done). split; [by right|by intros [?|?]]. }
  intros x. rewrite names_of_In by (by rewrite Hst). rewrite Hst, Hget, names_of_In by done. unfold t. split.
  - intros [[Hx|Hx] Hx']; [left|right; done]. unfold prefixed in Hx. destruct (table_prefix self); [by apply str_app_inj in Hx|done].
  - intros [->|[H1 H2]]; [by split; [left|]|by split; [right|]].
Qed.
End Listing.

(** ** Witnesses and behaviours worth recording *)

Section DbWitness.
Import RefBson.RefBson RefJson RefColl.

Definition plain_db : Database := from_backend "main" None.
Definition db_of (prefix : string) : Database := from_backend "main" (Some prefix).

Definition after_db {A} (m : D A) (st : cstate) : cstate := fst (m st).
Definition tables_of (st : cstate) : list string := list_tables (cs_store st).

Lemma two_people_store_ok : store_ok (cs_store two_people).
Proof. apply two_people_ok. Qed.

Lemma drop_collection_spec_witness :
  exists st', drop_collection plain_db "people" two_people = (st', Ok tt) /\
    (forall t, owned "people" t -> bt_get (cs_store st') t = None) /\
    (forall t, ~ owned "people" t -> bt_get (cs_store st') t = bt_get (cs_store two_people) t).
Proof. exact (drop_collection_spec plain_db "people" two_people two_people_store_ok). Defined.

(** A table that is not listed is free; what is owned starts as its owner does. *)
Lemma two_people_free t : owned "persons" t -> bt_get (cs_store two_people) t = None.
Proof.
  intros Ho. destruct (bt_get (cs_store two_people) t) eqn:Et; [|done]. exfalso.
  assert (Hin : In t (list_tables (cs_store two_people))) by (apply table_listed; [apply two_people_store_ok|congruence]).
  assert (Hf : forallb (fun t => negb (starts_with "pers" t)) (list_tables (cs_store two_people)) = true) by (vm_compute; reflexivity).
  rewrite forallb_forall in Hf. apply Hf, negb_true_iff in Hin.
  assert (Hp : starts_with "pers" t = true); [|congruence].
  apply starts_with_strip. destruct Ho as [->|(r & ->)]; [by exists "ons"|by exists ("ons" ++ "." ++ r)%string].
Qed.

Lemma rename_collection_moves_witness :
  exists st', rename_collection plain_db "people" "persons" two_people = (st', Ok tt) /\
    bt_get (cs_store st') "persons" = bt_get (cs_store two_people) "people" /\
    (forall a, bt_get (cs_store st') ("persons" ++ "." ++ a)%string = bt_get (cs_store two_people) ("people" ++ "." ++ a)%string) /\
    (forall t, owned "people" t -> bt_get (cs_store st') t = None) /\
    (forall t, ~ owned "people" t -> ~ owned "persons" t -> bt_get (cs_store st') t = bt_get (cs_store two_people) t).
Proof.
  apply (rename_collection_moves plain_db "people" "persons" two_people two_people_store_ok).
  - vm_compute. discriminate.
  - apply two_people_free.
  - intros [H|(r & H)]; discriminate.
Defined.

Lemma collection_listed_witness :
  exists st' col, collection plain_db "orders" two_people = (st', Ok col) /\
    forall x, In x (names_of plain_db st') <-> x = "orders" \/ In x (names_of plain_db two_people).
Proof. apply (collection_listed plain_db "orders" two_people two_people_store_ok). reflexivity. Defined.

(** Dropping a collection also drops the collections whose name continues its own after a dot. *)
Theorem drop_takes_dotted_collections :
  let st := after_db (collection plain_db "people.archive") (after_db (collection plain_db "people") empty_state) in
  names_of plain_db st = ["people"; "people.archive"] /\
  names_of plain_db (after_db (drop_collection plain_db "people") st) = [].
Proof. vm_compute. split; reflexivity. Qed.

(** With a table prefix the tables of the indexes are not named after the table of their
    collection: dropping it leaves them, and a collection of the same name in another database
    has its indexes. *)
Definition indexed_in (prefix : string) : cstate :=
  match collection (db_of prefix) "people" empty_state with
  | (st, Ok col) => after (create_index col (keys by_age) None) st
  | (st, Err _) => st
  end.

Theorem prefixed_drop_leaves_indexes :
  tables_of (indexed_in "a_") = ["a_people"; "people.idx_age_1"; "people.indexes_metadata"] /\
  tables_of (after_db (drop_collection (db_of "a_") "people") (indexed_in "a_")) =
    ["people.idx_age_1"; "people.indexes_metadata"] /\
  (match collection (db_of "b_") "people" (indexed_in "a_") with
   | (st, Ok col) => match snd (list_indexes col st) with Ok l => map name l | Err _ => [] end
   | (st, Err _) => []
   end) = ["age_1"].
Proof. vm_compute. split_and!; reflexivity. Qed.

(** The name of the database is part of the namespace and of the oplog's table, not of the table of the collection: the collections of the same name
    in two databases of a client are the same collection. *)
Theorem databases_share_collections db1 db2 name hub node st :
  let '(_, r1) := collection_with_oplog plain_db db1 name hub node st in
  let '(_, r2) := collection_with_oplog plain_db db2 name hub node st in
  match r1, r2 with Ok c1, Ok c2 => coll_table c1 = name /\ coll_table c2 = name | _, _ => False end.
Proof. by split. Qed.

(** The table of a text index is listed as a collection. *)
Theorem text_index_listed_as_collection :
  let st := after (create_index people [("s", BString "text")] None) (after (new "people") empty_state) in
  names_of plain_db (after (insert_one people (named "1" "red")) st) = ["people"; "people.ftx_s_text"].
Proof. vm_compute. reflexivity. Qed.
End DbWitness.
