(* ===== verification/Redb.v ===== *)
(** * The redb backend and transactions

    [src/rust/smongo-engine/src/storage/redb_backend.rs], with
    [collection/transactions.rs] and the key-value helpers of
    [database/mod.rs] that run on this backend.  The redb crate is a parameter:
    a database, write transactions on it, and reads, with their documented
    behaviour as laws.  A session buffers the writes of a transaction; the
    theorems say what a scan sees of them, that a commit applies all of them or
    none, that a rollback leaves nothing, and that outside a transaction the
    backend behaves as the memory backend does. *)

From Stdlib Require Import ZArith Lia Ascii String Strings.Byte Permutation Sorted.
From S2P Require Import Prelude F64 Bson RefBson Paths Geo Query Update BTree Storage IndexKey.
From S2P Require Import Planner Schema Collation Expressions Accumulators Oplog Collection Exec Consistency Database.
From stdpp Require Import base tactics list strings gmap.

Open Scope string_scope.
Open Scope list_scope.

(** ** The library *)

(** Opening a table fails with [TableDoesNotExist], or with another error, of which the text is kept. *)
Inductive TableError : Type :=
| TableDoesNotExist
| TableErrorOther (msg : string).

(** What the backend uses of the crate: write transactions ([begin_write], [open_table], [insert],
    [remove], [iter], [delete_table], [commit]; a transaction that is dropped is aborted), and
    reads in a transaction of their own ([open_table] with [iter] or [get], [list_tables]). *)
Class RedbOps : Type := {
  redb : Type;
  wtxn : Type;
  begin_write : redb -> result wtxn string;
  w_open : wtxn -> string -> result wtxn TableError;
  w_insert : wtxn -> string -> bytes -> bytes -> result wtxn string;
  w_remove : wtxn -> string -> bytes -> result wtxn string;
  w_rows : wtxn -> string -> result (list (bytes * bytes)) string;
  w_delete_table : wtxn -> string -> result wtxn string;
  w_commit : wtxn -> result redb string;
  read_rows_of : redb -> string -> result (option (list (bytes * bytes))) string;
  read_key_of : redb -> string -> bytes -> result (option (option bytes)) string;
  read_tables : redb -> result (list string) string }.

(** Their documented behaviour: a database holds sorted tables; a write transaction starts from the
    database and becomes it when it is committed; opening a table creates it; a read is of the
    last committed state. *)
Class RedbLaws (R : RedbOps) : Type := {
  view : redb -> store;
  tview : wtxn -> store;
  view_ok : forall d, store_ok (view d);
  begin_view : forall d t, begin_write d = Ok t -> tview t = view d;
  open_view : forall t n t', w_open t n = Ok t' -> tview t' = create_table (tview t) n;
  insert_view : forall t n k v t', w_insert t n k v = Ok t' ->
    tview t' = bt_insert (tview t) n (bt_insert (table_rows (tview t) n) k v);
  remove_view : forall t n k t', w_remove t n k = Ok t' ->
    tview t' = bt_insert (tview t) n (bt_remove (table_rows (tview t) n) k);
  rows_view : forall t n l, w_rows t n = Ok l -> l = table_rows (tview t) n;
  delete_view : forall t n t', w_delete_table t n = Ok t' -> tview t' = bt_remove (tview t) n;
  commit_view : forall t d, w_commit t = Ok d -> view d = tview t;
  read_rows_view : forall d n r, read_rows_of d n = Ok r -> r = bt_get (view d) n;
  read_key_view : forall d n k r, read_key_of d n k = Ok r -> r = option_map (fun t => bt_get t k) (bt_get (view d) n);
  read_tables_view : forall d l, read_tables d = Ok l -> Permutation l (list_tables (view d)) }.

(** ** Sessions *)

(** Source: storage/redb_backend.rs:48-51 (PendingWrite). *)
Inductive PendingWrite : Type :=
| PInsert (key value : bytes)
| PRemove (key : bytes).

(** [HashMap<String, Vec<PendingWrite>>]: an entry per table. *)
Abbreviation PendingWriteMap := (list (string * list PendingWrite)).

Fixpoint pending_of (m : PendingWriteMap) (table : string) : option (list PendingWrite) :=
  match m with
  | [] => None
  | (t, ops) :: m' => if t =s? table then Some ops else pending_of m' table
  end.

(** [entry(table).or_default().push(op)]. *)
Fixpoint push_pending (m : PendingWriteMap) (table : string) (op : PendingWrite) : PendingWriteMap :=
  match m with
  | [] => [(table, [op])]
  | (t, ops) :: m' => if t =s? table then (t, ops ++ [op]) :: m' else (t, ops) :: push_pending m' table op
  end.

Section Redb.
Context {R : RedbOps} {SE : StdEnv} (utf8_error : bytes -> string).

(** Source: storage/redb_backend.rs:96-100 (RedbSession). The database behind it is shared; the
    fields of a cursor are those of the memory backend's. *)
Record rstate : Type := {
  r_db : redb;
  r_in_transaction : bool;
  r_pending : PendingWriteMap }.

Definition with_db (st : rstate) (d : redb) : rstate :=
  {| r_db := d; r_in_transaction := r_in_transaction st; r_pending := r_pending st |}.

Definition RM (X : Type) : Type := rstate -> rstate * result X StorageError.

(** [.map_err(|e| StorageError::Other(e.to_string()))]. *)
Definition other {X} (r : result X string) : result X StorageError := map_err Other r.

(** Source: storage/redb_backend.rs:72-78 (open_session). Also lines 236-242 of
    [open_sibling_session]. *)
Definition open_session (d : redb) : rstate :=
  {| r_db := d; r_in_transaction := false; r_pending := [] |}.

(** Source: storage/redb_backend.rs:80-89 (list_tables). *)
Definition redb_list_tables (d : redb) : result (list string) StorageError := other (read_tables d).

(** A write transaction that is committed when all went well, and dropped when not. *)
Definition in_write_txn (f : wtxn -> result wtxn StorageError) : RM unit :=
  fun st =>
    match (let? t := other (begin_write (r_db st)) in
           let? t := f t in
           other (w_commit t)) with
    | Ok d => (with_db st d, Ok tt)
    | Err e => (st, Err e)
    end.

(** [open_table(..).map_err(|e| StorageError::Other(e.to_string()))]. *)
Definition table_error_text (e : TableError) : string :=
  match e with TableDoesNotExist => "Table does not exist" | TableErrorOther m => m end.
Definition open_or_other (t : wtxn) (name : string) : result wtxn StorageError :=
  map_err (fun e => Other (table_error_text e)) (w_open t name).

(** Source: storage/redb_backend.rs:105-118 (create_table). *)
Definition redb_create_table (name : string) : RM unit := in_write_txn (fun t => open_or_other t name).

(** Source: storage/redb_backend.rs:120-130 (drop_table). *)
Definition redb_drop_table (name : string) : RM unit := in_write_txn (fun t => other (w_delete_table t name)).

(** Source: storage/redb_backend.rs:202-234 (rename_table). *)
Definition redb_rename_table (from to : string) : RM unit :=
  in_write_txn (fun t =>
    match w_open t from with
    | Err TableDoesNotExist => Err (NotFound ("table " ++ from ++ " does not exist")%string)
    | Err (TableErrorOther m) => Err (Other m)
    | Ok t =>
        let? t := open_or_other t to in
        let? rows := other (w_rows t from) in
        let? t := fold_result (fun t '(k, v) => other (w_insert t to k v)) t rows in
        other (w_delete_table t from)
    end).

(** Source: storage/redb_backend.rs:151-155 (begin_transaction). *)
Definition redb_begin_transaction : RM unit :=
  fun st => ({| r_db := r_db st; r_in_transaction := true; r_pending := [] |}, Ok tt).

(** Source: storage/redb_backend.rs:178-189 (commit_transaction). Also lines 335-344 of
    [write_immediate]. *)
Definition perform (t : wtxn) (table : string) (op : PendingWrite) : result wtxn StorageError :=
  match op with
  | PInsert key value => other (w_insert t table key value)
  | PRemove key => other (w_remove t table key)
  end.

(** Source: storage/redb_backend.rs:157-194 (commit_transaction). *)
Definition redb_commit_transaction : RM unit :=
  fun st =>
    let ops_by_table := r_pending st in
    let st := {| r_db := r_db st; r_in_transaction := false; r_pending := [] |} in
    match ops_by_table with
    | [] => (st, Ok tt)
    | _ => in_write_txn (fun t =>
        fold_result (fun t '(table, ops) =>
          let? t := open_or_other t table in
          fold_result (fun t op => perform t table op) t ops) t (hash_order ops_by_table)) st
    end.

(** Source: storage/redb_backend.rs:196-200 (rollback_transaction). *)
Definition redb_rollback_transaction : RM unit :=
  fun st => ({| r_db := r_db st; r_in_transaction := false; r_pending := [] |}, Ok tt).

(** ** Cursors *)

Definition key_is (k : bytes) (e : bytes * bytes) : bool := bytes_eq (fst e) k.

(** Source: storage/redb_backend.rs:304-314 (materialize). One buffered operation on the rows. *)
Definition overlay (rows : TableStore) (op : PendingWrite) : TableStore :=
  match op with
  | PInsert key value => List.filter (fun e => negb (key_is key e)) rows ++ [(key, value)]
  | PRemove key => List.filter (fun e => negb (key_is key e)) rows
  end.

Definition with_entries (c : MemCursor) (rows : TableStore) (position : option nat) : MemCursor :=
  {| table_name := table_name c; entries := Some rows; position := position;
     current_key := current_key c; current_value := current_value c;
     pending_key := pending_key c; pending_value := pending_value c |}.

(** Source: storage/redb_backend.rs:272-322 (materialize). *)
Definition redb_materialize (st : rstate) (c : MemCursor) : MemCursor * result unit StorageError :=
  match entries c with
  | Some _ => (c, Ok tt)
  | None =>
      match read_rows_of (r_db st) (table_name c) with
      | Err e => (c, Err (Other e))
      | Ok None => (with_entries c [] (position c), Ok tt)
      | Ok (Some rows) =>
          let rows :=
            if r_in_transaction st then
              match pending_of (r_pending st) (table_name c) with
              | Some ops => sort_by (fun a b => bytes_cmp (fst a) (fst b)) (fold_left overlay ops rows)
              | None => rows
              end
            else rows in
          (with_entries c rows None, Ok tt)
      end
  end.

(** Source: storage/redb_backend.rs:325-348 (write_immediate). *)
Definition write_immediate (c : MemCursor) (op : PendingWrite) : RM unit :=
  in_write_txn (fun t => let? t := open_or_other t (table_name c) in perform t (table_name c) op).

(** Source: storage/redb_backend.rs:350-364 (do_write). *)
Definition do_write (c : MemCursor) (op : PendingWrite) : RM unit :=
  fun st =>
    if r_in_transaction st
    then ({| r_db := r_db st; r_in_transaction := true; r_pending := push_pending (r_pending st) (table_name c) op |}, Ok tt)
    else write_immediate c op st.

(** Source: storage/redb_backend.rs:390-397 (get_key_str). *)
Definition redb_get_key_str (c : MemCursor) : result string StorageError :=
  let? b := get_key_raw c in
  if utf8_valid b then Ok (string_of_list_byte b) else Err (Other ("key is not valid UTF-8: " ++ utf8_error b)%string).

(** Source: storage/redb_backend.rs:415-422 (get_value_str). *)
Definition redb_get_value_str (c : MemCursor) : result string StorageError :=
  let? b := get_value_raw c in
  if utf8_valid b then Ok (string_of_list_byte b) else Err (Other ("value is not valid UTF-8: " ++ utf8_error b)%string).

(** Source: storage/redb_backend.rs:436-468 (search). *)
Definition redb_search (st : rstate) (c : MemCursor) : MemCursor * result unit StorageError :=
  match effective_key c with
  | Err e => (c, Err e)
  | Ok key =>
      match read_key_of (r_db st) (table_name c) key with
      | Err e => (c, Err (Other e))
      | Ok None => (c, Err (NotFound "table does not exist"))
      | Ok (Some None) => (c, Err (NotFound "key not found"))
      | Ok (Some (Some v)) => (set_current c key v, Ok tt)
      end
  end.

(** Source: storage/redb_backend.rs:470-511 (search_near). *)
Definition redb_search_near (st : rstate) (c : MemCursor) : MemCursor * result Z StorageError :=
  match redb_materialize st (clear_entries c) with
  | (c, Err e) => (c, Err e)
  | (c, Ok _) =>
      match effective_key c with
      | Err e => (c, Err e)
      | Ok seek =>
          match entries c with
          | None => (c, Err (Other "not materialized"))
          | Some [] => (c, Err (NotFound "table is empty"))
          | Some rows =>
              match binary_search_by (fun kv => bytes_cmp (fst kv) seek) rows with
              | Ok idx => at_entry c rows idx 0
              | Err idx =>
                  if (idx <? length rows)%nat then at_entry c rows idx 1
                  else if (0 <? idx)%nat then at_entry c rows (idx - 1) (-1)
                  else (c, Err (NotFound "no entries near key"))
              end
          end
      end
  end.

(** Source: storage/redb_backend.rs:513-534 (next). *)
Definition redb_next (st : rstate) (c : MemCursor) : MemCursor * result unit StorageError :=
  match redb_materialize st c with
  | (c, Err e) => (c, Err e)
  | (c, Ok _) =>
      match entries c with
      | None => (c, Err (Other "not materialized"))
      | Some rows =>
          let next_pos := match position c with Some p => (p + 1)%nat | None => 0%nat end in
          match rows !! next_pos with
          | None => (c, Err (NotFound "end of cursor"))
          | Some e =>
              ({| table_name := table_name c; entries := entries c; position := Some next_pos;
                  current_key := Some (fst e); current_value := Some (snd e);
                  pending_key := Some (fst e); pending_value := pending_value c |}, Ok tt)
          end
      end
  end.

(** Source: storage/redb_backend.rs:538-542 (insert). *)
Definition redb_insert (c : MemCursor) : RM unit :=
  fun st =>
    match effective_key c with
    | Err e => (st, Err e)
    | Ok key =>
        match effective_value c with
        | Err e => (st, Err e)
        | Ok value => do_write c (PInsert key value) st
        end
    end.

(** Source: storage/redb_backend.rs:544-547 (update). *)
Definition redb_update (c : MemCursor) : RM unit := redb_insert c.

(** Source: storage/redb_backend.rs:549-552 (remove). *)
Definition redb_remove (c : MemCursor) : RM unit :=
  fun st => match effective_key c with Err e => (st, Err e) | Ok key => do_write c (PRemove key) st end.
End Redb.

(** ** Transactions of a collection *)

Section Transactions.
Context {R : RedbOps} {SE : StdEnv}.

(** [.map_err(CollectionError::from)]. *)
Definition coll_storage {X} (r : result X StorageError) : result X failure :=
  map_err (fun e => Fail (CStorageError e)) r.

(** Source: collection/transactions.rs:9-13 (begin_transaction). *)
Definition coll_begin (st : rstate) : rstate * result unit failure :=
  let '(st, r) := redb_begin_transaction st in (st, coll_storage r).

(** Source: collection/transactions.rs:16-20 (commit_transaction). *)
Definition coll_commit (st : rstate) : rstate * result unit failure :=
  let '(st, r) := redb_commit_transaction st in (st, coll_storage r).

(** Source: collection/transactions.rs:23-27 (rollback_transaction). *)
Definition coll_rollback (st : rstate) : rstate * result unit failure :=
  let '(st, r) := redb_rollback_transaction st in (st, coll_storage r).

(** Source: collection/transactions.rs:30-45 (with_transaction). A panic of [f] goes through. *)
Definition with_transaction {X} (f : rstate -> rstate * result X failure) (st : rstate) : rstate * result X failure :=
  match coll_begin st with
  | (st, Err e) => (st, Err e)
  | (st, Ok _) =>
      match f st with
      | (st, Ok result) =>
          match coll_commit st with
          | (st, Err e) => (st, Err e)
          | (st, Ok _) => (st, Ok result)
          end
      | (st, Err (Unwind m)) => (st, Err (Unwind m))
      | (st, Err e) => (fst (coll_rollback st), Err e)
      end
  end.
End Transactions.

(** ** Buffered writes *)

Definition apply_op (t : TableStore) (op : PendingWrite) : TableStore :=
  match op with PInsert k v => bt_insert t k v | PRemove k => bt_remove t k end.

Definition ops_of (m : PendingWriteMap) (table : string) : list PendingWrite :=
  match pending_of m table with Some ops => ops | None => [] end.

Lemma apply_op_ok (t : TableStore) op : bt_ok t -> bt_ok (apply_op t op).
Proof. destruct op; [apply bt_insert_ok|apply bt_remove_ok]. Qed.

Lemma apply_ops_ok ops (t : TableStore) : bt_ok t -> bt_ok (fold_left apply_op ops t).
Proof. revert t. induction ops as [|op ops IH]; intros t Ht; [done|]. by apply IH, apply_op_ok. Qed.

(** The rows and the table they stand for have the same entries. *)
Definition same_entries (rows t : TableStore) : Prop :=
  List.NoDup (map fst rows) /\ forall k v, In (k, v) rows <-> bt_get t k = Some v.

Lemma overlay_same rows (t : TableStore) op :
  bt_ok t -> same_entries rows t -> same_entries (overlay rows op) (apply_op t op).
Proof.
  intros Ht [Hnd Hs].
  assert (Hf : forall key k v, In (k, v) (List.filter (fun e => negb (key_is key e)) rows) <-> k <> key /\ bt_get t k = Some v).
  { intros key k v. rewrite List.filter_In, Hs, negb_true_iff. unfold key_is. cbn [fst]. rewrite <- not_true_iff_false, bytes_eq_spec. tauto. }
  destruct op as [key value|key]; cbn [overlay apply_op].
  - split.
    + rewrite map_app. cbn. apply NoDup_ListNoDup, NoDup_app. split_and!; [by apply NoDup_ListNoDup, NoDup_map_filter| |apply NoDup_singleton].
      intros k Hk Hx. apply list_elem_of_singleton in Hx as ->. apply list_elem_of_In, in_map_iff in Hk as ([k v] & <- & Hk).
      apply Hf in Hk as [Hk _]. done.
    + intros k v. rewrite in_app_iff, Hf. cbn. destruct (decide (k = key)) as [->|Hne].
      * rewrite bt_get_insert_eq. split; [intros [[? _]|[[= ->]|[]]]; done|intros [= ->]; by right; left].
      * rewrite bt_get_insert_ne by done. split; [intros [[_ ?]|[[= -> ->]|[]]]; done|intros; by left].
  - split; [by apply NoDup_map_filter|]. intros k v. rewrite Hf. destruct (decide (k = key)) as [->|Hne].
    + rewrite bt_get_remove_eq by done. split; [by intros [? _]|done].
    + rewrite bt_get_remove_ne by done. tauto.
Qed.

Lemma overlays_same ops rows (t : TableStore) :
  bt_ok t -> same_entries rows t -> same_entries (fold_left overlay ops rows) (fold_left apply_op ops t).
Proof.
  revert rows t. induction ops as [|op ops IH]; intros rows t Ht Hs; [done|]. cbn [fold_left].
  apply IH; [by apply apply_op_ok|by apply overlay_same].
Qed.

Definition by_key (a b : bytes * bytes) : comparison := bytes_cmp (fst a) (fst b).

Lemma by_key_tp : TotalPreorder (fun _ : bytes * bytes => True) by_key.
Proof. by apply (tp_pullback (fun _ => True) _ fst), bytes_cmp_tp. Qed.

Lemma sorted_strict (l : TableStore) : sorted_by by_key l -> List.NoDup (map fst l) -> bt_ok l.
Proof.
  induction 1 as [|e l Hl IH Hf]; intros Hnd; [constructor|]. inversion_clear Hnd as [|? ? Hx Hn].
  constructor; [by apply IH|]. rewrite List.Forall_forall in *. intros e' He'. specialize (Hf e' He').
  unfold key_lt. change (key_cmp (fst e) (fst e')) with (by_key e e'). destruct (by_key e e') eqn:Ec; [|done|done].
  unfold by_key in Ec. apply bytes_cmp_eq in Ec. exfalso. apply Hx. rewrite Ec. by apply in_map.
Qed.

(** The rows of a table under the buffered writes, sorted, are the table after them. *)
Lemma overlay_sorted ops (t : TableStore) :
  bt_ok t -> sort_by by_key (fold_left overlay ops t) = fold_left apply_op ops t.
Proof.
  intros Ht. destruct (overlays_same ops t t Ht) as [Hnd Hs].
  { split; [by apply bt_keys_nodup|]. intros k v. symmetry. by apply bt_get_In. }
  assert (Hok : bt_ok (sort_by by_key (fold_left overlay ops t))).
  { apply sorted_strict; [apply (sort_by_sorted (fun _ => True)); [apply by_key_tp|by apply List.Forall_forall]|].
    eapply Permutation_NoDup; [|exact Hnd]. apply Permutation_map, sort_by_perm. }
  apply bt_ext; [done|by apply apply_ops_ok|]. intros k. apply option_eq. intros v.
  by rewrite bt_get_In, sort_by_In, Hs by done.
Qed.

(** ** What a session sees, and what a commit leaves *)

Section Sessions.
Context {R : RedbOps} {RL : RedbLaws R} {SE : StdEnv} {SL : StdLaws SE}.

(** The rows of a table for a session: those of the last commit, under its buffered writes. *)
Definition session_rows (st : rstate) (t : string) : TableStore :=
  fold_left apply_op (ops_of (r_pending st) t) (table_rows (view (r_db st)) t).

Lemma table_rows_put (s : store) n t u : bt_ok s ->
  table_rows (bt_insert s n t) u = if decide (u = n) then t else table_rows s u.
Proof.
  intros Hs. unfold table_rows. case_decide as H; [subst; by rewrite bt_get_insert_eq|by rewrite bt_get_insert_ne].
Qed.

Lemma perform_view t n op t' : store_ok (tview t) -> perform t n op = Ok t' ->
  store_ok (tview t') /\
  forall u, table_rows (tview t') u = if decide (u = n) then apply_op (table_rows (tview t) n) op else table_rows (tview t) u.
Proof.
  intros Hs H. assert (Hv : tview t' = bt_insert (tview t) n (apply_op (table_rows (tview t) n) op)).
  { destruct op as [k v|k]; cbn [perform other map_err] in H.
    - destruct (w_insert t n k v) eqn:Ew; [|done]. injection H as ->. by apply insert_view in Ew.
    - destruct (w_remove t n k) eqn:Ew; [|done]. injection H as ->. by apply remove_view in Ew. }
  rewrite Hv. split; [apply put_table_ok; [done|by apply apply_op_ok, table_or_empty_ok]|].
  intros u. by apply table_rows_put, Hs.
Qed.

Lemma performs_view ops t n t' : store_ok (tview t) ->
  fold_result (fun t op => perform t n op) t ops = Ok t' ->
  store_ok (tview t') /\
  forall u, table_rows (tview t') u =
    if decide (u = n) then fold_left apply_op ops (table_rows (tview t) n) else table_rows (tview t) u.
Proof.
  revert t. induction ops as [|op ops IH]; intros t Hs H; cbn in H.
  { injection H as <-. split; [done|]. intros u. by case_decide; subst. }
  destruct (perform t n op) as [t1|] eqn:Ep; [|done]. destruct (perform_view _ _ _ _ Hs Ep) as [Hs1 H1].
  destruct (IH t1 Hs1 H) as [Hs2 H2]. split; [done|]. intros u. rewrite H2. cbn [fold_left].
  case_decide as Hu; [|by rewrite H1, decide_False]. rewrite H1, decide_True by done. done.
Qed.

Lemma open_view_rows t n t' : store_ok (tview t) -> open_or_other t n = Ok t' ->
  store_ok (tview t') /\ forall u, table_rows (tview t') u = table_rows (tview t) u.
Proof.
  intros Hs H. unfold open_or_other in H. destruct (w_open t n) as [t1|] eqn:Eo; [|done]. injection H as <-.
  rewrite (open_view _ _ _ Eo). unfold create_table. destruct (bt_get (tview t) n) eqn:Eg; [done|].
  split; [apply put_table_ok; [done|constructor]|]. intros u. rewrite table_rows_put by apply Hs.
  case_decide; [subst|done]. unfold table_rows. by rewrite Eg.
Qed.

Lemma pending_of_In (m : PendingWriteMap) t ops :
  List.NoDup (map fst m) -> pending_of m t = Some ops <-> In (t, ops) m.
Proof.
  induction m as [|[u o] m IH]; [done|]. cbn. intros H. inversion_clear H as [|? ? Hx Hn].
  destruct (String.eqb_spec u t) as [->|Hne].
  - split; [intros [= ->]; by left|]. intros [[= ->]|Hin]; [done|]. exfalso. apply Hx. by apply (in_map fst) in Hin.
  - rewrite IH by done. split; [by right|]. by intros [[= -> _]|?].
Qed.

Lemma ops_of_perm (m m' : PendingWriteMap) t :
  List.NoDup (map fst m) -> Permutation m' m -> ops_of m' t = ops_of m t.
Proof.
  intros Hnd Hp. assert (Hnd' : List.NoDup (map fst m')).
  { eapply Permutation_NoDup; [symmetry; apply Permutation_map, Hp|done]. }
  unfold ops_of. replace (pending_of m' t) with (pending_of m t); [done|]. apply option_eq. intros ops.
  rewrite !pending_of_In by done. split; apply Permutation_in; [symmetry|]; done.
Qed.

(** The tables, in any order. *)
Lemma commit_loop (m : PendingWriteMap) t t' : store_ok (tview t) -> List.NoDup (map fst m) ->
  fold_result (fun t '(table, ops) =>
    let? t := open_or_other t table in fold_result (fun t op => perform t table op) t ops) t m = Ok t' ->
  forall u, table_rows (tview t') u = fold_left apply_op (ops_of m u) (table_rows (tview t) u).
Proof.
  revert t. induction m as [|[n ops] m IH]; intros t Hs Hnd H u; [by injection H as <-|].
  cbn [map fst] in Hnd. inversion_clear Hnd as [|? ? Hx Hn]. cbn in H.
  destruct (open_or_other t n) as [t1|] eqn:Eo; [|done]. cbn in H.
  destruct (fold_result (fun t op => perform t n op) t1 ops) as [t2|] eqn:Ep; [|done].
  destruct (open_view_rows _ _ _ Hs Eo) as [Hs1 H1]. destruct (performs_view _ _ _ _ Hs1 Ep) as [Hs2 H2].
  rewrite (IH t2 Hs2 Hn H), H2, !H1. unfold ops_of. cbn [pending_of].
  destruct (String.eqb_spec n u) as [->|Hne]; [|by rewrite decide_False]. rewrite decide_True by done.
  destruct (pending_of m u) as [o|] eqn:Eo2; [|done]. exfalso. apply Hx.
  apply pending_of_In in Eo2; [|done]. by apply (in_map fst) in Eo2.
Qed.

(** A commit: all of the writes or none. *)
Lemma commit_spec st : List.NoDup (map fst (r_pending st)) ->
  exists d r, redb_commit_transaction st = (open_session d, r) /\
    match r with
    | Ok _ => forall t, table_rows (view d) t = session_rows st t
    | Err _ => d = r_db st
    end.
Proof.
  intros Hnd. unfold redb_commit_transaction, session_rows. destruct (r_pending st) as [|p m] eqn:Ep.
  { exists (r_db st), (Ok tt). by split. }
  unfold in_write_txn. cbn [r_db]. destruct (begin_write (r_db st)) as [t|e] eqn:Eb;
    [|exists (r_db st), (Err (Other e)); by split]. cbn [other map_err].
  pose proof (begin_view _ _ Eb) as Hv. set (loop := fold_result _ t _).
  assert (Hloop : forall t', loop = Ok t' ->
    forall u, table_rows (tview t') u = fold_left apply_op (ops_of (p :: m) u) (table_rows (view (r_db st)) u)).
  { intros t' Hl u. pose proof (hash_order_perm _ (p :: m)) as Hp.
    rewrite <- (ops_of_perm (p :: m) _ u Hnd Hp), <- Hv. apply (commit_loop _ _ t'); [rewrite Hv; apply view_ok| |done].
    eapply Permutation_NoDup; [symmetry; apply Permutation_map, Hp|done]. }
  destruct loop as [t'|e] eqn:El; [|exists (r_db st), (Err e); by split].
  destruct (w_commit t') as [d|e] eqn:Ec; [|exists (r_db st), (Err (Other e)); by split].
  exists d, (Ok tt). split; [done|]. intros u. rewrite (commit_view _ _ Ec). by apply Hloop.
Qed.

(** Inside a transaction a new cursor on an existing table goes over the rows the
    table will have when the transaction is committed; outside, over those of the last commit. *)
Theorem scan_sees_pending st name c :
  bt_get (view (r_db st)) name <> None ->
  redb_materialize st (open_cursor name) = (c, Ok tt) ->
  entries c = Some (if r_in_transaction st then session_rows st name else table_rows (view (r_db st)) name).
Proof.
  intros Hex H. unfold redb_materialize in H. cbn [entries open_cursor table_name] in H.
  destruct (read_rows_of (r_db st) name) as [r|] eqn:Er; [|done]. apply read_rows_view in Er as ->.
  destruct (bt_get (view (r_db st)) name) as [rows|] eqn:Eg; [|done].
  assert (Hr : table_rows (view (r_db st)) name = rows) by (unfold table_rows; by rewrite Eg).
  assert (Hok : bt_ok rows) by (by eapply (proj2 (view_ok (r_db st)))).
  injection H as <-. cbn [entries with_entries]. rewrite Hr. unfold session_rows, ops_of. rewrite Hr.
  destruct (r_in_transaction st); [|done]. destruct (pending_of (r_pending st) name) as [ops|]; [|done].
  change (fun a b : bytes * bytes => bytes_cmp a.1 b.1) with by_key. by rewrite overlay_sorted.
Qed.

(** ** Transactions *)

(** A write through some cursor of the session. *)
Inductive cursor_step : rstate -> rstate -> Prop :=
| cursor_write c op st : cursor_step st (fst (do_write c op st)).

Lemma push_keys (m : PendingWriteMap) t op :
  List.NoDup (map fst m) -> List.NoDup (map fst (push_pending m t op)).
Proof.
  assert (Hin : forall (m : PendingWriteMap) x, In x (map fst (push_pending m t op)) -> x = t \/ In x (map fst m)).
  { clear. intros m x. induction m as [|[u o] m IH]; cbn; [intros [<-|[]]; by left|]. destruct (u =s? t); cbn; [by right|].
    intros [<-|Hx]; [by right; left|]. destruct (IH Hx); [by left|by right; right]. }
  induction m as [|[u o] m IH]; cbn; [repeat constructor; intros []|]. intros H. inversion_clear H as [|? ? Hx Hn].
  destruct (String.eqb_spec u t) as [->|Hne]; cbn; constructor; [done|done| |by apply IH].
  intros Hu. by apply Hin in Hu as [?|?].
Qed.

(** The writes of a transaction stay in the session. *)
Lemma steps_buffer st st' : rtc cursor_step st st' ->
  r_in_transaction st = true -> List.NoDup (map fst (r_pending st)) ->
  r_db st' = r_db st /\ r_in_transaction st' = true /\ List.NoDup (map fst (r_pending st')).
Proof.
  induction 1 as [st|st1 st2 st3 Hstep _ IH]; intros Ht Hnd; [done|]. destruct Hstep as [c op st].
  unfold do_write in IH. rewrite Ht in IH. cbn [fst r_db r_in_transaction r_pending] in IH.
  apply IH; [done|by apply push_keys].
Qed.


(** ** Outside a transaction *)

(** A write of the backend either does what the memory backend does with the tables, or fails
    and leaves the database as it was. *)
Definition ran (st : rstate) (m : rstate * result unit StorageError) (s : store * result unit StorageError) : Prop :=
  match m with
  | (st', Ok _) => snd s = Ok tt /\ r_in_transaction st' = false /\
      forall t, table_rows (view (r_db st')) t = table_rows (fst s) t
  | (st', Err _) => st' = st
  end.

(** A read either gives what the memory backend gives, or the error of the library. *)
Definition reads_as {X} (r s : MemCursor * result X StorageError) : Prop := r = s \/ exists e, snd r = Err (Other e).

Lemma in_write_txn_spec f st :
  (exists t t' d, begin_write (r_db st) = Ok t /\ f t = Ok t' /\ w_commit t' = Ok d /\
     in_write_txn f st = (with_db st d, Ok tt)) \/
  exists e, in_write_txn f st = (st, Err e).
Proof.
  unfold in_write_txn. destruct (begin_write (r_db st)) as [t|e]; [|right; by eexists]. cbn [other map_err].
  destruct (f t) as [t'|e] eqn:Ef; [|right; by eexists]. destruct (w_commit t') as [d|e] eqn:Ec; [|right; by eexists].
  left. by exists t, t', d.
Qed.

Lemma txn_ran f st s :
  r_in_transaction st = false -> snd s = Ok tt ->
  (forall t t', tview t = view (r_db st) -> f t = Ok t' -> forall u, table_rows (tview t') u = table_rows (fst s) u) ->
  ran st (in_write_txn f st) s.
Proof.
  intros Hin Hok Hf. destruct (in_write_txn_spec f st) as [(t & t' & d & Hb & Hft & Hc & ->)|[e ->]]; [|done].
  split; [done|]. split; [done|]. intros u. cbn [r_db with_db]. rewrite (commit_view _ _ Hc).
  apply (Hf t t'); [by apply begin_view|done].
Qed.

Lemma create_rows (s : store) n u : bt_ok s -> table_rows (create_table s n) u = table_rows s u.
Proof.
  intros Hs. unfold create_table. destruct (bt_get s n) eqn:Eg; [done|]. rewrite table_rows_put by done.
  case_decide; [subst|done]. unfold table_rows. by rewrite Eg.
Qed.

Lemma create_ran name st :
  r_in_transaction st = false -> ran st (redb_create_table name st) (create_table (view (r_db st)) name, Ok tt).
Proof.
  intros Hin. apply txn_ran; [done|done|]. intros t t' Hv Hf u. cbn [fst]. rewrite create_rows by apply view_ok.
  destruct (open_view_rows t name t') as [_ ->]; [rewrite Hv; apply view_ok|done|by rewrite Hv].
Qed.

Lemma immediate_ran c op st s :
  r_in_transaction st = false -> snd s = Ok tt ->
  (forall u, table_rows (fst s) u = if decide (u = table_name c) then apply_op (table_rows (view (r_db st)) (table_name c)) op
                                    else table_rows (view (r_db st)) u) ->
  ran st (do_write c op st) s.
Proof.
  intros Hin Hok Hs. unfold do_write. rewrite Hin. apply txn_ran; [done|done|].
  intros t t' Hv Hf u. assert (Ht : store_ok (tview t)) by (rewrite Hv; apply view_ok).
  destruct (open_or_other t (table_name c)) as [t1|] eqn:Eo; [|done]. cbn in Hf.
  destruct (open_view_rows _ _ _ Ht Eo) as [Hs1 H1]. destruct (perform_view _ _ _ _ Hs1 Hf) as [_ H2].
  rewrite H2, Hs, !H1, Hv. done.
Qed.

Lemma copy_rows (rows : TableStore) t n t' : store_ok (tview t) ->
  fold_result (fun t '(k, v) => other (w_insert t n k v)) t rows = Ok t' ->
  store_ok (tview t') /\ forall u, table_rows (tview t') u =
    if decide (u = n) then fold_left (fun m '(k, v) => bt_insert m k v) rows (table_rows (tview t) n) else table_rows (tview t) u.
Proof.
  intros Hs H. assert (Hops : fold_result (fun t op => perform t n op) t (map (fun '(k, v) => PInsert k v) rows) = Ok t').
  { revert t Hs H. induction rows as [|[k v] rows IH]; intros t Hs H; [done|]. cbn in H |- *.
    destruct (w_insert t n k v) as [t1|] eqn:Ew; [|done]. cbn in H |- *. apply IH; [|done].
    eapply (perform_view t n (PInsert k v) t1); [done|]. cbn. by rewrite Ew. }
  destruct (performs_view _ _ _ _ Hs Hops) as [Hs' H2]. split; [done|]. intros u. rewrite H2.
  case_decide; [|done]. clear. generalize (table_rows (tview t) n) as m.
  induction rows as [|[k v] rows IH]; intros m; [done|]. apply IH.
Qed.

Definition copied (rows m : TableStore) : TableStore := fold_left (fun m '(k, v) => bt_insert m k v) rows m.

Lemma copied_get (rows m : TableStore) : bt_ok rows -> bt_ok m ->
  bt_ok (copied rows m) /\
  forall k, bt_get (copied rows m) k = match bt_get rows k with Some v => Some v | None => bt_get m k end.
Proof.
  intros Hr. revert m. induction Hr as [|[k v] rows Hr IH Hf]; intros m Hm; [done|].
  destruct (IH (bt_insert m k v) (bt_insert_ok _ _ _ Hm)) as [H1 H2]. split; [done|]. intros k2.
  change (copied ((k, v) :: rows) m) with (copied rows (bt_insert m k v)). rewrite H2. rewrite List.Forall_forall in Hf.
  assert (Hlt : forall w, bt_get rows k2 = Some w -> key_cmp k k2 = Lt).
  { intros w Eg. apply bt_get_In in Eg; [|done]. exact (Hf _ Eg). }
  cbn [bt_get]. destruct (key_cmp k2 k) eqn:Ek.
  - apply key_eq in Ek as ->. rewrite bt_get_insert_eq. destruct (bt_get rows k) as [w|]; [|done].
    specialize (Hlt w eq_refl). by rewrite key_cmp_refl in Hlt.
  - rewrite bt_get_insert_ne by (done || (intros ->; by rewrite key_cmp_refl in Ek)).
    destruct (bt_get rows k2) as [w|]; [|done]. specialize (Hlt w eq_refl). by rewrite key_cmp_opp, Ek in Hlt.
  - by rewrite bt_get_insert_ne by (done || (intros ->; by rewrite key_cmp_refl in Ek)).
Qed.

Lemma copy_sorted (rows : TableStore) : bt_ok rows -> copied rows [] = rows.
Proof.
  intros Hr. destruct (copied_get rows [] Hr bt_nil_ok) as [H1 H2]. apply bt_ext; [done|done|].
  intros k. rewrite H2. by destruct (bt_get rows k).
Qed.

Lemma rename_ran st from to :
  let s := view (r_db st) in
  r_in_transaction st = false -> bt_get s from <> None -> bt_get s to = None ->
  ran st (redb_rename_table from to st) (rename_table s from to).
Proof.
  intros s. intros Hin Hfrom Hto. assert (Hs : store_ok s) by apply view_ok. unfold rename_table. destruct (bt_get s from) as [d|] eqn:Ed; [|done]. apply txn_ran; [done|done|].
  assert (Hne : from <> to) by (intros ->; congruence).
  intros t t' Hv Hf u. assert (Ht : store_ok (tview t)) by (rewrite Hv; apply view_ok).
  destruct (w_open t from) as [t1|[]] eqn:Eo; [|done|done].
  assert (Eo' : open_or_other t from = Ok t1) by (unfold open_or_other; by rewrite Eo).
  destruct (open_view_rows _ _ _ Ht Eo') as [Hs1 H1]. destruct (open_or_other t1 to) as [t2|] eqn:Eo2; [|done].
  destruct (open_view_rows _ _ _ Hs1 Eo2) as [Hs2 H2]. cbn in Hf. destruct (w_rows t2 from) as [rows|] eqn:Er; [|done].
  apply rows_view in Er. cbn in Hf. destruct (fold_result _ t2 rows) as [t3|] eqn:E3; [|done].
  destruct (copy_rows rows t2 to t3 Hs2 E3) as [Hs3 H3]. cbn in Hf.
  destruct (w_delete_table t3 from) as [t4|] eqn:E4; [|done]. injection Hf as <-. apply delete_view in E4. rewrite E4.
  assert (Hrow : rows = d) by (rewrite Er, H2, H1, Hv; fold s; unfold table_rows; by rewrite Ed).
  assert (Hd : bt_ok d) by (by eapply (proj2 Hs)). cbn [fst].
  rewrite table_rows_put by (apply bt_remove_ok, Hs). unfold table_rows at 1 2.
  destruct (decide (u = from)) as [->|Hu].
  { rewrite bt_get_remove_eq by apply Hs3. rewrite decide_False by done. unfold table_rows. by rewrite bt_get_remove_eq by apply Hs. }
  rewrite bt_get_remove_ne by (apply Hs3 || done). fold (table_rows (tview t3) u). rewrite H3. case_decide as Hut.
  + subst u. rewrite Hrow. replace (table_rows (tview t2) to) with ([] : TableStore); [by apply copy_sorted|].
    rewrite H2, H1, Hv. unfold table_rows. fold s. by rewrite Hto.
  + rewrite H2, H1, Hv. fold s. unfold table_rows. by rewrite bt_get_remove_ne by (apply Hs || done).
Qed.

(** The same, but for where the cursor is left when the answer is an error. *)
Definition answers_as {X} (r s : MemCursor * result X StorageError) : Prop :=
  (snd r = snd s /\ (is_ok (snd s) = true -> r = s)) \/ exists e, snd r = Err (Other e).

(** Outside a transaction a cursor is filled as the memory backend fills it; only a table that
    does not exist leaves the position as it is. *)
Lemma materialize_ran st c : r_in_transaction st = false ->
  redb_materialize st c = (Storage.materialize (view (r_db st)) c, Ok tt) \/
  (exists c' e, redb_materialize st c = (c', Err (Other e))) \/
  (entries c = None /\ redb_materialize st c = (with_entries c [] (position c), Ok tt) /\
   Storage.materialize (view (r_db st)) c = with_entries c [] None).
Proof.
  intros Hin. unfold redb_materialize, Storage.materialize.
  destruct (entries c) as [rows|] eqn:Ec; [by left|]. rewrite Hin.
  destruct (read_rows_of (r_db st) (table_name c)) as [r|e] eqn:Er; [|right; left; by do 2 eexists].
  apply read_rows_view in Er. subst r. destruct (bt_get (view (r_db st)) (table_name c)); [by left|by right; right].
Qed.

Lemma search_near_ran st c : r_in_transaction st = false ->
  answers_as (redb_search_near st c) (Storage.search_near (view (r_db st)) c).
Proof.
  intros Hin. unfold redb_search_near, Storage.search_near.
  destruct (materialize_ran st (clear_entries c) Hin) as [->|[[c' [e ->]]|(_ & -> & ->)]].
  - left. done.
  - right. by eexists.
  - left. unfold with_entries, effective_key. simpl. by destruct (opt_or (pending_key c) (current_key c)).
Qed.

(** C9: outside a transaction the backend does what the memory backend does, or fails with an
    error of the library and without effect. As to the rows of every table: an insertion and a
    removal by a cursor whose key and value decode, the creation and the removal of a table, and
    the renaming of a table that exists to a name that does not (for the others, [rename_merges]
    and [rename_of_missing_succeeds]). As to the answer and the cursor it leaves: a search, a
    step of a scan, and, when it finds a row, a search for the nearest key (when it does not,
    the error is the same). What is compared of tables is rows, so an empty table counts as no
    table; and a cursor that has not read its table yet has no position in it, as when it is
    opened or reset. *)
Theorem autocommit_refines_memory st c name from to :
  r_in_transaction st = false -> (entries c = None -> position c = None) ->
  let s := view (r_db st) in
  (is_ok (effective_key c) = true -> is_ok (effective_value c) = true -> ran st (redb_insert c st) (Storage.insert s c)) /\
  (is_ok (effective_key c) = true -> ran st (redb_remove c st) (Storage.remove s c)) /\
  ran st (redb_create_table name st) (create_table s name, Ok tt) /\
  ran st (redb_drop_table name st) (drop_table s name, Ok tt) /\
  (bt_get s from <> None -> bt_get s to = None -> ran st (redb_rename_table from to st) (rename_table s from to)) /\
  reads_as (redb_search st c) (Storage.search s c) /\
  answers_as (redb_search_near st c) (Storage.search_near s c) /\
  reads_as (redb_next st c) (Storage.next s c).
Proof.
  intros Hin Hpos s. assert (Hs : store_ok s) by apply view_ok. split_and!.
  - intros Hk Hv. unfold redb_insert, Storage.insert. destruct (effective_key c) as [k|]; [|done].
    destruct (effective_value c) as [v|]; [|done]. apply immediate_ran; [done|done|].
    intros u. cbn [fst]. rewrite table_rows_put by apply Hs. done.
  - intros Hk. unfold redb_remove, Storage.remove. destruct (effective_key c) as [k|]; [|done].
    fold s. destruct (bt_get s (table_name c)) as [t|] eqn:Et; (apply immediate_ran; [done|done|]); intros u; cbn [fst]; fold s.
    + rewrite table_rows_put by apply Hs. unfold table_rows at 2. by rewrite Et.
    + case_decide; [subst|done]. unfold table_rows. by rewrite Et.
  - by apply create_ran.
  - apply txn_ran; [done|done|]. intros t t' Hv Hf u. destruct (w_delete_table t name) as [t1|] eqn:Ed; [|done].
    injection Hf as <-. by rewrite (delete_view _ _ _ Ed), Hv.
  - intros Hfrom Hto. by apply rename_ran.
  - unfold redb_search, Storage.search. destruct (effective_key c) as [k|]; [|by left].
    destruct (read_key_of (r_db st) (table_name c) k) as [r|e] eqn:Er; [|right; by eexists].
    apply read_key_view in Er. fold s in Er. destruct (bt_get s (table_name c)) as [t|]; cbn in Er; subst r; [|by left].
    left. by destruct (bt_get t k).
  - by apply search_near_ran.
  - subst s. unfold redb_next, Storage.next.
    destruct (materialize_ran st c Hin) as [->|[[c' [e ->]]|(Ec & -> & ->)]]; [by left|right; by eexists|].
    rewrite Hpos by done. by left.
Qed.
End Sessions.

(** ** Key-value helpers of a database *)

Section KeyValue.
Context {R : RedbOps} {SE : StdEnv} (utf8_error : bytes -> string).

(** [while c.next().is_ok() { body }]; [inr] is a [break].  There is a round per row of the
    snapshot and one that ends, so the fuel does not run out ([while_rows_fold]). *)
Fixpoint rows_rounds {Acc} (fuel : nat) (st : rstate) (body : Acc -> MemCursor -> result (Acc + Acc) StorageError)
  (acc : Acc) (c : MemCursor) : result Acc StorageError :=
  match fuel with
  | O => Ok acc
  | S fuel' =>
      match redb_next st c with
      | (_, Err _) => Ok acc
      | (c, Ok _) =>
          let? r := body acc c in
          match r with inl acc => rows_rounds fuel' st body acc c | inr acc => Ok acc end
      end
  end.

Definition while_rows {Acc} (st : rstate) (body : Acc -> MemCursor -> result (Acc + Acc) StorageError)
  (acc : Acc) (c : MemCursor) : result Acc StorageError :=
  let rows := match entries (fst (redb_materialize st c)) with Some rows => rows | None => [] end in
  rows_rounds (S (length rows)) st body acc c.

(** The database after an operation of a session of its own, and the result of it. *)
Definition on_db {X} (d : redb) (f : RM X) : redb * result X db_failure :=
  let '(st, r) := f (open_session d) in (r_db st, map_err (fun e => DbFail (DbStorageError e)) r).

(** Source: database/mod.rs:404-414 (redb_kv_get). *)
Definition redb_kv_get (d : redb) (table key : string) : redb * result (option string) db_failure :=
  on_db d (fun st =>
    let '(st, _) := redb_create_table table st in
    (st, match redb_search st (set_key_str (open_cursor table) key) with
         | (c, Ok _) => let? v := redb_get_value_str utf8_error c in Ok (Some v)
         | (_, Err (NotFound _)) => Ok None
         | (_, Err e) => Err e
         end)).

(** Source: database/mod.rs:417-425 (redb_kv_put). *)
Definition redb_kv_put (d : redb) (table key value : string) : redb * result unit db_failure :=
  on_db d (fun st =>
    match redb_create_table table st with
    | (st, Err e) => (st, Err e)
    | (st, Ok _) => redb_insert (set_value_str (set_key_str (open_cursor table) key) value) st
    end).

(** Source: database/mod.rs:428-434 (redb_kv_remove). *)
Definition redb_kv_remove (d : redb) (table key : string) : redb * result unit db_failure :=
  on_db d (fun st => (fst (redb_remove (set_key_str (open_cursor table) key) st), Ok tt)).

(** Source: database/mod.rs:437-446 (redb_kv_scan). *)
Definition redb_kv_scan (d : redb) (table : string) : result (list (string * string)) db_failure :=
  map_err (fun e => DbFail (DbStorageError e))
    (while_rows (open_session d) (fun out c =>
       let? k := redb_get_key_str utf8_error c in
       let? v := redb_get_value_str utf8_error c in
       Ok (inl (out ++ [(k, v)]))) [] (reset (open_cursor table))).

(** Source: database/mod.rs:470-476 (redb_atomic_checkpoint_truncate_oplog). A round of the scan. *)
Definition key_below (bound : string) (to_remove : list string) (c : MemCursor) : result (list string + list string) StorageError :=
  let? k := redb_get_key_str utf8_error c in
  Ok (if match str_cmp k bound with Lt => false | _ => true end then inr to_remove else inl (to_remove ++ [k])).

(** Source: database/mod.rs:449-485 (redb_atomic_checkpoint_truncate_oplog). *)
Definition redb_atomic_checkpoint_truncate_oplog (d : redb)
  (checkpoint_table checkpoint_key checkpoint_val oplog_table truncate_before_exclusive : string)
  : redb * result unit db_failure :=
  on_db d (fun st =>
    match redb_create_table checkpoint_table st with
    | (st, Err e) => (st, Err e)
    | (st, Ok _) =>
        let '(st, _) := redb_begin_transaction st in
        match redb_insert (set_value_str (set_key_str (open_cursor checkpoint_table) checkpoint_key) checkpoint_val) st with
        | (st, Err e) => (st, Err e)
        | (st, Ok _) =>
            match while_rows st (key_below truncate_before_exclusive) [] (reset (open_cursor oplog_table)) with
            | Err e => (st, Err e)
            | Ok to_remove =>
                redb_commit_transaction
                  (fold_left (fun st k => fst (redb_remove (set_key_str (open_cursor oplog_table) k) st)) to_remove st)
            end
        end
    end).
End KeyValue.

Section Checkpoint.
Context {R : RedbOps} {RL : RedbLaws R} {SE : StdEnv} {SL : StdLaws SE} (utf8_error : bytes -> string).

(** The loop over the rows of a table, as a recursion over them. *)
Fixpoint rows_until {Acc} (f : Acc -> bytes * bytes -> result (Acc + Acc) StorageError) (acc : Acc) (l : TableStore)
  : result Acc StorageError :=
  match l with
  | [] => Ok acc
  | e :: l' => let? r := f acc e in match r with inl acc => rows_until f acc l' | inr acc => Ok acc end
  end.

Definition row_at (st : rstate) (c : MemCursor) (rows : TableStore) (p : nat) : Prop :=
  entries c = Some rows /\ match position c with Some q => p = S q | None => p = O end.

Lemma rounds_fold {Acc} st (body : Acc -> MemCursor -> result (Acc + Acc) StorageError)
  (f : Acc -> bytes * bytes -> result (Acc + Acc) StorageError) rows :
  (forall acc c e, current_key c = Some (fst e) -> current_value c = Some (snd e) -> body acc c = f acc e) ->
  forall n acc c p, row_at st c rows p -> (length rows - p < n)%nat ->
  rows_rounds n st body acc c =
  rows_until f acc (drop p rows).
Proof.
  intros Hb. induction n as [|n IH]; intros acc c p (He & Hp) Hn; [lia|]. cbn [rows_rounds]. unfold redb_next, redb_materialize.
  rewrite He, He. assert (Hpos : match position c with Some q => (q + 1)%nat | None => 0%nat end = p)
    by (destruct (position c); lia). rewrite Hpos.
  destruct (rows !! p) as [e|] eqn:Ee; [|by rewrite drop_ge by (by apply lookup_ge_None)].
  rewrite (drop_S _ _ _ Ee). rewrite (Hb acc _ e) by done. cbn [rows_until]. destruct (f acc e) as [[a|a]|]; [|done|done].
  apply (IH a _ (S p)); [done|]. apply lookup_lt_Some in Ee. lia.
Qed.

(** The library reads what it is asked for. *)
Hypothesis reads_succeed : forall d n, exists r, read_rows_of d n = Ok r.

Lemma fresh_rows st name : pending_of (r_pending st) name = None ->
  redb_materialize st (open_cursor name) = (with_entries (open_cursor name) (table_rows (view (r_db st)) name) None, Ok tt).
Proof.
  intros Hp. unfold redb_materialize. cbn [entries open_cursor table_name]. destruct (reads_succeed (r_db st) name) as [r Hr].
  rewrite Hr. apply read_rows_view in Hr as ->. unfold table_rows.
  destruct (bt_get (view (r_db st)) name) as [rows|]; [|done]. rewrite Hp. by destruct (r_in_transaction st).
Qed.

Lemma next_materialized st c c' : redb_materialize st c = (c', Ok tt) -> entries c' <> None -> redb_next st c = redb_next st c'.
Proof.
  intros Hm He. assert (Hm' : redb_materialize st c' = (c', Ok tt)) by (unfold redb_materialize; by destruct (entries c')).
  unfold redb_next. by rewrite Hm, Hm'.
Qed.

Lemma while_rows_fold {Acc} st (body : Acc -> MemCursor -> result (Acc + Acc) StorageError) f acc name :
  pending_of (r_pending st) name = None ->
  (forall acc c e, current_key c = Some (fst e) -> current_value c = Some (snd e) -> body acc c = f acc e) ->
  while_rows st body acc (open_cursor name) = rows_until f acc (table_rows (view (r_db st)) name).
Proof.
  intros Hp Hb. pose proof (fresh_rows st name Hp) as Hm. unfold while_rows. rewrite Hm. cbn [fst entries with_entries].
  set (c := with_entries _ _ _) in Hm. set (rows := table_rows _ _) in c |- *.
  assert (Hr : rows_rounds (S (length rows)) st body acc (open_cursor name) = rows_rounds (S (length rows)) st body acc c).
  { cbn [rows_rounds]. by rewrite (next_materialized st _ c Hm). }
  rewrite Hr, (rounds_fold st body f rows Hb _ acc c 0); [|done|lia]. rewrite drop_0. reflexivity.
Qed.

Lemma ops_of_push (m : PendingWriteMap) t op u :
  ops_of (push_pending m t op) u = if decide (u = t) then ops_of m t ++ [op] else ops_of m u.
Proof.
  unfold ops_of. induction m as [|[n o] m IH]; cbn [push_pending pending_of].
  - destruct (String.eqb_spec t u) as [->|Hne]; [by rewrite decide_True|by rewrite decide_False by congruence].
  - destruct (String.eqb_spec n t) as [->|Hnt]; cbn [pending_of].
    + destruct (String.eqb_spec t u) as [->|Hne]; [by rewrite decide_True|by rewrite decide_False by congruence].
    + destruct (String.eqb_spec n u) as [->|Hne]; [by rewrite decide_False|exact IH].
Qed.

Definition below (bound : string) (e : bytes * bytes) : bool :=
  match bytes_cmp (fst e) (as_bytes bound) with Lt => true | _ => false end.

Definition below_row (bound : string) (ks : list string) (e : bytes * bytes) : result (list string + list string) StorageError :=
  let? k := (if utf8_valid (fst e) then Ok (string_of_list_byte (fst e))
             else Err (Other ("key is not valid UTF-8: " ++ utf8_error (fst e))%string)) in
  Ok (if match str_cmp k bound with Lt => false | _ => true end then inr ks else inl (ks ++ [k])).

Lemma below_rows bound (rows : TableStore) acc ks : bt_ok rows ->
  rows_until (below_row bound) acc rows = Ok ks ->
  map as_bytes ks = map as_bytes acc ++ map fst (List.filter (below bound) rows).
Proof.
  intros Hr. revert acc. induction Hr as [|e rows Hr IH Hf]; intros acc H; cbn in H.
  { injection H as <-. by rewrite app_nil_r. }
  unfold below_row at 1 in H. destruct (utf8_valid (fst e)); [|done]. unfold str_cmp in H. unfold as_bytes at 1 in H.
  rewrite list_byte_of_string_of_list_byte in H. cbn [List.filter]. unfold below at 1.
  assert (Hstop : bytes_cmp (fst e) (as_bytes bound) <> Lt -> List.filter (below bound) rows = []).
  { intros Hge. apply filter_none. intros e' He'. rewrite List.Forall_forall in Hf. specialize (Hf e' He'). unfold below.
    destruct (bytes_cmp (fst e') (as_bytes bound)) eqn:E'; try done. exfalso. apply Hge.
    by apply (bytes_cmp_trans_lt _ (fst e')). }
  destruct (bytes_cmp (fst e) (as_bytes bound)).
  - injection H as <-. by rewrite Hstop, app_nil_r.
  - rewrite (IH _ H), map_app, <- app_assoc. cbn [map app]. unfold as_bytes at 2. by rewrite list_byte_of_string_of_list_byte.
  - injection H as <-. by rewrite Hstop, app_nil_r.
Qed.

(** Removing the keys of some of the rows leaves the others. *)
Lemma remove_keys (q : bytes * bytes -> bool) (rows : TableStore) ks : bt_ok rows ->
  map as_bytes ks = map fst (List.filter q rows) ->
  fold_left apply_op (map (fun k => PRemove (as_bytes k)) ks) rows = List.filter (fun e => negb (q e)) rows.
Proof.
  intros Hr Hk. assert (Hget : forall ks (t : TableStore), bt_ok t ->
    bt_ok (fold_left apply_op (map (fun k => PRemove (as_bytes k)) ks) t) /\
    forall k, bt_get (fold_left apply_op (map (fun k => PRemove (as_bytes k)) ks) t) k =
      if decide (k ∈ map as_bytes ks) then None else bt_get t k).
  { clear. induction ks as [|x ks IH]; intros t Ht; cbn [map fold_left].
    { split; [done|]. intros k. case_decide as Hin; [by apply elem_of_nil in Hin|done]. }
    destruct (IH (bt_remove t (as_bytes x)) (bt_remove_ok _ _ Ht)) as [H1 H2]. split; [done|]. intros k.
    cbn [apply_op]. rewrite H2. destruct (decide (k ∈ map as_bytes ks)) as [Hin|Hni].
    - rewrite decide_True by (by apply elem_of_cons; right). done.
    - destruct (decide (k = as_bytes x)) as [->|Hne].
      + rewrite bt_get_remove_eq, decide_True by (done || (apply elem_of_cons; by left)). done.
      + rewrite bt_get_remove_ne, decide_False by (done || (intros Hx; apply elem_of_cons in Hx as [?|?]; done)). done. }
  destruct (Hget ks rows Hr) as [H1 H2]. apply bt_ext; [done|by apply bt_ok_filter|]. intros k. rewrite H2.
  apply option_eq. intros v. rewrite (bt_get_In (List.filter _ _)) by (by apply bt_ok_filter).
  rewrite List.filter_In, <- bt_get_In by done. case_decide as Hin.
  - split; [done|]. intros [Hv Hq]. exfalso. rewrite Hk in Hin. apply list_elem_of_In, in_map_iff in Hin as ([k' w] & He & Hin).
    cbn [fst] in He. subst k'. apply List.filter_In in Hin as [Hin Hw]. apply bt_get_In in Hin; [|done].
    rewrite Hv in Hin. injection Hin as <-. by rewrite Hw in Hq.
  - split; [|by intros [? _]]. intros Hv. split; [done|]. apply negb_true_iff. destruct (q (k, v)) eqn:Eq; [|done].
    exfalso. apply Hin. rewrite Hk. apply list_elem_of_In, in_map_iff. exists (k, v). split; [done|].
    apply List.filter_In. split; [by apply bt_get_In|done].
Qed.

Lemma buffered_removes table ks st : r_in_transaction st = true -> List.NoDup (map fst (r_pending st)) ->
  let st' := fold_left (fun st k => fst (redb_remove (set_key_str (open_cursor table) k) st)) ks st in
  r_db st' = r_db st /\ List.NoDup (map fst (r_pending st')) /\
  forall u, ops_of (r_pending st') u =
    if decide (u = table) then ops_of (r_pending st) table ++ map (fun k => PRemove (as_bytes k)) ks else ops_of (r_pending st) u.
Proof.
  revert st. induction ks as [|k ks IH]; intros st Hin Hnd; cbn [fold_left map].
  { split; [done|]. split; [done|]. intros u. case_decide; [subst; by rewrite app_nil_r|done]. }
  set (st1 := fst (redb_remove _ st)).
  assert (H1 : st1 = {| r_db := r_db st; r_in_transaction := true;
    r_pending := push_pending (r_pending st) table (PRemove (as_bytes k)) |}).
  { unfold st1, redb_remove, do_write. cbn. by rewrite Hin. }
  assert (Hp1 : r_pending st1 = push_pending (r_pending st) table (PRemove (as_bytes k))) by (by rewrite H1).
  assert (Hd1 : r_db st1 = r_db st) by (by rewrite H1).
  destruct (IH st1) as (Ha & Hb & Hc); [by rewrite H1|rewrite Hp1; by apply push_keys|].
  split; [congruence|]. split; [done|]. intros u. rewrite Hc, Hp1, !ops_of_push.
  rewrite (decide_True (P := table = table)) by done. case_decide; [by rewrite <- app_assoc|done].
Qed.

(** Writing a checkpoint and truncating the oplog is one step.  When it succeeds the
    checkpoint has its value, the oplog has lost exactly the rows with a key below the bound, and
    no other table changed; when it fails every table has the rows it had. *)
Theorem checkpoint_atomic d ck_table ck_key ck_val op_table bound :
  ck_table <> op_table ->
  match redb_atomic_checkpoint_truncate_oplog utf8_error d ck_table ck_key ck_val op_table bound with
  | (d', Ok _) =>
      table_rows (view d') ck_table = bt_insert (table_rows (view d) ck_table) (as_bytes ck_key) (as_bytes ck_val) /\
      table_rows (view d') op_table = List.filter (fun e => negb (below bound e)) (table_rows (view d) op_table) /\
      (forall t, t <> ck_table -> t <> op_table -> table_rows (view d') t = table_rows (view d) t)
  | (d', Err _) => forall t, table_rows (view d') t = table_rows (view d) t
  end.
Proof.
  intros Hne. unfold redb_atomic_checkpoint_truncate_oplog, on_db.
  pose proof (create_ran ck_table (open_session d) eq_refl) as Hran.
  destruct (redb_create_table ck_table (open_session d)) as [st1 [[]|e]]; cbn [ran] in Hran; [|by subst st1].
  destruct Hran as (_ & _ & Hv1).
  assert (Hrows : forall t, table_rows (view (r_db st1)) t = table_rows (view d) t).
  { intros t. rewrite Hv1. apply create_rows, view_ok. }
  unfold redb_begin_transaction.
  set (st2 := {| r_db := r_db st1; r_in_transaction := true;
                 r_pending := [(ck_table, [PInsert (as_bytes ck_key) (as_bytes ck_val)])] |}).
  match goal with |- context [redb_insert ?c ?st] => change (redb_insert c st) with (st2, Ok tt : result unit StorageError) end.
  cbv beta iota.
  change (reset (open_cursor op_table)) with (open_cursor op_table).
  rewrite (while_rows_fold st2 (key_below utf8_error bound) (below_row bound)).
  2:{ cbn. destruct (String.eqb_spec ck_table op_table); [done|done]. }
  2:{ intros acc c e Hk _. unfold key_below, below_row, redb_get_key_str, get_key_raw. by rewrite Hk. }
  destruct (rows_until (below_row bound) [] _) as [ks|e] eqn:Eks; [|exact Hrows].
  apply below_rows in Eks; [|apply table_or_empty_ok, view_ok]. cbn [map app r_db st2] in Eks.
  destruct (buffered_removes op_table ks st2 eq_refl) as (Hd3 & Hnd3 & Hops); [repeat constructor; intros []|].
  set (st3 := fold_left _ ks st2) in *.
  destruct (commit_spec st3 Hnd3) as (d' & [[]|e] & -> & Hr); cbn [map_err r_db open_session].
  - assert (Hfin : forall t, table_rows (view d') t = fold_left apply_op (ops_of (r_pending st3) t) (table_rows (view d) t)).
    { intros t. rewrite Hr. unfold session_rows. by rewrite Hd3, Hrows. }
    assert (Hck : forall u, ops_of (r_pending st2) u = if decide (u = ck_table) then [PInsert (as_bytes ck_key) (as_bytes ck_val)] else []).
    { intros u. unfold ops_of. cbn. destruct (String.eqb_spec ck_table u) as [->|]; [by rewrite decide_True|by rewrite decide_False by congruence]. }
    split; [|split].
    + rewrite Hfin, Hops, decide_False, Hck, decide_True by done. done.
    + rewrite Hfin, Hops, decide_True, Hck, decide_False by congruence. cbn [app].
      rewrite Hrows in Eks. apply (remove_keys (below bound)); [apply table_or_empty_ok, view_ok|done].
    + intros t H1 H2. by rewrite Hfin, Hops, decide_False, Hck, decide_False by done.
  - subst d'. intros t. by rewrite Hd3, Hrows.
Qed.
End Checkpoint.

(** ** A reference database, witnesses and behaviours worth recording *)

(** Tables in memory, behind the interface of the library; nothing fails. *)
Module RefRedb.
Definition tables : Type := { s : store | store_ok s }.

Definition put (t : tables) (n : string) (rows : TableStore) (H : bt_ok rows) : tables :=
  exist _ (bt_insert (proj1_sig t) n rows) (put_table_ok _ n _ (proj2_sig t) H).

Lemma create_ok (t : tables) n : store_ok (create_table (proj1_sig t) n).
Proof. apply (step_ok (proj1_sig t)); [constructor|apply proj2_sig]. Qed.

#[export] Instance ops : RedbOps := {|
  redb := tables;
  wtxn := tables;
  begin_write d := Ok d;
  w_open t n := Ok (exist _ (create_table (proj1_sig t) n) (create_ok t n));
  w_insert t n k v := Ok (put t n (bt_insert (table_rows (proj1_sig t) n) k v)
    (bt_insert_ok _ k v (table_or_empty_ok _ n (proj2_sig t))));
  w_remove t n k := Ok (put t n (bt_remove (table_rows (proj1_sig t) n) k)
    (bt_remove_ok _ k (table_or_empty_ok _ n (proj2_sig t))));
  w_rows t n := Ok (table_rows (proj1_sig t) n);
  w_delete_table t n := Ok (exist _ (bt_remove (proj1_sig t) n) (remove_table_ok _ n (proj2_sig t)));
  w_commit t := Ok t;
  read_rows_of d n := Ok (bt_get (proj1_sig d) n);
  read_key_of d n k := Ok (option_map (fun t => bt_get t k) (bt_get (proj1_sig d) n));
  read_tables d := Ok (list_tables (proj1_sig d)) |}.

#[export] Instance laws : RedbLaws ops.
Proof.
  refine {| view := @proj1_sig _ _ : redb -> store; tview := @proj1_sig _ _ : wtxn -> store |}; cbn.
  - intros d. apply proj2_sig.
  - by intros d t [= ->].
  - by intros t n t' [= <-].
  - by intros t n k v t' [= <-].
  - by intros t n k t' [= <-].
  - by intros t n l [= <-].
  - by intros t n t' [= <-].
  - by intros t d [= ->].
  - by intros d n r [= <-].
  - by intros d n k r [= <-].
  - by intros d l [= <-].
Defined.

Lemma nothing_ok : store_ok [].
Proof. split; [apply bt_nil_ok|done]. Qed.

Definition empty : redb := exist _ [] nothing_ok.
End RefRedb.

Section RedbWitness.
Import RefStd RefRedb.

Definition no_utf8 (_ : bytes) : string := "invalid utf-8 sequence".
Definition rows_in (d : redb) (t : string) : list (string * string) :=
  map (fun e => (string_of_list_byte (fst e), string_of_list_byte (snd e))) (table_rows (proj1_sig d) t).

(** A table with two rows, and a cursor that sets a third. *)
Definition letters : redb := fst (redb_kv_put (fst (redb_kv_put empty "t" "a" "1")) "t" "c" "3").
Definition put_b (name : string) : MemCursor := set_value_str (set_key_str (open_cursor name) "b") "2".

(** The body of a transaction: a row is set and one removed. *)
Definition two_writes (st : rstate) : rstate * result unit failure :=
  let '(st, _) := do_write (put_b "t") (PInsert (as_bytes "b") (as_bytes "2")) st in
  let '(st, _) := do_write (open_cursor "t") (PRemove (as_bytes "a")) st in
  (st, Ok tt).

Lemma two_writes_steps st : rtc cursor_step st (fst (two_writes st)).
Proof.
  unfold two_writes. pose proof (cursor_write (put_b "t") (PInsert (as_bytes "b") (as_bytes "2")) st) as H1.
  destruct (do_write (put_b "t") _ st) as [st1 r1]. pose proof (cursor_write (open_cursor "t") (PRemove (as_bytes "a")) st1) as H2.
  destruct (do_write (open_cursor "t") _ st1) as [st2 r2]. cbn [fst] in *. by eapply rtc_l, rtc_once.
Qed.


Lemma scan_sees_pending_witness :
  let st := fst (two_writes {| r_db := letters; r_in_transaction := true; r_pending := [] |}) in
  entries (fst (redb_materialize st (open_cursor "t"))) = Some (session_rows st "t").
Proof.
  intros st. change (Some (session_rows st "t")) with
    (Some (if r_in_transaction st then session_rows st "t" else table_rows (view (r_db st)) "t")).
  apply (scan_sees_pending st "t").
  - vm_compute. discriminate.
  - vm_compute. reflexivity.
Defined.

Lemma autocommit_refines_memory_witness :
  ran (open_session letters) (redb_insert (put_b "t") (open_session letters)) (Storage.insert (view letters) (put_b "t")).
Proof.
  exact (proj1 (autocommit_refines_memory (open_session letters) (put_b "t") "t" "t" "u" eq_refl (fun _ => eq_refl)) eq_refl eq_refl).
Defined.

Lemma reads_always (d : redb) n : exists r, read_rows_of d n = Ok r.
Proof. by eexists. Qed.

Lemma checkpoint_atomic_witness :
  exists d', redb_atomic_checkpoint_truncate_oplog no_utf8 letters "ck" "pos" "b" "t" "b" = (d', Ok tt) /\
    table_rows (view d') "ck" = [(as_bytes "pos", as_bytes "b")] /\
    table_rows (view d') "t" = [(as_bytes "c", as_bytes "3")].
Proof.
  pose proof (checkpoint_atomic no_utf8 reads_always letters "ck" "pos" "b" "t" "b" ltac:(discriminate)) as H.
  assert (Hok : is_ok (snd (redb_atomic_checkpoint_truncate_oplog no_utf8 letters "ck" "pos" "b" "t" "b")) = true)
    by (vm_compute; reflexivity).
  destruct (redb_atomic_checkpoint_truncate_oplog no_utf8 letters "ck" "pos" "b" "t" "b") as [d' [[]|e]]; [|discriminate Hok].
  exists d'. destruct H as (H1 & H2 & _). split; [reflexivity|]. split.
  - rewrite H1. vm_compute. reflexivity.
  - rewrite H2. vm_compute. reflexivity.
Defined.

(** Inside a transaction a search does not see the writes of the transaction, while a scan does. *)
Theorem search_misses_pending :
  let st := fst (two_writes {| r_db := letters; r_in_transaction := true; r_pending := [] |}) in
  let row k := Storage.set_key_str (open_cursor "t") k in
  snd (redb_search st (row "b")) = Err (NotFound "key not found") /\
  snd (redb_search st (row "a")) = Ok tt /\
  map fst (session_rows st "t") = [as_bytes "b"; as_bytes "c"].
Proof. vm_compute. split_and!; reflexivity. Qed.

(** The writes of a transaction to a table that does not exist are not seen by its scans. *)
Theorem scan_misses_new_table :
  let st := fst (redb_insert (put_b "new") {| r_db := letters; r_in_transaction := true; r_pending := [] |}) in
  snd (redb_next st (open_cursor "new")) = Err (NotFound "end of cursor") /\
  rows_in (r_db (fst (redb_commit_transaction st))) "new" = [("b", "2")].
Proof. vm_compute. split; reflexivity. Qed.

(** Beginning a transaction again drops what the first one wrote. *)
Theorem second_begin_drops_writes :
  let st := fst (redb_insert (put_b "t") {| r_db := letters; r_in_transaction := true; r_pending := [] |}) in
  rows_in (r_db (fst (redb_commit_transaction (fst (redb_begin_transaction st))))) "t" = rows_in letters "t".
Proof. vm_compute. reflexivity. Qed.

(** Renaming to an existing table adds the rows to it; the memory backend replaces it. *)
Theorem rename_merges :
  let d := fst (redb_kv_put letters "u" "z" "26") in
  rows_in (r_db (fst (redb_rename_table "t" "u" (open_session d)))) "u" = [("a", "1"); ("c", "3"); ("z", "26")] /\
  table_rows (fst (rename_table (view d) "t" "u")) "u" = table_rows (view d) "t".
Proof. vm_compute. split; reflexivity. Qed.

(** Renaming a table that does not exist succeeds and creates the target: opening a table in a
    write transaction creates it. *)
Theorem rename_of_missing_succeeds :
  let '(st, r) := redb_rename_table "none" "u" (open_session letters) in
  r = Ok tt /\ list_tables (view (r_db st)) = ["t"; "u"].
Proof. vm_compute. split; reflexivity. Qed.
End RedbWitness.
