(* ===== verification/Find.v ===== *)
(** * Finding documents

    [src/rust/smongo-engine/src/collection/exec.rs] (the dispatch over plans, the
    bitmap and text scans), [geo_find/native.rs] (the scans of a 2dsphere
    index), [cursor.rs] (the lazy cursor), the find operations of [crud.rs] and
    the pipeline over a collection of [aggregate.rs].

    The vector index is a parameter, as are the cell ranges and the caps of the
    [s2] crate. *)

From Stdlib Require Import ZArith Lia Ascii String Strings.Byte Permutation Sorted.
From S2P Require Import F32 Hnsw HnswExact VectorIndex VectorSearch.
From S2P Require Import Prelude F64 Bson RefBson Paths Geo Query Update BTree Storage IndexKey.
From S2P Require Import Planner Schema Collation Expressions Accumulators Stages StageLaws Joins GeoNear Pipeline.
From S2P Require Import Oplog Collection Exec SearchIndexes TextIndex Consistency.
From stdpp Require Import base tactics list strings gmap.

Open Scope string_scope.
Open Scope list_scope.

(** The caps of the [s2] crate, by the cells of [cell_union_bound]: of
    [Cap::from(&p)], of [Cap::from_center_angle] and of [Cap::full()]; and
    [CellID::range_min], [CellID::range_max]. *)
Class S2Cap `{G : S2} : Type := {
  cap_of_point : s2_point -> list Z;
  cap_of_angle : s2_point -> f64 -> list Z;
  cap_full : list Z;
  range_min : Z -> Z;
  range_max : Z -> Z }.

(** [for x in set] of a [HashSet<String>]. *)
Definition set_order `{StdEnv} (l : list string) : list string := map fst (hash_order (map (fun s => (s, tt)) l)).

(** [set.insert(x)], on the elements in the order of their first insertion. *)
Definition set_add (l : list string) (x : string) : list string :=
  if existsb (String.eqb x) l then l else l ++ [x].

Section Find.
Context {B : BsonOps} {Lm : Libm} {G : S2} {C : S2Cap} {T : TextEnv} {K : Clock}
  {J : JsonOps} {N : OplogEnv} {FP : F64Parse} {E : CollEnv} {A : AggEnv} {SE : StdEnv} {Ln : LnOps}
  (index_chars : string -> bool).
#[local] Existing Instance engine.

(** ** Geospatial scans *)

(** Source: geo/s2_util.rs:49-64 (query_cap_covering). *)
Definition query_cap_covering (lon_deg lat_deg : f64) (max_distance_m : option f64) : list Z :=
  let p := point_of_lonlat lon_deg lat_deg in
  match max_distance_m with
  | Some max_m =>
      if f64_leb max_m f64_zero then cap_of_point p
      else
        let ratio := f64_div max_m EARTH_RADIUS_METERS in
        cap_of_angle p (if f64_ltb ratio f64_pi then ratio else f64_pi)
  | None => cap_full
  end.

Section Coll.
Context (self : Collection).

(** Source: collection/geo_find/native.rs:42-63 (collect_ids_geo_cells). One entry of the index,
    for the range of a cell. *)
Definition geo_row (rmin rmax : Z) (seen : list string) (c : MemCursor)
  : result (next_move (list string)) failure :=
  let? key_str := storage_failure (get_key_str utf8_err c) in
  match index_key_cell_id key_str with
  | None => Ok (GoOn seen c)
  | Some cid =>
      if (cid <? rmin)%Z then Ok (GoOn seen c)
      else if (rmax <? cid)%Z then Ok (Stop seen)
      else let? doc_id := value_str c in Ok (GoOn (set_add seen doc_id) c)
  end.

(** Source: collection/geo_find/native.rs:15-67 (collect_ids_geo_cells). *)
Definition collect_ids_geo_cells (s : store) (index_name : string) (cell_u64s : list Z)
  : result (list string) failure :=
  fold_result (fun seen raw =>
    let rmin := range_min raw in
    let rmax := range_max raw in
    match seek s (set_key_str (open_cursor (index_table self index_name)) (cell_key_prefix_u64 rmin)) with
    | None => Ok seen
    | Some c => read_from_here s seen c (geo_row rmin rmax)
    end) [] cell_u64s.

(** Source: collection/geo_find/native.rs:86-110 (materialize_geo_plan). One candidate of [$near]. *)
Definition near_candidate (s : store) (filter : document) (field : string) (lon lat : f64)
  (max_distance_m min_distance_m : option f64) (scored : list (f64 * document)) (id : string)
  : result (list (f64 * document)) failure :=
  let? found := fetch_doc_by_id_str self s id in
  match found with
  | None => Ok scored
  | Some doc =>
      let? matches := eval_filter doc filter in
      if negb (matches : bool) then Ok scored
      else
        match extract_lon_lat (get_value doc field) with
        | None => Ok scored
        | Some (dlon, dlat) =>
            let d := haversine_meters lon lat dlon dlat in
            if match min_distance_m with Some m => f64_ltb d m | None => false end then Ok scored
            else if match max_distance_m with Some m => f64_ltb m d | None => false end then Ok scored
            else Ok (scored ++ [(d, doc)])
        end
  end.

(** Source: collection/geo_find/native.rs:125-132 (materialize_geo_plan). Also lines 142-149, and
    lines 497-503 of [collect_bitmap_scan] in [exec.rs]. *)
Definition fetch_matching (s : store) (filter : document) (ids : list string) : result (list document) failure :=
  fold_result (fun out id =>
    let? found := fetch_doc_by_id_str self s id in
    match found with
    | None => Ok out
    | Some doc =>
        let? matches := eval_filter doc filter in
        Ok (if (matches : bool) then out ++ [doc] else out)
    end) [] ids.

(** Source: collection/geo_find/native.rs:69-154 (materialize_geo_plan). The ids are visited in the
    order of the [HashSet]. *)
Definition materialize_geo_plan (s : store) (plan : ExecutionPlan) (filter : document)
  : result (list document) failure :=
  match plan with
  | GeoNear index_name field lon lat max_distance_m min_distance_m =>
      let? ids := collect_ids_geo_cells s index_name (query_cap_covering lon lat max_distance_m) in
      let? scored := fold_result (near_candidate s filter field lon lat max_distance_m min_distance_m) []
                       (set_order ids) in
      Ok (map snd (sort_by (fun a b => f64_cmp_or_eq (fst a) (fst b)) scored))
  | GeoCapWithin index_name _ lon lat radius_m =>
      let? ids := collect_ids_geo_cells s index_name (query_cap_covering lon lat (Some radius_m)) in
      fetch_matching s filter (set_order ids)
  | GeoCellCover index_name _ cell_ids =>
      let? ids := collect_ids_geo_cells s index_name cell_ids in
      fetch_matching s filter (set_order ids)
  | _ => Err (Fail (COther "internal: not a geospatial execution plan"))
  end.

(** ** Bitmap, text and vector scans *)

(** Source: collection/exec.rs:452-464 (collect_bitmap_scan). *)
Definition load_bitmap (s : store) (index_name : string) : result BitmapIndex failure :=
  read_rows s Bitmap.new (open_cursor (index_table self index_name)) (fun bitmap c =>
    let? key_raw := storage_failure (get_key_raw c) in
    let? id_str := value_str c in
    Ok (GoOn (Bitmap.insert bitmap id_str key_raw) c)).

(** Source: collection/exec.rs:466-473 (collect_bitmap_scan). The bytes a scalar is looked up by. *)
Definition bitmap_key (v : bson) : option bytes :=
  match v with
  | BString s => Some (as_bytes s)
  | BInt32 n => Some (be_bytes 4 n)
  | BInt64 n => Some (be_bytes 8 n)
  | BBoolean b => Some [if b then x01 else x00]
  | _ => None
  end.

(** Source: collection/exec.rs:466-494 (collect_bitmap_scan). [None]: no lookup is possible. *)
Definition bitmap_positions (bitmap : BitmapIndex) (value : option bson) : option (list Z) :=
  match value with
  | None => None
  | Some v =>
      match bitmap_key v with
      | Some sb => Some (Bitmap.lookup bitmap sb)
      | None =>
          match v with
          | BDocument d =>
              match doc_get d "$in" with
              | Some (BArray arr) =>
                  Some (Bitmap.lookup_in bitmap
                    (omap (fun v => match v with BBoolean _ => None | _ => bitmap_key v end) arr))
              | _ => None
              end
          | _ => None
          end
      end
  end.

(** Source: collection/exec.rs:437-505 (collect_bitmap_scan). *)
Definition collect_bitmap_scan (s : store) (filter : document) (index_name field : string)
  : result (list document) failure :=
  let? bitmap := load_bitmap s index_name in
  match bitmap_positions bitmap (doc_get filter field) with
  | None => collect_collection_scan self s filter
  | Some positions => fetch_matching s filter (Bitmap.positions_to_ids bitmap positions)
  end.

(** Source: collection/exec.rs:573-580 (collect_text_index_scan). *)
Definition search_text (filter : document) : option string :=
  match doc_get filter "$text" with
  | Some (BDocument td) => match doc_get td "$search" with Some (BString s) => Some s | _ => None end
  | Some (BString s) => Some s
  | _ => None
  end.

(** The documents whose identifier is in a set. *)
Definition keep_ids (ids : list string) (keep : document -> result bool failure) (docs : list document)
  : result (list document) failure :=
  fold_result (fun out doc =>
    let? id_str := extract_id_string doc in
    if existsb (String.eqb id_str) ids then
      let? k := keep doc in Ok (if (k : bool) then out ++ [doc] else out)
    else Ok out) [] docs.

(** Source: collection/exec.rs:565-605 (collect_text_index_scan). *)
Definition collect_text_index_scan (s : store) (filter : document) (fields : list string)
  : result (list document) failure :=
  match search_text filter with
  | None => collect_collection_scan self s filter
  | Some text =>
      let? all_docs := collect_collection_scan self s [] in
      let text_idx := Text.build all_docs fields None in
      let id_set := map fst (Text.search text_idx text None) in
      let non_text_filter := List.filter (fun '(k, _) => negb (k =s? "$text")) filter in
      keep_ids id_set (fun doc => match non_text_filter with
                                  | [] => Ok true
                                  | _ => eval_filter doc non_text_filter
                                  end) all_docs
  end.

(** Source: collection/exec.rs:608-652 (collect_vector_index_search). *)
Definition collect_vector_index_search (s : store) (filter : document) (field : string) (dimensions : Z)
  (metric : string) (ef_construction m : option Z) (indexing_method : string)
  : result (list document) failure :=
  match extract_vector_query filter field with
  | None => collect_collection_scan self s filter
  | Some query =>
      let? all_docs := collect_collection_scan self s [] in
      let? id_set := map_err Unwind
        (nearest_ids all_docs query field dimensions metric ef_construction m indexing_method) in
      keep_ids id_set (fun _ => Ok true) all_docs
  end.

(** ** The dispatch *)

(** Source: collection/exec.rs:83-93 (execute_plan). The documents of one subplan of [$or]. *)
Definition add_distinct (acc : list string * list document) (doc : document)
  : result (list string * list document) failure :=
  let '(seen, out) := acc in
  let? id_str := extract_id_string doc in
  if existsb (String.eqb id_str) seen then Ok (seen, out) else Ok (seen ++ [id_str], out ++ [doc]).

(** Source: collection/exec.rs:17-96 (execute_plan). *)
Fixpoint execute_plan (s : store) (plan : ExecutionPlan) (filter : document)
  : result (list document) failure :=
  match plan with
  | CollectionScan => collect_collection_scan self s filter
  | IndexScan index_name _ => collect_index_scan self s filter index_name
  | IndexSeek index_name index_keys seek_values =>
      collect_index_seek self s filter index_name index_keys seek_values
  | CoveringIndexScan index_name index_keys seek_values projection =>
      collect_covering_index_scan index_chars self s filter index_name index_keys seek_values projection
  | SortedIndexScan index_name _ limit _ => collect_sorted_index_scan self s filter index_name limit
  | BitmapScan index_name field => collect_bitmap_scan s filter index_name field
  | PrefixIndexScan index_name index_keys prefix_length =>
      collect_prefix_index_scan self s filter index_name index_keys prefix_length
  | TextIndexScan _ fields => collect_text_index_scan s filter fields
  | VectorIndexSearch _ field dimensions metric ef_construction m indexing_method =>
      collect_vector_index_search s filter field dimensions metric ef_construction m indexing_method
  | GeoNear _ _ _ _ _ _ | GeoCapWithin _ _ _ _ _ | GeoCellCover _ _ _ => materialize_geo_plan s plan filter
  | OrUnionPlans subplans =>
      let? acc := fold_result (fun acc sub =>
        let? docs := execute_plan s sub filter in fold_result add_distinct acc docs) ([], []) subplans in
      Ok (snd acc)
  end.

(** ** The lazy cursor *)

(** Source: collection/cursor.rs:8-27 (FindCursorState). *)
Inductive FindCursorState : Type :=
| CollectionScanState (cursor : MemCursor)
| IndexScanState (index_cursor data_cursor : MemCursor)
| IndexSeekState (index_cursor data_cursor : MemCursor) (seek_key : bytes) (positioned : bool)
| Materialized (docs : list document) (next_ix : nat).

(** What an iteration of the loop of [find_cursor_next] ends with. *)
Inductive outcome : Type :=
| Again (state : FindCursorState)
| Done (state : FindCursorState) (item : option (result document failure)).

(** Source: collection/cursor.rs:91-98 (find_cursor_next). Also lines 122-130 and 179-187. *)
Definition answer (filter : document) (state : FindCursorState) (doc : result document failure) : outcome :=
  match doc with
  | Err e => Done state (Some (Err e))
  | Ok doc =>
      match eval_filter doc filter with
      | Ok true => Done state (Some (Ok doc))
      | Ok false => Again state
      | Err e => Done state (Some (Err e))
      end
  end.

(** Source: collection/cursor.rs:107-130 (find_cursor_next). The document an entry of an index
    points to; also lines 163-187. [put] puts the data cursor back in the state. *)
Definition entry_answer (s : store) (filter : document) (index_cursor data_cursor : MemCursor)
  (put : MemCursor -> FindCursorState) : outcome :=
  match value_str index_cursor with
  | Err e => Done (put data_cursor) (Some (Err e))
  | Ok id_str =>
      match Storage.search s (set_key_str data_cursor id_str) with
      | (data_cursor, Err _) => Again (put data_cursor)
      | (data_cursor, Ok _) => answer filter (put data_cursor) (current_doc data_cursor)
      end
  end.

(** Source: collection/cursor.rs:145-156 (find_cursor_next). *)
Definition seek_next (s : store) (index_cursor : MemCursor) (seek_key : bytes) (positioned : bool)
  : MemCursor * bool :=
  if negb positioned then
    match search_near s (set_key_raw index_cursor seek_key) with
    | (c, Err _) => (c, false)
    | (c, Ok exact) =>
        if (exact <? 0)%Z then
          match Storage.next s c with (c, Err _) => (c, false) | (c, Ok _) => (c, true) end
        else (c, true)
    end
  else match Storage.next s index_cursor with (c, Err _) => (c, false) | (c, Ok _) => (c, true) end.

(** Source: collection/cursor.rs:81-189 (find_cursor_next). One iteration of the loop. *)
Definition find_step (s : store) (filter : document) (state : FindCursorState) : outcome :=
  match state with
  | CollectionScanState cursor =>
      match Storage.next s cursor with
      | (cursor, Err _) => Done (CollectionScanState cursor) None
      | (cursor, Ok _) => answer filter (CollectionScanState cursor) (current_doc cursor)
      end
  | IndexScanState index_cursor data_cursor =>
      match Storage.next s index_cursor with
      | (index_cursor, Err _) => Done (IndexScanState index_cursor data_cursor) None
      | (index_cursor, Ok _) => entry_answer s filter index_cursor data_cursor (IndexScanState index_cursor)
      end
  | Materialized docs next_ix =>
      match docs !! next_ix with
      | Some doc => Done (Materialized docs (next_ix + 1)) (Some (Ok doc))
      | None => Done state None
      end
  | IndexSeekState index_cursor data_cursor seek_key positioned =>
      let '(index_cursor, found) := seek_next s index_cursor seek_key positioned in
      let put data_cursor := IndexSeekState index_cursor data_cursor seek_key true in
      if negb found then Done (put data_cursor) None
      else
        match storage_failure (get_key_raw index_cursor) with
        | Err e => Done (put data_cursor) (Some (Err e))
        | Ok index_key_raw =>
            if negb (bytes_prefix seek_key index_key_raw) then Done (put data_cursor) None
            else entry_answer s filter index_cursor data_cursor put
        end
  end.

(** The rows the cursor of a state goes over: an iteration that goes on has consumed one. *)
Definition state_rows (s : store) (state : FindCursorState) : nat :=
  match state with
  | CollectionScanState c | IndexScanState c _ => length (cursor_rows s c)
  | IndexSeekState c _ _ positioned =>
      length (cursor_rows s (if positioned then c else clear_entries c))
  | Materialized docs _ => length docs
  end.

Fixpoint find_loop (fuel : nat) (s : store) (filter : document) (state : FindCursorState)
  : FindCursorState * option (result document failure) :=
  match fuel with
  | O => (state, None)
  | S fuel' =>
      match find_step s filter state with
      | Again state => find_loop fuel' s filter state
      | Done state item => (state, item)
      end
  end.

(** Source: collection/cursor.rs:77-191 (find_cursor_next). Each iteration that goes on moves the
    cursor by a row, so that the rows bound the iterations ([find_cursor_next_spec]). *)
Definition find_cursor_next (s : store) (state : FindCursorState) (filter : document)
  : FindCursorState * option (result document failure) :=
  find_loop (S (state_rows s state)) s filter state.

(** [iter.collect::<Result<Vec<_>, _>>()]: stops at the first error. *)
Fixpoint collect_loop (fuel : nat) (s : store) (filter : document) (state : FindCursorState)
  (out : list document) : result (list document) failure :=
  match fuel with
  | O => Ok out
  | S fuel' =>
      match find_cursor_next s state filter with
      | (_, None) => Ok out
      | (_, Some (Err e)) => Err e
      | (state, Some (Ok doc)) => collect_loop fuel' s filter state (out ++ [doc])
      end
  end.

Definition collect_cursor (s : store) (filter : document) (state : FindCursorState)
  : result (list document) failure :=
  collect_loop (S (state_rows s state)) s filter state [].

(** ** Find operations *)

(** Source: collection/crud.rs:154-202 (find_iter). Also lines 227-274 of [find_into_iter]. *)
Definition find_iter (filter : document) : M FindCursorState :=
  let! indexes := list_indexes self in
  let plan := plan_query filter indexes in
  match execution_plan plan with
  | IndexSeek index_name index_keys seek_values =>
      ret (IndexSeekState (open_cursor (index_table self index_name)) (cursor self)
             (build_seek_prefix index_keys seek_values) false)
  | IndexScan index_name _ =>
      ret (IndexScanState (open_cursor (index_table self index_name)) (cursor self))
  | CollectionScan => ret (CollectionScanState (cursor self))
  | plan => fun st =>
      (st, let? docs := execute_plan (cs_store st) plan filter in Ok (Materialized docs 0))
  end.

(** Source: collection/crud.rs:213-215 (find). *)
Definition find (filter : document) : M (list document) :=
  let! state := find_iter filter in
  fun st => (st, collect_cursor (cs_store st) filter state).

(** Source: collection/crud.rs:126-146 (find_one). *)
Definition find_one (filter : document) : M (option document) :=
  let! indexes := list_indexes self in
  let plan := plan_query filter indexes in
  fun st =>
    let s := cs_store st in
    (st, match execution_plan plan with
         | IndexSeek index_name index_keys seek_values =>
             find_one_with_index_seek self s filter index_name index_keys seek_values
         | IndexScan index_name _ => find_one_with_index_scan self s filter index_name
         | CollectionScan => find_one_with_collection_scan self s filter
         | plan => let? docs := execute_plan s plan filter in Ok (head docs)
         end).

(** Source: collection/mod.rs:191-196 (FindOptions). *)
Record FindOptions : Type := {
  sort : option document; skip : option Z; limit : option Z; projection : option document }.

(** [.map_err(|e| CollectionError::Other(e.to_string()))]. *)
Definition stage_failure {R} (r : result R agg_failure) : result R failure :=
  map_err (fun e => raise COther (agg_failure_text e)) r.

(** Source: collection/crud.rs:299-330 (find_with_options). The stages after the plan. *)
Definition apply_options (options : FindOptions) (plan : ExecutionPlan) (docs : list document)
  : result (list document) failure :=
  let skip_post_sort := match plan with SortedIndexScan _ _ _ _ => true | _ => false end in
  let? docs := match skip_post_sort, sort options with
               | false, Some sort_doc => stage_failure (stage_sort docs (BDocument sort_doc))
               | _, _ => Ok docs
               end in
  let? docs := match skip options with
               | Some n => if (0 <? n)%Z then stage_failure (stage_skip docs (BInt64 n)) else Ok docs
               | None => Ok docs
               end in
  let? docs := match skip_post_sort, limit options with
               | false, Some n => if (0 <? n)%Z then stage_failure (stage_limit docs (BInt64 n)) else Ok docs
               | _, _ => Ok docs
               end in
  match projection options with
  | Some proj_doc => stage_failure (stage_project docs (BDocument proj_doc))
  | None => Ok docs
  end.

(** Source: collection/crud.rs:281-331 (find_with_options). *)
Definition find_with_options (filter : document) (options : FindOptions) : M (list document) :=
  let! indexes := list_indexes self in
  let plan := plan_query_full filter indexes (projection options) (sort options) (limit options) in
  fun st =>
    (st, let? docs := execute_plan (cs_store st) (execution_plan plan) filter in
         apply_options options (execution_plan plan) docs).

(** Source: collection/crud.rs:334-349 (find_one_with_options). *)
Definition find_one_with_options (filter : document) (options : FindOptions) : M (option document) :=
  let! docs := find_with_options filter
    {| sort := sort options; skip := skip options; limit := Some 1%Z; projection := projection options |} in
  ret (head docs).

(** ** The pipeline over a collection *)

Context (stack : nat).

(** [.map_err(|e| CollectionError::Other(format!("Aggregation error: {}", e)))]. *)
Definition aggregation_failure {R} (r : result R agg_failure) : result R failure :=
  map_err (fun e => raise (fun m => COther ("Aggregation error: " ++ m)%string) (agg_failure_text e)) r.

(** Source: collection/aggregate.rs:27-40 (aggregate_stream). *)
Definition coll_aggregate_stream (pipeline : list document) : M DocStream :=
  let '(leading_match, remaining_pipeline) := optimize_pipeline pipeline in
  let! docs := find (match leading_match with Some filter => filter | None => [] end) in
  lift (aggregation_failure (aggregate_stream stack docs remaining_pipeline)).

(** Source: collection/aggregate.rs:62-67 (aggregate). *)
Definition coll_aggregate (pipeline : list document) : M (list document) :=
  let! stream := coll_aggregate_stream pipeline in
  lift (aggregation_failure (collect stream)).
End Coll.
End Find.

(** ** What the cursor yields *)

Section Cursors.
Context {B : BsonOps} {Lm : Libm} {G : S2} {C : S2Cap} {T : TextEnv} {K : Clock}
  {J : JsonOps} {N : OplogEnv} {FP : F64Parse} {E : CollEnv} {A : AggEnv} {SE : StdEnv} {Ln : LnOps}
  (self : Collection).
#[local] Existing Instance engine.

(** What a row of the collection, and an entry of an index, gives: nothing, a document or an error. *)
Definition pick_doc (filter doc : document) : option (result document failure) :=
  match eval_filter doc filter with
  | Ok true => Some (Ok doc)
  | Ok false => None
  | Err e => Some (Err e)
  end.

Definition pick_row (filter : document) (e : bytes * bytes) : option (result document failure) :=
  match deserialize_document (snd e) with
  | Err err => Some (Err err)
  | Ok doc => pick_doc filter doc
  end.

Definition pick_entry (s : store) (filter : document) (e : bytes * bytes) : option (result document failure) :=
  match storage_failure (from_utf8 utf8_err (snd e) "value") with
  | Err err => Some (Err err)
  | Ok id_str =>
      match fetch_doc_by_id_str self s id_str with
      | Err err => Some (Err err)
      | Ok None => None
      | Ok (Some doc) => pick_doc filter doc
      end
  end.

Definition pick (s : store) (filter : document) (state : FindCursorState) : bytes * bytes -> option (result document failure) :=
  match state with
  | CollectionScanState _ => pick_row filter
  | _ => pick_entry s filter
  end.

(** The rows a cursor has not visited. *)
Definition ahead (s : store) (c : MemCursor) : TableStore :=
  drop (match position (materialize s c) with Some p => (p + 1)%nat | None => O end) (cursor_rows s c).

Definition remaining (s : store) (state : FindCursorState) : TableStore :=
  match state with
  | CollectionScanState c | IndexScanState c _ => ahead s c
  | IndexSeekState c _ p true => take_while (has_prefix p) (ahead s c)
  | IndexSeekState c _ p false => List.filter (has_prefix p) (table_rows s (table_name c))
  | Materialized _ _ => []
  end.

(** The states of a cursor over the collection or one of its indexes. *)
Definition state_ok (state : FindCursorState) : Prop :=
  match state with
  | CollectionScanState _ => True
  | IndexScanState _ d | IndexSeekState _ d _ true => table_name d = coll_table self
  | IndexSeekState c d _ false => table_name d = coll_table self /\ exists name, c = open_cursor name
  | Materialized _ _ => False
  end.

(** [state'] follows [state] once its next row is consumed. *)
Definition follows (state' state : FindCursorState) (rest : TableStore) : Prop :=
  state_ok state' /\ (forall s, remaining s state' = rest) /\
  (forall s filter, pick s filter state' = pick s filter state) /\
  forall s, (length rest <= state_rows s state')%nat.

Lemma next_ahead s c :
  match ahead s c with
  | [] => exists c' e, Storage.next s c = (c', Err e) /\ forall s', ahead s' c' = []
  | e :: rest => exists c', Storage.next s c = (c', Ok tt) /\ current_key c' = Some (fst e) /\
      current_value c' = Some (snd e) /\
      forall s', ahead s' c' = rest /\ (length rest <= length (cursor_rows s' c'))%nat
  end.
Proof.
  unfold ahead, cursor_rows, Storage.next. set (m := materialize s c).
  assert (Hm : exists rows, Storage.entries m = Some rows) by (unfold m, materialize; destruct (Storage.entries c) eqn:Ec; eauto).
  destruct Hm as [rows Hr]. rewrite Hr. set (p := match position m with Some p => (p + 1)%nat | None => O end).
  destruct (rows !! p) as [e|] eqn:Ee.
  - rewrite (drop_S _ _ _ Ee). eexists. split; [done|]. split; [done|]. split; [done|]. intros s'.
    unfold materialize. cbn [Storage.entries position]. replace (p + 1)%nat with (S p) by lia.
    split; [done|]. rewrite length_drop. lia.
  - apply lookup_ge_None in Ee. rewrite drop_ge by done. exists m, (NotFound "end of cursor"). split; [done|].
    intros s'. unfold materialize. rewrite Hr, Hr. fold p. by apply drop_ge.
Qed.

Lemma answer_pick filter state doc :
  answer filter state (Ok doc) =
  match pick_doc filter doc with Some r => Done state (Some r) | None => Again state end.
Proof. unfold answer, pick_doc. by destruct (eval_filter doc filter) as [[]|]. Qed.

Lemma search_set_key s c id :
  Storage.search s (set_key_str c id) =
  match bt_get s (table_name c) with
  | None => (set_key_str c id, Err (NotFound "table does not exist"))
  | Some t => match bt_get t (as_bytes id) with
              | Some v => (set_current (set_key_str c id) (as_bytes id) v, Ok tt)
              | None => (set_key_str c id, Err (NotFound "key not found"))
              end
  end.
Proof. done. Qed.

Lemma entry_answer_pick s filter c d put e :
  table_name d = coll_table self -> current_value c = Some (snd e) ->
  exists d', table_name d' = coll_table self /\
  entry_answer s filter c d put =
  match pick_entry s filter e with Some r => Done (put d') (Some r) | None => Again (put d') end.
Proof.
  intros Hd Hv. unfold entry_answer, value_str, get_value_str, get_value_raw, pick_entry. rewrite Hv. cbn [ok_or].
  destruct (storage_failure _) as [id|]; [|by exists d]. unfold fetch_doc_by_id_str.
  rewrite !search_set_key, Hd. change (table_name (cursor self)) with (coll_table self).
  destruct (bt_get s (coll_table self)) as [t|]; [|by exists (set_key_str d id)].
  destruct (bt_get t (as_bytes id)) as [v|]; [|by exists (set_key_str d id)].
  eexists. split; [|unfold current_doc; cbn [get_value_raw set_current current_value ok_or map_err]].
  2: { cbn. destruct (deserialize_document v); [apply answer_pick|done]. }
  done.
Qed.

Lemma find_step_spec s filter state :
  store_ok s -> state_ok state ->
  match remaining s state with
  | [] => exists state', find_step s filter state = Done state' None
  | e :: rest => exists state', follows state' state rest /\
      find_step s filter state =
      match pick s filter state e with Some r => Done state' (Some r) | None => Again state' end
  end.
Proof.
  intros Hs Hok. destruct state as [c|c d|c d p []|]; [| | | |done]; cbn [remaining state_ok find_step pick] in *.
  - pose proof (next_ahead s c) as H. destruct (ahead s c) as [|e rest]; [destruct H as (c' & e & -> & _); eauto|].
    destruct H as (c' & -> & _ & Hv & Hrest). exists (CollectionScanState c'). split.
    + split_and!; [done|apply Hrest|done|apply Hrest].
    + unfold pick_row, current_doc, get_value_raw. rewrite Hv. cbn.
      destruct (deserialize_document (snd e)); [apply answer_pick|done].
  - pose proof (next_ahead s c) as H. destruct (ahead s c) as [|e rest]; [destruct H as (c' & e & -> & _); eauto|].
    destruct H as (c' & -> & _ & Hv & Hrest).
    destruct (entry_answer_pick s filter c' d (IndexScanState c') e Hok Hv) as (d' & Hd' & ->).
    exists (IndexScanState c' d'). split; [|done]. split_and!; [done|apply Hrest|done|apply Hrest].
  - cbn [seek_next negb]. pose proof (next_ahead s c) as H.
    destruct (ahead s c) as [|e rest]; [destruct H as (c' & e & -> & _); cbn; eauto|].
    destruct H as (c' & -> & Hk & Hv & Hrest). cbn [negb take_while]. unfold get_key_raw. rewrite Hk. cbn [ok_or storage_failure map_err].
    fold (has_prefix p e). destruct (has_prefix p e); cbn [negb]; [|eauto].
    destruct (entry_answer_pick s filter c' d (fun d => IndexSeekState c' d p true) e Hok Hv) as (d' & Hd' & ->).
    exists (IndexSeekState c' d' p true). split; [|done]. split_and!; [done| |done|].
    + intros s'. cbn [remaining]. by rewrite (proj1 (Hrest s')).
    + intros s'. cbn [state_rows]. etransitivity; [|apply (Hrest s')]. clear. induction rest as [|x l IH]; simpl; [lia|].
      destruct (has_prefix p x); simpl; lia.
  - destruct Hok as [Hd [name ->]]. change (table_name (open_cursor name)) with name.
    assert (Hseek : exists c', seek_next s (open_cursor name) p false =
      match seek s (set_key_raw (open_cursor name) p) with Some c' => (c', true) | None => (c', false) end).
    { unfold seek_next, seek. cbn [negb]. destruct (search_near s _) as [c1 [exact|]]; [|by eexists].
      destruct (exact <? 0)%Z; [|by eexists]. destruct (Storage.next s c1) as [c2 []]; by eexists. }
    destruct Hseek as [c0 ->]. pose proof (seek_spec s name p Hs) as H. cbv zeta in H.
    destruct (seek s _) as [c'|]; [|rewrite H; cbn; eauto].
    destruct H as (i & e & (Hr & Hp & He & Hk & Hv) & ->). rewrite (drop_S _ _ _ He). cbn [negb take_while].
    unfold get_key_raw. rewrite Hk. cbn [ok_or storage_failure map_err]. fold (has_prefix p e).
    destruct (has_prefix p e); cbn [negb]; [|eauto].
    destruct (entry_answer_pick s filter c' d (fun d => IndexSeekState c' d p true) e Hd Hv) as (d' & Hd' & ->).
    exists (IndexSeekState c' d' p true). split; [|done].
    assert (Ha : forall s', ahead s' c' = drop (S i) (table_rows s name) /\ cursor_rows s' c' = table_rows s name).
    { intros s'. unfold ahead, cursor_rows, materialize. rewrite Hr, Hp, Hr. by replace (i + 1)%nat with (S i) by lia. }
    split_and!; [done| |done|].
    + intros s'. cbn [remaining]. by rewrite (proj1 (Ha s')).
    + intros s'. cbn [state_rows]. rewrite (proj2 (Ha s')). etransitivity; [|apply (Nat.le_sub_l _ (S i))].
      rewrite <- length_drop. clear. induction (drop _ _) as [|x l IH]; simpl; [lia|].
      destruct (has_prefix p x); simpl; lia.
Qed.

(** The first row that gives something, and the rows after it. *)
Fixpoint first_pick (f : bytes * bytes -> option (result document failure)) (rows : TableStore)
  : option (result document failure * TableStore) :=
  match rows with
  | [] => None
  | e :: rest => match f e with Some r => Some (r, rest) | None => first_pick f rest end
  end.

Lemma first_pick_rest f rows r rest : first_pick f rows = Some (r, rest) -> (length rest < length rows)%nat.
Proof.
  induction rows as [|e rows IH]; [done|]. simpl. destruct (f e); [intros [= _ <-]; lia|]. intros H. specialize (IH H). lia.
Qed.

Lemma find_loop_spec fuel s filter state :
  store_ok s -> state_ok state -> (length (remaining s state) < fuel)%nat ->
  match first_pick (pick s filter state) (remaining s state) with
  | None => snd (find_loop fuel s filter state) = None
  | Some (r, rest) => exists state', find_loop fuel s filter state = (state', Some r) /\ follows state' state rest
  end.
Proof.
  intros Hs. revert state. induction fuel as [|fuel IH]; intros state Hok Hf; [lia|].
  pose proof (find_step_spec s filter state Hs Hok) as Hstep. cbn [find_loop].
  destruct (remaining s state) as [|e rest]; [by destruct Hstep as [state' ->]|].
  destruct Hstep as (state' & Hfo & ->). cbn [first_pick]. destruct (pick s filter state e); [eauto|].
  destruct Hfo as (Hok' & Hrem & Hpick & _). specialize (IH state' Hok'). rewrite Hrem, Hpick in IH.
  specialize (IH ltac:(simpl in Hf; lia)). destruct (first_pick _ rest) as [[r rest']|]; [|done].
  destruct IH as (state2 & -> & Hok2 & Hrem2 & Hpick2 & Hlen2). exists state2. split; [done|].
  split_and!; try done. intros s' f. by rewrite Hpick2.
Qed.

Lemma rows_bound s state : (length (remaining s state) <= state_rows s state)%nat.
Proof.
  destruct state as [c|c d|c d p []|]; cbn [remaining state_rows]; try (unfold ahead; rewrite length_drop; lia); [| |simpl; lia].
  - transitivity (length (ahead s c)); [|unfold ahead; rewrite length_drop; lia].
    induction (ahead s c) as [|x l IH]; simpl; [lia|]. destruct (has_prefix p x); simpl; lia.
  - apply List.filter_length_le.
Qed.

(** One call of [next]: the first row ahead that gives something. *)
Lemma find_cursor_next_spec s state filter :
  store_ok s -> state_ok state ->
  match first_pick (pick s filter state) (remaining s state) with
  | None => snd (find_cursor_next s state filter) = None
  | Some (r, rest) => exists state', find_cursor_next s state filter = (state', Some r) /\ follows state' state rest
  end.
Proof. intros Hs Hok. apply find_loop_spec; [done|done|]. pose proof (rows_bound s state). lia. Qed.

(** A scan that adds what each row gives. *)
Definition add_pick (f : bytes * bytes -> option (result document failure)) (out : list document) (e : bytes * bytes)
  : result (list document) failure :=
  match f e with
  | None => Ok out
  | Some (Ok doc) => Ok (out ++ [doc])
  | Some (Err err) => Err err
  end.

Lemma fold_first_pick f out rows :
  fold_result (add_pick f) out rows =
  match first_pick f rows with
  | None => Ok out
  | Some (Err err, _) => Err err
  | Some (Ok doc, rest) => fold_result (add_pick f) (out ++ [doc]) rest
  end.
Proof.
  revert out. induction rows as [|e rows IH]; intros out; [done|]. simpl. unfold add_pick at 1.
  destruct (f e) as [[]|]; simpl; [done|done|apply IH].
Qed.

Lemma collect_loop_spec fuel s filter state out :
  store_ok s -> state_ok state -> (length (remaining s state) < fuel)%nat ->
  collect_loop fuel s filter state out = fold_result (add_pick (pick s filter state)) out (remaining s state).
Proof.
  intros Hs. revert state out. induction fuel as [|fuel IH]; intros state out Hok Hf; [lia|].
  cbn [collect_loop]. pose proof (find_cursor_next_spec s state filter Hs Hok) as Hn. rewrite fold_first_pick.
  destruct (first_pick _ (remaining s state)) as [[r rest]|] eqn:Ep; [|by destruct (find_cursor_next _ _ _) as [? [|]]].
  destruct Hn as (state' & -> & Hok' & Hrem & Hpick & _). destruct r as [doc|]; [|done].
  apply first_pick_rest in Ep. rewrite IH; [by rewrite Hrem, Hpick|done|rewrite Hrem; lia].
Qed.

Lemma collect_cursor_spec s filter state :
  store_ok s -> state_ok state ->
  collect_cursor s filter state = fold_result (add_pick (pick s filter state)) [] (remaining s state).
Proof. intros Hs Hok. apply collect_loop_spec; [done|done|]. pose proof (rows_bound s state). lia. Qed.

Lemma collect_materialized s filter docs n out fuel :
  (n <= length docs)%nat -> (length docs - n < fuel)%nat ->
  collect_loop fuel s filter (Materialized docs n) out = Ok (out ++ drop n docs).
Proof.
  revert n out. induction fuel as [|fuel IH]; intros n out Hn Hf; [lia|]. cbn [collect_loop].
  unfold find_cursor_next. cbn [find_loop find_step]. destruct (docs !! n) as [d|] eqn:Ed.
  - rewrite (drop_S _ _ _ Ed). apply lookup_lt_Some in Ed as Hl. rewrite IH by lia.
    replace (n + 1)%nat with (S n) by lia. by rewrite <- app_assoc.
  - apply lookup_ge_None in Ed. by rewrite drop_ge, app_nil_r.
Qed.

Lemma add_row_pick filter out e : add_row filter out e = add_pick (pick_row filter) out e.
Proof.
  unfold add_row, add_pick, pick_row, pick_doc, keep_matching. destruct (deserialize_document (snd e)) as [d|]; [|done].
  simpl. by destruct (eval_filter d filter) as [[]|].
Qed.

Lemma add_entry_pick s filter out e : add_entry self s filter out e = add_pick (pick_entry s filter) out e.
Proof.
  unfold add_entry, add_pick, pick_entry, pick_doc, keep_matching. destruct (storage_failure _) as [id|]; [|done].
  simpl. destruct (fetch_doc_by_id_str self s id) as [[d|]|]; [|done|done]. simpl. by destruct (eval_filter d filter) as [[]|].
Qed.

(** *** A scan of the collection is a snapshot *)

(** The items of successive calls of [next], each on the store of its time. *)
Fixpoint drain (stores : list store) (filter : document) (state : FindCursorState)
  : list (option (result document failure)) :=
  match stores with
  | [] => []
  | s :: stores =>
      let '(state, item) := find_cursor_next s state filter in item :: drain stores filter state
  end.

(** [n] calls on an iterator over [items]. *)
Fixpoint yields (items : list (result document failure)) (n : nat) : list (option (result document failure)) :=
  match n with
  | O => []
  | S n => match items with [] => None :: yields [] n | r :: items => Some r :: yields items n end
  end.

Lemma collection_next s c filter rows :
  store_ok s -> ahead s c = rows ->
  exists c', find_cursor_next s (CollectionScanState c) filter =
    (CollectionScanState c', match omap (pick_row filter) rows with [] => None | r :: _ => Some r end) /\
  exists rows', (forall s', ahead s' c' = rows') /\ omap (pick_row filter) rows' = tail (omap (pick_row filter) rows).
Proof.
  intros Hs Ha. unfold find_cursor_next.
  assert (Hf : (length rows < S (state_rows s (CollectionScanState c)))%nat).
  { rewrite <- Ha. pose proof (rows_bound s (CollectionScanState c)) as H. cbn [remaining] in H. lia. }
  revert Hf. generalize (S (state_rows s (CollectionScanState c))). intros fuel. revert c rows Ha.
  induction fuel as [|fuel IH]; intros c rows Ha Hf; [lia|]. cbn [find_loop find_step].
  pose proof (next_ahead s c) as Hn. rewrite Ha in Hn. destruct rows as [|e rest].
  - destruct Hn as (c' & err & -> & Hend). exists c'. split; [done|]. by exists [].
  - destruct Hn as (c' & -> & _ & Hv & Hrest). cbn [omap list_omap]. unfold current_doc, get_value_raw. rewrite Hv. cbn [ok_or map_err].
    assert (Ep : pick_row filter e = match deserialize_document (snd e) with Err err => Some (Err err) | Ok doc => pick_doc filter doc end) by done.
    rewrite !Ep. destruct (deserialize_document (snd e)) as [d|].
    + rewrite answer_pick. destruct (pick_doc filter d) as [r|].
      * exists c'. split; [done|]. exists rest. split; [apply Hrest|done].
      * apply IH; [apply Hrest|simpl in Hf; lia].
    + exists c'. split; [done|]. exists rest. split; [apply Hrest|done].
Qed.

Lemma drain_ahead stores filter c rows :
  Forall store_ok stores -> (forall s, ahead s c = rows) ->
  drain stores filter (CollectionScanState c) = yields (omap (pick_row filter) rows) (length stores).
Proof.
  intros Hs. revert c rows. induction Hs as [|s stores H _ IH]; intros c rows Ha; [done|]. cbn [drain length yields].
  destruct (collection_next s c filter rows H (Ha s)) as (c' & -> & rows' & Ha' & Hrows').
  rewrite (IH c' rows' Ha'), Hrows'. by destruct (omap (pick_row filter) rows).
Qed.

(** C7: a cursor over the collection yields the matching documents of the collection as it
    was at the first call of [next], whatever is written between the calls, and then nothing. *)
Theorem cursor_is_snapshot s stores filter :
  store_ok s -> Forall store_ok stores ->
  drain (s :: stores) filter (CollectionScanState (cursor self)) =
  yields (omap (pick_row filter) (table_rows s (coll_table self))) (length (s :: stores)).
Proof.
  intros Hs Hss. cbn [drain length yields].
  destruct (collection_next s (cursor self) filter (table_rows s (coll_table self)) Hs) as (c' & -> & rows' & Ha' & Hrows').
  { unfold ahead, cursor_rows, materialize. cbn. by rewrite drop_0. }
  rewrite (drain_ahead stores filter c' rows' Hss Ha'), Hrows'. by destruct (omap _ (table_rows _ _)).
Qed.
End Cursors.

Section Finds.
Context {B : BsonOps} {Lm : Libm} {G : S2} {C : S2Cap} {T : TextEnv} {K : Clock}
  {J : JsonOps} {N : OplogEnv} {FP : F64Parse} {E : CollEnv} {A : AggEnv} {SE : StdEnv} {Ln : LnOps}
  {BL : BsonLaws B}
  (index_chars : string -> bool)
  (self : Collection).
#[local] Existing Instance engine.

Abbreviation find := (find index_chars self).
Abbreviation execute_plan := (execute_plan index_chars self).

Lemma list_indexes_store st : cs_store (fst (list_indexes self st)) = cs_store st.
Proof.
  unfold list_indexes. destruct (index_cache st) as [l|]; [done|]. unfold bind at 1, for_rows. set (body := loop_body _).
  assert (Hb : reads body specs_row).
  { intros [s acc] c p e. unfold body, loop_body, specs_row, parse_spec, reading, bind, lift. simpl.
    by destruct (spec_from_slice (snd e)). }
  rewrite (while_next_fold _ _ _ _ _ _ Hb). cbn [fst].
  assert (H : forall rows acc, cs_store (fst (fst (fold_rows (fun st => Ok (snd st)) specs_row (st, acc) rows))) = cs_store st).
  { induction rows as [|e rows IH]; intros acc; [done|]. cbn [fold_rows]. unfold specs_row at 1.
    destruct (parse_spec e); [apply IH|done]. }
  specialize (H (table_rows (cs_store st) (table_name (open_cursor (metadata_table self)))) []).
  destruct (fold_rows _ _ _ _) as [[st' acc] []]; exact H.
Qed.

Lemma find_plan filter st :
  store_ok (cs_store st) ->
  snd (find filter st) =
  let? indexes := snd (list_indexes self st) in
  execute_plan (cs_store st) (execution_plan (plan_query filter indexes)) filter.
Proof.
  intros Hs. pose proof (list_indexes_store st) as Hst. unfold find, Find.find, find_iter, bind.
  destruct (list_indexes self st) as [st' [indexes|]]; [|done]. cbn [fst snd] in *.
  assert (Hmat : forall docs, collect_cursor (cs_store st) filter (Materialized docs 0) = Ok docs).
  { intros docs. unfold collect_cursor. rewrite collect_materialized by (cbn [state_rows]; lia). done. }
  destruct (execution_plan (plan_query filter indexes)) eqn:Ep; cbn [ret snd];
    try (rewrite Hst; destruct (execute_plan (cs_store st) _ filter); [apply Hmat|done]).
  - rewrite Hst, (collect_cursor_spec self) by done. cbn [Find.execute_plan]. rewrite collection_scan_fold.
    symmetry. apply fold_result_ext. intros out e _. apply add_row_pick.
  - rewrite Hst, (collect_cursor_spec self) by done. cbn [Find.execute_plan]. rewrite index_scan_fold.
    symmetry. apply fold_result_ext. intros out e _. apply add_entry_pick.
  - rewrite Hst, (collect_cursor_spec self) by (done || (split; [done|by eexists])). cbn [Find.execute_plan]. unfold collect_index_seek.
    rewrite seek_prefix_fold by done. symmetry. apply fold_result_ext. intros out e _. apply add_entry_pick.
Qed.

(** [find] returns what the plan for its filter returns when run at once: the lazy cursor
    yields the documents of the eager scan, in its order, and its first error. *)
Theorem find_runs_plan filter st :
  store_ok (cs_store st) ->
  snd (find filter st) =
  let? indexes := snd (list_indexes self st) in
  execute_plan (cs_store st) (execution_plan (plan_query filter indexes)) filter.
Proof. apply find_plan. Qed.

(** *** Plans over B-tree indexes *)

(** The plans of a query without [$or] over plain B-tree indexes. *)
Definition btree_plan (specs : list IndexSpec) (query : document) (p : ExecutionPlan) : Prop :=
  match p with
  | CollectionScan => True
  | IndexScan n _ => exists i, In i specs /\ name i = n
  | IndexSeek n ks sv => exists i f v, In i specs /\ name i = n /\ keys i = ks /\
      head (doc_keys (keys i)) = Some f /\ doc_get query f = Some v /\ is_equality_query v = true /\
      sv = doc_insert [] f v
  | _ => False
  end.

(** An index a seek can be trusted on: a B-tree index without a collation, on a first field that
    is neither a path nor an operator. *)
Record seekable (spec : IndexSpec) : Prop := {
  sk_plain : plain_btree spec;
  sk_flat : is_2dsphere_keys (keys spec) = false;
  sk_keys : List.NoDup (doc_keys (keys spec));
  sk_collation : IndexKey.collation (options spec) = None;
  sk_field : forall f, head (doc_keys (keys spec)) = Some f -> no_char "." f = true /\ starts_with "$" f = false }.

Lemma simple_btree_plan specs query :
  Forall seekable specs ->
  btree_plan specs query (execution_plan (plan_simple_query_with_projection query specs None)).
Proof.
  intros Hpl. unfold plan_simple_query_with_projection.
  destruct (best_of_fold query None specs None) as (_ & _ & H3).
  destruct (fold_left _ specs None) as [best|]; [|done].
  destruct (H3 best eq_refl) as [[=]|(i & Hi & Hc)]. rewrite List.Forall_forall in Hpl.
  destruct (Hpl i Hi) as [[Ht _] E2 _ _ _]. unfold candidate_plan in Hc. destruct (index_eligible_for_query i query); [|done].
  cbn [negb] in Hc. rewrite E2, Ht in Hc. unfold evaluate_index_for_query_with_projection in Hc.
  destruct (head (doc_keys (keys i))) as [f|] eqn:Ef; [|done]. cbn [and_then] in Hc.
  destruct (doc_get query f) as [v|] eqn:Ev; [|done]. cbn [and_then] in Hc.
  destruct (is_equality_query v) eqn:Eq; [injection Hc as <-; by exists i, f, v|].
  destruct (is_range_query v); [|done]. injection Hc as <-. by exists i.
Qed.

(** Values whose index keys are equal when the query compares them as equal. *)
Definition exact_pair (v a : bson) : bool :=
  match v, a with
  | BString _, BSymbol _ => false
  | BInt32 _, (BInt64 _ | BDouble _ | BDecimal128 _) => false
  | BInt64 _, (BInt32 _ | BDouble _ | BDecimal128 _) => false
  | (BString _ | BInt32 _ | BInt64 _ | BObjectId _ | BBoolean _ | BDateTime _), _ => true
  | _, _ => false
  end.

Lemma exact_pair_eq v a : exact_pair v a = true -> bson_cmp a v = Eq -> a = v.
Proof.
  destruct v; try done; destruct a; try done; cbn; intros _ H; f_equal;
    (by apply Z.compare_eq_iff) || (by apply str_cmp_eq) || (by apply bytes_cmp_eq) || (by destruct b, b0).
Qed.

(** The equality conditions of a filter on indexed fields are on values of one type. *)
Definition exact_seeks (s : store) (specs : list IndexSpec) (filter : document) : Prop :=
  forall spec f v, In spec specs -> head (doc_keys (keys spec)) = Some f -> doc_get filter f = Some v ->
    is_equality_query v = true ->
    as_document v = None /\ forall id doc a, holds self s id doc -> get_value doc f = Some a -> exact_pair v a = true.

Lemma seek_fields_other rest sv trimmed :
  (forall f, In f (doc_keys rest) -> doc_contains sv f = false) -> seek_fields rest sv trimmed = trimmed.
Proof. destruct rest as [|[f d] rest]; [done|]. intros H. cbn [seek_fields]. by rewrite (H f) by (by left). Qed.

Lemma seek_covers s specs filter spec f v :
  Forall seekable specs -> In spec specs -> head (doc_keys (keys spec)) = Some f -> doc_get filter f = Some v ->
  is_equality_query v = true -> exact_seeks s specs filter ->
  covered self s spec filter (build_seek_prefix (keys spec) (doc_insert [] f v)).
Proof.
  intros Hsk Hin Hf Hv Heq Hex id doc Hh Hm. rewrite List.Forall_forall in Hsk.
  destruct (Hsk _ Hin) as [_ _ Hnd Hco Hfield]. destruct (Hfield f Hf) as [Hdot Hop].
  destruct (Hex spec f v Hin Hf Hv Heq) as [Hdoc Hpair].
  assert (Hget : get_value doc f = Some v).
  { unfold eval_filter, eval_query in Hm. destruct (all_result _ filter) eqn:Ea; [|done]. injection Hm as ->.
    rewrite all_result_true in Ea. apply get_In in Hv. specialize (Ea (f, v) Hv).
    cbv beta iota in Ea. rewrite field_not_logical in Ea by done. unfold eval_field_condition in Ea.
    assert (Hb : bson_eq (get_value doc f) (Some v) = true) by (destruct v; try done; by injection Ea).
    destruct (get_value doc f) as [a|] eqn:Ega; [|done]. unfold bson_eq in Hb.
    rewrite (exact_pair_eq v a); [done|by eapply Hpair|]. by destruct (bson_cmp a v). }
  destruct (keys spec) as [|[f' dir] rest] eqn:Ek; [done|]. injection Hf as ->. cbn [doc_keys map fst] in Hnd.
  inversion_clear Hnd as [|? ? Hnotin _].
  assert (Hpre : build_seek_prefix ((f, dir) :: rest) (doc_insert [] f v) = index_key_part None doc f dir).
  { unfold build_seek_prefix. cbn [seek_fields]. unfold doc_contains at 1. rewrite get_insert_eq. cbn [is_some].
    rewrite seek_fields_other.
    - unfold extract_index_key, extract_index_key_with_collation. rewrite !insert_nil. cbn [map join_parts].
      unfold index_key_part. rewrite Hget, get_value_plain, <- insert_nil, get_insert_eq by done. done.
    - intros g Hg. unfold doc_contains. rewrite get_insert_ne by (by intros ->).
      by rewrite get_nil. }
  rewrite Hpre. unfold btree_entry, btree_key, spec_collation. rewrite Hco, Ek. cbn [option_map].
  unfold extract_index_key_with_collation. cbn [map]. apply bytes_prefix_spec.
  destruct (map (fun '(field, direction) => index_key_part None doc field direction) rest) as [|p ps];
    cbn [join_parts]; [by eexists|]. rewrite <- app_assoc. by eexists.
Qed.

Lemma query_btree_plan specs filter :
  Forall seekable specs -> doc_get filter "$or" = None ->
  btree_plan specs filter (execution_plan (plan_query filter specs)).
Proof.
  intros Hsk Hor. unfold plan_query, plan_query_with_projection. destruct filter as [|kv filter]; [done|].
  set (q := kv :: filter) in *. cbn [plan_query_fuel]. unfold q at 1. fold q.
  rewrite Hor. by apply simple_btree_plan.
Qed.

Lemma find_permutes n specs st filter :
  coll_ok self n specs st -> Forall seekable specs -> doc_get filter "$or" = None ->
  answers self (cs_store st) filter -> exact_seeks (cs_store st) specs filter ->
  exists docs docs', collect_collection_scan self (cs_store st) filter = Ok docs /\
    snd (find filter st) = Ok docs' /\ Permutation docs' docs.
Proof.
  intros Hok Hsk Hor Ha Hex. rewrite find_plan by apply Hok.
  rewrite (list_indexes_run self st specs) by apply Hok. cbn [snd].
  pose proof (query_btree_plan specs filter Hsk Hor) as Hplan.
  destruct Hok as [Hs _ _ Hk _ Hag].
  destruct (execution_plan (plan_query filter specs)); try done; cbn [Find.execute_plan].
  - rewrite collection_scan_ok by done. by eexists _, _.
  - destruct Hplan as (i & Hi & <-). by apply (scan_permutes self _ i), Ha; auto.
  - destruct Hplan as (i & f & v & Hi & <- & <- & Hf & Hv & Heq & ->).
    apply (seek_permutes self _ i); auto. by eapply seek_covers.
Qed.

(** C6: in a collection whose indexes agree with its documents and whose ids all have one length
    in bytes (as ObjectIds do), [find] returns the documents that a scan of the whole collection
    returns, each as many times, whichever plan the planner chooses, under four conditions.
    Every index is a plain B-tree (no partial filter, no collation, no 2dsphere field, no
    repeated field) whose first field is neither a dotted path nor an operator. The filter has
    no top-level [$or]. It evaluates without an error on every document of the collection. And
    where it has an equality condition on the first field of an index, the condition is a bare
    value whose index bytes determine it among the values stored there: a string compared with
    no symbol, a 32-bit or a 64-bit integer compared with no other kind of number, an ObjectId,
    a boolean or a date. The conditions are needed: [seek_misses_equal_int64],
    [eq_operator_seek_misses], [dotted_seek_misses] and [bitmap_and_prefix_scans_miss] are
    searches outside them that lose documents. *)
Theorem find_matches_scan n specs st filter :
  coll_ok self n specs st -> Forall seekable specs -> doc_get filter "$or" = None ->
  answers self (cs_store st) filter -> exact_seeks (cs_store st) specs filter ->
  exists docs docs', collect_collection_scan self (cs_store st) filter = Ok docs /\
    snd (find filter st) = Ok docs' /\ Permutation docs' docs.
Proof. apply find_permutes. Qed.
End Finds.

(** ** Scans of a 2dsphere index *)

Section GeoScan.
Context {B : BsonOps} {Lm : Libm} {G : S2} {C : S2Cap} {T : TextEnv} {K : Clock}
  {J : JsonOps} {N : OplogEnv} {FP : F64Parse} {E : CollEnv} {A : AggEnv} {SE : StdEnv} (self : Collection).
#[local] Existing Instance engine.

Definition is_u64 (n : Z) : Prop := (0 <= n <= u64_max)%Z.

(** An entry of a 2dsphere index, as [insert_into_indexes] writes it. *)
Definition geo_entry (cell : Z) (id : string) (e : bytes * bytes) : Prop :=
  is_u64 cell /\ e = (as_bytes (cell_key_prefix_u64 cell ++ id), as_bytes id) /\
  utf8_valid (fst e) = true /\ utf8_valid (snd e) = true.

Definition geo_table (rows : TableStore) : Prop := Forall (fun e => exists cell id, geo_entry cell id e) rows.

Definition entry_cell (e : bytes * bytes) : Z :=
  match index_key_cell_id (string_of_list_byte (fst e)) with Some c => c | None => 0%Z end.
Definition entry_id (e : bytes * bytes) : string := string_of_list_byte (snd e).

Definition in_cell_range (rmin rmax : Z) (e : bytes * bytes) : bool :=
  (rmin <=? entry_cell e)%Z && (entry_cell e <=? rmax)%Z.

(** What [geo_row] does with an entry of the index. *)
Definition geo_pick (rmin rmax : Z) (seen : list string) (e : bytes * bytes)
  : result (list string + list string) failure :=
  let? key_str := storage_failure (from_utf8 utf8_err (fst e) "key") in
  match index_key_cell_id key_str with
  | None => Ok (inl seen)
  | Some cid =>
      if (cid <? rmin)%Z then Ok (inl seen)
      else if (rmax <? cid)%Z then Ok (inr seen)
      else let? doc_id := storage_failure (from_utf8 utf8_err (snd e) "value") in Ok (inl (set_add seen doc_id))
  end.

Lemma geo_row_body rmin rmax : row_body (geo_row rmin rmax) (geo_pick rmin rmax).
Proof.
  intros seen c e Hk Hv. unfold geo_row, geo_pick, get_key_str, get_key_raw, value_str, get_value_str, get_value_raw.
  rewrite Hk, Hv. cbn [ok_or]. destruct (storage_failure (from_utf8 utf8_err (fst e) "key")) as [k|]; [|done]. simpl.
  destruct (index_key_cell_id k) as [cid|]; [|done]. destruct (cid <? rmin)%Z; [done|]. destruct (rmax <? cid)%Z; [done|].
  by destruct (storage_failure _).
Qed.

Lemma geo_entry_parts cell id e : geo_entry cell id e -> entry_cell e = cell /\ entry_id e = id.
Proof.
  intros (Hc & -> & _). unfold entry_cell, entry_id, as_bytes. cbn [fst snd].
  rewrite !string_of_list_byte_of_string, cell_key_roundtrip by done. done.
Qed.

Lemma geo_pick_entry rmin rmax seen e cell id :
  geo_entry cell id e ->
  geo_pick rmin rmax seen e =
  Ok (if (entry_cell e <? rmin)%Z then inl seen else if (rmax <? entry_cell e)%Z then inr seen
      else inl (set_add seen (entry_id e))).
Proof.
  intros He. destruct (geo_entry_parts _ _ _ He) as [-> ->]. destruct He as (Hc & -> & Hk & Hv).
  unfold geo_pick, from_utf8. rewrite Hk, Hv. cbn [fst snd storage_failure map_err]. unfold as_bytes.
  rewrite !string_of_list_byte_of_string, cell_key_roundtrip by done.
  destruct (cell <? rmin)%Z; [done|]. by destruct (rmax <? cell)%Z.
Qed.

(** The keys of the entries are in the order of their cells. *)
Lemma geo_keys_order cell id cell' s : is_u64 cell -> is_u64 cell' ->
  bytes_cmp (as_bytes (cell_key_prefix_u64 cell ++ id)) (as_bytes (cell_key_prefix_u64 cell' ++ s)) =
  cmp_then (cell ?= cell')%Z (str_cmp id s).
Proof.
  intros H H'. unfold cell_key_prefix_u64. rewrite <- !str_app_assoc.
  change (bytes_cmp (as_bytes ?a) (as_bytes ?b)) with (str_cmp a b).
  rewrite hex_digits_order; [done| |]; unfold is_u64, u64_max in *; change (16 ^ Z.of_nat 16)%Z with (2 ^ 64)%Z; lia.
Qed.

Lemma geo_sorted (rows : TableStore) :
  bt_ok rows -> geo_table rows -> StronglySorted (fun a b => entry_cell a <= entry_cell b)%Z rows.
Proof.
  intros Hs. induction Hs as [|e rows Hs IH Hf]; intros Hg; [constructor|]. inversion_clear Hg as [|? ? (c & i & He) Hg'].
  constructor; [by apply IH|]. rewrite Forall_forall in Hf. apply List.Forall_forall. intros e' He'.
  rewrite List.Forall_forall in Hg'. destruct (Hg' e' He') as (c' & i' & He2).
  rewrite (proj1 (geo_entry_parts _ _ _ He)), (proj1 (geo_entry_parts _ _ _ He2)).
  specialize (Hf e' ltac:(by apply list_elem_of_In)). destruct He as (Hc & -> & _), He2 as (Hc' & -> & _).
  change (bytes_cmp (as_bytes (cell_key_prefix_u64 c ++ i)) (as_bytes (cell_key_prefix_u64 c' ++ i')) = Lt) in Hf.
  rewrite geo_keys_order in Hf by done. destruct (Z.compare_spec c c'); [lia|lia|done].
Qed.

Lemma geo_fold rmin rmax (rows : TableStore) seen :
  geo_table rows -> StronglySorted (fun a b => entry_cell a <= entry_cell b)%Z rows ->
  fold_until (geo_pick rmin rmax) seen rows =
  Ok (fold_left set_add (map entry_id (List.filter (in_cell_range rmin rmax) rows)) seen).
Proof.
  intros Hg Hs. revert seen. induction Hs as [|e rows Hs IH Hle]; intros seen; [done|].
  inversion_clear Hg as [|? ? (c & i & He) Hg']. cbn [fold_until List.filter].
  rewrite (geo_pick_entry _ _ _ _ _ _ He). cbn. unfold in_cell_range at 1.
  destruct (Z.ltb_spec (entry_cell e) rmin).
  { replace (rmin <=? entry_cell e)%Z with false by (symmetry; apply Z.leb_gt; lia). by apply IH. }
  replace (rmin <=? entry_cell e)%Z with true by (symmetry; apply Z.leb_le; lia). cbn [andb].
  destruct (Z.ltb_spec rmax (entry_cell e)).
  - replace (entry_cell e <=? rmax)%Z with false by (symmetry; apply Z.leb_gt; lia). rewrite filter_none; [done|].
    intros y Hy. unfold in_cell_range. rewrite Forall_forall in Hle. specialize (Hle y ltac:(by apply list_elem_of_In)).
    apply andb_false_iff. right. apply Z.leb_gt. lia.
  - replace (entry_cell e <=? rmax)%Z with true by (symmetry; apply Z.leb_le; lia). by apply IH.
Qed.

Lemma set_add_In l x y : In y (set_add l x) <-> In y l \/ y = x.
Proof.
  unfold set_add. destruct (existsb (String.eqb x) l) eqn:Ex.
  - apply Text.existsb_eqb_In in Ex. split; [by left|]. by intros [?| ->].
  - rewrite in_app_iff. simpl. split; [intros [?|[->|[]]]; eauto|intros [?| ->]; eauto].
Qed.

Lemma set_add_NoDup l x : List.NoDup l -> List.NoDup (set_add l x).
Proof.
  intros Hl. unfold set_add. destruct (existsb (String.eqb x) l) eqn:Ex; [done|].
  apply NoDup_ListNoDup, NoDup_app. split_and!; [by apply NoDup_ListNoDup| |apply NoDup_singleton].
  intros y Hy Hx. apply list_elem_of_singleton in Hx as ->. apply list_elem_of_In, Text.existsb_eqb_In in Hy. congruence.
Qed.

Lemma set_add_all l seen :
  (forall y, In y (fold_left set_add l seen) <-> In y seen \/ In y l) /\
  (List.NoDup seen -> List.NoDup (fold_left set_add l seen)).
Proof.
  revert seen. induction l as [|x l IH]; intros seen; [by split; [intros y; simpl; tauto|]|]. cbn [fold_left].
  destruct (IH (set_add seen x)) as [IH1 IH2]. split.
  - intros y. rewrite IH1, set_add_In. simpl. split; intros H; intuition (subst; auto).
  - intros H. by apply IH2, set_add_NoDup.
Qed.

(** One range of cells. *)
Lemma geo_range s index_name rmin rmax seen :
  let rows := table_rows s (index_table self index_name) in
  store_ok s -> geo_table rows -> is_u64 rmin ->
  match seek s (set_key_str (open_cursor (index_table self index_name)) (cell_key_prefix_u64 rmin)) with
  | None => Ok seen
  | Some c => read_from_here s seen c (geo_row rmin rmax)
  end = Ok (fold_left set_add (map entry_id (List.filter (in_cell_range rmin rmax) rows)) seen).
Proof.
  intros rows Hs Hg Hr. assert (Hok : bt_ok rows) by (by apply table_or_empty_ok).
  pose proof (geo_sorted rows Hok Hg) as Hso. pose proof Hg as Hg0. unfold geo_table in Hg0. rewrite List.Forall_forall in Hg0.
  assert (Hbelow : forall e, In e rows -> bytes_cmp (fst e) (as_bytes (cell_key_prefix_u64 rmin)) = Lt ->
    in_cell_range rmin rmax e = false).
  { intros e He Hlt. destruct (Hg0 e He) as (c & i & Hge). unfold in_cell_range.
    rewrite (proj1 (geo_entry_parts _ _ _ Hge)). destruct Hge as (Hc & -> & _). cbn [fst] in Hlt.
    pose proof (geo_keys_order c i rmin "" Hc Hr) as Ho. rewrite str_app_empty in Ho. rewrite Ho in Hlt. clear Ho.
    destruct (Z.compare_spec c rmin) as [->|?|?]; cbn in Hlt; [|apply andb_false_iff; left; apply Z.leb_gt; lia|done].
    destruct i; done. }
  pose proof (seek_lands s (index_table self index_name) (as_bytes (cell_key_prefix_u64 rmin)) Hs) as Hseek.
  cbv zeta in Hseek. fold rows in Hseek. unfold set_key_str. destruct (seek s _) as [c|].
  - destruct Hseek as (i & e & Hon & Hlt & _). erewrite read_from_here_fold; [|apply geo_row_body|exact Hon].
    rewrite geo_fold; [|by apply Forall_drop|].
    + do 2 f_equal. rewrite <- (take_drop i rows) at 2. rewrite List.filter_app, (filter_none _ (take i rows)); [done|].
      intros x Hx. apply list_elem_of_In, list_elem_of_lookup in Hx as [j Hj]. apply lookup_take_Some in Hj as [Hj Hij].
      apply Hbelow; [|by apply (Hlt j)]. by apply list_elem_of_In, list_elem_of_lookup_2 with j.
    + clear -Hso. revert i. induction Hso as [|x l Hl IH Hx]; intros [|i]; simpl; try constructor; auto.
  - rewrite filter_none; [done|]. intros x Hx. apply Hbelow; [done|]. by apply Hseek.
Qed.

(** The probe of a 2dsphere index finds exactly the documents of the entries whose cell
    is in the range of one of the covering cells, each once. *)
Theorem geo_cells_found s index_name cells :
  let rows := table_rows s (index_table self index_name) in
  store_ok s -> geo_table rows -> Forall (fun cell => is_u64 (range_min cell)) cells ->
  exists ids, collect_ids_geo_cells self s index_name cells = Ok ids /\ List.NoDup ids /\
    forall id, In id ids <-> exists e cell, In e rows /\ In cell cells /\
      (range_min cell <= entry_cell e <= range_max cell)%Z /\ id = entry_id e.
Proof.
  intros rows Hs Hg Hc. unfold collect_ids_geo_cells.
  induction cells as [|cell cells IH] using rev_ind.
  { exists []. split; [done|]. split; [constructor|]. intros id. split; [done|]. by intros (? & ? & _ & [] & _). }
  apply List.Forall_app in Hc as [Hc Hc1]. inversion_clear Hc1. destruct (IH Hc) as (ids & Hids & Hnd & Hin).
  rewrite fold_result_app, Hids. cbn. rewrite geo_range by done. fold rows.
  destruct (set_add_all (map entry_id (List.filter (in_cell_range (range_min cell) (range_max cell)) rows)) ids) as [H1 H2].
  eexists. split; [done|]. split; [by apply H2|]. intros id. rewrite H1, Hin, in_map_iff. split.
  - intros [(e & c & He & Hcell & Hr & ->)|(e & <- & He)].
    + exists e, c. rewrite in_app_iff. eauto.
    + apply List.filter_In in He as [He Hr]. apply andb_true_iff in Hr as [Hr1 Hr2].
      apply Z.leb_le in Hr1, Hr2. exists e, cell. rewrite in_app_iff. simpl. eauto 8.
  - intros (e & c & He & Hcell & Hr & ->). apply in_app_iff in Hcell as [Hcell|[<-|[]]]; [left; eauto 6|right].
    exists e. split; [done|]. apply List.filter_In. split; [done|]. apply andb_true_iff. rewrite !Z.leb_le. lia.
Qed.
End GeoScan.

(** ** Text scans and unions *)

Section Scans.
Context {B : BsonOps} {Lm : Libm} {G : S2} {C : S2Cap} {T : TextEnv} {K : Clock}
  {J : JsonOps} {N : OplogEnv} {FP : F64Parse} {E : CollEnv} {A : AggEnv} {SE : StdEnv} {SL : StdLaws SE} {Ln : LnOps}
  (index_chars : string -> bool)
  (self : Collection).
#[local] Existing Instance engine.
Abbreviation execute_plan := (execute_plan index_chars self).

Lemma keep_ids_filter ids keep (f : document -> bool) docs :
  (forall d, In d docs -> exists id, extract_id_string d = Ok id /\
     (if existsb (String.eqb id) ids then keep d = Ok (f d) else f d = false)) ->
  keep_ids ids keep docs = Ok (List.filter f docs).
Proof.
  intros H. unfold keep_ids. set (step := fun (out : list document) (doc : document) => _).
  assert (Hf : forall l out, (forall d, In d l -> In d docs) -> fold_result step out l = Ok (out ++ List.filter f l));
    [|by rewrite Hf].
  induction l as [|d l IH]; intros out Hl; simpl; [by rewrite app_nil_r|].
  destruct (H d (Hl d (or_introl eq_refl))) as (id & Hid & Hd).
  assert (Hst : step out d = Ok (if f d then out ++ [d] else out)).
  { unfold step. rewrite Hid. cbn. destruct (existsb (String.eqb id) ids); rewrite Hd; done. }
  rewrite Hst. cbn. rewrite IH by (intros; apply Hl; by right). destruct (f d); [by rewrite <- app_assoc|done].
Qed.

Lemma text_id_extract d id : Text.text_id d = Some id -> extract_id_string d = Ok id.
Proof. unfold Text.text_id, extract_id_string. destruct (doc_get d "_id") as [[]|]; congruence. Qed.

Lemma vec_id_extract d id : Vector.vec_id d = Some id -> extract_id_string d = Ok id.
Proof. unfold Vector.vec_id, extract_id_string. destruct (doc_get d "_id") as [[]|]; congruence. Qed.

(** What the rest of a [$text] filter asks. *)
Definition without_text (filter : document) : document := List.filter (fun '(k, _) => negb (k =s? "$text")) filter.

(** A scan with a text index returns the documents of the collection, in its order,
    that hold every token of the search in the indexed fields and match the rest of the filter. *)
Theorem text_scan_finds s filter fields text all_docs :
  search_text filter = Some text -> tokenize text <> [] ->
  collect_collection_scan self s [] = Ok all_docs ->
  Forall (fun d => is_Some (Text.text_id d)) all_docs -> NoDup (omap Text.text_id all_docs) ->
  (forall d, In d all_docs -> exists b, eval_filter d (without_text filter) = Ok b) ->
  collect_text_index_scan self s filter fields =
  Ok (List.filter (fun d => forallb (fun t => Text.has_token fields t d) (tokenize text) &&
                            matching (without_text filter) d) all_docs).
Proof.
  intros Hs Ht Hall Hid Hnd Hans. unfold collect_text_index_scan. rewrite Hs, Hall. cbn.
  pose proof (Text.text_search_finds all_docs fields None text Ht Hnd) as Hp.
  apply keep_ids_filter. intros d Hd. rewrite List.Forall_forall in Hid. destruct (Hid d Hd) as [id Hdi].
  exists id. split; [by apply text_id_extract|]. set (ids := map fst _) in *.
  set (p := fun d => forallb (fun t => Text.has_token fields t d) (tokenize text)) in *.
  assert (Hin : existsb (String.eqb id) ids = p d).
  { apply eq_true_iff_eq. rewrite Text.existsb_eqb_In. transitivity (In id (Text.ids_where p all_docs)).
    - split; apply Permutation_in; [done|by symmetry].
    - unfold Text.ids_where. rewrite <- list_elem_of_In, list_elem_of_omap. split.
      + intros (d' & Hd' & Hp'). destruct (p d') eqn:Ep; [|done]. assert (d' = d) as ->; [|done].
        eapply Text.same_text_id; [exact Hnd|by apply list_elem_of_In|exact Hd|exact Hp'|exact Hdi].
      + intros Hpd. exists d. rewrite list_elem_of_In, Hpd. done. }
  rewrite Hin. fold (p d). destruct (p d); [|done]. cbn [andb]. fold (without_text filter).
  destruct (Hans d Hd) as [b Hb]. unfold matching. rewrite Hb.
  destruct (without_text filter); [|done]. by injection Hb as <-.
Qed.

(** A find with a flat vector index returns, in the order of the collection, the documents with
    the [k] best scores; the rest of the filter is not looked at. *)
Theorem flat_vector_find s filter field query k metric ef m all_docs :
  extract_vector_query filter field = Some (query, k) ->
  collect_collection_scan self s [] = Ok all_docs ->
  Forall (fun d => is_Some (Vector.vec_id d)) all_docs -> distinct_ids all_docs -> (Z.of_nat (length all_docs) <= 2 ^ 32)%Z ->
  heap_with_capacity (Z.max (match ef with Some ef => ef | None => 200%Z end) 1) = Ok tt ->
  let top := iter_take k (sort_by best_first (omap (doc_score field metric query) all_docs)) in
  collect_vector_index_search self s filter field (Z.of_nat (length query)) metric ef m "flat" =
  Ok (List.filter (fun d => existsb (fun p => id_of d =s? id_of (fst p)) top) all_docs).
Proof.
  intros Hq Hall Hid Hd Hlen Hcap top. unfold collect_vector_index_search, nearest_ids. rewrite Hq, Hall, Nat2Z.id. cbv beta iota.
  destruct (build_search_exact all_docs field query metric ef m k Hd Hlen Hcap) as (idx & -> & Hs). cbn [map_err fst snd String.eqb].
  assert (Ht : iter_take k (sort_by best_first (map VectorSearch.hit (omap (doc_score field metric query) all_docs))) = map VectorSearch.hit top).
  { unfold top. rewrite <- iter_take_map. f_equal. symmetry. exact (sort_by_map VectorSearch.hit best_first _). }
  cbv beta iota. rewrite Hs, Ht. cbn [map_err]. apply keep_ids_filter. intros d Hin. rewrite List.Forall_forall in Hid.
  destruct (Hid d Hin) as [id Hdi]. exists id. split; [by apply vec_id_extract|]. replace (id_of d) with id by (unfold id_of; by rewrite Hdi).
  assert (He : existsb (String.eqb id) (map fst (map VectorSearch.hit top)) = existsb (fun p => id =s? id_of (fst p)) top)
    by (clear; induction top as [|p top IH]; [done|]; cbn; by rewrite IH).
  rewrite He. by destruct (existsb _ top).
Qed.

(** The documents found so far, with their identifiers. *)
Definition union_ok (acc : list string * list document) : Prop :=
  List.NoDup (fst acc) /\ map extract_id_string (snd acc) = map Ok (fst acc).

Lemma add_distinct_ok acc doc acc' :
  add_distinct acc doc = Ok acc' -> union_ok acc ->
  union_ok acc' /\ (exists d, In d (snd acc') /\ extract_id_string d = extract_id_string doc) /\
  forall d, In d (snd acc') -> In d (snd acc) \/ d = doc.
Proof.
  destruct acc as [seen out]. unfold add_distinct, union_ok. destruct (extract_id_string doc) as [id|] eqn:Ed; [|done].
  cbn. intros H [Hnd Hids]. destruct (existsb (String.eqb id) seen) eqn:Ex; injection H as <-; cbn [fst snd].
  - split; [done|]. split; [|by left]. apply Text.existsb_eqb_In in Ex. apply (in_map (Ok (E:=failure))) in Ex. rewrite <- Hids in Ex.
    apply in_map_iff in Ex as (d & Hd & Hin). by exists d.
  - split; [|split].
    + split; [|by rewrite !map_app, Hids; simpl; rewrite Ed]. apply NoDup_ListNoDup, NoDup_app.
      split_and!; [by apply NoDup_ListNoDup| |apply NoDup_singleton]. intros y Hy Hx.
      apply list_elem_of_singleton in Hx as ->. apply list_elem_of_In, Text.existsb_eqb_In in Hy. congruence.
    + exists doc. split; [|done]. apply in_app_iff. right. by left.
    + intros d Hd. apply in_app_iff in Hd as [?|[->|[]]]; auto.
Qed.

Lemma add_distinct_keeps acc doc acc' :
  add_distinct acc doc = Ok acc' -> forall d, In d (snd acc) -> In d (snd acc').
Proof.
  destruct acc as [seen out]. unfold add_distinct. destruct (extract_id_string doc) as [id|]; [|done]. cbn.
  destruct (existsb _ seen); intros [= <-] d Hd; [done|]. apply in_app_iff. by left.
Qed.

Lemma add_all_ok docs acc acc' :
  fold_result add_distinct acc docs = Ok acc' -> union_ok acc ->
  union_ok acc' /\ (forall d, In d (snd acc) -> In d (snd acc')) /\
  (forall doc, In doc docs -> exists d, In d (snd acc') /\ extract_id_string d = extract_id_string doc) /\
  forall d, In d (snd acc') -> In d (snd acc) \/ In d docs.
Proof.
  revert acc. induction docs as [|doc docs IH]; intros acc H Hok; [injection H as <-; by split_and!; auto|].
  simpl in H. destruct (add_distinct acc doc) as [acc1|] eqn:Ea; [|done].
  destruct (add_distinct_ok _ _ _ Ea Hok) as (Hok1 & (d1 & Hd1 & Hid1) & Hfrom1). pose proof (add_distinct_keeps _ _ _ Ea) as Hk1.
  destruct (IH acc1 H Hok1) as (Hok' & Hk & Hall & Hfrom). split_and!; [done|auto| |].
  - intros x [<-|Hx]; [exists d1; auto|by apply Hall].
  - intros d Hd. destruct (Hfrom d Hd) as [Hd'|Hd']; [|by right; right]. destruct (Hfrom1 d Hd') as [?| ->]; [by left|by right; left].
Qed.

(** The plan of an [$or] returns the documents its subplans return, each identifier once. *)
Theorem or_union_spec s subplans filter out :
  execute_plan s (OrUnionPlans subplans) filter = Ok out ->
  (exists ids, map extract_id_string out = map Ok ids /\ List.NoDup ids) /\
  (forall d, In d out -> exists sub docs, In sub subplans /\ execute_plan s sub filter = Ok docs /\ In d docs) /\
  (forall sub, In sub subplans -> exists docs, execute_plan s sub filter = Ok docs /\
    forall doc, In doc docs -> exists d, In d out /\ extract_id_string d = extract_id_string doc).
Proof.
  cbn [Find.execute_plan]. set (step := fun acc sub => _).
  assert (H : forall subs acc acc', fold_result step acc subs = Ok acc' -> union_ok acc ->
    union_ok acc' /\ (forall d, In d (snd acc) -> In d (snd acc')) /\
    (forall d, In d (snd acc') -> In d (snd acc) \/ exists sub docs, In sub subs /\ execute_plan s sub filter = Ok docs /\ In d docs) /\
    (forall sub, In sub subs -> exists docs, execute_plan s sub filter = Ok docs /\
      forall doc, In doc docs -> exists d, In d (snd acc') /\ extract_id_string d = extract_id_string doc)).
  { induction subs as [|sub subs IH]; intros acc acc' H Hok; [injection H as <-; by split_and!; auto|].
    simpl in H. unfold step at 1 in H. destruct (execute_plan s sub filter) as [docs|] eqn:Es; [|done]. cbn in H.
    destruct (fold_result add_distinct acc docs) as [acc1|] eqn:Ea; [|done].
    destruct (add_all_ok docs acc acc1 Ea Hok) as (Hok1 & Hk1 & Hall1 & Hfrom1).
    destruct (IH acc1 acc' H Hok1) as (Hok' & Hk & Hfrom & Hall). split_and!; [done|auto| |].
    - intros d Hd. destruct (Hfrom d Hd) as [Hd'|(sub' & ds & ? & ? & ?)]; [|right; exists sub', ds; simpl; auto].
      destruct (Hfrom1 d Hd') as [?|?]; [by left|]. right. exists sub, docs. simpl. auto.
    - intros sub' [<-|Hs]; [|by apply Hall]. exists docs. split; [done|]. intros doc Hdoc.
      destruct (Hall1 doc Hdoc) as (d & Hd & Hid). eauto. }
  intros Hrun. destruct (fold_result step ([], []) subplans) as [acc|] eqn:Ef; [|done]. injection Hrun as <-.
  destruct (H subplans ([], []) acc Ef) as ([Hnd Hids] & _ & Hfrom & Hall); [by repeat constructor|].
  split_and!; [by exists (fst acc)| |done]. intros d Hd. by destruct (Hfrom d Hd) as [[]|?].
Qed.
End Scans.

(** ** Witnesses *)

(** A reference environment: cells are points of a line, a cap is every cell. *)
Module RefFind.
#[export] Instance caps : S2Cap := {|
  cap_of_point _ := [0%Z]; cap_of_angle _ _ := [0%Z]; cap_full := [0%Z];
  range_min c := c; range_max c := (c + 10)%Z |}.
End RefFind.

Section Witnesses.
Import RefBson.RefBson RefJson RefAgg RefStd RefLn RefFind RefColl.
#[local] Existing Instance engine.

Definition all_chars (_ : string) : bool := true.
Abbreviation find_people := (find all_chars people).

Lemma find_runs_plan_witness :
  snd (find_people over_35 two_people) =
  execute_plan all_chars people (cs_store two_people) (IndexScan "age_1" (keys by_age)) over_35.
Proof.
  rewrite (find_runs_plan all_chars people over_35 two_people); [|apply two_people_ok].
  rewrite (list_indexes_run people two_people [by_age]) by apply two_people_ok. cbn [snd].
  replace (execution_plan (plan_query over_35 [by_age])) with (IndexScan "age_1" (keys by_age)); [reflexivity|].
  vm_compute. reflexivity.
Defined.

Lemma by_age_seekable : seekable by_age.
Proof.
  split; try reflexivity.
  - split; reflexivity.
  - repeat constructor. intros [].
  - intros f [= <-]. split; reflexivity.
Qed.

Lemma find_matches_scan_witness :
  exists docs docs', collect_collection_scan people (cs_store two_people) aged_40 = Ok docs /\
    snd (find_people aged_40 two_people) = Ok docs' /\ Permutation docs' docs.
Proof.
  apply (find_matches_scan all_chars people 1 [by_age] two_people aged_40).
  - exact two_people_ok.
  - constructor; [exact by_age_seekable|constructor].
  - reflexivity.
  - intros id doc H. apply two_people_hold in H as [->| ->]; [exists true|exists false]; vm_compute; reflexivity.
  - intros spec f v [<-|[]] [= <-] [= <-] _. split; [reflexivity|]. intros id doc a H.
    apply two_people_hold in H as [->| ->]; vm_compute; by intros [= <-].
Defined.

Lemma cursor_is_snapshot_witness :
  drain [cs_store two_people; cs_store indexed_state; cs_store indexed_state] []
    (CollectionScanState (cursor people)) =
  [Some (Ok (person "1" 40)); Some (Ok (person "2" 30)); None].
Proof.
  rewrite (cursor_is_snapshot people (cs_store two_people) [cs_store indexed_state; cs_store indexed_state] []).
  - vm_compute. reflexivity.
  - apply two_people_ok.
  - repeat constructor; apply indexed_ok.
Defined.

Definition point_row (cell : Z) (id : string) : bytes * bytes :=
  (as_bytes (cell_key_prefix_u64 cell ++ id), as_bytes id).

Definition geo_store : store := [("people.idx_loc", [point_row 5 "a"; point_row 12 "b"; point_row 31 "c"])].

Lemma geo_cells_found_witness :
  exists ids, collect_ids_geo_cells people geo_store "loc" [0%Z; 30%Z] = Ok ids /\ List.NoDup ids /\
    forall id, In id ids <-> exists e cell, In e (table_rows geo_store "people.idx_loc") /\ In cell [0%Z; 30%Z] /\
      (range_min cell <= entry_cell e <= range_max cell)%Z /\ id = entry_id e.
Proof.
  apply (geo_cells_found people geo_store "loc" [0%Z; 30%Z]).
  - split; [repeat constructor|]. intros nm t. cbn. destruct (str_cmp nm "people.idx_loc"); [|done|done].
    intros [= <-]. repeat constructor.
  - assert (H : forall cell id, (0 <= cell <= u64_max)%Z -> utf8_valid (fst (point_row cell id)) = true ->
      utf8_valid (as_bytes id) = true -> exists c i, geo_entry c i (point_row cell id)).
    { intros cell id H1 H2 H3. by exists cell, id. }
    repeat constructor; apply H; (reflexivity || (unfold u64_max; lia)).
  - repeat constructor; unfold is_u64, u64_max; cbn; lia.
Defined.

Definition notes : list document := [[("_id", BString "1"); ("s", BString "red car")]; [("_id", BString "2"); ("s", BString "blue car")]].
Definition noted : cstate := insert_all notes (after (new "people") empty_state).
Definition red_cars : document := [("$text", BDocument [("$search", BString "car red")])].

Lemma text_scan_finds_witness :
  collect_text_index_scan people (cs_store noted) red_cars ["s"] =
  Ok (List.filter (fun d => forallb (fun t => Text.has_token ["s"] t d) (tokenize "car red") &&
                            matching (without_text red_cars) d) notes).
Proof.
  apply (text_scan_finds people (cs_store noted) red_cars ["s"] "car red" notes).
  - reflexivity.
  - discriminate.
  - vm_compute. reflexivity.
  - repeat constructor; by eexists.
  - cbn. repeat constructor; set_solver.
  - intros d _. by exists true.
Defined.

(** Five documents with an index on their vectors. *)
Definition mapped : cstate := insert_all towns (after (new "people") empty_state).
Definition nearest_two : document :=
  [("v", BDocument [("$near", doubles [0; 0]%Z); ("$k", BInt32 2)]); ("kind", BInt32 0)].

Lemma flat_vector_find_witness :
  exists top : list (document * f32), collect_vector_index_search people (cs_store mapped) nearest_two "v" 2 "euclidean" None None "flat" =
    Ok (List.filter (fun d => existsb (fun p => id_of d =s? id_of (fst p)) top) towns) /\ length top = 2%nat.
Proof.
  eexists. split.
  - refine (flat_vector_find people (cs_store mapped) nearest_two "v" (floats [0; 0]%Z) 2 "euclidean" None None towns _ _ _ _ _ _);
      try (vm_compute; reflexivity).
    + repeat constructor; by eexists.
    + split; [|vm_compute; intuition discriminate].
      change (omap Vector.vec_id towns) with ["1"; "2"; "3"; "4"; "5"]. repeat constructor; cbn; intuition discriminate.
    + vm_compute. discriminate.
  - vm_compute. reflexivity.
Defined.

Lemma or_union_spec_witness :
  let subplans := [IndexScan "age_1" (keys by_age); CollectionScan] in
  let out := [person "2" 30; person "1" 40] in
  (exists ids, map extract_id_string out = map Ok ids /\ List.NoDup ids) /\
  (forall d, In d out -> exists sub docs, In sub subplans /\
    execute_plan all_chars people (cs_store two_people) sub [] = Ok docs /\ In d docs) /\
  (forall sub, In sub subplans -> exists docs,
    execute_plan all_chars people (cs_store two_people) sub [] = Ok docs /\
    forall doc, In doc docs -> exists d, In d out /\ extract_id_string d = extract_id_string doc).
Proof.
  intros subplans out.
  apply (or_union_spec all_chars people (cs_store two_people) subplans [] out). vm_compute. reflexivity.
Defined.

(** ** Behaviours worth recording *)

(** The conditions of a filter beside the vector are dropped: a document of another kind is
    found, and the nearest ones come in the order of the collection. *)
Theorem vector_find_ignores_filter :
  match collect_vector_index_search people (cs_store mapped) nearest_two "v" 2 "euclidean" None None "flat" with
  | Ok docs => map (fun d => (doc_get d "_id", doc_get d "kind")) docs =
      [(Some (BInt32 3), Some (BInt32 1)); (Some (BInt32 5), Some (BInt32 0))]
  | Err _ => False
  end.
Proof. vm_compute. reflexivity. Qed.

(** The seek for [{field: {$eq: v}}] is by the key of the document [{$eq: v}], which no
    indexed number or string has. *)
Theorem eq_operator_seek_misses :
  let filter := [("age", BDocument [("$eq", BInt32 40)])] in
  collect_collection_scan people (cs_store two_people) filter = Ok [person "1" 40] /\
  snd (find_people filter two_people) = Ok [].
Proof. vm_compute. split; reflexivity. Qed.

(** A seek on a path looks the path up in a document whose only key is the path itself. *)
Theorem dotted_seek_misses :
  let doc := [("_id", BString "1"); ("a", BDocument [("b", BString "x")])] in
  let filter := [("a.b", BString "x")] in
  let st := insert_all [doc] (with_index [("a.b", BInt32 1)] false) in
  collect_collection_scan people (cs_store st) filter = Ok [doc] /\ snd (find_people filter st) = Ok [].
Proof. vm_compute. split; reflexivity. Qed.

Definition typed_index (t : IndexType) : cstate :=
  after (create_index people by_s (Some {| opt_name := None; unique := false; sparse := false; background := false;
    expire_after_seconds := None; partial_filter_expression := None; IndexKey.collation := None;
    index_type := Some t; vector_options := None; text_options := None; prefix_options := None |}))
    (after (new "people") empty_state).

(** Nothing is written to the table of a bitmap index, and a prefix index is written to one table
    and read from another: a query on their field finds nothing. *)
Theorem bitmap_and_prefix_scans_miss :
  let found t := snd (find_people [("s", BString "x")] (insert_all [named "1" "x"] (typed_index t))) in
  found Bitmap = Ok [] /\ found Prefix = Ok [] /\
  snd (find_people [("s", BString "x")] (insert_all [named "1" "x"] (with_index by_s false))) = Ok [named "1" "x"].
Proof. vm_compute. split_and!; reflexivity. Qed.

Definition by_age_options (dir : Z) (skip limit : option Z) : FindOptions :=
  {| sort := Some [("age", BInt32 dir)]; skip := skip; limit := limit; projection := None |}.
Abbreviation find_sorted := (find_with_options all_chars people []).

(** With an index that can sort, the limit is applied before the skip. *)
Theorem skip_after_limit :
  snd (find_sorted (by_age_options 1 (Some 1%Z) (Some 1%Z)) two_people) = Ok [].
Proof. vm_compute. reflexivity. Qed.

(** A sort in the reverse order of an index is answered in the order of the index. *)
Theorem reverse_sort_ignored :
  snd (find_sorted (by_age_options (-1) None (Some 2%Z)) two_people) = Ok [person "2" 30; person "1" 40].
Proof. vm_compute. reflexivity. Qed.

(** The room for [limit] documents is reserved at once. *)
Theorem huge_limit_panics :
  snd (find_sorted (by_age_options 1 None (Some i64_max)) two_people) = Err (Unwind "capacity overflow").
Proof. vm_compute. reflexivity. Qed.

(** The search of a text index is by words of its fields, that of a query without it by substrings
    of every string. *)
Theorem text_scan_differs :
  let filter := [("$text", BDocument [("$search", BString "ca")])] in
  how_many (collect_text_index_scan people (cs_store noted) filter ["s"]) = Some O /\
  how_many (collect_collection_scan people (cs_store noted) filter) = Some 2%nat.
Proof. vm_compute. split; reflexivity. Qed.
End Witnesses.
