(* ===== verification/DbAggregate.v ===== *)
(** * Pipelines over a database

    [src/rust/smongo-engine/src/aggregation/mod.rs] (DatabaseContext and the
    entry points that take one) and the write stages of
    [aggregation/stages.rs]: collections are resolved by name through a
    database, indexes are probed, and a last [$out] or [$merge] stage writes
    the results.  [$out] is shown to leave in its target exactly the results. *)

From Stdlib Require Import ZArith Lia Ascii String Strings.Byte Permutation Sorted.
From S2P Require Import F32 HnswExact VectorSearch.
From S2P Require Import Prelude F64 Bson RefBson Paths Geo Query Update BTree Storage IndexKey.
From S2P Require Import Planner Schema Collation Expressions Accumulators Stages Joins GeoNear Pipeline Oplog Collection Exec.
From S2P Require Import SearchIndexes TextIndex Consistency Progress Database Find.
From stdpp Require Import base tactics list strings gmap.

Open Scope string_scope.
Open Scope list_scope.

Section DbAggregate.
Context {B : BsonOps} {Lm : Libm} {G : S2} {C : S2Cap} {T : TextEnv} {K : Clock}
  {J : JsonOps} {N : OplogEnv} {FP : F64Parse} {E : CollEnv} {A : AggEnv} {SE : StdEnv} {Ln : LnOps}
  (index_chars : string -> bool)
  (stack : nat) (db : Database).
#[local] Existing Instance engine.

(** ** Errors *)

(** [.map_err(|e| AggregationError::Other(e.to_string()))] of a database and of a collection. *)
Definition db_agg (e : db_failure) : agg_failure :=
  match e with DbFail e => AggErr (AggOther (database_error_display e)) | DbUnwind m => AggPanic m end.
Definition coll_agg (e : failure) : agg_failure :=
  match e with Fail e => AggErr (AggOther (collection_error_display e)) | Unwind m => AggPanic m end.

Definition AM (R : Type) : Type := cstate -> cstate * result R agg_failure.
Definition aret {R} (r : R) : AM R := fun st => (st, Ok r).
Definition abind {R R'} (m : AM R) (k : R -> AM R') : AM R' :=
  fun st => match m st with (st', Ok a) => k a st' | (st', Err e) => (st', Err e) end.
Definition db_op {R} (m : D R) : AM R := fun st => let '(st', r) := m st in (st', map_err db_agg r).
Definition coll_op {R} (m : M R) : AM R := fun st => let '(st', r) := m st in (st', map_err coll_agg r).
Definition alift {R} (r : result R agg_failure) : AM R := fun st => (st, r).

Fixpoint afor_each {X} (l : list X) (body : X -> AM unit) : AM unit :=
  match l with
  | [] => aret tt
  | x :: l' => abind (body x) (fun _ => afor_each l' body)
  end.

(** ** Reads *)

Abbreviation exec_plan := (execute_plan index_chars).

(** Source: aggregation/mod.rs:167-175 (resolve). *)
Definition resolve_op (name : string) (filter : option document) : AM (list document) :=
  abind (db_op (collection db name)) (fun coll =>
  coll_op (Find.find index_chars coll (match filter with Some f => f | None => [] end))).

(** The resolver of a pipeline that runs on the state [st].  The state of the caller is not
    changed but for the tables [resolve] creates, which are empty; see [opened]. *)
Definition resolver_at (st : cstate) : CollectionResolver :=
  {| resolve name filter := snd (resolve_op name filter st) |}.

(** Source: aggregation/mod.rs:345-362 (geo_near_indexed). The documents with their distance,
    nearest first. *)
Definition scored_by_distance (field : string) (lon lat : f64) (docs : list document) : list (document * f64) :=
  sort_by (fun a b => f64_cmp_or_eq (snd a) (snd b))
    (List.concat (map (fun doc =>
       match extract_lon_lat (get_value doc field) with
       | Some (dlon, dlat) => [(doc, haversine_meters lon lat dlon dlat)]
       | None => []
       end) docs)).

(** Source: aggregation/mod.rs:311-369 (geo_near_indexed). *)
Definition geo_near_op (coll_name field : string) (lon lat : f64) (limit : option Z) (max_distance : option f64)
  (query : option document) : AM (option (list (document * f64))) :=
  abind (db_op (collection db coll_name)) (fun coll =>
  abind (coll_op (list_indexes coll)) (fun indexes =>
  match List.find (fun idx => match twodsphere_field (keys idx) with
                              | Some f => f =s? field | None => false end) indexes with
  | None => aret None
  | Some idx =>
      let plan := GeoNear (name idx) field lon lat max_distance None in
      abind (coll_op (fun st => (st, exec_plan coll (cs_store st) plan
                                       (match query with Some q => q | None => [] end)))) (fun docs =>
      let scored := scored_by_distance field lon lat docs in
      aret (Some (match limit with Some lim => take (Z.to_nat lim) scored | None => scored end)))
  end)).

(** Source: aggregation/mod.rs:371-403 (sorted_scan). *)
Definition sorted_scan_op (coll_name : string) (sort_keys : document) (limit : Z) (filter : option document)
  : AM (option (list document)) :=
  abind (db_op (collection db coll_name)) (fun coll =>
  abind (coll_op (list_indexes coll)) (fun indexes =>
  let query := match filter with Some f => f | None => [] end in
  let plan := plan_query_full query indexes None (Some sort_keys) (Some (wrap_i64 limit)) in
  match execution_plan plan with
  | SortedIndexScan _ _ _ _ as p =>
      abind (coll_op (fun st => (st, exec_plan coll (cs_store st) p query))) (fun docs => aret (Some docs))
  | _ => aret None
  end)).

(** Source: aggregation/mod.rs:405-441 (text_search). *)
Definition text_search_op (coll_name search_str : string) (filter : option document) : AM (option (list document)) :=
  let text := BDocument [("$search", BString search_str)] in
  let combined := match filter with Some f => doc_insert f "$text" text | None => [("$text", text)] end in
  abind (db_op (collection db coll_name)) (fun coll =>
  abind (coll_op (list_indexes coll)) (fun indexes =>
  match execution_plan (plan_query combined indexes) with
  | TextIndexScan _ _ as p =>
      abind (coll_op (fun st => (st, exec_plan coll (cs_store st) p combined))) (fun docs => aret (Some docs))
  | _ => aret None
  end)).

(** Source: aggregation/mod.rs:243-309 (vector_search). *)
Definition vector_search_op (coll_name field : string) (query_vec : list f32) (limit num_candidates : Z) (metric : string)
  (filter : option document) (exact : bool) : AM (option (list (document * f32))) :=
  abind (db_op (collection db coll_name)) (fun coll =>
  abind (coll_op (list_indexes coll)) (fun indexes =>
  match List.find (fun idx => match index_type (options idx) with Some VectorSearch => true | _ => false end) indexes with
  | None => aret None
  | Some vec_idx =>
      let vopts := vector_options (options vec_idx) in
      let use_flat := exact || match vopts with Some v => indexing_method v =s? "flat" | None => false end in
      let resolved_metric := match vopts with Some v => IndexKey.metric v | None => metric end in
      abind (coll_op (Find.find index_chars coll (match filter with Some f => f | None => [] end))) (fun candidates =>
      let effective_limit := Z.max num_candidates limit in
      abind (alift (score_documents candidates field query_vec effective_limit resolved_metric use_flat)) (fun scored =>
      aret (Some (if (limit <? Z.of_nat (length scored))%Z then iter_take limit scored else scored))))
  end)).

(** The index provider of a pipeline that runs on the state [st]. *)
Definition provider_at (st : cstate) : IndexProvider :=
  {| vector_search c f q lim n mt flt ex := snd (vector_search_op c f q lim n mt flt ex st);
     geo_near_indexed c f lon lat lim maxd q := snd (geo_near_op c f lon lat lim maxd q st);
     sorted_scan c sk lim f := snd (sorted_scan_op c sk lim f st) |}.

(** ** Writes *)

(** Source: aggregation/mod.rs:179-191 (drop_and_insert). *)
Definition drop_and_insert (name : string) (docs : list document) : AM unit :=
  abind (db_op (collection db name)) (fun coll =>
  abind (coll_op (delete_many coll [])) (fun _ =>
  if negb (length docs =? 0)%nat then abind (coll_op (insert_many coll docs)) (fun _ => aret tt) else aret tt)).

(** Source: aggregation/mod.rs:205-210 (upsert). *)
Definition on_filter (on_fields : list string) (doc : document) : document :=
  fold_left (fun filter field =>
    match doc_get doc field with Some val => doc_insert filter field val | None => filter end) on_fields [].

(** Source: aggregation/mod.rs:204-237 (upsert). One document. *)
Definition upsert_doc (coll : Collection) (on_fields : list string) (when_matched : string) (doc : document) : AM unit :=
  let filter := on_filter on_fields doc in
  abind (coll_op (find_one index_chars coll filter)) (fun existing =>
  match existing with
  | Some _ =>
      let set_it := abind (coll_op (update_one coll filter [("$set", BDocument doc)])) (fun _ => aret tt) in
      if when_matched =s? "replace" then set_it
      else if when_matched =s? "keepExisting" then aret tt
      else if when_matched =s? "fail"
           then alift (Err (AggErr (AggOther "$merge: document matched whenMatched=fail")))
      else set_it
  | None => abind (coll_op (insert_one coll doc)) (fun _ => aret tt)
  end).

(** Source: aggregation/mod.rs:193-239 (upsert). *)
Definition upsert_docs (name : string) (on_fields : list string) (docs : list document) (when_matched : string) : AM unit :=
  abind (db_op (collection db name)) (fun coll => afor_each docs (upsert_doc coll on_fields when_matched)).

(** [Document::get_str], as an option. *)
Definition str_at (d : document) (key : string) : option string :=
  match doc_get d key with Some (BString s) => Some s | _ => None end.

(** Source: aggregation/stages.rs:1753-1773 (execute_out). *)
Definition execute_out (spec : bson) (docs : list document) : AM unit :=
  let target :=
    match spec with
    | BString name => Some name
    | BDocument d => Some (match str_at d "coll" with
                           | Some s => s
                           | None => match str_at d "db" with Some s => s | None => "" end
                           end)
    | _ => None
    end in
  match target with
  | None => alift (Err (AggErr (InvalidStage "$out requires string or document")))
  | Some target =>
      if target =s? "" then alift (Err (AggErr (MissingField "$out target collection required")))
      else drop_and_insert target docs
  end.

(** Source: aggregation/stages.rs:1797-1804 (execute_merge). *)
Definition merge_on (merge_doc : document) : list string :=
  match doc_get merge_doc "on" with
  | Some (BString s) => [s]
  | Some (BArray arr) => List.concat (map (fun v => match v with BString s => [s] | _ => [] end) arr)
  | _ => ["_id"]
  end.

(** Source: aggregation/stages.rs:1775-1810 (execute_merge). *)
Definition execute_merge (spec : bson) (docs : list document) : AM unit :=
  match spec with
  | BDocument merge_doc =>
      match doc_get merge_doc "into" with
      | None => alift (Err (AggErr (MissingField "$merge.into required")))
      | Some into =>
          let target := match into with
                        | BString s => s
                        | BDocument d => match str_at d "coll" with Some s => s | None => "" end
                        | _ => ""
                        end in
          if target =s? "" then alift (Err (AggErr (MissingField "$merge target collection required")))
          else upsert_docs target (merge_on merge_doc) docs
                 (match str_at merge_doc "whenMatched" with Some s => s | None => "replace" end)
      end
  | _ => alift (Err (AggErr (InvalidStage "$merge requires document")))
  end.

(** Source: aggregation/mod.rs:564-575 (aggregate_with_db_collection). Also lines 632-643 of
    [aggregate_with_db_collection_streaming_opts]: the write stage, after all the results are
    there. *)
Definition run_write_stage (write_stage : option document) (results : list document) : AM unit :=
  match write_stage with
  | None => aret tt
  | Some [] => alift (Err (AggErr (InvalidStage "empty write stage")))
  | Some ((stage_name, stage_value) :: _) =>
      if stage_name =s? "$out" then execute_out stage_value results
      else if stage_name =s? "$merge" then execute_merge stage_value results
      else aret tt
  end.

(** ** The entry points *)

(** The collections [touched] that the stages of a pipeline asked for are there afterwards, empty
    if they were not there before. *)
Definition opened (touched : list string) (st : cstate) : cstate :=
  put_store st (fold_left create_table (map (prefixed (table_prefix db)) touched) (cs_store st)).

Definition index_ctx (source_collection : option string) (st : cstate) : option PipelineIndexCtx :=
  option_map (fun name => {| provider := provider_at st; source_collection := name |}) source_collection.

(** Source: aggregation/mod.rs:546-577 (aggregate_with_db_collection). *)
Definition aggregate_with_db_collection (touched : list string) (docs pipeline : list document)
  (source_collection : option string) : AM (list document) :=
  fun st =>
    let '(main_pipeline, write_stage) := split_write_stage pipeline in
    (abind (fun st' => (opened touched st',
                        let? stream := aggregate_stream_full stack docs main_pipeline
                          (Some (resolver_at st)) (index_ctx source_collection st) None in
                        collect stream)) (fun results =>
     abind (run_write_stage write_stage results) (fun _ => aret results))) st.

(** Source: aggregation/mod.rs:535-541 (aggregate_with_db). *)
Definition aggregate_with_db (touched : list string) (docs pipeline : list document) : AM (list document) :=
  aggregate_with_db_collection touched docs pipeline None.

(** Source: aggregation/mod.rs:603-645 (aggregate_with_db_collection_streaming_opts). The errors of
    the iterator already as those of the pipeline. *)
Definition aggregate_with_db_collection_streaming_opts (touched : list string) (docs : DocStream)
  (pipeline : list document) (source_collection : option string) (memory_limit_bytes : option Z)
  (allow_disk_use : bool) : AM (list document) :=
  fun st =>
    let '(main_pipeline, write_stage) := split_write_stage pipeline in
    (abind (fun st' => (opened touched st',
                        let? stream := aggregate_stream_full_from_iter stack docs main_pipeline
                          (Some (resolver_at st)) (index_ctx source_collection st) memory_limit_bytes allow_disk_use in
                        collect stream)) (fun results =>
     abind (run_write_stage write_stage results) (fun _ => aret results))) st.

(** Source: aggregation/mod.rs:581-599 (aggregate_with_db_collection_streaming). *)
Definition aggregate_with_db_collection_streaming (touched : list string) (docs : DocStream)
  (pipeline : list document) (source_collection : option string) (memory_limit_bytes : option Z) : AM (list document) :=
  aggregate_with_db_collection_streaming_opts touched docs pipeline source_collection memory_limit_bytes false.
End DbAggregate.

(** ** [$out] *)

Section Out.
Context {B : BsonOps} {Lm : Libm} {G : S2} {C : S2Cap} {T : TextEnv} {K : Clock}
  {J : JsonOps} {N : OplogEnv} {FP : F64Parse} {E : CollEnv} {A : AggEnv} {SE : StdEnv} {Ln : LnOps} {BC : BsonCodecLaws B}
  (index_chars : string -> bool)
  (stack : nat) (db : Database).
#[local] Existing Instance engine.

(** The handle a database opens for a name. *)
Definition handle (nm : string) : Collection :=
  {| coll_table := prefixed (table_prefix db) nm; collection_name := nm; validator := None; oplog := None |}.

Lemma collection_run nm st :
  collection db nm st =
  (put_cache (put_store st (create_table (cs_store st) (prefixed (table_prefix db) nm))) None, Ok (handle nm)).
Proof. unfold collection, of_coll, new, with_table_uri, handle, prefixed. by destruct (table_prefix db). Qed.

(** Creating tables changes no row. *)
Lemma create_table_ok (s : store) t : store_ok s ->
  store_ok (create_table s t) /\ forall u k, tbl_get (create_table s t) u k = tbl_get s u k.
Proof.
  intros Hs. unfold create_table. destruct (bt_get s t) eqn:Et; [done|].
  split; [apply put_table_ok; [done|constructor]|]. intros u k. unfold tbl_get.
  destruct (decide (u = t)) as [->|Hne]; [by rewrite bt_get_insert_eq, Et|by rewrite bt_get_insert_ne by (apply Hs || done)].
Qed.

Lemma create_tables_ok l (s : store) : store_ok s ->
  store_ok (fold_left create_table l s) /\ forall u k, tbl_get (fold_left create_table l s) u k = tbl_get s u k.
Proof.
  revert s. induction l as [|t l IH]; intros s Hs; [done|]. cbn [fold_left].
  destruct (create_table_ok s t Hs) as [H1 H2]. destruct (IH _ H1) as [H3 H4]. split; [done|]. intros u k. by rewrite H4.
Qed.

Lemma kept_rows_ok self n specs st st' :
  coll_ok self n specs (put_cache st None) -> store_ok (cs_store st') -> index_cache st' = None ->
  (forall u k, tbl_get (cs_store st') u k = tbl_get (cs_store st) u k) -> coll_ok self n specs st'.
Proof.
  intros Hok Hs Hc Hf. apply (keep_frame self n specs (put_cache st None)); [done|done|by rewrite Hc|].
  intros t k _. apply Hf.
Qed.

Lemma matches_empty doc : eval_filter doc [] = Ok true.
Proof. reflexivity. Qed.

(** Deleting with an empty filter empties the collection. *)
Lemma delete_all_runs self n specs st :
  layout self specs -> oplog self = None -> coll_ok self n specs st ->
  exists st' d, delete_many self [] st = (st', Ok d) /\ coll_ok self n specs st' /\
    forall k, tbl_get (cs_store st') (coll_table self) k = None.
Proof.
  intros Hl Hq Hok. destruct (delete_many_runs self n specs Hl [] st Hq Hok) as (st' & d & Hrun).
  { intros id doc _. exists true. apply matches_empty. }
  exists st', d. split; [done|]. apply batched_ok in Hrun as (st1 & H1 & ->).
  apply (delete_many_run self n specs Hl) in H1 as (Hok1 & _ & gone & Hr & _ & Hg); [|done].
  split; [by apply keep_cache; [|left]|]. intros k. rewrite app_nil_r in Hr.
  change (cs_store (put_cache st1 None)) with (cs_store st1).
  destruct (tbl_get (cs_store st1) (coll_table self) k) as [b|] eqn:Eb; [|done]. exfalso.
  apply Hg in Eb. rewrite app_nil_r in Eb. apply List.filter_In in Eb as [Hin Hn]. subst gone.
  apply table_rows_In in Hin; [|by apply Hok]. destruct (ok_keyed _ _ _ _ Hok _ _ Hin) as (id & doc & _ & _ & Hd & _).
  unfold row_matches, matching in Hn. cbn [snd] in Hn. by rewrite Hd, matches_empty in Hn.
Qed.

Lemma ready_id n docs ids id : Forall2 (ready n) docs ids -> In id ids -> exists d, In d docs /\ ready n d id.
Proof.
  induction 1 as [|d i docs ids Hd Hr IH]; [done|]. intros [->|Hin]; [exists d; split; [by left|done]|].
  destruct (IH Hin) as (d' & Hin' & Hd'). exists d'. split; [by right|done].
Qed.

(** The target holds the documents and nothing else. *)
Definition holds_exactly (self : Collection) (st : cstate) (docs : list document) : Prop :=
  forall id doc, holds self (cs_store st) id doc <-> In doc docs /\ extract_id_string doc = Ok id.

Lemma drop_and_insert_runs nm n specs docs ids st :
  layout (handle nm) specs -> (forall spec, In spec specs -> unique (options spec) = false) ->
  coll_ok (handle nm) n specs (put_cache st None) -> Forall2 (ready n) docs ids -> List.NoDup ids ->
  exists st', drop_and_insert db nm docs st = (st', Ok tt) /\
    coll_ok (handle nm) n specs st' /\ holds_exactly (handle nm) st' docs.
Proof.
  intros Hl Hu Hok Hr Hnd. unfold drop_and_insert, db_op. unfold abind at 1. rewrite collection_run. cbn [map_err].
  set (st1 := put_cache _ None). assert (Hok1 : coll_ok (handle nm) n specs st1).
  { destruct (create_table_ok (cs_store st) (prefixed (table_prefix db) nm)) as [H1 H2]; [by apply Hok|].
    by apply (kept_rows_ok _ _ _ st). }
  destruct (delete_all_runs (handle nm) n specs st1 Hl eq_refl Hok1) as (st2 & d & H2 & Hok2 & Hempty).
  unfold abind at 1, coll_op at 1. rewrite H2. cbn [map_err].
  assert (Hq : quiet (handle nm) specs) by (by split).
  destruct (insert_many_runs (handle nm) n specs Hl docs ids st2 Hq Hok2 Hr Hnd) as (st3 & r & H3 & Hok3 & Hin & Hout).
  { intros id _. apply Hempty. }
  assert (Hex : forall st', (forall k, tbl_get (cs_store st') (coll_table (handle nm)) k =
      tbl_get (cs_store st3) (coll_table (handle nm)) k) -> holds_exactly (handle nm) st' docs).
  { intros st' Hsame id doc. unfold holds. rewrite Hsame. split.
    - intros (b & Hb & Hd). destruct (in_dec string_dec id ids) as [Hi|Hni].
      + destruct (ready_id _ _ _ _ Hr Hi) as (d' & Hd' & (Hid & _)). destruct (Hin d' id Hd' Hid) as (b' & Hb' & Hd2).
        rewrite Hb in Hb'. injection Hb' as <-. rewrite Hd in Hd2. by injection Hd2 as <-.
      + rewrite Hout, Hempty in Hb; [done|]. intros d' id' Hd' Hid' Hx. apply as_bytes_inj in Hx as <-.
        destruct (ready_in _ _ _ _ Hr Hd') as (id2 & Hi2 & (Hid2 & _)). rewrite Hid' in Hid2. by injection Hid2 as <-.
    - intros [Hd Hid]. by apply Hin. }
  destruct docs as [|d0 docs]; cbn [length Nat.eqb negb].
  - exists st2. split; [done|]. split; [done|]. apply Hex. intros k. rewrite (Hout k) by (by intros ? ? []). done.
  - exists st3. unfold abind, coll_op. rewrite H3. split; [done|]. split; [done|]. by apply Hex.
Qed.

End Out.

(** ** Witness and behaviours worth recording *)

Section OutWitness.
Import RefBson.RefBson RefJson RefAgg RefStd RefLn RefFind RefColl.
#[local] Existing Instance engine.

Abbreviation run_on_db := (aggregate_with_db_collection all_chars 3 plain_db).

Definition newcomers : list document := [person "5" 25; person "6" 61].


Definition merged (spec docs : list document) : cstate :=
  fst (run_on_db [] docs [[("$merge", BDocument (List.concat spec))]] None two_people).
Definition people_in (st : cstate) : result (list document) failure := collect_collection_scan people (cs_store st) [].

(** [whenMatched: "replace"] sets the fields of the result; the others stay. *)
Theorem merge_replace_keeps_fields :
  people_in (merged [[("into", BString "people"); ("whenMatched", BString "replace")]] [[("_id", BString "1"); ("x", BInt32 7)]]) =
  Ok [[("_id", BString "1"); ("age", BInt32 40); ("x", BInt32 7)]; person "2" 30].
Proof. vm_compute. reflexivity. Qed.

(** A result without the [on] field is matched by every document: it changes the first one. *)
Theorem merge_without_key_changes_first :
  people_in (merged [[("into", BString "people"); ("on", BString "k")]] [[("x", BInt32 7)]]) =
  Ok [[("_id", BString "1"); ("age", BInt32 40); ("x", BInt32 7)]; person "2" 30].
Proof. vm_compute. reflexivity. Qed.

(** [whenNotMatched] is not looked at: a result that matches nothing is inserted. *)
Theorem merge_ignores_when_not_matched :
  people_in (merged [[("into", BString "people"); ("whenNotMatched", BString "discard")]] [person "3" 1]) =
  Ok [person "1" 40; person "2" 30; person "3" 1].
Proof. vm_compute. reflexivity. Qed.
End OutWitness.
