(* ===== verification/View.v ===== *)
(** * Views of a collection in a shared session

    [src/rust/smongo-engine/src/collection/view.rs], with the sessions of
    [database/mod.rs] that give them out: the operations of a collection on a
    borrowed session, without its cache, validator and oplog.  On a collection
    whose indexes are B-trees over all of it, an insertion and a deletion
    through a view do what those of the collection do; the last theorems show
    where a view leaves other indexes behind. *)

From Stdlib Require Import ZArith Lia Ascii String Strings.Byte Permutation Sorted.
From S2P Require Import F32 HnswExact VectorSearch.
From S2P Require Import Prelude F64 Bson RefBson Paths Geo Query Update BTree Storage IndexKey.
From S2P Require Import Planner Schema Collation Expressions Accumulators Stages Joins GeoNear Pipeline Oplog Collection Exec.
From S2P Require Import Consistency Progress Database SearchIndexes TextIndex Find.
From stdpp Require Import base tactics list strings gmap.

Open Scope string_scope.
Open Scope list_scope.

(** Source: collection/view.rs:17-21 (CollectionView). *)
Record CollectionView : Type := { view_table : string; view_name : string }.

Section View.
Context {B : BsonOps} {Lm : Libm} {G : S2} {T : TextEnv} {K : Clock}
  {J : JsonOps} {N : OplogEnv} {FP : F64Parse} {E : CollEnv} {A : AggEnv} {SE : StdEnv} {Ln : LnOps}.
#[local] Existing Instance engine.

(** Source: collection/view.rs:25-32 (new). *)
Definition view_new (nm table_uri : string) : M CollectionView :=
  let! _ := writing (fun s => (create_table s table_uri, Ok tt)) in
  ret {| view_table := table_uri; view_name := nm |}.

(** Source: database/mod.rs:387-394 (collection). *)
Definition session_collection (self : TransactionSession) (nm : string) : M CollectionView :=
  view_new nm (prefixed (session_prefix self) nm).

Section Ops.
Context (self : CollectionView).

(** The collection of the view, for the names of its tables. *)
Definition viewed : Collection :=
  {| coll_table := view_table self; collection_name := view_name self; validator := None; oplog := None |}.

(** Source: collection/view.rs:38-52 (list_indexes). Opening a cursor of the memory backend does
    not fail. *)
Definition view_list_indexes : M (list IndexSpec) :=
  for_rows [] (open_cursor (metadata_table viewed)) (fun indexes c =>
    let! spec_bytes := reading (fun _ => get_value_raw c) in
    let! spec := lift (map_err (fun e => Fail (COther ("index spec: " ++ e)%string)) (spec_from_slice spec_bytes)) in
    ret (GoOn (indexes ++ [spec]) c)).

Definition is_btree (spec : IndexSpec) : bool := bool_decide (resolve_index_type (keys spec) (options spec) = BTreeIndex).

(** Source: collection/view.rs:57-84 (insert_into_indexes). One index. *)
Definition view_insert_index (doc : document) (id_str : string) (spec : IndexSpec) : M unit :=
  if is_btree spec then
    let table := index_table viewed (name spec) in
    let! dup := (if unique (options spec)
                 then reading (fun s => index_has_prefix s (open_cursor table) (btree_key doc spec))
                 else ret false) in
    if (dup : bool) then
      throw (Fail (UniqueConstraintViolation ("Duplicate key for index '" ++ name spec ++
                     "' on fields: " ++ field_names (keys spec))%string))
    else put_entry table (btree_entry doc id_str spec) id_str
  else ret tt.

(** Source: collection/view.rs:54-86 (insert_into_indexes). *)
Definition view_insert_into_indexes (doc : document) : M unit :=
  let! indexes := view_list_indexes in
  let! id_str := lift (extract_id_string doc) in
  for_each indexes (view_insert_index doc id_str).

(** Source: collection/view.rs:91-109 (remove_from_indexes). One index. *)
Definition view_remove_index (doc : document) (id_str : string) (spec : IndexSpec) : M unit :=
  if is_btree spec then drop_entry (index_table viewed (name spec)) (btree_entry doc id_str spec) else ret tt.

(** Source: collection/view.rs:88-111 (remove_from_indexes). *)
Definition view_remove_from_indexes (doc : document) : M unit :=
  let! indexes := view_list_indexes in
  let! id_str := lift (extract_id_string doc) in
  for_each indexes (view_remove_index doc id_str).

(** Source: collection/view.rs:113-123 (insert_one). *)
Definition view_insert_one (doc : document) : M bson :=
  let! (doc, inserted_id) := ensure_id doc in
  let! _ := view_insert_into_indexes doc in
  let! doc_bytes := lift (serialize_document doc) in
  let! key_str := lift (extract_id_string doc) in
  let! _ := writing (fun s => Storage.insert s (set_value_raw (set_key_str (cursor viewed) key_str) doc_bytes)) in
  ret inserted_id.

(** Source: collection/view.rs:125-135 (find_one). *)
Definition view_find_one (filter : document) : M (option document) :=
  for_rows None (cursor viewed) (fun found c =>
    let! doc := lift (current_doc c) in
    let! matches := lift (eval_filter doc filter) in
    ret (if (matches : bool) then Stop (Some doc) else GoOn found c)).

(** Source: collection/view.rs:137-148 (find). *)
Definition view_find (filter : document) : M (list document) :=
  for_rows [] (cursor viewed) (fun results c =>
    let! doc := lift (current_doc c) in
    let! matches := lift (eval_filter doc filter) in
    ret (GoOn (if (matches : bool) then results ++ [doc] else results) c)).

(** Source: collection/view.rs:157-168 (update_one). Also lines 203-213 of [update_many]: a matching
    document; whether it changed, and the cursor. *)
Definition view_update_matching (c : MemCursor) (original update : document) : M (bool * MemCursor) :=
  let! doc := lift (map_err (raise UpdateError) (apply_update original update)) in
  if negb (bson_eqb (BDocument doc) (BDocument original)) then
    let! _ := view_remove_from_indexes original in
    let! _ := view_insert_into_indexes doc in
    let! updated_bytes := lift (serialize_document doc) in
    let c := set_value_raw c updated_bytes in
    let! _ := writing (fun s => Storage.update s c) in
    ret (true, c)
  else ret (false, c).

(** Source: collection/view.rs:150-187 (update_one). The counts of matched and modified documents. *)
Definition view_update_one (filter update : document) : M (Z * Z) :=
  for_rows (0%Z, 0%Z) (cursor viewed) (fun counts c =>
    let! doc := lift (current_doc c) in
    let! matches := lift (eval_filter doc filter) in
    if (matches : bool) then
      let! (changed, _) := view_update_matching c doc update in
      ret (Stop (1%Z, if (changed : bool) then 1%Z else 0%Z))
    else ret (GoOn counts c)).

(** Source: collection/view.rs:189-224 (update_many). *)
Definition view_update_many (filter update : document) : M (Z * Z) :=
  for_rows (0%Z, 0%Z) (cursor viewed) (fun counts c =>
    let '(matched, modified) := counts in
    let! doc := lift (current_doc c) in
    let! matches := lift (eval_filter doc filter) in
    if (matches : bool) then
      let! (changed, c) := view_update_matching c doc update in
      ret (GoOn ((matched + 1)%Z, if (changed : bool) then (modified + 1)%Z else modified) c)
    else ret (GoOn counts c)).

(** Source: collection/view.rs:231-235 (delete_one). Also lines 246-250 of [delete_many]. *)
Definition view_delete_row (one : bool) (filter : document) (deleted : Z) (c : MemCursor) : M (next_move Z) :=
  let! doc := lift (current_doc c) in
  let! matches := lift (eval_filter doc filter) in
  if (matches : bool) then
    let! _ := view_remove_from_indexes doc in
    let! _ := writing (fun s => Storage.remove s c) in
    ret (if one then Stop (deleted + 1)%Z else GoOn (deleted + 1)%Z c)
  else ret (GoOn deleted c).

(** Source: collection/view.rs:226-238 (delete_one). *)
Definition view_delete_one (filter : document) : M Z := for_rows 0%Z (cursor viewed) (view_delete_row true filter).

(** Source: collection/view.rs:240-255 (delete_many). *)
Definition view_delete_many (filter : document) : M Z := for_rows 0%Z (cursor viewed) (view_delete_row false filter).

(** Source: collection/view.rs:257-269 (count_documents). *)
Definition view_count_documents (filter : option document) : M Z :=
  let filter := match filter with Some f => f | None => [] end in
  for_rows 0%Z (cursor viewed) (fun count c =>
    let! doc := lift (current_doc c) in
    let! matches := lift (eval_filter doc filter) in
    ret (GoOn (if (matches : bool) then (count + 1)%Z else count) c)).

(** Source: collection/view.rs:275-285 (aggregate). *)
Definition view_aggregate
  (stack : nat) (pipeline : list document) : M (list document) :=
  let! docs := for_rows [] (cursor viewed) (fun docs c =>
    let! doc := lift (current_doc c) in
    ret (GoOn (docs ++ [doc]) c)) in
  lift (stage_failure (aggregate stack docs pipeline)).
End Ops.
End View.

(** ** Runs that do not look at the cache *)

Section Cacheless.
Context {J : JsonOps}.

(** Two states that differ in the cache at most, and results of that kind. *)
Definition same_state (st st' : cstate) : Prop := cs_world st = cs_world st' /\ oid_tick st = oid_tick st'.
Definition same_run {A} (r r' : cstate * result A failure) : Prop := same_state (fst r) (fst r') /\ snd r = snd r'.

#[export] Instance same_state_equiv : Equivalence same_state.
Proof. split; [done|intros ? ? []; split; congruence|intros ? ? ? [] []; split; congruence]. Qed.

#[export] Instance same_run_equiv {A} : Equivalence (@same_run A).
Proof.
  split; [done|intros ? ? [H1 H2]; split; [by symmetry|done]|].
  intros ? ? ? [H1 H2] [H3 H4]. split; [by etransitivity|by rewrite H2].
Qed.

Lemma same_store st st' : same_state st st' -> cs_store st = cs_store st'.
Proof. unfold cs_store. by intros [-> _]. Qed.

Lemma same_cache st c : same_state (put_cache st c) st.
Proof. done. Qed.

(** One computation gives the same from states that differ in the cache. *)
Definition cacheless {A} (m : M A) : Prop := forall st st', same_state st st' -> same_run (m st) (m st').

Lemma ret_cacheless {A} (a : A) : cacheless (ret a).
Proof. by intros st st' H. Qed.

Lemma lift_cacheless {A} (r : result A failure) : cacheless (lift r).
Proof. by intros st st' H. Qed.

Lemma reading_cacheless {A} (f : store -> result A StorageError) : cacheless (reading f).
Proof. intros st st' H. unfold reading. rewrite (same_store _ _ H). by split. Qed.

Lemma writing_cacheless f : cacheless (writing f).
Proof.
  intros st st' H. rewrite !writing_run, (same_store _ _ H). split; [|done]. destruct H as [H1 H2].
  unfold same_state, put_store, with_store. cbn. by rewrite H1, H2.
Qed.

Lemma bind_same {A A'} (m m' : M A) (k k' : A -> M A') st st' :
  same_run (m st) (m' st') ->
  (forall a, m st = (fst (m st), Ok a) -> m' st' = (fst (m' st'), Ok a) -> same_run (k a (fst (m st))) (k' a (fst (m' st')))) ->
  same_run (bind m k st) (bind m' k' st').
Proof.
  unfold bind. destruct (m st) as [s1 [a|e]], (m' st') as [s2 r]; intros [H1 H2] Hk; cbn in *; subst r; [by apply Hk|done].
Qed.

Lemma bind_cacheless {A A'} (m : M A) (k : A -> M A') : cacheless m -> (forall a, cacheless (k a)) -> cacheless (bind m k).
Proof. intros Hm Hk st st' H. apply bind_same; [by apply Hm|]. intros a H1 H2. apply Hk, (Hm st st' H). Qed.

Lemma for_each_same {X} (l : list X) (f g : X -> M unit) st st' :
  (forall x, In x l -> cacheless (f x)) -> (forall x st, In x l -> f x st = g x st) ->
  same_state st st' -> same_run (for_each l f st) (for_each l g st').
Proof.
  revert st st'. induction l as [|x l IH]; intros st st' Hf Hg H; [done|]. cbn [for_each].
  apply bind_same.
  - rewrite <- Hg by (by left). apply Hf; [by left|done].
  - intros [] _ _. apply IH; [intros y Hy; apply Hf; by right|intros y s Hy; apply Hg; by right|].
    rewrite <- Hg by (by left). apply (Hf x (or_introl eq_refl) st st' H).
Qed.
End Cacheless.

(** ** A view and its collection *)

Section Loops.
Context {J : JsonOps}.

(** Two loops over the rows of a table whose rounds give the same. *)
Lemma for_rows_same {Acc} (f g : Acc -> MemCursor -> M (next_move Acc)) (Inv : TableStore -> cstate -> Acc -> Prop) name acc st st' :
  keeps_cursor f -> keeps_cursor g ->
  (forall e rest c acc st st', at_row name c e -> Inv (e :: rest) st acc -> same_state st st' ->
     same_run (f acc c st) (g acc c st')) ->
  (forall e rest c acc st s1 acc' c', at_row name c e -> Inv (e :: rest) st acc ->
     f acc c st = (s1, Ok (GoOn acc' c')) -> Inv rest s1 acc') ->
  Inv (table_rows (cs_store st) name) st acc -> same_state st st' ->
  same_run (for_rows acc (open_cursor name) f st) (for_rows acc (open_cursor name) g st').
Proof.
  intros Hf Hg Hsame Hstep Hinv Hss. unfold for_rows.
  assert (Hst : forall h : Acc -> MemCursor -> M (next_move Acc), keeps_cursor h -> stays (loop_body h)).
  { intros h Hh [s a] c p e [s' a'] c' H. unfold loop_body in H.
    destruct (h a (moved c p e) s) as [s1 [[a1 c1|a1]|]] eqn:Eb; [|done|done].
    injection H as <- <- <-. by destruct (Hh _ _ _ _ _ _ Eb) as (-> & -> & _). }
  rewrite (while_next_rows _ _ _ _ _ (Hst f Hf)), (while_next_rows _ _ _ _ _ (Hst g Hg)). cbn [fst].
  rewrite <- (same_store _ _ Hss). set (c := materialize _ _). assert (Hc : table_name c = name) by done.
  clearbody c. generalize 0%nat. generalize dependent (table_rows (cs_store st) name). intros rows.
  revert st st' Hss acc c Hc. induction rows as [|e rows IH]; intros st st' Hss acc c Hc Hinv p; cbn [rows_loop]; [done|].
  assert (Hat : at_row name (moved c p e) e) by done. unfold loop_body at 1 3.
  pose proof (Hsame e rows _ acc st st' Hat Hinv Hss) as Hr.
  pose proof (fun s1 acc' c' => Hstep e rows _ acc st s1 acc' c' Hat Hinv) as Hs.
  destruct (f acc (moved c p e) st) as [s1 r1] eqn:Ef, (g acc (moved c p e) st') as [s2 r2].
  destruct Hr as [H1 H2]. cbn [fst snd] in H1, H2. subst r2. destruct r1 as [[a1 c1|a1]|e1]; [|done|done].
  destruct (Hf _ _ _ _ _ _ Ef) as (_ & _ & Ht). apply IH; [done|by rewrite Ht|by eapply Hs].
Qed.

Lemma batched_same {A} (f : M A) st : same_run (with_batched_write f st) (f st).
Proof.
  assert (Hput : forall st, put_store st (cs_store st) = st) by (by intros [[] ? ?]).
  unfold with_batched_write. cbn [Storage.in_transaction]. rewrite writing_run. cbn [fst snd map_err Storage.begin_transaction].
  rewrite Hput. destruct (f st) as [st1 [a|[e|m]]]; [| |done]; rewrite writing_run;
    cbn [fst snd map_err Storage.commit_transaction Storage.rollback_transaction]; by rewrite Hput.
Qed.
End Loops.

Section Agree.
Context {B : BsonOps} {Lm : Libm} {G : S2} {T : TextEnv} {K : Clock}
  {J : JsonOps} {N : OplogEnv} {FP : F64Parse} {E : CollEnv} {A : AggEnv} {SE : StdEnv} {Ln : LnOps} {BC : BsonCodecLaws B}
  (self : CollectionView) (n : nat) (specs : list IndexSpec).
#[local] Existing Instance engine.
Abbreviation coll := (viewed self).
Context (Hl : layout coll specs).

Lemma view_list_run st : stored_specs coll (cs_store st) = Ok specs -> view_list_indexes self st = (st, Ok specs).
Proof.
  intros Hsp. unfold stored_specs in Hsp.
  edestruct (for_rows_run (Acc := list IndexSpec)) with (Inv := fun rest st' acc =>
    st' = st /\ exists l, map_result parse_spec rest = Ok l /\ specs = acc ++ l) as (st' & r & Hrun & -> & l & Hl0 & Hspecs).
  4:{ unfold view_list_indexes. rewrite Hrun. injection Hl0 as <-. by rewrite Hspecs, app_nil_r. }
  - intros acc c s s' acc' c' H. apply bind_inv in H as (b & s1 & _ & H). apply bind_inv in H as (sp & s2 & _ & H). by injection H as _ _ <-.
  - intros e rest c s acc (_ & _ & Hv & _) (-> & l & Hm & Hs). cbn in Hm.
    unfold bind, reading, lift, get_value_raw. rewrite Hv. cbn [ok_or map_err].
    unfold parse_spec in Hm at 1. destruct (spec_from_slice (snd e)) as [sp|]; [|done]. cbn in Hm.
    destruct (map_result parse_spec rest) as [l'|] eqn:El; [|done]. injection Hm as <-.
    eexists _, _. split; [done|]. split; [done|]. exists l'. by rewrite <- app_assoc.
  - split; [done|]. by exists specs.
Qed.

Lemma is_btree_plain spec : plain_btree spec -> is_btree spec = true.
Proof. intros [H _]. unfold is_btree. by apply bool_decide_eq_true. Qed.

Lemma view_list_same st st' : coll_ok coll n specs st -> same_state st st' ->
  list_indexes coll st = (put_cache st (Some specs), Ok specs) /\ view_list_indexes self st' = (st', Ok specs).
Proof.
  intros Hok Hss. split; [apply list_indexes_run; [by eapply ok_specs|by eapply ok_cache]|].
  apply view_list_run. rewrite <- (same_store _ _ Hss). by eapply ok_specs.
Qed.

(** The indexes are maintained alike. *)
Lemma maintain_same (f g : document -> string -> IndexSpec -> M unit) doc st st' :
  (forall id spec, cacheless (f doc id spec)) ->
  (forall id spec st, plain_btree spec -> f doc id spec st = g doc id spec st) ->
  coll_ok coll n specs st -> same_state st st' ->
  same_run ((let! indexes := list_indexes coll in
             let! id_str := lift (extract_id_string doc) in for_each indexes (f doc id_str)) st)
           ((let! indexes := view_list_indexes self in
             let! id_str := lift (extract_id_string doc) in for_each indexes (g doc id_str)) st').
Proof.
  intros Hf Hg Hok Hss. destruct (view_list_same st st' Hok Hss) as [H1 H2]. unfold bind at 1 3. rewrite H1, H2.
  unfold bind, lift. destruct (extract_id_string doc) as [id|e]; [|done].
  apply for_each_same; [intros; apply Hf|intros spec s Hin; by apply Hg, (lay_plain _ _ Hl)|done].
Qed.

Lemma remove_single_cacheless doc id spec : cacheless (remove_from_indexes_single coll doc id spec).
Proof.
  unfold remove_from_indexes_single. destruct (resolve_index_type _ _); try apply ret_cacheless; try apply writing_cacheless.
  - destruct (twodsphere_index_key doc (keys spec)); [apply writing_cacheless|apply ret_cacheless].
  - intros st st' H. apply for_each_same; [intros; apply writing_cacheless|done|done].
Qed.

Lemma insert_single_cacheless doc id spec : cacheless (insert_into_indexes_single coll doc id spec).
Proof.
  unfold insert_into_indexes_single. apply bind_cacheless; [apply lift_cacheless|]. intros [|]; [apply ret_cacheless|].
  destruct (resolve_index_type _ _); try apply ret_cacheless; try apply writing_cacheless.
  - apply bind_cacheless; [destruct (unique (options spec)); [apply reading_cacheless|apply ret_cacheless]|].
    intros [|]; [by intros st st' H|apply writing_cacheless].
  - destruct (twodsphere_index_key doc (keys spec)); [apply writing_cacheless|].
    destruct (sparse (options spec)); [apply ret_cacheless|]. by intros st st' H.
  - intros st st' H. apply for_each_same; [intros; apply writing_cacheless|done|done].
Qed.

Lemma remove_same doc st st' : coll_ok coll n specs st -> same_state st st' ->
  same_run (remove_from_indexes coll doc st) (view_remove_from_indexes self doc st').
Proof.
  apply maintain_same; [intros; apply remove_single_cacheless|]. intros id spec s Hp.
  unfold remove_from_indexes_single, view_remove_index. rewrite (is_btree_plain _ Hp). by rewrite (proj1 Hp).
Qed.

Lemma insert_same doc st st' : coll_ok coll n specs st -> same_state st st' ->
  same_run (insert_into_indexes coll doc st) (view_insert_into_indexes self doc st').
Proof.
  apply maintain_same; [intros; apply insert_single_cacheless|]. intros id spec s Hp.
  unfold insert_into_indexes_single, view_insert_index, outside_partial. rewrite (is_btree_plain _ Hp).
  destruct Hp as [Hty ->]. unfold bind at 1, lift at 1. by rewrite Hty.
Qed.

Lemma delete_row_same one filter e rest c acc st st' :
  at_row (coll_table coll) c e -> coll_ok coll n specs st /\ pending coll (e :: rest) (cs_store st) -> same_state st st' ->
  same_run (delete_row coll one filter false acc c st) (view_delete_row self one filter acc c st').
Proof.
  intros Hat [Hok Hp] Hss. destruct e as [k b]. pose proof (proj2 Hp k b (or_introl eq_refl)) as Hb.
  destruct (ok_keyed _ _ _ _ Hok k b Hb) as (id & doc & -> & _ & Hd & Hid).
  destruct Hat as (_ & _ & Hv & _). assert (Hcur : current_doc c = Ok doc).
  { unfold current_doc, get_value_raw. rewrite Hv. cbn [ok_or map_err snd]. done. }
  unfold delete_row, view_delete_row. apply bind_same; [by apply lift_cacheless|]. intros d Hd1 _.
  unfold lift in Hd1. rewrite Hcur in Hd1. injection Hd1 as <-. cbn [fst lift].
  apply bind_same; [by apply lift_cacheless|]. intros [|] _ _; [|by apply ret_cacheless].
  assert (Hget : exists v, doc_get doc "_id" = Some v).
  { unfold extract_id_string in Hid. destruct (doc_get doc "_id"); [by eexists|done]. }
  destruct Hget as [v Hget]. unfold delete_matching, bind at 1 2, lift at 1. rewrite Hget. cbn [ok_or].
  pose proof (remove_same doc st st' Hok Hss) as [H1 H2]. unfold bind at 1 3.
  change (fst (lift (eval_filter doc filter) st)) with st. change (fst (lift (eval_filter doc filter) st')) with st'.
  destruct (remove_from_indexes coll doc st) as [s1 r1], (view_remove_from_indexes self doc st') as [s2 r2].
  cbn [fst snd] in H1, H2. subst r2. destruct r1 as [[]|e]; [|done].
  pose proof (writing_cacheless (fun s => Storage.remove s c) s1 s2 H1) as [H3 H4]. unfold bind.
  destruct (writing _ s1) as [s3 r3], (writing _ s2) as [s4 r4]. cbn [fst snd] in H3, H4. subst r4.
  destruct r3 as [[]|e]; [|done]. done.
Qed.

Lemma view_delete_keeps_cursor one filter : keeps_cursor (view_delete_row self one filter).
Proof.
  intros acc c st st' acc' c' H. apply bind_inv in H as (doc & st1 & _ & H).
  apply bind_inv in H as ([] & st2 & _ & H); [|by injection H as _ _ <-].
  apply bind_inv in H as ([] & st3 & _ & H). apply bind_inv in H as ([] & st4 & _ & H).
  destruct one; [done|]. by injection H as _ _ <-.
Qed.

Lemma delete_loop_same one filter st : coll_ok coll n specs st ->
  same_run (for_rows 0%Z (cursor coll) (delete_row coll one filter false) st)
           (for_rows 0%Z (cursor coll) (view_delete_row self one filter) st).
Proof.
  intros Hok. apply (for_rows_same _ _ (fun rest st _ => coll_ok coll n specs st /\ pending coll rest (cs_store st)));
    [apply delete_keeps_cursor|apply view_delete_keeps_cursor| | |split; [done|by apply (pending_start coll n specs)]|done].
  - intros e rest c acc s s' Hat Hinv Hss. by eapply delete_row_same.
  - intros e rest c acc s s1 acc' c' Hat [Hok1 Hp] Hrun.
    destruct (delete_row_round coll n specs Hl one filter false e rest c s acc s1 _ Hok1 Hp Hat Hrun) as (H1 & H2 & _). done.
Qed.

(** On a collection with B-tree indexes over all of it, without a validator and an oplog,
    an insertion and the deletions through a view have the same result, errors included, and leave
    the same store as those of the collection. *)
Theorem view_writes_agree doc filter st :
  coll_ok coll n specs st ->
  same_run (insert_one coll doc st) (view_insert_one self doc st) /\
  same_run (delete_one coll filter st) (view_delete_one self filter st) /\
  same_run (delete_many coll filter st) (view_delete_many self filter st).
Proof.
  intros Hok. split_and!.
  - etransitivity; [apply batched_same|]. unfold insert_one_inner, view_insert_one. apply bind_same; [done|].
    intros [d idv] He _. assert (Hok1 : coll_ok coll n specs (fst (ensure_id doc st))).
    { destruct (ensure_id_state doc st (fst (ensure_id doc st)) d idv He) as [Hs Hc]. by apply (keep_same coll n specs st). }
    unfold bind at 1, lift at 1, validate_doc. cbn [validator viewed]. unfold store_document.
    set (s0 := fst (ensure_id doc st)) in *. pose proof (insert_same d s0 s0 Hok1 ltac:(done)) as [H1 H2].
    unfold bind, lift. destruct (insert_into_indexes coll d s0) as [s1 r1], (view_insert_into_indexes self d s0) as [s2 r2].
    cbn [fst snd] in H1, H2. subst r2. destruct r1 as [[]|e]; [|done].
    destruct (serialize_document d) as [b|]; [|done]. destruct (extract_id_string d) as [id|]; [|done].
    set (c := set_value_raw _ _). pose proof (writing_cacheless (fun s => Storage.insert s c) s1 s2 H1) as [H3 H4].
    destruct (writing _ s1) as [s3 r3], (writing _ s2) as [s4 r4]. cbn [fst snd] in H3, H4. subst r4. by destruct r3 as [[]|e].
  - etransitivity; [apply batched_same|]. by apply delete_loop_same.
  - etransitivity; [apply batched_same|]. by apply delete_loop_same.
Qed.
End Agree.

(** ** Witness and behaviours worth recording *)

Section ViewWitness.
Import RefBson.RefBson RefJson RefAgg RefStd RefLn RefFind RefColl.
#[local] Existing Instance engine.

Definition people_view : CollectionView := {| view_table := "people"; view_name := "people" |}.

Lemma view_writes_agree_witness :
  same_run (insert_one people (person "3" 20) two_people) (view_insert_one people_view (person "3" 20) two_people) /\
  same_run (delete_one people over_35 two_people) (view_delete_one people_view over_35 two_people) /\
  same_run (delete_many people over_35 two_people) (view_delete_many people_view over_35 two_people).
Proof.
  exact (view_writes_agree people_view 1 [by_age] people_layout (person "3" 20) over_35 two_people two_people_ok).
Defined.

(** The insertion above takes place: the row and its index entry are there. *)
Example view_insert_takes_place :
  let st := after (view_insert_one people_view (person "3" 20)) two_people in
  length (table_rows (cs_store st) "people") = 3%nat /\
  length (table_rows (cs_store st) "people.idx_age_1") = 3%nat.
Proof. vm_compute. split; reflexivity. Qed.

(** A view maintains the B-tree indexes alone: a document it stores is not in a text index, and
    one it deletes stays in it. *)
Theorem view_skips_text_index :
  let st := after (create_index people [("s", BString "text")] None) (after (new "people") empty_state) in
  let words st := length (table_rows (cs_store st) "people.ftx_s_text") in
  words (after (insert_one people (named "1" "red")) st) = 1%nat /\
  words (after (view_insert_one people_view (named "1" "red")) st) = 0%nat /\
  words (after (view_delete_many people_view []) (after (insert_one people (named "1" "red")) st)) = 1%nat.
Proof. vm_compute. split_and!; reflexivity. Qed.

(** A view does not look at the filter of a partial index: a document outside it is entered. *)
Theorem view_ignores_partial_filter :
  let opts := {| opt_name := None; unique := false; sparse := false; background := false; expire_after_seconds := None;
                 partial_filter_expression := Some over_35; collation := None; index_type := None;
                 vector_options := None; text_options := None; prefix_options := None |} in
  let spec := {| name := "age_1"; keys := keys by_age; options := opts |} in
  let entries st := length (table_rows (cs_store st) "people.idx_age_1") in
  entries (after (insert_into_indexes_single people (person "1" 20) "1" spec) indexed_state) = 0%nat /\
  entries (after (view_insert_index people_view (person "1" 20) "1" spec) indexed_state) = 1%nat.
Proof. vm_compute. split; reflexivity. Qed.
End ViewWitness.
