(* ===== verification/Explain.v ===== *)
(** * Explanations of queries

    [src/rust/smongo-engine/src/explain/mod.rs] and [collection/explain.rs]:
    the plan of a query with the numbers of documents and index entries that
    are read for it.  The text of [summary] is not modelled.

    In a consistent collection the number of documents an explanation says a
    query returns is the number [find] returns, and the documents it says are
    examined are all those of the collection, whatever the plan. *)

From Stdlib Require Import ZArith Lia Ascii String Strings.Byte Permutation Sorted.
From S2P Require Import F32 HnswExact VectorSearch.
From S2P Require Import Prelude F64 Bson RefBson Paths Geo Query Update BTree Storage IndexKey.
From S2P Require Import Planner Schema Collation Expressions Accumulators Stages Joins GeoNear Pipeline Oplog Collection Exec.
From S2P Require Import Consistency SearchIndexes TextIndex Find.
From stdpp Require Import base tactics list strings gmap.

Open Scope string_scope.
Open Scope list_scope.

(** Source: explain/mod.rs:13-22 (ExecutionStats). *)
Record ExecutionStats : Type := {
  documents_examined : Z;
  documents_returned : Z;
  index_entries_examined : Z;
  execution_time_micros : option Z }.

(** Source: explain/mod.rs:26-28 (new). *)
Definition stats_new : ExecutionStats :=
  {| documents_examined := 0; documents_returned := 0; index_entries_examined := 0; execution_time_micros := None |}.

(** Source: explain/mod.rs:31-33 (inc_documents_examined). *)
Definition inc_documents_examined (st : ExecutionStats) : ExecutionStats :=
  {| documents_examined := documents_examined st + 1; documents_returned := documents_returned st;
     index_entries_examined := index_entries_examined st; execution_time_micros := execution_time_micros st |}.

(** Source: explain/mod.rs:36-38 (inc_documents_returned). *)
Definition inc_documents_returned (st : ExecutionStats) : ExecutionStats :=
  {| documents_examined := documents_examined st; documents_returned := documents_returned st + 1;
     index_entries_examined := index_entries_examined st; execution_time_micros := execution_time_micros st |}.

(** Source: explain/mod.rs:41-43 (inc_index_entries_examined). *)
Definition inc_index_entries_examined (st : ExecutionStats) : ExecutionStats :=
  {| documents_examined := documents_examined st; documents_returned := documents_returned st;
     index_entries_examined := index_entries_examined st + 1; execution_time_micros := execution_time_micros st |}.

(** Source: explain/mod.rs:46-48 (set_execution_time_micros). *)
Definition set_execution_time_micros (st : ExecutionStats) (micros : Z) : ExecutionStats :=
  {| documents_examined := documents_examined st; documents_returned := documents_returned st;
     index_entries_examined := index_entries_examined st; execution_time_micros := Some micros |}.

(** Source: explain/mod.rs:68-91 (ExecutionPlanExplain). *)
Inductive ExecutionPlanExplain : Type :=
| ECollectionScan
| EIndexScan (index_name : string)
| EIndexSeek (index_name : string)
| ECoveringIndexScan (index_name : string)
| ESortedIndexScan (index_name : string)
| EVectorIndexSearch (index_name : string)
| EBitmapScan (index_name : string)
| ETextIndexScan (index_name : string)
| EPrefixIndexScan (index_name : string)
| EGeo (index_name : string)
| EOrUnion.

(** Source: explain/mod.rs:94-138 (from). *)
Definition explain_plan (plan : ExecutionPlan) : ExecutionPlanExplain :=
  match plan with
  | CollectionScan => ECollectionScan
  | IndexScan index_name _ => EIndexScan index_name
  | IndexSeek index_name _ _ => EIndexSeek index_name
  | CoveringIndexScan index_name _ _ _ => ECoveringIndexScan index_name
  | SortedIndexScan index_name _ _ _ => ESortedIndexScan index_name
  | VectorIndexSearch index_name _ _ _ _ _ _ => EVectorIndexSearch index_name
  | BitmapScan index_name _ => EBitmapScan index_name
  | TextIndexScan index_name _ => ETextIndexScan index_name
  | PrefixIndexScan index_name _ _ => EPrefixIndexScan index_name
  | GeoNear index_name _ _ _ _ _ | GeoCapWithin index_name _ _ _ _ | GeoCellCover index_name _ _ => EGeo index_name
  | OrUnionPlans _ => EOrUnion
  end.

(** Source: explain/mod.rs:53-64 (ExplainResult). *)
Record ExplainResult : Type := {
  query_filter : document;
  explained_plan : ExecutionPlanExplain;
  execution_stats : ExecutionStats;
  index_used : option string;
  plan_reason : string }.

(** Source: explain/mod.rs:144-157 (new). *)
Definition plan_index (plan : ExecutionPlan) : option string :=
  match plan with
  | CollectionScan | OrUnionPlans _ => None
  | IndexScan index_name _ | IndexSeek index_name _ _ | CoveringIndexScan index_name _ _ _
  | SortedIndexScan index_name _ _ _ | VectorIndexSearch index_name _ _ _ _ _ _ | BitmapScan index_name _
  | TextIndexScan index_name _ | PrefixIndexScan index_name _ _ | GeoNear index_name _ _ _ _ _
  | GeoCapWithin index_name _ _ _ _ | GeoCellCover index_name _ _ => Some index_name
  end.

(** Source: explain/mod.rs:143-166 (new). *)
Definition explain_new (query_filter : document) (plan : ExecutionPlan) (plan_reason : string) : ExplainResult :=
  {| query_filter := query_filter; explained_plan := explain_plan plan; execution_stats := stats_new;
     index_used := plan_index plan; plan_reason := plan_reason |}.

(** Source: explain/mod.rs:169-175 (efficiency). *)
Definition efficiency (r : ExplainResult) : f64 :=
  let stats := execution_stats r in
  if (documents_examined stats =? 0)%Z then f64_one
  else f64_div (f64_of_Z (documents_returned stats)) (f64_of_Z (documents_examined stats)).

(** Source: explain/mod.rs:178-180 (is_efficient). [0.1] is the quotient of 1 and 10. *)
Definition is_efficient (r : ExplainResult) : bool :=
  f64_ltb (f64_div f64_one (f64_of_Z 10)) (efficiency r).

Section Explain.
Context {B : BsonOps} {Lm : Libm} {G : S2} {C : S2Cap} {T : TextEnv} {K : Clock}
  {J : JsonOps} {N : OplogEnv} {FP : F64Parse} {E : CollEnv} {A : AggEnv} {SE : StdEnv} {Ln : LnOps}
  (index_chars : string -> bool)
  (self : Collection).
#[local] Existing Instance engine.

(** [if eval_query(&doc, filter)? { stats.inc_documents_returned() }]. *)
Definition count_matching (filter doc : document) (stats : ExecutionStats) : result ExecutionStats failure :=
  let? matches := eval_filter doc filter in
  Ok (if (matches : bool) then inc_documents_returned stats else stats).

(** Source: collection/explain.rs:106-113 (estimate_query_stats). A row of the collection. *)
Definition explain_row (filter : document) (stats : ExecutionStats) (c : MemCursor)
  : result (next_move ExecutionStats) failure :=
  let stats := inc_documents_examined stats in
  let? doc := current_doc c in
  let? stats := count_matching filter doc stats in
  Ok (GoOn stats c).

(** Source: collection/explain.rs:137-156 (estimate_query_stats). An entry of the index. *)
Definition explain_entry (s : store) (filter : document) (is_covering : bool) (stats : ExecutionStats) (c : MemCursor)
  : result (next_move ExecutionStats) failure :=
  let stats := inc_index_entries_examined stats in
  if negb is_covering then
    let? id_str := value_str c in
    match Storage.search s (set_key_str (cursor self) id_str) with
    | (data_cursor, Ok _) =>
        let stats := inc_documents_examined stats in
        let? doc := current_doc data_cursor in
        let? stats := count_matching filter doc stats in
        Ok (GoOn stats c)
    | (_, Err _) => Ok (GoOn stats c)
    end
  else Ok (GoOn (inc_documents_returned stats) c).

(** Source: collection/explain.rs:92-177 (estimate_query_stats). *)
Definition estimate_query_stats (s : store) (filter : document) (plan : ExecutionPlan) (stats : ExecutionStats)
  : result ExecutionStats failure :=
  match plan with
  | CollectionScan => read_rows s stats (cursor self) (explain_row filter)
  | IndexScan index_name _ | IndexSeek index_name _ _ | CoveringIndexScan index_name _ _ _
  | SortedIndexScan index_name _ _ _ | GeoNear index_name _ _ _ _ _ | GeoCapWithin index_name _ _ _ _
  | GeoCellCover index_name _ _ =>
      let is_covering := match plan with CoveringIndexScan _ _ _ _ => true | _ => false end in
      read_rows s stats (open_cursor (index_table self index_name)) (explain_entry s filter is_covering)
  | OrUnionPlans _ | VectorIndexSearch _ _ _ _ _ _ _ | BitmapScan _ _ | TextIndexScan _ _ | PrefixIndexScan _ _ _ =>
      let? docs := execute_plan index_chars self s plan filter in
      Ok (fold_left (fun stats _ => inc_documents_returned (inc_documents_examined stats)) docs stats)
  end.

(** Source: collection/explain.rs:58-68 (explain_find). Also lines 28-38, the same body for
    [explain_find_one]. *)
Definition explain_find (filter : document) : M ExplainResult :=
  let! indexes := list_indexes self in
  let plan := plan_query filter indexes in
  let explain := explain_new filter (execution_plan plan) (reason plan) in
  fun st =>
    (st, let? stats := estimate_query_stats (cs_store st) filter (execution_plan plan) (execution_stats explain) in
         Ok {| query_filter := query_filter explain; explained_plan := explained_plan explain; execution_stats := stats;
               index_used := index_used explain; plan_reason := plan_reason explain |}).

(** Source: collection/explain.rs:28-38 (explain_find_one). *)
Definition explain_find_one (filter : document) : M ExplainResult := explain_find filter.

(** Source: collection/explain.rs:85-89 (explain_aggregate). *)
Definition explain_aggregate (pipeline : list document) : M ExplainResult :=
  let '(leading_match, _) := optimize_pipeline pipeline in
  explain_find (match leading_match with Some f => f | None => [] end).
End Explain.

(** ** What an explanation counts *)

Section Counts.
Context {B : BsonOps} {Lm : Libm} {G : S2} {C : S2Cap} {T : TextEnv} {K : Clock}
  {J : JsonOps} {N : OplogEnv} {FP : F64Parse} {E : CollEnv} {A : AggEnv} {SE : StdEnv} {Ln : LnOps}
  {BL : BsonLaws B}
  (index_chars : string -> bool)
  (self : Collection).
#[local] Existing Instance engine.

Abbreviation explain_find := (explain_find index_chars self).
Abbreviation find := (Find.find index_chars self).

(** The counts after a document, read through an index or not. *)
Definition seen (ix matches : bool) (st : ExecutionStats) : ExecutionStats :=
  let st := if ix then inc_index_entries_examined st else st in
  let st := inc_documents_examined st in
  if matches then inc_documents_returned st else st.

Definition counted (ix : bool) (examined returned : nat) : ExecutionStats :=
  {| documents_examined := Z.of_nat examined; documents_returned := Z.of_nat returned;
     index_entries_examined := if ix then Z.of_nat examined else 0; execution_time_micros := None |}.

Lemma fold_counted {X} (step : ExecutionStats -> X -> result ExecutionStats failure) (D : X -> document) ix filter n m l :
  (forall st e, In e l -> step st e = Ok (seen ix (matching filter (D e)) st)) ->
  fold_result step (counted ix n m) l =
  Ok (counted ix (n + length l) (m + length (List.filter (matching filter) (map D l)))).
Proof.
  revert n m. induction l as [|e l IH]; intros n m H; [by rewrite !Nat.add_0_r|]. cbn [fold_result].
  rewrite H by (by left).
  assert (Hs : seen ix (matching filter (D e)) (counted ix n m) =
               counted ix (S n) (if matching filter (D e) then S m else m)).
  { unfold seen, inc_documents_returned, inc_documents_examined, inc_index_entries_examined, counted. destruct ix, (matching filter (D e)); cbn [documents_examined documents_returned index_entries_examined execution_time_micros]; f_equal; lia. }
  rewrite Hs, IH by (intros; apply H; by right). cbn [map List.filter length]. do 2 f_equal; [lia|].
  destruct (matching filter (D e)); cbn [length]; lia.
Qed.

Lemma explain_row_body filter :
  row_body (explain_row filter) (fun st e => let? a := (let? doc := deserialize_document (snd e) in
    count_matching filter doc (inc_documents_examined st)) in Ok (inl a)).
Proof.
  intros st c e _ Hv. unfold explain_row, current_doc, get_value_raw. rewrite Hv. cbn [ok_or map_err].
  destruct (deserialize_document (snd e)) as [d|]; [|done]. simpl. by destruct (count_matching filter d _).
Qed.

Lemma explain_entry_body s filter :
  row_body (explain_entry self s filter false) (fun st e => let? a := (
    let? id_str := storage_failure (from_utf8 utf8_err (snd e) "value") in
    let? found := fetch_doc_by_id_str self s id_str in
    match found with
    | Some doc => count_matching filter doc (inc_documents_examined (inc_index_entries_examined st))
    | None => Ok (inc_index_entries_examined st)
    end) in Ok (inl a)).
Proof.
  intros st c e _ Hv. unfold explain_entry, value_str, get_value_str, get_value_raw, fetch_doc_by_id_str.
  rewrite Hv. cbn [ok_or negb]. destruct (storage_failure _) as [id|]; [|done]. simpl.
  destruct (Storage.search s _) as [c' [[]|]]; [|done]. destruct (current_doc c') as [d|]; [|done]. simpl.
  by destruct (count_matching filter d _).
Qed.

Lemma count_matching_total filter doc b st :
  eval_filter doc filter = Ok b ->
  count_matching filter doc st = Ok (if matching filter doc then inc_documents_returned st else st).
Proof. intros H. unfold count_matching, matching. by rewrite H. Qed.

Lemma holds_fetch s id doc : holds self s id doc -> fetch_doc_by_id_str self s id = Ok (Some doc).
Proof.
  intros (b & Hb & Hd). unfold fetch_doc_by_id_str, Storage.search, cursor. simpl.
  unfold tbl_get in Hb. destruct (bt_get s (coll_table self)) as [t|]; [|done]. simpl in Hb. rewrite Hb.
  unfold current_doc. simpl. by rewrite Hd.
Qed.

Lemma explain_collection s filter :
  store_ok s -> well_keyed self s -> answers self s filter ->
  read_rows s stats_new (cursor self) (explain_row filter) =
  Ok (counted false (length (table_rows s (coll_table self)))
        (length (List.filter (matching filter) (map (doc_at self s) (map fst (table_rows s (coll_table self))))))).
Proof.
  intros Hs Hw Ha. unfold cursor. erewrite read_rows_fold by apply explain_row_body. rewrite fold_until_result.
  change stats_new with (counted false 0 0). rewrite (fold_counted _ (fun e => doc_at self s (fst e)) false filter).
  { by rewrite map_map. }
  intros st [k v] Hin. apply table_rows_In in Hin; [|done]. destruct (Hw k v Hin) as (id & doc & -> & _ & Hd & _).
  assert (Hh : holds self s id doc) by (by exists v). destruct (Ha _ _ Hh) as [b Hb]. cbn [fst snd].
  rewrite Hd, (holds_doc_at _ _ _ _ Hh). simpl. by rewrite (count_matching_total _ _ _ _ Hb).
Qed.

Lemma explain_index s spec filter :
  store_ok s -> well_keyed self s -> agrees self s spec -> answers self s filter ->
  read_rows s stats_new (open_cursor (index_table self (name spec))) (explain_entry self s filter false) =
  Ok (counted true (length (table_rows s (coll_table self)))
        (length (List.filter (matching filter) (map (doc_at self s) (map fst (table_rows s (coll_table self))))))).
Proof.
  intros Hs Hw Hg Ha. erewrite read_rows_fold by apply explain_entry_body. rewrite fold_until_result.
  change stats_new with (counted true 0 0). rewrite (fold_counted _ (fun e => doc_at self s (snd e)) true filter).
  - pose proof (entries_permute self s spec (fun _ => true) Hs Hw Hg) as Hp.
    rewrite !filter_every in Hp by done. cbn [Nat.add]. do 2 f_equal.
    + apply Permutation_length in Hp. by rewrite !length_map in Hp.
    + rewrite <- (map_map snd (doc_at self s)). by apply Permutation_length, perm_filter, Permutation_map.
  - intros st [key v] Hin. apply table_rows_In in Hin; [|done]. apply Hg in Hin as (id & doc & Hh & _ & ->).
    destruct (Ha _ _ Hh) as [b Hb]. cbn [snd]. rewrite (holds_doc_at _ _ _ _ Hh). destruct Hh as (buf & Hbuf & Hd).
    destruct (Hw _ _ Hbuf) as (_ & _ & _ & Hu & _). unfold from_utf8. rewrite Hu. unfold as_bytes at 1.
    rewrite string_of_list_byte_of_string. cbn [map_err storage_failure]. rewrite (holds_fetch s id doc) by (by exists buf).
    cbn -[count_matching]. by rewrite (count_matching_total _ _ _ _ Hb).
Qed.

(** In a consistent collection the explanation of a query gives the plan [find] runs, and
    the number of documents it says are returned is the number [find] returns.  The documents
    examined are all those of the collection, and all entries of the index when one is used. *)
Theorem explain_counts_find n specs st filter :
  coll_ok self n specs st -> Forall seekable specs -> doc_get filter "$or" = None ->
  answers self (cs_store st) filter -> exact_seeks self (cs_store st) specs filter ->
  exists r docs, snd (explain_find filter st) = Ok r /\ snd (find filter st) = Ok docs /\
    explained_plan r = explain_plan (execution_plan (plan_query filter specs)) /\
    documents_returned (execution_stats r) = Z.of_nat (length docs) /\
    documents_examined (execution_stats r) = Z.of_nat (length (table_rows (cs_store st) (coll_table self))) /\
    index_entries_examined (execution_stats r) =
      match index_used r with
      | Some _ => Z.of_nat (length (table_rows (cs_store st) (coll_table self)))
      | None => 0%Z
      end.
Proof.
  intros Hok Hsk Hor Ha Hex.
  destruct (find_permutes index_chars self n specs st filter Hok Hsk Hor Ha Hex) as (docs & docs' & Hc & Hf & Hp).
  rewrite collection_scan_ok in Hc by (done || apply Hok). injection Hc as <-. apply Permutation_length in Hp.
  pose proof (query_btree_plan specs filter Hsk Hor) as Hplan.
  unfold explain_find, Explain.explain_find, bind. rewrite (list_indexes_run self st specs) by apply Hok. cbn [snd].
  change (cs_store (put_cache st (Some specs))) with (cs_store st).
  pose proof (ok_store _ _ _ _ Hok) as Hs. pose proof (ok_keyed _ _ _ _ Hok) as Hk.
  unfold estimate_query_stats, explain_new. cbn [execution_stats].
  destruct (execution_plan (plan_query filter specs)); try done.
  - rewrite explain_collection by done. eexists _, docs'. split; [reflexivity|]. cbn. by rewrite Hp.
  - destruct Hplan as (i & Hi & <-). rewrite explain_index by (done || by apply (ok_agrees _ _ _ _ Hok)).
    eexists _, docs'. split; [reflexivity|]. cbn. by rewrite Hp.
  - destruct Hplan as (i & f & v & Hi & <- & _). rewrite explain_index by (done || by apply (ok_agrees _ _ _ _ Hok)).
    eexists _, docs'. split; [reflexivity|]. cbn. by rewrite Hp.
Qed.
End Counts.

(** ** Witness and behaviours worth recording *)

Section ExplainWitness.
Import RefBson.RefBson RefJson RefAgg RefStd RefLn RefFind RefColl.
#[local] Existing Instance engine.

Abbreviation explain_people := (explain_find all_chars people).

Lemma explain_counts_find_witness :
  exists r docs, snd (explain_people aged_40 two_people) = Ok r /\
    snd (Find.find all_chars people aged_40 two_people) = Ok docs /\
    explained_plan r = EIndexSeek "age_1" /\
    documents_returned (execution_stats r) = Z.of_nat (length docs) /\
    documents_examined (execution_stats r) = 2%Z /\
    index_entries_examined (execution_stats r) = match index_used r with Some _ => 2%Z | None => 0%Z end.
Proof.
  change 2%Z with (Z.of_nat 2).
  replace 2%nat with (length (table_rows (cs_store two_people) (coll_table people))) by (vm_compute; reflexivity).
  replace (EIndexSeek "age_1") with (explain_plan (execution_plan (plan_query aged_40 [by_age]))) by (vm_compute; reflexivity).
  apply (explain_counts_find all_chars people 1 [by_age] two_people aged_40).
  - exact two_people_ok.
  - constructor; [exact by_age_seekable|constructor].
  - reflexivity.
  - intros id doc H. apply two_people_hold in H as [->| ->]; [exists true|exists false]; vm_compute; reflexivity.
  - intros spec f v [<-|[]] [= <-] [= <-] _. split; [reflexivity|]. intros id doc a H.
    apply two_people_hold in H as [->| ->]; vm_compute; by intros [= <-].
Defined.

(** The counts of a seek are those of a scan of its index: one document has the age asked for, and
    the explanation counts both entries and both documents as examined. *)
Theorem explain_seek_counts_scan :
  match snd (explain_people aged_40 two_people) with
  | Ok r => explained_plan r = EIndexSeek "age_1" /\ index_entries_examined (execution_stats r) = 2%Z /\
            documents_examined (execution_stats r) = 2%Z /\ documents_returned (execution_stats r) = 1%Z
  | Err _ => False
  end.
Proof. vm_compute. split_and!; reflexivity. Qed.

(** A query that returns nothing from nothing is efficient; one that returns a tenth is not. *)
Definition with_counts (examined returned : Z) : ExplainResult :=
  {| query_filter := []; explained_plan := ECollectionScan; index_used := None; plan_reason := "";
     execution_stats := {| documents_examined := examined; documents_returned := returned;
                           index_entries_examined := 0; execution_time_micros := None |} |}.

Example efficiency_bounds :
  is_efficient (with_counts 0 0) = true /\ is_efficient (with_counts 100 10) = false /\
  is_efficient (with_counts 100 11) = true.
Proof. vm_compute. split_and!; reflexivity. Qed.
End ExplainWitness.
