(* ===== verification/Opfs.v ===== *)
(** * The OPFS storage backend

    [src/rust/smongo-engine/src/storage/opfs.rs]: a table is a file of the
    browser's private file system, behind a handle.  A cursor reads the whole
    file when it is opened, works on its own copy of the rows, and writes the
    file when it is dropped.  The state is the map of handles, shared by the
    sessions, and the contents behind each handle; what the browser answers
    ([get_size], [read], [truncate], [write], [flush]) is an argument of the
    operations that ask it.  The target has 32-bit addresses: [usize] sums
    wrap there. *)

From Stdlib Require Import ZArith Lia Ascii String Strings.Byte Sorted.
From S2P Require Import Prelude F64 Bson Paths IndexKey LeBytes BTree Storage.
From stdpp Require Import base tactics list strings gmap.

Open Scope string_scope.
Open Scope list_scope.

Module Opfs.

(** An error, or a panic. *)
Inductive failure : Type :=
| Failed (e : StorageError)
| Panicked (msg : string).

Definition failed {R} (e : StorageError) : result R failure := Err (Failed e).
Definition wrap_usize (n : Z) : Z := (n mod 2 ^ 32)%Z.

(** ** Files *)

(** Source: storage/opfs.rs:416-428 (serialize_file). *)
Definition serialize_file (entries : list (bytes * bytes)) : bytes :=
  flat_map (fun '(key, value) =>
    le_bytes 4 (Z.of_nat (length key)) ++ key ++ le_bytes 4 (Z.of_nat (length value)) ++ value) entries.

(** Source: storage/opfs.rs:387-411 (parse_file). The loop; every turn reads eight bytes. *)
Fixpoint parse_loop (fuel : nat) (b : bytes) (pos : nat) (entries : list (bytes * bytes))
  : result (list (bytes * bytes)) failure :=
  match fuel with
  | O => Ok entries
  | S fuel =>
      let len := Z.of_nat (length b) in
      if negb (pos + 4 <=? length b)%nat then Ok entries
      else
        let klen := le_u32_at b pos in
        let pos := (pos + 4)%nat in
        if (len <? wrap_usize (Z.of_nat pos + klen + 4))%Z then Ok entries
        else
          let key_end := wrap_usize (Z.of_nat pos + klen) in
          if ((key_end <? Z.of_nat pos) || (len <? key_end + 4))%Z then Err (Panicked "slice index out of range")
          else
            let key := slice_at b pos (Z.to_nat key_end) in
            let pos := Z.to_nat key_end in
            let vlen := le_u32_at b pos in
            let pos := (pos + 4)%nat in
            if (len <? wrap_usize (Z.of_nat pos + vlen))%Z then Ok entries
            else
              let value_end := wrap_usize (Z.of_nat pos + vlen) in
              if (value_end <? Z.of_nat pos)%Z then Err (Panicked "slice index out of range")
              else
                let value := slice_at b pos (Z.to_nat value_end) in
                parse_loop fuel b (Z.to_nat value_end) (entries ++ [(key, value)])
  end.

(** Source: storage/opfs.rs:379-414 (parse_file). *)
Definition parse_file (b : bytes) : result (list (bytes * bytes)) failure :=
  match b with [] => Ok [] | _ => parse_loop (length b) b 0 [] end.

(** What the browser answers to the reading of a file. *)
Inductive read_io : Type :=
| ReadAll
| SizeFails
| ReadFails (e : string)
| ReadShort (n : nat).

(** Source: storage/opfs.rs:325-347 (read_sync). *)
Definition read_sync (io : read_io) (contents : bytes) : result bytes failure :=
  match io with
  | SizeFails => failed (Other "get_size failed")
  | _ =>
      if (length contents =? 0)%nat then Ok []
      else
        match io with
        | ReadFails e => failed (Other ("read failed: " ++ e))
        | ReadShort n =>
            if (n =? length contents)%nat then Ok contents
            else failed (Other ("OPFS read incomplete: got " ++ Z_to_string (Z.of_nat n) ++ " bytes, expected " ++
                                Z_to_string (Z.of_nat (length contents))))
        | _ => Ok contents
        end
  end.

(** What the browser answers to the writing of a file. *)
Inductive write_io : Type :=
| WriteAll
| TruncateFails (e : string)
| WriteFails (e : string)
| WriteShort (n : nat)
| FlushFails (e : string).

(** [truncate(n)]: the file is cut, or extended with zeros. *)
Definition resize (contents : bytes) (n : nat) : bytes := take n contents ++ repeat x00 (n - length contents).

(** Source: storage/opfs.rs:349-377 (flush_sync). What is in the file afterwards, and the answer. *)
Definition flush_sync (io : write_io) (contents : bytes) (entries : list (bytes * bytes))
  : bytes * result unit failure :=
  let b := serialize_file entries in
  match io with
  | TruncateFails e => (contents, failed (Other ("OPFS truncate failed: " ++ e)))
  | WriteFails e => (resize contents (length b), failed (Other ("OPFS write failed: " ++ e)))
  | WriteShort n =>
      if (n =? length b)%nat then (b, Ok tt)
      else (take n b ++ drop n (resize contents (length b)),
            failed (Other ("OPFS write incomplete: wrote " ++ Z_to_string (Z.of_nat n) ++ ", expected " ++
                           Z_to_string (Z.of_nat (length b)))))
  | FlushFails e => (b, failed (Other ("OPFS flush failed: " ++ e)))
  | WriteAll => (b, Ok tt)
  end.

(** ** Sessions *)

(** Source: storage/opfs.rs:9-11 (OpfsBackend), 40-42 (OpfsSession). *)
Record state : Type := {
  handles : list (string * nat);
  contents : gmap nat bytes }.

Definition set_handles (s : state) (h : list (string * nat)) : state := {| handles := h; contents := contents s |}.

(** Source: storage/opfs.rs:34-37 (list_tables). *)
Definition list_tables (s : state) : list string := map fst (handles s).

(** Source: storage/opfs.rs:47-49 (create_table). *)
Definition create_table (s : state) (name : string) : state := s.

(** Source: storage/opfs.rs:51-57 (drop_table). *)
Definition drop_table (s : state) (name : string) : state := set_handles s (bt_remove (handles s) name).

(** Source: storage/opfs.rs:94-101 (rename_table). *)
Definition rename_table (s : state) (from to : string) : state * result unit failure :=
  match bt_get (handles s) from with
  | None => (s, failed (NotFound ("table " ++ from ++ " does not exist")))
  | Some handle => (set_handles s (bt_insert (bt_remove (handles s) from) to handle), Ok tt)
  end.

(** Source: storage/opfs.rs:81-83 (in_transaction). *)
Definition in_transaction (s : state) : bool := false.

(** Source: storage/opfs.rs:84-86 (begin_transaction). *)
Definition begin_transaction (s : state) : state := s.

(** Source: storage/opfs.rs:87-89 (commit_transaction). *)
Definition commit_transaction (s : state) : state := s.

(** Source: storage/opfs.rs:90-92 (rollback_transaction). *)
Definition rollback_transaction (s : state) : state := s.

(** ** Cursors *)

(** Source: storage/opfs.rs:110-119 (OpfsCursor). *)
Record OpfsCursor : Type := {
  handle : nat;
  entries : option (list (bytes * bytes));
  position : option nat;
  current_key : option bytes;
  current_value : option bytes;
  pending_key : option bytes;
  pending_value : option bytes;
  dirty : bool }.

(** What is behind a handle; a file that is not there is empty. *)
Definition file (s : state) (h : nat) : bytes := match contents s !! h with Some b => b | None => [] end.

(** Source: storage/opfs.rs:59-79 (open_cursor). *)
Definition open_cursor (io : read_io) (s : state) (table_name : string) : result OpfsCursor failure :=
  match bt_get (handles s) table_name with
  | None => failed (NotFound table_name)
  | Some h =>
      let? contents := read_sync io (file s h) in
      let? rows := parse_file contents in
      Ok {| handle := h; entries := Some rows; position := None; current_key := None; current_value := None;
            pending_key := None; pending_value := None; dirty := false |}
  end.

(** Source: storage/opfs.rs:128-134 (effective_key). *)
Definition effective_key (c : OpfsCursor) : result bytes failure :=
  ok_or (opt_or (pending_key c) (current_key c)) (Failed (Other "no key")).

(** Source: storage/opfs.rs:136-142 (effective_value). *)
Definition effective_value (c : OpfsCursor) : result bytes failure :=
  ok_or (opt_or (pending_value c) (current_value c)) (Failed (Other "no value")).

(** Source: storage/opfs.rs:156-158 (set_key_raw). *)
Definition set_key_raw (c : OpfsCursor) (data : bytes) : OpfsCursor :=
  {| handle := handle c; entries := entries c; position := position c; current_key := current_key c;
     current_value := current_value c; pending_key := Some data; pending_value := pending_value c; dirty := dirty c |}.

(** Source: storage/opfs.rs:146-148 (set_key_str). *)
Definition set_key_str (c : OpfsCursor) (key : string) : OpfsCursor := set_key_raw c (as_bytes key).

(** Source: storage/opfs.rs:175-177 (set_value_raw). *)
Definition set_value_raw (c : OpfsCursor) (data : bytes) : OpfsCursor :=
  {| handle := handle c; entries := entries c; position := position c; current_key := current_key c;
     current_value := current_value c; pending_key := pending_key c; pending_value := Some data; dirty := dirty c |}.

(** Source: storage/opfs.rs:165-167 (set_value_str). *)
Definition set_value_str (c : OpfsCursor) (value : string) : OpfsCursor := set_value_raw c (as_bytes value).

(** Source: storage/opfs.rs:159-163 (get_key_raw). *)
Definition get_key_raw (c : OpfsCursor) : result bytes failure :=
  ok_or (current_key c) (Failed (NotFound "not positioned")).

(** Source: storage/opfs.rs:178-182 (get_value_raw). *)
Definition get_value_raw (c : OpfsCursor) : result bytes failure :=
  ok_or (current_value c) (Failed (NotFound "not positioned")).

(** Source: storage/opfs.rs:149-155 (get_key_str), 168-174 (get_value_str). *)
Definition get_str (utf8_error : bytes -> string) (r : result bytes failure) : result string failure :=
  let? b := r in
  if utf8_valid b then Ok (string_of_list_byte b) else failed (Other ("not UTF-8: " ++ utf8_error b)).

(** The cursor on row [i]. *)
Definition position_at (c : OpfsCursor) (i : nat) (e : bytes * bytes) : OpfsCursor :=
  {| handle := handle c; entries := entries c; position := Some i; current_key := Some (fst e);
     current_value := Some (snd e); pending_key := pending_key c; pending_value := pending_value c; dirty := dirty c |}.

Definition at_entry {R} (c : OpfsCursor) (rows : list (bytes * bytes)) (i : nat) (r : R)
  : OpfsCursor * result R failure :=
  match rows !! i with
  | Some e => (position_at c i e, Ok r)
  | None => (c, Err (Panicked "index out of bounds"))
  end.

Definition find_row (key : bytes) (rows : list (bytes * bytes)) : result nat nat :=
  binary_search_by (fun e => bytes_cmp (fst e) key) rows.

(** Source: storage/opfs.rs:184-201 (search). *)
Definition search (c : OpfsCursor) : OpfsCursor * result unit failure :=
  match effective_key c with
  | Err e => (c, Err e)
  | Ok key =>
      match entries c with
      | None => (c, failed (Other "not materialized"))
      | Some rows =>
          match find_row key rows with
          | Ok idx => at_entry c rows idx tt
          | Err _ => (c, failed (NotFound "key not found"))
          end
      end
  end.

(** Source: storage/opfs.rs:203-238 (search_near). *)
Definition search_near (c : OpfsCursor) : OpfsCursor * result Z failure :=
  match effective_key c with
  | Err e => (c, Err e)
  | Ok seek =>
      match entries c with
      | None => (c, failed (Other "not materialized"))
      | Some [] => (c, failed (NotFound "empty"))
      | Some rows =>
          match find_row seek rows with
          | Ok idx => at_entry c rows idx 0%Z
          | Err idx =>
              if (idx <? length rows)%nat then at_entry c rows idx 1%Z
              else if (0 <? idx)%nat then at_entry c rows (idx - 1) (-1)%Z
              else (c, failed (NotFound "no entries"))
          end
      end
  end.

(** Source: storage/opfs.rs:240-262 (next). *)
Definition next (c : OpfsCursor) : OpfsCursor * result unit failure :=
  match entries c with
  | None => (c, failed (Other "not materialized"))
  | Some rows =>
      let next_pos := match position c with Some p => (p + 1)%nat | None => 0%nat end in
      match rows !! next_pos with
      | None => (c, failed (NotFound "eof"))
      | Some e =>
          ({| handle := handle c; entries := entries c; position := Some next_pos; current_key := Some (fst e);
              current_value := Some (snd e); pending_key := Some (fst e); pending_value := pending_value c;
              dirty := dirty c |}, Ok tt)
      end
  end.

(** Source: storage/opfs.rs:264-269 (reset). *)
Definition reset (c : OpfsCursor) : OpfsCursor :=
  {| handle := handle c; entries := entries c; position := None; current_key := None; current_value := None;
     pending_key := pending_key c; pending_value := pending_value c; dirty := dirty c |}.

(** The rows changed. *)
Definition with_rows (c : OpfsCursor) (rows : list (bytes * bytes)) : OpfsCursor :=
  {| handle := handle c; entries := Some rows; position := position c; current_key := current_key c;
     current_value := current_value c; pending_key := pending_key c; pending_value := pending_value c; dirty := true |}.

(** Source: storage/opfs.rs:122-126 (entries_mut). *)
Definition entries_mut (c : OpfsCursor) : result (list (bytes * bytes)) failure :=
  ok_or (entries c) (Panicked "cursor entries must be initialized before use").

(** Source: storage/opfs.rs:271-284 (insert). *)
Definition insert (c : OpfsCursor) : OpfsCursor * result unit failure :=
  match effective_key c, effective_value c, entries_mut c with
  | Ok key, Ok value, Ok rows =>
      match find_row key rows with
      | Ok _ => (c, failed (DuplicateKey "exists"))
      | Err idx => (with_rows c (take idx rows ++ (key, value) :: drop idx rows), Ok tt)
      end
  | Err e, _, _ | Ok _, Err e, _ | Ok _, Ok _, Err e => (c, Err e)
  end.

(** The value of the first row with the key. *)
Fixpoint update_rows (key value : bytes) (rows : list (bytes * bytes)) : option (list (bytes * bytes)) :=
  match rows with
  | [] => None
  | (k, v) :: rows' =>
      if bool_decide (k = key) then Some ((k, value) :: rows')
      else option_map (cons (k, v)) (update_rows key value rows')
  end.

(** Source: storage/opfs.rs:286-299 (update). *)
Definition update (c : OpfsCursor) : OpfsCursor * result unit failure :=
  match effective_key c, effective_value c, entries_mut c with
  | Ok key, Ok value, Ok rows =>
      match update_rows key value rows with
      | Some rows => (with_rows c rows, Ok tt)
      | None => (c, failed (NotFound "key not found"))
      end
  | Err e, _, _ | Ok _, Err e, _ | Ok _, Ok _, Err e => (c, Err e)
  end.

(** The rows without the first one with the key. *)
Fixpoint remove_row (key : bytes) (rows : list (bytes * bytes)) : option (list (bytes * bytes)) :=
  match rows with
  | [] => None
  | (k, v) :: rows' =>
      if bool_decide (k = key) then Some rows' else option_map (cons (k, v)) (remove_row key rows')
  end.

(** Source: storage/opfs.rs:301-312 (remove). *)
Definition remove (c : OpfsCursor) : OpfsCursor * result unit failure :=
  match effective_key c, entries_mut c with
  | Ok key, Ok rows =>
      match remove_row key rows with
      | Some rows => (with_rows c rows, Ok tt)
      | None => (c, failed (NotFound "key not found"))
      end
  | Err e, _ | Ok _, Err e => (c, Err e)
  end.

(** Source: storage/opfs.rs:316-322 (drop). The answer of [flush_sync] is not looked at. *)
Definition drop_cursor (io : write_io) (s : state) (c : OpfsCursor) : state :=
  match dirty c, entries c with
  | true, Some rows =>
      {| handles := handles s; contents := <[handle c := fst (flush_sync io (file s (handle c)) rows)]> (contents s) |}
  | _, _ => s
  end.

(** ** Files and rows *)

Definition row_bytes (e : bytes * bytes) : bytes :=
  le_bytes 4 (Z.of_nat (length (fst e))) ++ fst e ++ le_bytes 4 (Z.of_nat (length (snd e))) ++ snd e.

Lemma serialize_rows es : serialize_file es = flat_map row_bytes es.
Proof. apply flat_map_ext. by intros [k v]. Qed.

Lemma row_bytes_length e : length (row_bytes e) = (8 + length (fst e) + length (snd e))%nat.
Proof. unfold row_bytes. rewrite !length_app, !le_bytes_length. lia. Qed.

Lemma usize_small n : (0 <= n < 2 ^ 32)%Z -> wrap_usize n = n.
Proof. apply Z.mod_small. Qed.

(** One turn of the loop reads one row. *)
Lemma parse_row fuel pre e rest acc :
  (Z.of_nat (length (pre ++ row_bytes e ++ rest)) < 2 ^ 32)%Z ->
  parse_loop (S fuel) (pre ++ row_bytes e ++ rest) (length pre) acc =
  parse_loop fuel (pre ++ row_bytes e ++ rest) (length pre + length (row_bytes e)) (acc ++ [e]).
Proof.
  intros Hlen. destruct e as [k v]. set (b := pre ++ _) in *. assert (Hb : length b = (length pre + (8 + length k + length v) + length rest)%nat)
    by (unfold b; rewrite !length_app, row_bytes_length; cbn [fst snd]; lia).
  assert (Hk : le_u32_at b (length pre) = Z.of_nat (length k)).
  { unfold b, row_bytes. cbn [fst snd]. rewrite <- !app_assoc. apply le_u32_read; [lia|done]. }
  assert (Hv : le_u32_at b (length pre + 4 + length k) = Z.of_nat (length v)).
  { unfold b, row_bytes. cbn [fst snd]. rewrite <- !app_assoc.
    replace (pre ++ le_bytes 4 (Z.of_nat (length k)) ++ k ++ le_bytes 4 (Z.of_nat (length v)) ++ v ++ rest)
      with ((pre ++ le_bytes 4 (Z.of_nat (length k)) ++ k) ++ le_bytes 4 (Z.of_nat (length v)) ++ v ++ rest)
      by (by rewrite <- !app_assoc).
    apply le_u32_read; [lia|]. rewrite !length_app, le_bytes_length. lia. }
  cbn [parse_loop]. rewrite (proj2 (Nat.leb_le _ _)) by lia. cbn [negb]. rewrite Hk.
  set (ke := (Z.of_nat (length pre + 4) + Z.of_nat (length k))%Z). rewrite (usize_small (ke + 4)), (usize_small ke) by (unfold ke; lia).
  destruct (Z.ltb_spec (Z.of_nat (length b)) (ke + 4)); [unfold ke in *; lia|].
  destruct (Z.ltb_spec ke (Z.of_nat (length pre + 4))); [unfold ke in *; lia|]. cbn [orb].
  replace (Z.to_nat ke) with (length pre + 4 + length k)%nat by (unfold ke; lia). rewrite Hv.
  set (ve := (Z.of_nat (length pre + 4 + length k + 4) + Z.of_nat (length v))%Z). rewrite (usize_small ve) by (unfold ve; lia).
  destruct (Z.ltb_spec (Z.of_nat (length b)) ve); [unfold ve in *; lia|].
  destruct (Z.ltb_spec ve (Z.of_nat (length pre + 4 + length k + 4))); [unfold ve in *; lia|].
  replace (Z.to_nat ve) with (length pre + length (row_bytes (k, v)))%nat by (unfold ve; rewrite row_bytes_length; cbn [fst snd]; lia).
  f_equal. do 3 f_equal.
  - unfold b, row_bytes. cbn [fst snd]. rewrite <- !app_assoc, app_assoc.
    apply slice_here; [rewrite length_app, le_bytes_length; lia|lia].
  - unfold b, row_bytes. cbn [fst snd]. rewrite <- !app_assoc.
    replace (pre ++ le_bytes 4 (Z.of_nat (length k)) ++ k ++ le_bytes 4 (Z.of_nat (length v)) ++ v ++ rest)
      with ((pre ++ le_bytes 4 (Z.of_nat (length k)) ++ k ++ le_bytes 4 (Z.of_nat (length v))) ++ v ++ rest)
      by (by rewrite <- !app_assoc).
    apply slice_here; rewrite ?length_app, ?le_bytes_length, ?row_bytes_length; cbn [fst snd]; lia.
Qed.

Lemma parse_rows es : forall fuel pre rest acc,
  (Z.of_nat (length (pre ++ flat_map row_bytes es ++ rest)) < 2 ^ 32)%Z -> (length es <= fuel)%nat ->
  parse_loop fuel (pre ++ flat_map row_bytes es ++ rest) (length pre) acc =
  parse_loop (fuel - length es) (pre ++ flat_map row_bytes es ++ rest) (length pre + length (flat_map row_bytes es)) (acc ++ es).
Proof.
  induction es as [|e es IH]; intros fuel pre rest acc Hlen Hf.
  { cbn [flat_map length]. by rewrite Nat.sub_0_r, Nat.add_0_r, app_nil_r. }
  destruct fuel as [|fuel]; [cbn in Hf; lia|]. cbn [flat_map length] in *. rewrite <- (app_assoc (row_bytes e)) in *.
  rewrite parse_row by done. replace (pre ++ row_bytes e ++ flat_map row_bytes es ++ rest)
    with ((pre ++ row_bytes e) ++ flat_map row_bytes es ++ rest) in * by (by rewrite <- app_assoc).
  replace (length pre + length (row_bytes e))%nat with (length (pre ++ row_bytes e)) by (by rewrite length_app).
  rewrite IH by (try done; lia). cbn [Nat.sub]. rewrite <- (app_assoc acc). cbn [app]. f_equal. rewrite !length_app. lia.
Qed.

(** The first bytes of a row are not a row: the loop stops before it. *)
Lemma parse_torn fuel pre e n acc :
  (n < length (row_bytes e))%nat -> (Z.of_nat (length pre + length (row_bytes e)) < 2 ^ 32)%Z ->
  parse_loop fuel (pre ++ take n (row_bytes e)) (length pre) acc = Ok acc.
Proof.
  intros Hn Hlen. destruct fuel as [|fuel]; [done|]. destruct e as [k v]. rewrite row_bytes_length in Hn, Hlen. cbn [fst snd] in Hn, Hlen.
  set (b := pre ++ _). assert (Hb : length b = (length pre + n)%nat)
    by (unfold b; rewrite length_app, length_take, row_bytes_length; cbn [fst snd]; lia).
  cbn [parse_loop]. destruct (Nat.leb_spec (length pre + 4) (length b)) as [H4|]; cbn [negb]; [|done].
  assert (Hk : le_u32_at b (length pre) = Z.of_nat (length k)).
  { unfold b, row_bytes. cbn [fst snd]. rewrite take_app_ge by (rewrite le_bytes_length; lia). apply le_u32_read; [lia|done]. }
  rewrite Hk. set (ke := (Z.of_nat (length pre + 4) + Z.of_nat (length k))%Z).
  rewrite (usize_small (ke + 4)), (usize_small ke) by (unfold ke; lia).
  destruct (Z.ltb_spec (Z.of_nat (length b)) (ke + 4)) as [|Hke]; [done|].
  destruct (Z.ltb_spec ke (Z.of_nat (length pre + 4))); [unfold ke in *; lia|]. cbn [orb].
  replace (Z.to_nat ke) with (length pre + 4 + length k)%nat by (unfold ke; lia).
  assert (Hv : le_u32_at b (length pre + 4 + length k) = Z.of_nat (length v)).
  { unfold b, row_bytes. cbn [fst snd]. unfold ke in Hke. rewrite !app_assoc. rewrite <- (app_assoc _ (le_bytes 4 (Z.of_nat (length v))) v).
    rewrite take_app_ge by (rewrite length_app, le_bytes_length; lia).
    rewrite take_app_ge by (rewrite length_app, !le_bytes_length; lia). rewrite app_assoc.
    apply le_u32_read; [lia|]. rewrite !length_app, le_bytes_length. lia. }
  rewrite Hv. set (ve := (Z.of_nat (length pre + 4 + length k + 4) + Z.of_nat (length v))%Z). rewrite (usize_small ve) by (unfold ve; lia).
  destruct (Z.ltb_spec (Z.of_nat (length b)) ve); [done|]. unfold ve in *. lia.
Qed.

(** Where a file is cut. *)
Lemma cut_rows es : forall n, exists m,
  (length (flat_map row_bytes (take m es)) <= n)%nat /\
  ((m = length es /\ take n (flat_map row_bytes es) = flat_map row_bytes es) \/
   exists e r, drop m es = e :: r /\ (n < length (flat_map row_bytes (take m es)) + length (row_bytes e))%nat /\
     take n (flat_map row_bytes es) =
     flat_map row_bytes (take m es) ++ take (n - length (flat_map row_bytes (take m es))) (row_bytes e)).
Proof.
  induction es as [|e es IH]; intros n; [exists 0%nat; split; [cbn; lia|left; split; [done|apply take_nil]]|].
  destruct (Nat.lt_ge_cases n (length (row_bytes e))) as [Hn|Hn].
  { exists 0%nat. split; [cbn; lia|]. right. exists e, es. split; [done|]. cbn [take flat_map length app]. split; [lia|].
    rewrite Nat.sub_0_r. by rewrite take_app_le by lia. }
  destruct (IH (n - length (row_bytes e))%nat) as (m & Hm & H). exists (S m). cbn [take flat_map length]. rewrite length_app.
  split; [lia|]. rewrite take_app_ge by done. destruct H as [[-> ->]|(x & r & Hd & Hx & ->)].
  - left. done.
  - right. exists x, r. cbn [drop]. split; [done|]. split; [lia|]. rewrite <- app_assoc. do 3 f_equal. lia.
Qed.

Lemma rows_length es : (8 * length es <= length (flat_map row_bytes es))%nat.
Proof. induction es as [|e es IH]; [done|]. cbn [flat_map length]. rewrite length_app, row_bytes_length. lia. Qed.

Lemma parse_file_loop b : parse_file b = parse_loop (length b) b 0 [].
Proof. by destruct b. Qed.

(** A file of rows, and one cut in the row after them. *)
Lemma parse_cut es (e : bytes * bytes) n :
  (n < length (row_bytes e))%nat -> (Z.of_nat (length (flat_map row_bytes es) + length (row_bytes e)) < 2 ^ 32)%Z ->
  parse_file (flat_map row_bytes es ++ take n (row_bytes e)) = Ok es.
Proof.
  intros Hn Hlen. rewrite parse_file_loop. set (rest := take n (row_bytes e)).
  assert (Hr : (length rest <= length (row_bytes e))%nat) by (unfold rest; rewrite length_take; lia).
  pose proof (parse_rows es (length (flat_map row_bytes es ++ rest)) [] rest []) as H. cbn [app length Nat.add] in H. rewrite H.
  - by apply parse_torn.
  - rewrite length_app. lia.
  - pose proof (rows_length es). rewrite length_app. lia.
Qed.

Lemma parse_whole es : (Z.of_nat (length (serialize_file es)) < 2 ^ 32)%Z -> parse_file (serialize_file es) = Ok es.
Proof.
  intros Hlen. rewrite serialize_rows in *. rewrite parse_file_loop.
  pose proof (parse_rows es (length (flat_map row_bytes es)) [] [] []) as H. cbn [app length Nat.add] in H. rewrite !app_nil_r in H.
  rewrite H; [|done|pose proof (rows_length es); lia]. destruct (_ - length es)%nat; [done|]. cbn [parse_loop].
  rewrite (proj2 (Nat.leb_gt _ _)) by lia. done.
Qed.

(** C27: a table file smaller than 2^32 bytes reads back as the rows written to it, and a
    beginning of it, of any length, reads as the rows that are in it whole, and never as an
    error or a panic. (Other damage is outside the claim: [opfs_corrupt_length_panics].) *)
Theorem torn_file_keeps_prefix es n :
  (Z.of_nat (length (serialize_file es)) < 2 ^ 32)%Z ->
  parse_file (serialize_file es) = Ok es /\
  exists m, parse_file (take n (serialize_file es)) = Ok (take m es) /\
    (length (serialize_file (take m es)) <= n)%nat /\
    ((m < length es)%nat -> (n < length (serialize_file (take (S m) es)))%nat).
Proof.
  intros Hlen. split; [by apply parse_whole|]. pose proof Hlen as Hlen'. rewrite serialize_rows in Hlen'.
  destruct (cut_rows es n) as (m & Hm & H). exists m. rewrite !serialize_rows.
  destruct H as [[-> Hn]|(e & r & Hd & Hx & Hn)]; rewrite Hn.
  - rewrite <- serialize_rows, parse_whole by done. split; [|split; [|lia]]; [by rewrite firstn_all|done].
  - assert (Hes : es = take m es ++ e :: r) by (rewrite <- Hd; symmetry; apply take_drop).
    assert (HS : take (S m) es = take m es ++ [e]).
    { apply take_S_r. rewrite <- (Nat.add_0_r m), <- lookup_drop, Hd. done. }
    assert (Hl : length (flat_map row_bytes es) = (length (flat_map row_bytes (take m es)) + (length (row_bytes e) + length (flat_map row_bytes r)))%nat).
    { rewrite Hes at 1. rewrite flat_map_app, length_app. cbn [flat_map]. by rewrite (length_app (row_bytes e)). }
    split; [apply parse_cut; lia|]. split; [done|]. intros _. rewrite HS, flat_map_app, length_app. cbn [flat_map]. rewrite app_nil_r. lia.
Qed.

(** ** Rows as a map *)

Lemma find_row_spec rows key : bt_ok rows ->
  match find_row key rows with
  | Ok i => exists v, rows !! i = Some (key, v) /\ bt_get rows key = Some v
  | Err i => bt_get rows key = None /\ forall v, take i rows ++ (key, v) :: drop i rows = bt_insert rows key v
  end.
Proof.
  intros Hok. pose proof (binary_search_by_spec _ rows (rows_probe_sorted rows key Hok)) as H. unfold find_row.
  destruct (binary_search_by _ rows) as [i|i].
  - destruct H as ([k v] & Hi & Hc). apply bytes_cmp_eq in Hc. cbn in Hc. subst k. exists v. split; [done|].
    apply bt_get_In; [done|]. apply list_elem_of_In. by eapply list_elem_of_lookup_2.
  - destruct H as (Hle & Hlt & Hgt). split.
    { destruct (bt_get rows key) as [v|] eqn:E; [|done]. apply bt_get_In in E; [|done]. by destruct (gap_absent rows key i v Hlt Hgt). }
    intros v. clear Hok. revert i Hle Hlt Hgt. induction rows as [|[k w] rows IH]; intros i Hle Hlt Hgt; [by destruct i|].
    assert (Hk : forall j x, rows !! j = Some x -> ((k, w) :: rows) !! S j = Some x) by done. destruct i as [|i]; cbn [take drop app bt_insert key_cmp bytes_order].
    + specialize (Hgt 0%nat (k, w) ltac:(lia) eq_refl). cbn in Hgt. rewrite bytes_cmp_sym, Hgt. done.
    + pose proof (Hlt 0%nat (k, w) ltac:(lia) eq_refl) as H0. cbn in H0. rewrite bytes_cmp_sym, H0. cbn [CompOpp]. f_equal.
      cbn [length] in Hle. apply IH; [lia| |]; intros j x Hj Hx; [apply (Hlt (S j))|apply (Hgt (S j))]; try done; lia.
Qed.

Lemma bytes_cmp_ne (k key : bytes) : k <> key -> bytes_cmp key k <> Eq.
Proof. intros Hne E. apply bytes_cmp_eq in E. by subst. Qed.

(** Above every key of sorted rows, a key has no row. *)
Lemma head_absent k v (rows : list (bytes * bytes)) key : bt_ok ((k, v) :: rows) -> bytes_cmp key k = Lt ->
  forall e, In e rows -> fst e <> key.
Proof.
  intros Hok Hlt e He <-. inversion_clear Hok as [|? ? _ Hf]. rewrite List.Forall_forall in Hf. specialize (Hf e He).
  unfold key_lt in Hf. cbn in Hf. by rewrite bytes_cmp_sym, Hf in Hlt.
Qed.

Lemma update_absent key value rows : (forall e, In e rows -> fst e <> key) -> update_rows key value rows = None.
Proof.
  induction rows as [|[k v] rows IH]; intros H; [done|]. cbn [update_rows]. rewrite bool_decide_eq_false_2 by (apply (H (k, v)); by left).
  rewrite IH by (intros; apply H; by right). done.
Qed.

Lemma remove_absent key rows : (forall e, In e rows -> fst e <> key) -> remove_row key rows = None.
Proof.
  induction rows as [|[k v] rows IH]; intros H; [done|]. cbn [remove_row]. rewrite bool_decide_eq_false_2 by (apply (H (k, v)); by left).
  rewrite IH by (intros; apply H; by right). done.
Qed.

Lemma update_rows_spec key value rows : bt_ok rows ->
  update_rows key value rows = match bt_get rows key with Some _ => Some (bt_insert rows key value) | None => None end.
Proof.
  induction rows as [|[k v] rows IH]; intros Hok; [done|]. cbn [update_rows bt_get bt_insert key_cmp bytes_order].
  destruct (bool_decide_reflect (k = key)) as [->|Hne].
  { by rewrite (proj2 (bytes_cmp_eq key key) eq_refl). }
  destruct (bytes_cmp key k) eqn:E; [by destruct (bytes_cmp_ne k key Hne)| |].
  - rewrite update_absent; [done|]. by eapply head_absent.
  - inversion_clear Hok as [|? ? Hs _]. rewrite IH by done. by destruct (bt_get rows key).
Qed.

Lemma remove_row_spec key rows : bt_ok rows ->
  remove_row key rows = match bt_get rows key with Some _ => Some (bt_remove rows key) | None => None end.
Proof.
  induction rows as [|[k v] rows IH]; intros Hok; [done|]. cbn [remove_row bt_get bt_remove key_cmp bytes_order].
  destruct (bool_decide_reflect (k = key)) as [->|Hne].
  { by rewrite (proj2 (bytes_cmp_eq key key) eq_refl). }
  destruct (bytes_cmp key k) eqn:E; [by destruct (bytes_cmp_ne k key Hne)| |].
  - rewrite remove_absent; [done|]. by eapply head_absent.
  - inversion_clear Hok as [|? ? Hs _]. rewrite IH by done. by destruct (bt_get rows key).
Qed.

(** ** A cursor that writes *)

(** One write through a cursor. *)
Inductive write : Type :=
| Insert (key value : bytes)
| Update (key value : bytes)
| Remove (key : bytes).

Definition run_write (w : write) (c : OpfsCursor) : OpfsCursor * result unit failure :=
  match w with
  | Insert k v => insert (set_value_raw (set_key_raw c k) v)
  | Update k v => update (set_value_raw (set_key_raw c k) v)
  | Remove k => remove (set_key_raw c k)
  end.

(** What it does to a map: [Insert] wants the key absent, the others present. *)
Definition spec_write (w : write) (rows : list (bytes * bytes)) : option (list (bytes * bytes)) :=
  match w with
  | Insert k v => match bt_get rows k with Some _ => None | None => Some (bt_insert rows k v) end
  | Update k v => match bt_get rows k with Some _ => Some (bt_insert rows k v) | None => None end
  | Remove k => match bt_get rows k with Some _ => Some (bt_remove rows k) | None => None end
  end.

Lemma spec_write_ok w rows rows' : bt_ok rows -> spec_write w rows = Some rows' -> bt_ok rows'.
Proof.
  intros Hok. destruct w as [k v|k v|k]; cbn [spec_write]; destruct (bt_get rows k); intros [= <-];
    by (apply bt_insert_ok || apply bt_remove_ok).
Qed.

Lemma run_write_spec w c rows : entries c = Some rows -> bt_ok rows ->
  match spec_write w rows with
  | Some rows' => exists c', run_write w c = (c', Ok tt) /\ entries c' = Some rows' /\ dirty c' = true /\ handle c' = handle c
  | None => exists c' e, run_write w c = (c', failed e) /\ entries c' = Some rows /\ dirty c' = dirty c /\ handle c' = handle c
  end.
Proof.
  intros He Hok. destruct w as [k v|k v|k]; cbn [run_write spec_write].
  - unfold insert, entries_mut. cbn. rewrite He. cbn. pose proof (find_row_spec rows k Hok) as H. destruct (find_row k rows) as [i|i].
    + destruct H as (w & _ & ->). by eexists _, _.
    + destruct H as [-> H]. eexists. split; [reflexivity|]. cbn. by rewrite H.
  - unfold update, entries_mut. cbn. rewrite He. cbn. rewrite update_rows_spec by done. destruct (bt_get rows k); by repeat eexists.
  - unfold remove, entries_mut. cbn. rewrite He. cbn. rewrite remove_row_spec by done. destruct (bt_get rows k); by repeat eexists.
Qed.

(** The rows in the file of a table. *)
Definition table_rows (s : state) (name : string) : option (list (bytes * bytes)) :=
  match bt_get (handles s) name with
  | Some h => match parse_file (file s h) with Ok rows => Some rows | Err _ => None end
  | None => None
  end.

(** A cursor is opened, writes some rows, and is dropped. *)
Definition cursor_session (name : string) (ws : list write) (s : state) : state * list (result unit failure) :=
  match open_cursor ReadAll s name with
  | Err e => (s, [Err e])
  | Ok c =>
      let '(c, rs) := fold_left (fun '(c, rs) w => let '(c, r) := run_write w c in (c, rs ++ [r])) ws (c, []) in
      (drop_cursor WriteAll s c, rs)
  end.

(** The writes of a session on a map: those that apply change it, the others are errors. *)
Fixpoint spec_writes (ws : list write) (rows : list (bytes * bytes)) : list (bytes * bytes) * list bool :=
  match ws with
  | [] => (rows, [])
  | w :: ws =>
      match spec_write w rows with
      | Some rows' => let '(out, bs) := spec_writes ws rows' in (out, true :: bs)
      | None => let '(out, bs) := spec_writes ws rows in (out, false :: bs)
      end
  end.

Lemma writes_spec ws : forall c rs rows, entries c = Some rows -> bt_ok rows ->
  exists c' rs', fold_left (fun '(c, rs) w => let '(c, r) := run_write w c in (c, rs ++ [r])) ws (c, rs) = (c', rs ++ rs') /\
    map is_ok rs' = snd (spec_writes ws rows) /\ entries c' = Some (fst (spec_writes ws rows)) /\
    bt_ok (fst (spec_writes ws rows)) /\ handle c' = handle c /\
    (dirty c' = true \/ dirty c' = dirty c /\ fst (spec_writes ws rows) = rows).
Proof.
  induction ws as [|w ws IH]; intros c rs rows He Hok.
  { exists c, []. rewrite app_nil_r. split_and!; try done. by right. }
  cbn [fold_left spec_writes]. pose proof (run_write_spec w c rows He Hok) as H. destruct (spec_write w rows) as [rows1|] eqn:Es.
  - destruct H as (c1 & -> & He1 & Hd1 & Hh1).
    destruct (IH c1 (rs ++ [Ok tt]) rows1 He1 (spec_write_ok _ _ _ Hok Es)) as (c' & rs' & -> & H1 & H2 & H3 & H4 & H5).
    destruct (spec_writes ws rows1) as [out bs]. exists c', (Ok tt :: rs'). rewrite <- app_assoc. cbn [fst snd map is_ok] in *.
    split_and!; [done|by rewrite H1|done|done|congruence|]. left. destruct H5 as [|[-> _]]; done.
  - destruct H as (c1 & e & -> & He1 & Hd1 & Hh1).
    destruct (IH c1 (rs ++ [failed e]) rows He1 Hok) as (c' & rs' & -> & H1 & H2 & H3 & H4 & H5).
    destruct (spec_writes ws rows) as [out bs]. exists c', (failed e :: rs'). rewrite <- app_assoc. cbn [fst snd map is_ok failed] in *.
    split_and!; [done|by rewrite H1|done|done|congruence|]. destruct H5 as [|[-> ?]]; [by left|right; by split].
Qed.

(** C26: when every read and write of the file is complete, the writes of a cursor that is
    opened, used and dropped, with no other cursor on the table in between, refine those of a
    map: what the table holds when it is opened again is the map after the writes that apply, in
    sorted order, the others were errors, and the tables in other files are as they were. The
    file of the table is readable and sorted, and the new one is smaller than 2^32 bytes. (A
    write that fails and a second cursor do lose rows: [opfs_failed_write_leaves_zeros],
    [opfs_lost_update].) *)
Theorem cursor_session_refines name ws s rows :
  table_rows s name = Some rows -> bt_ok rows ->
  (Z.of_nat (length (serialize_file (fst (spec_writes ws rows)))) < 2 ^ 32)%Z ->
  let '(s', rs) := cursor_session name ws s in
  table_rows s' name = Some (fst (spec_writes ws rows)) /\ bt_ok (fst (spec_writes ws rows)) /\
  map is_ok rs = snd (spec_writes ws rows) /\ handles s' = handles s /\
  forall other, bt_get (handles s) other <> bt_get (handles s) name -> table_rows s' other = table_rows s other.
Proof.
  intros Ht Hok Hlen. unfold table_rows in Ht. destruct (bt_get (handles s) name) as [h|] eqn:Eh; [|done].
  destruct (parse_file (file s h)) as [r|] eqn:Ep; [|done]. injection Ht as ->.
  assert (Hread : read_sync ReadAll (file s h) = Ok (file s h)).
  { unfold read_sync. destruct (file s h); done. }
  unfold cursor_session, open_cursor. rewrite Eh, Hread. cbv beta iota. rewrite Ep. cbv beta iota. set (c := {| handle := h |}).
  destruct (writes_spec ws c [] rows eq_refl Hok) as (c' & rs' & -> & H1 & H2 & H3 & H4 & H5). cbn [app].
  change (handle c) with h in H4. change (dirty c) with false in H5. unfold table_rows, drop_cursor.
  destruct H5 as [Hd|[Hd Hsame]]; rewrite Hd, ?H2; cbn [handles].
  - rewrite H4, Eh. unfold file. cbn [contents flush_sync fst]. rewrite lookup_insert_eq, parse_whole by done. split_and!; try done.
    intros other Hne. destruct (bt_get (handles s) other) as [h'|]; [|done]. rewrite lookup_insert_ne by congruence. done.
  - rewrite Eh, Ep, Hsame. by split_and!.
Qed.

(** [search] finds what is in the rows. *)
Lemma search_spec c rows key : entries c = Some rows -> bt_ok rows ->
  match bt_get rows key with
  | Some v => exists c', search (set_key_raw c key) = (c', Ok tt) /\ get_key_raw c' = Ok key /\ get_value_raw c' = Ok v
  | None => search (set_key_raw c key) = (set_key_raw c key, failed (NotFound "key not found"))
  end.
Proof.
  intros He Hok. unfold search. cbn. rewrite He. pose proof (find_row_spec rows key Hok) as H. destruct (find_row key rows) as [i|i].
  - destruct H as (v & Hi & ->). unfold at_entry. rewrite Hi. by eexists.
  - destruct H as [-> _]. done.
Qed.
End Opfs.

(** ** Witnesses and behaviours worth recording *)

Section OpfsWitness.
Import Opfs.

Definition key_a : bytes := as_bytes "a".
Definition key_b : bytes := as_bytes "b".
Definition one_row : list (bytes * bytes) := [(key_b, as_bytes "1")].
Definition disk : state := {| handles := [("t", 0%nat); ("u", 1%nat)]; contents := {[0%nat := serialize_file one_row]} |}.

Lemma torn_file_keeps_prefix_witness :
  parse_file (serialize_file one_row) = Ok one_row /\
  exists m, parse_file (take 7 (serialize_file one_row)) = Ok (take m one_row) /\
    (length (serialize_file (take m one_row)) <= 7)%nat /\
    ((m < length one_row)%nat -> (7 < length (serialize_file (take (S m) one_row)))%nat).
Proof. apply (torn_file_keeps_prefix one_row 7). vm_compute. reflexivity. Defined.

Definition two_writes : list write := [Insert key_a (as_bytes "2"); Insert key_b (as_bytes "3"); Update key_b (as_bytes "4")].

Lemma cursor_session_refines_witness :
  let '(s', rs) := cursor_session "t" two_writes disk in
  table_rows s' "t" = Some [(key_a, as_bytes "2"); (key_b, as_bytes "4")] /\ map is_ok rs = [true; false; true].
Proof.
  pose proof (cursor_session_refines "t" two_writes disk one_row) as H.
  destruct (cursor_session "t" two_writes disk) as [s' rs]. destruct H as (H1 & _ & H2 & _).
  - vm_compute. reflexivity.
  - repeat constructor.
  - vm_compute. reflexivity.
  - rewrite H1, H2. vm_compute. split; reflexivity.
Defined.

(** Two cursors on a table each write their own copy: the writes of the one dropped first are
    lost. *)
Theorem opfs_lost_update :
  match open_cursor ReadAll disk "t", open_cursor ReadAll disk "t" with
  | Ok c1, Ok c2 =>
      let c1 := fst (run_write (Insert key_a (as_bytes "1")) c1) in
      let c2 := fst (run_write (Remove key_b) c2) in
      table_rows (drop_cursor WriteAll (drop_cursor WriteAll disk c1) c2) "t" = Some []
  | _, _ => False
  end.
Proof. vm_compute. reflexivity. Qed.

(** A table that is created has no file: no cursor can be opened on it. *)
Theorem opfs_created_table_missing :
  open_cursor ReadAll (create_table disk "v") "v" = failed (NotFound "v").
Proof. reflexivity. Qed.

(** The file is resized before it is written, and the answer of the write is not looked at: a
    write that fails leaves zeros, which read as rows with empty keys. *)
Theorem opfs_failed_write_leaves_zeros :
  match open_cursor ReadAll disk "u" with
  | Ok c => table_rows (drop_cursor (WriteFails "quota") disk (fst (run_write (Insert key_a (as_bytes "1234567")) c))) "u" =
      Some [([], []); ([], [])]
  | Err _ => False
  end.
Proof. vm_compute. reflexivity. Qed.

(** A corrupt length near the end of the address space wraps around, passes the check, and
    the slice panics. *)
Theorem opfs_corrupt_length_panics :
  parse_file (repeat xff 12) = Err (Panicked "slice index out of range").
Proof. vm_compute. reflexivity. Qed.

(** [insert] refuses a key that is there, where the other backends overwrite it, and [update] one
    that is not, where they insert it. *)
Theorem opfs_insert_refuses_present :
  match open_cursor ReadAll disk "t" with
  | Ok c => snd (run_write (Insert key_b (as_bytes "2")) c) = failed (DuplicateKey "exists") /\
            snd (run_write (Update key_a (as_bytes "2")) c) = failed (NotFound "key not found")
  | Err _ => False
  end.
Proof. vm_compute. split; reflexivity. Qed.
End OpfsWitness.
