(* ===== verification/RwLock.v ===== *)
(** * The read-write lock

    [src/rust/smongo-py/src/locking.rs]: [InlineRwLock], a count of readers
    and a writer flag under a mutex, with a condition variable.  The body of a
    method between two waits runs under the mutex, so it is one step of the
    system; [wait] releases the mutex and sleeps until a [notify_all].  A
    thread calls the methods in turn: it acquires, and releases what it
    acquired.

    The lock excludes, a free lock has no sleeper, and somebody can always go
    on; a writer can be overtaken for ever. *)

From Stdlib Require Import ZArith Lia.
From S2P Require Import Prelude F64.
From stdpp Require Import base tactics relations list.

Open Scope list_scope.

(** Source: smongo-py/src/locking.rs:17-20 (LockState). *)
Record LockState : Type := { readers : Z; writer : bool }.

(** Source: smongo-py/src/locking.rs:43-51 (InlineRwLock::new). *)
Definition new_lock : LockState := {| readers := 0; writer := false |}.

Definition wrap_count (n : Z) : Z := (n mod 2 ^ 32)%Z.

(** Source: smongo-py/src/locking.rs:53-59 (acquire_read). One turn of the loop: [None] is to
    wait. *)
Definition acquire_read (s : LockState) : option LockState :=
  if writer s then None else Some {| readers := wrap_count (readers s + 1); writer := writer s |}.

(** Source: smongo-py/src/locking.rs:61-67 (release_read). And whether it notifies. *)
Definition release_read (s : LockState) : LockState * bool :=
  let n := wrap_count (readers s - 1) in
  ({| readers := n; writer := writer s |}, (n =? 0)%Z).

(** Source: smongo-py/src/locking.rs:69-75 (acquire_write). *)
Definition acquire_write (s : LockState) : option LockState :=
  if writer s || (0 <? readers s)%Z then None else Some {| readers := readers s; writer := true |}.

(** Source: smongo-py/src/locking.rs:77-81 (release_write). *)
Definition release_write (s : LockState) : LockState * bool :=
  ({| readers := readers s; writer := false |}, true).

(** ** Threads *)

Inductive mode : Type := R | W.

(** Outside a method, about to look at the state, asleep on the condition variable, or holding. *)
Inductive thread : Type :=
| Idle
| Wants (m : mode)
| Sleeps (m : mode)
| Holds (m : mode).

#[export] Instance mode_eq_dec : EqDecision mode.
Proof. solve_decision. Defined.
#[export] Instance thread_eq_dec : EqDecision thread.
Proof. solve_decision. Defined.

Record system : Type := { lock : LockState; threads : list thread }.

Definition acquire (m : mode) : LockState -> option LockState :=
  match m with R => acquire_read | W => acquire_write end.
Definition release (m : mode) : LockState -> LockState * bool :=
  match m with R => release_read | W => release_write end.

(** [notify_all]: the sleepers look at the state again. *)
Definition wake (t : thread) : thread := match t with Sleeps m => Wants m | _ => t end.
Definition notify (b : bool) (ts : list thread) : list thread := if b then map wake ts else ts.

(** What a thread inside a method does. *)
Inductive work : system -> system -> Prop :=
| work_acquire s i m l : threads s !! i = Some (Wants m) -> acquire m (lock s) = Some l ->
    work s {| lock := l; threads := <[i := Holds m]> (threads s) |}
| work_wait s i m : threads s !! i = Some (Wants m) -> acquire m (lock s) = None ->
    work s {| lock := lock s; threads := <[i := Sleeps m]> (threads s) |}
| work_release s i m l b : threads s !! i = Some (Holds m) -> release m (lock s) = (l, b) ->
    work s {| lock := l; threads := notify b (<[i := Idle]> (threads s)) |}.

(** A thread calls a method, or goes on with it. *)
Inductive step : system -> system -> Prop :=
| step_call s i m : threads s !! i = Some Idle ->
    step s {| lock := lock s; threads := <[i := Wants m]> (threads s) |}
| step_work s s' : work s s' -> step s s'.

Definition start (n : nat) : system := {| lock := new_lock; threads := repeat Idle n |}.

(** ** Counting threads *)

Definition count (t : thread) (ts : list thread) : nat := length (List.filter (fun u => bool_decide (u = t)) ts).
Definition one_if (t u : thread) : nat := if bool_decide (u = t) then 1 else 0.

Lemma count_insert t ts i old new : ts !! i = Some old ->
  (count t (<[i := new]> ts) + one_if t old = count t ts + one_if t new)%nat.
Proof.
  revert i. induction ts as [|u ts IH]; intros i H; [done|]. unfold count, one_if in *. destruct i as [|i].
  - injection H as ->. change (<[0%nat := new]> (old :: ts)) with (new :: ts). cbn [List.filter].
    destruct (bool_decide (old = t)), (bool_decide (new = t)); cbn [length]; lia.
  - specialize (IH i H). change (<[S i := new]> (u :: ts)) with (u :: <[i := new]> ts). cbn [List.filter].
    destruct (bool_decide (u = t)); cbn [length]; lia.
Qed.

Lemma count_wake m ts : count (Holds m) (map wake ts) = count (Holds m) ts.
Proof.
  unfold count. induction ts as [|u ts IH]; [done|]. cbn. rewrite (bool_decide_ext (wake u = Holds m) (u = Holds m)).
  - destruct (bool_decide _); cbn; by rewrite IH.
  - destruct u; cbn; split; done.
Qed.

Lemma count_notify m b ts : count (Holds m) (notify b ts) = count (Holds m) ts.
Proof. destruct b; [apply count_wake|done]. Qed.

Lemma count_pos t ts i : ts !! i = Some t -> (0 < count t ts)%nat.
Proof.
  revert i. induction ts as [|u ts IH]; intros i H; [done|]. unfold count in *. destruct i as [|i]; cbn in *.
  - injection H as ->. rewrite bool_decide_eq_true_2 by done. cbn. lia.
  - specialize (IH i H). destruct (bool_decide (u = t)); cbn; lia.
Qed.

Lemma count_le t ts : (count t ts <= length ts)%nat.
Proof. unfold count. induction ts as [|u ts IH]; [done|]. cbn. destruct (bool_decide (u = t)); cbn; lia. Qed.

Lemma count_two t ts i j : i <> j -> ts !! i = Some t -> ts !! j = Some t -> (1 < count t ts)%nat.
Proof.
  revert i j. induction ts as [|u ts IH]; intros i j Hne Hi Hj; [done|]. unfold count in *. destruct i as [|i], j as [|j]; cbn in *; [done| | |].
  - injection Hi as ->. pose proof (count_pos t ts j Hj). unfold count in *. rewrite bool_decide_eq_true_2 by done. cbn. lia.
  - injection Hj as ->. pose proof (count_pos t ts i Hi). unfold count in *. rewrite bool_decide_eq_true_2 by done. cbn. lia.
  - specialize (IH i j ltac:(congruence) Hi Hj). destruct (bool_decide (u = t)); cbn; lia.
Qed.

Lemma count_some t ts : (0 < count t ts)%nat -> exists i, ts !! i = Some t.
Proof.
  unfold count. induction ts as [|u ts IH]; cbn; [lia|]. destruct (bool_decide_reflect (u = t)) as [->|_]; [by exists 0%nat|].
  intros H. destruct (IH H) as [i Hi]. by exists (S i).
Qed.

(** ** The invariant *)

(** The state counts the holders; a writer is alone; a sleeper has somebody to wake it. *)
Record lock_ok (s : system) : Prop := {
  lk_fits : (Z.of_nat (length (threads s)) < 2 ^ 32)%Z;
  lk_readers : readers (lock s) = Z.of_nat (count (Holds R) (threads s));
  lk_writer : count (Holds W) (threads s) = if writer (lock s) then 1%nat else 0%nat;
  lk_alone : writer (lock s) = true -> readers (lock s) = 0%Z;
  lk_sleep_read : forall i, threads s !! i = Some (Sleeps R) -> writer (lock s) = true;
  lk_sleep_write : forall i, threads s !! i = Some (Sleeps W) -> writer (lock s) = true \/ (0 < readers (lock s))%Z }.

Lemma thread_lookup_set (ts : list thread) i j old new u : ts !! i = Some old -> <[i := new]> ts !! j = Some u ->
  (j = i /\ u = new) \/ (j <> i /\ ts !! j = Some u).
Proof.
  intros Hi Hj. destruct (decide (j = i)) as [->|Hne].
  - left. rewrite list_lookup_insert_eq in Hj by (by eapply lookup_lt_Some). by injection Hj as <-.
  - right. by rewrite list_lookup_insert_ne in Hj.
Qed.

Lemma no_sleeper m ts i : map wake ts !! i <> Some (Sleeps m).
Proof. rewrite list_lookup_fmap. by destruct (ts !! i) as [[]|]. Qed.

Lemma start_ok n : (Z.of_nat n < 2 ^ 32)%Z -> lock_ok (start n).
Proof.
  intros Hn. assert (Hc : forall m, count (Holds m) (repeat Idle n) = 0%nat).
  { intros m. unfold count. clear Hn. induction n as [|n IH]; [done|]. cbn. by rewrite bool_decide_eq_false_2. }
  assert (Hs : forall i t, repeat Idle n !! i = Some t -> t = Idle).
  { clear. intros i t H. apply list_elem_of_lookup_2, list_elem_of_In, repeat_spec in H. done. }
  split; cbn [start lock threads new_lock readers writer]; rewrite ?Hc; [by rewrite repeat_length|done|done|done| |];
    intros i Hi; by apply Hs in Hi.
Qed.

(** The holders a step changes. *)
Lemma held_insert m ts i old new : ts !! i = Some old -> old <> Holds m -> new <> Holds m ->
  count (Holds m) (<[i := new]> ts) = count (Holds m) ts.
Proof.
  intros H H1 H2. pose proof (count_insert (Holds m) ts i old new H) as Hc. unfold one_if in Hc.
  rewrite !bool_decide_eq_false_2 in Hc by done. lia.
Qed.

Lemma holds_gain m ts i old : ts !! i = Some old -> old <> Holds m ->
  count (Holds m) (<[i := Holds m]> ts) = S (count (Holds m) ts).
Proof.
  intros H H1. pose proof (count_insert (Holds m) ts i old (Holds m) H) as Hc. unfold one_if in Hc.
  rewrite bool_decide_eq_false_2, bool_decide_eq_true_2 in Hc by done. lia.
Qed.

Lemma holds_lose m ts i : ts !! i = Some (Holds m) ->
  S (count (Holds m) (<[i := Idle]> ts)) = count (Holds m) ts.
Proof.
  intros H. pose proof (count_insert (Holds m) ts i (Holds m) Idle H) as Hc. unfold one_if in Hc.
  rewrite bool_decide_eq_true_2, bool_decide_eq_false_2 in Hc by done. lia.
Qed.

(** A thread that starts to want, or falls asleep while it must, keeps the invariant. *)
Lemma park_ok s i old new : lock_ok s -> threads s !! i = Some old ->
  (forall m, old <> Holds m) -> (forall m, new <> Holds m) ->
  (new = Sleeps R -> writer (lock s) = true) ->
  (new = Sleeps W -> writer (lock s) = true \/ (0 < readers (lock s))%Z) ->
  lock_ok {| lock := lock s; threads := <[i := new]> (threads s) |}.
Proof.
  intros [F Rd Wr Al SR SW] Hi Ho Hn HR HW. split; cbn [lock threads]; rewrite ?length_insert, ?(held_insert _ _ _ old) by done; try done.
  - intros j Hj. destruct (thread_lookup_set _ _ _ _ _ _ Hi Hj) as [[_ E]|[_ Hj']]; [by apply HR|by eapply SR].
  - intros j Hj. destruct (thread_lookup_set _ _ _ _ _ _ Hi Hj) as [[_ E]|[_ Hj']]; [by apply HW|by eapply SW].
Qed.

Lemma readers_bound s : lock_ok s -> (0 <= readers (lock s) <= Z.of_nat (length (threads s)))%Z.
Proof. intros [F Rd _ _ _ _]. rewrite Rd. pose proof (count_le (Holds R) (threads s)). lia. Qed.

Lemma acquire_ok s i m l : lock_ok s -> threads s !! i = Some (Wants m) -> acquire m (lock s) = Some l ->
  lock_ok {| lock := l; threads := <[i := Holds m]> (threads s) |}.
Proof.
  intros Hok Hi Ha. pose proof (readers_bound s Hok) as Hb. pose proof Hok as [F Rd Wr Al SR SW].
  assert (Hother : forall j t, <[i := Holds m]> (threads s) !! j = Some t -> t <> Holds m -> threads s !! j = Some t).
  { intros j t Hj Hne. destruct (thread_lookup_set _ _ _ _ _ _ Hi Hj) as [[_ ->]|[_ ?]]; done. }
  destruct m; cbn [acquire] in Ha.
  - unfold acquire_read in Ha. destruct (writer (lock s)) eqn:Ew; [done|]. injection Ha as <-.
    assert (Hlt : (count (Holds R) (threads s) < length (threads s))%nat).
    { pose proof (count_le (Holds R) (<[i := Holds R]> (threads s))) as H.
      rewrite (holds_gain R _ i (Wants R)), length_insert in H by done. lia. }
    split; cbn [lock threads readers writer]; rewrite ?length_insert; try done.
    + rewrite (holds_gain R _ i (Wants R)) by done. unfold wrap_count. rewrite Z.mod_small; lia.
    + by rewrite (held_insert W _ i (Wants R)).
    + intros j Hj. specialize (SR j (Hother _ _ Hj ltac:(done))). congruence.
    + intros j Hj. right. unfold wrap_count. rewrite Z.mod_small; lia.
  - unfold acquire_write in Ha. destruct (writer (lock s)) eqn:Ew; [done|]. cbn [orb] in Ha.
    destruct (Z.ltb_spec 0 (readers (lock s))); [done|]. injection Ha as <-.
    split; cbn [lock threads readers writer]; rewrite ?length_insert; try done.
    + by rewrite (held_insert R _ i (Wants W)).
    + rewrite (holds_gain W _ i (Wants W)) by done. by rewrite Wr.
    + intros _. lia.
    + intros j Hj. by left.
Qed.

Lemma release_ok s i m l b : lock_ok s -> threads s !! i = Some (Holds m) -> release m (lock s) = (l, b) ->
  lock_ok {| lock := l; threads := notify b (<[i := Idle]> (threads s)) |}.
Proof.
  intros Hok Hi Hr. pose proof (readers_bound s Hok) as Hb. pose proof Hok as [F Rd Wr Al SR SW].
  assert (Hlen : length (notify b (<[i := Idle]> (threads s))) = length (threads s)) by (destruct b; cbn; by rewrite ?length_map, length_insert).
  pose proof (holds_lose m (threads s) i Hi) as Hl.
  assert (Hno : forall t, b = true -> forall j, notify b (<[i := Idle]> (threads s)) !! j <> Some (Sleeps t)).
  { intros t -> j. apply no_sleeper. }
  destruct m; cbn [release] in Hr; injection Hr as <- <-.
  - assert (Hw : writer (lock s) = false).
    { destruct (writer (lock s)) eqn:E; [|done]. specialize (Al eq_refl). rewrite Rd in Al. lia. }
    assert (Hn : wrap_count (readers (lock s) - 1) = Z.of_nat (count (Holds R) (<[i := Idle]> (threads s)))).
    { unfold wrap_count. rewrite Z.mod_small by lia. lia. }
    split; cbn [lock threads readers writer]; rewrite ?Hlen, ?count_notify; try done.
    + by rewrite (held_insert W _ i (Holds R)), Wr.
    + by rewrite Hw.
    + intros j Hj. destruct (_ =? 0)%Z eqn:E0; [by apply (Hno R eq_refl) in Hj|].
      destruct (thread_lookup_set _ _ _ _ _ _ Hi Hj) as [[_ ?]|[_ Hj']]; [done|]. by rewrite (SR j Hj') in Hw.
    + intros j Hj. destruct (_ =? 0)%Z eqn:E0; [by apply (Hno W eq_refl) in Hj|]. apply Z.eqb_neq in E0. lia.
  - split; cbn [lock threads readers writer]; rewrite ?Hlen, ?count_notify; try done.
    + by rewrite (held_insert R _ i (Holds W)).
    + destruct (writer (lock s)); lia.
    + intros j Hj. by apply (Hno R eq_refl) in Hj.
    + intros j Hj. by apply (Hno W eq_refl) in Hj.
Qed.

Lemma work_keeps s s' : work s s' -> lock_ok s -> lock_ok s'.
Proof.
  intros Hst Hok. destruct Hst as [s i m l Hi Ha|s i m Hi Ha|s i m l b Hi Hr].
  - by eapply acquire_ok.
  - eapply park_ok; [done|exact Hi|done|done| |]; intros [= ->]; cbn [acquire] in Ha.
    + unfold acquire_read in Ha. by destruct (writer (lock s)).
    + unfold acquire_write in Ha. destruct (writer (lock s)); [by left|]. cbn in Ha.
      destruct (Z.ltb_spec 0 (readers (lock s))); [by right|done].
  - by eapply release_ok.
Qed.

Lemma step_keeps s s' : step s s' -> lock_ok s -> lock_ok s'.
Proof. intros [s0 i m Hi|s0 s1 Hw] Hok; [by eapply park_ok|by eapply work_keeps]. Qed.

Lemma reachable_lock_ok n s : (Z.of_nat n < 2 ^ 32)%Z -> rtc step (start n) s -> lock_ok s.
Proof.
  intros Hn H. pose proof (start_ok n Hn) as H0. induction H as [|s1 s2 s3 Hst _ IH]; [done|]. apply IH. by eapply step_keeps.
Qed.

(** C24: in every run, a thread that holds the lock for writing is the only one that holds it. *)
Theorem writer_excludes n s i j m :
  (Z.of_nat n < 2 ^ 32)%Z -> rtc step (start n) s ->
  threads s !! i = Some (Holds W) -> threads s !! j = Some (Holds m) -> j = i.
Proof.
  intros Hn Hr Hi Hj. pose proof (reachable_lock_ok n s Hn Hr) as [F Rd Wr Al _ _].
  assert (Hw : writer (lock s) = true).
  { pose proof (count_pos _ _ _ Hi). destruct (writer (lock s)); [done|lia]. }
  rewrite Hw in Wr. destruct m.
  - specialize (Al Hw). pose proof (count_pos _ _ _ Hj). lia.
  - destruct (decide (j = i)) as [|Hne]; [done|]. pose proof (count_two _ _ _ _ Hne Hj Hi). lia.
Qed.

(** ** Every call returns *)

Definition wants (t : thread) : nat := match t with Wants _ => 1 | _ => 0 end.
Definition busy (t : thread) : nat := match t with Idle => 0 | _ => 1 end.
Definition total (f : thread -> nat) (ts : list thread) : nat := list_sum (map f ts).

(** The calls that have not returned, then the threads that look at the state. *)
Definition measure (s : system) : nat := total busy (threads s) * S (length (threads s)) + total wants (threads s).

Lemma total_insert f ts i old new : ts !! i = Some old ->
  (total f (<[i := new]> ts) + f old = total f ts + f new)%nat.
Proof.
  revert i. induction ts as [|u ts IH]; intros i H; [done|]. unfold total in *. destruct i as [|i].
  - injection H as ->. change (<[0%nat := new]> (old :: ts)) with (new :: ts). unfold list_sum. cbn [map fold_right]. lia.
  - specialize (IH i H). change (<[S i := new]> (u :: ts)) with (u :: <[i := new]> ts). unfold list_sum in *. cbn [map fold_right]. lia.
Qed.

Lemma total_bound f ts : (forall t, f t <= 1)%nat -> (total f ts <= length ts)%nat.
Proof. intros H. unfold total. induction ts as [|u ts IH]; [done|]. unfold list_sum in *. cbn [map fold_right length]. specialize (H u). lia. Qed.

Lemma busy_wake ts : total busy (map wake ts) = total busy ts.
Proof. unfold total. rewrite map_map. f_equal. apply map_ext. by intros []. Qed.

Lemma work_decreases s s' : work s s' -> (measure s' < measure s)%nat.
Proof.
  intros Hw. destruct Hw as [s i m l Hi Ha|s i m Hi Ha|s i m l b Hi Hr]; unfold measure; cbn [threads]; rewrite ?length_insert.
  - pose proof (total_insert busy _ i _ (Holds m) Hi) as Hb. pose proof (total_insert wants _ i _ (Holds m) Hi). cbn [busy wants] in *.
    apply Nat.add_cancel_r in Hb. rewrite Hb. lia.
  - pose proof (total_insert busy _ i _ (Sleeps m) Hi) as Hb. pose proof (total_insert wants _ i _ (Sleeps m) Hi). cbn [busy wants] in *.
    apply Nat.add_cancel_r in Hb. rewrite Hb. lia.
  - pose proof (total_insert busy _ i _ Idle Hi) as Hb. set (ts := <[i := Idle]> (threads s)) in *.
    assert (Hl : length (notify b ts) = length (threads s)) by (destruct b; cbn; unfold ts; by rewrite ?length_map, length_insert).
    assert (Hbt : total busy (notify b ts) = total busy ts) by (destruct b; [apply busy_wake|done]).
    pose proof (total_bound wants (notify b ts) ltac:(by intros []; cbn; lia)) as Hw.
    rewrite Hl in *. rewrite Hbt. cbn [busy] in Hb. nia.
Qed.

(** The lock of a system where nobody can go on is not held. *)
Lemma stuck_idle s : lock_ok s -> (forall s', ~ work s s') -> Forall (eq Idle) (threads s).
Proof.
  intros Hok Hst. pose proof Hok as [F Rd Wr Al SR SW].
  assert (Hh : forall m, count (Holds m) (threads s) = 0%nat).
  { intros m. destruct (count (Holds m) (threads s)) eqn:E; [done|]. destruct (count_some (Holds m) (threads s)) as [i Hi]; [lia|].
    destruct (release m (lock s)) as [l b] eqn:Er. by destruct (Hst _ (work_release s i m l b Hi Er)). }
  assert (Hw : forall i m, threads s !! i <> Some (Wants m)).
  { intros i m Hi. destruct (acquire m (lock s)) as [l|] eqn:Ea; [by destruct (Hst _ (work_acquire s i m l Hi Ea))|].
    by destruct (Hst _ (work_wait s i m Hi Ea)). }
  rewrite Hh in Rd, Wr. assert (Ewr : writer (lock s) = false) by (by destruct (writer (lock s))).
  apply Forall_lookup. intros i t Hi. destruct t as [|m|m|m]; [done|by destruct (Hw i m)| |].
  - destruct m; [by rewrite (SR i Hi) in Ewr|]. destruct (SW i Hi) as [E|E]; [congruence|rewrite Rd in E; cbn in E; lia].
  - pose proof (count_pos _ _ _ Hi). rewrite Hh in *. lia.
Qed.

(** C25: when no new calls come, among fewer than 2^32 threads each of which goes on with the
    call it is in (a holder releases, no wake-up is spurious, the mutex is not poisoned), every
    run ends after a number of steps bounded by [measure], and it ends with every call returned:
    nobody is left asleep or waiting, whatever the order of the threads. *)
Theorem lock_drains n s :
  (Z.of_nat n < 2 ^ 32)%Z -> rtc step (start n) s ->
  (forall k s', nsteps work k s s' -> (k + measure s' <= measure s)%nat) /\
  (forall s', rtc work s s' -> (forall s'', ~ work s' s'') -> Forall (eq Idle) (threads s')).
Proof.
  intros Hn Hr. pose proof (reachable_lock_ok n s Hn Hr) as Hok. split.
  - intros k s' H. clear Hr Hok. induction H as [|k s1 s2 s3 H1 _ IH]; [done|]. apply work_decreases in H1. lia.
  - intros s' H. clear Hr. revert Hok. induction H as [|s1 s2 s3 H1 _ IH]; intros Hok; [by apply stuck_idle|].
    apply IH. by eapply work_keeps.
Qed.

(** ** Witnesses and behaviours worth recording *)

Definition one_writer : LockState := {| readers := 0; writer := true |}.
Definition writing : system := {| lock := one_writer; threads := [Holds W; Sleeps R] |}.

Lemma writing_reachable : rtc step (start 2) writing.
Proof.
  eapply rtc_l; [apply (step_call (start 2) 0 W); reflexivity|]. cbn.
  eapply rtc_l; [eapply step_work, (work_acquire _ 0 W); reflexivity|]. cbn.
  eapply rtc_l; [eapply (step_call _ 1 R); reflexivity|]. cbn.
  eapply rtc_l; [eapply step_work, (work_wait _ 1 R); reflexivity|]. apply rtc_refl.
Qed.

Lemma writer_excludes_witness : threads writing !! 1%nat <> Some (Holds R) /\ (forall j m, threads writing !! j = Some (Holds m) -> j = 0%nat).
Proof.
  split; [intros H; discriminate (writer_excludes 2 writing 0 1 R eq_refl writing_reachable eq_refl H)|].
  intros j m. exact (writer_excludes 2 writing 0 j m eq_refl writing_reachable eq_refl).
Defined.

Lemma lock_drains_witness :
  (forall k s', nsteps work k writing s' -> (k + measure s' <= 6)%nat) /\
  (forall s', rtc work writing s' -> (forall s'', ~ work s' s'') -> Forall (eq Idle) (threads s')).
Proof. exact (lock_drains 2 writing eq_refl writing_reachable). Defined.

(** Readers that overlap overtake a waiting writer: the system comes back to where it was. *)
Definition overtaken : system :=
  {| lock := {| readers := 1; writer := false |}; threads := [Holds R; Idle; Sleeps W] |}.

Theorem writer_can_starve : rtc step (start 3) overtaken /\ tc step overtaken overtaken.
Proof.
  split.
  - eapply rtc_l; [apply (step_call (start 3) 0 R); reflexivity|]. cbn.
    eapply rtc_l; [eapply step_work, (work_acquire _ 0 R); reflexivity|]. cbn.
    eapply rtc_l; [eapply (step_call _ 2 W); reflexivity|]. cbn.
    eapply rtc_l; [eapply step_work, (work_wait _ 2 W); reflexivity|]. apply rtc_refl.
  - eapply tc_l; [apply (step_call _ 1 R); reflexivity|]. cbn.
    eapply tc_l; [eapply step_work, (work_acquire _ 1 R); reflexivity|]. cbn.
    eapply tc_l; [eapply step_work, (work_release _ 0 R); reflexivity|]. cbn.
    eapply tc_l; [eapply (step_call _ 0 R); reflexivity|]. cbn.
    eapply tc_l; [eapply step_work, (work_acquire _ 0 R); reflexivity|]. cbn.
    pose proof (work_release {| lock := {| readers := 2; writer := false |}; threads := [Holds R; Holds R; Sleeps W] |}
      1 R {| readers := 1; writer := false |} false eq_refl eq_refl) as H.
    exact (tc_once _ _ _ (step_work _ _ H)).
Qed.

(** A reader that releases what it does not hold wraps the count: writers wait for ever. *)
Theorem extra_release_wraps :
  release_read new_lock = ({| readers := 2 ^ 32 - 1; writer := false |}, false) /\
  acquire_write (fst (release_read new_lock)) = None.
Proof. split; vm_compute; reflexivity. Qed.
