(* ===== verification/WireCursors.v ===== *)
(** * Server-side cursors

    [src/rust/smongo-py/src/wire_cursors.rs]: the registry that hands the
    results of a query to a client in batches.  Every method holds the mutex
    of the registry for its whole body (the polling of a change stream apart),
    so a run is a sequence of the operations below, and the thread that drops
    the idle cursors ([start_reaper]) is one more caller of [expire_idle].  The clock is an argument
    of the operations that read it, the random numbers are a list of draws,
    and the order of the [HashMap] is a parameter.  A Python iterator is the
    list of what it is still to yield, documents or exceptions.

    The batches of a cursor are its documents, each once and in order, and the
    registry holds no more cursors than it may. *)

From Stdlib Require Import ZArith Lia.
From S2P Require Import Prelude F64.
From stdpp Require Import base tactics relations list gmap.

Open Scope list_scope.

Module Cursors.
Section Cursors.
Context {D Ev Ex : Type}.

(** Source: smongo-py/src/wire_cursors.rs:19-28 (CursorDocs). *)
Inductive CursorDocs : Type :=
| Materialized (docs : list D) (docs_len offset : Z)
| Streaming (iter : list (result D Ex)).

(** Source: smongo-py/src/wire_cursors.rs:30-38 (CursorState). A change stream is what each
    [try_next] of it is to give: an event, nothing, or an exception. *)
Record CursorState : Type := {
  cursor_docs : CursorDocs;
  batch_size : Z;
  change_stream : option (list (result (option Ev) Ex));
  tailable : bool;
  last_accessed : Z }.

(** Source: smongo-py/src/wire_cursors.rs:40-45 (Inner). *)
Record Inner : Type := {
  cursors : gmap Z CursorState;
  default_batch_size : Z;
  idle_timeout_secs : Z;
  max_cursors : Z }.

(** Source: smongo-py/src/wire_cursors.rs:363-374 (new). *)
Definition new (default_batch_size idle_timeout_sec max_cursors : Z) : Inner :=
  {| cursors := ∅; default_batch_size := default_batch_size; idle_timeout_secs := idle_timeout_sec;
     max_cursors := max_cursors |}.

Definition with_cursors (r : Inner) (m : gmap Z CursorState) : Inner :=
  {| cursors := m; default_batch_size := default_batch_size r; idle_timeout_secs := idle_timeout_secs r;
     max_cursors := max_cursors r |}.

(** The elements of a [HashMap] in the order of its iterator. *)
Context (hash_order : list (Z * CursorState) -> list (Z * CursorState)).

(** [(rand::random::<u64>() >> 1) as i64 | 1]. *)
Definition id_of_draw (r : Z) : Z := Z.lor (wrap_i64 (Z.shiftr r 1)) 1.

(** Source: smongo-py/src/wire_cursors.rs:48-55 (generate_id). [None]: the draws given are all taken. *)
Fixpoint generate_id (r : Inner) (draws : list Z) : option (Z * list Z) :=
  match draws with
  | [] => None
  | d :: draws =>
      let cid := id_of_draw d in
      match cursors r !! cid with Some _ => generate_id r draws | None => Some (cid, draws) end
  end.

(** [min_by_key(|(_, s)| s.last_accessed)]: the first of the least. *)
Fixpoint least_accessed (l : list (Z * CursorState)) : option (Z * CursorState) :=
  match l with
  | [] => None
  | x :: l =>
      match least_accessed l with
      | Some y => if (last_accessed (snd y) <? last_accessed (snd x))%Z then Some y else Some x
      | None => Some x
      end
  end.

(** Source: smongo-py/src/wire_cursors.rs:57-69 (evict_oldest). *)
Definition evict_oldest (r : Inner) : Inner :=
  match least_accessed (hash_order (map_to_list (cursors r))) with
  | None => r
  | Some (oldest, _) => with_cursors r (delete oldest (cursors r))
  end.

(** [Duration::from_secs], in nanoseconds, as the clock is. *)
Definition nanos (secs : Z) : Z := (secs * 1000000000)%Z.

(** Source: smongo-py/src/wire_cursors.rs:71-83 (expire_idle). *)
Definition expire_idle (now : Z) (r : Inner) : Inner :=
  with_cursors r (filter (fun p => negb (nanos (idle_timeout_secs r) <? now - last_accessed p.2)%Z = true) (cursors r)).

(** Source: smongo-py/src/wire_cursors.rs:114-130 (pull_batch). What is left of the iterator, and the
    batch with whether it ended, or the exception. *)
Fixpoint pull_batch (count : nat) (iter : list (result D Ex)) : list (result D Ex) * result (list D * bool) Ex :=
  match count with
  | O => (iter, Ok ([], false))
  | S count =>
      match iter with
      | [] => ([], Ok ([], true))
      | Err e :: iter => (iter, Err e)
      | Ok item :: iter =>
          let '(rest, res) := pull_batch count iter in
          (rest, let? (batch, exhausted) := res in Ok (item :: batch, exhausted))
      end
  end.

(** [batch_size.filter(|&b| b > 0).unwrap_or(inner.default_batch_size)]. *)
Definition effective_batch (r : Inner) (batch_size : option Z) : Z :=
  match batch_size with Some b => if (0 <? b)%Z then b else default_batch_size r | None => default_batch_size r end.

(** [docs.get_slice(low, high)]. *)
Definition get_slice (docs : list D) (low high : Z) : list D :=
  if (high <=? low)%Z then [] else take (Z.to_nat (high - low)) (drop (Z.to_nat low) docs).

(** Source: smongo-py/src/wire_cursors.rs:152-171 (create). The registration of a cursor. *)
Definition register (now : Z) (draws : list Z) (r : Inner) (s : CursorState) : option (Inner * list Z * Z) :=
  let r := if (max_cursors r <=? Z.of_nat (size (cursors r)))%Z then evict_oldest r else r in
  match generate_id r draws with
  | None => None
  | Some (cursor_id, draws) => Some (with_cursors r (<[cursor_id := s]> (cursors r)), draws, cursor_id)
  end.

Definition state_of (docs : CursorDocs) (bs : Z) (now : Z) : CursorState :=
  {| cursor_docs := docs; batch_size := bs; change_stream := None; tailable := false; last_accessed := now |}.

(** Source: smongo-py/src/wire_cursors.rs:133-174 (create). *)
Definition create (now : Z) (draws : list Z) (r : Inner) (docs : list D) (batch_size : option Z)
  : option (Inner * list Z * (Z * list D)) :=
  let bs := effective_batch r batch_size in
  let total := Z.of_nat (length docs) in
  let first_batch := get_slice docs 0 (Z.min bs total) in
  if (total <=? bs)%Z then Some (r, draws, (0%Z, first_batch))
  else
    match register now draws r (state_of (Materialized docs total bs) bs now) with
    | None => None
    | Some (r, draws, cursor_id) => Some (r, draws, (cursor_id, first_batch))
    end.

(** Source: smongo-py/src/wire_cursors.rs:181-219 (create_from_iter). *)
Definition create_from_iter (now : Z) (draws : list Z) (r : Inner) (iter : list (result D Ex)) (batch_size : option Z)
  : option (Inner * list Z * result (Z * list D) Ex) :=
  let bs := effective_batch r batch_size in
  let '(iter, res) := pull_batch (Z.to_nat bs) iter in
  match res with
  | Err e => Some (r, draws, Err e)
  | Ok (first_batch, true) => Some (r, draws, Ok (0%Z, first_batch))
  | Ok (first_batch, false) =>
      match register now draws r (state_of (Streaming iter) bs now) with
      | None => None
      | Some (r, draws, cursor_id) => Some (r, draws, Ok (cursor_id, first_batch))
      end
  end.

(** The cursor accessed, with what is left of it. *)
Definition accessed (now : Z) (s : CursorState) (docs : CursorDocs) : CursorState :=
  {| cursor_docs := docs; batch_size := batch_size s; change_stream := change_stream s; tailable := tailable s;
     last_accessed := now |}.

(** Source: smongo-py/src/wire_cursors.rs:221-265 (get_more). *)
Definition get_more (now : Z) (r : Inner) (cursor_id : Z) (batch_size_arg : option Z)
  : Inner * result (option (Z * list D)) Ex :=
  match cursors r !! cursor_id with
  | None => (r, Ok None)
  | Some state =>
      let bs := match batch_size_arg with Some b => b | None => batch_size state end in
      match cursor_docs state with
      | Materialized docs docs_len start =>
          let fin := Z.min (wrap_u64 (start + bs)) docs_len in
          let batch := get_slice docs start fin in
          if (docs_len <=? fin)%Z then (with_cursors r (delete cursor_id (cursors r)), Ok (Some (0%Z, batch)))
          else (with_cursors r (<[cursor_id := accessed now state (Materialized docs docs_len fin)]> (cursors r)),
                Ok (Some (cursor_id, batch)))
      | Streaming iter =>
          let '(iter, res) := pull_batch (Z.to_nat bs) iter in
          let kept := with_cursors r (<[cursor_id := accessed now state (Streaming iter)]> (cursors r)) in
          match res with
          | Err e => (kept, Err e)
          | Ok (batch, true) => (with_cursors r (delete cursor_id (cursors r)), Ok (Some (0%Z, batch)))
          | Ok (batch, false) => (kept, Ok (Some (cursor_id, batch)))
          end
      end
  end.

(** Source: smongo-py/src/wire_cursors.rs:267-270 (is_tailable). *)
Definition is_tailable (r : Inner) (cursor_id : Z) : bool :=
  match cursors r !! cursor_id with Some s => tailable s | None => false end.

(** Source: smongo-py/src/wire_cursors.rs:272-281 (kill). *)
Fixpoint kill (r : Inner) (cursor_ids : list Z) : Inner * list Z :=
  match cursor_ids with
  | [] => (r, [])
  | cid :: ids =>
      match cursors r !! cid with
      | Some _ => let '(r, killed) := kill (with_cursors r (delete cid (cursors r))) ids in (r, cid :: killed)
      | None => kill r ids
      end
  end.

(** Source: smongo-py/src/wire_cursors.rs:283-316 (create_change_stream). *)
Definition create_change_stream (now : Z) (draws : list Z) (r : Inner) (stream : list (result (option Ev) Ex)) (batch_size_arg : option Z)
  : option (Inner * list Z * Z) :=
  let bs := effective_batch r batch_size_arg in
  register now draws r
    {| cursor_docs := Materialized [] 0 0; batch_size := bs; change_stream := Some stream; tailable := true;
       last_accessed := now |}.

(** Source: smongo-py/src/wire_cursors.rs:340-354 (get_more_change_stream). The polling: [try_next] until the
    batch is full, or nothing comes and the deadline has passed ([late]: what the clock says at
    each poll that finds nothing, before and after the sleep). *)
Fixpoint poll (bs : nat) (stream : list (result (option Ev) Ex)) (late : list bool)
  : list (result (option Ev) Ex) * result (list Ev) Ex :=
  match bs, stream with
  | O, _ => (stream, Ok [])
  | _, [] => (stream, Ok [])
  | S _, Err e :: stream => (stream, Err e)
  | S bs', Ok (Some ev) :: stream =>
      let '(rest, events) := poll bs' stream late in (rest, let? events := events in Ok (ev :: events))
  | S _, Ok None :: stream => match late with false :: late => poll bs stream late | _ => (stream, Ok []) end
  end.

(** Source: smongo-py/src/wire_cursors.rs:318-356 (get_more_change_stream). *)
Definition get_more_change_stream (now : Z) (r : Inner) (cursor_id : Z) (batch_size_arg : option Z) (late : list bool)
  : Inner * result (option (Z * list Ev)) Ex :=
  match cursors r !! cursor_id with
  | None => (r, Ok None)
  | Some state =>
      match change_stream state with
      | None => (r, Ok None)
      | Some stream =>
          let bs := match batch_size_arg with Some b => b | None => batch_size state end in
          let '(rest, events) := poll (Z.to_nat bs) stream late in
          let state := {| cursor_docs := cursor_docs state; batch_size := batch_size state; change_stream := Some rest;
                          tailable := tailable state; last_accessed := now |} in
          (with_cursors r (<[cursor_id := state]> (cursors r)), let? events := events in Ok (Some (cursor_id, events)))
      end
  end.

(** ** What a cursor is still to deliver *)

Definition pending (d : CursorDocs) : list (result D Ex) :=
  match d with
  | Materialized docs _ offset => map Ok (drop (Z.to_nat offset) docs)
  | Streaming iter => iter
  end.

(** The offset is in the documents, whose number a [usize] holds twice. *)
Definition docs_wf (d : CursorDocs) : Prop :=
  match d with
  | Materialized docs len offset => len = Z.of_nat (length docs) /\ (0 <= offset <= len)%Z /\ (len < 2 ^ 63)%Z
  | Streaming _ => True
  end.

(** A batch size a client may ask for: positive, and no more than [i64::MAX]. *)
Definition size_ok (b : Z) : Prop := (1 <= b < 2 ^ 63)%Z.

Lemma pull_batch_spec n : forall iter rest batch ex, pull_batch n iter = (rest, Ok (batch, ex)) ->
  iter = map Ok batch ++ rest /\ (ex = true -> rest = []) /\ (ex = false -> length batch = n).
Proof.
  induction n as [|n IH]; intros iter rest batch ex H; cbn [pull_batch] in H; [by injection H as <- <- <-|].
  destruct iter as [|[item|e] iter]; [by injection H as <- <- <-| |done].
  destruct (pull_batch n iter) as [rest' [[batch' ex']|]] eqn:E; [|done]. injection H as <- <- <-.
  destruct (IH _ _ _ _ E) as (-> & H1 & H2). split; [done|]. split; [done|]. intros He. cbn. by rewrite (H2 He).
Qed.

Lemma pull_batch_clean n docs : exists rest batch ex,
  pull_batch n (map Ok docs) = (map Ok rest, Ok (batch, ex)) /\ docs = batch ++ rest.
Proof.
  revert docs. induction n as [|n IH]; intros docs; cbn [pull_batch]; [by exists docs, [], false|].
  destruct docs as [|d docs]; cbn [map]; [by exists [], [], true|].
  destruct (IH docs) as (rest & batch & ex & -> & ->). by exists rest, (d :: batch), ex.
Qed.

Lemma slice_split (docs : list D) low high : (0 <= low)%Z -> (low <= high <= Z.of_nat (length docs))%Z ->
  get_slice docs low high ++ drop (Z.to_nat high) docs = drop (Z.to_nat low) docs /\
  length (get_slice docs low high) = Z.to_nat (high - low).
Proof.
  intros H0 H. unfold get_slice. destruct (Z.leb_spec high low) as [Hle|Hlt].
  { replace high with low by lia. split; [done|]. cbn. lia. }
  split.
  - rewrite <- (take_drop (Z.to_nat (high - low)) (drop (Z.to_nat low) docs)) at 2. f_equal. rewrite drop_drop. f_equal. lia.
  - rewrite length_take, length_drop. lia.
Qed.

Lemma map_ok_inj (l1 l2 : list D) : map (@Ok D Ex) l1 = map Ok l2 -> l1 = l2.
Proof. revert l2. induction l1 as [|x l1 IH]; intros [|y l2] H; try done. injection H as -> H. by rewrite (IH l2). Qed.

(** What one [get_more] delivers. *)
Lemma get_more_delivers now r id arg s docs :
  id <> 0%Z -> cursors r !! id = Some s -> docs_wf (cursor_docs s) -> pending (cursor_docs s) = map Ok docs ->
  size_ok (match arg with Some b => b | None => batch_size s end) ->
  exists r' id' batch, get_more now r id arg = (r', Ok (Some (id', batch))) /\
    ((id' = 0%Z /\ batch = docs /\ cursors r' = delete id (cursors r)) \/
     (id' = id /\ exists s' rest, cursors r' = <[id := s']> (cursors r) /\ docs = batch ++ rest /\ batch <> [] /\
        docs_wf (cursor_docs s') /\ pending (cursor_docs s') = map Ok rest /\ batch_size s' = batch_size s)).
Proof.
  intros Hid Hs Hwf Hp Hb. unfold get_more. rewrite Hs. set (bs := match arg with Some b => b | None => batch_size s end) in *.
  destruct (cursor_docs s) as [all len off|iter] eqn:Ed; cbn [pending docs_wf] in Hp, Hwf.
  - destruct Hwf as (-> & Hoff & Hlen). unfold size_ok in Hb.
    assert (Hdocs : drop (Z.to_nat off) all = docs) by (by apply map_ok_inj in Hp).
    unfold wrap_u64. rewrite (Z.mod_small (off + bs)) by lia. set (fin := Z.min (off + bs) (Z.of_nat (length all))).
    destruct (slice_split all off fin) as [Hsl Hl]; [lia|lia|]. destruct (Z.leb_spec (Z.of_nat (length all)) fin) as [Hend|Hend].
    + eexists _, _, _. split; [reflexivity|]. left. split; [done|]. split; [|done]. rewrite <- Hdocs, <- Hsl.
      rewrite (drop_ge all (Z.to_nat fin)) by lia. by rewrite app_nil_r.
    + eexists _, _, _. split; [reflexivity|]. right. split; [done|]. eexists _, (drop (Z.to_nat fin) all). split; [reflexivity|].
      split; [by rewrite Hsl|]. split; [|split; [|split; [reflexivity|reflexivity]]].
      * intros E. rewrite E in Hl. cbn in Hl. lia.
      * cbn. lia.
  - subst iter. destruct (pull_batch_clean (Z.to_nat bs) docs) as (rest & batch & ex & Hpull & ->). rewrite Hpull.
    destruct (pull_batch_spec _ _ _ _ _ Hpull) as (_ & H1 & H2). destruct ex.
    + eexists _, _, _. split; [reflexivity|]. left. split; [done|]. split; [|done]. specialize (H1 eq_refl).
      destruct rest; [by rewrite app_nil_r|done].
    + eexists _, _, _. split; [reflexivity|]. right. split; [done|]. eexists _, rest. split; [reflexivity|]. split; [done|].
      split; [|by repeat split]. intros ->. specialize (H2 eq_refl). unfold size_ok in Hb. cbn in H2. lia.
Qed.

(** A client that asks until the cursor is exhausted, with a batch size for each call. *)
Fixpoint drain (now : Z) (r : Inner) (id : Z) (sizes : list (option Z)) : option (Inner * list D) :=
  match sizes with
  | [] => None
  | size :: sizes =>
      match get_more now r id size with
      | (r, Ok (Some (id', batch))) =>
          if (id' =? 0)%Z then Some (r, batch)
          else match drain now r id' sizes with Some (r, docs) => Some (r, batch ++ docs) | None => None end
      | _ => None
      end
  end.

Lemma drain_delivers now id sizes : forall r s docs,
  id <> 0%Z -> cursors r !! id = Some s -> docs_wf (cursor_docs s) -> pending (cursor_docs s) = map Ok docs ->
  size_ok (batch_size s) -> Forall (fun o => match o with Some b => size_ok b | None => True end) sizes ->
  (length docs < length sizes)%nat ->
  exists r', drain now r id sizes = Some (r', docs) /\ cursors r' = delete id (cursors r).
Proof.
  induction sizes as [|size sizes IH]; intros r s docs Hid Hs Hwf Hp Hb Hsz Hlen; [cbn in Hlen; lia|].
  inversion_clear Hsz as [|? ? Hsize Hrest]. cbn [drain].
  destruct (get_more_delivers now r id size s docs Hid Hs Hwf Hp) as (r' & id' & batch & -> & H); [by destruct size|].
  destruct H as [(-> & -> & Hc)|(-> & s' & rest & Hc & -> & Hne & Hwf' & Hp' & Hb')]; [by exists r'|].
  rewrite (proj2 (Z.eqb_neq id 0) Hid). destruct (IH r' s' rest) as (r2 & -> & Hc2); try done.
  - by rewrite Hc, lookup_insert_eq.
  - by rewrite Hb'.
  - rewrite length_app in Hlen. cbn [length] in Hlen. destruct batch; [done|]. cbn [length] in Hlen. lia.
  - exists r2. split; [done|]. rewrite Hc2, Hc. by rewrite delete_insert_eq.
Qed.

Lemma id_of_draw_nonzero d : id_of_draw d <> 0%Z.
Proof.
  unfold id_of_draw. intros E. assert (H : Z.testbit (Z.lor (wrap_i64 (Z.shiftr d 1)) 1) 0 = true) by (rewrite Z.lor_spec; apply orb_true_r).
  by rewrite E in H.
Qed.

Lemma generate_id_fresh r draws id draws' : generate_id r draws = Some (id, draws') ->
  id <> 0%Z /\ cursors r !! id = None.
Proof.
  induction draws as [|d draws IH]; intros H; [done|]. cbn [generate_id] in H.
  destruct (cursors r !! id_of_draw d) eqn:E; [by apply IH|]. injection H as <- <-. split; [apply id_of_draw_nonzero|done].
Qed.

Lemma register_spec now draws r st r' draws' id : register now draws r st = Some (r', draws', id) ->
  id <> 0%Z /\ exists r0, (r0 = r \/ r0 = evict_oldest r /\ (max_cursors r <= Z.of_nat (size (cursors r)))%Z) /\
    ((max_cursors r <= Z.of_nat (size (cursors r)))%Z -> r0 = evict_oldest r) /\
    cursors r0 !! id = None /\ r' = with_cursors r0 (<[id := st]> (cursors r0)).
Proof.
  unfold register. intros H. destruct (Z.leb_spec (max_cursors r) (Z.of_nat (size (cursors r)))) as [Hle|Hlt].
  - destruct (generate_id (evict_oldest r) draws) as [[id0 d0]|] eqn:E; [|done]. injection H as <- <- <-.
    destruct (generate_id_fresh _ _ _ _ E) as [H1 H2]. split; [done|]. exists (evict_oldest r). split_and!; auto.
  - destruct (generate_id r draws) as [[id0 d0]|] eqn:E; [|done]. injection H as <- <- <-.
    destruct (generate_id_fresh _ _ _ _ E) as [H1 H2]. split; [done|]. exists r. split_and!; auto. lia.
Qed.

(** C22: the batches of a cursor put together are the documents of the query, each once and in
    order, for positive batch sizes and a client that asks at least as often as there are
    documents, with no other cursor command in between and documents that are produced without
    an error. A cursor with id 0 has delivered all of them in the first batch and is not
    registered; any other is gone from the registry when the last one is delivered. (A size of
    zero or less does not get there: [zero_batch_never_ends], [negative_batch_size_repeats].) *)
Theorem cursor_delivers_all now now' draws r docs arg sizes :
  size_ok (effective_batch r arg) -> (Z.of_nat (length docs) < 2 ^ 63)%Z ->
  Forall (fun o => match o with Some b => size_ok b | None => True end) sizes -> (length docs < length sizes)%nat ->
  let delivered (r1 : Inner) (id : Z) (first : list D) :=
    (id = 0%Z /\ first = docs /\ r1 = r) \/
    (id <> 0%Z /\ exists r2 rest, drain now' r1 id sizes = Some (r2, rest) /\ first ++ rest = docs /\
      cursors r2 = delete id (cursors r1)) in
  (forall r1 draws1 id first, create now draws r docs arg = Some (r1, draws1, (id, first)) -> delivered r1 id first) /\
  (forall r1 draws1 id first, create_from_iter now draws r (map Ok docs) arg = Some (r1, draws1, Ok (id, first)) ->
    delivered r1 id first).
Proof.
  intros Hb Hlen Hsz Hn delivered. unfold delivered. set (bs := effective_batch r arg) in *. split; intros r1 draws1 id first H.
  - unfold create in H. fold bs in H. destruct (slice_split docs 0 (Z.min bs (Z.of_nat (length docs)))) as [Hsl _]; [lia|unfold size_ok in Hb; lia|].
    cbn [Z.to_nat drop] in Hsl. destruct (Z.leb_spec (Z.of_nat (length docs)) bs) as [Hle|Hlt].
    { injection H as <- <- <- <-. left. split; [done|]. split; [|done]. rewrite (drop_ge docs) in Hsl by lia. by rewrite app_nil_r in Hsl. }
    destruct (register _ _ _ _) as [[[r' d'] id']|] eqn:Er; [|done]. injection H as <- <- <- <-.
    destruct (register_spec _ _ _ _ _ _ _ Er) as (Hid & r0 & _ & _ & Hfree & ->). right. split; [done|].
    destruct (drain_delivers now' id' sizes (with_cursors r0 (<[id' := state_of (Materialized docs (Z.of_nat (length docs)) bs) bs now]> (cursors r0)))
      (state_of (Materialized docs (Z.of_nat (length docs)) bs) bs now) (drop (Z.to_nat bs) docs)) as (r2 & Hd & Hc); try done.
    + cbn. by rewrite lookup_insert_eq.
    + cbn. unfold size_ok in Hb. lia.
    + rewrite length_drop. lia.
    + exists r2, (drop (Z.to_nat bs) docs). split_and!; [done| |done]. rewrite Z.min_l in Hsl by lia. rewrite Z.min_l by lia. exact Hsl.
  - unfold create_from_iter in H. fold bs in H. destruct (pull_batch_clean (Z.to_nat bs) docs) as (rest & batch & ex & Hpull & Hdocs).
    rewrite Hpull in H. destruct (pull_batch_spec _ _ _ _ _ Hpull) as (_ & Hex & _). destruct ex.
    { injection H as <- <- <- <-. left. split; [done|]. split; [|done]. specialize (Hex eq_refl). destruct rest; [|done]. by rewrite Hdocs, app_nil_r. }
    destruct (register _ _ _ _) as [[[r' d'] id']|] eqn:Er; [|done]. injection H as <- <- <- <-.
    destruct (register_spec _ _ _ _ _ _ _ Er) as (Hid & r0 & _ & _ & Hfree & ->). right. split; [done|].
    destruct (drain_delivers now' id' sizes (with_cursors r0 (<[id' := state_of (Streaming (map Ok rest)) bs now]> (cursors r0)))
      (state_of (Streaming (map Ok rest)) bs now) rest) as (r2 & Hd & Hc); try done.
    + cbn. by rewrite lookup_insert_eq.
    + rewrite Hdocs, length_app in Hn. lia.
    + exists r2, rest. by split_and!.
Qed.

(** ** The size of the registry *)

(** A call of the registry, by whichever thread. *)
Inductive registry_step : Inner -> Inner -> Prop :=
| step_create now draws r docs arg r' draws' out :
    create now draws r docs arg = Some (r', draws', out) -> registry_step r r'
| step_create_from_iter now draws r iter arg r' draws' out :
    create_from_iter now draws r iter arg = Some (r', draws', out) -> registry_step r r'
| step_create_change_stream now draws r stream arg r' draws' id :
    create_change_stream now draws r stream arg = Some (r', draws', id) -> registry_step r r'
| step_get_more now r id arg : registry_step r (fst (get_more now r id arg))
| step_get_more_change_stream now r id arg late : registry_step r (fst (get_more_change_stream now r id arg late))
| step_kill r ids : registry_step r (fst (kill r ids))
| step_expire_idle now r : registry_step r (expire_idle now r).

Lemma least_accessed_spec l :
  match least_accessed l with
  | Some x => x ∈ l /\ Forall (fun y => (last_accessed x.2 <= last_accessed y.2)%Z) l
  | None => l = []
  end.
Proof.
  induction l as [|x l IH]; [done|]. cbn [least_accessed]. destruct (least_accessed l) as [y|].
  - destruct IH as [Hin Hall]. destruct (Z.ltb_spec (last_accessed y.2) (last_accessed x.2)) as [Hlt|Hge].
    + split; [by right|]. constructor; [lia|done].
    + split; [by left|]. constructor; [lia|]. eapply Forall_impl; [exact Hall|]. intros z. cbn. lia.
  - subst l. split; [by left|]. repeat constructor. lia.
Qed.

Section bounded.
Hypothesis hash_order_elements : forall l, Permutation l (hash_order l).

(** The cursor evicted is one of those accessed the longest ago. *)
Lemma evict_oldest_spec r : cursors r <> ∅ -> exists k s,
  cursors r !! k = Some s /\ evict_oldest r = with_cursors r (delete k (cursors r)) /\
  forall k' s', cursors r !! k' = Some s' -> (last_accessed s <= last_accessed s')%Z.
Proof.
  intros Hne. unfold evict_oldest. set (l := map_to_list (cursors r)).
  pose proof (least_accessed_spec (hash_order l)) as H. destruct (least_accessed (hash_order l)) as [[k s]|].
  - destruct H as [Hin Hall]. exists k, s. split; [|split; [done|]].
    + apply elem_of_map_to_list. fold l. by rewrite (hash_order_elements l).
    + intros k' s' Hk. rewrite <- (hash_order_elements l) in Hall. rewrite Forall_forall in Hall.
      apply (Hall (k', s')). by apply elem_of_map_to_list.
  - pose proof (hash_order_elements l) as Hp. rewrite H in Hp. apply Permutation_sym, Permutation_nil in Hp.
    by apply map_to_list_empty_iff in Hp.
Qed.

Definition within (m : Z) (r : Inner) : Prop :=
  max_cursors r = m /\ (Z.of_nat (size (cursors r)) <= Z.max 1 m)%Z.

Lemma within_register m now draws r st r' draws' id : (0 <= m)%Z ->
  within m r -> register now draws r st = Some (r', draws', id) -> within m r'.
Proof.
  intros Hm [Hmax Hsize] H. unfold register in H. rewrite Hmax in H.
  set (r0 := if (m <=? _)%Z then _ else _) in H. assert (H0 : max_cursors r0 = m /\ (Z.of_nat (size (cursors r0)) < Z.max 1 m)%Z).
  { unfold r0. destruct (Z.leb_spec m (Z.of_nat (size (cursors r)))) as [Hle|Hlt]; [|split; [done|lia]].
    destruct (decide (cursors r = ∅)) as [He|Hne].
    - unfold evict_oldest. rewrite He, map_to_list_empty. pose proof (hash_order_elements []) as Hp.
      apply Permutation_nil in Hp. rewrite Hp. cbn [least_accessed]. split; [done|]. rewrite He, map_size_empty. lia.
    - destruct (evict_oldest_spec r Hne) as (k & s & Hk & -> & _). split; [done|]. cbn [with_cursors cursors].
      rewrite map_size_delete_Some by eauto. lia. }
  destruct (generate_id r0 draws) as [[id0 d0]|] eqn:E; [|done]. injection H as <- <- <-.
  destruct (generate_id_fresh _ _ _ _ E) as [_ Hf]. destruct H0 as [H1 H2]. split; [done|]. cbn [with_cursors cursors].
  rewrite map_size_insert_None by done. lia.
Qed.

Lemma within_smaller m r c : within m r -> (size c <= size (cursors r))%nat -> within m (with_cursors r c).
Proof. intros [H1 H2] Hs. split; [done|]. cbn. lia. Qed.

Lemma size_delete_le (c : gmap Z CursorState) k : (size (delete k c) <= size c)%nat.
Proof. rewrite map_size_delete. destruct (c !! k); cbn; lia. Qed.

Lemma size_update (c : gmap Z CursorState) k s s' : c !! k = Some s -> (size (<[k := s']> c) <= size c)%nat.
Proof. intros H. rewrite map_size_insert_Some by eauto. lia. Qed.

Lemma within_kill m ids : forall r, within m r -> within m (fst (kill r ids)).
Proof.
  induction ids as [|cid ids IH]; intros r Hr; [done|]. cbn [kill]. destruct (cursors r !! cid); [|by apply IH].
  specialize (IH (with_cursors r (delete cid (cursors r)))). destruct (kill _ ids) as [r2 killed]. apply IH.
  apply within_smaller; [done|apply size_delete_le].
Qed.

Lemma within_step m r r' : (0 <= m)%Z -> within m r -> registry_step r r' -> within m r'.
Proof.
  intros Hm Hr Hs. revert Hr. destruct Hs as [now draws r1 docs arg r2 draws' out H|now draws r1 iter arg r2 draws' out H
    |now draws r1 stream arg r2 draws' id H|now r1 id arg|now r1 id arg late|r1 ids|now r1]; intros Hr.
  - unfold create in H. case_match; [by simplify_eq|].
    destruct (register _ _ _ _) as [[[r3 d3] id]|] eqn:E; [|done]. injection H as <- <- <-. exact (within_register _ _ _ _ _ _ _ _ Hm Hr E).
  - unfold create_from_iter in H. destruct (pull_batch _ _) as [rest [[b [|]]|e]]; [by simplify_eq| |by simplify_eq].
    destruct (register _ _ _ _) as [[[r3 d3] id]|] eqn:E; [|done]. injection H as <- <- <-. exact (within_register _ _ _ _ _ _ _ _ Hm Hr E).
  - exact (within_register _ _ _ _ _ _ _ _ Hm Hr H).
  - unfold get_more. destruct (cursors r1 !! id) as [s|] eqn:E; [|done]. destruct (cursor_docs s).
    + case_match; (apply within_smaller; [done|]); [apply size_delete_le|exact (size_update _ _ _ _ E)].
    + destruct (pull_batch _ _) as [rest [[b [|]]|e]]; (apply within_smaller; [done|]);
        [apply size_delete_le|exact (size_update _ _ _ _ E)|exact (size_update _ _ _ _ E)].
  - unfold get_more_change_stream. destruct (cursors r1 !! id) as [s|] eqn:E; [|done].
    destruct (change_stream s); [|done]. destruct (poll _ _ _). apply within_smaller; [done|exact (size_update _ _ _ _ E)].
  - by apply within_kill.
  - unfold expire_idle. apply within_smaller; [done|apply map_size_filter].
Qed.

(** C23: whatever calls are made, the registry holds no more cursors than [max_cursors] (one, when
    that is 0), and a cursor registered is there at once; of the other cursors
    none is dropped but, when the registry is full, one that was accessed the
    longest ago. *)
Theorem registry_bounded d t m r : (0 <= m)%Z -> rtc registry_step (new d t m) r ->
  (Z.of_nat (size (cursors r)) <= Z.max 1 m)%Z /\
  forall now draws st r' draws' id, register now draws r st = Some (r', draws', id) ->
    cursors r' !! id = Some st /\
    ((forall k s, cursors r !! k = Some s -> cursors r' !! k = Some s) \/
     (m <= Z.of_nat (size (cursors r)))%Z /\ exists k0 s0, cursors r !! k0 = Some s0 /\
       (forall k s, cursors r !! k = Some s -> (last_accessed s0 <= last_accessed s)%Z) /\
       (forall k s, k <> k0 -> cursors r !! k = Some s -> cursors r' !! k = Some s)).
Proof.
  intros Hm Hr. assert (Hw : within m r).
  { assert (H0 : within m (new d t m)) by (split; [done|]; cbn [new cursors]; rewrite map_size_empty; lia). induction Hr as [x|x y z Hxy _ IH]; [done|].
    exact (IH (within_step _ _ _ Hm H0 Hxy)). }
  destruct Hw as [Hmax Hsize]. split; [done|]. intros now draws st r' draws' id H.
  destruct (register_spec _ _ _ _ _ _ _ H) as (_ & r0 & Hr0 & _ & Hfree & ->). cbn [with_cursors cursors].
  split; [apply lookup_insert_eq|]. destruct Hr0 as [-> |[-> Hfull]].
  { left. intros k s Hk. rewrite lookup_insert_ne; [done|]. congruence. }
  destruct (decide (cursors r = ∅)) as [He|Hne]; [left; intros k s Hk; by rewrite He in Hk|].
  right. split; [by rewrite Hmax in Hfull|]. destruct (evict_oldest_spec r Hne) as (k0 & s0 & Hk0 & Hev & Hleast).
  exists k0, s0. split_and!; [done|done|]. intros k s Hk Hs. rewrite Hev in *. cbn [with_cursors cursors] in *.
  rewrite lookup_insert_ne; [by rewrite lookup_delete_ne|]. intros ->. rewrite lookup_delete_ne in Hfree by done. congruence.
Qed.
End bounded.
End Cursors.
End Cursors.

(** ** Runs *)

Section runs.
Import Cursors.

Abbreviation nat_inner := (@Inner nat unit unit).
Abbreviation hash_id := (fun l : list (Z * @CursorState nat unit unit) => l).

Lemma cursor_delivers_all_witness :
  exists r2, drain 0 (fst (fst (default (new 2 600 10, [], (0%Z, [])) (create hash_id 0 [10%Z] (new 2 600 10 : nat_inner) [1; 2; 3; 4; 5] None))))
    5 [None; Some 1%Z; None; None; None; None] = Some (r2, [3; 4; 5]).
Proof.
  destruct (cursor_delivers_all hash_id 0 0 [10%Z] (new 2 600 10 : nat_inner) [1; 2; 3; 4; 5] None
    [None; Some 1%Z; None; None; None; None]) as [H _].
  - vm_compute. split; [discriminate|reflexivity].
  - reflexivity.
  - repeat constructor; discriminate.
  - cbn. lia.
  - destruct (H _ _ _ _ eq_refl) as [(E & _)|(_ & r2 & rest & Hd & Hrest & _)]; [discriminate E|].
    exists r2. refine (eq_trans Hd _). injection Hrest as ->. reflexivity.
Defined.

(** A full registry of two cursors: the third drops the one accessed first. *)
Lemma registry_bounded_witness :
  exists r : nat_inner, size (cursors r) = 2 /\ (Z.of_nat (size (cursors r)) <= Z.max 1 2)%Z /\
    rtc (registry_step hash_id) (new 1 600 2) r.
Proof.
  pose (r1 := fst (fst (default (new 1 600 2 : nat_inner, [], (0%Z, [])) (create hash_id 7 [4%Z] (new 1 600 2 : nat_inner) [1; 2] None)))).
  pose (r2 := fst (fst (default (new 1 600 2 : nat_inner, [], (0%Z, [])) (create hash_id 8 [8%Z] r1 [1; 2] None)))).
  assert (Hr : rtc (registry_step hash_id) (new 1 600 2) r2).
  { apply (rtc_l _ _ r1); [exact (step_create hash_id 7 [4%Z] (new 1 600 2) [1; 2] None _ _ _ eq_refl)|].
    apply (rtc_l _ _ r2); [exact (step_create hash_id 8 [8%Z] r1 [1; 2] None _ _ _ eq_refl)|]. apply rtc_refl. }
  exists r2. split; [reflexivity|]. split; [|exact Hr].
  exact (proj1 (registry_bounded hash_id (fun l => Permutation_refl l) 1 600 2 r2 ltac:(lia) Hr)).
Defined.

Example third_cursor_evicts_first :
  let r1 := fst (fst (default (new 1 600 2 : nat_inner, [], (0%Z, [])) (create hash_id 7 [4%Z] (new 1 600 2 : nat_inner) [1; 2] None))) in
  let r2 := fst (fst (default (r1, [], (0%Z, [])) (create hash_id 8 [8%Z] r1 [1; 2] None))) in
  let r3 := fst (fst (default (r2, [], (0%Z, [])) (create hash_id 9 [12%Z] r2 [1; 2] None))) in
  map fst (map_to_list (cursors r3)) = [5; 7]%Z \/ map fst (map_to_list (cursors r3)) = [7; 5]%Z.
Proof. vm_compute. auto. Qed.

(** [getMore] casts the client's [batchSize] to [usize]: with -1 the offset goes back by one, and a document is
    delivered again. *)
Theorem negative_batch_size_repeats :
  let r := fst (fst (default (new 2 600 10 : nat_inner, [], (0%Z, [])) (create hash_id 0 [10%Z] (new 2 600 10 : nat_inner) [1; 2; 3; 4; 5] None))) in
  let '(r1, out1) := get_more 0 r 5 (Some (wrap_u64 (-1))) in
  let '(r2, out2) := get_more 0 r1 5 (Some 2%Z) in
  out1 = Ok (Some (5%Z, [])) /\ out2 = Ok (Some (5%Z, [2; 3])).
Proof. vm_compute. split; reflexivity. Qed.

(** An exception of the iterator loses the items pulled before it: the cursor stays, and the next batch starts after
    the exception. *)
Theorem exception_loses_items :
  let s : @CursorState nat unit unit := state_of (Streaming [Ok 1; Ok 2; Err tt; Ok 3]) 3 0 in
  let r := with_cursors (new 3 600 10) {[5%Z := s]} in
  let '(r1, out1) := get_more 0 r 5 None in
  let '(r2, out2) := get_more 0 r1 5 None in
  out1 = Err tt /\ out2 = Ok (Some (0%Z, [3])).
Proof. vm_compute. split; reflexivity. Qed.

(** A [getMore] of batch size 0 delivers nothing and keeps the cursor, at any time. *)
Theorem zero_batch_never_ends docs off now (r : nat_inner) id s :
  cursors r !! id = Some s -> cursor_docs s = Materialized docs (Z.of_nat (length docs)) off -> (0 <= off < Z.of_nat (length docs))%Z ->
  (Z.of_nat (length docs) < 2 ^ 63)%Z ->
  exists r', get_more now r id (Some 0%Z) = (r', Ok (Some (id, []))).
Proof.
  intros Hs Hd Hoff Hlen. unfold get_more. rewrite Hs, Hd. unfold wrap_u64. rewrite Z.mod_small by lia.
  rewrite Z.add_0_r, Z.min_l by lia. destruct (Z.leb_spec (Z.of_nat (length docs)) off); [lia|].
  unfold get_slice. rewrite Z.leb_refl. by eexists.
Qed.
End runs.
