(* ===== verification/PyBson.v ===== *)
(** * Python values and BSON

    [src/rust/smongo-py/src/bson_helpers.rs], [raw_bson.rs], [wire_codec.rs]
    and the byte form of [objectid.rs]: the conversions every message of a
    client goes through.  A Python object is a value of [pyval], one
    constructor for each class the conversions tell apart; a subclass is
    listed before the class it specialises, as the code tests it.  The text of
    a [str] has no lone surrogates, and the classes of the [bson], [uuid],
    [re] and [datetime] modules can be imported.

    What Python's own modules and other crates do is a parameter ([PyEnv]):
    the [datetime] a number of seconds stands for, the flags [re.compile]
    gives a pattern, and the decoding of hexadecimal digits.

    A document made of the plain types is read back from its bytes as it was
    written; the other types come back as something else. *)

From Stdlib Require Import ZArith Lia Ascii String Strings.Byte List.
From S2P Require Import Prelude F64 Bson RefBson Paths IndexKey LeBytes Spill.
From stdpp Require Import base tactics list strings.

Open Scope list_scope.

(** The key of a [dict]: a [str], or anything else that can be hashed. *)
Inductive pykey : Type := KStr (s : string) | KOther.

(** The [flags] of a [bson.Regex]: a number in the driver's own class. *)
Inductive regex_flags : Type := FlagsStr (s : string) | FlagsInt (n : Z).

(** A Python object, as the conversions see it. *)
Unset Elimination Schemes.
Inductive pyval : Type :=
| PyNone
| PyBool (b : bool)
| PyInt64 (n : Z)
| PyInt (n : Z)
| PyFloat (f : f64)
| PyStr (s : string)
| PyObjectId (raw : bytes)
| PyDecimal128 (bid : bytes) (text : string)
| PyRegex (pattern : string) (flags : regex_flags)
| PyUuid (data : bytes)
| PyBinary (data : bytes) (subtype : byte)
| PyBytes (data : bytes)
| PyPattern (pattern : string) (flags : Z)
| PyDict (d : list (pykey * pyval))
| PyList (l : list pyval)
| PyTuple (l : list pyval)
| PyTimestamp (time inc : Z)
| PyDatetime (timestamp : f64)
| PyBsonObjectId (text : string)
| PyOther (type_name text : string).
Set Elimination Schemes.

(** The exceptions of the wire layer; [PythonError] is any of Python's [KeyError], [IndexError], [AttributeError], [RuntimeError]
    and [OSError]. *)
Inductive pyerr : Type :=
| OverflowError
| TypeError (msg : string)
| ValueError (msg : string)
| ProtocolError (msg : string)
| ChecksumMismatch (msg : string)
| PythonError (msg : string)
| NamespaceError (msg : string)
| TooManySessions (msg : string)
| TransactionError (msg : string)
| DuplicateKeyError (msg : string)
| ValidationError (msg : string)
| NotImplementedError (msg : string)
| StorageError (msg : string)
| PyPanic (msg : string).

(** [datetime.fromtimestamp] (as what [timestamp()] of its result gives), the flags of what [re.compile] makes,
    [float(d.to_decimal())], [hex::decode] and [hex::encode], [str(bson.ObjectId(s))] and [bson::from_slice]. *)
Class PyEnv : Type := {
  py_fromtimestamp : f64 -> result f64 pyerr;
  re_compile : string -> Z -> result Z pyerr;
  decimal_to_float : bytes -> result f64 pyerr;
  hex_decode : string -> option bytes;
  hex_encode : bytes -> string;
  bson_objectid : string -> result string pyerr;
  bson_from_slice : bytes -> result document string }.

(** The values nested in a [dict], a [list] or a [tuple]. *)
Definition pyval_ind (P : pyval -> Prop)
  (fdict : forall d, Forall (fun kv => P (snd kv)) d -> P (PyDict d))
  (flist : forall l, Forall P l -> P (PyList l)) (ftuple : forall l, Forall P l -> P (PyTuple l))
  (fleaf : forall v, match v with PyDict _ | PyList _ | PyTuple _ => True | _ => P v end) : forall v, P v :=
  fix F (v : pyval) : P v :=
    let go := fix G (l : list pyval) : Forall P l :=
      match l with [] => List.Forall_nil _ | x :: l' => List.Forall_cons _ x l' (F x) (G l') end in
    match v as v return (match v with PyDict _ | PyList _ | PyTuple _ => True | _ => P v end -> P v) with
    | PyDict d => fun _ => fdict d ((fix G (l : list (pykey * pyval)) : Forall (fun kv => P (snd kv)) l :=
        match l with [] => List.Forall_nil _ | x :: l' => List.Forall_cons _ x l' (F (snd x)) (G l') end) d)
    | PyList l => fun _ => flist l (go l)
    | PyTuple l => fun _ => ftuple l (go l)
    | _ => fun H => H
    end (fleaf v).

(** ** Object ids *)

Section ObjectIds.
Context {B : BsonOps} {P : PyEnv}.

(** Source: smongo-py/src/objectid.rs:89-105 (from_hex). *)
Definition from_hex (s : string) : result bytes pyerr :=
  if negb (String.length s =? 24)%nat then Err (ValueError ("Invalid ObjectId: '" ++ s ++ "'"))
  else
    match hex_decode s with
    | None => Err (ValueError ("Invalid ObjectId: '" ++ s ++ "'"))
    | Some decoded =>
        if (length decoded =? 12)%nat then Ok decoded
        else Err (PyPanic "hex decoded 24-char string is always 12 bytes")
    end.

(** Source: smongo-py/src/objectid.rs:113-164 (new). Of an argument; without one the id is generated. *)
Definition objectid_new (v : pyval) : result bytes pyerr :=
  match v with
  | PyObjectId raw => Ok raw
  | PyStr s => from_hex s
  | PyBytes data => if (length data =? 12)%nat then Ok data else Err (ValueError "Invalid ObjectId")
  | PyBinary data _ => if (length data =? 12)%nat then Ok data else Err (ValueError "Invalid ObjectId")
  | _ => Err (ValueError "Invalid ObjectId")
  end.

(** Source: smongo-py/src/objectid.rs:241-251 (is_valid). *)
Definition is_valid (v : pyval) : bool :=
  match v with
  | PyObjectId _ => true
  | PyStr s => (String.length s =? 24)%nat && is_some (hex_decode s)
  | _ => false
  end.
End ObjectIds.

(** ** Python to BSON *)

Section Convert.
Context {B : BsonOps} {P : PyEnv}.

(** [u8::is_ascii_hexdigit]. *)
Definition is_ascii_hexdigit (c : ascii) : bool :=
  let n := N_of_ascii c in
  ((48 <=? n) && (n <=? 57) || (97 <=? n) && (n <=? 102) || (65 <=? n) && (n <=? 70))%N.

(** Source: smongo-py/src/wire_codec.rs:131-133 (is_objectid_hex). *)
Definition is_objectid_hex (s : string) : bool :=
  (String.length s =? 24)%nat && forallb is_ascii_hexdigit (list_ascii_of_string s).

(** [k.extract::<String>()]. *)
Definition key_str (k : pykey) : result string pyerr :=
  match k with KStr s => Ok s | KOther => Err (TypeError "'key' object cannot be cast as 'str'") end.

(** [val.extract::<i64>()] of a number. *)
Definition extract_i64 (n : Z) : result Z pyerr := if in_range i64_min i64_max n then Ok n else Err OverflowError.
Definition extract_u32 (n : Z) : result Z pyerr := if in_range 0 (2 ^ 32 - 1) n then Ok n else Err OverflowError.

(** The options of a compiled pattern, from its flags. *)
Definition pattern_options (flags : Z) : string :=
  let opt (bit : Z) (c : string) : string := if negb (Z.land flags bit =? 0)%Z then c else "" in
  (opt 2%Z "i" ++ opt 8%Z "m" ++ opt 16%Z "s" ++ opt 64%Z "x")%string.

(** Source: smongo-py/src/bson_helpers.rs:234-247 (pydict_to_doc). The value stored under a key, from
    what [py_to_bson] makes of it: the [_id] that reads as an object id is one. *)
Definition entry_value (key : string) (v : pyval) (converted : result bson pyerr) : result bson pyerr :=
  if key =s? "_id" then
    match v with
    | PyStr s =>
        if is_objectid_hex s then Ok (match oid_parse_str s with Some o => BObjectId o | None => BString s end)
        else converted
    | _ => converted
    end
  else converted.

(** Source: smongo-py/src/bson_helpers.rs:230-252 (pydict_to_doc). For a conversion of the values. *)
Definition pydict_to_doc_with (conv : pyval -> result bson pyerr) (d : list (pykey * pyval)) : result document pyerr :=
  fold_result (fun doc kv =>
    let? key := key_str (fst kv) in
    let? b := entry_value key (snd kv) (conv (snd kv)) in
    Ok (doc_insert doc key b)) [] d.

(** Source: smongo-py/src/bson_helpers.rs:36-223 (py_to_bson). *)
Fixpoint py_to_bson (v : pyval) : result bson pyerr :=
  match v with
  | PyNone => Ok BNull
  | PyBool b => Ok (BBoolean b)
  | PyInt64 n => let? n := extract_i64 n in Ok (BInt64 n)
  | PyInt n => let? n := extract_i64 n in Ok (if in_range i32_min i32_max n then BInt32 n else BInt64 n)
  | PyFloat f => Ok (BDouble f)
  | PyStr s => Ok (if s =s? "$MinKey" then BMinKey else if s =s? "$MaxKey" then BMaxKey else BString s)
  | PyObjectId raw => Ok (BObjectId raw)
  | PyDecimal128 bid text => Ok (if (length bid =? 16)%nat then BDecimal128 bid else BString text)
  | PyRegex pattern flags =>
      Ok (BRegularExpression pattern (match flags with FlagsStr s => s | FlagsInt _ => "" end))
  | PyUuid data => Ok (BBinary x04 data)
  | PyBinary data subtype => Ok (BBinary subtype data)
  | PyBytes data => Ok (BBinary x00 data)
  | PyPattern pattern flags => let? f := extract_u32 flags in Ok (BRegularExpression pattern (pattern_options f))
  | PyDict d => let? doc := pydict_to_doc_with py_to_bson d in Ok (BDocument doc)
  | PyList l => let? arr := map_result py_to_bson l in Ok (BArray arr)
  | PyTuple l => let? arr := map_result py_to_bson l in Ok (BArray arr)
  | PyTimestamp time inc =>
      let? t := extract_u32 time in let? i := extract_u32 inc in Ok (BTimestamp t i)
  | PyDatetime ts => Ok (BDateTime (f64_as_i64 (f64_mul ts (f64_of_Z 1000))))
  | PyBsonObjectId text =>
      Ok (if (String.length text =? 24)%nat then match oid_parse_str text with Some o => BObjectId o | None => BString text end
          else BString text)
  | PyOther _ text => Ok (BString text)
  end.

(** Source: smongo-py/src/bson_helpers.rs:230-252 (pydict_to_doc). *)
Definition pydict_to_doc (d : list (pykey * pyval)) : result document pyerr := pydict_to_doc_with py_to_bson d.

(** Source: smongo-py/src/bson_helpers.rs:259-281 (pyany_to_doc). Of a [dict]; an object with [.items()] is given as the list
    of its pairs, and its [_id] stays as it is. *)
Definition pyany_to_doc (obj : pyval) (items : option (list (pykey * pyval))) : result document pyerr :=
  match obj with
  | PyDict d => pydict_to_doc d
  | _ =>
      match items with
      | None => Err (TypeError "Expected a dict-like object with .items()")
      | Some pairs =>
          fold_result (fun doc kv =>
            let? key := key_str (fst kv) in
            let? b := py_to_bson (snd kv) in
            Ok (doc_insert doc key b)) [] pairs
      end
  end.

(** Source: smongo-py/src/bson_helpers.rs:285-309 (pylist_to_pipeline). *)
Definition pylist_to_pipeline (list : list (pyval * option (list (pykey * pyval)))) : result (Datatypes.list document) pyerr :=
  map_result (fun item =>
    let? doc := pyany_to_doc (fst item) (snd item) in
    match doc with
    | [] => Err (ValueError "Pipeline stage is an empty document")
    | (first_key, _) :: _ =>
        if String.prefix "$" first_key then Ok doc
        else Err (ValueError "Pipeline stage has invalid operator key")
    end) list.

(** ** BSON to Python *)

(** [dict.set_item]: a key keeps its place, a new one goes last. *)
Fixpoint set_item (d : list (pykey * pyval)) (k : string) (v : pyval) : list (pykey * pyval) :=
  match d with
  | [] => [(KStr k, v)]
  | (KStr k', v') :: d => if k' =s? k then (KStr k', v) :: d else (KStr k', v') :: set_item d k v
  | (KOther, v') :: d => (KOther, v') :: set_item d k v
  end.

(** The flags of a pattern, from its options. *)
Fixpoint option_flags (options : list ascii) (flags : Z) : Z :=
  match options with
  | [] => flags
  | c :: options =>
      option_flags options
        (if Ascii.eqb c "i" then Z.lor flags 2 else if Ascii.eqb c "m" then Z.lor flags 8
         else if Ascii.eqb c "s" then Z.lor flags 16 else if Ascii.eqb c "x" then Z.lor flags 64 else flags)
  end.

(** [((millis % 1000) * 1000) as u32], the remainder with the sign of the dividend. *)
Definition datetime_micros (millis : Z) : Z := (Z.rem millis 1000 * 1000) mod 2 ^ 32.

(** Source: smongo-py/src/bson_helpers.rs:336-346 (bson_to_py). The seconds a date is rebuilt from. *)
Definition datetime_seconds (millis : Z) : f64 :=
  f64_add (f64_of_Z (Z.quot millis 1000)) (f64_div (f64_of_Z (datetime_micros millis)) (f64_of_Z 1000000)).

(** Source: smongo-py/src/bson_helpers.rs:388-394 (doc_to_pydict). For a conversion of the values. *)
Definition doc_to_pydict_with (conv : bson -> result pyval pyerr) (d : document) : result (list (pykey * pyval)) pyerr :=
  fold_result (fun dict kv => let? v := conv (snd kv) in Ok (set_item dict (fst kv) v)) [] d.

(** Source: smongo-py/src/bson_helpers.rs:324-385 (bson_to_py). *)
Fixpoint bson_to_py (b : bson) : result pyval pyerr :=
  match b with
  | BNull => Ok PyNone
  | BBoolean b => Ok (PyBool b)
  | BInt32 i => Ok (PyInt i)
  | BInt64 i => Ok (PyInt i)
  | BDouble f => Ok (PyFloat f)
  | BString s => Ok (PyStr s)
  | BBinary _ data => Ok (PyBytes data)
  | BObjectId oid => let? raw := from_hex (oid_to_hex oid) in Ok (PyObjectId raw)
  | BDateTime millis => let? ts := py_fromtimestamp (datetime_seconds millis) in Ok (PyDatetime ts)
  | BDocument d => let? dict := doc_to_pydict_with bson_to_py d in Ok (PyDict dict)
  | BArray arr => let? l := map_result bson_to_py arr in Ok (PyList l)
  | BRegularExpression pattern options =>
      let? flags := re_compile pattern (option_flags (list_ascii_of_string options) 0%Z) in Ok (PyPattern pattern flags)
  | BTimestamp t i => Ok (PyDict (set_item (set_item [] "t" (PyInt t)) "i" (PyInt i)))
  | other => Ok (PyStr (bson_display other))
  end.

(** Source: smongo-py/src/bson_helpers.rs:388-394 (doc_to_pydict). *)
Definition doc_to_pydict (d : document) : result (list (pykey * pyval)) pyerr := doc_to_pydict_with bson_to_py d.

(** ** Bytes *)

(** Source: smongo-py/src/raw_bson.rs:77-80 (raw_encode_document). *)
Definition raw_encode_document (d : list (pykey * pyval)) : result bytes pyerr :=
  let? doc := pydict_to_doc d in
  match doc_to_vec doc with Ok b => Ok b | Err e => Err (ValueError ("BSON encode error: " ++ e)) end.

(** [&data[from..to]], for a [to] that may have wrapped around. *)
Definition slice_or_panic (data : bytes) (from : nat) (to : Z) : result bytes pyerr :=
  if (to <? Z.of_nat from)%Z then Err (PyPanic "slice index starts after its end")
  else if (Z.of_nat (length data) <? to)%Z then Err (PyPanic "range end index out of range")
  else Ok (slice_at data from (Z.to_nat to)).

(** Source: smongo-py/src/raw_bson.rs:24-62 (raw_decode_document). The document and the offset after it; a negative length
    is a large [usize], and the additions wrap around. *)
Definition raw_decode_document (data : bytes) (offset : nat) : result (list (pykey * pyval) * nat) pyerr :=
  if (length data <? offset + 4)%nat then Err (ValueError "BSON truncated: need 4 bytes")
  else
    let doc_len := wrap_u64 (le_i32_at data offset) in
    if (doc_len <? 5)%Z then Err (ValueError "BSON document length is too small")
    else
      let fin := wrap_u64 (Z.of_nat offset + doc_len) in
      if (Z.of_nat (length data) <? fin)%Z then Err (ValueError "BSON truncated: document")
      else
        let? slice := slice_or_panic data offset fin in
        match bson_from_slice slice with
        | Err e => Err (ValueError ("BSON decode error: " ++ e))
        | Ok doc => let? dict := doc_to_pydict doc in Ok (dict, Z.to_nat fin)
        end.

(** Source: smongo-py/src/raw_bson.rs:65-68 (raw_decode_slice). *)
Definition raw_decode_slice (data : bytes) : result (list (pykey * pyval)) pyerr :=
  let? r := raw_decode_document data 0 in Ok (fst r).

(** ** The boundary of the wire *)

(** Source: smongo-py/src/wire_codec.rs:12-12 (MAX_NESTING_DEPTH). *)
Definition MAX_NESTING_DEPTH : nat := 100.

Definition too_deep : pyerr := ValueError "document exceeds maximum nesting depth of 100".

(** The values of a [dict], each converted under its key. *)
Definition map_values (f : pykey -> pyval -> result pyval pyerr) (d : list (pykey * pyval)) : result (list (pykey * pyval)) pyerr :=
  map_result (fun kv => let? v := f (fst kv) (snd kv) in Ok (fst kv, v)) d.

(** Source: smongo-py/src/wire_codec.rs:18-94 (convert_inbound). *)
Fixpoint convert_inbound (value : pyval) (depth : nat) : result pyval pyerr :=
  if (MAX_NESTING_DEPTH <? depth)%nat then Err too_deep
  else
    match value with
    | PyBsonObjectId text => let? raw := objectid_new (PyStr text) in Ok (PyObjectId raw)
    | PyDecimal128 bid _ => let? f := decimal_to_float bid in Ok (PyFloat f)
    | PyRegex pattern flags =>
        let flags_str := match flags with FlagsStr s => s | FlagsInt n => if (n =? 0)%Z then ""%string else Z_to_string n end in
        Ok (PyDict [(KStr "$regex", PyStr pattern); (KStr "$options", PyStr flags_str)])
    | PyDict d => let? d := map_values (fun _ v => convert_inbound v (S depth)) d in Ok (PyDict d)
    | PyList l => let? l := map_result (fun v => convert_inbound v (S depth)) l in Ok (PyList l)
    | v => Ok v
    end.

(** Source: smongo-py/src/wire_codec.rs:97-125 (normalize_inbound). *)
Definition normalize_inbound (doc : pyval) : result pyval pyerr :=
  match doc with
  | PyDict d => let? d := map_values (fun _ v => convert_inbound v 1) d in Ok (PyDict d)
  | v => Ok v
  end.

(** Source: smongo-py/src/wire_codec.rs:135-190 (convert_outbound). *)
Fixpoint convert_outbound (key : option string) (value : pyval) (depth : nat) : result pyval pyerr :=
  if (MAX_NESTING_DEPTH <? depth)%nat then Err too_deep
  else
    match value with
    | PyObjectId raw => let? text := bson_objectid (hex_encode raw) in Ok (PyBsonObjectId text)
    | PyStr s =>
        if match key with Some k => k =s? "_id" | None => false end && is_objectid_hex s
        then let? text := bson_objectid s in Ok (PyBsonObjectId text)
        else Ok (PyStr s)
    | PyDict d =>
        let? d := map_values (fun k v => let? key_str := key_str k in convert_outbound (Some key_str) v (S depth)) d in
        Ok (PyDict d)
    | PyList l => let? l := map_result (fun v => convert_outbound None v (S depth)) l in Ok (PyList l)
    | v => Ok v
    end.

(** Source: smongo-py/src/wire_codec.rs:193-213 (normalize_outbound). *)
Definition normalize_outbound (doc : pyval) : result pyval pyerr :=
  match doc with
  | PyDict d =>
      let? d := map_values (fun k v => let? key_str := key_str k in convert_outbound (Some key_str) v 1) d in Ok (PyDict d)
  | v => Ok v
  end.

(** Source: smongo-py/src/wire_codec.rs:216-242 (normalize_outbound_docs). *)
Definition normalize_outbound_docs (docs : list pyval) : result (list pyval) pyerr := map_result normalize_outbound docs.
End Convert.

(** ** What comes back as it was *)

(** What the codec and the [hex] crate promise beyond [BsonLaws]: [from_slice] reads what [to_vec] wrote, a document takes
    five bytes at least, and the digits of an object id decode to it. *)
Class WireLaws (B : BsonOps) (P : PyEnv) : Prop := {
  from_slice_to_vec : forall d b, doc_ok d = true -> doubles_ok (BDocument d) = true ->
    doc_to_vec d = Ok b -> bson_from_slice b = Ok d;
  to_vec_min : forall d b, doc_to_vec d = Ok b -> (5 <= length b)%nat;
  hex_decode_oid : forall o, length o = 12%nat -> hex_decode (oid_to_hex o) = Some o;
  hex_encode_oid : forall o, length o = 12%nat -> hex_encode o = oid_to_hex o;
  bson_objectid_oid : forall o, length o = 12%nat -> bson_objectid (oid_to_hex o) = Ok (oid_to_hex o);
  oid_hex_length : forall o, length o = 12%nat -> String.length (oid_to_hex o) = 24%nat }.

(** The types with one form on each side.  A string that stands for a key bound, and an [_id] that reads as an
    object id, are not what they seem. *)
Definition plain_entry (kv : pykey * pyval) : bool :=
  match kv with
  | (KStr k, PyStr s) => negb ((k =s? "_id") && is_objectid_hex s)
  | (KStr _, _) => true
  | (KOther, _) => false
  end.

Definition str_keys (d : list (pykey * pyval)) : list string :=
  map (fun kv => match fst kv with KStr k => k | KOther => EmptyString end) d.

Fixpoint plain (v : pyval) : bool :=
  match v with
  | PyNone | PyBool _ | PyBytes _ => true
  | PyInt n => in_range i64_min i64_max n
  | PyFloat f => SpecFloat.valid_binary 53 1024 f
  | PyStr s => negb (s =s? "$MinKey") && negb (s =s? "$MaxKey")
  | PyObjectId raw => (length raw =? 12)%nat
  | PyList l => forallb plain l
  | PyDict d => forallb plain_entry d && nodup_str (str_keys d) && forallb (fun kv => plain (snd kv)) d
  | _ => false
  end.

Section RoundTrip.
Context {B : BsonOps} {P : PyEnv} {L : BsonLaws B} {O : BsonOrderLaws B} {F : BsonFrameLaws B} {W : WireLaws B P}.

(** A value that is converted, well typed, and back. *)
Definition converts (v : pyval) : Prop :=
  exists b, py_to_bson v = Ok b /\ bson_ok b = true /\ doubles_ok b = true /\ bson_to_py b = Ok v.

Lemma in_range_i32 n : in_range i32_min i32_max n = true -> in_range i64_min i64_max n = true.
Proof. unfold in_range, i32_min, i32_max, i64_min, i64_max. rewrite !andb_true_iff, !Z.leb_le. lia. Qed.

Lemma converts_int n : in_range i64_min i64_max n = true -> converts (PyInt n).
Proof.
  intros H. unfold converts. cbn [py_to_bson]. unfold extract_i64. rewrite H. cbv beta iota.
  destruct (in_range i32_min i32_max n) eqn:E; eexists; split_and!; try reflexivity; done.
Qed.

Lemma converts_oid raw : length raw = 12%nat -> converts (PyObjectId raw).
Proof.
  intros H. exists (BObjectId raw). split_and!; try done; [by apply Nat.eqb_eq|]. cbn [bson_to_py]. unfold from_hex.
  rewrite oid_hex_length, hex_decode_oid by done. cbn [negb Nat.eqb]. rewrite H. reflexivity.
Qed.

Lemma converts_list l : Forall converts l -> exists arr, map_result py_to_bson l = Ok arr /\
  forallb bson_ok arr = true /\ forallb doubles_ok arr = true /\ map_result bson_to_py arr = Ok l.
Proof.
  induction 1 as [|v l (b & H1 & H2 & H3 & H4) _ (arr & I1 & I2 & I3 & I4)]; [by exists []|].
  exists (b :: arr). cbn. rewrite H1, I1, H2, I2, H3, I3, H4, I4. done.
Qed.

Lemma set_item_fresh d k v : ~ In k (str_keys d) -> forallb plain_entry d = true -> set_item d k v = d ++ [(KStr k, v)].
Proof.
  induction d as [|[[k'|] v'] d IH]; intros Hn Hp; [done| |done]. cbn in Hn, Hp. apply andb_true_iff in Hp as [_ Hp]. cbn.
  destruct (String.eqb_spec k' k) as [->|_]; [exfalso; by apply Hn; left|]. rewrite IH; [done| |done]. intros H. apply Hn. by right.
Qed.

(** The entries of a [dict] and those of the document made of it. *)
Definition matches (doc : document) (d : list (pykey * pyval)) : Prop :=
  doc_keys doc = str_keys d /\ forallb plain_entry d = true /\
  forallb (fun kv => bson_ok (snd kv)) doc = true /\ forallb (fun kv => doubles_ok (snd kv)) doc = true /\
  doc_to_pydict_with bson_to_py doc = Ok d.

Lemma entry_plain k v r : plain_entry (KStr k, v) = true -> entry_value k v r = r.
Proof.
  unfold entry_value. destruct (String.eqb_spec k "_id") as [->|]; [|done]. destruct v; try done. cbn. by destruct (is_objectid_hex s).
Qed.

Lemma matches_step doc d k v : matches doc d -> plain_entry (KStr k, v) = true -> ~ In k (str_keys d) -> converts v ->
  exists b, py_to_bson v = Ok b /\ matches (doc_insert doc k b) (d ++ [(KStr k, v)]).
Proof.
  intros (M1 & M2 & M3 & M4 & M5) Hp Hn (b & H1 & H2 & H3 & H4). exists b. split; [done|].
  rewrite insert_fresh by (by rewrite M1). unfold matches, doc_keys, str_keys in *. rewrite !map_app, !forallb_app.
  split_and!; cbn [map fst snd].
  - by rewrite M1.
  - by rewrite M2, (proj2 (forallb_forall plain_entry [(KStr k, v)])) by (intros ? [<-|[]]; done).
  - rewrite M3. cbn. by rewrite H2.
  - rewrite M4. cbn. by rewrite H3.
  - unfold doc_to_pydict_with in *. rewrite fold_result_app, M5. cbn. rewrite H4. cbv beta iota.
    by rewrite set_item_fresh.
Qed.

Lemma converts_entries d2 : forall doc d1, matches doc d1 ->
  forallb plain_entry d2 = true -> List.NoDup (str_keys d1 ++ str_keys d2) -> Forall (fun kv => converts (snd kv)) d2 ->
  exists doc', fold_result (fun doc kv => let? key := key_str (fst kv) in
      let? b := entry_value key (snd kv) (py_to_bson (snd kv)) in Ok (doc_insert doc key b)) doc d2 = Ok doc' /\
    matches doc' (d1 ++ d2).
Proof.
  induction d2 as [|[[k|] v] d2 IH]; intros doc d1 Hm Hp Hn Hc; [exists doc; by rewrite app_nil_r| |done].
  cbn [forallb] in Hp. apply andb_true_iff in Hp as [Hp1 Hp2]. apply Forall_cons_1 in Hc as [Hv Hc]. cbn [snd] in Hv.
  assert (Hfresh : ~ In k (str_keys d1)).
  { cbn in Hn. apply NoDup_remove_2 in Hn. intros H. apply Hn, in_app_iff. by left. }
  destruct (matches_step doc d1 k v Hm Hp1 Hfresh Hv) as (b & Hb & Hm').
  destruct (IH (doc_insert doc k b) (d1 ++ [(KStr k, v)]) Hm' Hp2) as (doc' & H1 & H2); [|done|].
  { unfold str_keys in *. rewrite map_app, <- app_assoc. exact Hn. }
  exists doc'. rewrite <- app_assoc in H2. split; [|done]. cbn [fold_result fst snd key_str]. rewrite entry_plain, Hb by done. exact H1.
Qed.

Lemma converts_dict d : forallb plain_entry d = true -> nodup_str (str_keys d) = true ->
  Forall (fun kv => converts (snd kv)) d ->
  exists doc, pydict_to_doc d = Ok doc /\ matches doc d.
Proof.
  intros Hp Hn Hc. destruct (converts_entries d [] []) as (doc & H1 & H2); try done; [by apply nodup_str_spec|].
  by exists doc.
Qed.

Lemma matches_ok doc d : matches doc d -> nodup_str (str_keys d) = true ->
  bson_ok (BDocument doc) = true /\ doubles_ok (BDocument doc) = true /\ doc_to_pydict doc = Ok d.
Proof.
  intros (M1 & M2 & M3 & M4 & M5) Hn. unfold doc_keys in M1. cbn [bson_ok doubles_ok]. by rewrite M1, Hn, M3, M4.
Qed.

Lemma plain_converts v : plain v = true -> converts v.
Proof.
  revert v. apply (pyval_ind (fun v => plain v = true -> converts v)); [intros d IH|intros l IH|intros l IH|intros v].
  - cbn [plain]. rewrite !andb_true_iff. intros [[Hp Hn] Hv]. destruct (converts_dict d Hp Hn) as (doc & H1 & H2).
    { rewrite forallb_forall in Hv. rewrite Forall_forall in IH |- *. intros kv Hk. apply (IH kv Hk), Hv. by apply list_elem_of_In. }
    destruct (matches_ok _ _ H2 Hn) as (O1 & O2 & O3). exists (BDocument doc). split_and!; try done.
    + cbn [py_to_bson]. unfold pydict_to_doc in H1. by rewrite H1.
    + cbn [bson_to_py]. unfold doc_to_pydict in O3. by rewrite O3.
  - cbn [plain]. intros H. rewrite forallb_forall in H. destruct (converts_list l) as (arr & H1 & H2 & H3 & H4).
    { rewrite Forall_forall in IH |- *. intros x Hx. apply (IH x Hx), H. by apply list_elem_of_In. }
    exists (BArray arr). cbn. by rewrite H1, H4.
  - done.
  - destruct v; try done; cbn [plain]; intros H.
    + by exists BNull.
    + by exists (BBoolean b).
    + by apply converts_int.
    + by exists (BDouble f).
    + apply andb_true_iff in H as [H1%negb_true_iff H2%negb_true_iff]. exists (BString s). cbn. by rewrite H1, H2.
    + by apply converts_oid, Nat.eqb_eq.
    + by exists (BBinary x00 data).
Qed.

Lemma slice_or_panic_here l pre rest :
  slice_or_panic (pre ++ l ++ rest) (length pre) (Z.of_nat (length pre + length l)) = Ok l.
Proof.
  unfold slice_or_panic. rewrite !length_app.
  destruct (Z.ltb_spec (Z.of_nat (length pre + length l)) (Z.of_nat (length pre))); [lia|].
  destruct (Z.ltb_spec (Z.of_nat (length pre + (length l + length rest))) (Z.of_nat (length pre + length l))); [lia|].
  rewrite Nat2Z.id. by rewrite slice_here.
Qed.

(** The length prefix of what the codec writes. *)
Lemma to_vec_prefix doc b : doc_to_vec doc = Ok b ->
  exists body, b = le_bytes 4 (Z.of_nat (length b)) ++ body /\ (5 <= length b)%nat /\ (Z.of_nat (length b) <= i32_max)%Z.
Proof.
  intros Hb. destruct (to_vec_frame _ _ Hb) as (_ & Hmax & Ht). exists (drop 4 b). unfold le_bytes. rewrite <- Ht.
  split; [by rewrite take_drop|]. split; [by apply (to_vec_min doc)|done].
Qed.

Lemma decode_document_here doc b d pre rest :
  doc_to_vec doc = Ok b -> doc_ok doc = true -> doubles_ok (BDocument doc) = true -> doc_to_pydict doc = Ok d ->
  (Z.of_nat (length (pre ++ b ++ rest)) < 2 ^ 63)%Z ->
  raw_decode_document (pre ++ b ++ rest) (length pre) = Ok (d, length pre + length b).
Proof.
  intros Hb Hok Hdb Hd Hlen. destruct (to_vec_prefix _ _ Hb) as (body & Eb & Hmin & Hmax). unfold raw_decode_document.
  destruct (Nat.ltb_spec (length (pre ++ b ++ rest)) (length pre + 4)) as [Hs|_]; [rewrite !length_app in Hs; lia|].
  assert (Hle : le_i32_at (pre ++ b ++ rest) (length pre) = Z.of_nat (length b)).
  { rewrite Eb at 1. rewrite <- app_assoc. apply le_i32_read; [|done]. unfold i32_min, i32_max in *. lia. }
  rewrite !length_app in Hlen. unfold i32_max in Hmax. rewrite Hle. unfold wrap_u64. rewrite (Z.mod_small (Z.of_nat (length b))) by lia.
  destruct (Z.ltb_spec (Z.of_nat (length b)) 5); [lia|]. rewrite <- Nat2Z.inj_add, Z.mod_small by lia.
  destruct (Z.ltb_spec (Z.of_nat (length (pre ++ b ++ rest))) (Z.of_nat (length pre + length b))) as [Hs|_]; [rewrite !length_app in Hs; lia|].
  rewrite slice_or_panic_here. rewrite (from_slice_to_vec _ _ Hok Hdb Hb), Hd. by rewrite Nat2Z.id.
Qed.

Lemma plain_values (d : list (pykey * pyval)) : forallb (fun kv => plain (snd kv)) d = true -> Forall (fun kv => converts (snd kv)) d.
Proof. intros Hv. rewrite forallb_forall in Hv. apply List.Forall_forall. intros kv Hk. by apply plain_converts, Hv. Qed.

(** A plain document, its conversion, and its bytes in place. *)
Lemma plain_read d : plain (PyDict d) = true -> exists doc, pydict_to_doc d = Ok doc /\
  forall b, doc_to_vec doc = Ok b -> (5 <= length b)%nat /\ (Z.of_nat (length b) <= i32_max)%Z /\
    forall pre rest, (Z.of_nat (length (pre ++ b ++ rest)) < 2 ^ 63)%Z ->
      raw_decode_document (pre ++ b ++ rest) (length pre) = Ok (d, length pre + length b).
Proof.
  intros Hd. pose proof Hd as Hp. cbn [plain] in Hp. rewrite !andb_true_iff in Hp. destruct Hp as [[Hp Hn] Hv].
  destruct (converts_dict d Hp Hn) as (doc & H1 & H2); [by apply plain_values|].
  destruct (matches_ok _ _ H2 Hn) as (O1 & O2 & O3). exists doc. split; [done|]. intros b Hb.
  destruct (to_vec_prefix _ _ Hb) as (_ & _ & Hmin & Hmax). split_and!; [done|done|]. intros pre rest Hlen.
  by apply (decode_document_here doc).
Qed.

(** C28: a document of plain values is converted without an error, and the bytes the codec writes for it are
    read back, wherever they stand in a message, as the document that was written,
    the reader being left right after them. *)
Theorem plain_roundtrip d : plain (PyDict d) = true ->
  exists doc, pydict_to_doc d = Ok doc /\
    forall b, doc_to_vec doc = Ok b ->
      raw_encode_document d = Ok b /\ raw_decode_slice b = Ok d /\
      forall pre rest, (Z.of_nat (length (pre ++ b ++ rest)) < 2 ^ 63)%Z ->
        raw_decode_document (pre ++ b ++ rest) (length pre) = Ok (d, length pre + length b).
Proof.
  intros Hd. destruct (plain_read d Hd) as (doc & H1 & H2). exists doc. split; [done|]. intros b Hb.
  destruct (H2 b Hb) as (_ & Hmax & Hread). split; [unfold raw_encode_document; by rewrite H1, Hb|]. split; [|exact Hread].
  unfold raw_decode_slice. specialize (Hread [] []). cbn [app length] in Hread. rewrite app_nil_r in Hread.
  rewrite Hread; [done|]. unfold i32_max in Hmax. lia.
Qed.

(** *** The boundary *)

(** How deep values are nested in a value. *)
Fixpoint height (v : pyval) : nat :=
  match v with
  | PyDict d => fold_right (fun kv n => Nat.max (S (height (snd kv))) n) 0 d
  | PyList l => fold_right (fun x n => Nat.max (S (height x)) n) 0 l
  | _ => 0
  end.

Lemma max_le {X} (f : X -> nat) l n : fold_right (fun x m => Nat.max (f x) m) 0 l <= n <-> Forall (fun x => f x <= n) l.
Proof.
  induction l as [|x l IH]; cbn; [split; [constructor|lia]|]. split.
  - intros H. constructor; [lia|]. apply IH. lia.
  - intros [H1 H2]%Forall_cons_1. apply IH in H2. lia.
Qed.

Lemma max_gt {X} (f : X -> nat) l n : n < fold_right (fun x m => Nat.max (f x) m) 0 l -> Exists (fun x => n < f x) l.
Proof.
  induction l as [|x l IH]; cbn; [lia|]. intros H. destruct (le_lt_dec (f x) n); [apply Exists_cons_tl, IH; lia|by apply Exists_cons_hd].
Qed.

Lemma map_result_back {X Y E} (f : X -> result Y E) (g : Y -> result X E) l :
  Forall (fun x => exists y, f x = Ok y /\ g y = Ok x) l -> exists ys, map_result f l = Ok ys /\ map_result g ys = Ok l.
Proof.
  induction 1 as [|x l (y & H1 & H2) _ (ys & I1 & I2)]; [by exists []|]. exists (y :: ys). cbn. by rewrite H1, I1, H2, I2.
Qed.

Lemma map_result_fails {X Y E} (f : X -> result Y E) (e : E) l :
  Forall (fun x => f x = Err e \/ exists y, f x = Ok y) l -> Exists (fun x => f x = Err e) l -> map_result f l = Err e.
Proof.
  induction 1 as [|x l [H|(y & H)] _ IH]; intros Hex; [inversion Hex|cbn; by rewrite H|].
  apply Exists_cons in Hex as [Hx|Hex]; [congruence|]. cbn. by rewrite H, (IH Hex).
Qed.

(** A value out and back, or refused for its depth, at a depth and under a key. *)
Definition crosses (key : option string) (v : pyval) (depth : nat) : Prop :=
  (depth + height v <= MAX_NESTING_DEPTH /\ exists w, convert_outbound key v depth = Ok w /\ convert_inbound w depth = Ok v) \/
  (MAX_NESTING_DEPTH < depth + height v /\ convert_outbound key v depth = Err too_deep).

Lemma crosses_list {X} (h : X -> nat) (out : X -> result X pyerr) (inn : X -> result X pyerr) l depth :
  Forall (fun x => (depth + S (h x) <= MAX_NESTING_DEPTH /\ exists y, out x = Ok y /\ inn y = Ok x) \/
                   (MAX_NESTING_DEPTH < depth + S (h x) /\ out x = Err too_deep)) l -> depth <= MAX_NESTING_DEPTH ->
  let n := depth + fold_right (fun x n => Nat.max (S (h x)) n) 0 l in
  (n <= MAX_NESTING_DEPTH /\ exists ys, map_result out l = Ok ys /\ map_result inn ys = Ok l) \/
  (MAX_NESTING_DEPTH < n /\ map_result out l = Err too_deep).
Proof.
  intros H Hd n. destruct (le_lt_dec n MAX_NESTING_DEPTH) as [Hle|Hlt].
  - left. split; [done|]. apply map_result_back. assert (Hm : Forall (fun x => S (h x) <= MAX_NESTING_DEPTH - depth) l) by (apply max_le; lia).
    rewrite Forall_forall in H, Hm |- *. intros x Hx. specialize (H x Hx). specialize (Hm x Hx). cbv beta in Hm.
    destruct H as [[_ H]|[H _]]; [done|lia].
  - right. split; [done|]. apply map_result_fails.
    + eapply Forall_impl; [exact H|]. intros x [[_ (y & Hy & _)]|[_ Hx]]; [right; by exists y|by left].
    + assert (Hm : Exists (fun x => MAX_NESTING_DEPTH - depth < S (h x)) l) by (apply max_gt; lia).
      rewrite Exists_exists in Hm |- *. destruct Hm as (x & Hx & Hgt). exists x. split; [done|]. rewrite Forall_forall in H.
      destruct (H x Hx) as [[Hle _]|[_ He]]; [lia|done].
Qed.

Lemma crosses_leaf key v depth : height v = 0 -> convert_inbound v depth = (if (MAX_NESTING_DEPTH <? depth) then Err too_deep else Ok v) ->
  convert_outbound key v depth = (if (MAX_NESTING_DEPTH <? depth) then Err too_deep else Ok v) -> crosses key v depth.
Proof.
  intros Hh Hi Ho. unfold crosses. rewrite Hh, Ho. destruct (Nat.ltb_spec MAX_NESTING_DEPTH depth); [right; split; [lia|done]|].
  left. split; [lia|]. by exists v.
Qed.

Lemma crosses_oid key raw depth : length raw = 12 -> crosses key (PyObjectId raw) depth.
Proof.
  intros Hl. unfold crosses. cbn [height]. rewrite Nat.add_0_r. destruct (le_lt_dec depth MAX_NESTING_DEPTH) as [Hd|Hd].
  - left. split; [done|]. cbn [convert_outbound]. destruct (Nat.ltb_spec MAX_NESTING_DEPTH depth); [lia|].
    rewrite hex_encode_oid, bson_objectid_oid by done. eexists. split; [reflexivity|]. cbn [convert_inbound].
    destruct (Nat.ltb_spec MAX_NESTING_DEPTH depth); [lia|]. cbn [objectid_new]. unfold from_hex.
    rewrite oid_hex_length, hex_decode_oid by done. cbn [negb Nat.eqb]. by rewrite Hl.
  - right. split; [done|]. cbn [convert_outbound]. by rewrite (proj2 (Nat.ltb_lt _ _) Hd).
Qed.

(** The entries of a plain [dict], below their own depth. *)
Lemma crosses_entries d depth : depth <= MAX_NESTING_DEPTH -> forallb plain_entry d = true ->
  Forall (fun kv => forall key, key = None \/ plain_entry (KStr (default EmptyString key), snd kv) = true -> crosses key (snd kv) (S depth)) d ->
  let n := depth + height (PyDict d) in
  (n <= MAX_NESTING_DEPTH /\ exists d', map_values (fun k v => let? key_str := key_str k in convert_outbound (Some key_str) v (S depth)) d = Ok d' /\
     map_values (fun _ v => convert_inbound v (S depth)) d' = Ok d) \/
  (MAX_NESTING_DEPTH < n /\ map_values (fun k v => let? key_str := key_str k in convert_outbound (Some key_str) v (S depth)) d = Err too_deep).
Proof.
  intros Hd Hp H. apply (crosses_list (fun kv => height (snd kv))); [|done]. rewrite forallb_forall in Hp. rewrite Forall_forall in H |- *.
  intros [[k|] v] Hx; [|specialize (Hp _ (proj1 (list_elem_of_In _ _) Hx)); done].
  destruct (H _ Hx (Some k) (or_intror (Hp _ (proj1 (list_elem_of_In _ _) Hx)))) as [(H1 & w & H2 & H3)|(H1 & H2)]; cbn [fst snd key_str] in *.
  - left. split; [lia|]. exists (KStr k, w). cbn [fst snd]. by rewrite H2, H3.
  - right. split; [lia|]. by rewrite H2.
Qed.

Lemma plain_crosses v : plain v = true -> forall key depth, key = None \/ plain_entry (KStr (default EmptyString key), v) = true ->
  crosses key v depth.
Proof.
  revert v. apply (pyval_ind (fun v => plain v = true -> forall key depth, _ -> crosses key v depth)); [intros d IH|intros l IH|intros l IH|intros v].
  - cbn [plain]. rewrite !andb_true_iff. intros [[Hp Hn] Hv] key depth _. unfold crosses. cbn [convert_outbound].
    destruct (Nat.ltb_spec MAX_NESTING_DEPTH depth) as [Hd|Hd]; [right; split; [lia|done]|].
    destruct (crosses_entries d depth Hd Hp) as [(H1 & d' & H2 & H3)|(H1 & H2)].
    { rewrite forallb_forall in Hv. rewrite Forall_forall in IH |- *. intros kv Hk key' Hkey. apply (IH kv Hk); [|done].
      apply Hv. by apply list_elem_of_In. }
    + left. split; [done|]. rewrite H2. eexists. split; [reflexivity|]. cbn [convert_inbound].
      destruct (Nat.ltb_spec MAX_NESTING_DEPTH depth); [lia|]. by rewrite H3.
    + right. split; [done|]. by rewrite H2.
  - cbn [plain]. intros Hv key depth _. unfold crosses. cbn [convert_outbound].
    destruct (Nat.ltb_spec MAX_NESTING_DEPTH depth) as [Hd|Hd]; [right; split; [lia|done]|].
    destruct (crosses_list height (fun v => convert_outbound None v (S depth)) (fun v => convert_inbound v (S depth)) l depth) as [(H1 & l' & H2 & H3)|(H1 & H2)]; [|done| |].
    { rewrite forallb_forall in Hv. rewrite Forall_forall in IH |- *. intros x Hx.
      destruct (IH x Hx (Hv x (proj1 (list_elem_of_In _ _) Hx)) None (S depth) (or_introl eq_refl)) as [[H1 H2]|[H1 H2]]; [left|right]; (split; [lia|done]). }
    + left. split; [done|]. rewrite H2. eexists. split; [reflexivity|]. cbn [convert_inbound].
      destruct (Nat.ltb_spec MAX_NESTING_DEPTH depth); [lia|]. by rewrite H3.
    + right. split; [done|]. by rewrite H2.
  - done.
  - destruct v; try done; cbn [plain]; intros Hp key depth Hk; try (by apply crosses_leaf).
    + apply crosses_leaf; [done|done|]. cbn [convert_outbound]. destruct (Nat.ltb _ _); [done|].
      destruct key as [k|]; [|done]. destruct Hk as [|Hk]; [done|]. cbn in Hk. by rewrite (proj1 (negb_true_iff _) Hk).
    + by apply crosses_oid, Nat.eqb_eq.
Qed.

(** C29: a document of plain values leaves for the wire and comes back as it was when its values are nested no deeper
    than [MAX_NESTING_DEPTH]; nested deeper it is refused. *)
Theorem boundary_roundtrip d : plain (PyDict d) = true ->
  if height (PyDict d) <=? MAX_NESTING_DEPTH
  then exists w, normalize_outbound (PyDict d) = Ok w /\ normalize_inbound w = Ok (PyDict d)
  else normalize_outbound (PyDict d) = Err too_deep.
Proof.
  intros Hd. cbn [plain] in Hd. rewrite !andb_true_iff in Hd. destruct Hd as [[Hp Hn] Hv].
  destruct (crosses_entries d 0) as [(H1 & d' & H2 & H3)|(H1 & H2)]; [unfold MAX_NESTING_DEPTH; lia|done| | |].
  - rewrite forallb_forall in Hv. apply List.Forall_forall. intros kv Hk key Hkey. by apply plain_crosses; [apply Hv|].
  - rewrite (proj2 (Nat.leb_le _ _)) by exact H1. exists (PyDict d'). unfold normalize_outbound, normalize_inbound. by rewrite H2, H3.
  - rewrite (proj2 (Nat.leb_gt _ _)) by exact H1. unfold normalize_outbound. by rewrite H2.
Qed.
End RoundTrip.

(** ** An instance of the parameters *)

Module RefPy.
Import RefFrame.

#[export] Instance env : PyEnv := {|
  py_fromtimestamp ts := Ok ts;
  re_compile _ flags := Ok (Z.lor flags 32);
  decimal_to_float _ := Ok f64_zero;
  hex_decode := RefBson.of_hex;
  hex_encode := RefBson.to_hex;
  bson_objectid s := Ok s;
  bson_from_slice := @doc_from_reader RefFrame.ops |}.

#[export] Instance bson_laws : BsonLaws RefFrame.ops.
Proof. destruct RefBson.laws. by split. Qed.

Lemma to_vec_length d b : @doc_to_vec RefFrame.ops d = Ok b -> 5 <= length b.
Proof.
  cbn [doc_to_vec RefFrame.ops]. unfold RefBson.to_vec. destruct (_ <=? _)%Z; [|done]. intros [= <-]. unfold prefix_len.
  rewrite length_app, length_rev, be_bytes_length. cbn [RefBson.enc length]. lia.
Qed.

#[export] Instance order_laws : BsonOrderLaws RefFrame.ops.
Proof.
  destruct RefBson.order_laws as [H1 H2 H3]. split; [exact H1| |exact H3]. intros d b Hb ->. apply to_vec_length in Hb. cbn in Hb. lia.
Qed.

Lemma to_hex_length b : String.length (RefBson.to_hex b) = 2 * length b.
Proof. induction b as [|c b IH]; [done|]. cbn. rewrite IH. lia. Qed.

#[export] Instance wire_laws : WireLaws RefFrame.ops env.
Proof.
  split; try done.
  - intros d b. apply from_to_vec.
  - apply to_vec_length.
  - intros o. destruct RefBson.order_laws as [_ _ H]. apply H.
  - intros o Ho. cbn. by rewrite to_hex_length, Ho.
Qed.
End RefPy.

Section Runs.
Import RefFrame RefPy.

Definition sample : list (pykey * pyval) :=
  [(KStr "_id", PyObjectId (repeat x41 12)); (KStr "n", PyInt 3000000000); (KStr "tags", PyList [PyStr "a"; PyNone]);
   (KStr "at", PyDict [(KStr "b", PyBool true)])].

Lemma plain_roundtrip_witness : exists b, raw_encode_document sample = Ok b /\ raw_decode_slice b = Ok sample.
Proof.
  destruct (plain_roundtrip sample) as (doc & Hdoc & H); [vm_compute; reflexivity|].
  assert (E : Ok doc = pydict_to_doc sample) by (symmetry; exact Hdoc). vm_compute in E. injection E as ->.
  eexists. destruct (H _ eq_refl) as (H1 & H2 & _). split; [exact H1|exact H2].
Defined.

Lemma boundary_roundtrip_witness :
  exists w, normalize_outbound (PyDict sample) = Ok w /\ normalize_inbound w = Ok (PyDict sample).
Proof. exact (boundary_roundtrip sample eq_refl). Defined.

(** The milliseconds of a date before 1970 wrap around: one millisecond before the epoch comes back as more than an hour after it. *)
Theorem early_date_shifts :
  exists ts, bson_to_py (BDateTime (-1)) = Ok (PyDatetime ts) /\ f64_ltb (f64_of_Z 4294) ts = true.
Proof. eexists. split; [reflexivity|]. vm_compute. reflexivity. Qed.

(** A date that is read and written back may lose a millisecond: the seconds are scaled and truncated, not rounded. *)
Theorem date_loses_millisecond :
  (let? v := bson_to_py (BDateTime 1001) in py_to_bson v) = Ok (BDateTime 1000).
Proof. vm_compute. reflexivity. Qed.

(** What does not come back: the width of a small [Int64], the subtype of a binary, a timestamp, a decimal; a string
    that names a key bound becomes one; the flags of a [bson.Regex], a number in the driver, are dropped. *)
Theorem types_that_change :
  (let? b := py_to_bson (PyInt64 1) in let? v := bson_to_py b in py_to_bson v) = Ok (BInt32 1) /\
  (let? b := py_to_bson (PyUuid (repeat x00 16)) in bson_to_py b) = Ok (PyBytes (repeat x00 16)) /\
  (let? b := py_to_bson (PyTimestamp 5 1) in bson_to_py b) = Ok (PyDict [(KStr "t", PyInt 5); (KStr "i", PyInt 1)]) /\
  (exists s, (let? b := py_to_bson (PyDecimal128 (repeat x00 16) "0") in bson_to_py b) = Ok (PyStr s)) /\
  py_to_bson (PyStr "$MinKey") = Ok BMinKey /\
  py_to_bson (PyRegex "^a" (FlagsInt 2)) = Ok (BRegularExpression "^a" "") /\
  convert_inbound (PyRegex "^a" (FlagsInt 2)) 1 = Ok (PyDict [(KStr "$regex", PyStr "^a"); (KStr "$options", PyStr "2")]).
Proof. split_and!; try (vm_compute; reflexivity). eexists. reflexivity. Qed.

(** A negative length no larger than the offset is not an error but a panic. *)
Theorem negative_length_panics :
  raw_decode_document (repeat x00 8 ++ le_bytes 4 (-5) ++ repeat x00 8) 8 = Err (PyPanic "slice index starts after its end").
Proof. vm_compute. reflexivity. Qed.
End Runs.
