(* ===== verification/Wire.v ===== *)
(** * Messages

    [src/rust/smongo-py/src/wire_msg.rs]: the frames of the wire protocol,
    [OP_MSG] with its sections and its checksum, [OP_COMPRESSED], and the old
    [OP_QUERY] and [OP_REPLY].  The CRC-32C and the compressors are crates, a
    parameter with the laws they document ([WireEnv]).  A [usize] is a number
    modulo 2^64, the additions wrap around, and an index out of a slice is a
    panic; the text of an exception keeps its fixed part.

    Every message of the format is decoded to what it frames, what the server
    encodes among them; a message with a checksum is taken only with the right
    one; and what is compressed comes back as it was. *)

From Stdlib Require Import ZArith Lia Ascii String Strings.Byte List.
From S2P Require Import Prelude F64 Bson RefBson Paths IndexKey LeBytes Storage Spill PyBson.
From stdpp Require Import base tactics list strings.

Open Scope list_scope.

(** The [crc32c], [snap], [flate2] and [zstd] crates. *)
Class WireEnv : Type := {
  crc32c : bytes -> Z;
  snappy_compress : bytes -> result bytes string; snappy_decompress : bytes -> result bytes string;
  zlib_compress : bytes -> result bytes string; zlib_decompress : bytes -> result bytes string;
  zstd_compress : bytes -> result bytes string; zstd_decompress : bytes -> result bytes string }.

(** Source: smongo-py/src/wire_msg.rs:22-33 (OP_REPLY). The opcodes, the sizes and the compressors. *)
Definition OP_REPLY : Z := 1.
Definition OP_QUERY : Z := 2004.
Definition OP_COMPRESSED : Z := 2012.
Definition OP_MSG : Z := 2013.
Definition HEADER_SIZE : nat := 16.
Definition MAX_MSG_SIZE : Z := 48 * 1024 * 1024.
Definition COMPRESSOR_NOOP : Z := 0.
Definition COMPRESSOR_SNAPPY : Z := 1.
Definition COMPRESSOR_ZLIB : Z := 2.
Definition COMPRESSOR_ZSTD : Z := 3.

(** Source: smongo-py/src/wire_msg.rs:45-54 (MsgHeader). *)
Record MsgHeader : Type := { msg_length : Z; request_id : Z; response_to : Z; op_code : Z }.

(** A loop that would take more steps than its message has bytes. *)
Definition out_of_fuel : pyerr := PyPanic "out of fuel".

Definition dict : Type := list (pykey * pyval).

Section Messages.
Context {B : BsonOps} {P : PyEnv} {WE : WireEnv}.

(** Source: smongo-py/src/wire_msg.rs:60-62 (read_i32). *)
Definition read_i32 (data : bytes) (off : nat) : Z := le_i32_at data off.

(** Source: smongo-py/src/wire_msg.rs:64-66 (read_u32). *)
Definition read_u32 (data : bytes) (off : nat) : Z := le_u32_at data off.

(** Source: smongo-py/src/wire_msg.rs:68-78 (parse_header). *)
Definition parse_header (data : bytes) : result MsgHeader pyerr :=
  if (length data <? HEADER_SIZE)%nat then Err (ProtocolError "message too short for header")
  else Ok {| msg_length := read_i32 data 0; request_id := read_i32 data 4; response_to := read_i32 data 8;
             op_code := read_i32 data 12 |}.

(** Source: smongo-py/src/wire_msg.rs:84-99 (validate_checksum). *)
Definition validate_checksum (data : bytes) (msg_length : Z) : result unit pyerr :=
  if (msg_length <? 4)%Z || (Z.of_nat (length data) <? msg_length)%Z
  then Err (ProtocolError "invalid message length for checksum")
  else
    let n := Z.to_nat (msg_length - 4) in
    if negb (crc32c (take n data) =? read_u32 data n)%Z then Err (ChecksumMismatch "CRC-32C mismatch") else Ok tt.

(** Source: smongo-py/src/wire_msg.rs:101-103 (compute_checksum). *)
Definition compute_checksum (data : bytes) : Z := crc32c data.

(** What a decompressor gave, of the size the message declares. *)
Definition of_size (expected : Z) (r : result bytes string) : result bytes pyerr :=
  match r with
  | Err e => Err (ProtocolError ("decompression error: " ++ e))
  | Ok out =>
      if negb (Z.of_nat (length out) =? expected)%Z then Err (ProtocolError "decompressed size != declared") else Ok out
  end.

(** Source: smongo-py/src/wire_msg.rs:109-158 (decompress). *)
Definition decompress (cid : Z) (data : bytes) (expected : Z) : result bytes pyerr :=
  if (MAX_MSG_SIZE <? expected)%Z then Err (ProtocolError "declared uncompressed size exceeds limit")
  else if (cid =? COMPRESSOR_NOOP)%Z then Ok data
  else if (cid =? COMPRESSOR_SNAPPY)%Z then of_size expected (snappy_decompress data)
  else if (cid =? COMPRESSOR_ZLIB)%Z then of_size expected (zlib_decompress data)
  else if (cid =? COMPRESSOR_ZSTD)%Z then of_size expected (zstd_decompress data)
  else Err (ProtocolError "unknown compressor id").

Definition compression (r : result bytes string) : result bytes pyerr :=
  match r with Ok b => Ok b | Err e => Err (ProtocolError ("compression error: " ++ e)) end.

(** Source: smongo-py/src/wire_msg.rs:160-181 (compress). *)
Definition compress (cid : Z) (data : bytes) : result bytes pyerr :=
  if (cid =? COMPRESSOR_NOOP)%Z then Ok data
  else if (cid =? COMPRESSOR_SNAPPY)%Z then compression (snappy_compress data)
  else if (cid =? COMPRESSOR_ZLIB)%Z then compression (zlib_compress data)
  else if (cid =? COMPRESSOR_ZSTD)%Z then compression (zstd_compress data)
  else Err (ProtocolError "unknown compressor id").

(** [map_err(|e| ProtocolError::new_err(..))] over the codec: a panic is none of its business. *)
Definition bson_error {A} (msg : string) (r : result A pyerr) : result A pyerr :=
  match r with
  | Ok a => Ok a
  | Err (PyPanic m) => Err (PyPanic m)
  | Err _ => Err (ProtocolError msg)
  end.

(** [position(|&b| b == 0)]. *)
Fixpoint zero_position (l : bytes) : option nat :=
  match l with
  | [] => None
  | b :: l => if Byte.eqb b x00 then Some 0 else option_map S (zero_position l)
  end.

(** Source: smongo-py/src/wire_msg.rs:243-247 (decode_msg). The documents of a sequence. *)
Fixpoint decode_docs (fuel : nat) (data : bytes) (offset : nat) (section_end : Z) : result (list dict * nat) pyerr :=
  match fuel with
  | O => Err out_of_fuel
  | S fuel =>
      if (section_end <=? Z.of_nat offset)%Z then Ok ([], offset)
      else
        let? (d, offset) := bson_error "BSON decode error" (raw_decode_document data offset) in
        let? (docs, offset) := decode_docs fuel data offset section_end in
        Ok (d :: docs, offset)
  end.

(** [doc_sequences.set_item(identifier, docs)]. *)
Fixpoint set_sequence (seqs : list (string * list dict)) (id : string) (docs : list dict) : list (string * list dict) :=
  match seqs with
  | [] => [(id, docs)]
  | (id', docs') :: seqs => if id' =s? id then (id', docs) :: seqs else (id', docs') :: set_sequence seqs id docs
  end.

(** Source: smongo-py/src/wire_msg.rs:223-249 (decode_msg). A section of kind 1, after its kind. *)
Definition decode_sequence (data : bytes) (offset : nat) : result (string * list dict * nat) pyerr :=
  if (length data <? offset + 4)%nat then Err (ProtocolError "truncated Kind 1 section header")
  else
    let section_end := wrap_u64 (Z.of_nat offset + wrap_u64 (read_i32 data offset)) in
    let offset := offset + 4 in
    let? body := slice_or_panic data offset section_end in
    match zero_position body with
    | None => Err (ProtocolError "missing null terminator in Kind 1 identifier")
    | Some n =>
        if negb (utf8_valid (take n body)) then Err (ProtocolError "invalid UTF-8")
        else
          let? (docs, offset) := decode_docs (S (length data)) data (offset + n + 1) section_end in
          Ok (string_of_list_byte (take n body), docs, offset)
    end.

(** Source: smongo-py/src/wire_msg.rs:211-256 (decode_msg). The loop over the sections. *)
Fixpoint decode_sections (fuel : nat) (data : bytes) (fin : Z) (offset : nat) (body : option dict)
  (seqs : list (string * list dict)) : result (option dict * list (string * list dict)) pyerr :=
  match fuel with
  | O => Err out_of_fuel
  | S fuel =>
      if (fin <=? Z.of_nat offset)%Z then Ok (body, seqs)
      else
        match data !! offset with
        | None => Err (ProtocolError "truncated OP_MSG sections")
        | Some kind =>
            if Byte.eqb kind x00 then
              let? (d, offset) := bson_error "BSON decode error" (raw_decode_document data (S offset)) in
              decode_sections fuel data fin offset (Some d) seqs
            else if Byte.eqb kind x01 then
              let? (sequence, offset) := decode_sequence data (S offset) in
              decode_sections fuel data fin offset body (set_sequence seqs (fst sequence) (snd sequence))
            else Err (ProtocolError "unknown OP_MSG section kind")
        end
  end.

(** Source: smongo-py/src/wire_msg.rs:194-257 (decode_msg). *)
Definition decode_msg (data : bytes) : result (MsgHeader * Z * option dict * list (string * list dict)) pyerr :=
  let? header := parse_header data in
  if (length data <? HEADER_SIZE + 4)%nat then Err (ProtocolError "message too short for OP_MSG flags")
  else
    let flags := read_u32 data HEADER_SIZE in
    let has_checksum := negb (Z.land flags 1 =? 0)%Z in
    let fin := wrap_u64 (wrap_u64 (msg_length header) - (if has_checksum then 4 else 0)) in
    let? _ := if has_checksum then validate_checksum data (wrap_u64 (msg_length header)) else Ok tt in
    let? (body, seqs) := decode_sections (S (length data)) data fin (HEADER_SIZE + 4) None [] in
    Ok (header, flags, body, seqs).

(** The four numbers every message starts with. *)
Definition header_bytes (len request_id response_to op : Z) : bytes :=
  le_bytes 4 len ++ le_bytes 4 request_id ++ le_bytes 4 response_to ++ le_bytes 4 op.

(** Source: smongo-py/src/wire_msg.rs:261-302 (encode_msg). *)
Definition encode_msg (request_id response_to : Z) (doc : dict) (include_checksum : bool) : result bytes pyerr :=
  let? body_bson := bson_error "BSON encode error" (raw_encode_document doc) in
  let flag_bits := if include_checksum then 1%Z else 0%Z in
  let payload_len := 4 + 1 + length body_bson in
  if include_checksum then
    let len := wrap_i32 (Z.of_nat (HEADER_SIZE + payload_len + 4)) in
    let msg := header_bytes len request_id response_to OP_MSG ++ le_bytes 4 flag_bits ++ [x00] ++ body_bson in
    Ok (msg ++ le_bytes 4 (compute_checksum msg))
  else
    let len := wrap_i32 (Z.of_nat (HEADER_SIZE + payload_len)) in
    Ok (header_bytes len request_id response_to OP_MSG ++ le_bytes 4 flag_bits ++ [x00] ++ body_bson).

(** Source: smongo-py/src/wire_msg.rs:305-341 (decode_query). *)
Definition decode_query (data : bytes) : result (MsgHeader * Z * string * Z * Z * dict) pyerr :=
  let? header := parse_header data in
  let offset := HEADER_SIZE in
  if (length data <? offset + 4)%nat then Err (ProtocolError "truncated OP_QUERY flags")
  else
    let flags := read_i32 data offset in
    let offset := offset + 4 in
    match zero_position (drop offset data) with
    | None => Err (ProtocolError "missing null in collection name")
    | Some n =>
        let name := take n (drop offset data) in
        if negb (utf8_valid name) then Err (ProtocolError "invalid UTF-8")
        else
          let offset := offset + n + 1 in
          if (length data <? offset + 8)%nat then Err (ProtocolError "truncated OP_QUERY skip/limit")
          else
            let? (query, _) := bson_error "BSON decode error" (raw_decode_document data (offset + 8)) in
            Ok (header, flags, string_of_list_byte name, read_i32 data offset, read_i32 data (offset + 4), query)
    end.

(** Source: smongo-py/src/wire_msg.rs:345-381 (encode_reply). *)
Definition encode_reply (request_id response_to : Z) (docs : list pyval) (cursor_id starting_from response_flags : Z)
  : result bytes pyerr :=
  let? docs_bson := fold_result (fun acc item =>
    match item with
    | PyDict d => let? raw := bson_error "BSON encode error" (raw_encode_document d) in Ok (acc ++ raw)
    | _ => Err (ProtocolError "encode_reply: each doc must be a dict")
    end) [] docs in
  let num_returned := wrap_i32 (Z.of_nat (length docs)) in
  let payload_len := 4 + 8 + 4 + 4 + length docs_bson in
  let len := wrap_i32 (Z.of_nat (HEADER_SIZE + payload_len)) in
  Ok (header_bytes len request_id response_to OP_REPLY ++ le_bytes 4 response_flags ++ le_bytes 8 cursor_id ++
      le_bytes 4 starting_from ++ le_bytes 4 num_returned ++ docs_bson).

(** Source: smongo-py/src/wire_msg.rs:386-412 (decode_compressed). *)
Definition decode_compressed (data : bytes) : result bytes pyerr :=
  let? header := parse_header data in
  let offset := HEADER_SIZE in
  if (length data <? offset + 9)%nat then Err (ProtocolError "truncated OP_COMPRESSED header")
  else
    let original_opcode := read_i32 data offset in
    let uncompressed_size := wrap_u64 (read_i32 data (offset + 4)) in
    let compressor_id := match data !! (offset + 8) with Some b => Z.of_N (Byte.to_N b) | None => 0%Z end in
    let? compressed_data := slice_or_panic data (offset + 9) (wrap_u64 (msg_length header)) in
    let? decompressed := decompress compressor_id compressed_data uncompressed_size in
    let inner_length := wrap_i32 (Z.of_nat (HEADER_SIZE + length decompressed)) in
    Ok (header_bytes inner_length (request_id header) (response_to header) original_opcode ++ decompressed).

(** Source: smongo-py/src/wire_msg.rs:415-438 (encode_compressed). *)
Definition encode_compressed (data : bytes) (compressor_id : Z) : result bytes pyerr :=
  let? header := parse_header data in
  let inner_payload := drop HEADER_SIZE data in
  let uncompressed_size := wrap_i32 (Z.of_nat (length inner_payload)) in
  let cid := (compressor_id mod 256)%Z in
  let? compressed := compress cid inner_payload in
  let payload_len := 4 + 4 + 1 + length compressed in
  let len := wrap_i32 (Z.of_nat (HEADER_SIZE + payload_len)) in
  Ok (header_bytes len (request_id header) (response_to header) OP_COMPRESSED ++ le_bytes 4 (op_code header) ++
      le_bytes 4 uncompressed_size ++ le_bytes 1 cid ++ compressed).
End Messages.

(** ** The format *)

(** What the crates document: a checksum is a [u32], and a decompressor undoes its compressor. *)
Class WireEnvLaws (WE : WireEnv) : Prop := {
  crc32c_range : forall b, (0 <= crc32c b < 2 ^ 32)%Z;
  snappy_laws : forall b c, snappy_compress b = Ok c -> snappy_decompress c = Ok b;
  zlib_laws : forall b c, zlib_compress b = Ok c -> zlib_decompress c = Ok b;
  zstd_laws : forall b c, zstd_compress b = Ok c -> zstd_decompress c = Ok b }.

(** A section of [OP_MSG]: the body, or a sequence of documents under a name. *)
Inductive section : Type := Body (d : dict) | Sequence (id : string) (docs : list dict).

Section Format.
Context {B : BsonOps} {P : PyEnv} {WE : WireEnv} {L : BsonLaws B} {O : BsonOrderLaws B} {F : BsonFrameLaws B}
  {W : WireLaws B P} {EL : WireEnvLaws WE}.

(** A document of plain values and its bytes. *)
Definition doc_as (d : dict) (b : bytes) : Prop := plain (PyDict d) = true /\ raw_encode_document d = Ok b.

(** The bytes of a sequence, after its kind. *)
Definition sequence_bytes (id : string) (bs : list bytes) : bytes :=
  le_bytes 4 (Z.of_nat (4 + length (as_bytes id) + 1 + length (concat bs))) ++ as_bytes id ++ [x00] ++ concat bs.

(** A section and its bytes. *)
Inductive section_as : section -> bytes -> Prop :=
| body_as d b : doc_as d b -> section_as (Body d) (x00 :: b)
| sequence_as id docs bs : Forall2 doc_as docs bs -> utf8_valid (as_bytes id) = true -> ~ In x00 (as_bytes id) ->
    section_as (Sequence id docs) (x01 :: sequence_bytes id bs).

(** What the sections say: the last body, and the sequences by name. *)
Definition read_section (r : option dict * list (string * list dict)) (s : section) : option dict * list (string * list dict) :=
  match s with
  | Body d => (Some d, snd r)
  | Sequence id docs => (fst r, set_sequence (snd r) id docs)
  end.

(** A message of the format. *)
Definition msg_bytes (request_id response_to flags : Z) (sections : bytes) : bytes :=
  let checksum := negb (Z.land flags 1 =? 0)%Z in
  let len := Z.of_nat (HEADER_SIZE + 4 + length sections + if checksum then 4 else 0) in
  let msg := header_bytes len request_id response_to OP_MSG ++ le_bytes 4 flags ++ sections in
  msg ++ if checksum then le_bytes 4 (crc32c msg) else [].

Lemma doc_as_read d b : doc_as d b -> 5 <= length b /\
  forall pre rest, (Z.of_nat (length (pre ++ b ++ rest)) < 2 ^ 63)%Z ->
    raw_decode_document (pre ++ b ++ rest) (length pre) = Ok (d, length pre + length b).
Proof.
  intros [Hd Hb]. destruct (plain_read d Hd) as (doc & H1 & H2). unfold raw_encode_document in Hb. rewrite H1 in Hb.
  cbv beta iota in Hb. destruct (doc_to_vec doc) as [b'|] eqn:E; [|done]. injection Hb as ->. destruct (H2 _ eq_refl) as (H3 & _ & H4). done.
Qed.

Lemma decode_docs_read docs bs : Forall2 doc_as docs bs -> forall fuel pre rest,
  length bs < fuel -> (Z.of_nat (length (pre ++ concat bs ++ rest)) < 2 ^ 63)%Z ->
  decode_docs fuel (pre ++ concat bs ++ rest) (length pre) (Z.of_nat (length pre + length (concat bs))) =
  Ok (docs, length pre + length (concat bs)).
Proof.
  induction 1 as [|d b docs bs Hd _ IH]; intros fuel pre rest Hf Hlen; (destruct fuel as [|fuel]; [lia|]); cbn [decode_docs concat length].
  { rewrite Nat.add_0_r, Z.leb_refl. done. }
  destruct (doc_as_read _ _ Hd) as [Hb Hread]. cbn [concat] in Hlen. rewrite length_app.
  destruct (Z.leb_spec (Z.of_nat (length pre + (length b + length (concat bs)))) (Z.of_nat (length pre))); [lia|].
  rewrite <- app_assoc in Hlen |- *. rewrite Hread by done. cbn [bson_error]. cbv beta iota.
  specialize (IH fuel (pre ++ b) rest). rewrite (length_app pre b), <- !app_assoc, <- Nat.add_assoc in IH.
  rewrite IH; [done| |done]. cbn [length] in Hf. lia.
Qed.

Lemma zero_position_at l rest : ~ In x00 l -> zero_position (l ++ x00 :: rest) = Some (length l).
Proof.
  induction l as [|b l IH]; intros H; [done|]. cbn [app zero_position length]. cbn in H.
  destruct (Byte.eqb b x00) eqn:E; [apply byte_dec_bl in E; exfalso; apply H; by left|]. rewrite IH; [done|]. intros Hin. apply H. by right.
Qed.

Lemma concat_lengths docs bs : Forall2 doc_as docs bs -> length bs <= length (concat bs).
Proof.
  induction 1 as [|d b docs bs Hd _ IH]; [done|]. cbn [concat length]. rewrite length_app.
  destruct (doc_as_read _ _ Hd) as [Hb _]. lia.
Qed.

Lemma decode_sequence_read id docs bs pre rest :
  Forall2 doc_as docs bs -> utf8_valid (as_bytes id) = true -> ~ In x00 (as_bytes id) ->
  let body := sequence_bytes id bs in
  (Z.of_nat (length body) <= i32_max)%Z -> (Z.of_nat (length (pre ++ body ++ rest)) < 2 ^ 63)%Z ->
  decode_sequence (pre ++ body ++ rest) (length pre) = Ok (id, docs, length pre + length body).
Proof.
  intros Hd Hu Hz body Hmax Hlen. set (n := 4 + length (as_bytes id) + 1 + length (concat bs)) in *.
  assert (Hbody : length body = n). { unfold body, sequence_bytes. rewrite !length_app, le_bytes_length. cbn [length]. lia. }
  rewrite Hbody in *. unfold decode_sequence.
  destruct (Nat.ltb_spec (length (pre ++ body ++ rest)) (length pre + 4)) as [H|_]; [rewrite !length_app in H; lia|].
  unfold read_i32. replace (le_i32_at (pre ++ body ++ rest) (length pre)) with (Z.of_nat n).
  2:{ unfold body, sequence_bytes. fold n. rewrite <- app_assoc, le_i32_read; [done| |done]. unfold i32_min, i32_max in *. lia. }
  rewrite !length_app, Hbody in Hlen. unfold wrap_u64. rewrite (Z.mod_small (Z.of_nat n)) by lia. rewrite Z.mod_small by lia.
  rewrite <- Nat2Z.inj_add. set (pre4 := pre ++ le_bytes 4 (Z.of_nat n)).
  assert (Hpre4 : length pre4 = length pre + 4) by (unfold pre4; by rewrite length_app, le_bytes_length).
  assert (Edata : pre ++ body ++ rest = pre4 ++ (as_bytes id ++ [x00] ++ concat bs) ++ rest) by (unfold pre4, body, sequence_bytes; fold n; by rewrite <- !app_assoc).
  rewrite Edata, <- Hpre4. replace (length pre + n) with (length pre4 + length (as_bytes id ++ [x00] ++ concat bs))
    by (rewrite Hpre4, !length_app; cbn [length]; lia).
  rewrite slice_or_panic_here. cbv beta iota. cbn [app]. rewrite zero_position_at by done.
  rewrite take_app_length, Hu. cbn [negb]. replace (string_of_list_byte (as_bytes id)) with id by (symmetry; apply string_of_list_byte_of_string).
  replace (length pre4 + length (as_bytes id) + 1) with (length (pre4 ++ as_bytes id ++ [x00])) by (rewrite !length_app; cbn [length]; lia).
  replace (length pre4 + length (as_bytes id ++ x00 :: concat bs)) with (length (pre4 ++ as_bytes id ++ [x00]) + length (concat bs))
    by (rewrite !length_app; cbn [length]; lia).
  replace (pre4 ++ (as_bytes id ++ x00 :: concat bs) ++ rest) with ((pre4 ++ as_bytes id ++ [x00]) ++ concat bs ++ rest)
    by (rewrite <- !app_assoc; done).
  rewrite (decode_docs_read docs bs Hd); [done| |].
  - pose proof (concat_lengths _ _ Hd). rewrite !length_app. lia.
  - rewrite !length_app. cbn [length]. lia.
Qed.

Lemma section_length s b : section_as s b -> 1 <= length b.
Proof. intros [d b' _|id docs bs _ _ _]; cbn [length]; lia. Qed.

Lemma decode_sections_read ss bs : Forall2 section_as ss bs -> forall fuel pre rest body seqs,
  length ss < fuel -> (Z.of_nat (length (concat bs)) <= i32_max)%Z -> (Z.of_nat (length (pre ++ concat bs ++ rest)) < 2 ^ 63)%Z ->
  decode_sections fuel (pre ++ concat bs ++ rest) (Z.of_nat (length pre + length (concat bs))) (length pre) body seqs =
  Ok (fold_left read_section ss (body, seqs)).
Proof.
  induction 1 as [|s b ss bs Hs _ IH]; intros fuel pre rest body seqs Hf Hmax Hlen; (destruct fuel as [|fuel]; [cbn [length] in Hf; lia|]); cbn [decode_sections concat].
  { cbn [length]. rewrite Nat.add_0_r, Z.leb_refl. done. }
  cbn [concat] in Hmax, Hlen. rewrite length_app in Hmax |- *. pose proof (section_length _ _ Hs) as Hb.
  destruct (Z.leb_spec (Z.of_nat (length pre + (length b + length (concat bs)))) (Z.of_nat (length pre))); [lia|].
  rewrite <- app_assoc in Hlen |- *. specialize (IH fuel (pre ++ b) rest). rewrite (length_app pre b), <- !app_assoc, <- Nat.add_assoc in IH.
  cbn [length] in Hf. destruct Hs as [d b Hd|id docs ds Hd Hu Hz]; cbn [length app] in *.
  - rewrite list_lookup_middle by done. change (Byte.eqb x00 x00) with true. cbv beta iota.
    destruct (doc_as_read _ _ Hd) as [_ Hread]. specialize (Hread (pre ++ [x00]) (concat bs ++ rest)).
    rewrite <- !app_assoc in Hread. cbn [app] in Hread. rewrite (length_app pre [x00]) in Hread. cbn [length] in Hread. rewrite Nat.add_1_r in Hread.
    rewrite Hread by done. cbn [bson_error]. cbv beta iota. replace (S (length pre) + length b) with (length pre + S (length b)) by lia.
    rewrite IH; [done|lia|lia|done].
  - rewrite list_lookup_middle by done. change (Byte.eqb x01 x00) with false. change (Byte.eqb x01 x01) with true. cbv beta iota.
    set (sb := sequence_bytes id ds) in *.
    pose proof (decode_sequence_read id docs ds (pre ++ [x01]) (concat bs ++ rest) Hd Hu Hz) as Hread. fold sb in Hread. cbn zeta in Hread.
    rewrite <- !app_assoc in Hread. cbn [app] in Hread. rewrite (length_app pre [x01]) in Hread. cbn [length] in Hread. rewrite Nat.add_1_r in Hread.
    rewrite Hread; [|lia|exact Hlen]. cbv beta iota. cbn [fst snd].
    replace (S (length pre) + length sb) with (length pre + S (length sb)) by lia. rewrite IH; [done|lia|lia|exact Hlen].
Qed.

Lemma header_length len rid rto op : length (header_bytes len rid rto op) = HEADER_SIZE.
Proof. unfold header_bytes. by rewrite !length_app, !le_bytes_length. Qed.

Lemma header_op len rid rto op rest : in_i32 op -> le_i32_at (header_bytes len rid rto op ++ rest) 12 = op.
Proof.
  intros H. unfold header_bytes. rewrite <- !app_assoc, (app_assoc (le_bytes 4 len)), (app_assoc (le_bytes 4 len ++ _)). apply le_i32_read; [done|].
  by rewrite !length_app, !le_bytes_length.
Qed.

(** A compressed message says that it is one. *)
Lemma compressed_op msg cid packed : encode_compressed msg cid = Ok packed -> le_i32_at packed 12 = OP_COMPRESSED.
Proof.
  unfold encode_compressed. destruct (parse_header msg) as [h|]; [|done]. cbv beta iota zeta. destruct (compress _ _) as [z|]; [|done]. cbv beta iota.
  intros H. apply (f_equal (fun r => match r with Ok b => le_i32_at b 12 | Err _ => 0%Z end)) in H. cbv beta iota in H. rewrite <- H.
  by apply header_op.
Qed.

(** The header of a message is read back. *)
Lemma parse_header_read len rid rto op rest : in_i32 len -> in_i32 rid -> in_i32 rto -> in_i32 op ->
  parse_header (header_bytes len rid rto op ++ rest) =
  Ok {| msg_length := len; request_id := rid; response_to := rto; op_code := op |}.
Proof.
  intros H1 H2 H3 H4. unfold parse_header. rewrite length_app, header_length.
  destruct (Nat.ltb_spec (HEADER_SIZE + length rest) HEADER_SIZE); [lia|]. unfold header_bytes, read_i32. rewrite <- !app_assoc.
  set (data := le_bytes 4 len ++ _). f_equal. f_equal.
  - by apply (le_i32_read len [] _ 0).
  - by apply (le_i32_read rid (le_bytes 4 len)).
  - unfold data. rewrite (app_assoc (le_bytes 4 len)). apply le_i32_read; [done|]. by rewrite length_app, !le_bytes_length.
  - unfold data. rewrite (app_assoc (le_bytes 4 len)), (app_assoc (le_bytes 4 len ++ _)). apply le_i32_read; [done|].
    by rewrite !length_app, !le_bytes_length.
Qed.

(** What the sections of a message say. *)
Definition meaning (ss : list section) : option dict * list (string * list dict) := fold_left read_section ss (None, []).

Lemma checksum_read msg tail : length tail = 4 -> tail = le_bytes 4 (crc32c msg) ->
  validate_checksum (msg ++ tail) (Z.of_nat (length (msg ++ tail))) = Ok tt.
Proof.
  intros Hl ->. unfold validate_checksum. rewrite length_app, Hl.
  destruct (Z.ltb_spec (Z.of_nat (length msg + 4)) 4); [lia|]. rewrite Z.ltb_irrefl. cbn [orb].
  replace (Z.to_nat (Z.of_nat (length msg + 4) - 4)) with (length msg) by lia. rewrite take_app_length. unfold read_u32.
  pose proof (le_u32_read (crc32c msg) msg [] (length msg) (crc32c_range msg) eq_refl) as E. rewrite app_nil_r in E. rewrite E.
  by rewrite Z.eqb_refl.
Qed.

Lemma section_count ss bs : Forall2 section_as ss bs -> length ss <= length (concat bs).
Proof.
  induction 1 as [|s b ss bs Hs _ IH]; [done|]. cbn [concat length]. rewrite length_app. pose proof (section_length _ _ Hs). lia.
Qed.

Lemma decode_framed rid rto flags ss bs tail :
  let checksum := negb (Z.land flags 1 =? 0)%Z in
  let pre := header_bytes (Z.of_nat (HEADER_SIZE + 4 + length (concat bs) + length tail)) rid rto OP_MSG ++ le_bytes 4 flags in
  in_i32 rid -> in_i32 rto -> (0 <= flags < 2 ^ 32)%Z -> Forall2 section_as ss bs ->
  (Z.of_nat (HEADER_SIZE + 4 + length (concat bs) + 4) <= i32_max)%Z ->
  tail = (if checksum then le_bytes 4 (crc32c (pre ++ concat bs)) else []) ->
  decode_msg (pre ++ concat bs ++ tail) =
    Ok ({| msg_length := Z.of_nat (length (pre ++ concat bs ++ tail)); request_id := rid; response_to := rto; op_code := OP_MSG |}, flags,
        fst (meaning ss), snd (meaning ss)).
Proof.
  intros checksum pre Hrid Hrto Hflags Hss Hmax Htail. unfold HEADER_SIZE, i32_max in *.
  assert (Ht : length tail = if checksum then 4 else 0) by (rewrite Htail; destruct checksum; [apply le_bytes_length|done]).
  assert (Hpre : length pre = 20) by (unfold pre; rewrite length_app, header_length, le_bytes_length; done).
  assert (Hlen : length (pre ++ concat bs ++ tail) = 20 + length (concat bs) + length tail) by (rewrite !length_app, Hpre; lia).
  assert (Hsmall : (Z.of_nat (length (pre ++ concat bs ++ tail)) < 2 ^ 31)%Z) by (rewrite Hlen, Ht; destruct checksum; lia).
  unfold decode_msg. replace (pre ++ concat bs ++ tail) with
    (header_bytes (Z.of_nat (length (pre ++ concat bs ++ tail))) rid rto OP_MSG ++ le_bytes 4 flags ++ concat bs ++ tail) at 1
    by (rewrite Hlen; unfold pre; by rewrite <- app_assoc).
  rewrite parse_header_read by (try done; unfold in_i32, i32_min, i32_max; lia). cbv beta iota. cbn [msg_length].
  rewrite Hlen at 1. unfold HEADER_SIZE. destruct (Nat.ltb_spec (20 + length (concat bs) + length tail) (16 + 4)); [lia|].
  replace (read_u32 (pre ++ concat bs ++ tail) 16) with flags
    by (symmetry; unfold pre, read_u32; rewrite <- app_assoc; apply le_u32_read; [done|apply header_length]).
  fold checksum. unfold wrap_u64. rewrite (Z.mod_small (Z.of_nat _)) by lia.
  replace (if checksum then validate_checksum _ _ else Ok tt) with (@Ok unit pyerr tt).
  2:{ destruct checksum; [|done]. rewrite (app_assoc pre). symmetry. by apply checksum_read. }
  cbv beta iota. rewrite Z.mod_small by (rewrite Hlen, Ht; destruct checksum; lia).
  replace (Z.of_nat (length (pre ++ concat bs ++ tail)) - (if checksum then 4 else 0))%Z with (Z.of_nat (length pre + length (concat bs)))
    by (rewrite Hlen, Ht, Hpre; destruct checksum; lia).
  replace (16 + 4) with (length pre) by done. pose proof (section_count _ _ Hss).
  rewrite (decode_sections_read ss bs Hss) by (unfold i32_max; lia). unfold meaning. by destruct (fold_left _ _ _).
Qed.

(** C20: an [OP_MSG] of the format, with a length and header fields of 32 bits, whose documents
    are the codec's bytes of plain dictionaries, is decoded to its header, its flags, its last
    body and its sequences of documents by name, whatever sections it has and with or without a
    checksum; and what the server encodes from such a dictionary is such a message, with the
    response as its only section. Plain are None, booleans, byte strings, integers of 64 bits,
    floats, strings but the two markers of [MinKey] and [MaxKey], ObjectIds, and the lists and
    dictionaries of them ([PyBson.plain]): a message with a date, a UUID, a Decimal128 or
    another type is outside the claim ([types_that_change], [early_date_shifts]). *)
Theorem decode_reads_format rid rto flags ss bs :
  in_i32 rid -> in_i32 rto -> (0 <= flags < 2 ^ 32)%Z -> Forall2 section_as ss bs ->
  (Z.of_nat (HEADER_SIZE + 4 + length (concat bs) + 4) <= i32_max)%Z ->
  let msg := msg_bytes rid rto flags (concat bs) in
  decode_msg msg =
    Ok ({| msg_length := Z.of_nat (length msg); request_id := rid; response_to := rto; op_code := OP_MSG |}, flags,
        fst (meaning ss), snd (meaning ss)) /\
  forall d b (checksum : bool), ss = [Body d] -> bs = [x00 :: b] -> flags = (if checksum then 1 else 0)%Z ->
    encode_msg rid rto d checksum = Ok msg.
Proof.
  intros Hrid Hrto Hflags Hss Hmax msg. split.
  - unfold msg, msg_bytes. set (checksum := negb _). set (len := HEADER_SIZE + 4 + _ + _).
    set (tail := if checksum then le_bytes 4 (crc32c _) else []).
    assert (Ht : length tail = if checksum then 4 else 0) by (unfold tail; destruct checksum; [apply le_bytes_length|done]).
    rewrite (app_assoc (header_bytes _ _ _ _)), <- app_assoc. unfold len. rewrite <- Ht. apply decode_framed; try done.
    rewrite Ht, <- app_assoc. reflexivity.
  - intros d b cs -> -> ->. inversion_clear Hss as [|? ? ? ? Hs _]. inversion_clear Hs as [? ? [Hd Hb]|].
    unfold encode_msg, msg, msg_bytes, compute_checksum. rewrite Hb. cbn [bson_error concat] in Hmax |- *. cbv beta iota. rewrite app_nil_r in *.
    cbn [length] in *. unfold i32_max, HEADER_SIZE in *.
    destruct cs; rewrite wrap_i32_id by (unfold i32_min, i32_max; lia).
    + change (negb (Z.land 1 1 =? 0)%Z) with true. cbv beta iota.
      replace (16 + (4 + 1 + length b) + 4) with (16 + 4 + S (length b) + 4) by lia. reflexivity.
    + change (negb (Z.land 0 1 =? 0)%Z) with false. cbv beta iota.
      replace (16 + (4 + 1 + length b)) with (16 + 4 + S (length b) + 0) by lia. by rewrite app_nil_r.
Qed.

(** *** Termination *)

(** A document read moves the offset by its length at least. *)
Lemma decode_document_progress data off d off' : (Z.of_nat (length data) < 2 ^ 63)%Z ->
  raw_decode_document data off = Ok (d, off') -> off + 5 <= off' <= length data.
Proof.
  intros Hlen H. unfold raw_decode_document in H. destruct (Nat.ltb_spec (length data) (off + 4)) as [|Hoff]; [done|].
  set (n := wrap_u64 (le_i32_at data off)) in H. destruct (Z.ltb_spec n 5) as [|Hn]; [done|].
  assert (Hn2 : (n < 2 ^ 64)%Z) by (unfold n, wrap_u64; apply Z.mod_pos_bound; lia).
  set (fin := wrap_u64 (Z.of_nat off + n)) in H. destruct (Z.ltb_spec (Z.of_nat (length data)) fin) as [|Hfin]; [done|].
  unfold slice_or_panic in H. destruct (Z.ltb_spec fin (Z.of_nat off)) as [|Hge]; [done|].
  destruct (Z.ltb_spec (Z.of_nat (length data)) fin); [done|]. cbv beta iota in H. destruct (bson_from_slice _); [|done].
  destruct (doc_to_pydict _); [|done]. injection H as <- <-.
  assert (Hf : fin = (Z.of_nat off + n)%Z).
  { unfold fin, wrap_u64 in *. destruct (Z_lt_le_dec (Z.of_nat off + n) (2 ^ 64)) as [Hs|Hs]; [apply Z.mod_small; lia|].
    exfalso. assert ((Z.of_nat off + n) mod 2 ^ 64 = Z.of_nat off + n - 2 ^ 64)%Z; [|lia].
    symmetry. apply (Z.mod_unique_pos _ _ 1); lia. }
  lia.
Qed.

Lemma decode_docs_fuel data fin : (Z.of_nat (length data) < 2 ^ 63)%Z -> forall f1 f2 off,
  length data - off < f1 -> length data - off < f2 -> decode_docs f1 data off fin = decode_docs f2 data off fin.
Proof.
  intros Hlen. induction f1 as [|f1 IH]; intros [|f2] off H1 H2; try lia. cbn [decode_docs]. destruct (_ <=? _)%Z; [done|].
  destruct (raw_decode_document data off) as [[d off']|e] eqn:E; [|by destruct e]. cbn [bson_error]. cbv beta iota.
  pose proof (decode_document_progress _ _ _ _ Hlen E). rewrite (IH f2 off') by lia. done.
Qed.

Lemma decode_docs_progress data fin : (Z.of_nat (length data) < 2 ^ 63)%Z -> forall fuel off docs off',
  decode_docs fuel data off fin = Ok (docs, off') -> off <= off'.
Proof.
  intros Hlen. induction fuel as [|fuel IH]; intros off docs off' H; cbn [decode_docs] in H; [done|].
  destruct (_ <=? _)%Z; [by injection H as <- <-|]. destruct (raw_decode_document data off) as [[d off1]|e] eqn:E; [|by destruct e].
  cbn [bson_error] in H. cbv beta iota in H. destruct (decode_docs fuel data off1 fin) as [[docs' off2]|] eqn:E2; [|done].
  injection H as <- <-. pose proof (decode_document_progress _ _ _ _ Hlen E). specialize (IH _ _ _ E2). lia.
Qed.

Lemma decode_sequence_progress data off s off' : (Z.of_nat (length data) < 2 ^ 63)%Z ->
  decode_sequence data off = Ok (s, off') -> off < off'.
Proof.
  intros Hlen H. unfold decode_sequence in H. destruct (_ <? _)%nat; [done|]. destruct (slice_or_panic _ _ _) as [body|]; [|done].
  cbv beta iota in H. destruct (zero_position body) as [n|]; [|done]. destruct (negb _); [done|].
  destruct (decode_docs _ _ _ _) as [[docs off2]|] eqn:E; [|done]. injection H as <- <-.
  pose proof (decode_docs_progress _ _ Hlen _ _ _ _ E). lia.
Qed.

Lemma decode_sections_fuel data fin : (Z.of_nat (length data) < 2 ^ 63)%Z -> forall f1 f2 off body seqs,
  length data - off < f1 -> length data - off < f2 ->
  decode_sections f1 data fin off body seqs = decode_sections f2 data fin off body seqs.
Proof.
  intros Hlen. induction f1 as [|f1 IH]; intros [|f2] off body seqs H1 H2; try lia. cbn [decode_sections].
  destruct (_ <=? _)%Z; [done|]. destruct (data !! off) as [kind|] eqn:Ek; [|done]. apply lookup_lt_Some in Ek.
  destruct (Byte.eqb kind x00).
  - destruct (raw_decode_document data (S off)) as [[d off']|e] eqn:E; [|by destruct e]. cbn [bson_error]. cbv beta iota.
    pose proof (decode_document_progress _ _ _ _ Hlen E). apply IH; lia.
  - destruct (Byte.eqb kind x01); [|done]. destruct (decode_sequence data (S off)) as [[s off']|] eqn:E; [|done]. cbv beta iota.
    pose proof (decode_sequence_progress _ _ _ _ Hlen E). apply IH; lia.
Qed.

(** Decoding ends on every message, however it is made: the loops over the sections and over the
    documents of a sequence take no more steps than the message has bytes, so that with
    more steps allowed the result is the same. *)
Theorem decode_terminates data fuel fin off body seqs : (Z.of_nat (length data) < 2 ^ 63)%Z -> length data < fuel ->
  decode_sections fuel data fin off body seqs = decode_sections (S (length data)) data fin off body seqs /\
  decode_docs fuel data off fin = decode_docs (S (length data)) data off fin.
Proof. intros Hlen Hf. split; [apply decode_sections_fuel|apply decode_docs_fuel]; (done || lia). Qed.

(** C21: a message whose checksum flag is set is taken only with the checksum of its bytes: changed in any way
    that changes its CRC-32C, it is refused as a mismatch before any section is read. *)
Theorem corruption_refused len rid rto op flags sections crc :
  let msg := header_bytes len rid rto op ++ le_bytes 4 flags ++ sections in
  in_i32 rid -> in_i32 rto -> in_i32 op -> (0 <= flags < 2 ^ 32)%Z -> Z.testbit flags 0 = true ->
  len = Z.of_nat (length msg + 4) -> (len <= i32_max)%Z -> (0 <= crc < 2 ^ 32)%Z -> crc <> crc32c msg ->
  decode_msg (msg ++ le_bytes 4 crc) = Err (ChecksumMismatch "CRC-32C mismatch").
Proof.
  intros msg Hrid Hrto Hop Hflags Hbit Hlen Hmax Hcrc Hne. unfold i32_max in Hmax. unfold decode_msg.
  assert (Hm : length msg = 20 + length sections) by (unfold msg; rewrite !length_app, header_length, le_bytes_length; done).
  unfold msg at 1. rewrite <- !app_assoc. rewrite parse_header_read by (try done; unfold in_i32, i32_min, i32_max; lia). cbv beta iota. cbn [msg_length].
  destruct (Nat.ltb_spec (length (msg ++ le_bytes 4 crc)) (HEADER_SIZE + 4)) as [H|_]; [rewrite length_app in H; unfold HEADER_SIZE in H; lia|].
  replace (read_u32 (msg ++ le_bytes 4 crc) HEADER_SIZE) with flags
    by (symmetry; unfold msg, read_u32; rewrite <- !app_assoc; apply le_u32_read; [done|apply header_length]).
  replace (Z.land flags 1 =? 0)%Z with false.
  2:{ symmetry. apply Z.eqb_neq. intros E. assert (Ht : Z.testbit (Z.land flags 1) 0 = true) by (by rewrite Z.land_spec, Hbit). by rewrite E in Ht. }
  cbn [negb]. unfold validate_checksum, wrap_u64. rewrite (Z.mod_small len) by lia.
  destruct (Z.ltb_spec len 4); [lia|]. rewrite length_app, le_bytes_length. destruct (Z.ltb_spec (Z.of_nat (length msg + 4)) len); [lia|].
  cbn [orb]. replace (Z.to_nat (len - 4)) with (length msg) by lia. rewrite take_app_length. unfold read_u32.
  pose proof (le_u32_read crc msg [] (length msg) Hcrc eq_refl) as E. rewrite app_nil_r in E. rewrite E.
  destruct (Z.eqb_spec (crc32c msg) crc); [congruence|]. done.
Qed.

(** *** Compression *)

Lemma compress_back cid data c : compress cid data = Ok c -> (Z.of_nat (length data) <= MAX_MSG_SIZE)%Z ->
  decompress cid c (Z.of_nat (length data)) = Ok data.
Proof.
  intros H Hmax. unfold compress in H. unfold decompress. destruct (Z.ltb_spec MAX_MSG_SIZE (Z.of_nat (length data))); [lia|].
  assert (Hsize : of_size (Z.of_nat (length data)) (Ok data) = Ok data) by (cbn [of_size]; by rewrite Z.eqb_refl).
  unfold compression in H. destruct (cid =? COMPRESSOR_NOOP)%Z; [by injection H as <-|].
  destruct (cid =? COMPRESSOR_SNAPPY)%Z; [destruct (snappy_compress data) eqn:E; [|done]; injection H as <-; by rewrite (snappy_laws _ _ E)|].
  destruct (cid =? COMPRESSOR_ZLIB)%Z; [destruct (zlib_compress data) eqn:E; [|done]; injection H as <-; by rewrite (zlib_laws _ _ E)|].
  destruct (cid =? COMPRESSOR_ZSTD)%Z; [|done]. destruct (zstd_compress data) eqn:E; [|done]. injection H as <-. by rewrite (zstd_laws _ _ E).
Qed.

(** What is read of a compressed message. *)
Lemma decode_compressed_read len rid rto op size cid c :
  let out := header_bytes len rid rto OP_COMPRESSED ++ le_bytes 4 op ++ le_bytes 4 size ++ le_bytes 1 cid ++ c in
  in_i32 rid -> in_i32 rto -> in_i32 op -> in_i32 len -> len = Z.of_nat (length out) -> (0 <= size <= i32_max)%Z -> (0 <= cid < 256)%Z ->
  decode_compressed out =
  let? d := decompress cid c size in Ok (header_bytes (wrap_i32 (Z.of_nat (HEADER_SIZE + length d))) rid rto op ++ d).
Proof.
  intros out Hrid Hrto Hop Hin Hlen Hsize Hcid. unfold decode_compressed, out at 1. rewrite parse_header_read by done. cbv beta iota.
  cbn [msg_length request_id response_to]. assert (Ho : length out = 25 + length c) by (unfold out; rewrite !length_app, header_length, !le_bytes_length; done).
  destruct (Nat.ltb_spec (length out) (HEADER_SIZE + 9)) as [H|_]; [unfold HEADER_SIZE in H; lia|].
  replace (read_i32 out HEADER_SIZE) with op by (symmetry; apply le_i32_read; [done|apply header_length]).
  replace (read_i32 out (HEADER_SIZE + 4)) with size.
  2:{ symmetry. unfold out, read_i32. rewrite (app_assoc (header_bytes _ _ _ _)). unfold i32_max in Hsize. apply le_i32_read; [unfold i32_min, i32_max; lia|].
      by rewrite length_app, header_length, le_bytes_length. }
  replace (out !! (HEADER_SIZE + 8)) with (Some (byte_of_Z cid)).
  2:{ symmetry. unfold out. rewrite (app_assoc (header_bytes _ _ _ _)), (app_assoc (header_bytes _ _ _ _ ++ _)).
      rewrite lookup_app_r by (rewrite !length_app, header_length, !le_bytes_length; unfold HEADER_SIZE; lia).
      rewrite !length_app, header_length, !le_bytes_length. done. }
  cbv beta iota. replace (Z.of_N (Byte.to_N (byte_of_Z cid))) with cid.
  2:{ symmetry. rewrite <- (Z.mod_small cid 256) at 2 by done. apply (be_value_bytes 1 cid). }
  unfold wrap_u64, i32_max in *. rewrite (Z.mod_small size), (Z.mod_small len) by (unfold in_i32, i32_max in Hin; lia).
  rewrite Hlen, Ho. set (pre := header_bytes len rid rto OP_COMPRESSED ++ le_bytes 4 op ++ le_bytes 4 size ++ le_bytes 1 cid).
  assert (Hpre : length pre = HEADER_SIZE + 9) by (unfold pre; rewrite !length_app, header_length, !le_bytes_length; done).
  replace out with (pre ++ c ++ []) by (unfold pre, out; rewrite app_nil_r, <- !app_assoc; done).
  rewrite <- Hpre. replace (25 + length c) with (length pre + length c) by (rewrite Hpre; done). by rewrite slice_or_panic_here.
Qed.

(** A message that was compressed, with any of the compressors, comes back byte for byte. *)
Theorem compressed_roundtrip rid rto op payload cid out :
  let msg := header_bytes (Z.of_nat (HEADER_SIZE + length payload)) rid rto op ++ payload in
  in_i32 rid -> in_i32 rto -> in_i32 op -> (Z.of_nat (length payload) <= MAX_MSG_SIZE)%Z ->
  encode_compressed msg cid = Ok out -> (Z.of_nat (length out) <= i32_max)%Z -> decode_compressed out = Ok msg.
Proof.
  intros msg Hrid Hrto Hop Hmax Henc Hout. unfold MAX_MSG_SIZE in Hmax. unfold encode_compressed, msg in Henc.
  rewrite parse_header_read in Henc by (try done; unfold in_i32, i32_min, i32_max, HEADER_SIZE; lia). cbv beta iota in Henc.
  cbn [request_id response_to op_code] in Henc. rewrite drop_app_exact in Henc by apply header_length.
  destruct (compress (cid mod 256) payload) as [c|] eqn:Ec; [|done]. cbv beta iota in Henc.
  pose proof (f_equal (fun r => match r with Ok b => b | Err _ => [] end) Henc) as Hmsg. cbv beta iota in Hmsg.
  rewrite (wrap_i32_id (Z.of_nat (length payload))) in Hmsg by (unfold i32_min, i32_max; lia).
  assert (Hlen : length out = 25 + length c).
  { rewrite <- Hmsg. rewrite !length_app, header_length, !le_bytes_length. done. }
  replace (HEADER_SIZE + (4 + 4 + 1 + length c)) with (length out) in Hmsg by (rewrite Hlen; done). unfold i32_max in Hout.
  rewrite wrap_i32_id in Hmsg by (unfold i32_min, i32_max; lia).
  symmetry in Hmsg. rewrite Hmsg. rewrite decode_compressed_read; try done; try (unfold in_i32, i32_min, i32_max; lia);
    [|by rewrite <- Hmsg|apply Z.mod_pos_bound; lia].
  rewrite (compress_back _ _ _ Ec) by (unfold MAX_MSG_SIZE; lia). cbv beta iota.
  by rewrite wrap_i32_id by (unfold i32_min, i32_max, HEADER_SIZE; lia).
Qed.
End Format.

(** ** An instance of the crates *)

Module RefWire.
Definition byte_sum (b : bytes) : Z := (fold_left (fun n c => n + Z.of_N (Byte.to_N c)) b 0 mod 2 ^ 32)%Z.

#[export] Instance env : WireEnv := {|
  crc32c := byte_sum;
  snappy_compress b := Ok (x01 :: b); snappy_decompress b := match b with x01 :: b => Ok b | _ => Err "corrupt input" end;
  zlib_compress b := Ok (x02 :: b); zlib_decompress b := match b with x02 :: b => Ok b | _ => Err "corrupt stream" end;
  zstd_compress b := Ok (x03 :: b); zstd_decompress b := match b with x03 :: b => Ok b | _ => Err "unknown frame" end |}.

#[export] Instance laws : WireEnvLaws env.
Proof.
  split; [intros b; cbn [crc32c env]; unfold byte_sum; apply Z.mod_pos_bound; lia| | |]; intros b c [= <-]; reflexivity.
Qed.
End RefWire.

Section Runs.
Import RefFrame RefPy RefWire.

Definition bytes_of (d : dict) : bytes := match raw_encode_document d with Ok b => b | Err _ => [] end.

Definition insert_cmd : dict := [(KStr "insert", PyStr "users"); (KStr "$db", PyStr "app")].
Definition user (n : Z) : dict := [(KStr "n", PyInt n)].

(** An insert of two documents, with a checksum. *)
Lemma decode_reads_format_witness :
  exists h, decode_msg (msg_bytes 7 0 1 (concat [x00 :: bytes_of insert_cmd;
      x01 :: sequence_bytes "documents" [bytes_of (user 1); bytes_of (user 2)]])) =
    Ok (h, 1%Z, Some insert_cmd, [("documents", [user 1; user 2])]).
Proof.
  eexists. refine (proj1 (decode_reads_format 7 0 1 [Body insert_cmd; Sequence "documents" [user 1; user 2]] _ _ _ _ _ _)).
  - vm_compute. split; discriminate.
  - vm_compute. split; discriminate.
  - vm_compute. split; [discriminate|reflexivity].
  - repeat constructor; vm_compute; try reflexivity. intros H. repeat destruct H as [H|H]; try discriminate H; done.
  - vm_compute. discriminate.
Defined.

Lemma decode_terminates_witness :
  decode_docs 100 (repeat x00 20) 0 20 = decode_docs (S (length (repeat x00 20))) (repeat x00 20) 0 20.
Proof. refine (proj2 (decode_terminates (repeat x00 20) 100 20 0 None [] _ _)); vm_compute; [reflexivity|lia]. Defined.

Lemma corruption_refused_witness :
  let msg := header_bytes 24 1 0 OP_MSG ++ le_bytes 4 1 ++ [] in
  decode_msg (msg ++ le_bytes 4 5) = Err (ChecksumMismatch "CRC-32C mismatch").
Proof.
  refine (corruption_refused 24 1 0 OP_MSG 1 [] 5 _ _ _ _ _ _ _ _ _); vm_compute;
    first [reflexivity | discriminate | split; discriminate | split; [discriminate|reflexivity]].
Defined.

Lemma compressed_roundtrip_witness :
  let msg := header_bytes (Z.of_nat (HEADER_SIZE + length (bytes_of insert_cmd))) 1 0 OP_MSG ++ bytes_of insert_cmd in
  exists out, encode_compressed msg COMPRESSOR_ZSTD = Ok out /\ decode_compressed out = Ok msg.
Proof.
  intros msg. eexists. split; [reflexivity|].
  refine (compressed_roundtrip 1 0 OP_MSG (bytes_of insert_cmd) COMPRESSOR_ZSTD _ _ _ _ _ eq_refl _);
    vm_compute; first [discriminate | split; discriminate].
Defined.

(** A sequence that says it is longer than the message is a panic, not a [ProtocolError]: the connection dies with its task. *)
Theorem sequence_overrun_panics :
  decode_msg (header_bytes 25 1 0 OP_MSG ++ le_bytes 4 0 ++ [x01] ++ le_bytes 4 100) =
  Err (PyPanic "range end index out of range").
Proof. vm_compute. reflexivity. Qed.

(** The sizes of a message that is not compressed are not compared. *)
Theorem noop_ignores_size b size : (size <= MAX_MSG_SIZE)%Z -> decompress COMPRESSOR_NOOP b size = Ok b.
Proof. intros H. unfold decompress. destruct (Z.ltb_spec MAX_MSG_SIZE size); [lia|]. done. Qed.
End Runs.
