(* ===== verification/Scram.v ===== *)
(** * SCRAM-SHA-256

    [src/rust/smongo-py/src/scram.rs]: the server's side of the exchange by
    which a client proves that it knows a password.  The hash functions, the
    derivation of keys and base 64 are crates, a parameter with what they
    document ([Crypto]); the nonce is what the random generator gave, an
    argument.

    A client that knows the password is accepted, and is given the signature
    only the server can make; a message that is accepted holds the key whose
    hash the server stores. *)

From Stdlib Require Import ZArith Lia Ascii String Strings.Byte List.
From S2P Require Import Prelude F64 Bson RefBson Paths Geo Query Storage.
From stdpp Require Import base tactics list strings.

Open Scope list_scope.
Open Scope string_scope.

(** The [sha2], [hmac], [pbkdf2] and [base64] crates. *)
Class Crypto : Type := {
  sha256 : bytes -> bytes;
  hmac_sha256 : bytes -> bytes -> bytes;
  pbkdf2 : bytes -> bytes -> Z -> bytes;
  b64_encode : bytes -> string;
  b64_decode : string -> option bytes }.

Section Scram.
Context {C : Crypto}.

(** Source: smongo-py/src/scram.rs:21-26 (ScramCredential). *)
Record ScramCredential : Type := { salt : bytes; stored_key : bytes; server_key : bytes; iteration_count : Z }.

(** Source: smongo-py/src/scram.rs:29-43 (hash_password). *)
Definition hash_password (password : string) (salt : bytes) (iterations : Z) : ScramCredential :=
  let salted_password := pbkdf2 (as_bytes password) salt iterations in
  let client_key := hmac_sha256 salted_password (as_bytes "Client Key") in
  {| salt := salt; stored_key := sha256 client_key;
     server_key := hmac_sha256 salted_password (as_bytes "Server Key"); iteration_count := iterations |}.

(** Source: smongo-py/src/scram.rs:65-72 (ScramConversation). *)
Record ScramConversation : Type := {
  username : string; server_nonce : string; client_first_bare : string; server_first : string;
  conv_stored_key : bytes; conv_server_key : bytes }.

(** [std::str::from_utf8(payload)]. *)
Definition message_text (payload : bytes) (e : string) : result string string :=
  if utf8_valid payload then Ok (string_of_list_byte payload) else Err e.

(** The last of the attributes with a prefix. *)
Fixpoint last_attr (prefix : string) (attrs : list string) : option string :=
  match attrs with
  | [] => None
  | a :: attrs => match last_attr prefix attrs with Some v => Some v | None => Prelude.strip_prefix prefix a end
  end.

(** The first of them. *)
Fixpoint first_attr (prefix : string) (attrs : list string) : option string :=
  match attrs with
  | [] => None
  | a :: attrs => match Prelude.strip_prefix prefix a with Some v => Some v | None => first_attr prefix attrs end
  end.

(** Source: smongo-py/src/scram.rs:90-148 (from_client_first). [nonce]: the random bytes. *)
Definition from_client_first (nonce : bytes) (payload : bytes) (credential : ScramCredential) : result ScramConversation string :=
  let? msg := message_text payload "invalid UTF-8 in client-first-message" in
  match Prelude.strip_prefix "n,," msg with
  | None =>
      match Prelude.strip_prefix "p=" msg with
      | Some rest => Err ("channel binding not supported: p=" ++ rest)
      | None => Err "invalid gs2-header in client-first-message"
      end
  | Some bare =>
      let attrs := split_on "," bare in
      match last_attr "n=" attrs with
      | None => Err "missing n= (username) in client-first-message"
      | Some username =>
          match last_attr "r=" attrs with
          | None => Err "missing r= (nonce) in client-first-message"
          | Some client_nonce =>
              let combined_nonce := client_nonce ++ b64_encode nonce in
              let server_first := "r=" ++ combined_nonce ++ ",s=" ++ b64_encode (salt credential) ++ ",i=" ++
                                  Z_to_string (iteration_count credential) in
              Ok {| username := username; server_nonce := combined_nonce; client_first_bare := bare;
                    server_first := server_first; conv_stored_key := stored_key credential;
                    conv_server_key := server_key credential |}
          end
      end
  end.

(** Source: smongo-py/src/scram.rs:151-153 (server_first_message). *)
Definition server_first_message (c : ScramConversation) : bytes := as_bytes (server_first c).

(** [&msg[..msg.rfind(pat)]]. *)
Fixpoint before_last (pat : string) (s : string) : option string :=
  match s with
  | EmptyString => if String.prefix pat s then Some EmptyString else None
  | String a s' =>
      match before_last pat s' with
      | Some t => Some (String a t)
      | None => if String.prefix pat s then Some EmptyString else None
      end
  end.

Definition byte_xor (b c : byte) : byte :=
  let '(b0, (b1, (b2, (b3, (b4, (b5, (b6, b7))))))) := Byte.to_bits b in
  let '(c0, (c1, (c2, (c3, (c4, (c5, (c6, c7))))))) := Byte.to_bits c in
  Byte.of_bits (xorb b0 c0, (xorb b1 c1, (xorb b2 c2, (xorb b3 c3, (xorb b4 c4, (xorb b5 c5, (xorb b6 c6, xorb b7 c7))))))).

(** [recovered_client_key[i] = client_proof[i] ^ client_signature[i]]. *)
Definition xor_bytes (a b : bytes) : bytes := zip_with byte_xor a b.

Definition auth_message (c : ScramConversation) (without_proof : string) : string :=
  client_first_bare c ++ "," ++ server_first c ++ "," ++ without_proof.

(** Source: smongo-py/src/scram.rs:158-227 (verify_client_final). *)
Definition verify_client_final (c : ScramConversation) (payload : bytes) : result bytes string :=
  let? msg := message_text payload "invalid UTF-8 in client-final-message" in
  let attrs := split_on "," msg in
  match last_attr "c=" attrs, last_attr "r=" attrs, last_attr "p=" attrs with
  | None, _, _ => Err "missing c= in client-final-message"
  | Some _, None, _ => Err "missing r= in client-final-message"
  | Some _, Some _, None => Err "missing p= in client-final-message"
  | Some _, Some received_nonce, Some proof_b64 =>
      if negb (received_nonce =s? server_nonce c) then Err "nonce mismatch"
      else
        match before_last ",p=" msg with
        | None => Err "malformed client-final-message"
        | Some without_proof =>
            let auth := as_bytes (auth_message c without_proof) in
            let client_signature := hmac_sha256 (conv_stored_key c) auth in
            match b64_decode proof_b64 with
            | None => Err "invalid base64 in client proof"
            | Some client_proof =>
                if negb (length client_proof =? 32)%nat then Err "client proof wrong length"
                else if negb (bytes_eqb (sha256 (xor_bytes client_proof client_signature)) (conv_stored_key c))
                then Err "authentication failed"
                else Ok (as_bytes ("v=" ++ b64_encode (hmac_sha256 (conv_server_key c) auth)))
            end
        end
  end.

(** Source: smongo-py/src/scram.rs:235-249 (parse_username). *)
Definition parse_username (payload : bytes) : result string string :=
  let? msg := message_text payload "invalid UTF-8 in client-first-message" in
  match Prelude.strip_prefix "n,," msg with
  | None => Err "invalid gs2-header in client-first-message"
  | Some bare =>
      match first_attr "n=" (split_on "," bare) with
      | Some u => Ok u
      | None => Err "missing n= (username) in client-first-message"
      end
  end.
End Scram.

(** What the crates document: the lengths of hashes and keys, and base 64, which has no commas and decodes what it encodes. *)
Class CryptoLaws (C : Crypto) : Prop := {
  sha256_length : forall d, length (sha256 d) = 32%nat;
  hmac_length : forall k d, length (hmac_sha256 k d) = 32%nat;
  b64_decode_encode : forall b, b64_decode (b64_encode b) = Some b;
  b64_no_comma : forall b, no_char "," (b64_encode b) = true }.

Section Exchange.
Context {C : Crypto} {CL : CryptoLaws C}.

(** *** The client (RFC 5802) *)

(** The name of the user, with the escapes of the two characters that may not stand in it. *)
Fixpoint saslname (s : string) : string :=
  match s with
  | "" => ""
  | String a s => (if Ascii.eqb a "=" then "=3D" else if Ascii.eqb a "," then "=2C" else String a "") ++ saslname s
  end.

Lemma saslname_plain s : no_char "," s = true -> no_char "=" s = true -> saslname s = s.
Proof.
  induction s as [|a s IH]; [done|]. cbn [no_char saslname]. rewrite !andb_true_iff, !negb_true_iff. intros [H1 H2] [H3 H4].
  rewrite H1, H3, IH by done. reflexivity.
Qed.

Definition client_first (user nonce : string) : string := "n,,n=" ++ saslname user ++ ",r=" ++ nonce.

(** The message after the server's: the proof is the client's key masked by the signature of the exchange. *)
Definition client_final (password : string) (cred : ScramCredential) (c : ScramConversation) : string :=
  let salted := pbkdf2 (as_bytes password) (salt cred) (iteration_count cred) in
  let key := hmac_sha256 salted (as_bytes "Client Key") in
  let without_proof := "c=biws,r=" ++ server_nonce c in
  let signature := hmac_sha256 (sha256 key) (as_bytes (auth_message c without_proof)) in
  without_proof ++ ",p=" ++ b64_encode (xor_bytes key signature).

(** What the client compares the server's last message with. *)
Definition expected_server_final (password : string) (cred : ScramCredential) (c : ScramConversation) : bytes :=
  let salted := pbkdf2 (as_bytes password) (salt cred) (iteration_count cred) in
  let auth := as_bytes (auth_message c ("c=biws,r=" ++ server_nonce c)) in
  as_bytes ("v=" ++ b64_encode (hmac_sha256 (hmac_sha256 salted (as_bytes "Server Key")) auth)).

Lemma byte_xor_back b c : byte_xor (byte_xor b c) c = b.
Proof.
  unfold byte_xor. destruct (Byte.to_bits b) as (b0 & b1 & b2 & b3 & b4 & b5 & b6 & b7) eqn:Eb.
  destruct (Byte.to_bits c) as (c0 & c1 & c2 & c3 & c4 & c5 & c6 & c7). rewrite Byte.to_bits_of_bits.
  rewrite !xorb_assoc, !xorb_nilpotent, !xorb_false_r. rewrite <- Eb. apply Byte.of_bits_to_bits.
Qed.

Lemma xor_bytes_back a b : length a = length b -> xor_bytes (xor_bytes a b) b = a.
Proof.
  unfold xor_bytes. revert b. induction a as [|x a IH]; intros [|y b] H; try done. cbn [zip_with]. rewrite byte_xor_back. f_equal. apply IH. cbn in H. lia.
Qed.

Lemma str_cons_app x (a b : string) : String x a ++ b = String x (a ++ b).
Proof. reflexivity. Qed.

Lemma text_back s : string_of_list_byte (as_bytes s) = s.
Proof. apply string_of_list_byte_of_string. Qed.

Lemma same_bytes a b : bytes_eqb a b = true <-> a = b.
Proof. unfold bytes_eqb. rewrite <- bytes_cmp_eq. by destruct (bytes_cmp a b). Qed.

Lemma no_char_app ch a b : no_char ch (a ++ b) = no_char ch a && no_char ch b.
Proof. induction a as [|x a IH]; [done|]. rewrite str_cons_app. cbn [no_char]. by rewrite IH, andb_assoc. Qed.

Lemma prefix_comma s t : no_char "," s = true -> String.prefix (String "," t) s = false.
Proof.
  destruct s as [|a s]; [done|]. cbn [no_char]. intros H. apply andb_true_iff in H as [H _]. cbn [String.prefix].
  destruct (ascii_dec "," a) as [<-|]; [done|done].
Qed.

Lemma before_last_none t s : no_char "," s = true -> before_last (String "," t) s = None.
Proof.
  induction s as [|a s IH]; [done|]. intros H. pose proof H as H2. cbn [no_char] in H2. apply andb_true_iff in H2 as [_ H2].
  cbn [before_last]. rewrite IH by done. by rewrite prefix_comma.
Qed.

Lemma prefix_app p s : String.prefix p (p ++ s) = true.
Proof. induction p as [|a p IH]; [by destruct s|]. rewrite str_cons_app. cbn [String.prefix]. by destruct (ascii_dec a a). Qed.

Lemma before_last_proof w b : no_char "," b = true -> before_last ",p=" (w ++ ",p=" ++ b) = Some w.
Proof.
  intros H. induction w as [|a w IH].
  - change ("" ++ ",p=" ++ b) with (String "," ("p=" ++ b)). cbn [before_last]. rewrite before_last_none by (by rewrite no_char_app).
    change (String "," ("p=" ++ b)) with (",p=" ++ b). by rewrite (prefix_app ",p=" b).
  - rewrite str_cons_app. cbn [before_last]. by rewrite IH.
Qed.

Lemma strip_self p s : Prelude.strip_prefix p (p ++ s) = Some s.
Proof. induction p as [|a p IH]; [done|]. rewrite str_cons_app. cbn [Prelude.strip_prefix]. by rewrite Ascii.eqb_refl. Qed.

(** The first message of the client is read. *)
Lemma client_first_read user cnonce nonce cred : no_char "," user = true -> no_char "=" user = true -> no_char "," cnonce = true ->
  utf8_valid (as_bytes (client_first user cnonce)) = true ->
  parse_username (as_bytes (client_first user cnonce)) = Ok user /\
  exists c, from_client_first nonce (as_bytes (client_first user cnonce)) cred = Ok c /\ username c = user /\
    server_nonce c = cnonce ++ b64_encode nonce /\ conv_stored_key c = stored_key cred /\ conv_server_key c = server_key cred.
Proof.
  intros Hu Hu2 Hn Hv. unfold parse_username, from_client_first, message_text. rewrite Hv.
  rewrite text_back. cbv beta iota. unfold client_first. rewrite saslname_plain by done.
  change ("n,,n=" ++ user ++ ",r=" ++ cnonce) with ("n,," ++ "n=" ++ user ++ ",r=" ++ cnonce).
  rewrite (strip_self "n,," ("n=" ++ user ++ ",r=" ++ cnonce)).
  assert (Es : split_on "," ("n=" ++ user ++ ",r=" ++ cnonce) = ["n=" ++ user; "r=" ++ cnonce]).
  { change ("n=" ++ user ++ ",r=" ++ cnonce) with ("n=" ++ (user ++ String "," ("r=" ++ cnonce))).
    rewrite str_app_assoc. rewrite (split_on_app "," ("n=" ++ user) ("r=" ++ cnonce)) by (by rewrite no_char_app).
    by rewrite split_on_no_char by (by rewrite no_char_app). }
  rewrite Es. cbn [first_attr last_attr]. rewrite !strip_self. split; [done|].
  change (Prelude.strip_prefix "n=" ("r=" ++ cnonce)) with (@None string). cbv beta iota. eexists. split; [reflexivity|]. by cbn.
Qed.

(** The last message of the client is read. *)
Lemma client_final_read c without proof : no_char "," (server_nonce c) = true -> without = "c=biws,r=" ++ server_nonce c ->
  length proof = 32%nat -> utf8_valid (as_bytes (without ++ ",p=" ++ b64_encode proof)) = true ->
  verify_client_final c (as_bytes (without ++ ",p=" ++ b64_encode proof)) =
  let auth := as_bytes (auth_message c without) in
  if negb (bytes_eqb (sha256 (xor_bytes proof (hmac_sha256 (conv_stored_key c) auth))) (conv_stored_key c))
  then Err "authentication failed"
  else Ok (as_bytes ("v=" ++ b64_encode (hmac_sha256 (conv_server_key c) auth))).
Proof.
  intros Hn Hw Hp Hv. unfold verify_client_final, message_text. rewrite Hv, text_back.
  cbv beta iota zeta. assert (Es : split_on "," (without ++ ",p=" ++ b64_encode proof) = ["c=biws"; "r=" ++ server_nonce c; "p=" ++ b64_encode proof]).
  { rewrite Hw. change (("c=biws,r=" ++ server_nonce c) ++ ",p=" ++ b64_encode proof)
      with ("c=biws" ++ String "," (("r=" ++ server_nonce c) ++ String "," ("p=" ++ b64_encode proof))).
    rewrite (split_on_app "," "c=biws") by done. f_equal.
    rewrite split_on_app by (by rewrite no_char_app). f_equal. rewrite split_on_no_char; [done|].
    rewrite no_char_app. cbn. apply b64_no_comma. }
  rewrite Es. set (attrs := ["c=biws"; _; _]).
  assert (Hc : last_attr "c=" attrs = Some "biws") by reflexivity.
  assert (Hr : last_attr "r=" attrs = Some (server_nonce c)) by reflexivity.
  assert (Hpr : last_attr "p=" attrs = Some (b64_encode proof)) by reflexivity. rewrite Hc, Hr, Hpr.
  rewrite String.eqb_refl. cbn [negb]. rewrite before_last_proof by apply b64_no_comma. rewrite b64_decode_encode, Hp. done.
Qed.

(** The client's last message in a conversation over its own credential. *)
Lemma client_final_accepted password salt iterations c :
  let cred := hash_password password salt iterations in
  no_char "," (server_nonce c) = true -> conv_stored_key c = stored_key cred -> conv_server_key c = server_key cred ->
  utf8_valid (as_bytes (client_final password cred c)) = true ->
  verify_client_final c (as_bytes (client_final password cred c)) = Ok (expected_server_final password cred c).
Proof.
  intros cred Hn Hsk Hvk Hv. unfold client_final in *. set (key := hmac_sha256 _ _) in *. set (sig := hmac_sha256 (sha256 key) _) in *.
  rewrite client_final_read; [|done|done| |done].
  - cbn zeta. rewrite Hsk, Hvk. change (stored_key cred) with (sha256 key). fold sig. rewrite xor_bytes_back by (unfold key, sig; by rewrite !hmac_length).
    by rewrite (proj2 (same_bytes _ _) eq_refl).
  - unfold xor_bytes. rewrite length_zip_with. unfold key, sig. rewrite !hmac_length. done.
Qed.

(** A client that knows the password is accepted whatever the nonces and the salt are, and the message it gets
    back is the one only a server with the key of that password can make. *)
Theorem scram_accepts user password cnonce nonce salt iterations :
  let cred := hash_password password salt iterations in
  no_char "," user = true -> no_char "=" user = true -> no_char "," cnonce = true -> utf8_valid (as_bytes (client_first user cnonce)) = true ->
  exists c, from_client_first nonce (as_bytes (client_first user cnonce)) cred = Ok c /\ username c = user /\
    (utf8_valid (as_bytes (client_final password cred c)) = true ->
     verify_client_final c (as_bytes (client_final password cred c)) = Ok (expected_server_final password cred c)).
Proof.
  intros cred Hu Hu2 Hn Hv. destruct (client_first_read user cnonce nonce cred Hu Hu2 Hn Hv) as (_ & c & Hc & Hname & Hnonce & Hsk & Hvk).
  exists c. split_and!; [done|done|]. apply client_final_accepted; [|done|done]. rewrite Hnonce, no_char_app, Hn. apply b64_no_comma.
Qed.

(** C17: a message is accepted only when it repeats the nonce of this exchange and its proof unmasks a key whose hash is the
    stored one; the answer is then the signature of the exchange under the server's key. *)
Theorem scram_sound c payload out : verify_client_final c payload = Ok out ->
  exists msg without proof_b64 key, payload = as_bytes msg /\ before_last ",p=" msg = Some without /\
    last_attr "r=" (split_on "," msg) = Some (server_nonce c) /\ last_attr "p=" (split_on "," msg) = Some proof_b64 /\
    length key = 32%nat /\ sha256 key = conv_stored_key c /\
    let auth := as_bytes (auth_message c without) in
    b64_decode proof_b64 = Some (xor_bytes key (hmac_sha256 (conv_stored_key c) auth)) /\
    out = as_bytes ("v=" ++ b64_encode (hmac_sha256 (conv_server_key c) auth)).
Proof.
  intros H. unfold verify_client_final, message_text in H. destruct (utf8_valid payload); [|done]. cbv beta iota zeta in H.
  set (msg := string_of_list_byte payload) in *. destruct (last_attr "c=" _) as [cb|]; [|done].
  destruct (last_attr "r=" _) as [rn|] eqn:Er; [|done]. destruct (last_attr "p=" _) as [pb|] eqn:Ep; [|done].
  destruct (String.eqb_spec rn (server_nonce c)) as [->|]; [|done]. cbn [negb] in H.
  destruct (before_last ",p=" msg) as [without|] eqn:Ew; [|done]. destruct (b64_decode pb) as [proof|] eqn:Eb; [|done].
  destruct (Nat.eqb_spec (length proof) 32) as [Hl|]; [|done]. cbn [negb] in H.
  set (sig := hmac_sha256 (conv_stored_key c) _) in H. destruct (bytes_eqb _ _) eqn:Eq; [|done]. injection H as <-.
  apply same_bytes in Eq. exists msg, without, pb, (xor_bytes proof sig). split_and!; try done.
  - unfold msg, as_bytes. by rewrite list_byte_of_string_of_list_byte.
  - unfold xor_bytes. rewrite length_zip_with, Hl. unfold sig. by rewrite hmac_length.
  - split; [|done]. rewrite Eb. f_equal. symmetry. apply xor_bytes_back. by rewrite Hl, hmac_length.
Qed.
End Exchange.

(** ** An instance of the crates *)

Module RefCrypto.
Definition pad32 (b : bytes) : bytes := take 32 (b ++ repeat x00 32).

#[export] Instance crypto : Crypto := {|
  sha256 b := map (fun c => byte_xor c x5a) (rev (pad32 b));
  hmac_sha256 k d := pad32 (zip_with byte_xor (pad32 (rev d)) (pad32 k));
  pbkdf2 password salt _ := pad32 (password ++ salt);
  b64_encode := RefBson.to_hex;
  b64_decode := RefBson.of_hex |}.

Lemma pad32_length b : length (pad32 b) = 32%nat.
Proof. unfold pad32. rewrite length_take, length_app, repeat_length. lia. Qed.

Lemma to_hex_no_comma b : no_char "," (RefBson.to_hex b) = true.
Proof. induction b as [|c b IH]; [done|]. cbn [RefBson.to_hex no_char]. rewrite IH. by destruct c. Qed.

#[export] Instance laws : CryptoLaws crypto.
Proof.
  split; [intros; cbn; by rewrite length_map, length_rev, pad32_length|intros; apply pad32_length|apply RefBson.of_to_hex|apply to_hex_no_comma].
Qed.
End RefCrypto.

Section Runs.
Import RefCrypto.

Lemma scram_accepts_witness :
  exists c, from_client_first (repeat x07 3) (as_bytes (client_first "ada" "xyz")) (hash_password "secret" [x01] 4096) = Ok c /\
    verify_client_final c (as_bytes (client_final "secret" (hash_password "secret" [x01] 4096) c)) =
    Ok (expected_server_final "secret" (hash_password "secret" [x01] 4096) c).
Proof.
  destruct (scram_accepts "ada" "secret" "xyz" (repeat x07 3) [x01] 4096 eq_refl eq_refl eq_refl eq_refl) as (c & Hc & _ & Hv).
  exists c. split; [exact Hc|]. apply Hv. vm_compute in Hc. injection Hc as <-. vm_compute. reflexivity.
Defined.

(** A wrong password is refused. *)
Example wrong_password :
  let cred := hash_password "secret" [x01] 4096 in
  match from_client_first (repeat x07 3) (as_bytes (client_first "ada" "xyz")) cred with
  | Ok c => verify_client_final c (as_bytes (client_final "Secret" cred c)) = Err "authentication failed"
  | Err _ => False
  end.
Proof. vm_compute. reflexivity. Qed.

Lemma scram_sound_witness :
  exists msg without proof_b64 key out, 
    verify_client_final {| username := "u"; server_nonce := "n"; client_first_bare := ""; server_first := "";
      conv_stored_key := sha256 (repeat x09 32); conv_server_key := [] |} (as_bytes msg) = Ok out /\
    before_last ",p=" msg = Some without /\ last_attr "p=" (split_on "," msg) = Some proof_b64 /\
    sha256 key = sha256 (repeat x09 32).
Proof.
  set (c := {| username := "u"; server_nonce := "n"; client_first_bare := ""; server_first := "";
    conv_stored_key := sha256 (repeat x09 32); conv_server_key := [] |}).
  set (proof := xor_bytes (repeat x09 32) (hmac_sha256 (conv_stored_key c) (as_bytes (auth_message c "c=biws,r=n")))).
  set (m := ("c=biws,r=n,p=" ++ b64_encode proof)%string).
  destruct (scram_sound c (as_bytes m) (match verify_client_final c (as_bytes m) with Ok o => o | Err _ => [] end)) as
    (msg & without & pb & key & Hm & Hw & _ & Hp & _ & Hk & _); [vm_compute; reflexivity|].
  exists msg, without, pb, key. eexists. split; [rewrite <- Hm; vm_compute; reflexivity|]. split; [exact Hw|]. split; [exact Hp|exact Hk].
Defined.
End Runs.
