(* ===== verification/Auth.v ===== *)
(** * Users, roles and authentication

    [src/rust/smongo-py/src/rbac.rs], [wire_errors.rs], the user commands of
    [wire_commands/admin.rs], [saslStart], [saslContinue] and [logout] of
    [wire_commands/handshake.rs], and the gate of [wire_server.rs] every
    command passes: the users as a store of Python dictionaries by name, what a
    connection knows of its user, and the decision whether a command may run.

    The random salts and nonces, the object ids, the comparison of two Python
    objects and the outcome of a write to the table of users are arguments; the
    audit log is not modelled.

    A command that is not exempt runs only on a connection that went through an
    exchange with the credentials of a stored user, and with roles that grant
    it; but the user it runs as need not be the one whose password was given. *)

From Stdlib Require Import ZArith Lia Ascii String Strings.Byte List.
From S2P Require Import Prelude F64 Bson RefBson Paths Geo Query Storage IndexKey LeBytes Spill PyBson Wire Scram.
From stdpp Require Import base tactics relations list strings gmap.

Open Scope list_scope.
Open Scope string_scope.

(** ** Errors *)

(** Source: smongo-py/src/wire_errors.rs:6-32 (lookup_error). *)
Definition lookup_error (name : string) : Z * string :=
  let known := [("InternalError", 1); ("BadValue", 2); ("NoSuchKey", 4); ("Unauthorized", 13); ("TypeMismatch", 14);
    ("AuthenticationFailed", 18); ("IllegalOperation", 20); ("NamespaceNotFound", 26); ("IndexNotFound", 27);
    ("CursorNotFound", 43); ("NamespaceExists", 48); ("ExceededTimeLimit", 50); ("CommandNotFound", 59);
    ("WriteConcernFailed", 64); ("InvalidLength", 70); ("InvalidOptions", 72); ("InvalidNamespace", 73);
    ("OperationFailed", 96); ("CommandNotSupported", 115); ("DocumentValidationFailure", 121); ("DuplicateKey", 11000);
    ("NotPrimaryOrSecondary", 13436)]%Z in
  match List.find (fun e => fst e =s? name) known with
  | Some (n, code) => (code, n)
  | None => (1%Z, "InternalError")
  end.

(** Source: smongo-py/src/wire_errors.rs:35-47 (error_response). *)
Definition error_response (code : Z) (code_name message : string) : dict :=
  [(KStr "ok", PyInt 0); (KStr "errmsg", PyStr message); (KStr "code", PyInt code); (KStr "codeName", PyStr code_name)].

(** Source: smongo-py/src/wire_errors.rs:50-53 (make_error). *)
Definition make_error (name message : string) : dict :=
  let '(code, code_name) := lookup_error name in error_response code code_name message.

(** [ok_dict] of [wire_commands/mod.rs]. *)
Definition ok_dict : dict := [(KStr "ok", PyFloat f64_one)].

(** ** Roles *)

Module Rbac.

(** Source: smongo-py/src/rbac.rs:8-43 (read_commands). *)
Definition read_commands : list string :=
  ["find"; "count"; "distinct"; "aggregate"; "getMore"; "killCursors"; "listCollections"; "listIndexes"; "collStats";
   "dbStats"; "serverStatus"; "ping"; "hello"; "ismaster"; "isMaster"; "connectionStatus"; "buildInfo"; "buildinfo";
   "hostInfo"; "whatsmyuri"; "explain"; "getLog"; "getCmdLineOpts"; "getFreeMonitoringStatus"; "connPoolStats";
   "features"; "listCommands"; "listDatabases"; "replSetGetStatus"; "replSetGetConfig"; "shardingState"; "lockInfo"].

(** Source: smongo-py/src/rbac.rs:45-60 (read_write_commands). *)
Definition read_write_commands : list string :=
  (read_commands ++ ["insert"; "update"; "delete"; "findAndModify"; "createIndexes"; "dropIndexes"; "deleteIndexes";
   "create"; "drop"; "bulkWrite"])%list.

(** Source: smongo-py/src/rbac.rs:62-83 (db_admin_commands). *)
Definition db_admin_commands : list string :=
  (read_commands ++ ["createIndexes"; "dropIndexes"; "deleteIndexes"; "create"; "drop"; "collMod"; "compact"; "validate";
   "reIndex"; "renameCollection"; "dropDatabase"; "fsync"; "getParameter"; "setParameter"; "logRotate";
   "setFreeMonitoring"])%list.

(** Source: smongo-py/src/rbac.rs:85-95 (user_admin_commands). *)
Definition user_admin_commands : list string :=
  ["createUser"; "dropUser"; "updateUser"; "usersInfo"; "grantRolesToUser"; "revokeRolesFromUser"; "rolesInfo"].

(** Source: smongo-py/src/rbac.rs:97-102 (db_owner_commands). *)
Definition db_owner_commands : list string :=
  (read_write_commands ++ db_admin_commands ++ user_admin_commands)%list.

(** Source: smongo-py/src/rbac.rs:104-114 (commands_for_role). [None]: everything. *)
Definition commands_for_role (role : string) : option (list string) :=
  if role =s? "read" then Some read_commands
  else if role =s? "readWrite" then Some read_write_commands
  else if role =s? "dbAdmin" then Some db_admin_commands
  else if role =s? "userAdmin" then Some user_admin_commands
  else if role =s? "dbOwner" then Some db_owner_commands
  else if role =s? "root" then None
  else Some [].

Definition str_mem (s : string) (l : list string) : bool := existsb (String.eqb s) l.

(** Source: smongo-py/src/rbac.rs:121-143 (check_privilege). *)
Fixpoint check_privilege (roles : list (string * string)) (command target_db : string) : bool :=
  match roles with
  | [] => false
  | (role_name, role_db) :: roles =>
      let db_matches := (role_db =s? target_db) || (role_db =s? "*") in
      if (role_name =s? "root") && (role_db =s? "admin") then true
      else if negb db_matches then check_privilege roles command target_db
      else
        match commands_for_role role_name with
        | None => true
        | Some allowed => if str_mem command allowed then true else check_privilege roles command target_db
        end
  end.

(** What a role grants on a database. *)
Definition grants (role : string * string) (command target_db : string) : Prop :=
  role = ("root", "admin") \/
  (snd role = target_db \/ snd role = "*") /\
  match commands_for_role (fst role) with None => True | Some allowed => In command allowed end.

Lemma str_mem_In s l : str_mem s l = true <-> In s l.
Proof.
  unfold str_mem. rewrite existsb_exists. split.
  - intros (x & Hx & E). apply String.eqb_eq in E. by subst.
  - intros H. exists s. split; [done|apply String.eqb_refl].
Qed.

Definition grantsb (role : string * string) (command target_db : string) : bool :=
  (fst role =s? "root") && (snd role =s? "admin") ||
  ((snd role =s? target_db) || (snd role =s? "*")) &&
  match commands_for_role (fst role) with None => true | Some allowed => str_mem command allowed end.

Lemma grantsb_spec role command target_db : grantsb role command target_db = true <-> grants role command target_db.
Proof.
  unfold grantsb, grants. destruct role as [name rdb]. cbn [fst snd].
  rewrite orb_true_iff, !andb_true_iff, orb_true_iff, !String.eqb_eq.
  assert (Hm : match commands_for_role name with None => true | Some allowed => str_mem command allowed end = true <->
    match commands_for_role name with None => True | Some allowed => In command allowed end)
    by (destruct (commands_for_role name); [apply str_mem_In|done]).
  rewrite Hm. split; (intros [H|H]; [left|by right]); [by destruct H as [-> ->]|by injection H].
Qed.

Lemma check_privilege_existsb roles command target_db :
  check_privilege roles command target_db = existsb (fun r => grantsb r command target_db) roles.
Proof.
  induction roles as [|[name rdb] roles IH]; [done|]. cbn [check_privilege existsb]. rewrite <- IH. unfold grantsb. cbn [fst snd].
  destruct ((name =s? "root") && (rdb =s? "admin")); [done|]. destruct ((rdb =s? target_db) || (rdb =s? "*")); [|done]. cbn [negb orb andb].
  destruct (commands_for_role name) as [allowed|]; [|done]. by destruct (str_mem command allowed).
Qed.

Lemma check_privilege_In roles command target_db :
  check_privilege roles command target_db = true <-> exists role, In role roles /\ grants role command target_db.
Proof.
  rewrite check_privilege_existsb, existsb_exists. split; intros (r & Hr & H); exists r; (split; [done|]); by apply grantsb_spec.
Qed.

Lemma role_incl low high :
  In (low, high) [("read", "readWrite"); ("read", "dbAdmin"); ("readWrite", "dbOwner"); ("dbAdmin", "dbOwner"); ("userAdmin", "dbOwner")] ->
  exists l h, commands_for_role low = Some l /\ commands_for_role high = Some h /\ incl l h /\ low <> "root".
Proof.
  intros [E|[E|[E|[E|[E|[]]]]]]; injection E as <- <-.
  - exists read_commands, read_write_commands. split_and!; [done|done|apply incl_appl, incl_refl|done].
  - exists read_commands, db_admin_commands. split_and!; [done|done|apply incl_appl, incl_refl|done].
  - exists read_write_commands, db_owner_commands. split_and!; [done|done|apply incl_appl, incl_refl|done].
  - exists db_admin_commands, db_owner_commands. split_and!; [done|done|apply incl_appr, incl_appl, incl_refl|done].
  - exists user_admin_commands, db_owner_commands. split_and!; [done|done|apply incl_appr, incl_appr, incl_refl|done].
Qed.

(** A command is allowed exactly when one of the roles grants it on the database, so that more roles never allow less; and the
    roles are ordered: what [read] grants [readWrite] and [dbAdmin] do, and [dbOwner]
    grants all that these and [userAdmin] grant, on the same database. *)
Theorem privilege_spec roles command target_db :
  (check_privilege roles command target_db = true <-> exists role, In role roles /\ grants role command target_db) /\
  (forall more, check_privilege roles command target_db = true -> check_privilege (roles ++ more)%list command target_db = true) /\
  (forall low high, In (low, high) [("read", "readWrite"); ("read", "dbAdmin"); ("readWrite", "dbOwner"); ("dbAdmin", "dbOwner"); ("userAdmin", "dbOwner")] ->
     grants (low, target_db) command target_db -> grants (high, target_db) command target_db).
Proof.
  split; [apply check_privilege_In|]. split.
  - intros more. rewrite !check_privilege_In. intros (r & Hr & Hg). exists r. split; [apply in_app_iff; by left|done].
  - intros low high Hin Hg. destruct (role_incl _ _ Hin) as (l & h & Hl & Hh & Hincl & Hroot). destruct Hg as [[= H _]|[H1 H2]]; [done|].
    right. split; [done|]. cbn [fst] in *. rewrite Hl in H2. rewrite Hh. by apply Hincl.
Qed.
End Rbac.

(** ** Users *)

(** [dict.get_item(k)] for a [str]. *)
Fixpoint get_item (d : dict) (k : string) : option pyval :=
  match d with
  | [] => None
  | (KStr k', v) :: d => if k' =s? k then Some v else get_item d k
  | (KOther, _) :: d => get_item d k
  end.

(** [dict_get_str] of [wire_commands/mod.rs]. *)
Definition dict_get_str (d : dict) (k default : string) : string :=
  match get_item d k with Some (PyStr s) => s | _ => default end.

(** [extract::<String>()]. *)
Definition extract_str (v : pyval) : result string pyerr :=
  match v with PyStr s => Ok s | _ => Err (TypeError "object cannot be cast as 'str'") end.

(** [is_truthy]. *)
Definition is_truthy (v : pyval) : bool :=
  match v with
  | PyNone => false
  | PyBool b => b
  | PyInt n | PyInt64 n => negb (n =? 0)%Z
  | PyFloat f => negb (f64_eqb f f64_zero)
  | PyStr s => negb (s =s? "")
  | PyBytes b | PyBinary b _ => negb (length b =? 0)%nat
  | PyDict d => negb (length d =? 0)%nat
  | PyList l | PyTuple l => negb (length l =? 0)%nat
  | _ => true
  end.

Definition user_key (db user : string) : string := db ++ "." ++ user.

(** The dictionary of users, shared by the connections. *)
Abbreviation user_store := (gmap string dict).

Module Users.
Section Users.
Context {C : Crypto}.

(** [a == b] of two Python objects. *)
Context (py_eq : pyval -> pyval -> bool).

(** Source: smongo-py/src/wire_commands/admin.rs:1310-1332 (build_scram_credentials). *)
Definition build_scram_credentials (salt : bytes) (entry : dict) (password : string) : dict :=
  let cred := hash_password password salt 15000 in
  let scram_dict := set_item (set_item (set_item (set_item [] "salt" (PyStr (b64_encode (Scram.salt cred))))
    "storedKey" (PyStr (b64_encode (stored_key cred)))) "serverKey" (PyStr (b64_encode (server_key cred))))
    "iterationCount" (PyInt (iteration_count cred)) in
  set_item entry "credentials" (PyDict (set_item [] "SCRAM-SHA-256" (PyDict scram_dict))).

(** [if let Some(pwd_obj) = cmd.get_item("pwd")? { .. }]. *)
Definition with_password (salt : bytes) (cmd entry : dict) : result dict pyerr :=
  match get_item cmd "pwd" with
  | None => Ok entry
  | Some v => let? pwd := extract_str v in Ok (build_scram_credentials salt entry pwd)
  end.

(** Source: smongo-py/src/wire_commands/admin.rs:1255-1308 (cmd_create_user). [oid]: the new [bson.ObjectId]; [persisted]: the outcome
    of the write to the table of users, after the store is changed. *)
Definition cmd_create_user (salt : bytes) (oid : string) (persisted : result unit pyerr) (st : user_store) (cmd : dict)
  : user_store * result dict pyerr :=
  let db_name := dict_get_str cmd "$db" "test" in
  let user := dict_get_str cmd "createUser" "" in
  if user =s? "" then (st, Ok (make_error "InvalidOptions" "createUser requires a username"))
  else
    let key := user_key db_name user in
    let roles := match get_item cmd "roles" with Some v => v | None => PyList [] end in
    match st !! key with
    | Some _ => (st, Ok (make_error "DuplicateKey" ("User " ++ user ++ "@" ++ db_name ++ " already exists")))
    | None =>
        let entry := [(KStr "_id", PyStr key); (KStr "userId", PyBsonObjectId oid); (KStr "user", PyStr user);
                      (KStr "db", PyStr db_name); (KStr "roles", roles);
                      (KStr "mechanisms", PyList [PyStr "SCRAM-SHA-256"])] in
        match with_password salt cmd entry with
        | Err e => (st, Err e)
        | Ok entry => (<[key := entry]> st, let? _ := persisted in Ok ok_dict)
        end
    end.

Definition user_not_found (user db : string) : dict := make_error "UserNotFound" ("User " ++ user ++ "@" ++ db ++ " not found").

(** Source: smongo-py/src/wire_commands/admin.rs:1357-1388 (cmd_drop_user). *)
Definition cmd_drop_user (st : user_store) (cmd : dict) : user_store * result dict pyerr :=
  let db_name := dict_get_str cmd "$db" "test" in
  let user := dict_get_str cmd "dropUser" "" in
  match st !! user_key db_name user with
  | None => (st, Ok (user_not_found user db_name))
  | Some _ => (delete (user_key db_name user) st, Ok ok_dict)
  end.

(** Source: smongo-py/src/wire_commands/admin.rs:1390-1432 (cmd_update_user). The entry is changed in place: a password that is not a [str] is
    refused after the roles and the mechanisms are set. *)
Definition cmd_update_user (salt : bytes) (st : user_store) (cmd : dict) : user_store * result dict pyerr :=
  let db_name := dict_get_str cmd "$db" "test" in
  let user := dict_get_str cmd "updateUser" "" in
  let key := user_key db_name user in
  match st !! key with
  | None => (st, Ok (user_not_found user db_name))
  | Some entry =>
      let entry := match get_item cmd "roles" with Some v => set_item entry "roles" v | None => entry end in
      let entry := match get_item cmd "mechanisms" with Some v => set_item entry "mechanisms" v | None => entry end in
      match with_password salt cmd entry with
      | Err e => (<[key := entry]> st, Err e)
      | Ok entry => (<[key := entry]> st, Ok ok_dict)
      end
  end.

(** [entry.get("roles", []).cast::<PyList>()?]. *)
Definition roles_list (v : option pyval) : result (list pyval) pyerr :=
  match v with
  | None => Ok []
  | Some (PyList l) => Ok l
  | Some _ => Err (TypeError "object cannot be cast as 'list'")
  end.

(** Source: smongo-py/src/wire_commands/admin.rs:1462-1470 (cmd_grant_roles_to_user). *)
Definition add_roles (current new : list pyval) : list pyval :=
  fold_left (fun l item => if existsb (py_eq item) l then l else l ++ [item])%list new current.

(** Source: smongo-py/src/wire_commands/admin.rs:1434-1480 (cmd_grant_roles_to_user). *)
Definition cmd_grant_roles_to_user (st : user_store) (cmd : dict) : user_store * result dict pyerr :=
  let db_name := dict_get_str cmd "$db" "test" in
  let user := dict_get_str cmd "grantRolesToUser" "" in
  let key := user_key db_name user in
  match get_item cmd "roles" with
  | None => (st, Err (PythonError "grantRolesToUser requires 'roles' array"))
  | Some new_roles =>
      match st !! key with
      | None => (st, Ok (user_not_found user db_name))
      | Some entry =>
          match (let? current := roles_list (get_item entry "roles") in
                 let? new := roles_list (Some new_roles) in Ok (add_roles current new)) with
          | Err e => (st, Err e)
          | Ok roles => (<[key := set_item entry "roles" (PyList roles)]> st, Ok ok_dict)
          end
      end
  end.

(** Source: smongo-py/src/wire_commands/admin.rs:1482-1530 (cmd_revoke_roles_from_user). *)
Definition cmd_revoke_roles_from_user (st : user_store) (cmd : dict) : user_store * result dict pyerr :=
  let db_name := dict_get_str cmd "$db" "test" in
  let user := dict_get_str cmd "revokeRolesFromUser" "" in
  let key := user_key db_name user in
  match get_item cmd "roles" with
  | None => (st, Err (PythonError "revokeRolesFromUser requires 'roles' array"))
  | Some revoke_roles =>
      match st !! key with
      | None => (st, Ok (user_not_found user db_name))
      | Some entry =>
          match (let? current := roles_list (get_item entry "roles") in
                 let? revoke := roles_list (Some revoke_roles) in
                 Ok (List.filter (fun item => negb (existsb (py_eq item) revoke)) current)) with
          | Err e => (st, Err e)
          | Ok keep => (<[key := set_item entry "roles" (PyList keep)]> st, Ok ok_dict)
          end
      end
  end.

(** The entries of a [dict] in the order of its iterator. *)
Context (store_order : list (string * dict) -> list (string * dict)).

Definition users_response (users : list dict) : dict := [(KStr "users", PyList (map PyDict users)); (KStr "ok", PyFloat f64_one)].

(** Source: smongo-py/src/wire_commands/admin.rs:1131-1208 (cmd_users_info). *)
Definition cmd_users_info (st : user_store) (cmd : dict) : dict :=
  let db_name := dict_get_str cmd "$db" "test" in
  let one key := users_response (match st !! key with Some u => [u] | None => [] end) in
  let all := users_response (map snd (store_order (map_to_list st))) in
  match get_item cmd "usersInfo" with
  | Some (PyStr s) => one (user_key db_name s)
  | Some (PyDict d) =>
      one (user_key (dict_get_str d "db" db_name) (dict_get_str d "user" ""))
  | Some t =>
      if is_truthy t then
        users_response (map snd (List.filter (fun kv => starts_with (db_name ++ ".") (fst kv)) (store_order (map_to_list st))))
      else all
  | None => all
  end.
End Users.
End Users.

(** ** A connection *)

Module Sasl.
Section Sasl.
Context {C : Crypto}.

(** Source: smongo-py/src/wire_context.rs:372-375 (ConnectionContext). What a connection knows of its user. *)
Record auth_state : Type := {
  authenticated_user : option string;
  authenticated_db : option string;
  authenticated_roles : list (string * string);
  scram_conversation : option ScramConversation }.

(** A new connection. *)
Definition new_auth : auth_state :=
  {| authenticated_user := None; authenticated_db := None; authenticated_roles := []; scram_conversation := None |}.

(** [extract::<Vec<u8>>()]. *)
Definition extract_bytes (v : pyval) : result bytes pyerr :=
  match v with
  | PyBytes b | PyBinary b _ => Ok b
  | PyList l | PyTuple l =>
      map_result (fun x => match x with
        | PyInt n | PyInt64 n => if in_range 0 255 n then Ok (byte_of_Z n) else Err OverflowError
        | PyBool b => Ok (if b then x01 else x00)
        | _ => Err (TypeError "object cannot be interpreted as an integer")
        end) l
  | _ => Err (TypeError "object cannot be cast as a sequence")
  end.

(** [extract::<u32>()]. *)
Definition extract_count (v : pyval) : result Z pyerr :=
  match v with
  | PyInt n | PyInt64 n => extract_u32 n
  | PyBool b => Ok (if b then 1 else 0)%Z
  | _ => Err (TypeError "object cannot be interpreted as an integer")
  end.

Definition auth_failed (msg : string) : dict := make_error "AuthenticationFailed" msg.

(** [cred_py.get_item(k)?.extract::<String>()?], decoded. *)
Definition b64_field (d : dict) (k : string) : result string pyerr :=
  match get_item d k with None => Err (PythonError ("KeyError: " ++ k)) | Some v => extract_str v end.

Definition decode_field (name s : string) : result bytes pyerr :=
  match b64_decode s with Some b => Ok b | None => Err (PythonError ("invalid " ++ name ++ " base64")) end.

(** Source: smongo-py/src/wire_commands/handshake.rs:284-323 (extract_scram_credential). *)
Definition extract_scram_credential (d : dict) : result ScramCredential pyerr :=
  let? salt_b64 := b64_field d "salt" in
  let? stored_key_b64 := b64_field d "storedKey" in
  let? server_key_b64 := b64_field d "serverKey" in
  let? iteration_count := match get_item d "iterationCount" with
                          | None => Err (PythonError "KeyError: iterationCount") | Some v => extract_count v end in
  let? salt := decode_field "salt" salt_b64 in
  let? stored_key := decode_field "storedKey" stored_key_b64 in
  let? server_key := decode_field "serverKey" server_key_b64 in
  if negb (length stored_key =? 32)%nat || negb (length server_key =? 32)%nat
  then Err (PythonError "stored/server key must be 32 bytes")
  else Ok {| Scram.salt := salt; Scram.stored_key := stored_key; Scram.server_key := server_key;
             Scram.iteration_count := iteration_count |}.

(** [obj.call_method1("get", (k,))]. *)
Definition call_get (v : pyval) (k : string) : result pyval pyerr :=
  match v with
  | PyDict d => Ok (match get_item d k with Some x => x | None => PyNone end)
  | _ => Err (PythonError "object has no attribute 'get'")
  end.

(** The credential of a stored user, or the response that says there is none. *)
Definition stored_credential (doc : dict) : result (dict + ScramCredential) pyerr :=
  let? creds := call_get (PyDict doc) "credentials" in
  match creds with
  | PyNone => Ok (inl (auth_failed "user has no credentials"))
  | _ =>
      let? scram := call_get creds "SCRAM-SHA-256" in
      match scram with
      | PyNone => Ok (inl (auth_failed "user has no SCRAM-SHA-256 credentials"))
      | PyDict d => let? c := extract_scram_credential d in Ok (inr c)
      | _ => Err (PythonError "object is not subscriptable")
      end
  end.

Definition scram_response (done : bool) (payload : bytes) : dict :=
  [(KStr "conversationId", PyInt 1); (KStr "done", PyBool done); (KStr "payload", PyBytes payload); (KStr "ok", PyFloat f64_one)].

Definition runtime_error {A} (r : result A string) : result A pyerr :=
  match r with Ok a => Ok a | Err e => Err (PythonError e) end.

(** Source: smongo-py/src/wire_commands/handshake.rs:201-282 (cmd_sasl_start). *)
Definition cmd_sasl_start (nonce : bytes) (store : user_store) (st : auth_state) (cmd : dict) : auth_state * result dict pyerr :=
  let mechanism := dict_get_str cmd "mechanism" "" in
  if negb (mechanism =s? "SCRAM-SHA-256") then (st, Ok (auth_failed ("unsupported SASL mechanism: " ++ mechanism)))
  else
    match get_item cmd "payload" with
    | None => (st, Ok (auth_failed "saslStart requires a payload"))
    | Some v =>
        let db_name := dict_get_str cmd "$db" "admin" in
        match (let? payload := extract_bytes v in let? u := runtime_error (parse_username payload) in Ok (payload, u)) with
        | Err e => (st, Err e)
        | Ok (payload, username) =>
            match store !! user_key db_name username with
            | None => (st, Ok (auth_failed ("user " ++ username ++ " not found in " ++ db_name)))
            | Some user_doc =>
                match stored_credential user_doc with
                | Err e => (st, Err e)
                | Ok (inl response) => (st, Ok response)
                | Ok (inr credential) =>
                    match from_client_first nonce payload credential with
                    | Err e => (st, Err (PythonError e))
                    | Ok conversation =>
                        ({| authenticated_user := authenticated_user st; authenticated_db := authenticated_db st;
                            authenticated_roles := authenticated_roles st; scram_conversation := Some conversation |},
                         Ok (scram_response false (server_first_message conversation)))
                    end
                end
            end
        end
    end.

(** [d.get_item(k)?.map(|v| v.extract()).transpose()?.unwrap_or_default()]. *)
Definition str_field (d : dict) (k : string) : result string pyerr :=
  match get_item d k with None => Ok "" | Some v => extract_str v end.

(** Source: smongo-py/src/wire_commands/handshake.rs:374-393 (cmd_sasl_continue). One role of a user. *)
Definition role_pair (db_name : string) (pairs : list (string * string)) (item : pyval) : result (list (string * string)) pyerr :=
  match item with
  | PyDict d =>
      let? role := str_field d "role" in
      let? rdb := str_field d "db" in
      Ok (if role =s? "" then pairs else (pairs ++ [(role, rdb)])%list)
  | PyStr s => Ok (if s =s? "" then pairs else (pairs ++ [(s, db_name)])%list)
  | _ => Ok pairs
  end.

(** The roles of a user of the store. *)
Definition role_pairs (db_name : string) (user_doc : option dict) : result (list (string * string)) pyerr :=
  match user_doc with
  | None => Ok []
  | Some doc =>
      match get_item doc "roles" with
      | Some (PyList l) => fold_result (role_pair db_name) [] l
      | _ => Ok []
      end
  end.

(** Source: smongo-py/src/wire_commands/handshake.rs:325-458 (cmd_sasl_continue). The conversation is taken whatever comes of it, and the
    user is set before the roles are read. *)
Definition cmd_sasl_continue (store : user_store) (st : auth_state) (cmd : dict) : auth_state * result dict pyerr :=
  match get_item cmd "payload" with
  | None => (st, Err (PythonError "saslContinue missing payload"))
  | Some v =>
      match extract_bytes v with
      | Err e => (st, Err e)
      | Ok payload =>
          let db_name := dict_get_str cmd "$db" "admin" in
          match scram_conversation st with
          | None => (st, Ok (auth_failed "no active SCRAM conversation"))
          | Some conversation =>
              match verify_client_final conversation payload with
              | Err e =>
                  ({| authenticated_user := authenticated_user st; authenticated_db := authenticated_db st;
                      authenticated_roles := authenticated_roles st; scram_conversation := None |},
                   Ok (auth_failed ("SCRAM verification failed: " ++ e)))
              | Ok server_final =>
                  let user := username conversation in
                  let set roles := {| authenticated_user := Some user; authenticated_db := Some db_name;
                                      authenticated_roles := roles; scram_conversation := None |} in
                  match role_pairs db_name (store !! user_key db_name user) with
                  | Err e => (set (authenticated_roles st), Err e)
                  | Ok roles => (set roles, Ok (scram_response true server_final))
                  end
              end
          end
      end
  end.

(** Source: smongo-py/src/wire_commands/handshake.rs:460-495 (cmd_logout). *)
Definition cmd_logout (st : auth_state) : auth_state * result dict pyerr :=
  ({| authenticated_user := None; authenticated_db := None; authenticated_roles := [];
      scram_conversation := scram_conversation st |}, Ok ok_dict).

(** Source: smongo-py/src/wire_commands/diagnostics.rs:12-51 (cmd_connection_status). *)
Definition cmd_connection_status (st : auth_state) : dict :=
  let '(users, roles) :=
    match authenticated_user st, authenticated_db st with
    | Some u, Some d =>
        ([PyDict [(KStr "user", PyStr u); (KStr "db", PyStr d)]],
         map (fun r => PyDict [(KStr "role", PyStr (fst r)); (KStr "db", PyStr (snd r))]) (authenticated_roles st))
    | _, _ => ([], [])
    end in
  [(KStr "authInfo", PyDict [(KStr "authenticatedUsers", PyList users); (KStr "authenticatedUserRoles", PyList roles)]);
   (KStr "ok", PyFloat f64_one)].

(** ** The gate *)

(** Source: smongo-py/src/wire_server.rs:679-692 (AUTH_EXEMPT_COMMANDS). *)
Definition AUTH_EXEMPT_COMMANDS : list string :=
  ["hello"; "ismaster"; "isMaster"; "ping"; "saslStart"; "saslContinue"; "logout"; "buildInfo"; "buildinfo"; "whatsmyuri";
   "getnonce"; "connectionStatus"].

(** Source: smongo-py/src/wire_server.rs:749-759 (first_dict_key). *)
Definition first_dict_key (body : option dict) : string :=
  match body with Some ((KStr s, _) :: _) => s | _ => "" end.

(** Source: smongo-py/src/wire_server.rs:694-747 (check_auth_gate). The error a command is refused with; the reply is encoded by the caller. *)
Definition check_auth_gate (st : auth_state) (body : option dict) : option dict :=
  let cmd_name := first_dict_key body in
  if Rbac.str_mem cmd_name AUTH_EXEMPT_COMMANDS then None
  else
    match authenticated_user st with
    | None => Some (make_error "Unauthorized" "command requires authentication")
    | Some _ =>
        let target_db := match body with Some d => dict_get_str d "$db" "test" | None => "test" end in
        if negb (Rbac.check_privilege (authenticated_roles st) cmd_name target_db)
        then Some (make_error "Unauthorized" ("not authorized on " ++ target_db ++ " to execute command " ++ cmd_name))
        else None
    end.

(** *** Safety of the gate *)

(** The stores of users the server has had. *)
Context (Seen : user_store -> Prop).

(** A request that bears on the user of the connection. *)
Inductive auth_step : auth_state -> auth_state -> Prop :=
| step_start nonce store st cmd : Seen store -> auth_step st (fst (cmd_sasl_start nonce store st cmd))
| step_continue store st cmd : Seen store -> auth_step st (fst (cmd_sasl_continue store st cmd))
| step_logout st : auth_step st (fst (cmd_logout st)).

(** What a connection has known of its user, the latest first: each state is the one before, or made of it by a request. *)
Inductive trail : list auth_state -> Prop :=
| trail_new : trail [new_auth]
| trail_same st tr : trail (st :: tr) -> trail (st :: st :: tr)
| trail_step st st' tr : auth_step st st' -> trail (st :: tr) -> trail (st' :: st :: tr).

Definition payload_of (cmd : dict) : option bytes :=
  match get_item cmd "payload" with Some v => match extract_bytes v with Ok b => Some b | Err _ => None end | None => None end.

(** A conversation that a [saslStart] of the trail began: its first message, the user that one names first, and the credential of that user. *)
Definition begun (tr : list auth_state) (start : bytes) (c : ScramConversation) : Prop :=
  exists later st before nonce store cmd name doc cred,
    tr = (later ++ fst (cmd_sasl_start nonce store st cmd) :: st :: before)%list /\ Seen store /\ payload_of cmd = Some start /\
    parse_username start = Ok name /\ store !! user_key (dict_get_str cmd "$db" "admin") name = Some doc /\
    stored_credential doc = Ok (inr cred) /\ from_client_first nonce start cred = Ok c.

(** A login: a [saslContinue] of the trail whose proof was accepted in the conversation begun before it; [store] and [db] are where the roles of
    the user are read then. *)
Definition login (tr : list auth_state) (start : bytes) (c : ScramConversation) (store : user_store) (db : string) : Prop :=
  exists later st before cmd final out,
    tr = (later ++ fst (cmd_sasl_continue store st cmd) :: st :: before)%list /\ Seen store /\ db = dict_get_str cmd "$db" "admin" /\
    payload_of cmd = Some final /\ scram_conversation st = Some c /\ verify_client_final c final = Ok out /\ begun (st :: before) start c.

(** The first message names one user. *)
Definition names_one (start : bytes) : bool :=
  match Prelude.strip_prefix "n,," (string_of_list_byte start) with
  | Some bare => (length (List.filter (fun a => is_some (Prelude.strip_prefix "n=" a)) (split_on "," bare)) <=? 1)%nat
  | None => false
  end.

(** The user of the state is the one the conversation of a login names last, and each role is one that the user of a login had then. *)
Definition authentic (tr : list auth_state) (st : auth_state) : Prop :=
  (forall c, scram_conversation st = Some c -> exists start, begun tr start c) /\
  (forall u, authenticated_user st = Some u -> exists start c store db, login tr start c store db /\ username c = u) /\
  (forall r, In r (authenticated_roles st) -> exists start c store db rs, login tr start c store db /\
     role_pairs db (store !! user_key db (username c)) = Ok rs /\ In r rs).

Lemma begun_later st tr start c : begun tr start c -> begun (st :: tr) start c.
Proof. intros (later & H). exists (st :: later). destruct H as (st0 & before & nonce & store & cmd & name & doc & cred & -> & H). by exists st0, before, nonce, store, cmd, name, doc, cred. Qed.

Lemma login_later st tr start c store db : login tr start c store db -> login (st :: tr) start c store db.
Proof. intros (later & st0 & before & cmd & final & out & -> & H). by exists (st :: later), st0, before, cmd, final, out. Qed.

Lemma authentic_later st' tr st : authentic tr st -> authentic (st' :: tr) st.
Proof.
  intros (A1 & A2 & A3). split_and!.
  - intros c Hc. destruct (A1 c Hc) as [start H]. exists start. by apply begun_later.
  - intros u Hu. destruct (A2 u Hu) as (start & c & store & db & H & E). exists start, c, store, db. split; [by apply login_later|done].
  - intros r Hr. destruct (A3 r Hr) as (start & c & store & db & rs & H & E). exists start, c, store, db, rs. split; [by apply login_later|done].
Qed.

Lemma start_keeps nonce store st cmd tr : Seen store -> authentic (st :: tr) st ->
  authentic (fst (cmd_sasl_start nonce store st cmd) :: st :: tr) (fst (cmd_sasl_start nonce store st cmd)).
Proof.
  intros Hs Hst. assert (Hsame : forall st', st' = st -> authentic (st' :: st :: tr) st') by (intros st' ->; by apply authentic_later).
  set (st' := fst (cmd_sasl_start nonce store st cmd)). assert (Hst' : st' = fst (cmd_sasl_start nonce store st cmd)) by done.
  revert Hst'. generalize st'. clear st'. intros st'. unfold cmd_sasl_start. destruct (negb _) eqn:Em; [apply Hsame|].
  destruct (get_item cmd "payload") as [v|] eqn:Ev; [|apply Hsame].
  destruct (extract_bytes v) as [payload|] eqn:Ep; [|apply Hsame]. cbv beta iota. destruct (parse_username payload) as [user|] eqn:Eu; cbn [runtime_error]; cbv beta iota; [|apply Hsame].
  destruct (store !! _) as [doc|] eqn:Ed; [|apply Hsame]. destruct (stored_credential doc) as [[resp|cred]|] eqn:Ec; [apply Hsame| |apply Hsame].
  destruct (from_client_first nonce payload cred) as [c|] eqn:Ef; [|apply Hsame]. intros E.
  destruct (authentic_later st' _ _ Hst) as (A1 & A2 & A3). rewrite E in *. split_and!; cbn [fst scram_conversation authenticated_user authenticated_roles]; [|done|done].
  intros c' [= <-]. exists payload, [], st, tr, nonce, store, cmd, user, doc, cred. split_and!; try done.
  - unfold cmd_sasl_start. rewrite Em, Ev, Ep. cbv beta iota. rewrite Eu. cbn [runtime_error]. cbv beta iota zeta. by rewrite Ed, Ec, Ef.
  - unfold payload_of. by rewrite Ev, Ep.
Qed.

Lemma continue_keeps store st cmd tr : Seen store -> authentic (st :: tr) st ->
  authentic (fst (cmd_sasl_continue store st cmd) :: st :: tr) (fst (cmd_sasl_continue store st cmd)).
Proof.
  intros Hs Hst. pose proof Hst as (A1 & _). remember (fst (cmd_sasl_continue store st cmd)) as st' eqn:E.
  assert (B := authentic_later st' _ _ Hst). destruct B as (B1 & B2 & B3). pose proof E as E0. unfold cmd_sasl_continue in E0.
  destruct (get_item cmd "payload") as [v|] eqn:Ev; [|by rewrite E0 in *; split_and!].
  destruct (extract_bytes v) as [payload|] eqn:Ep; [|by rewrite E0 in *; split_and!]. destruct (scram_conversation st) as [c|] eqn:Ec; [|by rewrite E0 in *; split_and!; cbn; rewrite ?Ec].
  destruct (verify_client_final c payload) as [out|] eqn:Evf; [|by rewrite E0 in *; split_and!].
  destruct (A1 c eq_refl) as [start Hbegun].
  assert (Hl : login (st' :: st :: tr) start c store (dict_get_str cmd "$db" "admin")).
  { exists [], st, tr, cmd, payload, out. rewrite E. split_and!; try done. unfold payload_of. by rewrite Ev, Ep. }
  destruct (role_pairs _ _) as [rs|] eqn:Er; cbn [fst] in E0; rewrite E0 in *; split_and!; cbn [scram_conversation authenticated_user authenticated_roles];
    try done; try (intros u [= <-]; by exists start, c, store, (dict_get_str cmd "$db" "admin")).
  intros r Hr. by exists start, c, store, (dict_get_str cmd "$db" "admin"), rs.
Qed.

Lemma trail_authentic tr : trail tr -> match tr with st :: _ => authentic tr st | [] => False end.
Proof.
  induction 1 as [|st tr _ IH|st st' tr Hstep _ IH]; [split_and!; done|by apply authentic_later|].
  destruct Hstep as [nonce store st0 cmd Hs|store st0 cmd Hs|st0]; [by apply start_keeps|by apply continue_keeps|].
  destruct (authentic_later (fst (cmd_logout st0)) _ _ IH) as (B1 & B2 & B3). by split_and!.
Qed.

(** When the first message names one user, this is the user the conversation names. *)
Lemma names_one_same nonce start cred c name : from_client_first nonce start cred = Ok c -> parse_username start = Ok name ->
  names_one start = true -> username c = name.
Proof.
  unfold from_client_first, parse_username, names_one, message_text. destruct (utf8_valid start); [|done]. cbv beta iota.
  destruct (Prelude.strip_prefix "n,," _) as [bare|]; [|done]. set (attrs := split_on "," bare).
  assert (Hl : forall l, (length (List.filter (fun a => is_some (Prelude.strip_prefix "n=" a)) l) <= 1)%nat -> last_attr "n=" l = first_attr "n=" l).
  { assert (Hz : forall l, (length (List.filter (fun a => is_some (Prelude.strip_prefix "n=" a)) l) <= 0)%nat -> last_attr "n=" l = None).
    { induction l as [|x l IH]; [done|]. cbn [List.filter last_attr]. destruct (Prelude.strip_prefix "n=" x) eqn:Ex; cbn [is_some length]; [lia|]. intros H. by rewrite IH. }
    induction l as [|x l IH]; [done|]. cbn [List.filter last_attr first_attr]. destruct (Prelude.strip_prefix "n=" x) as [v|] eqn:Ex; cbn [is_some length]; intros H.
    - by rewrite Hz by lia.
    - rewrite IH by done. by destruct (first_attr "n=" l). }
  intros H1 H2 H3. apply Nat.leb_le in H3. rewrite (Hl attrs H3) in H1. destruct (first_attr "n=" attrs) as [u|]; [|done]. injection H2 as ->.
  destruct (last_attr "r=" attrs); [|done]. by injection H1 as <-.
Qed.

(** What is asked of the database a command is addressed to. *)
Definition target_db (body : option dict) : string := match body with Some d => dict_get_str d "$db" "test" | None => "test" end.

(** The connection has logged in, as the user it acts as, and a role that the user of a login of the connection had then grants the command. *)
Definition allowed (tr : list auth_state) (st : auth_state) (body : option dict) : Prop :=
  (exists start c store db, login tr start c store db /\ authenticated_user st = Some (username c) /\
     (names_one start = true -> parse_username start = Ok (username c))) /\
  exists start c store db rs r, login tr start c store db /\ (names_one start = true -> parse_username start = Ok (username c)) /\
    role_pairs db (store !! user_key db (username c)) = Ok rs /\ In r rs /\ Rbac.grants r (first_dict_key body) (target_db body).

Lemma login_named tr start c store db : login tr start c store db -> names_one start = true -> parse_username start = Ok (username c).
Proof.
  intros (later & st & before & cmd & final & out & _ & _ & _ & _ & _ & _ & Hb) H1.
  destruct Hb as (? & ? & ? & nonce & ? & ? & name & ? & cred & _ & _ & _ & Hn & _ & _ & Hf). by rewrite Hn, (names_one_same _ _ _ _ _ Hf Hn H1).
Qed.

Lemma gate_passes st tr body : trail (st :: tr) -> check_auth_gate st body = None ->
  In (first_dict_key body) AUTH_EXEMPT_COMMANDS \/ allowed (st :: tr) st body.
Proof.
  intros Htr Hgate. destruct (trail_authentic _ Htr) as (_ & A2 & A3). unfold check_auth_gate in Hgate.
  destruct (Rbac.str_mem _ _) eqn:E; [left; by apply Rbac.str_mem_In|right].
  destruct (authenticated_user st) as [u|] eqn:Eu; [|done]. destruct (Rbac.check_privilege _ _ _) eqn:Ep; [|done]. split.
  - destruct (A2 u eq_refl) as (start & c & store & db & Hl & <-). exists start, c, store, db. split_and!; [done|by rewrite Eu|exact (login_named _ _ _ _ _ Hl)].
  - apply Rbac.check_privilege_In in Ep as (r & Hr & Hg). destruct (A3 r Hr) as (start & c & store & db & rs & Hl & Hrs & Hin).
    exists start, c, store, db, rs, r. split_and!; try done. exact (login_named _ _ _ _ _ Hl).
Qed.
End Sasl.
End Sasl.

(** ** From the creation of a user to a login *)

Section Login.
Import Users Sasl.
Context {C : Crypto} {CL : CryptoLaws C}.

Definition start_cmd (db : string) (payload : string) : dict :=
  [(KStr "saslStart", PyInt 1); (KStr "mechanism", PyStr "SCRAM-SHA-256"); (KStr "payload", PyBytes (as_bytes payload));
   (KStr "$db", PyStr db)].

Definition continue_cmd (db : string) (payload : string) : dict :=
  [(KStr "saslContinue", PyInt 1); (KStr "conversationId", PyInt 1); (KStr "payload", PyBytes (as_bytes payload));
   (KStr "$db", PyStr db)].

(** The entry a user is created with. *)
Definition new_entry (salt : bytes) (oid db user pwd : string) (roles : list pyval) : dict :=
  build_scram_credentials salt
    [(KStr "_id", PyStr (user_key db user)); (KStr "userId", PyBsonObjectId oid); (KStr "user", PyStr user);
     (KStr "db", PyStr db); (KStr "roles", PyList roles); (KStr "mechanisms", PyList [PyStr "SCRAM-SHA-256"])] pwd.

Lemma new_entry_roles salt oid db user pwd roles : get_item (new_entry salt oid db user pwd roles) "roles" = Some (PyList roles).
Proof. reflexivity. Qed.

(** The credential read from it is the one made of the password. *)
Lemma new_entry_credential salt oid db user pwd roles :
  stored_credential (new_entry salt oid db user pwd roles) = Ok (inr (hash_password pwd salt 15000)).
Proof.
  unfold stored_credential, new_entry, build_scram_credentials. cbn [call_get get_item set_item]. cbv beta iota.
  cbn -[b64_encode b64_decode hash_password extract_scram_credential]. unfold extract_scram_credential. cbn -[b64_encode b64_decode hash_password].
  unfold decode_field. rewrite !b64_decode_encode. change (extract_u32 (iteration_count (hash_password pwd salt 15000))) with (@Ok Z pyerr 15000%Z).
  cbv beta iota. unfold hash_password. cbn [Scram.salt stored_key server_key]. rewrite sha256_length, hmac_length. reflexivity.
Qed.

(** C13: a user just created can log in with its password, on any connection: the server accepts
    the client's proof, proves that it knows the key itself, and the connection acts with the
    name, the database and the roles of the user, and no others. The name is not empty and holds
    no comma and no equals sign (the characters that a SCRAM client escapes and this server does
    not read back: [escaped_name_kept]), its roles are well formed, its key is free in the store
    of users, the user document is persisted without an error, the nonce of the client has no
    comma, and both messages are valid UTF-8; the client is one that sends the password as it
    is, without SASLprep. *)
Theorem login_after_create salt oid store cmd db user pwd roles rs cnonce nonce st :
  dict_get_str cmd "$db" "test" = db -> dict_get_str cmd "createUser" "" = user -> user <> "" ->
  get_item cmd "pwd" = Some (PyStr pwd) -> get_item cmd "roles" = Some (PyList roles) ->
  fold_result (role_pair db) [] roles = Ok rs -> store !! user_key db user = None ->
  no_char "," user = true -> no_char "=" user = true -> no_char "," cnonce = true -> utf8_valid (as_bytes (client_first user cnonce)) = true ->
  exists store', cmd_create_user salt oid (Ok tt) store cmd = (store', Ok ok_dict) /\
  exists st1 c, cmd_sasl_start nonce store' st (start_cmd db (client_first user cnonce)) =
      (st1, Ok (scram_response false (server_first_message c))) /\ scram_conversation st1 = Some c /\
    (utf8_valid (as_bytes (client_final pwd (hash_password pwd salt 15000) c)) = true ->
     cmd_sasl_continue store' st1 (continue_cmd db (client_final pwd (hash_password pwd salt 15000) c)) =
       ({| authenticated_user := Some user; authenticated_db := Some db; authenticated_roles := rs; scram_conversation := None |},
        Ok (scram_response true (expected_server_final pwd (hash_password pwd salt 15000) c)))).
Proof.
  intros Hdb Huser Hne Hpwd Hroles Hrs Hfree Hu Hu2 Hc Hv. set (cred := hash_password pwd salt 15000).
  set (entry := new_entry salt oid db user pwd roles). exists (<[user_key db user := entry]> store). split.
  { unfold cmd_create_user. rewrite Hdb, Huser, Hroles. apply String.eqb_neq in Hne. rewrite Hne, Hfree. unfold with_password. rewrite Hpwd. reflexivity. }
  destruct (client_first_read user cnonce nonce cred Hu Hu2 Hc Hv) as (Hname & c & Hconv & Hcu & Hnonce & Hsk & Hvk).
  eexists _, c. split.
  { unfold cmd_sasl_start.
    change (negb (dict_get_str (start_cmd db (client_first user cnonce)) "mechanism" "" =s? "SCRAM-SHA-256")) with false.
    change (get_item (start_cmd db (client_first user cnonce)) "payload") with (Some (PyBytes (as_bytes (client_first user cnonce)))).
    change (dict_get_str (start_cmd db (client_first user cnonce)) "$db" "admin") with db. cbv beta iota. cbn [extract_bytes]. cbv beta iota.
    rewrite Hname. cbn [runtime_error]. cbv beta iota zeta. rewrite lookup_insert_eq. unfold entry. rewrite new_entry_credential. fold cred. rewrite Hconv. reflexivity. }
  split; [reflexivity|]. intros Hv2. unfold cmd_sasl_continue. cbn [scram_conversation].
  change (get_item (continue_cmd db (client_final pwd cred c)) "payload") with (Some (PyBytes (as_bytes (client_final pwd cred c)))).
  change (dict_get_str (continue_cmd db (client_final pwd cred c)) "$db" "admin") with db. cbn [extract_bytes]. cbv beta iota zeta.
  unfold cred. rewrite (client_final_accepted pwd salt 15000 c); [| |done|done|done].
  2:{ rewrite Hnonce, no_char_app, Hc. apply b64_no_comma. }
  rewrite Hcu, lookup_insert_eq. unfold role_pairs, entry. rewrite new_entry_roles, Hrs. reflexivity.
Qed.
End Login.

(** ** Runs *)

Section Runs.
Import RefCrypto Users Sasl.

Definition role_doc (role db : string) : pyval := PyDict [(KStr "role", PyStr role); (KStr "db", PyStr db)].

Definition create_cmd (db user pwd : string) (roles : list pyval) : dict :=
  [(KStr "createUser", PyStr user); (KStr "pwd", PyStr pwd); (KStr "roles", PyList roles); (KStr "$db", PyStr db)].

Definition created (store : user_store) (db user pwd : string) (roles : list pyval) : user_store :=
  fst (cmd_create_user [x01; x02] "507f1f77bcf86cd799439011" (Ok tt) store (create_cmd db user pwd roles)).

(** The state after an exchange: the first message, and the last one made with a password and the salt of the users above. *)
Definition exchange (store : user_store) (start_db continue_db first pwd : string) : auth_state :=
  let '(st, _) := cmd_sasl_start [x09] store new_auth (start_cmd start_db first) in
  match scram_conversation st with
  | None => st
  | Some c => fst (cmd_sasl_continue store st (continue_cmd continue_db (client_final pwd (hash_password pwd [x01; x02] 15000) c)))
  end.

Lemma login_after_create_witness :
  exists store' st1 c,
    cmd_create_user [x01; x02] "507f1f77bcf86cd799439011" (Ok tt) ∅ (create_cmd "app" "ada" "pw" [role_doc "read" "app"]) = (store', Ok ok_dict) /\
    cmd_sasl_start [x09] store' new_auth (start_cmd "app" (client_first "ada" "xyz")) =
      (st1, Ok (scram_response false (server_first_message c))) /\
    fst (cmd_sasl_continue store' st1 (continue_cmd "app" (client_final "pw" (hash_password "pw" [x01; x02] 15000) c))) =
      {| authenticated_user := Some "ada"; authenticated_db := Some "app"; authenticated_roles := [("read", "app")]; scram_conversation := None |}.
Proof.
  destruct (login_after_create [x01; x02] "507f1f77bcf86cd799439011" ∅ (create_cmd "app" "ada" "pw" [role_doc "read" "app"]) "app" "ada" "pw"
    [role_doc "read" "app"] [("read", "app")] "xyz" [x09] new_auth eq_refl eq_refl ltac:(discriminate) eq_refl eq_refl eq_refl eq_refl eq_refl eq_refl eq_refl eq_refl)
    as (store' & Hcreate & st1 & c & Hstart & Hconv & Hcont).
  exists store', st1, c. split; [exact Hcreate|]. split; [exact Hstart|]. rewrite Hcont; [reflexivity|].
  apply (f_equal fst) in Hcreate, Hstart. cbn [fst] in Hcreate, Hstart. rewrite <- Hstart, <- Hcreate in Hconv.
  apply (f_equal (fun o => match o with Some x => utf8_valid (as_bytes (client_final "pw" (hash_password "pw" [x01; x02] 15000) x)) | None => true end)) in Hconv.
  rewrite <- Hconv. vm_compute. reflexivity.
Defined.

Definition two_users : user_store :=
  created (created ∅ "admin" "root" "unknown" [role_doc "root" "admin"]) "admin" "mallory" "m" [].

(** The credentials are those of the first [n=] of the client's message, the user is the last: a client that names itself and then another user
    proves its own password and is the other user, with the roles of that one. *)
Theorem second_name_impersonates :
  let st := exchange two_users "admin" "admin" "n,,n=mallory,r=x,n=root" "m" in
  authenticated_user st = Some "root" /\ authenticated_roles st = [("root", "admin")] /\
  check_auth_gate st (Some [(KStr "dropDatabase", PyInt 1); (KStr "$db", PyStr "app")]) = None.
Proof. vm_compute. repeat split. Qed.

(** The roles are those of the user of that name in the database [saslContinue] names, not in the one whose credential was used. *)
Theorem continue_switches_database :
  let store := created (created ∅ "admin" "ada" "unknown" [role_doc "root" "admin"]) "app" "ada" "pw" [role_doc "read" "app"] in
  authenticated_roles (exchange store "app" "app" (client_first "ada" "x") "pw") = [("read", "app")] /\
  authenticated_roles (exchange store "app" "admin" (client_first "ada" "x") "pw") = [("root", "admin")].
Proof. vm_compute. repeat split. Qed.

(** Whoever may create users in a database may create one with every role: what is granted is not compared with what the granter has. *)
Theorem user_admin_grants_root :
  let admin := {| authenticated_user := Some "ann"; authenticated_db := Some "app"; authenticated_roles := [("userAdmin", "app")]; scram_conversation := None |} in
  let cmd := create_cmd "app" "eve" "pw" [role_doc "root" "admin"] in
  check_auth_gate admin (Some cmd) = None /\
  authenticated_roles (exchange (created ∅ "app" "eve" "pw" [role_doc "root" "admin"]) "app" "app" (client_first "eve" "x") "pw") = [("root", "admin")].
Proof. vm_compute. repeat split. Qed.

(** [usersInfo] with a database of its own passes the gate of the command's database, and shows the stored keys of any user. *)
Theorem users_info_leaks_keys :
  let ann := {| authenticated_user := Some "ann"; authenticated_db := Some "app"; authenticated_roles := [("userAdmin", "app")]; scram_conversation := None |} in
  let cmd := [(KStr "usersInfo", PyDict [(KStr "user", PyStr "root"); (KStr "db", PyStr "admin")]); (KStr "$db", PyStr "app")] in
  let entry := default [] (two_users !! "admin.root") in
  check_auth_gate ann (Some cmd) = None /\
  cmd_users_info (fun l => l) two_users cmd = users_response [entry] /\ is_some (get_item entry "credentials") = true.
Proof. vm_compute. repeat split. Qed.

(** No role but [root] grants the commands of sessions and transactions. *)
Theorem no_role_grants_transactions :
  forallb (fun role => match Rbac.commands_for_role role with
    | None => true
    | Some l => forallb (fun c => negb (Rbac.str_mem c l)) ["startTransaction"; "commitTransaction"; "abortTransaction"; "startSession"; "endSessions"]
    end) ["read"; "readWrite"; "dbAdmin"; "userAdmin"; "dbOwner"] = true.
Proof. vm_compute. reflexivity. Qed.

(** A user that is not found is reported as an internal error: the name is not in the table of codes. *)
Theorem user_not_found_is_internal user db : get_item (user_not_found user db) "codeName" = Some (PyStr "InternalError").
Proof. reflexivity. Qed.

(** A role of the database [*], which the documentation of the check does not mention, holds everywhere. *)
Theorem star_role_holds_everywhere db : Rbac.check_privilege [("readWrite", "*")] "insert" db = true.
Proof.
  apply Rbac.check_privilege_In. exists ("readWrite", "*"). split; [by left|]. right. split; [by right|]. apply in_app_iff. right. by left.
Qed.

(** The escapes of SCRAM in a name are not undone. *)
Theorem escaped_name_kept : parse_username (as_bytes "n,,n=a=2Cb,r=x") = Ok "a=2Cb".
Proof. vm_compute. reflexivity. Qed.
End Runs.
