(* ===== verification/Server.v ===== *)
(** * The server

    [src/rust/smongo-py/src/wire_server.rs] and [wire_dispatch.rs], with [hello]
    and [ping] of [wire_commands/handshake.rs]: the cutting of what a socket
    gives into messages, and what is done with one message, from its decoding
    through the gate and the command to the response.

    The commands of users and authentication are those of [Auth]; the others
    are an argument, a function of the rest of the server's state, and so are
    the session registry's [touch], the clock and the random numbers.  The
    counters, the profiler and the audit log are not modelled, and what is
    written reaches the client.

    However the bytes arrive, the messages are the same; a message is answered
    the same compressed or not; a command that the gate refuses changes nothing
    but the number of the next response. *)

From Stdlib Require Import ZArith Lia Ascii String Strings.Byte List.
From S2P Require Import Prelude F64 Bson RefBson Paths Geo Query Storage IndexKey LeBytes Spill PyBson Wire Scram Auth.
From stdpp Require Import base tactics relations list strings gmap.
Import Sasl Users.

Open Scope list_scope.
Open Scope string_scope.

(** ** Messages from a socket *)

(** What the bytes received so far begin with. *)
Inductive cut : Type := Incomplete | Invalid | Message (msg rest : bytes).

(** Source: smongo-py/src/wire_server.rs:394-408 (connection_loop). *)
Definition next_message (buf : bytes) : cut :=
  if (length buf <? 4)%nat then Incomplete
  else
    let msg_len := le_u32_at buf 0 in
    if (msg_len <? Z.of_nat HEADER_SIZE)%Z || (MAX_MSG_SIZE <? msg_len)%Z then Invalid
    else if (Z.of_nat (length buf) <? msg_len)%Z then Incomplete
    else Message (take (Z.to_nat msg_len) buf) (drop (Z.to_nat msg_len) buf).

(** Source: smongo-py/src/wire_server.rs:393-422 (connection_loop). The messages in a buffer, what is left of it, and whether the connection
    is closed for a length that cannot be. *)
Fixpoint frames (fuel : nat) (buf : bytes) : list bytes * bytes * bool :=
  match fuel with
  | O => ([], buf, false)
  | S fuel =>
      match next_message buf with
      | Incomplete => ([], buf, false)
      | Invalid => ([], buf, true)
      | Message msg rest => let '(msgs, rem, closed) := frames fuel rest in (msg :: msgs, rem, closed)
      end
  end.

Definition frames_of (buf : bytes) : list bytes * bytes * bool := frames (S (length buf)) buf.

(** Source: smongo-py/src/wire_server.rs:356-430 (connection_loop). The messages of a connection, from what the reads of its socket give; a read
    of no bytes is the end of the connection. *)
Fixpoint received (buf : bytes) (chunks : list bytes) : list bytes * bytes * bool :=
  match chunks with
  | [] | [] :: _ => ([], buf, false)
  | chunk :: chunks =>
      let '(msgs, rem, closed) := frames_of (buf ++ chunk) in
      if closed then (msgs, rem, true)
      else let '(msgs', rem', closed') := received rem chunks in (msgs ++ msgs', rem', closed')
  end%list.

Lemma next_message_rest buf msg rest : next_message buf = Message msg rest ->
  buf = (msg ++ rest)%list /\ HEADER_SIZE <= length msg.
Proof.
  unfold next_message. destruct (_ <? _)%nat; [done|]. destruct (Z.ltb_spec (le_u32_at buf 0) (Z.of_nat HEADER_SIZE)); [done|].
  destruct (_ <? _)%Z; [done|]. cbn [orb]. destruct (Z.ltb_spec (Z.of_nat (length buf)) (le_u32_at buf 0)); [done|]. intros [= <- <-].
  split; [by rewrite take_drop|]. rewrite length_take. lia.
Qed.

(** More bytes do not change what a buffer begins with, once it is known. *)
Lemma next_message_more buf more :
  match next_message buf with
  | Incomplete => True
  | Invalid => next_message (buf ++ more) = Invalid
  | Message msg rest => next_message (buf ++ more) = Message msg (rest ++ more)
  end%list.
Proof.
  unfold next_message. destruct (Nat.ltb_spec (length buf) 4) as [|H4]; [done|]. rewrite length_app.
  destruct (Nat.ltb_spec (length buf + length more) 4); [lia|].
  assert (E : le_u32_at (buf ++ more)%list 0 = le_u32_at buf 0) by (unfold le_u32_at; rewrite !drop_0; by rewrite take_app_le by lia).
  rewrite E. set (n := le_u32_at buf 0). destruct ((n <? _)%Z || (_ <? n)%Z); [done|].
  destruct (Z.ltb_spec (Z.of_nat (length buf)) n) as [|Hn]; [done|]. destruct (Z.ltb_spec (Z.of_nat (length buf + length more)) n); [lia|].
  rewrite take_app_le, drop_app_le by lia. done.
Qed.

Lemma frames_fuel f1 : forall f2 buf, length buf < f1 -> length buf < f2 -> frames f1 buf = frames f2 buf.
Proof.
  induction f1 as [|f1 IH]; intros [|f2] buf H1 H2; try lia. cbn [frames]. destruct (next_message buf) as [| |msg rest] eqn:E; [done|done|].
  apply next_message_rest in E as [-> Hm]. rewrite length_app in H1, H2. unfold HEADER_SIZE in Hm. rewrite (IH f2 rest) by lia. done.
Qed.

Lemma frames_more fuel : forall buf more msgs rem closed, length buf < fuel -> frames fuel buf = (msgs, rem, closed) ->
  frames_of (buf ++ more)%list =
  if closed then (msgs, (rem ++ more)%list, true) else let '(ms, l, c) := frames_of (rem ++ more)%list in ((msgs ++ ms)%list, l, c).
Proof.
  induction fuel as [|fuel IH]; intros buf more msgs rem closed Hf H; [lia|]. cbn [frames] in H.
  pose proof (next_message_more buf more) as Hm. destruct (next_message buf) as [| |msg rest] eqn:E.
  - injection H as <- <- <-. cbn [app]. by destruct (frames_of _) as [[? ?] ?].
  - injection H as <- <- <-. unfold frames_of. cbn [frames]. by rewrite Hm.
  - apply next_message_rest in E as [-> Hlen]. unfold HEADER_SIZE in Hlen. rewrite length_app in Hf.
    destruct (frames fuel rest) as [[ms l] c] eqn:Er. injection H as <- <- <-. specialize (IH rest more ms l c ltac:(lia) Er).
    unfold frames_of at 1. cbn [frames]. rewrite Hm. rewrite (frames_fuel _ (S (length (rest ++ more)%list))) by (rewrite ?length_app; lia).
    fold (frames_of (rest ++ more)%list). rewrite IH. destruct c; [done|]. by destruct (frames_of (l ++ more)%list) as [[? ?] ?].
Qed.

(** What is read before the end. *)
Fixpoint until_end (chunks : list bytes) : list bytes :=
  match chunks with [] | [] :: _ => [] | chunk :: chunks => chunk :: until_end chunks end.

Lemma received_frames chunks : forall buf msgs rem closed, received buf chunks = (msgs, rem, closed) -> frames_of buf = ([], buf, false) ->
  exists rem', frames_of (buf ++ concat (until_end chunks))%list = (msgs, rem', closed) /\ (closed = false -> rem' = rem).
Proof.
  induction chunks as [|chunk chunks IH]; intros buf msgs rem closed H Hbuf.
  { injection H as <- <- <-. rewrite app_nil_r. by exists buf. }
  destruct chunk as [|b0 chunk0]; [injection H as <- <- <-; rewrite app_nil_r; by exists buf|].
  set (chunk := b0 :: chunk0) in *. change (received buf (chunk :: chunks)) with
    (let '(msgs, rem, closed) := frames_of (buf ++ chunk)%list in
     if closed then (msgs, rem, true) else let '(msgs', rem', closed') := received rem chunks in ((msgs ++ msgs')%list, rem', closed')) in H.
  change (until_end (chunk :: chunks)) with (chunk :: until_end chunks). cbn [concat].
  destruct (frames_of (buf ++ chunk)%list) as [[ms l] c] eqn:E. rewrite app_assoc. unfold frames_of in E.
  rewrite (frames_more _ _ (concat (until_end chunks)) _ _ _ (Nat.lt_succ_diag_r _) E). destruct c; [injection H as <- <- <-; by exists (l ++ concat (until_end chunks))%list|].
  destruct (received l chunks) as [[ms' l'] c'] eqn:Er. injection H as <- <- <-.
  assert (Hl : frames_of l = ([], l, false)).
  { pose proof (frames_more _ _ [] _ _ _ (Nat.lt_succ_diag_r _) E) as Hm. rewrite !app_nil_r in Hm. unfold frames_of at 1 in Hm. rewrite E in Hm.
    destruct (frames_of l) as [[ms2 l2] c2]. injection Hm as H1 -> ->. by rewrite <- (app_nil_r ms) in H1 at 1; apply app_inv_head in H1 as <-. }
  destruct (IH l ms' l' c' Er Hl) as (rem' & -> & Hleft). by exists rem'.
Qed.

Lemma frames_of_messages msgs :
  Forall (fun m => (Z.of_nat HEADER_SIZE <= Z.of_nat (length m) <= MAX_MSG_SIZE)%Z /\ le_u32_at m 0 = Z.of_nat (length m)) msgs ->
  forall fuel, length (concat msgs) < fuel -> frames fuel (concat msgs) = (msgs, [], false).
Proof.
  induction 1 as [|m msgs [Hl Hm] _ IH]; intros [|fuel] Hf; try (cbn in Hf; lia); [done|]. cbn [concat] in *. rewrite length_app in Hf. unfold HEADER_SIZE in Hl.
  cbn [frames]. replace (next_message (m ++ concat msgs)%list) with (Message m (concat msgs)); [rewrite IH by lia; done|]. symmetry.
  pose proof (next_message_more m (concat msgs)) as H. assert (E : next_message m = Message m []).
  { unfold next_message, HEADER_SIZE. destruct (Nat.ltb_spec (length m) 4); [lia|]. rewrite Hm.
    destruct (Z.ltb_spec (Z.of_nat (length m)) (Z.of_nat 16)); [lia|]. destruct (Z.ltb_spec MAX_MSG_SIZE (Z.of_nat (length m))); [lia|].
    cbn [orb]. rewrite Z.ltb_irrefl, Nat2Z.id. by rewrite firstn_all, drop_all. }
  by rewrite E in H.
Qed.

(** C19: the messages a connection handles do not depend on how their bytes are cut by the network: they are those of the bytes put
    together, up to the end of the stream; a sequence of messages, each of the length its header says, is handled
    message by message, with nothing left and the connection open. *)
Theorem chunks_do_not_matter chunks :
  (forall msgs rem closed, received [] chunks = (msgs, rem, closed) ->
     exists rem', frames_of (concat (until_end chunks)) = (msgs, rem', closed) /\ (closed = false -> rem' = rem)) /\
  (forall msgs, concat (until_end chunks) = concat msgs ->
     Forall (fun m => (Z.of_nat HEADER_SIZE <= Z.of_nat (length m) <= MAX_MSG_SIZE)%Z /\ le_u32_at m 0 = Z.of_nat (length m)) msgs ->
     received [] chunks = (msgs, [], false)).
Proof.
  assert (H0 : frames_of [] = ([], [], false)) by done. split; [intros msgs rem closed H; by apply (received_frames chunks [] msgs rem closed)|].
  intros msgs Hc Hm. destruct (received [] chunks) as [[ms rem] closed] eqn:E.
  destruct (received_frames chunks [] ms rem closed E H0) as (rem' & H1 & H2). cbn [app] in H1. rewrite Hc in H1.
  unfold frames_of in H1. rewrite (frames_of_messages msgs Hm) in H1 by lia. injection H1 as <- <- <-. by rewrite (H2 eq_refl).
Qed.

(** ** A command *)

(** The exceptions a command ends with. *)

(** Source: smongo-py/src/wire_dispatch.rs:413-491 (map_handler_error). *)
Definition map_handler_error (e : pyerr) : result dict pyerr :=
  match e with
  | NamespaceError msg => Ok (make_error "InvalidNamespace" msg)
  | TooManySessions msg => Ok (error_response 261 "TooManyLogicalSessions" msg)
  | TransactionError msg => Ok (error_response 251 "NoSuchTransaction" msg)
  | DuplicateKeyError msg => Ok (error_response 11000 "DuplicateKey" msg)
  | ValidationError msg => Ok (error_response 121 "DocumentValidationFailure" msg)
  | NotImplementedError msg => Ok (make_error "CommandNotSupported" msg)
  | StorageError msg => Ok (error_response 1 "InternalError" msg)
  | TypeError msg | ValueError msg | PythonError msg => Ok (error_response 1 "InternalError" msg)
  | other => Err other
  end.

(** What a connection keeps: its user, the compressor agreed on, and the number of the next response. *)
Record conn : Type := { auth : auth_state; compressor_id : option Z; req_id_gen : Z }.

Definition new_conn : conn := {| auth := new_auth; compressor_id := None; req_id_gen := 1 |}.

Definition with_auth (c : conn) (a : auth_state) : conn :=
  {| auth := a; compressor_id := compressor_id c; req_id_gen := req_id_gen c |}.

(** What a message finds in its surroundings: random bytes, the clocks, and what [hello] tells of the process. *)
Record moment : Type := {
  nonce : bytes; new_salt : bytes; new_oid : string; persisted : result unit pyerr;
  operation_time : pyval; local_time : pyval; topology_pid : pyval; connection_id : Z }.

Definition sequences : Type := list (string * list dict).

Section Server.
Context {B : BsonOps} {P : PyEnv} {WE : WireEnv} {C : Crypto}.

(** The rest of the server's state, the commands not modelled here, and the registry of sessions. *)
Context {W : Type} (other_handler : string -> option (W -> auth_state -> dict -> sequences -> W * result dict pyerr))
  (touch : W -> pyval -> W * result unit pyerr)
  (py_eq : pyval -> pyval -> bool) (store_order : list (string * dict) -> list (string * dict)).

Record world : Type := { users : user_store; rest : W }.

(** Source: smongo-py/src/wire_msg.rs:441-443 (available_compressors). *)
Definition available_compressors : list string := ["snappy"; "zlib"; "zstd"].

(** Source: smongo-py/src/wire_msg.rs:20-21 (COMPRESSOR_IDS). *)
Definition compressor_of (name : string) : option Z :=
  if name =s? "noop" then Some 0%Z else if name =s? "snappy" then Some 1%Z else if name =s? "zlib" then Some 2%Z
  else if name =s? "zstd" then Some 3%Z else None.

Definition int64 (n : Z) : pyval := PyInt64 n.

(** [bool] of [dict_get_bool]. *)
Definition dict_get_bool (d : dict) (k : string) : bool := match get_item d k with Some v => is_truthy v | None => false end.

(** Source: smongo-py/src/wire_commands/handshake.rs:86-102 (cmd_hello). What a user may authenticate with. *)
Definition sasl_mechs (w : world) (cmd : dict) : option pyval :=
  match get_item cmd "saslSupportedMechs" with
  | None => None
  | Some ssm =>
      let all := PyList [PyStr "SCRAM-SHA-1"; PyStr "SCRAM-SHA-256"] in
      match users w !! (match ssm with PyStr s => s | _ => "" end) with
      | Some doc => Some (match get_item doc "mechanisms" with Some m => m | None => all end)
      | None => Some all
      end
  end.

(** Source: smongo-py/src/wire_commands/handshake.rs:23-104 (cmd_hello). *)
Definition cmd_hello (m : moment) (w : world) (c : conn) (cmd : dict) : conn * result dict pyerr :=
  match (match get_item cmd "compression" with
         | Some (PyList l) => map_result extract_str l
         | _ => Ok []
         end) with
  | Err e => (c, Err e)
  | Ok offered =>
      let compressors := List.filter (fun n => Rbac.str_mem n available_compressors) offered in
      let cid := match compressor_id c, compressors with
                 | None, first :: _ => compressor_of first
                 | kept, _ => kept
                 end in
      let resp :=
        [(KStr "ismaster", PyBool true); (KStr "isWritablePrimary", PyBool true);
         (KStr "topologyVersion", PyDict [(KStr "processId", topology_pid m); (KStr "counter", int64 0)]);
         (KStr "maxBsonObjectSize", PyInt (16 * 1024 * 1024)); (KStr "maxMessageSizeBytes", PyInt (48 * 1024 * 1024));
         (KStr "maxWriteBatchSize", PyInt 100000); (KStr "localTime", local_time m);
         (KStr "logicalSessionTimeoutMinutes", PyInt 30); (KStr "connectionId", PyInt (connection_id m));
         (KStr "minWireVersion", PyInt 0); (KStr "maxWireVersion", PyInt 21); (KStr "readOnly", PyBool false);
         (KStr "ok", PyFloat f64_one)] in
      let resp := if (length compressors =? 0)%nat then resp else set_item resp "compression" (PyList (map PyStr compressors)) in
      let resp := if dict_get_bool cmd "helloOk" then set_item resp "helloOk" (PyBool true) else resp in
      let resp := match sasl_mechs w cmd with Some v => set_item resp "saslSupportedMechs" v | None => resp end in
      ({| auth := auth c; compressor_id := cid; req_id_gen := req_id_gen c |}, Ok resp)
  end.

(** Source: smongo-py/src/wire_commands/handshake.rs:497-509 (register). A command by its name: those of users and authentication, and the others. *)
Definition run_command (m : moment) (name : string) (w : world) (c : conn) (cmd : dict) (seqs : sequences)
  : option (world * conn * result dict pyerr) :=
  let on_auth r := let '(a, out) := r in Some (w, with_auth c a, out) in
  let on_users r := let '(u, out) := r in Some ({| users := u; rest := rest w |}, c, out) in
  if Rbac.str_mem name ["hello"; "ismaster"; "isMaster"] then let '(c, out) := cmd_hello m w c cmd in Some (w, c, out)
  else if name =s? "ping" then Some (w, c, Ok ok_dict)
  else if name =s? "saslStart" then on_auth (cmd_sasl_start (nonce m) (users w) (auth c) cmd)
  else if name =s? "saslContinue" then on_auth (cmd_sasl_continue (users w) (auth c) cmd)
  else if name =s? "logout" then on_auth (cmd_logout (auth c))
  else if name =s? "connectionStatus" then Some (w, c, Ok (cmd_connection_status (auth c)))
  else if name =s? "createUser" then on_users (cmd_create_user (new_salt m) (new_oid m) (persisted m) (users w) cmd)
  else if name =s? "dropUser" then on_users (cmd_drop_user (users w) cmd)
  else if name =s? "updateUser" then on_users (cmd_update_user (new_salt m) (users w) cmd)
  else if name =s? "grantRolesToUser" then on_users (cmd_grant_roles_to_user py_eq (users w) cmd)
  else if name =s? "revokeRolesFromUser" then on_users (cmd_revoke_roles_from_user py_eq (users w) cmd)
  else if name =s? "usersInfo" then Some (w, c, Ok (cmd_users_info store_order (users w) cmd))
  else
    match other_handler name with
    | None => None
    | Some h => let '(r, out) := h (rest w) (auth c) cmd seqs in Some ({| users := users w; rest := r |}, c, out)
    end.

(** Source: smongo-py/src/wire_dispatch.rs:375-393 (rs_dispatch). The times every response carries. *)
Definition with_times (m : moment) (resp : dict) : dict :=
  let sig := PyDict [(KStr "hash", PyBinary (repeat x00 20) x00); (KStr "keyId", int64 0)] in
  set_item (set_item resp "operationTime" (operation_time m)) "$clusterTime"
    (PyDict [(KStr "clusterTime", operation_time m); (KStr "signature", sig)]).

(** Source: smongo-py/src/wire_dispatch.rs:135-394 (rs_dispatch). *)
Definition rs_dispatch (m : moment) (w : world) (c : conn) (command_doc : dict) (seqs : sequences)
  : world * conn * result dict pyerr :=
  let cmd := match get_item command_doc "$db" with Some _ => command_doc | None => set_item command_doc "$db" (PyStr "test") end in
  let '(w, touched) :=
    match get_item cmd "lsid" with
    | Some PyNone | None => (w, Ok tt)
    | Some v => let '(r, out) := touch (rest w) v in ({| users := users w; rest := r |}, out)
    end in
  match touched with
  | Err e => (w, c, Err e)
  | Ok _ =>
      match cmd with
      | [] => (w, c, Ok (make_error "CommandNotFound" "empty command document"))
      | (KOther, _) :: _ => (w, c, Err (TypeError "object cannot be cast as 'str'"))
      | (KStr name, _) :: _ =>
          match run_command m name w c cmd seqs with
          | None => (w, c, Ok (make_error "CommandNotFound" ("no such command: '" ++ name ++ "'")))
          | Some (w, c, out) =>
              (w, c, let? resp := (match out with Ok r => Ok r | Err e => map_handler_error e end) in Ok (with_times m resp))
          end
      end
  end.

(** ** A message *)

(** [let resp_id = *req_id_gen as i32; *req_id_gen += 1;]. *)
Definition next_id (c : conn) : conn * Z :=
  ({| auth := auth c; compressor_id := compressor_id c; req_id_gen := wrap_i64 (req_id_gen c + 1) |}, wrap_i32 (req_id_gen c)).

(** A response made of a document. *)
Definition reply (c : conn) (response_to : Z) (doc : dict) : conn * result (option bytes) pyerr :=
  let '(c, id) := next_id c in (c, let? b := encode_msg id response_to doc false in Ok (Some b)).

(** Source: smongo-py/src/wire_server.rs:452-505 (handle_message). A message of the kind [OP_MSG]. *)
Definition handle_op_msg (auth_required : bool) (m : moment) (w : world) (c : conn) (msg_data : bytes)
  : world * conn * result (option bytes) pyerr :=
  match decode_msg msg_data with
  | Err (PyPanic p) => (w, c, Err (PyPanic p))
  | Err _ => let '(c, out) := reply c 0 (make_error "InternalError" "OP_MSG decode error") in (w, c, out)
  | Ok (header, flags, body, seqs) =>
      match (if auth_required then check_auth_gate (auth c) body else None) with
      | Some refusal => let '(c, out) := reply c (request_id header) refusal in (w, c, out)
      | None =>
          match body with
          | None => (w, c, Err (TypeError "object cannot be cast as 'dict'"))
          | Some cmd =>
              let '(w, c, out) := rs_dispatch m w c cmd seqs in
              match out with
              | Err e => (w, c, Err e)
              | Ok response =>
                  if negb (Z.land flags 2 =? 0)%Z then (w, c, Ok None)
                  else
                    let '(c, id) := next_id c in
                    (w, c,
                     let? resp_bytes := encode_msg id (request_id header) response false in
                     let? resp_bytes := match compressor_id c with None => Ok resp_bytes | Some cid => encode_compressed resp_bytes cid end in
                     Ok (Some resp_bytes))
              end
          end
      end
  end.

Definition hello_cmd : dict := [(KStr "hello", PyInt 1); (KStr "helloOk", PyBool true); (KStr "$db", PyStr "admin")].

(** [v.extract::<f64>()], when it is 0. *)
Definition is_zero (v : option pyval) : bool :=
  match v with
  | Some (PyInt n) | Some (PyInt64 n) => (n =? 0)%Z
  | Some (PyFloat f) => f64_eqb f f64_zero
  | Some (PyBool b) => negb b
  | _ => false
  end.

(** Source: smongo-py/src/wire_server.rs:528-606 (handle_message). A message of the kind [OP_QUERY]. *)
Definition handle_op_query (auth_required : bool) (m : moment) (w : world) (c : conn) (msg_data : bytes)
  : world * conn * result (option bytes) pyerr :=
  match decode_query msg_data with
  | Err e => (w, c, Err e)
  | Ok (header, _, _, _, _, query) =>
      let is_handshake := existsb (fun k => match get_item query k with None | Some PyNone => false | Some _ => true end)
        ["isMaster"; "ismaster"; "hello"] in
      match (if auth_required && negb is_handshake then check_auth_gate (auth c) (Some query) else None) with
      | Some refusal => let '(c, out) := reply c (request_id header) refusal in (w, c, out)
      | None =>
          let '(w, c, out) := rs_dispatch m w c (if is_handshake then hello_cmd else query) [] in
          match out with
          | Err e => (w, c, Err e)
          | Ok response =>
              let '(c, id) := next_id c in
              let response_flags := if is_zero (get_item response "ok") then 2%Z else 0%Z in
              (w, c, let? b := encode_reply id (request_id header) [PyDict response] 0 0 response_flags in Ok (Some b))
          end
      end
  end.

(** Source: smongo-py/src/wire_server.rs:431-619 (handle_message). A compressed message is handled by the function itself. *)
Fixpoint handle_message (fuel : nat) (auth_required : bool) (m : moment) (w : world) (c : conn) (msg_data : bytes) (op : Z)
  : world * conn * result (option bytes) pyerr :=
  match fuel with
  | O => (w, c, Err out_of_fuel)
  | S fuel =>
      if (op =? OP_MSG)%Z then handle_op_msg auth_required m w c msg_data
      else if (op =? OP_COMPRESSED)%Z then
        match decode_compressed msg_data with
        | Err (PyPanic p) => (w, c, Err (PyPanic p))
        | Err _ => let '(c, out) := reply c 0 (make_error "InternalError" "OP_COMPRESSED decode error") in (w, c, out)
        | Ok inner => handle_message fuel auth_required m w c inner (le_i32_at inner 12)
        end
      else if (op =? OP_QUERY)%Z then handle_op_query auth_required m w c msg_data
      else
        let '(c, out) := reply c 0 (make_error "CommandNotSupported" ("unsupported opcode: " ++ Z_to_string op)) in (w, c, out)
  end.

(** ** What a message can change *)

(** What a client that is not a user can do to the rest of the server: name a session, and send the exempt commands. *)
Inductive quiet : W -> W -> Prop :=
| quiet_touch r v : quiet r (fst (touch r v))
| quiet_exempt r name h a cmd seqs : In name AUTH_EXEMPT_COMMANDS -> other_handler name = Some h -> quiet r (fst (h r a cmd seqs)).

(** The command a message carries, compressed or not. *)
Fixpoint command_of (fuel : nat) (msg_data : bytes) (op : Z) : option (option dict) :=
  match fuel with
  | O => None
  | S fuel =>
      if (op =? OP_MSG)%Z then match decode_msg msg_data with Ok (_, _, body, _) => Some body | Err _ => None end
      else if (op =? OP_COMPRESSED)%Z then
        match decode_compressed msg_data with Ok inner => command_of fuel inner (le_i32_at inner 12) | Err _ => None end
      else if (op =? OP_QUERY)%Z then match decode_query msg_data with Ok (_, _, _, _, _, query) => Some (Some query) | Err _ => None end
      else None
  end.

(** The effect of a message: on the user of its connection, at most a step of authentication; on the users and the rest of the server, nothing
    that matters unless what it carries passed the gate as a command that is not exempt. *)
Definition auth_moves (w : world) (c c' : conn) : Prop :=
  auth c' = auth c \/ auth_step (fun s => s = users w) (auth c) (auth c').

Definition quiet_world (w w' : world) : Prop := users w' = users w /\ rtc quiet (rest w) (rest w').

Lemma quiet_refl w : quiet_world w w.
Proof. by split. Qed.

Lemma hello_auth m w c cmd : auth (fst (cmd_hello m w c cmd)) = auth c.
Proof. unfold cmd_hello. by destruct (match get_item cmd "compression" with Some (PyList l) => _ | _ => _ end). Qed.

Ltac not_exempt := intros Hexempt; exfalso; revert Hexempt; vm_compute; intuition discriminate.

Lemma run_command_effect m name w c cmd seqs w' c' out : run_command m name w c cmd seqs = Some (w', c', out) ->
  auth_moves w c c' /\ (In name AUTH_EXEMPT_COMMANDS -> quiet_world w w').
Proof.
  unfold run_command. destruct (Rbac.str_mem name _).
  { pose proof (hello_auth m w c cmd) as Hh. destruct (cmd_hello m w c cmd) as [c1 o]. intros [= <- <- <-]. split; [by left|done]. }
  repeat (match goal with |- context [name =s? ?k] => destruct (String.eqb_spec name k) as [->|_] end).
  - intros [= <- <- <-]. split; [by left|done].
  - pose proof (step_start (fun s => s = users w) (nonce m) (users w) (auth c) cmd eq_refl) as Hs.
    destruct (cmd_sasl_start _ _ _ _) as [a o]. intros [= <- <- <-]. split; [by right|done].
  - pose proof (step_continue (fun s => s = users w) (users w) (auth c) cmd eq_refl) as Hs.
    destruct (cmd_sasl_continue _ _ _) as [a o]. intros [= <- <- <-]. split; [by right|done].
  - intros [= <- <- <-]. split; [right; apply step_logout|done].
  - intros [= <- <- <-]. split; [by left|done].
  - destruct (cmd_create_user _ _ _ _ _) as [u o]. intros [= <- <- <-]. split; [by left|not_exempt].
  - destruct (cmd_drop_user _ _) as [u o]. intros [= <- <- <-]. split; [by left|not_exempt].
  - destruct (cmd_update_user _ _ _) as [u o]. intros [= <- <- <-]. split; [by left|not_exempt].
  - destruct (cmd_grant_roles_to_user _ _ _) as [u o]. intros [= <- <- <-]. split; [by left|not_exempt].
  - destruct (cmd_revoke_roles_from_user _ _ _) as [u o]. intros [= <- <- <-]. split; [by left|not_exempt].
  - intros [= <- <- <-]. split; [by left|done].
  - destruct (other_handler name) as [h|] eqn:Eh; [|done]. pose proof (quiet_exempt (rest w) name h (auth c) cmd seqs) as Hq.
    destruct (h (rest w) (auth c) cmd seqs) as [r o]. intros [= <- <- <-]. split; [by left|]. intros Hin. split; [done|]. apply rtc_once. by apply Hq.
Qed.

Lemma with_db_first cmd : In (first_dict_key (Some cmd)) AUTH_EXEMPT_COMMANDS ->
  first_dict_key (Some (match get_item cmd "$db" with Some _ => cmd | None => set_item cmd "$db" (PyStr "test") end)) = first_dict_key (Some cmd).
Proof.
  destruct (get_item cmd "$db"); [done|]. destruct cmd as [|[k v] cmd]; [not_exempt|]. intros _. destruct k as [s|]; cbn [set_item]; [|done].
  destruct (_ =s? _); reflexivity.
Qed.

Lemma dispatch_effect m w c cmd seqs w' c' out : rs_dispatch m w c cmd seqs = (w', c', out) ->
  auth_moves w c c' /\ (In (first_dict_key (Some cmd)) AUTH_EXEMPT_COMMANDS -> quiet_world w w').
Proof.
  unfold rs_dispatch. pose proof (with_db_first cmd) as Hdb. set (cmd' := match get_item cmd "$db" with Some _ => _ | None => _ end) in *.
  set (step := match get_item cmd' "lsid" with Some _ => _ | None => _ end). assert (Hq : quiet_world w (fst step)).
  { unfold step. destruct (get_item cmd' "lsid") as [v|]; [|apply quiet_refl]. pose proof (quiet_touch (rest w) v) as Ht.
    destruct v; try apply quiet_refl; destruct (touch _ _) as [r o]; (split; [done|by apply rtc_once]). }
  destruct step as [w1 touched]. cbn [fst] in Hq. destruct touched as [[]|e]; [|intros [= <- <- <-]; split; [by left|done]].
  destruct cmd' as [|[[name|] v] tail] eqn:Ecmd; [intros [= <- <- <-]; split; [by left|done]| |intros [= <- <- <-]; split; [by left|done]].
  destruct (run_command m name w1 c _ seqs) as [[[w2 c2] o]|] eqn:Er; [|intros [= <- <- <-]; split; [by left|done]].
  intros [= <- <- <-]. apply run_command_effect in Er as [Hauth Hw]. destruct Hq as [Hu Hr]. split; [by unfold auth_moves in *; rewrite <- Hu|].
  intros Hin. rewrite <- (Hdb Hin) in Hin. destruct (Hw Hin) as [Hu2 Hr2]. split; [by rewrite Hu2|by etransitivity].
Qed.

(** What a message that is not exempt has passed. *)
Definition gated (fuel : nat) (c : conn) (msg_data : bytes) (op : Z) : Prop :=
  exists body, command_of fuel msg_data op = Some body /\ check_auth_gate (auth c) body = None /\ ~ In (first_dict_key body) AUTH_EXEMPT_COMMANDS.

Ltac unmoved := split; [by left|left; apply quiet_refl].

Lemma reply_auth c to doc : auth (fst (reply c to doc)) = auth c.
Proof. reflexivity. Qed.

Lemma op_msg_effect m w c data w' c' out : handle_op_msg true m w c data = (w', c', out) ->
  auth_moves w c c' /\ (quiet_world w w' \/ gated 1 c data OP_MSG).
Proof.
  unfold handle_op_msg, gated. cbn [command_of]. change (OP_MSG =? OP_MSG)%Z with true. cbv beta iota.
  destruct (decode_msg data) as [[[[header flags] body] seqs]|e]; [|destruct e; intros [= <- <- <-]; unmoved].
  destruct (check_auth_gate (auth c) body) eqn:Eg; [intros [= <- <- <-]; unmoved|].
  destruct body as [cmd|]; [|intros [= <- <- <-]; unmoved]. destruct (rs_dispatch m w c cmd seqs) as [[w1 c1] o] eqn:Ed.
  apply dispatch_effect in Ed as [Ha Hw]. intros Hout.
  assert (H : w' = w1 /\ auth c' = auth c1) by (destruct o; [destruct (negb _)|]; injection Hout as <- <- <-; done). destruct H as [-> Hc].
  split; [by unfold auth_moves in *; rewrite Hc|]. destruct (in_dec string_dec (first_dict_key (Some cmd)) AUTH_EXEMPT_COMMANDS) as [Hin|Hin]; [left; by apply Hw|].
  right. by exists (Some cmd).
Qed.

Lemma op_query_effect m w c data w' c' out : handle_op_query true m w c data = (w', c', out) ->
  auth_moves w c c' /\ (quiet_world w w' \/ gated 1 c data OP_QUERY).
Proof.
  unfold handle_op_query, gated. cbn [command_of]. change (OP_QUERY =? OP_MSG)%Z with false. change (OP_QUERY =? OP_COMPRESSED)%Z with false.
  change (OP_QUERY =? OP_QUERY)%Z with true. cbv beta iota.
  destruct (decode_query data) as [[[[[[header flags] coll] skip] limit] query]|e]; [|intros [= <- <- <-]; unmoved].
  set (hs := existsb _ _). destruct (if true && negb hs then _ else _) eqn:Eg; [intros [= <- <- <-]; unmoved|].
  destruct (rs_dispatch m w c _ []) as [[w1 c1] o] eqn:Ed. apply dispatch_effect in Ed as [Ha Hw]. intros Hout.
  assert (H : w' = w1 /\ auth c' = auth c1) by (destruct o; injection Hout as <- <- <-; done). destruct H as [-> Hc].
  split; [by unfold auth_moves in *; rewrite Hc|]. destruct hs; [left; apply Hw; by left|]. cbn [andb negb] in Eg.
  destruct (in_dec string_dec (first_dict_key (Some query)) AUTH_EXEMPT_COMMANDS) as [Hin|Hin]; [left; by apply Hw|]. right. by exists (Some query).
Qed.

Lemma message_effect fuel : forall m w c data op w' c' out, handle_message fuel true m w c data op = (w', c', out) ->
  auth_moves w c c' /\ (quiet_world w w' \/ gated fuel c data op).
Proof.
  induction fuel as [|fuel IH]; intros m w c data op w' c' out; [intros [= <- <- <-]; unmoved|]. cbn [handle_message].
  destruct (Z.eqb_spec op OP_MSG) as [->|Hm]; [intros H; exact (op_msg_effect _ _ _ _ _ _ _ H)|].
  destruct (Z.eqb_spec op OP_COMPRESSED) as [->|Hc].
  { destruct (decode_compressed data) as [inner|e] eqn:Ed; [|destruct e; intros [= <- <- <-]; unmoved].
    intros H. apply IH in H as [Ha [Hq|Hg]]; (split; [done|]); [by left|right]. destruct Hg as (body & Hb & Hg).
    exists body. split; [|done]. cbn [command_of]. change (OP_COMPRESSED =? OP_MSG)%Z with false. change (OP_COMPRESSED =? OP_COMPRESSED)%Z with true. cbv beta iota. by rewrite Ed. }
  destruct (Z.eqb_spec op OP_QUERY) as [->|Hq]; [intros H; exact (op_query_effect _ _ _ _ _ _ _ H)|]. intros [= <- <- <-]. unmoved.
Qed.

(** *** A server and its connections *)

(** What all connections share, and each of them, with what it has known of its user, the latest first. *)
Record server : Type := { shared : world; conns : gmap nat (conn * list auth_state) }.

(** A connection comes, goes, or sends a message; a message is handled under the interpreter's lock, one at a time. *)
Inductive server_step : server -> server -> Prop :=
| accepts s i : conns s !! i = None -> server_step s {| shared := shared s; conns := <[i := (new_conn, [auth new_conn])]> (conns s) |}
| disconnects s i : server_step s {| shared := shared s; conns := delete i (conns s) |}
| serves s i c tr fuel m data w' c' out : conns s !! i = Some (c, tr) ->
    handle_message fuel true m (shared s) c data (le_i32_at data 12) = (w', c', out) ->
    server_step s {| shared := w'; conns := <[i := (c', auth c' :: tr)]> (conns s) |}.

Definition starting (w : world) : server := {| shared := w; conns := ∅ |}.

(** The stores of users the server has had since it started. *)
Definition had (w : world) (store : user_store) : Prop := exists s, rtc server_step (starting w) s /\ users (shared s) = store.

Lemma auth_step_weaken (S1 S2 : user_store -> Prop) a a' : (forall s, S1 s -> S2 s) -> auth_step S1 a a' -> auth_step S2 a a'.
Proof. intros H [nonce store st cmd Hs|store st cmd Hs|st]; [apply step_start|apply step_continue|apply step_logout]; by apply H. Qed.

(** The states of a connection are made by its own messages, over the stores the server had then. *)
Lemma served_trail w s : rtc server_step (starting w) s -> forall i c tr, conns s !! i = Some (c, tr) ->
  trail (had w) tr /\ exists before, tr = (auth c :: before)%list.
Proof.
  revert s. apply (rtc_ind_r (fun s => forall i c tr, conns s !! i = Some (c, tr) -> trail (had w) tr /\ exists before, tr = (auth c :: before)%list)); [done|].
  intros s1 s2 Hr Hstep IH j c tr Hj. destruct Hstep as [s i Hi|s i|s i c0 tr0 fuel m data w' c' out Hi Hm]; cbn [conns] in Hj.
  - apply lookup_insert_Some in Hj as [[-> [= <- <-]]|[_ Hj]]; [split; [constructor|by eexists]|by apply (IH j)].
  - apply lookup_delete_Some in Hj as [_ Hj]. by apply (IH j).
  - apply lookup_insert_Some in Hj as [[-> [= <- <-]]|[_ Hj]]; [|by apply (IH j)]. destruct (IH j c0 tr0 Hi) as [Ht (before & ->)].
    split; [|by eexists]. apply message_effect in Hm as [[->|Ha] _]; [by constructor|]. apply trail_step; [|done].
    apply (auth_step_weaken _ _ _ _ (fun s0 (E : s0 = _) => ex_intro _ s (conj Hr (eq_sym E))) Ha).
Qed.


(** *** Compression *)

Context {L : BsonLaws B} {O : BsonOrderLaws B} {F : BsonFrameLaws B} {WL : WireLaws B P} {EL : WireEnvLaws WE}.

(** C18: a message that a client compressed, with any of the compressors, is handled as the message itself: the same
    response, the same change of the connection and of the server. *)
Theorem compressed_handled_alike rid rto op payload cid packed fuel auth_required m w c :
  let msg := (header_bytes (Z.of_nat (HEADER_SIZE + length payload)) rid rto op ++ payload)%list in
  in_i32 rid -> in_i32 rto -> in_i32 op -> (Z.of_nat (length payload) <= MAX_MSG_SIZE)%Z ->
  encode_compressed msg cid = Ok packed -> (Z.of_nat (length packed) <= i32_max)%Z ->
  handle_message (S fuel) auth_required m w c packed (le_i32_at packed 12) = handle_message fuel auth_required m w c msg (le_i32_at msg 12).
Proof.
  intros msg H1 H2 H3 Hmax Henc Hlen. pose proof (compressed_roundtrip rid rto op payload cid packed H1 H2 H3 Hmax Henc Hlen) as Hback.
  rewrite (compressed_op _ _ _ Henc). cbn [handle_message]. change (OP_COMPRESSED =? OP_MSG)%Z with false. change (OP_COMPRESSED =? OP_COMPRESSED)%Z with true. cbv beta iota.
  by rewrite Hback.
Qed.
End Server.

(** ** Runs *)

Section Runs.
Import RefFrame RefPy RefWire RefCrypto.

(** A server with no commands but those above. *)
Definition no_handler (name : string) : option (unit -> auth_state -> dict -> sequences -> unit * result dict pyerr) := None.
Definition no_touch (w : unit) (v : pyval) : unit * result unit pyerr := (tt, Ok tt).
Definition same_value (a b : pyval) : bool := false.
Definition as_stored (l : list (string * dict)) : list (string * dict) := l.
Definition now : moment :=
  {| nonce := [x09]; new_salt := [x01; x02]; new_oid := "507f1f77bcf86cd799439011"; persisted := Ok tt; operation_time := PyNone;
     local_time := PyNone; topology_pid := PyNone; connection_id := 1 |}.
Abbreviation handle := (handle_message no_handler no_touch same_value as_stored).

Definition with_ada : @world unit := {| users := created ∅ "app" "ada" "pw" [role_doc "read" "app"]; rest := tt |}.

(** A message with one command. *)
Definition command_msg (d : dict) : bytes := msg_bytes 7 0 0 (x00 :: bytes_of d).
Definition drop_ada : dict := [(KStr "dropUser", PyStr "ada"); (KStr "$db", PyStr "app")].


Definition ping : dict := [(KStr "ping", PyInt 1); (KStr "$db", PyStr "admin")].
Definition ping_payload : bytes := (le_bytes 4 0 ++ x00 :: bytes_of ping)%list.
Definition ping_msg : bytes := (header_bytes (Z.of_nat (HEADER_SIZE + length ping_payload)) 7 0 OP_MSG ++ ping_payload)%list.

Lemma compressed_handled_alike_witness :
  exists packed resp, encode_compressed ping_msg COMPRESSOR_ZLIB = Ok packed /\
    snd (handle 2 true now with_ada new_conn packed OP_COMPRESSED) = Ok (Some resp) /\
    handle 2 true now with_ada new_conn packed OP_COMPRESSED = handle 1 true now with_ada new_conn ping_msg OP_MSG.
Proof.
  destruct (encode_compressed ping_msg COMPRESSOR_ZLIB) as [packed|e] eqn:E; [|vm_compute in E; discriminate E].
  assert (H : handle 2 true now with_ada new_conn packed OP_COMPRESSED = handle 1 true now with_ada new_conn ping_msg OP_MSG).
  { pose proof (compressed_handled_alike no_handler no_touch same_value as_stored 7 0 OP_MSG ping_payload COMPRESSOR_ZLIB packed 1 true now with_ada new_conn) as H.
    assert (Hp : le_i32_at packed 12 = OP_COMPRESSED /\ (Z.of_nat (length packed) <= i32_max)%Z)
      by (vm_compute in E; injection E as <-; vm_compute; split; [reflexivity|discriminate]). destruct Hp as [Hp1 Hp2]. rewrite Hp1 in H.
    apply H; [vm_compute; split; discriminate..|vm_compute; discriminate|exact E|exact Hp2]. }
  exists packed. eexists. split; [reflexivity|]. split; [rewrite H; vm_compute; reflexivity|exact H].
Defined.

Lemma chunks_do_not_matter_witness :
  received [] [take 3 ping_msg; drop 3 ping_msg ++ take 20 ping_msg; drop 20 ping_msg]%list = ([ping_msg; ping_msg], [], false).
Proof.
  apply (proj2 (chunks_do_not_matter [take 3 ping_msg; drop 3 ping_msg ++ take 20 ping_msg; drop 20 ping_msg]%list)); [vm_compute; reflexivity|].
  repeat constructor; vm_compute; discriminate.
Defined.

(** A message inside [n] compressed ones, none of which compresses: the payload, and the opcode. *)
Fixpoint nest (n : nat) (payload : bytes) : bytes * Z :=
  match n with
  | O => (payload, OP_MSG)
  | S n => let '(p, op) := nest n payload in ((le_bytes 4 op ++ le_bytes 4 (Z.of_nat (length p)) ++ le_bytes 1 COMPRESSOR_NOOP ++ p)%list, OP_COMPRESSED)
  end.

Definition nested (n : nat) (payload : bytes) : bytes :=
  let '(p, op) := nest n payload in (header_bytes (Z.of_nat (HEADER_SIZE + length p)) 7 0 op ++ p)%list.

Lemma nest_length n payload : length (fst (nest n payload)) = 9 * n + length payload.
Proof.
  induction n as [|n IH]; [done|]. cbn [nest]. destruct (nest n payload) as [p op]. cbn [fst] in *. rewrite !length_app, !le_bytes_length. lia.
Qed.

Lemma nest_op n payload : in_i32 (snd (nest n payload)).
Proof. destruct n as [|n]; [vm_compute; split; discriminate|]. cbn [nest]. destruct (nest n payload). vm_compute. split; discriminate. Qed.

Lemma nested_decode n payload : (Z.of_nat (9 * S n + length payload) <= MAX_MSG_SIZE)%Z -> decode_compressed (nested (S n) payload) = Ok (nested n payload).
Proof.
  intros Hlen. pose proof (nest_op n payload) as Hop. pose proof (nest_length n payload) as Hn. unfold nested. cbn [nest]. destruct (nest n payload) as [p op].
  cbn [fst snd] in *. unfold MAX_MSG_SIZE in Hlen. set (data := (_ ++ le_bytes 4 op ++ _)%list).
  assert (Hd : length data = HEADER_SIZE + (9 + length p)) by (unfold data; rewrite !length_app, header_length, !le_bytes_length; unfold HEADER_SIZE; lia).
  unfold data. rewrite !length_app, !le_bytes_length. rewrite decode_compressed_read; try done; try (unfold in_i32, i32_min, i32_max, HEADER_SIZE in *; lia).
  unfold decompress. destruct (Z.ltb_spec MAX_MSG_SIZE (Z.of_nat (length p))) as [H|_]; [unfold MAX_MSG_SIZE in H; lia|].
  change (COMPRESSOR_NOOP =? COMPRESSOR_NOOP)%Z with true. cbv beta iota. by rewrite wrap_i32_id by (unfold i32_min, i32_max, HEADER_SIZE; lia).
Qed.

(** A message can be nested in compressed ones as deep as its size allows, nine bytes a level, and the handling recurses at each: no bound on the
    depth suffices for all messages. *)
Theorem nested_compression_recurses n payload auth_required m w c : (Z.of_nat (9 * n + length payload) <= MAX_MSG_SIZE)%Z ->
  handle n auth_required m w c (nested n payload) (le_i32_at (nested n payload) 12) = (w, c, Err out_of_fuel) /\
  length (nested n payload) = HEADER_SIZE + 9 * n + length payload.
Proof.
  intros Hlen. split; [|unfold nested; pose proof (nest_length n payload) as H; destruct (nest n payload); cbn [fst] in H; rewrite length_app, header_length; lia].
  revert Hlen. induction n as [|n IH]; intros Hlen; [done|].
  assert (Hop : le_i32_at (nested (S n) payload) 12 = OP_COMPRESSED)
    by (unfold nested; cbn [nest]; destruct (nest n payload); apply header_op; vm_compute; split; discriminate).
  rewrite Hop. cbn [handle_message]. change (OP_COMPRESSED =? OP_MSG)%Z with false. change (OP_COMPRESSED =? OP_COMPRESSED)%Z with true. cbv beta iota.
  rewrite nested_decode by exact Hlen. apply IH. lia.
Qed.

(** An exception of a kind the dispatcher does not know is dropped with the message: the client gets no response. *)
Theorem unknown_exception_unanswered :
  let start := [(KStr "saslStart", PyInt 1); (KStr "mechanism", PyStr "SCRAM-SHA-256"); (KStr "payload", PyList [PyInt 300]); (KStr "$db", PyStr "app")] in
  snd (handle 1 true now with_ada new_conn (command_msg start) OP_MSG) = Err OverflowError.
Proof. vm_compute. reflexivity. Qed.
End Runs.
