(* ===== verification/WireTxn.v ===== *)
(** * Transactions over the wire

    [src/rust/smongo-py/src/wire_transactions.rs], the transactions of
    [ConnectionContext] in [wire_context.rs], and [wire_txn_begin],
    [wire_txn_commit] and [wire_txn_abort] of [RedbLocalClient] in
    [redb_client.rs], with the Python class [TransactionSession] that only
    passes them on: the engine's session that a transaction runs in is kept in
    one slot of the client, which the collections of every connection look at.
    The session is the one of [Redb].

    From its start to its end a transaction is all or nothing, whatever the
    connections of the server do meanwhile; while no commit of the storage
    fails, at most one logical session has a transaction that is active. *)

From Stdlib Require Import ZArith Lia Ascii String Strings.Byte List.
From S2P Require Import Prelude F64 Bson PyBson BTree Storage Accumulators Redb.
From stdpp Require Import base tactics list strings gmap.

Open Scope list_scope.
Open Scope string_scope.

(** ** The client *)

Section Client.
Context {R : RedbOps} {SE : StdEnv}.

(** Source: smongo-py/src/redb_client.rs:70-76 (RedbLocalClient). The database, whether the client is open, and the slot: what the session in
    it has buffered. *)
Record client : Type := { database : redb; opened : bool; txn_slot : option PendingWriteMap }.

(** The session of the slot. *)
Definition session_of (c : client) (pending : PendingWriteMap) : rstate :=
  {| r_db := database c; r_in_transaction := true; r_pending := pending |}.

(** [.map_err(|e| PyRuntimeError::new_err(e.to_string()))]. *)
Definition storage_failure {X} (r : result X StorageError) : result X pyerr :=
  match r with Ok x => Ok x | Err e => Err (PythonError ("Storage error: " ++ storage_error_display e)) end.

(** Source: smongo-py/src/redb_client.rs:101-117 (wire_txn_begin). *)
Definition wire_txn_begin (c : client) : client * result unit pyerr :=
  if negb (opened c) then (c, Err (PythonError "client closed"))
  else
    match txn_slot c with
    | Some _ => (c, Err (PythonError "transaction already in progress"))
    | None =>
        match redb_begin_transaction (open_session (database c)) with
        | (_, Err e) => (c, storage_failure (Err e))
        | (ts, Ok _) => ({| database := r_db ts; opened := opened c; txn_slot := Some (r_pending ts) |}, Ok tt)
        end
    end.

(** Source: smongo-py/src/redb_client.rs:119-127 (wire_txn_commit). The slot is emptied whatever comes of the commit. *)
Definition wire_txn_commit (c : client) : client * result unit pyerr :=
  match txn_slot c with
  | None => (c, Err (PythonError "no transaction in progress"))
  | Some pending =>
      let '(ts, r) := redb_commit_transaction (session_of c pending) in
      ({| database := r_db ts; opened := opened c; txn_slot := None |}, storage_failure r)
  end.

(** Source: smongo-py/src/redb_client.rs:129-137 (wire_txn_abort). *)
Definition wire_txn_abort (c : client) : client * result unit pyerr :=
  match txn_slot c with
  | None => (c, Err (PythonError "no transaction in progress"))
  | Some pending =>
      let '(ts, r) := redb_rollback_transaction (session_of c pending) in
      ({| database := r_db ts; opened := opened c; txn_slot := None |}, storage_failure r)
  end.

(** Source: smongo-py/src/redb_client.rs:787-800 (insert_one). What an operation of a collection does to a session happens in the session of the
    slot when there is one, whoever the caller is, and in a session of its own when not. *)
Definition in_session {X} (f : rstate -> rstate * X) (c : client) : client * X :=
  match txn_slot c with
  | Some pending =>
      let '(ts, x) := f (session_of c pending) in
      ({| database := r_db ts; opened := opened c; txn_slot := Some (r_pending ts) |}, x)
  | None =>
      let '(s, x) := f (open_session (database c)) in
      ({| database := r_db s; opened := opened c; txn_slot := None |}, x)
  end.

(** ** A connection *)

(** Source: smongo-py/src/wire_transactions.rs:22-27 (TransactionState). *)
Inductive TransactionState : Type := NONE | ACTIVE | COMMITTED | ABORTED.

#[export] Instance TransactionState_eq : EqDecision TransactionState.
Proof. solve_decision. Defined.

(** Source: smongo-py/src/wire_transactions.rs:31-41 (SessionTransaction). *)
Record SessionTransaction : Type := { txn_state : TransactionState; txn_number : Z }.

Definition with_state (t : SessionTransaction) (s : TransactionState) : SessionTransaction :=
  {| txn_state := s; txn_number := txn_number t |}.

(** What a connection finds: the client and the numbers of the process, and its own transactions by logical session. *)
Record env : Type := { env_client : client; txn_number_gen : Z; txn_sessions : gmap string SessionTransaction }.

Definition with_client (e : env) (c : client) : env :=
  {| env_client := c; txn_number_gen := txn_number_gen e; txn_sessions := txn_sessions e |}.

Definition put_txn (e : env) (c : client) (key : string) (t : SessionTransaction) : env :=
  {| env_client := c; txn_number_gen := txn_number_gen e; txn_sessions := <[key := t]> (txn_sessions e) |}.

Definition is_active (o : option SessionTransaction) : bool :=
  match o with Some t => bool_decide (txn_state t = ACTIVE) | None => false end.

(** Source: smongo-py/src/wire_context.rs:627-649 (start_transaction). *)
Definition start_transaction (key : string) (e : env) : env * result SessionTransaction pyerr :=
  if is_active (txn_sessions e !! key) then (e, Err (TransactionError "Transaction already in progress on this session"))
  else
    match wire_txn_begin (env_client e) with
    | (c, Err x) => (with_client e c, Err x)
    | (c, Ok _) =>
        let txn := {| txn_state := ACTIVE; txn_number := txn_number_gen e |} in
        ({| env_client := c; txn_number_gen := wrap_i64 (txn_number_gen e + 1); txn_sessions := <[key := txn]> (txn_sessions e) |}, Ok txn)
    end.

(** Source: smongo-py/src/wire_context.rs:651-665 (get_transaction). *)
Definition get_transaction (key : option string) (e : env) : option SessionTransaction :=
  match key with
  | None => None
  | Some key => if is_active (txn_sessions e !! key) then txn_sessions e !! key else None
  end.

Definition no_transaction : pyerr := TransactionError "No transaction in progress".

(** Source: smongo-py/src/wire_transactions.rs:58-71 (commit_active_transaction). The state is left as it is when the commit fails. *)
Definition commit_active_transaction (c : client) (txn : option SessionTransaction) : client * result SessionTransaction pyerr :=
  match txn with
  | None => (c, Err no_transaction)
  | Some t =>
      if negb (bool_decide (txn_state t = ACTIVE)) then (c, Err no_transaction)
      else
        match wire_txn_commit c with
        | (c, Err x) => (c, Err x)
        | (c, Ok _) => (c, Ok (with_state t COMMITTED))
        end
  end.

(** Source: smongo-py/src/wire_transactions.rs:74-86 (abort_active_transaction). *)
Definition abort_active_transaction (c : client) (txn : option SessionTransaction) : client * result SessionTransaction pyerr :=
  match txn with
  | None => (c, Err no_transaction)
  | Some t =>
      if negb (bool_decide (txn_state t = ACTIVE)) then (c, Err no_transaction)
      else
        match wire_txn_abort c with
        | (c, Err x) => (c, Err x)
        | (c, Ok _) => (c, Ok (with_state t ABORTED))
        end
  end.

(** What becomes of a transaction is seen through every reference to it. *)
Definition finish (key : string) (e : env) (r : client * result SessionTransaction pyerr) : env * result unit pyerr :=
  match r with
  | (c, Err x) => (with_client e c, Err x)
  | (c, Ok t) => (put_txn e c key t, Ok tt)
  end.

(** Source: smongo-py/src/wire_context.rs:667-684 (commit_transaction). *)
Definition commit_transaction (key : string) (e : env) : env * result unit pyerr :=
  finish key e (commit_active_transaction (env_client e) (txn_sessions e !! key)).

(** Source: smongo-py/src/wire_context.rs:686-699 (abort_transaction). *)
Definition abort_transaction (key : string) (e : env) : env * result unit pyerr :=
  finish key e (abort_active_transaction (env_client e) (txn_sessions e !! key)).

(** ** The connections of a server *)

Record wire : Type := { wclient : client; wgen : Z; contexts : gmap nat (gmap string SessionTransaction) }.

(** What the connections do: a collection is opened, which creates its table, and a row of a table is written, in the session of the slot when
    there is one; what drops and renames collections ([drop_collection], [rename_collection] of the client) and the writes of an aggregation
    ([$out], [$merge]) use sessions of their own, whatever the slot holds. *)
Inductive action : Type :=
| Connect (i : nat)
| Disconnect (i : nat)
| Start (i : nat) (key : string)
| Commit (i : nat) (key : string)
| Abort (i : nat) (key : string)
| Open (table : string)
| Write (table : string) (op : PendingWrite)
| DropTable (table : string)
| RenameTable (from to : string)
| WriteBeside (table : string) (op : PendingWrite).

(** The actions that look at the slot. *)
Definition through_slot (a : action) : bool :=
  match a with DropTable _ | RenameTable _ _ | WriteBeside _ _ => false | _ => true end.

Definition on_conn {X} (w : wire) (i : nat) (f : env -> env * result X pyerr) : wire * result unit pyerr :=
  match contexts w !! i with
  | None => (w, Ok tt)
  | Some sessions =>
      let '(e, r) := f {| env_client := wclient w; txn_number_gen := wgen w; txn_sessions := sessions |} in
      ({| wclient := env_client e; wgen := txn_number_gen e; contexts := <[i := txn_sessions e]> (contexts w) |},
       match r with Ok _ => Ok tt | Err x => Err x end)
  end.

Definition on_client (w : wire) (f : rstate -> rstate * result unit StorageError) : wire * result unit pyerr :=
  let '(c, r) := in_session f (wclient w) in ({| wclient := c; wgen := wgen w; contexts := contexts w |}, storage_failure r).

(** In a session of its own. *)
Definition beside (w : wire) (f : rstate -> rstate * result unit StorageError) : wire * result unit pyerr :=
  let '(s, r) := f (open_session (database (wclient w))) in
  ({| wclient := {| database := r_db s; opened := opened (wclient w); txn_slot := txn_slot (wclient w) |}; wgen := wgen w; contexts := contexts w |},
   storage_failure r).

Definition act (a : action) (w : wire) : wire * result unit pyerr :=
  match a with
  | Connect i =>
      match contexts w !! i with
      | Some _ => (w, Ok tt)
      | None => ({| wclient := wclient w; wgen := wgen w; contexts := <[i := ∅]> (contexts w) |}, Ok tt)
      end
  | Disconnect i => ({| wclient := wclient w; wgen := wgen w; contexts := delete i (contexts w) |}, Ok tt)
  | Start i key => on_conn w i (start_transaction key)
  | Commit i key => on_conn w i (commit_transaction key)
  | Abort i key => on_conn w i (abort_transaction key)
  | Open t => on_client w (redb_create_table t)
  | Write t op => on_client w (do_write (open_cursor t) op)
  | DropTable t => beside w (redb_drop_table t)
  | RenameTable from to => beside w (redb_rename_table from to)
  | WriteBeside t op => beside w (do_write (open_cursor t) op)
  end.

Fixpoint run (acts : list action) (w : wire) : wire :=
  match acts with [] => w | a :: acts => run acts (fst (act a w)) end.

(** The slot is taken all along. *)
Fixpoint busy (acts : list action) (w : wire) : bool :=
  is_some (txn_slot (wclient w)) && match acts with [] => true | a :: acts => busy acts (fst (act a w)) end.

(** The writes to a table, in order. *)
Fixpoint writes_to (t : string) (acts : list action) : list PendingWrite :=
  match acts with
  | [] => []
  | Write u op :: acts => if u =s? t then op :: writes_to t acts else writes_to t acts
  | _ :: acts => writes_to t acts
  end.

Definition active_at (w : wire) (i : nat) (key : string) : Prop :=
  exists sessions, contexts w !! i = Some sessions /\ is_active (sessions !! key) = true.
End Client.

(** ** All or nothing *)

Section Laws.
Context {R : RedbOps} {SE : StdEnv} {RL : RedbLaws R} {SL : StdLaws SE}.
Local Open Scope list_scope.

(** The rows of a table, as committed. *)
Definition committed (w : wire) (t : string) : TableStore := table_rows (view (database (wclient w))) t.

Lemma create_table_rows (s : store) n t : store_ok s -> table_rows (create_table s n) t = table_rows s t.
Proof.
  intros [Hs _]. unfold create_table. destruct (bt_get s n) eqn:E; [done|]. rewrite table_rows_put by done. case_decide as H; [|done]. subst.
  unfold table_rows. by rewrite E.
Qed.

(** Creating a table leaves the buffered writes and the rows as they are. *)
Lemma create_keeps n st st' r : redb_create_table n st = (st', r) ->
  r_pending st' = r_pending st /\ forall t, table_rows (view (r_db st')) t = table_rows (view (r_db st)) t.
Proof.
  unfold redb_create_table, in_write_txn. destruct (begin_write (r_db st)) as [x|] eqn:Eb; cbn [other map_err]; [|by intros [= <- <-]].
  unfold open_or_other. destruct (w_open x n) as [y|] eqn:Eo; cbn [map_err]; [|by intros [= <- <-]].
  destruct (w_commit y) as [d|] eqn:Ec; cbn [other map_err]; [|by intros [= <- <-]]. intros [= <- <-]. split; [done|]. intros t. cbn [with_db r_db].
  rewrite (commit_view _ _ Ec), (open_view _ _ _ Eo), (begin_view _ _ Eb). apply create_table_rows, view_ok.
Qed.

(** A step while the slot is taken, after which it still is. *)
Lemma busy_step a w p : through_slot a = true -> txn_slot (wclient w) = Some p -> List.NoDup (map fst p) -> is_some (txn_slot (wclient (fst (act a w)))) = true ->
  exists p', txn_slot (wclient (fst (act a w))) = Some p' /\ List.NoDup (map fst p') /\
    (forall t, committed (fst (act a w)) t = committed w t) /\ forall t, ops_of p' t = ops_of p t ++ writes_to t [a].
Proof.
  intros Hthrough Hp Hnd. assert (Hsame : forall w', wclient w' = wclient w -> forall ws, (forall t, ws t = []) ->
    exists p', txn_slot (wclient w') = Some p' /\ List.NoDup (map fst p') /\ (forall t, committed w' t = committed w t) /\
      forall t, ops_of p' t = ops_of p t ++ ws t).
  { intros w' E ws Hws. exists p. unfold committed. rewrite E. split_and!; [done|done|done|]. intros t. by rewrite Hws, app_nil_r. }
  destruct a as [i|i|i key|i key|i key|n|n op|n|n n2|n op]; cbn [act writes_to]; try discriminate Hthrough.
  - destruct (contexts w !! i); intros _; by apply Hsame.
  - intros _. by apply Hsame.
  - unfold on_conn. destruct (contexts w !! i) as [ss|]; [|intros _; by apply Hsame]. unfold start_transaction. cbn [env_client txn_sessions].
    destruct (is_active _); [intros _; by apply Hsame|]. unfold wire_txn_begin. rewrite Hp. destruct (negb _); intros _; by apply Hsame.
  - unfold on_conn. destruct (contexts w !! i) as [ss|]; [|intros _; by apply Hsame]. unfold commit_transaction, commit_active_transaction, wire_txn_commit.
    cbn [env_client txn_sessions]. destruct (ss !! key) as [t|]; [|intros _; by apply Hsame]. destruct (negb _); [intros _; by apply Hsame|].
    rewrite Hp. destruct (redb_commit_transaction _) as [ts [x|e]]; done.
  - unfold on_conn. destruct (contexts w !! i) as [ss|]; [|intros _; by apply Hsame]. unfold abort_transaction, abort_active_transaction, wire_txn_abort.
    cbn [env_client txn_sessions]. destruct (ss !! key) as [t|]; [|intros _; by apply Hsame]. destruct (negb _); [intros _; by apply Hsame|]. by rewrite Hp.
  - unfold on_client, in_session. rewrite Hp. destruct (redb_create_table n _) as [ts r] eqn:E. apply create_keeps in E as [E1 E2]. intros _.
    exists p. cbn [session_of r_pending r_db] in *. cbn [fst wclient txn_slot]. split_and!; [by f_equal|done|exact E2|]. intros t. by rewrite app_nil_r.
  - unfold on_client, in_session. rewrite Hp. unfold do_write, session_of. cbn [r_in_transaction r_pending r_db]. intros _. cbn [fst wclient txn_slot].
    exists (push_pending p n op). split_and!; [done|by apply push_keys|done|]. intros t. change (table_name (open_cursor n)) with n. rewrite ops_of_push.
    case_decide as H; [subst; by rewrite String.eqb_refl|]. apply not_eq_sym, String.eqb_neq in H. by rewrite H, app_nil_r.
Qed.

Lemma busy_run acts : forallb through_slot acts = true -> forall w p, txn_slot (wclient w) = Some p -> List.NoDup (map fst p) -> busy acts w = true ->
  exists p', txn_slot (wclient (run acts w)) = Some p' /\ List.NoDup (map fst p') /\
    (forall t, committed (run acts w) t = committed w t) /\ forall t, ops_of p' t = ops_of p t ++ writes_to t acts.
Proof.
  induction acts as [|a acts IH]; intros Hth w p Hp Hnd Hb; cbn [run busy forallb] in *.
  { exists p. split_and!; try done. intros t. by rewrite app_nil_r. }
  apply andb_true_iff in Hth as [Ha Hth]. specialize (IH Hth). apply andb_true_iff in Hb as [_ Hb]. assert (Hs : is_some (txn_slot (wclient (fst (act a w)))) = true) by (destruct acts; apply andb_true_iff in Hb; tauto).
  destruct (busy_step a w p Ha Hp Hnd Hs) as (p1 & H1 & H2 & H3 & H4). destruct (IH _ p1 H1 H2 Hb) as (p' & -> & Hn & Hc & Ho).
  exists p'. split_and!; [done|done|intros t; by rewrite Hc|]. intros t. rewrite Ho, H4, <- app_assoc. f_equal. by destruct a; cbn; try (destruct (_ =s? _)).
Qed.

Lemma commit_active w i key p : txn_slot (wclient w) = Some p -> active_at w i key ->
  let '(ts, r) := redb_commit_transaction (session_of (wclient w) p) in
  wclient (fst (act (Commit i key) w)) = {| database := r_db ts; opened := opened (wclient w); txn_slot := None |} /\
  snd (act (Commit i key) w) = storage_failure r.
Proof.
  intros Hp (ss & Hi & Ha). cbn [act]. unfold on_conn. rewrite Hi. unfold commit_transaction, commit_active_transaction. cbn [env_client txn_sessions].
  unfold is_active in Ha. destruct (ss !! key) as [t|]; [|done]. rewrite Ha. cbn [negb]. unfold wire_txn_commit. rewrite Hp.
  destruct (redb_commit_transaction _) as [ts [[]|e]]; done.
Qed.

Lemma abort_active w i key p : txn_slot (wclient w) = Some p -> active_at w i key ->
  wclient (fst (act (Abort i key) w)) = {| database := database (wclient w); opened := opened (wclient w); txn_slot := None |} /\
  snd (act (Abort i key) w) = Ok tt.
Proof.
  intros Hp (ss & Hi & Ha). cbn [act]. unfold on_conn. rewrite Hi. unfold abort_transaction, abort_active_transaction. cbn [env_client txn_sessions].
  unfold is_active in Ha. destruct (ss !! key) as [t|]; [|done]. rewrite Ha. cbn [negb]. unfold wire_txn_abort. by rewrite Hp.
Qed.

(** C14: a transaction takes its writes together. From its start, and while the connections,
    this one and the others, start, commit or abort transactions, open collections and write
    documents in any order that does not end it, the committed rows stay as they were; a commit
    by a session whose transaction is active then makes each table the one it was with the
    writes since the start, whoever made them, applied in order, all of them or, when it fails,
    none; an abort leaves the rows as they were; and either way the slot is free again. Dropping
    and renaming collections, [$out] and [$merge] are outside the claim: they do not look at the
    slot and commit at once ([drop_ignores_transaction]). *)
Theorem wire_transaction_atomic w i key acts j key' :
  let w1 := fst (act (Start i key) w) in
  let w2 := run acts w1 in
  snd (act (Start i key) w) = Ok tt -> is_some (contexts w !! i) = true -> forallb through_slot acts = true -> busy acts w1 = true -> active_at w2 j key' ->
  (forall t, committed w2 t = committed w t) /\
  (let '(w3, r) := act (Commit j key') w2 in txn_slot (wclient w3) = None /\
     forall t, committed w3 t = if is_ok r then fold_left apply_op (writes_to t acts) (committed w t) else committed w t) /\
  (let '(w3, r) := act (Abort j key') w2 in txn_slot (wclient w3) = None /\ r = Ok tt /\ forall t, committed w3 t = committed w t).
Proof.
  intros w1 w2 Hstart Hi Hth Hbusy Hact.
  assert (H1 : txn_slot (wclient w1) = Some [] /\ database (wclient w1) = database (wclient w)).
  { unfold w1. revert Hstart. cbn [act]. unfold on_conn. destruct (contexts w !! i) as [ss|]; [|done]. unfold start_transaction. cbn [env_client txn_sessions].
    destruct (is_active _); [done|]. unfold wire_txn_begin. destruct (negb _); [done|]. by destruct (txn_slot (wclient w)). }
  destruct H1 as [Hslot Hdb]. destruct (busy_run acts Hth w1 [] Hslot ltac:(constructor) Hbusy) as (p & Hp & Hnd & Hc & Ho). fold w2 in Hp, Hc.
  assert (Hcw : forall t, committed w2 t = committed w t) by (intros t; rewrite Hc; unfold committed; by rewrite Hdb). split; [exact Hcw|]. split.
  - pose proof (commit_active w2 j key' p Hp Hact) as H. destruct (commit_spec (session_of (wclient w2) p) Hnd) as (d & r & E & Hr). rewrite E in H.
    destruct (act (Commit j key') w2) as [w3 out]. cbn [fst snd] in H. destruct H as [Hw ->]. split; [by rewrite Hw|]. intros t.
    unfold committed at 1. rewrite Hw. cbn [database open_session r_db]. destruct r as [[]|e]; cbn [storage_failure is_ok].
    + rewrite Hr. unfold session_rows, session_of. cbn [r_pending r_db]. rewrite Ho. by rewrite <- (Hcw t).
    + rewrite Hr. cbn [session_of r_db]. exact (Hcw t).
  - pose proof (abort_active w2 j key' p Hp Hact) as [Hw Hr]. destruct (act (Abort j key') w2) as [w3 out]. cbn [fst snd] in *. subst out.
    split_and!; [by rewrite Hw|done|]. intros t. rewrite <- Hcw. unfold committed. by rewrite Hw.
Qed.
End Laws.

(** ** One transaction at a time *)

Section Unique.
Context {R : RedbOps} {SE : StdEnv}.
Local Open Scope list_scope.

(** A step in which the storage does not refuse a commit. *)
Inductive smooth : wire -> wire -> Prop :=
| smooth_act a w : (forall i key, a = Commit i key -> is_some (txn_slot (wclient w)) = true -> txn_slot (wclient (fst (act a w))) = None ->
                      snd (act a w) = Ok tt) ->
    smooth w (fst (act a w)).

(** A server with no connection yet. *)
Definition fresh (d : redb) : wire := {| wclient := {| database := d; opened := true; txn_slot := None |}; wgen := 1; contexts := ∅ |}.

Record one_active (w : wire) : Prop := {
  active_slot : forall i k, active_at w i k -> is_some (txn_slot (wclient w)) = true;
  active_one : forall i k j k', active_at w i k -> active_at w j k' -> i = j /\ k = k' }.

Lemma active_put w c g i ss j k :
  active_at {| wclient := c; wgen := g; contexts := <[i := ss]> (contexts w) |} j k <->
  (j = i /\ is_active (ss !! k) = true) \/ (j <> i /\ active_at w j k).
Proof.
  unfold active_at. cbn [contexts]. destruct (decide (j = i)) as [->|Hne].
  - rewrite lookup_insert_eq. split; [intros (s & [= <-] & H); by left|]. intros [[_ H]|[H _]]; [by exists ss|done].
  - rewrite lookup_insert_ne by done. split; [intros H; by right|]. intros [[H _]|[_ H]]; [done|exact H].
Qed.

(** A step that makes nothing active and keeps the slot, or leaves nothing active, keeps the invariant. *)
Lemma one_active_less w w' : one_active w -> (forall i k, active_at w' i k -> active_at w i k) ->
  (is_some (txn_slot (wclient w)) = true -> is_some (txn_slot (wclient w')) = true) \/ (forall i k, ~ active_at w' i k) -> one_active w'.
Proof.
  intros [A1 A2] Hsub Hs. split.
  - intros i k H. destruct Hs as [Hs|Hs]; [by apply Hs, (A1 i k), Hsub|by apply Hs in H].
  - intros i k j k' H1 H2. by apply A2; apply Hsub.
Qed.

(** The end of a transaction: what it was in is no longer active, and nothing else was. *)
Lemma one_active_end w i ss key t c g : one_active w -> contexts w !! i = Some ss -> ss !! key = Some t -> txn_state t = ACTIVE ->
  forall s, s <> ACTIVE -> one_active {| wclient := c; wgen := g; contexts := <[i := <[key := with_state t s]> ss]> (contexts w) |}.
Proof.
  intros J Hi Hk Ht s Hs. assert (Hact : active_at w i key) by (exists ss; split; [done|]; rewrite Hk; cbn; by rewrite Ht).
  assert (Hinner : forall k, is_active (<[key := with_state t s]> ss !! k) = true -> k <> key /\ is_active (ss !! k) = true).
  { intros k. destruct (decide (k = key)) as [->|Hne]; [rewrite lookup_insert_eq; cbn; by rewrite bool_decide_eq_false_2|].
    by rewrite lookup_insert_ne by done. }
  assert (Hsub : forall j k, active_at {| wclient := c; wgen := g; contexts := <[i := <[key := with_state t s]> ss]> (contexts w) |} j k ->
    active_at w j k /\ ~ (j = i /\ k = key)).
  { intros j k. rewrite active_put. intros [[-> H]|[Hne H]]; [apply Hinner in H as [Hne H]; split; [by exists ss|by intros [_ ?]]|split; [done|by intros [? _]]]. }
  apply (one_active_less w); [done|by intros j k H; apply Hsub|]. right. intros j k H. apply Hsub in H as [H Hne].
  apply Hne. by apply (active_one _ J).
Qed.

Lemma one_active_same w i ss c g : one_active w -> contexts w !! i = Some ss -> wclient w = c ->
  one_active {| wclient := c; wgen := g; contexts := <[i := ss]> (contexts w) |}.
Proof.
  intros J Hi <-. apply (one_active_less w); [done| |by left]. intros j k. rewrite active_put. intros [[-> H]|[_ H]]; [by exists ss|done].
Qed.

Lemma smooth_keeps w w' : smooth w w' -> one_active w -> one_active w'.
Proof.
  intros [a w0 Hok] J. destruct a as [i|i|i key|i key|i key|n|n op|n|n n2|n op]; cbn [act] in *.
  - destruct (contexts w0 !! i) eqn:E; [done|]. apply (one_active_less w0); [done| |by left]. intros j k. cbn [fst]. rewrite active_put.
    intros [[-> H]|[_ H]]; [by rewrite lookup_empty in H|done].
  - apply (one_active_less w0); [done| |by left]. intros j k (ss & H & Ha). cbn [fst contexts] in H. apply lookup_delete_Some in H as [_ H]. by exists ss.
  - unfold on_conn. destruct (contexts w0 !! i) as [ss|] eqn:Ei; [|done]. unfold start_transaction. cbn [env_client txn_sessions].
    destruct (is_active (ss !! key)); [by apply one_active_same|]. unfold wire_txn_begin. destruct (negb _); [by apply one_active_same|].
    destruct (txn_slot (wclient w0)) eqn:Es; [by apply one_active_same|]. cbn [redb_begin_transaction open_session r_db r_pending fst env_client txn_sessions].
    assert (Hnone : forall j k, ~ active_at w0 j k) by (intros j k H; apply (active_slot _ J) in H; by rewrite Es in H).
    assert (Hat : forall k, is_active (<[key := {| txn_state := ACTIVE; txn_number := wgen w0 |}]> ss !! k) = true -> k = key).
    { intros k. destruct (decide (k = key)) as [->|Hne]; [done|]. rewrite lookup_insert_ne by done. intros H. exfalso. apply (Hnone i k). by exists ss. }
    split; [done|]. intros i1 k1 j1 k1'. rewrite !active_put. intros [[-> H1]|[_ H1]] [[-> H2]|[_ H2]]; try (by apply Hnone in H1); try (by apply Hnone in H2).
    apply Hat in H1, H2. by subst.
  - specialize (Hok i key eq_refl). unfold on_conn in *. destruct (contexts w0 !! i) as [ss|] eqn:Ei; [|done].
    unfold commit_transaction, commit_active_transaction in *. cbn [env_client txn_sessions] in *.
    destruct (ss !! key) as [t|] eqn:Ek; [|by apply one_active_same]. destruct (negb _) eqn:Ea; [by apply one_active_same|].
    apply negb_false_iff, bool_decide_eq_true in Ea. unfold wire_txn_commit in *. destruct (txn_slot (wclient w0)) as [p|]; [|by apply one_active_same].
    destruct (redb_commit_transaction _) as [ts [[]|e]]; cbn [storage_failure finish] in *.
    + by apply (one_active_end w0 i ss key t).
    + by specialize (Hok eq_refl eq_refl).
  - unfold on_conn. destruct (contexts w0 !! i) as [ss|] eqn:Ei; [|done]. unfold abort_transaction, abort_active_transaction. cbn [env_client txn_sessions].
    destruct (ss !! key) as [t|] eqn:Ek; [|by apply one_active_same]. destruct (negb _) eqn:Ea; [by apply one_active_same|].
    apply negb_false_iff, bool_decide_eq_true in Ea. unfold wire_txn_abort. destruct (txn_slot (wclient w0)) as [p|]; [|by apply one_active_same].
    by apply (one_active_end w0 i ss key t).
  - apply (one_active_less w0); [done| |left]; unfold on_client, in_session; destruct (txn_slot (wclient w0)); destruct (redb_create_table _ _); done.
  - apply (one_active_less w0); [done| |left]; unfold on_client, in_session; destruct (txn_slot (wclient w0)); destruct (do_write _ _ _); done.
  - apply (one_active_less w0); [done| |left]; unfold beside; destruct (redb_drop_table _ _); done.
  - apply (one_active_less w0); [done| |left]; unfold beside; destruct (redb_rename_table _ _ _); done.
  - apply (one_active_less w0); [done| |left]; unfold beside; destruct (do_write _ _ _); done.
Qed.

(** C15: while the storage refuses no commit, at most one logical session of one connection has
    an active transaction, and while one has, the slot that holds the only storage session with
    a transaction is taken. (The slot does not record who took it, so that the writes of every
    connection go through it.) *)
Theorem one_transaction d w : rtc smooth (fresh d) w ->
  (forall i k, active_at w i k -> is_some (txn_slot (wclient w)) = true) /\
  (forall i k j k', active_at w i k -> active_at w j k' -> i = j /\ k = k').
Proof.
  intros H. assert (J : one_active (fresh d)) by (split; intros i k; [|intros j k']; intros (ss & Hi & _); cbn in Hi; by rewrite lookup_empty in Hi).
  assert (Jw : one_active w) by (revert J; induction H as [|x y z Hxy _ IH]; [done|]; intros Jx; by apply IH, (smooth_keeps x)).
  split; [apply (active_slot _ Jw)|apply (active_one _ Jw)].
Qed.
End Unique.

(** ** A connection that is lost *)

Section Orphan.
Context {R : RedbOps} {SE : StdEnv} {RL : RedbLaws R} {SL : StdLaws SE}.
Local Open Scope list_scope.

(** The slot is taken and nobody is there to free it. *)
Definition orphaned (w : wire) : Prop := is_some (txn_slot (wclient w)) = true /\ forall i k, ~ active_at w i k.

Lemma orphaned_same w i ss c g : orphaned w -> contexts w !! i = Some ss -> wclient w = c ->
  orphaned {| wclient := c; wgen := g; contexts := <[i := ss]> (contexts w) |}.
Proof.
  intros [H1 H2] Hi <-. split; [done|]. intros j k. rewrite active_put. intros [[-> H]|[_ H]]; [apply (H2 i k); by exists ss|by apply H2 in H].
Qed.

Lemma orphaned_step a w : orphaned w -> orphaned (fst (act a w)).
Proof.
  intros J. pose proof J as [H1 H2]. destruct a as [i|i|i key|i key|i key|n|n op|n|n n2|n op]; cbn [act].
  - destruct (contexts w !! i) eqn:E; [done|]. split; [done|]. intros j k. cbn [fst]. rewrite active_put. intros [[-> H]|[_ H]]; [by rewrite lookup_empty in H|by apply H2 in H].
  - split; [done|]. intros j k (ss & H & Ha). cbn [fst contexts] in H. apply lookup_delete_Some in H as [_ H]. apply (H2 j k). by exists ss.
  - unfold on_conn. destruct (contexts w !! i) as [ss|] eqn:Ei; [|done]. unfold start_transaction. cbn [env_client txn_sessions].
    destruct (is_active _); [by apply orphaned_same|]. unfold wire_txn_begin. destruct (negb _); [by apply orphaned_same|].
    destruct (txn_slot (wclient w)); [by apply orphaned_same|done].
  - unfold on_conn. destruct (contexts w !! i) as [ss|] eqn:Ei; [|done]. unfold commit_transaction, commit_active_transaction. cbn [env_client txn_sessions].
    destruct (ss !! key) as [t|] eqn:Ek; [|by apply orphaned_same]. destruct (negb _) eqn:Ea; [by apply orphaned_same|].
    exfalso. apply (H2 i key). exists ss. split; [done|]. rewrite Ek. by apply negb_false_iff in Ea.
  - unfold on_conn. destruct (contexts w !! i) as [ss|] eqn:Ei; [|done]. unfold abort_transaction, abort_active_transaction. cbn [env_client txn_sessions].
    destruct (ss !! key) as [t|] eqn:Ek; [|by apply orphaned_same]. destruct (negb _) eqn:Ea; [by apply orphaned_same|].
    exfalso. apply (H2 i key). exists ss. split; [done|]. rewrite Ek. by apply negb_false_iff in Ea.
  - unfold on_client, in_session. destruct (txn_slot (wclient w)); [|done]. by destruct (redb_create_table _ _).
  - unfold on_client, in_session. destruct (txn_slot (wclient w)); [|done]. by destruct (do_write _ _ _).
  - unfold beside. by destruct (redb_drop_table _ _).
  - unfold beside. by destruct (redb_rename_table _ _ _).
  - unfold beside. by destruct (do_write _ _ _).
Qed.

Lemma orphaned_run acts : forall w, orphaned w -> orphaned (run acts w) /\ busy acts w = true.
Proof.
  induction acts as [|a acts IH]; intros w J; cbn [run busy]; [split; [done|]; by rewrite (proj1 J)|].
  destruct (IH _ (orphaned_step a w J)) as [H1 H2]. split; [done|]. by rewrite (proj1 J), H2.
Qed.

(** A connection that is lost while its transaction is active leaves it in the slot, and there is no way to end it: from then on every start of a
    transaction is refused, and no row that any connection writes to a collection is ever committed. *)
Theorem lost_connection_blocks d acts i key : forallb through_slot acts = true ->
  let w := run acts (run [Connect 0; Start 0 "s"; Disconnect 0] (fresh d)) in
  (forall t, committed w t = committed (fresh d) t) /\
  (is_some (contexts w !! i) = true -> exists e, snd (act (Start i key) w) = Err e).
Proof.
  set (w0 := run [Connect 0; Start 0 "s"; Disconnect 0] (fresh d)). intros Hth w.
  assert (Hc0 : contexts w0 = ∅) by reflexivity. assert (J : orphaned w0) by (split; [done|]; intros j k (ss & H & _); by rewrite Hc0, lookup_empty in H).
  destruct (orphaned_run acts w0 J) as [[Hs _] Hb]. destruct (busy_run acts Hth w0 [] eq_refl ltac:(constructor) Hb) as (p & _ & _ & Hc & _). split.
  - intros t. unfold w. by rewrite Hc.
  - fold w in Hs. cbn [act]. unfold on_conn. destruct (contexts w !! i) as [ss|]; [|done]. intros _. unfold start_transaction. cbn [env_client txn_sessions].
    destruct (is_active _); [by eexists|]. unfold wire_txn_begin. destruct (negb _); [by eexists|]. destruct (txn_slot (wclient w)); [by eexists|done].
Qed.

(** A commit that the storage refuses empties the slot but leaves the transaction of its session active: the session cannot start another, and when
    another session has started one, committing again commits the writes of that session. *)
Theorem refused_commit_takes_next w i key p e : txn_slot (wclient w) = Some p -> active_at w i key ->
  snd (redb_commit_transaction (session_of (wclient w) p)) = Err e ->
  let w1 := fst (act (Commit i key) w) in
  active_at w1 i key /\ txn_slot (wclient w1) = None /\
  forall j key' acts ops, j <> i -> is_some (contexts w1 !! j) = true -> ~ active_at w1 j key' -> opened (wclient w) = true ->
    acts = map (fun '(t, op) => Write t op) ops ->
    let w2 := run acts (fst (act (Start j key') w1)) in
    active_at w2 j key' /\ active_at w2 i key /\ is_some (txn_slot (wclient w2)) = true /\ txn_slot (wclient (fst (act (Commit i key) w2))) = None.
Proof.
  intros Hp Hact He w1. assert (Hact1 : active_at w1 i key /\ txn_slot (wclient w1) = None /\ opened (wclient w1) = opened (wclient w)).
  { destruct Hact as (ss & Hi & Ha). unfold w1. cbn [act]. unfold on_conn. rewrite Hi. unfold commit_transaction, commit_active_transaction. cbn [env_client txn_sessions].
    unfold is_active in Ha. destruct (ss !! key) as [t|] eqn:Ek; [|done]. rewrite Ha. cbn [negb]. unfold wire_txn_commit. rewrite Hp.
    destruct (redb_commit_transaction _) as [ts r]. cbn [snd] in He. subst r. cbn [storage_failure finish fst]. split_and!; [|done|done].
    apply active_put. left. split; [done|]. cbn [with_client txn_sessions]. by rewrite Ek. }
  destruct Hact1 as (A1 & A2 & A3). split_and!; [done|done|]. intros j key' acts ops Hne Hj Hnot Hopen -> w2.
  set (w' := fst (act (Start j key') w1)) in *.
  assert (A' : active_at w' j key' /\ active_at w' i key /\ is_some (txn_slot (wclient w')) = true).
  { unfold w'. cbn [act]. unfold on_conn. destruct (contexts w1 !! j) as [ss|] eqn:Ej; [|done]. unfold start_transaction. cbn [env_client txn_sessions].
    destruct (is_active (ss !! key')) eqn:Ea; [exfalso; apply Hnot; by exists ss|]. unfold wire_txn_begin. rewrite A2, A3, Hopen. cbn [negb].
    cbn [redb_begin_transaction fst]. split_and!; [|rewrite active_put; right; split; [congruence|done]|done].
    apply active_put. left. split; [done|]. cbn [txn_sessions]. rewrite lookup_insert_eq. cbn. by rewrite bool_decide_eq_true_2. }
  assert (A2' : active_at w2 j key' /\ active_at w2 i key /\ is_some (txn_slot (wclient w2)) = true).
  2:{ destruct A2' as (B1 & B2 & B3). split_and!; [done|done|done|]. destruct (txn_slot (wclient w2)) as [p2|] eqn:E2; [|done].
      pose proof (commit_active w2 i key p2 E2 B2) as H. destruct (redb_commit_transaction (session_of (wclient w2) p2)) as [ts r]. by rewrite (proj1 H). }
  clear -A'. unfold w2. revert A'. generalize w'. clear. induction ops as [|[t op] ops IH]; intros w A'; [done|]. cbn [map run]. apply IH.
  cbn [act]. unfold on_client, in_session. destruct (txn_slot (wclient w)); [|by destruct A' as (_ & _ & ?)]. destruct (do_write _ _ _). cbn [fst]. done.
Qed.
End Orphan.

(** ** Runs *)

Section Runs.
Import RefStd RefRedb.
Local Open Scope list_scope.

Definition two_connections : wire := run [Connect 0; Connect 1] (fresh letters).
Definition writes : list action := [Write "t" (PInsert (as_bytes "b") (as_bytes "2")); Start 1 "other"; Write "t" (PRemove (as_bytes "a"))].

Lemma wire_transaction_atomic_witness :
  let w2 := run writes (fst (act (Start 0 "s") two_connections)) in
  (forall t, committed w2 t = committed two_connections t) /\
  committed (fst (act (Commit 0 "s") w2)) "t" = fold_left apply_op (writes_to "t" writes) (committed two_connections "t").
Proof.
  intros w2. destruct (wire_transaction_atomic two_connections 0 "s" writes 0 "s") as (H1 & H2 & _).
  - vm_compute. reflexivity.
  - reflexivity.
  - reflexivity.
  - vm_compute. reflexivity.
  - eexists. split; vm_compute; reflexivity.
  - split; [exact H1|]. fold w2 in H2. assert (Hok : is_ok (snd (act (Commit 0 "s") w2)) = true) by (vm_compute; reflexivity).
    destruct (act (Commit 0 "s") w2) as [w3 r]. cbn [fst snd] in *. rewrite Hok in H2. exact (proj2 H2 "t").
Defined.

Lemma one_transaction_witness :
  let w := fst (act (Start 0 "s") two_connections) in active_at w 0 "s" /\ (forall key, active_at w 1 key -> False).
Proof.
  intros w. assert (Ha : active_at w 0 "s") by (eexists; split; vm_compute; reflexivity). split; [exact Ha|]. intros key H1.
  assert (Hr : rtc smooth (fresh letters) w).
  { eapply rtc_l; [apply (smooth_act (Connect 0) (fresh letters)); intros; discriminate|].
    eapply rtc_l; [apply (smooth_act (Connect 1)); intros; discriminate|]. apply rtc_once. apply (smooth_act (Start 0 "s")). intros; discriminate. }
  destruct (proj2 (one_transaction letters w Hr) 0 "s" 1 key Ha H1) as [H _]. discriminate H.
Defined.

(** What drops a table does not look at the slot: the rows are gone at once, in the middle of a transaction, and stay so when it is aborted. *)
Theorem drop_ignores_transaction :
  let w := run [Start 0 "s"; DropTable "t"; Abort 0 "s"] two_connections in
  map fst (committed two_connections "t") = [as_bytes "a"; as_bytes "c"] /\ committed w "t" = [].
Proof. vm_compute. split; reflexivity. Qed.
End Runs.
