(* ===== verification/Sessions.v ===== *)
(** * Logical sessions

    [src/rust/smongo-py/src/wire_sessions.rs] and
    [wire_commands/sessions.rs]: the registry of logical sessions that all
    connections share, with its bound and its expiry, and the commands of
    sessions and transactions.  An [Instant] is a number of nanoseconds, the
    argument [now]; [str] and the iteration of a Python object are arguments,
    and so is the [UUID] a session is created with.

    The registry keeps its bound, and a session that is in use is kept. *)

From Stdlib Require Import ZArith Lia Ascii String Strings.Byte List.
From S2P Require Import Prelude F64 Bson RefBson IndexKey LeBytes Spill PyBson Wire Scram Auth Accumulators Redb WireTxn.
From stdpp Require Import base tactics relations list strings gmap.
Import Users.

Open Scope list_scope.
Open Scope string_scope.

(** Source: smongo-py/src/wire_sessions.rs:15 (MAX_SESSIONS). *)
Definition MAX_SESSIONS : Z := 10000.

(** Source: smongo-py/src/wire_sessions.rs:23-27 (SessionEntry). *)
Record SessionEntry : Type := { session_id : pyval; created_at : Z; last_use : Z }.

(** Source: smongo-py/src/wire_sessions.rs:29-33 (Inner). *)
Record Inner : Type := { sessions : gmap string SessionEntry; timeout_secs : Z; max_sessions : Z }.

Definition with_sessions (r : Inner) (s : gmap string SessionEntry) : Inner :=
  {| sessions := s; timeout_secs := timeout_secs r; max_sessions := max_sessions r |}.

(** Source: smongo-py/src/wire_sessions.rs:69-79 (new). *)
Definition new_registry (timeout_minutes max_sessions : Z) : Inner :=
  {| sessions := ∅; timeout_secs := wrap_u64 (timeout_minutes * 60); max_sessions := max_sessions |}.

(** [Duration::from_secs], in nanoseconds. *)
Definition timeout (r : Inner) : Z := (timeout_secs r * 1000000000)%Z.

(** [now.duration_since(e.last_use) > timeout]; an earlier [now] is a duration of zero. *)
Definition idle (r : Inner) (now : Z) (e : SessionEntry) : bool := (timeout r <? Z.max 0 (now - last_use e))%Z.

Section Registry.
Context (py_str : pyval -> result string pyerr) (py_iter : pyval -> result (list pyval) pyerr).

(** Source: smongo-py/src/wire_sessions.rs:35-43 (extract_key). Also [session_key] of wire_context.rs. *)
Definition extract_key (lsid : pyval) : result string pyerr :=
  match lsid with
  | PyDict d => match get_item d "id" with Some v => py_str v | None => Ok "" end
  | v => py_str v
  end.

Definition used (e : SessionEntry) (now : Z) : SessionEntry :=
  {| session_id := session_id e; created_at := created_at e; last_use := now |}.

Definition new_entry (id : pyval) (now : Z) : SessionEntry := {| session_id := id; created_at := now; last_use := now |}.

(** [sessions.len()]. *)
Definition count (r : Inner) : Z := Z.of_nat (size (sessions r)).

(** Source: smongo-py/src/wire_sessions.rs:154-175 (create). *)
Definition create (now : Z) (sid : pyval) (r : Inner) : Inner * result pyval pyerr :=
  match py_str sid with
  | Err e => (r, Err e)
  | Ok key =>
      if (max_sessions r <=? count r)%Z then (r, Err (TooManySessions ("session limit " ++ Z_to_string (max_sessions r) ++ " reached")))
      else (with_sessions r (<[key := new_entry sid now]> (sessions r)), Ok sid)
  end.

(** Source: smongo-py/src/wire_sessions.rs:177-196 (touch). A new session is not registered when there is no room for it. *)
Definition touch (now : Z) (lsid : pyval) (r : Inner) : Inner * result unit pyerr :=
  match lsid with
  | PyNone => (r, Ok tt)
  | _ =>
      match extract_key lsid with
      | Err e => (r, Err e)
      | Ok key =>
          (match sessions r !! key with
           | Some entry => with_sessions r (<[key := used entry now]> (sessions r))
           | None => if (count r <? max_sessions r)%Z then with_sessions r (<[key := new_entry lsid now]> (sessions r)) else r
           end, Ok tt)
      end
  end.

(** A change for each of the ids, until one has no key. *)
Fixpoint for_ids (f : string -> Inner -> Inner) (ids : list pyval) (r : Inner) : Inner * result unit pyerr :=
  match ids with
  | [] => (r, Ok tt)
  | sid :: ids => match extract_key sid with Err e => (r, Err e) | Ok key => for_ids f ids (f key r) end
  end.

Definition over_ids (f : string -> Inner -> Inner) (session_ids : pyval) (r : Inner) : Inner * result unit pyerr :=
  match py_iter session_ids with Err e => (r, Err e) | Ok ids => for_ids f ids r end.

(** Source: smongo-py/src/wire_sessions.rs:198-208 (refresh). *)
Definition refresh (now : Z) (session_ids : pyval) (r : Inner) : Inner * result unit pyerr :=
  over_ids (fun key r => match sessions r !! key with
                         | Some entry => with_sessions r (<[key := used entry now]> (sessions r)) | None => r end) session_ids r.

(** Source: smongo-py/src/wire_sessions.rs:210-218 (end). *)
Definition end_ (session_ids : pyval) (r : Inner) : Inner * result unit pyerr :=
  over_ids (fun key r => with_sessions r (delete key (sessions r))) session_ids r.

(** Source: smongo-py/src/wire_sessions.rs:220-222 (kill). *)
Definition kill_sessions (session_ids : pyval) (r : Inner) : Inner * result unit pyerr := end_ session_ids r.

(** Source: smongo-py/src/wire_sessions.rs:224-237 (expire). Also the body of the reaper's loop, lines 117-129. *)
Definition expire (now : Z) (r : Inner) : Inner :=
  with_sessions r (base.filter (fun '(_, e) => idle r now e = false) (sessions r)).

(** Source: smongo-py/src/wire_sessions.rs:239-242 (expire_all). *)
Definition expire_all (r : Inner) : Inner := with_sessions r ∅.

(** ** Commands *)

(** Source: smongo-py/src/wire_commands/sessions.rs:12-30 (cmd_start_session). The session is registered under the text of a [UUID], of the bytes
    given, and named to the client by its bytes. *)
Definition cmd_start_session (now : Z) (uuid : bytes) (r : Inner) : Inner * result dict pyerr :=
  match create now (PyUuid uuid) r with
  | (r, Err e) => (r, Err e)
  | (r, Ok _) =>
      (r, Ok [(KStr "id", PyDict [(KStr "id", PyBinary uuid x04)]); (KStr "timeoutMinutes", PyInt 30); (KStr "ok", PyFloat f64_one)])
  end.

Definition ids_of (cmd : dict) (name : string) : pyval := match get_item cmd name with Some v => v | None => PyList [] end.

Definition ok_or (r : Inner * result unit pyerr) : Inner * result dict pyerr :=
  match r with (r, Err e) => (r, Err e) | (r, Ok _) => (r, Ok ok_dict) end.

(** Source: smongo-py/src/wire_commands/sessions.rs:32-44 (cmd_end_sessions). *)
Definition cmd_end_sessions (cmd : dict) (r : Inner) : Inner * result dict pyerr := ok_or (end_ (ids_of cmd "endSessions") r).

(** Source: smongo-py/src/wire_commands/sessions.rs:46-58 (cmd_refresh_sessions). *)
Definition cmd_refresh_sessions (now : Z) (cmd : dict) (r : Inner) : Inner * result dict pyerr :=
  ok_or (refresh now (ids_of cmd "refreshSessions") r).

(** Source: smongo-py/src/wire_commands/sessions.rs:60-72 (cmd_kill_sessions). *)
Definition cmd_kill_sessions (cmd : dict) (r : Inner) : Inner * result dict pyerr := ok_or (kill_sessions (ids_of cmd "killSessions") r).

(** Source: smongo-py/src/wire_commands/sessions.rs:74-83 (cmd_kill_all_sessions). *)
Definition cmd_kill_all_sessions (r : Inner) : Inner * result dict pyerr := (expire_all r, Ok ok_dict).

Section Transactions.
Context {R : RedbOps} {SE : StdEnv}.

(** The command of a transaction: it needs an [lsid]. *)
Definition txn_cmd {X} (name : string) (f : string -> env -> env * result X pyerr) (cmd : dict) (e : env) : env * result dict pyerr :=
  match get_item cmd "lsid" with
  | None | Some PyNone => (e, Ok (make_error "InvalidOptions" (name ++ " requires lsid")))
  | Some lsid =>
      match extract_key lsid with
      | Err x => (e, Err x)
      | Ok key => match f key e with (e, Err x) => (e, Err x) | (e, Ok _) => (e, Ok ok_dict) end
      end
  end.

(** Source: smongo-py/src/wire_commands/sessions.rs:85-100 (cmd_abort_txn). *)
Definition cmd_abort_txn : dict -> env -> env * result dict pyerr := txn_cmd "abortTransaction" abort_transaction.

(** Source: smongo-py/src/wire_commands/sessions.rs:102-117 (cmd_commit_txn). *)
Definition cmd_commit_txn : dict -> env -> env * result dict pyerr := txn_cmd "commitTransaction" commit_transaction.

(** Source: smongo-py/src/wire_commands/sessions.rs:119-134 (cmd_start_txn). *)
Definition cmd_start_txn : dict -> env -> env * result dict pyerr := txn_cmd "startTransaction" start_transaction.
End Transactions.

(** ** The registry over time *)

(** What is done to the registry, by a connection or by the reaper. *)
Inductive request : Type :=
| Create (sid : pyval) | Touch (lsid : pyval) | Refresh (ids : pyval) | End (ids : pyval) | Expire | ExpireAll.

Definition serve (now : Z) (q : request) (r : Inner) : Inner :=
  match q with
  | Create sid => fst (create now sid r)
  | Touch lsid => fst (touch now lsid r)
  | Refresh ids => fst (refresh now ids r)
  | End ids => fst (end_ ids r)
  | Expire => expire now r
  | ExpireAll => expire_all r
  end.

Definition serve_all (qs : list (Z * request)) (r : Inner) : Inner := fold_left (fun r '(now, q) => serve now q r) qs r.

(** *** The bound *)

Lemma size_put (m : gmap string SessionEntry) k e e' : m !! k = Some e -> size (<[k := e']> m) = size m.
Proof. intros H. by rewrite map_size_insert, H. Qed.

Lemma for_ids_inv (I : Inner -> Prop) f : (forall key r, I r -> I (f key r)) -> forall ids r, I r -> I (fst (for_ids f ids r)).
Proof. intros Hf. induction ids as [|sid ids IH]; intros r H; cbn [for_ids]; [done|]. destruct (extract_key sid); [by apply IH, Hf|done]. Qed.

Lemma over_ids_inv (I : Inner -> Prop) f ids r : (forall key r, I r -> I (f key r)) -> I r -> I (fst (over_ids f ids r)).
Proof. intros Hf H. unfold over_ids. destruct (py_iter ids); [by apply for_ids_inv|done]. Qed.

Lemma touch_cases now lsid r : exists key, fst (touch now lsid r) = r \/
  (extract_key lsid = Ok key /\ exists entry, sessions r !! key = Some entry /\ fst (touch now lsid r) = with_sessions r (<[key := used entry now]> (sessions r))) \/
  (sessions r !! key = None /\ (count r < max_sessions r)%Z /\ fst (touch now lsid r) = with_sessions r (<[key := new_entry lsid now]> (sessions r))).
Proof.
  unfold touch. assert (H : exists key, lsid = PyNone \/ extract_key lsid = Ok key \/ exists e, extract_key lsid = Err e)
    by (destruct (extract_key lsid) as [key|e]; [exists key; right; by left|exists ""; right; right; by exists e]).
  destruct H as (key & [->|[E|[e E]]]); exists key; [by left| |rewrite E; left; by destruct lsid].
  rewrite E. destruct (sessions r !! key) as [entry|] eqn:Ek.
  - destruct lsid; try (right; left; split; [done|]; by exists entry). by left.
  - destruct (Z.ltb_spec (count r) (max_sessions r)) as [Hc|Hc]; destruct lsid; try (by left); right; right; by split_and!.
Qed.

Definition bounded (r : Inner) : Prop := (count r <= max_sessions r)%Z.

Lemma serve_bounded now q r : bounded r -> bounded (serve now q r).
Proof.
  intros H. unfold bounded, count in *. destruct q as [sid|lsid|ids|ids| |]; cbn [serve].
  - unfold create. destruct (py_str sid) as [key|]; [|done]. destruct (Z.leb_spec (max_sessions r) (count r)) as [|Hc]; [done|]. cbn [fst with_sessions sessions max_sessions].
    unfold count in Hc. rewrite map_size_insert. destruct (sessions r !! key); unfold id; lia.
  - destruct (touch_cases now lsid r) as (key & [->|[(_ & entry & Hk & ->)|(Hk & Hc & ->)]]); [done| |]; cbn [with_sessions sessions max_sessions].
    + by rewrite (size_put _ _ entry).
    + unfold count in Hc. rewrite map_size_insert, Hk. lia.
  - apply (over_ids_inv (fun r => (Z.of_nat (size (sessions r)) <= max_sessions r)%Z)); [|done]. intros key r' H'.
    destruct (sessions r' !! key) as [entry|] eqn:Ek; [|done]. cbn [with_sessions sessions max_sessions]. by rewrite (size_put _ _ entry).
  - apply (over_ids_inv (fun r => (Z.of_nat (size (sessions r)) <= max_sessions r)%Z)); [|done]. intros key r' H'. cbn [with_sessions sessions max_sessions].
    rewrite map_size_delete. destruct (sessions r' !! key); unfold id; lia.
  - cbn [expire with_sessions sessions max_sessions]. pose proof (map_subseteq_size _ _ (map_filter_subseteq (fun '(_, e) => idle r now e = false) (sessions r))). lia.
  - cbn [expire_all with_sessions sessions max_sessions]. rewrite map_size_empty. pose proof (Nat2Z.is_nonneg (size (sessions r))). lia.
Qed.

Lemma serve_limits now q r : timeout_secs (serve now q r) = timeout_secs r /\ max_sessions (serve now q r) = max_sessions r.
Proof.
  assert (Hids : forall f ids, (forall key r', timeout_secs (f key r') = timeout_secs r' /\ max_sessions (f key r') = max_sessions r') ->
    timeout_secs (fst (over_ids f ids r)) = timeout_secs r /\ max_sessions (fst (over_ids f ids r)) = max_sessions r).
  { intros f ids Hf. apply (over_ids_inv (fun r' => timeout_secs r' = timeout_secs r /\ max_sessions r' = max_sessions r)); [|done].
    intros key r' [H1 H2]. destruct (Hf key r') as [H3 H4]. split; congruence. }
  destruct q as [sid|lsid|ids|ids| |]; cbn [serve]; [| |apply Hids|apply Hids|done|done].
  - unfold create. destruct (py_str sid); [|done]. by destruct (_ <=? _)%Z.
  - destruct (touch_cases now lsid r) as (key & [->|[(_ & e & _ & ->)|(_ & _ & ->)]]); done.
  - intros key r'. by destruct (sessions r' !! key).
  - done.
Qed.

(** *** Sessions in use *)

(** The requests that end a session by its name. *)
Definition ends (key : string) (q : request) : bool :=
  match q with
  | End ids => match py_iter ids with Ok l => existsb (fun sid => match extract_key sid with Ok k => k =s? key | Err _ => false end) l | Err _ => false end
  | ExpireAll => true
  | _ => false
  end.

(** A session is there, and has been used since [t]. *)
Definition since (t : Z) (key : string) (r : Inner) : Prop := exists e, sessions r !! key = Some e /\ (t <= last_use e)%Z.

Lemma since_put t key k e r : (t <= last_use e)%Z -> since t key r -> since t key (with_sessions r (<[k := e]> (sessions r))).
Proof.
  intros He (e' & Hk & Ht). unfold since. cbn [with_sessions sessions]. destruct (decide (k = key)) as [->|Hne].
  - exists e. by rewrite lookup_insert_eq.
  - exists e'. by rewrite lookup_insert_ne.
Qed.

Lemma end_keeps t key ids : existsb (fun sid => match extract_key sid with Ok k => k =s? key | Err _ => false end) ids = false -> forall r,
  since t key r -> since t key (fst (for_ids (fun key r => with_sessions r (delete key (sessions r))) ids r)).
Proof.
  induction ids as [|sid ids IH]; intros H r Hr; [done|]. cbn [for_ids existsb] in *. apply orb_false_iff in H as [H1 H2].
  destruct (extract_key sid) as [k|]; [|done]. apply IH; [done|]. destruct Hr as (e & Hk & Ht). exists e. split; [|done]. cbn [with_sessions sessions].
  rewrite lookup_delete_ne; [done|]. by apply String.eqb_neq.
Qed.

Lemma serve_since t key now q r : (t <= now <= t + timeout r)%Z -> ends key q = false -> since t key r -> since t key (serve now q r).
Proof.
  intros Hn Hq Hr. destruct q as [sid|lsid|ids|ids| |]; cbn [serve ends] in *.
  - unfold create. destruct (py_str sid); [|done]. destruct (_ <=? _)%Z; [done|]. apply since_put; [cbn; lia|done].
  - destruct (touch_cases now lsid r) as (k & [->|[(_ & e & _ & ->)|(_ & _ & ->)]]); [done|apply since_put; [cbn; lia|done]..].
  - apply (over_ids_inv (since t key)); [|done]. intros k r' H'. destruct (sessions r' !! k); [|done]. apply since_put; [cbn; lia|done].
  - unfold end_, over_ids. destruct (py_iter ids); [|done]. by apply end_keeps.
  - destruct Hr as (e & Hk & Ht). exists e. split; [|done]. cbn [expire with_sessions sessions]. apply map_lookup_filter_Some. split; [done|].
    unfold idle. apply Z.ltb_ge. lia.
  - done.
Qed.

(** C16: the registry never holds more sessions than its limit, and a session that is named, when it is known or there is room
    for it, stays for the whole of its timeout, whatever is asked of the registry
    meanwhile, unless it is ended by name or all sessions are. *)
Theorem session_stays r qs now lsid key later :
  bounded r -> lsid <> PyNone -> extract_key lsid = Ok key ->
  let r1 := serve_all qs r in
  (is_some (sessions r1 !! key) = true \/ (count r1 < max_sessions r1)%Z) ->
  Forall (fun '(t, q) => (now <= t <= now + timeout r)%Z /\ ends key q = false) later ->
  let r2 := serve_all later (serve now (Touch lsid) r1) in
  bounded r1 /\ bounded r2 /\ exists e, sessions r2 !! key = Some e /\ (now <= last_use e)%Z.
Proof.
  intros Hb Hne Hkey r1 Hroom Hlater r2. assert (Hall : forall qs r, bounded r -> bounded (serve_all qs r) /\ timeout (serve_all qs r) = timeout r).
  { clear. unfold serve_all. induction qs as [|[t q] qs IH]; intros r H; [done|]. cbn [fold_left]. destruct (IH (serve t q r) (serve_bounded t q r H)) as [H1 H2].
    split; [done|]. rewrite H2. unfold timeout. by rewrite (proj1 (serve_limits t q r)). }
  destruct (Hall qs r Hb) as [Hb1 Ht1]. fold r1 in Hb1, Ht1. pose proof (serve_bounded now (Touch lsid) r1 Hb1) as Hbt. split; [done|].
  split; [by apply Hall|]. assert (H0 : since now key (serve now (Touch lsid) r1)).
  { unfold since. cbn [serve touch]. destruct (sessions r1 !! key) as [e|] eqn:Ek.
    - exists (used e now). split; [|cbn; lia]. destruct lsid; try done; unfold touch; rewrite Hkey, Ek; apply lookup_insert_eq.
    - destruct Hroom as [|Hroom]; [done|]. exists (new_entry lsid now). split; [|cbn; lia]. apply Z.ltb_lt in Hroom.
      destruct lsid; try done; unfold touch; rewrite Hkey, Ek, Hroom; apply lookup_insert_eq. }
  assert (Ht2 : timeout (serve now (Touch lsid) r1) = timeout r) by (unfold timeout in *; by rewrite (proj1 (serve_limits _ _ _))).
  unfold r2. revert H0 Ht2. generalize (serve now (Touch lsid) r1). clear -Hlater. unfold serve_all.
  induction Hlater as [|[t q] later [Ht Hq] _ IH]; intros r' H0 Ht2; [exact H0|]. cbn [fold_left]. apply IH.
  - apply serve_since; [by rewrite Ht2|done|done].
  - unfold timeout in *. by rewrite (proj1 (serve_limits t q r')).
Qed.
End Registry.

(** ** Runs *)

(** A session is registered under the text of its [UUID], and the bytes its client sends back are another text: ending the session by the name the
    client was given does not end it. *)
Theorem started_session_not_ended py_str py_iter now u r r1 resp k1 k2 :
  py_str (PyUuid u) = Ok k1 -> py_str (PyBytes u) = Ok k2 -> k1 <> k2 -> (forall l, py_iter (PyList l) = Ok l) ->
  cmd_start_session py_str now u r = (r1, Ok resp) ->
  let cmd := [(KStr "endSessions", PyList [PyDict [(KStr "id", PyBytes u)]])] in
  snd (cmd_end_sessions py_str py_iter cmd r1) = Ok ok_dict /\
  sessions (fst (cmd_end_sessions py_str py_iter cmd r1)) !! k1 = Some (new_entry (PyUuid u) now).
Proof.
  intros H1 H2 Hne Hit Hs cmd. unfold cmd_start_session, create in Hs. rewrite H1 in Hs. destruct (_ <=? _)%Z; [done|]. injection Hs as <- _.
  unfold cmd_end_sessions, end_, over_ids, ids_of, cmd. cbn [get_item]. change ("endSessions" =s? "endSessions") with true. cbv beta iota. rewrite Hit.
  cbn [for_ids extract_key get_item]. change ("id" =s? "id") with true. cbv beta iota. rewrite H2. cbn [ok_or fst snd with_sessions sessions]. split; [done|].
  rewrite lookup_delete_ne by congruence. apply lookup_insert_eq.
Qed.

Section Runs.

(** Python's [str] of a string, a number and a truth value; iteration of a list. *)
Definition text (v : pyval) : result string pyerr :=
  match v with
  | PyStr s => Ok s
  | PyInt n => Ok (Z_to_string n)
  | PyBool b => Ok (if b then "True" else "False")
  | _ => Err (TypeError "str")
  end.
Definition elements (v : pyval) : result (list pyval) pyerr :=
  match v with PyList l => Ok l | _ => Err (TypeError "object is not iterable") end.

Definition lsid (n : Z) : pyval := PyDict [(KStr "id", PyInt n)].

Lemma session_stays_witness :
  let r := serve_all text elements [(0, Touch (lsid 1)); (5, Expire)]%Z (new_registry 30 2) in
  exists e, sessions (serve_all text elements [(20, Expire); (30, End (PyList [lsid 1])); (1800 * 10 ^ 9, Expire)]%Z
    (serve text elements 10 (Touch (lsid 7)) r)) !! "7" = Some e /\ (10 <= last_use e)%Z.
Proof.
  intros r. refine (proj2 (proj2 (session_stays text elements (new_registry 30 2) [(0, Touch (lsid 1)); (5, Expire)]%Z 10 (lsid 7) "7"
    [(20, Expire); (30, End (PyList [lsid 1])); (1800 * 10 ^ 9, Expire)]%Z _ _ _ _ _))).
  - vm_compute. discriminate.
  - discriminate.
  - reflexivity.
  - right. vm_compute. reflexivity.
  - repeat constructor; vm_compute; discriminate.
Defined.
End Runs.
