(* ===== verification/Namespace.v ===== *)
(** * Namespaces

    [validate_namespace] of [src/rust/smongo-py/src/wire_context.rs], which
    every command that names a collection goes through.  [str::trim] and the
    debug form of a string are arguments.

    The names that pass make a namespace that is read in one way only; the
    names of tables made of them do not. *)

From Stdlib Require Import ZArith Lia Ascii String List.
From S2P Require Import Prelude F64 Bson Update IndexKey PyBson.
From stdpp Require Import base tactics list strings.

Open Scope list_scope.
Open Scope string_scope.

(** Source: smongo-py/src/wire_context.rs:69 (MAX_DB_NAME_LEN). *)
Definition MAX_DB_NAME_LEN : nat := 64.

(** Source: smongo-py/src/wire_context.rs:70 (MAX_COLL_NAME_LEN). *)
Definition MAX_COLL_NAME_LEN : nat := 120.

(** Source: smongo-py/src/wire_context.rs:72-74 (has_invalid_ns_char). *)
Definition has_invalid_ns_char (s : string) : bool := has_char "000" s || has_char "/" s || has_char "\" s.

(** [contains("..")]. *)
Fixpoint has_two_dots (s : string) : bool :=
  match s with
  | String "." (String "." _) => true
  | String _ s => has_two_dots s
  | "" => false
  end.

Section Namespace.
Context (str_trim str_debug : string -> string).

(** Source: smongo-py/src/wire_context.rs:77-132 (validate_namespace). *)
Definition validate_namespace (db_name coll_name : string) : result unit pyerr :=
  if (db_name =s? "") || negb (db_name =s? str_trim db_name) then Err (NamespaceError ("invalid database name: " ++ str_debug db_name))
  else if (MAX_DB_NAME_LEN <? String.length db_name)%nat then Err (NamespaceError "database name exceeds 64 characters")
  else if has_invalid_ns_char db_name then Err (NamespaceError ("database name contains forbidden characters: " ++ str_debug db_name))
  else if has_char "." db_name then Err (NamespaceError ("database name cannot contain '.': " ++ str_debug db_name))
  else if starts_with "$" db_name then Err (NamespaceError ("database name cannot start with '$': " ++ str_debug db_name))
  else if (coll_name =s? "") || negb (coll_name =s? str_trim coll_name) then Err (NamespaceError ("invalid collection name: " ++ str_debug coll_name))
  else if (MAX_COLL_NAME_LEN <? String.length coll_name)%nat then Err (NamespaceError "collection name exceeds 120 characters")
  else if has_invalid_ns_char coll_name then Err (NamespaceError ("collection name contains forbidden characters: " ++ str_debug coll_name))
  else if starts_with "$" coll_name && negb (coll_name =s? "$cmd") && negb (coll_name =s? "$external")
  then Err (NamespaceError ("collection name cannot start with '$': " ++ str_debug coll_name))
  else if has_two_dots coll_name then Err (NamespaceError ("collection name cannot contain '..': " ++ str_debug coll_name))
  else Ok tt.

Lemma first_dot a : forall b x y, no_char "." a = true -> no_char "." b = true ->
  a ++ String "." x = b ++ String "." y -> a = b /\ x = y.
Proof.
  induction a as [|c a IH]; intros [|c' b] x y Ha Hb H; rewrite ?str_cons_app in H; cbn [String.append no_char] in *.
  - by injection H as ->.
  - injection H as <- H. apply andb_true_iff in Hb as [Hb _]. by vm_compute in Hb.
  - injection H as -> H. apply andb_true_iff in Ha as [Ha _]. by vm_compute in Ha.
  - injection H as -> H. apply andb_true_iff in Ha as [_ Ha], Hb as [_ Hb]. destruct (IH b x y Ha Hb H) as [-> ->]. done.
Qed.

Lemma validated db coll : validate_namespace db coll = Ok tt ->
  db <> "" /\ coll <> "" /\ (String.length db <= 64)%nat /\ (String.length coll <= 120)%nat /\ no_char "." db = true /\
  has_invalid_ns_char db = false /\ has_invalid_ns_char coll = false /\ has_two_dots coll = false.
Proof.
  unfold validate_namespace. destruct (String.eqb_spec db "") as [|Hd]; [done|]. cbn [orb]. destruct (negb (db =s? _)); [done|].
  destruct (Nat.ltb_spec MAX_DB_NAME_LEN (String.length db)); [done|]. destruct (has_invalid_ns_char db) eqn:E1; [done|].
  destruct (has_char "." db) eqn:E2; [done|]. destruct (starts_with "$" db); [done|].
  destruct (String.eqb_spec coll "") as [|Hc]; [done|]. cbn [orb]. destruct (negb (coll =s? _)); [done|].
  destruct (Nat.ltb_spec MAX_COLL_NAME_LEN (String.length coll)); [done|]. destruct (has_invalid_ns_char coll) eqn:E3; [done|].
  destruct (_ && _); [done|]. destruct (has_two_dots coll) eqn:E4; [done|]. intros _. split_and!; try done. by apply negb_false_iff in E2.
Qed.

(** Two pairs of names that are accepted have the same namespace only when they are the same pair; what is accepted
    has no separator of paths in it, and is no longer than 64 and 120 bytes. *)
Theorem namespace_unambiguous db1 coll1 db2 coll2 :
  validate_namespace db1 coll1 = Ok tt -> validate_namespace db2 coll2 = Ok tt ->
  (String.length (db1 ++ "." ++ coll1) <= 185)%nat /\ has_invalid_ns_char db1 = false /\ has_invalid_ns_char coll1 = false /\
  (db1 ++ "." ++ coll1 = db2 ++ "." ++ coll2 -> db1 = db2 /\ coll1 = coll2).
Proof.
  intros H1 H2. apply validated in H1 as (_ & _ & L1 & L2 & N1 & I1 & I2 & _), H2 as (_ & _ & _ & _ & N2 & _).
  split_and!; [|done|done|].
  - rewrite !str_length_app. cbn [String.length]. lia.
  - intros H. apply (first_dot db1 db2); [done|done|]. exact H.
Qed.
End Namespace.

Section Runs.
Definition same (s : string) : string := s.

Lemma namespace_unambiguous_witness :
  validate_namespace same same "app" "users.old" = Ok tt /\ (String.length ("app" ++ "." ++ "users.old") <= 185)%nat.
Proof. split; [reflexivity|]. apply (namespace_unambiguous same same "app" "users.old" "app" "users" eq_refl eq_refl). Defined.

(** The name of the oplog's table of a collection is made with a character that may be in both names: two collections can share it.  The name itself
    is accepted as that of a collection. *)
Theorem oplog_tables_collide :
  let table db coll := "__oplog_" ++ db ++ "_" ++ coll in
  validate_namespace same same "a_b" "c" = Ok tt /\ validate_namespace same same "a" "b_c" = Ok tt /\ table "a_b" "c" = table "a" "b_c" /\
  validate_namespace same same "app" (table "a" "b_c") = Ok tt.
Proof. vm_compute. split_and!; reflexivity. Qed.
End Runs.
